(* ===== verification/_CoqProject ===== *)
-Q . S2P
Prelude.v
Tasks.v
Bytes.v
Frame.v
MuxStream.v
MuxConnection.v
MuxNet.v
Scheduler.v
LinkEgress.v
Routing.v
Text.v
Utf8.v
Str.v
Ansi.v
Screen.v
ScreenInvariant.v
Terminal.v
TerminalFeed.v
TerminalInvariant.v
TerminalText.v
TerminalDraw.v
Keys.v
Numbers.v
Decimal.v
SessionCatalog.v
AgentDetector.v
ProcessTree.v
ProcessMonitor.v
ProcessSources.v
Protocol.v
Codec.v
CodecRoundTrip.v
Observer.v
AuthorityTransport.v
ControlPlane.v
MainSlot.v
RemoteSession.v
HostGrid.v
Bootstrap.v
HostIo.v
HostStreams.v
TargetHost.v
Mirror.v
NodeTypes.v
NodeState.v
StateLoop.v
Replies.v
NodeFrame.v
NodeInvariant.v
NodeWorkers.v
NodeProps.v
Workers.v
ClientProtocol.v
Grpc.v
RuntimeOwner.v
SessionSync.v
Ingress.v
IngressProps.v
NodeDefects.v
Capacity.v
ConnectionTable.v
Presence.v
Enrollment.v
Relay.v
Admin.v
RelayLink.v
RelaySafety.v
RelayPaths.v
RelayRaces.v
