(* ===== verification/Prelude.v ===== *)
(** * WaitAgent: a verification development

    WaitAgent connects terminals on several machines. A session runs on one
    machine, in a pseudo-terminal with an emulator behind it; viewers on other
    machines mirror it: they send what is typed and are sent what is printed,
    and feed it to an emulator of their own. Machines that cannot reach each
    other meet at a relay: every node keeps one TLS link to it, and streams
    between nodes are multiplexed over the links. This development models the
    relay, the multiplexer at both ends of a link, the administration and
    enrollment around them, the terminal emulator, the protocol of mirrored
    sessions and both ends of a mirror, as functions of Rocq that can be run,
    and proves what makes them correct, and where they are not.

    ** The parts, and where they are

    The source paths are under [src/src/]; in the first part, on the relay,
    under [src/src/infra/].

    - [Prelude], [Tasks], [Bytes], [Text]: results, machine integers, lists,
      sums over maps; programs of atomic actions and their interleavings;
      bytes, big-endian integers, UTF-8; case folding and paths.
    - [Frame]: [relay_mux/frame.rs]. The sixteen frame types, their encoding
      and decoding with every error, reading and writing a transport.
    - [MuxStream]: [relay_mux/stream.rs], [relay_mux/mod.rs]. A stream's cell
      ([stream_cell]: the state behind its [Arc], the chunk channel, the
      leftover of a partial read) and its polls.
    - [MuxConnection]: [relay_mux/connection.rs]. The connection: stream
      table, heap of cells, outbound queue, wakers; opening, accepting,
      control frames; the reader's [dispatch], the writer's [writer_step],
      failure and drop. [conn_exec] runs one event of any task.
    - [MuxNet]: two connections joined by two wires, the abstract one-way
      stream [leg] (a first-in first-out queue of bytes with credit) and the
      simulation of it by the network.
    - [Scheduler]: [relay_scheduler.rs]. The relay's egress for one link: the
      ingress channels, the consumer task ([consumer_step]), the buckets, the
      deficit round robin ([drr_pass]) and the writer task ([writer_step]).
    - [LinkEgress]: [Scheduler]'s wire order read by [MuxConnection].
    - [Routing]: [relay_routing.rs]. Error codes; the table of route legs.
    - [Capacity]: [relay_capacity.rs]. Limits, admission, throughput meter.
    - [ConnectionTable]: [relay_connection_table.rs]. The registry of links,
      with the cells its entries share, labels and their resolution.
    - [Presence]: [relay_presence.rs]. The watchers map.
    - [Enrollment]: [relay_enrollment.rs]. Tokens, their persistence over a
      file-system model, the whitelist files, the enrollment decision.
    - [Relay]: the state the relay's tasks share, programs of atomic actions
      over it, the interface [Egress] between links and schedulers, and the
      rely/guarantee rules for interleaved programs.
    - [Admin]: [relay_admin.rs], [relay_remote_admin.rs]. Both command
      grammars and all handlers.
    - [RelayLink]: [relay_link.rs] and parts of [relay_server.rs]. [run_link]
      with registration, dispatch, stream opening, forwarding and epilogue;
      the sweeper, the enrollment session, ALPN routing.
    - [RelaySafety], [RelayPaths], [RelayRaces]: theorems on the relay: in
      every interleaving, of the handlers run alone, and of particular
      interleavings.

    The terminal emulator of the viewers:

    - [Utf8], [Decimal]: [decode_utf8_chars] of [terminal/ansi.rs] and the
      validation it calls; decimal numbers.
    - [Ansi]: the rest of [terminal/ansi.rs], [terminal/types.rs]. Styles and
      their escape sequences, rows and their rendering, the parser of rendered
      lines, parameters.
    - [Screen], [ScreenInvariant]: [ScreenBuffer] of [terminal/engine.rs],
      every operation with the panics of its index accesses as [fault]; its
      invariant.
    - [Terminal]: [TerminalEngine]: the feed loop, escape sequences, modes,
      charsets, both screens, synchronized updates, replies.
    - [TerminalFeed], [TerminalInvariant], [TerminalText], [TerminalDraw]:
      theorems on it: cut input, well-formedness, what is shown, redrawing.

    Mirrored sessions:

    - [SessionCatalog]: [domain/session_catalog.rs]. Records and addresses.
    - [Protocol], [Codec], [CodecRoundTrip]: [infra/remote_protocol.rs],
      [infra/remote_transport_codec.rs]. Payloads, envelopes and frames, all
      writers and readers; their exactness.
    - [Observer]: [remote/observer.rs]. The viewer's model of the screen, fed
      from a mailbox and directly, with the watermark against duplicates, and
      its specification [show_run].
    - [AuthorityTransport]: [remote/authority/remote_authority_transport_runtime.rs],
      [remote/node/remote_node_transport_runtime.rs]: handshakes, the command
      reader, senders, and the bridges between framed and bare connections.
    - [RemoteSession]: [ratatui_node/remote_session.rs]. The viewer's session:
      requests, the connection's reader, reconnection, the watchdog.
    - [HostGrid], [HostIo], [HostStreams]: [ratatui_node/local_session.rs],
      [ratatui_node/authority_host_io_loop.rs]: rendering of the host's grid,
      the bootstrap frame, the loop that owns the pseudo-terminals ([io_step]),
      and theorems on its streams.
    - [Bootstrap]: the bootstrap frame of [HostGrid] fed to the emulator of
      [Terminal].
    - [TargetHost]: [remote/node/remote_node_session_sync_runtime/local_session_sync_backends.rs].
      The host's reader of commands, pasted files, the output pump and the
      forwarder.
    - [ControlPlane], [MainSlot]:
      [remote/main_slot/remote_control_plane_service.rs],
      [remote/main_slot/remote_main_slot_runtime.rs], [remote/transport.rs].
      Sessions, consoles, epochs and output logs of the control plane, and
      the runtime that delivers its messages.
    - [Mirror]: theorems on a whole mirror, from the keyboard to the host's
      terminal and from there to the viewer's screen.

    A node and its user:

    - [Str], [Numbers]: the operations of [str] the source uses; printed
      numbers are read back.
    - [AgentDetector]: [domain/agent_detector*.rs] and
      [domain/interpreter_command_name_resolver.rs]. What runs in a session
      and in which state it is, from process names, the pane and hook events.
    - [ProcessTree], [ProcessMonitor], [ProcessSources]: [process_monitor/].
      Process trees, the monitor that follows them, the kernel's messages
      and snapshots it is fed from.
    - [Keys]: [ratatui_node/logical_key.rs], [ratatui_node/key_translation.rs].
    - [NodeTypes], [NodeState]: [ratatui_node/state_event.rs],
      [ratatui_node/runtime.rs], [ratatui_node/snapshot.rs]. [SharedState] with
      its operations, and the snapshot a client is shown.
    - [StateLoop]: [ratatui_node/state_loop.rs]. The single writer of a node:
      [handle_event] handles one event.
    - [Replies], [NodeFrame], [NodeInvariant], [NodeWorkers], [NodeProps],
      [NodeDefects]: theorems on it: the answers to clients, with the threads
      it leaves work to; what each event can change; the catalog; the workers;
      sessions and keys; and where it does not do what it means to.
    - [Workers]: [ratatui_node/*_worker.rs], [ratatui_node/network_probe.rs],
      [ratatui_node/client_writer.rs]. The loops of the node's threads.
    - [ClientProtocol]: [ratatui_node/client.rs] and the lines that
      [ratatui_node/client_runtime.rs] writes. The lines between a client and
      its node.
    - [Grpc]: [remote/node/remote_node_session_runtime.rs] and the messages of
      [proto/waitagent/remote/v1/node_session.proto]. The envelopes between
      nodes.
    - [RuntimeOwner]: [remote/node/remote_runtime_owner_runtime.rs]. The table
      of the sessions peers have published, and its line protocol.
    - [SessionSync]: [remote/node/remote_node_session_sync_runtime/sync_helpers.rs].
      The source: what was published to a peer, with revisions,
      acknowledgements and retries, and the loop that publishes the catalog.
    - [Ingress]: [remote/node/remote_node_ingress_server_runtime.rs] and
      [remote/publication/]. The receiver: the peers' sessions, publications
      applied to the owner and signalled to the node's loop, bridges to
      mirrors, dialing.
    - [IngressProps]: theorems on the source, the receiver and its owner
      together.

    ** How the code is represented

    Unsigned integers are [Z] with their width stated ([fits], [wrap]);
    strings are Rocq strings that are UTF-8 where the source has a [String];
    [Result] is [result]; a future's poll is [poll]. Shared mutable objects
    live in stores: stream cells in a heap by address, table cells by
    connection id, so that a handle kept after its entry was removed still
    refers to the same cell. A lock section, a channel operation or a file
    operation is one atomic step; a task is a step function or a program of
    such steps. Wakers and [Notify] permits are modelled as the slots the
    code keeps, so lost wake-ups are visible. The order in which a
    [HashMap] is traversed is an argument, or immaterial. Time, random
    tokens and what a socket delivers are arguments. A stream with a read
    timeout is a list of bytes and quiet periods ([arrival]); a read that
    meets a quiet period fails and has consumed what it had. What the kernel
    answers to reads and writes of a pseudo-terminal is an input of the loop's
    calls, and the third-party emulator of the host is the class [HostTerm]
    with the laws [HostTermLaws]. The viewer's texts are lists of scalar
    values.

    ** What the theorems show

    - Codec ([Frame]): encoding and reading back any sequence of frames is
      the identity, what is read is canonical, truncated and oversized input
      is refused.
    - Multiplexer ([MuxConnection], [MuxNet]): well-formedness of every
      reachable connection; isolation of streams; delivery of everything
      received before a failure or a reset; each stream is a first-in
      first-out queue with conserved credit; when senders do and do not
      stall.
    - Scheduler: memory bounds, order, service of every backlog, complete
      and terminating flush; the fairness bound that does not hold.
    - Relay: pairing of routes, teardown, half-close; authenticity of every
      registration, route and watch in every interleaving; order and
      completeness of forwarding; admission; a one-time token enrolls
      once between two starts of the relay; the enrolled identity.
    - Terminal: no input and no resize makes it panic or breaks its shape; how
      input is cut into pieces is immaterial; decoding agrees with a
      character-wise reference; styles and screens survive rendering and
      parsing; printed lines and scrolled lines are where they should be.
    - Protocol: reading accepts exactly what writing produces; commands arrive
      in order, and what happens when a timeout falls inside a message.
    - Mirrors: the observer refines a terminal fed exactly the accepted
      output, once; the host's terminal has the size of its active console;
      its input and output streams lose and reorder nothing; pasted files
      arrive whole; the bootstrap frame redraws the host's screen, and loses the
      newest history (rows with stored tabs or leading spacers are not
      reproduced); the mirror is requested whatever the race; typed bytes
      reach the terminal and printed bytes the screen, end to end.
    - Nodes: the bytes a client writes are the commands the loop is told (for
      arguments that fit a line), and a command is
      answered exactly once; one connect per profile and one worker per node
      and task; workers end and report; the catalog stays consistent, and what
      is shown does not depend on the order of hash tables; keys are written
      distinctly and reach their session; the process
      monitor's events give the state it derived, from any process tree.
    - Between nodes: commands survive their envelopes; the owner's line
      protocol has exactly the effect of its commands (for fields that fit a
      line), and keeps the sessions of a node that is off line for two
      minutes; in whatever order and however often the messages of a
      connection are handled, the receiver ends with the catalog the source
      read last.
    - Defects: the theorems about stalls, lost wake-ups, overtaking frames,
      orphaned and dangling routes, missed revocations, revived tokens and
      file deletion state what the code does instead of what it means to do.

    ** Bounds and fuel

    Most loops are structural over their input (frames, buckets, keys, inputs
    of a link). The terminal's feed loop takes fuel from a measure of its
    input, and [terminal_is_well_formed] shows it always returns; the readers
    of a connection take one more than the number of arrivals, each of which a
    turn consumes ([recv_command], [reader_loop], [target_host],
    [forward_ratatui_host_output]), and lemmas show that is enough. Terminals
    are assumed to have 1 to 65535 rows and 1 to 65528 columns, because the
    column of a tab stop is computed in 16 bits, and erasing indexes the row
    ([odd_sizes_panic] shows both panics); a loop's tokens are assumed not to have
    wrapped at 2^64. [teardown_flushes] bounds the steps of
    the scheduler's tasks by a weight of the state. Connection ids are 64-bit
    and repeat after 2^64 registrations, which [relay_identities_are_authentic]
    assumes has not happened; relay stream ids are 32-bit and wrap.

    ** What is not modelled

    TLS, sockets, pseudo-terminals and the other operating-system services;
    SHA-256, JSON and Unicode tables, which are parameters with stated laws
    ([TokenCodec], [AdminJson], [RustText]) and instances for the witnesses;
    poisoned locks; log output; the variants for Windows. The node's relay
    client, the gRPC transport itself, the manager of authority hosts, the
    rendering of the user interface, hosts over SSH and the web dashboard are not modelled. *)

From Stdlib Require Export ZArith Lia.
From Stdlib Require Export Strings.Byte.
From stdpp Require Export base tactics list gmap strings numbers sorting.

#[global] Open Scope Z_scope.

(** ** Results

    Rust's [Result<A, E>]; [let?] is the [?] operator. *)

Inductive result (A E : Type) : Type :=
| Ok (a : A)
| Err (e : E).
Arguments Ok {A E} a.
Arguments Err {A E} e.

Declare Scope rust_scope.
Delimit Scope rust_scope with rust.
#[global] Open Scope rust_scope.

Notation "'let?' x ':=' c 'in' k" :=
  (match c with Ok x => k | Err e => Err e end)
  (at level 10, x pattern, c at level 200, k at level 200) : rust_scope.

Definition is_ok {A E} (r : result A E) : bool :=
  match r with Ok _ => true | Err _ => false end.

(** ** Machine integers

    An unsigned [w]-bit integer is a [Z] in [fits w]; [wrap w] is the
    wrap-around of Rust's atomics and [as] casts. *)

Definition wrap (w z : Z) : Z := z mod 2 ^ w.
Definition fits (w z : Z) : Prop := 0 <= z < 2 ^ w.

#[global] Instance fits_dec w z : Decision (fits w z).
Proof. unfold fits. apply _. Defined.

(** Rust's [usize] length of a [Vec], slice or [VecDeque]. *)
Definition len {A} (l : list A) : Z := Z.of_nat (length l).

Lemma len_nonneg {A} (l : list A) : 0 <= len l.
Proof. unfold len. lia. Qed.

Lemma len_app {A} (l k : list A) : len (l ++ k) = len l + len k.
Proof. unfold len. rewrite length_app. lia. Qed.

(** [Option::ok_or] / [Result::map_err] with a constant error. *)
Definition ok_or {A E} (o : option A) (e : E) : result A E :=
  match o with Some a => Ok a | None => Err e end.

Lemma ok_or_Ok {A E} (o : option A) (e : E) a : ok_or o e = Ok a <-> o = Some a.
Proof. destruct o; simpl; split; congruence. Qed.

Lemma ltb_le_false a b : b <= a -> (a <? b) = false.
Proof. intros. apply Z.ltb_ge. lia. Qed.

(** ** Sums over finite maps *)

Section map_sum.
Context `{Countable K} {A : Type} (f : A -> Z).

Definition map_sum (m : gmap K A) : Z := map_fold (fun _ a acc => f a + acc) 0 m.

Lemma map_sum_empty : map_sum ∅ = 0.
Proof. done. Qed.

Lemma map_sum_insert_new m k a : m !! k = None -> map_sum (<[k := a]> m) = f a + map_sum m.
Proof. intros Hk. unfold map_sum. rewrite map_fold_insert_L; [done|lia|done]. Qed.

Lemma map_sum_delete m k a : m !! k = Some a -> map_sum m = f a + map_sum (delete k m).
Proof.
  intros Hk. rewrite <- (insert_delete_id m k a Hk) at 1.
  apply map_sum_insert_new, lookup_delete_eq.
Qed.

Lemma map_sum_insert m k a :
  map_sum (<[k := a]> m) = map_sum m - from_option f 0 (m !! k) + f a.
Proof.
  destruct (m !! k) as [b|] eqn:Hk; simpl.
  - rewrite (map_sum_delete m k b Hk), <- insert_delete_eq.
    rewrite map_sum_insert_new by apply lookup_delete_eq. lia.
  - rewrite map_sum_insert_new by done. lia.
Qed.

Lemma map_sum_nonneg m : map_Forall (fun _ a => 0 <= f a) m -> 0 <= map_sum m.
Proof.
  intros Hm. induction m as [|k a m Hk IH] using map_ind; [done|].
  apply map_Forall_insert in Hm as [Ha Hm]; [|done].
  rewrite map_sum_insert_new by done. specialize (IH Hm). lia.
Qed.

Lemma map_sum_le m k a :
  map_Forall (fun _ a => 0 <= f a) m -> m !! k = Some a -> f a <= map_sum m.
Proof.
  intros Hm Hk. rewrite (map_sum_delete m k a Hk).
  assert (0 <= map_sum (delete k m)); [|lia].
  apply map_sum_nonneg. by apply map_Forall_delete.
Qed.

Lemma map_sum_zero m : map_Forall (fun _ a => f a = 0) m -> map_sum m = 0.
Proof.
  intros Hm. induction m as [|k a m Hk IH] using map_ind; [done|].
  apply map_Forall_insert in Hm as [Ha Hm]; [|done].
  rewrite map_sum_insert_new by done. specialize (IH Hm). lia.
Qed.

  (** Filtering out entries of value zero. *)
Lemma map_sum_filter (P : K * A -> Prop) `{!forall x, Decision (P x)} m :
  map_Forall (fun k a => P (k, a) \/ f a = 0) m -> map_sum (filter P m) = map_sum m.
Proof.
  intros Hm. induction m as [|k a m Hk IH] using map_ind; [done|].
  apply map_Forall_insert in Hm as [Ha Hm]; [|done]. specialize (IH Hm).
  rewrite (map_sum_insert_new m k a Hk). destruct (decide (P (k, a))) as [Hp|Hp].
  - rewrite map_filter_insert_True by done. rewrite map_sum_insert_new; [lia|].
    apply map_lookup_filter_None. by left.
  - rewrite map_filter_insert_False by done. rewrite delete_id by done.
    destruct Ha; [done|lia].
Qed.
End map_sum.
