(* ===== verification/Tasks.v ===== *)
(** * Tasks: programs of atomic actions

    A task of the source is a program: a sequence of atomic actions, one per
    lock section, atomic variable, channel operation or file operation, so
    that a handler is written once, reads like the source, and can be run
    alone ([run]) or interleaved with others ([pool_step]). An action that
    answers [None] waits: an [await] on a full queue, or on an event that has
    not happened. *)

From S2P Require Import Prelude.

(** ** Programs *)

Inductive prog (W A : Type) : Type :=
| Ret (a : A)
| Act (f : W -> option (W * prog W A)).
Arguments Ret {W A} a.
Arguments Act {W A} f.

Fixpoint bind {W A B} (p : prog W A) (k : A -> prog W B) : prog W B :=
  match p with
  | Ret a => k a
  | Act f => Act (fun w => match f w with Some (w1, p1) => Some (w1, bind p1 k) | None => None end)
  end.

Notation "'let!' x ':=' p 'in' k" := (bind p (fun x => k))
  (at level 10, x pattern, p at level 200, k at level 200) : rust_scope.

(** The program run alone: its answer and the state left, or [None] when it
    waits for something nobody will do. *)
Fixpoint run {W A} (p : prog W A) (w : W) : option (A * W) :=
  match p with
  | Ret a => Some (a, w)
  | Act f => match f w with Some (w1, p1) => run p1 w1 | None => None end
  end.

(** A single action. *)
Definition act {W A} (f : W -> option (W * A)) : prog W A :=
  Act (fun w => match f w with Some (w1, a) => Some (w1, Ret a) | None => None end).

(** One action of the [i]th task. *)
Definition pool_step {W} (i : nat) (w : W) (tasks : list (prog W unit))
    : option (W * list (prog W unit)) :=
  match tasks !! i with
  | Some (Act f) =>
      match f w with
      | Some (w1, p1) => Some (w1, <[i := p1]> tasks)
      | None => None
      end
  | _ => None
  end.

Fixpoint pool_run {W} (schedule : list nat) (w : W) (tasks : list (prog W unit))
    : option (W * list (prog W unit)) :=
  match schedule with
  | [] => Some (w, tasks)
  | i :: schedule =>
      match pool_step i w tasks with
      | Some (w1, tasks1) => pool_run schedule w1 tasks1
      | None => None
      end
  end.

(** ** Interleaving

    A rely/guarantee reading of programs: [I] holds between actions, [R] is
    what every task's actions do to the state, and [safe I R p Q w] says that
    [p], started in [w], only takes actions that keep [I] and are in [R],
    whatever the others do in between, and ends with [Q]. *)

Section rely_guarantee.
Context {W : Type} (I : W -> Prop) (R : W -> W -> Prop) `{!PreOrder R}.

Fixpoint safe {A} (p : prog W A) (Q : A -> W -> Prop) (w : W) : Prop :=
  match p with
  | Ret a => Q a w
  | Act f =>
      forall w1, R w w1 -> I w1 ->
      match f w1 with
      | None => True
      | Some (w2, p1) => I w2 /\ R w1 w2 /\ safe p1 Q w2
      end
  end.

Definition stable {A} (Q : A -> W -> Prop) : Prop :=
  forall a w w1, R w w1 -> Q a w -> Q a w1.

End rely_guarantee.

(** Induction over the actions a program can still take. *)
Lemma prog_actions_ind {W A} (P : prog W A -> Prop) :
  (forall a, P (Ret a)) ->
  (forall f, (forall w w1 p1, f w = Some (w1, p1) -> P p1) -> P (Act f)) ->
  forall p, P p.
Proof.
  intros Hret Hact. fix IH 1. intros [a|f]; [apply Hret|].
  apply Hact. intros w. destruct (f w) as [[w2 p2]|]; intros w1 p1 E; [|discriminate E].
  pose proof (IH p2) as Hp. injection E as _ E. rewrite <- E. exact Hp.
Qed.

Lemma run_bind {W A B} (p : prog W A) (k : A -> prog W B) w :
  run (bind p k) w = match run p w with Some (a, w1) => run (k a) w1 | None => None end.
Proof.
  revert w. induction p as [a|f IH] using prog_actions_ind; intros w; simpl; [done|].
  destruct (f w) as [[w1 p1]|] eqn:Ef; [|done]. by eapply IH.
Qed.

Lemma run_act {W A} (f : W -> option (W * A)) w :
  run (act f) w = match f w with Some (w1, a) => Some (a, w1) | None => None end.
Proof. simpl. by destruct (f w) as [[]|]. Qed.

Section rules.
Context {W : Type} (I : W -> Prop) (R : W -> W -> Prop) `{!PreOrder R}.

Lemma safe_mono {A} (p : prog W A) Q w w1 :
  stable R Q -> R w w1 -> safe I R p Q w -> safe I R p Q w1.
Proof.
  intros HQ Hr. destruct p as [a|f]; simpl; [by apply HQ|].
  intros Hs w2 H2. apply Hs. by etrans.
Qed.

Lemma safe_weaken {A} (p : prog W A) (Q Q1 : A -> W -> Prop) w :
  (forall a w1, Q a w1 -> Q1 a w1) -> safe I R p Q w -> safe I R p Q1 w.
Proof.
  intros HQ. revert w. induction p as [a|f IH] using prog_actions_ind; intros w; simpl; [apply HQ|].
  intros Hs w1 H1 HI. specialize (Hs w1 H1 HI). destruct (f w1) as [[w2 p1]|] eqn:Ef; [|done].
  destruct Hs as (? & ? & ?). split_and!; [done..|]. by eapply IH.
Qed.

Lemma safe_bind {A B} (p : prog W A) (k : A -> prog W B) Q Q1 w :
  safe I R p Q w -> (forall a w1, R w w1 -> Q a w1 -> safe I R (k a) Q1 w1) ->
  safe I R (bind p k) Q1 w.
Proof.
  revert w. induction p as [a|f IH] using prog_actions_ind; intros w; simpl.
  - intros HQ Hk. by apply Hk.
  - intros Hs Hk w1 H1 HI. specialize (Hs w1 H1 HI).
    destruct (f w1) as [[w2 p1]|] eqn:Ef; [|done]. destruct Hs as (? & ? & ?).
    split_and!; [done..|]. eapply IH; [done..|]. intros a w3 H3. apply Hk. by do 2 (etrans; [done|]).
Qed.

Lemma safe_act {A} (f : W -> option (W * A)) (Q : A -> W -> Prop) w :
  (forall w1 w2 a, R w w1 -> I w1 -> f w1 = Some (w2, a) -> I w2 /\ R w1 w2 /\ Q a w2) ->
  safe I R (act f) Q w.
Proof.
  intros Hf w1 H1 HI. destruct (f w1) as [[w2 a]|] eqn:Ef; [|done].
  destruct (Hf w1 w2 a H1 HI Ef) as (? & ? & ?). done.
Qed.

Lemma pool_step_safe i w tasks w1 tasks1 :
  I w -> Forall (fun p => safe I R p (fun _ _ => True) w) tasks ->
  pool_step i w tasks = Some (w1, tasks1) ->
  I w1 /\ R w w1 /\ Forall (fun p => safe I R p (fun _ _ => True) w1) tasks1.
Proof.
  intros HI Hs Hstep. unfold pool_step in Hstep.
  destruct (tasks !! i) as [[a|f]|] eqn:Hi; [done| |done].
  pose proof (Forall_lookup_1 _ _ _ _ Hs Hi) as Hf. simpl in Hf. specialize (Hf w ltac:(reflexivity) HI).
  destruct (f w) as [[w2 p1]|]; [|done]. simplify_eq. destruct Hf as (HI1 & HR & Hp).
  split_and!; [done..|]. apply Forall_insert; [|done].
  eapply Forall_impl; [exact Hs|]. intros p. by apply safe_mono.
Qed.

End rules.
