(* ===== verification/Bytes.v ===== *)
(** * Bytes: big-endian integers, UTF-8 and byte strings

    What the frame codec uses of Rust's standard library: [uN::to_be_bytes]
    and [uN::from_be_bytes], [String::from_utf8] / [str::as_bytes], and the
    ASCII case folding of [str::eq_ignore_ascii_case]. A Rust [String] is a
    Rocq [string] (each [ascii] is one byte) whose bytes are valid UTF-8. *)

From S2P Require Import Prelude.
From Stdlib Require Strings.String.

(** ** Bytes and their values *)

Definition byte_val (b : byte) : Z := Z.of_N (Byte.to_N b).

Definition byte_of (z : Z) : byte :=
  match Byte.of_N (Z.to_N (z mod 256)) with Some b => b | None => x00 end.

Lemma byte_val_range b : 0 <= byte_val b < 256.
Proof. unfold byte_val. pose proof (Byte.to_N_bounded b). lia. Qed.

Lemma byte_val_of z : byte_val (byte_of z) = z mod 256.
Proof.
  unfold byte_val, byte_of.
  pose proof (Z.mod_pos_bound z 256 ltac:(lia)) as Hz.
  destruct (Byte.of_N _) as [b|] eqn:E.
  - apply Byte.to_of_N in E. rewrite E. lia.
  - apply Byte.of_N_None_iff in E. lia.
Qed.

Lemma byte_of_val b : byte_of (byte_val b) = b.
Proof.
  unfold byte_of. pose proof (byte_val_range b).
  rewrite Z.mod_small by lia. unfold byte_val.
  by rewrite N2Z.id, Byte.of_to_N.
Qed.

Lemma byte_val_inj b c : byte_val b = byte_val c -> b = c.
Proof. intros H. by rewrite <- (byte_of_val b), H, byte_of_val. Qed.

#[global] Instance byte_eq_dec : EqDecision byte := Byte.byte_eq_dec.
#[global] Instance byte_inhabited : Inhabited byte := populate x00.

(** ** Big-endian encoding

    [be_bytes n z] is [z.to_be_bytes()] at [n] bytes; [be_val] is
    [from_be_bytes]. *)

Fixpoint be_bytes (n : nat) (z : Z) : list byte :=
  match n with
  | O => []
  | S m => byte_of (z / 256 ^ Z.of_nat m) :: be_bytes m z
  end.

Fixpoint be_val (bs : list byte) : Z :=
  match bs with
  | [] => 0
  | b :: rest => byte_val b * 256 ^ len rest + be_val rest
  end.

Lemma length_be_bytes n z : length (be_bytes n z) = n.
Proof. induction n; simpl; congruence. Qed.

Lemma pow256_pos n : 0 < 256 ^ Z.of_nat n.
Proof. apply Z.pow_pos_nonneg; lia. Qed.

Lemma pow256_S n : 256 ^ Z.of_nat (S n) = 256 * 256 ^ Z.of_nat n.
Proof. rewrite Nat2Z.inj_succ, Z.pow_succ_r by lia. done. Qed.

Lemma be_val_range bs : 0 <= be_val bs < 256 ^ len bs.
Proof.
  unfold len. induction bs as [|b bs IH]; simpl be_val; [simpl; lia|].
  rewrite length_cons, pow256_S. unfold len in *.
  pose proof (byte_val_range b). pose proof (pow256_pos (length bs)). nia.
Qed.

Lemma be_val_be_bytes n z : be_val (be_bytes n z) = z mod 256 ^ Z.of_nat n.
Proof.
  induction n as [|n IH]; simpl be_bytes; simpl be_val.
  - simpl. by rewrite Z.mod_1_r.
  - unfold len. rewrite IH, length_be_bytes, byte_val_of, pow256_S.
    pose proof (pow256_pos n).
    rewrite (Z.mul_comm 256 (256 ^ Z.of_nat n)), Z.rem_mul_r by lia. lia.
Qed.

Lemma be_round_trip n z :
  0 <= z < 256 ^ Z.of_nat n -> be_val (be_bytes n z) = z.
Proof. intros. rewrite be_val_be_bytes. by apply Z.mod_small. Qed.

Lemma be_bytes_mod_eq n z k :
  be_bytes n (z + k * 256 ^ Z.of_nat n) = be_bytes n z.
Proof.
  revert k. induction n as [|n IH]; intros k; simpl; [done|].
  pose proof (pow256_pos n). f_equal.
  - apply byte_val_inj. rewrite !byte_val_of, pow256_S.
    replace (z + k * (256 * 256 ^ Z.of_nat n))
      with (z + (k * 256) * 256 ^ Z.of_nat n) by ring.
    rewrite Z.div_add by lia. by rewrite Z_mod_plus_full.
  - rewrite pow256_S.
    replace (z + k * (256 * 256 ^ Z.of_nat n))
      with (z + (k * 256) * 256 ^ Z.of_nat n) by ring.
    apply IH.
Qed.

Lemma be_bytes_be_val bs : be_bytes (length bs) (be_val bs) = bs.
Proof.
  induction bs as [|b bs IH]; simpl; [done|].
  pose proof (pow256_pos (length bs)). pose proof (be_val_range bs). unfold len in *.
  f_equal.
  - rewrite Z.add_comm, Z.div_add, Z.div_small by lia. apply byte_of_val.
  - rewrite Z.add_comm, be_bytes_mod_eq. done.
Qed.

Lemma be_bytes_of n bs : length bs = n -> be_bytes n (be_val bs) = bs.
Proof. intros <-. apply be_bytes_be_val. Qed.

Lemma be_bytes_4 z : exists a b c d, be_bytes 4 z = [a; b; c; d].
Proof. simpl. eauto. Qed.

(** ** UTF-8

    [core::str::validations]: the byte ranges of RFC 3629, which exclude
    overlong forms, surrogates and code points above U+10FFFF. *)

Definition in_range (lo hi : Z) (b : byte) : bool :=
  (lo <=? byte_val b) && (byte_val b <=? hi).

Definition is_cont (b : byte) : bool := in_range 0x80 0xBF b.

Definition utf8_second_of_3 (b1 b2 : byte) : bool :=
  (in_range 0xE0 0xE0 b1 && in_range 0xA0 0xBF b2)
  || (in_range 0xE1 0xEC b1 && in_range 0x80 0xBF b2)
  || (in_range 0xED 0xED b1 && in_range 0x80 0x9F b2)
  || (in_range 0xEE 0xEF b1 && in_range 0x80 0xBF b2).

Definition utf8_second_of_4 (b1 b2 : byte) : bool :=
  (in_range 0xF0 0xF0 b1 && in_range 0x90 0xBF b2)
  || (in_range 0xF1 0xF3 b1 && in_range 0x80 0xBF b2)
  || (in_range 0xF4 0xF4 b1 && in_range 0x80 0x8F b2).

Fixpoint utf8_valid (bs : list byte) : bool :=
  match bs with
  | [] => true
  | b1 :: r1 =>
      if byte_val b1 <? 128 then utf8_valid r1
      else match r1 with
      | [] => false
      | b2 :: r2 =>
          if in_range 0xC2 0xDF b1 then is_cont b2 && utf8_valid r2
          else match r2 with
          | [] => false
          | b3 :: r3 =>
              if in_range 0xE0 0xEF b1
              then utf8_second_of_3 b1 b2 && is_cont b3 && utf8_valid r3
              else match r3 with
              | [] => false
              | b4 :: r4 =>
                  utf8_second_of_4 b1 b2 && is_cont b3 && is_cont b4 && utf8_valid r4
              end
          end
      end
  end.

Definition as_bytes (s : string) : list byte := String.list_byte_of_string s.

Definition from_utf8 (bs : list byte) : option string :=
  if utf8_valid bs then Some (String.string_of_list_byte bs) else None.

(** The type invariant of a Rust [String]. *)
Definition rust_string (s : string) : Prop := utf8_valid (as_bytes s) = true.

#[global] Instance rust_string_dec s : Decision (rust_string s).
Proof. unfold rust_string. apply _. Defined.

(** [str::len]: the byte length. *)
Definition str_len (s : string) : Z := len (as_bytes s).

Lemma from_utf8_as_bytes s : rust_string s -> from_utf8 (as_bytes s) = Some s.
Proof.
  intros H. unfold from_utf8. rewrite H. unfold as_bytes.
  by rewrite String.string_of_list_byte_of_string.
Qed.

Lemma from_utf8_Some bs s :
  from_utf8 bs = Some s -> bs = as_bytes s /\ rust_string s.
Proof.
  unfold from_utf8, rust_string, as_bytes.
  destruct (utf8_valid bs) eqn:E; [|done]. intros [= <-].
  by rewrite String.list_byte_of_string_of_list_byte.
Qed.

Lemma from_utf8_None bs : from_utf8 bs = None <-> utf8_valid bs = false.
Proof. unfold from_utf8. destruct (utf8_valid bs); split; congruence. Qed.

(** ** ASCII case folding *)

Definition ascii_lower_byte (b : byte) : byte :=
  if in_range 65 90 b then byte_of (byte_val b + 32) else b.

Definition ascii_lower (s : string) : string :=
  String.string_of_list_byte (map ascii_lower_byte (as_bytes s)).

Definition eq_ignore_ascii_case (s t : string) : bool :=
  bool_decide (ascii_lower s = ascii_lower t).

Definition is_ascii (s : string) : bool :=
  forallb (fun b => byte_val b <? 128) (as_bytes s).

Lemma ascii_lower_byte_idemp b :
  ascii_lower_byte (ascii_lower_byte b) = ascii_lower_byte b.
Proof.
  unfold ascii_lower_byte at 2 3. destruct (in_range 65 90 b) eqn:E; unfold ascii_lower_byte.
  - unfold in_range in *. rewrite byte_val_of. pose proof (byte_val_range b).
    apply andb_true_iff in E as [E1 E2]. rewrite Z.mod_small by lia.
    destruct (Z.leb_spec (byte_val b + 32) 90); [lia|]. by rewrite andb_false_r.
  - by rewrite E.
Qed.

Lemma ascii_lower_idemp s : ascii_lower (ascii_lower s) = ascii_lower s.
Proof.
  unfold ascii_lower, as_bytes at 1. rewrite String.list_byte_of_string_of_list_byte, map_map.
  f_equal. apply map_ext. intros b. apply ascii_lower_byte_idemp.
Qed.

#[global] Arguments be_bytes : simpl never.
#[global] Arguments be_val : simpl never.
#[global] Arguments as_bytes : simpl never.
#[global] Arguments utf8_valid : simpl never.
