(* ===== verification/Frame.v ===== *)
(** * Frame: the relay wire codec

    [src/infra/relay_mux/frame.rs] and the constants and error type of
    [src/infra/relay_mux/mod.rs]. A frame is a 10-byte big-endian header and
    a type-specific payload; [decode] checks every field, and [read_frame]
    reads one frame from an ordered byte source.

    Main results: every well-formed frame survives [encode] followed by
    [read_frame], also with other frames behind it; [read_frame] accepts
    nothing but encodings of well-formed frames (up to the boolean byte of
    [Presence]); a frame whose payload exceeds [MAX_FRAME_PAYLOAD] encodes
    but can never be read back. *)

From S2P Require Import Prelude Bytes.

(** ** Constants *)

Definition DEFAULT_STREAM_WINDOW : Z := 256 * 1024.
Definition WINDOW_GRANT_THRESHOLD : Z := DEFAULT_STREAM_WINDOW / 2.
Definition MAX_FRAME_PAYLOAD : Z := 16 * 1024.
Definition OUTBOUND_QUEUE : Z := 1024.
Definition INBOUND_CHUNK_QUEUE : Z := 64.
Definition ACCEPT_QUEUE : Z := 64.
Definition HEADER_LEN : nat := 10.
Definition MAX_NODE_ID_LEN : Z := 256.

(** ** Frame types *)

Inductive frame_type :=
| TOpen | TClose | TData | TWindow | TRegister | TUnregister | THeartbeat
| TOpenStream | TError | TCloseStream | TEnroll | TEnrollResponse
| TPresence | TWatch | TAdminRequest | TAdminResponse.

#[global] Instance frame_type_eq_dec : EqDecision frame_type.
Proof. solve_decision. Defined.

Definition wire_value (t : frame_type) : byte :=
  match t with
  | TOpen => x01 | TClose => x02 | TData => x03 | TWindow => x04
  | TRegister => x05 | TUnregister => x06 | THeartbeat => x07
  | TOpenStream => x08 | TError => x09 | TCloseStream => x0a
  | TEnroll => x0b | TEnrollResponse => x0c | TPresence => x0d
  | TWatch => x0e | TAdminRequest => x0f | TAdminResponse => x10
  end.

(** ** Frames *)

Inductive frame :=
| FOpen (stream_id : Z)
| FClose (stream_id : Z)
| FData (stream_id : Z) (payload : list byte)
| FWindow (stream_id : Z) (credit : Z)
| FRegister (node_id : string)
| FUnregister
| FHeartbeat
| FOpenStream (stream_id : Z) (target_node_id : string)
| FError (stream_id : Z) (code : Z) (message : string)
| FCloseStream (stream_id : Z)
| FEnroll (token : string)
| FEnrollResponse (fingerprint : string)
| FPresence (node_id : string) (online : bool)
| FWatch (node_id : string)
| FAdminRequest (seq : Z) (command : string)
| FAdminResponse (seq : Z) (body : string).

#[global] Instance frame_eq_dec : EqDecision frame.
Proof. solve_decision. Defined.

(** ** Errors

    Where the code formats a message for [ProtocolViolation],
    [ConnectionClosed] or a connection's close reason, the model keeps the
    format's arguments under one [reason] constructor per message. *)

Inductive mux_error :=
| Io (kind : string)
| InvalidFrameType (value : byte)
| InvalidFlags (flags : byte)
| PayloadTooLong (length : Z)
| InvalidPayload (t : frame_type) (length : Z)
| InvalidStreamId (t : frame_type) (stream_id : Z)
| TruncatedFrame
| UnknownStream (stream_id : Z)
| StreamClosed (stream_id : Z)
| ProtocolViolation (why : reason)
| ConnectionClosed (why : reason)
| NotRelayLink
with reason :=
| NoRecordedReason                         (* connection closed *)
| ErrorText (e : mux_error)                (* error.to_string() *)
| StreamStillLive (stream_id : Z)
| PeerReopened (stream_id : Z)
| AcceptDropped
| OpenOnRelayLink
| OpenWithLocalParity (stream_id : Z)
| OddOpenStream (stream_id : Z)
| NoControlChannel (t : frame_type)
| ControlDropped (t : frame_type)
| DataOnClosedStream (stream_id : Z)
| StreamDropped (stream_id : Z)
| ClosedTwice (stream_id : Z)
| WindowOverflow (stream_id : Z)
| NodeOnlyControlFrame
| RelayControlOnNodeLink
| OutboundQueueFull
| TargetIdTooLong (length : Z)
| ControlIdTooLong (length : Z)
| NotAControlFrame (f : frame).

Definition from_wire (value : byte) : result frame_type mux_error :=
  match value with
  | x01 => Ok TOpen | x02 => Ok TClose | x03 => Ok TData | x04 => Ok TWindow
  | x05 => Ok TRegister | x06 => Ok TUnregister | x07 => Ok THeartbeat
  | x08 => Ok TOpenStream | x09 => Ok TError | x0a => Ok TCloseStream
  | x0b => Ok TEnroll | x0c => Ok TEnrollResponse | x0d => Ok TPresence
  | x0e => Ok TWatch | x0f => Ok TAdminRequest | x10 => Ok TAdminResponse
  | other => Err (InvalidFrameType other)
  end.

(** ** Frame projections *)

Definition stream_id (f : frame) : Z :=
  match f with
  | FOpen sid | FClose sid | FData sid _ | FWindow sid _
  | FOpenStream sid _ | FError sid _ _ | FCloseStream sid => sid
  | FRegister _ | FUnregister | FHeartbeat | FEnroll _ | FEnrollResponse _
  | FPresence _ _ | FWatch _ | FAdminRequest _ _ | FAdminResponse _ _ => 0
  end.

Definition frame_type_of (f : frame) : frame_type :=
  match f with
  | FOpen _ => TOpen | FClose _ => TClose | FData _ _ => TData
  | FWindow _ _ => TWindow | FRegister _ => TRegister
  | FUnregister => TUnregister | FHeartbeat => THeartbeat
  | FOpenStream _ _ => TOpenStream | FError _ _ _ => TError
  | FCloseStream _ => TCloseStream | FEnroll _ => TEnroll
  | FEnrollResponse _ => TEnrollResponse | FPresence _ _ => TPresence
  | FWatch _ => TWatch | FAdminRequest _ _ => TAdminRequest
  | FAdminResponse _ _ => TAdminResponse
  end.

Definition is_bulk_ordered (f : frame) : bool :=
  match f with
  | FData _ _ | FWindow _ _ | FClose _ => true
  | _ => false
  end.

Definition payload_len (f : frame) : Z :=
  match f with
  | FOpen _ | FClose _ => 0
  | FData _ payload => len payload
  | FWindow _ _ => 8
  | FRegister node_id | FOpenStream _ node_id => str_len node_id
  | FError _ _ message => 2 + str_len message
  | FUnregister | FHeartbeat | FCloseStream _ => 0
  | FEnroll token => str_len token
  | FEnrollResponse fingerprint => str_len fingerprint
  | FPresence node_id _ => str_len node_id + 1
  | FWatch node_id => str_len node_id
  | FAdminRequest _ command | FAdminResponse _ command => 8 + str_len command
  end.

Definition encode_payload (f : frame) : list byte :=
  match f with
  | FData _ payload => payload
  | FWindow _ credit => be_bytes 8 credit
  | FRegister node_id | FOpenStream _ node_id => as_bytes node_id
  | FError _ code message => be_bytes 2 code ++ as_bytes message
  | FEnroll token => as_bytes token
  | FEnrollResponse fingerprint => as_bytes fingerprint
  | FPresence node_id online => as_bytes node_id ++ [if online then x01 else x00]
  | FWatch node_id => as_bytes node_id
  | FAdminRequest seq command | FAdminResponse seq command =>
      be_bytes 8 seq ++ as_bytes command
  | FOpen _ | FClose _ | FUnregister | FHeartbeat | FCloseStream _ => []
  end.

(** The ten header bytes in front of the payload. *)
Definition encode_header (f : frame) : list byte :=
  [wire_value (frame_type_of f); x00]
  ++ be_bytes 4 (stream_id f) ++ be_bytes 4 (wrap 32 (payload_len f)).

(** The bytes [encode] appends to its output vector. *)
Definition encode (f : frame) : list byte := encode_header f ++ encode_payload f.

(** ** Decoding *)

Definition header_byte (header : list byte) (i : nat) : byte := nth i header x00.

Definition header_stream_id (h : list byte) : Z :=
  be_val [header_byte h 2; header_byte h 3; header_byte h 4; header_byte h 5].
Definition header_length (h : list byte) : Z :=
  be_val [header_byte h 6; header_byte h 7; header_byte h 8; header_byte h 9].

Definition decode_admin_payload (payload : list byte) (t : frame_type)
    : result (Z * string) mux_error :=
  if len payload <? 8 then Err (InvalidPayload t (wrap 32 (len payload)))
  else
    let seq := be_val (take 8 payload) in
    let? text := ok_or (from_utf8 (drop 8 payload))
                       (InvalidPayload t (wrap 32 (len payload))) in
    Ok (seq, text).

(** The payload split of [slice::split_last]. *)
Definition split_last (payload : list byte) : option (byte * list byte) :=
  match last payload with
  | Some b => Some (b, take (pred (length payload)) payload)
  | None => None
  end.

Definition is_empty {A} (l : list A) : bool :=
  match l with [] => true | _ => false end.

Definition decode_body (t : frame_type) (sid length : Z) (payload : list byte)
    : result frame mux_error :=
  match t with
  | TOpen => if is_empty payload then Ok (FOpen sid) else Err (InvalidPayload t length)
  | TClose => if is_empty payload then Ok (FClose sid) else Err (InvalidPayload t length)
  | TData => Ok (FData sid payload)
  | TWindow =>
      if len payload =? 8 then Ok (FWindow sid (be_val payload))
      else Err (InvalidPayload TWindow length)
  | TRegister =>
      if negb (sid =? 0) then Err (InvalidStreamId TRegister sid)
      else if MAX_NODE_ID_LEN <? length then Err (InvalidPayload TRegister length)
      else let? node_id := ok_or (from_utf8 payload) (InvalidPayload TRegister length) in
           Ok (FRegister node_id)
  | TUnregister =>
      if is_empty payload && (sid =? 0) then Ok FUnregister
      else Err (InvalidStreamId TUnregister sid)
  | THeartbeat =>
      if is_empty payload && (sid =? 0) then Ok FHeartbeat
      else Err (InvalidStreamId THeartbeat sid)
  | TOpenStream =>
      if MAX_NODE_ID_LEN <? length then Err (InvalidPayload TOpenStream length)
      else let? target := ok_or (from_utf8 payload) (InvalidPayload TOpenStream length) in
           Ok (FOpenStream sid target)
  | TError =>
      if len payload <? 2 then Err (InvalidPayload TError length)
      else
        let code := be_val (take 2 payload) in
        let? message := ok_or (from_utf8 (drop 2 payload)) (InvalidPayload TError length) in
        Ok (FError sid code message)
  | TCloseStream =>
      if is_empty payload then Ok (FCloseStream sid) else Err (InvalidPayload t length)
  | TEnroll =>
      if negb (sid =? 0) then Err (InvalidStreamId TEnroll sid)
      else let? token := ok_or (from_utf8 payload) (InvalidPayload TEnroll length) in
           Ok (FEnroll token)
  | TEnrollResponse =>
      if negb (sid =? 0) then Err (InvalidStreamId TEnrollResponse sid)
      else let? fp := ok_or (from_utf8 payload) (InvalidPayload TEnrollResponse length) in
           Ok (FEnrollResponse fp)
  | TPresence =>
      if negb (sid =? 0) then Err (InvalidStreamId TPresence sid)
      else
        let? (online_byte, id_bytes) :=
          ok_or (split_last payload) (InvalidPayload TPresence length) in
        if MAX_NODE_ID_LEN <? wrap 32 (len id_bytes)
        then Err (InvalidPayload TPresence length)
        else
          let? node_id := ok_or (from_utf8 id_bytes) (InvalidPayload TPresence length) in
          Ok (FPresence node_id (negb (byte_val online_byte =? 0)))
  | TWatch =>
      if negb (sid =? 0) then Err (InvalidStreamId TWatch sid)
      else if MAX_NODE_ID_LEN <? length then Err (InvalidPayload TWatch length)
      else let? node_id := ok_or (from_utf8 payload) (InvalidPayload TWatch length) in
           Ok (FWatch node_id)
  | TAdminRequest =>
      if negb (sid =? 0) then Err (InvalidStreamId TAdminRequest sid)
      else let? (seq, text) := decode_admin_payload payload TAdminRequest in
           Ok (FAdminRequest seq text)
  | TAdminResponse =>
      if negb (sid =? 0) then Err (InvalidStreamId TAdminResponse sid)
      else let? (seq, text) := decode_admin_payload payload TAdminResponse in
           Ok (FAdminResponse seq text)
  end.

Definition decode (header payload : list byte) : result frame mux_error :=
  let? t := from_wire (header_byte header 0) in
  let flags := header_byte header 1 in
  if negb (byte_val flags =? 0) then Err (InvalidFlags flags)
  else
    let sid := header_stream_id header in
    let length := header_length header in
    if negb (length =? len payload) then Err TruncatedFrame
    else decode_body t sid length payload.

(** ** Reading from a byte source

    The ordered reliable transport below the mux: the bytes still to come
    and how the source ends after them. *)

Inductive transport_end :=
| Eof
| Failed (kind : string).

Record source := Source { avail : list byte; ends : transport_end }.

(** [AsyncReadExt::read_exact], with the error mapping of [read_frame]. *)
Definition read_exact (n : nat) (src : source) : result (list byte * source) mux_error :=
  if decide (n <= length (avail src))%nat
  then Ok (take n (avail src), Source (drop n (avail src)) (ends src))
  else match ends src with
       | Eof => Err TruncatedFrame
       | Failed kind => Err (Io kind)
       end.

Definition read_frame (src : source) : result (frame * source) mux_error :=
  let? (header, src1) := read_exact HEADER_LEN src in
  let length := header_length header in
  if MAX_FRAME_PAYLOAD <? length then Err (PayloadTooLong length)
  else
    let? (payload, src2) := read_exact (Z.to_nat length) src1 in
    let? f := decode header payload in
    Ok (f, src2).

(** The write half: what was written so far, and the error the next write
    meets once the transport broke. [write_frame] hands the encoded frame to
    [write_all] in one piece and flushes. *)
Record sink := Sink { written : list byte; broken : option string }.

Definition write_frame (w : sink) (f : frame) : result sink mux_error :=
  match broken w with
  | Some kind => Err (Io kind)
  | None => Ok (Sink (written w ++ encode f) None)
  end.

(** Reads [n] frames one after the other. *)
Fixpoint read_frames (n : nat) (src : source) : result (list frame * source) mux_error :=
  match n with
  | O => Ok ([], src)
  | S m =>
      let? (f, src1) := read_frame src in
      let? (fs, src2) := read_frames m src1 in
      Ok (f :: fs, src2)
  end.

(** ** Well-formed frames

    The value ranges of the Rust field types and the node-id bound the
    senders check ([MuxOpener::send_control], [open_stream_to]). *)

Definition wf_node_id (s : string) : Prop := rust_string s /\ str_len s <= MAX_NODE_ID_LEN.

Definition wf_frame (f : frame) : Prop :=
  fits 32 (stream_id f) /\
  match f with
  | FWindow _ credit => fits 64 credit
  | FRegister s | FOpenStream _ s | FPresence s _ | FWatch s => wf_node_id s
  | FError _ code message => fits 16 code /\ rust_string message
  | FEnroll s | FEnrollResponse s => rust_string s
  | FAdminRequest seq s | FAdminResponse seq s => fits 64 seq /\ rust_string s
  | _ => True
  end.

#[global] Instance wf_frame_dec f : Decision (wf_frame f).
Proof. unfold wf_frame, wf_node_id. destruct f; apply _. Defined.

Definition transmissible (f : frame) : Prop :=
  wf_frame f /\ payload_len f <= MAX_FRAME_PAYLOAD.

#[global] Instance transmissible_dec f : Decision (transmissible f).
Proof. unfold transmissible. apply _. Defined.

(** The payloads that decode to [f]: its own encoding, and, for an online
    [Presence], any nonzero boolean byte. *)
Definition payload_of (payload : list byte) (f : frame) : Prop :=
  payload = encode_payload f
  \/ exists node_id b, f = FPresence node_id true /\ b <> x00
                    /\ payload = as_bytes node_id ++ [b].

(** ** Lemmas *)

#[local] Opaque be_bytes be_val as_bytes.

Lemma from_wire_wire_value t : from_wire (wire_value t) = Ok t.
Proof. by destruct t. Qed.

Lemma from_wire_Ok b t : from_wire b = Ok t -> b = wire_value t.
Proof. destruct b; simpl; intros [= <-]; reflexivity. Qed.

Lemma payload_len_encode f : payload_len f = len (encode_payload f).
Proof.
  destruct f; unfold payload_len, encode_payload, str_len;
    rewrite ?len_app; unfold len; rewrite ?length_be_bytes; simpl; lia.
Qed.

Lemma payload_len_nonneg f : 0 <= payload_len f.
Proof. rewrite payload_len_encode. apply len_nonneg. Qed.

Lemma split_last_snoc bs b : split_last (bs ++ [b]) = Some (b, bs).
Proof.
  unfold split_last. rewrite last_snoc. f_equal. f_equal.
  rewrite length_app. simpl. rewrite Nat.add_1_r. simpl. apply take_app_length.
Qed.

Lemma split_last_Some bs b init : split_last bs = Some (b, init) -> bs = init ++ [b].
Proof.
  destruct bs as [|x bs] using rev_ind; [done|].
  rewrite split_last_snoc. by intros [= -> ->].
Qed.

Lemma decode_admin_encode t seq text :
  fits 64 seq -> rust_string text ->
  decode_admin_payload (be_bytes 8 seq ++ as_bytes text) t = Ok (seq, text).
Proof.
  intros Hseq Htext. unfold decode_admin_payload.
  rewrite len_app. unfold len at 1. rewrite length_be_bytes.
  pose proof (len_nonneg (as_bytes text)).
  destruct (Z.ltb_spec (Z.of_nat 8 + len (as_bytes text)) 8); [lia|].
  rewrite take_app_length', drop_app_length' by (by rewrite length_be_bytes).
  rewrite from_utf8_as_bytes by done. simpl ok_or.
  rewrite be_round_trip by (unfold fits in Hseq; lia). done.
Qed.

Lemma decode_body_encode f :
  wf_frame f -> payload_len f < 2 ^ 32 ->
  decode_body (frame_type_of f) (stream_id f) (payload_len f) (encode_payload f) = Ok f.
Proof.
  intros [Hsid Hwf] Hlen.
  destruct f; simpl in *; unfold wf_node_id in *; destruct_and?; try done;
    rewrite ?from_utf8_as_bytes, ?ltb_le_false by (done || unfold str_len in *; lia);
    simpl; try done.
  - (* Window *)
    unfold len. rewrite length_be_bytes. simpl.
    by rewrite be_round_trip by (unfold fits in *; lia).
  - (* Error *)
    destruct (Z.ltb_spec (len (be_bytes 2 code ++ as_bytes message)) 2) as [Hc|_].
    { rewrite len_app in Hc. unfold len in Hc. rewrite length_be_bytes in Hc. lia. }
    rewrite take_app_length', drop_app_length' by (by rewrite length_be_bytes).
    rewrite from_utf8_as_bytes by done. simpl ok_or.
    by rewrite be_round_trip by (unfold fits in *; lia).
  - (* Presence *)
    rewrite split_last_snoc. simpl ok_or.
    unfold wrap. rewrite Z.mod_small by (unfold str_len in *; pose proof (len_nonneg (as_bytes node_id)); lia).
    rewrite ltb_le_false by (unfold str_len in *; lia).
    rewrite from_utf8_as_bytes by done. simpl ok_or. by destruct online.
  - by rewrite decode_admin_encode.
  - by rewrite decode_admin_encode.
Qed.

Lemma length_encode_header f : length (encode_header f) = HEADER_LEN.
Proof. unfold encode_header. rewrite !length_app, !length_be_bytes. done. Qed.

Lemma encode_header_fields f :
  fits 32 (stream_id f) ->
  header_byte (encode_header f) 0 = wire_value (frame_type_of f)
  /\ header_byte (encode_header f) 1 = x00
  /\ header_stream_id (encode_header f) = stream_id f
  /\ header_length (encode_header f) = wrap 32 (payload_len f).
Proof.
  intros Hsid. unfold encode_header, header_stream_id, header_length.
  destruct (be_bytes_4 (stream_id f)) as (a & b & c & d & E).
  destruct (be_bytes_4 (wrap 32 (payload_len f))) as (a' & b' & c' & d' & E').
  rewrite E, E'. simpl. unfold header_byte. simpl nth. rewrite <- E, <- E'.
  split_and!; [done|done|..]; apply be_round_trip; [exact Hsid|].
  apply Z.mod_pos_bound. lia.
Qed.

Lemma decode_encode f :
  wf_frame f -> payload_len f < 2 ^ 32 ->
  decode (encode_header f) (encode_payload f) = Ok f.
Proof.
  intros Hwf Hlen. destruct (encode_header_fields f (proj1 Hwf)) as (H0 & H1 & H2 & H3).
  unfold decode. rewrite H0, H1, H2, H3, from_wire_wire_value.
  pose proof (payload_len_nonneg f).
  unfold wrap. rewrite Z.mod_small by lia. rewrite <- payload_len_encode.
  change (byte_val x00 =? 0) with true. rewrite Z.eqb_refl. simpl.
  by apply decode_body_encode.
Qed.

Lemma read_exact_app bs rest e n :
  length bs = n -> read_exact n (Source (bs ++ rest) e) = Ok (bs, Source rest e).
Proof.
  intros <-. unfold read_exact; simpl. rewrite length_app.
  rewrite decide_True by lia. by rewrite take_app_length, drop_app_length.
Qed.

Lemma read_frame_app h payload rest e :
  length h = HEADER_LEN -> header_length h = len payload ->
  len payload <= MAX_FRAME_PAYLOAD ->
  read_frame (Source (h ++ payload ++ rest) e)
  = let? f := decode h payload in Ok (f, Source rest e).
Proof.
  intros Hh Hl Hmax. unfold read_frame. rewrite (read_exact_app h) by done.
  rewrite Hl, ltb_le_false by done.
  rewrite read_exact_app by (unfold len; lia). done.
Qed.

Lemma transmissible_small f : transmissible f -> payload_len f < 2 ^ 32.
Proof. intros [_ H]. unfold MAX_FRAME_PAYLOAD in H. lia. Qed.

Lemma read_frame_encode f rest e :
  transmissible f ->
  read_frame (Source (encode f ++ rest) e) = Ok (f, Source rest e).
Proof.
  intros Ht. pose proof (transmissible_small f Ht) as Hs. destruct Ht as [Hwf Hmax].
  unfold encode. rewrite <- app_assoc. pose proof (payload_len_nonneg f).
  rewrite read_frame_app.
  - by rewrite decode_encode.
  - apply length_encode_header.
  - destruct (encode_header_fields f (proj1 Hwf)) as (_ & _ & _ & ->).
    unfold wrap. rewrite Z.mod_small by lia. apply payload_len_encode.
  - by rewrite <- payload_len_encode.
Qed.

Lemma is_empty_true {A} (l : list A) : is_empty l = true -> l = [].
Proof. by destruct l. Qed.

Ltac decode_crush :=
  repeat match goal with
  | H : Ok _ = Ok _ |- _ => simplify_eq
  | H : Err _ = Ok _ |- _ => discriminate H
  | H : context [if ?b then _ else _] |- _ => destruct b eqn:?
  | H : match ok_or ?o ?e with _ => _ end = Ok _ |- _ =>
      let E := fresh "E" in destruct (ok_or o e) eqn:E; [apply ok_or_Ok in E|]
  | H : match ?x with _ => _ end = Ok _ |- _ => destruct x eqn:?
  | H : is_empty _ && _ = true |- _ => apply andb_true_iff in H as [? ?]
  | H : is_empty _ = true |- _ => apply is_empty_true in H; subst
  | H : negb _ = false |- _ => apply negb_false_iff in H
  | H : (_ =? _) = true |- _ => apply Z.eqb_eq in H; subst
  | H : (_ <? _) = false |- _ => apply Z.ltb_ge in H
  | H : from_utf8 _ = Some _ |- _ => apply from_utf8_Some in H as [? ?]; subst
  | H : split_last _ = Some _ |- _ => apply split_last_Some in H; subst
  end.

Lemma take_be n bs :
  n <= len bs -> 0 <= n ->
  be_bytes (Z.to_nat n) (be_val (take (Z.to_nat n) bs)) = take (Z.to_nat n) bs.
Proof. intros. apply be_bytes_of. rewrite length_take. unfold len in *. lia. Qed.

Lemma be_val_take_range n bs : 0 <= be_val (take n bs) < 256 ^ Z.of_nat n.
Proof.
  pose proof (be_val_range (take n bs)) as H. unfold len in H. rewrite length_take in H.
  assert (256 ^ Z.of_nat (n `min` length bs) <= 256 ^ Z.of_nat n) by (apply Z.pow_le_mono_r; lia).
  lia.
Qed.

Lemma decode_admin_Ok payload t seq text :
  decode_admin_payload payload t = Ok (seq, text) ->
  fits 64 seq /\ rust_string text /\ payload = be_bytes 8 seq ++ as_bytes text.
Proof.
  unfold decode_admin_payload. intros H. decode_crush.
 pose proof (be_val_take_range 8 payload).
  split_and!; [unfold fits; lia|done|].
  rewrite <- (take_drop 8 payload) at 1. f_equal; [|done].
  symmetry. apply (take_be 8); lia.
Qed.

Lemma decode_body_Ok t sid payload f :
  fits 32 sid -> len payload <= MAX_FRAME_PAYLOAD ->
  decode_body t sid (len payload) payload = Ok f ->
  wf_frame f /\ frame_type_of f = t /\ stream_id f = sid /\ payload_of payload f.
Proof.
  intros Hsid Hlen H. unfold decode_body in H.
  destruct t; decode_crush; unfold wf_frame, wf_node_id, payload_of; simpl.
  all: try (split_and!; try done; try (by left); lia).
  - unfold fits in *. pose proof (be_val_range payload) as Hr. rewrite Heqb in Hr.
    split_and!; [lia..|done|done|left]. symmetry. apply be_bytes_of. unfold len in *. lia.
  - pose proof (be_val_take_range 2 payload). unfold fits in *.
    split_and!; [lia..|done|done|done|left].
    rewrite <- (take_drop 2 payload) at 1. f_equal; [|done].
    symmetry. apply (take_be 2); lia.
  - unfold wrap in *. rewrite len_app in Hlen. pose proof (len_nonneg (as_bytes a0)).
    unfold MAX_FRAME_PAYLOAD, len at 2 in Hlen. simpl in Hlen.
    rewrite Z.mod_small in * by lia.
    split_and!; [unfold fits; lia|done|done|done|done|].
    destruct (Z.eqb_spec (byte_val b) 0) as [Hb|Hb].
    + left. by rewrite (byte_val_inj b x00 Hb).
    + right. exists a0, b. split_and!; [done| |done]. intros ->. by apply Hb.
  - destruct (decode_admin_Ok _ _ _ _ Heqr) as (? & ? & ->).
    split_and!; [unfold fits in *; lia..|done|done|done|by left].
  - destruct (decode_admin_Ok _ _ _ _ Heqr) as (? & ? & ->).
    split_and!; [unfold fits in *; lia..|done|done|done|by left].
Qed.

Lemma payload_of_len payload f : payload_of payload f -> payload_len f = len payload.
Proof.
  intros [->|(node_id & b & -> & _ & ->)]; [apply payload_len_encode|].
  unfold payload_len, str_len. by rewrite len_app.
Qed.

Lemma header_rebuild h t f :
  length h = HEADER_LEN -> from_wire (header_byte h 0) = Ok t ->
  byte_val (header_byte h 1) = 0 -> frame_type_of f = t ->
  stream_id f = header_stream_id h -> wrap 32 (payload_len f) = header_length h ->
  h = encode_header f.
Proof.
  intros Hlen Ht Hflags Hft Hsid Hl. unfold encode_header.
  rewrite Hft, Hsid, Hl, <- (from_wire_Ok _ _ Ht).
  apply (byte_val_inj _ x00) in Hflags. unfold header_stream_id, header_length.
  rewrite !be_bytes_of by done. rewrite <- Hflags.
  do 10 (destruct h as [|? h]; [done|]). by destruct h.
Qed.

Lemma read_exact_Ok n src bs src' :
  read_exact n src = Ok (bs, src') ->
  length bs = n /\ avail src = bs ++ avail src' /\ ends src' = ends src.
Proof.
  unfold read_exact. case_decide as Hn; [|destruct (ends src); discriminate].
  intros [= <- <-]; simpl. rewrite length_take, take_drop. split_and!; [lia|done|done].
Qed.

Lemma decode_Ok h payload f :
  length h = HEADER_LEN -> len payload <= MAX_FRAME_PAYLOAD ->
  decode h payload = Ok f ->
  wf_frame f /\ payload_of payload f /\ h = encode_header f.
Proof.
  intros Hh Hmax H. unfold decode in H.
  destruct (from_wire (header_byte h 0)) as [t|] eqn:Ht; [|done]. simpl in H.
  destruct (Z.eqb_spec (byte_val (header_byte h 1)) 0) as [Hfl|]; [|done]. simpl in H.
  destruct (Z.eqb_spec (header_length h) (len payload)) as [Hl|]; [|done]. simpl in H.
  rewrite Hl in H. apply decode_body_Ok in H as (Hwf & Hft & Hsid & Hp); [|apply be_val_range|done].
  split_and!; [done|done|]. eapply header_rebuild; try done.
  rewrite (payload_of_len _ _ Hp), Hl. unfold wrap. apply Z.mod_small.
  pose proof (len_nonneg payload). unfold MAX_FRAME_PAYLOAD in *. lia.
Qed.

(** The reader accepts nothing but encodings: a successful [read_frame]
    consumed the header of [f] followed by a payload of [f], and [f] is in
    range and within the payload bound. Together with the round trip the codec is a
    bijection, except that a nonzero [Presence] byte other than 1 also
    decodes to online. *)
Theorem read_frame_canonical src f src' :
  read_frame src = Ok (f, src') ->
  transmissible f /\ ends src' = ends src
  /\ exists payload, payload_of payload f
       /\ avail src = encode_header f ++ payload ++ avail src'.
Proof.
  unfold read_frame. intros H.
  destruct (read_exact HEADER_LEN src) as [[h s1]|] eqn:E1; [|done].
  destruct (Z.ltb_spec MAX_FRAME_PAYLOAD (header_length h)) as [|Hmax]; [done|].
  destruct (read_exact _ s1) as [[payload s2]|] eqn:E2; [|done].
  destruct (decode h payload) as [g|] eqn:E3; [|done]. injection H as <- <-.
  apply read_exact_Ok in E1 as (Hh & Ha1 & He1), E2 as (Hp & Ha2 & He2).
  assert (Hlen : len payload <= MAX_FRAME_PAYLOAD).
  { unfold len. rewrite Hp. pose proof (be_val_range [header_byte h 6; header_byte h 7;
      header_byte h 8; header_byte h 9]). unfold header_length in *. lia. }
  apply decode_Ok in E3 as (Hwf & Hpo & ->); [|done|done].
  split_and!; [|congruence|exists payload; split; [done|congruence]].
  split; [done|]. by rewrite (payload_of_len _ _ Hpo).
Qed.

Lemma read_frames_transmissible n src fs src' : read_frames n src = Ok (fs, src') -> Forall transmissible fs.
Proof.
  revert src fs. induction n as [|n IH]; intros src fs E; cbn [read_frames] in E; [by injection E as <- <-|].
  destruct (read_frame src) as [[f s1]|] eqn:E1; [|done]. cbn in E.
  destruct (read_frames n s1) as [[fs1 s2]|] eqn:E2; [|done]. injection E as <- <-.
  apply read_frame_canonical in E1 as [Hf _]. constructor; [done|by eapply IH].
Qed.

(** C25. Wire round trip: a sequence of encoded frames reads back as exactly
    those frames, in order, with every byte behind them untouched, if and
    only if the fields of each of them are in range and its payload fits
    [MAX_FRAME_PAYLOAD]. *)
Theorem read_frames_encode fs rest e :
  read_frames (length fs) (Source (concat (map encode fs) ++ rest) e) = Ok (fs, Source rest e)
  <-> Forall transmissible fs.
Proof.
  split; [apply read_frames_transmissible|].
  induction 1 as [|f fs Hf _ IH]; cbn [read_frames length map concat]; [done|].
  rewrite <- app_assoc, read_frame_encode by done. by rewrite IH.
Qed.

(** A frame whose payload is longer than [MAX_FRAME_PAYLOAD] is encoded
    and written without complaint, and the peer's reader rejects it with
    [PayloadTooLong], which fails the whole connection. *)
Theorem oversized_frame_is_rejected f rest e :
  fits 32 (stream_id f) -> MAX_FRAME_PAYLOAD < payload_len f < 2 ^ 32 ->
  read_frame (Source (encode f ++ rest) e) = Err (PayloadTooLong (payload_len f)).
Proof.
  intros Hsid [Hbig Hsmall]. unfold encode, read_frame. rewrite <- app_assoc.
  rewrite read_exact_app by apply length_encode_header.
  destruct (encode_header_fields f Hsid) as (_ & _ & _ & ->).
  unfold wrap. rewrite Z.mod_small by (unfold MAX_FRAME_PAYLOAD in *; lia).
  apply Z.ltb_lt in Hbig. by rewrite Hbig.
Qed.

Lemma read_exact_short n src :
  (length (avail src) < n)%nat -> ends src = Eof -> read_exact n src = Err TruncatedFrame.
Proof. intros H He. unfold read_exact. rewrite decide_False by lia. by rewrite He. Qed.

(** A source that ends inside a frame is reported as [TruncatedFrame]:
    no strict prefix of an encoding decodes to anything. *)
Theorem strict_prefix_is_truncated f p q :
  transmissible f -> encode f = p ++ q -> q <> [] ->
  read_frame (Source p Eof) = Err TruncatedFrame.
Proof.
  intros Ht Hpq Hq. pose proof (transmissible_small f Ht). destruct Ht as [Hwf Hmax].
  pose proof (payload_len_nonneg f) as Hnn. unfold encode in Hpq.
  assert (Hl : (length p < HEADER_LEN + Z.to_nat (payload_len f))%nat).
  { apply (f_equal length) in Hpq. rewrite !length_app, length_encode_header in Hpq.
    rewrite payload_len_encode. unfold len. destruct q; simpl in *; [done|lia]. }
  unfold read_frame. destruct (decide (HEADER_LEN <= length p)%nat) as [Hh|Hh].
  2: { rewrite read_exact_short; [done|simpl; lia|done]. }
  assert (Hp : p = encode_header f ++ drop HEADER_LEN p).
  { rewrite <- (take_drop HEADER_LEN p) at 1. f_equal.
    apply (f_equal (take HEADER_LEN)) in Hpq.
    rewrite take_app_length', take_app_le in Hpq by (rewrite ?length_encode_header; lia).
    done. }
  rewrite Hp, read_exact_app by apply length_encode_header.
  destruct (encode_header_fields f (proj1 Hwf)) as (_ & _ & _ & ->).
  unfold wrap. rewrite Z.mod_small, ltb_le_false by lia.
  rewrite read_exact_short; [done|simpl; rewrite length_drop; lia|done].
Qed.

(** ** Witnesses *)

#[local] Transparent be_bytes be_val as_bytes.

Definition sample_frames : list frame :=
  [FRegister "node-a"; FOpenStream 1 "node-b"; FData 1 [x68; x69]; FWindow 1 131072;
   FError 3 2 "unknown stream"; FPresence "node-b" true; FClose 1; FHeartbeat;
   FAdminResponse 42 "{}"].

Lemma read_frames_encode_witness :
  read_frames 9 (Source (concat (map encode sample_frames) ++ [x07]) Eof)
  = Ok (sample_frames, Source [x07] Eof).
Proof.
  apply (read_frames_encode sample_frames).
  apply (bool_decide_unpack (Forall transmissible sample_frames)). vm_compute. exact I.
Defined.

Lemma read_frame_canonical_witness :
  transmissible (FPresence "n" true)
  /\ exists payload, payload_of payload (FPresence "n" true)
       /\ [x0d; x00; x00; x00; x00; x00; x00; x00; x00; x02; x6e; x05; x07]
          = encode_header (FPresence "n" true) ++ payload ++ [x07].
Proof.
  destruct (read_frame_canonical
    (Source [x0d; x00; x00; x00; x00; x00; x00; x00; x00; x02; x6e; x05; x07] Eof)
    (FPresence "n" true) (Source [x07] Eof) ltac:(vm_compute; reflexivity))
    as (H & _ & H'). exact (conj H H').
Defined.

Definition long_body : string :=
  String.string_of_list_byte (replicate (Z.to_nat 16400) x61).

Lemma oversized_frame_is_rejected_witness :
  read_frame (Source (encode (FAdminResponse 1 long_body) ++ []) Eof)
  = Err (PayloadTooLong 16408).
Proof.
  assert (E : payload_len (FAdminResponse 1 long_body) = 16408) by (vm_compute; reflexivity).
  rewrite <- E. apply oversized_frame_is_rejected.
  - vm_compute. split; congruence.
  - rewrite E. vm_compute. split; reflexivity.
Defined.

Lemma strict_prefix_is_truncated_witness :
  read_frame (Source [x07; x00; x00; x00; x00; x00; x00; x00; x00] Eof) = Err TruncatedFrame.
Proof.
  apply (strict_prefix_is_truncated FHeartbeat _ [x00]); [|vm_compute; reflexivity|discriminate].
  apply (bool_decide_unpack (transmissible FHeartbeat)). vm_compute. exact I.
Defined.
