(* ===== verification/MuxStream.v ===== *)
(** * MuxStream: one multiplexed stream

    [src/infra/relay_mux/stream.rs]: the per-stream state shared between the
    stream handle and the connection's reader task, and the three poll
    operations of [AsyncRead]/[AsyncWrite], each as a function from the
    connection-wide state and the stream's cell to their successors.

    The critical sections of one poll are composed into one step. That is the
    granularity of the code: a handle is polled through [&mut self], and
    between the two lock sections of a write the reader task can only add
    credit, never remove it. Poisoned locks are not modelled: no code path
    panics while holding one. *)

From S2P Require Import Prelude Bytes Frame.

(** ** Polls and I/O errors *)

Inductive poll (A : Type) :=
| Ready (a : A)
| Pending.
Arguments Ready {A} a.
Arguments Pending {A}.

Record MuxResetError := { reset_code : Z; reset_message : string }.

Inductive error_kind :=
| ConnectionReset | BrokenPipe | UnexpectedEof | InvalidData | OtherKind (kind : string).

(** The [io::Error]s a stream user sees, each an [ErrorKind] and a payload:
    a relay teardown (the relay's code and message when it was an [Error]
    frame, a plain message naming the stream otherwise) or a [MuxError]. *)
Inductive io_error :=
| ResetWithDetail (kind : error_kind) (detail : MuxResetError)
| ResetPlain (kind : error_kind) (stream_id : Z)
| OfMux (kind : error_kind) (e : mux_error).

(** [From<MuxError> for io::Error]. *)
Definition mux_error_kind (e : mux_error) : error_kind :=
  match e with
  | Io kind => OtherKind kind
  | TruncatedFrame => UnexpectedEof
  | StreamClosed _ => BrokenPipe
  | UnknownStream _ | InvalidFrameType _ | InvalidFlags _ | PayloadTooLong _
  | InvalidPayload _ _ | InvalidStreamId _ _ | ProtocolViolation _ | NotRelayLink => InvalidData
  | ConnectionClosed _ => ConnectionReset
  end.

Definition io_of_mux (e : mux_error) : io_error := OfMux (mux_error_kind e) e.

Definition reset_by_peer_error (sid : Z) (detail : option MuxResetError) : io_error :=
  match detail with
  | Some d => ResetWithDetail ConnectionReset d
  | None => ResetPlain ConnectionReset sid
  end.

Definition reset_by_peer_write_error (sid : Z) (detail : option MuxResetError) : io_error :=
  match detail with
  | Some d => ResetWithDetail BrokenPipe d
  | None => ResetPlain BrokenPipe sid
  end.

(** ** State *)

Record StreamState := {
  peer_credit : Z;       (** send credit the peer has granted *)
  fin_sent : bool;       (** our write leg is half-closed *)
  consumed_accum : Z;    (** consumed bytes not yet granted back *)
  write_waker : bool;    (** a writer is parked on exhausted credit *)
}.

(** One stream: the cell that the [MuxStream] handle and the connection's
    table entry share, plus the handle's own read position. [tx_alive] says
    that the table entry, which holds the inbound sender, still exists;
    [rx_alive] that the handle, which holds the receiver, does; [read_waker]
    that a reader's waker is registered with the channel. *)
Record stream_cell := {
  state : StreamState;
  inbound : list (list byte);
  tx_alive : bool;
  rx_alive : bool;
  peer_fin : bool;
  reset : bool;
  reset_detail : option MuxResetError;
  read_leftover : list byte;
  read_offset : nat;
  read_waker : bool;
}.

(** What a stream touches of the connection: the bounded outbound queue
    ([outbound_open] until the writer task drops its receiver), the slot for one
    parked sender's waker (its stream's id stands for the waker), and the failure flag with its reason. *)
Record outbound_state := {
  outbound : list frame;
  outbound_open : bool;
  outbound_waker : option Z;
  dead : bool;
  close_reason : option reason;
}.

Definition new_cell : stream_cell :=
  {| state := {| peer_credit := DEFAULT_STREAM_WINDOW; fin_sent := false;
                 consumed_accum := 0; write_waker := false |};
     inbound := []; tx_alive := true; rx_alive := true;
     peer_fin := false; reset := false; reset_detail := None;
     read_leftover := []; read_offset := 0; read_waker := false |}.

Definition with_state (c : stream_cell) (s : StreamState) : stream_cell :=
  {| state := s; inbound := inbound c; tx_alive := tx_alive c; rx_alive := rx_alive c;
     peer_fin := peer_fin c; reset := reset c; reset_detail := reset_detail c;
     read_leftover := read_leftover c; read_offset := read_offset c; read_waker := read_waker c |}.

Definition with_inbound (c : stream_cell) (q : list (list byte)) : stream_cell :=
  {| state := state c; inbound := q; tx_alive := tx_alive c; rx_alive := rx_alive c;
     peer_fin := peer_fin c; reset := reset c; reset_detail := reset_detail c;
     read_leftover := read_leftover c; read_offset := read_offset c; read_waker := read_waker c |}.

Definition with_leftover (c : stream_cell) (l : list byte) (o : nat) : stream_cell :=
  {| state := state c; inbound := inbound c; tx_alive := tx_alive c; rx_alive := rx_alive c;
     peer_fin := peer_fin c; reset := reset c; reset_detail := reset_detail c;
     read_leftover := l; read_offset := o; read_waker := read_waker c |}.

(** [Receiver::poll_recv] on an open empty channel registers the waker. *)
Definition arm_reader (c : stream_cell) : stream_cell :=
  {| state := state c; inbound := inbound c; tx_alive := tx_alive c; rx_alive := rx_alive c;
     peer_fin := peer_fin c; reset := reset c; reset_detail := reset_detail c;
     read_leftover := read_leftover c; read_offset := read_offset c; read_waker := true |}.

Definition set_credit (s : StreamState) (z : Z) : StreamState :=
  {| peer_credit := z; fin_sent := fin_sent s;
     consumed_accum := consumed_accum s; write_waker := write_waker s |}.

Definition set_fin_sent (s : StreamState) : StreamState :=
  {| peer_credit := peer_credit s; fin_sent := true;
     consumed_accum := consumed_accum s; write_waker := write_waker s |}.

Definition set_accum (s : StreamState) (z : Z) : StreamState :=
  {| peer_credit := peer_credit s; fin_sent := fin_sent s;
     consumed_accum := z; write_waker := write_waker s |}.

Definition set_write_waker (s : StreamState) (b : bool) : StreamState :=
  {| peer_credit := peer_credit s; fin_sent := fin_sent s;
     consumed_accum := consumed_accum s; write_waker := b |}.

Definition set_outbound (o : outbound_state) (q : list frame) : outbound_state :=
  {| outbound := q; outbound_open := outbound_open o; outbound_waker := outbound_waker o;
     dead := dead o; close_reason := close_reason o |}.

(** ** The outbound queue *)

Inductive try_send_error := Full | Closed.

(** [mpsc::Sender::try_send] on the queue of [OUTBOUND_QUEUE] frames. *)
Definition try_send (o : outbound_state) (f : frame) : result outbound_state try_send_error :=
  if negb (outbound_open o) then Err Closed
  else if OUTBOUND_QUEUE <=? len (outbound o) then Err Full
  else Ok (set_outbound o (outbound o ++ [f])).

Definition park_outbound (sid : Z) (o : outbound_state) : outbound_state :=
  {| outbound := outbound o; outbound_open := outbound_open o; outbound_waker := Some sid;
     dead := dead o; close_reason := close_reason o |}.

Definition dead_reason (o : outbound_state) : reason :=
  default NoRecordedReason (close_reason o).

Definition connection_dead_error (o : outbound_state) : io_error :=
  io_of_mux (ConnectionClosed (dead_reason o)).

(** ** Reading *)

Definition account_consumed (sid : Z) (o : outbound_state) (s : StreamState) (consumed : Z)
    : outbound_state * StreamState :=
  let accum := consumed_accum s + consumed in
  if WINDOW_GRANT_THRESHOLD <=? accum then
    let s1 := set_accum s 0 in
    match try_send o (FWindow sid accum) with
    | Ok o1 => (o1, s1)
    | Err Full => (o, set_accum s1 (consumed_accum s1 + accum))
    | Err Closed => (o, s1)
    end
  else (o, set_accum s accum).

(** [poll_read] with [n] bytes of room in the caller's buffer; the bytes it
    puts there are the result. *)
Definition poll_read (sid : Z) (n : nat) (o : outbound_state) (c : stream_cell)
    : poll (result (list byte) io_error) * outbound_state * stream_cell :=
  if (n =? 0)%nat then (Ready (Ok []), o, c)
  else if (read_offset c <? length (read_leftover c))%nat then
    let stop := Nat.min (read_offset c + n) (length (read_leftover c)) in
    (Ready (Ok (take (stop - read_offset c) (drop (read_offset c) (read_leftover c)))),
     o, with_leftover c (read_leftover c) stop)
  else match inbound c with
  | chunk :: rest =>
      let k := Nat.min n (length chunk) in
      let c1 := with_inbound c rest in
      let c2 := if (k <? length chunk)%nat then with_leftover c1 chunk k else c1 in
      let '(o1, s1) := account_consumed sid o (state c2) (Z.of_nat k) in
      (Ready (Ok (take k chunk)), o1, with_state c2 s1)
  | [] =>
      if negb (tx_alive c) then
        if reset c then (Ready (Err (reset_by_peer_error sid (reset_detail c))), o, c)
        else if dead o then (Ready (Err (connection_dead_error o)), o, c)
        else (Ready (Ok []), o, c)
      else if peer_fin c then (Ready (Ok []), o, arm_reader c)
      else (Pending, o, arm_reader c)
  end.

(** ** Writing *)

Definition poll_write (sid : Z) (buf : list byte) (o : outbound_state) (c : stream_cell)
    : poll (result Z io_error) * outbound_state * stream_cell :=
  match buf with
  | [] => (Ready (Ok 0), o, c)
  | _ :: _ =>
      if reset c then (Ready (Err (reset_by_peer_write_error sid (reset_detail c))), o, c)
      else if dead o then (Ready (Err (connection_dead_error o)), o, c)
      else if fin_sent (state c) then (Ready (Err (io_of_mux (StreamClosed sid))), o, c)
      else if peer_credit (state c) =? 0 then
        (Pending, o, with_state c (set_write_waker (state c) true))
      else
        let n := Z.min (Z.min (len buf) MAX_FRAME_PAYLOAD) (peer_credit (state c)) in
        match try_send o (FData sid (take (Z.to_nat n) buf)) with
        | Ok o1 =>
            (Ready (Ok n), o1, with_state c (set_credit (state c) (peer_credit (state c) - n)))
        | Err Full => (Pending, park_outbound sid o, c)
        | Err Closed => (Ready (Err (connection_dead_error o)), o, c)
        end
  end.

Definition poll_flush (o : outbound_state) (c : stream_cell)
    : poll (result unit io_error) * outbound_state * stream_cell :=
  (Ready (Ok tt), o, c).

Definition poll_shutdown (sid : Z) (o : outbound_state) (c : stream_cell)
    : poll (result unit io_error) * outbound_state * stream_cell :=
  if fin_sent (state c) then (Ready (Ok tt), o, c)
  else if dead o then (Ready (Err (connection_dead_error o)), o, c)
  else match try_send o (FClose sid) with
  | Ok o1 => (Ready (Ok tt), o1, with_state c (set_fin_sent (state c)))
  | Err Full => (Pending, park_outbound sid o, c)
  | Err Closed =>
      (Ready (Err (connection_dead_error o)), o, with_state c (set_fin_sent (state c)))
  end.

(** Dropping the handle drops the inbound receiver and its chunks; the table
    entry stays until the connection removes it. *)
Definition drop_stream (c : stream_cell) : stream_cell :=
  {| state := state c; inbound := []; tx_alive := tx_alive c; rx_alive := false;
     peer_fin := peer_fin c; reset := reset c; reset_detail := reset_detail c;
     read_leftover := []; read_offset := 0; read_waker := false |}.

(** ** The byte queue a stream implements

    [pending] is what the reader has still to deliver: the tail of the last
    chunk, then the queued chunks. *)

Definition pending (c : stream_cell) : list byte :=
  drop (read_offset c) (read_leftover c) ++ concat (inbound c).

(** Chunks are never empty on a link whose sender is [poll_write], which
    sends no empty [Data]. *)
Definition chunks_nonempty (c : stream_cell) : Prop :=
  Forall (fun chunk => chunk <> []) (inbound c).

(** Polls [n]-byte reads until one is not a nonempty read, collecting the
    bytes; [None] when the fuel ran out first. *)
Fixpoint read_until (fuel : nat) (sid : Z) (n : nat) (o : outbound_state) (c : stream_cell)
    (acc : list byte)
    : option (list byte * poll (result (list byte) io_error) * outbound_state * stream_cell) :=
  match fuel with
  | O => None
  | S m =>
      match poll_read sid n o c with
      | (Ready (Ok (b :: bs)), o1, c1) => read_until m sid n o1 c1 (acc ++ b :: bs)
      | (r, o1, c1) => Some (acc, r, o1, c1)
      end
  end.

(** How a drained stream answers a read. *)
Definition drained_answer (sid : Z) (o : outbound_state) (c : stream_cell)
    : poll (result (list byte) io_error) :=
  if tx_alive c then if peer_fin c then Ready (Ok []) else Pending
  else if reset c then Ready (Err (reset_by_peer_error sid (reset_detail c)))
  else if dead o then Ready (Err (connection_dead_error o))
  else Ready (Ok []).

(** What one [n]-byte read does to the byte queue: nothing when it is empty
    (and then the answer is [drained_answer]), otherwise it takes a nonempty
    prefix of at most [n] bytes off the front. *)
Definition reads_front (sid : Z) (n : nat) (o : outbound_state) (c : stream_cell)
    (r : poll (result (list byte) io_error)) (o1 : outbound_state) (c1 : stream_cell) : Prop :=
  (pending c = [] /\ r = drained_answer sid o c /\ o1 = o
   /\ c1 = (if tx_alive c then arm_reader c else c))
  \/ (exists b bs, r = Ready (Ok (b :: bs)) /\ (length (b :: bs) <= n)%nat
        /\ pending c = (b :: bs) ++ pending c1
        /\ tx_alive c1 = tx_alive c /\ peer_fin c1 = peer_fin c
        /\ reset c1 = reset c /\ reset_detail c1 = reset_detail c).

(** ** Lemmas *)

Lemma try_send_Ok o f o1 :
  try_send o f = Ok o1 ->
  o1 = set_outbound o (outbound o ++ [f]) /\ outbound_open o = true
  /\ len (outbound o) < OUTBOUND_QUEUE.
Proof.
  unfold try_send. destruct (outbound_open o); [|done]. simpl.
  destruct (Z.leb_spec OUTBOUND_QUEUE (len (outbound o))); [done|]. by intros [= <-].
Qed.

(** [account_consumed] touches nothing but the accumulator and the queue. *)
Lemma account_consumed_frame sid o s k o1 s1 :
  account_consumed sid o s k = (o1, s1) ->
  dead o1 = dead o /\ close_reason o1 = close_reason o
  /\ s1 = set_accum s (consumed_accum s1)
  /\ (o1 = o \/ exists g, o1 = set_outbound o (outbound o ++ [FWindow sid g])).
Proof.
  unfold account_consumed. destruct (_ <=? _); [|by intros [= <- <-]; eauto].
  destruct (try_send o _) as [o2|[]] eqn:E; intros [= <- <-]; [|eauto..].
  apply try_send_Ok in E as (-> & _). simpl. eauto 10.
Qed.

Lemma with_state_pending c s : pending (with_state c s) = pending c.
Proof. done. Qed.

Lemma take_drop_min {A} (l : list A) i n :
  (i < length l)%nat ->
  drop i l = take (Nat.min (i + n) (length l) - i) (drop i l)
             ++ drop (Nat.min (i + n) (length l)) l.
Proof.
  intros Hi. rewrite <- (take_drop (Nat.min (i + n) (length l) - i) (drop i l)) at 1.
  f_equal. rewrite drop_drop. f_equal. lia.
Qed.

Lemma poll_read_leftover sid n o c :
  (0 < n)%nat -> (read_offset c < length (read_leftover c))%nat ->
  exists c1 bs, poll_read sid n o c = (Ready (Ok bs), o, c1) /\ inbound c1 = inbound c
    /\ reads_front sid n o c (Ready (Ok bs)) o c1.
Proof.
  intros Hn Hoff. unfold poll_read.
  destruct (Nat.eqb_spec n 0) as [|_]; [lia|].
  destruct (Nat.ltb_spec (read_offset c) (length (read_leftover c))) as [_|]; [|lia].
  eexists _, _. split; [done|]. split; [done|]. right.
  pose proof (take_drop_min _ _ n Hoff) as Hsplit.
  assert (Hl : (length (take (Nat.min (read_offset c + n) (length (read_leftover c)) - read_offset c)
            (drop (read_offset c) (read_leftover c)))
          = Nat.min (read_offset c + n) (length (read_leftover c)) - read_offset c)%nat)
    by (rewrite length_take, length_drop; lia).
  destruct (take _ (drop _ _)) as [|b bs]; simpl in Hl; [lia|].
  exists b, bs. split_and!; try done; simpl; [lia|].
  unfold pending. simpl. by rewrite Hsplit, <- app_assoc.
Qed.

Lemma poll_read_chunk sid n o c b bs rest :
  (0 < n)%nat -> (length (read_leftover c) <= read_offset c)%nat ->
  inbound c = (b :: bs) :: rest ->
  exists o1 c1 out, poll_read sid n o c = (Ready (Ok out), o1, c1)
    /\ inbound c1 = rest /\ dead o1 = dead o /\ close_reason o1 = close_reason o
    /\ reads_front sid n o c (Ready (Ok out)) o1 c1.
Proof.
  intros Hn Hoff Hin. unfold poll_read. destruct n as [|n]; [lia|].
  destruct (Nat.ltb_spec (read_offset c) (length (read_leftover c))) as [|_]; [lia|].
  rewrite Hin. cbn [Nat.eqb Nat.min take length].
  set (c2 := if (_ <? _)%nat then _ else _).
  destruct (account_consumed _ _ _ _) as [o1 s1] eqn:Hacc.
  destruct (account_consumed_frame _ _ _ _ _ _ Hacc) as (Hd & Hcr & _ & _).
  assert (Hp : inbound c2 = rest /\ tx_alive c2 = tx_alive c /\ peer_fin c2 = peer_fin c
    /\ reset c2 = reset c /\ reset_detail c2 = reset_detail c
    /\ drop (read_offset c2) (read_leftover c2) = drop (Nat.min n (length bs)) bs).
  { subst c2. destruct (Nat.ltb_spec (S (Nat.min n (length bs))) (S (length bs))); simpl;
      split_and!; try done.
    rewrite (drop_ge (read_leftover c)), drop_ge by lia. done. }
  destruct Hp as (H1 & H2 & H3 & H4 & H5 & H6).
  eexists _, _, _. split_and!; [done..|]. right.
  exists b, (take (Nat.min n (length bs)) bs). split_and!; try done.
  - simpl. rewrite length_take. lia.
  - unfold pending. simpl. rewrite H6, H1, (drop_ge (read_leftover c)) by lia.
    rewrite Hin. simpl. by rewrite app_assoc, take_drop.
Qed.

(** A read hands out the next bytes of the stream in order and nothing else. *)
Lemma poll_read_front sid n o c r o1 c1 :
  (0 < n)%nat -> chunks_nonempty c -> poll_read sid n o c = (r, o1, c1) ->
  chunks_nonempty c1 /\ dead o1 = dead o /\ close_reason o1 = close_reason o
  /\ reads_front sid n o c r o1 c1.
Proof.
  unfold chunks_nonempty. intros Hn Hne Hr.
  destruct (decide (read_offset c < length (read_leftover c))%nat) as [Hoff|Hoff].
  - destruct (poll_read_leftover sid n o c Hn Hoff) as (c2 & bs & Hr2 & Hin & Hf).
    rewrite Hr in Hr2. simplify_eq. by rewrite Hin.
  - destruct (inbound c) as [|[|b bs] rest] eqn:Hin.
    + unfold poll_read in Hr. destruct (Nat.eqb_spec n 0) as [|_]; [lia|].
      destruct (Nat.ltb_spec (read_offset c) (length (read_leftover c))) as [|_]; [lia|].
      rewrite Hin in Hr.
      assert (o1 = o /\ c1 = (if tx_alive c then arm_reader c else c)
              /\ r = drained_answer sid o c) as (-> & -> & ->).
      { unfold drained_answer. by repeat case_match; simplify_eq/=. }
      assert (inbound (if tx_alive c then arm_reader c else c) = []) as ->
        by (by destruct (tx_alive c)).
      split_and!; try done. left. split_and!; try done.
      unfold pending. by rewrite Hin, drop_ge by lia.
    + by apply Forall_cons in Hne as [? _].
    + destruct (poll_read_chunk sid n o c b bs rest Hn ltac:(lia) Hin)
        as (o2 & c2 & out & Hr2 & Hin2 & Hd & Hcr & Hf).
      rewrite Hr in Hr2. simplify_eq. apply Forall_cons in Hne as [_ Hne]. done.
Qed.

(** Reading to the end terminates and delivers exactly [pending]. *)
Lemma read_until_pending sid n o c acc fuel :
  (0 < n)%nat -> chunks_nonempty c -> (length (pending c) < fuel)%nat ->
  exists o1 c1, read_until fuel sid n o c acc
                = Some (acc ++ pending c, drained_answer sid o c, o1, c1)
    /\ pending c1 = [].
Proof.
  intros Hn. revert o c acc. induction fuel as [|fuel IH]; intros o c acc Hne Hf; [lia|].
  simpl. destruct (poll_read sid n o c) as [[r o1] c1] eqn:Hr.
  destruct (poll_read_front _ _ _ _ _ _ _ Hn Hne Hr) as (Hne1 & Hd & Hcr & Hfr).
  destruct Hfr as [(Hp & -> & -> & ->)|(b & bs & -> & Hl & Hp & H1 & H2 & H3 & H4)].
  - rewrite Hp, app_nil_r. unfold drained_answer.
    exists o, (if tx_alive c then arm_reader c else c).
    split; [by repeat case_match|]. by destruct (tx_alive c).
  - destruct (IH o1 c1 (acc ++ b :: bs) Hne1) as (o2 & c2 & -> & Hp2).
    { rewrite Hp, length_app in Hf. simpl in Hf. lia. }
    exists o2, c2. split; [|done]. rewrite Hp, app_assoc. unfold drained_answer, connection_dead_error, dead_reason.
    by rewrite H1, H2, H3, H4, Hd, Hcr.
Qed.
