(* ===== verification/MuxConnection.v ===== *)
(** * MuxConnection: the stream table and the reader's dispatch

    [src/infra/relay_mux/connection.rs] and the stream-id parity of
    [src/infra/relay_mux/mod.rs]. The connection owns a heap of stream cells;
    the stream table and the stream handles refer to cells by address, as the
    code's [Arc]s do, so a cell outlives its table entry.

    [dispatch] is one iteration of [reader_loop] on a decoded frame. It
    answers [Blocked] where the code awaits room in a bounded queue (the
    stream's inbound chunks, the accept queue, the control channel), leaving
    the state as the parked task leaves it. *)

From S2P Require Import Prelude Bytes Frame MuxStream.

Inductive MuxRole := Client | Server.
Inductive Mode := NodeToNode | RelayLink.

#[global] Instance MuxRole_eq_dec : EqDecision MuxRole.
Proof. solve_decision. Defined.
#[global] Instance Mode_eq_dec : EqDecision Mode.
Proof. solve_decision. Defined.

Definition owns_stream_id (role : MuxRole) (sid : Z) : bool :=
  let odd := sid mod 2 =? 1 in
  match role with Client => odd | Server => negb odd end.

Definition first_stream_id (role : MuxRole) : Z :=
  match role with Client => 1 | Server => 2 end.

(** The control channel the relay client installs: its queue, its capacity
    and whether the receiver still exists. *)
Record control_channel := {
  control_queue : list frame;
  control_capacity : Z;
  control_open : bool;
}.

Record MuxConnection := {
  shared : outbound_state;
  shutdown : bool;
  role : MuxRole;
  mode : Mode;
  next_local_id : Z;
  table : gmap Z nat;
  heap : list stream_cell;
  accept_queue : list (Z * nat);
  accept_open : bool;
  control : option control_channel;
}.

Definition is_relay_link (m : MuxConnection) : bool :=
  match mode m with RelayLink => true | NodeToNode => false end.

Definition build (r : MuxRole) (md : Mode) (ctl : option control_channel) : MuxConnection :=
  {| shared := {| outbound := []; outbound_open := true; outbound_waker := None;
                  dead := false; close_reason := None |};
     shutdown := false; role := r; mode := md;
     next_local_id := first_stream_id r;
     table := ∅; heap := []; accept_queue := []; accept_open := true; control := ctl |}.

(** [spawn] and [spawn_relay_link]. *)
Definition spawn (r : MuxRole) : MuxConnection := build r NodeToNode None.
Definition spawn_relay_link (capacity : Z) : MuxConnection :=
  build Client RelayLink
    (Some {| control_queue := []; control_capacity := capacity; control_open := true |}).

(** Field updates. *)
Definition set_shared (m : MuxConnection) (o : outbound_state) : MuxConnection :=
  {| shared := o; shutdown := shutdown m; role := role m; mode := mode m;
     next_local_id := next_local_id m; table := table m; heap := heap m;
     accept_queue := accept_queue m; accept_open := accept_open m; control := control m |}.

Definition set_streams (m : MuxConnection) (t : gmap Z nat) (h : list stream_cell) : MuxConnection :=
  {| shared := shared m; shutdown := shutdown m; role := role m; mode := mode m;
     next_local_id := next_local_id m; table := t; heap := h;
     accept_queue := accept_queue m; accept_open := accept_open m; control := control m |}.

Definition set_next_id (m : MuxConnection) (z : Z) : MuxConnection :=
  {| shared := shared m; shutdown := shutdown m; role := role m; mode := mode m;
     next_local_id := z; table := table m; heap := heap m;
     accept_queue := accept_queue m; accept_open := accept_open m; control := control m |}.

Definition set_accept (m : MuxConnection) (q : list (Z * nat)) : MuxConnection :=
  {| shared := shared m; shutdown := shutdown m; role := role m; mode := mode m;
     next_local_id := next_local_id m; table := table m; heap := heap m;
     accept_queue := q; accept_open := accept_open m; control := control m |}.

Definition set_control (m : MuxConnection) (c : option control_channel) : MuxConnection :=
  {| shared := shared m; shutdown := shutdown m; role := role m; mode := mode m;
     next_local_id := next_local_id m; table := table m; heap := heap m;
     accept_queue := accept_queue m; accept_open := accept_open m; control := c |}.

(** ** Cell updates made by the connection *)

(** Dropping a table entry drops the inbound sender, which wakes the reader. *)
Definition drop_sender (c : stream_cell) : stream_cell :=
  {| state := state c; inbound := inbound c; tx_alive := false; rx_alive := rx_alive c;
     peer_fin := peer_fin c; reset := reset c; reset_detail := reset_detail c;
     read_leftover := read_leftover c; read_offset := read_offset c; read_waker := false |}.

(** [Sender::send] of a chunk, which wakes the reader. *)
Definition push_chunk (payload : list byte) (c : stream_cell) : stream_cell :=
  {| state := state c; inbound := inbound c ++ [payload]; tx_alive := tx_alive c;
     rx_alive := rx_alive c;
     peer_fin := peer_fin c; reset := reset c; reset_detail := reset_detail c;
     read_leftover := read_leftover c; read_offset := read_offset c; read_waker := false |}.

Definition take_waker (c : stream_cell) : stream_cell :=
  with_state c (set_write_waker (state c) false).

Definition mark_reset (detail : option MuxResetError) (c : stream_cell) : stream_cell :=
  {| state := state c; inbound := inbound c; tx_alive := tx_alive c; rx_alive := rx_alive c;
     peer_fin := peer_fin c; reset := true;
     reset_detail := match detail with Some d => Some d | None => reset_detail c end;
     read_leftover := read_leftover c; read_offset := read_offset c; read_waker := read_waker c |}.

Definition mark_peer_fin (c : stream_cell) : stream_cell :=
  {| state := state c; inbound := inbound c; tx_alive := tx_alive c; rx_alive := rx_alive c;
     peer_fin := true; reset := reset c; reset_detail := reset_detail c;
     read_leftover := read_leftover c; read_offset := read_offset c; read_waker := read_waker c |}.

(** ** Failure *)

Definition mark_dead (o : outbound_state) (why : reason) : outbound_state :=
  {| outbound := outbound o; outbound_open := outbound_open o;
     outbound_waker := outbound_waker o; dead := true; close_reason := Some why |}.

(** Applies [f] to the cells the table refers to. *)
Definition map_table_cells (f : stream_cell -> stream_cell) (t : gmap Z nat)
    (h : list stream_cell) : list stream_cell :=
  map_fold (fun _ a h => alter f a h) h t.

Definition fail_connection (m : MuxConnection) (why : reason) : MuxConnection :=
  if dead (shared m) then m
  else
    {| shared := mark_dead (shared m) why; shutdown := true;
       role := role m; mode := mode m; next_local_id := next_local_id m;
       table := ∅;
       heap := map_table_cells (fun c => drop_sender (take_waker c)) (table m) (heap m);
       accept_queue := accept_queue m; accept_open := accept_open m; control := control m |}.

(** ** Opening and accepting *)

Definition alloc_stream (m : MuxConnection) (sid : Z) : nat * bool * MuxConnection :=
  let addr := length (heap m) in
  let h := heap m ++ [new_cell] in
  match table m !! sid with
  | Some old => (addr, true, set_streams m (<[sid := addr]> (table m)) (alter drop_sender old h))
  | None => (addr, false, set_streams m (<[sid := addr]> (table m)) h)
  end.

Definition remove_entry (m : MuxConnection) (sid : Z) : MuxConnection :=
  match table m !! sid with
  | Some a => set_streams m (delete sid (table m)) (alter drop_sender a (heap m))
  | None => m
  end.

(** The outcome of [Sender::send(..).await]: done, parked, or closed. *)
Inductive send_outcome := Sent (o : outbound_state) | Parked | SendClosed.

Definition send_outbound (o : outbound_state) (f : frame) : send_outcome :=
  match try_send o f with
  | Ok o1 => Sent o1
  | Err Full => Parked
  | Err Closed => SendClosed
  end.

(** The part of both open operations up to the awaited send: allocate an id
    and a table entry, or fail the connection on a live id. *)
Definition begin_open (m : MuxConnection) : result (Z * nat) mux_error * MuxConnection :=
  if dead (shared m) then (Err (ConnectionClosed (dead_reason (shared m))), m)
  else
    let sid := next_local_id m in
    let m1 := set_next_id m (wrap 32 (sid + 2)) in
    let '(addr, occupied, m2) := alloc_stream m1 sid in
    if occupied
    then (Err (ProtocolViolation (StreamStillLive sid)),
          fail_connection m2 (StreamStillLive sid))
    else (Ok (sid, addr), m2).

(** The awaited send of the opening frame, and the entry's removal when the
    connection is gone. *)
Definition finish_open (m : MuxConnection) (sid : Z) (addr : nat) (f : frame)
    : poll (result (Z * nat) mux_error) * MuxConnection :=
  match send_outbound (shared m) f with
  | Sent o => (Ready (Ok (sid, addr)), set_shared m o)
  | Parked => (Pending, m)
  | SendClosed =>
      (Ready (Err (ConnectionClosed (dead_reason (shared m)))), remove_entry m sid)
  end.

Definition open_stream (m : MuxConnection) : poll (result (Z * nat) mux_error) * MuxConnection :=
  match begin_open m with
  | (Err e, m1) => (Ready (Err e), m1)
  | (Ok (sid, addr), m1) => finish_open m1 sid addr (FOpen sid)
  end.

Definition open_stream_to (m : MuxConnection) (target : string)
    : poll (result (Z * nat) mux_error) * MuxConnection :=
  if negb (is_relay_link m) then (Ready (Err NotRelayLink), m)
  else if MAX_NODE_ID_LEN <? wrap 32 (str_len target)
  then (Ready (Err (ProtocolViolation (TargetIdTooLong (str_len target)))), m)
  else match begin_open m with
  | (Err e, m1) => (Ready (Err e), m1)
  | (Ok (sid, addr), m1) => finish_open m1 sid addr (FOpenStream sid target)
  end.

Definition accept (m : MuxConnection) : option (Z * nat) * MuxConnection :=
  match accept_queue m with
  | h :: q => (Some h, set_accept m q)
  | [] => (None, m)
  end.

(** ** Control frames *)

Definition is_link_control (f : frame) : bool :=
  match f with
  | FRegister _ | FUnregister | FHeartbeat | FWatch _ | FAdminRequest _ _ => true
  | _ => false
  end.

(** The node id of a [Register] or [Watch] longer than the limit. *)
Definition overlong_control_id (f : frame) : option Z :=
  match f with
  | FRegister s | FWatch s =>
      if MAX_NODE_ID_LEN <? wrap 32 (str_len s) then Some (str_len s) else None
  | _ => None
  end.

Definition send_control (m : MuxConnection) (f : frame) : result unit mux_error * MuxConnection :=
  if negb (is_relay_link m) then (Err NotRelayLink, m)
  else match overlong_control_id f with
  | Some n => (Err (ProtocolViolation (ControlIdTooLong n)), m)
  | None =>
      if negb (is_link_control f) then (Err (ProtocolViolation (NotAControlFrame f)), m)
      else match try_send (shared m) f with
      | Ok o => (Ok tt, set_shared m o)
      | Err Full => (Err (ConnectionClosed OutboundQueueFull), m)
      | Err Closed => (Err (ConnectionClosed (dead_reason (shared m))), m)
      end
  end.

(** ** The reader loop *)

Inductive reader_next := Continue | Stopped | Blocked.

Definition failing (m : MuxConnection) (why : reason) : reader_next * MuxConnection :=
  (Stopped, fail_connection m why).

(** The awaited send to the accept queue; a reader parked on it resumes here. *)
Definition queue_accept (m : MuxConnection) (sid : Z) (addr : nat)
    : reader_next * MuxConnection :=
  if negb (accept_open m) then failing m AcceptDropped
  else if ACCEPT_QUEUE <=? len (accept_queue m) then (Blocked, m)
  else (Continue, set_accept m (accept_queue m ++ [(sid, addr)])).

(** [push_inbound_stream]: a cell for the peer's id, queued for [accept]. *)
Definition push_inbound_stream (m : MuxConnection) (sid : Z) : reader_next * MuxConnection :=
  let '(addr, occupied, m1) := alloc_stream m sid in
  if occupied then failing m1 (PeerReopened sid)
  else queue_accept m1 sid addr.

Definition teardown_stream (m : MuxConnection) (sid : Z) (detail : option MuxResetError)
    : MuxConnection :=
  match table m !! sid with
  | None => m
  | Some a =>
      set_streams m (delete sid (table m))
        (alter (fun c => drop_sender (take_waker (mark_reset detail c))) a (heap m))
  end.

Definition dispatch_open (m : MuxConnection) (sid : Z) : reader_next * MuxConnection :=
  if is_relay_link m then failing m OpenOnRelayLink
  else if owns_stream_id (role m) sid
  then failing m (OpenWithLocalParity sid)
  else push_inbound_stream m sid.

Definition dispatch_open_stream (m : MuxConnection) (sid : Z) : reader_next * MuxConnection :=
  if negb (is_relay_link m)
  then failing m RelayControlOnNodeLink
  else if negb (sid mod 2 =? 0)
  then failing m (OddOpenStream sid)
  else push_inbound_stream m sid.

(** Forwarding a connection-level frame to the relay client. *)
Definition forward_control (m : MuxConnection) (f : frame) : reader_next * MuxConnection :=
  match control m with
  | None => failing m (NoControlChannel (frame_type_of f))
  | Some c =>
      if negb (control_open c) then failing m (ControlDropped (frame_type_of f))
      else if control_capacity c <=? len (control_queue c) then (Blocked, m)
      else (Continue,
            set_control m (Some {| control_queue := control_queue c ++ [f];
                                   control_capacity := control_capacity c;
                                   control_open := control_open c |}))
  end.

Definition dispatch_error (m : MuxConnection) (sid code : Z) (message : string)
    : reader_next * MuxConnection :=
  if negb (is_relay_link m)
  then failing m RelayControlOnNodeLink
  else if sid =? 0 then forward_control m (FError sid code message)
  else (Continue,
        teardown_stream m sid (Some {| reset_code := code; reset_message := message |})).

Definition relay_only (m : MuxConnection) (k : reader_next * MuxConnection)
    : reader_next * MuxConnection :=
  if is_relay_link m then k
  else failing m RelayControlOnNodeLink.

(** [lookup]: the table entry of a live stream, or a failed connection. *)
Definition with_entry (m : MuxConnection) (sid : Z)
    (k : nat -> stream_cell -> reader_next * MuxConnection) : reader_next * MuxConnection :=
  match table m !! sid with
  | None => failing m (ErrorText (UnknownStream sid))
  | Some a =>
      match heap m !! a with
      | None => failing m (ErrorText (UnknownStream sid))
      | Some c => k a c
      end
  end.

Definition set_cell (m : MuxConnection) (a : nat) (c : stream_cell) : MuxConnection :=
  set_streams m (table m) (<[a := c]> (heap m)).

Definition dispatch_data (m : MuxConnection) (sid : Z) (payload : list byte)
    : reader_next * MuxConnection :=
  with_entry m sid (fun a c =>
    if peer_fin c then failing m (DataOnClosedStream sid)
    else if negb (rx_alive c)
    then failing m (StreamDropped sid)
    else if INBOUND_CHUNK_QUEUE <=? len (inbound c) then (Blocked, m)
    else (Continue, set_cell m a (push_chunk payload c))).

(** The send of a reader that was parked on a full queue completes: it holds a
    sender of its own, so the chunk is delivered also when the entry is gone. *)
Definition finish_data (m : MuxConnection) (sid : Z) (addr : nat) (payload : list byte)
    : reader_next * MuxConnection :=
  match heap m !! addr with
  | None => (Blocked, m)
  | Some c =>
      if negb (rx_alive c) then failing m (StreamDropped sid)
      else if INBOUND_CHUNK_QUEUE <=? len (inbound c) then (Blocked, m)
      else (Continue, set_cell m addr (push_chunk payload c))
  end.

Definition dispatch_close (m : MuxConnection) (sid : Z) : reader_next * MuxConnection :=
  with_entry m sid (fun a c =>
    if peer_fin c then failing m (ClosedTwice sid)
    else
      let m1 := set_cell m a (mark_peer_fin c) in
      (Continue, if fin_sent (state c) then remove_entry m1 sid else m1)).

Definition dispatch_window (m : MuxConnection) (sid credit : Z) : reader_next * MuxConnection :=
  with_entry m sid (fun a c =>
    let total := peer_credit (state c) + credit in
    if 2 ^ 64 <=? total then failing m (WindowOverflow sid)
    else (Continue,
          set_cell m a (with_state c (set_write_waker (set_credit (state c) total) false)))).

Definition dispatch (m : MuxConnection) (f : frame) : reader_next * MuxConnection :=
  match f with
  | FOpen sid => dispatch_open m sid
  | FOpenStream sid _ => dispatch_open_stream m sid
  | FCloseStream sid => relay_only m (Continue, teardown_stream m sid None)
  | FError sid code message => dispatch_error m sid code message
  | FPresence _ _ | FAdminResponse _ _ => relay_only m (forward_control m f)
  | FData sid payload => dispatch_data m sid payload
  | FClose sid => dispatch_close m sid
  | FWindow sid credit => dispatch_window m sid credit
  | FRegister _ | FUnregister | FHeartbeat | FEnroll _ | FEnrollResponse _
  | FWatch _ | FAdminRequest _ _ =>
      failing m (if is_relay_link m
                 then NodeOnlyControlFrame
                 else RelayControlOnNodeLink)
  end.

(** One round of [reader_loop]: a read error fails the connection, a decoded
    frame is dispatched. [see_shutdown] is the choice of [select!] between the
    shutdown signal and the transport when both are ready. *)
Definition reader_step (see_shutdown : bool) (m : MuxConnection) (src : source)
    : reader_next * MuxConnection * source :=
  if see_shutdown && shutdown m then (Stopped, m, src)
  else match read_frame src with
  | Err e => (Stopped, fail_connection m (ErrorText e), src)
  | Ok (f, src1) => let '(n, m1) := dispatch m f in (n, m1, src1)
  end.

(** Empties the waker slot and wakes the sender it held. *)
Definition wake_outbound (o : outbound_state) : option Z * outbound_state :=
  (outbound_waker o,
   {| outbound := outbound o; outbound_open := outbound_open o; outbound_waker := None;
      dead := dead o; close_reason := close_reason o |}).

(** The writer task returning drops the queue's receiver. *)
Definition close_outbound (o : outbound_state) : outbound_state :=
  {| outbound := outbound o; outbound_open := false; outbound_waker := outbound_waker o;
     dead := dead o; close_reason := close_reason o |}.

(** The writer task taking the next frame off the queue. *)
Definition take_outbound (m : MuxConnection) : option (frame * MuxConnection) :=
  match outbound (shared m) with
  | [] => None
  | f :: q => Some (f, set_shared m (set_outbound (shared m) q))
  end.

(** One round of [writer_loop]; also says which parked sender it wakes. *)
Definition writer_step (see_shutdown : bool) (m : MuxConnection) (w : sink)
    : reader_next * option Z * MuxConnection * sink :=
  if see_shutdown && shutdown m then (Stopped, None, set_shared m (close_outbound (shared m)), w)
  else match take_outbound m with
  | None => (Blocked, None, m, w)
  | Some (f, m1) =>
      match write_frame w f with
      | Err e =>
          let m2 := fail_connection m1 (ErrorText e) in
          (Stopped, None, set_shared m2 (close_outbound (shared m2)), w)
      | Ok w1 =>
          let '(woken, o) := wake_outbound (shared m1) in
          (Continue, woken, set_shared m1 o, w1)
      end
  end.

(** Dropping the last [MuxConnection]/[MuxOpener]: both tasks are aborted
    (the receivers go away) and the table is freed with its entries. *)
Definition drop_connection (m : MuxConnection) : MuxConnection :=
  {| shared := close_outbound (shared m); shutdown := shutdown m;
     role := role m; mode := mode m; next_local_id := next_local_id m;
     table := ∅; heap := map_table_cells drop_sender (table m) (heap m);
     accept_queue := []; accept_open := false; control := control m |}.

(** ** Executions

    An event is one atomic action of a task that shares the connection: the
    reader task on a frame (or resuming a parked accept), the writer task, or
    a user of a handle. A handle is a stream id with the address of its cell. *)

Inductive conn_event :=
| EvFrame (f : frame)
| EvResumeAccept (sid : Z) (addr : nat)
| EvResumeData (sid : Z) (addr : nat) (payload : list byte)
| EvReadFailed (e : mux_error)
| EvWriter (see_shutdown : bool) (w : sink)
| EvOpen
| EvOpenTo (target : string)
| EvResumeOpen (sid : Z) (addr : nat) (f : frame)
| EvAccept
| EvControl (f : frame)
| EvRead (sid : Z) (addr : nat) (n : nat)
| EvWrite (sid : Z) (addr : nat) (buf : list byte)
| EvShutdown (sid : Z) (addr : nat)
| EvDropStream (addr : nat).

(** Runs a poll of a handle on its cell. *)
Definition on_stream {R} (m : MuxConnection) (addr : nat)
    (op : outbound_state -> stream_cell -> R * outbound_state * stream_cell)
    : option R * MuxConnection :=
  match heap m !! addr with
  | None => (None, m)
  | Some c =>
      let '(r, o, c1) := op (shared m) c in
      (Some r, set_cell (set_shared m o) addr c1)
  end.

Definition conn_exec (m : MuxConnection) (ev : conn_event) : MuxConnection :=
  match ev with
  | EvFrame f => snd (dispatch m f)
  | EvResumeAccept sid addr => snd (queue_accept m sid addr)
  | EvResumeData sid addr payload => snd (finish_data m sid addr payload)
  | EvReadFailed e => fail_connection m (ErrorText e)
  | EvWriter see w => snd (fst (writer_step see m w))
  | EvOpen => snd (open_stream m)
  | EvOpenTo target => snd (open_stream_to m target)
  | EvResumeOpen sid addr f => snd (finish_open m sid addr f)
  | EvAccept => snd (accept m)
  | EvControl f => snd (send_control m f)
  | EvRead sid addr n => snd (on_stream m addr (poll_read sid n))
  | EvWrite sid addr buf => snd (on_stream m addr (poll_write sid buf))
  | EvShutdown sid addr => snd (on_stream m addr (poll_shutdown sid))
  | EvDropStream addr => set_streams m (table m) (alter drop_stream addr (heap m))
  end.

Definition conn_run (m : MuxConnection) (evs : list conn_event) : MuxConnection :=
  fold_left conn_exec evs m.

(** The events the tasks of a connection can perform: the reader dispatches
    frames that [read_frame] decoded, which are in range. *)
Definition event_ok (ev : conn_event) : Prop :=
  match ev with EvFrame f => wf_frame f | _ => True end.

Definition grant_nonneg (f : frame) : Prop :=
  match f with FWindow _ credit => 0 <= credit | _ => True end.

(** ** Invariant *)

Definition table_inj (t : gmap Z nat) : Prop :=
  forall s1 s2 a, t !! s1 = Some a -> t !! s2 = Some a -> s1 = s2.

(** The table and the heap agree: entries point to distinct cells whose
    sender is alive, and a live sender belongs to an entry. *)
Record streams_wf (t : gmap Z nat) (h : list stream_cell) : Prop := {
  sw_cell : forall sid a, t !! sid = Some a -> exists c, h !! a = Some c /\ tx_alive c = true;
  sw_inj : table_inj t;
  sw_owner : forall a c, h !! a = Some c -> tx_alive c = true -> exists sid, t !! sid = Some a;
}.

(** Counters stay in their machine widths and the chunk queue in its bound. *)
Definition cell_ok (c : stream_cell) : Prop :=
  fits 64 (peer_credit (state c)) /\ 0 <= consumed_accum (state c)
  /\ len (inbound c) <= INBOUND_CHUNK_QUEUE
  /\ (read_offset c <= length (read_leftover c))%nat.

Record conn_wf (m : MuxConnection) : Prop := {
  wf_streams : streams_wf (table m) (heap m);
  wf_cells : Forall cell_ok (heap m);
  wf_next_id : fits 32 (next_local_id m) /\ owns_stream_id (role m) (next_local_id m) = true;
  wf_outbound : len (outbound (shared m)) <= OUTBOUND_QUEUE;
  wf_accept : len (accept_queue m) <= ACCEPT_QUEUE;
  wf_dead : dead (shared m) = true -> shutdown m = true /\ is_Some (close_reason (shared m));
}.

(** What an update of the connection-wide part must respect. *)
Definition shared_ok (o o1 : outbound_state) : Prop :=
  len (outbound o1) <= OUTBOUND_QUEUE /\ dead o1 = dead o /\ close_reason o1 = close_reason o.

(** What a poll of a handle must respect. *)
Definition poll_ok {R} (op : outbound_state -> stream_cell -> R * outbound_state * stream_cell)
    : Prop :=
  forall o c r o1 c1, op o c = (r, o1, c1) -> len (outbound o) <= OUTBOUND_QUEUE -> cell_ok c ->
  shared_ok o o1 /\ tx_alive c1 = tx_alive c /\ cell_ok c1.

(** Stream [sid] is live with cell [c] at address [a]. *)
Definition live_at (m : MuxConnection) (sid : Z) (a : nat) (c : stream_cell) : Prop :=
  table m !! sid = Some a /\ heap m !! a = Some c.

(** A cell that the connection let go of: the unread bytes stay, the sender
    is gone, and a relay reset is recorded if there was one. *)
Record let_go (c c1 : stream_cell) : Prop := {
  lg_pending : pending c1 = pending c;
  lg_inbound : inbound c1 = inbound c;
  lg_tx : tx_alive c1 = false;
}.

(** ** Lemmas on tables and heaps *)

Lemma lookup_alter_cell {A} (f : A -> A) (h : list A) a i c :
  alter f a h !! i = Some c ->
  exists c0, h !! i = Some c0 /\ c = (if decide (i = a) then f c0 else c0).
Proof.
  destruct (decide (i = a)) as [->|Hne].
  - rewrite list_lookup_alter_eq, fmap_Some. naive_solver.
  - rewrite list_lookup_alter_ne by done. naive_solver.
Qed.

Lemma streams_wf_alter t h f a :
  (forall c, tx_alive (f c) = tx_alive c) -> streams_wf t h -> streams_wf t (alter f a h).
Proof.
  intros Hf [Hc Hi Ho]. split; [|done|].
  - intros sid b Hb. destruct (Hc sid b Hb) as (c & Hh & Ha). destruct (decide (b = a)) as [->|].
    + exists (f c). rewrite list_lookup_alter_eq, Hh, Hf. done.
    + exists c. by rewrite list_lookup_alter_ne.
  - intros b c (c0 & Hc0 & ->)%lookup_alter_cell Ha. apply (Ho b c0 Hc0).
    case_decide; [by rewrite Hf in Ha|done].
Qed.

Lemma streams_wf_delete t h f sid a :
  (forall c, tx_alive (f c) = false) -> t !! sid = Some a ->
  streams_wf t h -> streams_wf (delete sid t) (alter f a h).
Proof.
  intros Hf Hs [Hc Hi Ho]. split.
  - intros s b [Hne Hb]%lookup_delete_Some. destruct (Hc s b Hb) as (c & Hh & Ha).
    exists c. rewrite list_lookup_alter_ne; [done|]. intros <-. eauto.
  - intros s1 s2 b [_ H1]%lookup_delete_Some [_ H2]%lookup_delete_Some. eauto.
  - intros b c (c0 & Hc0 & ->)%lookup_alter_cell Ha. case_decide as Hba; [by rewrite Hf in Ha|].
    destruct (Ho b c0 Hc0 Ha) as (s & Hs'). exists s. apply lookup_delete_Some.
    split; [|done]. intros <-. simplify_eq.
Qed.

Lemma streams_wf_insert t h sid :
  t !! sid = None -> streams_wf t h -> streams_wf (<[sid := length h]> t) (h ++ [new_cell]).
Proof.
  intros Hs [Hc Hi Ho].
  assert (Hlt : forall s a, t !! s = Some a -> (a < length h)%nat).
  { intros s a Ha. destruct (Hc s a Ha) as (c & Hh & _). by eapply lookup_lt_Some. }
  split.
  - intros s a [[<- <-]|[Hne Ha]]%lookup_insert_Some.
    + exists new_cell. by rewrite lookup_app_r, Nat.sub_diag by lia.
    + destruct (Hc s a Ha) as (c & Hh & Htx). exists c. by rewrite lookup_app_l by eauto.
  - intros s1 s2 a [[<- <-]|[H1 Ha1]]%lookup_insert_Some [[<- Heq]|[H2 Ha2]]%lookup_insert_Some;
      try done; try (specialize (Hlt _ _ Ha1)); try (specialize (Hlt _ _ Ha2)); try lia. eauto.
  - intros a c Ha Htx. destruct (decide (a = length h)) as [->|].
    { exists sid. by rewrite lookup_insert_eq. }
    apply lookup_app_Some in Ha as [Ha|[? Ha]].
    + destruct (Ho a c Ha Htx) as (s & Hsa). exists s. rewrite lookup_insert_ne; [done|congruence].
    + apply lookup_lt_Some in Ha. simpl in Ha. lia.
Qed.

Lemma map_table_cells_lookup f t h a :
  table_inj t ->
  ((forall sid, t !! sid <> Some a) -> map_table_cells f t h !! a = h !! a)
  /\ (forall sid, t !! sid = Some a -> map_table_cells f t h !! a = f <$> h !! a).
Proof.
  unfold map_table_cells, table_inj.
  apply (map_fold_weak_ind (fun r t => table_inj t ->
    ((forall sid, t !! sid <> Some a) -> r !! a = h !! a)
    /\ (forall sid, t !! sid = Some a -> r !! a = f <$> h !! a))); [done|].
  intros sid b t' r Hn IH Hinj.
  assert (Hinj' : table_inj t').
  { intros s1 s2 b0 H1 H2. apply (Hinj s1 s2 b0); rewrite lookup_insert_ne; congruence. }
  destruct (IH Hinj') as [Hmiss Hhit]. split.
  - intros Ha. rewrite list_lookup_alter_ne.
    + apply Hmiss. intros s Hs. apply (Ha s). rewrite lookup_insert_ne; congruence.
    + intros ->. apply (Ha sid). by rewrite lookup_insert_eq.
  - intros s [[-> ->]|[Hne Hs]]%lookup_insert_Some.
    + rewrite list_lookup_alter_eq. f_equal. apply Hmiss. intros s' Hs'.
      destruct (decide (s' = s)) as [->|Hne]; [congruence|]. apply Hne.
      apply (Hinj s' s a); [by rewrite lookup_insert_ne|by rewrite lookup_insert_eq].
    + rewrite list_lookup_alter_ne; [eauto|]. intros <-. apply Hne.
      apply (Hinj sid s b); [by rewrite lookup_insert_eq|by rewrite lookup_insert_ne].
Qed.

Lemma streams_wf_drain t h f :
  (forall c, tx_alive (f c) = false) -> streams_wf t h -> streams_wf ∅ (map_table_cells f t h).
Proof.
  intros Hf Hwf. pose proof (sw_inj _ _ Hwf) as Hinj. split.
  - intros sid a Ha. by rewrite lookup_empty in Ha.
  - intros s1 s2 a Ha. by rewrite lookup_empty in Ha.
  - intros a c Ha Htx. exfalso. destruct (map_table_cells_lookup f t h a Hinj) as [Hmiss Hhit].
    destruct (decide (map_Exists (fun _ b => b = a) t)) as [(s & b & Hs & ->)|Hno].
    + rewrite (Hhit s Hs) in Ha. apply fmap_Some in Ha as (c0 & _ & ->). by rewrite Hf in Htx.
    + rewrite Hmiss in Ha; [|by intros s Hs; apply Hno; exists s, a].
      destruct (sw_owner _ _ Hwf a c Ha Htx) as (s & Hs). apply Hno. by exists s, a.
Qed.

Lemma Forall_map_table_cells (P : stream_cell -> Prop) f t h :
  (forall c, P c -> P (f c)) -> Forall P h -> Forall P (map_table_cells f t h).
Proof.
  intros Hf Hh. unfold map_table_cells.
  apply (map_fold_weak_ind (fun r _ => Forall P r)); [done|].
  intros sid a t' r _ Hr. by apply Forall_alter; eauto.
Qed.

(** ** Preservation of the invariant *)

Lemma build_wf r md ctl : conn_wf (build r md ctl).
Proof.
  split; try done. by destruct r.
Qed.

Lemma conn_wf_set_shared m o : conn_wf m -> shared_ok (shared m) o -> conn_wf (set_shared m o).
Proof. intros [Hs Hc Hn Ho Ha Hd] (Hl & He & Hr). split; simpl; try done. by rewrite He, Hr. Qed.

Lemma conn_wf_set_streams m t h :
  conn_wf m -> streams_wf t h -> Forall cell_ok h -> conn_wf (set_streams m t h).
Proof. intros [Hs Hc Hn Ho Ha Hd] Hw Hf. by split. Qed.

Lemma conn_wf_set_accept m q :
  conn_wf m -> len q <= ACCEPT_QUEUE -> conn_wf (set_accept m q).
Proof. intros [Hs Hc Hn Ho Ha Hd] Hq. by split. Qed.

Lemma conn_wf_set_control m c : conn_wf m -> conn_wf (set_control m c).
Proof. intros [Hs Hc Hn Ho Ha Hd]. by split. Qed.

Lemma conn_wf_fail m why : conn_wf m -> conn_wf (fail_connection m why).
Proof.
  intros Hwf. unfold fail_connection. destruct (dead (shared m)) eqn:E; [done|].
  destruct Hwf as [Hs Hc Hn Ho Ha Hd]. split; simpl; try done.
  - by apply streams_wf_drain.
  - by apply Forall_map_table_cells.
Qed.

Lemma conn_wf_failing m why : conn_wf m -> conn_wf (snd (failing m why)).
Proof. apply conn_wf_fail. Qed.

Lemma conn_wf_alter m a f :
  conn_wf m -> (forall c, tx_alive (f c) = tx_alive c) -> (forall c, cell_ok c -> cell_ok (f c)) ->
  conn_wf (set_streams m (table m) (alter f a (heap m))).
Proof.
  intros Hwf Hf Hk. apply conn_wf_set_streams; [done| |].
  - by apply streams_wf_alter; [|apply Hwf].
  - apply Forall_alter; [apply Hwf|eauto].
Qed.

Lemma conn_wf_set_cell m a c c1 :
  conn_wf m -> heap m !! a = Some c -> tx_alive c1 = tx_alive c -> cell_ok c1 ->
  conn_wf (set_cell m a c1).
Proof.
  intros Hwf Ha Htx Hk. unfold set_cell.
  apply conn_wf_set_streams; [done| |by apply Forall_insert; [apply Hwf|]].
  destruct (wf_streams _ Hwf) as [Hc Hi Ho]. split; [|done|].
  - intros sid b Hb. destruct (decide (b = a)) as [->|].
    + exists c1. rewrite list_lookup_insert_eq by (by eapply lookup_lt_Some).
      destruct (Hc sid a Hb) as (c' & ? & ?). simplify_eq. by rewrite Htx.
    + rewrite list_lookup_insert_ne by done. eauto.
  - intros b c' Hb Htx'. destruct (decide (b = a)) as [->|].
    + rewrite list_lookup_insert_eq in Hb by (by eapply lookup_lt_Some). simplify_eq.
      apply (Ho a c); congruence.
    + rewrite list_lookup_insert_ne in Hb by done. eauto.
Qed.

Lemma conn_wf_remove m sid f :
  conn_wf m -> (forall c, tx_alive (f c) = false) -> (forall c, cell_ok c -> cell_ok (f c)) ->
  forall a, table m !! sid = Some a ->
  conn_wf (set_streams m (delete sid (table m)) (alter f a (heap m))).
Proof.
  intros Hwf Hf Hk a Ha. apply conn_wf_set_streams; [done| |].
  - by apply streams_wf_delete; [| |apply Hwf].
  - apply Forall_alter; [apply Hwf|eauto].
Qed.

Lemma conn_wf_remove_entry m sid : conn_wf m -> conn_wf (remove_entry m sid).
Proof.
  intros Hwf. unfold remove_entry. destruct (table m !! sid) eqn:E; [|done].
  by apply conn_wf_remove.
Qed.

Lemma conn_wf_teardown m sid d : conn_wf m -> conn_wf (teardown_stream m sid d).
Proof.
  intros Hwf. unfold teardown_stream. destruct (table m !! sid) eqn:E; [|done].
  by apply conn_wf_remove.
Qed.

Lemma conn_wf_alloc m sid addr occ m1 :
  alloc_stream m sid = (addr, occ, m1) -> conn_wf m -> conn_wf m1.
Proof.
  unfold alloc_stream. intros Hal Hwf. pose proof (wf_streams _ Hwf) as Hs.
  assert (Forall cell_ok (heap m ++ [new_cell])) as Hc.
  { apply Forall_app. split; [apply Hwf|]. by repeat constructor. }
  destruct (table m !! sid) as [old|] eqn:E; simplify_eq; apply conn_wf_set_streams; try done.
  - rewrite <- (insert_delete_eq (table m) sid).
    replace (length (heap m)) with (length (alter drop_sender old (heap m)))
      by apply length_alter.
    rewrite alter_app_l by (destruct (sw_cell _ _ Hs sid old E) as (c & ? & _);
      by eapply lookup_lt_Some).
    apply streams_wf_insert; [apply lookup_delete_eq|]. by apply streams_wf_delete.
  - by apply Forall_alter.
  - by apply streams_wf_insert.
Qed.

(** The polls of a handle. *)

Lemma shared_ok_refl o : len (outbound o) <= OUTBOUND_QUEUE -> shared_ok o o.
Proof. done. Qed.

Lemma try_send_ok o f o1 : try_send o f = Ok o1 -> shared_ok o o1.
Proof.
  intros (-> & _ & Hl)%try_send_Ok. split_and!; simpl; try done.
  rewrite len_app. unfold len in *. simpl. lia.
Qed.

Lemma account_consumed_ok sid o s k o1 s1 :
  account_consumed sid o s k = (o1, s1) -> len (outbound o) <= OUTBOUND_QUEUE ->
  0 <= k -> 0 <= consumed_accum s ->
  shared_ok o o1 /\ peer_credit s1 = peer_credit s /\ 0 <= consumed_accum s1.
Proof.
  unfold account_consumed. intros H Ho Hk Ha.
  case_match; [|simplify_eq/=; split_and!; [done..|lia]].
  destruct (try_send o _) as [o2|[]] eqn:E; simplify_eq/=; split_and!; try done; try lia;
    by apply try_send_ok in E.
Qed.

Lemma poll_read_ok sid n : poll_ok (poll_read sid n).
Proof.
  intros o c r o1 c1 H Ho (Hk & Hac & Hl & Hr). unfold poll_read in H.
  destruct (Nat.eqb_spec n 0); [by simplify_eq|].
  destruct (Nat.ltb_spec (read_offset c) (length (read_leftover c))).
  { simplify_eq. split_and!; try done. unfold cell_ok. simpl. split_and!; try done. lia. }
  destruct (inbound c) as [|chunk rest] eqn:Hin.
  - assert (o1 = o /\ (c1 = c \/ c1 = arm_reader c)) as (-> & Hc1).
    { repeat case_match; simplify_eq; eauto. }
    destruct Hc1 as [-> | ->].
    + split_and!; try done. by unfold cell_ok; rewrite Hin.
    + split_and!; try done. by unfold cell_ok; simpl; rewrite Hin.
  - destruct (account_consumed _ _ _ _) as [o2 s2] eqn:Hacc. simplify_eq.
    apply account_consumed_ok in Hacc as (Hs & Hp & Hac'); [|done|lia|by case_match].
    assert (len rest <= INBOUND_CHUNK_QUEUE).
    { unfold len in *. simpl in Hl. lia. }
    split; [done|]. unfold cell_ok, len in *. simpl. rewrite Hp.
    case_match; simpl; split_and!; try done. lia.
Qed.

Lemma poll_write_ok sid buf : poll_ok (poll_write sid buf).
Proof.
  intros o c r o1 c1 H Ho (Hk & Hac & Hl & Hr). unfold poll_write in H.
  destruct buf as [|b buf]; [by simplify_eq|].
  destruct (reset c); [by simplify_eq|]. destruct (dead o); [by simplify_eq|].
  destruct (fin_sent _); [by simplify_eq|].
  destruct (Z.eqb_spec (peer_credit (state c)) 0); [by simplify_eq|].
  destruct (try_send o _) as [o2|[]] eqn:E; simplify_eq/=; try done.
  apply try_send_ok in E. split_and!; try done. unfold cell_ok. simpl. split_and!; try done.
  unfold fits, len, MAX_FRAME_PAYLOAD in *. simpl. lia.
Qed.

Lemma poll_shutdown_ok sid : poll_ok (poll_shutdown sid).
Proof.
  intros o c r o1 c1 H Ho Hk. unfold poll_shutdown in H.
  destruct (fin_sent _); [by simplify_eq|]. destruct (dead o) eqn:Hd; [by simplify_eq|].
  destruct (try_send o _) as [o2|[]] eqn:E; simplify_eq/=; try done.
  apply try_send_ok in E. done.
Qed.

Lemma conn_wf_on_stream {R} m a (op : outbound_state -> stream_cell -> R * outbound_state * stream_cell) :
  conn_wf m -> poll_ok op -> conn_wf (snd (on_stream m a op)).
Proof.
  intros Hwf Hop. unfold on_stream. destruct (heap m !! a) as [c|] eqn:Ha; [|done].
  destruct (op (shared m) c) as [[r o] c1] eqn:E. simpl.
  destruct (Hop _ _ _ _ _ E) as (Hs & Htx & Hk); [apply Hwf|by eapply Forall_lookup_1; [apply Hwf|]|].
  apply (conn_wf_set_cell (set_shared m o) a c); [by apply conn_wf_set_shared|done..].
Qed.

(** The reader task. *)

Lemma conn_wf_queue_accept m sid addr : conn_wf m -> conn_wf (snd (queue_accept m sid addr)).
Proof.
  intros Hwf. unfold queue_accept. destruct (accept_open m); [|by apply conn_wf_fail]. simpl.
  destruct (Z.leb_spec ACCEPT_QUEUE (len (accept_queue m))); [done|].
  apply conn_wf_set_accept; [done|]. rewrite len_app. unfold len in *. simpl. lia.
Qed.

Lemma conn_wf_push_inbound m sid : conn_wf m -> conn_wf (snd (push_inbound_stream m sid)).
Proof.
  intros Hwf. unfold push_inbound_stream.
  destruct (alloc_stream m sid) as [[addr occ] m1] eqn:E. apply conn_wf_alloc in E; [|done].
  destruct occ; [by apply conn_wf_fail|by apply conn_wf_queue_accept].
Qed.

Lemma conn_wf_forward_control m f : conn_wf m -> conn_wf (snd (forward_control m f)).
Proof.
  intros Hwf. unfold forward_control. destruct (control m) as [ch|]; [|by apply conn_wf_fail].
  destruct (control_open ch); [|by apply conn_wf_fail]. simpl.
  destruct (_ <=? _); [done|]. by apply conn_wf_set_control.
Qed.

Lemma conn_wf_with_entry m sid k :
  conn_wf m ->
  (forall a c, table m !! sid = Some a -> heap m !! a = Some c -> cell_ok c -> conn_wf (snd (k a c))) ->
  conn_wf (snd (with_entry m sid k)).
Proof.
  intros Hwf Hk. unfold with_entry. destruct (table m !! sid) as [a|] eqn:Ht; [|by apply conn_wf_fail].
  destruct (heap m !! a) as [c|] eqn:Ha; [|by apply conn_wf_fail].
  apply Hk; try done. by eapply Forall_lookup_1; [apply Hwf|].
Qed.

Create HintDb conn.
#[global] Hint Resolve conn_wf_fail conn_wf_failing conn_wf_teardown conn_wf_push_inbound
  conn_wf_forward_control conn_wf_remove_entry conn_wf_queue_accept : conn.

Lemma conn_wf_dispatch m f : conn_wf m -> grant_nonneg f -> conn_wf (snd (dispatch m f)).
Proof.
  intros Hwf Hf. destruct f; simpl; unfold dispatch_open, dispatch_open_stream, dispatch_error,
    relay_only, dispatch_data, dispatch_close, dispatch_window; repeat case_match;
    eauto with conn; apply conn_wf_with_entry; try done; intros a c Ht Ha (Hk & Hac & Hl & Hr).
  - destruct (peer_fin c); [eauto with conn|].
    assert (conn_wf (set_cell m a (mark_peer_fin c))) by (by apply (conn_wf_set_cell m a c)).
    simpl. destruct (fin_sent _); eauto with conn.
  - destruct (peer_fin c); [eauto with conn|]. destruct (rx_alive c); [|simpl; eauto with conn]. simpl.
    destruct (Z.leb_spec INBOUND_CHUNK_QUEUE (len (inbound c))); [done|].
    apply (conn_wf_set_cell m a c); try done. split_and!; simpl; try done.
    rewrite len_app. unfold len in *. simpl. lia.
  - destruct (Z.leb_spec (2 ^ 64) (peer_credit (state c) + credit)); [eauto with conn|].
    apply (conn_wf_set_cell m a c); try done. split_and!; simpl; try done.
    unfold fits, grant_nonneg in *. lia.
Qed.

Lemma conn_wf_finish_data m sid addr payload : conn_wf m -> conn_wf (snd (finish_data m sid addr payload)).
Proof.
  intros Hwf. unfold finish_data. destruct (heap m !! addr) as [c|] eqn:Ha; [|done].
  destruct (rx_alive c); [|simpl; eauto with conn]. simpl.
  destruct (Z.leb_spec INBOUND_CHUNK_QUEUE (len (inbound c))); [done|].
  assert (Hc : cell_ok c) by (by eapply Forall_lookup_1; [apply Hwf|]). destruct Hc as (Hk & Hac & Hl & Hr).
  apply (conn_wf_set_cell m addr c); try done. split_and!; simpl; try done.
  rewrite len_app. unfold len in *. simpl. lia.
Qed.

Lemma wf_frame_grant f : wf_frame f -> grant_nonneg f.
Proof. intros [_ H]. destruct f; simpl in *; try done. apply H. Qed.

(** The opening operations, the writer task, and the whole step. *)

Lemma owns_next_id r z :
  owns_stream_id r z = true -> owns_stream_id r (wrap 32 (z + 2)) = true.
Proof.
  unfold owns_stream_id, wrap. intros H.
  assert ((z + 2) mod 2 ^ 32 mod 2 = z mod 2) as ->; [|done].
  rewrite Z.mod_mod_divide by (by exists (2 ^ 31)).
  rewrite <- (Z.mod_add z 1 2) by lia. f_equal.
Qed.

Lemma conn_wf_begin_open m : conn_wf m -> conn_wf (snd (begin_open m)).
Proof.
  intros Hwf. unfold begin_open. destruct (dead (shared m)) eqn:Hd; [done|].
  assert (conn_wf (set_next_id m (wrap 32 (next_local_id m + 2)))) as Hw1.
  { destruct Hwf as [Hs Hc [Hn Hp] Ho Ha Hdd]. split; simpl; try done. split.
    - unfold fits, wrap. apply Z.mod_pos_bound. lia.
    - by apply owns_next_id. }
  destruct (alloc_stream _ _) as [[addr occ] m1] eqn:E. apply conn_wf_alloc in E; [|done].
  destruct occ; simpl; eauto with conn.
Qed.

Lemma conn_wf_finish_open m sid addr f : conn_wf m -> conn_wf (snd (finish_open m sid addr f)).
Proof.
  intros Hwf. unfold finish_open, send_outbound.
  destruct (try_send (shared m) f) as [o|[]] eqn:E; simpl; eauto with conn.
  apply conn_wf_set_shared; [done|]. by eapply try_send_ok.
Qed.

Lemma conn_wf_writer see m w : conn_wf m -> conn_wf (snd (fst (writer_step see m w))).
Proof.
  intros Hwf. unfold writer_step, take_outbound. destruct (see && shutdown m).
  { by apply conn_wf_set_shared; [|split_and!; [apply Hwf|..]]. }
  destruct (outbound (shared m)) as [|f q] eqn:Eo; [done|].
  assert (len q <= OUTBOUND_QUEUE) as Hq.
  { pose proof (wf_outbound _ Hwf) as Ho. rewrite Eo in Ho. unfold len in *. simpl in Ho. lia. }
  assert (conn_wf (set_shared m (set_outbound (shared m) q))) as Hw1
    by (by apply conn_wf_set_shared).
  destruct (write_frame w f); simpl.
  - by apply (conn_wf_set_shared (set_shared m (set_outbound (shared m) q))).
  - apply conn_wf_set_shared; [eauto with conn|]. split_and!; try done.
    unfold fail_connection. by destruct (dead _).
Qed.

Lemma conn_wf_exec m ev : conn_wf m -> event_ok ev -> conn_wf (conn_exec m ev).
Proof.
  intros Hwf Hev. pose proof (conn_wf_begin_open m Hwf) as Hb.
  destruct ev; simpl; eauto using conn_wf_dispatch, wf_frame_grant, conn_wf_writer, conn_wf_finish_open, conn_wf_finish_data with conn.
  - unfold open_stream. destruct (begin_open m) as [[[sid addr]|e] m1];
      [by apply conn_wf_finish_open|done].
  - unfold open_stream_to. do 2 (case_match; [done|]).
    destruct (begin_open m) as [[[sid addr]|e] m1]; [by apply conn_wf_finish_open|done].
  - unfold accept. destruct (accept_queue m) as [|h q] eqn:E; [done|].
    apply conn_wf_set_accept; [done|]. pose proof (wf_accept _ Hwf) as Ha.
    rewrite E in Ha. unfold len in *. simpl in *. lia.
  - unfold send_control. repeat (case_match; try done).
    apply conn_wf_set_shared; [done|]. by eapply try_send_ok.
  - by apply conn_wf_on_stream; [|apply poll_read_ok].
  - by apply conn_wf_on_stream; [|apply poll_write_ok].
  - by apply conn_wf_on_stream; [|apply poll_shutdown_ok].
  - apply conn_wf_alter; try done. intros c (Hk & Hac & Hl & Hr). by split_and!; simpl.
Qed.

Lemma conn_wf_run m evs : conn_wf m -> Forall event_ok evs -> conn_wf (conn_run m evs).
Proof.
  intros Hwf Hev. unfold conn_run. revert m Hwf.
  induction Hev as [|ev evs Hok _ IH]; intros m Hwf; simpl; [done|].
  apply IH. by apply conn_wf_exec.
Qed.

(** ** Failure and isolation *)

Lemma fail_connection_dead m why : dead (shared (fail_connection m why)) = true.
Proof. unfold fail_connection. by destruct (dead (shared m)) eqn:E. Qed.

Lemma fail_connection_reason m why :
  close_reason (shared (fail_connection m why))
  = if dead (shared m) then close_reason (shared m) else Some why.
Proof. unfold fail_connection. by destruct (dead (shared m)) eqn:E. Qed.

Lemma let_go_reads sid n o c c1 :
  let_go c c1 -> (0 < n)%nat -> chunks_nonempty c ->
  exists o2 c2, read_until (S (length (pending c))) sid n o c1 []
    = Some (pending c, drained_answer sid o c1, o2, c2).
Proof.
  intros [Hp Hi _] Hn Hne.
  destruct (read_until_pending sid n o c1 [] (S (length (pending c)))) as (o2 & c2 & H & _).
  - done.
  - unfold chunks_nonempty. by rewrite Hi.
  - rewrite Hp. lia.
  - exists o2, c2. by rewrite H, Hp.
Qed.

Lemma fail_connection_cell m why sid a c :
  conn_wf m -> dead (shared m) = false -> table m !! sid = Some a -> heap m !! a = Some c ->
  heap (fail_connection m why) !! a = Some (drop_sender (take_waker c)).
Proof.
  intros Hwf Hd Ht Ha. unfold fail_connection. rewrite Hd. simpl.
  rewrite (proj2 (map_table_cells_lookup _ _ _ _ (sw_inj _ _ (wf_streams _ Hwf))) sid Ht).
  by rewrite Ha.
Qed.

Lemma drop_take_let_go c : let_go c (drop_sender (take_waker c)).
Proof. done. Qed.

(** Allocating an id leaves the other streams alone. *)
Lemma alloc_stream_other m sid addr occ m1 sid' a c :
  alloc_stream m sid = (addr, occ, m1) -> conn_wf m -> sid' <> sid ->
  live_at m sid' a c -> live_at m1 sid' a c /\ shared m1 = shared m.
Proof.
  intros Hal Hwf Hne [Ht Ha]. unfold live_at. unfold alloc_stream in Hal.
  assert ((heap m ++ [new_cell]) !! a = Some c) as Ha'
    by (rewrite lookup_app_l; [done|by eapply lookup_lt_Some]).
  destruct (table m !! sid) as [old|] eqn:E; simplify_eq/=.
  - rewrite lookup_insert_ne by done. split_and!; try done.
    rewrite list_lookup_alter_ne; [done|]. intros ->.
    apply Hne. by apply (sw_inj _ _ (wf_streams _ Hwf) sid' sid a).
  - by rewrite lookup_insert_ne by done.
Qed.

Lemma set_cell_other m a c1 sid sid' a' c' :
  conn_wf m -> table m !! sid = Some a -> sid' <> sid ->
  live_at m sid' a' c' -> live_at (set_cell m a c1) sid' a' c'.
Proof.
  intros Hwf Ht Hne [Ht' Ha']. split; [done|]. simpl. rewrite list_lookup_insert_ne; [done|].
  intros ->. apply Hne. by apply (sw_inj _ _ (wf_streams _ Hwf) sid' sid a').
Qed.

Lemma remove_other m f a sid sid' a' c' :
  conn_wf m -> table m !! sid = Some a -> sid' <> sid -> live_at m sid' a' c' ->
  live_at (set_streams m (delete sid (table m)) (alter f a (heap m))) sid' a' c'.
Proof.
  intros Hwf Ht Hne [Ht' Ha']. split; simpl.
  - by rewrite lookup_delete_ne.
  - rewrite list_lookup_alter_ne; [done|]. intros ->.
    apply Hne. by apply (sw_inj _ _ (wf_streams _ Hwf) sid' sid a').
Qed.

Lemma queue_accept_other m sid addr next m1 sid' a c :
  queue_accept m sid addr = (next, m1) -> next <> Stopped -> live_at m sid' a c ->
  live_at m1 sid' a c /\ shared m1 = shared m.
Proof.
  unfold queue_accept, failing. intros H Hn Hl. by repeat case_match; simplify_eq/=.
Qed.

Lemma push_inbound_other m sid next m1 sid' a c :
  push_inbound_stream m sid = (next, m1) -> next <> Stopped -> conn_wf m -> sid' <> sid ->
  live_at m sid' a c -> live_at m1 sid' a c /\ shared m1 = shared m.
Proof.
  unfold push_inbound_stream, failing. intros H Hn Hwf Hne Hl.
  destruct (alloc_stream m sid) as [[addr occ] m0] eqn:E.
  destruct (alloc_stream_other _ _ _ _ _ _ _ _ E Hwf Hne Hl) as [Hl0 Hs0].
  destruct occ; [by simplify_eq/=|].
  destruct (queue_accept_other _ _ _ _ _ _ _ _ H Hn Hl0) as [? ->]. done.
Qed.

Lemma teardown_other m sid d sid' a c :
  conn_wf m -> sid' <> sid -> live_at m sid' a c ->
  live_at (teardown_stream m sid d) sid' a c /\ shared (teardown_stream m sid d) = shared m.
Proof.
  intros Hwf Hne Hl. unfold teardown_stream.
  destruct (table m !! sid) eqn:E; [|done]. split; [by apply remove_other|done].
Qed.

Lemma with_entry_inv m sid k next m1 :
  with_entry m sid k = (next, m1) -> next <> Stopped ->
  exists a c, table m !! sid = Some a /\ heap m !! a = Some c /\ k a c = (next, m1).
Proof.
  unfold with_entry, failing. intros H Hn.
  destruct (table m !! sid) as [a|]; [|by simplify_eq].
  destruct (heap m !! a) as [c|] eqn:Ha; [|by simplify_eq]. eauto.
Qed.

Lemma forward_control_other m f next m1 sid a c :
  forward_control m f = (next, m1) -> next <> Stopped -> live_at m sid a c ->
  live_at m1 sid a c /\ shared m1 = shared m.
Proof.
  unfold forward_control, failing. intros H Hn Hl. by repeat case_match; simplify_eq/=.
Qed.

Lemma dispatch_other m f next m1 sid a c :
  conn_wf m -> live_at m sid a c -> stream_id f <> sid ->
  dispatch m f = (next, m1) -> next <> Stopped ->
  live_at m1 sid a c /\ shared m1 = shared m.
Proof.
  intros Hwf Hl Hne H Hn. assert (sid <> stream_id f) as Hne' by done.
  destruct f; simpl in *;
    unfold dispatch_open, dispatch_open_stream, dispatch_error, relay_only, failing in H.
  all: try (repeat case_match; simplify_eq/=; eauto using push_inbound_other,
    forward_control_other, teardown_other; fail).
  all: apply with_entry_inv in H as (b & cb & Ht & Hb & H); [|done]; unfold failing in H.
  - destruct (peer_fin cb); [by simplify_eq|].
    assert (live_at (set_cell m b (mark_peer_fin cb)) sid a c) as Hl1
      by (by eapply set_cell_other).
    assert (conn_wf (set_cell m b (mark_peer_fin cb))) as Hw1
      by (apply (conn_wf_set_cell m b cb); [done..|];
          by apply (Forall_lookup_1 _ _ _ _ (wf_cells _ Hwf) Hb)).
    simplify_eq/=. destruct (fin_sent _); [|done]. unfold remove_entry. simpl. rewrite Ht.
    split; [|done]. by apply (remove_other (set_cell m b (mark_peer_fin cb))).
  - repeat case_match; simplify_eq/=; try done. split; [|done]. by eapply set_cell_other.
  - case_match; simplify_eq/=; try done. split; [|done]. by eapply set_cell_other.
Qed.

(** When the reader stops on a frame, the state it failed is the one before
    the frame, or that state with an entry allocated for a fresh or reopened
    id. *)
Lemma dispatch_stopped m f m1 sid a c :
  conn_wf m -> live_at m sid a c -> dispatch m f = (Stopped, m1) ->
  exists m0 why, m1 = fail_connection m0 why /\ conn_wf m0 /\ shared m0 = shared m
    /\ (live_at m0 sid a c
        \/ (heap m0 !! a = Some (drop_sender c) /\ forall s, table m0 !! s <> Some a)).
Proof.
  intros Hwf Hl H.
  assert (forall why, m1 = fail_connection m why ->
    exists m0 why, m1 = fail_connection m0 why /\ conn_wf m0 /\ shared m0 = shared m
    /\ (live_at m0 sid a c
        \/ (heap m0 !! a = Some (drop_sender c) /\ forall s, table m0 !! s <> Some a)))
    as Hsame by eauto 10.
  assert (forall s, push_inbound_stream m s = (Stopped, m1) ->
    exists m0 why, m1 = fail_connection m0 why /\ conn_wf m0 /\ shared m0 = shared m
    /\ (live_at m0 sid a c
        \/ (heap m0 !! a = Some (drop_sender c) /\ forall s, table m0 !! s <> Some a))) as Hpush.
  { intros s Hp. unfold push_inbound_stream, queue_accept, failing in Hp.
    destruct (alloc_stream m s) as [[addr occ] m0] eqn:E.
    assert (exists why, m1 = fail_connection m0 why) as (why & ->)
      by (repeat case_match; simplify_eq; eauto).
    exists m0, why. split; [done|]. split; [by eapply conn_wf_alloc|].
    destruct (decide (sid = s)) as [<-|Hne].
    - destruct Hl as [Ht Ha]. unfold alloc_stream in E. rewrite Ht in E. simplify_eq/=.
      pose proof (lookup_lt_Some _ _ _ Ha) as Hlt. split; [done|]. right.
      rewrite list_lookup_alter_eq, lookup_app_l, Ha by done. split; [done|].
      intros s [[<- Heq]|[Hne Hs]]%lookup_insert_Some; [lia|].
      apply Hne. by apply (sw_inj _ _ (wf_streams _ Hwf) sid s a).
    - destruct (alloc_stream_other _ _ _ _ _ _ _ _ E Hwf Hne Hl). eauto. }
  destruct f; simpl in H; unfold dispatch_open, dispatch_open_stream, dispatch_error, relay_only,
    dispatch_data, dispatch_close, dispatch_window, with_entry, forward_control, failing in H;
    repeat case_match; simplify_eq/=; eauto.
Qed.

Lemma fail_connection_let_go m why sid a c :
  conn_wf m -> dead (shared m) = false ->
  (live_at m sid a c
   \/ (heap m !! a = Some (drop_sender c) /\ forall s, table m !! s <> Some a)) ->
  exists c1, heap (fail_connection m why) !! a = Some c1 /\ let_go c c1 /\ reset c1 = reset c.
Proof.
  intros Hwf Hd [[Ht Ha]|[Ha Hs]].
  - eexists. by rewrite (fail_connection_cell m why sid a c).
  - exists (drop_sender c). split; [|done]. unfold fail_connection. rewrite Hd. simpl.
    rewrite (proj1 (map_table_cells_lookup _ _ _ a (sw_inj _ _ (wf_streams _ Hwf))) Hs). done.
Qed.

(** Once dead, always dead for the same reason. *)

Lemma fail_connection_noop m why : dead (shared m) = true -> fail_connection m why = m.
Proof. unfold fail_connection. by intros ->. Qed.

Lemma alloc_stream_shared m sid : shared (snd (alloc_stream m sid)) = shared m.
Proof. unfold alloc_stream. by destruct (table m !! sid). Qed.

Lemma remove_entry_shared m sid : shared (remove_entry m sid) = shared m.
Proof. unfold remove_entry. by destruct (table m !! sid). Qed.

Lemma teardown_stream_shared m sid d : shared (teardown_stream m sid d) = shared m.
Proof. unfold teardown_stream. by destruct (table m !! sid). Qed.

Lemma dead_push_inbound m sid :
  dead (shared m) = true -> shared (snd (push_inbound_stream m sid)) = shared m.
Proof.
  intros Hd. unfold push_inbound_stream, queue_accept, failing.
  pose proof (alloc_stream_shared m sid) as Hs.
  destruct (alloc_stream m sid) as [[addr occ] m1]; simpl in Hs. rewrite <- Hs in Hd |- *.
  rewrite !fail_connection_noop by done. by repeat case_match.
Qed.

Lemma dead_dispatch m f : dead (shared m) = true -> shared (snd (dispatch m f)) = shared m.
Proof.
  intros Hd. destruct f; simpl; unfold dispatch_open, dispatch_open_stream, dispatch_error,
    relay_only, dispatch_data, dispatch_close, dispatch_window, with_entry, forward_control, failing;
    rewrite ?(fail_connection_noop m) by done; repeat case_match;
    rewrite ?dead_push_inbound by done; simpl;
    by rewrite ?teardown_stream_shared, ?remove_entry_shared.
Qed.

Lemma on_stream_dead {R} m a (op : outbound_state -> stream_cell -> R * outbound_state * stream_cell) :
  (forall o c r o1 c1, op o c = (r, o1, c1) -> dead o1 = dead o /\ close_reason o1 = close_reason o) ->
  dead (shared (snd (on_stream m a op))) = dead (shared m)
  /\ close_reason (shared (snd (on_stream m a op))) = close_reason (shared m).
Proof.
  intros Hop. unfold on_stream. destruct (heap m !! a) as [c|]; [|done].
  destruct (op (shared m) c) as [[r o] c1] eqn:E. by apply Hop in E.
Qed.

Lemma try_send_dead o f o1 :
  try_send o f = Ok o1 -> dead o1 = dead o /\ close_reason o1 = close_reason o.
Proof. by intros (-> & _ & _)%try_send_Ok. Qed.

Lemma poll_read_dead sid n o c r o1 c1 :
  poll_read sid n o c = (r, o1, c1) -> dead o1 = dead o /\ close_reason o1 = close_reason o.
Proof.
  unfold poll_read. intros H. repeat case_match; simplify_eq; try done;
    by edestruct account_consumed_frame as (? & ? & _); [eassumption|].
Qed.

Lemma poll_write_dead sid buf o c r o1 c1 :
  poll_write sid buf o c = (r, o1, c1) -> dead o1 = dead o /\ close_reason o1 = close_reason o.
Proof.
  unfold poll_write. intros H. repeat case_match; simplify_eq; try done;
    edestruct try_send_dead; [eassumption|]; split; congruence.
Qed.

Lemma poll_shutdown_dead sid o c r o1 c1 :
  poll_shutdown sid o c = (r, o1, c1) -> dead o1 = dead o /\ close_reason o1 = close_reason o.
Proof.
  unfold poll_shutdown. intros H. repeat case_match; simplify_eq; try done;
    edestruct try_send_dead; [eassumption|]; split; congruence.
Qed.

Lemma dead_exec m ev :
  dead (shared m) = true ->
  dead (shared (conn_exec m ev)) = dead (shared m)
  /\ close_reason (shared (conn_exec m ev)) = close_reason (shared m).
Proof.
  intros Hd. destruct ev; simpl; rewrite ?dead_dispatch, ?fail_connection_noop by done; try done;
    eauto using on_stream_dead, poll_read_dead, poll_write_dead, poll_shutdown_dead.
  - unfold queue_accept, failing. rewrite fail_connection_noop by done. by repeat case_match.
  - unfold finish_data, failing. rewrite fail_connection_noop by done. by repeat case_match.
  - unfold writer_step, take_outbound. repeat case_match; simplify_eq/=; try done.
    + by match goal with E : wake_outbound _ = _ |- _ => injection E as _ <- end.
    + by rewrite fail_connection_noop.
  - unfold open_stream, begin_open. by rewrite Hd.
  - unfold open_stream_to, begin_open. rewrite Hd. by repeat case_match.
  - unfold finish_open, send_outbound. destruct (try_send _ _) as [o|[]] eqn:E; simpl;
      rewrite ?remove_entry_shared; eauto using try_send_dead.
  - unfold accept. by case_match.
  - unfold send_control. repeat (case_match; try done). by eapply try_send_dead.
Qed.

(** ** Properties *)

(** C26. Every reachable connection is well formed, whatever its tasks and
    users do: table entries are distinct live cells and no live sender is
    orphaned, credits fit 64 bits, the outbound, accept and chunk queues stay
    within their bounds, and the next local id has the parity of the role. *)
Theorem conn_run_wf r md ctl evs :
  Forall event_ok evs -> conn_wf (conn_run (build r md ctl) evs).
Proof.
  apply conn_wf_run, build_wf.
Qed.

(** Streams are isolated: a frame for another stream (or for the
    connection) that the reader dispatches without failing the connection
    leaves a live stream's entry, cell and credit exactly as they were, and
    queues nothing for the peer. *)
Theorem frames_touch_only_their_stream m f next m1 sid a c :
  conn_wf m -> live_at m sid a c -> stream_id f <> sid ->
  dispatch m f = (next, m1) -> next <> Stopped ->
  live_at m1 sid a c /\ shared m1 = shared m.
Proof. apply dispatch_other. Qed.

(** C39. A connection the reader fails reaches every stream: the bytes already
    received are still delivered, then reads and writes fail with the
    recorded reason. *)
Theorem failure_reaches_every_stream m f m1 sid a c n b bs :
  conn_wf m -> dead (shared m) = false -> live_at m sid a c ->
  chunks_nonempty c -> reset c = false -> (0 < n)%nat ->
  dispatch m f = (Stopped, m1) ->
  exists why c1 o2 c2,
    dead (shared m1) = true /\ close_reason (shared m1) = Some why
    /\ heap m1 !! a = Some c1
    /\ read_until (S (length (pending c))) sid n (shared m1) c1 []
       = Some (pending c, Ready (Err (io_of_mux (ConnectionClosed why))), o2, c2)
    /\ poll_write sid (b :: bs) (shared m1) c1
       = (Ready (Err (io_of_mux (ConnectionClosed why))), shared m1, c1).
Proof.
  intros Hwf Hd Hl Hne Hr Hn H.
  destruct (dispatch_stopped _ _ _ _ _ _ Hwf Hl H) as (m0 & why & -> & Hw0 & Hs0 & Hcase).
  rewrite <- Hs0 in Hd.
  destruct (fail_connection_let_go m0 why sid a c Hw0 Hd Hcase) as (c1 & Ha & Hlg & Hr1).
  destruct (let_go_reads sid n (shared (fail_connection m0 why)) c c1 Hlg Hn Hne)
    as (o2 & c2 & Hread).
  pose proof (fail_connection_dead m0 why) as Hdead.
  pose proof (fail_connection_reason m0 why) as Hwhy. rewrite Hd in Hwhy.
  exists why, c1, o2, c2. split_and!; try done.
  - rewrite Hread. unfold drained_answer, connection_dead_error, dead_reason.
    by rewrite (lg_tx _ _ Hlg), Hr1, Hr, Hdead, Hwhy.
  - unfold poll_write, connection_dead_error, dead_reason. by rewrite Hr1, Hr, Hdead, Hwhy.
Qed.

(** A relay teardown resets exactly its stream: the entry goes, both
    parked sides are woken, the received bytes are delivered, and then reads
    fail with the relay's code and message as [ConnectionReset] and writes as
    [BrokenPipe]. *)
Theorem teardown_delivers_relay_error m sid a c code message n b bs :
  conn_wf m -> is_relay_link m = true -> live_at m sid a c -> sid <> 0 ->
  chunks_nonempty c -> (0 < n)%nat ->
  exists m1 c1 o2 c2,
    dispatch m (FError sid code message) = (Continue, m1)
    /\ table m1 = delete sid (table m) /\ heap m1 !! a = Some c1
    /\ read_waker c1 = false /\ write_waker (state c1) = false
    /\ read_until (S (length (pending c))) sid n (shared m1) c1 []
       = Some (pending c,
               Ready (Err (ResetWithDetail ConnectionReset
                             {| reset_code := code; reset_message := message |})), o2, c2)
    /\ poll_write sid (b :: bs) (shared m1) c1
       = (Ready (Err (ResetWithDetail BrokenPipe
                        {| reset_code := code; reset_message := message |})), shared m1, c1).
Proof.
  intros Hwf Hrl [Ht Ha] Hs Hne Hn.
  set (d := {| reset_code := code; reset_message := message |}).
  set (c1 := drop_sender (take_waker (mark_reset (Some d) c))).
  destruct (let_go_reads sid n (shared m) c c1 ltac:(done) Hn Hne) as (o2 & c2 & Hread).
  exists (teardown_stream m sid (Some d)), c1, o2, c2. simpl.
  unfold dispatch_error. rewrite Hrl. simpl. destruct (Z.eqb_spec sid 0); [done|].
  unfold teardown_stream. rewrite Ht. simpl. split_and!; try done.
  by rewrite list_lookup_alter_eq, Ha.
Qed.

(** The first failure wins: once a connection is dead, no later event of
    any task revives it or changes the reason its users see. *)
Theorem first_failure_wins m evs :
  dead (shared m) = true ->
  dead (shared (conn_run m evs)) = true
  /\ close_reason (shared (conn_run m evs)) = close_reason (shared m).
Proof.
  unfold conn_run. revert m. induction evs as [|ev evs IH]; intros m Hd; simpl; [done|].
  destruct (dead_exec m ev Hd) as [H1 H2]. rewrite <- H2. apply IH. congruence.
Qed.

(** The peer's [Close] reaches a polling reader but not a parked one: it
    makes the next poll answer end of file, yet leaves the reader's registered
    waker where it is, so a reader that was already waiting on the drained
    stream is not woken by it. *)
Theorem close_does_not_wake_the_reader m sid a c n :
  live_at m sid a c -> tx_alive c = true -> peer_fin c = false ->
  fin_sent (state c) = false -> pending c = [] -> inbound c = [] -> (0 < n)%nat ->
  exists m1 c1,
    poll_read sid n (shared m) c = (Pending, shared m, arm_reader c)
    /\ dispatch (set_cell m a (arm_reader c)) (FClose sid) = (Continue, m1)
    /\ live_at m1 sid a c1 /\ read_waker c1 = true
    /\ poll_read sid n (shared m1) c1 = (Ready (Ok []), shared m1, c1).
Proof.
  intros [Ht Ha] Htx Hpf Hfs Hp Hi Hn.
  assert (Hoff : (length (read_leftover c) <= read_offset c)%nat).
  { unfold pending in Hp. rewrite Hi in Hp. simpl in Hp. rewrite app_nil_r in Hp.
    apply (f_equal length) in Hp. rewrite length_drop in Hp. simpl in Hp. lia. }
  pose proof (lookup_lt_Some _ _ _ Ha) as Hlt.
  assert (forall o c', read_leftover c' = read_leftover c -> read_offset c' = read_offset c ->
    inbound c' = [] -> tx_alive c' = true ->
    poll_read sid n o c' = (if peer_fin c' then Ready (Ok []) else Pending, o, arm_reader c')) as Hr.
  { intros o c' H1 H2 H3 H4. unfold poll_read. rewrite H1, H2, H3, H4.
    destruct (Nat.eqb_spec n 0); [lia|].
    destruct (Nat.ltb_spec (read_offset c) (length (read_leftover c))); [lia|]. simpl.
    by destruct (peer_fin c'). }
  eexists _, (mark_peer_fin (arm_reader c)). rewrite !Hr by done. split_and!.
  - by rewrite Hpf.
  - simpl. unfold dispatch_close, with_entry. simpl. rewrite Ht, list_lookup_insert_eq by done.
    simpl. rewrite Hpf, Hfs. reflexivity.
  - split; [done|]. simpl. by rewrite list_insert_insert_eq, list_lookup_insert_eq.
  - done.
  - done.
Qed.

(** One slot holds the waker of the senders parked on a full outbound
    queue: when two streams park, draining the queue wakes only the second,
    and failing the connection wakes neither. *)
Theorem parked_senders_share_one_slot m sid1 sid2 buf1 buf2 c1 c2 o1 o2 c1' c2' why :
  buf1 <> [] -> buf2 <> [] ->
  poll_write sid1 buf1 (shared m) c1 = (Pending, o1, c1') -> peer_credit (state c1) <> 0 ->
  poll_write sid2 buf2 o1 c2 = (Pending, o2, c2') -> peer_credit (state c2) <> 0 ->
  fst (wake_outbound o2) = Some sid2
  /\ fst (wake_outbound (snd (wake_outbound o2))) = None
  /\ outbound_waker (shared (fail_connection (set_shared m o2) why)) = Some sid2.
Proof.
  intros Hb1 Hb2 H1 Hc1 H2 Hc2.
  assert (Hpark : forall sid buf o c r c', buf <> [] -> peer_credit (state c) <> 0 ->
    poll_write sid buf o c = (Pending, r, c') -> outbound_waker r = Some sid).
  { intros sid buf o c r c' Hb Hc H. unfold poll_write in H. destruct buf; [done|].
    destruct (Z.eqb_spec (peer_credit (state c)) 0); [done|].
    by repeat case_match; simplify_eq/=. }
  apply Hpark in H2 as Hw; [|done..]. simpl. rewrite Hw. split_and!; try done.
  unfold fail_connection. simpl. by destruct (dead o2).
Qed.

(** Dropping the connection does not fail its live streams: an open
    stream of a connection that never failed delivers what it has and then
    reads a clean end of file, as if the peer had closed it. *)
Theorem drop_reads_as_end_of_file m sid a c n :
  conn_wf m -> dead (shared m) = false -> live_at m sid a c ->
  chunks_nonempty c -> reset c = false -> (0 < n)%nat ->
  exists c1 o2 c2, heap (drop_connection m) !! a = Some c1
    /\ read_until (S (length (pending c))) sid n (shared (drop_connection m)) c1 []
       = Some (pending c, Ready (Ok []), o2, c2).
Proof.
  intros Hwf Hd [Ht Ha] Hne Hr Hn.
  destruct (let_go_reads sid n (shared (drop_connection m)) c (drop_sender c)) as (o2 & c2 & H);
    [done..|].
  exists (drop_sender c), o2, c2. split.
  { simpl. by rewrite (proj2 (map_table_cells_lookup _ _ _ _ (sw_inj _ _ (wf_streams _ Hwf))) sid Ht), Ha. }
  rewrite H. unfold drained_answer. simpl. by rewrite Hr, Hd.
Qed.

(** ** Witnesses *)

(** A relay link with two routed streams, 2 (holding three unread bytes) and
    4. *)
Definition two_streams : list conn_event :=
  [EvFrame (FOpenStream 2 "n"); EvFrame (FOpenStream 4 "n"); EvFrame (FData 2 [x61; x62; x63])].

Definition sample : MuxConnection := conn_run (spawn_relay_link 4) two_streams.

Definition sample_cell : stream_cell := push_chunk [x61; x62; x63] new_cell.

Lemma two_streams_ok : Forall event_ok two_streams.
Proof.
  repeat constructor; simpl; try lia; apply (bool_decide_unpack _); vm_compute; exact I.
Qed.

Lemma sample_wf : conn_wf sample.
Proof. apply conn_wf_run; [apply build_wf|apply two_streams_ok]. Qed.

Lemma conn_run_wf_witness : conn_wf (conn_run (build Client RelayLink None) two_streams).
Proof. apply conn_run_wf. exact two_streams_ok. Defined.

Lemma frames_touch_only_their_stream_witness :
  live_at (snd (dispatch sample (FCloseStream 4))) 2 0 sample_cell
  /\ shared (snd (dispatch sample (FCloseStream 4))) = shared sample.
Proof.
  apply (frames_touch_only_their_stream sample (FCloseStream 4) Continue _ 2 0 sample_cell sample_wf).
  - split; reflexivity.
  - discriminate.
  - reflexivity.
  - discriminate.
Defined.

Lemma failure_reaches_every_stream_witness :
  exists why c1 o2 c2,
    close_reason (shared (snd (dispatch sample FHeartbeat))) = Some why
    /\ heap (snd (dispatch sample FHeartbeat)) !! 0%nat = Some c1
    /\ read_until 4 2 2 (shared (snd (dispatch sample FHeartbeat))) c1 []
       = Some ([x61; x62; x63], Ready (Err (io_of_mux (ConnectionClosed why))), o2, c2).
Proof.
  destruct (failure_reaches_every_stream sample FHeartbeat (snd (dispatch sample FHeartbeat))
    2 0 sample_cell 2 x61 [] sample_wf eq_refl (conj eq_refl eq_refl)
    ltac:(repeat constructor; discriminate) eq_refl ltac:(lia) eq_refl)
    as (why & c1 & o2 & c2 & _ & H1 & H2 & H3 & _).
  exists why, c1, o2, c2. exact (conj H1 (conj H2 H3)).
Defined.

Lemma teardown_delivers_relay_error_witness :
  exists m1 c1 o2 c2,
    dispatch sample (FError 2 6 "gone") = (Continue, m1) /\ heap m1 !! 0%nat = Some c1
    /\ read_until 4 2 2 (shared m1) c1 []
       = Some ([x61; x62; x63],
               Ready (Err (ResetWithDetail ConnectionReset
                             {| reset_code := 6; reset_message := "gone" |})), o2, c2).
Proof.
  destruct (teardown_delivers_relay_error sample 2 0 sample_cell 6 "gone" 2 x61 []
    sample_wf eq_refl (conj eq_refl eq_refl) ltac:(discriminate)
    ltac:(repeat constructor; discriminate) ltac:(lia))
    as (m1 & c1 & o2 & c2 & H1 & _ & H2 & _ & _ & H3 & _).
  exists m1, c1, o2, c2. exact (conj H1 (conj H2 H3)).
Defined.

Lemma first_failure_wins_witness :
  let m := fail_connection sample OpenOnRelayLink in
  dead (shared (conn_run m [EvReadFailed TruncatedFrame])) = true
  /\ close_reason (shared (conn_run m [EvReadFailed TruncatedFrame])) = close_reason (shared m).
Proof. apply first_failure_wins. reflexivity. Defined.

Lemma close_does_not_wake_the_reader_witness :
  exists m1 c1,
    dispatch (set_cell sample 1 (arm_reader new_cell)) (FClose 4) = (Continue, m1)
    /\ live_at m1 4 1 c1 /\ read_waker c1 = true.
Proof.
  destruct (close_does_not_wake_the_reader sample 4 1 new_cell 8 (conj eq_refl eq_refl)
    eq_refl eq_refl eq_refl eq_refl eq_refl ltac:(lia)) as (m1 & c1 & _ & H1 & H2 & H3 & _).
  exists m1, c1. exact (conj H1 (conj H2 H3)).
Defined.

(** The sample with a full outbound queue. *)
Definition congested : MuxConnection :=
  set_shared sample
    (set_outbound (shared sample) (replicate (Z.to_nat OUTBOUND_QUEUE) FHeartbeat)).

Lemma parked_senders_share_one_slot_witness :
  let o2 := snd (fst (poll_write 4 [x61] (snd (fst (poll_write 2 [x61] (shared congested) new_cell)))
                  new_cell)) in
  fst (wake_outbound o2) = Some 4.
Proof.
  exact (proj1 (parked_senders_share_one_slot congested 2 4 [x61] [x61] new_cell new_cell
    _ _ _ _ OutboundQueueFull ltac:(discriminate) ltac:(discriminate)
    eq_refl ltac:(discriminate) eq_refl ltac:(discriminate))).
Defined.

Lemma drop_reads_as_end_of_file_witness :
  exists c1 o2 c2, heap (drop_connection sample) !! 0%nat = Some c1
    /\ read_until 4 2 2 (shared (drop_connection sample)) c1 []
       = Some ([x61; x62; x63], Ready (Ok []), o2, c2).
Proof.
  exact (drop_reads_as_end_of_file sample 2 0 sample_cell 2 sample_wf eq_refl
    (conj eq_refl eq_refl) ltac:(repeat constructor; discriminate) eq_refl ltac:(lia)).
Defined.
