(* ===== verification/MuxNet.v ===== *)
(** * MuxNet: two connections, the wires between them, and one stream's leg

    Two [MuxConnection]s joined by two ordered reliable wires. A wire carries
    frames: the framing of [Frame] transports a sequence of frames unchanged.
    Every step is an operation of [MuxStream] or [MuxConnection] on one end:
    a poll of a handle, an open or accept, the writer task moving a frame
    from the outbound queue to the wire, the reader task dispatching the next
    frame of the wire. A reader that parks in [dispatch] takes its step when
    the queue it waits for has room.

    [leg] is the specification of one direction of one stream: a byte queue
    with a credit account. The network refines it, and the two guarantees of
    the flow control (bytes in order, credit never exceeded) are proved on the
    leg and transported. *)

From S2P Require Import Prelude Bytes Frame MuxStream MuxConnection.

(** ** The network *)

Inductive side := Left | Right.

Definition other (s : side) : side := match s with Left => Right | Right => Left end.

Record net := Net {
  left_end : MuxConnection;
  right_end : MuxConnection;
  to_left : list frame;
  to_right : list frame;
}.

Definition ep (N : net) (s : side) : MuxConnection :=
  match s with Left => left_end N | Right => right_end N end.

(** The frames travelling towards side [s]. *)
Definition wire (N : net) (s : side) : list frame :=
  match s with Left => to_left N | Right => to_right N end.

Definition set_ep (N : net) (s : side) (m : MuxConnection) : net :=
  match s with
  | Left => Net m (right_end N) (to_left N) (to_right N)
  | Right => Net (left_end N) m (to_left N) (to_right N)
  end.

Definition set_wire (N : net) (s : side) (fs : list frame) : net :=
  match s with
  | Left => Net (left_end N) (right_end N) fs (to_right N)
  | Right => Net (left_end N) (right_end N) (to_left N) fs
  end.

(** A node-to-node link just after [spawn] at both ends. *)
Definition connected : net := Net (spawn Client) (spawn Server) [] [].

Inductive net_op :=
| NWrite (s : side) (sid : Z) (buf : list byte)
| NRead (s : side) (sid : Z) (n : nat)
| NShutdown (s : side) (sid : Z)
| NOpen (s : side)
| NAccept (s : side)
| NPump (s : side)
| NDeliver (s : side).

(** What a step shows its caller. *)
Inductive net_res :=
| RWrite (r : poll (result Z io_error))
| RRead (r : poll (result (list byte) io_error))
| RDone.

(** A poll through the handle of a live stream. *)
Definition handle_poll {R} (N : net) (s : side) (sid : Z)
    (op : outbound_state -> stream_cell -> R * outbound_state * stream_cell)
    (res : R -> net_res) : option (net_res * net) :=
  match table (ep N s) !! sid with
  | None => None
  | Some a =>
      match on_stream (ep N s) a op with
      | (Some r, m) => Some (res r, set_ep N s m)
      | (None, _) => None
      end
  end.

Definition net_exec (N : net) (op : net_op) : option (net_res * net) :=
  match op with
  | NWrite s sid buf => handle_poll N s sid (poll_write sid buf) RWrite
  | NRead s sid n => handle_poll N s sid (poll_read sid n) RRead
  | NShutdown s sid => handle_poll N s sid (poll_shutdown sid) (fun _ => RDone)
  | NOpen s => Some (RDone, set_ep N s (snd (open_stream (ep N s))))
  | NAccept s => Some (RDone, set_ep N s (snd (accept (ep N s))))
  | NPump s =>
      if shutdown (ep N s) then None
      else match take_outbound (ep N s) with
      | None => None
      | Some (f, m) =>
          let m1 := set_shared m (snd (wake_outbound (shared m))) in
          Some (RDone, set_wire (set_ep N s m1) (other s) (wire N (other s) ++ [f]))
      end
  | NDeliver s =>
      if shutdown (ep N s) then None
      else match wire N s with
      | [] => None
      | f :: fs =>
          match dispatch (ep N s) f with
          | (Blocked, _) => None
          | (_, m) => Some (RDone, set_wire (set_ep N s m) s fs)
          end
      end
  end.

Fixpoint net_run (N : net) (ops : list net_op) : option (list net_res * net) :=
  match ops with
  | [] => Some ([], N)
  | op :: ops =>
      match net_exec N op with
      | None => None
      | Some (r, N1) =>
          match net_run N1 ops with
          | None => None
          | Some (rs, N2) => Some (r :: rs, N2)
          end
      end
  end.

(** ** The leg: one direction of one stream *)

Record leg := Leg {
  credit : Z;                    (** what the sender may still send *)
  flight : list (list byte);     (** [Data] payloads queued or on the wire *)
  chunks : list (list byte);     (** the receiver's chunk queue *)
  leftover : list byte;          (** the unread tail of the last chunk *)
  accum : Z;                     (** consumed, not yet granted back *)
  grants : list Z;               (** [Window] credits queued or on the wire *)
}.

(** [LRead bs stranded deferred]: [bs] was read; [stranded] bytes of the chunk
    went to the leftover, and a due grant was [deferred]. *)
Inductive leg_label :=
| LWrite (bs : list byte)
| LRead (bs : list byte) (stranded : Z) (deferred : bool)
| LTau.

(** The receiver's account after consuming [k] bytes: the accumulator and the
    grant it queues. *)
Definition leg_account (a k : Z) (deferred : bool) : Z * list Z :=
  if (WINDOW_GRANT_THRESHOLD <=? a + k) && negb deferred then (0, [a + k]) else (a + k, []).

Inductive leg_step : leg -> leg_label -> leg -> Prop :=
| leg_write l bs :
    bs <> [] -> len bs <= MAX_FRAME_PAYLOAD -> len bs <= credit l ->
    leg_step l (LWrite bs)
      (Leg (credit l - len bs) (flight l ++ [bs]) (chunks l) (leftover l) (accum l) (grants l))
| leg_deliver l p ps :
    flight l = p :: ps ->
    leg_step l LTau (Leg (credit l) ps (chunks l ++ [p]) (leftover l) (accum l) (grants l))
| leg_grant l g gs :
    grants l = g :: gs ->
    leg_step l LTau (Leg (credit l + g) (flight l) (chunks l) (leftover l) (accum l) gs)
| leg_read_leftover l bs rest :
    bs <> [] -> leftover l = bs ++ rest ->
    leg_step l (LRead bs 0 false)
      (Leg (credit l) (flight l) (chunks l) rest (accum l) (grants l))
| leg_read_chunk l bs rest cs deferred a g :
    leftover l = [] -> chunks l = (bs ++ rest) :: cs ->
    leg_account (accum l) (len bs) deferred = (a, g) ->
    leg_step l (LRead bs (len rest) deferred)
      (Leg (credit l) (flight l) cs rest a (grants l ++ g))
| leg_idle l : leg_step l LTau l.

Inductive leg_steps : leg -> list leg_label -> leg -> Prop :=
| leg_steps_nil l : leg_steps l [] l
| leg_steps_cons l lab l1 labs l2 :
    leg_step l lab l1 -> leg_steps l1 labs l2 -> leg_steps l (lab :: labs) l2.

(** The bytes of the leg, oldest first. *)
Definition leg_bytes (l : leg) : list byte := leftover l ++ concat (chunks l) ++ concat (flight l).

Definition sum_list (zs : list Z) : Z := fold_right Z.add 0 zs.

(** Every byte of credit that is not stranded: held by the sender, spent on
    bytes that are not yet consumed, accumulated by the receiver, or on its
    way back. *)
Definition ledger (l : leg) : Z :=
  credit l + len (concat (flight l)) + len (concat (chunks l)) + accum l + sum_list (grants l).

(** ** The leg of a stream in the network *)

Definition data_of (sid : Z) (fs : list frame) : list (list byte) :=
  omap (fun f => match f with FData i p => if i =? sid then Some p else None | _ => None end) fs.

Definition grants_of (sid : Z) (fs : list frame) : list Z :=
  omap (fun f => match f with FWindow i c => if i =? sid then Some c else None | _ => None end) fs.

(** What side [s] has under way to the other side. *)
Definition path (N : net) (s : side) : list frame :=
  wire N (other s) ++ outbound (shared (ep N s)).

Definition leg_of (sid : Z) (cs cr : stream_cell) (forth back : list frame) : leg :=
  Leg (peer_credit (state cs)) (data_of sid forth) (inbound cr)
      (drop (read_offset cr) (read_leftover cr)) (consumed_accum (state cr)) (grants_of sid back).

Definition cell_at (N : net) (s : side) (sid : Z) : option stream_cell :=
  match table (ep N s) !! sid with Some a => heap (ep N s) !! a | None => None end.

(** The leg from side [s], while the stream is live at both ends. *)
Definition leg_at (N : net) (s : side) (sid : Z) : option leg :=
  match cell_at N s sid, cell_at N (other s) sid with
  | Some cs, Some cr => Some (leg_of sid cs cr (path N s) (path N (other s)))
  | _, _ => None
  end.

(** The label of a read, from the receiver's state before it. *)
Definition read_label (o : outbound_state) (c : stream_cell) (n : nat)
    (r : poll (result (list byte) io_error)) : leg_label :=
  match r with
  | Ready (Ok bs) =>
      if (n =? 0)%nat then LTau
      else if (read_offset c <? length (read_leftover c))%nat then LRead bs 0 false
      else match inbound c with
           | [] => LTau
           | p :: _ => LRead bs (len p - len bs) (OUTBOUND_QUEUE <=? len (outbound o))
           end
  | _ => LTau
  end.

Definition write_label (buf : list byte) (r : poll (result Z io_error)) : leg_label :=
  match r, buf with
  | Ready (Ok n), _ :: _ => LWrite (take (Z.to_nat n) buf)
  | _, _ => LTau
  end.

#[global] Instance side_eq_dec : EqDecision side.
Proof. solve_decision. Defined.

(** The label a step of the network has for the leg of [sid] from [s]. *)
Definition net_label (N : net) (s : side) (sid : Z) (op : net_op) (r : net_res) : leg_label :=
  match op, r with
  | NWrite t i buf, RWrite r =>
      if decide (t = s /\ i = sid) then write_label buf r else LTau
  | NRead t i n, RRead r =>
      if decide (t = other s /\ i = sid)
      then match cell_at N t sid with
           | Some c => read_label (shared (ep N t)) c n r
           | None => LTau
           end
      else LTau
  | _, _ => LTau
  end.

(** A frame that neither carries data nor credit of stream [sid]. *)
Definition foreign (sid : Z) (f : frame) : Prop :=
  data_of sid [f] = [] /\ grants_of sid [f] = [].

(** What a dispatched frame does to the cell of its own stream. *)
Definition frame_effect (f : frame) (c : stream_cell) : stream_cell :=
  match f with
  | FData _ p => push_chunk p c
  | FClose _ => mark_peer_fin c
  | FWindow _ g =>
      with_state c (set_write_waker (set_credit (state c) (peer_credit (state c) + g)) false)
  | _ => c
  end.

(** Runs [ops] while the leg of [sid] from [s] stays live, collecting its
    labels. *)
Fixpoint live_run (N : net) (s : side) (sid : Z) (ops : list net_op)
    : option (list leg_label * net) :=
  match ops with
  | [] => Some ([], N)
  | op :: ops =>
      match net_exec N op with
      | None => None
      | Some (r, N1) =>
          match leg_at N1 s sid, live_run N1 s sid ops with
          | Some _, Some (labs, N2) => Some (net_label N s sid op r :: labs, N2)
          | _, _ => None
          end
      end
  end.

(** The bytes written to and read from the leg, the bytes its reads left in
    the leftover, and whether a due grant was deferred. *)
Definition bytes_written (labs : list leg_label) : list byte :=
  concat (map (fun lab => match lab with LWrite bs => bs | _ => [] end) labs).
Definition bytes_read (labs : list leg_label) : list byte :=
  concat (map (fun lab => match lab with LRead bs _ _ => bs | _ => [] end) labs).
Definition stranded (labs : list leg_label) : Z :=
  sum_list (map (fun lab => match lab with LRead _ z _ => z | _ => 0 end) labs).
Definition some_deferred (labs : list leg_label) : bool :=
  existsb (fun lab => match lab with LRead _ _ d => d | _ => false end) labs.

(** A leg in its opening state, and one on which nothing can happen: no
    credit, and nothing buffered, in flight or on its way back. *)
Definition opened : leg := Leg DEFAULT_STREAM_WINDOW [] [] [] 0 [].

Definition stalled (l : leg) : Prop :=
  credit l = 0 /\ flight l = [] /\ chunks l = [] /\ leftover l = [] /\ grants l = [].

Record net_wf (N : net) : Prop := {
  nw_conn : forall s, conn_wf (ep N s);
  nw_open : forall s, outbound_open (shared (ep N s)) = true;
  nw_wire : forall s, Forall grant_nonneg (wire N s);
  nw_queue : forall s, Forall grant_nonneg (outbound (shared (ep N s)));
}.

(** The leg of [sid] from [s] in [N1] is over, or [l] steps to it. *)
Definition simulates (N1 : net) (s : side) (sid : Z) (l : leg) (lab : leg_label) : Prop :=
  leg_at N1 s sid = None \/ exists l1, leg_at N1 s sid = Some l1 /\ leg_step l lab l1.

(** [o1] is [o] with nonnegative frames queued. *)
Definition queue_ok (o o1 : outbound_state) : Prop :=
  outbound_open o1 = outbound_open o
  /\ (Forall grant_nonneg (outbound o) -> Forall grant_nonneg (outbound o1)).

(** ** Scenarios *)

Definition is_some {A} (o : option A) : bool := match o with Some _ => true | None => false end.

(** The client opens stream 1 and the server's reader learns of it. *)
Definition open_ops : list net_op := [NOpen Left; NPump Left; NDeliver Right].

(** [Left] sends one buffer to [Right] on stream 1. *)
Definition send_ops (buf : list byte) : list net_op :=
  [NWrite Left 1 buf; NPump Left; NDeliver Right].

Definition established : net :=
  match net_run connected open_ops with Some (_, N) => N | None => connected end.

(** The leg of stream 1 from [Left] and the frames under way after [ops]. *)
Definition outcome (ops : list net_op) : option (option leg * list (list frame)) :=
  option_map (fun p => (leg_at (snd p) Left 1,
      [to_left (snd p); to_right (snd p);
       outbound (shared (ep (snd p) Left)); outbound (shared (ep (snd p) Right))]))
    (net_run connected ops).

Definition max_buf : list byte := replicate (Z.to_nat MAX_FRAME_PAYLOAD) x61.

Definition repeat_ops (n : nat) (ops : list net_op) : list net_op :=
  concat (replicate n ops).

(** Sixteen full frames, each read in two pieces: one byte, then the rest. *)
Definition split_read_ops : list net_op :=
  repeat_ops 16 (send_ops max_buf ++ [NRead Right 1 1; NRead Right 1 (length max_buf)]).

(** [Right] fills its own outbound queue, then reads sixteen full frames
    whole, then its queue drains completely. *)
Definition deferred_grant_ops : list net_op :=
  repeat_ops (Z.to_nat OUTBOUND_QUEUE) [NWrite Right 1 [x62]]
  ++ repeat_ops 16 (send_ops max_buf) ++ repeat_ops 16 [NRead Right 1 (length max_buf)]
  ++ repeat_ops (Z.to_nat OUTBOUND_QUEUE) [NPump Right; NDeliver Left; NRead Left 1 1].

(** ** Lemmas on legs *)

Lemma sum_list_app zs ws : sum_list (zs ++ ws) = sum_list zs + sum_list ws.
Proof. induction zs; simpl; [done|]. unfold sum_list in *. simpl. lia. Qed.

Lemma concat_snoc {A} (ls : list (list A)) l : concat (ls ++ [l]) = concat ls ++ l.
Proof. by rewrite concat_app; simpl; rewrite app_nil_r. Qed.

Lemma leg_account_total a k d a1 g :
  leg_account a k d = (a1, g) -> a1 + sum_list g = a + k.
Proof. unfold leg_account. case_match; intros [= <- <-]; unfold sum_list; simpl; lia. Qed.

(** A step of the leg is a step of a byte queue. *)
Lemma leg_step_fifo l lab l1 :
  leg_step l lab l1 ->
  match lab with
  | LWrite bs => leg_bytes l1 = leg_bytes l ++ bs
  | LRead bs _ _ => leg_bytes l = bs ++ leg_bytes l1
  | LTau => leg_bytes l1 = leg_bytes l
  end.
Proof.
  unfold leg_bytes. destruct 1 as [l bs|l p ps Hf|l g gs|l bs rest Hne Hl|l bs rest cs d a g Hl Hc|];
    simpl; rewrite ?concat_snoc, ?app_assoc; try done.
  - rewrite Hf. simpl. by rewrite app_assoc.
  - by rewrite Hl, <- !app_assoc.
  - by rewrite Hl, Hc; simpl; rewrite <- !app_assoc.
Qed.

(** The ledger loses exactly the stranded bytes. *)
Lemma leg_step_ledger l lab l1 :
  leg_step l lab l1 ->
  ledger l1 = ledger l - match lab with LRead _ stranded _ => stranded | _ => 0 end.
Proof.
  unfold ledger. destruct 1 as [l bs|l p ps Hf|l g gs Hg|l bs rest Hne Hl|l bs rest cs d a g Hl Hc Ha|];
    simpl; rewrite ?concat_snoc, ?sum_list_app, ?len_app; try lia.
  - rewrite Hf. simpl. rewrite len_app. lia.
  - rewrite Hg. unfold sum_list. simpl. lia.
  - apply leg_account_total in Ha. rewrite Hc. simpl. rewrite !len_app. lia.
Qed.

(** ** One poll, seen from the leg *)

Lemma poll_write_leg sid buf o c r o1 c1 :
  poll_write sid buf o c = (r, o1, c1) -> 0 <= peer_credit (state c) ->
  inbound c1 = inbound c /\ read_leftover c1 = read_leftover c /\ read_offset c1 = read_offset c
  /\ consumed_accum (state c1) = consumed_accum (state c)
  /\ outbound_open o1 = outbound_open o
  /\ ((write_label buf r = LTau /\ peer_credit (state c1) = peer_credit (state c)
       /\ outbound o1 = outbound o)
      \/ exists bs, write_label buf r = LWrite bs /\ bs <> [] /\ len bs <= MAX_FRAME_PAYLOAD
           /\ len bs <= peer_credit (state c)
           /\ peer_credit (state c1) = peer_credit (state c) - len bs
           /\ outbound o1 = outbound o ++ [FData sid bs]).
Proof.
  unfold poll_write. intros H Hc. destruct buf as [|b buf]; [simplify_eq; by eauto 10|].
  destruct (reset c); [simplify_eq; by eauto 10|]. destruct (dead o); [simplify_eq; by eauto 10|].
  destruct (fin_sent _); [simplify_eq; by eauto 10|].
  destruct (Z.eqb_spec (peer_credit (state c)) 0); [simplify_eq; by eauto 10|].
  destruct (try_send o _) as [o2|[]] eqn:E; [|simplify_eq; by eauto 10..].
  apply try_send_Ok in E as (-> & _ & _). injection H as <- <- <-. split_and!; try done. right.
  set (k := Z.min _ _). assert (0 < k <= len (b :: buf)) as Hk.
  { subst k. unfold len, MAX_FRAME_PAYLOAD. simpl. lia. }
  exists (take (Z.to_nat k) (b :: buf)).
  assert (len (take (Z.to_nat k) (b :: buf)) = k) as Hl.
  { unfold len in *. rewrite length_take. lia. }
  rewrite Hl. split_and!; try done; try (subst k; lia).
  intros He. rewrite He in Hl. unfold len in Hl. simpl in Hl. lia.
Qed.

Lemma account_consumed_leg sid o s k o1 s1 :
  account_consumed sid o s k = (o1, s1) -> outbound_open o = true ->
  exists a g, leg_account (consumed_accum s) k (OUTBOUND_QUEUE <=? len (outbound o)) = (a, g)
    /\ s1 = set_accum s a /\ outbound o1 = outbound o ++ map (FWindow sid) g
    /\ outbound_open o1 = true.
Proof.
  unfold account_consumed, leg_account, try_send. intros H Ho. rewrite Ho in H. simpl in H.
  destruct (WINDOW_GRANT_THRESHOLD <=? consumed_accum s + k); simpl in *.
  - destruct (OUTBOUND_QUEUE <=? len (outbound o)); simplify_eq/=; eexists _, _;
      split_and!; try done; by rewrite ?app_nil_r.
  - simplify_eq. eexists _, _. split_and!; try done. by rewrite app_nil_r.
Qed.

Lemma poll_read_leg sid n o c r o1 c1 :
  poll_read sid n o c = (r, o1, c1) -> outbound_open o = true ->
  (read_offset c <= length (read_leftover c))%nat ->
  peer_credit (state c1) = peer_credit (state c) /\ outbound_open o1 = true
  /\ exists g, outbound o1 = outbound o ++ map (FWindow sid) g
     /\ forall cr fl gr,
        leg_step (Leg cr fl (inbound c) (drop (read_offset c) (read_leftover c))
                     (consumed_accum (state c)) gr)
                 (read_label o c n r)
                 (Leg cr fl (inbound c1) (drop (read_offset c1) (read_leftover c1))
                     (consumed_accum (state c1)) (gr ++ g)).
Proof.
  unfold poll_read, read_label. intros H Ho Hle.
  destruct (Nat.eqb_spec n 0).
  { simplify_eq. split_and!; try done. exists []. rewrite app_nil_r. split; [done|].
    intros. rewrite app_nil_r. constructor. }
  destruct (Nat.ltb_spec (read_offset c) (length (read_leftover c))) as [Hoff|Hoff].
  - simplify_eq. split_and!; try done. exists []. rewrite app_nil_r. split; [done|].
    intros. rewrite app_nil_r. simpl. apply leg_read_leftover; simpl.
    + intros He%(f_equal length). rewrite length_take, length_drop in He. simpl in He. lia.
    + by rewrite <- take_drop_min.
  - destruct (inbound c) as [|p ps] eqn:Hin.
    + assert (o1 = o /\ state c1 = state c /\ inbound c1 = inbound c
        /\ drop (read_offset c1) (read_leftover c1) = drop (read_offset c) (read_leftover c))
        as (-> & -> & -> & ->) by (by repeat case_match; simplify_eq).
      rewrite Hin. split_and!; try done. exists []. rewrite app_nil_r. split; [done|].
      intros. rewrite app_nil_r. repeat case_match; constructor.
    + set (k := Nat.min n (length p)) in *.
      destruct (account_consumed _ _ _ _) as [o2 s2] eqn:Hacc. simplify_eq.
      destruct (account_consumed_leg _ _ _ _ _ _ Hacc Ho) as (a & g & Hg & -> & Hout & Hopen).
      split; [by case_match|]. split; [done|]. exists g. split; [done|]. intros cr fl gr.
      assert (Hk : len (take k p) = Z.of_nat k) by (unfold len; rewrite length_take; lia).
      assert (Hr : len p - Z.of_nat k = len (drop k p)) by (unfold len; rewrite length_drop; lia).
      assert (Hd : drop (read_offset c) (read_leftover c) = []) by (by apply drop_ge).
      rewrite Hk, Hr, Hd. simpl.
      replace (inbound (if (k <? length p)%nat then _ else _)) with ps by (by case_match).
      replace (drop (read_offset (if (k <? length p)%nat then _ else _)) _) with (drop k p);
        [|destruct (Nat.ltb_spec k (length p)); simpl; [done|by rewrite Hd, drop_ge]].
      apply leg_read_chunk; simpl; [done|by rewrite take_drop|].
      rewrite Hk. rewrite <- Hg. by case_match.
Qed.

(** ** Reading the network's components back *)

Lemma ep_set_ep N s m : ep (set_ep N s m) s = m.
Proof. by destruct s. Qed.
Lemma ep_set_ep_ne N s t m : s <> t -> ep (set_ep N s m) t = ep N t.
Proof. by destruct s, t. Qed.
Lemma wire_set_ep N s t m : wire (set_ep N s m) t = wire N t.
Proof. by destruct s, t. Qed.
Lemma ep_set_wire N s t fs : ep (set_wire N s fs) t = ep N t.
Proof. by destruct s, t. Qed.
Lemma wire_set_wire N s fs : wire (set_wire N s fs) s = fs.
Proof. by destruct s. Qed.
Lemma wire_set_wire_ne N s t fs : s <> t -> wire (set_wire N s fs) t = wire N t.
Proof. by destruct s, t. Qed.
Lemma other_ne s : other s <> s.
Proof. by destruct s. Qed.
Lemma ne_other s : s <> other s.
Proof. by destruct s. Qed.
Lemma other_other s : other (other s) = s.
Proof. by destruct s. Qed.
Lemma side_cases s t : t = s \/ t = other s.
Proof. destruct s, t; auto. Qed.

Create HintDb net.
Create Rewrite HintDb net.
#[global] Hint Rewrite ep_set_ep wire_set_ep ep_set_wire wire_set_wire other_other : net.
#[global] Hint Rewrite ep_set_ep_ne wire_set_wire_ne using (by auto using other_ne, ne_other) : net.
#[global] Hint Resolve other_ne ne_other : net.

Ltac net_simpl := autorewrite with net in *.

Lemma data_of_app sid fs gs : data_of sid (fs ++ gs) = data_of sid fs ++ data_of sid gs.
Proof. apply omap_app. Qed.
Lemma grants_of_app sid fs gs : grants_of sid (fs ++ gs) = grants_of sid fs ++ grants_of sid gs.
Proof. apply omap_app. Qed.

Lemma data_of_self sid p : data_of sid [FData sid p] = [p].
Proof. unfold data_of. simpl. by rewrite Z.eqb_refl. Qed.
Lemma grants_of_self sid g : grants_of sid [FWindow sid g] = [g].
Proof. unfold grants_of. simpl. by rewrite Z.eqb_refl. Qed.

Lemma data_of_windows sid i gs : data_of sid (map (FWindow i) gs) = [].
Proof. by induction gs. Qed.
Lemma grants_of_windows sid gs : grants_of sid (map (FWindow sid) gs) = gs.
Proof. induction gs as [|g gs IH]; [done|]. unfold grants_of in *. simpl. rewrite Z.eqb_refl. by f_equal. Qed.

Lemma foreign_other sid f : stream_id f <> sid -> foreign sid f.
Proof.
  intros H. unfold foreign, data_of, grants_of. destruct f; simpl in *; try done;
    by destruct (Z.eqb_spec stream_id sid).
Qed.

Lemma foreign_many sid fs :
  Forall (foreign sid) fs -> data_of sid fs = [] /\ grants_of sid fs = [].
Proof.
  induction 1 as [|f fs [H1 H2] _ [IH1 IH2]]; [done|].
  change (f :: fs) with ([f] ++ fs). by rewrite data_of_app, grants_of_app, H1, H2, IH1, IH2.
Qed.

Lemma handle_poll_inv {R} N s sid (op : outbound_state -> stream_cell -> R * outbound_state * stream_cell)
    res r N1 :
  handle_poll N s sid op res = Some (r, N1) ->
  exists a c r0 o1 c1, live_at (ep N s) sid a c /\ op (shared (ep N s)) c = (r0, o1, c1)
    /\ r = res r0 /\ N1 = set_ep N s (set_cell (set_shared (ep N s) o1) a c1).
Proof.
  unfold handle_poll, on_stream. intros H.
  destruct (table (ep N s) !! sid) as [a|] eqn:Ht; [|done].
  destruct (heap (ep N s) !! a) as [c|] eqn:Ha; [|done].
  destruct (op _ c) as [[r0 o1] c1] eqn:E. simplify_eq. by exists a, c, r0, o1, c1.
Qed.

Lemma cell_at_live N s sid a c : live_at (ep N s) sid a c -> cell_at N s sid = Some c.
Proof. intros [Ht Ha]. unfold cell_at. by rewrite Ht. Qed.

Lemma live_cell_at N s sid c : cell_at N s sid = Some c -> exists a, live_at (ep N s) sid a c.
Proof. unfold cell_at, live_at. destruct (table _ !! sid) as [a|]; eauto. done. Qed.

Lemma cell_at_ext N1 N2 s sid : ep N1 s = ep N2 s -> cell_at N1 s sid = cell_at N2 s sid.
Proof. unfold cell_at. by intros ->. Qed.

(** After a poll of stream [i] at side [t]. *)
Lemma cell_at_poll_same N t i a c o1 c1 :
  live_at (ep N t) i a c ->
  cell_at (set_ep N t (set_cell (set_shared (ep N t) o1) a c1)) t i = Some c1.
Proof.
  intros [Ht Ha]. unfold cell_at. net_simpl. simpl. rewrite Ht.
  rewrite list_lookup_insert_eq; [done|by eapply lookup_lt_Some].
Qed.

Lemma cell_at_poll_other N t i a c o1 c1 s sid :
  conn_wf (ep N t) -> live_at (ep N t) i a c -> (s <> t \/ sid <> i) ->
  cell_at (set_ep N t (set_cell (set_shared (ep N t) o1) a c1)) s sid = cell_at N s sid.
Proof.
  intros Hwf [Ht Ha] Hne. unfold cell_at. destruct (decide (s = t)) as [->|Hs].
  - net_simpl. simpl. destruct (table (ep N t) !! sid) as [b|] eqn:Hb; [|done].
    rewrite list_lookup_insert_ne; [done|]. intros ->.
    destruct Hne as [|Hne]; [done|]. apply Hne. by apply (sw_inj _ _ (wf_streams _ Hwf) sid i b).
  - by rewrite ep_set_ep_ne by done.
Qed.

Lemma path_poll N t a o1 c1 s fs :
  outbound o1 = outbound (shared (ep N t)) ++ fs ->
  path (set_ep N t (set_cell (set_shared (ep N t) o1) a c1)) s
  = path N s ++ (if decide (s = t) then fs else []).
Proof.
  intros Ho. unfold path. net_simpl. case_decide as Hst.
  - subst. net_simpl. simpl. by rewrite Ho, app_assoc.
  - rewrite ep_set_ep_ne by done. by rewrite app_nil_r.
Qed.

Lemma leg_at_Some N s sid l :
  leg_at N s sid = Some l ->
  exists cs cr, cell_at N s sid = Some cs /\ cell_at N (other s) sid = Some cr
    /\ l = leg_of sid cs cr (path N s) (path N (other s)).
Proof. unfold leg_at. intros H. repeat case_match; simplify_eq; eauto. Qed.

Lemma leg_at_intro N s sid cs cr :
  cell_at N s sid = Some cs -> cell_at N (other s) sid = Some cr ->
  leg_at N s sid = Some (leg_of sid cs cr (path N s) (path N (other s))).
Proof. unfold leg_at. by intros -> ->. Qed.

(** The leg after a poll of its own stream at its sending side. *)
Lemma leg_at_sender_poll N s sid a cs cr o1 c1 fs :
  conn_wf (ep N s) -> live_at (ep N s) sid a cs -> cell_at N (other s) sid = Some cr ->
  outbound o1 = outbound (shared (ep N s)) ++ fs ->
  leg_at (set_ep N s (set_cell (set_shared (ep N s) o1) a c1)) s sid
  = Some (leg_of sid c1 cr (path N s ++ fs) (path N (other s))).
Proof.
  intros Hwf Hl Hr Ho. erewrite leg_at_intro.
  - rewrite !(path_poll N s a o1 c1 _ fs Ho). rewrite decide_True by done.
    rewrite (decide_False (P := other s = s)) by apply other_ne. by rewrite app_nil_r.
  - by eapply cell_at_poll_same.
  - rewrite (cell_at_poll_other N s sid a cs); eauto using other_ne.
Qed.

(** ... and at its receiving side. *)
Lemma leg_at_receiver_poll N s sid b cs cr o1 c1 fs :
  conn_wf (ep N (other s)) -> live_at (ep N (other s)) sid b cr -> cell_at N s sid = Some cs ->
  outbound o1 = outbound (shared (ep N (other s))) ++ fs ->
  leg_at (set_ep N (other s) (set_cell (set_shared (ep N (other s)) o1) b c1)) s sid
  = Some (leg_of sid cs c1 (path N s) (path N (other s) ++ fs)).
Proof.
  intros Hwf Hl Hr Ho. erewrite leg_at_intro.
  - rewrite !(path_poll N (other s) b o1 c1 _ fs Ho). rewrite (decide_True (P := other s = other s)) by done.
    rewrite (decide_False (P := s = other s)) by apply ne_other. by rewrite app_nil_r.
  - rewrite (cell_at_poll_other N (other s) sid b cr); eauto using ne_other.
  - by eapply cell_at_poll_same.
Qed.

(** A poll of another stream. *)
Lemma leg_at_foreign_poll N t i a c o1 c1 fs s sid :
  conn_wf (ep N t) -> live_at (ep N t) i a c -> sid <> i ->
  outbound o1 = outbound (shared (ep N t)) ++ fs -> Forall (foreign sid) fs ->
  leg_at (set_ep N t (set_cell (set_shared (ep N t) o1) a c1)) s sid = leg_at N s sid.
Proof.
  intros Hwf Hl Hne Ho Hf. unfold leg_at. rewrite !(cell_at_poll_other N t i a c) by eauto.
  rewrite !(path_poll N t a o1 c1 _ fs Ho). destruct (foreign_many sid fs Hf) as [Hd Hg].
  repeat case_match; try done; unfold leg_of;
    by rewrite ?data_of_app, ?grants_of_app, ?Hd, ?Hg, ?app_nil_r.
Qed.

(** What each poll adds to the outbound queue. *)
Lemma poll_shutdown_leg sid o c r o1 c1 :
  poll_shutdown sid o c = (r, o1, c1) ->
  inbound c1 = inbound c /\ read_leftover c1 = read_leftover c /\ read_offset c1 = read_offset c
  /\ consumed_accum (state c1) = consumed_accum (state c)
  /\ peer_credit (state c1) = peer_credit (state c) /\ outbound_open o1 = outbound_open o
  /\ exists fs, outbound o1 = outbound o ++ fs /\ Forall (fun f => f = FClose sid) fs.
Proof.
  unfold poll_shutdown. intros H.
  destruct (fin_sent _); [simplify_eq; split_and!; [done..|]; exists []; by rewrite app_nil_r|].
  destruct (dead o); [simplify_eq; split_and!; [done..|]; exists []; by rewrite app_nil_r|].
  destruct (try_send o _) as [o2|[]] eqn:E.
  - apply try_send_Ok in E as (-> & _). simplify_eq. split_and!; try done.
    exists [FClose sid]. by repeat constructor.
  - simplify_eq. split_and!; [done..|]. exists []. by rewrite app_nil_r.
  - simplify_eq. split_and!; [done..|]. exists []. by rewrite app_nil_r.
Qed.

Lemma foreign_close sid i : foreign sid (FClose i).
Proof. done. Qed.

Lemma foreign_closes sid i fs : Forall (fun f => f = FClose i) fs -> Forall (foreign sid) fs.
Proof. intros H. eapply Forall_impl; [done|]. by intros f ->. Qed.

Lemma foreign_windows sid i gs : sid <> i -> Forall (foreign sid) (map (FWindow i) gs).
Proof. intros. apply Forall_map, Forall_forall. intros g _. by apply foreign_other. Qed.

(** ** Simulation of the network's steps *)

Lemma simulates_same N1 s sid l :
  leg_at N1 s sid = Some l -> simulates N1 s sid l LTau.
Proof. intros H. right. eauto using leg_idle. Qed.

Lemma leg_of_ext sid cs cr forth back cs1 cr1 forth1 back1 :
  peer_credit (state cs1) = peer_credit (state cs) -> data_of sid forth1 = data_of sid forth ->
  inbound cr1 = inbound cr -> drop (read_offset cr1) (read_leftover cr1)
                              = drop (read_offset cr) (read_leftover cr) ->
  consumed_accum (state cr1) = consumed_accum (state cr) ->
  grants_of sid back1 = grants_of sid back ->
  leg_of sid cs1 cr1 forth1 back1 = leg_of sid cs cr forth back.
Proof. unfold leg_of. by intros -> -> -> -> -> ->. Qed.

Lemma cell_ok_at N s sid a c : net_wf N -> live_at (ep N s) sid a c -> cell_ok c.
Proof. intros Hwf [_ Ha]. by apply (Forall_lookup_1 _ _ _ _ (wf_cells _ (nw_conn _ Hwf s)) Ha). Qed.

(** A poll that leaves the leg alone: of another stream, at the sending side
    without touching the credit or sending data, or at the receiving side
    without reading or granting. *)
Lemma sim_foreign N t i a c o1 c1 fs s sid l :
  net_wf N -> live_at (ep N t) i a c -> i <> sid ->
  outbound o1 = outbound (shared (ep N t)) ++ fs -> Forall (foreign sid) fs ->
  leg_at N s sid = Some l ->
  simulates (set_ep N t (set_cell (set_shared (ep N t) o1) a c1)) s sid l LTau.
Proof.
  intros Hwf Hl Hne Ho Hf Hleg. apply simulates_same. rewrite <- Hleg.
  apply (leg_at_foreign_poll N t i a c o1 c1 fs); eauto. apply Hwf.
Qed.

Lemma sim_idle_sender N s sid a cs cr o1 c1 fs :
  net_wf N -> live_at (ep N s) sid a cs -> cell_at N (other s) sid = Some cr ->
  outbound o1 = outbound (shared (ep N s)) ++ fs ->
  data_of sid fs = [] -> peer_credit (state c1) = peer_credit (state cs) ->
  simulates (set_ep N s (set_cell (set_shared (ep N s) o1) a c1)) s sid
    (leg_of sid cs cr (path N s) (path N (other s))) LTau.
Proof.
  intros Hwf Hl Hr Ho Hd Hc. apply simulates_same.
  rewrite (leg_at_sender_poll N s sid a cs cr o1 c1 fs); [|apply Hwf|done..]. f_equal.
  apply leg_of_ext; try done. by rewrite data_of_app, Hd, app_nil_r.
Qed.

Lemma sim_idle_receiver N s sid b cs cr o1 c1 fs :
  net_wf N -> live_at (ep N (other s)) sid b cr -> cell_at N s sid = Some cs ->
  outbound o1 = outbound (shared (ep N (other s))) ++ fs -> grants_of sid fs = [] ->
  inbound c1 = inbound cr -> read_leftover c1 = read_leftover cr ->
  read_offset c1 = read_offset cr ->
  consumed_accum (state c1) = consumed_accum (state cr) ->
  simulates (set_ep N (other s) (set_cell (set_shared (ep N (other s)) o1) b c1)) s sid
    (leg_of sid cs cr (path N s) (path N (other s))) LTau.
Proof.
  intros Hwf Hl Hs Ho Hg Hi Hlo Hof Hac. apply simulates_same.
  rewrite (leg_at_receiver_poll N s sid b cs cr o1 c1 fs); [|apply Hwf|done..]. f_equal.
  apply leg_of_ext; try done; [by rewrite Hlo, Hof|]. by rewrite grants_of_app, Hg, app_nil_r.
Qed.

Lemma sim_write N t i buf s sid l r N1 :
  net_wf N -> leg_at N s sid = Some l -> net_exec N (NWrite t i buf) = Some (r, N1) ->
  simulates N1 s sid l (net_label N s sid (NWrite t i buf) r).
Proof.
  intros Hwf Hl H. apply handle_poll_inv in H as (a & c & r0 & o1 & c1 & Hlive & Hop & -> & ->).
  destruct (cell_ok_at _ _ _ _ _ Hwf Hlive) as ([Hk _] & _).
  destruct (poll_write_leg _ _ _ _ _ _ _ Hop Hk) as (Hin & Hlo & Hof & Hac & _ & Hcase).
  assert (exists fs, outbound o1 = outbound (shared (ep N t)) ++ fs /\ grants_of i fs = []
    /\ (i <> sid -> Forall (foreign sid) fs)) as (fs & Ho & Hg & Hf).
  { destruct Hcase as [(_ & _ & Ho)|(bs & _ & _ & _ & _ & _ & Ho)].
    - exists []. by rewrite app_nil_r.
    - exists [FData i bs]. split_and!; try done. intros Hne. constructor; [|done]. by apply foreign_other. }
  cbn [net_label]. destruct (decide (i = sid)) as [->|Hne].
  2:{ rewrite decide_False by (by intros [_ ?]). by eapply sim_foreign; eauto. }
  apply leg_at_Some in Hl as (cs & cr & Hcs & Hcr & ->).
  destruct (side_cases s t) as [->| ->].
  - rewrite decide_True by done. rewrite (cell_at_live _ _ _ _ _ Hlive) in Hcs. simplify_eq.
    destruct Hcase as [(-> & Hcr1 & Ho1)|(bs & -> & Hb & Hm & Hcred & Hcr1 & Ho1)].
    { eapply (sim_idle_sender N s sid a cs cr o1 c1 []); eauto. by rewrite app_nil_r. }
    right. eexists.
    split; [apply (leg_at_sender_poll N s sid a cs cr o1 c1 [FData sid bs]); eauto; apply Hwf|].
    replace (leg_of sid c1 cr _ _) with
      (Leg (peer_credit (state cs) - len bs) (data_of sid (path N s) ++ [bs]) (inbound cr)
         (drop (read_offset cr) (read_leftover cr)) (consumed_accum (state cr))
         (grants_of sid (path N (other s)))).
    + by apply (leg_write (leg_of sid cs cr (path N s) (path N (other s)))).
    + unfold leg_of. rewrite Hcr1, data_of_app, data_of_self. done.
  - rewrite decide_False by (intros [? _]; by eapply other_ne).
    rewrite (cell_at_live _ _ _ _ _ Hlive) in Hcr. simplify_eq. by eapply sim_idle_receiver.
Qed.

Lemma sim_read N t i n s sid l r N1 :
  net_wf N -> leg_at N s sid = Some l -> net_exec N (NRead t i n) = Some (r, N1) ->
  simulates N1 s sid l (net_label N s sid (NRead t i n) r).
Proof.
  intros Hwf Hl H. apply handle_poll_inv in H as (a & c & r0 & o1 & c1 & Hlive & Hop & -> & ->).
  destruct (cell_ok_at _ _ _ _ _ Hwf Hlive) as (_ & _ & _ & Hoff).
  destruct (poll_read_leg _ _ _ _ _ _ _ Hop (nw_open _ Hwf t) Hoff) as (Hcr1 & _ & g & Ho & Hstep).
  cbn [net_label]. destruct (decide (i = sid)) as [->|Hne].
  2:{ rewrite decide_False by (by intros [_ ?]). eapply sim_foreign; eauto using foreign_windows. }
  apply leg_at_Some in Hl as (cs & cr & Hcs & Hcr & ->).
  destruct (side_cases s t) as [->| ->].
  - rewrite decide_False by (intros [? _]; by eapply ne_other).
    rewrite (cell_at_live _ _ _ _ _ Hlive) in Hcs. simplify_eq.
    eapply sim_idle_sender; eauto using data_of_windows.
  - rewrite decide_True by done. rewrite (cell_at_live _ _ _ _ _ Hlive) in Hcr |- *. simplify_eq.
    right. eexists. split; [eapply leg_at_receiver_poll; eauto; apply Hwf|].
    unfold leg_of at 2. rewrite grants_of_app, grants_of_windows. apply Hstep.
Qed.

Lemma sim_shutdown N t i s sid l r N1 :
  net_wf N -> leg_at N s sid = Some l -> net_exec N (NShutdown t i) = Some (r, N1) ->
  simulates N1 s sid l (net_label N s sid (NShutdown t i) r).
Proof.
  intros Hwf Hl H. apply handle_poll_inv in H as (a & c & r0 & o1 & c1 & Hlive & Hop & -> & ->).
  destruct (poll_shutdown_leg _ _ _ _ _ _ Hop) as (Hin & Hlo & Hof & Hac & Hcr1 & _ & fs & Ho & Hf).
  pose proof (foreign_closes sid i fs Hf) as Hfs. cbn [net_label].
  destruct (decide (i = sid)) as [->|Hne]; [|by eapply sim_foreign].
  destruct (foreign_many _ _ Hfs) as [Hd Hg].
  apply leg_at_Some in Hl as (cs & cr & Hcs & Hcr & ->).
  destruct (side_cases s t) as [->| ->].
  - rewrite (cell_at_live _ _ _ _ _ Hlive) in Hcs. simplify_eq. by eapply sim_idle_sender.
  - rewrite (cell_at_live _ _ _ _ _ Hlive) in Hcr. simplify_eq. by eapply sim_idle_receiver.
Qed.

(** Steps of the tasks. *)

Lemma cell_at_gone N s sid : table (ep N s) !! sid = None -> cell_at N s sid = None.
Proof. unfold cell_at. by intros ->. Qed.

Lemma simulates_gone N1 s sid l lab t :
  table (ep N1 t) !! sid = None -> simulates N1 s sid l lab.
Proof.
  intros H%cell_at_gone. left. unfold leg_at.
  destruct (side_cases s t) as [->| ->]; rewrite H; by repeat case_match.
Qed.

Lemma simulates_ext N N1 s sid l :
  (forall t, cell_at N1 t sid = cell_at N t sid) ->
  (forall t, data_of sid (path N1 t) = data_of sid (path N t)) ->
  (forall t, grants_of sid (path N1 t) = grants_of sid (path N t)) ->
  leg_at N s sid = Some l -> simulates N1 s sid l LTau.
Proof.
  intros Hc Hd Hg Hl. apply simulates_same. rewrite <- Hl. unfold leg_at, leg_of.
  by rewrite !Hc, Hd, Hg.
Qed.

Lemma fail_connection_table m why :
  dead (shared m) = false -> table (fail_connection m why) = ∅.
Proof. unfold fail_connection. by intros ->. Qed.

Lemma open_stream_live m sid a c :
  conn_wf m -> outbound_open (shared m) = true -> live_at m sid a c ->
  let m1 := snd (open_stream m) in
  table m1 !! sid = None
  \/ (live_at m1 sid a c /\ exists fs, outbound (shared m1) = outbound (shared m) ++ fs
                                  /\ Forall (fun f => exists i, f = FOpen i) fs).
Proof.
  intros Hwf Hopen Hl. unfold open_stream, begin_open.
  assert (exists fs, outbound (shared m) = outbound (shared m) ++ fs
    /\ Forall (fun f => exists i, f = FOpen i) fs) as Hnil by (exists []; by rewrite app_nil_r).
  destruct (dead (shared m)) eqn:Hd; [by right|].
  set (i := next_local_id m). set (m0 := set_next_id m _).
  destruct (alloc_stream m0 i) as [[addr occ] m2] eqn:E.
  pose proof (alloc_stream_shared m0 i) as Hs. rewrite E in Hs. simpl in Hs.
  destruct occ; simpl.
  { left. by rewrite fail_connection_table by (by rewrite Hs). }
  assert (sid <> i) as Hne.
  { intros ->. unfold alloc_stream in E. destruct Hl as [Ht _]. subst i m0. simpl in E.
    by rewrite Ht in E. }
  assert (live_at m2 sid a c) as Hl2.
  { destruct Hl as [Ht Ha]. unfold alloc_stream in E. simpl in E.
    destruct (table m !! i); simplify_eq/=. split; simpl.
    - by rewrite lookup_insert_ne.
    - rewrite lookup_app_l; [done|by eapply lookup_lt_Some]. }
  unfold finish_open, send_outbound. destruct (try_send (shared m2) (FOpen i)) as [o|[]] eqn:Et; simpl.
  - apply try_send_Ok in Et as (-> & _). right. split; [done|]. simpl. rewrite Hs.
    exists [FOpen i]. eauto.
  - right. by rewrite Hs.
  - unfold try_send in Et. rewrite Hs in Et. simpl in Et. rewrite Hopen in Et. simpl in Et.
    by case_match.
Qed.

Lemma sim_open N t s sid l r N1 :
  net_wf N -> leg_at N s sid = Some l -> net_exec N (NOpen t) = Some (r, N1) ->
  simulates N1 s sid l (net_label N s sid (NOpen t) r).
Proof.
  intros Hwf Hl H. simpl in H. simplify_eq. cbn [net_label].
  assert (exists c, cell_at N t sid = Some c) as (c & Hc).
  { apply leg_at_Some in Hl as (cs & cr & Hcs & Hcr & _).
    destruct (side_cases s t) as [->| ->]; eauto. }
  apply live_cell_at in Hc as Ha. destruct Ha as (a & Ha).
  destruct (open_stream_live _ _ _ _ (nw_conn _ Hwf t) (nw_open _ Hwf t) Ha)
    as [Hg|[Hl1 (fs & Ho & Hf)]].
  { apply (simulates_gone _ _ _ _ _ t). by net_simpl. }
  assert (Forall (foreign sid) fs) as Hfs.
  { eapply Forall_impl; [done|]. by intros f (i & ->). }
  destruct (foreign_many _ _ Hfs) as [Hd Hg].
  apply (simulates_ext N); try done; intros u;
    destruct (side_cases t u) as [->| ->]; unfold path; net_simpl; try done.
  - rewrite Hc. apply cell_at_live with a. by net_simpl.
  - apply cell_at_ext. by net_simpl.
  - by rewrite Ho, app_assoc, data_of_app, Hd, app_nil_r.
  - by rewrite Ho, app_assoc, grants_of_app, Hg, app_nil_r.
Qed.

Lemma sim_accept N t s sid l r N1 :
  leg_at N s sid = Some l -> net_exec N (NAccept t) = Some (r, N1) ->
  simulates N1 s sid l (net_label N s sid (NAccept t) r).
Proof.
  intros Hl H. simpl in H. simplify_eq. cbn [net_label].
  assert (table (snd (accept (ep N t))) = table (ep N t)
    /\ heap (snd (accept (ep N t))) = heap (ep N t)
    /\ shared (snd (accept (ep N t))) = shared (ep N t)) as (Ht & Hh & Hs).
  { unfold accept. by destruct (accept_queue _). }
  apply (simulates_ext N); try done; intros u;
    destruct (side_cases t u) as [->| ->]; unfold path, cell_at; net_simpl; try done;
    by rewrite ?Ht, ?Hh, ?Hs.
Qed.

Lemma sim_pump N t s sid l r N1 :
  leg_at N s sid = Some l -> net_exec N (NPump t) = Some (r, N1) ->
  simulates N1 s sid l (net_label N s sid (NPump t) r).
Proof.
  intros Hl H. simpl in H. unfold take_outbound in H. destruct (shutdown (ep N t)); [done|].
  destruct (outbound (shared (ep N t))) as [|f q] eqn:Eo; [done|]. simplify_eq. cbn [net_label].
  apply (simulates_ext N); try done; intros u;
    destruct (side_cases t u) as [->| ->]; unfold path, cell_at; net_simpl; simpl; try done;
    by rewrite Eo, <- app_assoc.
Qed.

Lemma push_inbound_live m sid a c next m1 :
  live_at m sid a c -> push_inbound_stream m sid = (next, m1) -> next = Stopped.
Proof.
  intros [Ht _]. unfold push_inbound_stream, alloc_stream, failing. rewrite Ht. by intros [= <- _].
Qed.

Lemma set_cell_live m sid a c c1 :
  live_at m sid a c -> live_at (set_cell m a c1) sid a c1.
Proof.
  intros [Ht Ha]. split; [done|]. simpl. rewrite list_lookup_insert_eq; [done|].
  by eapply lookup_lt_Some.
Qed.

Lemma teardown_gone m sid d : table (teardown_stream m sid d) !! sid = None.
Proof.
  unfold teardown_stream. destruct (table m !! sid) eqn:E; [|done]. apply lookup_delete_eq.
Qed.

Lemma dispatch_own m f m1 sid a c :
  live_at m sid a c -> stream_id f = sid -> dispatch m f = (Continue, m1) ->
  shared m1 = shared m /\ (table m1 !! sid = None \/ live_at m1 sid a (frame_effect f c)).
Proof.
  intros Hl <- H.
  assert (forall k, with_entry m (stream_id f) k = (Continue, m1) -> k a c = (Continue, m1)) as Hwe.
  { intros k Hk. apply with_entry_inv in Hk as (b & cb & Ht & Hb & Hk); [|done].
    destruct Hl as [Ht' Ha]. by simplify_eq. }
  destruct f; simpl in *; unfold dispatch_open, dispatch_open_stream, dispatch_error, relay_only,
    dispatch_data, dispatch_close, dispatch_window, failing in H;
    try (apply Hwe in H); repeat case_match; simplify_eq/=; try done;
    try (by apply (push_inbound_live _ _ _ _ _ _ Hl) in H);
    try (edestruct forward_control_other; [done|done|exact Hl|]; eauto; fail);
    try (rewrite teardown_stream_shared; eauto using teardown_gone; fail);
    try (split; [done|right; by eapply set_cell_live]).
  rewrite remove_entry_shared. split; [done|]. left. unfold remove_entry. simpl.
  destruct Hl as [-> _]. simpl. apply lookup_delete_eq.
Qed.

Lemma path_deliver_self N t fs m1 :
  shared m1 = shared (ep N t) -> path (set_wire (set_ep N t m1) t fs) t = path N t.
Proof. intros Hs. unfold path. net_simpl. by rewrite Hs. Qed.

Lemma path_deliver_peer N t f fs m1 :
  wire N t = f :: fs -> path N (other t) = [f] ++ path (set_wire (set_ep N t m1) t fs) (other t).
Proof. intros Hw. unfold path. net_simpl. by rewrite Hw. Qed.

(** The reader of the sending side takes a frame of the stream. *)
Lemma sim_deliver_sender N s sid cs cr f fs m1 a :
  live_at (ep N s) sid a cs -> cell_at N (other s) sid = Some cr ->
  wire N s = f :: fs -> stream_id f = sid -> shared m1 = shared (ep N s) ->
  live_at m1 sid a (frame_effect f cs) ->
  simulates (set_wire (set_ep N s m1) s fs) s sid
    (leg_of sid cs cr (path N s) (path N (other s))) LTau.
Proof.
  intros Hl Hr Hw Hf Hs Hl1. right. eexists. split.
  { apply leg_at_intro; [apply cell_at_live with a; by net_simpl|].
    rewrite <- Hr. apply cell_at_ext. by net_simpl. }
  rewrite (path_deliver_self N s fs m1 Hs), (path_deliver_peer N s f fs m1 Hw).
  unfold leg_of. rewrite grants_of_app.
  destruct f; simpl in Hf; subst; try apply leg_idle.
  rewrite grants_of_self. simpl.
  by apply (leg_grant (Leg _ _ _ _ _ (credit0 :: _))).
Qed.

(** The reader of the receiving side takes a frame of the stream. *)
Lemma sim_deliver_receiver N s sid cs cr f fs m1 b :
  live_at (ep N (other s)) sid b cr -> cell_at N s sid = Some cs ->
  wire N (other s) = f :: fs -> stream_id f = sid -> shared m1 = shared (ep N (other s)) ->
  live_at m1 sid b (frame_effect f cr) ->
  simulates (set_wire (set_ep N (other s) m1) (other s) fs) s sid
    (leg_of sid cs cr (path N s) (path N (other s))) LTau.
Proof.
  intros Hl Hr Hw Hf Hs Hl1. right. eexists. split.
  { apply leg_at_intro; [|apply cell_at_live with b; by net_simpl].
    rewrite <- Hr. apply cell_at_ext. by net_simpl. }
  rewrite (path_deliver_self N (other s) fs m1 Hs).
  pose proof (path_deliver_peer N (other s) f fs m1 Hw) as Hp. rewrite other_other in Hp.
  rewrite Hp. unfold leg_of. rewrite data_of_app.
  destruct f; simpl in Hf; subst; try apply leg_idle.
  rewrite data_of_self. simpl.
  by apply (leg_deliver (Leg _ (payload :: _) _ _ _ _)).
Qed.

Lemma sim_deliver N t s sid l r N1 :
  net_wf N -> leg_at N s sid = Some l -> net_exec N (NDeliver t) = Some (r, N1) ->
  simulates N1 s sid l (net_label N s sid (NDeliver t) r).
Proof.
  intros Hwf Hl H. simpl in H. cbn [net_label]. destruct (shutdown (ep N t)) eqn:Hsd; [done|].
  destruct (wire N t) as [|f fs] eqn:Hw; [done|].
  destruct (dispatch (ep N t) f) as [next m1] eqn:Hdisp.
  assert (exists c, cell_at N t sid = Some c) as (c & Hc).
  { apply leg_at_Some in Hl as (cs & cr & Hcs & Hcr & _).
    destruct (side_cases s t) as [->| ->]; eauto. }
  destruct (live_cell_at _ _ _ _ Hc) as (a & Ha).
  pose proof (nw_conn _ Hwf t) as Hcw.
  destruct next; simplify_eq.
  - destruct (decide (stream_id f = sid)) as [Hf|Hf].
    + destruct (dispatch_own _ _ _ _ _ _ Ha Hf Hdisp) as [Hs [Hg|Hl1]].
      { apply (simulates_gone _ _ _ _ _ t). by net_simpl. }
      apply leg_at_Some in Hl as (cs & cr & Hcs & Hcr & ->).
      destruct (side_cases s t) as [->| ->]; simplify_eq.
      * by eapply sim_deliver_sender.
      * by eapply sim_deliver_receiver.
    + destruct (dispatch_other _ _ _ _ _ _ _ Hcw Ha Hf Hdisp) as [Hl1 Hs]; [done|].
      destruct (foreign_other sid f Hf) as [Hd Hg].
      apply (simulates_ext N); try done; intros u.
      * destruct (side_cases t u) as [->| ->].
        -- rewrite Hc. apply cell_at_live with a. by net_simpl.
        -- apply cell_at_ext. by net_simpl.
      * destruct (side_cases t u) as [->| ->]; [by rewrite path_deliver_self|].
        by rewrite (path_deliver_peer N t f fs m1 Hw), data_of_app, Hd.
      * destruct (side_cases t u) as [->| ->]; [by rewrite path_deliver_self|].
        by rewrite (path_deliver_peer N t f fs m1 Hw), grants_of_app, Hg.
  - destruct (dispatch_stopped _ _ _ _ _ _ Hcw Ha Hdisp) as (m0 & why & -> & _ & Hs & _).
    apply (simulates_gone _ _ _ _ _ t). net_simpl. rewrite fail_connection_table; [done|].
    rewrite Hs. destruct (dead (shared (ep N t))) eqn:Hdead; [|done].
    destruct (wf_dead _ Hcw Hdead). congruence.
Qed.

Lemma net_simulates N op s sid l r N1 :
  net_wf N -> leg_at N s sid = Some l -> net_exec N op = Some (r, N1) ->
  simulates N1 s sid l (net_label N s sid op r).
Proof.
  destruct op; eauto using sim_write, sim_read, sim_shutdown, sim_open, sim_accept, sim_pump,
    sim_deliver.
Qed.

(** ** Well-formed networks stay so *)

Lemma queue_ok_append o o1 fs :
  outbound_open o1 = outbound_open o -> outbound o1 = outbound o ++ fs ->
  Forall grant_nonneg fs -> queue_ok o o1.
Proof. intros Hop Ho Hf. split; [done|]. intros Hq. rewrite Ho. by apply Forall_app. Qed.

Lemma fail_connection_queue m why : queue_ok (shared m) (shared (fail_connection m why)).
Proof. unfold fail_connection. by destruct (dead (shared m)). Qed.

Lemma queue_ok_shared m m1 : shared m1 = shared m -> queue_ok (shared m) (shared m1).
Proof. by intros ->. Qed.

Lemma queue_ok_failing m m1 why :
  shared m1 = shared m -> queue_ok (shared m) (shared (fail_connection m1 why)).
Proof. intros <-. apply fail_connection_queue. Qed.

#[local] Hint Resolve fail_connection_queue queue_ok_shared queue_ok_failing : net.

Lemma push_inbound_queue m sid :
  queue_ok (shared m) (shared (snd (push_inbound_stream m sid))).
Proof.
  unfold push_inbound_stream, queue_accept, failing.
  pose proof (alloc_stream_shared m sid) as Hs.
  destruct (alloc_stream m sid) as [[addr occ] m1]; simpl in Hs.
  repeat case_match; simpl; auto with net.
Qed.

Lemma dispatch_queue m f : queue_ok (shared m) (shared (snd (dispatch m f))).
Proof.
  destruct f; simpl; unfold dispatch_open, dispatch_open_stream, dispatch_error,
    relay_only, dispatch_data, dispatch_close, dispatch_window, with_entry, forward_control, failing;
    repeat case_match; auto using push_inbound_queue with net; simpl; auto with net;
    apply queue_ok_shared; by rewrite ?teardown_stream_shared, ?remove_entry_shared.
Qed.

Lemma open_stream_queue m : queue_ok (shared m) (shared (snd (open_stream m))).
Proof.
  unfold open_stream, begin_open. destruct (dead (shared m)); [auto with net|].
  set (m0 := set_next_id m _). pose proof (alloc_stream_shared m0 (next_local_id m)) as Hs.
  destruct (alloc_stream m0 _) as [[addr occ] m2]; simpl in Hs.
  destruct occ; simpl; [auto with net|]. unfold finish_open, send_outbound.
  destruct (try_send (shared m2) _) as [o|[]] eqn:Et; simpl; auto with net.
  - apply try_send_Ok in Et as (-> & _). rewrite Hs.
    eapply queue_ok_append; [done..|]. by repeat constructor.
  - apply queue_ok_shared. by rewrite remove_entry_shared.
Qed.

Lemma leg_account_nonneg a k d a1 g sid :
  leg_account a k d = (a1, g) -> 0 <= a -> 0 <= k -> Forall grant_nonneg (map (FWindow sid) g).
Proof.
  unfold leg_account. intros H Ha Hk. case_match; simplify_eq; simpl; [|done].
  constructor; simpl; [lia|done].
Qed.

Lemma poll_read_queue sid n o c r o1 c1 :
  poll_read sid n o c = (r, o1, c1) -> outbound_open o = true -> 0 <= consumed_accum (state c) ->
  queue_ok o o1.
Proof.
  unfold poll_read. intros H Ho Ha. repeat case_match; simplify_eq; try done;
    match goal with E : account_consumed _ _ _ _ = _ |- _ =>
      destruct (account_consumed_leg _ _ _ _ _ _ E Ho) as (a & g & Hg & _ & Hout & Hopen) end;
    (eapply queue_ok_append; [congruence|done|]; eapply leg_account_nonneg; [exact Hg|done|lia]).
Qed.

Lemma net_wf_ep N t m :
  net_wf N -> conn_wf m -> queue_ok (shared (ep N t)) (shared m) -> net_wf (set_ep N t m).
Proof.
  intros [Hc Ho Hw Hq] Hm [Hop Hok].
  split; intros u; destruct (side_cases t u) as [->| ->]; net_simpl; auto. by rewrite Hop.
Qed.

Lemma net_wf_wire N t fs :
  net_wf N -> Forall grant_nonneg fs -> net_wf (set_wire N t fs).
Proof.
  intros [Hc Ho Hw Hq] Hf.
  split; intros u; destruct (side_cases t u) as [->| ->]; net_simpl; auto.
Qed.

Lemma net_wf_poll {R} N t i (op : outbound_state -> stream_cell -> R * outbound_state * stream_cell)
    res r N1 :
  net_wf N -> poll_ok op ->
  (forall o c r0 o1 c1, op o c = (r0, o1, c1) -> outbound_open o = true -> cell_ok c -> queue_ok o o1) ->
  handle_poll N t i op res = Some (r, N1) -> net_wf N1.
Proof.
  intros Hwf Hpok Hq H. apply handle_poll_inv in H as (a & c & r0 & o1 & c1 & Hl & Hop & _ & ->).
  pose proof (conn_wf_on_stream _ a op (nw_conn _ Hwf t) Hpok) as Hc.
  unfold on_stream in Hc. rewrite (proj2 Hl), Hop in Hc.
  apply net_wf_ep; [done|done|]. eapply Hq; [done|apply Hwf|by eapply cell_ok_at].
Qed.

Lemma net_wf_exec N op r N1 : net_wf N -> net_exec N op = Some (r, N1) -> net_wf N1.
Proof.
  intros Hwf H. destruct op as [t i buf|t i n|t i|t|t|t|t].
  - eapply net_wf_poll; [done|apply poll_write_ok| |exact H].
    intros o c r0 o1 c1 Hop Ho ([Hk _] & _).
    destruct (poll_write_leg _ _ _ _ _ _ _ Hop Hk) as (_ & _ & _ & _ & Hopn & Hcase).
    destruct Hcase as [(_ & _ & Hout)|(bs & _ & _ & _ & _ & _ & Hout)].
    + apply (queue_ok_append _ _ []); [done| |done]. by rewrite app_nil_r.
    + eapply queue_ok_append; [done..|]. by repeat constructor.
  - eapply net_wf_poll; [done|apply poll_read_ok| |exact H].
    intros o c r0 o1 c1 Hop Ho (_ & Ha & _). by eapply poll_read_queue.
  - eapply net_wf_poll; [done|apply poll_shutdown_ok| |exact H].
    intros o c r0 o1 c1 Hop _ _.
    destruct (poll_shutdown_leg _ _ _ _ _ _ Hop) as (_ & _ & _ & _ & _ & Hopn & fs & Hout & Hf).
    eapply queue_ok_append; [done..|]. eapply Forall_impl; [done|]. by intros f ->.
  - simpl in H. simplify_eq. apply net_wf_ep; [done| |apply open_stream_queue].
    by apply (conn_wf_exec _ EvOpen); [apply Hwf|].
  - simpl in H. simplify_eq. apply net_wf_ep; [done|by apply (conn_wf_exec _ EvAccept); [apply Hwf|]|].
    unfold accept. by case_match.
  - simpl in H. unfold take_outbound in H. destruct (shutdown _); [done|].
    destruct (outbound (shared (ep N t))) as [|f q] eqn:Eo; [done|]. simplify_eq.
    pose proof (nw_queue _ Hwf t) as Hq. rewrite Eo in Hq. apply Forall_cons in Hq as [Hf Hq].
    apply net_wf_wire.
    + apply net_wf_ep; [done| |done].
      pose proof (conn_wf_writer false _ (Sink [] None) (nw_conn _ Hwf t)) as Hc.
      unfold writer_step, take_outbound in Hc. by rewrite Eo in Hc.
    + apply Forall_app. split; [apply Hwf|]. by constructor.
  - simpl in H. destruct (shutdown _); [done|]. destruct (wire N t) as [|f fs] eqn:Hw; [done|].
    pose proof (nw_wire _ Hwf t) as Hq. rewrite Hw in Hq. apply Forall_cons in Hq as [Hf Hq].
    pose proof (conn_wf_dispatch _ _ (nw_conn _ Hwf t) Hf) as Hc.
    pose proof (dispatch_queue (ep N t) f) as Hdq.
    destruct (dispatch (ep N t) f) as [next m1]; simpl in *.
    destruct next; simplify_eq; by apply net_wf_wire; [apply net_wf_ep|].
Qed.

(** ** Runs *)

Lemma leg_steps_fifo l labs l2 :
  leg_steps l labs l2 -> leg_bytes l ++ bytes_written labs = bytes_read labs ++ leg_bytes l2.
Proof.
  unfold bytes_written, bytes_read.
  induction 1 as [l|l lab l1 labs l2 H _ IH]; simpl; [by rewrite app_nil_r|].
  apply leg_step_fifo in H. destruct lab; simpl.
  - by rewrite app_assoc, <- H.
  - by rewrite H, <- !app_assoc, IH.
  - by rewrite <- H.
Qed.

Lemma leg_steps_ledger l labs l2 :
  leg_steps l labs l2 -> ledger l2 + stranded labs = ledger l.
Proof.
  unfold stranded. induction 1 as [l|l lab l1 labs l2 H _ IH]; unfold sum_list in *; simpl; [lia|].
  apply leg_step_ledger in H. destruct lab; lia.
Qed.

Lemma leg_steps_stranded l labs l2 : leg_steps l labs l2 -> 0 <= stranded labs.
Proof.
  unfold stranded, sum_list. induction 1 as [|l lab l1 labs l2 H _ IH]; simpl; [done|].
  destruct H; simpl; try lia. pose proof (len_nonneg rest). lia.
Qed.

(** Without deferrals the accumulator stays under the grant threshold. *)
Lemma leg_steps_accum l labs l2 :
  leg_steps l labs l2 -> some_deferred labs = false ->
  accum l < WINDOW_GRANT_THRESHOLD -> accum l2 < WINDOW_GRANT_THRESHOLD.
Proof.
  unfold some_deferred. induction 1 as [l|l lab l1 labs l2 H _ IH]; simpl; [done|].
  intros [Hd Hds]%orb_false_iff Ha. apply IH; [done|].
  destruct H as [| | | |l bs rest cs d a g Hl Hc Hacc|]; simpl in *; try done. subst d.
  unfold leg_account in Hacc.
  destruct (Z.leb_spec WINDOW_GRANT_THRESHOLD (accum l + len bs)); simplify_eq/=; [done|lia].
Qed.

Lemma stalled_step l lab l1 : stalled l -> leg_step l lab l1 -> lab = LTau /\ l1 = l.
Proof.
  intros (Hc & Hf & Hch & Hlo & Hg) H.
  destruct H as [l bs Hb _ Hcr|l p ps Hp|l g gs Hgs|l bs rest Hb Hl|l bs rest cs d a g Hl Hcs|l];
    try congruence; try done.
  - destruct bs; [done|]. unfold len in Hcr. simpl in Hcr. lia.
  - rewrite Hlo in Hl. by destruct bs.
Qed.

Lemma live_run_steps N s sid ops labs N2 l :
  net_wf N -> leg_at N s sid = Some l -> live_run N s sid ops = Some (labs, N2) ->
  net_wf N2 /\ exists l2, leg_at N2 s sid = Some l2 /\ leg_steps l labs l2.
Proof.
  revert N labs l. induction ops as [|op ops IH]; simpl; intros N labs l Hwf Hl H.
  { simplify_eq. eauto using leg_steps_nil. }
  destruct (net_exec N op) as [[r N1]|] eqn:He; [|done].
  destruct (leg_at N1 s sid) as [l1|] eqn:Hl1; [|done].
  destruct (live_run N1 s sid ops) as [[labs1 N3]|] eqn:Hr; [|done]. simplify_eq.
  pose proof (net_wf_exec _ _ _ _ Hwf He) as Hwf1.
  destruct (net_simulates _ _ _ _ _ _ _ Hwf Hl He) as [|(l1' & Hl1' & Hs)]; [congruence|].
  rewrite Hl1 in Hl1'. simplify_eq.
  destruct (IH _ _ _ Hwf1 Hl1 Hr) as (Hwf2 & l2 & Hl2 & Hss). eauto using leg_steps_cons.
Qed.

Lemma connected_wf : net_wf connected.
Proof. split; intros []; try done; apply build_wf. Qed.

Lemma net_wf_run N ops rs N1 : net_wf N -> net_run N ops = Some (rs, N1) -> net_wf N1.
Proof.
  revert N rs. induction ops as [|op ops IH]; simpl; intros N rs Hwf H; [by simplify_eq|].
  destruct (net_exec N op) as [[r N2]|] eqn:He; [|done].
  destruct (net_run N2 ops) as [[rs2 N3]|] eqn:Hr; [|done]. simplify_eq.
  eapply IH; [|done]. by eapply net_wf_exec.
Qed.

Lemma leg_parts_nonneg N s sid l :
  net_wf N -> leg_at N s sid = Some l ->
  0 <= credit l /\ 0 <= accum l /\ 0 <= sum_list (grants l).
Proof.
  intros Hwf (cs & cr & Hcs & Hcr & ->)%leg_at_Some.
  apply live_cell_at in Hcs as (a & Ha), Hcr as (b & Hb).
  destruct (cell_ok_at _ _ _ _ _ Hwf Ha) as ([Hk _] & _).
  destruct (cell_ok_at _ _ _ _ _ Hwf Hb) as (_ & Hac & _). split_and!; try done. simpl.
  assert (Forall grant_nonneg (path N (other s))) as Hf.
  { apply Forall_app. split; apply Hwf. }
  induction Hf as [|f fs Hf _ IH]; simpl; [done|].
  unfold grants_of, sum_list in *. simpl. destruct f; simpl; try done.
  destruct (_ =? sid); simpl in *; [|done]. lia.
Qed.

(** ** Properties *)

(** C1. A stream is a reliable byte pipe across the two connections. Whatever
    both ends do on this and on other streams, while the stream stays live:
    what was under way plus everything written equals everything read plus
    what is still under way, byte for byte and in order. *)
Theorem stream_is_a_fifo N s sid ops labs N2 l :
  net_wf N -> leg_at N s sid = Some l -> live_run N s sid ops = Some (labs, N2) ->
  exists l2, leg_at N2 s sid = Some l2
    /\ leg_bytes l ++ bytes_written labs = bytes_read labs ++ leg_bytes l2.
Proof.
  intros Hwf Hl H. destruct (live_run_steps _ _ _ _ _ _ _ Hwf Hl H) as (_ & l2 & Hl2 & Hs).
  eauto using leg_steps_fifo.
Qed.

(** C11. Credit is conserved: in every run from the opening of a stream, the
    sender's credit, the bytes under way, the receiver's accumulator and the
    grants under way add up to [DEFAULT_STREAM_WINDOW] minus the bytes reads
    left over. So the receiver never buffers more than one window and no
    honest grant overflows the credit counter. *)
Theorem credit_is_conserved N s sid ops labs N2 :
  net_wf N -> leg_at N s sid = Some opened -> live_run N s sid ops = Some (labs, N2) ->
  exists l2, leg_at N2 s sid = Some l2
    /\ ledger l2 + stranded labs = DEFAULT_STREAM_WINDOW
    /\ len (concat (flight l2)) + len (concat (chunks l2)) <= DEFAULT_STREAM_WINDOW
    /\ credit l2 + sum_list (grants l2) <= DEFAULT_STREAM_WINDOW.
Proof.
  intros Hwf Hl H. destruct (live_run_steps _ _ _ _ _ _ _ Hwf Hl H) as (Hwf2 & l2 & Hl2 & Hs).
  pose proof (leg_steps_stranded _ _ _ Hs). apply leg_steps_ledger in Hs.
  exists l2. split; [done|]. split; [done|].
  destruct (leg_parts_nonneg _ _ _ _ Hwf2 Hl2) as (? & ? & ?).
  pose proof (len_nonneg (concat (chunks l2))). pose proof (len_nonneg (concat (flight l2))).
  change (ledger opened) with DEFAULT_STREAM_WINDOW in Hs. unfold ledger in *. lia.
Qed.

(** Flow control does not stall a reader that takes whole chunks: if no
    read left bytes over and no due grant met a full outbound queue, then
    once nothing is under way the sender holds more than half a window. *)
Theorem whole_reads_never_stall N s sid ops labs N2 l2 :
  net_wf N -> leg_at N s sid = Some opened -> live_run N s sid ops = Some (labs, N2) ->
  stranded labs = 0 -> some_deferred labs = false ->
  leg_at N2 s sid = Some l2 -> flight l2 = [] -> chunks l2 = [] -> grants l2 = [] ->
  DEFAULT_STREAM_WINDOW - WINDOW_GRANT_THRESHOLD < credit l2.
Proof.
  intros Hwf Hl H Hst Hdef Hl2 Hf Hc Hg.
  destruct (live_run_steps _ _ _ _ _ _ _ Hwf Hl H) as (_ & l2' & Hl2' & Hs). simplify_eq.
  pose proof (leg_steps_accum _ _ _ Hs Hdef) as Ha. specialize (Ha ltac:(done)).
  apply leg_steps_ledger in Hs. change (ledger opened) with DEFAULT_STREAM_WINDOW in Hs.
  unfold ledger, sum_list in Hs. rewrite Hf, Hc, Hg, Hst in Hs. unfold len in Hs. simpl in Hs. lia.
Qed.

(** A stalled leg is stalled for good: with no credit and nothing
    buffered, under way or granted, no operation of either end, on any
    stream, ever moves another byte or credit on it while it lives. *)
Theorem stalled_forever N s sid ops labs N2 l :
  net_wf N -> leg_at N s sid = Some l -> stalled l -> live_run N s sid ops = Some (labs, N2) ->
  leg_at N2 s sid = Some l /\ bytes_written labs = [] /\ bytes_read labs = [].
Proof.
  intros Hwf Hl Hst H. destruct (live_run_steps _ _ _ _ _ _ _ Hwf Hl H) as (_ & l2 & Hl2 & Hs).
  assert (l2 = l /\ bytes_written labs = [] /\ bytes_read labs = []) as (-> & ? & ?); [|done].
  clear -Hst Hs. unfold bytes_written, bytes_read.
  induction Hs as [|l lab l1 labs l2 H _ IH]; [done|].
  destruct (stalled_step _ _ _ Hst H) as [-> ->]. simpl. auto.
Qed.

(** Reading chunks in pieces leaks the window: after sixteen full frames
    each read as one byte and the rest, every byte sent has been read and yet
    the leg is stalled, because the bytes served from the leftover were never
    granted back. *)
Theorem split_reads_stall_the_sender :
  exists rs N2 l, net_run connected (open_ops ++ split_read_ops) = Some (rs, N2)
    /\ leg_at N2 Left 1 = Some l /\ stalled l /\ accum l = 16
    /\ to_left N2 = [] /\ to_right N2 = [].
Proof.
  assert (outcome (open_ops ++ split_read_ops)
          = Some (Some (Leg 0 [] [] [] 16 []), [[]; []; []; []])) as H by (vm_compute; reflexivity).
  unfold outcome in H. destruct (net_run _ _) as [[rs N2]|]; [|done].
  simplify_eq/=. eexists rs, N2, _. by split_and!.
Qed.

(** A deferred grant can deadlock the stream: with the reader's outbound
    queue full while it consumes one window, the grant is kept for the next
    read, which never comes. After the queue has drained completely, every
    chunk was read whole, nothing is under way, and the leg is stalled. *)
Theorem deferred_grant_deadlocks :
  exists rs N2 l, net_run connected (open_ops ++ deferred_grant_ops) = Some (rs, N2)
    /\ leg_at N2 Left 1 = Some l /\ stalled l /\ accum l = DEFAULT_STREAM_WINDOW
    /\ to_left N2 = [] /\ to_right N2 = []
    /\ outbound (shared (ep N2 Left)) = [] /\ outbound (shared (ep N2 Right)) = [].
Proof.
  assert (outcome (open_ops ++ deferred_grant_ops)
          = Some (Some (Leg 0 [] [] [] 262144 []), [[]; []; []; []])) as H by (vm_compute; reflexivity).
  unfold outcome in H. destruct (net_run _ _) as [[rs N2]|]; [|done].
  simplify_eq/=. eexists rs, N2, _. by split_and!.
Qed.

(** ** Witnesses *)

Lemma established_wf : net_wf established.
Proof.
  apply (net_wf_run connected open_ops [RDone; RDone; RDone]); [apply connected_wf|reflexivity].
Qed.

Definition hello_ops : list net_op :=
  send_ops [x68; x65; x6c] ++ [NRead Right 1 2; NWrite Left 1 [x6c; x6f]; NRead Right 1 9].

Definition whole_ops : list net_op := send_ops [x68; x69] ++ [NRead Right 1 9].

Lemma stream_is_a_fifo_witness :
  exists l2 labs N2, live_run established Left 1 hello_ops = Some (labs, N2)
    /\ leg_at N2 Left 1 = Some l2
    /\ leg_bytes opened ++ bytes_written labs = bytes_read labs ++ leg_bytes l2.
Proof.
  destruct (live_run established Left 1 hello_ops) as [[labs N2]|] eqn:E; [|discriminate E].
  destruct (stream_is_a_fifo established Left 1 hello_ops labs N2 opened established_wf
    ltac:(reflexivity) E) as (l2 & H1 & H2).
  exists l2, labs, N2. exact (conj eq_refl (conj H1 H2)).
Defined.

Lemma credit_is_conserved_witness :
  exists l2 labs N2, live_run established Left 1 hello_ops = Some (labs, N2)
    /\ leg_at N2 Left 1 = Some l2 /\ ledger l2 + stranded labs = DEFAULT_STREAM_WINDOW.
Proof.
  destruct (live_run established Left 1 hello_ops) as [[labs N2]|] eqn:E; [|discriminate E].
  destruct (credit_is_conserved established Left 1 hello_ops labs N2 established_wf
    ltac:(reflexivity) E) as (l2 & H1 & H2 & _).
  exists l2, labs, N2. exact (conj eq_refl (conj H1 H2)).
Defined.

Definition after_whole : net :=
  match live_run established Left 1 whole_ops with Some (_, N) => N | None => established end.
Definition whole_labels : list leg_label :=
  match live_run established Left 1 whole_ops with Some (labs, _) => labs | None => [] end.

Lemma whole_reads_never_stall_witness :
  DEFAULT_STREAM_WINDOW - WINDOW_GRANT_THRESHOLD < credit (Leg 262142 [] [] [] 2 []).
Proof.
  apply (whole_reads_never_stall established Left 1 whole_ops whole_labels after_whole
    (Leg 262142 [] [] [] 2 []) established_wf); vm_compute; reflexivity.
Defined.

(** A net whose leg is stalled: the sixteen split reads. *)
Definition after_split : net :=
  match net_run connected (open_ops ++ split_read_ops) with Some (_, N) => N | None => connected end.

Lemma after_split_wf : net_wf after_split.
Proof.
  unfold after_split. destruct (net_run connected (open_ops ++ split_read_ops)) as [[rs N]|] eqn:E;
    [exact (net_wf_run connected _ rs N connected_wf E)|exact connected_wf].
Qed.

Lemma stalled_forever_witness :
  exists labs N2, live_run after_split Left 1 [NWrite Left 1 [x61]] = Some (labs, N2)
    /\ bytes_written labs = [] /\ bytes_read labs = [].
Proof.
  assert (Hs : is_some (live_run after_split Left 1 [NWrite Left 1 [x61]]) = true)
    by (vm_compute; reflexivity).
  destruct (live_run after_split Left 1 [NWrite Left 1 [x61]]) as [[labs N2]|] eqn:Hr;
    [|discriminate Hs].
  destruct (stalled_forever after_split Left 1 [NWrite Left 1 [x61]] labs N2
    (Leg 0 [] [] [] 16 []) after_split_wf ltac:(vm_compute; reflexivity) ltac:(repeat split) Hr)
    as (_ & H1 & H2).
  exists labs, N2. exact (conj eq_refl (conj H1 H2)).
Defined.
