(* ===== verification/Scheduler.v ===== *)
(** * Scheduler: the relay's per-link egress scheduler

    [src/infra/relay_scheduler.rs]: two bounded ingress FIFOs, the ingress
    consumer task that classifies frames into a priority queue and per-stream
    buckets, and the writer task that drains the priority queue and serves
    the buckets by deficit round robin.

    A step is what one task does between two points where another task can
    run: one arm of the consumer's [select!], one lock section of the writer,
    one frame written. [Notify] is its stored permit. The iteration order of
    the bucket map is an argument of the pass. *)

From S2P Require Import Prelude Bytes Frame.

Definition IDLE_REAP_PASSES : Z := 8.
Definition LINK_OUTBOUND_QUEUE : Z := 256.

Record SchedulerConfig := {
  bucket_capacity_bytes : Z;
  link_budget_bytes : Z;
  round_budget_bytes : Z;
  ingress_capacity : Z;
}.

Definition default_config : SchedulerConfig :=
  {| bucket_capacity_bytes := 1024 * 1024; link_budget_bytes := 64 * 1024 * 1024;
     round_budget_bytes := 64 * 1024; ingress_capacity := LINK_OUTBOUND_QUEUE |}.

Record Bucket := {
  queue : list frame;
  queued_bytes : Z;
  deficit : Z;
  idle_passes : Z;
}.

Definition new_bucket : Bucket :=
  {| queue := []; queued_bytes := 0; deficit := 0; idle_passes := 0 |}.

Record Shared := {
  priority : list frame;
  buckets : gmap Z Bucket;
  total_bucket_bytes : Z;
  classified_frames : Z;
  emitted_frames : Z;
  emitted_by_stream : gmap Z Z;
  ingress_open : bool;
  writer_done : bool;
}.

Definition empty_shared : Shared :=
  {| priority := []; buckets := ∅; total_bucket_bytes := 0; classified_frames := 0;
     emitted_frames := 0; emitted_by_stream := ∅; ingress_open := true; writer_done := false |}.

(** The consumer task's own state. *)
Record consumer := {
  parked : option frame;
  bulk_closed : bool;
  control_closed : bool;
  consumer_done : bool;
}.

(** Where the writer task is in its loop: about to drain the priority queue,
    writing that batch ([prio_empty]: it was empty), about to make the round
    robin pass, writing the pass's batch, parked, leaving the loop, gone. *)
Inductive writer_pc :=
| WDrain
| WPriority (rest : list frame) (prio_empty : bool)
| WPass (prio_empty : bool)
| WBatch (rest : list frame) (more_work batch_empty prio_empty : bool)
| WParked
| WLeaving
| WGone.

(** The limits after the floors of [spawn]. *)
Record limits := {
  bucket_capacity : Z;
  link_budget : Z;
  round_budget : Z;
  fifo_capacity : Z;
}.

Record scheduler := {
  lim : limits;
  bulk : list frame;             (** the bulk ingress FIFO *)
  control : list frame;          (** the control ingress FIFO *)
  producers : bool;              (** some [SchedulerIngress] clone exists *)
  shared : Shared;
  cons : consumer;
  pc : writer_pc;
  work_available : bool;
  space_freed : bool;
  socket_ok : bool;
  wire : list frame;             (** the frames written to the socket *)
}.

Definition floors (c : SchedulerConfig) : limits :=
  let cap := Z.max (bucket_capacity_bytes c) MAX_FRAME_PAYLOAD in
  {| bucket_capacity := cap; link_budget := Z.max (link_budget_bytes c) cap;
     round_budget := Z.max (round_budget_bytes c) 1;
     fifo_capacity := Z.max (ingress_capacity c) 1 |}.

Definition spawn (c : SchedulerConfig) : scheduler :=
  {| lim := floors c; bulk := []; control := []; producers := true; shared := empty_shared;
     cons := {| parked := None; bulk_closed := false; control_closed := false;
                consumer_done := false |};
     pc := WDrain; work_available := false; space_freed := false; socket_ok := true; wire := [] |}.

(** ** The ingress *)

Inductive ingress_error := IngressFull | IngressClosed.

(** [SchedulerIngress::try_send]: the channel is picked by the frame's kind.
    The receivers live as long as the consumer task. *)
Definition try_send (s : scheduler) (f : frame) : result scheduler ingress_error :=
  if consumer_done (cons s) then Err IngressClosed
  else
    let fifo := if is_bulk_ordered f then bulk s else control s in
    if fifo_capacity (lim s) <=? len fifo then Err IngressFull
    else Ok {| lim := lim s;
               bulk := if is_bulk_ordered f then bulk s ++ [f] else bulk s;
               control := if is_bulk_ordered f then control s else control s ++ [f];
               producers := producers s; shared := shared s; cons := cons s; pc := pc s;
               work_available := work_available s; space_freed := space_freed s;
               socket_ok := socket_ok s; wire := wire s |}.

(** ** The ingress consumer *)

Inductive BucketEnqueue := Fits (sh : Shared) | Park (sh : Shared) (f : frame) | Drop.

Definition bucket_in (bs : gmap Z Bucket) (sid : Z) : Bucket := default new_bucket (bs !! sid).
Definition bucket_of (sh : Shared) (sid : Z) : Bucket := bucket_in (buckets sh) sid.

Definition set_buckets (sh : Shared) (bs : gmap Z Bucket) (total classified : Z) : Shared :=
  {| priority := priority sh; buckets := bs; total_bucket_bytes := total;
     classified_frames := classified; emitted_frames := emitted_frames sh;
     emitted_by_stream := emitted_by_stream sh; ingress_open := ingress_open sh;
     writer_done := writer_done sh |}.

(** [or_insert_with] creates the bucket even when the frame is parked. *)
Definition enqueue_bucket (l : limits) (sh : Shared) (f : frame) : BucketEnqueue :=
  if writer_done sh then Drop
  else
    let sid := stream_id f in
    let n := payload_len f in
    let b := bucket_of sh sid in
    if (queued_bytes b + n <=? bucket_capacity l) && (total_bucket_bytes sh + n <=? link_budget l)
    then Fits (set_buckets sh
                 (<[sid := {| queue := queue b ++ [f]; queued_bytes := queued_bytes b + n;
                              deficit := deficit b; idle_passes := 0 |}]> (buckets sh))
                 (total_bucket_bytes sh + n) (classified_frames sh + 1))
    else Park (set_buckets sh (<[sid := b]> (buckets sh)) (total_bucket_bytes sh)
                 (classified_frames sh)) f.

Definition push_priority (sh : Shared) (f : frame) : Shared :=
  {| priority := priority sh ++ [f]; buckets := buckets sh;
     total_bucket_bytes := total_bucket_bytes sh; classified_frames := classified_frames sh + 1;
     emitted_frames := emitted_frames sh; emitted_by_stream := emitted_by_stream sh;
     ingress_open := ingress_open sh; writer_done := writer_done sh |}.

Definition close_ingress (sh : Shared) : Shared :=
  {| priority := priority sh; buckets := buckets sh; total_bucket_bytes := total_bucket_bytes sh;
     classified_frames := classified_frames sh; emitted_frames := emitted_frames sh;
     emitted_by_stream := emitted_by_stream sh; ingress_open := false;
     writer_done := writer_done sh |}.

Definition set_parked (c : consumer) (p : option frame) : consumer :=
  {| parked := p; bulk_closed := bulk_closed c; control_closed := control_closed c;
     consumer_done := consumer_done c |}.

(** The state after the consumer's part of it changed. *)
Definition with_consumer (s : scheduler) (bk ct : list frame) (sh : Shared) (c : consumer)
    (work space : bool) : scheduler :=
  {| lim := lim s; bulk := bk; control := ct; producers := producers s; shared := sh; cons := c;
     pc := pc s; work_available := work; space_freed := space; socket_ok := socket_ok s;
     wire := wire s |}.

(** An attempt to place a bulk frame, from the FIFO or from the parked slot. *)
Definition place_bulk (s : scheduler) (bk : list frame) (space : bool) (f : frame) : scheduler :=
  match enqueue_bucket (lim s) (shared s) f with
  | Fits sh => with_consumer s bk (control s) sh (set_parked (cons s) None) true space
  | Park sh f1 =>
      with_consumer s bk (control s) sh (set_parked (cons s) (Some f1)) (work_available s) space
  | Drop => with_consumer s bk (control s) (shared s) (set_parked (cons s) None)
              (work_available s) space
  end.

(** One iteration of the consumer's loop, or [None] when it has to wait: the
    exit test, then the arms of the biased [select!] in their order. *)
Definition consumer_step (s : scheduler) : option scheduler :=
  let c := cons s in
  if consumer_done c then None
  else if bulk_closed c && control_closed c && negb (bool_decide (is_Some (parked c))) then
    Some (with_consumer s (bulk s) (control s) (close_ingress (shared s))
            {| parked := parked c; bulk_closed := bulk_closed c;
               control_closed := control_closed c; consumer_done := true |}
            true (space_freed s))
  else match (if space_freed s then parked c else None) with
  | Some f => Some (place_bulk s (bulk s) false f)
  | None =>
      match control s with
      | f :: ct => Some (with_consumer s (bulk s) ct (push_priority (shared s) f) c true (space_freed s))
      | [] =>
          if negb (control_closed c) && negb (producers s) then
            Some (with_consumer s (bulk s) (control s) (shared s)
                    {| parked := parked c; bulk_closed := bulk_closed c; control_closed := true;
                       consumer_done := consumer_done c |} (work_available s) (space_freed s))
          else match parked c, bulk s with
          | None, f :: bk =>
              if is_bulk_ordered f then Some (place_bulk s bk (space_freed s) f)
              else Some (with_consumer s bk (control s) (push_priority (shared s) f) c true
                           (space_freed s))
          | None, [] =>
              if negb (bulk_closed c) && negb (producers s) then
                Some (with_consumer s (bulk s) (control s) (shared s)
                        {| parked := parked c; bulk_closed := true;
                           control_closed := control_closed c;
                           consumer_done := consumer_done c |} (work_available s) (space_freed s))
              else None
          | Some _, _ => None
          end
      end
  end.

(** ** The writer *)

Definition record_emission (sh : Shared) (f : frame) : Shared :=
  {| priority := priority sh; buckets := buckets sh; total_bucket_bytes := total_bucket_bytes sh;
     classified_frames := classified_frames sh; emitted_frames := emitted_frames sh + 1;
     emitted_by_stream :=
       <[stream_id f := default 0 (emitted_by_stream sh !! stream_id f) + 1]> (emitted_by_stream sh);
     ingress_open := ingress_open sh; writer_done := writer_done sh |}.

Definition drain_priority (sh : Shared) : list frame * Shared :=
  (priority sh,
   fold_left record_emission (priority sh)
     {| priority := []; buckets := buckets sh; total_bucket_bytes := total_bucket_bytes sh;
        classified_frames := classified_frames sh; emitted_frames := emitted_frames sh;
        emitted_by_stream := emitted_by_stream sh; ingress_open := ingress_open sh;
        writer_done := writer_done sh |}).

Fixpoint bytes (fs : list frame) : Z :=
  match fs with [] => 0 | f :: fs => payload_len f + bytes fs end.

(** The inner loop of a visit: frames while the deficit covers them. *)
Fixpoint serve_loop (d : Z) (q : list frame) : list frame * Z * list frame :=
  match q with
  | [] => ([], d, [])
  | f :: q1 =>
      if d <? payload_len f then ([], d, q)
      else let '(out, d1, rest) := serve_loop (d - payload_len f) q1 in (f :: out, d1, rest)
  end.

(** One visit of the round robin: the frames taken and the bucket left. *)
Definition visit (budget : Z) (b : Bucket) : list frame * Bucket :=
  match queue b with
  | [] => ([], {| queue := []; queued_bytes := queued_bytes b; deficit := deficit b;
                  idle_passes := idle_passes b + 1 |})
  | f :: q =>
      let '(out, d, rest) := serve_loop (deficit b + budget) (queue b) in
      match out with
      | _ :: _ => (out, {| queue := rest; queued_bytes := queued_bytes b - bytes out;
                           deficit := d; idle_passes := 0 |})
      | [] => ([f], {| queue := q; queued_bytes := queued_bytes b - payload_len f;
                       deficit := d - payload_len f; idle_passes := 0 |})
      end
  end.

(** The visits of a pass in the order the map yields its buckets. *)
Fixpoint visits (budget : Z) (order : list Z) (bs : gmap Z Bucket) : list frame * gmap Z Bucket :=
  match order with
  | [] => ([], bs)
  | sid :: order =>
      match bs !! sid with
      | None => visits budget order bs
      | Some b =>
          let '(out, b1) := visit budget b in
          let '(outs, bs1) := visits budget order (<[sid := b1]> bs) in
          (out ++ outs, bs1)
      end
  end.

Definition reaped (b : Bucket) : bool :=
  bool_decide (queue b = []) && (IDLE_REAP_PASSES <=? idle_passes b).

Definition has_backlog (bs : gmap Z Bucket) : bool :=
  bool_decide (map_Exists (fun _ b => queue b <> []) bs).

(** The second lock section of the writer's loop. *)
Definition drr_pass (budget : Z) (order : list Z) (sh : Shared) : list frame * bool * Shared :=
  let '(batch, bs) := visits budget order (buckets sh) in
  let bs1 := filter (fun p => reaped (snd p) = false) bs in
  let more := negb (bool_decide (priority sh = [])) || has_backlog bs1 || ingress_open sh in
  (batch, more,
   fold_left record_emission batch
     (set_buckets sh bs1 (total_bucket_bytes sh - bytes batch) (classified_frames sh))).

Definition set_writer_done (sh : Shared) : Shared :=
  {| priority := priority sh; buckets := buckets sh; total_bucket_bytes := total_bucket_bytes sh;
     classified_frames := classified_frames sh; emitted_frames := emitted_frames sh;
     emitted_by_stream := emitted_by_stream sh; ingress_open := ingress_open sh;
     writer_done := true |}.

(** The state after the writer's part of it changed. *)
Definition with_writer (s : scheduler) (sh : Shared) (p : writer_pc) (work space : bool)
    (w : list frame) : scheduler :=
  {| lim := lim s; bulk := bulk s; control := control s; producers := producers s; shared := sh;
     cons := cons s; pc := p; work_available := work; space_freed := space;
     socket_ok := socket_ok s; wire := w |}.

(** What the writer does once the pass's batch is on the wire. *)
Definition after_batch (more batch_empty prio_empty : bool) : writer_pc :=
  if negb more then if batch_empty then WLeaving else WDrain
  else if batch_empty && prio_empty then WParked else WDrain.

Definition is_nil {A} (l : list A) : bool := match l with [] => true | _ => false end.

(** One step of the writer task, or [None] when it has to wait. [order] is
    the iteration order of the bucket map in this pass. *)
Definition writer_step (order : list Z) (s : scheduler) : option scheduler :=
  let go sh p := Some (with_writer s sh p (work_available s) (space_freed s) (wire s)) in
  let write f p :=
    if socket_ok s
    then Some (with_writer s (shared s) p (work_available s) (space_freed s) (wire s ++ [f]))
    else go (shared s) WLeaving in
  match pc s with
  | WDrain => let '(batch, sh) := drain_priority (shared s) in go sh (WPriority batch (is_nil batch))
  | WPriority (f :: rest) pe => write f (WPriority rest pe)
  | WPriority [] pe => go (shared s) (WPass pe)
  | WPass pe =>
      let '(batch, more, sh) := drr_pass (round_budget (lim s)) order (shared s) in
      Some (with_writer s sh (WBatch batch more (is_nil batch) pe) (work_available s)
              (space_freed s || negb (is_nil batch)) (wire s))
  | WBatch (f :: rest) more be pe => write f (WBatch rest more be pe)
  | WBatch [] more be pe => go (shared s) (after_batch more be pe)
  | WParked =>
      if work_available s
      then Some (with_writer s (shared s) WDrain false (space_freed s) (wire s))
      else None
  | WLeaving =>
      Some (with_writer s (set_writer_done (shared s)) WGone (work_available s) true (wire s))
  | WGone => None
  end.

(** ** Executions *)

Inductive sched_event :=
| SSend (f : frame)        (** a producer's send that found room *)
| SDropProducers           (** the last [SchedulerIngress] is dropped *)
| SConsumer
| SWriter (order : list Z)
| SBreak.                  (** the socket fails from now on *)

Definition sched_exec (s : scheduler) (e : sched_event) : option scheduler :=
  match e with
  | SSend f => if producers s
               then match try_send s f with Ok s1 => Some s1 | Err _ => None end
               else None
  | SDropProducers =>
      Some {| lim := lim s; bulk := bulk s; control := control s; producers := false;
              shared := shared s; cons := cons s; pc := pc s; work_available := work_available s;
              space_freed := space_freed s; socket_ok := socket_ok s; wire := wire s |}
  | SConsumer => consumer_step s
  | SWriter order =>
      if decide (order ≡ₚ map fst (map_to_list (buckets (shared s)))) then writer_step order s
      else None
  | SBreak =>
      Some {| lim := lim s; bulk := bulk s; control := control s; producers := producers s;
              shared := shared s; cons := cons s; pc := pc s; work_available := work_available s;
              space_freed := space_freed s; socket_ok := false; wire := wire s |}
  end.

Fixpoint sched_run (s : scheduler) (es : list sched_event) : option scheduler :=
  match es with
  | [] => Some s
  | e :: es => match sched_exec s e with Some s1 => sched_run s1 es | None => None end
  end.

(** ** Specification *)

(** The bulk frames of one stream, and the control frames, of a sequence. *)
Definition of_stream (sid : Z) (fs : list frame) : list frame :=
  filter (fun f => is_bulk_ordered f = true /\ stream_id f = sid) fs.
Definition controls (fs : list frame) : list frame :=
  filter (fun f => is_bulk_ordered f = false) fs.

(** The frames the writer has taken and not yet written. *)
Definition in_hand (p : writer_pc) : list frame :=
  match p with WPriority rest _ | WBatch rest _ _ _ => rest | _ => [] end.

Definition parked_frames (c : consumer) : list frame :=
  match parked c with Some f => [f] | None => [] end.

(** The bulk frames of stream [sid] and the control frames inside the
    scheduler or behind it, oldest first: on the wire, in the writer's hand,
    queued, parked, in the ingress FIFO. *)
Definition bulk_pipeline (sid : Z) (s : scheduler) : list frame :=
  of_stream sid (wire s) ++ of_stream sid (in_hand (pc s))
  ++ queue (bucket_of (shared s) sid)
  ++ of_stream sid (parked_frames (cons s)) ++ of_stream sid (bulk s).
Definition control_pipeline (s : scheduler) : list frame :=
  controls (wire s) ++ controls (in_hand (pc s)) ++ priority (shared s) ++ control s.

(** [s1] holds what [s] holds, and [new] behind it. *)
Definition pipelines_extend (s s1 : scheduler) (new : list frame) : Prop :=
  (forall sid, bulk_pipeline sid s1 = bulk_pipeline sid s ++ of_stream sid new)
  /\ control_pipeline s1 = control_pipeline s ++ controls new.

Definition sent_by (e : sched_event) : list frame := match e with SSend f => [f] | _ => [] end.
Definition sent (es : list sched_event) : list frame := concat (map sent_by es).

(** The frames producers offer: within the payload bound, as [read_frame]
    guarantees. *)
Definition sched_event_ok (e : sched_event) : Prop :=
  match e with SSend f => payload_len f <= MAX_FRAME_PAYLOAD | _ => True end.

(** ** Invariant *)

Record bucket_wf (cap : Z) (sid : Z) (b : Bucket) : Prop := {
  bw_bytes : queued_bytes b = bytes (queue b);
  bw_cap : queued_bytes b <= cap;
  bw_frames : Forall (fun f => is_bulk_ordered f = true /\ stream_id f = sid) (queue b);
}.

Definition limits_ok (l : limits) : Prop :=
  MAX_FRAME_PAYLOAD <= bucket_capacity l <= link_budget l
  /\ 1 <= round_budget l /\ 1 <= fifo_capacity l.

(** Frames that may wait for a bucket. *)
Definition bulk_frame (f : frame) : Prop :=
  is_bulk_ordered f = true /\ payload_len f <= MAX_FRAME_PAYLOAD.

Definition fits_now (l : limits) (sh : Shared) (f : frame) : Prop :=
  queued_bytes (bucket_of sh (stream_id f)) + payload_len f <= bucket_capacity l
  /\ total_bucket_bytes sh + payload_len f <= link_budget l.

Definition idle (sh : Shared) : Prop := priority sh = [] /\ has_backlog (buckets sh) = false.

(** The wake-up discipline of the writer: a missing [work_available] permit
    means that nothing arrived since it last looked. *)
Definition quiet (p : writer_pc) (sh : Shared) : Prop :=
  match p with
  | WPriority _ true | WPass true => priority sh = []
  | WBatch _ true true true => idle sh /\ ingress_open sh = true
  | WParked => idle sh /\ ingress_open sh = true
  | _ => True
  end.

(** The writer only leaves for good once the ingress is closed and nothing is
    queued. *)
Definition ending (p : writer_pc) : bool :=
  match p with WBatch _ false _ _ | WLeaving | WGone => true | _ => false end.

Record sched_wf (s : scheduler) : Prop := {
  sw_limits : limits_ok (lim s);
  sw_buckets : map_Forall (bucket_wf (bucket_capacity (lim s))) (buckets (shared s));
  sw_total : total_bucket_bytes (shared s) = map_sum queued_bytes (buckets (shared s));
  sw_budget : total_bucket_bytes (shared s) <= link_budget (lim s);
  sw_priority : Forall (fun f => is_bulk_ordered f = false) (priority (shared s));
  sw_bulk : Forall bulk_frame (bulk s);
  sw_control : Forall (fun f => is_bulk_ordered f = false) (control s);
  sw_fifos : len (bulk s) <= fifo_capacity (lim s) /\ len (control s) <= fifo_capacity (lim s);
  sw_parked : Forall bulk_frame (parked_frames (cons s));
  sw_hand : match pc s with
            | WPriority rest _ => Forall (fun f => is_bulk_ordered f = false) rest
            | WBatch rest _ _ _ => Forall (fun f => is_bulk_ordered f = true) rest
            | _ => True
            end;
  sw_bulk_closed : bulk_closed (cons s) = true -> bulk s = [] /\ producers s = false;
  sw_control_closed : control_closed (cons s) = true -> control s = [] /\ producers s = false;
  sw_done : consumer_done (cons s) = negb (ingress_open (shared s));
  sw_done_closed : consumer_done (cons s) = true ->
    bulk_closed (cons s) = true /\ control_closed (cons s) = true /\ parked (cons s) = None;
  sw_writer_done : writer_done (shared s) = true -> pc s = WGone;
  sw_ending : socket_ok s = true -> ending (pc s) = true ->
    idle (shared s) /\ ingress_open (shared s) = false;
  sw_space : forall f, parked (cons s) = Some f -> space_freed s = false ->
    writer_done (shared s) = false /\ ~ fits_now (lim s) (shared s) f;
  sw_work : work_available s = false -> quiet (pc s) (shared s);
}.

(** Work left for the tasks. *)
Definition busy (s : scheduler) : Prop :=
  pc s <> WGone /\
  (control s <> [] \/ bulk s <> [] \/ is_Some (parked (cons s)) \/ priority (shared s) <> []
   \/ has_backlog (buckets (shared s)) = true \/ producers s = false).

(** ** Termination of a flush *)

(** The steps the two tasks can still take: every frame pays for its way to
    the wire, a stored permit for the round it triggers, and the writer's
    position for the rest of its round. *)
Definition flag (b : bool) (z : Z) : Z := if b then z else 0.

Definition queued_frames (bs : gmap Z Bucket) : Z := map_sum (fun b => len (queue b)) bs.

Definition rank (p : writer_pc) : Z :=
  match p with
  | WDrain => 6
  | WPriority _ pe => 5 + flag (negb pe) 4
  | WPass pe => 4 + flag (negb pe) 4
  | WBatch _ _ be pe => 3 + flag (negb (be && pe)) 4
  | WParked => 0
  | WLeaving => 2
  | WGone => 0
  end.

Definition weight (s : scheduler) : Z :=
  15 * len (bulk s) + 14 * len (control s) + 14 * len (parked_frames (cons s))
  + 6 * len (priority (shared s)) + 6 * queued_frames (buckets (shared s)) + len (in_hand (pc s))
  + flag (work_available s) 7 + flag (space_freed s) 1
  + flag (negb (bulk_closed (cons s))) 1 + flag (negb (control_closed (cons s))) 1
  + flag (negb (consumer_done (cons s))) 8 + rank (pc s).

Definition is_gone (p : writer_pc) : bool := match p with WGone => true | _ => false end.

(** A step of one of the two tasks. *)
Definition task_event (e : sched_event) : Prop :=
  match e with SConsumer | SWriter _ => True | _ => False end.

(** ** Scenarios *)

(** The writer goes once round its loop without anything to send to reach the
    pass, with [order] as the bucket order. *)
Definition to_pass (order : list Z) : list sched_event := [SWriter order; SWriter order].

(** One frame for [sid] goes in, through a pass, and out. *)
Definition trickle (sid : Z) (order : list Z) : list sched_event :=
  [SSend (FData sid [x61]); SConsumer] ++ to_pass order ++ [SWriter order; SWriter order; SWriter order].

Definition big_frame (sid : Z) : frame := FData sid (replicate (Z.to_nat MAX_FRAME_PAYLOAD) x62).

(** Stream 2 sends one byte per round for sixteen rounds; then streams 2 and 4
    both have sixty full frames queued. *)
Definition burst_events : list sched_event :=
  concat (replicate 16 (trickle 2 [2]))
  ++ concat (replicate 60 [SSend (big_frame 2); SConsumer; SSend (big_frame 4); SConsumer])
  ++ to_pass [2; 4].

(** The batch of the pass that follows [es], as (frames of 2, frames of 4,
    what stream 4 still has queued). *)
Definition next_batch (order : list Z) (es : list sched_event) : option (Z * Z * Z) :=
  match sched_run (spawn default_config) es with
  | Some s =>
      let '(batch, _, sh) := drr_pass (round_budget (lim s)) order (shared s) in
      Some (bytes (of_stream 2 batch), bytes (of_stream 4 batch), bytes (queue (bucket_of sh 4)))
  | None => None
  end.

(** What a pass does to the shared state. *)
Record pass_spec (cap : Z) (sh : Shared) (batch : list frame) (more : bool) (sh1 : Shared) : Prop := {
  ps_buckets : map_Forall (bucket_wf cap) (buckets sh1);
  ps_total : total_bucket_bytes sh1 = map_sum queued_bytes (buckets sh1);
  ps_less : total_bucket_bytes sh1 = total_bucket_bytes sh - bytes batch;
  ps_bulk : Forall (fun f => is_bulk_ordered f = true) batch;
  ps_queue : forall sid, queue (bucket_of sh sid) = of_stream sid batch ++ queue (bucket_of sh1 sid);
  ps_rest : priority sh1 = priority sh /\ ingress_open sh1 = ingress_open sh
            /\ writer_done sh1 = writer_done sh;
  ps_more : more = negb (bool_decide (priority sh = [])) || has_backlog (buckets sh1) || ingress_open sh;
  ps_empty : batch = [] -> has_backlog (buckets sh1) = false;
}.

(** ** One visit of the round robin *)

Lemma payload_len_pos f : 0 <= payload_len f.
Proof. apply payload_len_nonneg. Qed.

Lemma bytes_nonneg fs : 0 <= bytes fs.
Proof. induction fs as [|f fs]; simpl; [done|]. pose proof (payload_len_pos f). lia. Qed.

Lemma bytes_app fs gs : bytes (fs ++ gs) = bytes fs + bytes gs.
Proof. induction fs; simpl; lia. Qed.

Lemma serve_loop_spec d q out d1 rest :
  serve_loop d q = (out, d1, rest) ->
  q = out ++ rest /\ d1 = d - bytes out /\ (out = [] \/ 0 <= d1)
  /\ match rest with [] => True | f :: _ => d1 < payload_len f end.
Proof.
  revert d out d1 rest. induction q as [|f q IH]; simpl; intros d out d1 rest H.
  { simplify_eq. simpl. split_and!; try done; [lia|auto]. }
  destruct (Z.ltb_spec d (payload_len f)).
  { simplify_eq. simpl. split_and!; try done; [lia|auto]. }
  destruct (serve_loop (d - payload_len f) q) as [[out1 d2] rest1] eqn:E. simplify_eq.
  destruct (IH _ _ _ _ E) as (-> & -> & H1 & H2). simpl. split_and!; try done; [lia|].
  right. destruct H1 as [-> | ?]; simpl in *; lia.
Qed.

(** A visit takes a prefix of the queue. *)
Lemma visit_split budget b out b1 :
  visit budget b = (out, b1) ->
  queue b = out ++ queue b1 /\ queued_bytes b1 = queued_bytes b - bytes out.
Proof.
  unfold visit. destruct (queue b) as [|f q] eqn:Hq.
  { intros [= <- <-]. simpl. split; [done|lia]. }
  destruct (serve_loop _ _) as [[out1 d] rest] eqn:E. intros H.
  destruct (serve_loop_spec _ _ _ _ _ E) as (Hsplit & _).
  destruct out1 as [|g out1]; simplify_eq/=; split; try done; lia.
Qed.

(** With backlog the prefix is not empty, and it is within the deficit or
    else a single frame. *)
Lemma visit_live budget b out b1 :
  visit budget b = (out, b1) -> queue b <> [] ->
  out <> [] /\ idle_passes b1 = 0 /\ deficit b1 = deficit b + budget - bytes out
  /\ (bytes out <= deficit b + budget \/ exists f, out = [f]).
Proof.
  unfold visit. destruct (queue b) as [|f q] eqn:Hq; [done|]. intros H _.
  destruct (serve_loop _ _) as [[out1 d] rest] eqn:E.
  destruct (serve_loop_spec _ _ _ _ _ E) as (Hsplit & Hd & H1 & _).
  destruct out1 as [|g out1]; simplify_eq/=; split_and!; try done; try lia; eauto.
  left. destruct H1 as [|H1]; [done|]. lia.
Qed.

Lemma visit_wf cap sid budget b out b1 :
  visit budget b = (out, b1) -> bucket_wf cap sid b ->
  bucket_wf cap sid b1 /\ Forall (fun f => is_bulk_ordered f = true /\ stream_id f = sid) out.
Proof.
  intros H [Hb Hc Hf]. destruct (visit_split _ _ _ _ H) as [Hq Hn].
  rewrite Hq in Hb, Hf. rewrite bytes_app in Hb. apply Forall_app in Hf as [Ho Hr].
  split; [|done]. split; [lia| |done]. pose proof (bytes_nonneg out). lia.
Qed.

(** ** A pass over the buckets *)

Lemma of_stream_app sid fs gs : of_stream sid (fs ++ gs) = of_stream sid fs ++ of_stream sid gs.
Proof. apply filter_app. Qed.
Lemma controls_app fs gs : controls (fs ++ gs) = controls fs ++ controls gs.
Proof. apply filter_app. Qed.

Lemma of_stream_all sid fs :
  Forall (fun f => is_bulk_ordered f = true /\ stream_id f = sid) fs -> of_stream sid fs = fs.
Proof.
  induction 1 as [|f fs Hf _ IH]; [done|]. unfold of_stream in *.
  rewrite filter_cons_True by done. by rewrite IH.
Qed.

Lemma of_stream_none sid i fs :
  Forall (fun f => is_bulk_ordered f = true /\ stream_id f = i) fs -> i <> sid ->
  of_stream sid fs = [].
Proof.
  intros H Hne. induction H as [|f fs Hf _ IH]; [done|]. unfold of_stream in *.
  rewrite filter_cons_False; [done|]. intros [_ ?]. destruct Hf. congruence.
Qed.

Lemma of_stream_controls sid fs :
  Forall (fun f => is_bulk_ordered f = false) fs -> of_stream sid fs = [] /\ controls fs = fs.
Proof.
  induction 1 as [|f fs Hf _ [IH1 IH2]]; [done|]. unfold of_stream, controls in *.
  rewrite filter_cons_False by (intros [? _]; congruence).
  rewrite filter_cons_True by done. by rewrite IH1, IH2.
Qed.

Lemma controls_bulk fs : Forall (fun f => is_bulk_ordered f = true) fs -> controls fs = [].
Proof.
  induction 1 as [|f fs Hf _ IH]; [done|]. unfold controls in *.
  rewrite filter_cons_False by congruence. done.
Qed.

Lemma visits_spec cap budget order bs outs bs1 :
  visits budget order bs = (outs, bs1) -> map_Forall (bucket_wf cap) bs ->
  map_Forall (bucket_wf cap) bs1 /\ Forall (fun f => is_bulk_ordered f = true) outs
  /\ map_sum queued_bytes bs1 = map_sum queued_bytes bs - bytes outs
  /\ (forall sid, queue (bucket_in bs sid) = of_stream sid outs ++ queue (bucket_in bs1 sid)).
Proof.
  revert bs outs. induction order as [|i order IH]; simpl; intros bs outs H Hwf.
  { simplify_eq. simpl. split_and!; try done. lia. }
  destruct (bs !! i) as [b|] eqn:Hb; [|by apply IH].
  destruct (visit budget b) as [out b1] eqn:Hv.
  destruct (visits budget order (<[i := b1]> bs)) as [outs1 bs2] eqn:E. simplify_eq.
  pose proof (Hwf i b Hb) as Hbw. destruct (visit_wf _ _ _ _ _ _ Hv Hbw) as [Hb1 Hout].
  destruct (visit_split _ _ _ _ Hv) as [Hq Hn].
  destruct (IH _ _ E) as (Hw & Hbulk & Hsum & Hqs); [by apply map_Forall_insert_2|].
  split_and!; try done.
  - apply Forall_app. split; [|done]. eapply Forall_impl; [exact Hout|]. by intros f [? _].
  - rewrite Hsum, map_sum_insert, Hb, bytes_app. simpl. lia.
  - intros sid. specialize (Hqs sid). rewrite of_stream_app. unfold bucket_in in *.
    destruct (decide (i = sid)) as [->|Hne].
    + rewrite lookup_insert_eq in Hqs. rewrite Hb. simpl in *.
      by rewrite (of_stream_all sid out Hout), Hq, Hqs, app_assoc.
    + rewrite lookup_insert_ne in Hqs by done. by rewrite (of_stream_none sid i out Hout Hne).
Qed.

Lemma visits_untouched budget order bs outs bs1 sid :
  visits budget order bs = (outs, bs1) -> sid ∉ order -> bs1 !! sid = bs !! sid.
Proof.
  revert bs outs. induction order as [|i order IH]; simpl; intros bs outs H Hs; [by simplify_eq|].
  apply not_elem_of_cons in Hs as [Hne Hs].
  destruct (bs !! i) as [b|] eqn:Hb; [|by eapply IH].
  destruct (visit budget b) as [out b1]. destruct (visits _ order _) as [outs1 bs2] eqn:E.
  simplify_eq. rewrite (IH _ _ E Hs). by rewrite lookup_insert_ne.
Qed.

(** With every bucket visited once, a stream's share of the batch is exactly
    what the visit of its bucket takes. *)
Lemma visits_exact cap budget order bs outs bs1 sid b :
  visits budget order bs = (outs, bs1) -> map_Forall (bucket_wf cap) bs -> NoDup order ->
  sid ∈ order -> bs !! sid = Some b ->
  of_stream sid outs = fst (visit budget b) /\ bs1 !! sid = Some (snd (visit budget b)).
Proof.
  revert bs outs. induction order as [|i order IH]; simpl; intros bs outs H Hwf Hnd Hs Hb.
  { by apply not_elem_of_nil in Hs. }
  apply NoDup_cons in Hnd as [Hi Hnd]. destruct (decide (i = sid)) as [->|Hne].
  - rewrite Hb in H. destruct (visit budget b) as [out b1] eqn:Hv.
    destruct (visits budget order _) as [outs1 bs2] eqn:E. simplify_eq. simpl.
    destruct (visit_wf _ _ _ _ _ _ Hv (Hwf sid b Hb)) as [Hb1 Hout].
    pose proof (visits_untouched _ _ _ _ _ _ E Hi) as Hu. rewrite lookup_insert_eq in Hu.
    split; [|done]. rewrite of_stream_app, (of_stream_all sid out Hout).
    destruct (visits_spec cap _ _ _ _ _ E) as (_ & _ & _ & Hq); [by apply map_Forall_insert_2|].
    specialize (Hq sid). unfold bucket_in in Hq. rewrite Hu, lookup_insert_eq in Hq. simpl in Hq.
    assert (of_stream sid outs1 = []) as ->; [|by rewrite app_nil_r].
    apply (f_equal length) in Hq. rewrite length_app in Hq.
    destruct (of_stream sid outs1); [done|simpl in Hq; lia].
  - apply elem_of_cons in Hs as [->|Hs]; [done|].
    destruct (bs !! i) as [c|] eqn:Hc; [|by eapply IH].
    destruct (visit budget c) as [out c1] eqn:Hv.
    destruct (visits budget order _) as [outs1 bs2] eqn:E. simplify_eq.
    destruct (visit_wf _ _ _ _ _ _ Hv (Hwf i c Hc)) as [Hc1 Hout].
    rewrite of_stream_app, (of_stream_none sid i out Hout Hne).
    eapply (IH _ _ E); [by apply map_Forall_insert_2|done|done|by rewrite lookup_insert_ne].
Qed.

Lemma has_backlog_false bs :
  has_backlog bs = false <-> map_Forall (fun _ b => queue b = []) bs.
Proof.
  unfold has_backlog. rewrite bool_decide_eq_false. split.
  - intros H i b Hb. destruct (queue b) eqn:E; [done|]. exfalso. apply H. exists i, b.
    by rewrite E.
  - intros H (i & b & Hb & Hq). apply Hq. by apply (H i b).
Qed.

Lemma has_backlog_queue bs sid : has_backlog bs = false -> queue (bucket_in bs sid) = [].
Proof.
  intros H. rewrite has_backlog_false in H. unfold bucket_in.
  destruct (bs !! sid) as [b|] eqn:Hb; [by apply (H sid b)|done].
Qed.

(** The buckets a pass keeps. *)
Lemma reap_lookup bs sid :
  queue (bucket_in (filter (fun p => reaped (snd p) = false) bs) sid) = queue (bucket_in bs sid).
Proof.
  unfold bucket_in. destruct (bs !! sid) as [b|] eqn:Hb.
  - destruct (reaped b) eqn:Hr.
    + assert (filter (fun p => reaped (snd p) = false) bs !! sid = None) as ->.
      { apply map_lookup_filter_None. right. intros c Hc. simpl. congruence. }
      simpl. unfold reaped in Hr. apply andb_true_iff in Hr as [Hq _].
      by apply bool_decide_eq_true in Hq.
    + by rewrite (map_lookup_filter_Some_2 _ _ _ b).
  - assert (filter (fun p => reaped (snd p) = false) bs !! sid = None) as ->; [|done].
    apply map_lookup_filter_None. by left.
Qed.

Lemma reap_sum cap bs :
  map_Forall (bucket_wf cap) bs ->
  map_sum queued_bytes (filter (fun p => reaped (snd p) = false) bs) = map_sum queued_bytes bs.
Proof.
  intros Hwf. apply map_sum_filter. intros i b Hb. simpl. destruct (reaped b) eqn:Hr; [right|by left].
  destruct (Hwf i b Hb) as [Hn _ _]. rewrite Hn. unfold reaped in Hr.
  apply andb_true_iff in Hr as [Hq _]. apply bool_decide_eq_true in Hq. by rewrite Hq.
Qed.

Lemma fold_record_emission fs sh :
  let sh1 := fold_left record_emission fs sh in
  priority sh1 = priority sh /\ buckets sh1 = buckets sh
  /\ total_bucket_bytes sh1 = total_bucket_bytes sh /\ ingress_open sh1 = ingress_open sh
  /\ writer_done sh1 = writer_done sh.
Proof.
  revert sh. induction fs as [|f fs IH]; intros sh; simpl; [done|].
  destruct (IH (record_emission sh f)) as (-> & -> & -> & -> & ->). done.
Qed.

Lemma order_covers (bs : gmap Z Bucket) order :
  order ≡ₚ map fst (map_to_list bs) -> NoDup order /\ forall sid, is_Some (bs !! sid) -> sid ∈ order.
Proof.
  intros Hp. split.
  - rewrite Hp. apply NoDup_fst_map_to_list.
  - intros sid [b Hb]. rewrite Hp. apply list_elem_of_fmap.
    exists (sid, b). split; [done|]. by apply elem_of_map_to_list.
Qed.

Lemma drr_pass_spec cap budget order sh batch more sh1 :
  drr_pass budget order sh = (batch, more, sh1) ->
  order ≡ₚ map fst (map_to_list (buckets sh)) ->
  map_Forall (bucket_wf cap) (buckets sh) ->
  total_bucket_bytes sh = map_sum queued_bytes (buckets sh) ->
  pass_spec cap sh batch more sh1.
Proof.
  unfold drr_pass. destruct (visits budget order (buckets sh)) as [outs bs] eqn:E.
  intros H Hord Hwf Htot. simplify_eq.
  destruct (visits_spec cap _ _ _ _ _ E Hwf) as (Hw & Hbulk & Hsum & Hq).
  set (bs1 := filter _ bs).
  destruct (fold_record_emission batch (set_buckets sh bs1 (total_bucket_bytes sh - bytes batch)
    (classified_frames sh))) as (Hp & Hb & Ht & Hi & Hwd).
  assert (forall sid, queue (bucket_in bs1 sid) = queue (bucket_in bs sid)) as Hreap
    by apply reap_lookup.
  split.
  - rewrite Hb. simpl. intros i b Hib. apply map_lookup_filter_Some in Hib as [Hib _]. by apply Hw.
  - rewrite Ht, Hb. simpl. subst bs1. rewrite (reap_sum cap) by done. lia.
  - by rewrite Ht.
  - done.
  - intros sid. unfold bucket_of. rewrite Hb. simpl. by rewrite Hreap.
  - done.
  - by rewrite Hb.
  - intros ->. rewrite Hb. apply has_backlog_false. intros i b Hib. simpl in Hib.
    specialize (Hreap i). unfold bucket_in in Hreap. rewrite Hib in Hreap. simpl in Hreap.
    rewrite Hreap. specialize (Hq i). simpl in Hq. unfold bucket_in in Hq. rewrite <- Hq.
    destruct (buckets sh !! i) as [c|] eqn:Hc; [|done]. simpl.
    destruct (order_covers _ _ Hord) as [Hnd Hcov].
    destruct (visits_exact cap _ _ _ _ _ i c E Hwf Hnd) as [Hv _]; [by apply Hcov|done|].
    destruct (queue c) eqn:Hqc; [done|]. destruct (visit budget c) as [out c1] eqn:Hvc.
    destruct (visit_live _ _ _ _ Hvc) as [Hne _]; [by rewrite Hqc|]. exfalso. apply Hne. simpl in Hv. by rewrite <- Hv.
Qed.

(** ** Placing a bulk frame *)

Lemma bucket_wf_new cap sid : 0 <= cap -> bucket_wf cap sid new_bucket.
Proof. by split. Qed.

Lemma bucket_of_wf s sid : sched_wf s -> bucket_wf (bucket_capacity (lim s)) sid (bucket_of (shared s) sid).
Proof.
  intros Hwf. unfold bucket_of, bucket_in. destruct (buckets (shared s) !! sid) as [b|] eqn:Hb.
  - by apply (sw_buckets _ Hwf).
  - apply bucket_wf_new. destruct (sw_limits _ Hwf) as ([H _] & _). unfold MAX_FRAME_PAYLOAD in H. lia.
Qed.

Lemma sum_at (bs : gmap Z Bucket) sid :
  from_option queued_bytes 0 (bs !! sid) = queued_bytes (bucket_in bs sid).
Proof. unfold bucket_in. by destruct (bs !! sid). Qed.

Lemma has_backlog_insert_same bs sid :
  has_backlog (<[sid := bucket_in bs sid]> bs) = has_backlog bs.
Proof.
  unfold has_backlog. apply bool_decide_ext. unfold bucket_in. split.
  - intros (i & b & [[<- <-]|[Hne Hb]]%lookup_insert_Some & Hq); [|by exists i, b].
    destruct (bs !! sid) as [b|] eqn:E; [by exists sid, b|done].
  - intros (i & b & Hb & Hq). exists i, b. split; [|done].
    destruct (decide (sid = i)) as [->|]; [by rewrite lookup_insert_eq, Hb|by rewrite lookup_insert_ne].
Qed.

Lemma bucket_in_insert_same bs sid i :
  bucket_in (<[sid := bucket_in bs sid]> bs) i = bucket_in bs i.
Proof.
  unfold bucket_in. destruct (decide (sid = i)) as [->|]; [by rewrite lookup_insert_eq|].
  by rewrite lookup_insert_ne.
Qed.

(** The outcomes of [enqueue_bucket], as updates of the shared state. *)
Lemma enqueue_bucket_cases l sh f :
  match enqueue_bucket l sh f with
  | Drop => writer_done sh = true
  | Fits sh1 => writer_done sh = false /\ fits_now l sh f
      /\ priority sh1 = priority sh /\ ingress_open sh1 = ingress_open sh
      /\ writer_done sh1 = false
      /\ total_bucket_bytes sh1 = total_bucket_bytes sh + payload_len f
      /\ exists b, buckets sh1 = <[stream_id f := b]> (buckets sh)
           /\ queue b = queue (bucket_of sh (stream_id f)) ++ [f]
           /\ queued_bytes b = queued_bytes (bucket_of sh (stream_id f)) + payload_len f
  | Park sh1 g => writer_done sh = false /\ ~ fits_now l sh f /\ g = f
      /\ priority sh1 = priority sh /\ ingress_open sh1 = ingress_open sh
      /\ writer_done sh1 = false
      /\ total_bucket_bytes sh1 = total_bucket_bytes sh
      /\ buckets sh1 = <[stream_id f := bucket_of sh (stream_id f)]> (buckets sh)
  end.
Proof.
  unfold enqueue_bucket, fits_now. destruct (writer_done sh) eqn:Hw; [done|].
  destruct (Z.leb_spec (queued_bytes (bucket_of sh (stream_id f)) + payload_len f) (bucket_capacity l)),
    (Z.leb_spec (total_bucket_bytes sh + payload_len f) (link_budget l)); simpl;
    split_and!; try done; try lia; eauto.
Qed.

Lemma place_bulk_wf s bk space f :
  sched_wf s -> consumer_done (cons s) = false -> bulk_frame f ->
  Forall bulk_frame bk -> len bk <= fifo_capacity (lim s) ->
  (bulk_closed (cons s) = true -> bk = [] /\ producers s = false) ->
  sched_wf (place_bulk s bk space f).
Proof.
  intros Hwf Hcd [Hbf Hlen] Hbk Hfifo Hcl. unfold place_bulk.
  pose proof (enqueue_bucket_cases (lim s) (shared s) f) as H.
  pose proof (sw_done _ Hwf) as Hd. rewrite Hcd in Hd.
  assert (ingress_open (shared s) = true) as Hopen by (by destruct (ingress_open (shared s))).
  pose proof (bucket_of_wf s (stream_id f) Hwf) as Hb.
  destruct (enqueue_bucket _ _ _) as [sh|sh g|].
  - destruct H as (Hw & [Hf1 Hf2] & Hp & Hi & Hw1 & Ht & b & Hbs & Hq & Hn).
    split; simpl; try apply Hwf; try done; rewrite ?Hp, ?Hi, ?Hw1, ?Ht; try apply Hwf; try done.
    + rewrite Hbs. apply map_Forall_insert_2; [|apply Hwf]. destruct Hb as [Hb1 Hb2 Hb3].
      split; rewrite ?Hn, ?Hq; [rewrite Hb1, bytes_app; simpl; lia|lia|].
      apply Forall_app. split; [done|]. by repeat constructor.
    + rewrite Hbs, map_sum_insert, sum_at, Hn. rewrite (sw_total _ Hwf). unfold bucket_of. lia.
    + split; [done|apply Hwf].
    + congruence.
    + intros Hs He. destruct (sw_ending _ Hwf Hs He). congruence.
  - destruct H as (Hw & Hnf & -> & Hp & Hi & Hw1 & Ht & Hbs).
    split; simpl; try apply Hwf; try done; rewrite ?Hp, ?Hi, ?Hw1, ?Ht; try apply Hwf; try done.
    + rewrite Hbs. apply map_Forall_insert_2; [done|apply Hwf].
    + rewrite Hbs, map_sum_insert, sum_at. rewrite (sw_total _ Hwf). unfold bucket_of. lia.
    + split; [done|apply Hwf].
    + by repeat constructor.
    + congruence.
    + intros Hs He. destruct (sw_ending _ Hwf Hs He). congruence.
    + intros g [= <-] _. split; [done|]. unfold fits_now in *. unfold bucket_of in *.
      by rewrite Ht, Hbs, bucket_in_insert_same.
    + intros Hwk. pose proof (sw_work _ Hwf Hwk) as Hq. unfold quiet, idle in *.
      rewrite Hp, Hi, Hbs. unfold bucket_of. by rewrite has_backlog_insert_same.
  - split; simpl; try apply Hwf; try done.
    + split; [done|apply Hwf].
    + congruence.
Qed.

(** ** Preservation *)

Lemma spawn_wf c : sched_wf (spawn c).
Proof.
  split; simpl; try done.
  - unfold limits_ok, floors. simpl. lia.
  - unfold MAX_FRAME_PAYLOAD. lia.
  - unfold len. simpl. lia.
Qed.

Lemma try_send_wf s f s1 :
  sched_wf s -> payload_len f <= MAX_FRAME_PAYLOAD -> producers s = true ->
  try_send s f = Ok s1 -> sched_wf s1.
Proof.
  unfold try_send. intros Hwf Hlen Hpr H. destruct (consumer_done (cons s)) eqn:Hd; [done|].
  destruct (Z.leb_spec (fifo_capacity (lim s)) (len (if is_bulk_ordered f then bulk s else control s)));
    [done|]. simplify_eq.
  assert (forall fs : list frame, len (fs ++ [f]) = len fs + 1) as Hl
    by (intros; unfold len; rewrite length_app; simpl; lia).
  split; simpl; try apply Hwf.
  - destruct (is_bulk_ordered f) eqn:Hb; [|apply Hwf]. apply Forall_app. split; [apply Hwf|].
    by repeat constructor.
  - destruct (is_bulk_ordered f) eqn:Hb; [apply Hwf|]. apply Forall_app. split; [apply Hwf|].
    by repeat constructor.
  - destruct (sw_fifos _ Hwf). destruct (is_bulk_ordered f); rewrite ?Hl; split; lia.
  - intros Hc. destruct (sw_bulk_closed _ Hwf Hc). congruence.
  - intros Hc. destruct (sw_control_closed _ Hwf Hc). congruence.
Qed.

Lemma push_priority_wf s ct bk f :
  sched_wf s -> consumer_done (cons s) = false -> is_bulk_ordered f = false ->
  Forall bulk_frame bk -> len bk <= fifo_capacity (lim s) ->
  Forall (fun f => is_bulk_ordered f = false) ct -> len ct <= fifo_capacity (lim s) ->
  (bulk_closed (cons s) = true -> bk = [] /\ producers s = false) ->
  (control_closed (cons s) = true -> ct = [] /\ producers s = false) ->
  sched_wf (with_consumer s bk ct (push_priority (shared s) f) (cons s) true (space_freed s)).
Proof.
  intros Hwf Hcd Hf Hbk Hbl Hct Hcl Hb Hc.
  pose proof (sw_done _ Hwf) as Hd. rewrite Hcd in Hd.
  split; simpl; try apply Hwf; try done.
  - apply Forall_app. split; [apply Hwf|]. by repeat constructor.
  - intros Hs He. destruct (sw_ending _ Hwf Hs He) as [_ Ho]. by rewrite Ho in Hd.
Qed.

Lemma tail_len {A} (x : A) l n : len (x :: l) <= n -> len l <= n.
Proof. unfold len. simpl. lia. Qed.

Lemma consumer_step_wf s s1 : sched_wf s -> consumer_step s = Some s1 -> sched_wf s1.
Proof.
  unfold consumer_step. intros Hwf H. destruct (consumer_done (cons s)) eqn:Hcd; [done|].
  destruct (sw_fifos _ Hwf) as [Hlb Hlc].
  destruct (bulk_closed (cons s) && control_closed (cons s)
            && negb (bool_decide (is_Some (parked (cons s))))) eqn:Hfin.
  { apply andb_true_iff in Hfin as [[Hb Hc]%andb_true_iff Hp%negb_true_iff%bool_decide_eq_false].
    assert (parked (cons s) = None) as Hpn by (by apply eq_None_not_Some). simplify_eq.
    split; simpl; try apply Hwf; try done.
    intros Hs He. destruct (sw_ending _ Hwf Hs He) as [Hi _]. done. }
  destruct (if space_freed s then parked (cons s) else None) as [f|] eqn:Hret.
  { destruct (space_freed s); [|done]. simplify_eq. pose proof (sw_parked _ Hwf) as Hpf.
    unfold parked_frames in Hpf. rewrite Hret in Hpf. apply Forall_cons in Hpf as [Hpf _].
    apply place_bulk_wf; try done; apply Hwf. }
  destruct (control s) as [|g ct] eqn:Hct.
  2: { pose proof (sw_control _ Hwf) as Hcf. rewrite Hct in Hcf. apply Forall_cons in Hcf as [Hg Hcf].
       simplify_eq. apply push_priority_wf; try done; try apply Hwf; [by eapply tail_len|].
       intros Hc. destruct (sw_control_closed _ Hwf Hc). congruence. }
  destruct (negb (control_closed (cons s)) && negb (producers s)) eqn:Hclose.
  { apply andb_true_iff in Hclose as [_ Hpr%negb_true_iff]. simplify_eq.
    rewrite <- Hct. split; simpl; try apply Hwf; try done. by rewrite <- (sw_done _ Hwf). }
  destruct (parked (cons s)) as [f|] eqn:Hpk; [done|].
  destruct (bulk s) as [|g bk] eqn:Hbk.
  - destruct (negb (bulk_closed (cons s)) && negb (producers s)) eqn:Hbc; [|done].
    apply andb_true_iff in Hbc as [_ Hpr%negb_true_iff]. simplify_eq.
    split; simpl; try apply Hwf; try done. by rewrite <- (sw_done _ Hwf).
  - pose proof (sw_bulk _ Hwf) as Hbf. rewrite Hbk in Hbf. apply Forall_cons in Hbf as [Hg Hbf].
    rewrite (proj1 Hg) in H. simplify_eq. apply place_bulk_wf; try done; [by eapply tail_len|].
    intros Hc. destruct (sw_bulk_closed _ Hwf Hc). congruence.
Qed.

(** A step of the writer that touches only its program counter (and the
    wire). *)
Lemma writer_goto_wf s p work space w :
  sched_wf s ->
  match p with
  | WPriority rest _ => Forall (fun f => is_bulk_ordered f = false) rest
  | WBatch rest _ _ _ => Forall (fun f => is_bulk_ordered f = true) rest
  | _ => True
  end ->
  (writer_done (shared s) = true -> p = WGone) ->
  (socket_ok s = true -> ending p = true -> idle (shared s) /\ ingress_open (shared s) = false) ->
  (space = false -> space_freed s = false) ->
  (work = false -> quiet p (shared s)) ->
  sched_wf (with_writer s (shared s) p work space w).
Proof.
  intros Hwf Hh Hd He Hsp Hq. split; simpl; try apply Hwf; try done.
  intros f Hf Hs. apply (sw_space _ Hwf f Hf). auto.
Qed.

Lemma drain_priority_wf s :
  sched_wf s -> pc s = WDrain ->
  let '(batch, sh) := drain_priority (shared s) in
  sched_wf (with_writer s sh (WPriority batch (is_nil batch)) (work_available s) (space_freed s) (wire s)).
Proof.
  intros Hwf Hpc. unfold drain_priority.
  match goal with |- context [fold_left record_emission ?fs ?sh] =>
    destruct (fold_record_emission fs sh) as (Hp & Hb & Ht & Hi & Hw) end.
  simpl in *. split; simpl; rewrite ?Hp, ?Hb, ?Ht, ?Hi, ?Hw; try apply Hwf; try done.
  - intros Hwd. pose proof (sw_writer_done _ Hwf Hwd). congruence.
  - intros f Hf Hs. destruct (sw_space _ Hwf f Hf Hs) as [Hwd Hnf]. split; [done|].
    unfold fits_now, bucket_of in *. by rewrite Ht, Hb.
  - intros _. by case_match.
Qed.

Lemma bytes_zero_nil_fits l sh sh1 cap batch more f :
  pass_spec cap sh batch more sh1 -> batch = [] ->
  map_Forall (bucket_wf cap) (buckets sh) -> fits_now l sh1 f -> fits_now l sh f.
Proof.
  intros Hps -> Hwf [H1 H2]. destruct Hps as [Hb1 Ht1 Hl1 _ Hq _ _ _]. simpl in Hl1.
  specialize (Hq (stream_id f)). simpl in Hq.
  assert (forall bs, map_Forall (bucket_wf cap) bs ->
    queued_bytes (bucket_in bs (stream_id f)) = bytes (queue (bucket_in bs (stream_id f)))) as Hqb.
  { intros bs Hbs. unfold bucket_in. destruct (bs !! stream_id f) as [b|] eqn:E; [|done].
    by destruct (Hbs _ _ E). }
  unfold fits_now, bucket_of in *. rewrite Hqb in H1 |- * by done. rewrite Hq. lia.
Qed.

Lemma drr_pass_wf s pe order batch more sh :
  sched_wf s -> pc s = WPass pe -> order ≡ₚ map fst (map_to_list (buckets (shared s))) ->
  drr_pass (round_budget (lim s)) order (shared s) = (batch, more, sh) ->
  sched_wf (with_writer s sh (WBatch batch more (is_nil batch) pe) (work_available s)
              (space_freed s || negb (is_nil batch)) (wire s)).
Proof.
  intros Hwf Hpc Hord H.
  pose proof (drr_pass_spec (bucket_capacity (lim s)) _ _ _ _ _ _ H Hord (sw_buckets _ Hwf)
    (sw_total _ Hwf)) as Hps.
  pose proof Hps as [Hb Ht Hl Hbulk Hq (Hp & Hi & Hw) Hm Hem].
  pose proof (bytes_nonneg batch) as Hbn.
  split; simpl; rewrite ?Hp, ?Hi, ?Hw; try apply Hwf; try done.
  - rewrite Hl. pose proof (sw_budget _ Hwf). lia.
  - intros Hwd. pose proof (sw_writer_done _ Hwf Hwd). congruence.
  - intros Hso He. destruct more; [done|]. symmetry in Hm.
    apply orb_false_iff in Hm as [[Hpr Hbl]%orb_false_iff Hio]. split; [|done].
    split; [|done]. rewrite Hp. by apply negb_false_iff, bool_decide_eq_true in Hpr.
  - intros f Hf Hs. apply orb_false_iff in Hs as [Hs Hnil]. destruct batch; [|done].
    destruct (sw_space _ Hwf f Hf Hs) as [Hwd Hnf]. split; [done|].
    intros Hfit. apply Hnf. eapply bytes_zero_nil_fits; eauto. apply Hwf.
  - intros Hwk. destruct more, batch, pe; try done.
    pose proof (sw_work _ Hwf Hwk) as Hqt. rewrite Hpc in Hqt. simpl in Hqt.
    rewrite Hqt in Hm. simpl in Hm. rewrite (Hem eq_refl) in Hm. simpl in *.
    split; [|by rewrite ?Hi, <- Hm]. split; [by rewrite Hp|by apply Hem].
Qed.

Lemma quiet_after_batch s more be pe :
  sched_wf s -> pc s = WBatch [] more be pe -> work_available s = false ->
  quiet (after_batch more be pe) (shared s).
Proof.
  intros Hwf Hpc Hwk. pose proof (sw_work _ Hwf Hwk) as Hq. rewrite Hpc in Hq.
  unfold after_batch. by destruct more, be, pe.
Qed.

Lemma writer_step_wf order s s1 :
  sched_wf s -> order ≡ₚ map fst (map_to_list (buckets (shared s))) ->
  writer_step order s = Some s1 -> sched_wf s1.
Proof.
  intros Hwf Hord H. unfold writer_step in H.
  pose proof (sw_hand _ Hwf) as Hh. pose proof (sw_ending _ Hwf) as Hend.
  pose proof (sw_writer_done _ Hwf) as Hwd. pose proof (sw_work _ Hwf) as Hqt.
  destruct (pc s) as [|[|f rest] pe|pe|[|f rest] more be pe| | |] eqn:Hpc.
  - pose proof (drain_priority_wf s Hwf Hpc) as Hd. destruct (drain_priority _). by simplify_eq.
  - simplify_eq. apply writer_goto_wf; try done. intros Hd. by specialize (Hwd Hd).
  - apply Forall_cons in Hh as [Hf Hh]. destruct (socket_ok s) eqn:Hso; simplify_eq;
      apply writer_goto_wf; try done; try (intros Hd; by specialize (Hwd Hd)).
    by rewrite Hso.
  - destruct (drr_pass _ _ _) as [[batch more] sh] eqn:E. simplify_eq. by eapply drr_pass_wf.
  - simplify_eq. apply writer_goto_wf; try done.
    + unfold after_batch. by destruct more, be, pe.
    + intros Hd. by specialize (Hwd Hd).
    + intros Hso He. apply Hend; [done|]. unfold after_batch in He. by destruct more, be, pe.
    + intros Hwk. by apply quiet_after_batch.
  - apply Forall_cons in Hh as [Hf Hh]. destruct (socket_ok s) eqn:Hso; simplify_eq;
      apply writer_goto_wf; try done; try (intros Hd; by specialize (Hwd Hd)).
    + intros _ He. by apply Hend.
    + by rewrite Hso.
  - destruct (work_available s) eqn:Hwk; [|done]. simplify_eq.
    apply writer_goto_wf; try done. intros Hd. by specialize (Hwd Hd).
  - simplify_eq. split; simpl; try apply Hwf; try done.
  - done.
Qed.

Lemma sched_exec_wf s e s1 :
  sched_wf s -> sched_event_ok e -> sched_exec s e = Some s1 -> sched_wf s1.
Proof.
  intros Hwf Hok H. destruct e as [f| | |order|]; simpl in *.
  - destruct (producers s) eqn:Hp; [|done].
    destruct (try_send s f) as [s2|] eqn:E; simplify_eq. by eapply try_send_wf.
  - simplify_eq. split; simpl; try apply Hwf; [intros Hc; by destruct (sw_bulk_closed _ Hwf Hc)|].
    intros Hc. by destruct (sw_control_closed _ Hwf Hc).
  - by eapply consumer_step_wf.
  - case_decide; [|done]. by eapply writer_step_wf.
  - simplify_eq. split; simpl; try apply Hwf; done.
Qed.

Lemma sched_run_wf s es s1 :
  sched_wf s -> Forall sched_event_ok es -> sched_run s es = Some s1 -> sched_wf s1.
Proof.
  intros Hwf Hes. revert s Hwf. induction Hes as [|e es Hok _ IH]; simpl; intros s Hwf H.
  { by simplify_eq. }
  destruct (sched_exec s e) as [s2|] eqn:E; [|done]. eapply IH; [|done]. by eapply sched_exec_wf.
Qed.

(** ** Nothing is lost or reordered *)

Lemma not_writer_done s :
  sched_wf s -> socket_ok s = true -> consumer_done (cons s) = false ->
  writer_done (shared s) = false.
Proof.
  intros Hwf Hso Hcd. destruct (writer_done (shared s)) eqn:Hwd; [|done].
  pose proof (sw_writer_done _ Hwf Hwd) as Hpc.
  destruct (sw_ending _ Hwf Hso) as [_ Hi]; [by rewrite Hpc|].
  pose proof (sw_done _ Hwf) as Hd. rewrite Hi, Hcd in Hd. done.
Qed.

Lemma of_stream_one sid f :
  is_bulk_ordered f = true ->
  of_stream sid [f] = if decide (stream_id f = sid) then [f] else [].
Proof.
  intros Hb. unfold of_stream. case_decide as Hs.
  - by rewrite filter_cons_True by done.
  - rewrite filter_cons_False; [done|]. by intros [_ ?].
Qed.

(** Placing [f] keeps it between the bucket and the FIFO. *)
Lemma place_bulk_pipeline s bk space f sid :
  sched_wf s -> socket_ok s = true -> consumer_done (cons s) = false ->
  is_bulk_ordered f = true ->
  let s1 := place_bulk s bk space f in
  queue (bucket_of (shared s1) sid) ++ of_stream sid (parked_frames (cons s1)) ++ of_stream sid (bulk s1)
  = queue (bucket_of (shared s) sid) ++ of_stream sid [f] ++ of_stream sid bk
  /\ wire s1 = wire s /\ pc s1 = pc s /\ priority (shared s1) = priority (shared s)
  /\ control s1 = control s /\ socket_ok s1 = socket_ok s.
Proof.
  intros Hwf Hso Hcd Hf. pose proof (not_writer_done s Hwf Hso Hcd) as Hnd.
  unfold place_bulk. pose proof (enqueue_bucket_cases (lim s) (shared s) f) as H.
  destruct (enqueue_bucket _ _ _) as [sh|sh g|]; simpl; [| |congruence].
  - destruct H as (_ & _ & Hp & _ & _ & _ & b & Hbs & Hq & _). split_and!; try done.
    rewrite (of_stream_one sid f Hf). unfold bucket_of, bucket_in in *. rewrite Hbs.
    case_decide as Hs.
    + subst. rewrite lookup_insert_eq. simpl. rewrite Hq. by rewrite <- app_assoc.
    + by rewrite lookup_insert_ne.
  - destruct H as (_ & _ & -> & Hp & _ & _ & _ & Hbs). split_and!; try done.
    unfold bucket_of in *. by rewrite Hbs, bucket_in_insert_same.
Qed.

Lemma pipelines_refl s s1 :
  wire s1 = wire s -> in_hand (pc s1) = in_hand (pc s) ->
  (forall sid, queue (bucket_of (shared s1) sid) = queue (bucket_of (shared s) sid)) ->
  parked (cons s1) = parked (cons s) -> bulk s1 = bulk s ->
  priority (shared s1) = priority (shared s) -> control s1 = control s ->
  pipelines_extend s s1 [].
Proof.
  intros Hw Hh Hq Hp Hb Hpr Hc. unfold pipelines_extend, bulk_pipeline, control_pipeline, parked_frames.
  rewrite Hw, Hh, Hp, Hb, Hpr, Hc. split; [intros sid; rewrite Hq|]; by rewrite app_nil_r.
Qed.

Lemma try_send_pipelines s f s1 :
  try_send s f = Ok s1 -> pipelines_extend s s1 [f].
Proof.
  unfold try_send. intros H. do 2 (case_match; [done|]). simplify_eq.
  unfold pipelines_extend, bulk_pipeline, control_pipeline. simpl.
  destruct (is_bulk_ordered f) eqn:Hb; split; [intros sid|..].
  - by rewrite of_stream_app, !app_assoc.
  - rewrite (controls_bulk [f]) by (by repeat constructor). by rewrite app_nil_r.
  - intros sid. destruct (of_stream_controls sid [f]) as [-> _]; [by repeat constructor|].
    by rewrite app_nil_r.
  - destruct (of_stream_controls 0 [f]) as [_ ->]; [by repeat constructor|]. by rewrite !app_assoc.
Qed.

Lemma push_priority_pipelines s f ct :
  control s = f :: ct -> is_bulk_ordered f = false ->
  pipelines_extend s
    (with_consumer s (bulk s) ct (push_priority (shared s) f) (cons s) true (space_freed s)) [].
Proof.
  intros Hct Hf. unfold pipelines_extend, bulk_pipeline, control_pipeline. simpl. split.
  - intros sid. by rewrite app_nil_r.
  - by rewrite Hct, <- !app_assoc, app_nil_r.
Qed.

Lemma consumer_step_pipelines s s1 :
  sched_wf s -> socket_ok s = true -> consumer_step s = Some s1 ->
  pipelines_extend s s1 [] /\ socket_ok s1 = true.
Proof.
  unfold consumer_step. intros Hwf Hso H. destruct (consumer_done (cons s)) eqn:Hcd; [done|].
  case_match; [simplify_eq; split; [by apply pipelines_refl|done]|].
  assert (Hplace : forall f bk space, is_bulk_ordered f = true ->
    (forall sid, of_stream sid (parked_frames (cons s)) ++ of_stream sid (bulk s)
                 = of_stream sid [f] ++ of_stream sid bk) ->
    pipelines_extend s (place_bulk s bk space f) [] /\ socket_ok (place_bulk s bk space f) = true).
  { intros f bk space Hf Heq. split.
    - split; [intros sid|].
      + destruct (place_bulk_pipeline s bk space f sid Hwf Hso Hcd Hf) as (Hq & Hw & Hp & _).
        unfold bulk_pipeline. rewrite Hw, Hp, Hq, <- Heq. by rewrite app_nil_r.
      + destruct (place_bulk_pipeline s bk space f 0 Hwf Hso Hcd Hf) as (_ & Hw & Hp & Hpr & Hc & _).
        unfold control_pipeline. rewrite Hw, Hp, Hpr, Hc. by rewrite app_nil_r.
    - by destruct (place_bulk_pipeline s bk space f 0 Hwf Hso Hcd Hf) as (_ & _ & _ & _ & _ & ->). }
  destruct (if space_freed s then parked (cons s) else None) as [f|] eqn:Hret.
  { destruct (space_freed s); [|done]. simplify_eq.
    pose proof (sw_parked _ Hwf) as Hpf. unfold parked_frames in Hpf, Hplace. rewrite Hret in *.
    apply Forall_cons in Hpf as [[Hpf _] _]. by apply Hplace. }
  destruct (control s) as [|g ct] eqn:Hct.
  2: { pose proof (sw_control _ Hwf) as Hcf. rewrite Hct in Hcf. apply Forall_cons in Hcf as [Hg _].
       simplify_eq. split; [by apply push_priority_pipelines|done]. }
  case_match; [simplify_eq; split; [by apply pipelines_refl|done]|].
  unfold parked_frames in Hplace. destruct (parked (cons s)) as [f|] eqn:Hpk; [done|].
  destruct (bulk s) as [|g bk] eqn:Hbk.
  - case_match; [|done]. simplify_eq. split; [by apply pipelines_refl|done].
  - pose proof (sw_bulk _ Hwf) as Hbf. rewrite Hbk in Hbf. apply Forall_cons in Hbf as [[Hg _] _].
    rewrite Hg in H. simplify_eq. apply Hplace; [done|]. intros sid. simpl.
    change (g :: bk) with ([g] ++ bk). by rewrite of_stream_app.
Qed.

Lemma write_pipelines s f rest p :
  in_hand (pc s) = f :: rest -> in_hand p = rest ->
  pipelines_extend s
    (with_writer s (shared s) p (work_available s) (space_freed s) (wire s ++ [f])) [].
Proof.
  intros Hh <-. unfold pipelines_extend, bulk_pipeline, control_pipeline. simpl. rewrite Hh.
  change (f :: in_hand p) with ([f] ++ in_hand p).
  split; [intros sid; rewrite !of_stream_app|rewrite !controls_app];
    by rewrite <- !app_assoc, !app_nil_r.
Qed.

Lemma writer_step_pipelines order s s1 :
  sched_wf s -> socket_ok s = true -> order ≡ₚ map fst (map_to_list (buckets (shared s))) ->
  writer_step order s = Some s1 -> pipelines_extend s s1 [] /\ socket_ok s1 = true.
Proof.
  intros Hwf Hso Hord H. unfold writer_step in H.
  destruct (pc s) as [|[|f rest] pe|pe|[|f rest] more be pe| | |] eqn:Hpc; rewrite ?Hso in H.
  - unfold drain_priority in H. simplify_eq. split; [|done].
    match goal with |- context [fold_left record_emission ?fs ?sh] =>
      destruct (fold_record_emission fs sh) as (Hp & Hb & _) end.
    destruct (of_stream_controls 0 _ (sw_priority _ Hwf)) as [_ Hc].
    split; [intros sid; destruct (of_stream_controls sid _ (sw_priority _ Hwf)) as [Hz _]|];
      unfold bulk_pipeline, control_pipeline, bucket_of; simpl; rewrite ?Hp, ?Hb, Hpc; simpl.
    + by rewrite Hz, app_nil_r.
    + by rewrite Hc, app_nil_r.
  - simplify_eq. split; [|done]. apply pipelines_refl; try done. by rewrite Hpc.
  - simplify_eq. split; [|done]. apply write_pipelines with rest; [by rewrite Hpc|done].
  - destruct (drr_pass _ _ _) as [[batch more] sh] eqn:E. simplify_eq. split; [|done].
    pose proof (drr_pass_spec (bucket_capacity (lim s)) _ _ _ _ _ _ E Hord (sw_buckets _ Hwf)
      (sw_total _ Hwf)) as [_ _ _ Hbulk Hq (Hp & _) _ _].
    split; unfold bulk_pipeline, control_pipeline; simpl; rewrite Hpc; simpl.
    + intros sid. rewrite (Hq sid), <- !app_assoc. by rewrite app_nil_r.
    + rewrite Hp, (controls_bulk batch Hbulk). by rewrite app_nil_r.
  - simplify_eq. split; [|done]. apply pipelines_refl; try done. rewrite Hpc.
    unfold after_batch. by destruct more, be, pe.
  - simplify_eq. split; [|done]. apply write_pipelines with rest; [by rewrite Hpc|done].
  - case_match; [|done]. simplify_eq. split; [|done]. apply pipelines_refl; try done. by rewrite Hpc.
  - simplify_eq. split; [|done]. apply pipelines_refl; try done. by rewrite Hpc.
  - done.
Qed.

Lemma sched_run_pipelines s es s1 :
  sched_wf s -> socket_ok s = true -> Forall sched_event_ok es -> (SBreak ∉ es) ->
  sched_run s es = Some s1 -> pipelines_extend s s1 (sent es) /\ socket_ok s1 = true.
Proof.
  intros Hwf Hso Hes. revert s Hwf Hso.
  induction Hes as [|e es Hok _ IH]; simpl; intros s Hwf Hso Hnb H.
  { simplify_eq. split; [by apply pipelines_refl|done]. }
  apply not_elem_of_cons in Hnb as [Hne Hnb].
  destruct (sched_exec s e) as [s2|] eqn:E; [|done].
  assert (pipelines_extend s s2 (sent_by e) /\ socket_ok s2 = true) as [[Hb Hc] Hso2].
  { destruct e as [f| | |order|]; simpl in *; try done.
    - case_match; [|done]. destruct (try_send s f) as [s3|] eqn:Et; simplify_eq.
      split; [by apply try_send_pipelines|]. unfold try_send in Et. by repeat case_match; simplify_eq.
    - simplify_eq. split; [by apply pipelines_refl|done].
    - by apply consumer_step_pipelines.
    - case_decide; [|done]. by eapply writer_step_pipelines. }
  destruct (IH s2) as [[Hb2 Hc2] Hso3]; [by eapply sched_exec_wf|done..|].
  split; [|done]. unfold sent. simpl. split.
  - intros sid. by rewrite Hb2, Hb, of_stream_app, app_assoc.
  - by rewrite Hc2, Hc, controls_app, app_assoc.
Qed.

(** ** Progress *)

Lemma wait_free_writer order s : pc s <> WGone -> (pc s = WParked -> work_available s = true) ->
  exists s1, writer_step order s = Some s1.
Proof.
  intros Hg Hp. unfold writer_step. destruct (pc s) as [|[|f rest] pe|pe|[|f rest] more be pe| | |];
    repeat case_match; eauto; try done. by specialize (Hp eq_refl); congruence.
Qed.

Lemma idle_fits s f :
  sched_wf s -> has_backlog (buckets (shared s)) = false -> payload_len f <= MAX_FRAME_PAYLOAD ->
  fits_now (lim s) (shared s) f.
Proof.
  intros Hwf Hi Hf. destruct (sw_limits _ Hwf) as ([H1 H2] & _).
  assert (map_Forall (fun _ b => queued_bytes b = 0) (buckets (shared s))) as Hz.
  { intros i b Hb. destruct (sw_buckets _ Hwf i b Hb) as [-> _ _].
    rewrite has_backlog_false in Hi. by rewrite (Hi i b Hb). }
  split.
  - unfold bucket_of, bucket_in. destruct (buckets (shared s) !! stream_id f) as [b|] eqn:Hb; simpl; [|lia].
    rewrite (Hz _ _ Hb). lia.
  - rewrite (sw_total _ Hwf), (map_sum_zero _ _ Hz). lia.
Qed.

Lemma busy_progress s order :
  sched_wf s -> busy s ->
  (exists s1, consumer_step s = Some s1) \/ (exists s1, writer_step order s = Some s1).
Proof.
  intros Hwf [Hg Hbusy].
  assert ((pc s = WParked /\ work_available s = false)
          \/ (pc s = WParked -> work_available s = true)) as [[Hpc Hwk]|Hn]
    by (destruct (pc s), (work_available s); auto; by right).
  2: { right. by apply wait_free_writer. }
  left. pose proof (sw_work _ Hwf Hwk) as Hq. rewrite Hpc in Hq. destruct Hq as [[Hpr Hbl] Hio].
  pose proof (sw_done _ Hwf) as Hd. rewrite Hio in Hd. unfold consumer_step. rewrite Hd. simpl.
  destruct (bulk_closed (cons s) && control_closed (cons s)
            && negb (bool_decide (is_Some (parked (cons s))))) eqn:Hfin; [eauto|].
  destruct (if space_freed s then parked (cons s) else None) as [f|] eqn:Hret; [eauto|].
  destruct (control s) as [|g ct]; [|eauto].
  destruct (negb (control_closed (cons s)) && negb (producers s)) eqn:Hcc; [eauto|].
  destruct (parked (cons s)) as [f|] eqn:Hpk.
  - exfalso. destruct (space_freed s) eqn:Hsp; [done|].
    destruct (sw_space _ Hwf f Hpk Hsp) as [_ Hnf]. apply Hnf. apply idle_fits; try done.
    pose proof (sw_parked _ Hwf) as Hpf. unfold parked_frames in Hpf. rewrite Hpk in Hpf.
    apply Forall_cons in Hpf as [[_ ?] _]. done.
  - destruct (bulk s) as [|g bk]; [|destruct (is_bulk_ordered g); eauto].
    destruct (negb (bulk_closed (cons s)) && negb (producers s)) eqn:Hbc; [eauto|].
    exfalso. destruct Hbusy as [?|[?|[[? ?]|[?|[?|Hp]]]]]; try congruence.
    rewrite Hp in *. destruct (control_closed (cons s)), (bulk_closed (cons s)); done.
Qed.

(** ** Termination *)

Lemma flag_bound b z : 0 <= z -> 0 <= flag b z <= z.
Proof. unfold flag. destruct b; lia. Qed.

Lemma visits_frames budget order bs outs bs1 :
  visits budget order bs = (outs, bs1) -> queued_frames bs1 = queued_frames bs - len outs.
Proof.
  revert bs outs. unfold queued_frames.
  induction order as [|i order IH]; simpl; intros bs outs H.
  { simplify_eq. unfold len. simpl. lia. }
  destruct (bs !! i) as [b|] eqn:Hb; [|by apply IH].
  destruct (visit budget b) as [out b1] eqn:Hv.
  destruct (visits budget order _) as [outs1 bs2] eqn:E. simplify_eq.
  destruct (visit_split _ _ _ _ Hv) as [Hq _].
  rewrite (IH _ _ E), map_sum_insert, Hb, len_app. simpl. rewrite Hq, len_app. lia.
Qed.

Lemma reap_frames bs :
  queued_frames (filter (fun p => reaped (snd p) = false) bs) = queued_frames bs.
Proof.
  apply map_sum_filter. intros i b _. simpl. destruct (reaped b) eqn:Hr; [right|by left].
  unfold reaped in Hr. apply andb_true_iff in Hr as [Hq _]. apply bool_decide_eq_true in Hq.
  by rewrite Hq.
Qed.

Lemma drr_pass_frames budget order sh batch more sh1 :
  drr_pass budget order sh = (batch, more, sh1) ->
  queued_frames (buckets sh1) = queued_frames (buckets sh) - len batch
  /\ priority sh1 = priority sh.
Proof.
  unfold drr_pass. destruct (visits budget order (buckets sh)) as [outs bs] eqn:E. intros H.
  simplify_eq. match goal with |- context [fold_left record_emission ?fs ?sh] =>
    destruct (fold_record_emission fs sh) as (-> & -> & _) end.
  simpl. rewrite reap_frames. split; [by eapply visits_frames|done].
Qed.

Lemma insert_frames bs sid b :
  queued_frames (<[sid := b]> bs)
  = queued_frames bs - len (queue (bucket_in bs sid)) + len (queue b).
Proof.
  unfold queued_frames. rewrite map_sum_insert. unfold bucket_in. by destruct (bs !! sid).
Qed.

Lemma place_bulk_weight s bk space f :
  consumer_done (cons s) = false ->
  weight (place_bulk s bk space f)
  <= weight s - 15 * len (bulk s) + 15 * len bk - 14 * len (parked_frames (cons s))
     - flag (space_freed s) 1 + flag space 1 + 14
  /\ (parked (cons (place_bulk s bk space f)) = None ->
      weight (place_bulk s bk space f)
      <= weight s - 15 * len (bulk s) + 15 * len bk - 14 * len (parked_frames (cons s))
         - flag (space_freed s) 1 + flag space 1 + 13).
Proof.
  intros Hcd. unfold place_bulk. pose proof (enqueue_bucket_cases (lim s) (shared s) f) as H.
  pose proof (flag_bound (work_available s) 7 ltac:(lia)).
  assert (len (@nil frame) = 0 /\ forall g : frame, len [g] = 1) as [Hl0 Hl1] by done.
  destruct (enqueue_bucket _ _ _) as [sh|sh g|]; unfold weight, parked_frames; simpl; rewrite Hcd; simpl.
  - destruct H as (_ & _ & Hp & _ & _ & _ & b & Hbs & Hq & _). rewrite Hp, Hbs, insert_frames.
    unfold bucket_of in Hq. rewrite Hq, len_app, Hl0, Hl1. lia.
  - destruct H as (_ & _ & -> & Hp & _ & _ & _ & Hbs). rewrite Hp, Hbs, insert_frames.
    unfold bucket_of. rewrite Hl1. split; [lia|done].
  - rewrite Hl0. lia.
Qed.

Lemma consumer_step_weight s s1 : consumer_step s = Some s1 -> weight s1 < weight s.
Proof.
  unfold consumer_step. intros H. destruct (consumer_done (cons s)) eqn:Hcd; [done|].
  pose proof (flag_bound (work_available s) 7 ltac:(lia)) as Hwk.
  assert (len (@nil frame) = 0 /\ forall g : frame, len [g] = 1) as [Hl0 Hl1] by done.
  assert (forall (g : frame) l, len (g :: l) = 1 + len l) as Hlc
    by (intros; unfold len; simpl; lia).
  destruct (bulk_closed (cons s) && control_closed (cons s)
            && negb (bool_decide (is_Some (parked (cons s))))) eqn:Hfin.
  { simplify_eq. unfold weight, parked_frames. simpl. rewrite Hcd. simpl. lia. }
  destruct (if space_freed s then parked (cons s) else None) as [f|] eqn:Hret.
  { destruct (space_freed s) eqn:Hsp; [|done]. simplify_eq.
    destruct (place_bulk_weight s (bulk s) false f Hcd) as [Hle _].
    unfold parked_frames in Hle. rewrite Hret, Hl1, Hsp in Hle. simpl in Hle. lia. }
  destruct (control s) as [|g ct] eqn:Hct.
  2: { simplify_eq. unfold weight. simpl. rewrite Hct, len_app, Hl1, Hlc. lia. }
  destruct (negb (control_closed (cons s)) && negb (producers s)) eqn:Hcc.
  { apply andb_true_iff in Hcc as [Hc _]. simplify_eq. unfold weight, parked_frames. simpl.
    rewrite Hct, Hc, Hcd. simpl. lia. }
  destruct (parked (cons s)) as [f|] eqn:Hpk; [done|].
  destruct (bulk s) as [|g bk] eqn:Hbk.
  - destruct (negb (bulk_closed (cons s)) && negb (producers s)) eqn:Hbc; [|done].
    apply andb_true_iff in Hbc as [Hb _]. simplify_eq. unfold weight, parked_frames. simpl.
    rewrite Hct, Hb, Hcd, Hpk, Hbk. simpl. lia.
  - destruct (is_bulk_ordered g); simplify_eq.
    + destruct (place_bulk_weight s bk (space_freed s) g Hcd) as [Hle _].
      unfold parked_frames in Hle. rewrite Hpk, Hbk, Hl0, Hlc in Hle. lia.
    + unfold weight. simpl. rewrite Hct, Hbk, len_app, Hl0, Hl1, Hlc. lia.
Qed.

Lemma len_is_nil {A} (l : list A) : 0 <= len l /\ (is_nil l = false -> 1 <= len l).
Proof. unfold len. destruct l; simpl; split; try done; lia. Qed.

Lemma writer_step_weight order s s1 : writer_step order s = Some s1 -> weight s1 < weight s.
Proof.
  unfold writer_step. intros H.
  assert (len (@nil frame) = 0 /\ forall (g : frame) l, len (g :: l) = 1 + len l) as [Hl0 Hlc]
    by (split; [done|]; intros; unfold len; simpl; lia).
  destruct (pc s) as [|[|f rest] pe|pe|[|f rest] more be pe| | |] eqn:Hpc.
  - unfold drain_priority in H. simplify_eq.
    match goal with |- context [fold_left record_emission ?fs ?sh] =>
      destruct (fold_record_emission fs sh) as (Hp & Hb & _) end.
    destruct (len_is_nil (priority (shared s))) as [H0 H1].
    unfold weight. simpl. rewrite Hp, Hb, Hpc. simpl. rewrite Hl0.
    destruct (is_nil (priority (shared s))) eqn:En; simpl; [lia|]. specialize (H1 eq_refl). lia.
  - simplify_eq. unfold weight. simpl. rewrite Hpc. simpl. lia.
  - destruct (socket_ok s); simplify_eq; unfold weight; simpl; rewrite Hpc; simpl; rewrite Hlc, ?Hl0;
      pose proof (len_nonneg rest); destruct pe; simpl; lia.
  - destruct (drr_pass _ _ _) as [[batch more] sh] eqn:E. simplify_eq.
    destruct (drr_pass_frames _ _ _ _ _ _ E) as [Hq Hp].
    destruct (len_is_nil batch) as [H0 H1]. unfold weight. simpl. rewrite Hp, Hq, Hpc. simpl. rewrite Hl0.
    destruct (is_nil batch) eqn:En, (space_freed s), pe; simpl; try lia; specialize (H1 eq_refl); lia.
  - simplify_eq. unfold weight. simpl. rewrite Hpc. simpl. rewrite Hl0.
    unfold after_batch. destruct more, be, pe; simpl; rewrite ?Hl0; lia.
  - destruct (socket_ok s); simplify_eq; unfold weight; simpl; rewrite Hpc; simpl; rewrite Hlc, ?Hl0;
      pose proof (len_nonneg rest); destruct be, pe; simpl; lia.
  - destruct (work_available s) eqn:Hwk; [|done]. simplify_eq. unfold weight. simpl.
    rewrite Hpc, Hwk. simpl. lia.
  - simplify_eq. unfold weight. simpl. rewrite Hpc. simpl.
    pose proof (flag_bound (space_freed s) 1 ltac:(lia)). lia.
  - done.
Qed.

Lemma queued_frames_nonneg bs : 0 <= queued_frames bs.
Proof. apply map_sum_nonneg. intros i b _. apply len_nonneg. Qed.

Lemma weight_nonneg s : 0 <= weight s.
Proof.
  unfold weight. pose proof (queued_frames_nonneg (buckets (shared s))).
  pose proof (len_nonneg (bulk s)). pose proof (len_nonneg (control s)).
  pose proof (len_nonneg (parked_frames (cons s))). pose proof (len_nonneg (priority (shared s))).
  pose proof (len_nonneg (in_hand (pc s))).
  assert (0 <= rank (pc s)).
  { destruct (pc s); simpl; unfold flag; repeat case_match; lia. }
  repeat match goal with |- context [flag ?b ?z] =>
    pose proof (flag_bound b z ltac:(lia)); generalize dependent (flag b z); intros end.
  lia.
Qed.

(** A run of the two tasks is no longer than the weight it starts with. *)
Lemma task_run_bound s es s1 :
  Forall task_event es -> sched_run s es = Some s1 -> len es + weight s1 <= weight s.
Proof.
  intros Hes. revert s. induction Hes as [|e es He _ IH]; simpl; intros s H.
  { simplify_eq. unfold len. simpl. lia. }
  destruct (sched_exec s e) as [s2|] eqn:E; [|done]. specialize (IH _ H).
  assert (weight s2 < weight s).
  { destruct e; try done; simpl in E; [by apply consumer_step_weight|].
    case_decide; [|done]. by eapply writer_step_weight. }
  unfold len in *. simpl. lia.
Qed.

Lemma task_run_producers s es s1 :
  Forall task_event es -> sched_run s es = Some s1 -> producers s = false -> producers s1 = false.
Proof.
  intros Hes. revert s. induction Hes as [|e es He _ IH]; simpl; intros s H Hp; [by simplify_eq|].
  destruct (sched_exec s e) as [s2|] eqn:E; [|done]. eapply IH; [exact H|].
  destruct e; try done; simpl in E.
  - unfold consumer_step, place_bulk in E. repeat case_match; by simplify_eq.
  - case_decide; [|done]. unfold writer_step in E. repeat case_match; by simplify_eq.
Qed.

Lemma sched_run_app s es es1 :
  sched_run s (es ++ es1)
  = match sched_run s es with Some s1 => sched_run s1 es1 | None => None end.
Proof.
  revert s. induction es as [|e es IH]; intros s; simpl; [done|].
  by destruct (sched_exec s e).
Qed.

Lemma sent_app es es1 : sent (es ++ es1) = sent es ++ sent es1.
Proof. unfold sent. by rewrite map_app, concat_app. Qed.

Lemma task_events_ok tasks :
  Forall task_event tasks -> Forall sched_event_ok tasks /\ (SBreak ∉ tasks) /\ sent tasks = [].
Proof.
  induction 1 as [|e tasks He _ (IH1 & IH2 & IH3)]; [split_and!; [done|set_solver|done]|].
  destruct e; try done; (split_and!; [by constructor|set_solver|done]).
Qed.

(** When the writer has left a working socket, the wire holds everything. *)
Lemma gone_complete s :
  sched_wf s -> socket_ok s = true -> pc s = WGone ->
  control_pipeline s = controls (wire s)
  /\ forall sid, bulk_pipeline sid s = of_stream sid (wire s).
Proof.
  intros Hwf Hso Hpc. destruct (sw_ending _ Hwf Hso) as [[Hp Hl] Hi]; [by rewrite Hpc|].
  destruct (sw_done_closed _ Hwf) as (Hbc & Hcc & Hpk); [by rewrite (sw_done _ Hwf), Hi|].
  destruct (sw_bulk_closed _ Hwf Hbc) as [Hbk _]. destruct (sw_control_closed _ Hwf Hcc) as [Hct _].
  unfold control_pipeline, bulk_pipeline, parked_frames, bucket_of.
  rewrite Hpc, Hp, Hct, Hpk, Hbk. simpl. split; [by rewrite app_nil_r|].
  intros sid. rewrite (has_backlog_queue _ sid Hl). simpl. by rewrite app_nil_r.
Qed.

(** ** Properties *)

(** C27. Bounds and accounting hold in every reachable state, for any
    interleaving of producers, consumer and writer and any bucket order: each
    bucket's byte count is the size of its queue and within the bucket
    capacity, holds only bulk frames of its stream, the link total is the sum
    of the buckets and within the link budget (so no subtraction underflows),
    and both FIFOs stay within their capacity. *)
Theorem scheduler_stays_in_bounds c es s :
  Forall sched_event_ok es -> sched_run (spawn c) es = Some s ->
  map_Forall (fun sid b =>
      queued_bytes b = bytes (queue b) /\ 0 <= queued_bytes b <= bucket_capacity (lim s)
      /\ Forall (fun f => is_bulk_ordered f = true /\ stream_id f = sid) (queue b))
    (buckets (shared s))
  /\ total_bucket_bytes (shared s) = map_sum queued_bytes (buckets (shared s))
  /\ 0 <= total_bucket_bytes (shared s) <= link_budget (lim s)
  /\ len (bulk s) <= fifo_capacity (lim s) /\ len (control s) <= fifo_capacity (lim s).
Proof.
  intros Hes H. pose proof (sched_run_wf _ _ _ (spawn_wf c) Hes H) as Hwf.
  assert (map_Forall (fun _ b => 0 <= queued_bytes b) (buckets (shared s))) as Hpos.
  { intros i b Hb. destruct (sw_buckets _ Hwf i b Hb) as [-> _ _]. apply bytes_nonneg. }
  split; [|split; [apply Hwf|split; [split; [|apply Hwf]|apply Hwf]]].
  - intros i b Hb. destruct (sw_buckets _ Hwf i b Hb). split_and!; try done. by apply (Hpos i b).
  - rewrite (sw_total _ Hwf). by apply map_sum_nonneg.
Qed.

(** C13. The scheduler is a set of queues: as long as the socket works, for
    every stream the bulk frames on the wire, in the writer's hand, queued,
    parked and waiting are exactly the bulk frames producers sent for it, in
    order; and the same for the control frames as one sequence. Nothing is
    dropped, duplicated or reordered within a class. *)
Theorem scheduler_keeps_order c es s :
  Forall sched_event_ok es -> (SBreak ∉ es) -> sched_run (spawn c) es = Some s ->
  (forall sid, bulk_pipeline sid s = of_stream sid (sent es))
  /\ control_pipeline s = controls (sent es).
Proof.
  intros Hes Hnb H.
  by destruct (sched_run_pipelines _ _ _ (spawn_wf c) eq_refl Hes Hnb H) as [[Hb Hc] _].
Qed.

(** C28. Link teardown flushes: once the producers are gone, the two tasks
    take a bounded number of steps, whatever their interleaving, and as long
    as one of them can step they do not wait on each other; when neither can,
    the writer has left and every frame ever sent is on the wire. *)
Theorem teardown_flushes c es s tasks s1 :
  Forall sched_event_ok es -> (SBreak ∉ es) -> sched_run (spawn c) es = Some s ->
  producers s = false -> Forall task_event tasks -> sched_run s tasks = Some s1 ->
  len tasks <= weight s
  /\ ((exists e s2, task_event e /\ sched_exec s1 e = Some s2)
      \/ (pc s1 = WGone /\ controls (wire s1) = controls (sent es)
          /\ forall sid, of_stream sid (wire s1) = of_stream sid (sent es))).
Proof.
  intros Hes Hnb H Hpr Htk H1.
  destruct (task_events_ok tasks Htk) as (Hok & Hnb1 & Hst).
  assert (sched_run (spawn c) (es ++ tasks) = Some s1) as Hrun by (by rewrite sched_run_app, H).
  assert (Forall sched_event_ok (es ++ tasks)) as Hok2 by (by apply Forall_app).
  pose proof (sched_run_wf _ _ _ (spawn_wf c) Hok2 Hrun) as Hwf1.
  destruct (sched_run_pipelines _ _ _ (spawn_wf c) eq_refl Hok2 ltac:(set_solver) Hrun)
    as [[Hb Hc] Hso1].
  rewrite sent_app, Hst, app_nil_r in Hc.
  pose proof (task_run_bound _ _ _ Htk H1) as Hbound. pose proof (weight_nonneg s1).
  split; [lia|].
  destruct (decide (is_gone (pc s1) = true)) as [Hg|Hg].
  - right. assert (pc s1 = WGone) as Hpc by (by destruct (pc s1)).
    destruct (gone_complete s1 Hwf1 Hso1 Hpc) as [Hcc Hbb]. split; [done|]. split.
    + by rewrite <- Hcc, Hc.
    + intros sid. rewrite <- Hbb, Hb, sent_app, Hst, app_nil_r. done.
  - left. destruct (busy_progress s1 (map fst (map_to_list (buckets (shared s1)))) Hwf1)
      as [[s2 Hs2]|[s2 Hs2]].
    + split; [by intros Hpc; rewrite Hpc in Hg|].
      do 5 right. by eapply task_run_producers.
    + by exists SConsumer, s2.
    + exists (SWriter (map fst (map_to_list (buckets (shared s1))))), s2. split; [done|].
      simpl. by rewrite decide_True.
Qed.

(** Every stream with backlog is served in every pass, whatever the bucket
    order: the pass takes a nonempty prefix of its queue, and that prefix is
    within the stream's deficit and the round budget or a single frame. *)
Theorem pass_serves_every_backlog c es s order batch more sh1 sid b :
  Forall sched_event_ok es -> sched_run (spawn c) es = Some s ->
  order ≡ₚ map fst (map_to_list (buckets (shared s))) ->
  drr_pass (round_budget (lim s)) order (shared s) = (batch, more, sh1) ->
  buckets (shared s) !! sid = Some b -> queue b <> [] ->
  of_stream sid batch <> [] /\ queue b = of_stream sid batch ++ queue (bucket_of sh1 sid)
  /\ (bytes (of_stream sid batch) <= deficit b + round_budget (lim s)
      \/ exists f, of_stream sid batch = [f]).
Proof.
  intros Hes H Hord Hpass Hb Hq. pose proof (sched_run_wf _ _ _ (spawn_wf c) Hes H) as Hwf.
  destruct (order_covers _ _ Hord) as [Hnd Hcov].
  pose proof (drr_pass_spec (bucket_capacity (lim s)) _ _ _ _ _ _ Hpass Hord (sw_buckets _ Hwf)
    (sw_total _ Hwf)) as [_ _ _ _ Hqs _ _ _].
  unfold drr_pass in Hpass. destruct (visits _ _ _) as [outs bs] eqn:E. simplify_eq.
  destruct (visits_exact (bucket_capacity (lim s)) _ _ _ _ _ sid b E (sw_buckets _ Hwf) Hnd)
    as [Hv _]; [by apply Hcov|done|].
  destruct (visit _ b) as [out b1] eqn:Hvb. simpl in Hv. specialize (Hqs sid).
  unfold bucket_of at 1, bucket_in in Hqs. rewrite Hb in Hqs. simpl in Hqs.
  destruct (visit_live _ _ _ _ Hvb Hq) as (Hne & _ & _ & Hbound). rewrite Hv in *. done.
Qed.

(** The fairness bound fails for a stream that trickles: its deficit is
    kept when its queue empties, so after sixteen one-byte rounds it sends
    all of its sixty queued frames (960 KiB) in one pass, while a stream with
    the same backlog sends four (64 KiB) and keeps the rest. *)
Theorem trickled_deficit_bursts :
  next_batch [2; 4] burst_events = Some (60 * MAX_FRAME_PAYLOAD, 4 * MAX_FRAME_PAYLOAD,
                                         56 * MAX_FRAME_PAYLOAD)
  /\ round_budget_bytes default_config = 4 * MAX_FRAME_PAYLOAD.
Proof. split; [vm_compute; reflexivity|reflexivity]. Qed.

(** ** Witnesses *)

Definition sample_events : list sched_event :=
  [SSend (FData 2 [x61; x62]); SConsumer; SSend (FCloseStream 4); SSend (FData 4 [x63])]
  ++ to_pass [2].

Lemma sample_events_ok : Forall sched_event_ok sample_events.
Proof. repeat constructor; vm_compute; discriminate. Qed.

Definition sample_state : scheduler :=
  default (spawn default_config) (sched_run (spawn default_config) sample_events).

Lemma scheduler_stays_in_bounds_witness :
  total_bucket_bytes (shared sample_state) = map_sum queued_bytes (buckets (shared sample_state))
  /\ 0 <= total_bucket_bytes (shared sample_state) <= link_budget (lim sample_state).
Proof.
  destruct (scheduler_stays_in_bounds default_config sample_events sample_state sample_events_ok
    ltac:(vm_compute; reflexivity)) as (_ & H1 & H2 & _).
  exact (conj H1 H2).
Defined.

Lemma scheduler_keeps_order_witness :
  bulk_pipeline 2 sample_state = [FData 2 [x61; x62]]
  /\ control_pipeline sample_state = [FCloseStream 4].
Proof.
  destruct (scheduler_keeps_order default_config sample_events sample_state sample_events_ok
    ltac:(intros Hin; repeat (apply elem_of_cons in Hin as [Hin|Hin]; [discriminate Hin|]);
          inversion Hin) ltac:(vm_compute; reflexivity)) as [H1 H2].
  split; [exact (H1 2)|exact H2].
Defined.

Definition closing_events : list sched_event := sample_events ++ [SDropProducers].
Definition closing_state : scheduler :=
  default (spawn default_config) (sched_run (spawn default_config) closing_events).

Lemma closing_events_ok : Forall sched_event_ok closing_events.
Proof. repeat constructor; vm_compute; discriminate. Qed.

Lemma teardown_flushes_witness :
  exists e s2, task_event e /\ sched_exec closing_state e = Some s2.
Proof.
  destruct (teardown_flushes default_config closing_events closing_state [] closing_state
    closing_events_ok
    ltac:(intros Hin; repeat (apply elem_of_cons in Hin as [Hin|Hin]; [discriminate Hin|]);
          inversion Hin)
    ltac:(vm_compute; reflexivity) ltac:(vm_compute; reflexivity) ltac:(constructor)
    ltac:(reflexivity)) as [_ [H|[H _]]].
  - exact H.
  - vm_compute in H. discriminate H.
Defined.

Lemma pass_serves_every_backlog_witness :
  of_stream 2 (fst (fst (drr_pass 65536 [2] (shared sample_state)))) <> [].
Proof.
  exact (proj1 (pass_serves_every_backlog default_config sample_events sample_state [2] _ _ _ 2
    {| queue := [FData 2 [x61; x62]]; queued_bytes := 2; deficit := 0; idle_passes := 0 |}
    sample_events_ok ltac:(vm_compute; reflexivity) ltac:(reflexivity)
    ltac:(vm_compute; reflexivity) ltac:(vm_compute; reflexivity) ltac:(discriminate))).
Defined.
