(* ===== verification/LinkEgress.v ===== *)
(** * LinkEgress: the scheduler's wire order, read by the node's mux

    The relay writes a link through [Scheduler]; the node at the other end
    reads it with the relay-link mode of [MuxConnection]. The scheduler keeps
    the order of each stream's bulk frames and of the control frames, but not
    the order between the two classes. This file shows what that means for
    the reader, which treats a bulk frame of an unknown stream as a protocol
    violation and fails the whole connection. *)

From S2P Require Import Prelude Bytes Frame MuxStream MuxConnection Scheduler.

(** The node's link after reading [fs]. *)
Definition node_reads (m : MuxConnection) (fs : list frame) : MuxConnection :=
  conn_run m (map EvFrame fs).

(** A relay link with one routed stream, 2, and one local stream, 1. *)
Definition node_link : MuxConnection :=
  conn_run (spawn_relay_link 16) [EvOpenTo "peer"; EvFrame (FOpenStream 2 "peer")].

(** What is on the wire after [es]. *)
Definition wire_after (es : list sched_event) : list frame :=
  match sched_run (Scheduler.spawn default_config) es with Some s => wire s | None => [] end.

(** The relay forwards data on stream 2, then its source goes away and the
    relay tears the stream down; the writer runs afterwards. *)
Definition teardown_events : list sched_event :=
  [SSend (FData 2 [x61]); SConsumer; SSend (FCloseStream 2); SConsumer]
  ++ replicate 6 (SWriter [2]).

(** A stream is opened towards the node and data follows while the writer is
    between its priority batch and its round robin pass. *)
Definition open_race_events : list sched_event :=
  [SSend (FPresence "n" true); SConsumer; SWriter []; SWriter []; SWriter [];
   SSend (FOpenStream 4 "peer"); SConsumer; SSend (FData 4 [x61]); SConsumer]
  ++ replicate 5 (SWriter [4]).

(** A teardown kills the link: the [CloseStream] overtakes the stream's
    queued data, the node forgets the stream, and the data that follows fails
    its whole connection, the unrelated stream 1 included. In the order the
    frames were sent, the same frames are read without failure. *)
Theorem overtaken_data_fails_the_link :
  wire_after teardown_events = [FCloseStream 2; FData 2 [x61]]
  /\ dead (MuxConnection.shared (node_reads node_link (wire_after teardown_events))) = true
  /\ table (node_reads node_link (wire_after teardown_events)) = ∅
  /\ dead (MuxConnection.shared (node_reads node_link [FData 2 [x61]; FCloseStream 2])) = false.
Proof. vm_compute. done. Qed.

(** An opening race kills the link: an [OpenStream] and its first data
    that arrive after the priority queue was drained and before the round
    robin pass leave in the wrong order, data first, and the data fails the
    node's whole connection. *)
Theorem data_before_open_fails_the_link :
  wire_after open_race_events = [FPresence "n" true; FData 4 [x61]; FOpenStream 4 "peer"]
  /\ dead (MuxConnection.shared (node_reads node_link (wire_after open_race_events))) = true
  /\ dead (MuxConnection.shared
        (node_reads node_link [FPresence "n" true; FOpenStream 4 "peer"; FData 4 [x61]])) = false.
Proof. vm_compute. done. Qed.
