(* ===== verification/Routing.v ===== *)
(** * Routing: pairs of stream legs across two links

    [src/infra/relay_routing.rs]: the relay's error codes and the routing
    table, whose methods are functions on the map of legs. A
    [SchedulerIngress] clone is the number of the link it feeds. *)

From S2P Require Import Prelude Bytes Frame.

(** ** Error codes *)

Inductive RelayErrorCode :=
| TargetUnknown | StreamUnknown | StreamClosed | NodeCapacity | StreamCapacity
| ThroughputExceeded | TokenInvalid | TokenExpired | NodeRevoked | HeartbeatLost | QuotaExceeded.

#[global] Instance RelayErrorCode_eq_dec : EqDecision RelayErrorCode.
Proof. solve_decision. Defined.

(** The discriminants, [self as u16]. *)
Definition code_wire_value (c : RelayErrorCode) : Z :=
  match c with
  | TargetUnknown => 1 | StreamUnknown => 2 | StreamClosed => 3 | NodeCapacity => 4
  | StreamCapacity => 5 | ThroughputExceeded => 6 | TokenInvalid => 7 | TokenExpired => 8
  | NodeRevoked => 9 | HeartbeatLost => 10 | QuotaExceeded => 11
  end.

Definition ALL : list RelayErrorCode :=
  [TargetUnknown; StreamUnknown; StreamClosed; NodeCapacity; StreamCapacity;
   ThroughputExceeded; TokenInvalid; TokenExpired; NodeRevoked; HeartbeatLost; QuotaExceeded].

Definition code_from_wire (code : Z) : option RelayErrorCode :=
  List.find (fun assigned => code_wire_value assigned =? code) ALL.

Definition message (c : RelayErrorCode) : string :=
  match c with
  | TargetUnknown => "target node is unknown or offline"
  | StreamUnknown => "stream is unknown on this link"
  | StreamClosed => "stream direction is already closed"
  | NodeCapacity => "relay node capacity reached"
  | StreamCapacity => "relay stream capacity reached"
  | ThroughputExceeded => "relay throughput limit exceeded"
  | TokenInvalid => "enrollment token is invalid or already used"
  | TokenExpired => "enrollment token has expired"
  | NodeRevoked => "node access revoked by the relay operator"
  | HeartbeatLost => "relay heartbeat timed out; the link was evicted"
  | QuotaExceeded => "quota exceeded"
  end.

(** ** The table *)

Abbreviation ingress := Z (only parsing).

Record RouteKey := { connection_id : Z; stream_id : Z }.

#[global] Instance RouteKey_eq_dec : EqDecision RouteKey.
Proof. solve_decision. Defined.
#[global] Instance RouteKey_countable : Countable RouteKey.
Proof.
  refine (inj_countable' (fun k => (connection_id k, stream_id k))
                         (fun '(c, s) => {| connection_id := c; stream_id := s |}) _).
  by intros [].
Defined.

Record RouteLeg := {
  peer : RouteKey;
  peer_outbound : ingress;
  closed : bool;
}.

Inductive Lookup := LookupOpen (leg : RouteLeg) | LookupClosed | LookupUnknown.
Inductive CloseOutcome := Forward (leg : RouteLeg) | Swallow | CloseUnknown.

Definition open_route (legs : gmap RouteKey RouteLeg) (from : RouteKey)
    (target_connection_id target_stream_id : Z) (target_outbound from_outbound : ingress)
    : RouteLeg * gmap RouteKey RouteLeg :=
  let to := {| connection_id := target_connection_id; stream_id := target_stream_id |} in
  let forward := {| peer := to; peer_outbound := target_outbound; closed := false |} in
  let backward := {| peer := from; peer_outbound := from_outbound; closed := false |} in
  (forward, <[to := backward]> (<[from := forward]> legs)).

Definition lookup_route (legs : gmap RouteKey RouteLeg) (key : RouteKey) : Lookup :=
  match legs !! key with
  | Some leg => if closed leg then LookupClosed else LookupOpen leg
  | None => LookupUnknown
  end.

Definition mark_closed (leg : RouteLeg) : RouteLeg :=
  {| peer := peer leg; peer_outbound := peer_outbound leg; closed := true |}.

(** The peer's leg is read after this leg was marked, as in the code. *)
Definition close_leg (legs : gmap RouteKey RouteLeg) (key : RouteKey) : CloseOutcome * gmap RouteKey RouteLeg :=
  match legs !! key with
  | None => (CloseUnknown, legs)
  | Some leg =>
      if closed leg then (Swallow, legs)
      else
        let legs1 := <[key := mark_closed leg]> legs in
        let peer_closed := from_option closed true (legs1 !! peer leg) in
        (Forward (mark_closed leg),
         if peer_closed then delete (peer leg) (delete key legs1) else legs1)
  end.

Definition teardown_pair (legs : gmap RouteKey RouteLeg) (key : RouteKey) : option RouteLeg * gmap RouteKey RouteLeg :=
  match legs !! key with
  | None => (None, legs)
  | Some leg => (Some leg, delete (peer leg) (delete key legs))
  end.

Definition stream_count (legs : gmap RouteKey RouteLeg) : Z := Z.of_nat (size legs) / 2.

(** The loop of [teardown_connection] over the collected keys. *)
Fixpoint teardown_keys (keys : list RouteKey) (legs : gmap RouteKey RouteLeg)
    : list (ingress * Z) * gmap RouteKey RouteLeg :=
  match keys with
  | [] => ([], legs)
  | key :: keys =>
      match legs !! key with
      | None => teardown_keys keys legs
      | Some leg =>
          let '(peers, legs1) := teardown_keys keys (delete (peer leg) (delete key legs)) in
          ((peer_outbound leg, stream_id (peer leg)) :: peers, legs1)
      end
  end.

(** The keys of a connection, in the order the map yields them ([order] of
    all keys). *)
Definition connection_keys (cid : Z) (order : list RouteKey) : list RouteKey :=
  filter (fun key => connection_id key = cid) order.

Definition teardown_connection (order : list RouteKey) (legs : gmap RouteKey RouteLeg) (cid : Z)
    : list (ingress * Z) * gmap RouteKey RouteLeg :=
  teardown_keys (connection_keys cid order) legs.

(** ** Operations as a sequence *)

Inductive route_op :=
| RouteOpen (from to : RouteKey) (target_outbound from_outbound : ingress)
| RouteClose (key : RouteKey)
| RouteTeardown (key : RouteKey)
| RouteTeardownConnection (order : list RouteKey) (cid : Z).

Definition route_exec (legs : gmap RouteKey RouteLeg) (op : route_op) : gmap RouteKey RouteLeg :=
  match op with
  | RouteOpen from to tob fob => snd (open_route legs from (connection_id to) (stream_id to) tob fob)
  | RouteClose key => snd (close_leg legs key)
  | RouteTeardown key => snd (teardown_pair legs key)
  | RouteTeardownConnection order cid => snd (teardown_connection order legs cid)
  end.

(** An open whose two ends are not routed yet, as honest nodes and the
    relay's id allocator provide. *)
Definition fresh_open (legs : gmap RouteKey RouteLeg) (op : route_op) : Prop :=
  match op with
  | RouteOpen from to _ _ => legs !! from = None /\ legs !! to = None /\ from <> to
  | _ => True
  end.

Inductive routes_reach : gmap RouteKey RouteLeg -> Prop :=
| routes_init : routes_reach ∅
| routes_step legs op : routes_reach legs -> fresh_open legs op -> routes_reach (route_exec legs op).

(** ** Invariant *)

(** Every leg's peer leg exists and points back, and is a different leg. *)
Definition paired (legs : gmap RouteKey RouteLeg) : Prop :=
  forall key leg, legs !! key = Some leg ->
  peer leg <> key /\ exists back, legs !! peer leg = Some back /\ peer back = key.

(** ** Lemmas *)

Lemma paired_delete legs key leg :
  paired legs -> legs !! key = Some leg -> paired (delete (peer leg) (delete key legs)).
Proof.
  intros Hp Hk k l [Hne1 [Hne2 Hl]%lookup_delete_Some]%lookup_delete_Some.
  destruct (Hp k l Hl) as [Hd (back & Hb & Hpb)]. split; [done|]. exists back. split; [|done].
  destruct (Hp key leg Hk) as [_ (back0 & Hb0 & Hpb0)].
  rewrite !lookup_delete_ne; [done| |]; intros Heq; rewrite <- Heq in Hb; simplify_eq.
Qed.

Lemma paired_mark legs key leg :
  paired legs -> legs !! key = Some leg -> paired (<[key := mark_closed leg]> legs).
Proof.
  intros Hp Hk k l Hl. destruct (Hp key leg Hk) as [Hd (back & Hb & Hpb)].
  apply lookup_insert_Some in Hl as [[<- <-]|[Hne Hl]].
  - split; [done|]. exists back. by rewrite lookup_insert_ne by (intros Heq; by apply Hd).
  - destruct (Hp k l Hl) as [Hdl (bl & Hbl & Hpbl)]. split; [done|].
    destruct (decide (key = peer l)) as [->|].
    + exists (mark_closed leg). rewrite lookup_insert_eq. simplify_eq. done.
    + exists bl. by rewrite lookup_insert_ne.
Qed.

Lemma paired_open legs from to tob fob :
  paired legs -> legs !! from = None -> legs !! to = None -> from <> to ->
  paired (snd (open_route legs from (connection_id to) (stream_id to) tob fob)).
Proof.
  intros Hp Hf Ht Hne. unfold open_route. simpl. destruct to as [tc ts]. simpl.
  intros k l Hl. apply lookup_insert_Some in Hl as [[<- <-]|[Hk Hl]].
  - split; [done|]. simpl. eexists. by rewrite lookup_insert_ne, lookup_insert_eq.
  - apply lookup_insert_Some in Hl as [[<- <-]|[Hk2 Hl]].
    + simpl. split; [done|]. eexists. by rewrite lookup_insert_eq.
    + destruct (Hp k l Hl) as [Hd (b & Hb & Hpb)]. split; [done|]. exists b.
      rewrite !lookup_insert_ne; [done|congruence..].
Qed.

Lemma teardown_keys_paired keys legs : paired legs -> paired (snd (teardown_keys keys legs)).
Proof.
  revert legs. induction keys as [|key keys IH]; intros legs Hp; simpl; [done|].
  destruct (legs !! key) as [leg|] eqn:Hk; [|by apply IH].
  pose proof (IH _ (paired_delete _ _ _ Hp Hk)) as H. by destruct (teardown_keys keys _).
Qed.

Lemma routes_paired legs : routes_reach legs -> paired legs.
Proof.
  induction 1 as [|legs op _ IH Hf]; [by intros k l Hl; rewrite lookup_empty in Hl|].
  destruct op as [from to tob fob|key|key|order cid]; simpl.
  - destruct Hf as (H1 & H2 & H3). by apply paired_open.
  - unfold close_leg. destruct (legs !! key) as [leg|] eqn:Hk; [|done].
    destruct (closed leg); [done|]. simpl. pose proof (paired_mark _ _ _ IH Hk) as Hm.
    destruct (from_option _ _ _); [|done].
    apply (paired_delete _ key (mark_closed leg)); [done|]. by rewrite lookup_insert_eq.
  - unfold teardown_pair. destruct (legs !! key) eqn:Hk; [|done]. by apply paired_delete.
  - by apply teardown_keys_paired.
Qed.

Lemma size_delete_pair legs key leg :
  paired legs -> legs !! key = Some leg ->
  size legs = S (S (size (delete (peer leg) (delete key legs)))).
Proof.
  intros Hp Hk. destruct (Hp key leg Hk) as [Hd (back & Hb & _)].
  rewrite (map_size_delete (peer leg)), lookup_delete_ne, Hb by congruence.
  rewrite map_size_delete, Hk.
  assert (size legs <> 0%nat) by (apply (map_size_ne_0_lookup_2 _ key); by exists leg).
  assert (size (delete key legs) <> 0%nat) as H1.
  { apply (map_size_ne_0_lookup_2 _ (peer leg)). exists back. by rewrite lookup_delete_ne by congruence. }
  rewrite map_size_delete, Hk in H1. lia.
Qed.

Lemma teardown_keys_size keys legs :
  paired legs ->
  size legs = (2 * length (fst (teardown_keys keys legs)) + size (snd (teardown_keys keys legs)))%nat.
Proof.
  revert legs. induction keys as [|key keys IH]; intros legs Hp; simpl; [done|].
  destruct (legs !! key) as [leg|] eqn:Hk; [|by apply IH].
  pose proof (IH _ (paired_delete _ _ _ Hp Hk)) as H. rewrite (size_delete_pair _ _ _ Hp Hk).
  destruct (teardown_keys keys _). simpl in *. lia.
Qed.

Lemma teardown_keys_sub keys legs : snd (teardown_keys keys legs) ⊆ legs.
Proof.
  revert legs. induction keys as [|key keys IH]; intros legs; simpl; [done|].
  destruct (legs !! key) as [leg|] eqn:Hk; [|by apply IH].
  pose proof (IH (delete (peer leg) (delete key legs))) as H. destruct (teardown_keys keys _). simpl in *.
  etrans; [exact H|]. etrans; apply delete_subseteq.
Qed.

Lemma not_in_sub (m1 m2 : gmap RouteKey RouteLeg) k : m1 ⊆ m2 -> m2 !! k = None -> m1 !! k = None.
Proof. intros. by eapply lookup_weaken_None. Qed.

Lemma teardown_keys_gone keys legs k leg :
  paired legs -> legs !! k = Some leg -> k ∈ keys \/ peer leg ∈ keys ->
  snd (teardown_keys keys legs) !! k = None.
Proof.
  revert legs. induction keys as [|key keys IH]; intros legs Hp Hl Hin; simpl; [set_solver|].
  destruct (Hp k leg Hl) as [Hd (back & Hb & Hpb)].
  destruct (legs !! key) as [kl|] eqn:Hk.
  - pose proof (IH _ (paired_delete _ _ _ Hp Hk)) as IH1.
    pose proof (teardown_keys_sub keys (delete (peer kl) (delete key legs))) as Hsub.
    destruct (teardown_keys keys _) as [ps l1]. simpl in *.
    destruct (delete (peer kl) (delete key legs) !! k) eqn:Hkk; [|by eapply not_in_sub].
    pose proof Hkk as [Hn1 [Hn2 Hl2]%lookup_delete_Some]%lookup_delete_Some. simplify_eq.
    apply IH1; [done|]. rewrite !elem_of_cons in Hin.
    destruct Hin as [[|]|[|]]; simplify_eq; auto.
  - apply IH; [done..|]. rewrite !elem_of_cons in Hin. destruct Hin as [[|]|[|]]; simplify_eq; auto.
Qed.

Lemma teardown_keys_kept keys legs k leg :
  paired legs -> legs !! k = Some leg -> k ∉ keys -> peer leg ∉ keys ->
  snd (teardown_keys keys legs) !! k = Some leg.
Proof.
  revert legs. induction keys as [|key keys IH]; intros legs Hp Hl H1 H2; simpl; [done|].
  destruct (legs !! key) as [kl|] eqn:Hk; [|apply IH; set_solver].
  rewrite not_elem_of_cons in H1, H2. destruct H1 as [H1 H1'], H2 as [H2 H2'].
  destruct (Hp k leg Hl) as [Hd (back & Hb & Hpb)].
  pose proof (IH _ (paired_delete _ _ _ Hp Hk)) as IH1. destruct (teardown_keys keys _). simpl in *.
  apply IH1; [|done..]. rewrite !lookup_delete_ne; [done|congruence|].
  intros Heq. destruct (Hp key kl Hk) as [_ (b2 & Hb2 & Hpb2)]. rewrite Heq in Hb2. simplify_eq.
Qed.

Lemma teardown_keys_notes keys legs k leg :
  paired legs -> legs !! k = Some leg -> k ∈ keys -> peer leg ∉ keys ->
  (peer_outbound leg, stream_id (peer leg)) ∈ fst (teardown_keys keys legs).
Proof.
  revert legs. induction keys as [|key keys IH]; intros legs Hp Hl H1 H2; simpl; [set_solver|].
  rewrite not_elem_of_cons in H2. destruct H2 as [H2 H2']. apply elem_of_cons in H1 as [<-|H1].
  - rewrite Hl. destruct (teardown_keys keys _). simpl. set_solver.
  - destruct (legs !! key) as [kl|] eqn:Hk; [|by apply IH].
    pose proof (IH _ (paired_delete _ _ _ Hp Hk)) as IH1.
    destruct (decide (k = key)) as [->|Hne].
    { simplify_eq. destruct (teardown_keys keys _). simpl. set_solver. }
    destruct (teardown_keys keys _). simpl in *. apply elem_of_cons. right.
    apply IH1; [|done..]. rewrite !lookup_delete_ne; [done|congruence|].
    intros Heq. destruct (Hp key kl Hk) as [_ (b2 & Hb2 & Hpb2)]. rewrite Heq in Hb2. simplify_eq.
Qed.

Lemma routes_even legs : routes_reach legs -> Z.of_nat (size legs) = 2 * stream_count legs.
Proof.
  intros Hr. cut (Nat.Even (size legs)).
  { intros [n Hn]. unfold stream_count. rewrite Hn.
    replace (Z.of_nat (2 * n)) with (Z.of_nat n * 2) by lia. rewrite Z.div_mul by lia. lia. }
  induction Hr as [|legs op Hr IH Hf]; [by exists 0%nat|].
  pose proof (routes_paired _ Hr) as Hp.
  destruct op as [from to tob fob|key|key|order cid]; simpl.
  - destruct Hf as (H1 & H2 & H3), IH as [n Hn], to as [tc ts]. exists (S n). simpl.
    rewrite !map_size_insert_None; [lia|done|by rewrite lookup_insert_ne].
  - unfold close_leg. destruct (legs !! key) as [leg|] eqn:Hk; [|done].
    destruct (closed leg); [done|]. simpl.
    assert (size (<[key := mark_closed leg]> legs) = size legs) as Hs by (by rewrite map_size_insert, Hk).
    destruct (from_option _ _ _); [|by rewrite Hs].
    pose proof (size_delete_pair _ key (mark_closed leg) (paired_mark _ _ _ Hp Hk)) as H.
    rewrite lookup_insert_eq in H. simpl in H. specialize (H eq_refl). rewrite Hs in H.
    destruct IH as [n Hn]. exists (n - 1)%nat. lia.
  - unfold teardown_pair. destruct (legs !! key) as [leg|] eqn:Hk; [|done].
    pose proof (size_delete_pair _ _ _ Hp Hk). destruct IH as [n Hn]. exists (n - 1)%nat. simpl. lia.
  - pose proof (teardown_keys_size (connection_keys cid order) legs Hp) as H. destruct IH as [n Hn].
    unfold teardown_connection. exists (n - length (fst (teardown_keys (connection_keys cid order) legs)))%nat. lia.
Qed.

Lemma close_leg_open legs key leg back :
  paired legs -> legs !! key = Some leg -> closed leg = false -> legs !! peer leg = Some back ->
  close_leg legs key =
    (Forward (mark_closed leg),
     if closed back then delete (peer leg) (delete key legs) else <[key := mark_closed leg]> legs).
Proof.
  intros Hp Hk Hc Hb. unfold close_leg. rewrite Hk, Hc. destruct (Hp key leg Hk) as [Hd _].
  rewrite lookup_insert_ne, Hb by congruence. simpl. destruct (closed back); [|done].
  by rewrite delete_insert_eq.
Qed.

Lemma elem_of_connection_keys cid order key :
  key ∈ connection_keys cid order <-> connection_id key = cid /\ key ∈ order.
Proof. unfold connection_keys. by rewrite list_elem_of_filter. Qed.

(** A leg of another connection survives when no leg of the connection
    being torn down leads to it, paired or not. *)
Lemma teardown_keys_spares keys cid legs k leg :
  (forall key, key ∈ keys -> connection_id key = cid) ->
  connection_id k <> cid -> legs !! k = Some leg ->
  (forall key l, legs !! key = Some l -> connection_id key = cid -> peer l <> k) ->
  snd (teardown_keys keys legs) !! k = Some leg.
Proof.
  revert legs. induction keys as [|key keys IH]; intros legs Hks Hc Hl Hno; simpl; [done|].
  destruct (legs !! key) as [kl|] eqn:Hkl; [|apply IH; [set_solver|done..]].
  assert (connection_id key = cid) as Hk by set_solver.
  specialize (IH (delete (peer kl) (delete key legs))). destruct (teardown_keys keys _). simpl in *.
  apply IH; [set_solver|done| |].
  - rewrite !lookup_delete_ne; [done|congruence|by eapply Hno].
  - intros k2 l2 [_ [_ H2]%lookup_delete_Some]%lookup_delete_Some. by apply Hno.
Qed.

(** ** Claims *)

(** C29. As long as no stream id is opened twice while it is routed, the
    table stays a set of pairs: every leg's peer leg exists, is another leg
    and points back, and [stream_count] counts exactly the pairs, two legs
    each. *)
Theorem routes_stay_paired legs :
  routes_reach legs -> paired legs /\ Z.of_nat (size legs) = 2 * stream_count legs.
Proof. intros Hr. split; [by apply routes_paired|by apply routes_even]. Qed.

(** Half-close is per direction: a [Close] on an open leg is forwarded
    to the peer; while the peer's own direction is open, the leg answers
    closed, the peer's direction stays open and every other leg is as
    before; when the peer had closed already, both legs and nothing else
    leave the table; a second [Close] on a closed leg changes nothing. *)
Theorem half_close_is_directional legs key leg :
  routes_reach legs -> legs !! key = Some leg ->
  (closed leg = true -> close_leg legs key = (Swallow, legs)) /\
  (closed leg = false ->
   let legs1 := snd (close_leg legs key) in
   fst (close_leg legs key) = Forward (mark_closed leg) /\
   (forall k, k <> key -> k <> peer leg -> lookup_route legs1 k = lookup_route legs k) /\
   match lookup_route legs (peer leg) with
   | LookupOpen back =>
       peer back = key /\
       lookup_route legs1 key = LookupClosed /\ lookup_route legs1 (peer leg) = LookupOpen back
   | LookupClosed => lookup_route legs1 key = LookupUnknown /\ lookup_route legs1 (peer leg) = LookupUnknown
   | LookupUnknown => False
   end).
Proof.
  intros Hr Hk. pose proof (routes_paired _ Hr) as Hp.
  destruct (Hp key leg Hk) as [Hd (back & Hb & Hpb)]. split.
  { intros Hc. unfold close_leg. by rewrite Hk, Hc. }
  intros Hc legs1. subst legs1. rewrite (close_leg_open _ _ _ _ Hp Hk Hc Hb). simpl. split; [done|].
  unfold lookup_route. rewrite Hb. destruct (closed back) eqn:Hcb.
  - split; [intros k H1 H2; by rewrite !lookup_delete_ne by congruence|].
    by rewrite lookup_delete_eq, lookup_delete_ne, lookup_delete_eq by congruence.
  - split; [intros k H1 H2; by rewrite !lookup_insert_ne by congruence|].
    rewrite lookup_insert_eq, lookup_insert_ne, Hb by congruence. simpl. by rewrite Hcb.
Qed.

(** Ending a connection ends exactly its routes: afterwards no leg is
    keyed by the connection or leads to it, every other leg is untouched,
    each peer link that shared a stream with it is told that stream's id,
    and there is one notification per route removed. *)
Theorem teardown_connection_ends_its_routes legs order cid peers legs1 :
  routes_reach legs -> (forall key, is_Some (legs !! key) -> key ∈ order) ->
  teardown_connection order legs cid = (peers, legs1) ->
  (forall key leg, legs1 !! key = Some leg ->
     connection_id key <> cid /\ connection_id (peer leg) <> cid) /\
  (forall key leg, legs !! key = Some leg ->
     connection_id key <> cid -> connection_id (peer leg) <> cid -> legs1 !! key = Some leg) /\
  (forall key leg, legs !! key = Some leg ->
     connection_id key = cid -> connection_id (peer leg) <> cid ->
     (peer_outbound leg, stream_id (peer leg)) ∈ peers) /\
  stream_count legs = Z.of_nat (length peers) + stream_count legs1.
Proof.
  intros Hr Ho Ht. pose proof (routes_paired _ Hr) as Hp. unfold teardown_connection in Ht.
  pose proof (teardown_keys_sub (connection_keys cid order) legs) as Hsub.
  pose proof (teardown_keys_gone (connection_keys cid order) legs) as Hgone.
  pose proof (teardown_keys_kept (connection_keys cid order) legs) as Hkept.
  pose proof (teardown_keys_notes (connection_keys cid order) legs) as Hnotes.
  pose proof (teardown_keys_size (connection_keys cid order) legs Hp) as Hsize.
  rewrite Ht in *. simpl in *. setoid_rewrite elem_of_connection_keys in Hgone.
  setoid_rewrite elem_of_connection_keys in Hkept. setoid_rewrite elem_of_connection_keys in Hnotes.
  split_and!.
  - intros key leg Hl. pose proof (lookup_weaken _ _ _ _ Hl Hsub) as Hl0.
    destruct (Hp key leg Hl0) as [_ (back & Hb & _)].
    split; intros Hc; rewrite (Hgone key leg) in Hl; try done; eauto 10.
  - intros key leg Hl H1 H2. apply (Hkept key leg Hp Hl); tauto.
  - intros key leg Hl H1 H2. apply (Hnotes key leg Hp Hl); [eauto|tauto].
  - unfold stream_count. rewrite <- Z.div_add_l by lia. f_equal. lia.
Qed.

(** Opening a stream id that is still routed breaks the pairing for
    good: the old peer's leg is overwritten out of its pair, so it is still
    open towards the opener's connection after that connection was torn
    down, and is only removed when the peer's own link ends. *)
Theorem reopened_stream_orphans_a_leg legs from leg to tob fob order :
  routes_reach legs -> legs !! from = Some leg -> legs !! to = None ->
  connection_id (peer leg) <> connection_id from -> connection_id to <> connection_id from ->
  exists back,
    legs !! peer leg = Some back /\ peer back = from /\
    let legs1 := snd (open_route legs from (connection_id to) (stream_id to) tob fob) in
    snd (teardown_connection order legs1 (connection_id from)) !! peer leg = Some back.
Proof.
  intros Hr Hl Ht Hc1 Hc2. destruct (routes_paired _ Hr _ _ Hl) as [Hd (back & Hb & Hpb)].
  exists back. split_and!; [done..|]. destruct to as [tc ts]. simpl in *. unfold teardown_connection.
  set (to := {| connection_id := tc; stream_id := ts |}) in *.
  set (legs1 := <[to:=_]> _).
  assert (legs1 !! peer leg = Some back) as Hb1.
  { unfold legs1. rewrite !lookup_insert_ne; [done|congruence..]. }
  assert (forall k l, legs1 !! k = Some l -> connection_id k = connection_id from -> peer l <> peer leg) as Hno.
  { intros k l Hkl Hk Heq. unfold legs1 in Hkl.
    apply lookup_insert_Some in Hkl as [[<- <-]|[_ Hkl]]; [done|].
    apply lookup_insert_Some in Hkl as [[<- <-]|[Hkn Hkl]]; [simpl in Heq; congruence|].
    destruct (routes_paired _ Hr _ _ Hkl) as [_ (b2 & Hb2 & Hpb2)]. rewrite Heq in Hb2. simplify_eq. }
  apply (teardown_keys_spares _ (connection_id from)); [|done..].
  intros k Hk. by apply elem_of_connection_keys in Hk as [? _].
Qed.

(** ** Witnesses *)

Definition end_of (c s : Z) : RouteKey := {| connection_id := c; stream_id := s |}.

(** Two nodes on connections 1 and 2 with streams 1/2 and 3/4 routed. *)
Definition two_routes : gmap RouteKey RouteLeg :=
  route_exec (route_exec ∅ (RouteOpen (end_of 1 1) (end_of 2 2) 20 10))
             (RouteOpen (end_of 1 3) (end_of 2 4) 20 10).

Lemma two_routes_reach : routes_reach two_routes.
Proof. repeat (apply routes_step || apply routes_init); repeat split; vm_compute; done. Qed.

Definition forward_leg : RouteLeg := {| peer := end_of 2 2; peer_outbound := 20; closed := false |}.

Lemma routes_stay_paired_witness : paired two_routes /\ Z.of_nat (size two_routes) = 4.
Proof.
  destruct (routes_stay_paired two_routes two_routes_reach) as [H1 H2].
  split; [exact H1|]. rewrite H2. vm_compute. reflexivity.
Defined.

Lemma half_close_is_directional_witness :
  lookup_route (snd (close_leg two_routes (end_of 1 1))) (end_of 1 1) = LookupClosed.
Proof.
  destruct (half_close_is_directional two_routes (end_of 1 1) forward_leg two_routes_reach eq_refl)
    as [_ H].
  destruct (H eq_refl) as (_ & _ & H3). exact (proj1 (proj2 H3)).
Defined.

Lemma teardown_connection_ends_its_routes_witness :
  stream_count two_routes = 2 + stream_count ∅.
Proof.
  apply (teardown_connection_ends_its_routes two_routes
    [end_of 1 1; end_of 1 3; end_of 2 2; end_of 2 4] 1 [(20, 2); (20, 4)] ∅ two_routes_reach).
  - intros key [leg Hl]. apply elem_of_map_to_list in Hl.
    assert (key ∈ (map_to_list two_routes).*1) as Hin by (by apply (list_elem_of_fmap_2 fst _ (key, leg))).
    revert Hin. vm_compute ((map_to_list two_routes).*1). set_solver.
  - vm_compute. reflexivity.
Defined.

Lemma reopened_stream_orphans_a_leg_witness :
  exists back, two_routes !! end_of 2 2 = Some back /\ peer back = end_of 1 1.
Proof.
  destruct (reopened_stream_orphans_a_leg two_routes (end_of 1 1) forward_leg (end_of 2 6) 20 10
    [end_of 1 1; end_of 1 3] two_routes_reach eq_refl eq_refl) as (b & H1 & H2 & _).
  - discriminate.
  - discriminate.
  - exists b. split; [exact H1|exact H2].
Defined.
