(* ===== verification/Text.v ===== *)
(** * Text: the string operations of the relay's tables

    [str::to_lowercase], [str::trim] and [str::parse::<IpAddr>] are Unicode
    or address-grammar functions of the Rust standard library; the class
    [RustText] states what the relay relies on, and [ascii_text] is an
    instance that is exact on ASCII. Paths are joined as on Unix. *)

From S2P Require Import Prelude Bytes.

Class RustText := {
  to_lowercase : string -> string;
  trim : string -> string;
  parses_as_ip : string -> bool;
  (** On ASCII, Unicode lowercasing is the ASCII one. *)
  to_lowercase_ascii : forall s, is_ascii s = true -> to_lowercase s = ascii_lower s;
  (** A string without leading or trailing white space is its own trim;
      trimming twice is trimming once. *)
  trim_trim : forall s, trim (trim s) = trim s;
}.

(** [str::starts_with] and [str::ends_with] a character, on bytes. *)
Definition starts_with (p s : string) : bool := String.prefix p s.

Definition ends_with_dot (s : string) : bool :=
  match List.rev (as_bytes s) with b :: _ => Byte.eqb b x2e | [] => false end.

(** [String::pop] of a string that ends in an ASCII character. *)
Definition pop (s : string) : string :=
  String.string_of_list_byte (List.removelast (as_bytes s)).

(** [Path::join] on Unix: an absolute second path replaces the first, and a
    separator is added unless the first already ends in one. *)
Definition ends_with_slash (s : string) : bool :=
  match List.rev (as_bytes s) with b :: _ => Byte.eqb b x2f | [] => false end.

Definition path_join (dir p : string) : string :=
  if starts_with "/" p then p
  else if bool_decide (dir = EmptyString) || ends_with_slash dir then (dir +:+ p)%string
  else (dir +:+ "/" +:+ p)%string.

(** The file name of a path directly under [dir]. *)
Definition file_name_in (dir path : string) : option string :=
  let d := (dir +:+ "/")%string in
  if starts_with d path then
    let name := String.substring (String.length d) (String.length path - String.length d) path in
    if existsb (Byte.eqb x2f) (as_bytes name) then None else Some name
  else None.

(** ** An ASCII instance *)

Definition ascii_space (b : byte) : bool :=
  Byte.eqb b x20 || in_range 9 13 b.

Fixpoint drop_spaces (bs : list byte) : list byte :=
  match bs with
  | b :: bs' => if ascii_space b then drop_spaces bs' else bs
  | [] => []
  end.

Definition ascii_trim (s : string) : string :=
  String.string_of_list_byte (List.rev (drop_spaces (List.rev (drop_spaces (as_bytes s))))).

(** A dotted quad: four runs of one to three digits, each below 256 and
    without a leading zero. *)
Fixpoint quad (octets : nat) (digits : list Z) (bs : list byte) : bool :=
  let octet_ok :=
    match digits with
    | [] => false
    | [d] => true
    | [e; d] => negb (d =? 0)
    | [f; e; d] => negb (d =? 0) && (100 * d + 10 * e + f <=? 255)
    | _ => false
    end in
  match bs with
  | [] => octet_ok && Nat.eqb octets 3
  | b :: bs' =>
      if Byte.eqb b x2e then octet_ok && quad (S octets) [] bs'
      else if in_range 48 57 b then quad octets ((byte_val b - 48) :: digits) bs'
      else false
  end.

Definition ascii_is_ip (s : string) : bool := quad 0 [] (as_bytes s).

Lemma drop_spaces_idem bs : drop_spaces (drop_spaces bs) = drop_spaces bs.
Proof. induction bs as [|b bs IH]; simpl; [done|]. destruct (ascii_space b) eqn:E; [done|]. simpl. by rewrite E. Qed.

Lemma drop_spaces_head bs :
  drop_spaces bs = [] \/ exists b bs', drop_spaces bs = b :: bs' /\ ascii_space b = false.
Proof. induction bs as [|b bs IH]; simpl; [by left|]. destruct (ascii_space b) eqn:E; [done|]. right. eauto. Qed.

Lemma drop_spaces_app bs b : ascii_space b = false ->
  exists bs', drop_spaces (bs ++ [b]) = bs' ++ [b].
Proof.
  intros Hb. induction bs as [|c bs [bs' IH]]; simpl; [rewrite Hb; by exists []|].
  destruct (ascii_space c); [eauto|]. by exists (c :: bs).
Qed.

Lemma trim_ends bs :
  let t := List.rev (drop_spaces (List.rev (drop_spaces bs))) in drop_spaces t = t.
Proof.
  simpl. destruct (drop_spaces_head bs) as [->|(b & bs' & -> & Hb)]; [done|].
  simpl. destruct (drop_spaces_app (List.rev bs') b Hb) as [r ->].
  rewrite rev_app_distr. simpl. by rewrite Hb.
Qed.

Lemma ascii_trim_trim s : ascii_trim (ascii_trim s) = ascii_trim s.
Proof.
  unfold ascii_trim. f_equal. unfold as_bytes at 1. rewrite String.list_byte_of_string_of_list_byte.
  pose proof (trim_ends (as_bytes s)) as H. simpl in H. rewrite H.
  by rewrite List.rev_involutive, drop_spaces_idem.
Qed.

#[global] Instance ascii_text : RustText :=
  {| to_lowercase := ascii_lower; trim := ascii_trim; parses_as_ip := ascii_is_ip;
     to_lowercase_ascii := fun s _ => eq_refl; trim_trim := ascii_trim_trim |}.
