(* ===== verification/Utf8.v ===== *)
(** * Decoding UTF-8

    Characters are Unicode scalar values; a Rust [String] seen through
    [chars()] is a list of them. The file models the part of
    [core::str::from_utf8] the terminal uses: the characters of the longest
    valid prefix, its length ([valid_up_to]) and the kind of the first error
    ([error_len]), and on top of it [decode_utf8_chars] of
    [src/terminal/ansi.rs], the decoder that keeps an incomplete last
    character for the next call. The decoder is proved equal to one that reads
    a character at a time, from which follows that it does not matter how the
    input is cut into calls. *)

From S2P Require Import Prelude Bytes.

(** A Rust [char], and a [String] as its [chars()]. *)
Abbreviation char := Z (only parsing).
Abbreviation text := (list Z) (only parsing).

Definition REPLACEMENT_CHARACTER : char := 0xFFFD.

(** Characters of an ASCII literal. *)
Definition lit (s : string) : text := map byte_val (as_bytes s).

(** [char::is_control]: the general category Cc. *)
Definition is_control (ch : char) : bool := (ch <? 0x20) || ((0x7F <=? ch) && (ch <? 0xA0)).

(** The bits of a continuation byte. *)
Definition cont_bits (b : byte) : Z := Z.land (byte_val b) 0x3F.

Definition char2 (b1 b2 : byte) : char :=
  Z.lor (Z.shiftl (Z.land (byte_val b1) 0x1F) 6) (cont_bits b2).
Definition char3 (b1 b2 b3 : byte) : char :=
  Z.lor (Z.shiftl (Z.land (byte_val b1) 0x0F) 12)
    (Z.lor (Z.shiftl (cont_bits b2) 6) (cont_bits b3)).
Definition char4 (b1 b2 b3 b4 : byte) : char :=
  Z.lor (Z.shiftl (Z.land (byte_val b1) 0x07) 18)
    (Z.lor (Z.shiftl (cont_bits b2) 12)
       (Z.lor (Z.shiftl (cont_bits b3) 6) (cont_bits b4))).

(** What stands at the head of a byte string: a character and its length, a
    malformed sequence of some length, or the beginning of a character whose
    rest is missing. [error_len] of [core::str::Utf8Error] is [Some n] for
    [Malformed n] and [None] for [Incomplete]. *)
Inductive utf8_head :=
| Character (ch : char) (n : nat)
| Malformed (n : nat)
| Incomplete.

Definition utf8_next (bs : list byte) : utf8_head :=
  match bs with
  | [] => Incomplete
  | b1 :: r1 =>
      if byte_val b1 <? 128 then Character (byte_val b1) 1
      else if in_range 0xC2 0xDF b1 then
        match r1 with
        | [] => Incomplete
        | b2 :: _ => if is_cont b2 then Character (char2 b1 b2) 2 else Malformed 1
        end
      else if in_range 0xE0 0xEF b1 then
        match r1 with
        | [] => Incomplete
        | b2 :: r2 =>
            if utf8_second_of_3 b1 b2 then
              match r2 with
              | [] => Incomplete
              | b3 :: _ => if is_cont b3 then Character (char3 b1 b2 b3) 3 else Malformed 2
              end
            else Malformed 1
        end
      else if in_range 0xF0 0xF4 b1 then
        match r1 with
        | [] => Incomplete
        | b2 :: r2 =>
            if utf8_second_of_4 b1 b2 then
              match r2 with
              | [] => Incomplete
              | b3 :: r3 =>
                  if is_cont b3 then
                    match r3 with
                    | [] => Incomplete
                    | b4 :: _ =>
                        if is_cont b4 then Character (char4 b1 b2 b3 b4) 4 else Malformed 3
                    end
                  else Malformed 2
              end
            else Malformed 1
        end
      else Malformed 1
  end.

(** [core::str::from_utf8]: the characters before the first error, their
    length in bytes ([valid_up_to]) and the error's [error_len], if there is
    an error. [skip] counts the bytes of the current character that are still
    to be passed. *)
Record utf8_result := {
  valid_chars : text;
  valid_up_to : nat;
  utf8_error : option (option nat)
}.

Definition utf8_cons (ch : char) (n : nat) (r : utf8_result) : utf8_result :=
  {| valid_chars := ch :: valid_chars r; valid_up_to := n + valid_up_to r;
     utf8_error := utf8_error r |}.

Fixpoint str_from_utf8_at (skip : nat) (bs : list byte) : utf8_result :=
  match bs with
  | [] => {| valid_chars := []; valid_up_to := 0; utf8_error := None |}
  | b :: rest =>
      match skip with
      | S k => str_from_utf8_at k rest
      | O =>
          match utf8_next bs with
          | Character ch n => utf8_cons ch n (str_from_utf8_at (pred n) rest)
          | Malformed n =>
              {| valid_chars := []; valid_up_to := 0; utf8_error := Some (Some n) |}
          | Incomplete => {| valid_chars := []; valid_up_to := 0; utf8_error := Some None |}
          end
      end
  end.

Definition str_from_utf8 (bs : list byte) : utf8_result := str_from_utf8_at 0 bs.

(** [decode_utf8_chars]: the characters, and what is appended to
    [pending_utf8]. The loop's [index] is [skip] bytes ahead of [bytes]. *)
Fixpoint decode_loop (skip : nat) (bytes : list byte) : text * list byte :=
  match bytes with
  | [] => ([], [])
  | _ :: rest =>
      match skip with
      | S k => decode_loop k rest
      | O =>
          let r := str_from_utf8 bytes in
          match utf8_error r with
          | None => (valid_chars r, [])
          | Some error_len =>
              match valid_up_to r with
              | S k => let '(output, pending) := decode_loop k rest in
                       (valid_chars r ++ output, pending)
              | O =>
                  match error_len with
                  | Some invalid_len =>
                      let '(output, pending) := decode_loop (pred invalid_len) rest in
                      (REPLACEMENT_CHARACTER :: output, pending)
                  | None => ([], bytes)
                  end
              end
          end
      end
  end.

Definition decode_utf8_chars (bytes pending_utf8 : list byte) : text * list byte :=
  let '(output, pending) := decode_loop 0 bytes in (output, pending_utf8 ++ pending).

(** [String::from_utf8_lossy]. *)
Definition from_utf8_lossy (bytes : list byte) : text :=
  let '(output, pending) := decode_utf8_chars bytes [] in
  output ++ match pending with [] => [] | _ => [REPLACEMENT_CHARACTER] end.

(** ** The reference decoder: one character at a time *)

Fixpoint decode_each (skip : nat) (bytes : list byte) : text * list byte :=
  match bytes with
  | [] => ([], [])
  | _ :: rest =>
      match skip with
      | S k => decode_each k rest
      | O =>
          match utf8_next bytes with
          | Character ch n =>
              let '(output, pending) := decode_each (pred n) rest in (ch :: output, pending)
          | Malformed n =>
              let '(output, pending) := decode_each (pred n) rest in
              (REPLACEMENT_CHARACTER :: output, pending)
          | Incomplete => ([], bytes)
          end
      end
  end.

(** ** Heads of byte strings *)

Lemma utf8_next_length bs :
  match utf8_next bs with
  | Character _ n | Malformed n => (1 <= n <= length bs)%nat
  | Incomplete => True
  end.
Proof.
  destruct bs as [|b1 [|b2 [|b3 [|b4 r]]]]; simpl; repeat case_match; simpl in *; simplify_eq;
    lia.
Qed.

(** More input only changes an incomplete head. *)
Lemma utf8_next_app x y :
  utf8_next x <> Incomplete -> utf8_next (x ++ y) = utf8_next x.
Proof.
  destruct x as [|b1 [|b2 [|b3 [|b4 r]]]]; simpl; try done;
    repeat case_match; done.
Qed.

Lemma decode_each_skip k bs : decode_each k bs = decode_each 0 (drop k bs).
Proof. revert bs. induction k as [|k IH]; intros [|b bs]; simpl; try done. Qed.

Lemma str_from_utf8_skip k bs : str_from_utf8_at k bs = str_from_utf8 (drop k bs).
Proof. revert bs. induction k as [|k IH]; intros [|b bs]; simpl; try done. Qed.

Lemma decode_loop_skip k bs : decode_loop k bs = decode_loop 0 (drop k bs).
Proof. revert bs. induction k as [|k IH]; intros [|b bs]; simpl; try done. Qed.

Lemma drop_pred n {A} (b : A) bs : (1 <= n)%nat -> drop (pred n) bs = drop n (b :: bs).
Proof. intros. destruct n; [lia|]. done. Qed.

(** The equation of the reference decoder on a nonempty string. *)
Lemma decode_each_eq bs : bs <> [] ->
  decode_each 0 bs =
  match utf8_next bs with
  | Character ch n => let '(o, p) := decode_each 0 (drop n bs) in (ch :: o, p)
  | Malformed n => let '(o, p) := decode_each 0 (drop n bs) in (REPLACEMENT_CHARACTER :: o, p)
  | Incomplete => ([], bs)
  end.
Proof.
  intros Hb. destruct bs as [|b rest]; [done|].
  pose proof (utf8_next_length (b :: rest)) as Hn.
  change (decode_each 0 (b :: rest)) with
    (match utf8_next (b :: rest) with
     | Character ch n => let '(o, p) := decode_each (pred n) rest in (ch :: o, p)
     | Malformed n => let '(o, p) := decode_each (pred n) rest in (REPLACEMENT_CHARACTER :: o, p)
     | Incomplete => ([], b :: rest)
     end).
  destruct (utf8_next (b :: rest)) as [ch n|n|]; [| |done];
    rewrite decode_each_skip, (drop_pred n b) by lia; done.
Qed.

Lemma str_from_utf8_eq bs : bs <> [] ->
  str_from_utf8 bs =
  match utf8_next bs with
  | Character ch n => utf8_cons ch n (str_from_utf8 (drop n bs))
  | Malformed n => {| valid_chars := []; valid_up_to := 0; utf8_error := Some (Some n) |}
  | Incomplete => {| valid_chars := []; valid_up_to := 0; utf8_error := Some None |}
  end.
Proof.
  intros Hb. destruct bs as [|b rest]; [done|].
  pose proof (utf8_next_length (b :: rest)) as Hn.
  change (str_from_utf8 (b :: rest)) with
    (match utf8_next (b :: rest) with
     | Character ch n => utf8_cons ch n (str_from_utf8_at (pred n) rest)
     | Malformed n => {| valid_chars := []; valid_up_to := 0; utf8_error := Some (Some n) |}
     | Incomplete => {| valid_chars := []; valid_up_to := 0; utf8_error := Some None |}
     end).
  destruct (utf8_next (b :: rest)) as [ch n|n|]; [|done|done].
  rewrite str_from_utf8_skip, (drop_pred n b) by lia. done.
Qed.

(** Induction on the length of a byte string. *)
Lemma bytes_len_ind (P : list byte -> Prop) :
  (forall bs, (forall cs, (length cs < length bs)%nat -> P cs) -> P bs) -> forall bs, P bs.
Proof.
  intros H bs. remember (length bs) as n eqn:Hn. revert bs Hn.
  induction n as [n IH] using (well_founded_induction lt_wf). intros bs ->.
  apply H. intros cs Hc. by apply (IH (length cs)).
Qed.

(** What the validator reports, in terms of the reference decoder. *)
Lemma str_from_utf8_spec bs :
  let r := str_from_utf8 bs in
  (valid_up_to r <= length bs)%nat /\
  decode_each 0 bs =
    (let '(o, p) := decode_each 0 (drop (valid_up_to r) bs) in (valid_chars r ++ o, p)) /\
  match utf8_error r with
  | None => drop (valid_up_to r) bs = []
  | Some e =>
      drop (valid_up_to r) bs <> [] /\
      utf8_next (drop (valid_up_to r) bs) =
        match e with Some n => Malformed n | None => Incomplete end /\
      (valid_up_to r = 0%nat -> valid_chars r = [])
  end.
Proof.
  induction bs as [bs IH] using bytes_len_ind. destruct (decide (bs = [])) as [->|Hb]; [done|].
  cbv zeta. rewrite (str_from_utf8_eq bs Hb).
  pose proof (utf8_next_length bs) as Hn. pose proof (decode_each_eq bs Hb) as He.
  destruct (utf8_next bs) as [ch n|n|] eqn:Hh;
    cbn [valid_up_to valid_chars utf8_error utf8_cons].
  - assert (Hl : (length (drop n bs) < length bs)%nat) by (rewrite length_drop; lia).
    destruct (IH _ Hl) as (H1 & H2 & H3). rewrite length_drop in H1.
    split_and!; [lia| |].
    + rewrite He, H2, <- drop_drop. destruct (decode_each 0 (drop _ (drop n bs))). reflexivity.
    + rewrite <- drop_drop. destruct (utf8_error _) as [e|]; [|done].
      destruct H3 as (? & ? & _). split_and!; [done|done|lia].
  - rewrite drop_0. split_and!; [lia| |done|done|done]. by destruct (decode_each 0 bs).
  - rewrite drop_0. split_and!; [lia| |done|done|done]. by destruct (decode_each 0 bs).
Qed.

(** The bulk decoder agrees with the reference. *)
Lemma decode_loop_each bs : decode_loop 0 bs = decode_each 0 bs.
Proof.
  induction bs as [bs IH] using bytes_len_ind. destruct bs as [|b rest]; [done|].
  destruct (str_from_utf8_spec (b :: rest)) as (H1 & H2 & H3).
  cbn [decode_loop]. set (r := str_from_utf8 (b :: rest)) in *. cbv zeta in *.
  destruct (utf8_error r) as [e|].
  - destruct H3 as (Hd & Hn & Hz). destruct (valid_up_to r) as [|k] eqn:Hk.
    + rewrite Hz, drop_0 in H2 by done. rewrite drop_0 in Hn.
      rewrite decode_each_eq, Hn by done. pose proof (utf8_next_length (b :: rest)) as Hl.
      rewrite Hn in Hl. destruct e as [n|]; [|done].
      rewrite decode_loop_skip, (drop_pred n b) by lia.
      rewrite IH; [done|]. rewrite length_drop. simpl in *. lia.
    + rewrite H2, decode_loop_skip. cbn [drop].
      rewrite IH; [done|]. rewrite length_drop. simpl. lia.
  - rewrite H2, H3. simpl. by rewrite app_nil_r.
Qed.

(** Decoding in two pieces is decoding at once: the second piece starts with
    what the first one left. *)
Lemma decode_each_app x y :
  decode_each 0 (x ++ y) =
    (let '(o1, p) := decode_each 0 x in
     let '(o2, q) := decode_each 0 (p ++ y) in (o1 ++ o2, q)).
Proof.
  induction x as [x IH] using bytes_len_ind. destruct (decide (x = [])) as [->|Hx].
  - simpl. by destruct (decode_each 0 y).
  - rewrite (decode_each_eq x) by done.
    assert (Hxy : x ++ y <> []) by (by destruct x).
    rewrite (decode_each_eq (x ++ y) Hxy).
    pose proof (utf8_next_length x) as Hl.
    destruct (utf8_next x) as [ch n|n|] eqn:Hh.
    + rewrite (utf8_next_app x y), Hh, drop_app_le, IH; [|rewrite length_drop; lia|lia|by rewrite Hh].
      destruct (decode_each 0 (drop n x)) as [o p].
      by destruct (decode_each 0 (p ++ y)).
    + rewrite (utf8_next_app x y), Hh, drop_app_le, IH; [|rewrite length_drop; lia|lia|by rewrite Hh].
      destruct (decode_each 0 (drop n x)) as [o p].
      by destruct (decode_each 0 (p ++ y)).
    + rewrite (decode_each_eq (x ++ y) Hxy). by repeat case_match.
Qed.

(** ** Encoding

    [char::encode_utf8], by the arithmetic of RFC 3629. *)

Definition scalar (ch : char) : Prop := 0 <= ch < 0xD800 \/ 0xE000 <= ch < 0x110000.

#[global] Instance scalar_dec ch : Decision (scalar ch).
Proof. unfold scalar. apply _. Defined.

Definition utf8_encode (ch : char) : list byte :=
  if ch <? 0x80 then [byte_of ch]
  else if ch <? 0x800 then [byte_of (0xC0 + ch / 64); byte_of (0x80 + ch mod 64)]
  else if ch <? 0x10000 then
    [byte_of (0xE0 + ch / 4096); byte_of (0x80 + ch / 64 mod 64); byte_of (0x80 + ch mod 64)]
  else
    [byte_of (0xF0 + ch / 262144); byte_of (0x80 + ch / 4096 mod 64);
     byte_of (0x80 + ch / 64 mod 64); byte_of (0x80 + ch mod 64)].

Definition text_bytes (t : text) : list byte := t ≫= utf8_encode.

Lemma byte_val_small z : 0 <= z < 256 -> byte_val (byte_of z) = z.
Proof. intros. rewrite byte_val_of. apply Z.mod_small. lia. Qed.

(** Joining bit fields is addition. *)
Lemma lor_shift a b k : 0 <= k -> 0 <= b < 2 ^ k -> Z.lor (Z.shiftl a k) b = a * 2 ^ k + b.
Proof.
  intros Hk Hb. rewrite <- Z.add_nocarry_lor, Z.shiftl_mul_pow2; [done|done|].
  replace b with (Z.land b (Z.ones k)) by (rewrite Z.land_ones, Z.mod_small by lia; lia).
  rewrite (Z.land_comm b), Z.land_assoc, Z.land_ones, Z.shiftl_mul_pow2 by lia.
  by rewrite Z.mod_mul by lia.
Qed.

Lemma field_mod k m a : 0 <= a < m -> (k * m + a) mod m = a.
Proof. intros. rewrite Z.add_comm, Z.mod_add by lia. apply Z.mod_small. lia. Qed.

Lemma cont_bits_of z : 0 <= z < 64 -> cont_bits (byte_of (0x80 + z)) = z.
Proof.
  intros Hz. unfold cont_bits. rewrite byte_val_small by lia.
  change 0x3F with (Z.ones 6). rewrite Z.land_ones by lia.
  exact (field_mod 2 64 z Hz).
Qed.

Lemma is_cont_of z : 0 <= z < 64 -> is_cont (byte_of (0x80 + z)) = true.
Proof.
  intros. unfold is_cont, in_range. rewrite byte_val_small by lia.
  apply andb_true_intro. split; apply Z.leb_le; lia.
Qed.

Lemma in_range_of lo hi z : 0 <= z < 256 ->
  in_range lo hi (byte_of z) = bool_decide (lo <= z <= hi).
Proof.
  intros. unfold in_range. rewrite byte_val_small by lia. case_bool_decide as Hz.
  - apply andb_true_intro. split; apply Z.leb_le; lia.
  - apply andb_false_iff. destruct (Z.leb_spec lo z); [right; apply Z.leb_gt; lia|by left].
Qed.

Lemma char2_of a b : 0 <= a < 32 -> 0 <= b < 64 ->
  char2 (byte_of (0xC0 + a)) (byte_of (0x80 + b)) = a * 64 + b.
Proof.
  intros. unfold char2. rewrite cont_bits_of, byte_val_small by lia.
  change 0x1F with (Z.ones 5). rewrite Z.land_ones, lor_shift by lia.
  change (2 ^ 5) with 32. replace ((192 + a) mod 32) with a by (symmetry; by apply (field_mod 6 32)). done.
Qed.

Lemma char3_of a b c : 0 <= a < 16 -> 0 <= b < 64 -> 0 <= c < 64 ->
  char3 (byte_of (0xE0 + a)) (byte_of (0x80 + b)) (byte_of (0x80 + c)) = a * 4096 + b * 64 + c.
Proof.
  intros. unfold char3. rewrite !cont_bits_of, byte_val_small by lia.
  change 0x0F with (Z.ones 4). rewrite Z.land_ones, (lor_shift b c 6) by lia.
  rewrite lor_shift by (change (2 ^ 6) with 64; change (2 ^ 12) with 4096; lia).
  change (2 ^ 4) with 16. replace ((224 + a) mod 16) with a by (symmetry; by apply (field_mod 14 16)). lia.
Qed.

Lemma char4_of a b c d : 0 <= a < 8 -> 0 <= b < 64 -> 0 <= c < 64 -> 0 <= d < 64 ->
  char4 (byte_of (0xF0 + a)) (byte_of (0x80 + b)) (byte_of (0x80 + c)) (byte_of (0x80 + d))
    = a * 262144 + b * 4096 + c * 64 + d.
Proof.
  intros. unfold char4. rewrite !cont_bits_of, byte_val_small by lia.
  change 0x07 with (Z.ones 3). rewrite Z.land_ones, (lor_shift c d 6) by lia.
  rewrite (lor_shift b _ 12) by (change (2 ^ 6) with 64; change (2 ^ 12) with 4096; lia).
  rewrite lor_shift
    by (change (2 ^ 6) with 64; change (2 ^ 12) with 4096; change (2 ^ 18) with 262144; lia).
  change (2 ^ 3) with 8. replace ((240 + a) mod 8) with a by (symmetry; by apply (field_mod 30 8)). lia.
Qed.

(** A range test on an encoded byte is a comparison of integers. *)
Ltac utf8_tests :=
  unfold utf8_second_of_3, utf8_second_of_4;
  rewrite ?in_range_of by lia;
  rewrite <- ?bool_decide_and, <- ?bool_decide_or.

Lemma utf8_next_2 a b r : 2 <= a < 32 -> 0 <= b < 64 ->
  utf8_next (byte_of (0xC0 + a) :: byte_of (0x80 + b) :: r) = Character (a * 64 + b) 2.
Proof.
  intros. cbn [utf8_next]. rewrite byte_val_small, ltb_le_false by lia.
  utf8_tests. rewrite bool_decide_true, is_cont_of, char2_of by lia. done.
Qed.

Lemma utf8_next_3 a b c r : 0 <= a < 16 -> 0 <= b < 64 -> 0 <= c < 64 ->
  (a = 0 -> 32 <= b) -> (a = 13 -> b < 32) ->
  utf8_next (byte_of (0xE0 + a) :: byte_of (0x80 + b) :: byte_of (0x80 + c) :: r)
    = Character (a * 4096 + b * 64 + c) 3.
Proof.
  intros. cbn [utf8_next]. rewrite byte_val_small, ltb_le_false by lia.
  utf8_tests. rewrite bool_decide_false, !bool_decide_true, is_cont_of, char3_of by lia. done.
Qed.

Lemma utf8_next_4 a b c d r : 0 <= a < 5 -> 0 <= b < 64 -> 0 <= c < 64 -> 0 <= d < 64 ->
  (a = 0 -> 16 <= b) -> (a = 4 -> b < 16) ->
  utf8_next (byte_of (0xF0 + a) :: byte_of (0x80 + b) :: byte_of (0x80 + c)
               :: byte_of (0x80 + d) :: r)
    = Character (a * 262144 + b * 4096 + c * 64 + d) 4.
Proof.
  intros. cbn [utf8_next]. rewrite byte_val_small, ltb_le_false by lia. utf8_tests.
  rewrite 2!bool_decide_false, 2!bool_decide_true, 2!is_cont_of, char4_of by lia. done.
Qed.

Lemma utf8_next_encode ch r : scalar ch ->
  utf8_next (utf8_encode ch ++ r) = Character ch (length (utf8_encode ch)).
Proof.
  intros Hs. unfold scalar in Hs. unfold utf8_encode.
  destruct (Z.ltb_spec ch 0x80); [|destruct (Z.ltb_spec ch 0x800);
    [|destruct (Z.ltb_spec ch 0x10000)]]; cbn [app length].
  - cbn [utf8_next]. rewrite byte_val_small by lia.
    by rewrite (proj2 (Z.ltb_lt ch 128)) by lia.
  - rewrite utf8_next_2 by (Z.to_euclidean_division_equations; lia).
    f_equal. Z.to_euclidean_division_equations; lia.
  - rewrite utf8_next_3 by (Z.to_euclidean_division_equations; lia).
    f_equal. Z.to_euclidean_division_equations; lia.
  - rewrite utf8_next_4 by (Z.to_euclidean_division_equations; lia).
    f_equal. Z.to_euclidean_division_equations; lia.
Qed.

Lemma decode_each_encode t r : Forall scalar t ->
  decode_each 0 (text_bytes t ++ r) = (let '(o, p) := decode_each 0 r in (t ++ o, p)).
Proof.
  induction 1 as [|ch t Hc Ht IH]; [simpl; by destruct (decode_each 0 r)|].
  unfold text_bytes in *. cbn [mbind list_bind]. rewrite <- app_assoc.
  pose proof (utf8_next_encode ch (mbind utf8_encode t ++ r) Hc) as Hn.
  rewrite decode_each_eq, Hn.
  - rewrite drop_app_length, IH. by destruct (decode_each 0 r).
  - pose proof (utf8_next_length (utf8_encode ch ++ mbind utf8_encode t ++ r)) as Hl.
    rewrite Hn in Hl. intros E. rewrite E in Hl. simpl in Hl. lia.
Qed.

(** ** The decoder's properties *)

(** [decode_utf8_chars], which validates whole runs at once, gives the
    characters and the pending bytes of the decoder that reads one character
    at a time. *)
Theorem decode_matches_reference bytes pending_utf8 :
  decode_utf8_chars bytes pending_utf8
    = (let '(output, pending) := decode_each 0 bytes in (output, pending_utf8 ++ pending)).
Proof. unfold decode_utf8_chars. by rewrite decode_loop_each. Qed.

(** Cutting the input anywhere, also inside a character, does not change what
    is decoded. *)
Lemma decode_in_pieces x y :
  decode_utf8_chars (x ++ y) []
    = (let '(o1, p) := decode_utf8_chars x [] in
       let '(o2, q) := decode_utf8_chars (p ++ y) [] in (o1 ++ o2, q)).
Proof.
  unfold decode_utf8_chars. rewrite !decode_loop_each, decode_each_app.
  destruct (decode_each 0 x) as [o p]. simpl. rewrite decode_loop_each.
  by destruct (decode_each 0 (p ++ y)).
Qed.

(** Decoding the UTF-8 encoding of any text gives the text back, with
    nothing pending and no replacement character. *)
Theorem decode_encode_text t : Forall scalar t -> decode_utf8_chars (text_bytes t) [] = (t, []).
Proof.
  intros Ht. unfold decode_utf8_chars. rewrite decode_loop_each.
  pose proof (decode_each_encode t [] Ht) as H. rewrite app_nil_r in H. rewrite H. simpl.
  by rewrite app_nil_r.
Qed.

Lemma decode_encode_text_witness :
  decode_utf8_chars (text_bytes [0x41; 0xE9; 0x4F60; 0x1F600]) []
    = ([0x41; 0xE9; 0x4F60; 0x1F600], []).
Proof. apply decode_encode_text. apply (bool_decide_unpack _). vm_compute. exact I. Defined.

#[global] Arguments decode_utf8_chars : simpl never.
#[global] Arguments from_utf8_lossy : simpl never.
