(* ===== verification/Str.v ===== *)
(** * Str: the operations of Rust's [str] and [Path] on characters

    A [&str] seen through [chars()] is a list of scalar values. Searching for
    a substring in UTF-8 bytes finds the same places as searching in the
    characters, so [contains], [starts_with], [split_once] and the like are
    written on characters. White space is Unicode's [White_Space], as in
    [char::is_whitespace]. *)

From S2P Require Import Prelude Bytes Utf8.

(** The characters of a literal of the source. *)
Definition utf8 (s : string) : text := from_utf8_lossy (as_bytes s).

(** ** White space *)

Definition is_whitespace (ch : char) : bool :=
  ((9 <=? ch) && (ch <=? 13)) || (ch =? 0x20) || (ch =? 0x85) || (ch =? 0xA0)
  || (ch =? 0x1680) || ((0x2000 <=? ch) && (ch <=? 0x200A)) || (ch =? 0x2028)
  || (ch =? 0x2029) || (ch =? 0x202F) || (ch =? 0x205F) || (ch =? 0x3000).

Fixpoint trim_start (t : text) : text :=
  match t with
  | ch :: t' => if is_whitespace ch then trim_start t' else t
  | [] => []
  end.

Definition trim_end (t : text) : text := rev (trim_start (rev t)).

Definition str_trim (t : text) : text := trim_end (trim_start t).

(** [str::trim_start_matches] with a character. *)
Fixpoint trim_start_matches (c : char) (t : text) : text :=
  match t with
  | ch :: t' => if ch =? c then trim_start_matches c t' else t
  | [] => []
  end.

(** ** Comparisons and searches *)

Definition ascii_lower_char (ch : char) : char :=
  if (65 <=? ch) && (ch <=? 90) then ch + 32 else ch.

Definition to_ascii_lowercase (t : text) : text := map ascii_lower_char t.

Definition eq_ignore_ascii_case (a b : text) : bool :=
  bool_decide (to_ascii_lowercase a = to_ascii_lowercase b).

Definition is_ascii_digit (ch : char) : bool := (48 <=? ch) && (ch <=? 57).

Fixpoint strip_prefix (p t : text) : option text :=
  match p, t with
  | [], _ => Some t
  | a :: p', b :: t' => if a =? b then strip_prefix p' t' else None
  | _ :: _, [] => None
  end.

Definition str_starts_with (p t : text) : bool := bool_decide (is_Some (strip_prefix p t)).

Definition strip_suffix (s t : text) : option text := @rev Z <$> strip_prefix (rev s) (rev t).

Definition str_ends_with (s t : text) : bool := bool_decide (is_Some (strip_suffix s t)).

Fixpoint str_contains (p t : text) : bool :=
  str_starts_with p t || match t with _ :: t' => str_contains p t' | [] => false end.

(** ** Splitting *)

(** [str::split_once]: what stands before and after the first occurrence. *)
Fixpoint split_once (p t : text) : option (text * text) :=
  match strip_prefix p t with
  | Some rest => Some ([], rest)
  | None =>
      match t with
      | ch :: t' =>
          match split_once p t' with
          | Some (before, rest) => Some (ch :: before, rest)
          | None => None
          end
      | [] => None
      end
  end.

(** [str::split] at the characters [sep] holds of. *)
Fixpoint split_by (sep : char -> bool) (t : text) : list text :=
  match t with
  | [] => [[]]
  | ch :: t' =>
      if sep ch then [] :: split_by sep t'
      else match split_by sep t' with
           | w :: ws => (ch :: w) :: ws
           | [] => [[ch]]
           end
  end.

Definition nonempty (t : text) : bool := negb (bool_decide (t = [])).

Definition split_whitespace (t : text) : list text :=
  List.filter nonempty (split_by is_whitespace t).

(** [str::lines]: lines end in LF or CR LF, and an empty rest after the last
    end of line is not a line. *)
Definition strip_cr (line : text) : text :=
  match rev line with
  | 13 :: l => rev l
  | _ => line
  end.

(** Every piece but the last was ended by a LF. *)
Fixpoint ended_lines (pieces : list text) : list text :=
  match pieces with
  | [] => []
  | [l] => if nonempty l then [l] else []
  | l :: ls => strip_cr l :: ended_lines ls
  end.

Definition lines (t : text) : list text := ended_lines (split_by (Z.eqb 10) t).

(** ** Numbers

    [str::parse] of an unsigned [w]-bit integer: an optional plus sign and at
    least one digit; a value that does not fit is an error. *)

Fixpoint parse_digits (w acc : Z) (t : text) : option Z :=
  match t with
  | [] => Some acc
  | ch :: t' =>
      if is_ascii_digit ch then
        let v := 10 * acc + (ch - 48) in
        if v <? 2 ^ w then parse_digits w v t' else None
      else None
  end.

Definition parse_uint (w : Z) (t : text) : option Z :=
  let digits := match t with 43 :: t' => t' | _ => t end in
  if nonempty digits then parse_digits w 0 digits else None.

(** ** Paths

    [Path::file_name] on Unix: the last component, where empty components and
    [.] do not count and [..] is not a name. *)

Definition path_components (p : text) : list text :=
  List.filter (fun c => nonempty c && negb (bool_decide (c = utf8 "."))) (split_by (Z.eqb 47) p).

Definition file_name (p : text) : option text :=
  match last (path_components p) with
  | Some c => if bool_decide (c = utf8 "..") then None else Some c
  | None => None
  end.

(** ** What the operations compute *)

Lemma trim_start_head t :
  trim_start t = [] \/ exists ch t', trim_start t = ch :: t' /\ is_whitespace ch = false.
Proof. induction t as [|ch t IH]; simpl; [by left|]. destruct (is_whitespace ch) eqn:E; [done|]. right. eauto. Qed.

Lemma trim_start_idem t : trim_start (trim_start t) = trim_start t.
Proof. destruct (trim_start_head t) as [->|(ch & t' & -> & E)]; simpl; [done|by rewrite E]. Qed.

Lemma trim_start_snoc t ch : is_whitespace ch = false ->
  exists t', trim_start (t ++ [ch]) = t' ++ [ch].
Proof.
  intros E. induction t as [|c t [t' IH]]; simpl; [rewrite E; by exists []|].
  destruct (is_whitespace c); [eauto|]. by exists (c :: t).
Qed.

(** A trimmed text does not begin with white space. *)
Lemma trim_start_trim t : trim_start (str_trim t) = str_trim t.
Proof.
  unfold str_trim, trim_end. destruct (trim_start_head t) as [->|(ch & t' & -> & E)]; [done|].
  simpl. destruct (trim_start_snoc (rev t') ch E) as [r ->].
  rewrite rev_app_distr. simpl. by rewrite E.
Qed.

Lemma str_trim_idem t : str_trim (str_trim t) = str_trim t.
Proof.
  unfold str_trim at 1. rewrite trim_start_trim. unfold str_trim, trim_end.
  by rewrite rev_involutive, trim_start_idem.
Qed.

Lemma strip_prefix_Some p t rest : strip_prefix p t = Some rest <-> t = p ++ rest.
Proof.
  revert t. induction p as [|a p IH]; intros t; simpl; [naive_solver|].
  destruct t as [|b t]; simpl; [naive_solver|].
  destruct (Z.eqb_spec a b) as [->|Hab]; [rewrite IH; naive_solver|naive_solver].
Qed.

Lemma str_starts_with_spec p t : str_starts_with p t = true <-> exists rest, t = p ++ rest.
Proof.
  unfold str_starts_with. rewrite bool_decide_eq_true. unfold is_Some.
  by setoid_rewrite strip_prefix_Some.
Qed.

Lemma str_ends_with_spec s t : str_ends_with s t = true <-> exists front, t = front ++ s.
Proof.
  unfold str_ends_with, strip_suffix. rewrite bool_decide_eq_true, fmap_is_Some.
  unfold is_Some. setoid_rewrite strip_prefix_Some. split.
  - intros [r Hr]. exists (rev r). rewrite <- (rev_involutive t), Hr, rev_app_distr.
    by rewrite rev_involutive.
  - intros [f ->]. exists (rev f). by rewrite rev_app_distr.
Qed.

Lemma str_contains_spec p t : str_contains p t = true <-> exists a b, t = a ++ p ++ b.
Proof.
  induction t as [|ch t IH]; simpl; rewrite orb_true_iff, str_starts_with_spec.
  - split; [intros [[r Hr]|]; [|done]|]; [by exists [], r|].
    intros (a & b & Hab). left. destruct a; [by exists b|done].
  - rewrite IH. split.
    + intros [[r Hr]|(a & b & ->)]; [by exists [], r|by exists (ch :: a), b].
    + intros (a & b & Hab). destruct a as [|c a]; [left; by exists b|].
      right. simplify_list_eq. eauto.
Qed.

(** [split_once] finds the first occurrence. *)
Lemma split_once_Some p t a b : split_once p t = Some (a, b) -> t = a ++ p ++ b.
Proof.
  revert a. induction t as [|ch t IH]; intros a; simpl.
  - destruct (strip_prefix p []) as [r|] eqn:E; [|done]. intros [= <- <-].
    by apply strip_prefix_Some in E.
  - destruct (strip_prefix p (ch :: t)) as [r|] eqn:E.
    { intros [= <- <-]. by apply strip_prefix_Some in E. }
    destruct (split_once p t) as [[a' b']|] eqn:F; [|done]. intros [= <- <-].
    by rewrite (IH a' eq_refl).
Qed.

Lemma split_once_shorter p t a b : p <> [] -> split_once p t = Some (a, b) -> (length b < length t)%nat.
Proof.
  intros Hp H. apply split_once_Some in H as ->. rewrite !length_app.
  destruct p; [done|]. simpl. lia.
Qed.

Lemma split_by_nonempty sep t : split_by sep t <> [].
Proof. destruct t as [|ch t]; simpl; [done|]. destruct (sep ch); [done|]. by destruct (split_by sep t). Qed.

(** The pieces of a split hold no separator. *)
Lemma split_by_pieces sep t : Forall (Forall (fun ch => sep ch = false)) (split_by sep t).
Proof.
  induction t as [|ch t IH]; simpl; [by repeat constructor|].
  destruct (sep ch) eqn:E; [by constructor|].
  destruct (split_by sep t) as [|w ws]; [by repeat constructor|].
  apply Forall_cons in IH as [Hw Hws]. by repeat constructor.
Qed.

Lemma parse_digits_fits w acc t v : fits w acc -> parse_digits w acc t = Some v -> fits w v.
Proof.
  revert acc. induction t as [|ch t IH]; intros acc Ha; simpl; [congruence|].
  destruct (is_ascii_digit ch) eqn:E; [|done]. case_match eqn:F; [|done]. apply IH.
  unfold is_ascii_digit in E. apply andb_prop in E as [?%Z.leb_le ?%Z.leb_le].
  apply Z.ltb_lt in F. unfold fits in *. lia.
Qed.

Lemma parse_uint_fits w t v : 0 <= w -> parse_uint w t = Some v -> fits w v.
Proof.
  intros Hw. unfold parse_uint. case_match; [|done]. apply parse_digits_fits.
  unfold fits. pose proof (Z.pow_pos_nonneg 2 w). lia.
Qed.
