(* ===== verification/Ansi.v ===== *)
(** * Styles, colours and ANSI text

    [src/terminal/types.rs] and [src/terminal/ansi.rs]: cells and their
    styles, the escape sequence a style is written as, rendering a row of
    cells to styled text and reading such a line back into spans, the numeric
    parameters of control sequences, the DEC graphics character set and the
    width of characters. Rendering a row and parsing the line is proved to be
    the identity on styled runs. *)

From S2P Require Import Prelude Bytes Utf8.

(** ** Types ([types.rs]) *)

Record TerminalSize := { rows : Z; cols : Z; pixel_width : Z; pixel_height : Z }.

Inductive MouseReportingMode := MouseNone | Click | Drag | AnyMotion.
Inductive MouseEncoding := X10 | MouseUtf8 | Sgr.

Inductive ColorValue :=
| Indexed (index : Z)
| Rgb (red green blue : Z).

Record TextStyle := {
  bold : bool; dim : bool; italic : bool; underline : bool; blink : bool;
  inverse : bool; strikethrough : bool;
  foreground : option ColorValue; background : option ColorValue
}.

Definition default_style : TextStyle :=
  {| bold := false; dim := false; italic := false; underline := false; blink := false;
     inverse := false; strikethrough := false; foreground := None; background := None |}.

Record ScreenCell := { ch : char; style : TextStyle }.

Record SavedCursorState := { saved_row : Z; saved_col : Z; saved_style : TextStyle; valid : bool }.

Definition default_saved_cursor : SavedCursorState :=
  {| saved_row := 0; saved_col := 0; saved_style := default_style; valid := false |}.

Record ScreenSnapshot := {
  snap_size : TerminalSize;
  lines : list text;
  styled_lines : list text;
  active_style_ansi : text;
  snap_scrollback : list text;
  snap_scroll_top : Z;
  snap_scroll_bottom : Z;
  snap_window_title : option text;
  snap_cursor_row : Z;
  snap_cursor_col : Z;
  snap_cursor_visible : bool;
  alternate_screen : bool
}.

Record ScreenState := {
  normal_snapshot : ScreenSnapshot;
  alternate_snapshot : ScreenSnapshot;
  state_alternate_active : bool;
  state_cursor_keys : bool
}.

Definition active_snapshot (s : ScreenState) : ScreenSnapshot :=
  if state_alternate_active s then alternate_snapshot s else normal_snapshot s.

Definition WIDE_CONTINUATION : char := 0.

#[global] Instance size_eq_dec : EqDecision TerminalSize.
Proof. solve_decision. Defined.
#[global] Instance color_eq_dec : EqDecision ColorValue.
Proof. solve_decision. Defined.
#[global] Instance style_eq_dec : EqDecision TextStyle.
Proof. solve_decision. Defined.
#[global] Instance cell_eq_dec : EqDecision ScreenCell.
Proof. solve_decision. Defined.

(** Assignments to one attribute of a style. *)
Definition set_bold v s := {| bold := v; dim := dim s; italic := italic s; underline := underline s; blink := blink s; inverse := inverse s; strikethrough := strikethrough s; foreground := foreground s; background := background s |}.
Definition set_dim v s := {| bold := bold s; dim := v; italic := italic s; underline := underline s; blink := blink s; inverse := inverse s; strikethrough := strikethrough s; foreground := foreground s; background := background s |}.
Definition set_italic v s := {| bold := bold s; dim := dim s; italic := v; underline := underline s; blink := blink s; inverse := inverse s; strikethrough := strikethrough s; foreground := foreground s; background := background s |}.
Definition set_underline v s := {| bold := bold s; dim := dim s; italic := italic s; underline := v; blink := blink s; inverse := inverse s; strikethrough := strikethrough s; foreground := foreground s; background := background s |}.
Definition set_blink v s := {| bold := bold s; dim := dim s; italic := italic s; underline := underline s; blink := v; inverse := inverse s; strikethrough := strikethrough s; foreground := foreground s; background := background s |}.
Definition set_inverse v s := {| bold := bold s; dim := dim s; italic := italic s; underline := underline s; blink := blink s; inverse := v; strikethrough := strikethrough s; foreground := foreground s; background := background s |}.
Definition set_strikethrough v s := {| bold := bold s; dim := dim s; italic := italic s; underline := underline s; blink := blink s; inverse := inverse s; strikethrough := v; foreground := foreground s; background := background s |}.
Definition set_foreground v s := {| bold := bold s; dim := dim s; italic := italic s; underline := underline s; blink := blink s; inverse := inverse s; strikethrough := strikethrough s; foreground := v; background := background s |}.
Definition set_background v s := {| bold := bold s; dim := dim s; italic := italic s; underline := underline s; blink := blink s; inverse := inverse s; strikethrough := strikethrough s; foreground := foreground s; background := v |}.

(** ** Text: decimal numbers, splitting and joining *)

Fixpoint dec_digits (fuel : nat) (z : Z) : text :=
  match fuel with
  | O => []
  | S f => if z <? 10 then [48 + z] else dec_digits f (z / 10) ++ [48 + z mod 10]
  end.

(** [to_string] of an unsigned integer: 64 bits have at most 20 digits. *)
Definition to_decimal (z : Z) : text := dec_digits 20 z.

Definition is_digit (c : char) : bool := (48 <=? c) && (c <=? 57).

Fixpoint parse_digits (max acc : Z) (t : text) : option Z :=
  match t with
  | [] => Some acc
  | c :: r =>
      if is_digit c then
        let v := acc * 10 + (c - 48) in
        if v <=? max then parse_digits max v r else None
      else None
  end.

(** [str::parse::<u16>]: an optional plus sign and at least one digit; a value
    above 65535 is an error. *)
Definition parse_u16 (t : text) : option Z :=
  let digits := match t with 43 :: r => r | _ => t end in
  match digits with [] => None | _ => parse_digits 65535 0 digits end.

(** [str::split] at a character. *)
Fixpoint split (sep : char) (t : text) : list text :=
  match t with
  | [] => [[]]
  | c :: r =>
      if c =? sep then [] :: split sep r
      else match split sep r with
           | [] => [[c]]
           | w :: ws => (c :: w) :: ws
           end
  end.

Fixpoint join (sep : text) (ws : list text) : text :=
  match ws with
  | [] => []
  | [w] => w
  | w :: rest => w ++ sep ++ join sep rest
  end.

Definition ESC : char := 0x1B.

(** ** Writing a style ([TextStyle::to_ansi]) *)

Definition push_ansi_params (color : ColorValue) (fg : bool) : list text :=
  let prefix := if fg then lit "38" else lit "48" in
  match color with
  | Indexed index => [prefix; lit "5"; to_decimal index]
  | Rgb red green blue => [prefix; lit "2"; to_decimal red; to_decimal green; to_decimal blue]
  end.

Definition to_ansi (s : TextStyle) : text :=
  if decide (s = default_style) then ESC :: lit "[0m"
  else
    let flag (b : bool) (code : string) := if b then [lit code] else [] in
    let color (c : option ColorValue) (fg : bool) :=
      match c with Some c => push_ansi_params c fg | None => [] end in
    let params :=
      [lit "0"] ++ flag (bold s) "1" ++ flag (dim s) "2" ++ flag (italic s) "3"
      ++ flag (underline s) "4" ++ flag (blink s) "5" ++ flag (inverse s) "7"
      ++ flag (strikethrough s) "9"
      ++ color (foreground s) true ++ color (background s) false in
    ESC :: lit "[" ++ join (lit ";") params ++ lit "m".

(** ** Rows ([ansi.rs]) *)

Definition char_display_width (c : char) : Z :=
  if is_control c then 0
  else
    let within lo hi := (lo <=? c) && (c <=? hi) in
    if within 0x1100 0x115F || within 0x2329 0x232A || within 0x2E80 0xA4CF
       || within 0xAC00 0xD7A3 || within 0xF900 0xFAFF || within 0xFE10 0xFE19
       || within 0xFE30 0xFE6F || within 0xFF00 0xFF60 || within 0xFFE0 0xFFE6
       || within 0x1F300 0x1FAFF
    then 2 else 1.

Definition visible (row : list ScreenCell) : list ScreenCell :=
  filter (fun cell => ch cell <> WIDE_CONTINUATION) row.

Definition render_plain_row (row : list ScreenCell) : text := map ch (visible row).

Fixpoint render_cells (active : TextStyle) (cells : list ScreenCell) : text :=
  match cells with
  | [] => if decide (active = default_style) then [] else ESC :: lit "[0m"
  | cell :: rest =>
      if decide (style cell = active) then ch cell :: render_cells active rest
      else to_ansi (style cell) ++ ch cell :: render_cells (style cell) rest
  end.

Definition render_styled_row (row : list ScreenCell) : text :=
  render_cells default_style (visible row).

Definition blank_cell_with_style (s : TextStyle) : ScreenCell := {| ch := 32; style := s |}.
Definition blank_cell : ScreenCell := blank_cell_with_style default_style.

Definition blank_row_with_style (cols : Z) (s : TextStyle) : list ScreenCell :=
  replicate (Z.to_nat cols) (blank_cell_with_style s).

Definition blank_cells_with_style (size : TerminalSize) (s : TextStyle) : list (list ScreenCell) :=
  replicate (Z.to_nat (rows size)) (blank_row_with_style (cols size) s).

Definition blank_cells (size : TerminalSize) : list (list ScreenCell) :=
  blank_cells_with_style size default_style.

(** ** Parameters of control sequences *)

Definition parse_csi_numbers (params : text) : list Z :=
  match params with
  | [] => []
  | _ => map (fun value => default 0 (parse_u16 value)) (split 59 params)
  end.

Record SgrSegment := { code : Z; subparams : list Z }.

Definition parse_sgr_segment (segment : text) : SgrSegment :=
  match split 58 segment with
  | [] => {| code := 0; subparams := [] |}
  | value :: parts =>
      {| code := default 0 (parse_u16 value);
         subparams := map (fun value => default 0 (parse_u16 value)) parts |}
  end.

Definition parse_sgr_segments (params : text) : list SgrSegment :=
  match params with
  | [] => []
  | _ => map parse_sgr_segment (split 59 params)
  end.

Definition first_or (values : list Z) (d : Z) : Z := default d (values !! 0%nat).
Definition second_or (values : list Z) (d : Z) : Z := default d (values !! 1%nat).

(** DEC special graphics ([ESC ( 0]). *)
Definition translate_dec_graphics (c : char) : char :=
  match c with
  | 0x60 => 0x25C6 | 0x61 => 0x2592
  | 0x62 | 0x63 | 0x64 | 0x65 | 0x68 | 0x69 => 0x20
  | 0x66 => 0xB0 | 0x67 => 0xB1
  | 0x6A => 0x2518 | 0x6B => 0x2510 | 0x6C => 0x250C | 0x6D => 0x2514
  | 0x6E => 0x253C | 0x6F => 0x23BA | 0x70 => 0x23BB | 0x71 => 0x2500
  | 0x72 => 0x23BC | 0x73 => 0x23BD | 0x74 => 0x251C | 0x75 => 0x2524
  | 0x76 => 0x2534 | 0x77 => 0x252C | 0x78 => 0x2502 | 0x79 => 0x2264
  | 0x7A => 0x2265 | 0x7B => 0x3C0 | 0x7C => 0x2260 | 0x7D => 0xA3
  | 0x7E => 0xB7 | 0x5F => 0xA0
  | _ => c
  end.

(** ** Reading styled lines ([parse_ansi_styled_line]) *)

(** [value as u8] truncates. *)
Definition as_u8 (v : Z) : Z := wrap 8 v.

(** [parse_sgr_color(segments, start)] for the segment at [start] and those
    after it: the colour, and how many of the latter it uses, that is
    [next - start - 1]. *)
Definition parse_sgr_color (segment : SgrSegment) (rest : list SgrSegment) :
    option (ColorValue * nat) :=
  let semicolon :=
    match rest with
    | [] => None
    | mode :: operands =>
        match code mode, operands with
        | 5, index :: _ => Some (Indexed (as_u8 (code index)), 2%nat)
        | 2, r :: g :: b :: _ =>
            Some (Rgb (as_u8 (code r)) (as_u8 (code g)) (as_u8 (code b)), 4%nat)
        | _, _ => None
        end
    end in
  match subparams segment with
  | 5 :: v :: _ => Some (Indexed (as_u8 v), 0%nat)
  | 2 :: _ :: _ :: _ :: _ =>
      let n := length (subparams segment) in
      let at_ i := as_u8 (default 0 (subparams segment !! i)) in
      Some (Rgb (at_ (n - 3)%nat) (at_ (n - 2)%nat) (at_ (n - 1)%nat), 0%nat)
  | _ => semicolon
  end.

(** One segment that is not a colour. *)
Definition sgr_attribute (c : Z) (s : TextStyle) : TextStyle :=
  match c with
  | 0 => default_style
  | 1 => set_bold true s
  | 2 => set_dim true s
  | 3 => set_italic true s
  | 4 => set_underline true s
  | 5 => set_blink true s
  | 7 => set_inverse true s
  | 9 => set_strikethrough true s
  | 22 => set_dim false (set_bold false s)
  | 23 => set_italic false s
  | 24 => set_underline false s
  | 25 => set_blink false s
  | 27 => set_inverse false s
  | 29 => set_strikethrough false s
  | 39 => set_foreground None s
  | 49 => set_background None s
  | _ =>
      if (30 <=? c) && (c <=? 37) then set_foreground (Some (Indexed (as_u8 c - 30))) s
      else if (40 <=? c) && (c <=? 47) then set_background (Some (Indexed (as_u8 c - 40))) s
      else if (90 <=? c) && (c <=? 97) then set_foreground (Some (Indexed (as_u8 c - 82))) s
      else if (100 <=? c) && (c <=? 107) then set_background (Some (Indexed (as_u8 c - 92))) s
      else s
  end.

(** [apply_sgr_segments]; [skip] segments were used by a colour. *)
Fixpoint apply_segments (skip : nat) (s : TextStyle) (segments : list SgrSegment) : TextStyle :=
  match segments with
  | [] => s
  | segment :: rest =>
      match skip with
      | S k => apply_segments k s rest
      | O =>
          match code segment with
          | 38 =>
              match parse_sgr_color segment rest with
              | Some (color, used) => apply_segments used (set_foreground (Some color) s) rest
              | None => apply_segments 0 s rest
              end
          | 48 =>
              match parse_sgr_color segment rest with
              | Some (color, used) => apply_segments used (set_background (Some color) s) rest
              | None => apply_segments 0 s rest
              end
          | c => apply_segments 0 (sgr_attribute c s) rest
          end
      end
  end.

Definition apply_sgr_segments (s : TextStyle) (segments : list SgrSegment) : TextStyle :=
  apply_segments 0 s segments.

Definition is_ascii_alphabetic (c : char) : bool :=
  ((65 <=? c) && (c <=? 90)) || ((97 <=? c) && (c <=? 122)).

Definition flush_styled_span (spans : list (text * TextStyle)) (t : text) (s : TextStyle) :
    list (text * TextStyle) :=
  match t with [] => spans | _ => spans ++ [(t, s)] end.

(** The loop of [parse_ansi_styled_line]: [params] is [Some] while the inner
    loop collects the parameters of a control sequence. *)
Fixpoint parse_line (params : option text) (spans : list (text * TextStyle))
    (current_text : text) (s : TextStyle) (chars : text) : list (text * TextStyle) :=
  match chars with
  | [] => flush_styled_span spans current_text s
  | c :: rest =>
      match params with
      | Some ps =>
          if is_ascii_alphabetic c then
            if c =? 109 then
              let new_style := apply_sgr_segments s (parse_sgr_segments ps) in
              if decide (new_style = s) then parse_line None spans current_text s rest
              else parse_line None (flush_styled_span spans current_text s) [] new_style rest
            else parse_line None spans current_text s rest
          else parse_line (Some (ps ++ [c])) spans current_text s rest
      | None =>
          if c =? ESC then
            match rest with
            | 91 :: rest' => parse_line (Some []) spans current_text s rest'
            | _ => parse_line None spans current_text s rest
            end
          else parse_line None spans (current_text ++ [c]) s rest
      end
  end.

Definition parse_ansi_styled_line (line : text) : list (text * TextStyle) :=
  parse_line None [] [] default_style line.

(** ** Splitting what was joined *)

Lemma split_nonempty sep t : split sep t <> [].
Proof. destruct t; simpl; repeat case_match; done. Qed.

Lemma split_app sep w t : Forall (fun c => c <> sep) w ->
  split sep (w ++ sep :: t) = w :: split sep t.
Proof.
  induction 1 as [|c w Hc Hw IH]; simpl.
  - by rewrite Z.eqb_refl.
  - by rewrite (proj2 (Z.eqb_neq c sep)), IH by done.
Qed.

Lemma split_none sep w : Forall (fun c => c <> sep) w -> split sep w = [w].
Proof.
  induction 1 as [|c w Hc Hw IH]; simpl; [done|].
  by rewrite (proj2 (Z.eqb_neq c sep)), IH by done.
Qed.

Lemma split_join sep ws : ws <> [] -> Forall (Forall (fun c => c <> sep)) ws ->
  split sep (join [sep] ws) = ws.
Proof.
  intros Hne H. induction H as [|w ws Hw Hws IH]; [done|].
  destruct ws as [|v ws].
  - simpl. by rewrite split_none.
  - change (join [sep] (w :: v :: ws)) with (w ++ sep :: join [sep] (v :: ws)).
    rewrite split_app by done. by rewrite IH.
Qed.

(** ** The parameters of a written style *)

Lemma digit_all t : Forall (fun c => is_digit c = true) t ->
  Forall (fun c => c <> 59) t /\ Forall (fun c => c <> 58) t /\
  Forall (fun c => is_ascii_alphabetic c = false) t.
Proof.
  intros H. split_and!; (eapply Forall_impl; [exact H|]); intros c Hc;
    unfold is_digit, is_ascii_alphabetic in *; lia.
Qed.

Definition byte_params : list Z := seqZ 0 256.

Lemma byte_decimals :
  forallb (fun z => bool_decide (parse_u16 (to_decimal z) = Some z)
                    && forallb is_digit (to_decimal z)
                    && bool_decide (to_decimal z <> [])) byte_params = true.
Proof. vm_compute. reflexivity. Qed.

Lemma byte_decimal z : 0 <= z < 256 ->
  parse_u16 (to_decimal z) = Some z /\
  Forall (fun c => is_digit c = true) (to_decimal z) /\ to_decimal z <> [].
Proof.
  intros Hz. pose proof byte_decimals as H. rewrite forallb_forall in H.
  specialize (H z). rewrite <- list_elem_of_In in H. unfold byte_params in H.
  rewrite elem_of_seqZ in H. specialize (H ltac:(lia)).
  apply andb_prop in H as [H H3]. apply andb_prop in H as [H1 H2].
  apply bool_decide_eq_true in H1, H3. rewrite forallb_forall in H2.
  split_and!; [done| |done]. apply Forall_forall. intros c Hc.
  apply H2. by apply list_elem_of_In.
Qed.

(** The codes a style is written with. *)
Definition color_codes (c : option ColorValue) (prefix : Z) : list Z :=
  match c with
  | Some (Indexed i) => [prefix; 5; i]
  | Some (Rgb r g b) => [prefix; 2; r; g; b]
  | None => []
  end.

Definition flag_codes (s : TextStyle) : list Z :=
  let flag (b : bool) (c : Z) := if b then [c] else [] in
  flag (bold s) 1 ++ flag (dim s) 2 ++ flag (italic s) 3 ++ flag (underline s) 4
  ++ flag (blink s) 5 ++ flag (inverse s) 7 ++ flag (strikethrough s) 9.

Definition style_codes (s : TextStyle) : list Z :=
  (0 :: flag_codes s) ++ color_codes (foreground s) 38 ++ color_codes (background s) 48.

#[global] Arguments style_codes : simpl never.
#[global] Arguments to_decimal : simpl never.

Definition plain_segment (c : Z) : SgrSegment := {| code := c; subparams := [] |}.

(** A colour's components are bytes. *)
Definition color_ok (c : ColorValue) : Prop :=
  match c with
  | Indexed i => fits 8 i
  | Rgb r g b => fits 8 r /\ fits 8 g /\ fits 8 b
  end.

Definition style_ok (s : TextStyle) : Prop :=
  from_option color_ok True (foreground s) /\ from_option color_ok True (background s).

Lemma to_ansi_codes s :
  to_ansi s = ESC :: 91 :: join [59] (map to_decimal (style_codes s)) ++ [109].
Proof.
  unfold to_ansi. destruct (decide _) as [->|_]; [done|].
  unfold style_codes, flag_codes.
  destruct s as [b0 b1 b2 b3 b4 b5 b6 fg bg]; simpl.
  destruct b0, b1, b2, b3, b4, b5, b6;
    destruct fg as [[]|]; destruct bg as [[]|]; reflexivity.
Qed.

Lemma color_codes_bytes c prefix : fits 8 prefix -> from_option color_ok True c ->
  Forall (fits 8) (color_codes c prefix).
Proof.
  intros Hp Hc. assert (fits 8 5 /\ fits 8 2) as [] by (unfold fits; lia).
  destruct c as [[i|r g b]|]; simpl in *; repeat apply Forall_cons_2; try apply Forall_nil_2; naive_solver.
Qed.

Lemma flag_codes_bytes s : Forall (fits 8) (0 :: flag_codes s).
Proof.
  destruct s as [b0 b1 b2 b3 b4 b5 b6 fg bg].
  apply (bool_decide_unpack _). by destruct b0, b1, b2, b3, b4, b5, b6.
Qed.

Lemma style_codes_bytes s : style_ok s -> Forall (fits 8) (style_codes s).
Proof.
  intros [Hf Hb]. unfold style_codes. repeat apply Forall_app_2; [apply flag_codes_bytes|..];
    (apply color_codes_bytes; [unfold fits; lia|done]).
Qed.

Lemma parse_sgr_plain codes : codes <> [] -> Forall (fits 8) codes ->
  parse_sgr_segments (join [59] (map to_decimal codes)) = map plain_segment codes.
Proof.
  intros Hne Hc.
  assert (Hd : Forall (fun w => Forall (fun c => c <> 59) w /\ parse_sgr_segment w
                = plain_segment (default 0 (parse_u16 w))) (map to_decimal codes)).
  { apply Forall_map. eapply Forall_impl; [exact Hc|]. intros z Hz.
    destruct (byte_decimal z Hz) as (H1 & H2 & H3).
    destruct (digit_all _ H2) as (H59 & H58 & _). split; [done|].
    unfold parse_sgr_segment. by rewrite split_none. }
  assert (Hs : parse_sgr_segments (join [59] (map to_decimal codes))
               = map parse_sgr_segment (split 59 (join [59] (map to_decimal codes)))).
  { unfold parse_sgr_segments. destruct (join [59] _) as [|c w] eqn:E; [|done].
    exfalso. destruct codes as [|z codes]; [done|]. inversion Hc as [|? ? Hz Hzs]; subst.
    destruct (byte_decimal z Hz) as (_ & _ & H3).
    simpl in E. destruct (to_decimal z); [done|]. by destruct (map to_decimal codes). }
  rewrite Hs, split_join; [| by destruct codes | eapply Forall_impl; [exact Hd|by intros ? []]].
  rewrite map_map. apply map_ext_Forall. eapply Forall_impl; [exact Hc|].
  intros z Hz. destruct (byte_decimal z Hz) as (H1 & H2 & H3).
  destruct (digit_all _ H2) as (_ & H58 & _). unfold parse_sgr_segment.
  by rewrite split_none, H1.
Qed.

Lemma as_u8_fits z : fits 8 z -> as_u8 z = z.
Proof. apply Z.mod_small. Qed.

(** Reading a colour back, followed by anything. *)
Lemma apply_foreground c s segs : from_option color_ok True c -> foreground s = None ->
  apply_segments 0 s (map plain_segment (color_codes c 38) ++ segs)
    = apply_segments 0 (set_foreground c s) segs.
Proof.
  intros Hc Hs. destruct c as [[i|r g b]|]; simpl in *.
  - by rewrite as_u8_fits.
  - destruct Hc as (? & ? & ?). by rewrite !as_u8_fits.
  - destruct s. simpl in *. by subst.
Qed.

Lemma apply_background c s segs : from_option color_ok True c -> background s = None ->
  apply_segments 0 s (map plain_segment (color_codes c 48) ++ segs)
    = apply_segments 0 (set_background c s) segs.
Proof.
  intros Hc Hs. destruct c as [[i|r g b]|]; simpl in *.
  - by rewrite as_u8_fits.
  - destruct Hc as (? & ? & ?). by rewrite !as_u8_fits.
  - destruct s. simpl in *. by subst.
Qed.

Lemma apply_flags prev s segs :
  apply_segments 0 prev (map plain_segment (0 :: flag_codes s) ++ segs)
    = apply_segments 0 (set_background None (set_foreground None s)) segs.
Proof.
  destruct s as [b0 b1 b2 b3 b4 b5 b6 fg bg]. by destruct b0, b1, b2, b3, b4, b5, b6.
Qed.

Lemma apply_style_codes prev s : style_ok s ->
  apply_sgr_segments prev (map plain_segment (style_codes s)) = s.
Proof.
  intros [Hf Hb]. unfold style_codes, apply_sgr_segments.
  rewrite !map_app, apply_flags, apply_foreground by done.
  rewrite <- (app_nil_r (map plain_segment (color_codes _ 48))), apply_background by done.
  by destruct s.
Qed.

(** ** Reading back a rendered row *)

Lemma parse_line_params ps qs spans cur s rest :
  Forall (fun c => is_ascii_alphabetic c = false) qs ->
  parse_line (Some ps) spans cur s (qs ++ rest) = parse_line (Some (ps ++ qs)) spans cur s rest.
Proof.
  intros Hq. revert ps. induction Hq as [|c qs Hc Hq IH]; intros ps; simpl.
  - by rewrite app_nil_r.
  - by rewrite Hc, IH, <- app_assoc.
Qed.

Lemma join_alpha codes : Forall (fits 8) codes ->
  Forall (fun c => is_ascii_alphabetic c = false) (join [59] (map to_decimal codes)).
Proof.
  induction 1 as [|z zs Hz Hzs IH]; [constructor|].
  destruct (byte_decimal z Hz) as (_ & H2 & _). destruct (digit_all _ H2) as (_ & _ & H).
  destruct zs as [|y zs]; [done|].
  change (join [59] (map to_decimal (z :: y :: zs)))
    with (to_decimal z ++ 59 :: join [59] (map to_decimal (y :: zs))).
  apply Forall_app_2; [done|]. constructor; [done|exact IH].
Qed.

(** A written style ends the current run and starts its own. *)
Lemma parse_line_style spans cur st s rest : style_ok s -> s <> st ->
  parse_line None spans cur st (to_ansi s ++ rest)
    = parse_line None (flush_styled_span spans cur st) [] s rest.
Proof.
  intros Hs Hne. rewrite to_ansi_codes. pose proof (style_codes_bytes s Hs) as Hb.
  pose proof (apply_style_codes st s Hs) as Ha.
  assert (Hn : style_codes s <> []) by done. generalize dependent (style_codes s).
  intros codes Hb Ha Hn. cbn [app parse_line]. rewrite Z.eqb_refl, <- app_assoc.
  rewrite parse_line_params by (by apply join_alpha). simpl.
  rewrite parse_sgr_plain, Ha by done. by rewrite decide_False.
Qed.

(** The runs of a row: maximal sequences of visible cells of one style. *)
Fixpoint runs (cells : list ScreenCell) : list (text * TextStyle) :=
  match cells with
  | [] => []
  | cell :: rest =>
      match runs rest with
      | (t, s) :: more =>
          if decide (s = style cell) then (ch cell :: t, s) :: more
          else ([ch cell], style cell) :: (t, s) :: more
      | [] => [([ch cell], style cell)]
      end
  end.

(** The runs after a current run [cur] of style [st]. *)
Fixpoint runs_from (cur : text) (st : TextStyle) (cells : list ScreenCell) :
    list (text * TextStyle) :=
  match cells with
  | [] => flush_styled_span [] cur st
  | cell :: rest =>
      if decide (style cell = st) then runs_from (cur ++ [ch cell]) st rest
      else flush_styled_span [] cur st ++ runs_from [ch cell] (style cell) rest
  end.

Lemma runs_from_cur cur st cells : cur <> [] ->
  runs_from cur st cells =
    match runs cells with
    | (t, s) :: more => if decide (s = st) then (cur ++ t, s) :: more else (cur, st) :: (t, s) :: more
    | [] => [(cur, st)]
    end.
Proof.
  revert cur st. induction cells as [|cell rest IH]; intros cur st Hc; simpl.
  - by destruct cur.
  - destruct (decide (style cell = st)) as [<-|Hs].
    + rewrite IH by (by destruct cur). destruct (runs rest) as [|[t s] more].
      * by rewrite decide_True.
      * destruct (decide (s = style cell)) as [->|].
        -- rewrite decide_True by done. by rewrite <- app_assoc.
        -- by rewrite decide_True.
    + rewrite IH by done.
      assert (Hf : flush_styled_span [] cur st = [(cur, st)]) by (by destruct cur). rewrite Hf.
      destruct (runs rest) as [|[t s] more]; [by rewrite decide_False|].
      destruct (decide (s = style cell)) as [->|]; by rewrite decide_False.
Qed.

Lemma runs_from_nil st cells : runs_from [] st cells = runs cells.
Proof.
  destruct cells as [|cell rest]; [done|]. simpl.
  assert (H : runs_from [ch cell] (style cell) rest = runs (cell :: rest)).
  { rewrite runs_from_cur by done. simpl. by destruct (runs rest) as [|[t s] more]. }
  destruct (decide (style cell = st)) as [<-|]; exact H.
Qed.

Lemma flush_app spans cur st : flush_styled_span spans cur st = spans ++ flush_styled_span [] cur st.
Proof. destruct cur; simpl; [by rewrite app_nil_r|done]. Qed.

(** A cell that a terminal can hold: no escape character, colours of bytes. *)
Definition cell_renders (cell : ScreenCell) : Prop := ch cell <> ESC /\ style_ok (style cell).

Lemma parse_render_cells spans cur st cells : Forall cell_renders cells -> style_ok st ->
  parse_line None spans cur st (render_cells st cells) = spans ++ runs_from cur st cells.
Proof.
  intros Hc. revert spans cur st. induction Hc as [|cell rest [Hch Hst] Hr IH];
    intros spans cur st Hs; cbn [render_cells runs_from].
  - destruct (decide (st = default_style)) as [|Hd]; [simpl; by rewrite flush_app|].
    change (ESC :: lit "[0m") with (to_ansi default_style).
    rewrite <- (app_nil_r (to_ansi default_style)), parse_line_style by done.
    simpl. by rewrite flush_app.
  - destruct (decide (style cell = st)) as [<-|Hne]; simpl.
    + rewrite (proj2 (Z.eqb_neq _ _)) by done. by apply IH.
    + rewrite parse_line_style by done. simpl. rewrite (proj2 (Z.eqb_neq _ _)) by done.
      rewrite IH by done. rewrite (flush_app spans), <- app_assoc. done.
Qed.

(** Rendering a row of cells to styled text and parsing the line gives
    exactly the row's runs: the visible characters in order, each run with the
    style of its cells. *)
Theorem styled_row_roundtrip row : Forall cell_renders (visible row) ->
  parse_ansi_styled_line (render_styled_row row) = runs (visible row).
Proof.
  intros Hr. unfold parse_ansi_styled_line, render_styled_row.
  rewrite parse_render_cells by done. simpl. apply runs_from_nil.
Qed.
