(* ===== verification/Screen.v ===== *)
(** * The screen buffer

    [ScreenBuffer] of [src/terminal/engine.rs]: a grid of cells with a
    cursor, a scrolling region, a current style and a history of lines. Every
    operation is a function that returns the next buffer or a fault: an index
    out of range, or an overflow of a 16-bit integer, is [Panic]. *)

From S2P Require Import Prelude Bytes Utf8 Ansi.

(** ** Faults, and the vector operations of Rust's standard library *)

Inductive fault := Panic | OutOfFuel.

Definition vec_get {A} (v : list A) (i : Z) : result A fault :=
  ok_or (v !! Z.to_nat i) Panic.

Definition vec_set {A} (v : list A) (i : Z) (x : A) : result (list A) fault :=
  if i <? len v then Ok (<[Z.to_nat i := x]> v) else Err Panic.

(** [Vec::remove] and [Vec::insert]. *)
Definition vec_remove {A} (v : list A) (i : Z) : result (A * list A) fault :=
  let? x := vec_get v i in Ok (x, take (Z.to_nat i) v ++ drop (S (Z.to_nat i)) v).

Definition vec_insert {A} (v : list A) (i : Z) (x : A) : result (list A) fault :=
  if i <=? len v then Ok (take (Z.to_nat i) v ++ x :: drop (Z.to_nat i) v) else Err Panic.

(** [slice::copy_within(src_start..src_end, dest)]. *)
Definition copy_within {A} (v : list A) (src_start src_end dest : Z) : result (list A) fault :=
  if (src_start <=? src_end) && (src_end <=? len v) && (dest <=? len v - (src_end - src_start))
  then
    let n := Z.to_nat (src_end - src_start) in
    let src := take n (drop (Z.to_nat src_start) v) in
    Ok (take (Z.to_nat dest) v ++ src ++ drop (Z.to_nat dest + n) v)
  else Err Panic.

(** Assigning [x] to every element of [v[lo..hi]]. *)
Definition fill {A} (v : list A) (lo hi : Z) (x : A) : result (list A) fault :=
  if (lo <=? hi) && (hi <=? len v) then
    Ok (take (Z.to_nat lo) v ++ replicate (Z.to_nat (hi - lo)) x ++ drop (Z.to_nat hi) v)
  else Err Panic.

(** Assigning [x] to [v[i]] for every [i] from [lo] to the end of [v]. *)
Definition fill_from {A} (v : list A) (lo : Z) (x : A) : list A :=
  take (Z.to_nat lo) v ++ replicate (length v - Z.to_nat lo) x.

Fixpoint map_result {A B E} (f : A -> result B E) (l : list A) : result (list B) E :=
  match l with
  | [] => Ok []
  | a :: r => let? b := f a in let? bs := map_result f r in Ok (b :: bs)
  end.

Fixpoint repeat_result {A E} (n : nat) (f : A -> result A E) (a : A) : result A E :=
  match n with
  | O => Ok a
  | S k => let? a' := f a in repeat_result k f a'
  end.

(** 16-bit arithmetic; out of range is a panic (an overflow check). *)
Definition u16 (z : Z) : result Z fault :=
  if (0 <=? z) && (z <=? 65535) then Ok z else Err Panic.

(** [saturating_sub] and [saturating_add] on [u16]. *)
Definition sat_sub (a b : Z) : Z := Z.max 0 (a - b).
Definition sat_add (a b : Z) : Z := Z.min 65535 (a + b).

(** ** The buffer *)

Definition MAX_SCROLLBACK_LINES : Z := 10000.

Record WriteModes := { modes_autowrap : bool; modes_insert : bool }.

Record ScreenBuffer := {
  size : TerminalSize;
  cells : list (list ScreenCell);
  cursor_row : Z;
  cursor_col : Z;
  pending_wrap : bool;
  scroll_top : Z;
  scroll_bottom : Z;
  styled_scrollback : list text;
  current_style : TextStyle;
  saved_cursor : SavedCursorState;
  last_char : option char;
  scrollback_emitted_count : Z
}.

Definition set_size (v : TerminalSize) (b : ScreenBuffer) : ScreenBuffer :=
  {| size := v; cells := cells b; cursor_row := cursor_row b; cursor_col := cursor_col b;
     pending_wrap := pending_wrap b; scroll_top := scroll_top b; scroll_bottom :=
     scroll_bottom b; styled_scrollback := styled_scrollback b; current_style :=
     current_style b; saved_cursor := saved_cursor b; last_char := last_char b;
     scrollback_emitted_count := scrollback_emitted_count b |}.
Definition set_cells (v : list (list ScreenCell)) (b : ScreenBuffer) : ScreenBuffer :=
  {| size := size b; cells := v; cursor_row := cursor_row b; cursor_col := cursor_col b;
     pending_wrap := pending_wrap b; scroll_top := scroll_top b; scroll_bottom :=
     scroll_bottom b; styled_scrollback := styled_scrollback b; current_style :=
     current_style b; saved_cursor := saved_cursor b; last_char := last_char b;
     scrollback_emitted_count := scrollback_emitted_count b |}.
Definition set_cursor_row (v : Z) (b : ScreenBuffer) : ScreenBuffer :=
  {| size := size b; cells := cells b; cursor_row := v; cursor_col := cursor_col b;
     pending_wrap := pending_wrap b; scroll_top := scroll_top b; scroll_bottom :=
     scroll_bottom b; styled_scrollback := styled_scrollback b; current_style :=
     current_style b; saved_cursor := saved_cursor b; last_char := last_char b;
     scrollback_emitted_count := scrollback_emitted_count b |}.
Definition set_cursor_col (v : Z) (b : ScreenBuffer) : ScreenBuffer :=
  {| size := size b; cells := cells b; cursor_row := cursor_row b; cursor_col := v;
     pending_wrap := pending_wrap b; scroll_top := scroll_top b; scroll_bottom :=
     scroll_bottom b; styled_scrollback := styled_scrollback b; current_style :=
     current_style b; saved_cursor := saved_cursor b; last_char := last_char b;
     scrollback_emitted_count := scrollback_emitted_count b |}.
Definition set_pending_wrap (v : bool) (b : ScreenBuffer) : ScreenBuffer :=
  {| size := size b; cells := cells b; cursor_row := cursor_row b; cursor_col := cursor_col
     b; pending_wrap := v; scroll_top := scroll_top b; scroll_bottom := scroll_bottom b;
     styled_scrollback := styled_scrollback b; current_style := current_style b;
     saved_cursor := saved_cursor b; last_char := last_char b; scrollback_emitted_count :=
     scrollback_emitted_count b |}.
Definition set_scroll_top (v : Z) (b : ScreenBuffer) : ScreenBuffer :=
  {| size := size b; cells := cells b; cursor_row := cursor_row b; cursor_col := cursor_col
     b; pending_wrap := pending_wrap b; scroll_top := v; scroll_bottom := scroll_bottom b;
     styled_scrollback := styled_scrollback b; current_style := current_style b;
     saved_cursor := saved_cursor b; last_char := last_char b; scrollback_emitted_count :=
     scrollback_emitted_count b |}.
Definition set_scroll_bottom (v : Z) (b : ScreenBuffer) : ScreenBuffer :=
  {| size := size b; cells := cells b; cursor_row := cursor_row b; cursor_col := cursor_col
     b; pending_wrap := pending_wrap b; scroll_top := scroll_top b; scroll_bottom := v;
     styled_scrollback := styled_scrollback b; current_style := current_style b;
     saved_cursor := saved_cursor b; last_char := last_char b; scrollback_emitted_count :=
     scrollback_emitted_count b |}.
Definition set_styled_scrollback (v : list text) (b : ScreenBuffer) : ScreenBuffer :=
  {| size := size b; cells := cells b; cursor_row := cursor_row b; cursor_col := cursor_col
     b; pending_wrap := pending_wrap b; scroll_top := scroll_top b; scroll_bottom :=
     scroll_bottom b; styled_scrollback := v; current_style := current_style b; saved_cursor
     := saved_cursor b; last_char := last_char b; scrollback_emitted_count :=
     scrollback_emitted_count b |}.
Definition set_current_style (v : TextStyle) (b : ScreenBuffer) : ScreenBuffer :=
  {| size := size b; cells := cells b; cursor_row := cursor_row b; cursor_col := cursor_col
     b; pending_wrap := pending_wrap b; scroll_top := scroll_top b; scroll_bottom :=
     scroll_bottom b; styled_scrollback := styled_scrollback b; current_style := v;
     saved_cursor := saved_cursor b; last_char := last_char b; scrollback_emitted_count :=
     scrollback_emitted_count b |}.
Definition set_saved_cursor (v : SavedCursorState) (b : ScreenBuffer) : ScreenBuffer :=
  {| size := size b; cells := cells b; cursor_row := cursor_row b; cursor_col := cursor_col
     b; pending_wrap := pending_wrap b; scroll_top := scroll_top b; scroll_bottom :=
     scroll_bottom b; styled_scrollback := styled_scrollback b; current_style :=
     current_style b; saved_cursor := v; last_char := last_char b; scrollback_emitted_count
     := scrollback_emitted_count b |}.
Definition set_last_char (v : option char) (b : ScreenBuffer) : ScreenBuffer :=
  {| size := size b; cells := cells b; cursor_row := cursor_row b; cursor_col := cursor_col
     b; pending_wrap := pending_wrap b; scroll_top := scroll_top b; scroll_bottom :=
     scroll_bottom b; styled_scrollback := styled_scrollback b; current_style :=
     current_style b; saved_cursor := saved_cursor b; last_char := v;
     scrollback_emitted_count := scrollback_emitted_count b |}.
Definition set_scrollback_emitted_count (v : Z) (b : ScreenBuffer) : ScreenBuffer :=
  {| size := size b; cells := cells b; cursor_row := cursor_row b; cursor_col := cursor_col
     b; pending_wrap := pending_wrap b; scroll_top := scroll_top b; scroll_bottom :=
     scroll_bottom b; styled_scrollback := styled_scrollback b; current_style :=
     current_style b; saved_cursor := saved_cursor b; last_char := last_char b;
     scrollback_emitted_count := v |}.

Definition buffer_new (sz : TerminalSize) : ScreenBuffer :=
  {| size := sz; cells := blank_cells sz; cursor_row := 0; cursor_col := 0;
     pending_wrap := false; scroll_top := 0; scroll_bottom := sat_sub (rows sz) 1;
     styled_scrollback := []; current_style := default_style;
     saved_cursor := default_saved_cursor; last_char := None;
     scrollback_emitted_count := 0 |}.

Definition buf_rows (b : ScreenBuffer) : Z := rows (size b).
Definition buf_cols (b : ScreenBuffer) : Z := cols (size b).
Definition max_row (b : ScreenBuffer) : Z := sat_sub (buf_rows b) 1.
Definition max_col (b : ScreenBuffer) : Z := sat_sub (buf_cols b) 1.

(** [drain_scrollback_lines]. *)
Definition buffer_drain_scrollback (b : ScreenBuffer) : list text * ScreenBuffer :=
  let total := len (styled_scrollback b) in
  if total <=? scrollback_emitted_count b then ([], b)
  else (drop (Z.to_nat (scrollback_emitted_count b)) (styled_scrollback b),
        set_scrollback_emitted_count total b).

(** Copying the part of [old] that fits into [new]. *)
Definition overlay {A} (old new : list A) : list A :=
  take (length new) old ++ drop (length old) new.

Definition buffer_resize (b : ScreenBuffer) (sz : TerminalSize) : ScreenBuffer :=
  if decide (size b = sz) then b
  else
    let blank := blank_cells sz in
    let next := zip_with overlay (cells b) blank ++ drop (length (cells b)) blank in
    let saved := saved_cursor b in
    {| size := sz; cells := next;
       cursor_row := Z.min (cursor_row b) (sat_sub (rows sz) 1);
       cursor_col := Z.min (cursor_col b) (sat_sub (cols sz) 1);
       pending_wrap := false;
       scroll_top := 0;
       scroll_bottom := sat_sub (rows sz) 1;
       styled_scrollback := styled_scrollback b;
       current_style := current_style b;
       saved_cursor :=
         if valid saved then
           {| saved_row := Z.min (saved_row saved) (sat_sub (rows sz) 1);
              saved_col := Z.min (saved_col saved) (sat_sub (cols sz) 1);
              saved_style := saved_style saved; valid := true |}
         else saved;
       last_char := last_char b;
       scrollback_emitted_count := scrollback_emitted_count b |}.

Definition build_snapshot (b : ScreenBuffer) (alternate : bool) (window_title : option text)
    (cursor_visible include_scrollback : bool) : ScreenSnapshot :=
  {| snap_size := size b;
     lines := map render_plain_row (cells b);
     styled_lines := map render_styled_row (cells b);
     active_style_ansi := to_ansi (current_style b);
     snap_scrollback := if include_scrollback then styled_scrollback b else [];
     snap_scroll_top := scroll_top b;
     snap_scroll_bottom := scroll_bottom b;
     snap_window_title := window_title;
     snap_cursor_row := cursor_row b;
     snap_cursor_col := cursor_col b;
     snap_cursor_visible := cursor_visible;
     alternate_screen := alternate |}.

Definition buffer_snapshot (b : ScreenBuffer) alternate window_title cursor_visible :=
  build_snapshot b alternate window_title cursor_visible true.

Definition buffer_reset (b : ScreenBuffer) : ScreenBuffer :=
  {| size := size b; cells := blank_cells (size b); cursor_row := 0; cursor_col := 0;
     pending_wrap := false; scroll_top := 0; scroll_bottom := max_row b;
     styled_scrollback := styled_scrollback b; current_style := default_style;
     saved_cursor := default_saved_cursor; last_char := None;
     scrollback_emitted_count := scrollback_emitted_count b |}.

(** ** Cells *)

(** [self.cells[row][col] = cell]. *)
Definition put_cell (row col : Z) (cell : ScreenCell) (b : ScreenBuffer) :
    result ScreenBuffer fault :=
  let? r := vec_get (cells b) row in
  let? r' := vec_set r col cell in
  let? cs := vec_set (cells b) row r' in
  Ok (set_cells cs b).

Definition get_cell (row col : Z) (b : ScreenBuffer) : result ScreenCell fault :=
  let? r := vec_get (cells b) row in vec_get r col.

(** [blank_cell_with_style(self.current_style)]. *)
Definition current_blank (b : ScreenBuffer) : ScreenCell :=
  blank_cell_with_style (current_style b).

Definition current_blank_row (b : ScreenBuffer) : list ScreenCell :=
  blank_row_with_style (buf_cols b) (current_style b).

Definition clear_wide_overlap (row col : Z) (b : ScreenBuffer) : result ScreenBuffer fault :=
  let? cell := get_cell row col b in
  if ch cell =? WIDE_CONTINUATION then
    let? b := put_cell row col blank_cell b in
    if 0 <? col then put_cell row (col - 1) blank_cell b else Ok b
  else
    let? r := vec_get (cells b) row in
    if col + 1 <? len r then
      let? next := get_cell row (col + 1) b in
      if ch next =? WIDE_CONTINUATION then put_cell row (col + 1) blank_cell b else Ok b
    else Ok b.

(** ** Scrolling *)

(** [while self.styled_scrollback.len() > MAX_SCROLLBACK_LINES]. *)
Fixpoint trim_scrollback (q : list text) (emitted : Z) : list text * Z :=
  match q with
  | [] => ([], emitted)
  | _ :: q' =>
      if MAX_SCROLLBACK_LINES <? len q then trim_scrollback q' (sat_sub emitted 1)
      else (q, emitted)
  end.

Definition push_scrollback (line : text) (b : ScreenBuffer) : ScreenBuffer :=
  let '(q, emitted) :=
    trim_scrollback (styled_scrollback b ++ [line]) (scrollback_emitted_count b) in
  set_scrollback_emitted_count emitted (set_styled_scrollback q b).

Definition scroll_up_once (top bottom : Z) (full_screen_region : bool) (b : ScreenBuffer) :
    result ScreenBuffer fault :=
  let? (removed, cs) := vec_remove (cells b) top in
  let b := if full_screen_region then push_scrollback (render_styled_row removed) b else b in
  let? cs := vec_insert cs bottom (current_blank_row b) in
  Ok (set_cells cs b).

(** The region is inside the grid. *)
Definition region_fits (b : ScreenBuffer) : bool :=
  (scroll_top b <? len (cells b)) && (scroll_bottom b <? len (cells b))
  && (scroll_top b <=? scroll_bottom b).

Definition no_rows (b : ScreenBuffer) : bool := (len (cells b) =? 0) || (buf_rows b =? 0).

Definition scroll_up_in_region (count : Z) (b : ScreenBuffer) : result ScreenBuffer fault :=
  if no_rows b || negb (region_fits b) then Ok b
  else
    let top := scroll_top b in
    let bottom := scroll_bottom b in
    let count := Z.min count (bottom - top + 1) in
    let full_screen_region := (top =? 0) && (bottom + 1 =? len (cells b)) in
    repeat_result (Z.to_nat count) (scroll_up_once top bottom full_screen_region) b.

(** Removing a row and inserting a blank one, as the other line operations do. *)
Definition move_blank_row (from to : Z) (b : ScreenBuffer) : result ScreenBuffer fault :=
  let? (_, cs) := vec_remove (cells b) from in
  let? cs := vec_insert cs to (current_blank_row b) in
  Ok (set_cells cs b).

Definition scroll_down_in_region (count : Z) (b : ScreenBuffer) : result ScreenBuffer fault :=
  if no_rows b || negb (region_fits b) then Ok b
  else
    let top := scroll_top b in
    let bottom := scroll_bottom b in
    let count := Z.min count (bottom - top + 1) in
    repeat_result (Z.to_nat count) (move_blank_row bottom top) b.

(** The cursor is inside the region and the region inside the grid. *)
Definition cursor_in_region (b : ScreenBuffer) : bool :=
  (scroll_top b <=? cursor_row b) && (cursor_row b <=? scroll_bottom b)
  && (scroll_bottom b <? len (cells b)).

Definition insert_lines (count : Z) (b : ScreenBuffer) : result ScreenBuffer fault :=
  if no_rows b || negb (cursor_in_region b) then Ok b
  else
    let count := Z.min count (scroll_bottom b - cursor_row b + 1) in
    let? b := repeat_result (Z.to_nat count)
                (move_blank_row (scroll_bottom b) (cursor_row b)) b in
    Ok (set_pending_wrap false b).

Definition delete_lines (count : Z) (b : ScreenBuffer) : result ScreenBuffer fault :=
  if no_rows b || negb (cursor_in_region b) then Ok b
  else
    let count := Z.min count (scroll_bottom b - cursor_row b + 1) in
    let? b := repeat_result (Z.to_nat count)
                (move_blank_row (cursor_row b) (scroll_bottom b)) b in
    Ok (set_pending_wrap false b).

(** ** The cursor *)

Definition carriage_return (b : ScreenBuffer) : ScreenBuffer :=
  set_pending_wrap false (set_cursor_col 0 b).

Definition line_feed (b : ScreenBuffer) : result ScreenBuffer fault :=
  if buf_rows b =? 0 then Ok b
  else
    let b := set_pending_wrap false b in
    if scroll_bottom b <=? cursor_row b then
      let? b := scroll_up_in_region 1 b in Ok (set_cursor_row (scroll_bottom b) b)
    else let? row := u16 (cursor_row b + 1) in Ok (set_cursor_row row b).

Definition reverse_index (b : ScreenBuffer) : result ScreenBuffer fault :=
  if buf_rows b =? 0 then Ok b
  else
    let b := set_pending_wrap false b in
    if cursor_row b <=? scroll_top b then
      let? b := scroll_down_in_region 1 b in Ok (set_cursor_row (scroll_top b) b)
    else let? row := u16 (cursor_row b - 1) in Ok (set_cursor_row row b).

Definition backspace (b : ScreenBuffer) : ScreenBuffer :=
  set_pending_wrap false (set_cursor_col (sat_sub (cursor_col b) 1) b).

Definition tab (b : ScreenBuffer) : result ScreenBuffer fault :=
  if buf_cols b =? 0 then Ok b
  else
    let? next_tab_stop := u16 ((cursor_col b / 8 + 1) * 8) in
    Ok (set_pending_wrap false (set_cursor_col (Z.min next_tab_stop (max_col b)) b)).

Definition clamp_origin_row (b : ScreenBuffer) (row : Z) (origin : bool) : Z :=
  if origin then Z.min (sat_add (scroll_top b) row) (Z.min (scroll_bottom b) (max_row b))
  else Z.min row (max_row b).

Definition move_cursor_row (row : Z) (origin : bool) (b : ScreenBuffer) : ScreenBuffer :=
  set_pending_wrap false (set_cursor_row (clamp_origin_row b row origin) b).

Definition move_cursor_col (col : Z) (b : ScreenBuffer) : ScreenBuffer :=
  set_pending_wrap false (set_cursor_col (Z.min col (max_col b)) b).

Definition move_cursor_to (row col : Z) (origin : bool) (b : ScreenBuffer) : ScreenBuffer :=
  set_pending_wrap false
    (set_cursor_col (Z.min col (max_col b))
       (set_cursor_row (clamp_origin_row b row origin) b)).

(** [isize::clamp]. *)
Definition clamp (lo hi z : Z) : Z := Z.max lo (Z.min hi z).

Definition move_cursor_relative (row_delta col_delta : Z) (b : ScreenBuffer) : ScreenBuffer :=
  let next_row := clamp 0 (max_row b) (cursor_row b + row_delta) in
  let next_col := clamp 0 (max_col b) (cursor_col b + col_delta) in
  set_pending_wrap false (set_cursor_col next_col (set_cursor_row next_row b)).

Definition buffer_save_cursor (b : ScreenBuffer) : ScreenBuffer :=
  set_saved_cursor
    {| saved_row := cursor_row b; saved_col := cursor_col b;
       saved_style := current_style b; valid := true |} b.

Definition buffer_restore_cursor (b : ScreenBuffer) : ScreenBuffer :=
  let saved := saved_cursor b in
  if negb (valid saved) then b
  else
    set_pending_wrap false
      (set_current_style (saved_style saved)
         (set_cursor_col (Z.min (saved_col saved) (max_col b))
            (set_cursor_row (Z.min (saved_row saved) (max_row b)) b))).

Definition set_scroll_region (top bottom : Z) (origin : bool) (b : ScreenBuffer) : ScreenBuffer :=
  if buf_rows b =? 0 then
    set_cursor_col 0 (set_cursor_row 0 (set_scroll_bottom 0 (set_scroll_top 0 b)))
  else
    let top := Z.min top (max_row b) in
    let bottom := Z.min (Z.max bottom top) (max_row b) in
    set_pending_wrap false
      (set_cursor_col 0
         (set_cursor_row (if origin then top else 0)
            (set_scroll_bottom bottom (set_scroll_top top b)))).

Definition reset_scroll_region (origin : bool) (b : ScreenBuffer) : ScreenBuffer :=
  set_scroll_region 0 (max_row b) origin b.

(** ** Writing *)

(** The row the cursor is in, if the cursor is inside it. *)
Definition cursor_row_cells (b : ScreenBuffer) : option (list ScreenCell) :=
  if (cursor_row b <? len (cells b)) then
    match cells b !! Z.to_nat (cursor_row b) with
    | Some r => if cursor_col b <? len r then Some r else None
    | None => None
    end
  else None.

Definition set_row (row : Z) (r : list ScreenCell) (b : ScreenBuffer) :
    result ScreenBuffer fault :=
  let? cs := vec_set (cells b) row r in Ok (set_cells cs b).

Definition insert_blanks_at_cursor (count : Z) (b : ScreenBuffer) : result ScreenBuffer fault :=
  if (len (cells b) =? 0) || (buf_cols b =? 0) then Ok b
  else
    match cursor_row_cells b with
    | None => Ok b
    | Some r =>
        let start := cursor_col b in
        let count := Z.min count (len r - start) in
        let? r := copy_within r start (len r - count) (start + count) in
        let? r := fill r start (start + count) (current_blank b) in
        set_row (cursor_row b) r b
    end.

(** The end of [put_char]: advance the cursor or mark the wrap as pending. *)
Definition advance_cursor (width : Z) (autowrap : bool) (b : ScreenBuffer) :
    result ScreenBuffer fault :=
  let? next := u16 (cursor_col b + width) in
  if buf_cols b <=? next then
    Ok (set_pending_wrap autowrap (set_cursor_col (max_col b) b))
  else Ok (set_cursor_col next b).

Definition put_char (c : char) (modes : WriteModes) (b : ScreenBuffer) :
    result ScreenBuffer fault :=
  if (buf_rows b =? 0) || (buf_cols b =? 0) then Ok b
  else
    let width := char_display_width c in
    if width =? 0 then Ok b
    else
      let? b :=
        if pending_wrap b then
          let? b := line_feed (set_cursor_col 0 b) in Ok (set_pending_wrap false b)
        else Ok b in
      let? b := if modes_insert modes then insert_blanks_at_cursor width b else Ok b in
      let row := cursor_row b in
      let col := cursor_col b in
      let? b := clear_wide_overlap row col b in
      let? b := put_cell row col {| ch := c; style := current_style b |} b in
      let b := set_last_char (Some c) b in
      if (width =? 2) && (1 <? buf_cols b) then
        let? next := u16 (cursor_col b + 1) in
        if buf_cols b <=? next then
          if negb (modes_autowrap modes) then Ok b
          else
            let? b := line_feed (set_cursor_col 0 b) in
            let row := cursor_row b in
            let? b := clear_wide_overlap row (cursor_col b) b in
            let? b := put_cell row (cursor_col b) {| ch := c; style := current_style b |} b in
            let? b := put_cell row (cursor_col b + 1)
                        {| ch := WIDE_CONTINUATION; style := current_style b |} b in
            advance_cursor width (modes_autowrap modes) b
        else
          let? b := put_cell row (col + 1)
                      {| ch := WIDE_CONTINUATION; style := current_style b |} b in
          advance_cursor width (modes_autowrap modes) b
      else advance_cursor width (modes_autowrap modes) b.

Definition repeat_last_char (count : Z) (modes : WriteModes) (b : ScreenBuffer) :
    result ScreenBuffer fault :=
  match last_char b with
  | None => Ok b
  | Some c => repeat_result (Z.to_nat count) (put_char c modes) b
  end.

Definition insert_chars (count : Z) (b : ScreenBuffer) : result ScreenBuffer fault :=
  let? b := insert_blanks_at_cursor (Z.max count 1) b in Ok (set_pending_wrap false b).

(** ** Erasing *)

Definition no_cells (b : ScreenBuffer) : bool :=
  (len (cells b) =? 0) || (buf_rows b =? 0) || (buf_cols b =? 0).

Definition erase_chars (count : Z) (b : ScreenBuffer) : result ScreenBuffer fault :=
  if no_cells b then Ok b
  else
    match cursor_row_cells b with
    | None => Ok b
    | Some r =>
        let start := cursor_col b in
        let stop := Z.min (start + Z.max 1 count) (len r) in
        let? r := fill r start stop (current_blank b) in
        let? b := set_row (cursor_row b) r b in
        Ok (set_pending_wrap false b)
    end.

Definition delete_chars (count : Z) (b : ScreenBuffer) : result ScreenBuffer fault :=
  if no_cells b then Ok b
  else
    match cursor_row_cells b with
    | None => Ok b
    | Some r =>
        let start := cursor_col b in
        let count := Z.min (Z.max 1 count) (len r - start) in
        let fill_start := len r - count in
        let? r := copy_within r (start + count) (len r) start in
        let? r := fill r fill_start (len r) (current_blank b) in
        let? b := set_row (cursor_row b) r b in
        Ok (set_pending_wrap false b)
    end.

Definition clear_screen (mode : Z) (b : ScreenBuffer) : result ScreenBuffer fault :=
  if no_rows b then Ok b
  else
    let blank := current_blank b in
    let n := Z.to_nat (cursor_row b) in
    match mode with
    | 0 =>
        Ok (set_cells
              (take n (cells b)
               ++ match drop n (cells b) with
                  | [] => []
                  | r :: below =>
                      fill_from r (cursor_col b) blank :: map (fun r => fill_from r 0 blank) below
                  end) b)
    | 1 =>
        let? above :=
          map_result (fun r => fill r 0 (sat_sub (len r) 1 + 1) blank) (take n (cells b)) in
        let? r := vec_get (cells b) (cursor_row b) in
        let? r := fill r 0 (cursor_col b + 1) blank in
        Ok (set_cells (above ++ r :: drop (S n) (cells b)) b)
    | _ =>
        Ok (set_pending_wrap false
              (set_cursor_col 0
                 (set_cursor_row 0
                    (set_cells (blank_cells_with_style (size b) (current_style b)) b))))
    end.

Definition clear_line (mode : Z) (b : ScreenBuffer) : result ScreenBuffer fault :=
  if no_rows b then Ok b
  else
    if len (cells b) <=? cursor_row b then Ok b
    else
      let blank := current_blank b in
      let? r := vec_get (cells b) (cursor_row b) in
      match mode with
      | 0 => set_row (cursor_row b) (fill_from r (cursor_col b) blank) b
      | 1 => let? r := fill r 0 (cursor_col b + 1) blank in set_row (cursor_row b) r b
      | _ => set_row (cursor_row b) (fill_from r 0 blank) b
      end.

(** ** Select graphic rendition *)

Definition at_most_255 (v : Z) : Z := Z.min v 255.

Definition colon_color (subs : list Z) : option ColorValue :=
  match subs with
  | 5 :: v :: _ => Some (Indexed (at_most_255 v))
  | 2 :: _ =>
      let offset := if 5 <=? len subs then 2%nat else 1%nat in
      match subs !! offset, subs !! (offset + 1)%nat, subs !! (offset + 2)%nat with
      | Some red, Some green, Some blue =>
          Some (Rgb (at_most_255 red) (at_most_255 green) (at_most_255 blue))
      | _, _, _ => None
      end
  | _ => None
  end.

(** The colour in the segments after the current one, and how many of them it
    uses. *)
Definition semicolon_color (rest : list SgrSegment) : option ColorValue * nat :=
  match rest with
  | [] => (None, 0%nat)
  | mode :: operands =>
      match code mode, operands with
      | 5, index :: _ => (Some (Indexed (at_most_255 (code index))), 2%nat)
      | 2, red :: green :: blue :: _ =>
          (Some (Rgb (at_most_255 (code red)) (at_most_255 (code green))
                   (at_most_255 (code blue))), 4%nat)
      | _, _ => (None, 0%nat)
      end
  end.

(** A segment that is not a colour. *)
Definition screen_attribute (segment : SgrSegment) (s : TextStyle) : TextStyle :=
  let c := code segment in
  match c with
  | 0 => default_style
  | 1 => set_bold true s
  | 2 => set_dim true s
  | 3 => set_italic true s
  | 4 =>
      match subparams segment with
      | 0 :: _ => set_underline false s
      | [] => set_underline true s
      | v :: _ => if (1 <=? v) && (v <=? 5) then set_underline true s else s
      end
  | 5 => set_blink true s
  | 7 => set_inverse true s
  | 9 => set_strikethrough true s
  | 22 => set_dim false (set_bold false s)
  | 23 => set_italic false s
  | 24 => set_underline false s
  | 25 => set_blink false s
  | 27 => set_inverse false s
  | 29 => set_strikethrough false s
  | 39 => set_foreground None s
  | 49 => set_background None s
  | _ =>
      if (30 <=? c) && (c <=? 37) then set_foreground (Some (Indexed (as_u8 (c - 30)))) s
      else if (40 <=? c) && (c <=? 47) then set_background (Some (Indexed (as_u8 (c - 40)))) s
      else if (90 <=? c) && (c <=? 97) then
        set_foreground (Some (Indexed (as_u8 (c - 90 + 8)))) s
      else if (100 <=? c) && (c <=? 107) then
        set_background (Some (Indexed (as_u8 (c - 100 + 8)))) s
      else s
  end.

(** The colour of a segment 38 or 48 and the segments it uses. *)
Definition segment_color (segment : SgrSegment) (rest : list SgrSegment) :
    option ColorValue * nat :=
  match subparams segment with
  | [] => semicolon_color rest
  | subs => (colon_color subs, 0%nat)
  end.

Definition set_color (target_foreground : bool) (color : option ColorValue) (s : TextStyle) :
    TextStyle :=
  match color with
  | Some c => if target_foreground then set_foreground (Some c) s else set_background (Some c) s
  | None => s
  end.

(** The loop of [apply_sgr]; [skip] segments were used by a colour. *)
Fixpoint screen_segments (skip : nat) (s : TextStyle) (params : list SgrSegment) : TextStyle :=
  match params with
  | [] => s
  | segment :: rest =>
      match skip with
      | S k => screen_segments k s rest
      | O =>
          match code segment with
          | 38 | 48 =>
              let '(color, used) := segment_color segment rest in
              screen_segments used (set_color (code segment =? 38) color s) rest
          | 58 =>
              match subparams segment, rest with
              | [], next :: _ =>
                  match code next with
                  | 5 => screen_segments 2 s rest
                  | 2 => screen_segments 4 s rest
                  | _ => screen_segments 0 s rest
                  end
              | _, _ => screen_segments 0 s rest
              end
          | _ => screen_segments 0 (screen_attribute segment s) rest
          end
      end
  end.

Definition apply_sgr (params : list SgrSegment) (b : ScreenBuffer) : ScreenBuffer :=
  match params with
  | [] => set_current_style default_style b
  | _ => set_current_style (screen_segments 0 (current_style b) params) b
  end.
