(* ===== verification/ScreenInvariant.v ===== *)
(** * The screen buffer is well formed

    The invariant of [ScreenBuffer] ([buffer_ok]): the grid has the buffer's
    size, the cursor and the scrolling region are inside it, the history is
    bounded and every cell holds a printable character. Each operation of the
    buffer returns, without an index out of range or an overflow, a
    well-formed buffer of the same size. *)

From S2P Require Import Prelude Bytes Utf8 Ansi Screen.

(** ** Well-formed buffers *)

(** What a cell can hold: a character that is not a control character, or the
    mark of the right half of a wide character. *)
Definition cell_ok (cell : ScreenCell) : Prop :=
  (ch cell = WIDE_CONTINUATION \/ is_control (ch cell) = false) /\ style_ok (style cell).

Definition row_ok (w : Z) (r : list ScreenCell) : Prop := len r = w /\ Forall cell_ok r.

Definition grid_ok (sz : TerminalSize) (cs : list (list ScreenCell)) : Prop :=
  len cs = rows sz /\ Forall (row_ok (cols sz)) cs.

(** Sizes for which no 16-bit computation overflows: the next tab stop is the
    only one that comes close. *)
Definition size_ok (sz : TerminalSize) : Prop := 1 <= rows sz <= 65535 /\ 1 <= cols sz <= 65528.

Record buffer_ok (b : ScreenBuffer) : Prop := {
  ok_size : size_ok (size b);
  ok_grid : grid_ok (size b) (cells b);
  ok_cursor_row : 0 <= cursor_row b < rows (size b);
  ok_cursor_col : 0 <= cursor_col b < cols (size b);
  ok_region : 0 <= scroll_top b <= scroll_bottom b /\ scroll_bottom b < rows (size b);
  ok_scrollback : len (styled_scrollback b) <= MAX_SCROLLBACK_LINES;
  ok_emitted : 0 <= scrollback_emitted_count b <= len (styled_scrollback b);
  ok_style : style_ok (current_style b);
  ok_saved : 0 <= saved_row (saved_cursor b) /\ 0 <= saved_col (saved_cursor b)
             /\ style_ok (saved_style (saved_cursor b));
  ok_last : from_option (fun c => is_control c = false) True (last_char b)
}.

Create HintDb screen.

(** Breaks a well-formed buffer into its facts. *)
Ltac buffer_facts :=
  repeat match goal with
  | H : buffer_ok _ |- _ => destruct H as [[??] [??] ? ? [[??]?] ? ? ? (?&?&?) ?]
  end.

(** Proves that a buffer whose changed fields are in range is well formed. *)
Ltac buffer_ok_tac :=
  constructor; unfold size_ok, grid_ok, max_row, max_col, buf_rows, buf_cols, sat_sub, sat_add, clamp in *;
  simpl in *; try done; try lia.

Lemma ok_set_cells b cs : buffer_ok b -> grid_ok (size b) cs -> buffer_ok (set_cells cs b).
Proof. intros [] ?. by constructor. Qed.
Lemma ok_set_cursor_row b v : buffer_ok b -> 0 <= v < rows (size b) -> buffer_ok (set_cursor_row v b).
Proof. intros [] ?. by constructor. Qed.
Lemma ok_set_cursor_col b v : buffer_ok b -> 0 <= v < cols (size b) -> buffer_ok (set_cursor_col v b).
Proof. intros [] ?. by constructor. Qed.
Lemma ok_set_pending_wrap b v : buffer_ok b -> buffer_ok (set_pending_wrap v b).
Proof. intros []. by constructor. Qed.
Lemma ok_set_current_style b v : buffer_ok b -> style_ok v -> buffer_ok (set_current_style v b).
Proof. intros [] ?. by constructor. Qed.
Lemma ok_set_last_char b c : buffer_ok b -> is_control c = false -> buffer_ok (set_last_char (Some c) b).
Proof. intros [] ?. by constructor. Qed.
#[export] Hint Resolve ok_set_cells ok_set_cursor_row ok_set_cursor_col ok_set_pending_wrap
  ok_set_current_style ok_set_last_char : screen.

Lemma style_ok_default : style_ok default_style.
Proof. done. Qed.

Lemma cell_ok_blank s : style_ok s -> cell_ok (blank_cell_with_style s).
Proof. intros. split; [by right|done]. Qed.

Lemma row_ok_blank w s : 0 <= w -> style_ok s -> row_ok w (blank_row_with_style w s).
Proof.
  intros. unfold blank_row_with_style, row_ok, len. rewrite length_replicate. split; [lia|].
  apply Forall_replicate, cell_ok_blank. done.
Qed.

Lemma grid_ok_blank sz s : size_ok sz -> style_ok s -> grid_ok sz (blank_cells_with_style sz s).
Proof.
  intros [] Hs. unfold blank_cells_with_style, grid_ok, len. rewrite length_replicate.
  split; [lia|]. apply Forall_replicate, row_ok_blank; [lia|done].
Qed.
#[export] Hint Resolve style_ok_default cell_ok_blank row_ok_blank grid_ok_blank : screen.

Lemma buffer_new_ok sz : size_ok sz -> buffer_ok (buffer_new sz).
Proof.
  intros Hs. pose proof Hs as [??]. constructor; simpl; unfold sat_sub, blank_cells; auto with screen; try lia.
  - unfold len. simpl. unfold MAX_SCROLLBACK_LINES. lia.
  - unfold len. simpl. lia.
  - split_and!; [lia|lia|done].
Qed.

(** ** The vector operations keep lengths and element-wise properties *)

Section vectors.
Context {A : Type} (P : A -> Prop).
Implicit Types (v : list A).

Lemma vec_get_ok v i : 0 <= i < len v -> Forall P v ->
  exists x, vec_get v i = Ok x /\ v !! Z.to_nat i = Some x /\ P x.
Proof.
  intros Hi Hv. unfold len in Hi. unfold vec_get.
  destruct (lookup_lt_is_Some_2 v (Z.to_nat i)) as [x Hx]; [lia|].
  exists x. rewrite Hx. split_and!; [done|done|]. by eapply Forall_lookup_1.
Qed.

Lemma vec_set_ok v i x : 0 <= i < len v -> Forall P v -> P x ->
  vec_set v i x = Ok (<[Z.to_nat i := x]> v) /\ len (<[Z.to_nat i := x]> v) = len v
  /\ Forall P (<[Z.to_nat i := x]> v).
Proof.
  intros Hi Hv Hx. unfold vec_set. rewrite (proj2 (Z.ltb_lt i (len v))) by lia.
  split_and!; [done| |by apply Forall_insert]. unfold len. by rewrite length_insert.
Qed.

Lemma vec_remove_ok v i : 0 <= i < len v -> Forall P v ->
  exists x v', vec_remove v i = Ok (x, v') /\ len v' = len v - 1 /\ P x /\ Forall P v'.
Proof.
  intros Hi Hv. destruct (vec_get_ok v i Hi Hv) as (x & Hg & _ & Hx).
  unfold vec_remove. rewrite Hg. eexists x, _. split_and!; [done| |done|].
  - unfold len in *. rewrite length_app, length_take, length_drop. lia.
  - apply Forall_app_2; [by apply Forall_take|by apply Forall_drop].
Qed.

Lemma vec_insert_ok v i x : 0 <= i <= len v -> Forall P v -> P x ->
  exists v', vec_insert v i x = Ok v' /\ len v' = len v + 1 /\ Forall P v'.
Proof.
  intros Hi Hv Hx. unfold vec_insert. rewrite (proj2 (Z.leb_le i (len v))) by lia.
  eexists. split_and!; [done| |].
  - unfold len in *. rewrite length_app, length_take. simpl. rewrite length_drop. lia.
  - apply Forall_app_2; [by apply Forall_take|]. constructor; [done|by apply Forall_drop].
Qed.

Lemma copy_within_ok v a z d :
  0 <= a <= z -> z <= len v -> 0 <= d <= len v - (z - a) -> Forall P v ->
  exists v', copy_within v a z d = Ok v' /\ len v' = len v /\ Forall P v'.
Proof.
  intros Ha Hz Hd Hv. unfold copy_within.
  rewrite (proj2 (Z.leb_le a z)), (proj2 (Z.leb_le z (len v))),
    (proj2 (Z.leb_le d (len v - (z - a)))) by lia. simpl.
  eexists. split_and!; [done| |].
  - unfold len in *. rewrite !length_app, !length_take, !length_drop. lia.
  - repeat apply Forall_app_2; auto using Forall_take, Forall_drop.
Qed.

Lemma fill_ok v lo hi x : 0 <= lo <= hi -> hi <= len v -> Forall P v -> P x ->
  exists v', fill v lo hi x = Ok v' /\ len v' = len v /\ Forall P v'.
Proof.
  intros Hlo Hhi Hv Hx. unfold fill.
  rewrite (proj2 (Z.leb_le lo hi)), (proj2 (Z.leb_le hi (len v))) by lia. simpl.
  eexists. split_and!; [done| |].
  - unfold len in *. rewrite !length_app, length_take, length_replicate, length_drop. lia.
  - repeat apply Forall_app_2; auto using Forall_take, Forall_drop, Forall_replicate.
Qed.

Lemma fill_from_ok v lo x : 0 <= lo -> Forall P v -> P x ->
  len (fill_from v lo x) = len v /\ Forall P (fill_from v lo x).
Proof.
  intros Hlo Hv Hx. unfold fill_from, len. rewrite length_app, length_take, length_replicate.
  split; [lia|]. apply Forall_app_2; auto using Forall_take, Forall_replicate.
Qed.

Lemma map_result_ok {E} (f : A -> result A E) v :
  Forall (fun x => exists y, f x = Ok y /\ P y) v ->
  exists v', map_result f v = Ok v' /\ len v' = len v /\ Forall P v'.
Proof.
  induction 1 as [|x v (y & Hf & Hy) Hv (v' & Hm & Hl & Hp)]; simpl; [by exists []|].
  rewrite Hf, Hm. eexists. split_and!; [done| |by constructor].
  unfold len in *. simpl. lia.
Qed.

Lemma repeat_result_ok {E} (f : A -> result A E) n a :
  (forall a, P a -> exists a', f a = Ok a' /\ P a') -> P a ->
  exists a', repeat_result n f a = Ok a' /\ P a'.
Proof.
  intros Hf. revert a. induction n as [|n IH]; intros a Ha; simpl; [by exists a|].
  destruct (Hf a Ha) as (a' & -> & Ha'). by apply IH.
Qed.
End vectors.

(** ** Operations on the grid *)

Lemma no_rows_ok b : buffer_ok b -> no_rows b = false.
Proof.
  intros [[H1 _] [H2 _]]. unfold no_rows, buf_rows.
  rewrite H2. apply orb_false_intro; apply Z.eqb_neq; lia.
Qed.

Lemma no_cells_ok b : buffer_ok b -> no_cells b = false.
Proof.
  intros [[H1 H3] [H2 _]]. unfold no_cells, buf_rows, buf_cols.
  rewrite H2. repeat apply orb_false_intro; apply Z.eqb_neq; lia.
Qed.

Lemma region_fits_ok b : buffer_ok b -> region_fits b = true.
Proof.
  intros [[H1 H3] [H2 _] ? ? [? ?]]. unfold region_fits.
  rewrite H2. repeat (apply andb_true_intro; split); [apply Z.ltb_lt|apply Z.ltb_lt|apply Z.leb_le]; lia.
Qed.

Lemma get_row_ok b row : buffer_ok b -> 0 <= row < rows (size b) ->
  exists r, vec_get (cells b) row = Ok r /\ cells b !! Z.to_nat row = Some r
            /\ row_ok (cols (size b)) r.
Proof. intros [? [Hl Hg]] Hr. apply vec_get_ok; [by rewrite Hl|done]. Qed.

Lemma set_row_ok b row r : buffer_ok b -> 0 <= row < rows (size b) -> row_ok (cols (size b)) r ->
  exists cs, set_row row r b = Ok (set_cells cs b) /\ grid_ok (size b) cs.
Proof.
  intros [? [Hl Hg]] Hr Hrow. unfold set_row.
  destruct (vec_set_ok (row_ok (cols (size b))) (cells b) row r) as (-> & Hl' & Hf);
    [by rewrite Hl|done|done|].
  eexists. split; [done|]. split; [by rewrite Hl'|done].
Qed.

Lemma get_cell_ok b row col : buffer_ok b -> 0 <= row < rows (size b) ->
  0 <= col < cols (size b) -> exists cell, get_cell row col b = Ok cell /\ cell_ok cell.
Proof.
  intros Hb Hr Hc. destruct (get_row_ok b row Hb Hr) as (r & Hg & _ & [Hl Hf]).
  unfold get_cell. rewrite Hg. destruct (vec_get_ok cell_ok r col) as (x & ? & _ & ?);
    [by rewrite Hl|done|]. eauto.
Qed.

Lemma put_cell_ok b row col cell : buffer_ok b -> 0 <= row < rows (size b) ->
  0 <= col < cols (size b) -> cell_ok cell ->
  exists cs, put_cell row col cell b = Ok (set_cells cs b) /\ grid_ok (size b) cs.
Proof.
  intros Hb Hr Hc Hcell. destruct (get_row_ok b row Hb Hr) as (r & Hg & _ & [Hl Hf]).
  unfold put_cell. rewrite Hg.
  destruct (vec_set_ok cell_ok r col cell) as (-> & Hl' & Hf'); [by rewrite Hl|done|done|].
  apply (set_row_ok b row (<[Z.to_nat col := cell]> r)); [done|done|].
  split; [by rewrite Hl'|done].
Qed.

Lemma set_cells_twice b c1 c2 : set_cells c2 (set_cells c1 b) = set_cells c2 b.
Proof. done. Qed.

Lemma clear_wide_overlap_ok b row col : buffer_ok b -> 0 <= row < rows (size b) ->
  0 <= col < cols (size b) ->
  exists cs, clear_wide_overlap row col b = Ok (set_cells cs b) /\ grid_ok (size b) cs.
Proof.
  intros Hb Hr Hc. unfold clear_wide_overlap.
  assert (Hself : exists cs, Ok b = Ok (E := fault) (set_cells cs b) /\ grid_ok (size b) cs).
  { exists (cells b). split; [by destruct b|apply Hb]. }
  destruct (get_cell_ok b row col Hb Hr Hc) as (cell & -> & _).
  assert (Hbl : cell_ok blank_cell) by (apply cell_ok_blank; done).
  destruct (_ =? _).
  - destruct (put_cell_ok b row col blank_cell Hb Hr Hc Hbl) as (cs & -> & Hg).
    destruct (Z.ltb_spec 0 col); [|by exists cs].
    destruct (put_cell_ok (set_cells cs b) row (col - 1) blank_cell) as (cs' & -> & Hg');
      [by apply ok_set_cells|done|simpl; lia|done|]. exists cs'. by rewrite set_cells_twice.
  - destruct (get_row_ok b row Hb Hr) as (r & -> & _ & [Hl Hf]).
    destruct (Z.ltb_spec (col + 1) (len r)); [|done].
    destruct (get_cell_ok b row (col + 1) Hb Hr ltac:(lia)) as (next & -> & _).
    destruct (_ =? _); [|done]. apply put_cell_ok; [done|done|lia|done].
Qed.

(** ** Scrolling keeps everything but the lines *)

(** The same but for the lines and the history. *)
Definition same_frame (b b' : ScreenBuffer) : Prop :=
  b' = set_scrollback_emitted_count (scrollback_emitted_count b')
         (set_styled_scrollback (styled_scrollback b') (set_cells (cells b') b)).

Lemma same_frame_refl b : same_frame b b.
Proof. by destruct b. Qed.

Lemma same_frame_trans a b c : same_frame a b -> same_frame b c -> same_frame a c.
Proof. unfold same_frame. intros -> ->. done. Qed.

Lemma same_frame_facts b b' : same_frame b b' ->
  size b' = size b /\ cursor_row b' = cursor_row b /\ cursor_col b' = cursor_col b /\
  scroll_top b' = scroll_top b /\ scroll_bottom b' = scroll_bottom b /\
  pending_wrap b' = pending_wrap b /\ current_style b' = current_style b /\
  last_char b' = last_char b /\ saved_cursor b' = saved_cursor b.
Proof. by intros ->. Qed.

Lemma trim_scrollback_ok q e : 0 <= e <= len q ->
  let '(q', e') := trim_scrollback q e in
  len q' <= MAX_SCROLLBACK_LINES /\ 0 <= e' <= len q' /\ q' `suffix_of` q.
Proof.
  revert e. induction q as [|l q IH]; intros e He; simpl.
  - unfold len, MAX_SCROLLBACK_LINES in *. simpl in *. split_and!; [lia|lia|lia|done].
  - destruct (Z.ltb_spec MAX_SCROLLBACK_LINES (len (l :: q))).
    + assert (He' : 0 <= sat_sub e 1 <= len q) by (unfold sat_sub, len in *; simpl in *; lia).
      specialize (IH _ He'). destruct (trim_scrollback q _) as [q' e'].
      destruct IH as (? & ? & ?). split_and!; [done|lia|lia|by apply suffix_cons_r].
    + split_and!; [done|lia|lia|done].
Qed.

Lemma push_scrollback_ok b line : buffer_ok b ->
  buffer_ok (push_scrollback line b) /\ same_frame b (push_scrollback line b)
  /\ cells (push_scrollback line b) = cells b.
Proof.
  intros []. unfold push_scrollback.
  pose proof (trim_scrollback_ok (styled_scrollback b ++ [line]) (scrollback_emitted_count b)) as Ht.
  destruct (trim_scrollback _ _) as [q e].
  destruct Ht as (Hq & He & _); [rewrite len_app; change (len [line]) with 1; lia|].
  split_and!; [by constructor|by destruct b|done].
Qed.

Lemma move_blank_row_ok b from to : buffer_ok b ->
  0 <= from < rows (size b) -> 0 <= to < rows (size b) ->
  exists b', move_blank_row from to b = Ok b' /\ buffer_ok b' /\ same_frame b b'.
Proof.
  intros Hb Hf Ht. destruct Hb as [Hs [Hl Hg]] eqn:E. unfold move_blank_row.
  destruct (vec_remove_ok (row_ok (cols (size b))) (cells b) from) as (x & v & -> & Hv & _ & Hr);
    [by rewrite Hl|done|].
  destruct (vec_insert_ok (row_ok (cols (size b))) v to (current_blank_row b)) as (v' & -> & Hv' & Hr');
    [lia|done|apply row_ok_blank; [destruct Hs; unfold buf_cols; lia|apply Hb]|].
  eexists. split_and!; [done| |by destruct b].
  apply ok_set_cells; [done|]. split; [lia|done].
Qed.

Lemma scroll_up_once_ok b top bottom full : buffer_ok b ->
  0 <= top < rows (size b) -> 0 <= bottom < rows (size b) ->
  exists b', scroll_up_once top bottom full b = Ok b' /\ buffer_ok b' /\ same_frame b b'.
Proof.
  intros Hb Hf Ht. pose proof Hb as [Hs [Hl Hg] _ _ _ _ _ Hst _ _]. unfold scroll_up_once.
  destruct (vec_remove_ok (row_ok (cols (size b))) (cells b) top) as (x & v & -> & Hv & _ & Hr);
    [by rewrite Hl|done|].
  set (b1 := if full then push_scrollback (render_styled_row x) b else b).
  assert (Hb1 : buffer_ok b1 /\ same_frame b b1 /\ cells b1 = cells b).
  { unfold b1. destruct full; [by apply push_scrollback_ok|]. by split_and!; [|apply same_frame_refl|]. }
  destruct Hb1 as (Hok & Hsame & _). destruct (same_frame_facts _ _ Hsame) as (Hz & _ & _ & _ & _ & _ & Hst1 & _).
  destruct (vec_insert_ok (row_ok (cols (size b))) v bottom (current_blank_row b1)) as (v' & -> & Hv' & Hr');
    [lia|done| |].
  { unfold current_blank_row, buf_cols. rewrite Hz, Hst1.
    apply row_ok_blank; [destruct Hs; lia|done]. }
  eexists. split_and!; [done| |].
  - apply ok_set_cells; [done|]. rewrite Hz. split; [lia|done].
  - apply (same_frame_trans _ b1); [done|]. by destruct b1.
Qed.

Lemma repeat_lines_ok (f : ScreenBuffer -> result ScreenBuffer fault) n b :
  (forall b', buffer_ok b' -> same_frame b b' ->
     exists b'', f b' = Ok b'' /\ buffer_ok b'' /\ same_frame b' b'') ->
  buffer_ok b ->
  exists b', repeat_result n f b = Ok b' /\ buffer_ok b' /\ same_frame b b'.
Proof.
  intros Hf Hb.
  destruct (repeat_result_ok (fun b' => buffer_ok b' /\ same_frame b b') f n b) as (b' & H & ? & ?).
  - intros a [Ha Hs]. destruct (Hf a Ha Hs) as (a' & ? & ? & ?). exists a'. split_and!; [done|done|].
    by apply (same_frame_trans _ a).
  - split; [done|apply same_frame_refl].
  - by exists b'.
Qed.

Lemma scroll_up_ok b count : buffer_ok b ->
  exists b', scroll_up_in_region count b = Ok b' /\ buffer_ok b' /\ same_frame b b'.
Proof.
  intros Hb. unfold scroll_up_in_region. rewrite no_rows_ok, region_fits_ok by done. simpl.
  apply repeat_lines_ok; [|done]. intros b' Hb' Hs.
  destruct (same_frame_facts _ _ Hs) as (Hz & _). pose proof Hb as [_ _ _ _ [? ?] _ _ _ _ _].
  apply scroll_up_once_ok; [done|rewrite Hz; lia..].
Qed.

Lemma scroll_down_ok b count : buffer_ok b ->
  exists b', scroll_down_in_region count b = Ok b' /\ buffer_ok b' /\ same_frame b b'.
Proof.
  intros Hb. unfold scroll_down_in_region. rewrite no_rows_ok, region_fits_ok by done. simpl.
  apply repeat_lines_ok; [|done]. intros b' Hb' Hs.
  destruct (same_frame_facts _ _ Hs) as (Hz & _). pose proof Hb as [_ _ _ _ [? ?] _ _ _ _ _].
  apply move_blank_row_ok; [done|rewrite Hz; lia..].
Qed.

(** ** Every operation returns a well-formed buffer of the same size *)

Definition kept (b : ScreenBuffer) (r : result ScreenBuffer fault) : Prop :=
  exists b', r = Ok b' /\ buffer_ok b' /\ size b' = size b.

Lemma kept_Ok b b' : buffer_ok b' -> size b' = size b -> kept b (Ok b').
Proof. by exists b'. Qed.

Lemma kept_bind b r k : kept b r ->
  (forall b', buffer_ok b' -> size b' = size b -> kept b (k b')) ->
  kept b (let? b' := r in k b').
Proof. intros (b' & -> & ? & ?) Hk. by apply Hk. Qed.

Lemma kept_same b r : (exists b', r = Ok b' /\ buffer_ok b' /\ same_frame b b') -> kept b r.
Proof.
  intros (b' & -> & ? & Hs). destruct (same_frame_facts _ _ Hs) as (? & _). by apply kept_Ok.
Qed.

Lemma kept_cells b r : buffer_ok b ->
  (exists cs, r = Ok (set_cells cs b) /\ grid_ok (size b) cs) -> kept b r.
Proof. intros Hb (cs & -> & ?). apply kept_Ok; [by apply ok_set_cells|done]. Qed.
#[export] Hint Resolve kept_Ok : screen.

Lemma u16_ok z : 0 <= z <= 65535 -> u16 z = Ok z.
Proof. intros. unfold u16. by rewrite !(proj2 (Z.leb_le _ _)) by lia. Qed.

Lemma line_feed_kept b : buffer_ok b ->
  exists b', line_feed b = Ok b' /\ buffer_ok b' /\ size b' = size b
    /\ cursor_col b' = cursor_col b /\ current_style b' = current_style b.
Proof.
  intros Hb. pose proof Hb as [[? ?] _ ? ? [? ?] _ _ _ _ _]. unfold line_feed, buf_rows.
  rewrite (proj2 (Z.eqb_neq _ _)) by lia. cbv zeta. simpl.
  destruct (Z.leb_spec (scroll_bottom b) (cursor_row b)).
  - destruct (scroll_up_ok (set_pending_wrap false b) 1) as (b' & -> & Hok & Hs);
      [by apply ok_set_pending_wrap|].
    destruct (same_frame_facts _ _ Hs) as (Hz & _ & Hc & _ & Hbot & _ & Hst & _). simpl in *.
    eexists. split_and!; [done| |done|done|done]. apply ok_set_cursor_row; [done|]. rewrite Hbot, Hz. lia.
  - rewrite u16_ok by lia. eexists. split_and!; [done| |done|done|done].
    apply ok_set_cursor_row; [by apply ok_set_pending_wrap|simpl; lia].
Qed.

Lemma reverse_index_kept b : buffer_ok b -> kept b (reverse_index b).
Proof.
  intros Hb. pose proof Hb as [[? ?] _ ? ? [? ?] _ _ _ _ _]. unfold reverse_index, buf_rows.
  rewrite (proj2 (Z.eqb_neq _ _)) by lia. cbv zeta. simpl.
  destruct (Z.leb_spec (cursor_row b) (scroll_top b)).
  - destruct (scroll_down_ok (set_pending_wrap false b) 1) as (b' & -> & Hok & Hs);
      [by apply ok_set_pending_wrap|].
    destruct (same_frame_facts _ _ Hs) as (Hz & _ & _ & Htop & _). simpl in *.
    apply kept_Ok; [|done]. apply ok_set_cursor_row; [done|]. rewrite Htop, Hz. lia.
  - rewrite u16_ok by lia. apply kept_Ok; [|done].
    apply ok_set_cursor_row; [by apply ok_set_pending_wrap|simpl; lia].
Qed.

Lemma cursor_row_cells_ok b : buffer_ok b ->
  exists r, cursor_row_cells b = Some r /\ row_ok (cols (size b)) r.
Proof.
  intros Hb. pose proof Hb as [_ [Hl Hg] Hr Hc _ _ _ _ _ _]. unfold cursor_row_cells.
  rewrite (proj2 (Z.ltb_lt _ _)) by (rewrite Hl; lia).
  destruct (get_row_ok b (cursor_row b) Hb Hr) as (r & _ & -> & Hok).
  exists r. destruct Hok as [Hlen Hf]. rewrite (proj2 (Z.ltb_lt _ _)) by (rewrite Hlen; lia). done.
Qed.

Lemma current_blank_ok b : buffer_ok b -> cell_ok (current_blank b).
Proof. intros []. by apply cell_ok_blank. Qed.
#[export] Hint Resolve current_blank_ok : screen.

Lemma insert_blanks_kept b count : buffer_ok b -> 0 <= count ->
  exists cs, insert_blanks_at_cursor count b = Ok (set_cells cs b) /\ grid_ok (size b) cs.
Proof.
  intros Hb Hn. pose proof Hb as [[? ?] [Hl _] Hr Hc _ _ _ _ _ _]. unfold insert_blanks_at_cursor, buf_cols.
  rewrite Hl, !(proj2 (Z.eqb_neq _ _)) by lia. simpl.
  destruct (cursor_row_cells_ok b Hb) as (r & -> & [Hlen Hf]).
  destruct (copy_within_ok cell_ok r (cursor_col b) (len r - Z.min count (len r - cursor_col b))
    (cursor_col b + Z.min count (len r - cursor_col b))) as (r1 & -> & Hl1 & Hf1); [lia|lia|lia|done|].
  destruct (fill_ok cell_ok r1 (cursor_col b) (cursor_col b + Z.min count (len r - cursor_col b))
    (current_blank b)) as (r2 & -> & Hl2 & Hf2); [lia|lia|done|by apply current_blank_ok|].
  apply set_row_ok; [done|done|]. split; [lia|done].
Qed.

Lemma clear_line_kept b mode : buffer_ok b -> kept b (clear_line mode b).
Proof.
  intros Hb. pose proof Hb as [_ [Hl _] Hr Hc _ _ _ _ _ _]. unfold clear_line.
  rewrite no_rows_ok by done. rewrite (proj2 (Z.leb_gt _ _)) by (rewrite Hl; lia).
  destruct (get_row_ok b (cursor_row b) Hb Hr) as (r & -> & _ & [Hlen Hf]).
  assert (Hbl : cell_ok (current_blank b)) by auto with screen.
  assert (Hfrom : forall lo, 0 <= lo -> kept b (set_row (cursor_row b) (fill_from r lo (current_blank b)) b)).
  { intros lo Hlo. destruct (fill_from_ok cell_ok r lo (current_blank b) Hlo Hf Hbl) as [Hl1 Hf1].
    apply kept_cells, set_row_ok; [done|done|done|]. split; [lia|done]. }
  destruct mode as [|[p|p|]|p]; try (apply Hfrom; lia).
  destruct (fill_ok cell_ok r 0 (cursor_col b + 1) (current_blank b)) as (r1 & -> & Hl1 & Hf1);
    [lia|lia|done|done|].
  apply kept_cells, set_row_ok; [done|done|done|]. split; [lia|done].
Qed.

Lemma row_ok_fill_from w r lo blank : 0 <= lo -> row_ok w r -> cell_ok blank ->
  row_ok w (fill_from r lo blank).
Proof.
  intros Hlo [Hl Hf] Hb. destruct (fill_from_ok cell_ok r lo blank Hlo Hf Hb). split; [lia|done].
Qed.

Lemma erase_above_ok w blank rs : 1 <= w -> Forall (row_ok w) rs -> cell_ok blank ->
  exists rs', map_result (fun r => fill r 0 (sat_sub (len r) 1 + 1) blank) rs = Ok rs'
    /\ len rs' = len rs /\ Forall (row_ok w) rs'.
Proof.
  intros Hw Hr Hb. apply map_result_ok. eapply Forall_impl; [exact Hr|].
  intros r [Hl Hf]. unfold sat_sub.
  destruct (fill_ok cell_ok r 0 (Z.max 0 (len r - 1) + 1) blank) as (r' & -> & Hl' & Hf');
    [lia|lia|done|done|]. exists r'. split; [done|]. split; [lia|done].
Qed.

Lemma clear_screen_kept b mode : buffer_ok b -> kept b (clear_screen mode b).
Proof.
  intros Hb. pose proof Hb as [[Hrs Hcs] [Hl Hg] Hr Hc _ _ _ Hst _ _]. unfold clear_screen.
  rewrite no_rows_ok by done. assert (Hbl : cell_ok (current_blank b)) by auto with screen.
  assert (Hall : kept b (Ok (set_pending_wrap false (set_cursor_col 0 (set_cursor_row 0
    (set_cells (blank_cells_with_style (size b) (current_style b)) b)))))).
  { apply kept_Ok; [|done]. apply ok_set_pending_wrap, ok_set_cursor_col; [|simpl; lia].
    apply ok_set_cursor_row; [|simpl; lia]. apply ok_set_cells; [done|]. by apply grid_ok_blank. }
  destruct mode as [|[p|p|]|p]; try exact Hall.
  - apply kept_Ok; [|done]. apply ok_set_cells; [done|].
    destruct (get_row_ok b (cursor_row b) Hb Hr) as (r & _ & Hlook & Hrow).
    rewrite (drop_S _ _ _ Hlook). split.
    + rewrite <- Hl. unfold len. rewrite length_app, length_take. simpl. rewrite length_map, length_drop.
      apply lookup_lt_Some in Hlook. lia.
    + apply Forall_app_2; [by apply Forall_take|]. constructor; [by apply row_ok_fill_from; [lia|..]|].
      apply Forall_map. eapply Forall_impl; [apply Forall_drop, Hg|].
      intros r' Hr'. by apply row_ok_fill_from.
  - destruct (erase_above_ok (cols (size b)) (current_blank b) (take (Z.to_nat (cursor_row b)) (cells b)))
      as (rs & -> & Hlrs & Hfrs); [lia|by apply Forall_take|done|].
    destruct (get_row_ok b (cursor_row b) Hb Hr) as (r & -> & Hlook & [Hlen Hf]).
    destruct (fill_ok cell_ok r 0 (cursor_col b + 1) (current_blank b)) as (r1 & -> & Hl1 & Hf1);
      [lia|lia|done|done|].
    apply kept_Ok; [|done]. apply ok_set_cells; [done|]. apply lookup_lt_Some in Hlook. split.
    + rewrite <- Hl. unfold len in *. rewrite length_app. simpl. rewrite length_drop.
      rewrite length_take in Hlrs. lia.
    + apply Forall_app_2; [done|]. constructor; [by split; [lia|]|by apply Forall_drop].
Qed.

Lemma advance_kept b width autowrap : buffer_ok b -> 1 <= width <= 2 ->
  kept b (advance_cursor width autowrap b).
Proof.
  intros Hb Hw. pose proof Hb as [[? ?] _ Hr Hc _ _ _ _ _ _]. unfold advance_cursor, buf_cols, max_col.
  rewrite u16_ok by lia. destruct (Z.leb_spec (cols (size b)) (cursor_col b + width)).
  - apply kept_Ok; [|done]. apply ok_set_pending_wrap, ok_set_cursor_col; [done|].
    unfold sat_sub, buf_cols. lia.
  - apply kept_Ok; [|done]. apply ok_set_cursor_col; [done|]. lia.
Qed.

Lemma width_range c : 0 <= char_display_width c <= 2.
Proof. unfold char_display_width. repeat case_match; lia. Qed.

Lemma width_control c : char_display_width c <> 0 -> is_control c = false.
Proof. unfold char_display_width. by destruct (is_control c). Qed.

(** Writing a cell at a place inside the grid. *)
Lemma put_ok b row col c : buffer_ok b -> 0 <= row < rows (size b) -> 0 <= col < cols (size b) ->
  c = WIDE_CONTINUATION \/ is_control c = false ->
  exists cs, put_cell row col {| ch := c; style := current_style b |} b = Ok (set_cells cs b)
    /\ buffer_ok (set_cells cs b).
Proof.
  intros Hb Hr Hc Hch. destruct (put_cell_ok b row col {| ch := c; style := current_style b |})
    as (cs & -> & Hg); [done|done|done|split; [done|apply Hb]|].
  exists cs. split; [done|]. by apply ok_set_cells.
Qed.

(** The first two steps of [put_char]. *)
Lemma put_char_wrap b modes width : buffer_ok b -> 0 <= width ->
  exists b', (let? b := (if pending_wrap b
                         then let? b := line_feed (set_cursor_col 0 b) in Ok (set_pending_wrap false b)
                         else Ok b) in
              if modes_insert modes then insert_blanks_at_cursor width b else Ok b) = Ok b'
    /\ buffer_ok b' /\ size b' = size b.
Proof.
  intros Hb Hw. pose proof Hb as [[? ?] _ _ _ _ _ _ _ _ _].
  assert (H1 : kept b (if pending_wrap b
    then let? b := line_feed (set_cursor_col 0 b) in Ok (set_pending_wrap false b) else Ok b)).
  { destruct (pending_wrap b); [|by apply kept_Ok].
    destruct (line_feed_kept (set_cursor_col 0 b)) as (b' & -> & Hok & Hz & _);
      [apply ok_set_cursor_col; [done|lia]|].
    apply kept_Ok; [by apply ok_set_pending_wrap|done]. }
  destruct H1 as (b1 & -> & Hok & Hz). destruct (modes_insert modes); [|by exists b1].
  destruct (insert_blanks_kept b1 width Hok Hw) as (cs & -> & Hg).
  eexists. split_and!; [done|by apply ok_set_cells|done].
Qed.

(** The second half of a wide character, wrapped to the next line. *)
Lemma put_wrapped_kept b c modes : buffer_ok b -> is_control c = false -> 1 < cols (size b) ->
  kept b (let? b := line_feed (set_cursor_col 0 b) in
          let row := cursor_row b in
          let? b := clear_wide_overlap row (cursor_col b) b in
          let? b := put_cell row (cursor_col b) {| ch := c; style := current_style b |} b in
          let? b := put_cell row (cursor_col b + 1)
                      {| ch := WIDE_CONTINUATION; style := current_style b |} b in
          advance_cursor 2 (modes_autowrap modes) b).
Proof.
  intros Hb Hc Hcols. pose proof Hb as [[? ?] _ _ _ _ _ _ _ _ _].
  destruct (line_feed_kept (set_cursor_col 0 b)) as (b1 & -> & Hok & Hz & Hcol & _);
    [apply ok_set_cursor_col; [done|lia]|]. simpl in Hz, Hcol. cbv zeta.
  pose proof Hok as [_ _ Hr1 Hc1 _ _ _ _ _ _].
  destruct (clear_wide_overlap_ok b1 (cursor_row b1) (cursor_col b1) Hok Hr1 Hc1) as (cs & -> & Hg).
  destruct (put_ok (set_cells cs b1) (cursor_row b1) (cursor_col (set_cells cs b1)) c) as (cs2 & -> & Hok2);
    [by apply ok_set_cells|done|done|by right|].
  rewrite set_cells_twice in Hok2 |- *.
  destruct (put_ok (set_cells cs2 b1) (cursor_row b1) (cursor_col (set_cells cs2 b1) + 1) WIDE_CONTINUATION)
    as (cs3 & -> & Hok3); [done|done|simpl; rewrite Hz, Hcol; lia|by left|].
  destruct (advance_kept _ 2 (modes_autowrap modes) Hok3) as (b' & -> & Hok' & Hz'); [lia|].
  apply kept_Ok; [done|]. rewrite Hz'. done.
Qed.

Lemma put_char_kept b c modes : buffer_ok b -> kept b (put_char c modes b).
Proof.
  intros Hb. pose proof Hb as [[? ?] _ _ _ _ _ _ _ _ _]. unfold put_char.
  unfold buf_rows at 1, buf_cols at 1. rewrite !(proj2 (Z.eqb_neq _ _)) by lia. cbn [orb].
  cbv zeta. pose proof (width_range c) as Hw. pose proof (width_control c) as Hctl.
  destruct (Z.eqb_spec (char_display_width c) 0) as [|Hw0]; [by apply kept_Ok|].
  specialize (Hctl Hw0). destruct (put_char_wrap b modes (char_display_width c) Hb) as (b1 & H1 & Hok & Hz);
    [lia|].
  destruct (if pending_wrap b then _ else _) as [b0|]; [|done]. rewrite H1. clear H1 b0.
  pose proof Hok as [_ _ Hr Hc _ _ _ _ _ _].
  destruct (clear_wide_overlap_ok b1 (cursor_row b1) (cursor_col b1) Hok Hr Hc) as (cs & -> & Hg).
  destruct (put_ok (set_cells cs b1) (cursor_row b1) (cursor_col b1) c) as (cs2 & -> & Hok2);
    [by apply ok_set_cells|done|done|by right|]. rewrite set_cells_twice in Hok2 |- *.
  set (b2 := set_last_char (Some c) (set_cells cs2 b1)).
  assert (Hb2 : buffer_ok b2) by (by apply ok_set_last_char). unfold buf_cols.
  assert (Hz2 : size b2 = size b) by done.
  assert (Hc2 : 0 <= cursor_col b1 < cols (size b)) by (rewrite <- Hz; lia).
  assert (Hadv : forall b3, buffer_ok b3 -> size b3 = size b ->
    kept b (advance_cursor (char_display_width c) (modes_autowrap modes) b3)).
  { intros b3 Hb3 Hz3. destruct (advance_kept b3 (char_display_width c) (modes_autowrap modes) Hb3)
      as (b' & -> & ? & ?); [lia|]. apply kept_Ok; [done|congruence]. }
  destruct ((char_display_width c =? 2) && (1 <? cols (size b2))) eqn:Hwide; [|by apply Hadv].
  apply andb_prop in Hwide as [Hw2 Hcols]. apply Z.eqb_eq in Hw2. apply Z.ltb_lt in Hcols.
  rewrite u16_ok by (simpl; lia).
  destruct (Z.leb_spec (cols (size b2)) (cursor_col b2 + 1)).
  - destruct (modes_autowrap modes) eqn:Ha; simpl negb; cbv iota; [|by apply kept_Ok].
    rewrite Hw2, <- Ha. destruct (put_wrapped_kept b2 c modes Hb2 Hctl Hcols) as (b' & E & ? & ?).
    cbv zeta in E. rewrite E. apply kept_Ok; [done|congruence].
  - destruct (put_ok b2 (cursor_row b1) (cursor_col b1 + 1) WIDE_CONTINUATION) as (cs3 & -> & Hok3);
      [done|done|rewrite Hz2 in *; simpl in *; lia|by left|]. by apply Hadv.
Qed.

Lemma repeat_kept (f : ScreenBuffer -> result ScreenBuffer fault) n b :
  (forall b', buffer_ok b' -> kept b' (f b')) -> buffer_ok b -> kept b (repeat_result n f b).
Proof.
  intros Hf Hb.
  destruct (repeat_result_ok (fun b' => buffer_ok b' /\ size b' = size b) f n b) as (b' & -> & ? & ?).
  - intros a [Ha Hs]. destruct (Hf a Ha) as (a' & ? & ? & ?). exists a'. split_and!; [done|done|congruence].
  - done.
  - by apply kept_Ok.
Qed.

Lemma repeat_last_char_kept b count modes : buffer_ok b -> kept b (repeat_last_char count modes b).
Proof.
  intros Hb. unfold repeat_last_char. destruct (last_char b); [|by apply kept_Ok].
  apply repeat_kept; [|done]. intros. by apply put_char_kept.
Qed.

Lemma insert_chars_kept b count : buffer_ok b -> kept b (insert_chars count b).
Proof.
  intros Hb. unfold insert_chars.
  destruct (insert_blanks_kept b (Z.max count 1) Hb) as (cs & -> & Hg); [lia|].
  apply kept_Ok; [|done]. by apply ok_set_pending_wrap, ok_set_cells.
Qed.

Lemma erase_chars_kept b count : buffer_ok b -> kept b (erase_chars count b).
Proof.
  intros Hb. pose proof Hb as [_ _ Hr Hc _ _ _ _ _ _]. unfold erase_chars. rewrite no_cells_ok by done.
  destruct (cursor_row_cells_ok b Hb) as (r & -> & [Hlen Hf]). cbv zeta.
  destruct (fill_ok cell_ok r (cursor_col b) (Z.min (cursor_col b + Z.max 1 count) (len r))
    (current_blank b)) as (r1 & -> & Hl1 & Hf1); [lia|lia|done|by apply current_blank_ok|].
  destruct (set_row_ok b (cursor_row b) r1 Hb Hr) as (cs & -> & Hg); [by split; [lia|]|].
  apply kept_Ok; [|done]. by apply ok_set_pending_wrap, ok_set_cells.
Qed.

Lemma delete_chars_kept b count : buffer_ok b -> kept b (delete_chars count b).
Proof.
  intros Hb. pose proof Hb as [_ _ Hr Hc _ _ _ _ _ _]. unfold delete_chars. rewrite no_cells_ok by done.
  destruct (cursor_row_cells_ok b Hb) as (r & -> & [Hlen Hf]). cbv zeta.
  destruct (copy_within_ok cell_ok r (cursor_col b + Z.min (Z.max 1 count) (len r - cursor_col b))
    (len r) (cursor_col b)) as (r1 & -> & Hl1 & Hf1); [lia|lia|lia|done|].
  destruct (fill_ok cell_ok r1 (len r - Z.min (Z.max 1 count) (len r - cursor_col b)) (len r1)
    (current_blank b)) as (r2 & -> & Hl2 & Hf2); [lia|lia|done|by apply current_blank_ok|].
  destruct (set_row_ok b (cursor_row b) r2 Hb Hr) as (cs & -> & Hg); [by split; [lia|]|].
  apply kept_Ok; [|done]. by apply ok_set_pending_wrap, ok_set_cells.
Qed.

Lemma insert_lines_kept b count : buffer_ok b -> kept b (insert_lines count b).
Proof.
  intros Hb. pose proof Hb as [_ _ Hr _ [? ?] _ _ _ _ _]. unfold insert_lines.
  destruct (_ || _); [by apply kept_Ok|]. cbv zeta.
  destruct (repeat_lines_ok (move_blank_row (scroll_bottom b) (cursor_row b))
    (Z.to_nat (Z.min count (scroll_bottom b - cursor_row b + 1))) b) as (b' & -> & Hok & Hs); [|done|].
  - intros b' Hb' Hs. destruct (same_frame_facts _ _ Hs) as (Hz & _).
    apply move_blank_row_ok; [done|rewrite Hz; lia..].
  - destruct (same_frame_facts _ _ Hs) as (Hz & _). apply kept_Ok; [by apply ok_set_pending_wrap|done].
Qed.

Lemma delete_lines_kept b count : buffer_ok b -> kept b (delete_lines count b).
Proof.
  intros Hb. pose proof Hb as [_ _ Hr _ [? ?] _ _ _ _ _]. unfold delete_lines.
  destruct (_ || _); [by apply kept_Ok|]. cbv zeta.
  destruct (repeat_lines_ok (move_blank_row (cursor_row b) (scroll_bottom b))
    (Z.to_nat (Z.min count (scroll_bottom b - cursor_row b + 1))) b) as (b' & -> & Hok & Hs); [|done|].
  - intros b' Hb' Hs. destruct (same_frame_facts _ _ Hs) as (Hz & _).
    apply move_blank_row_ok; [done|rewrite Hz; lia..].
  - destruct (same_frame_facts _ _ Hs) as (Hz & _). apply kept_Ok; [by apply ok_set_pending_wrap|done].
Qed.

Lemma tab_kept b : buffer_ok b -> kept b (tab b).
Proof.
  intros Hb. pose proof Hb as [[? ?] _ _ Hc _ _ _ _ _ _]. unfold tab, buf_cols.
  rewrite (proj2 (Z.eqb_neq _ _)) by lia.
  pose proof (Z.div_mod (cursor_col b) 8 ltac:(lia)). pose proof (Z.mod_pos_bound (cursor_col b) 8 ltac:(lia)).
  rewrite u16_ok by lia. apply kept_Ok; [|done].
  apply ok_set_pending_wrap, ok_set_cursor_col; [done|]. unfold max_col, sat_sub, buf_cols. lia.
Qed.

Lemma carriage_return_ok b : buffer_ok b -> buffer_ok (carriage_return b).
Proof. intros Hb. pose proof Hb as [[? ?]]. apply ok_set_pending_wrap, ok_set_cursor_col; [done|lia]. Qed.

Lemma backspace_ok b : buffer_ok b -> buffer_ok (backspace b).
Proof.
  intros Hb. pose proof Hb as [[? ?] _ _ Hc _ _ _ _ _ _].
  apply ok_set_pending_wrap, ok_set_cursor_col; [done|]. unfold sat_sub. lia.
Qed.

Lemma clamp_origin_row_ok b row origin : buffer_ok b -> 0 <= row ->
  0 <= clamp_origin_row b row origin < rows (size b).
Proof.
  intros Hb Hr. pose proof Hb as [[? ?] _ _ _ [? ?] _ _ _ _ _].
  unfold clamp_origin_row, max_row, sat_add, sat_sub, buf_rows. destruct origin; lia.
Qed.

Lemma max_col_ok b v : buffer_ok b -> 0 <= v -> 0 <= Z.min v (max_col b) < cols (size b).
Proof. intros [[? ?]] Hv. unfold max_col, sat_sub, buf_cols. lia. Qed.

Lemma max_row_ok b v : buffer_ok b -> 0 <= v -> 0 <= Z.min v (max_row b) < rows (size b).
Proof. intros [[? ?]] Hv. unfold max_row, sat_sub, buf_rows. lia. Qed.

Lemma move_cursor_row_ok b row origin : buffer_ok b -> 0 <= row ->
  buffer_ok (move_cursor_row row origin b).
Proof. intros. apply ok_set_pending_wrap, ok_set_cursor_row; [done|]. by apply clamp_origin_row_ok. Qed.

Lemma move_cursor_col_ok b col : buffer_ok b -> 0 <= col -> buffer_ok (move_cursor_col col b).
Proof. intros. apply ok_set_pending_wrap, ok_set_cursor_col; [done|]. by apply max_col_ok. Qed.

Lemma move_cursor_to_ok b row col origin : buffer_ok b -> 0 <= row -> 0 <= col ->
  buffer_ok (move_cursor_to row col origin b).
Proof.
  intros Hb Hr Hc. apply ok_set_pending_wrap, ok_set_cursor_col; [|by apply (max_col_ok b)].
  apply ok_set_cursor_row; [done|]. by apply clamp_origin_row_ok.
Qed.

Lemma move_cursor_relative_ok b dr dc : buffer_ok b -> buffer_ok (move_cursor_relative dr dc b).
Proof.
  intros Hb. pose proof Hb as [[? ?]]. unfold move_cursor_relative, clamp, max_row, max_col, sat_sub, buf_rows, buf_cols.
  apply ok_set_pending_wrap, ok_set_cursor_col; [|simpl; lia]. apply ok_set_cursor_row; [done|lia].
Qed.

Lemma save_cursor_ok b : buffer_ok b -> buffer_ok (buffer_save_cursor b).
Proof. intros []. constructor; simpl; try done. split_and!; [lia|lia|done]. Qed.

Lemma restore_cursor_ok b : buffer_ok b -> buffer_ok (buffer_restore_cursor b).
Proof.
  intros Hb. pose proof Hb as [_ _ _ _ _ _ _ _ (? & ? & ?) _]. unfold buffer_restore_cursor.
  destruct (valid _); [|done]. simpl. apply ok_set_pending_wrap, ok_set_current_style; [|done].
  apply ok_set_cursor_col; [|by apply (max_col_ok b)]. apply ok_set_cursor_row; [done|by apply max_row_ok].
Qed.

Lemma set_scroll_region_ok b top bottom origin : buffer_ok b -> 0 <= top ->
  buffer_ok (set_scroll_region top bottom origin b).
Proof.
  intros Hb Ht. pose proof Hb as [[? ?] _ _ _ _ _ _ _ _ _]. unfold set_scroll_region, buf_rows.
  rewrite (proj2 (Z.eqb_neq _ _)) by lia. pose proof (max_row_ok b top Hb Ht).
  apply ok_set_pending_wrap, ok_set_cursor_col; [|simpl; lia].
  apply ok_set_cursor_row; [|simpl; destruct origin; lia].
  destruct Hb. constructor; simpl; try done. unfold max_row, sat_sub, buf_rows in *. lia.
Qed.

Lemma buffer_reset_ok b : buffer_ok b -> buffer_ok (buffer_reset b).
Proof.
  intros []. destruct ok_size0 as [? ?] eqn:E. constructor; simpl; try done; try lia.
  - by apply grid_ok_blank.
  - unfold max_row, sat_sub, buf_rows. lia.
Qed.

Lemma overlay_ok {A} (P : A -> Prop) old new : Forall P old -> Forall P new ->
  len (overlay old new) = len new /\ Forall P (overlay old new).
Proof.
  intros Ho Hn. unfold overlay, len. rewrite length_app, length_take, length_drop. split; [lia|].
  apply Forall_app_2; auto using Forall_take, Forall_drop.
Qed.

Lemma overlay_grid_ok w cs blank : Forall (fun r => Forall cell_ok r) cs -> Forall (row_ok w) blank ->
  len (zip_with overlay cs blank ++ drop (length cs) blank) = len blank /\
  Forall (row_ok w) (zip_with overlay cs blank ++ drop (length cs) blank).
Proof.
  intros Hc. revert blank. induction Hc as [|r cs Hr Hc IH]; intros blank Hb; simpl.
  - split; [done|]. by rewrite drop_0.
  - destruct Hb as [|r0 blank [Hl Hf] Hb]; [done|]. simpl.
    destruct (IH blank Hb) as [Hlen Hall]. destruct (overlay_ok cell_ok r r0 Hr Hf) as [Hl' Hf'].
    split; [unfold len in *; simpl; lia|]. constructor; [split; [lia|done]|done].
Qed.

Lemma buffer_resize_ok b sz : buffer_ok b -> size_ok sz ->
  buffer_ok (buffer_resize b sz) /\ size (buffer_resize b sz) = sz.
Proof.
  intros Hb Hs. unfold buffer_resize. destruct (decide _) as [<-|_]; [done|]. split; [|done].
  destruct Hb as [_ [_ Hg] ? ? _ ? ? ? (? & ? & ?) ?]. pose proof Hs as [? ?].
  constructor; simpl; try done; unfold sat_sub; try lia.
  - destruct (overlay_grid_ok (cols sz) (cells b) (blank_cells sz)) as [Hl Hf].
    + eapply Forall_impl; [exact Hg|]. by intros r [].
    + by apply grid_ok_blank.
    + split; [|done]. rewrite Hl. by apply grid_ok_blank.
  - destruct (valid (saved_cursor b)); simpl; [|done]. split_and!; [lia|lia|done].
Qed.

(** ** Styles stay in range *)

Lemma parse_digits_range max acc t v : 0 <= acc -> parse_digits max acc t = Some v -> 0 <= v.
Proof.
  revert acc. induction t as [|c t IH]; intros acc Ha; simpl; [congruence|].
  unfold is_digit. destruct (Z.leb_spec 48 c); [|done]. destruct (Z.leb_spec c 57); [|done]. simpl.
  destruct (_ <=? max); [|done]. apply IH. lia.
Qed.

Lemma parse_u16_range t : 0 <= default 0 (parse_u16 t).
Proof.
  destruct (parse_u16 t) as [v|] eqn:E; simpl; [|lia]. unfold parse_u16 in E.
  destruct (match t with 43 :: r => r | _ => t end); [done|].
  by eapply (parse_digits_range 65535 0); [lia|].
Qed.

Lemma parse_csi_numbers_range params : Forall (fun v => 0 <= v) (parse_csi_numbers params).
Proof.
  unfold parse_csi_numbers. destruct params; [constructor|]. apply Forall_map, Forall_true.
  intros. apply parse_u16_range.
Qed.

Definition segment_ok (segment : SgrSegment) : Prop :=
  0 <= code segment /\ Forall (fun v => 0 <= v) (subparams segment).

Lemma parse_sgr_segments_ok params : Forall segment_ok (parse_sgr_segments params).
Proof.
  unfold parse_sgr_segments. destruct params; [constructor|]. apply Forall_map, Forall_true.
  intros t. unfold parse_sgr_segment. destruct (split 58 t) as [|v parts]; [by split|].
  split; simpl; [apply parse_u16_range|]. apply Forall_map, Forall_true. intros. apply parse_u16_range.
Qed.

Lemma as_u8_ok v : fits 8 (as_u8 v).
Proof. unfold as_u8, wrap, fits. apply Z.mod_pos_bound. lia. Qed.

Lemma at_most_255_ok v : 0 <= v -> fits 8 (at_most_255 v).
Proof. unfold at_most_255, fits. simpl. lia. Qed.

Lemma colon_color_ok subs : Forall (fun v => 0 <= v) subs ->
  from_option color_ok True (colon_color subs).
Proof.
  intros Hs. assert (H : forall i v, subs !! i = Some v -> 0 <= v).
  { intros i v Hi. by apply (Forall_lookup_1 _ _ _ _ Hs Hi). }
  unfold colon_color. repeat case_match; subst; simpl; try done;
    first [by apply at_most_255_ok, (H 1%nat)|split_and!; apply at_most_255_ok; eapply H; done].
Qed.

Lemma semicolon_color_ok rest : Forall segment_ok rest ->
  from_option color_ok True (semicolon_color rest).1.
Proof.
  intros Hs. assert (H : forall i seg, rest !! i = Some seg -> 0 <= code seg).
  { intros i seg Hi. by apply (Forall_lookup_1 _ _ _ _ Hs Hi). }
  unfold semicolon_color. repeat case_match; subst; simpl; try done;
    first [by apply at_most_255_ok, (H 1%nat)
          |split_and!; apply at_most_255_ok; [by apply (H 1%nat)|by apply (H 2%nat)|by apply (H 3%nat)]].
Qed.

Lemma style_ok_attribute segment s : style_ok s -> style_ok (screen_attribute segment s).
Proof.
  intros [Hf Hb]. unfold screen_attribute. repeat case_match; split; simpl; try done; apply as_u8_ok.
Qed.

Lemma screen_segments_ok skip s params : Forall segment_ok params -> style_ok s ->
  style_ok (screen_segments skip s params).
Proof.
  intros Hp. revert skip s. induction Hp as [|seg rest [Hc Hsub] Hr IH]; intros skip s Hs; simpl; [done|].
  destruct skip as [|k]; [|by apply IH].
  assert (Hcol : from_option color_ok True (segment_color seg rest).1).
  { unfold segment_color. destruct (subparams seg) as [|z l] eqn:E; [by apply semicolon_color_ok|].
    by apply colon_color_ok. }
  destruct (segment_color seg rest) as [color used]. simpl in Hcol.
  assert (Hset : forall fg, style_ok (set_color fg color s))
    by (intros []; destruct color; [split; [done|apply Hs]|done|split; [apply Hs|done]|done]).
  pose proof (style_ok_attribute seg s Hs) as Hat. clear Hcol Hsub Hc.
  repeat case_match; auto.
Qed.

Lemma apply_sgr_ok b params : buffer_ok b -> Forall segment_ok params -> buffer_ok (apply_sgr params b).
Proof.
  intros Hb Hp. unfold apply_sgr. destruct params as [|p ps]; apply ok_set_current_style; [done..|].
  apply screen_segments_ok; [done|apply Hb].
Qed.
