(* ===== verification/Terminal.v ===== *)
(** * The terminal engine

    [TerminalEngine] of [src/terminal/engine.rs]: two screen buffers, the
    modes, and the parser that applies a stream of bytes to them
    ([feed_and_collect_replies]). An escape sequence that is cut off by the
    end of the input is kept and parsed again with the next input; an
    incomplete character likewise; during a synchronized update the input is
    buffered until the update ends or the buffer is too long. The loop runs on
    fuel; [feed_and_collect_replies] gives it enough for every input. *)

From S2P Require Import Prelude Bytes Utf8 Ansi Screen.

Definition MAX_SYNCHRONIZED_BUFFER_BYTES : Z := 256 * 1024.

Definition SYNCHRONIZED_UPDATE_END : list byte := x1b :: as_bytes "[?2026l".

Inductive CharacterSet := CharsetAscii | DecGraphics.

Record CharsetState := { g0 : CharacterSet; g1 : CharacterSet; use_g1 : bool }.

Definition default_charset : CharsetState :=
  {| g0 := CharsetAscii; g1 := CharsetAscii; use_g1 := false |}.

Record TerminalEngine := {
  normal : ScreenBuffer;
  alternate : ScreenBuffer;
  alternate_screen_active : bool;
  application_cursor_keys : bool;
  cursor_visible : bool;
  autowrap : bool;
  origin_mode : bool;
  insert_mode : bool;
  bracketed_paste : bool;
  mouse_reporting : MouseReportingMode;
  mouse_encoding : MouseEncoding;
  charset : CharsetState;
  saved_charset : option CharsetState;
  window_title : option text;
  osc52_queue : list text;
  pending_escape : list byte;
  pending_utf8 : list byte;
  synchronized_update : bool;
  synchronized_buffer : list byte
}.

Definition set_normal (v : ScreenBuffer) (e : TerminalEngine) : TerminalEngine :=
  {| normal := v; alternate := alternate e; alternate_screen_active := alternate_screen_active
     e; application_cursor_keys := application_cursor_keys e; cursor_visible := cursor_visible
     e; autowrap := autowrap e; origin_mode := origin_mode e; insert_mode := insert_mode e;
     bracketed_paste := bracketed_paste e; mouse_reporting := mouse_reporting e; mouse_encoding
     := mouse_encoding e; charset := charset e; saved_charset := saved_charset e; window_title
     := window_title e; osc52_queue := osc52_queue e; pending_escape := pending_escape e;
     pending_utf8 := pending_utf8 e; synchronized_update := synchronized_update e;
     synchronized_buffer := synchronized_buffer e |}.
Definition set_alternate (v : ScreenBuffer) (e : TerminalEngine) : TerminalEngine :=
  {| normal := normal e; alternate := v; alternate_screen_active := alternate_screen_active e;
     application_cursor_keys := application_cursor_keys e; cursor_visible := cursor_visible e;
     autowrap := autowrap e; origin_mode := origin_mode e; insert_mode := insert_mode e;
     bracketed_paste := bracketed_paste e; mouse_reporting := mouse_reporting e; mouse_encoding
     := mouse_encoding e; charset := charset e; saved_charset := saved_charset e; window_title
     := window_title e; osc52_queue := osc52_queue e; pending_escape := pending_escape e;
     pending_utf8 := pending_utf8 e; synchronized_update := synchronized_update e;
     synchronized_buffer := synchronized_buffer e |}.
Definition set_alternate_screen_active (v : bool) (e : TerminalEngine) : TerminalEngine :=
  {| normal := normal e; alternate := alternate e; alternate_screen_active := v;
     application_cursor_keys := application_cursor_keys e; cursor_visible := cursor_visible e;
     autowrap := autowrap e; origin_mode := origin_mode e; insert_mode := insert_mode e;
     bracketed_paste := bracketed_paste e; mouse_reporting := mouse_reporting e; mouse_encoding
     := mouse_encoding e; charset := charset e; saved_charset := saved_charset e; window_title
     := window_title e; osc52_queue := osc52_queue e; pending_escape := pending_escape e;
     pending_utf8 := pending_utf8 e; synchronized_update := synchronized_update e;
     synchronized_buffer := synchronized_buffer e |}.
Definition set_application_cursor_keys (v : bool) (e : TerminalEngine) : TerminalEngine :=
  {| normal := normal e; alternate := alternate e; alternate_screen_active :=
     alternate_screen_active e; application_cursor_keys := v; cursor_visible := cursor_visible
     e; autowrap := autowrap e; origin_mode := origin_mode e; insert_mode := insert_mode e;
     bracketed_paste := bracketed_paste e; mouse_reporting := mouse_reporting e; mouse_encoding
     := mouse_encoding e; charset := charset e; saved_charset := saved_charset e; window_title
     := window_title e; osc52_queue := osc52_queue e; pending_escape := pending_escape e;
     pending_utf8 := pending_utf8 e; synchronized_update := synchronized_update e;
     synchronized_buffer := synchronized_buffer e |}.
Definition set_cursor_visible (v : bool) (e : TerminalEngine) : TerminalEngine :=
  {| normal := normal e; alternate := alternate e; alternate_screen_active :=
     alternate_screen_active e; application_cursor_keys := application_cursor_keys e;
     cursor_visible := v; autowrap := autowrap e; origin_mode := origin_mode e; insert_mode :=
     insert_mode e; bracketed_paste := bracketed_paste e; mouse_reporting := mouse_reporting e;
     mouse_encoding := mouse_encoding e; charset := charset e; saved_charset := saved_charset e;
     window_title := window_title e; osc52_queue := osc52_queue e; pending_escape :=
     pending_escape e; pending_utf8 := pending_utf8 e; synchronized_update :=
     synchronized_update e; synchronized_buffer := synchronized_buffer e |}.
Definition set_autowrap (v : bool) (e : TerminalEngine) : TerminalEngine :=
  {| normal := normal e; alternate := alternate e; alternate_screen_active :=
     alternate_screen_active e; application_cursor_keys := application_cursor_keys e;
     cursor_visible := cursor_visible e; autowrap := v; origin_mode := origin_mode e;
     insert_mode := insert_mode e; bracketed_paste := bracketed_paste e; mouse_reporting :=
     mouse_reporting e; mouse_encoding := mouse_encoding e; charset := charset e; saved_charset
     := saved_charset e; window_title := window_title e; osc52_queue := osc52_queue e;
     pending_escape := pending_escape e; pending_utf8 := pending_utf8 e; synchronized_update :=
     synchronized_update e; synchronized_buffer := synchronized_buffer e |}.
Definition set_origin_mode (v : bool) (e : TerminalEngine) : TerminalEngine :=
  {| normal := normal e; alternate := alternate e; alternate_screen_active :=
     alternate_screen_active e; application_cursor_keys := application_cursor_keys e;
     cursor_visible := cursor_visible e; autowrap := autowrap e; origin_mode := v; insert_mode
     := insert_mode e; bracketed_paste := bracketed_paste e; mouse_reporting := mouse_reporting
     e; mouse_encoding := mouse_encoding e; charset := charset e; saved_charset := saved_charset
     e; window_title := window_title e; osc52_queue := osc52_queue e; pending_escape :=
     pending_escape e; pending_utf8 := pending_utf8 e; synchronized_update :=
     synchronized_update e; synchronized_buffer := synchronized_buffer e |}.
Definition set_insert_mode (v : bool) (e : TerminalEngine) : TerminalEngine :=
  {| normal := normal e; alternate := alternate e; alternate_screen_active :=
     alternate_screen_active e; application_cursor_keys := application_cursor_keys e;
     cursor_visible := cursor_visible e; autowrap := autowrap e; origin_mode := origin_mode e;
     insert_mode := v; bracketed_paste := bracketed_paste e; mouse_reporting := mouse_reporting
     e; mouse_encoding := mouse_encoding e; charset := charset e; saved_charset := saved_charset
     e; window_title := window_title e; osc52_queue := osc52_queue e; pending_escape :=
     pending_escape e; pending_utf8 := pending_utf8 e; synchronized_update :=
     synchronized_update e; synchronized_buffer := synchronized_buffer e |}.
Definition set_bracketed_paste (v : bool) (e : TerminalEngine) : TerminalEngine :=
  {| normal := normal e; alternate := alternate e; alternate_screen_active :=
     alternate_screen_active e; application_cursor_keys := application_cursor_keys e;
     cursor_visible := cursor_visible e; autowrap := autowrap e; origin_mode := origin_mode e;
     insert_mode := insert_mode e; bracketed_paste := v; mouse_reporting := mouse_reporting e;
     mouse_encoding := mouse_encoding e; charset := charset e; saved_charset := saved_charset e;
     window_title := window_title e; osc52_queue := osc52_queue e; pending_escape :=
     pending_escape e; pending_utf8 := pending_utf8 e; synchronized_update :=
     synchronized_update e; synchronized_buffer := synchronized_buffer e |}.
Definition set_mouse_reporting (v : MouseReportingMode) (e : TerminalEngine) : TerminalEngine :=
  {| normal := normal e; alternate := alternate e; alternate_screen_active :=
     alternate_screen_active e; application_cursor_keys := application_cursor_keys e;
     cursor_visible := cursor_visible e; autowrap := autowrap e; origin_mode := origin_mode e;
     insert_mode := insert_mode e; bracketed_paste := bracketed_paste e; mouse_reporting := v;
     mouse_encoding := mouse_encoding e; charset := charset e; saved_charset := saved_charset e;
     window_title := window_title e; osc52_queue := osc52_queue e; pending_escape :=
     pending_escape e; pending_utf8 := pending_utf8 e; synchronized_update :=
     synchronized_update e; synchronized_buffer := synchronized_buffer e |}.
Definition set_mouse_encoding (v : MouseEncoding) (e : TerminalEngine) : TerminalEngine :=
  {| normal := normal e; alternate := alternate e; alternate_screen_active :=
     alternate_screen_active e; application_cursor_keys := application_cursor_keys e;
     cursor_visible := cursor_visible e; autowrap := autowrap e; origin_mode := origin_mode e;
     insert_mode := insert_mode e; bracketed_paste := bracketed_paste e; mouse_reporting :=
     mouse_reporting e; mouse_encoding := v; charset := charset e; saved_charset :=
     saved_charset e; window_title := window_title e; osc52_queue := osc52_queue e;
     pending_escape := pending_escape e; pending_utf8 := pending_utf8 e; synchronized_update :=
     synchronized_update e; synchronized_buffer := synchronized_buffer e |}.
Definition set_charset (v : CharsetState) (e : TerminalEngine) : TerminalEngine :=
  {| normal := normal e; alternate := alternate e; alternate_screen_active :=
     alternate_screen_active e; application_cursor_keys := application_cursor_keys e;
     cursor_visible := cursor_visible e; autowrap := autowrap e; origin_mode := origin_mode e;
     insert_mode := insert_mode e; bracketed_paste := bracketed_paste e; mouse_reporting :=
     mouse_reporting e; mouse_encoding := mouse_encoding e; charset := v; saved_charset :=
     saved_charset e; window_title := window_title e; osc52_queue := osc52_queue e;
     pending_escape := pending_escape e; pending_utf8 := pending_utf8 e; synchronized_update :=
     synchronized_update e; synchronized_buffer := synchronized_buffer e |}.
Definition set_saved_charset (v : option CharsetState) (e : TerminalEngine) : TerminalEngine :=
  {| normal := normal e; alternate := alternate e; alternate_screen_active :=
     alternate_screen_active e; application_cursor_keys := application_cursor_keys e;
     cursor_visible := cursor_visible e; autowrap := autowrap e; origin_mode := origin_mode e;
     insert_mode := insert_mode e; bracketed_paste := bracketed_paste e; mouse_reporting :=
     mouse_reporting e; mouse_encoding := mouse_encoding e; charset := charset e; saved_charset
     := v; window_title := window_title e; osc52_queue := osc52_queue e; pending_escape :=
     pending_escape e; pending_utf8 := pending_utf8 e; synchronized_update :=
     synchronized_update e; synchronized_buffer := synchronized_buffer e |}.
Definition set_window_title (v : option text) (e : TerminalEngine) : TerminalEngine :=
  {| normal := normal e; alternate := alternate e; alternate_screen_active :=
     alternate_screen_active e; application_cursor_keys := application_cursor_keys e;
     cursor_visible := cursor_visible e; autowrap := autowrap e; origin_mode := origin_mode e;
     insert_mode := insert_mode e; bracketed_paste := bracketed_paste e; mouse_reporting :=
     mouse_reporting e; mouse_encoding := mouse_encoding e; charset := charset e; saved_charset
     := saved_charset e; window_title := v; osc52_queue := osc52_queue e; pending_escape :=
     pending_escape e; pending_utf8 := pending_utf8 e; synchronized_update :=
     synchronized_update e; synchronized_buffer := synchronized_buffer e |}.
Definition set_osc52_queue (v : list text) (e : TerminalEngine) : TerminalEngine :=
  {| normal := normal e; alternate := alternate e; alternate_screen_active :=
     alternate_screen_active e; application_cursor_keys := application_cursor_keys e;
     cursor_visible := cursor_visible e; autowrap := autowrap e; origin_mode := origin_mode e;
     insert_mode := insert_mode e; bracketed_paste := bracketed_paste e; mouse_reporting :=
     mouse_reporting e; mouse_encoding := mouse_encoding e; charset := charset e; saved_charset
     := saved_charset e; window_title := window_title e; osc52_queue := v; pending_escape :=
     pending_escape e; pending_utf8 := pending_utf8 e; synchronized_update :=
     synchronized_update e; synchronized_buffer := synchronized_buffer e |}.
Definition set_pending_escape (v : list byte) (e : TerminalEngine) : TerminalEngine :=
  {| normal := normal e; alternate := alternate e; alternate_screen_active :=
     alternate_screen_active e; application_cursor_keys := application_cursor_keys e;
     cursor_visible := cursor_visible e; autowrap := autowrap e; origin_mode := origin_mode e;
     insert_mode := insert_mode e; bracketed_paste := bracketed_paste e; mouse_reporting :=
     mouse_reporting e; mouse_encoding := mouse_encoding e; charset := charset e; saved_charset
     := saved_charset e; window_title := window_title e; osc52_queue := osc52_queue e;
     pending_escape := v; pending_utf8 := pending_utf8 e; synchronized_update :=
     synchronized_update e; synchronized_buffer := synchronized_buffer e |}.
Definition set_pending_utf8 (v : list byte) (e : TerminalEngine) : TerminalEngine :=
  {| normal := normal e; alternate := alternate e; alternate_screen_active :=
     alternate_screen_active e; application_cursor_keys := application_cursor_keys e;
     cursor_visible := cursor_visible e; autowrap := autowrap e; origin_mode := origin_mode e;
     insert_mode := insert_mode e; bracketed_paste := bracketed_paste e; mouse_reporting :=
     mouse_reporting e; mouse_encoding := mouse_encoding e; charset := charset e; saved_charset
     := saved_charset e; window_title := window_title e; osc52_queue := osc52_queue e;
     pending_escape := pending_escape e; pending_utf8 := v; synchronized_update :=
     synchronized_update e; synchronized_buffer := synchronized_buffer e |}.
Definition set_synchronized_update (v : bool) (e : TerminalEngine) : TerminalEngine :=
  {| normal := normal e; alternate := alternate e; alternate_screen_active :=
     alternate_screen_active e; application_cursor_keys := application_cursor_keys e;
     cursor_visible := cursor_visible e; autowrap := autowrap e; origin_mode := origin_mode e;
     insert_mode := insert_mode e; bracketed_paste := bracketed_paste e; mouse_reporting :=
     mouse_reporting e; mouse_encoding := mouse_encoding e; charset := charset e; saved_charset
     := saved_charset e; window_title := window_title e; osc52_queue := osc52_queue e;
     pending_escape := pending_escape e; pending_utf8 := pending_utf8 e; synchronized_update :=
     v; synchronized_buffer := synchronized_buffer e |}.
Definition set_synchronized_buffer (v : list byte) (e : TerminalEngine) : TerminalEngine :=
  {| normal := normal e; alternate := alternate e; alternate_screen_active :=
     alternate_screen_active e; application_cursor_keys := application_cursor_keys e;
     cursor_visible := cursor_visible e; autowrap := autowrap e; origin_mode := origin_mode e;
     insert_mode := insert_mode e; bracketed_paste := bracketed_paste e; mouse_reporting :=
     mouse_reporting e; mouse_encoding := mouse_encoding e; charset := charset e; saved_charset
     := saved_charset e; window_title := window_title e; osc52_queue := osc52_queue e;
     pending_escape := pending_escape e; pending_utf8 := pending_utf8 e; synchronized_update :=
     synchronized_update e; synchronized_buffer := v |}.

Definition terminal_new (sz : TerminalSize) : TerminalEngine :=
  {| normal := buffer_new sz; alternate := buffer_new sz; alternate_screen_active := false;
     application_cursor_keys := false; cursor_visible := true; autowrap := true;
     origin_mode := false; insert_mode := false; bracketed_paste := false;
     mouse_reporting := MouseNone; mouse_encoding := X10; charset := default_charset;
     saved_charset := None; window_title := None; osc52_queue := []; pending_escape := [];
     pending_utf8 := []; synchronized_update := false; synchronized_buffer := [] |}.

Definition terminal_resize (sz : TerminalSize) (e : TerminalEngine) : TerminalEngine :=
  set_alternate (buffer_resize (alternate e) sz) (set_normal (buffer_resize (normal e) sz) e).

Definition active_buffer (e : TerminalEngine) : ScreenBuffer :=
  if alternate_screen_active e then alternate e else normal e.

Definition set_active (b : ScreenBuffer) (e : TerminalEngine) : TerminalEngine :=
  if alternate_screen_active e then set_alternate b e else set_normal b e.

(** A call on [self.active_buffer_mut()]. *)
Definition on_active (f : ScreenBuffer -> result ScreenBuffer fault) (e : TerminalEngine) :
    result TerminalEngine fault :=
  let? b := f (active_buffer e) in Ok (set_active b e).

Definition on_active_pure (f : ScreenBuffer -> ScreenBuffer) (e : TerminalEngine) : TerminalEngine :=
  set_active (f (active_buffer e)) e.

Definition engine_snapshot (e : TerminalEngine) : ScreenSnapshot :=
  buffer_snapshot (active_buffer e) (alternate_screen_active e) (window_title e) (cursor_visible e).

Definition engine_state (e : TerminalEngine) : ScreenState :=
  {| normal_snapshot := buffer_snapshot (normal e) false (window_title e) (cursor_visible e);
     alternate_snapshot := buffer_snapshot (alternate e) true (window_title e) (cursor_visible e);
     state_alternate_active := alternate_screen_active e;
     state_cursor_keys := application_cursor_keys e |}.

Definition drain_osc52 (e : TerminalEngine) : list text * TerminalEngine :=
  (osc52_queue e, set_osc52_queue [] e).

Definition drain_scrollback_lines (e : TerminalEngine) : list text * TerminalEngine :=
  let '(new_lines, b) := buffer_drain_scrollback (normal e) in (new_lines, set_normal b e).

Definition write_modes (e : TerminalEngine) : WriteModes :=
  {| modes_autowrap := autowrap e; modes_insert := insert_mode e |}.

Definition active_charset (e : TerminalEngine) : CharacterSet :=
  if use_g1 (charset e) then g1 (charset e) else g0 (charset e).

Definition designate_charset (designate_g0 : bool) (code : byte) (e : TerminalEngine) :
    TerminalEngine :=
  let c := if decide (code = x30) then DecGraphics else CharsetAscii in
  let s := charset e in
  set_charset
    (if designate_g0 then {| g0 := c; g1 := g1 s; use_g1 := use_g1 s |}
     else {| g0 := g0 s; g1 := c; use_g1 := use_g1 s |}) e.

Definition shift_charset (g1_active : bool) (e : TerminalEngine) : TerminalEngine :=
  let s := charset e in
  set_charset {| g0 := g0 s; g1 := g1 s; use_g1 := g1_active |} e.

Definition save_cursor (e : TerminalEngine) : TerminalEngine :=
  let e := on_active_pure buffer_save_cursor e in set_saved_charset (Some (charset e)) e.

Definition restore_cursor (e : TerminalEngine) : TerminalEngine :=
  let e := on_active_pure buffer_restore_cursor e in
  match saved_charset e with Some saved => set_charset saved e | None => e end.

Definition reset (e : TerminalEngine) : TerminalEngine :=
  {| normal := buffer_reset (normal e); alternate := buffer_reset (alternate e);
     alternate_screen_active := false; application_cursor_keys := false; cursor_visible := true;
     autowrap := true; origin_mode := false; insert_mode := false; bracketed_paste := false;
     mouse_reporting := MouseNone; mouse_encoding := X10; charset := default_charset;
     saved_charset := None; window_title := window_title e; osc52_queue := osc52_queue e;
     pending_escape := pending_escape e; pending_utf8 := pending_utf8 e;
     synchronized_update := synchronized_update e;
     synchronized_buffer := synchronized_buffer e |}.

(** ** Plain text *)

Fixpoint put_chars (dec_graphics : bool) (modes : WriteModes) (chars : text) (b : ScreenBuffer) :
    result ScreenBuffer fault :=
  match chars with
  | [] => Ok b
  | c :: rest =>
      let c := if dec_graphics then translate_dec_graphics c else c in
      let? b := put_char c modes b in put_chars dec_graphics modes rest b
  end.

(** [flush_plain]; the caller's [plain] is empty afterwards. *)
Definition flush_plain (plain : list byte) (e : TerminalEngine) : result TerminalEngine fault :=
  match plain with
  | [] => Ok e
  | _ =>
      let '(chars, pending) := decode_utf8_chars (pending_utf8 e ++ plain) [] in
      let e := set_pending_utf8 pending e in
      let dec_graphics := match active_charset e with DecGraphics => true | CharsetAscii => false end in
      on_active (put_chars dec_graphics (write_modes e) chars) e
  end.

(** ** Modes *)

Definition set_alternate_screen (active : bool) (mode : Z) (e : TerminalEngine) :
    result TerminalEngine fault :=
  if Bool.eqb active (alternate_screen_active e) then Ok e
  else
    let with_cursor := (mode =? 1048) || (mode =? 1049) in
    if active then
      let e := if with_cursor then save_cursor e else e in
      Ok (set_alternate_screen_active true e)
    else
      let e := set_alternate_screen_active false e in
      let e := if with_cursor then restore_cursor e else e in
      if mode =? 1047 then
        let? b := clear_screen 2 (alternate e) in Ok (set_alternate b e)
      else Ok e.

Definition private_mode (enabled : bool) (mode : Z) (e : TerminalEngine) :
    result TerminalEngine fault :=
  let level l := Ok (set_mouse_reporting (if enabled then l else MouseNone) e) in
  let encoding c := Ok (set_mouse_encoding (if enabled then c else X10) e) in
  match mode with
  | 1 => Ok (set_application_cursor_keys enabled e)
  | 6 => Ok (set_origin_mode enabled e)
  | 7 => Ok (set_autowrap enabled e)
  | 25 => Ok (set_cursor_visible enabled e)
  | 47 | 1047 | 1048 | 1049 => set_alternate_screen enabled mode e
  | 1000 => level Click
  | 1002 => level Drag
  | 1003 => level AnyMotion
  | 1006 => encoding Sgr
  | 1015 => encoding MouseUtf8
  | 2004 => Ok (set_bracketed_paste enabled e)
  | 2026 => Ok (set_synchronized_update enabled e)
  | _ => Ok e
  end.

Fixpoint private_modes (enabled : bool) (modes : list Z) (e : TerminalEngine) :
    result TerminalEngine fault :=
  match modes with
  | [] => Ok e
  | mode :: rest => let? e := private_mode enabled mode e in private_modes enabled rest e
  end.

Definition handle_private_mode (params : text) (final_byte : byte) (e : TerminalEngine) :
    result TerminalEngine fault :=
  match byte_val final_byte with
  | 0x68 (* h *) => private_modes true (parse_csi_numbers params) e
  | 0x6c (* l *) => private_modes false (parse_csi_numbers params) e
  | _ => Ok e
  end.

Definition handle_public_mode (numbers : list Z) (enabled : bool) (e : TerminalEngine) :
    TerminalEngine :=
  fold_left (fun e mode => if mode =? 4 then set_insert_mode enabled e else e) numbers e.

(** ** Control sequences *)

(** The answer to a device attributes query. *)
Definition DEVICE_ATTRIBUTES : list byte := x1b :: as_bytes "[?61;1;21;22c".

Definition to_decimal_bytes (z : Z) : list byte := map byte_of (to_decimal z).

Definition cursor_report (e : TerminalEngine) : list byte :=
  let row := sat_add (snap_cursor_row (engine_snapshot e)) 1 in
  let col := sat_add (snap_cursor_col (engine_snapshot e)) 1 in
  x1b :: as_bytes "[" ++ to_decimal_bytes row ++ as_bytes ";" ++ to_decimal_bytes col ++ as_bytes "R".

(** [str::strip_prefix] with a character. *)
Definition strip_prefix (c : char) (t : text) : option text :=
  match t with
  | x :: rest => if x =? c then Some rest else None
  | [] => None
  end.

(** [handle_csi] without a reply. *)
Definition csi_action (params_text : text) (numbers : list Z) (final_byte : byte)
    (e : TerminalEngine) : result TerminalEngine fault :=
  let pure f := Ok (on_active_pure f e) in
  let n := first_or numbers 1 in
  match byte_val final_byte with
  | 0x41 (* A *) => pure (move_cursor_relative (- n) 0)
  | 0x42 (* B *) => pure (move_cursor_relative n 0)
  | 0x43 (* C *) => pure (move_cursor_relative 0 n)
  | 0x44 (* D *) => pure (move_cursor_relative 0 (- n))
  | 0x45 (* E *) => pure (fun b => carriage_return (move_cursor_relative n 0 b))
  | 0x46 (* F *) => pure (fun b => carriage_return (move_cursor_relative (- n) 0 b))
  | 0x47 | 0x60 (* G, ` *) => pure (move_cursor_col (sat_sub n 1))
  | 0x64 (* d *) => pure (move_cursor_row (sat_sub n 1) (origin_mode e))
  | 0x48 | 0x66 (* H, f *) =>
      pure (move_cursor_to (sat_sub n 1) (sat_sub (second_or numbers 1) 1) (origin_mode e))
  | 0x4a (* J *) => on_active (clear_screen (first_or numbers 0)) e
  | 0x4b (* K *) => on_active (clear_line (first_or numbers 0)) e
  | 0x4c (* L *) => on_active (insert_lines n) e
  | 0x4d (* M *) => on_active (delete_lines n) e
  | 0x50 (* P *) => on_active (delete_chars n) e
  | 0x40 (* @ *) => on_active (insert_chars n) e
  | 0x58 (* X *) => on_active (erase_chars n) e
  | 0x62 (* b *) => on_active (repeat_last_char n (write_modes e)) e
  | 0x53 (* S *) => on_active (scroll_up_in_region n) e
  | 0x54 (* T *) =>
      match strip_prefix 62 params_text with
      | Some _ => Ok e
      | None => on_active (scroll_down_in_region n) e
      end
  | 0x72 (* r *) =>
      match numbers with
      | [] => pure (reset_scroll_region (origin_mode e))
      | _ =>
          let bottom := second_or numbers (buf_rows (active_buffer e)) in
          pure (set_scroll_region (sat_sub n 1) (sat_sub bottom 1) (origin_mode e))
      end
  | 0x6d (* m *) => pure (apply_sgr (parse_sgr_segments params_text))
  | 0x73 (* s *) => Ok (match numbers with [] => save_cursor e | _ => e end)
  | 0x75 (* u *) => Ok (match numbers with [] => restore_cursor e | _ => e end)
  | 0x68 (* h *) => Ok (handle_public_mode numbers true e)
  | 0x6c (* l *) => Ok (handle_public_mode numbers false e)
  | _ => Ok e
  end.

(** The reply of [handle_csi], before the action changes anything. *)
Definition csi_reply (numbers : list Z) (final_byte : byte) (e : TerminalEngine) : list byte :=
  match byte_val final_byte with
  | 0x63 (* c *) =>
      if decide (numbers = [] \/ numbers = [0]) then DEVICE_ATTRIBUTES else []
  | 0x6e (* n *) => if decide (numbers = [6]) then cursor_report e else []
  | _ => []
  end.

Definition handle_csi (params : list byte) (final_byte : byte) (e : TerminalEngine) :
    result (TerminalEngine * list byte) fault :=
  let params_text := from_utf8_lossy params in
  match strip_prefix 63 params_text with
  | Some private_params =>
      let? e := handle_private_mode private_params final_byte e in Ok (e, [])
  | None =>
      let numbers := parse_csi_numbers params_text in
      let? e' := csi_action params_text numbers final_byte e in
      Ok (e', csi_reply numbers final_byte e)
  end.

(** The scan of [consume_csi]: parameters, final byte and what follows. *)
Fixpoint scan_csi (bytes : list byte) : option (list byte * byte * list byte) :=
  match bytes with
  | [] => None
  | b :: rest =>
      if in_range 0x40 0x7e b then Some ([], b, rest)
      else match scan_csi rest with
           | Some (params, final_byte, next) => Some (b :: params, final_byte, next)
           | None => None
           end
  end.

(** ** Operating system commands *)

(** [char::is_whitespace]. *)
Definition is_whitespace (c : char) : bool :=
  ((9 <=? c) && (c <=? 13)) || (c =? 0x20) || (c =? 0x85) || (c =? 0xA0) || (c =? 0x1680)
  || ((0x2000 <=? c) && (c <=? 0x200A)) || (c =? 0x2028) || (c =? 0x2029) || (c =? 0x202F)
  || (c =? 0x205F) || (c =? 0x3000).

Fixpoint split_once (sep : char) (t : text) : option (text * text) :=
  match t with
  | [] => None
  | c :: rest =>
      if c =? sep then Some ([], rest)
      else match split_once sep rest with
           | Some (before, after) => Some (c :: before, after)
           | None => None
           end
  end.

Definition handle_osc (payload : list byte) (e : TerminalEngine) : TerminalEngine * list byte :=
  let t := from_utf8_lossy payload in
  match split_once 59 t with
  | None => (e, [])
  | Some (kind, value) =>
      if decide (kind = lit "52") then (set_osc52_queue (osc52_queue e ++ [t]) e, [])
      else if decide ((kind = lit "0" \/ kind = lit "2") /\ forallb is_whitespace value = false)
      then (set_window_title (Some value) e, [])
      else if decide (value = lit "?") then
        if decide (kind = lit "10") then
          (e, x1b :: as_bytes "]10;rgb:ffff/ffff/ffff" ++ [x1b] ++ as_bytes "\")
        else if decide (kind = lit "11") then
          (e, x1b :: as_bytes "]11;rgb:0000/0000/0000" ++ [x1b] ++ as_bytes "\")
        else (e, [])
      else (e, [])
  end.

(** The scan of [consume_osc]: the payload, ended by BEL or ESC backslash. *)
Fixpoint scan_osc (bytes : list byte) : option (list byte * list byte) :=
  match bytes with
  | [] => None
  | b :: rest =>
      let skip :=
        match scan_osc rest with
        | Some (payload, next) => Some (b :: payload, next)
        | None => None
        end in
      if decide (b = x07) then Some ([], rest)
      else if decide (b = x1b) then
        match rest with
        | c :: next => if decide (c = x5c) then Some ([], next) else skip
        | [] => skip
        end
      else skip
  end.

(** ** Synchronized updates *)

(** [windows(pattern.len()).any(|window| window == pattern)]. *)
Fixpoint contains (pattern bytes : list byte) : bool :=
  bool_decide (take (length pattern) bytes = pattern)
  || match bytes with [] => false | _ :: rest => contains pattern rest end.

Definition should_flush_synchronized_buffer (buffer : list byte) (appended_len : Z) : bool :=
  if MAX_SYNCHRONIZED_BUFFER_BYTES <? len buffer then true
  else
    let start := sat_sub (len buffer) (appended_len + len SYNCHRONIZED_UPDATE_END - 1) in
    contains SYNCHRONIZED_UPDATE_END (drop (Z.to_nat start) buffer).

(** ** The feed loop *)

(** Replies before those of the rest of the input. *)
Definition replying (r : list byte) (k : result (TerminalEngine * list byte) fault) :
    result (TerminalEngine * list byte) fault :=
  let? (e, r') := k in Ok (e, r ++ r').

(** What a complete escape sequence does to the engine, with its replies, and
    the input after it; [None] when the sequence is incomplete. *)
Definition parse_escape (rest : list byte) :
    option ((TerminalEngine -> result (TerminalEngine * list byte) fault) * list byte) :=
  match rest with
  | [] => None
  | b :: next =>
      match byte_val b with
      | 0x5b (* [ *) =>
          match scan_csi next with
          | Some (params, final_byte, next) => Some (handle_csi params final_byte, next)
          | None => None
          end
      | 0x5d (* ] *) =>
          match scan_osc next with
          | Some (payload, next) => Some (fun e => Ok (handle_osc payload e), next)
          | None => None
          end
      | 0x28 | 0x29 (* ( ) *) =>
          match next with
          | code :: next =>
              Some (fun e => Ok (designate_charset (byte_val b =? 0x28) code e, []), next)
          | [] => None
          end
      | 0x37 (* 7 *) => Some (fun e => Ok (save_cursor e, []), next)
      | 0x38 (* 8 *) => Some (fun e => Ok (restore_cursor e, []), next)
      | 0x63 (* c *) => Some (fun e => Ok (reset e, []), next)
      | 0x4d (* M *) => Some (fun e => let? e := on_active reverse_index e in Ok (e, []), next)
      | _ => Some (fun e => Ok (e, []), next)
      end
  end.

(** The effect of a control character other than escape. *)
Definition control_char (b : byte) : option (TerminalEngine -> result TerminalEngine fault) :=
  match byte_val b with
  | 0x0e => Some (fun e => Ok (shift_charset true e))
  | 0x0f => Some (fun e => Ok (shift_charset false e))
  | 0x0a => Some (on_active line_feed)
  | 0x0d => Some (fun e => Ok (on_active_pure carriage_return e))
  | 0x07 => Some (fun e => Ok e)
  | 0x08 => Some (fun e => Ok (on_active_pure backspace e))
  | 0x09 => Some (on_active tab)
  | _ => None
  end.

Section step.
(** The rest of the loop: engine, collected plain bytes, remaining input. *)
Variable continue : TerminalEngine -> list byte -> list byte -> result (TerminalEngine * list byte) fault.

(** [feed_and_collect_replies] outside a synchronized update. *)
Definition feed_input (bytes : list byte) (e : TerminalEngine) :
    result (TerminalEngine * list byte) fault :=
  continue (set_pending_escape [] e) [] (pending_escape e ++ bytes).

Definition flush_synchronized_buffer (e : TerminalEngine) :
    result (TerminalEngine * list byte) fault :=
  let buffer := synchronized_buffer e in
  feed_input buffer (set_synchronized_update false (set_synchronized_buffer [] e)).

(** Appending to the buffer of a synchronized update, which may end it. *)
Definition buffer_input (bytes : list byte) (e : TerminalEngine) :
    result (TerminalEngine * list byte) fault :=
  let e := set_synchronized_buffer (synchronized_buffer e ++ bytes) e in
  if should_flush_synchronized_buffer (synchronized_buffer e) (len bytes)
  then flush_synchronized_buffer e
  else Ok (e, []).

(** The escape sequence whose bytes after the escape character are [rest]; all
    of it is kept when it is incomplete. *)
Definition feed_escape (rest : list byte) (e : TerminalEngine) :
    result (TerminalEngine * list byte) fault :=
  match parse_escape rest with
  | None => Ok (set_pending_escape (pending_escape e ++ x1b :: rest) e, [])
  | Some (action, next) => let? (e, r) := action e in replying r (continue e [] next)
  end.

(** One iteration of the loop, or its end. *)
Definition feed_step (e : TerminalEngine) (plain input : list byte) :
    result (TerminalEngine * list byte) fault :=
  match input with
  | [] => let? e := flush_plain plain e in Ok (e, [])
  | b :: rest =>
      if synchronized_update e then buffer_input input e
      else if decide (b = x1b) then
        let? e := flush_plain plain e in feed_escape rest e
      else
        match control_char b with
        | Some f => let? e := flush_plain plain e in let? e := f e in continue e [] rest
        | None => continue e (plain ++ [b]) rest
        end
  end.
End step.

Fixpoint feed_loop (fuel : nat) (e : TerminalEngine) (plain input : list byte) :
    result (TerminalEngine * list byte) fault :=
  match fuel with
  | O => Err OutOfFuel
  | S fuel => feed_step (feed_loop fuel) e plain input
  end.

(** Every step reads a byte or ends a synchronized update. *)
Definition feed_measure (e : TerminalEngine) (input : list byte) : nat :=
  2 * (length (synchronized_buffer e) + length (pending_escape e) + length input)
  + (if synchronized_update e then 1 else 0).

Definition feed_and_collect_replies (bytes : list byte) (e : TerminalEngine) :
    result (TerminalEngine * list byte) fault :=
  let run := feed_loop (S (feed_measure e bytes)) in
  if synchronized_update e then buffer_input run bytes e else feed_input run bytes e.
