(* ===== verification/TerminalFeed.v ===== *)
(** * Feeding a terminal

    The feed loop of the terminal engine always has fuel enough, and how the
    input is cut into calls does not matter: feeding two pieces one after the
    other gives the screen, the modes, the pending bytes and the replies of
    feeding them at once. Escape sequences, characters and synchronized
    updates may all be cut. *)

From S2P Require Import Prelude Bytes Utf8 Ansi Screen Terminal.

(** ** What a step leaves alone *)

(** The fields that belong to the input stream and not to the screen. *)
Definition stream_fields (e : TerminalEngine) : list byte * list byte :=
  (synchronized_buffer e, pending_escape e).

Lemma on_active_stream f e e' : on_active f e = Ok e' ->
  stream_fields e' = stream_fields e /\ synchronized_update e' = synchronized_update e
  /\ pending_utf8 e' = pending_utf8 e.
Proof.
  unfold on_active, set_active. destruct (f _); [|done]. intros [= <-].
  by destruct (alternate_screen_active e).
Qed.

Lemma on_active_pure_stream f e :
  stream_fields (on_active_pure f e) = stream_fields e
  /\ synchronized_update (on_active_pure f e) = synchronized_update e
  /\ pending_utf8 (on_active_pure f e) = pending_utf8 e.
Proof. unfold on_active_pure, set_active. by destruct (alternate_screen_active e). Qed.

Lemma flush_plain_stream plain e e' : flush_plain plain e = Ok e' ->
  stream_fields e' = stream_fields e /\ synchronized_update e' = synchronized_update e.
Proof.
  unfold flush_plain. destruct plain as [|b plain]; [by intros [= <-]|].
  destruct (decode_utf8_chars _ _) as [chars pending].
  intros H. by apply on_active_stream in H as (-> & -> & _).
Qed.

Lemma save_cursor_stream e : stream_fields (save_cursor e) = stream_fields e
  /\ synchronized_update (save_cursor e) = synchronized_update e.
Proof.
  unfold save_cursor. by destruct (on_active_pure_stream buffer_save_cursor e) as (? & ? & _).
Qed.

Lemma restore_cursor_stream e : stream_fields (restore_cursor e) = stream_fields e
  /\ synchronized_update (restore_cursor e) = synchronized_update e.
Proof.
  unfold restore_cursor. destruct (on_active_pure_stream buffer_restore_cursor e) as (H1 & H2 & _).
  by destruct (saved_charset _).
Qed.

Lemma set_alternate_screen_stream active mode e e' : set_alternate_screen active mode e = Ok e' ->
  stream_fields e' = stream_fields e /\ synchronized_update e' = synchronized_update e.
Proof.
  unfold set_alternate_screen. destruct (Bool.eqb _ _); [by intros [= <-]|].
  pose proof (save_cursor_stream e) as (? & ?).
  pose proof (restore_cursor_stream (set_alternate_screen_active false e)) as (? & ?).
  destruct active, (_ || _); simpl.
  - by intros [= <-].
  - by intros [= <-].
  - destruct (_ =? 1047); [|by intros [= <-]].
    destruct (clear_screen 2 _); [|done]. by intros [= <-].
  - destruct (_ =? 1047); [|by intros [= <-]].
    destruct (clear_screen 2 _); [|done]. by intros [= <-].
Qed.

Lemma private_mode_stream enabled mode e e' : private_mode enabled mode e = Ok e' ->
  stream_fields e' = stream_fields e.
Proof.
  unfold private_mode. intros H.
  repeat case_match; simplify_eq; try done; by apply set_alternate_screen_stream in H as [-> _].
Qed.

Lemma private_modes_stream enabled modes e e' : private_modes enabled modes e = Ok e' ->
  stream_fields e' = stream_fields e.
Proof.
  revert e. induction modes as [|mode modes IH]; intros e; simpl; [by intros [= <-]|].
  destruct (private_mode enabled mode e) as [e1|] eqn:E; [|done].
  intros H. rewrite (IH _ H). by apply private_mode_stream in E.
Qed.

Lemma handle_public_mode_stream numbers enabled e :
  stream_fields (handle_public_mode numbers enabled e) = stream_fields e.
Proof.
  unfold handle_public_mode. revert e. induction numbers as [|n numbers IH]; intros e; simpl; [done|].
  rewrite IH. by destruct (n =? 4).
Qed.

Lemma csi_action_stream params numbers final e e' : csi_action params numbers final e = Ok e' ->
  stream_fields e' = stream_fields e.
Proof.
  unfold csi_action. intros H.
  repeat case_match; simplify_eq; try done;
    try (apply on_active_stream in H as (-> & _); done);
    try (apply (on_active_pure_stream _ e));
    try (apply handle_public_mode_stream); try apply save_cursor_stream;
    try apply restore_cursor_stream.
Qed.

Lemma handle_csi_stream params final e e' r : handle_csi params final e = Ok (e', r) ->
  stream_fields e' = stream_fields e.
Proof.
  unfold handle_csi. destruct (strip_prefix 63 _) as [q|].
  - unfold handle_private_mode.
    destruct (match byte_val final with 0x68 => private_modes true (parse_csi_numbers q) e
              | 0x6c => private_modes false (parse_csi_numbers q) e | _ => Ok e end) as [e1|] eqn:E; [|done].
    intros [= <- _]. repeat case_match; simplify_eq; try done; by apply private_modes_stream in E.
  - destruct (csi_action _ _ final e) as [e1|] eqn:E; [|done].
    intros [= <- _]. by apply csi_action_stream in E.
Qed.

Lemma handle_osc_stream payload e :
  stream_fields (handle_osc payload e).1 = stream_fields e
  /\ synchronized_update (handle_osc payload e).1 = synchronized_update e.
Proof. unfold handle_osc. by repeat case_match. Qed.

Lemma control_char_stream b f e e' : control_char b = Some f -> f e = Ok e' ->
  stream_fields e' = stream_fields e.
Proof.
  unfold control_char. intros H. repeat case_match; simplify_eq; try by intros [= <-].
  all: try (intros [= <-]; apply (on_active_pure_stream _ e)).
  all: intros Ho; by apply on_active_stream in Ho as (-> & _).
Qed.

Lemma scan_csi_length bytes params final next : scan_csi bytes = Some (params, final, next) ->
  (length next < length bytes)%nat.
Proof.
  revert params. induction bytes as [|b bytes IH]; intros params; simpl; [done|].
  destruct (in_range _ _ b); [intros [= _ _ <-]; lia|].
  destruct (scan_csi bytes) as [[[ps f] n]|]; [|done]. intros [= _ -> ->].
  specialize (IH ps eq_refl). lia.
Qed.

Lemma scan_osc_length bytes payload next : scan_osc bytes = Some (payload, next) ->
  (length next < length bytes)%nat.
Proof.
  revert payload. induction bytes as [|b bytes IH]; intros payload; simpl; [done|].
  assert (Hskip : match scan_osc bytes with Some (p, n) => Some (b :: p, n) | None => None end
    = Some (payload, next) -> (length next < S (length bytes))%nat).
  { destruct (scan_osc bytes) as [[p n]|]; [|done]. intros [= _ ->]. specialize (IH p eq_refl). lia. }
  destruct (decide (b = x07)); [intros [= _ <-]; lia|].
  destruct (decide (b = x1b)); [|done]. destruct bytes as [|c rest]; [done|].
  destruct (decide (c = x5c)); [intros [= _ <-]; simpl; lia|done].
Qed.

Lemma parse_escape_length rest action next : parse_escape rest = Some (action, next) ->
  (length next < length rest)%nat.
Proof.
  unfold parse_escape. destruct rest as [|b rest]; [done|]. intros H.
  repeat case_match; simplify_eq; simpl; try lia;
    first [apply scan_csi_length in H|apply scan_osc_length in H|idtac]; simpl in *; try lia.
  all: repeat match goal with
    | E : scan_csi _ = Some _ |- _ => apply scan_csi_length in E
    | E : scan_osc _ = Some _ |- _ => apply scan_osc_length in E
    end; lia.
Qed.

Lemma parse_escape_stream rest action next e e' r :
  parse_escape rest = Some (action, next) -> action e = Ok (e', r) ->
  stream_fields e' = stream_fields e.
Proof.
  unfold parse_escape. destruct rest as [|b rest]; [done|]. intros H.
  repeat case_match; simplify_eq; intros Ha;
    first [by apply handle_csi_stream in Ha|idtac]; simplify_eq; try done;
    try apply save_cursor_stream; try apply restore_cursor_stream.
  all: try (destruct (handle_osc_stream l e) as [Hh _]; rewrite Ha in Hh; done).
  all: destruct (on_active reverse_index e) as [e1|] eqn:E; simplify_eq;
       by apply on_active_stream in E as (-> & _).
Qed.

(** ** Fuel *)

(** The steps of the loop only call the rest of it on less work. *)
Lemma feed_measure_less e e' b rest next :
  stream_fields e' = stream_fields e -> synchronized_update e = false ->
  (length next <= length rest)%nat -> (feed_measure e' next < feed_measure e (b :: rest))%nat.
Proof.
  intros [= H1 H2] H3 Hl. unfold feed_measure. rewrite H1, H2, H3. simpl.
  destruct (synchronized_update e'); lia.
Qed.

Section fuel.
Variables k1 k2 : TerminalEngine -> list byte -> list byte -> result (TerminalEngine * list byte) fault.

Lemma buffer_input_ext e bytes : synchronized_update e = true ->
  (forall e' p i, (feed_measure e' i < feed_measure e bytes)%nat -> k1 e' p i = k2 e' p i) ->
  buffer_input k1 bytes e = buffer_input k2 bytes e.
Proof.
  intros Hs Hk. unfold buffer_input. destruct (should_flush_synchronized_buffer _ _); [|done].
  unfold flush_synchronized_buffer, feed_input. apply Hk. unfold feed_measure. simpl.
  rewrite Hs, !length_app. lia.
Qed.

Lemma feed_escape_ext e e0 rest : stream_fields e = stream_fields e0 ->
  synchronized_update e0 = false ->
  (forall e' p i, (feed_measure e' i < feed_measure e0 (x1b :: rest))%nat -> k1 e' p i = k2 e' p i) ->
  feed_escape k1 rest e = feed_escape k2 rest e.
Proof.
  intros Hst Hs0 Hk. unfold feed_escape.
  destruct (parse_escape rest) as [[action next]|] eqn:Ep; [|done].
  destruct (action e) as [[e1 r]|] eqn:E; [|done]. rewrite Hk; [done|].
  pose proof (parse_escape_stream _ _ _ _ _ _ Ep E) as H1. apply parse_escape_length in Ep.
  apply feed_measure_less; [congruence|done|lia].
Qed.

Lemma feed_step_ext e plain input :
  (forall e' p i, (feed_measure e' i < feed_measure e input)%nat -> k1 e' p i = k2 e' p i) ->
  feed_step k1 e plain input = feed_step k2 e plain input.
Proof.
  intros Hk. unfold feed_step. destruct input as [|b rest]; [done|].
  destruct (synchronized_update e) eqn:Hs; [by apply buffer_input_ext|].
  destruct (decide (b = x1b)) as [->|Hb].
  - destruct (flush_plain plain e) as [e1|] eqn:Ef; [|done].
    apply flush_plain_stream in Ef as [Hf _]. by apply (feed_escape_ext e1 e).
  - destruct (control_char b) as [f|] eqn:Ec.
    + destruct (flush_plain plain e) as [e1|] eqn:Ef; [|done].
      destruct (f e1) as [e2|] eqn:E2; [|done]. apply Hk.
      apply flush_plain_stream in Ef as [Hf _]. apply (control_char_stream _ _ _ _ Ec) in E2.
      apply feed_measure_less; [congruence|done|lia].
    + apply Hk. apply feed_measure_less; [done|done|lia].
Qed.
End fuel.

Lemma feed_loop_enough n m e plain input :
  (feed_measure e input < n)%nat -> (feed_measure e input < m)%nat ->
  feed_loop n e plain input = feed_loop m e plain input.
Proof.
  revert m e plain input. induction n as [|n IH]; intros m e plain input Hn Hm; [lia|].
  destruct m as [|m]; [lia|]. simpl. apply feed_step_ext. intros e' p i Hi. apply IH; lia.
Qed.

(** The loop with the fuel it needs. *)
Definition run_feed (e : TerminalEngine) (plain input : list byte) :
    result (TerminalEngine * list byte) fault :=
  feed_loop (S (feed_measure e input)) e plain input.

Lemma run_feed_eq e plain input : run_feed e plain input = feed_step run_feed e plain input.
Proof.
  change (run_feed e plain input) with (feed_step (feed_loop (feed_measure e input)) e plain input).
  apply feed_step_ext. intros e' p i Hi. unfold run_feed. apply feed_loop_enough; lia.
Qed.

Lemma feed_eq bytes e :
  feed_and_collect_replies bytes e
    = if synchronized_update e then buffer_input run_feed bytes e else feed_input run_feed bytes e.
Proof.
  unfold feed_and_collect_replies. destruct (synchronized_update e) eqn:Hs.
  - apply buffer_input_ext; [done|]. intros e' p i Hi. apply feed_loop_enough; lia.
  - unfold feed_input. apply feed_loop_enough; unfold feed_measure; simpl; rewrite Hs, length_app; lia.
Qed.

(** ** The end of a synchronized update *)

Lemma contains_spec p z : contains p z = true <-> exists u v, z = u ++ p ++ v.
Proof.
  split.
  - induction z as [|c z IH]; simpl; rewrite orb_true_iff, bool_decide_eq_true.
    + intros [H|]; [|done]. exists [], []. rewrite take_nil in H. by subst.
    + intros [H|H].
      * exists [], (drop (length p) (c :: z)). simpl. rewrite <- H at 1. by rewrite take_drop.
      * destruct (IH H) as (u & v & ->). by exists (c :: u), v.
  - intros (u & v & ->). induction u as [|c u IH]; simpl.
    + destruct (p ++ v) as [|c r] eqn:E; simpl; apply orb_true_iff; left; apply bool_decide_eq_true;
        rewrite <- E; apply take_app_length.
    + by rewrite IH, orb_true_r.
Qed.

Lemma contains_app p x y : contains p x = true -> contains p (x ++ y) = true.
Proof.
  rewrite !contains_spec. intros (u & v & ->). exists u, (v ++ y). by rewrite <- !app_assoc.
Qed.

(** A pattern that is not in [x] and is in [x ++ y] overlaps [y]. *)
Lemma contains_tail p x y n : contains p x = false ->
  (Z.to_nat n <= length x)%nat -> n = sat_sub (len x) (len p - 1) ->
  contains p (drop (Z.to_nat n) (x ++ y)) = contains p (x ++ y).
Proof.
  intros Hx Hn Hs. destruct (contains p (x ++ y)) eqn:E.
  - apply contains_spec in E as (u & v & E). apply contains_spec.
    destruct (decide (Z.to_nat n <= length u)%nat) as [Hu|Hu].
    + exists (drop (Z.to_nat n) u), v. rewrite E. by rewrite drop_app_le.
    + exfalso. assert (Hc : contains p x = true); [|congruence]. apply contains_spec.
      exists u, (drop (length u + length p) x). unfold sat_sub, len in Hs.
      rewrite <- (take_drop (length u + length p) x) at 1. rewrite app_assoc. f_equal.
      assert (Ht : take (length u + length p) (x ++ y) = take (length u + length p) x)
        by (apply take_app_le; lia).
      rewrite <- Ht, E, app_assoc, <- length_app, take_app_length. done.
  - destruct (contains p (drop _ _)) eqn:E'; [|done].
    apply contains_spec in E' as (u & v & E').
    assert (Hc : contains p (x ++ y) = true); [|congruence]. apply contains_spec.
    exists (take (Z.to_nat n) (x ++ y) ++ u), v. rewrite <- app_assoc, <- E'. by rewrite take_drop.
Qed.

(** [should_flush_synchronized_buffer] looks at the whole buffer. *)
Definition update_ends (buffer : list byte) : bool :=
  (MAX_SYNCHRONIZED_BUFFER_BYTES <? len buffer) || contains SYNCHRONIZED_UPDATE_END buffer.

Lemma should_flush_tail x y : update_ends x = false ->
  should_flush_synchronized_buffer (x ++ y) (len y) = update_ends (x ++ y).
Proof.
  intros Hx. apply orb_false_iff in Hx as [_ Hx].
  unfold should_flush_synchronized_buffer, update_ends.
  destruct (_ <? _); [done|]. simpl. apply contains_tail; [done| |].
  - rewrite len_app. unfold sat_sub, len. simpl length. lia.
  - rewrite len_app. unfold sat_sub. f_equal. lia.
Qed.

Lemma update_ends_app x y : update_ends x = true -> update_ends (x ++ y) = true.
Proof.
  unfold update_ends. rewrite !orb_true_iff, !Z.ltb_lt, len_app. pose proof (len_nonneg y) as Hy.
  intros [H|H]; [left; lia|right; by apply contains_app].
Qed.

Lemma update_ends_nil : update_ends [] = false.
Proof. reflexivity. Qed.

(** ** Plain text in pieces *)

Lemma put_chars_app d modes c1 c2 b :
  put_chars d modes (c1 ++ c2) b
    = (let? b1 := put_chars d modes c1 b in put_chars d modes c2 b1).
Proof.
  revert b. induction c1 as [|c c1 IH]; intros b; simpl; [done|].
  destruct (put_char _ modes b); [apply IH|done].
Qed.

Lemma active_set_active b e : active_buffer (set_active b e) = b.
Proof. unfold active_buffer, set_active. by destruct (alternate_screen_active e) eqn:E; simpl; rewrite E. Qed.

Lemma set_active_twice b c e : set_active c (set_active b e) = set_active c e.
Proof. unfold set_active. by destruct (alternate_screen_active e) eqn:E; simpl; rewrite E. Qed.

(** Writing to the active buffer leaves the modes alone. *)
Lemma set_active_modes b e :
  write_modes (set_active b e) = write_modes e /\ active_charset (set_active b e) = active_charset e
  /\ pending_utf8 (set_active b e) = pending_utf8 e
  /\ (forall p, set_pending_utf8 p (set_active b e) = set_active b (set_pending_utf8 p e))
  /\ (forall p, active_buffer (set_pending_utf8 p e) = active_buffer e).
Proof.
  unfold write_modes, active_charset, set_active, active_buffer.
  destruct (alternate_screen_active e) eqn:E; split_and!; try done; intros p; simpl; by rewrite E.
Qed.

Lemma flush_plain_cons plain e : plain <> [] ->
  flush_plain plain e =
    (let '(chars, pending) := decode_utf8_chars (pending_utf8 e ++ plain) [] in
     let? b := put_chars (match active_charset e with DecGraphics => true | CharsetAscii => false end)
                 (write_modes e) chars (active_buffer e) in
     Ok (set_active b (set_pending_utf8 pending e))).
Proof.
  intros Hp. unfold flush_plain. destruct plain; [done|].
  destruct (decode_utf8_chars _ _) as [chars pending]. unfold on_active.
  destruct (set_active_modes (active_buffer e) e) as (_ & _ & _ & _ & H). by rewrite H.
Qed.

Lemma flush_plain_app p q e :
  flush_plain (p ++ q) e = (let? e1 := flush_plain p e in flush_plain q e1).
Proof.
  destruct (decide (p = [])) as [->|Hp]; [done|].
  destruct (decide (q = [])) as [->|Hq].
  { rewrite app_nil_r. by destruct (flush_plain p e). }
  rewrite (flush_plain_cons (p ++ q)) by (by destruct p). rewrite (flush_plain_cons p) by done.
  rewrite app_assoc, decode_in_pieces.
  destruct (decode_utf8_chars (pending_utf8 e ++ p) []) as [c1 p1].
  destruct (decode_utf8_chars (p1 ++ q) []) as [c2 p2] eqn:E2.
  rewrite put_chars_app. destruct (put_chars _ _ c1 _) as [b1|]; [|done].
  rewrite (flush_plain_cons q) by done.
  destruct (set_active_modes b1 (set_pending_utf8 p1 e)) as (-> & -> & -> & Hs & _).
  simpl pending_utf8. rewrite E2, active_set_active.
  destruct (put_chars _ _ c2 b1) as [b2|]; [|done].
  rewrite Hs, set_active_twice. done.
Qed.

Lemma flush_plain_nil e : flush_plain [] e = Ok e.
Proof. done. Qed.

(** Flushing before the next byte is harmless. *)
Lemma run_feed_flush input e plain : synchronized_update e = false ->
  run_feed e plain input = (let? e1 := flush_plain plain e in run_feed e1 [] input).
Proof.
  revert e plain. induction input as [|b rest IH]; intros e plain Hs.
  - rewrite run_feed_eq. unfold feed_step. destruct (flush_plain plain e) as [e1|]; [|done].
    by rewrite run_feed_eq.
  - rewrite run_feed_eq. unfold feed_step at 1. rewrite Hs.
    destruct (flush_plain plain e) as [e1|f] eqn:Ef.
    + pose proof Ef as Hst. apply flush_plain_stream in Hst as [_ Hs1].
      rewrite (run_feed_eq e1). unfold feed_step at 1. rewrite Hs1, Hs.
      destruct (decide (b = x1b)); [done|]. destruct (control_char b); [done|].
      rewrite (IH e), (IH e1) by congruence. rewrite flush_plain_app, Ef. done.
    + destruct (decide (b = x1b)); [done|]. destruct (control_char b); [done|].
      rewrite IH by done. by rewrite flush_plain_app, Ef.
Qed.

(** ** Escape sequences in pieces *)

Lemma scan_csi_app bytes y params final next : scan_csi bytes = Some (params, final, next) ->
  scan_csi (bytes ++ y) = Some (params, final, next ++ y).
Proof.
  revert params. induction bytes as [|b bytes IH]; intros params; simpl; [done|].
  destruct (in_range _ _ b); [by intros [= <- <- <-]|].
  destruct (scan_csi bytes) as [[[ps f] n]|]; [|done]. intros [= <- -> ->].
  by rewrite (IH ps).
Qed.

Lemma scan_osc_app bytes y payload next : scan_osc bytes = Some (payload, next) ->
  scan_osc (bytes ++ y) = Some (payload, next ++ y).
Proof.
  revert payload. induction bytes as [|b bytes IH]; intros payload; simpl; [done|].
  assert (Hskip : match scan_osc bytes with Some (p, n) => Some (b :: p, n) | None => None end
    = Some (payload, next) ->
    match scan_osc (bytes ++ y) with Some (p, n) => Some (b :: p, n) | None => None end
    = Some (payload, next ++ y)).
  { destruct (scan_osc bytes) as [[p n]|]; [|done]. intros [= <- ->]. by rewrite (IH p). }
  destruct (decide (b = x07)); [by intros [= <- <-]|].
  destruct (decide (b = x1b)); [|done]. destruct bytes as [|c rest]; [done|].
  simpl. destruct (decide (c = x5c)); [by intros [= <- <-]|]. exact Hskip.
Qed.

Lemma parse_escape_app rest y action next : parse_escape rest = Some (action, next) ->
  parse_escape (rest ++ y) = Some (action, next ++ y).
Proof.
  destruct rest as [|b rest]; [done|]. simpl.
  destruct (scan_csi rest) as [[[ps f] n]|] eqn:Ec; [rewrite (scan_csi_app _ y _ _ _ Ec)|];
    (destruct (scan_osc rest) as [[p n']|] eqn:Eo; [rewrite (scan_osc_app _ y _ _ Eo)|]);
    intros H; repeat case_match; simplify_eq; try done; by simplify_list_eq.
Qed.

(** ** Feeding in pieces *)

Lemma replying_nil k : replying [] k = k.
Proof. unfold replying. by destruct k as [[e r]|]. Qed.

Lemma replying_app r s k : replying (r ++ s) k = replying r (replying s k).
Proof. unfold replying. destruct k as [[e q]|]; [|done]. by rewrite app_assoc. Qed.

(** Feeding [y] after what [k] fed. *)
Definition then_feed (y : list byte) (k : result (TerminalEngine * list byte) fault) :
    result (TerminalEngine * list byte) fault :=
  let? (e, r) := k in replying r (feed_and_collect_replies y e).

Lemma then_feed_replying y r k : then_feed y (replying r k) = replying r (then_feed y k).
Proof. unfold then_feed, replying at 1 3. destruct k as [[e s]|]; [|done]. apply replying_app. Qed.

(** An engine inside the loop. *)
Definition in_loop (e : TerminalEngine) (plain : list byte) : Prop :=
  stream_fields e = ([], []) /\ (synchronized_update e = true -> plain = []).

Lemma in_loop_nil e e' : stream_fields e' = stream_fields e -> stream_fields e = ([], []) -> in_loop e' [].
Proof. intros H1 H2. split; [congruence|done]. Qed.

Lemma set_pending_escape_nil e : pending_escape e = [] -> set_pending_escape [] e = e.
Proof. destruct e. simpl. by intros ->. Qed.

Lemma set_synchronized_buffer_same e v : synchronized_buffer e = v -> set_synchronized_buffer v e = e.
Proof. destruct e. simpl. by intros ->. Qed.

(** Input to a synchronized update in pieces, if ending the update is. *)
Lemma buffer_input_app x y e : synchronized_update e = true -> pending_escape e = [] ->
  update_ends (synchronized_buffer e) = false ->
  (forall e0, synchronized_update e0 = false -> in_loop e0 [] ->
     run_feed e0 [] ((synchronized_buffer e ++ x) ++ y)
       = then_feed y (run_feed e0 [] (synchronized_buffer e ++ x))) ->
  buffer_input run_feed (x ++ y) e = then_feed y (buffer_input run_feed x e).
Proof.
  intros Hs Hp Hu Hrun. unfold buffer_input. simpl.
  rewrite !should_flush_tail by done. rewrite app_assoc.
  destruct (update_ends (synchronized_buffer e ++ x)) eqn:Hx.
  - rewrite (update_ends_app _ y Hx).
    unfold flush_synchronized_buffer, feed_input. simpl. rewrite Hp. simpl. by apply Hrun.
  - simpl. rewrite replying_nil, feed_eq. simpl. rewrite Hs.
    unfold buffer_input. simpl. rewrite (should_flush_tail _ y Hx). done.
Qed.

(** The loop in pieces. *)
Lemma run_feed_app x y e plain : in_loop e plain ->
  run_feed e plain (x ++ y) = then_feed y (run_feed e plain x).
Proof.
  remember (feed_measure e x) as n eqn:Hn. revert x e plain Hn.
  induction n as [n IH] using (well_founded_induction lt_wf). intros x e plain -> Hin.
  pose proof Hin as [Hst Hpl]. injection Hst as Hbuf Hesc.
  assert (Hrest : forall e' b x' rest, stream_fields e' = stream_fields e ->
    synchronized_update e = false -> x = b :: rest -> (length x' <= length rest)%nat ->
    run_feed e' [] (x' ++ y) = then_feed y (run_feed e' [] x')).
  { intros e' b x' rest He Hs -> Hl. eapply IH; [|done|].
    - by apply (feed_measure_less e e' b rest x').
    - apply (in_loop_nil e); [done|]. unfold stream_fields. by rewrite Hbuf, Hesc. }
  rewrite (run_feed_eq e plain x). unfold feed_step at 1.
  destruct x as [|b rest].
  { destruct (synchronized_update e) eqn:Hs.
    - rewrite (Hpl eq_refl). simpl. rewrite replying_nil, feed_eq, Hs, run_feed_eq.
      unfold feed_step. destruct y as [|c y]; [|by rewrite Hs].
      simpl. unfold buffer_input. simpl. rewrite Hbuf. simpl. by rewrite set_synchronized_buffer_same.
    - simpl app. rewrite run_feed_flush by done. destruct (flush_plain plain e) as [e1|] eqn:Ef; [|done].
      apply flush_plain_stream in Ef as [Hf Hs1]. injection Hf as Hf1 Hf2.
      simpl. rewrite replying_nil, feed_eq, Hs1, Hs. unfold feed_input.
      rewrite Hf2, Hesc. simpl. by rewrite set_pending_escape_nil by congruence. }
  simpl app. rewrite run_feed_eq. unfold feed_step at 1.
  destruct (synchronized_update e) eqn:Hs.
  { apply (buffer_input_app (b :: rest)); [done|done|by rewrite Hbuf|].
    intros e0 Hs0 Hin0. rewrite Hbuf. eapply IH; [|done|done].
    destruct Hin0 as [[= H1 H2] _]. unfold feed_measure. rewrite H1, H2, Hs, Hs0, Hbuf, Hesc. simpl. lia. }
  destruct (decide (b = x1b)) as [->|Hb].
  - destruct (flush_plain plain e) as [e1|] eqn:Ef; [|done].
    apply flush_plain_stream in Ef as [Hf Hs1]. injection Hf as Hf1 Hf2.
    unfold feed_escape. destruct (parse_escape rest) as [[action next]|] eqn:Ep.
    + rewrite (parse_escape_app _ y _ _ Ep). destruct (action e1) as [[e2 r]|] eqn:Ea; [|done].
      rewrite then_feed_replying. f_equal. apply (Hrest e2 x1b next rest); [|done|done|].
      * rewrite (parse_escape_stream _ _ _ _ _ _ Ep Ea). unfold stream_fields. congruence.
      * apply parse_escape_length in Ep. lia.
    + rewrite Hf2, Hesc. simpl. rewrite replying_nil, feed_eq. simpl. rewrite Hs1, Hs.
      unfold feed_input. simpl. rewrite run_feed_eq. unfold feed_step. simpl. rewrite Hs1, Hs.
      unfold feed_escape. simpl.
      replace (set_pending_escape [] (set_pending_escape (x1b :: rest) e1)) with e1; [|].
      * done.
      * symmetry. apply (set_pending_escape_nil e1). congruence.
  - destruct (control_char b) as [f|] eqn:Ec.
    + destruct (flush_plain plain e) as [e1|] eqn:Ef; [|done].
      destruct (f e1) as [e2|] eqn:E2; [|done].
      apply flush_plain_stream in Ef as [Hf _]. apply (control_char_stream _ _ _ _ Ec) in E2.
      apply (Hrest e2 b rest rest); [congruence|done|done|done].
    + eapply IH; [|done|].
      * by apply (feed_measure_less e e b rest rest).
      * split; [unfold stream_fields; by rewrite Hbuf, Hesc|congruence].
Qed.

(** ** The engine between calls *)

(** Outside a synchronized update nothing is buffered; inside one no escape
    sequence is pending and the buffer does not end the update. *)
Definition stream_ok (e : TerminalEngine) : Prop :=
  if synchronized_update e
  then pending_escape e = [] /\ update_ends (synchronized_buffer e) = false
  else synchronized_buffer e = [].

Lemma feed_app x y e : stream_ok e ->
  feed_and_collect_replies (x ++ y) e = then_feed y (feed_and_collect_replies x e).
Proof.
  unfold stream_ok. intros Hok. rewrite !feed_eq. destruct (synchronized_update e) eqn:Hs.
  - destruct Hok as [Hp Hu]. apply buffer_input_app; [done|done|done|].
    intros e0 Hs0 Hin. by apply run_feed_app.
  - unfold feed_input. rewrite app_assoc. apply run_feed_app.
    split; [unfold stream_fields; simpl; by rewrite Hok|done].
Qed.

Lemma buffer_input_stream x e e' r : synchronized_update e = true -> pending_escape e = [] ->
  update_ends (synchronized_buffer e) = false ->
  (forall e0, synchronized_update e0 = false -> in_loop e0 [] ->
     forall e1 r1, run_feed e0 [] (synchronized_buffer e ++ x) = Ok (e1, r1) -> stream_ok e1) ->
  buffer_input run_feed x e = Ok (e', r) -> stream_ok e'.
Proof.
  intros Hs Hp Hu Hrun. unfold buffer_input. simpl. rewrite should_flush_tail by done.
  destruct (update_ends (synchronized_buffer e ++ x)) eqn:Hx.
  - unfold flush_synchronized_buffer, feed_input. simpl. rewrite Hp. simpl. intros H.
    by apply Hrun in H.
  - intros [= <- _]. unfold stream_ok. simpl. by rewrite Hs.
Qed.

Lemma run_feed_stream x e plain e' r : in_loop e plain ->
  run_feed e plain x = Ok (e', r) -> stream_ok e'.
Proof.
  remember (feed_measure e x) as n eqn:Hn. revert x e plain e' r Hn.
  induction n as [n IH] using (well_founded_induction lt_wf). intros x e plain e' r -> Hin.
  pose proof Hin as [Hst Hpl]. injection Hst as Hbuf Hesc.
  assert (Hless : forall e1 b rest next, x = b :: rest -> synchronized_update e = false ->
    stream_fields e1 = stream_fields e -> (length next <= length rest)%nat ->
    forall q s, (synchronized_update e1 = true -> q = []) -> run_feed e1 q next = Ok (e', s) -> stream_ok e').
  { intros e1 b rest next -> Hs He Hl q s Hq H. eapply IH; [|done| |exact H].
    - by apply feed_measure_less.
    - split; [unfold stream_fields in *; congruence|done]. }
  rewrite run_feed_eq. unfold feed_step. destruct x as [|b rest].
  { destruct (flush_plain plain e) as [e1|] eqn:Ef; [|done]. intros [= <- _].
    apply flush_plain_stream in Ef as [[= Hf1 Hf2] Hs1]. unfold stream_ok. rewrite Hf1, Hf2, Hbuf, Hesc.
    by destruct (synchronized_update e1). }
  destruct (synchronized_update e) eqn:Hs.
  { apply buffer_input_stream; [done|done|by rewrite Hbuf|].
    intros e0 Hs0 Hin0 e1 r1 H. eapply IH; [|done| |exact H]; [|done].
    destruct Hin0 as [[= H1 H2] _]. unfold feed_measure. rewrite H1, H2, Hs, Hs0, Hbuf, Hesc. simpl. lia. }
  destruct (decide (b = x1b)) as [->|Hb].
  - destruct (flush_plain plain e) as [e1|] eqn:Ef; [|done].
    apply flush_plain_stream in Ef as [Hf Hs1]. unfold feed_escape.
    destruct (parse_escape rest) as [[action next]|] eqn:Ep.
    + destruct (action e1) as [[e2 r2]|] eqn:Ea; [|done].
      pose proof (parse_escape_stream _ _ _ _ _ _ Ep Ea) as H2. apply parse_escape_length in Ep.
      destruct (run_feed e2 [] next) as [[e3 r3]|] eqn:E3; [|done]. intros [= <- _].
      eapply (Hless e2); [done|done|congruence| | |exact E3]; [lia|done].
    + intros [= <- _]. unfold stream_ok. simpl. rewrite Hs1, Hs. unfold stream_fields in Hf. congruence.
  - destruct (control_char b) as [f|] eqn:Ec.
    + destruct (flush_plain plain e) as [e1|] eqn:Ef; [|done].
      destruct (f e1) as [e2|] eqn:E2; [|done].
      apply flush_plain_stream in Ef as [Hf _]. apply (control_char_stream _ _ _ _ Ec) in E2.
      apply (Hless e2 b rest rest); [done|done|congruence|done|done].
    + apply (Hless e b rest rest); [done|done|done|done|congruence].
Qed.

Lemma feed_stream x e e' r : stream_ok e ->
  feed_and_collect_replies x e = Ok (e', r) -> stream_ok e'.
Proof.
  unfold stream_ok at 1. intros Hok. rewrite feed_eq. destruct (synchronized_update e) eqn:Hs.
  - destruct Hok as [Hp Hu]. apply buffer_input_stream; [done|done|done|].
    intros e0 Hs0 Hin e1 r1. by apply run_feed_stream.
  - unfold feed_input. apply run_feed_stream.
    split; [unfold stream_fields; simpl; by rewrite Hok|done].
Qed.

(** ** A terminal's life: calls of [feed_and_collect_replies] and [resize] *)

Inductive terminal_call :=
| Feed (bytes : list byte)
| Resize (sz : TerminalSize).

Fixpoint terminal_run (calls : list terminal_call) (e : TerminalEngine) :
    result (TerminalEngine * list byte) fault :=
  match calls with
  | [] => Ok (e, [])
  | Feed bytes :: rest =>
      let? (e, r) := feed_and_collect_replies bytes e in replying r (terminal_run rest e)
  | Resize sz :: rest => terminal_run rest (terminal_resize sz e)
  end.

Lemma terminal_run_stream calls e e' r : stream_ok e -> terminal_run calls e = Ok (e', r) -> stream_ok e'.
Proof.
  revert e r. induction calls as [|[bytes|sz] calls IH]; intros e r He; simpl.
  - by intros [= <- _].
  - destruct (feed_and_collect_replies bytes e) as [[e1 r1]|] eqn:E; [|done].
    apply feed_stream in E; [|done]. destruct (terminal_run calls e1) as [[e2 r2]|] eqn:E2; [|done].
    intros [= <- _]. by eapply IH.
  - by apply IH.
Qed.

Lemma feed_chunks e chunk chunks : stream_ok e ->
  terminal_run (map Feed (chunk :: chunks)) e
    = feed_and_collect_replies (concat (chunk :: chunks)) e.
Proof.
  revert chunk e. induction chunks as [|c cs IH]; intros chunk e Hok.
  - simpl. rewrite app_nil_r. unfold replying.
    destruct (feed_and_collect_replies chunk e) as [[e1 r1]|]; [|done]. by rewrite app_nil_r.
  - change (concat (chunk :: c :: cs)) with (chunk ++ concat (c :: cs)). rewrite (feed_app _ _ _ Hok).
    change (map Feed (chunk :: c :: cs)) with (Feed chunk :: map Feed (c :: cs)).
    unfold then_feed. cbn [terminal_run].
    destruct (feed_and_collect_replies chunk e) as [[e1 r1]|] eqn:E; [|done].
    apply feed_stream in E; [|done]. by rewrite (IH c e1 E).
Qed.

(** C7. How the input is cut into calls does not matter: from every state a
    terminal can reach, feeding chunks one after the other has the same
    result as feeding their concatenation, for the screens, the modes, what
    is pending and the replies, also when a chunk ends inside a character, an
    escape sequence or a synchronized update. *)
Theorem chunking_does_not_matter sz calls e r chunk chunks :
  terminal_run calls (terminal_new sz) = Ok (e, r) ->
  terminal_run (map Feed (chunk :: chunks)) e
    = feed_and_collect_replies (concat (chunk :: chunks)) e.
Proof. intros Hrun. apply feed_chunks. by eapply terminal_run_stream; [|exact Hrun]. Qed.

Lemma chunking_does_not_matter_witness :
  let sz := {| rows := 2; cols := 4; pixel_width := 0; pixel_height := 0 |} in
  terminal_run (map Feed [[x1b]; [x5b; x32]; [x4a; xe4]; [xbd; xa0]]) (terminal_new sz)
    = feed_and_collect_replies (concat [[x1b]; [x5b; x32]; [x4a; xe4]; [xbd; xa0]]) (terminal_new sz).
Proof. intros sz. apply (chunking_does_not_matter sz [] _ []). reflexivity. Defined.
