(* ===== verification/TerminalInvariant.v ===== *)
(** * The terminal never panics

    For every input and every way of cutting it, the engine returns: no index
    is out of range, no 16-bit computation overflows and the loop ends. Both
    screen buffers stay well formed and keep the terminal's size. What the
    viewer is given follows: the lines of the snapshot, the cursor and the
    history are in bounds, and each styled line reads back as the row it was
    rendered from. *)

From S2P Require Import Prelude Bytes Utf8 Ansi Screen ScreenInvariant Terminal TerminalFeed.

(** Both buffers are well formed and have the terminal's size. *)
Definition engine_ok (sz : TerminalSize) (e : TerminalEngine) : Prop :=
  (buffer_ok (normal e) /\ size (normal e) = sz) /\
  (buffer_ok (alternate e) /\ size (alternate e) = sz).

Lemma active_ok sz e : engine_ok sz e -> buffer_ok (active_buffer e) /\ size (active_buffer e) = sz.
Proof. intros [H1 H2]. unfold active_buffer. by destruct (alternate_screen_active e). Qed.

Lemma set_active_ok sz b e : engine_ok sz e -> buffer_ok b -> size b = sz -> engine_ok sz (set_active b e).
Proof. intros [? ?] ? ?. unfold set_active, engine_ok. by destruct (alternate_screen_active e). Qed.

(** A computation that returns a well-formed engine. *)
Definition engine_kept (sz : TerminalSize) (r : result TerminalEngine fault) : Prop :=
  exists e, r = Ok e /\ engine_ok sz e.

Lemma engine_kept_Ok sz e : engine_ok sz e -> engine_kept sz (Ok e).
Proof. by exists e. Qed.

Lemma on_active_kept sz f e : engine_ok sz e ->
  (forall b, buffer_ok b -> kept b (f b)) -> engine_kept sz (on_active f e).
Proof.
  intros He Hf. destruct (active_ok sz e He) as [Hb Hz]. unfold on_active.
  destruct (Hf _ Hb) as (b & -> & ? & ?). apply engine_kept_Ok, set_active_ok; [done|done|congruence].
Qed.

Lemma on_active_pure_ok sz f e : engine_ok sz e ->
  (forall b, buffer_ok b -> buffer_ok (f b)) -> (forall b, size (f b) = size b) ->
  engine_ok sz (on_active_pure f e).
Proof.
  intros He Hf Hs. destruct (active_ok sz e He) as [Hb Hz]. apply set_active_ok; [done|by apply Hf|].
  by rewrite Hs.
Qed.

Lemma save_cursor_engine sz e : engine_ok sz e -> engine_ok sz (save_cursor e).
Proof. intros He. apply (on_active_pure_ok sz buffer_save_cursor e He save_cursor_ok). done. Qed.

Lemma restore_cursor_engine sz e : engine_ok sz e -> engine_ok sz (restore_cursor e).
Proof.
  intros He. unfold restore_cursor.
  assert (H : engine_ok sz (on_active_pure buffer_restore_cursor e)).
  { apply on_active_pure_ok; [done|apply restore_cursor_ok|].
    intros b. unfold buffer_restore_cursor. by destruct (valid _). }
  by destruct (saved_charset _).
Qed.

Lemma set_alternate_screen_kept sz active mode e : engine_ok sz e ->
  engine_kept sz (set_alternate_screen active mode e).
Proof.
  intros He. unfold set_alternate_screen. destruct (Bool.eqb _ _); [by apply engine_kept_Ok|].
  destruct active.
  - apply engine_kept_Ok. destruct (_ || _); [|done].
    by apply (save_cursor_engine sz e).
  - assert (H : engine_ok sz (if (mode =? 1048) || (mode =? 1049)
        then restore_cursor (set_alternate_screen_active false e)
        else set_alternate_screen_active false e))
      by (destruct (_ || _); [by apply restore_cursor_engine|done]).
    cbv zeta. destruct (mode =? 1047); [|by apply engine_kept_Ok].
    destruct H as [Hn [Ha Hz]]. destruct (clear_screen_kept _ 2 Ha) as (b & -> & ? & ?).
    apply engine_kept_Ok. split; [done|]. split; [done|]. simpl. congruence.
Qed.

Lemma private_modes_kept sz enabled modes e : engine_ok sz e ->
  engine_kept sz (private_modes enabled modes e).
Proof.
  revert e. induction modes as [|mode modes IH]; intros e He; simpl; [by apply engine_kept_Ok|].
  assert (H : engine_kept sz (private_mode enabled mode e)).
  { pose proof (engine_kept_Ok sz e He). unfold private_mode.
    repeat case_match; try done; try (by apply engine_kept_Ok); by apply set_alternate_screen_kept. }
  destruct H as (e1 & -> & H1). by apply IH.
Qed.

Lemma handle_public_mode_ok sz numbers enabled e : engine_ok sz e ->
  engine_ok sz (handle_public_mode numbers enabled e).
Proof.
  unfold handle_public_mode. revert e. induction numbers as [|n numbers IH]; intros e He; simpl; [done|].
  apply IH. by destruct (n =? 4).
Qed.

Lemma nth_or_nonneg numbers i d : Forall (fun v => 0 <= v) numbers -> 0 <= d ->
  0 <= default d (numbers !! i).
Proof.
  intros Hn Hd. destruct (numbers !! i) as [v|] eqn:E; simpl; [|done].
  by apply (Forall_lookup_1 _ _ _ _ Hn E).
Qed.

Lemma sat_sub_nonneg a b : 0 <= sat_sub a b.
Proof. unfold sat_sub. lia. Qed.
#[local] Hint Resolve sat_sub_nonneg : core.

(** Screen operations that are functions of the buffer. *)
Lemma pure_kept sz f e : engine_ok sz e ->
  (forall b, buffer_ok b -> buffer_ok (f b)) -> (forall b, size (f b) = size b) ->
  engine_kept sz (Ok (on_active_pure f e)).
Proof. intros. by apply engine_kept_Ok, on_active_pure_ok. Qed.

Lemma set_scroll_region_size top bottom origin b : size (set_scroll_region top bottom origin b) = size b.
Proof. unfold set_scroll_region. by destruct (_ =? 0). Qed.

Lemma csi_action_kept sz params numbers final e : engine_ok sz e ->
  Forall (fun v => 0 <= v) numbers -> engine_kept sz (csi_action params numbers final e).
Proof.
  intros He Hn. unfold csi_action. cbv zeta. pose proof (engine_kept_Ok sz e He) as Hsame.
  repeat case_match; try exact Hsame;
    first
      [ apply pure_kept; [done|intros b Hb; by repeat first
          [apply carriage_return_ok|apply move_cursor_relative_ok|apply move_cursor_col_ok
          |apply move_cursor_row_ok|apply move_cursor_to_ok|apply set_scroll_region_ok]|
          intros b; first [done|apply set_scroll_region_size]]
      | apply on_active_kept; [done|intros b Hb; first
          [by apply clear_screen_kept|by apply clear_line_kept|by apply insert_lines_kept
          |by apply delete_lines_kept|by apply delete_chars_kept|by apply insert_chars_kept
          |by apply erase_chars_kept|by apply repeat_last_char_kept
          |apply kept_same; by apply scroll_up_ok|apply kept_same; by apply scroll_down_ok]]
      | apply engine_kept_Ok; first
          [by apply save_cursor_engine|by apply restore_cursor_engine|by apply handle_public_mode_ok]
      | idtac ].
  all: apply pure_kept; [done|intros b Hb; apply apply_sgr_ok; [done|apply parse_sgr_segments_ok]|].
  all: intros b; unfold apply_sgr; by destruct (parse_sgr_segments params).
Qed.

(** ** The steps of the loop *)

Lemma put_chars_kept d modes chars b : buffer_ok b -> kept b (put_chars d modes chars b).
Proof.
  revert b. induction chars as [|c chars IH]; intros b Hb; simpl; [by apply kept_Ok|].
  destruct (put_char_kept b (if d then translate_dec_graphics c else c) modes Hb) as (b1 & -> & H1 & Hz1).
  destruct (IH b1 H1) as (b2 & -> & H2 & Hz2). apply kept_Ok; [done|congruence].
Qed.

Lemma flush_plain_kept sz plain e : engine_ok sz e -> engine_kept sz (flush_plain plain e).
Proof.
  intros He. unfold flush_plain. destruct plain; [by apply engine_kept_Ok|].
  destruct (decode_utf8_chars _ _) as [chars pending]. apply on_active_kept; [done|].
  intros b0 Hb. by apply put_chars_kept.
Qed.

Lemma handle_csi_kept sz params final e : engine_ok sz e ->
  exists e' r, handle_csi params final e = Ok (e', r) /\ engine_ok sz e'.
Proof.
  intros He. unfold handle_csi. destruct (strip_prefix 63 _) as [q|].
  - assert (H : engine_kept sz (handle_private_mode q final e)).
    { unfold handle_private_mode. pose proof (engine_kept_Ok sz e He).
      repeat case_match; try done; by apply private_modes_kept. }
    destruct H as (e1 & -> & H1). eauto.
  - destruct (csi_action_kept sz (from_utf8_lossy params) (parse_csi_numbers (from_utf8_lossy params))
      final e He) as (e1 & -> & H1); [apply parse_csi_numbers_range|]. eauto.
Qed.

Lemma reset_ok sz e : engine_ok sz e -> engine_ok sz (reset e).
Proof. intros [[? ?] [? ?]]. split; (split; [by apply buffer_reset_ok|done]). Qed.

Lemma parse_escape_kept sz rest action next e : parse_escape rest = Some (action, next) ->
  engine_ok sz e -> exists e' r, action e = Ok (e', r) /\ engine_ok sz e'.
Proof.
  unfold parse_escape. destruct rest as [|b rest]; [done|]. intros H He.
  repeat case_match; simplify_eq; try (by eexists _, _; split; [reflexivity|]);
    try (by eexists _, _; split; [reflexivity|apply save_cursor_engine]);
    try (by eexists _, _; split; [reflexivity|apply restore_cursor_engine]);
    try (by eexists _, _; split; [reflexivity|apply reset_ok]);
    try (by apply handle_csi_kept).
  all: try (destruct (on_active_kept sz reverse_index e He reverse_index_kept) as (e1 & -> & ?); eauto).
  all: match goal with |- context [handle_osc ?p ?e0] => destruct (handle_osc p e0) as [e1 r] eqn:E end;
    exists e1, r; split; [done|]; unfold handle_osc in E; repeat case_match; simplify_eq; done.
Qed.

Lemma line_feed_kept' b : buffer_ok b -> kept b (line_feed b).
Proof. intros Hb. destruct (line_feed_kept b Hb) as (b' & ? & ? & ? & _). by exists b'. Qed.

Lemma control_char_kept sz b f e : control_char b = Some f -> engine_ok sz e -> engine_kept sz (f e).
Proof.
  unfold control_char. intros H He. repeat case_match; simplify_eq; try (by apply engine_kept_Ok);
    try (apply on_active_kept; [done|]; first [apply line_feed_kept'|apply tab_kept]);
    apply pure_kept; try done; first [apply carriage_return_ok|apply backspace_ok].
Qed.

Lemma run_feed_kept sz x e plain : engine_ok sz e ->
  exists e' r, run_feed e plain x = Ok (e', r) /\ engine_ok sz e'.
Proof.
  remember (feed_measure e x) as n eqn:Hn. revert x e plain Hn.
  induction n as [n IH] using (well_founded_induction lt_wf). intros x e plain -> He.
  rewrite run_feed_eq. unfold feed_step. destruct x as [|b rest].
  { destruct (flush_plain_kept sz plain e He) as (e1 & -> & ?). eauto. }
  destruct (synchronized_update e) eqn:Hs.
  { unfold buffer_input. destruct (should_flush_synchronized_buffer _ _); [|by eauto].
    unfold flush_synchronized_buffer, feed_input. eapply IH; [|done|done].
    unfold feed_measure. simpl. rewrite Hs, !length_app. simpl. lia. }
  assert (Hless : forall e1 next q, stream_fields e1 = stream_fields e -> engine_ok sz e1 ->
    (length next <= length rest)%nat -> exists e' r, run_feed e1 q next = Ok (e', r) /\ engine_ok sz e').
  { intros e1 next q Hst H1 Hl. eapply IH; [|done|done]. by apply feed_measure_less. }
  destruct (decide (b = x1b)) as [->|Hb].
  - destruct (flush_plain_kept sz plain e He) as (e1 & Ef & H1). rewrite Ef.
    apply flush_plain_stream in Ef as [Hf _]. unfold feed_escape.
    destruct (parse_escape rest) as [[action next]|] eqn:Ep; [|by eauto].
    destruct (parse_escape_kept sz _ _ _ e1 Ep H1) as (e2 & r2 & Ea & H2). rewrite Ea.
    pose proof (parse_escape_stream _ _ _ _ _ _ Ep Ea). apply parse_escape_length in Ep.
    destruct (Hless e2 next []) as (e3 & r3 & -> & ?); [congruence|done|lia|]. unfold replying. eauto.
  - destruct (control_char b) as [f|] eqn:Ec; [|by apply Hless].
    destruct (flush_plain_kept sz plain e He) as (e1 & Ef & H1). rewrite Ef.
    apply flush_plain_stream in Ef as [Hf _].
    destruct (control_char_kept sz b f e1 Ec H1) as (e2 & E2 & H2). rewrite E2.
    apply (control_char_stream _ _ _ _ Ec) in E2. apply Hless; [congruence|done|done].
Qed.

Lemma feed_kept sz x e : engine_ok sz e ->
  exists e' r, feed_and_collect_replies x e = Ok (e', r) /\ engine_ok sz e'.
Proof.
  intros He. rewrite feed_eq. destruct (synchronized_update e).
  - unfold buffer_input. destruct (should_flush_synchronized_buffer _ _); [|by eauto].
    unfold flush_synchronized_buffer, feed_input. by apply run_feed_kept.
  - unfold feed_input. by apply run_feed_kept.
Qed.

(** ** Reachable terminals *)

Definition call_ok (c : terminal_call) : Prop :=
  match c with Feed _ => True | Resize sz => size_ok sz end.

(** The size after some calls. *)
Definition last_size (sz : TerminalSize) (calls : list terminal_call) : TerminalSize :=
  fold_left (fun sz c => match c with Feed _ => sz | Resize sz' => sz' end) calls sz.

Lemma terminal_run_kept sz calls e : engine_ok sz e -> Forall call_ok calls ->
  exists e' r, terminal_run calls e = Ok (e', r) /\ engine_ok (last_size sz calls) e'.
Proof.
  intros He Hc. revert sz e He. induction Hc as [|c calls Hc Hcs IH]; intros sz e He; simpl; [by eauto|].
  destruct c as [bytes|sz'].
  - destruct (feed_kept sz bytes e He) as (e1 & r1 & -> & H1).
    destruct (IH sz e1 H1) as (e2 & r2 & -> & H2). unfold replying. eauto.
  - apply IH. destruct He as [[Hn _] [Ha _]].
    destruct (buffer_resize_ok _ sz' Hn Hc), (buffer_resize_ok _ sz' Ha Hc). done.
Qed.

Lemma terminal_new_ok sz : size_ok sz -> engine_ok sz (terminal_new sz).
Proof. intros Hs. split; (split; [by apply buffer_new_ok|done]). Qed.

(** C5. A terminal of at least one row and column, and at most 65528 columns,
    never panics and always returns, whatever bytes it is fed, in whatever
    pieces, and however it is resized within these sizes: afterwards both
    screens have exactly the terminal's rows and columns, the cursor and the
    scrolling region lie inside, every cell holds a printable character or
    the right half of a wide one, and the history has at most 10000 lines.
    Other sizes may panic: [TerminalText.odd_sizes_panic]. *)
Theorem terminal_is_well_formed sz calls : size_ok sz -> Forall call_ok calls ->
  exists e r, terminal_run calls (terminal_new sz) = Ok (e, r) /\ engine_ok (last_size sz calls) e.
Proof. intros Hs Hc. apply terminal_run_kept; [by apply terminal_new_ok|done]. Qed.

Lemma terminal_is_well_formed_witness :
  let sz := {| rows := 2; cols := 4; pixel_width := 0; pixel_height := 0 |} in
  let sz' := {| rows := 3; cols := 3; pixel_width := 0; pixel_height := 0 |} in
  exists e r, terminal_run [Feed (as_bytes "hello"); Resize sz'; Feed [x1b; x5b; x4c]] (terminal_new sz)
    = Ok (e, r) /\ engine_ok sz' e.
Proof.
  intros sz sz'.
  apply (terminal_is_well_formed sz [Feed (as_bytes "hello"); Resize sz'; Feed [x1b; x5b; x4c]]).
  - split; simpl; lia.
  - repeat constructor; simpl; lia.
Defined.

(** ** What the viewer is given *)

(** The plain and the styled lines of a snapshot show the same text, and each
    styled line reads back as runs of its characters. *)
Definition snapshot_reads_back (s : ScreenSnapshot) : Prop :=
  len (lines s) = rows (snap_size s) /\
  Forall2 (fun plain styled => concat (map fst (parse_ansi_styled_line styled)) = plain)
    (lines s) (styled_lines s).

Lemma runs_text cells : concat (map fst (runs cells)) = map ch cells.
Proof.
  induction cells as [|cell cells IH]; simpl; [done|]. destruct (runs cells) as [|[t s] more].
  - simpl in *. by rewrite <- IH.
  - destruct (decide (s = style cell)); simpl in *; by rewrite <- IH.
Qed.

Lemma row_reads_back w r : row_ok w r ->
  concat (map fst (parse_ansi_styled_line (render_styled_row r))) = render_plain_row r.
Proof.
  intros [_ Hf]. rewrite styled_row_roundtrip; [apply runs_text|].
  apply Forall_forall. intros cell Hc. unfold visible in Hc. rewrite list_elem_of_filter in Hc.
  destruct Hc as [Hw Hc]. rewrite Forall_forall in Hf. destruct (Hf cell Hc) as [[Hch|Hch] Hs]; [done|].
  split; [|done]. intros E. by rewrite E in Hch.
Qed.

(** C19. Whatever a terminal was fed, every styled line of the screen it shows
    parses back, with the parser the viewer uses, to the characters of the
    plain line, and there is one line for every row. *)
Theorem screen_reads_back sz calls e r : size_ok sz -> Forall call_ok calls ->
  terminal_run calls (terminal_new sz) = Ok (e, r) ->
  snapshot_reads_back (active_snapshot (engine_state e)).
Proof.
  intros Hs Hc Hrun. destruct (terminal_run_kept sz calls _ (terminal_new_ok sz Hs) Hc) as (e' & r' & E & Hok).
  rewrite Hrun in E. simplify_eq. destruct (active_ok _ _ Hok) as [Hb Hz].
  assert (Hg : forall b a t v, buffer_ok b -> snapshot_reads_back (buffer_snapshot b a t v)).
  { intros b a t v [_ [Hl Hr]]. split; simpl.
    - unfold len in *. by rewrite length_map.
    - apply Forall2_fmap_2, Forall_Forall2_diag. eapply Forall_impl; [exact Hr|].
      intros row Hrow. by eapply row_reads_back. }
  destruct Hok as [[? _] [? _]]. unfold active_snapshot, engine_state. simpl.
  destruct (alternate_screen_active e'); by apply Hg.
Qed.

Lemma screen_reads_back_witness :
  let sz := {| rows := 2; cols := 4; pixel_width := 0; pixel_height := 0 |} in
  let calls := [Feed (as_bytes "ab"); Feed (x1b :: as_bytes "[1;31m"); Feed (as_bytes "cd")] in
  exists e r, terminal_run calls (terminal_new sz) = Ok (e, r)
    /\ snapshot_reads_back (active_snapshot (engine_state e)).
Proof.
  intros sz calls. destruct (terminal_run calls (terminal_new sz)) as [[e r]|] eqn:E.
  - exists e, r. split; [done|]. apply (screen_reads_back sz calls e r).
    + split; simpl; lia.
    + by repeat constructor.
    + exact E.
  - vm_compute in E. discriminate E.
Defined.
