(* ===== verification/TerminalText.v ===== *)
(** * What the terminal shows

    The functional behaviour of the terminal on particular input: printed text
    appears where the cursor is, the escape sequence a style is rendered to
    sets that style, a line that scrolls off the top is the line the history
    gains; and input that the terminal treats differently from what the
    sequences mean. *)

From S2P Require Import Prelude Bytes Utf8 Ansi Screen ScreenInvariant Terminal TerminalFeed.

(** ** One control sequence *)

(** Outside an escape sequence and a synchronized update. *)
Definition idle (e : TerminalEngine) : Prop :=
  synchronized_update e = false /\ pending_escape e = [] /\ synchronized_buffer e = [].

Lemma scan_csi_whole params final : Forall (fun b => in_range 0x40 0x7e b = false) params ->
  in_range 0x40 0x7e final = true -> scan_csi (params ++ [final]) = Some (params, final, []).
Proof.
  intros Hp Hf. induction Hp as [|b params Hb Hp IH]; simpl; [by rewrite Hf|]. by rewrite Hb, IH.
Qed.

Lemma run_feed_nil e : run_feed e [] [] = Ok (e, []).
Proof. by rewrite run_feed_eq. Qed.

Lemma feed_csi e params final : idle e -> Forall (fun b => in_range 0x40 0x7e b = false) params ->
  in_range 0x40 0x7e final = true ->
  feed_and_collect_replies (x1b :: x5b :: params ++ [final]) e = handle_csi params final e.
Proof.
  intros (Hs & Hp & _) Hps Hf. rewrite feed_eq, Hs. unfold feed_input.
  rewrite Hp, set_pending_escape_nil by done. simpl app. rewrite run_feed_eq.
  unfold feed_step. rewrite Hs. rewrite decide_True by done. simpl. unfold feed_escape. simpl.
  rewrite scan_csi_whole by done. destruct (handle_csi params final e) as [[e' r]|]; [|done].
  rewrite run_feed_nil. simpl. by rewrite app_nil_r.
Qed.

Lemma from_utf8_lossy_text t : Forall scalar t -> from_utf8_lossy (text_bytes t) = t.
Proof.
  intros Ht. unfold from_utf8_lossy, decode_utf8_chars. rewrite decode_loop_each.
  pose proof (decode_each_encode t [] Ht) as H. rewrite app_nil_r in H. rewrite H. simpl.
  by rewrite !app_nil_r.
Qed.

(** ** A rendered style *)

Lemma screen_flags prev s segs :
  screen_segments 0 prev (map plain_segment (0 :: flag_codes s) ++ segs)
    = screen_segments 0 (set_background None (set_foreground None s)) segs.
Proof.
  destruct s as [b0 b1 b2 b3 b4 b5 b6 fg bg]. by destruct b0, b1, b2, b3, b4, b5, b6.
Qed.

Lemma at_most_255_fits z : fits 8 z -> at_most_255 z = z.
Proof. unfold fits, at_most_255. simpl. lia. Qed.

Lemma screen_color c s segs (fg : bool) : from_option color_ok True c ->
  (if fg then foreground s else background s) = None ->
  screen_segments 0 s (map plain_segment (color_codes c (if fg then 38 else 48)) ++ segs)
    = screen_segments 0 (if fg then set_foreground c s else set_background c s) segs.
Proof.
  intros Hc Hs. destruct fg, c as [[i|r g b]|]; simpl in *.
  1, 4: by rewrite at_most_255_fits.
  1, 3: destruct Hc as (? & ? & ?); by rewrite !at_most_255_fits.
  all: destruct s; simpl in *; by subst.
Qed.

(** The engine and the viewer's parser read the same style. *)
Lemma screen_style_codes prev s : style_ok s ->
  screen_segments 0 prev (map plain_segment (style_codes s)) = s.
Proof.
  intros [Hf Hb]. unfold style_codes. rewrite !map_app, screen_flags.
  rewrite (screen_color (foreground s) _ _ true) by done.
  rewrite <- (app_nil_r (map plain_segment (color_codes _ 48))).
  rewrite (screen_color (background s) _ _ false) by done. by destruct s.
Qed.

(** Parameter characters: digits and the semicolon. *)
Definition param_char (c : char) : Prop := 48 <= c <= 57 \/ c = 59.

Lemma join_params codes : Forall (fits 8) codes ->
  Forall param_char (join [59] (map to_decimal codes)).
Proof.
  induction 1 as [|z zs Hz Hzs IH]; [constructor|].
  destruct (byte_decimal z Hz) as (_ & H2 & _).
  assert (H : Forall param_char (to_decimal z)).
  { eapply Forall_impl; [exact H2|]. intros c Hc. unfold is_digit in Hc. left. lia. }
  destruct zs as [|y zs]; [done|].
  change (join [59] (map to_decimal (z :: y :: zs)))
    with (to_decimal z ++ 59 :: join [59] (map to_decimal (y :: zs))).
  apply Forall_app_2; [done|]. constructor; [by right|exact IH].
Qed.

Lemma param_encode c : param_char c -> utf8_encode c = [byte_of c] /\ scalar c
  /\ in_range 0x40 0x7e (byte_of c) = false.
Proof.
  intros Hc. unfold param_char in Hc. unfold utf8_encode, scalar.
  rewrite (proj2 (Z.ltb_lt c 128)) by lia. rewrite in_range_of by lia.
  split_and!; [done|lia|]. apply bool_decide_eq_false. lia.
Qed.

Lemma params_bytes t : Forall param_char t ->
  Forall scalar t /\ Forall (fun b => in_range 0x40 0x7e b = false) (text_bytes t).
Proof.
  induction 1 as [|c t Hc Ht [IH1 IH2]]; [done|].
  destruct (param_encode c Hc) as (He & Hs & Hr). split; [by constructor|].
  unfold text_bytes in *. simpl. rewrite He. by constructor.
Qed.

Lemma strip_params t : Forall param_char t -> strip_prefix 63 t = None.
Proof.
  intros Ht. destruct Ht as [|c t Hc Ht]; [done|]. unfold strip_prefix.
  unfold param_char in Hc. by rewrite (proj2 (Z.eqb_neq c 63)) by lia.
Qed.

(** The escape sequence a style is rendered to sets exactly that style when
    it is fed to a terminal, whatever style was active, and changes nothing
    else: what the viewer stored can be replayed. *)
Theorem rendered_style_sets_style e s : idle e -> style_ok s ->
  feed_and_collect_replies (text_bytes (to_ansi s)) e
    = Ok (on_active_pure (set_current_style s) e, []).
Proof.
  intros He Hs. rewrite to_ansi_codes. pose proof (style_codes_bytes s Hs) as Hb.
  assert (Hn : style_codes s <> []) by done.
  pose proof (screen_style_codes (current_style (active_buffer e)) s Hs) as Hst.
  destruct (params_bytes _ (join_params _ Hb)) as [Hsc Hpar].
  set (codes := style_codes s) in *. set (j := join [59] (map to_decimal codes)) in *.
  assert (E : text_bytes (ESC :: 91 :: j ++ [109]) = x1b :: x5b :: text_bytes j ++ [x6d]).
  { unfold text_bytes. change (ESC :: 91 :: j ++ [109]) with ([ESC; 91] ++ j ++ [109]).
    by rewrite !bind_app. }
  rewrite E, feed_csi by done. unfold handle_csi. rewrite from_utf8_lossy_text by done.
  rewrite (strip_params j) by (by apply join_params). change (csi_action j (parse_csi_numbers j) x6d e)
    with (Ok (E := fault) (on_active_pure (apply_sgr (parse_sgr_segments j)) e)). cbv zeta.
  change (csi_reply (parse_csi_numbers j) x6d e) with (@nil byte).
  unfold j. rewrite parse_sgr_plain by done. do 2 f_equal. unfold on_active_pure. f_equal.
  unfold apply_sgr. destruct (map plain_segment codes) as [|p ps] eqn:Em; [by destruct codes|].
  by rewrite Hst.
Qed.

Lemma rendered_style_sets_style_witness :
  let sz := {| rows := 2; cols := 4; pixel_width := 0; pixel_height := 0 |} in
  let s := set_foreground (Some (Rgb 1 2 3)) (set_bold true default_style) in
  feed_and_collect_replies (text_bytes (to_ansi s)) (terminal_new sz)
    = Ok (on_active_pure (set_current_style s) (terminal_new sz), []).
Proof.
  intros sz s. apply rendered_style_sets_style; [by repeat split|].
  split; simpl; unfold fits; lia.
Defined.

(** ** Printed text *)

Definition printable (c : char) : Prop := 32 <= c <= 126.

#[global] Instance printable_dec c : Decision (printable c).
Proof. unfold printable. apply _. Defined.

Definition plain_cell (c : char) : ScreenCell := {| ch := c; style := default_style |}.

(** The first row after printing [d] on an empty screen. *)
Definition printed_row (sz : TerminalSize) (d : text) : list ScreenCell :=
  map plain_cell d ++ replicate (Z.to_nat (cols sz) - length d) blank_cell.

Definition printed (sz : TerminalSize) (d : text) : ScreenBuffer :=
  let b := buffer_new sz in
  set_last_char (last d)
    (set_pending_wrap (bool_decide (len d = cols sz))
       (set_cursor_col (Z.min (len d) (cols sz - 1))
          (set_cells (printed_row sz d :: tail (cells b)) b))).

Lemma printable_width c : printable c -> char_display_width c = 1.
Proof.
  intros Hc. unfold printable in Hc. unfold char_display_width, is_control.
  rewrite (proj2 (Z.ltb_ge c 0x20)), (proj2 (Z.leb_gt 0x7F c)) by lia. simpl.
  repeat rewrite (proj2 (Z.leb_gt _ c)) by lia. done.
Qed.

Lemma printed_row_lookup sz d i : (length d <= Z.to_nat (cols sz))%nat ->
  printed_row sz d !! i =
    if decide (i < length d)%nat then plain_cell <$> (d !! i)
    else if decide (i < Z.to_nat (cols sz))%nat then Some blank_cell else None.
Proof.
  intros Hd. unfold printed_row. destruct (decide (i < length d)%nat).
  - rewrite lookup_app_l by (rewrite length_map; done). apply list_lookup_fmap.
  - rewrite lookup_app_r by (rewrite length_map; lia). rewrite length_map.
    destruct (decide (i < Z.to_nat (cols sz))%nat).
    + apply lookup_replicate_2. lia.
    + apply lookup_replicate_None. lia.
Qed.

Lemma printed_row_length sz d : (length d <= Z.to_nat (cols sz))%nat ->
  length (printed_row sz d) = Z.to_nat (cols sz).
Proof. intros. unfold printed_row. rewrite length_app, length_map, length_replicate. lia. Qed.

Lemma printed_row_snoc sz d c : (length d < Z.to_nat (cols sz))%nat ->
  <[length d := plain_cell c]> (printed_row sz d) = printed_row sz (d ++ [c]).
Proof.
  intros Hd. unfold printed_row. rewrite map_app, length_app, <- app_assoc. simpl.
  replace (length d) with (length (map plain_cell d) + 0)%nat at 1 by (rewrite length_map; lia).
  rewrite insert_app_r.
  replace (Z.to_nat (cols sz) - length d)%nat with (S (Z.to_nat (cols sz) - (length d + 1))) by lia.
  done.
Qed.

Lemma printed_facts sz d : len d < cols sz ->
  pending_wrap (printed sz d) = false /\ cursor_row (printed sz d) = 0
  /\ cursor_col (printed sz d) = len d /\ current_style (printed sz d) = default_style
  /\ cells (printed sz d) !! 0%nat = Some (printed_row sz d).
Proof.
  intros Hd. unfold printed. simpl. rewrite bool_decide_false by lia. split_and!; try done. lia.
Qed.

(** No cell of the row is half of a wide character. *)
Lemma printed_no_overlap sz d : size_ok sz -> len d < cols sz ->
  clear_wide_overlap 0 (len d) (printed sz d) = Ok (printed sz d).
Proof.
  intros [Hr Hc] Hd. unfold len in *.
  destruct (printed_facts sz d) as (_ & _ & _ & _ & Hrow); [unfold len; lia|].
  unfold clear_wide_overlap, get_cell, vec_get. change (Z.to_nat 0) with 0%nat. rewrite Hrow. simpl ok_or. cbv iota.
  rewrite printed_row_lookup, decide_False, decide_True by lia. simpl ok_or. cbv iota.
  change (ch blank_cell =? WIDE_CONTINUATION) with false. cbv iota.
  unfold len. rewrite printed_row_length by lia.
  destruct (Z.ltb_spec (Z.of_nat (length d) + 1) (Z.of_nat (Z.to_nat (cols sz)))); [|done].
  rewrite printed_row_lookup, decide_False, decide_True by lia. done.
Qed.

Lemma put_cell_printed sz d c : size_ok sz -> len d < cols sz ->
  put_cell 0 (len d) (plain_cell c) (printed sz d)
    = Ok (set_cells (printed_row sz (d ++ [c]) :: tail (cells (buffer_new sz))) (printed sz d)).
Proof.
  intros [Hr Hc] Hd. unfold len in *.
  destruct (printed_facts sz d) as (_ & _ & _ & _ & Hrow); [unfold len; lia|].
  unfold put_cell, vec_get. change (Z.to_nat 0) with 0%nat. rewrite Hrow. simpl ok_or. cbv iota. unfold vec_set, len.
  rewrite printed_row_length by lia. rewrite (proj2 (Z.ltb_lt _ _)) by lia.
  rewrite Nat2Z.id, printed_row_snoc by lia. done.
Qed.

Lemma put_char_printed sz d c modes : size_ok sz -> len d < cols sz -> printable c ->
  modes_insert modes = false -> modes_autowrap modes = true ->
  put_char c modes (printed sz d) = Ok (printed sz (d ++ [c])).
Proof.
  intros Hs Hd Hp Hi Ha. pose proof Hs as [Hr Hc]. pose proof (len_nonneg d).
  destruct (printed_facts sz d Hd) as (Hpw & Hrow & Hcol & Hst & _).
  unfold put_char. change (buf_rows (printed sz d)) with (rows sz).
  change (buf_cols (printed sz d)) with (cols sz).
  rewrite !(proj2 (Z.eqb_neq _ 0)), (printable_width c Hp) by lia. cbv zeta.
  change (1 =? 0) with false. cbn [orb]. rewrite Hpw, Hi, Hrow, Hcol, printed_no_overlap, Hst by done.
  change {| ch := c; style := default_style |} with (plain_cell c). rewrite put_cell_printed by done.
  change (1 =? 2) with false. cbn [andb]. set (b := set_last_char _ _).
  assert (Hb : cursor_col b = len d) by exact Hcol. unfold advance_cursor, max_col.
  change (buf_cols b) with (cols sz). rewrite Hb, Ha, u16_ok by lia.
  unfold b, printed. rewrite last_snoc, len_app. change (len [c]) with 1.
  destruct (Z.leb_spec (cols sz) (len d + 1)).
  - rewrite (bool_decide_true (len d + 1 = cols sz)) by lia. unfold sat_sub.
    rewrite (Z.min_r (len d + 1)), Z.max_r by lia. done.
  - rewrite !bool_decide_false by lia. rewrite (Z.min_l (len d + 1)) by lia. done.
Qed.

Lemma put_chars_printed sz d t modes : size_ok sz -> len (d ++ t) <= cols sz -> Forall printable t ->
  modes_insert modes = false -> modes_autowrap modes = true ->
  put_chars false modes t (printed sz d) = Ok (printed sz (d ++ t)).
Proof.
  intros Hs Hl Ht Hi Ha. revert d Hl. induction Ht as [|c t Hc Ht IH]; intros d Hl; simpl.
  - by rewrite app_nil_r.
  - rewrite !len_app in Hl. change (len (c :: t)) with (len ([c] ++ t)) in Hl. rewrite len_app in Hl.
    change (len [c]) with 1 in Hl. pose proof (len_nonneg t).
    rewrite put_char_printed by (done || lia). rewrite IH; [by rewrite <- app_assoc|].
    rewrite !len_app. change (len [c]) with 1. lia.
Qed.

Lemma printed_nil sz : size_ok sz -> printed sz [] = buffer_new sz.
Proof.
  intros [Hr Hc]. unfold printed. change (len (@nil char)) with 0. rewrite bool_decide_false, Z.min_l by lia.
  unfold printed_row, buffer_new, blank_cells, blank_cells_with_style. simpl.
  replace (Z.to_nat (rows sz)) with (S (pred (Z.to_nat (rows sz)))) by lia. simpl. rewrite Nat.sub_0_r. done.
Qed.

(** ** Printable bytes are collected and written at once *)

Lemma printable_byte c : printable c ->
  utf8_encode c = [byte_of c] /\ byte_of c <> x1b /\ control_char (byte_of c) = None /\ scalar c.
Proof.
  intros Hc. unfold printable in Hc.
  assert (Hv : byte_val (byte_of c) = c) by (apply byte_val_small; lia).
  unfold utf8_encode, scalar. rewrite (proj2 (Z.ltb_lt c 128)) by lia. split_and!; [done| | |lia].
  - intros E. rewrite E in Hv. change (byte_val x1b) with 27 in Hv. lia.
  - unfold control_char. rewrite Hv. repeat case_match; try done; lia.
Qed.

Lemma run_feed_printable t e plain : Forall printable t -> synchronized_update e = false ->
  run_feed e plain (text_bytes t)
    = (let? e' := flush_plain (plain ++ text_bytes t) e in Ok (e', [])).
Proof.
  intros Ht Hs. revert plain. induction Ht as [|c t Hc Ht IH]; intros plain.
  - rewrite app_nil_r. by rewrite run_feed_eq.
  - destruct (printable_byte c Hc) as (He & Hb & Hctl & _). unfold text_bytes in *. simpl. rewrite He. simpl.
    rewrite run_feed_eq. unfold feed_step. rewrite Hs, decide_False, Hctl by done.
    rewrite IH, <- app_assoc. done.
Qed.

Lemma feed_printable t e : idle e -> Forall printable t ->
  feed_and_collect_replies (text_bytes t) e = (let? e' := flush_plain (text_bytes t) e in Ok (e', [])).
Proof.
  intros (Hs & Hp & _) Ht. rewrite feed_eq, Hs. unfold feed_input.
  rewrite Hp, set_pending_escape_nil by done. by apply run_feed_printable.
Qed.

Lemma render_plain_printed sz d : Forall printable d ->
  render_plain_row (printed_row sz d) = d ++ replicate (Z.to_nat (cols sz) - length d) 32.
Proof.
  intros Hd. unfold render_plain_row, visible, printed_row. rewrite filter_app, map_app.
  f_equal.
  - induction Hd as [|c d Hc Hd IH]; [done|]. rewrite map_cons, filter_cons, decide_True.
    + simpl. by rewrite IH.
    + unfold printable in Hc. unfold WIDE_CONTINUATION. simpl. lia.
  - generalize (Z.to_nat (cols sz) - length d)%nat. intros n. induction n as [|n IH]; [done|].
    cbn [replicate]. rewrite filter_cons, decide_True by done. cbn [map replicate]. by rewrite IH.
Qed.

Lemma render_plain_blank w : render_plain_row (blank_row_with_style w default_style)
  = replicate (Z.to_nat w) 32.
Proof.
  unfold blank_row_with_style, render_plain_row, visible. generalize (Z.to_nat w). intros n.
  induction n as [|n IH]; [done|].
  cbn [replicate]. rewrite filter_cons, decide_True by done. cbn [map replicate]. by rewrite IH.
Qed.

(** Text is shown as printed: a line of printable ASCII characters that
    fits the width, fed to a new terminal, is its first line, padded with
    spaces; the other lines are blank, and the cursor is after the text, or on
    the last column when the line is full. *)
Theorem printed_text_is_shown sz t : size_ok sz -> Forall printable t -> t <> [] -> len t <= cols sz ->
  exists e, feed_and_collect_replies (text_bytes t) (terminal_new sz) = Ok (e, []) /\
    lines (engine_snapshot e)
      = (t ++ replicate (Z.to_nat (cols sz) - length t) 32)
        :: replicate (pred (Z.to_nat (rows sz))) (replicate (Z.to_nat (cols sz)) 32) /\
    snap_cursor_row (engine_snapshot e) = 0 /\
    snap_cursor_col (engine_snapshot e) = Z.min (len t) (cols sz - 1).
Proof.
  intros Hs Ht Hne Hl. rewrite feed_printable by done.
  assert (Htb : text_bytes t <> []).
  { destruct Ht as [|c t Hc Ht]; [done|]. destruct (printable_byte c Hc) as (He & _).
    unfold text_bytes. simpl. by rewrite He. }
  rewrite flush_plain_cons by done.
  assert (Hd : decode_utf8_chars (text_bytes t) [] = (t, [])).
  { unfold decode_utf8_chars. rewrite decode_loop_each, <- (app_nil_r (text_bytes t)), decode_each_encode.
    - simpl. by rewrite app_nil_r.
    - eapply Forall_impl; [exact Ht|]. intros c Hc. apply (printable_byte c Hc). }
  simpl pending_utf8. rewrite app_nil_l, Hd.
  change (active_buffer (terminal_new sz)) with (buffer_new sz).
  change (match active_charset (terminal_new sz) with DecGraphics => true | CharsetAscii => false end) with false.
  rewrite <- (printed_nil sz Hs), (put_chars_printed sz [] t) by done.
  eexists. split; [done|]. split_and!; [|done|done].
  simpl lines. rewrite render_plain_printed by done. f_equal.
  unfold blank_cells, blank_cells_with_style.
  destruct Hs as [Hr _]. replace (Z.to_nat (rows sz)) with (S (pred (Z.to_nat (rows sz)))) at 1 by lia.
  simpl. rewrite fmap_replicate, render_plain_blank. done.
Qed.

Lemma printed_text_is_shown_witness :
  let sz := {| rows := 2; cols := 4; pixel_width := 0; pixel_height := 0 |} in
  exists e, feed_and_collect_replies (text_bytes (lit "abc")) (terminal_new sz) = Ok (e, []) /\
    lines (engine_snapshot e) = [lit "abc "; lit "    "] /\
    snap_cursor_row (engine_snapshot e) = 0 /\ snap_cursor_col (engine_snapshot e) = 3.
Proof.
  intros sz. apply (printed_text_is_shown sz (lit "abc")).
  - split; simpl; lia.
  - apply (bool_decide_unpack _). vm_compute. exact I.
  - done.
  - unfold len. simpl. lia.
Defined.

(** ** History *)

Lemma trim_scrollback_drop q e :
  (trim_scrollback q e).1 = drop (Z.to_nat (len q - MAX_SCROLLBACK_LINES)) q.
Proof.
  revert e. induction q as [|l q IH]; intros e; simpl; [done|].
  assert (Hl : len (l :: q) = len q + 1) by (unfold len; simpl; lia). rewrite Hl.
  destruct (Z.ltb_spec MAX_SCROLLBACK_LINES (len q + 1)).
  - rewrite IH. replace (Z.to_nat (len q + 1 - MAX_SCROLLBACK_LINES))
      with (S (Z.to_nat (len q - MAX_SCROLLBACK_LINES))) by lia. done.
  - by replace (Z.to_nat (len q + 1 - MAX_SCROLLBACK_LINES)) with 0%nat by lia.
Qed.

(** The scrolling region is the whole screen. *)
Definition full_region (b : ScreenBuffer) : Prop :=
  scroll_top b = 0 /\ scroll_bottom b = rows (size b) - 1.

(** A line feed on the last row of a screen without margins moves every
    row up by one, and the row that leaves the screen at the top becomes,
    rendered with its styles, the newest line of the history; only the oldest
    lines beyond 10000 are dropped. *)
Theorem scrolled_line_enters_history b : buffer_ok b -> full_region b ->
  cursor_row b = rows (size b) - 1 ->
  exists top rest b', cells b = top :: rest /\ line_feed b = Ok b' /\
    cells b' = rest ++ [current_blank_row b] /\
    styled_scrollback b'
      = (let history := styled_scrollback b ++ [render_styled_row top] in
         drop (Z.to_nat (len history - MAX_SCROLLBACK_LINES)) history) /\
    cursor_row b' = cursor_row b /\ cursor_col b' = cursor_col b.
Proof.
  intros Hb [Ht Hbot] Hcur. pose proof Hb as [[Hr Hc] [Hl _] _ _ _ _ _ _ _ _].
  destruct (cells b) as [|top rest] eqn:Hcells; [unfold len in Hl; simpl in Hl; lia|].
  assert (Hlen : len rest = rows (size b) - 1) by (unfold len in *; simpl in *; lia).
  unfold line_feed, buf_rows. rewrite (proj2 (Z.eqb_neq _ 0)) by lia. cbv zeta.
  set (b0 := set_pending_wrap false b).
  change (scroll_bottom b0) with (scroll_bottom b). change (cursor_row b0) with (cursor_row b).
  rewrite Hbot, Hcur, Z.leb_refl.
  unfold scroll_up_in_region. assert (Hb0 : buffer_ok b0) by (by apply ok_set_pending_wrap).
  rewrite no_rows_ok, region_fits_ok by done. cbn [orb negb]. cbv zeta.
  change (scroll_top b0) with (scroll_top b). change (scroll_bottom b0) with (scroll_bottom b).
  change (cells b0) with (cells b). rewrite Hbot, Ht, Hcells, Z.eqb_refl. cbn [andb].
  replace (rows (size b) - 1 + 1 =? len (top :: rest)) with true by (symmetry; apply Z.eqb_eq; lia).
  rewrite Z.min_l by lia. change (Z.to_nat 1) with 1%nat. cbn [repeat_result].
  unfold scroll_up_once. change (cells b0) with (cells b). rewrite Hcells.
  change (vec_remove (top :: rest) 0) with (Ok (E := fault) (top, rest)). cbv iota beta.
  unfold vec_insert. rewrite (proj2 (Z.leb_le _ _)) by lia.
  replace (Z.to_nat (rows (size b) - 1)) with (length rest) by (unfold len in Hlen; lia).
  rewrite firstn_all, drop_all. unfold push_scrollback.
  pose proof (trim_scrollback_drop (styled_scrollback b0 ++ [render_styled_row top])
    (scrollback_emitted_count b0)) as Htrim.
  destruct (trim_scrollback _ _) as [q e]. eexists top, rest, _.
  split_and!; [done|done|done|exact Htrim|exact Hbot|done].
Qed.

Lemma scrolled_line_enters_history_witness :
  let sz := {| rows := 1; cols := 2; pixel_width := 0; pixel_height := 0 |} in
  exists top rest b', cells (buffer_new sz) = top :: rest /\ line_feed (buffer_new sz) = Ok b' /\
    cells b' = rest ++ [current_blank_row (buffer_new sz)] /\
    styled_scrollback b'
      = (let history := styled_scrollback (buffer_new sz) ++ [render_styled_row top] in
         drop (Z.to_nat (len history - MAX_SCROLLBACK_LINES)) history) /\
    cursor_row b' = cursor_row (buffer_new sz) /\ cursor_col b' = cursor_col (buffer_new sz).
Proof.
  intros sz. apply (scrolled_line_enters_history (buffer_new sz)).
  - apply buffer_new_ok. split; simpl; lia.
  - by split.
  - done.
Defined.

(** ** Sequences that are misread *)

(** The lines a new terminal shows after some input that asks for no reply. *)
Definition shows (sz : TerminalSize) (input : list byte) (ls : list text) : Prop :=
  exists e, feed_and_collect_replies input (terminal_new sz) = Ok (e, [])
    /\ lines (engine_snapshot e) = ls.

(** Control sequences with a private prefix other than [?] are read as if
    the prefix were a number: [CSI > 4 ; 2 m], with which applications ask for
    modified key reports, resets the style and makes all following text dim,
    and [CSI > c], the secondary device query, gets the primary answer. *)
Theorem private_prefix_is_misread e : idle e ->
  feed_and_collect_replies (x1b :: x5b :: as_bytes ">4;2" ++ [x6d]) e
    = Ok (on_active_pure (set_current_style (set_dim true default_style)) e, []) /\
  feed_and_collect_replies (x1b :: x5b :: as_bytes ">" ++ [x63]) e = Ok (e, DEVICE_ATTRIBUTES).
Proof.
  intros He. rewrite !feed_csi by (try done; by repeat constructor). split; reflexivity.
Qed.

Lemma private_prefix_is_misread_witness :
  let sz := {| rows := 1; cols := 2; pixel_width := 0; pixel_height := 0 |} in
  feed_and_collect_replies (x1b :: x5b :: as_bytes ">4;2" ++ [x6d]) (terminal_new sz)
    = Ok (on_active_pure (set_current_style (set_dim true default_style)) (terminal_new sz), []) /\
  feed_and_collect_replies (x1b :: x5b :: as_bytes ">" ++ [x63]) (terminal_new sz)
    = Ok (terminal_new sz, DEVICE_ATTRIBUTES).
Proof. intros sz. apply private_prefix_is_misread. by repeat split. Defined.

(** A wide character printed in the last column is drawn twice: clipped in
    the last column, whose line is then wider than the screen, and again on
    the next line. *)
Theorem wide_char_at_margin_is_drawn_twice :
  shows {| rows := 2; cols := 4; pixel_width := 0; pixel_height := 0 |}
    (text_bytes (lit "abc" ++ [0x4F60])) [lit "abc" ++ [0x4F60]; 0x4F60 :: lit "  "].
Proof. eexists. split; vm_compute; reflexivity. Qed.

(** A synchronized update is only ended by the sequence of its own: mode 2026
    reset together with another mode keeps the screen frozen, though it may be
    set that way. *)
Lemma synchronized_update_misses_mode_list :
  let sz := {| rows := 1; cols := 4; pixel_width := 0; pixel_height := 0 |} in
  exists e, feed_and_collect_replies
      ((x1b :: as_bytes "[?25;2026h") ++ as_bytes "hi" ++ (x1b :: as_bytes "[?2026;25l") ++ as_bytes "!")
      (terminal_new sz) = Ok (e, []) /\
    synchronized_update e = true /\ lines (engine_snapshot e) = [lit "    "].
Proof. eexists. split_and!; vm_compute; reflexivity. Qed.

(** The bounds on sizes are needed: with no columns, erasing up to the cursor
    ([CSI 1 J]) writes the first cell of an empty row, and with more than 65528
    columns a tab from one of the last overflows the 16-bit column. Nothing
    between a client's [RESIZE] and the terminal excludes either size. *)
Lemma odd_sizes_panic :
  let size_of r c := {| rows := r; cols := c; pixel_width := 0; pixel_height := 0 |} in
  terminal_run [Resize (size_of 24 0); Feed (x1b :: as_bytes "[1J")] (terminal_new (size_of 24 80)) = Err Panic /\
  terminal_run [Feed (x1b :: as_bytes "[65529G"); Feed [x09]] (terminal_new (size_of 1 65529)) = Err Panic.
Proof. split; vm_compute; reflexivity. Qed.

Lemma scan_osc_unterminated body : Forall (fun b => b <> x07 /\ b <> x1b) body -> scan_osc body = None.
Proof.
  induction 1 as [|b body [H7 He] Hb IH]; simpl; [done|].
  by rewrite decide_False, decide_False, IH.
Qed.

(** The bytes of an escape sequence that is never ended are kept without a
    bound, and nothing of them is shown: after the start of an operating
    system command every byte up to the next BEL or escape character is pending, however many there are. *)
Theorem unterminated_sequence_is_unbounded e body : idle e ->
  Forall (fun b => b <> x07 /\ b <> x1b) body ->
  feed_and_collect_replies (x1b :: x5d :: body) e
    = Ok (set_pending_escape (x1b :: x5d :: body) e, []).
Proof.
  intros (Hs & Hp & _) Hb. rewrite feed_eq, Hs. unfold feed_input.
  rewrite Hp, set_pending_escape_nil by done. simpl app. rewrite run_feed_eq.
  unfold feed_step. rewrite Hs, decide_True by done. simpl. unfold feed_escape. simpl.
  rewrite scan_osc_unterminated by done. by rewrite Hp.
Qed.

Lemma unterminated_sequence_is_unbounded_witness :
  let sz := {| rows := 1; cols := 2; pixel_width := 0; pixel_height := 0 |} in
  feed_and_collect_replies (x1b :: x5d :: as_bytes "0;title") (terminal_new sz)
    = Ok (set_pending_escape (x1b :: x5d :: as_bytes "0;title") (terminal_new sz), []).
Proof.
  intros sz. apply unterminated_sequence_is_unbounded; [by repeat split|].
  apply (bool_decide_unpack _). vm_compute. exact I.
Defined.
