(* ===== verification/TerminalDraw.v ===== *)
(** * Drawing on the terminal

    What a program does to a buffer when it prints: a relation between a text
    and the buffers before and after it ([draws]), which composes, with one
    lemma for every kind of thing a redraw is made of: a character, a style, a
    line end, a cursor position, clearing the screen. A row whose cells are
    printed from an empty row on appears as printed, whatever the terminal
    does with wide characters and at the margin. *)

From S2P Require Import Prelude Bytes Utf8 Ansi Screen ScreenInvariant Terminal TerminalFeed TerminalInvariant TerminalText.

(** ** Decimal parameters *)

Lemma parse_digits_snoc max acc t d :
  parse_digits max acc (t ++ [d]) =
    match parse_digits max acc t with
    | Some v => parse_digits max v [d]
    | None => None
    end.
Proof.
  revert acc. induction t as [|c t IH]; intros acc; [done|]. simpl app.
  cbn [parse_digits]. destruct (is_digit c); [|done]. by destruct (_ <=? max).
Qed.

Lemma dec_digits_digits fuel z : 0 <= z -> Forall (fun c => is_digit c = true) (dec_digits fuel z).
Proof.
  revert z. induction fuel as [|fuel IH]; intros z Hz; [constructor|]. cbn [dec_digits].
  unfold is_digit. destruct (Z.ltb_spec z 10).
  - constructor; [lia|done].
  - pose proof (Z.mod_pos_bound z 10). apply Forall_app_2; [apply IH, Z.div_pos; lia|].
    constructor; [lia|done].
Qed.

Lemma parse_dec_digits max fuel z : 0 <= z < 10 ^ Z.of_nat (S fuel) -> z <= max ->
  parse_digits max 0 (dec_digits (S fuel) z) = Some z.
Proof.
  revert z. induction fuel as [|fuel IH]; intros z Hz Hm.
  - cbn [dec_digits]. rewrite (proj2 (Z.ltb_lt z 10)) by lia. cbn [parse_digits]. unfold is_digit.
    replace ((48 <=? 48 + z) && (48 + z <=? 57)) with true by lia.
    rewrite (proj2 (Z.leb_le _ max)) by lia. f_equal. lia.
  - remember (S fuel) as m. cbn [dec_digits]. destruct (Z.ltb_spec z 10).
    + cbn [parse_digits]. unfold is_digit.
      replace ((48 <=? 48 + z) && (48 + z <=? 57)) with true by lia.
      rewrite (proj2 (Z.leb_le _ max)) by lia. f_equal. lia.
    + pose proof (Z.mod_pos_bound z 10). pose proof (Z.div_mod z 10).
      rewrite Nat2Z.inj_succ, Z.pow_succ_r in Hz by lia.
      rewrite parse_digits_snoc, IH by (try split; try apply Z.div_pos; try apply Z.div_lt_upper_bound; lia).
      cbn [parse_digits]. unfold is_digit.
      replace ((48 <=? 48 + z mod 10) && (48 + z mod 10 <=? 57)) with true by lia.
      rewrite (proj2 (Z.leb_le _ max)) by lia. f_equal. lia.
Qed.

Lemma to_decimal_chars z : 0 <= z ->
  Forall param_char (to_decimal z) /\ Forall (fun c => c <> 59) (to_decimal z).
Proof.
  intros Hz. pose proof (dec_digits_digits 20 z Hz) as H. split; (eapply Forall_impl; [exact H|]);
    intros c Hc; unfold is_digit, param_char in *; lia.
Qed.

Lemma dec_digits_cons fuel z : dec_digits (S fuel) z <> [].
Proof. cbn [dec_digits]. destruct (z <? 10); [done|]. by destruct (dec_digits fuel (z / 10)). Qed.

Lemma parse_decimal z : 0 <= z <= 65535 -> parse_u16 (to_decimal z) = Some z.
Proof.
  intros Hz. unfold to_decimal.
  pose proof (parse_dec_digits 65535 19 z) as Hp. pose proof (dec_digits_digits 20 z) as Hd.
  pose proof (dec_digits_cons 19 z) as Hc. destruct (dec_digits 20 z) as [|c t]; [done|].
  assert (E : parse_u16 (c :: t) = parse_digits 65535 0 (c :: t)).
  { specialize (Hd ltac:(lia)). inversion Hd as [|?? Hc0 ?]; subst. unfold is_digit in Hc0.
    unfold parse_u16. destruct (decide (c = 43)) as [->|Hne]; [lia|].
    destruct c as [|c|c]; try done. repeat (destruct c as [c|c|]; try done). }
  rewrite E. apply Hp; lia.
Qed.

Lemma parse_two a b : 0 <= a <= 65535 -> 0 <= b <= 65535 ->
  parse_csi_numbers (to_decimal a ++ 59 :: to_decimal b) = [a; b].
Proof.
  intros Ha Hb. change (to_decimal a ++ 59 :: to_decimal b) with (join [59] [to_decimal a; to_decimal b]).
  assert (Hs : split 59 (join [59] [to_decimal a; to_decimal b]) = [to_decimal a; to_decimal b]).
  { apply split_join; [done|]. repeat constructor; apply to_decimal_chars; lia. }
  unfold parse_csi_numbers. destruct (join [59] _) as [|c t] eqn:E.
  { simpl in E. by destruct (to_decimal a). }
  rewrite Hs. simpl. rewrite !parse_decimal by lia. done.
Qed.

(** ** Printing, as a relation between buffers *)

(** Nothing is pending, and the modes are those of plain output. *)
Record ready (e : TerminalEngine) : Prop := {
  ready_idle : idle e;
  ready_utf8 : pending_utf8 e = [];
  ready_insert : insert_mode e = false;
  ready_origin : origin_mode e = false;
  ready_charset : active_charset e = CharsetAscii
}.

(** A text that asks for no reply. *)
Definition runs_to (t : text) (e e' : TerminalEngine) : Prop :=
  feed_and_collect_replies (text_bytes t) e = Ok (e', []).

Lemma ready_stream e : ready e -> stream_ok e.
Proof. intros [(Hs & Hp & Hb) _ _ _ _]. unfold stream_ok. by rewrite Hs. Qed.

Lemma text_bytes_app t u : text_bytes (t ++ u) = text_bytes t ++ text_bytes u.
Proof. apply bind_app. Qed.

Lemma runs_app t u e1 e2 e3 : ready e1 -> runs_to t e1 e2 -> runs_to u e2 e3 -> runs_to (t ++ u) e1 e3.
Proof.
  unfold runs_to. intros Hr H1 H2. rewrite text_bytes_app, feed_app by (by apply ready_stream).
  rewrite H1. unfold then_feed. rewrite H2. done.
Qed.

Lemma runs_nil e : ready e -> runs_to [] e e.
Proof.
  intros [(Hs & Hp & Hb) _ _ _ _]. unfold runs_to. change (text_bytes []) with (@nil byte).
  rewrite feed_eq, Hs. unfold feed_input. rewrite Hp, set_pending_escape_nil by done. apply run_feed_nil.
Qed.

Lemma set_active_same e : set_active (active_buffer e) e = e.
Proof. unfold active_buffer, set_active. by destruct e as [? ? []]. Qed.

Lemma ready_set_active b e : ready e -> ready (set_active b e).
Proof. unfold set_active. intros [(? & ? & ?) ? ? ? ?]. by destruct (alternate_screen_active e). Qed.

Lemma modes_set_active b e : write_modes (set_active b e) = write_modes e.
Proof. unfold set_active. by destruct (alternate_screen_active e). Qed.

(** Printing [t] turns the active buffer [b] into [b'] and changes nothing
    else of the terminal. *)
Definition draws (m : WriteModes) (t : text) (b b' : ScreenBuffer) : Prop :=
  forall e, ready e -> write_modes e = m -> active_buffer e = b -> runs_to t e (set_active b' e).

Lemma draws_nil m b : draws m [] b b.
Proof. intros e Hr _ <-. rewrite set_active_same. by apply runs_nil. Qed.

Lemma draws_app m t u b1 b2 b3 : draws m t b1 b2 -> draws m u b2 b3 -> draws m (t ++ u) b1 b3.
Proof.
  intros H1 H2 e Hr Hm Hb. eapply runs_app; [done|by apply H1|].
  rewrite <- (set_active_twice b2 b3 e). apply H2.
  - by apply ready_set_active.
  - by rewrite modes_set_active.
  - apply active_set_active.
Qed.

Lemma draws_style m s b : style_ok s -> draws m (to_ansi s) b (set_current_style s b).
Proof.
  intros Hs e [Hi _ _ _ _] _ <-. unfold runs_to. by rewrite rendered_style_sets_style.
Qed.

(** *** A character *)

Lemma byte_of_high z : 128 <= z < 256 -> byte_of z <> x1b /\ control_char (byte_of z) = None.
Proof.
  intros Hz. assert (Hv : byte_val (byte_of z) = z) by (apply byte_val_small; lia). split.
  - intros E. rewrite E in Hv. change (byte_val x1b) with 27 in Hv. lia.
  - unfold control_char. rewrite Hv. repeat case_match; try done; lia.
Qed.

(** The bytes of a visible character are neither escapes nor controls. *)
Lemma encode_plain c : scalar c -> char_display_width c <> 0 ->
  Forall (fun b => b <> x1b /\ control_char b = None) (utf8_encode c).
Proof.
  intros Hsc Hw. apply width_control in Hw. unfold scalar in Hsc. unfold utf8_encode.
  repeat case_match; repeat apply Forall_cons_2; try apply Forall_nil_2.
  1: { unfold is_control in Hw. assert (Hp : printable c) by (unfold printable; lia).
       apply printable_byte in Hp. tauto. }
  all: apply byte_of_high; split; Z.div_mod_to_equations; lia.
Qed.

Lemma run_feed_plain bs e plain : Forall (fun b => b <> x1b /\ control_char b = None) bs ->
  synchronized_update e = false ->
  run_feed e plain bs = (let? e' := flush_plain (plain ++ bs) e in Ok (e', [])).
Proof.
  intros Hb Hs. revert plain. induction Hb as [|b bs [H1 H2] Hb IH]; intros plain.
  - rewrite app_nil_r. by rewrite run_feed_eq.
  - rewrite run_feed_eq. unfold feed_step. rewrite Hs, decide_False, H2 by done.
    by rewrite IH, <- app_assoc.
Qed.

Lemma utf8_encode_cons c : utf8_encode c <> [].
Proof. unfold utf8_encode. by repeat case_match. Qed.

Lemma draws_char m c b b' : scalar c -> char_display_width c <> 0 -> put_char c m b = Ok b' ->
  draws m [c] b b'.
Proof.
  intros Hsc Hw Hp e [(Hs & Hpe & Hsb) Hu Hi Ho Hch] <- <-. unfold runs_to.
  assert (E : text_bytes [c] = utf8_encode c) by apply app_nil_r.
  rewrite E, feed_eq, Hs. unfold feed_input. rewrite Hpe, set_pending_escape_nil, app_nil_l by done.
  rewrite run_feed_plain, app_nil_l by (done || by apply encode_plain).
  rewrite flush_plain_cons, Hu by apply utf8_encode_cons. rewrite app_nil_l, Hch.
  assert (Hd : decode_utf8_chars (utf8_encode c) [] = ([c], [])).
  { rewrite <- E. unfold decode_utf8_chars. rewrite decode_loop_each, <- (app_nil_r (text_bytes [c])).
    rewrite decode_each_encode by (by constructor). done. }
  rewrite Hd. cbn [put_chars]. rewrite Hp. do 2 f_equal.
  f_equal. destruct e; simpl in *. by subst.
Qed.

(** *** Line ends *)

Lemma runs_control c f e e' : ready e -> 0 <= c < 128 -> byte_of c <> x1b ->
  control_char (byte_of c) = Some f -> f e = Ok e' -> stream_fields e' = ([], []) ->
  runs_to [c] e e'.
Proof.
  intros [(Hs & Hpe & Hsb) _ _ _ _] Hc Hb Hf Hok Hst. unfold runs_to.
  assert (E : text_bytes [c] = [byte_of c]).
  { unfold text_bytes, utf8_encode. simpl. by rewrite (proj2 (Z.ltb_lt c 128)) by lia. }
  rewrite E, feed_eq, Hs. unfold feed_input. rewrite Hpe, set_pending_escape_nil, app_nil_l by done.
  rewrite run_feed_eq. unfold feed_step. rewrite Hs, decide_False, Hf by done. simpl flush_plain.
  cbv iota. rewrite Hok. apply run_feed_nil.
Qed.

Lemma set_active_stream b e : ready e -> stream_fields (set_active b e) = ([], []).
Proof. intros Hr. destruct (ready_set_active b e Hr) as [(? & Hp & Hb) _ _ _ _]. unfold stream_fields. congruence. Qed.

Lemma draws_cr m b : draws m [13] b (carriage_return b).
Proof.
  intros e Hr _ <-. eapply runs_control; [done|lia|done|done|done|]. by apply set_active_stream.
Qed.

Lemma draws_lf m b b' : line_feed b = Ok b' -> draws m [10] b b'.
Proof.
  intros Hl e Hr _ <-. eapply runs_control; [done|lia|done|done| |by apply set_active_stream].
  unfold on_active. by rewrite Hl.
Qed.

(** *** Control sequences *)

(** A sequence of digits and semicolons with a final character. *)
Lemma runs_csi e params final e' : ready e -> Forall param_char params -> 64 <= final <= 126 ->
  csi_action params (parse_csi_numbers params) (byte_of final) e = Ok e' ->
  csi_reply (parse_csi_numbers params) (byte_of final) e = [] ->
  runs_to (ESC :: 91 :: params ++ [final]) e e'.
Proof.
  intros Hr Hp Hf Ha Hre. unfold runs_to.
  assert (E : text_bytes (ESC :: 91 :: params ++ [final]) = x1b :: x5b :: text_bytes params ++ [byte_of final]).
  { change (ESC :: 91 :: params ++ [final]) with ([ESC; 91] ++ params ++ [final]).
    rewrite !text_bytes_app. unfold text_bytes, utf8_encode. simpl.
    by rewrite (proj2 (Z.ltb_lt final 128)) by lia. }
  destruct (params_bytes _ Hp) as [Hsc Hpar].
  rewrite E, feed_csi; [|apply Hr|done|rewrite in_range_of by lia; by rewrite bool_decide_true by lia].
  unfold handle_csi. rewrite from_utf8_lossy_text, strip_params by done. cbv zeta. rewrite Ha, Hre. done.
Qed.

Lemma draws_move m r c b : 1 <= r <= 65535 -> 1 <= c <= 65535 ->
  draws m (ESC :: 91 :: (to_decimal r ++ 59 :: to_decimal c) ++ [72]) b
    (move_cursor_to (r - 1) (c - 1) false b).
Proof.
  intros Hr Hc e He _ <-. apply runs_csi; [done| |lia| |]; rewrite ?parse_two by lia.
  - apply Forall_app_2; [apply to_decimal_chars; lia|]. constructor; [by right|apply to_decimal_chars; lia].
  - unfold csi_action. rewrite byte_val_small by lia. cbn -[sat_sub]. rewrite (ready_origin e He).
    unfold sat_sub. by rewrite !Z.max_r by lia.
  - unfold csi_reply. by rewrite byte_val_small by lia.
Qed.

Lemma draws_home m b : draws m (ESC :: lit "[H") b (move_cursor_to 0 0 false b).
Proof.
  intros e He _ <-. apply (runs_csi e [] 72); [done|constructor|lia| |done].
  unfold csi_action. rewrite byte_val_small by lia. cbn. by rewrite (ready_origin e He).
Qed.

Lemma draws_clear m b b' : clear_screen 2 b = Ok b' -> draws m (ESC :: lit "[2J") b b'.
Proof.
  intros Hc e He _ <-. apply (runs_csi e [50] 74); [done|by repeat constructor|lia| |done].
  unfold csi_action. rewrite byte_val_small by lia. change (first_or _ 0) with 2.
  cbv beta iota zeta. unfold on_active. by rewrite Hc.
Qed.

(** Hiding and showing the cursor. *)
Lemma runs_cursor (v : bool) e : ready e ->
  runs_to (ESC :: lit (if v then "[?25h" else "[?25l")) e (set_cursor_visible v e).
Proof.
  intros [Hi _ _ _ _]. unfold runs_to. destruct v.
  - change (text_bytes (ESC :: lit "[?25h")) with (x1b :: x5b :: as_bytes "?25" ++ [x68]).
    rewrite feed_csi; [done|done|repeat constructor; done|done].
  - change (text_bytes (ESC :: lit "[?25l")) with (x1b :: x5b :: as_bytes "?25" ++ [x6c]).
    rewrite feed_csi; [done|done|repeat constructor; done|done].
Qed.

(** ** Printing a row *)

(** What printing on the screen leaves as it is. *)
Definition screen_frame (b : ScreenBuffer) :=
  (size b, (scroll_top b, scroll_bottom b), (styled_scrollback b, scrollback_emitted_count b), saved_cursor b).

(** The cells a visible character takes. *)
Definition char_cells (s : TextStyle) (c : char) : list ScreenCell :=
  {| ch := c; style := s |} ::
  (if char_display_width c =? 2 then [{| ch := WIDE_CONTINUATION; style := s |}] else []).

(** The cursor is in row [r], where [dn] has been printed and [n] cells are
    still blank. *)
Record drawing (r : nat) (dn : list ScreenCell) (n : nat) (s : TextStyle) (b : ScreenBuffer) : Prop := {
  dr_ok : buffer_ok b;
  dr_row : cells b !! r = Some (dn ++ replicate n blank_cell);
  dr_cursor_row : cursor_row b = Z.of_nat r;
  dr_cursor_col : (0 < n)%nat -> cursor_col b = len dn /\ pending_wrap b = false;
  dr_style : current_style b = s
}.

Lemma put_cell_row b r row col x : cells b !! r = Some row -> 0 <= col < len row ->
  put_cell (Z.of_nat r) col x b = Ok (set_cells (<[r := <[Z.to_nat col := x]> row]> (cells b)) b).
Proof.
  intros Hr Hc. pose proof (lookup_lt_Some _ _ _ Hr). unfold put_cell, vec_get, vec_set, len in *.
  rewrite Nat2Z.id, Hr. simpl ok_or. cbv iota. rewrite (proj2 (Z.ltb_lt col _)) by lia.
  rewrite (proj2 (Z.ltb_lt (Z.of_nat r) _)) by lia. done.
Qed.

Lemma get_cell_row b r row col x : cells b !! r = Some row -> 0 <= col -> row !! Z.to_nat col = Some x ->
  get_cell (Z.of_nat r) col b = Ok x.
Proof. intros Hr Hc Hx. unfold get_cell, vec_get. rewrite Nat2Z.id, Hr. simpl. by rewrite Hx. Qed.

Lemma overlap_blank b r dn n : cells b !! r = Some (dn ++ replicate (S n) blank_cell) ->
  clear_wide_overlap (Z.of_nat r) (len dn) b = Ok b.
Proof.
  intros Hr. pose proof (len_nonneg dn). unfold clear_wide_overlap.
  assert (Hat : forall k, (k <= n)%nat ->
            (dn ++ replicate (S n) blank_cell) !! Z.to_nat (len dn + Z.of_nat k) = Some blank_cell).
  { intros k Hk. unfold len. rewrite lookup_app_r by lia. apply lookup_replicate_2. lia. }
  assert (Hl : len (dn ++ replicate (S n) blank_cell) = len dn + Z.of_nat (S n)).
  { rewrite len_app. unfold len at 2. by rewrite length_replicate. }
  set (row := dn ++ replicate (S n) blank_cell) in *.
  erewrite get_cell_row; [|done|done|rewrite <- (Z.add_0_r (len dn)); apply (Hat 0%nat); lia].
  change (ch blank_cell =? WIDE_CONTINUATION) with false. cbv iota.
  unfold vec_get at 1. rewrite Nat2Z.id, Hr. simpl ok_or. cbv iota.
  destruct (Z.ltb_spec (len dn + 1) (len row)); [|done].
  erewrite get_cell_row; [|done|lia|apply (Hat 1%nat); lia]. done.
Qed.

Lemma insert_blank dn n x : <[Z.to_nat (len dn) := x]> (dn ++ replicate (S n) blank_cell)
  = (dn ++ [x]) ++ replicate n blank_cell.
Proof.
  unfold len. rewrite Nat2Z.id. replace (length dn) with (length dn + 0)%nat at 1 by lia.
  rewrite insert_app_r. simpl. by rewrite <- app_assoc.
Qed.

Lemma row_width r dn n s b : drawing r dn n s b -> len dn + Z.of_nat n = cols (size b).
Proof.
  intros [Hok Hr _ _ _]. destruct (ok_grid b Hok) as [_ Hg].
  destruct (Forall_lookup_1 _ _ _ _ Hg Hr) as [Hl _]. rewrite len_app in Hl.
  unfold len in Hl at 2. by rewrite length_replicate in Hl.
Qed.

Lemma advance_within b w aw : 0 <= cursor_col b -> 1 <= w -> cursor_col b + w <= cols (size b) <= 65528 ->
  exists b', advance_cursor w aw b = Ok b' /\ cells b' = cells b /\ screen_frame b' = screen_frame b /\
    cursor_row b' = cursor_row b /\ current_style b' = current_style b /\
    (cursor_col b + w < cols (size b) ->
     cursor_col b' = cursor_col b + w /\ pending_wrap b' = pending_wrap b).
Proof.
  intros Hk Hw Hc. unfold advance_cursor, buf_cols. rewrite u16_ok by lia.
  destruct (Z.leb_spec (cols (size b)) (cursor_col b + w)); eexists; (split; [done|]); simpl;
    split_and!; try done; lia.
Qed.

(** Writing the cells of one character. *)
Lemma put_char_cells m c r dn n s b : drawing r dn (length (char_cells s c) + n) s b ->
  char_display_width c <> 0 -> modes_insert m = false ->
  put_char c m b =
    advance_cursor (char_display_width c) (modes_autowrap m)
      (set_cells (<[r := (dn ++ char_cells s c) ++ replicate n blank_cell]> (cells b))
         (set_last_char (Some c) b)).
Proof.
  intros Hd Hw Hi. pose proof (row_width _ _ _ _ _ Hd) as Hwd. pose proof (len_nonneg dn).
  pose proof (width_range c). destruct Hd as [Hok Hr Hcr Hcc Hst].
  destruct (ok_size b Hok) as [??]. destruct (Hcc ltac:(simpl; lia)) as [Hcol Hpw].
  pose proof (lookup_lt_Some _ _ _ Hr) as Hlt.
  unfold put_char, buf_rows, buf_cols. cbv zeta. rewrite !(proj2 (Z.eqb_neq _ 0)) by lia. cbn [orb].
  rewrite Hpw. cbv iota. rewrite Hi. cbv iota. rewrite Hcr, Hcol.
  unfold char_cells in *. cbn [length Nat.add] in Hr, Hwd.
  rewrite (overlap_blank b r dn _ Hr). cbv iota. rewrite Hst.
  rewrite (put_cell_row _ _ _ _ _ Hr) by (rewrite len_app; unfold len; simpl; lia).
  cbv iota. rewrite insert_blank. set (x := {| ch := c; style := s |}).
  destruct (Z.eqb_spec (char_display_width c) 2) as [E2|E2]; cbn [length Nat.add andb] in *.
  - rewrite (proj2 (Z.ltb_lt 1 _)) by (simpl; lia). cbn [cursor_col set_last_char set_cells]. rewrite Hcol.
    rewrite u16_ok by lia. cbv iota. cbn [size set_last_char set_cells].
    rewrite (proj2 (Z.leb_gt (cols (size b)) _)) by lia.
    cbn [current_style set_last_char set_cells]. rewrite Hst.
    replace (len dn + 1) with (len (dn ++ [x])) by (rewrite len_app; done).
    erewrite put_cell_row; [|by apply list_lookup_insert_eq|rewrite (len_app (dn ++ [x])); unfold len; simpl; lia].
    rewrite insert_blank, <- (assoc_L (++) dn). cbn [cells set_last_char set_cells].
    rewrite list_insert_insert_eq. done.
  - cbn [app]. done.
Qed.

Lemma put_char_drawing m c r dn n s b : drawing r dn (length (char_cells s c) + n) s b ->
  char_display_width c <> 0 -> modes_insert m = false ->
  exists b', put_char c m b = Ok b' /\ drawing r (dn ++ char_cells s c) n s b' /\
    screen_frame b' = screen_frame b /\ cells b' = <[r := (dn ++ char_cells s c) ++ replicate n blank_cell]> (cells b).
Proof.
  intros Hd Hw Hi. pose proof (row_width _ _ _ _ _ Hd) as Hwd.
  pose proof (put_char_cells _ _ _ _ _ _ _ Hd Hw Hi) as E. destruct Hd as [Hok Hr Hcr Hcc Hst].
  destruct (ok_size b Hok) as [_ Hcols]. destruct (put_char_kept b c m Hok) as (b' & Hb' & Hok' & Hsz).
  destruct (Hcc ltac:(simpl; lia)) as [Hcol Hpw].
  assert (Hl : len (char_cells s c) = char_display_width c).
  { pose proof (width_range c). unfold char_cells, len. destruct (Z.eqb_spec (char_display_width c) 2); simpl; lia. }
  pose proof (len_nonneg dn). pose proof (len_nonneg (char_cells s c)).
  set (b1 := set_cells _ _) in E. destruct (advance_within b1 (char_display_width c) (modes_autowrap m))
    as (b2 & E2 & Hce & Hfr & Hcr2 & Hst2 & Hadv); unfold b1; simpl; rewrite ?Hcol; unfold len in *; try lia.
  rewrite Hb', E2 in E. injection E as ->. exists b2. split; [done|].
  split; [|split; [by rewrite Hfr|by rewrite Hce]]. constructor; [done| | |..].
  - rewrite Hce. simpl. apply list_lookup_insert_eq. by eapply lookup_lt_Some.
  - by rewrite Hcr2.
  - intros Hn. simpl in Hadv. rewrite Hcol in Hadv. destruct Hadv as [-> ->]; [unfold len; lia|].
    rewrite len_app. unfold len. split; [lia|done].
  - by rewrite Hst2.
Qed.

(** ** Printing anywhere keeps the style *)

Lemma put_cell_style r c x b b' : put_cell r c x b = Ok b' -> current_style b' = current_style b.
Proof. unfold put_cell. repeat case_match; by intros; simplify_eq. Qed.

Lemma overlap_style r c b b' : clear_wide_overlap r c b = Ok b' -> current_style b' = current_style b.
Proof.
  unfold clear_wide_overlap. repeat case_match; intros; simplify_eq; try done;
    repeat match goal with H : put_cell _ _ _ _ = Ok _ |- _ => apply put_cell_style in H end; congruence.
Qed.

(** What scrolling leaves as it is. *)
Definition kept_fields (b : ScreenBuffer) :=
  (current_style b, (scroll_top b, scroll_bottom b), pending_wrap b).

Lemma push_scrollback_fields line b : kept_fields (push_scrollback line b) = kept_fields b.
Proof. unfold push_scrollback. by destruct (trim_scrollback _ _). Qed.

Lemma scroll_up_once_fields top bottom full b b' : scroll_up_once top bottom full b = Ok b' ->
  kept_fields b' = kept_fields b.
Proof.
  unfold scroll_up_once. repeat case_match; intros; simplify_eq; try done; apply push_scrollback_fields.
Qed.

Lemma scroll_up_fields count b b' : scroll_up_in_region count b = Ok b' -> kept_fields b' = kept_fields b.
Proof.
  unfold scroll_up_in_region. destruct (_ || _); [by intros [= <-]|].
  generalize (Z.to_nat (Z.min count (scroll_bottom b - scroll_top b + 1))).
  generalize (scroll_top b), (scroll_bottom b), ((scroll_top b =? 0) && (scroll_bottom b + 1 =? len (cells b))).
  intros top bottom full k. revert b. induction k as [|k IH]; intros b; simpl; [by intros [= <-]|].
  destruct (scroll_up_once top bottom full b) as [b1|] eqn:E; [|done]. intros H.
  rewrite (IH _ H). by eapply scroll_up_once_fields.
Qed.

Lemma line_feed_fields b b' : line_feed b = Ok b' -> buf_rows b <> 0 ->
  kept_fields b' = (current_style b, (scroll_top b, scroll_bottom b), false).
Proof.
  unfold line_feed. intros H Hr. rewrite (proj2 (Z.eqb_neq _ 0) Hr) in H. cbv zeta in H.
  destruct (_ <=? _) in H.
  - destruct (scroll_up_in_region 1 _) as [b1|] eqn:E; [|done]. injection H as <-.
    apply scroll_up_fields in E. exact E.
  - destruct (u16 _); [|done]. by injection H as <-.
Qed.

Lemma line_feed_style b b' : line_feed b = Ok b' -> current_style b' = current_style b.
Proof.
  intros H. destruct (decide (buf_rows b = 0)) as [E|E].
  - unfold line_feed in H. rewrite E in H. by injection H as <-.
  - apply line_feed_fields in H; [|done]. unfold kept_fields in H. congruence.
Qed.

Lemma insert_blanks_style count b b' : insert_blanks_at_cursor count b = Ok b' ->
  current_style b' = current_style b.
Proof. unfold insert_blanks_at_cursor, set_row. repeat case_match; by intros; simplify_eq. Qed.

Lemma advance_style w aw b b' : advance_cursor w aw b = Ok b' -> current_style b' = current_style b.
Proof. unfold advance_cursor. repeat case_match; by intros; simplify_eq. Qed.

Lemma put_char_style c m b b' : put_char c m b = Ok b' -> current_style b' = current_style b.
Proof.
  unfold put_char. intros H.
  repeat case_match; simplify_eq; try done;
    repeat match goal with
    | H : put_cell _ _ _ _ = Ok _ |- _ => apply put_cell_style in H
    | H : clear_wide_overlap _ _ _ = Ok _ |- _ => apply overlap_style in H
    | H : line_feed _ = Ok _ |- _ => apply line_feed_style in H
    | H : insert_blanks_at_cursor _ _ = Ok _ |- _ => apply insert_blanks_style in H
    | H : advance_cursor _ _ _ = Ok _ |- _ => apply advance_style in H
    end; simpl in *; congruence.
Qed.
