(* ===== verification/Keys.v ===== *)
(** * Keys: from a key press to the bytes of a terminal

    [src/ratatui_node/logical_key.rs]: the key the user interface sends, and
    its conversion from the key events of the [crossterm] crate.
    [src/ratatui_node/key_translation.rs]: the bytes the node writes to a
    pseudo terminal for it. *)

From S2P Require Import Prelude Bytes Utf8.

(** ** Logical keys *)

Inductive KeyCode :=
| Char (c : char) | F (n : Z)
| Up | Down | Left | Right | Home | End_ | PageUp | PageDown | Insert | Delete
| Enter | Backspace | Tab | BackTab | Esc | Null
| Unsupported (label : string).

#[global] Instance KeyCode_eq_dec : EqDecision KeyCode.
Proof. solve_decision. Defined.

Record KeyModifiers := mkKeyModifiers {
  shift : bool; control : bool; alt : bool; super_key : bool; hyper : bool; meta : bool }.

#[global] Instance KeyModifiers_eq_dec : EqDecision KeyModifiers.
Proof. solve_decision. Defined.

Definition no_modifiers : KeyModifiers := mkKeyModifiers false false false false false false.

Record LogicalKey := mkLogicalKey { code : KeyCode; modifiers : KeyModifiers }.

#[global] Instance LogicalKey_eq_dec : EqDecision LogicalKey.
Proof. solve_decision. Defined.

(** *** The events of the terminal library

    The key codes and the modifier bits of [crossterm]; the name a media or
    modifier key is printed with is part of the constructor. *)

Module Crossterm.

Inductive KeyCode :=
| Backspace | Enter | Left | Right | Up | Down | Home | End_ | PageUp | PageDown
| Tab | BackTab | Delete | Insert | F (n : Z) | Char (c : char) | Null | Esc
| CapsLock | ScrollLock | NumLock | PrintScreen | Pause | Menu | KeypadBegin
| Media (name : string) | Modifier (name : string).

Definition SHIFT : Z := 1.
Definition CONTROL : Z := 2.
Definition ALT : Z := 4.
Definition SUPER : Z := 8.
Definition HYPER : Z := 16.
Definition META : Z := 32.

Definition contains (bits flag : Z) : bool := Z.land bits flag =? flag.

End Crossterm.

Definition from_key_code (c : Crossterm.KeyCode) : KeyCode :=
  match c with
  | Crossterm.Backspace => Backspace
  | Crossterm.Enter => Enter
  | Crossterm.Left => Left
  | Crossterm.Right => Right
  | Crossterm.Up => Up
  | Crossterm.Down => Down
  | Crossterm.Home => Home
  | Crossterm.End_ => End_
  | Crossterm.PageUp => PageUp
  | Crossterm.PageDown => PageDown
  | Crossterm.Tab => Tab
  | Crossterm.BackTab => BackTab
  | Crossterm.Delete => Delete
  | Crossterm.Insert => Insert
  | Crossterm.F n => F n
  | Crossterm.Char ch => Char ch
  | Crossterm.Null => Null
  | Crossterm.Esc => Esc
  | Crossterm.CapsLock => Unsupported "CapsLock"
  | Crossterm.ScrollLock => Unsupported "ScrollLock"
  | Crossterm.NumLock => Unsupported "NumLock"
  | Crossterm.PrintScreen => Unsupported "PrintScreen"
  | Crossterm.Pause => Unsupported "Pause"
  | Crossterm.Menu => Unsupported "Menu"
  | Crossterm.KeypadBegin => Unsupported "KeypadBegin"
  | Crossterm.Media name => Unsupported ("Media:" +:+ name)%string
  | Crossterm.Modifier name => Unsupported ("Modifier:" +:+ name)%string
  end.

Definition from_modifiers (bits : Z) : KeyModifiers :=
  mkKeyModifiers (Crossterm.contains bits Crossterm.SHIFT) (Crossterm.contains bits Crossterm.CONTROL)
    (Crossterm.contains bits Crossterm.ALT) (Crossterm.contains bits Crossterm.SUPER)
    (Crossterm.contains bits Crossterm.HYPER) (Crossterm.contains bits Crossterm.META).

Definition from_key_event (c : Crossterm.KeyCode) (bits : Z) : LogicalKey :=
  mkLogicalKey (from_key_code c) (from_modifiers bits).

(** ** Translation *)

Record KeyTranslationMode := mkKeyTranslationMode {
  application_cursor_keys : bool;
  application_keypad : bool }.

Definition normal_mode : KeyTranslationMode := mkKeyTranslationMode false false.

Definition between (lo hi c : Z) : bool := (lo <=? c) && (c <=? hi).

(** The characters are given by their codes: letters, then
    ['\x20' '\\' '[' ']' '^' '_' '?' '@']. *)
Definition char_to_control_byte (c : char) : option byte :=
  if between 97 122 c then Some (byte_of (c - 97 + 1))
  else if between 65 90 c then Some (byte_of (c - 65 + 1))
  else if c =? 32 then Some x00
  else if c =? 92 then Some x1c
  else if c =? 91 then Some x1b
  else if c =? 93 then Some x1d
  else if c =? 94 then Some x1e
  else if c =? 95 then Some x1f
  else if c =? 63 then Some x7f
  else if c =? 64 then Some x00
  else None.

Definition translate_char (c : char) (m : KeyModifiers) : list byte :=
  (if alt m then [x1b] else []) ++
  match (if control m then char_to_control_byte c else None) with
  | Some ctrl => [ctrl]
  | None => utf8_encode c
  end.

Definition f_sequence_prefix (n : Z) : list byte :=
  as_bytes
    (if n =? 5 then "15" else if n =? 6 then "17" else if n =? 7 then "18" else if n =? 8 then "19"
     else if n =? 9 then "20" else if n =? 10 then "21" else if n =? 11 then "23"
     else if n =? 12 then "24" else EmptyString).

Definition translate_f (n : Z) : list byte :=
  if n =? 1 then [x1b; x4f; x50]
  else if n =? 2 then [x1b; x4f; x51]
  else if n =? 3 then [x1b; x4f; x52]
  else if n =? 4 then [x1b; x4f; x53]
  else if between 5 12 n then [x1b; x5b] ++ f_sequence_prefix n ++ [x7e]
  else [].

Definition cursor_or_ss3 (final_byte : byte) (application : bool) : list byte :=
  if application then [x1b; x4f; final_byte] else [x1b; x5b; final_byte].

Definition csi (final_byte : byte) (prefix : option byte) : list byte :=
  [x1b; x5b] ++ match prefix with Some p => [p] | None => [] end ++ [final_byte].

Definition translate_key (key : LogicalKey) (mode : KeyTranslationMode) : list byte :=
  let app := application_cursor_keys mode in
  match code key with
  | Char c => translate_char c (modifiers key)
  | F n => translate_f n
  | Up => cursor_or_ss3 x41 app
  | Down => cursor_or_ss3 x42 app
  | Right => cursor_or_ss3 x43 app
  | Left => cursor_or_ss3 x44 app
  | Home => cursor_or_ss3 x48 app
  | End_ => cursor_or_ss3 x46 app
  | PageUp => csi x7e (Some x35)
  | PageDown => csi x7e (Some x36)
  | Insert => csi x7e (Some x32)
  | Delete => csi x7e (Some x33)
  | Enter => [x0d]
  | Backspace => [x7f]
  | Tab => if shift (modifiers key) then [x1b; x5b; x5a] else [x09]
  | BackTab => [x1b; x5b; x5a]
  | Esc => [x1b]
  | Null => [x00]
  | Unsupported _ => []
  end.

(** ** Properties *)

(** A key of the keyboard that has a translation: printable characters, the
    first twelve function keys and the named keys. *)
Definition mapped (c : KeyCode) : Prop :=
  match c with
  | Char ch => scalar ch /\ is_control ch = false
  | F n => 1 <= n <= 12
  | Unsupported _ => False
  | _ => True
  end.

#[global] Instance mapped_dec c : Decision (mapped c).
Proof. destruct c; simpl; apply _. Defined.

Lemma utf8_encode_inj a b : scalar a -> scalar b -> utf8_encode a = utf8_encode b -> a = b.
Proof.
  intros Ha Hb E.
  assert (D : forall ch, scalar ch -> decode_utf8_chars (utf8_encode ch) [] = ([ch], [])).
  { intros ch Hs. rewrite <-(app_nil_r (utf8_encode ch)). apply (decode_encode_text [ch]).
    constructor; [exact Hs|constructor]. }
  pose proof (D a Ha) as E1. rewrite E, (D b Hb) in E1. by injection E1.
Qed.

(** The first byte of a printable character is not one a named key starts
    with. *)
Lemma printable_head ch : scalar ch -> is_control ch = false ->
  exists b rest, utf8_encode ch = b :: rest /\ 32 <= byte_val b /\ byte_val b <> 127.
Proof.
  unfold scalar, is_control, utf8_encode. intros Hs Hc.
  repeat case_match; eexists _, _; (split; [reflexivity|]);
    rewrite byte_val_small by (pose proof (Z.div_pos ch 64); pose proof (Z.div_pos ch 4096);
      pose proof (Z.div_lt_upper_bound ch 64 32); pose proof (Z.div_lt_upper_bound ch 4096 16);
      pose proof (Z.div_lt_upper_bound ch 262144 5); pose proof (Z.div_pos ch 262144); lia);
    pose proof (Z.div_pos ch 64); pose proof (Z.div_pos ch 4096); pose proof (Z.div_pos ch 262144); lia.
Qed.

(** The keys that are not characters, and their bytes without modifiers. *)
Definition named_keys : list KeyCode :=
  (F <$> seqZ 1 12) ++
  [Up; Down; Left; Right; Home; End_; PageUp; PageDown; Insert; Delete; Enter; Backspace; Tab; BackTab;
   Esc; Null].

Definition plain_bytes (app : bool) (c : KeyCode) : list byte :=
  translate_key (mkLogicalKey c no_modifiers) (mkKeyTranslationMode app false).

Definition starts_named (bs : list byte) : bool :=
  match bs with b :: _ => (byte_val b <? 32) || (byte_val b =? 127) | [] => false end.

Lemma named_keys_all c : mapped c -> (exists ch, c = Char ch) \/ c ∈ named_keys.
Proof.
  destruct c; simpl; intros Hm; try tauto; [by eauto|right..];
    unfold named_keys; apply elem_of_app; [left|right; set_solver..].
  apply list_elem_of_fmap. exists n. split; [done|]. apply elem_of_seqZ. lia.
Qed.

Lemma named_keys_start app c : c ∈ named_keys -> starts_named (plain_bytes app c) = true.
Proof.
  assert (D : forallb (fun c => starts_named (plain_bytes app c)) named_keys = true)
    by (destruct app; vm_compute; reflexivity).
  intros Hc. rewrite forallb_forall in D. by apply D, list_elem_of_In.
Qed.

Lemma named_keys_distinct app : forall a b, a ∈ named_keys -> b ∈ named_keys ->
  plain_bytes app a = plain_bytes app b -> a = b.
Proof.
  assert (D : forallb (fun a => forallb (fun b =>
    negb (bool_decide (plain_bytes app a = plain_bytes app b)) || bool_decide (a = b)) named_keys)
    named_keys = true) by (destruct app; vm_compute; reflexivity).
  intros a b Ha Hb E. rewrite forallb_forall in D.
  specialize (D a (proj1 (list_elem_of_In _ _) Ha)). rewrite forallb_forall in D.
  specialize (D b (proj1 (list_elem_of_In _ _) Hb)).
  rewrite (bool_decide_eq_true_2 _ E) in D. by apply bool_decide_eq_true in D.
Qed.

Lemma printable_not_named ch bs : scalar ch -> is_control ch = false -> starts_named bs = true ->
  utf8_encode ch <> bs.
Proof.
  intros Hs Hc Hn E. destruct (printable_head ch Hs Hc) as (b & rest & E' & Hb & Hd).
  rewrite E' in E. subst bs. simpl in Hn. lia.
Qed.

(** Two different keys are never written as the same bytes: without
    modifiers, and in either cursor-key mode, the bytes of a printable
    character, of one of the first twelve function keys or of a named key
    determine the key. *)
Theorem keys_are_distinct mode a b :
  mapped a -> mapped b ->
  translate_key (mkLogicalKey a no_modifiers) mode = translate_key (mkLogicalKey b no_modifiers) mode ->
  a = b.
Proof.
  intros Ha Hb E. destruct mode as [app kp].
  change (plain_bytes app a = plain_bytes app b) in E.
  destruct (named_keys_all a Ha) as [[ca ->]|Na], (named_keys_all b Hb) as [[cb ->]|Nb].
  - destruct Ha, Hb. f_equal. by apply utf8_encode_inj.
  - destruct Ha as [Hs Hc]. by destruct (printable_not_named ca _ Hs Hc (named_keys_start app b Nb)).
  - destruct Hb as [Hs Hc]. by destruct (printable_not_named cb _ Hs Hc (named_keys_start app a Na)).
  - by apply (named_keys_distinct app).
Qed.

Lemma keys_are_distinct_witness :
  translate_key (mkLogicalKey (F 5) no_modifiers) normal_mode =
    translate_key (mkLogicalKey (F 5) no_modifiers) normal_mode /\ F 5 = F 5.
Proof. split; [reflexivity|apply (keys_are_distinct normal_mode); [simpl; lia|simpl; lia|reflexivity]]. Defined.

(** [KeyCode::F] is documented as F1 to F24; those after F12 are written as
    nothing, so they are lost. *)
Lemma late_function_keys_are_lost n mods mode : 12 < n -> translate_key (mkLogicalKey (F n) mods) mode = [].
Proof.
  intros Hn. unfold translate_key, translate_f, between. simpl. repeat case_match; try lia; done.
Qed.

(** Modifiers other than those of a character and Shift-Tab are dropped:
    Alt-Enter and Control-Left reach the program as Enter and Left. *)
Lemma modifiers_of_named_keys_are_lost c m mode :
  (forall ch, c <> Char ch) -> c <> Tab ->
  translate_key (mkLogicalKey c m) mode = translate_key (mkLogicalKey c no_modifiers) mode.
Proof. intros Hc Ht. destruct c; try done. by destruct (Hc c). Qed.
