(* ===== verification/Numbers.v ===== *)
(** * Numbers: printing and parsing are inverse

    [format!] of an unsigned integer and [str::parse] of what it printed. *)

From S2P Require Import Prelude Bytes Utf8 Str.
From stdpp Require Import pretty.

#[local] Open Scope Z_scope.

Lemma digit_code x : (x < 10)%N -> byte_val (Ascii.byte_of_ascii (pretty_N_char x)) = 48 + Z.of_N x.
Proof. intros Hx. do 10 (destruct x as [|x] using N.peano_ind; [reflexivity|clear IHx]). lia. Qed.

Lemma lit_cons c s : lit (String c s) = byte_val (Ascii.byte_of_ascii c) :: lit s.
Proof. done. Qed.

(** The digits of [x] in front of [s], read from zero. *)
Lemma parse_pretty_go w x s : fits w (Z.of_N x) -> (0 < x)%N ->
  parse_digits w 0 (lit (pretty_N_go x s)) = parse_digits w (Z.of_N x) (lit s).
Proof.
  revert s. induction (N.lt_wf_0 x) as [x _ IH]. intros s Hf Hx.
  rewrite pretty_N_go_step by lia.
  assert (Hd : (x `mod` 10 < 10)%N) by (apply N.mod_lt; lia).
  assert (Ex : Z.of_N x = 10 * Z.of_N (x `div` 10) + Z.of_N (x `mod` 10)).
  { rewrite N2Z.inj_div, N2Z.inj_mod. simpl. apply Z.div_mod. lia. }
  assert (Hstep : forall acc, acc = Z.of_N (x `div` 10) ->
    parse_digits w acc (lit (String (pretty_N_char (x `mod` 10)) s)) = parse_digits w (Z.of_N x) (lit s)).
  { intros acc ->. rewrite lit_cons. cbn [parse_digits]. rewrite digit_code by done. unfold is_ascii_digit.
    assert (Hm : 0 <= Z.of_N (x `mod` 10) < 10) by (clear -Hd; revert Hd; generalize (x `mod` 10)%N; lia). rewrite Ex in Hf |- *.
    generalize dependent (Z.of_N (x `mod` 10)). generalize (Z.of_N (x `div` 10)). intros q m Hf _ Hm.
    replace (10 * q + (48 + m - 48)) with (10 * q + m) by lia. unfold fits in Hf.
    rewrite (proj2 (Z.leb_le 48 (48 + m))) by lia. rewrite (proj2 (Z.leb_le (48 + m) 57)) by lia.
    simpl. rewrite (proj2 (Z.ltb_lt _ _)) by lia. done. }
  destruct (decide (x `div` 10 = 0)%N) as [E|E].
  - rewrite E. rewrite pretty_N_go_0. apply Hstep. by rewrite E.
  - rewrite IH; [by apply Hstep|apply N.div_lt; lia| |lia]. unfold fits in *.
    revert Ex. generalize (x `div` 10)%N, (x `mod` 10)%N. lia.
Qed.

Lemma lit_pretty_go x s : (0 < x)%N -> exists d r, lit (pretty_N_go x s) = d :: r /\ 48 <= d <= 57.
Proof.
  revert s. induction (N.lt_wf_0 x) as [x _ IH]. intros s Hx. rewrite pretty_N_go_step by lia.
  assert (Hd : (x `mod` 10 < 10)%N) by (apply N.mod_lt; lia).
  destruct (decide (x `div` 10 = 0)%N) as [E|E].
  - rewrite E, pretty_N_go_0, lit_cons, digit_code by done. eexists _, _. split; [done|].
    clear -Hd. revert Hd. generalize (x `mod` 10)%N. lia.
  - apply IH; [apply N.div_lt; lia|by apply N.neq_0_lt_0].
Qed.

(** A leading digit is not a sign. *)
Lemma parse_uint_digit w d r : 48 <= d <= 57 -> parse_uint w (d :: r) = parse_digits w 0 (d :: r).
Proof.
  intros Hd. assert (d = 48 \/ d = 49 \/ d = 50 \/ d = 51 \/ d = 52 \/ d = 53 \/ d = 54 \/ d = 55 \/ d = 56 \/ d = 57)
    as Hc by lia. by destruct_or! Hc; subst d.
Qed.

(** What is printed for a number that fits is read back as that number. *)
Lemma parse_uint_pretty w z : fits w z -> parse_uint w (lit (pretty z)) = Some z.
Proof.
  intros Hf. destruct z as [|p|p]; [|change (pretty (Z.pos p)) with (pretty (N.pos p))|unfold fits in Hf; lia].
  - unfold fits in Hf. change (lit (pretty 0)) with [48]. unfold parse_uint. cbn [parse_digits].
    change (10 * 0 + (48 - 48)) with 0. by rewrite (proj2 (Z.ltb_lt 0 (2 ^ w))) by lia.
  - unfold pretty, pretty_N. rewrite decide_False by lia.
    destruct (lit_pretty_go (N.pos p) EmptyString) as (d & r & E & Hd); [lia|].
    pose proof (parse_pretty_go w (N.pos p) EmptyString Hf) as Hp. rewrite E in *.
    rewrite parse_uint_digit, Hp by lia. done.
Qed.
