(* ===== verification/Decimal.v ===== *)
(** * Decimal: the strings the messages are named with

    Identifiers and time stamps are built with [format!] from strings and
    numbers. A number in decimal is ASCII and has at most twenty digits below
    [2^64]; strings stay UTF-8 when they are put together. *)

From S2P Require Import Prelude Bytes.
From stdpp Require Import pretty.
#[local] Open Scope Z_scope.

Lemma as_bytes_app s t : as_bytes (s +:+ t)%string = as_bytes s ++ as_bytes t.
Proof.
  unfold as_bytes, String.list_byte_of_string. rewrite <- List.map_app. f_equal.
  induction s as [|c s IH]; simpl; [done|]. f_equal. exact IH.
Qed.

Lemma str_len_app s t : str_len (s +:+ t)%string = str_len s + str_len t.
Proof. unfold str_len. by rewrite as_bytes_app, len_app. Qed.

Lemma utf8_valid_cons b1 r1 :
  utf8_valid (b1 :: r1) =
  if byte_val b1 <? 128 then utf8_valid r1
  else match r1 with
  | [] => false
  | b2 :: r2 =>
      if in_range 0xC2 0xDF b1 then is_cont b2 && utf8_valid r2
      else match r2 with
      | [] => false
      | b3 :: r3 =>
          if in_range 0xE0 0xEF b1
          then utf8_second_of_3 b1 b2 && is_cont b3 && utf8_valid r3
          else match r3 with
          | [] => false
          | b4 :: r4 =>
              utf8_second_of_4 b1 b2 && is_cont b3 && is_cont b4 && utf8_valid r4
          end
      end
  end.
Proof. done. Qed.

Lemma utf8_valid_app a b : utf8_valid a = true -> utf8_valid b = true -> utf8_valid (a ++ b) = true.
Proof.
  intros Ha Hb. remember (length a) as n eqn:Hn. revert a Hn Ha.
  induction n as [n IH] using (well_founded_induction lt_wf). intros a -> Ha.
  destruct a as [|b1 r1]; [done|]. cbn [app]. rewrite utf8_valid_cons in Ha |- *.
  destruct (byte_val b1 <? 128); [eapply IH; [|done|done]; simpl; lia|].
  destruct r1 as [|b2 r2]; [done|]. cbn [app]. destruct (in_range 0xC2 0xDF b1).
  { apply andb_prop in Ha as [-> Ha]. eapply IH; [|done|done]; simpl; lia. }
  destruct r2 as [|b3 r3]; [done|]. cbn [app]. destruct (in_range 0xE0 0xEF b1).
  { apply andb_prop in Ha as [-> Ha]. eapply IH; [|done|done]; simpl; lia. }
  destruct r3 as [|b4 r4]; [done|]. cbn [app].
  apply andb_prop in Ha as [-> Ha]. eapply IH; [|done|done]; simpl; lia.
Qed.

Lemma rust_string_app s t : rust_string s -> rust_string t -> rust_string (s +:+ t)%string.
Proof. unfold rust_string. rewrite as_bytes_app. apply utf8_valid_app. Qed.

(** [s] is ASCII and has at most [n] characters. *)
Definition short_ascii (n : Z) (s : string) : Prop :=
  Forall (fun b => byte_val b < 128) (as_bytes s) /\ str_len s <= n.

Lemma ascii_utf8 bs : Forall (fun b => byte_val b < 128) bs -> utf8_valid bs = true.
Proof.
  induction 1 as [|b bs Hb Hbs IH]; [done|]. rewrite utf8_valid_cons.
  by rewrite (proj2 (Z.ltb_lt _ _) Hb).
Qed.

Lemma short_ascii_string n s : short_ascii n s -> rust_string s /\ str_len s <= n.
Proof. intros [Ha Hn]. split; [by apply ascii_utf8|done]. Qed.

Lemma digit_ascii x : byte_val (Ascii.byte_of_ascii (pretty_N_char x)) < 128.
Proof. unfold pretty_N_char. by repeat case_match. Qed.

Lemma pretty_go_short k x s n :
  (x < 10 ^ N.of_nat k)%N -> short_ascii n s -> short_ascii (n + Z.of_nat k) (pretty_N_go x s).
Proof.
  revert x s n. induction k as [|k IH]; intros x s n Hx Hs.
  - assert (x = 0%N) as -> by (simpl in Hx; lia). rewrite pretty_N_go_0. by rewrite Z.add_0_r.
  - destruct (decide (x = 0%N)) as [->|Hne].
    { rewrite pretty_N_go_0. destruct Hs. split; [done|lia]. }
    rewrite pretty_N_go_step by lia.
    replace (n + Z.of_nat (S k)) with ((n + 1) + Z.of_nat k) by lia. apply IH.
    + apply N.Div0.div_lt_upper_bound. rewrite <- N.pow_succ_r'. by rewrite <- Nat2N.inj_succ.
    + destruct Hs as [Ha Hl]. split.
      * unfold as_bytes, String.list_byte_of_string. simpl. constructor; [apply digit_ascii|exact Ha].
      * unfold str_len, as_bytes, String.list_byte_of_string, len in *. simpl. lia.
Qed.

Lemma pretty_short z : fits 64 z -> rust_string (pretty z) /\ 0 < str_len (pretty z) <= 20.
Proof.
  intros [H0 Hz]. destruct z as [|p|p]; [by vm_compute|idtac|lia].
  assert (Hp : short_ascii 20 (pretty (Z.pos p))).
  { unfold pretty, pretty_Z, pretty, pretty_positive, pretty, pretty_N.
    destruct (decide (N.pos p = 0%N)); [lia|].
    apply (pretty_go_short 20 _ EmptyString 0); [|split; [constructor|by vm_compute]].
    assert ((10 ^ N.of_nat 20 = 100000000000000000000)%N) as -> by reflexivity. lia. }
  destruct (short_ascii_string _ _ Hp) as [Hs Hl]. split; [done|]. split; [|done].
  destruct (pretty (Z.pos p)) as [|c s] eqn:E; [|unfold str_len, len; simpl; lia].
  exfalso. assert (E0 : pretty (Z.pos p) = pretty_N_go (N.pos p) EmptyString) by done.
  rewrite E0 in E. clear -E. assert (Hl : forall x s, (String.length s <= String.length (pretty_N_go x s))%nat).
  { intros x. induction (N.lt_wf_0 x) as [x _ IH]. intros s.
    destruct (decide (x = 0%N)) as [->|]; [by rewrite pretty_N_go_0|].
    rewrite pretty_N_go_step by lia. etrans; [|apply IH, N.div_lt; lia]. simpl. lia. }
  rewrite pretty_N_go_step in E by lia.
  specialize (Hl (N.pos p / 10)%N (String (pretty_N_char (N.pos p mod 10)) EmptyString)).
  rewrite E in Hl. simpl in Hl. lia.
Qed.
