(* ===== verification/SessionCatalog.v ===== *)
(** * Session catalog: the addresses and records of managed sessions

    [src/domain/session_catalog.rs] and [WorkspaceSessionRole] of
    [src/domain/workspace.rs]: how a session is addressed, named and
    displayed, and the words its state is written with. Paths are strings. *)

From S2P Require Import Prelude Bytes Text.
From Stdlib Require Import Strings.Ascii.
From stdpp Require Import pretty.

(** ** Addresses *)

Inductive SessionTransport := Local | RemotePeer.

#[global] Instance SessionTransport_eq_dec : EqDecision SessionTransport.
Proof. solve_decision. Defined.

Definition stable_prefix (t : SessionTransport) : string :=
  match t with Local => "local" | RemotePeer => "remote-peer" end.

(** The inner string of a [TargetId]. *)
Definition for_transport (t : SessionTransport) (authority_id session_id : string) : string :=
  (stable_prefix t +:+ ":" +:+ authority_id +:+ ":" +:+ session_id)%string.

Record ManagedSessionAddress := mkManagedSessionAddress {
  address_id : string;
  address_transport : SessionTransport;
  authority_id : string;
  session_id : string }.

#[global] Instance ManagedSessionAddress_eq_dec : EqDecision ManagedSessionAddress.
Proof. solve_decision. Defined.

Definition local (server_id session_id : string) : ManagedSessionAddress :=
  mkManagedSessionAddress (for_transport Local server_id session_id) Local server_id session_id.

Definition remote_peer (authority_id session_id : string) : ManagedSessionAddress :=
  mkManagedSessionAddress (for_transport RemotePeer authority_id session_id) RemotePeer
    authority_id session_id.

Definition server_id (a : ManagedSessionAddress) : string := authority_id a.

Definition qualified_target (a : ManagedSessionAddress) : string :=
  (authority_id a +:+ ":" +:+ session_id a)%string.

(** The part of [s] before the first [c], if [c] occurs. *)
Fixpoint before_char (c : Ascii.ascii) (s : string) : option string :=
  match s with
  | EmptyString => None
  | String.String d rest =>
      if decide (d = c) then Some EmptyString
      else match before_char c rest with
           | Some t => Some (String.String d t)
           | None => None
           end
  end.

(** [str::strip_prefix]. *)
Definition strip_str_prefix (p s : string) : option string :=
  if starts_with p s
  then Some (String.substring (String.length p) (String.length s - String.length p) s)
  else None.

Definition display_authority_id (a : ManagedSessionAddress) : string :=
  default (authority_id a) (before_char "#"%char (authority_id a)).

Definition display_session_id (a : ManagedSessionAddress) : string :=
  default (session_id a) (strip_str_prefix "waitagent-" (session_id a)).

(** ** States and roles *)

Inductive ManagedSessionTaskState := Running | Input | Confirm | TaskUnknown.

Definition task_state_as_str (s : ManagedSessionTaskState) : string :=
  match s with
  | Running => "running" | Input => "input" | Confirm => "confirm" | TaskUnknown => "unknown"
  end.

Definition task_state_parse (value : string) : option ManagedSessionTaskState :=
  if decide (value = "running"%string) then Some Running
  else if decide (value = "input"%string) then Some Input
  else if decide (value = "confirm"%string) then Some Confirm
  else if decide (value = "unknown"%string) then Some TaskUnknown
  else None.

Inductive SessionAvailability := Online | Offline | Exited | AvailabilityUnknown.

Definition availability_as_str (s : SessionAvailability) : string :=
  match s with
  | Online => "online" | Offline => "offline" | Exited => "exited"
  | AvailabilityUnknown => "unknown"
  end.

Definition availability_parse (value : string) : option SessionAvailability :=
  if decide (value = "online"%string) then Some Online
  else if decide (value = "offline"%string) then Some Offline
  else if decide (value = "exited"%string) then Some Exited
  else if decide (value = "unknown"%string) then Some AvailabilityUnknown
  else None.

Inductive WorkspaceSessionRole := WorkspaceChrome | TargetHost.

#[global] Instance WorkspaceSessionRole_eq_dec : EqDecision WorkspaceSessionRole.
Proof. solve_decision. Defined.

Definition role_as_str (r : WorkspaceSessionRole) : string :=
  match r with WorkspaceChrome => "workspace-chrome" | TargetHost => "target-host" end.

Definition role_parse (value : string) : option WorkspaceSessionRole :=
  if decide (value = "workspace-chrome"%string) then Some WorkspaceChrome
  else if decide (value = "target-host"%string) then Some TargetHost
  else None.

Inductive ConsoleLocation := LocalWorkspace | ServerConsole.

#[global] Instance ConsoleLocation_eq_dec : EqDecision ConsoleLocation.
Proof. solve_decision. Defined.

Record ConsoleAttachment := mkConsoleAttachment {
  ca_console_id : string;
  ca_location : ConsoleLocation;
  ca_has_pty_resize_authority : bool }.

(** ** Records *)

Record ManagedSessionRecord := mkManagedSessionRecord {
  address : ManagedSessionAddress;
  selector : option string;
  availability : SessionAvailability;
  workspace_dir : option string;
  workspace_key : option string;
  session_role : option WorkspaceSessionRole;
  opened_by : list ConsoleAttachment;
  attached_clients : Z;
  window_count : Z;
  command_name : option string;
  display_command_name : option string;
  agent_command_name : option string;
  current_path : option string;
  task_state : ManagedSessionTaskState }.

Definition session_instance_id (r : ManagedSessionRecord) : string := session_id (address r).

Definition is_workspace_chrome (r : ManagedSessionRecord) : bool :=
  bool_decide (session_role r = Some WorkspaceChrome).

Definition is_target_host (r : ManagedSessionRecord) : bool :=
  bool_decide (session_role r = Some TargetHost).

Definition is_workspace_session (r : ManagedSessionRecord) : bool :=
  match session_role r with Some (WorkspaceChrome | TargetHost) => true | _ => false end.

Definition matches_target (r : ManagedSessionRecord) (value : string) : bool :=
  let a := address r in
  bool_decide (value = address_id a)
  || bool_decide (selector r = Some value)
  || bool_decide (value = display_session_id a)
  || bool_decide (value = session_id a)
  || bool_decide (value = authority_id a)
  || bool_decide (value = display_authority_id a)
  || bool_decide (value = server_id a)
  || bool_decide (value = qualified_target a)
  || bool_decide (value = (display_authority_id a +:+ ":" +:+ session_id a)%string)
  || bool_decide (value = (display_authority_id a +:+ ":" +:+ display_session_id a)%string)
  || bool_decide (value = (server_id a +:+ ":" +:+ display_session_id a)%string).

Definition display_scope (r : ManagedSessionRecord) : string :=
  match address_transport (address r) with
  | Local => if is_workspace_chrome r then "local [main]" else "local"
  | RemotePeer =>
      (display_authority_id (address r) +:+ ":" +:+ display_session_id (address r))%string
  end.

Definition display_label (r : ManagedSessionRecord) : string :=
  (default "bash" (match display_command_name r with
                   | Some name => Some name
                   | None => command_name r
                   end) +:+ "@" +:+ display_scope r)%string.

Definition summary_line (r : ManagedSessionRecord) : string :=
  let role_tag :=
    if is_workspace_chrome r then " [main]"%string
    else if is_target_host r then " [target]"%string else EmptyString in
  (display_session_id (address r) +:+ ": " +:+ pretty (window_count r) +:+ " windows ("
     +:+ (if (0 <? attached_clients r)%Z then "attached" else "detached") +:+ ")"
     +:+ role_tag)%string.

(** ** The words of states are read back *)

Lemma task_state_round_trip s : task_state_parse (task_state_as_str s) = Some s.
Proof. by destruct s. Qed.

Lemma task_state_parse_Some w s : task_state_parse w = Some s -> w = task_state_as_str s.
Proof. unfold task_state_parse. intros. by repeat case_decide; simplify_eq. Qed.

Lemma availability_round_trip s : availability_parse (availability_as_str s) = Some s.
Proof. by destruct s. Qed.

Lemma role_round_trip r : role_parse (role_as_str r) = Some r.
Proof. by destruct r. Qed.
