(* ===== verification/AgentDetector.v ===== *)
(** * AgentDetector: which agent runs in a session, and what it waits for

    [src/domain/agent_detector.rs] and its detectors: the registry asks each
    detector, in priority order, whether a process is its agent and what the
    text of the pane says about the agent's task. A JSON payload of a hook is
    a value of [serde_json]; the class [JsonValue] holds the three accessors
    the detectors call. *)

From S2P Require Import Prelude Bytes Utf8 Str SessionCatalog.

(** [serde_json::Value]: member access, strings, and the compact text. *)
Class JsonValue := {
  Value : Type;
  value_get : Value -> text -> option Value;
  value_as_str : Value -> option text;
  value_to_string : Value -> text;
}.

Inductive InputStabilityPolicy := Immediate | StableContent.

Inductive AgentStateEffect := SetState (state : ManagedSessionTaskState) | Clear.

#[global] Instance task_state_eq_dec : EqDecision ManagedSessionTaskState.
Proof. solve_decision. Defined.

Definition SHELL_NAMES : list text := [utf8 "bash"; utf8 "zsh"; utf8 "fish"; utf8 "sh"].

(** [slice::contains] on strings. *)
Definition contains_text (names : list text) (t : text) : bool := bool_decide (t ∈ names).

Definition first_argv_token (argv0 : text) : text :=
  let base := default argv0 (last (split_by (Z.eqb 47) argv0)) in
  default base (head (split_whitespace base)).

(** The arguments after [argv[0]]: [-c] takes its value with it. *)
Fixpoint script_arg (args : list text) : option text :=
  match args with
  | [] => None
  | arg :: rest =>
      if bool_decide (arg = utf8 "-c") then
        match rest with
        | _ :: rest' => script_arg rest'
        | [] => None
        end
      else if str_starts_with (utf8 "-") arg then script_arg rest
      else Some arg
  end.

Definition shell_script_arg (argv : list text) : option text := script_arg (drop 1 argv).

(** [pane_text.lines().map(str::trim).filter(|line| !line.is_empty())] *)
Definition normalized_lines (pane_text : text) : list text :=
  List.filter nonempty (map str_trim (lines pane_text)).

(** ** The shared scanner ([agent_detector_common.rs]) *)

Record AgentKeywords := mkAgentKeywords {
  confirm_phrases : list text;
  input_phrases : list text;
  prompt_chars : list char;
  input_window : option nat;
}.

Definition looks_like_prompt (line : text) (prompt_chars : list char) : bool :=
  existsb (fun ch => str_starts_with [ch] (trim_start line)) prompt_chars.

Fixpoint strip_first_prompt (chars : list char) (trimmed : text) : text :=
  match chars with
  | [] => trimmed
  | ch :: chars' =>
      match strip_prefix [ch] trimmed with
      | Some rest => rest
      | None => strip_first_prompt chars' trimmed
      end
  end.

Definition prompt_body (line : text) (prompt_chars : list char) : text :=
  strip_first_prompt prompt_chars (trim_start line).

Definition contains_any (phrases : list text) (t : text) : bool :=
  existsb (fun phrase => str_contains phrase t) phrases.

Definition ends_with_any (endings : list text) (t : text) : bool :=
  existsb (fun ending => str_ends_with ending t) endings.

(** A line that begins with [?] above an empty prompt. *)
Definition question_dialog (keywords : AgentKeywords) (line : text) (rest : list text) : bool :=
  str_starts_with (utf8 "?") (trim_start line)
  && match rest with
     | next :: _ =>
         looks_like_prompt next (prompt_chars keywords)
         && negb (nonempty (str_trim (prompt_body next (prompt_chars keywords))))
     | [] => false
     end.

Fixpoint detect_confirm_from_lines (lines : list text) (keywords : AgentKeywords) :
    option ManagedSessionTaskState :=
  match lines with
  | [] => None
  | line :: rest =>
      let lc := to_ascii_lowercase line in
      if contains_any (confirm_phrases keywords) lc then Some Confirm
      else if ends_with_any [utf8 "[y/n]"; utf8 "(y/n)"] (str_trim lc) then Some Confirm
      else if question_dialog keywords line rest then Some Confirm
      else detect_confirm_from_lines rest keywords
  end.

Definition detect_input_from_lines (lines : list text) (keywords : AgentKeywords) :
    option ManagedSessionTaskState :=
  let window := default (length lines) (input_window keywords) in
  let start := (length lines - window)%nat in
  if existsb (fun line => looks_like_prompt line (prompt_chars keywords)) (drop start lines)
  then Some Input
  else match last lines with
       | Some l =>
           if contains_any (input_phrases keywords) (to_ascii_lowercase l)
              || str_starts_with (utf8 "> ") l
           then Some Input else None
       | None => None
       end.

Definition is_user_question_tool `{JsonValue} (payload : Value) (question_tool_names : list text) : bool :=
  match value_get payload (utf8 "tool_name") ≫= value_as_str with
  | Some name => contains_text question_tool_names name
  | None => false
  end.

(** The base names [Path::new(arg).file_name().and_then(OsStr::to_str)] of an
    argument is one of [names]. *)
Definition base_name_in (names : list text) (arg : text) : bool :=
  match file_name arg with Some n => contains_text names n | None => false end.

(** How Claude and Codex look for themselves in an argument vector. *)
Definition argv_names_agent (agent script : text) (argv : list text) : bool :=
  match argv with
  | [] => false
  | arg0 :: args => base_name_in [agent] arg0 || existsb (base_name_in [agent; script]) args
  end.

(** ** Claude *)

Definition CLAUDE_HOOK_EVENTS : list text :=
  map utf8 ["UserPromptSubmit"; "PermissionRequest"; "PreToolUse"; "PostToolUse";
            "PostToolBatch"; "Notification"; "Stop"; "SessionEnd"].

Definition CLAUDE_KEYWORDS : AgentKeywords := {|
  confirm_phrases := map utf8 ["run this command"; "allow this"; "approve this"];
  input_phrases := map utf8 ["ready"; "type your message"; "send a message"];
  prompt_chars := [0x276F; 0x203A];
  input_window := None |}.

Definition claude_detect_from_process (current_command : text) (argv : option (list text)) : option text :=
  if contains_text [utf8 "claude"; utf8 "claude.js"] current_command then Some (utf8 "claude")
  else match argv with
       | Some argv =>
           if argv_names_agent (utf8 "claude") (utf8 "claude.js") argv
           then Some (utf8 "claude") else None
       | None => None
       end.

(** [❯ 1. Yes] above [2. No]. *)
Fixpoint claude_numbered_menu (lines : list text) : bool :=
  match lines with
  | [] => false
  | line :: rest =>
      (str_starts_with (utf8 "❯") line && str_contains (utf8 " 1.") line
       && match rest with
          | next :: _ => str_starts_with (utf8 "2.") next || str_starts_with (utf8 "2 ") next
          | [] => false
          end)
      || claude_numbered_menu rest
  end.

Definition claude_infer_task_state (command_name : option text) (pane_text : text) :
    option ManagedSessionTaskState :=
  if negb (bool_decide (default [] command_name = utf8 "claude")) then None
  else
    let lines := normalized_lines pane_text in
    match detect_confirm_from_lines lines CLAUDE_KEYWORDS with
    | Some state => Some state
    | None =>
        if claude_numbered_menu lines then Some Confirm
        else match detect_input_from_lines lines CLAUDE_KEYWORDS with
             | Some state => Some state
             | None => Some Running
             end
    end.

Definition claude_has_stable_input_prompt (pane_text : text) : bool :=
  let lines := normalized_lines pane_text in
  existsb (fun line =>
    str_starts_with (utf8 "❯") line
    && negb (str_starts_with (utf8 "1.") (trim_start (trim_start_matches 0x276F line))))
    (drop (length lines - 3) lines).

Definition claude_input_stability_policy (command_name : option text) (pane_text : text) :
    option InputStabilityPolicy :=
  if negb (bool_decide (default [] command_name = utf8 "claude")) then None
  else if claude_has_stable_input_prompt pane_text then Some Immediate
  else Some StableContent.

Definition notification_mentions_permission `{JsonValue} (payload : Value) : bool :=
  contains_any (map utf8 ["permission"; "approve"; "approval"; "allow"])
    (to_ascii_lowercase (value_to_string payload)).

Definition claude_signal_state_effect `{JsonValue} (event : text) (payload : Value) :
    option AgentStateEffect :=
  if bool_decide (event = utf8 "PreToolUse") then
    Some (SetState (if is_user_question_tool payload [utf8 "AskUserQuestion"] then Confirm else Running))
  else if contains_text (map utf8 ["UserPromptSubmit"; "PostToolUse"; "PostToolBatch"]) event
  then Some (SetState Running)
  else if bool_decide (event = utf8 "PermissionRequest") then Some (SetState Confirm)
  else if bool_decide (event = utf8 "Notification") && notification_mentions_permission payload
  then Some (SetState Confirm)
  else if bool_decide (event = utf8 "Stop") then Some (SetState Input)
  else if bool_decide (event = utf8 "SessionEnd") then Some Clear
  else None.

(** ** Codex *)

Definition CODEX_HOOK_EVENTS : list text :=
  map utf8 ["UserPromptSubmit"; "PermissionRequest"; "PreToolUse"; "PostToolUse"; "Stop"; "Interrupt"].

Definition CODEX_KEYWORDS : AgentKeywords := {|
  confirm_phrases := map utf8 ["run this command"; "allow this"; "allow codex";
    "do you trust the contents of this directory"; "hooks need review"];
  input_phrases := map utf8 ["type your message"; "send a message"];
  prompt_chars := [0x203A; 0x276F];
  input_window := Some 12%nat |}.

Definition codex_detect_from_process (current_command : text) (argv : option (list text)) : option text :=
  if contains_text [utf8 "codex"; utf8 "codex.js"] current_command then Some (utf8 "codex")
  else match argv with
       | Some argv =>
           if argv_names_agent (utf8 "codex") (utf8 "codex.js") argv
           then Some (utf8 "codex") else None
       | None => None
       end.

Definition codex_has_active_work_marker (lines : list text) : bool :=
  existsb (fun line =>
    let lc := to_ascii_lowercase line in
    bool_decide (lc = utf8 "working")
    || existsb (fun p => str_starts_with p lc)
         (map utf8 ["working "; "working..."; "• working"; "codex is working"])
    || contains_any (map utf8 ["esc to interrupt"; "ctrl-c to interrupt"]) lc) lines.

Fixpoint take_digits (t : text) : text * text :=
  match t with
  | ch :: t' => if is_ascii_digit ch then let '(d, r) := take_digits t' in (ch :: d, r) else ([], t)
  | [] => ([], [])
  end.

Definition parse_numbered_option (line : text) : option Z :=
  let '(digits, after) := take_digits (trim_start line) in
  if negb (nonempty digits) then None
  else match parse_uint 32 digits with
       | Some number =>
           let rest := trim_start after in
           if str_starts_with (utf8 ".") rest || str_starts_with (utf8 ")") rest
           then Some number else None
       | None => None
       end.

Definition codex_numbered_menu_selection (lines : list text) (selected_index : nat) : bool :=
  match ((lines !! selected_index) ≫= strip_prefix (utf8 "›")) ≫= parse_numbered_option with
  | None => false
  | Some selected_number =>
      let start := (selected_index - 4)%nat in
      let stop := Nat.min (selected_index + 5) (length lines) in
      existsb (fun '(i, line) =>
        negb (Nat.eqb i selected_index)
        && match parse_numbered_option line with
           | Some number => negb (number =? selected_number)
           | None => false
           end)
        (imap (fun offset line => ((start + offset)%nat, line)) (take (stop - start) (drop start lines)))
  end.

Definition codex_infer_task_state (command_name : option text) (pane_text : text) :
    option ManagedSessionTaskState :=
  if negb (bool_decide (default [] command_name = utf8 "codex")) then None
  else
    let lines := normalized_lines pane_text in
    match detect_confirm_from_lines lines CODEX_KEYWORDS with
    | Some state => Some state
    | None =>
        if existsb (codex_numbered_menu_selection lines) (seq 0 (length lines)) then Some Confirm
        else if codex_has_active_work_marker lines then Some Running
        else match detect_input_from_lines lines CODEX_KEYWORDS with
             | Some state => Some state
             | None => Some Running
             end
    end.

Definition codex_input_stability_policy (command_name : option text) (pane_text : text) :
    option InputStabilityPolicy :=
  if bool_decide (default [] command_name = utf8 "codex") then Some Immediate else None.

Definition codex_signal_state_effect `{JsonValue} (event : text) (payload : Value) :
    option AgentStateEffect :=
  if bool_decide (event = utf8 "PreToolUse") then
    Some (SetState (if is_user_question_tool payload [utf8 "request_user_input"] then Confirm else Running))
  else if contains_text (map utf8 ["UserPromptSubmit"; "PostToolUse"]) event then Some (SetState Running)
  else if bool_decide (event = utf8 "PermissionRequest") then Some (SetState Confirm)
  else if contains_text (map utf8 ["Stop"; "Interrupt"]) event then Some (SetState Input)
  else None.

(** ** Kimi *)

Definition KIMI_HOOK_EVENTS : list text :=
  map utf8 ["SessionStart"; "UserPromptSubmit"; "PermissionRequest"; "PermissionResult";
            "PreToolUse"; "PostToolUse"; "PostToolUseFailure"; "Stop"; "StopFailure";
            "Interrupt"; "SessionEnd"].

Definition KIMI_KEYWORDS : AgentKeywords := {|
  confirm_phrases := map utf8 ["run this command"; "allow this"; "approve this plan"];
  input_phrases := [];
  prompt_chars := [];
  input_window := None |}.

Definition is_kimi_process_name (name : text) : bool :=
  contains_text (map utf8 ["kimi"; "kimi.js"; "kimi-code"]) name.

Definition kimi_detect_from_process (current_command : text) (argv : option (list text)) : option text :=
  if is_kimi_process_name current_command then Some (utf8 "kimi")
  else match argv with
       | Some argv =>
           if existsb (fun arg => match file_name arg with
                                  | Some n => is_kimi_process_name n
                                  | None => false
                                  end) argv
           then Some (utf8 "kimi") else None
       | None => None
       end.

Definition looks_like_status_line (t : text) : bool :=
  contains_any (map utf8 ["running"; "thinking"; "context:"; "/model"]) (to_ascii_lowercase t).

Definition kimi_prompt_is_empty (line : text) : bool :=
  let line := str_trim line in
  bool_decide (line = utf8 ">") || bool_decide (line = utf8 "│ >")
  || match strip_prefix (utf8 "│ >") line with
     | Some rest => negb (nonempty (str_trim rest))
     | None => false
     end.

Definition kimi_prompt_line (line : text) : bool :=
  let line := str_trim line in
  if kimi_prompt_is_empty line then true
  else match strip_prefix (utf8 "│ >") line with
       | Some rest => negb (looks_like_status_line rest)
       | None =>
           match strip_prefix (utf8 "> ") line with
           | Some rest => negb (looks_like_status_line rest)
           | None => false
           end
       end.

Definition first_char_in (chars : text) (line : text) : bool :=
  match line with ch :: _ => bool_decide (ch ∈ chars) | [] => false end.

Definition kimi_moon_spinner (line : text) : bool := first_char_in (utf8 "🌑🌒🌓🌔🌕🌖🌗🌘") line.

Definition kimi_compacting_status_line (line : text) : bool :=
  (str_starts_with (utf8 "● ") line || str_starts_with (utf8 "  ") line)
  && str_contains (utf8 "compacting") (to_ascii_lowercase line).

Definition kimi_has_active_animation (lines : list text) : bool :=
  existsb (fun line =>
    let trimmed := str_trim line in
    let lowered := to_ascii_lowercase trimmed in
    kimi_moon_spinner trimmed
    || kimi_compacting_status_line line
    || (negb (str_starts_with (utf8 "k2.7 code thinking") lowered)
        && contains_any [utf8 "thinking"; utf8 "working"] lowered
        && first_char_in (utf8 "⠋⠙⠹⠸⠼⠴⠦⠧⠇⠏") trimmed)) lines.

Definition kimi_is_numbered_choice_line (line : text) : bool :=
  match strip_prefix (utf8 "[") line with
  | None => false
  | Some rest =>
      match split_once (utf8 "]") rest with
      | None => false
      | Some (num, _) => bool_decide (is_Some (parse_uint 64 (str_trim num)))
      end
  end.

Definition kimi_is_dotted_choice_line (line : text) : bool :=
  match split_once (utf8 ". ") (trim_start line) with
  | None => false
  | Some (num, rest) =>
      bool_decide (is_Some (parse_uint 64 (str_trim num))) && nonempty (str_trim rest)
  end.

(** The three flags of [kimi_has_choice_menu] after a line. *)
Definition choice_menu_line (flags : bool * bool * bool) (line : text) : bool * bool * bool :=
  let '(has_question, has_choice, has_selection_hint) := flags in
  let trimmed := trim_start line in
  let lowered := to_ascii_lowercase line in
  (has_question
     || (str_starts_with (utf8 "?") trimmed && (1 <? length trimmed)%nat)
     || eq_ignore_ascii_case trimmed (utf8 "question"),
   has_choice || str_starts_with (utf8 "→ [") trimmed || kimi_is_numbered_choice_line trimmed,
   has_selection_hint
     || (contains_any [utf8 "select"; utf8 "choose"] lowered
         && (contains_any [utf8 "esc"; utf8 "switch"] lowered
             || contains_any [utf8 "↑"; utf8 "↓"; utf8 "↵"] line))).

Definition kimi_has_choice_menu (lines : list text) : bool :=
  let '(has_question, has_choice, has_selection_hint) :=
    fold_left choice_menu_line lines (false, false, false) in
  has_question && has_choice && has_selection_hint.

(** The flags of [kimi_is_plan_approval_menu] after a line. *)
Definition approval_menu_line (flags : bool * bool * bool) (line : text) : bool * bool * bool :=
  let '(has_approve, has_reject, has_dotted_choice) := flags in
  let lowered := to_ascii_lowercase line in
  if kimi_is_dotted_choice_line (trim_start line) then
    (has_approve || str_contains (utf8 "approve") lowered,
     has_reject || str_contains (utf8 "reject") lowered, true)
  else flags.

Definition kimi_is_plan_approval_menu (lines : list text) : bool :=
  let '(has_approve, has_reject, has_dotted_choice) :=
    fold_left approval_menu_line lines (false, false, false) in
  has_dotted_choice && has_approve && has_reject.

Definition kimi_background_task_status_is_running (status : text) : bool :=
  let lowered := to_ascii_lowercase (str_trim status) in
  if bool_decide (lowered = utf8 "1 task running") then true
  else match strip_suffix (utf8 " tasks running") lowered with
       | Some count =>
           match parse_uint 64 (str_trim count) with
           | Some n => 0 <? n
           | None => false
           end
       | None => false
       end.

(** The [while let] loop over the bracketed parts of a line. Each turn drops
    at least the opening bracket, so the line's length bounds the turns. *)
Fixpoint bracketed_status_running (fuel : nat) (rest : text) : bool :=
  match fuel with
  | O => false
  | S fuel' =>
      match split_once (utf8 "[") rest with
      | None => false
      | Some (_, after_open) =>
          match split_once (utf8 "]") after_open with
          | None => false
          | Some (status, after_close) =>
              if kimi_background_task_status_is_running status then true
              else bracketed_status_running fuel' after_close
          end
      end
  end.

Definition kimi_has_running_background_task (lines : list text) : bool :=
  existsb (fun line => bracketed_status_running (S (length line)) line) lines.

(** Kimi's own [?] dialog above an empty prompt. *)
Fixpoint kimi_question_dialog (lines : list text) : bool :=
  match lines with
  | [] => false
  | line :: rest =>
      (str_starts_with (utf8 "?") (trim_start line)
       && match rest with
          | next :: _ => kimi_prompt_is_empty (trim_start next)
          | [] => false
          end)
      || kimi_question_dialog rest
  end.

Definition kimi_infer_task_state (command_name : option text) (pane_text : text) :
    option ManagedSessionTaskState :=
  if negb (bool_decide (default [] command_name = utf8 "kimi")) then None
  else
    let lines := normalized_lines pane_text in
    match detect_confirm_from_lines lines KIMI_KEYWORDS with
    | Some state => Some state
    | None =>
        if kimi_question_dialog lines then Some Confirm
        else if kimi_has_choice_menu lines then Some Confirm
        else if kimi_is_plan_approval_menu lines then Some Confirm
        else if kimi_has_active_animation lines then Some Running
        else if kimi_has_running_background_task lines then Some Running
        else if existsb kimi_prompt_line (drop (length lines - 8) lines) then Some Input
        else Some Running
    end.

Definition kimi_has_stable_input_prompt (pane_text : text) : bool :=
  let lines := normalized_lines pane_text in
  existsb kimi_prompt_line (drop (length lines - 8) lines).

Definition kimi_input_stability_policy (command_name : option text) (pane_text : text) :
    option InputStabilityPolicy :=
  if negb (bool_decide (default [] command_name = utf8 "kimi")) then None
  else if kimi_has_stable_input_prompt pane_text then Some Immediate
  else Some StableContent.

Definition kimi_matches_agent_signal (agent command_name : text) : bool :=
  bool_decide (agent = utf8 "kimi") && contains_text [utf8 "kimi"; utf8 "claude"] command_name.

(** A quoted member of the compact JSON text: ["key":false]. *)
Definition json_false (key : string) : text := [34] ++ utf8 key ++ [34] ++ utf8 ":false".

Definition permission_result_state `{JsonValue} (payload : Value) : ManagedSessionTaskState :=
  if contains_any (map utf8 ["deny"; "denied"; "reject"] ++ [json_false "approved"; json_false "allow"])
       (to_ascii_lowercase (value_to_string payload))
  then Input else Running.

Definition kimi_signal_state_effect `{JsonValue} (event : text) (payload : Value) :
    option AgentStateEffect :=
  if bool_decide (event = utf8 "SessionStart") then Some (SetState Input)
  else if bool_decide (event = utf8 "PreToolUse") then
    Some (SetState (if is_user_question_tool payload [utf8 "AskUserQuestion"] then Confirm else Running))
  else if contains_text (map utf8 ["UserPromptSubmit"; "PostToolUse"; "PostToolUseFailure"]) event
  then Some (SetState Running)
  else if bool_decide (event = utf8 "PermissionRequest") then Some (SetState Confirm)
  else if bool_decide (event = utf8 "PermissionResult") then
    Some (SetState (permission_result_state payload))
  else if contains_text (map utf8 ["Stop"; "StopFailure"; "Interrupt"]) event
  then Some (SetState Input)
  else if bool_decide (event = utf8 "SessionEnd") then Some Clear
  else None.

(** ** The shell *)

Definition is_shell_command (command_name : text) : bool :=
  contains_text SHELL_NAMES command_name || negb (nonempty command_name).

Definition shell_infer_task_state (command_name : option text) (pane_text : text) :
    option ManagedSessionTaskState :=
  if negb (is_shell_command (default [] command_name)) then None
  else
    let lines := normalized_lines pane_text in
    match last lines with
    | None => None
    | Some last_line =>
        if match last last_line with
           | Some ch => bool_decide (ch ∈ utf8 "$#%❯›➜λ»")
           | None => false
           end then Some Input
        else if str_contains (utf8 "❯") last_line || str_starts_with (utf8 "➜") last_line
        then Some Input
        else Some Running
    end.

Definition shell_input_stability_policy (command_name : option text) (pane_text : text) :
    option InputStabilityPolicy :=
  if is_shell_command (default [] command_name) then Some Immediate else None.

(** ** The registry

    The trait [AgentDetector] is a record of its methods; a registry is the
    list of its detectors in priority order. *)

Record AgentDetector `{JsonValue} := mkAgentDetector {
  detector_name : text;
  detector_detect_from_process : text -> option (list text) -> option text;
  detector_infer_task_state : option text -> text -> option ManagedSessionTaskState;
  detector_input_stability_policy : option text -> text -> option InputStabilityPolicy;
  detector_matches_agent_signal : text -> text -> bool;
  detector_hook_events : list text;
  detector_signal_state_effect : text -> Value -> option AgentStateEffect;
}.

(** The default methods of the trait. *)
Definition default_matches_agent_signal (name agent command_name : text) : bool :=
  bool_decide (agent = name) && bool_decide (command_name = name).

Definition ClaudeDetector `{JsonValue} : AgentDetector := {|
  detector_name := utf8 "claude";
  detector_detect_from_process := claude_detect_from_process;
  detector_infer_task_state := claude_infer_task_state;
  detector_input_stability_policy := claude_input_stability_policy;
  detector_matches_agent_signal := default_matches_agent_signal (utf8 "claude");
  detector_hook_events := CLAUDE_HOOK_EVENTS;
  detector_signal_state_effect := claude_signal_state_effect |}.

Definition CodexDetector `{JsonValue} : AgentDetector := {|
  detector_name := utf8 "codex";
  detector_detect_from_process := codex_detect_from_process;
  detector_infer_task_state := codex_infer_task_state;
  detector_input_stability_policy := codex_input_stability_policy;
  detector_matches_agent_signal := default_matches_agent_signal (utf8 "codex");
  detector_hook_events := CODEX_HOOK_EVENTS;
  detector_signal_state_effect := codex_signal_state_effect |}.

Definition KimiDetector `{JsonValue} : AgentDetector := {|
  detector_name := utf8 "kimi";
  detector_detect_from_process := kimi_detect_from_process;
  detector_infer_task_state := kimi_infer_task_state;
  detector_input_stability_policy := kimi_input_stability_policy;
  detector_matches_agent_signal := kimi_matches_agent_signal;
  detector_hook_events := KIMI_HOOK_EVENTS;
  detector_signal_state_effect := kimi_signal_state_effect |}.

Definition ShellDetector `{JsonValue} : AgentDetector := {|
  detector_name := utf8 "shell";
  detector_detect_from_process := fun _ _ => None;
  detector_infer_task_state := shell_infer_task_state;
  detector_input_stability_policy := shell_input_stability_policy;
  detector_matches_agent_signal := default_matches_agent_signal (utf8 "shell");
  detector_hook_events := [];
  detector_signal_state_effect := fun _ _ => None |}.

(** [InterpreterCommandNameResolver] *)
Definition is_known_interpreter (name : text) : bool :=
  contains_text (map utf8 ["python"; "python3"; "python2"; "node"; "nodejs"; "ruby"; "perl"; "php"]) name.

Definition resolve_python (argv : list text) : option text :=
  match argv !! 1%nat with
  | None => None
  | Some arg => if bool_decide (arg = utf8 "-m") then argv !! 2%nat else file_name arg
  end.

Definition resolve_node (argv : list text) : option text := (argv !! 1%nat) ≫= file_name.

Definition resolve_ruby (argv : list text) : option text := (argv !! 1%nat) ≫= file_name.

(** Case 2: the name of the script a shell executes. *)
Definition resolve_shell (current_command : text) (argv : list text) : option text :=
  if contains_text SHELL_NAMES current_command then
    match shell_script_arg argv with
    | Some script =>
        let name := default script (file_name script) in
        if nonempty name then Some name else None
    | None => None
    end
  else None.

(** Case 3: an interpreter running a script or a module. *)
Definition resolve_interpreter (current_command : text) (argv : list text) : option text :=
  if contains_text (map utf8 ["python"; "python3"; "python2"]) current_command then resolve_python argv
  else if contains_text (map utf8 ["node"; "nodejs"]) current_command then resolve_node argv
  else if bool_decide (current_command = utf8 "ruby") then resolve_ruby argv
  else None.

Definition resolve (current_command : text) (argv : option (list text)) : option text :=
  match argv with
  | None | Some [] => None
  | Some (arg0 :: args) =>
      let argv := arg0 :: args in
      let argv0_base := first_argv_token arg0 in
      if nonempty argv0_base && negb (bool_decide (argv0_base = current_command))
         && negb (contains_text SHELL_NAMES argv0_base) && negb (is_known_interpreter argv0_base)
      then Some argv0_base
      else match resolve_shell current_command argv with
           | Some name => Some name
           | None => resolve_interpreter current_command argv
           end
  end.

Section registry.
Context `{JsonValue}.

Definition DetectorRegistry := list AgentDetector.

Definition default_registry : DetectorRegistry :=
  [ClaudeDetector; CodexDetector; KimiDetector; ShellDetector].

Fixpoint detect_from_process (detectors : DetectorRegistry) (current_command : text)
    (argv : option (list text)) : option text :=
  match detectors with
  | [] => None
  | d :: ds =>
      match detector_detect_from_process d current_command argv with
      | Some name => Some name
      | None => detect_from_process ds current_command argv
      end
  end.

Definition detect_command_name (detectors : DetectorRegistry) (current_command : text)
    (argv : option (list text)) (pane_text : text) : text :=
  match detect_from_process detectors current_command argv with
  | Some name => name
  | None => default current_command (resolve current_command argv)
  end.

Fixpoint first_inference (detectors : DetectorRegistry) (command_name pane_text : text) :
    option ManagedSessionTaskState :=
  match detectors with
  | [] => None
  | d :: ds =>
      match detector_infer_task_state d (Some command_name) pane_text with
      | Some state => Some state
      | None => first_inference ds command_name pane_text
      end
  end.

(** The endings that ask for a choice on the last line. *)
Definition CHOICE_ENDINGS : list text :=
  map utf8 ["[y/n]"; "(y/n)"; "[yes/no]"; "(yes/no)"; "[y/n]?"; "(y/n)?"].

Definition infer_task_state (detectors : DetectorRegistry) (command_name : option text)
    (pane_text : text) : ManagedSessionTaskState :=
  match last (normalized_lines pane_text) with
  | None => TaskUnknown
  | Some l =>
      if ends_with_any CHOICE_ENDINGS (str_trim (to_ascii_lowercase l)) then Confirm
      else default Running (first_inference detectors (default [] command_name) pane_text)
  end.

Definition agent_signal_matches_command (detectors : DetectorRegistry) (agent command_name : text) : bool :=
  bool_decide (agent = command_name)
  || existsb (fun d => detector_matches_agent_signal d agent command_name) detectors.

Definition is_registered_agent (detectors : DetectorRegistry) (command_name : text) : bool :=
  existsb (fun d => bool_decide (detector_name d = command_name)) detectors.

Definition find_detector (detectors : DetectorRegistry) (agent : text) : option AgentDetector :=
  List.find (fun d => bool_decide (detector_name d = agent)) detectors.

Definition hook_events_for_agent (detectors : DetectorRegistry) (agent : text) : option (list text) :=
  detector_hook_events <$> find_detector detectors agent.

Definition signal_state_effect (detectors : DetectorRegistry) (agent event : text) (payload : Value) :
    option AgentStateEffect :=
  find_detector detectors agent ≫= fun d => detector_signal_state_effect d event payload.
End registry.

(** ** What the detectors guarantee *)

(** The loop over the brackets of a line does not depend on the fuel, once
    there is enough of it for the line. *)
Lemma bracketed_status_running_fuel n m rest :
  (length rest < n)%nat -> (n <= m)%nat ->
  bracketed_status_running m rest = bracketed_status_running n rest.
Proof.
  revert m rest. induction n as [|n IH]; intros m rest Hn Hm; [lia|].
  destruct m as [|m]; [lia|]. cbn [bracketed_status_running].
  destruct (split_once (utf8 "[") rest) as [[a o]|] eqn:E1; [|done].
  destruct (split_once (utf8 "]") o) as [[s c]|] eqn:E2; [|done].
  apply split_once_shorter in E1, E2; [|done..].
  case_match; [done|]. apply IH; lia.
Qed.

(** The lines the detectors look at are trimmed and not empty. *)
Lemma normalized_line_trimmed pane_text l :
  l ∈ normalized_lines pane_text -> str_trim l = l /\ l <> [].
Proof.
  unfold normalized_lines. rewrite list_elem_of_In, filter_In, in_map_iff.
  intros [(l' & <- & _) Hne]. split; [apply str_trim_idem|]. intros E.
  by rewrite E in Hne.
Qed.

(** The second alternative of [kimi_compacting_status_line], an indented
    line, never applies: the lines it is asked about are trimmed. *)
Lemma kimi_compacting_needs_bullet pane_text l :
  l ∈ normalized_lines pane_text ->
  kimi_compacting_status_line l
  = str_starts_with (utf8 "● ") l && str_contains (utf8 "compacting") (to_ascii_lowercase l).
Proof.
  intros [Ht Hne]%normalized_line_trimmed. unfold kimi_compacting_status_line.
  replace (str_starts_with (utf8 "  ") l) with false; [by rewrite orb_false_r|].
  symmetry. apply not_true_is_false. intros (r & Hr)%str_starts_with_spec.
  assert (trim_start l = l) as Hl by (by rewrite <- Ht, trim_start_trim).
  rewrite Hr in Hl. change (trim_start r = 32 :: 32 :: r) in Hl.
  destruct (trim_start_head r) as [E|(c & r' & E & Hc)]; rewrite E in Hl; [done|].
  by simplify_eq.
Qed.

(** A question the shared scanner recognises: a confirmation phrase, or a
    choice at the end of the line. *)
Definition asks (keywords : AgentKeywords) (line : text) : bool :=
  contains_any (confirm_phrases keywords) (to_ascii_lowercase line)
  || ends_with_any [utf8 "[y/n]"; utf8 "(y/n)"] (str_trim (to_ascii_lowercase line)).

Lemma detect_confirm_asks ls keywords l :
  l ∈ ls -> asks keywords l = true -> detect_confirm_from_lines ls keywords = Some Confirm.
Proof.
  intros Hl Ha. induction ls as [|l' ls IH]; [by apply elem_of_nil in Hl|].
  cbn [detect_confirm_from_lines]. apply elem_of_cons in Hl as [->|Hl].
  - unfold asks in Ha. apply orb_true_iff in Ha as [Ha|Ha]; rewrite Ha; [done|]. by case_match.
  - rewrite IH by done. by repeat case_match.
Qed.

Lemma detect_confirm_is_confirm ls keywords s :
  detect_confirm_from_lines ls keywords = Some s -> s = Confirm.
Proof. induction ls as [|l ls IH]; simpl; [done|]. repeat case_match; try congruence. done. Qed.

(** The keywords of an agent. *)
Definition keywords_of (agent : text) : option AgentKeywords :=
  if bool_decide (agent = utf8 "claude") then Some CLAUDE_KEYWORDS
  else if bool_decide (agent = utf8 "codex") then Some CODEX_KEYWORDS
  else if bool_decide (agent = utf8 "kimi") then Some KIMI_KEYWORDS
  else None.

#[local] Arguments utf8 : simpl never.
#[local] Arguments detect_confirm_from_lines : simpl never.
#[local] Arguments detect_input_from_lines : simpl never.

Lemma detect_input_is_input ls keywords s : detect_input_from_lines ls keywords = Some s -> s = Input.
Proof. unfold detect_input_from_lines. repeat case_match; congruence. Qed.

(** What a detector reports is never [Unknown]. *)
Definition known (s : option ManagedSessionTaskState) : Prop := s <> Some TaskUnknown.

Lemma claude_state_known c p : known (claude_infer_task_state c p).
Proof.
  unfold known, claude_infer_task_state. case_match; [done|].
  destruct (detect_confirm_from_lines _ _) eqn:E; [by apply detect_confirm_is_confirm in E as ->|].
  case_match; [done|]. destruct (detect_input_from_lines _ _) eqn:F; [|done].
  by apply detect_input_is_input in F as ->.
Qed.

Lemma codex_state_known c p : known (codex_infer_task_state c p).
Proof.
  unfold known, codex_infer_task_state. case_match; [done|].
  destruct (detect_confirm_from_lines _ _) eqn:E; [by apply detect_confirm_is_confirm in E as ->|].
  case_match; [done|]. case_match; [done|]. destruct (detect_input_from_lines _ _) eqn:F; [|done].
  by apply detect_input_is_input in F as ->.
Qed.

Lemma kimi_state_known c p : known (kimi_infer_task_state c p).
Proof.
  unfold known, kimi_infer_task_state. case_match; [done|].
  destruct (detect_confirm_from_lines _ _) eqn:E; [by apply detect_confirm_is_confirm in E as ->|].
  do 6 (case_match; [done|]). done.
Qed.

Lemma shell_state_known c p : known (shell_infer_task_state c p).
Proof. unfold known, shell_infer_task_state. case_match; [done|]. case_match; [|done]. by repeat case_match. Qed.

Section guarantees.
Context `{JsonValue}.

Lemma registry_asks_the_agent agent keywords pane_text :
  keywords_of agent = Some keywords ->
  detect_confirm_from_lines (normalized_lines pane_text) keywords = Some Confirm ->
  first_inference default_registry agent pane_text = Some Confirm.
Proof.
  unfold keywords_of. intros Hk Hc. repeat case_bool_decide; simplify_eq.
  - cbn. unfold claude_infer_task_state. cbn. by rewrite Hc.
  - cbn. unfold codex_infer_task_state. cbn. by rewrite Hc.
  - cbn. unfold kimi_infer_task_state. cbn. by rewrite Hc.
Qed.

(** When a visible line asks for a confirmation, the agent's session is
    reported as waiting for it, whatever else the pane shows. *)
Theorem question_is_confirmed agent keywords pane_text l :
  keywords_of agent = Some keywords ->
  l ∈ normalized_lines pane_text ->
  asks keywords l = true ->
  infer_task_state default_registry (Some agent) pane_text = Confirm.
Proof.
  intros Hk Hl Ha. unfold infer_task_state.
  destruct (last (normalized_lines pane_text)) as [e|] eqn:E;
    [|by apply last_None in E; rewrite E in Hl; apply elem_of_nil in Hl].
  case_match; [done|]. cbn [default].
  by rewrite (registry_asks_the_agent agent keywords) by eauto using detect_confirm_asks.
Qed.

(** The inference reads the visible lines only: two panes with the same
    trimmed, non-blank lines are in the same state. *)
Theorem inference_reads_visible_lines command_name p q :
  normalized_lines p = normalized_lines q ->
  infer_task_state default_registry command_name p = infer_task_state default_registry command_name q.
Proof.
  intros E. unfold infer_task_state. rewrite E. case_match; [|done]. case_match; [done|].
  f_equal. simpl. unfold claude_infer_task_state, codex_infer_task_state, kimi_infer_task_state,
    shell_infer_task_state. by rewrite E.
Qed.

(** A session that shows anything has a known state. *)
Theorem shown_pane_has_a_state command_name pane_text :
  normalized_lines pane_text <> [] ->
  infer_task_state default_registry command_name pane_text <> TaskUnknown.
Proof.
  intros Hne. unfold infer_task_state.
  destruct (last (normalized_lines pane_text)) eqn:E; [|by apply last_None in E].
  case_match; [done|]. cbn [first_inference default_registry].
  set (c := Some (default [] command_name)).
  pose proof (claude_state_known c pane_text) as H1. pose proof (codex_state_known c pane_text) as H2.
  pose proof (kimi_state_known c pane_text) as H3. pose proof (shell_state_known c pane_text) as H4.
  cbn. unfold known in *. repeat case_match; simpl; congruence.
Qed.

(** A notification that does not ask for anything. *)
Definition idle_notification (agent event : text) (payload : Value) : Prop :=
  agent = utf8 "claude" /\ event = utf8 "Notification" /\ notification_mentions_permission payload = false.

(** Membership in a list of literals, one disequality per literal. *)
Lemma contains_text_false names t : Forall (fun n => t <> n) names -> contains_text names t = false.
Proof.
  intros Hn. apply bool_decide_eq_false. intros Ht. rewrite Forall_forall in Hn. by apply (Hn t).
Qed.

Ltac no_event :=
  repeat match goal with Hne : _ ∉ _ :: _ |- _ => apply not_elem_of_cons in Hne as [? Hne] end;
  rewrite ?bool_decide_eq_false_2 by done;
  rewrite ?contains_text_false by (repeat constructor; done); simpl.

Ltac each_event He :=
  repeat (apply elem_of_cons in He as [-> |He]; [|]); [..|by apply elem_of_nil in He]; try by (eexists; vm_compute).

Lemma claude_handles event payload :
  is_Some (claude_signal_state_effect event payload)
  <-> event ∈ CLAUDE_HOOK_EVENTS /\ ~ idle_notification (utf8 "claude") event payload.
Proof.
  unfold claude_signal_state_effect. split.
  - intros He. split.
    + destruct (decide (event ∈ CLAUDE_HOOK_EVENTS)) as [?|Hne]; [done|]. exfalso. revert He.
      unfold CLAUDE_HOOK_EVENTS in Hne. cbn [map] in Hne. no_event. apply is_Some_None.
    + intros (_ & -> & Hn). rewrite Hn in He. destruct He as [e E]. by vm_compute in E.
  - intros [He Hn]. unfold CLAUDE_HOOK_EVENTS in He. cbn [map] in He. each_event He.
    destruct (notification_mentions_permission payload) eqn:E; [by eexists; vm_compute|].
    by destruct Hn.
Qed.

Lemma codex_handles event payload :
  is_Some (codex_signal_state_effect event payload) <-> event ∈ CODEX_HOOK_EVENTS.
Proof.
  unfold codex_signal_state_effect. split.
  - intros He. destruct (decide (event ∈ CODEX_HOOK_EVENTS)) as [?|Hne]; [done|]. exfalso. revert He.
    unfold CODEX_HOOK_EVENTS in Hne. cbn [map] in Hne. no_event. apply is_Some_None.
  - intros He. unfold CODEX_HOOK_EVENTS in He. cbn [map] in He. each_event He.
Qed.

Lemma kimi_handles event payload :
  is_Some (kimi_signal_state_effect event payload) <-> event ∈ KIMI_HOOK_EVENTS.
Proof.
  unfold kimi_signal_state_effect. split.
  - intros He. destruct (decide (event ∈ KIMI_HOOK_EVENTS)) as [?|Hne]; [done|]. exfalso. revert He.
    unfold KIMI_HOOK_EVENTS in Hne. cbn [map] in Hne. no_event. apply is_Some_None.
  - intros He. unfold KIMI_HOOK_EVENTS in He. cbn [map] in He. each_event He.
Qed.

(** The events a reducer acts on are exactly the ones installed as hooks of
    its agent, but for Claude's notifications that ask for nothing. *)
Theorem handled_events_are_installed agent event payload :
  is_Some (signal_state_effect default_registry agent event payload)
  <-> exists events, hook_events_for_agent default_registry agent = Some events
      /\ event ∈ events /\ ~ idle_notification agent event payload.
Proof.
  unfold signal_state_effect, hook_events_for_agent, find_detector.
  cbn [List.find default_registry detector_name].
  assert (forall a, a <> utf8 "claude" -> ~ idle_notification a event payload) as Hidle
    by (by intros a Ha [? _]).
  repeat case_bool_decide; cbn; subst; cbn [detector_name] in *.
  - rewrite claude_handles. naive_solver.
  - rewrite codex_handles. naive_solver.
  - rewrite kimi_handles. naive_solver.
  - split; [by intros [? ?]|]. intros (es & [= <-] & He & _). by apply elem_of_nil in He.
  - split; [by intros [? ?]|]. by intros (es & ? & _).
Qed.
End guarantees.

(** Payloads that are texts without members. *)
Definition text_json : JsonValue :=
  {| Value := text; value_get := fun _ _ => None; value_as_str := fun _ => None; value_to_string := fun t => t |}.

Lemma question_is_confirmed_witness :
  asks KIMI_KEYWORDS (utf8 "Allow this tool to run?") = true
  /\ infer_task_state (H := text_json) default_registry (Some (utf8 "kimi"))
       (utf8 "⠋ working" ++ [10] ++ utf8 "  Allow this tool to run?  " ++ [10] ++ utf8 "> ") = Confirm.
Proof.
  split; [by vm_compute|].
  apply (question_is_confirmed (H := text_json) (utf8 "kimi") KIMI_KEYWORDS _ (utf8 "Allow this tool to run?")).
  - by vm_compute.
  - apply (bool_decide_unpack _). by vm_compute.
  - by vm_compute.
Defined.

(** ** Where the heuristics misfire *)

(** An output line that contains the word "already" counts as Claude's "ready". *)
Lemma already_is_ready :
  infer_task_state (H := text_json) default_registry (Some (utf8 "claude"))
    (utf8 "The file already exists, rewriting it") = Input.
Proof. by vm_compute. Qed.

(** Any argument whose last component is the agent's name makes the process
    that agent: an editor of a file named [claude] is reported as Claude. *)
Lemma argument_names_the_agent :
  detect_command_name (H := text_json) default_registry (utf8 "vim")
    (Some [utf8 "vim"; utf8 "notes/claude"]) [] = utf8 "claude".
Proof. by vm_compute. Qed.

(** The options of an interpreter are taken for its script. *)
Lemma interpreter_option_is_the_name :
  detect_command_name (H := text_json) default_registry (utf8 "python3")
    (Some [utf8 "python3"; utf8 "-u"; utf8 "server.py"]) [] = utf8 "-u".
Proof. by vm_compute. Qed.
