(* ===== verification/ProcessTree.v ===== *)
(** * ProcessTree: the processes of a session

    [src/process_monitor/tree.rs]: the processes under a session's shell, as
    forks, execs and exits report them, and the choice of the process that
    gives the session its name. Process ids are [u32]. The recursive visit
    has no guard of its own: in the model it consumes fuel and returns [None]
    when there is none left, which stands for recursion without end; the
    theorems show that it never happens. *)

From S2P Require Import Prelude Bytes Utf8 Str SessionCatalog AgentDetector.

Record ProcessNode := mkProcessNode {
  parent_pid : option Z;
  command_name : text;
  argv : list text;
  children : list Z;
}.

Definition is_shell (node : ProcessNode) : bool := contains_text SHELL_NAMES (command_name node).

Definition is_shell_script (node : ProcessNode) : bool :=
  if negb (is_shell node) then false
  else bool_decide (is_Some (shell_script_arg (argv node))).

Definition is_application (node : ProcessNode) : bool :=
  nonempty (command_name node) && (negb (is_shell node) || is_shell_script node).

Record SessionProcessTree := mkSessionProcessTree {
  shell_pid : Z;
  processes : gmap Z ProcessNode;
}.

(** [SessionProcessTree::new] *)
Definition tree_new (shell_pid : Z) (argv0 : text) (argv : list text) : SessionProcessTree :=
  mkSessionProcessTree shell_pid
    {[ shell_pid := mkProcessNode None (first_argv_token argv0) argv [] ]}.

Definition with_children (f : list Z -> list Z) (node : ProcessNode) : ProcessNode :=
  mkProcessNode (parent_pid node) (command_name node) (argv node) (f (children node)).

(** [if !children.contains(&child) { children.push(child) }] *)
Definition push_child (child : Z) (cs : list Z) : list Z :=
  if bool_decide (child ∈ cs) then cs else cs ++ [child].

(** A parent that is neither tracked nor the shell. *)
Definition unknown_parent (tree : SessionProcessTree) (parent : Z) : bool :=
  bool_decide (processes tree !! parent = None) && negb (parent =? shell_pid tree).

Definition add_child (tree : SessionProcessTree) (parent child : Z) (argv0 : text) (argv : list text) :
    SessionProcessTree :=
  if unknown_parent tree parent then tree
  else
    let node := mkProcessNode (Some parent) (first_argv_token argv0) argv [] in
    let ps := alter (with_children (push_child child)) parent (processes tree) in
    mkSessionProcessTree (shell_pid tree) (<[child := node]> ps).

Definition update_exec (tree : SessionProcessTree) (pid : Z) (argv0 : text) (argv : list text) :
    SessionProcessTree :=
  mkSessionProcessTree (shell_pid tree)
    (alter (fun node => mkProcessNode (parent_pid node) (first_argv_token argv0) argv (children node))
       pid (processes tree)).

(** [Vec::retain] of the other children. *)
Definition drop_child (pid : Z) (cs : list Z) : list Z := List.filter (fun c => negb (c =? pid)) cs.

Definition remove (tree : SessionProcessTree) (pid : Z) : SessionProcessTree :=
  match processes tree !! pid with
  | None => tree
  | Some node =>
      let ps := delete pid (processes tree) in
      mkSessionProcessTree (shell_pid tree)
        match parent_pid node with
        | Some parent => alter (with_children (drop_child pid)) parent ps
        | None => ps
        end
  end.

(** [SessionProcessTree::pids] *)
Definition pids (tree : SessionProcessTree) : list Z := (map_to_list (processes tree)).*1.

Definition node_score (node : ProcessNode) (depth : nat) : nat :=
  let tier := if is_shell node then 1%nat else 2%nat in
  let depth_bonus := if (depth <=? 1)%nat then 100%nat else 0%nat in
  (tier * 1000 + depth_bonus + length (children node))%nat.

Definition best_node := option (nat * ProcessNode).

(** [if best.is_none_or(|(s, _)| score > s) { *best = ... }] *)
Definition consider (best : best_node) (score : nat) (node : ProcessNode) : best_node :=
  match best with
  | None => Some (score, node)
  | Some (best_score, _) => if (best_score <? score)%nat then Some (score, node) else best
  end.

Fixpoint visit_application_nodes (fuel : nat) (tree : SessionProcessTree) (pid : Z) (depth : nat)
    (best : best_node) : option best_node :=
  match fuel with
  | O => None
  | S fuel' =>
      match processes tree !! pid with
      | None => Some best
      | Some node =>
          let best := if is_application node then consider best (node_score node depth) node else best in
          if is_shell node then
            fold_left (fun acc child =>
              match acc with
              | Some best => visit_application_nodes fuel' tree child (S depth) best
              | None => None
              end) (children node) (Some best)
          else Some best
      end
  end.

(** The loop over a list of children. *)
Definition visit_all (fuel : nat) (tree : SessionProcessTree) (cs : list Z) (depth : nat)
    (best : option best_node) : option best_node :=
  fold_left (fun acc child =>
    match acc with
    | Some best => visit_application_nodes fuel tree child depth best
    | None => None
    end) cs best.

(** The number of tracked processes bounds the depth of the visit. *)
Definition visit_fuel (tree : SessionProcessTree) : nat := S (size (processes tree)).

(** The second part of [primary_process]: all descendants of the shell. *)
Definition best_under_shell (tree : SessionProcessTree) : option best_node :=
  match processes tree !! shell_pid tree with
  | None => Some None
  | Some shell => visit_all (visit_fuel tree) tree (children shell) 1 (Some None)
  end.

Definition primary_process (tree : SessionProcessTree) (foreground_pgid : option Z) :
    option (option ProcessNode) :=
  let visit := (fun best : best_node => snd <$> best) <$> best_under_shell tree in
  match foreground_pgid ≫= (fun pgid => processes tree !! pgid) with
  | Some node => if is_application node then Some (Some node) else visit
  | None => visit
  end.

(** ** Histories of a tree *)

Inductive tree_step : SessionProcessTree -> SessionProcessTree -> Prop :=
| step_add_child t p c a0 a : tree_step t (add_child t p c a0 a)
| step_update_exec t p a0 a : tree_step t (update_exec t p a0 a)
| step_remove t p : tree_step t (remove t p).

Inductive tree_reachable : SessionProcessTree -> Prop :=
| reachable_new p a0 a : tree_reachable (tree_new p a0 a)
| reachable_step t t' : tree_reachable t -> tree_step t t' -> tree_reachable t'.

(** The children of a process, as recorded. *)
Definition edge (tree : SessionProcessTree) (p c : Z) : Prop :=
  exists node, processes tree !! p = Some node /\ c ∈ children node.

(** A measure that decreases from parent to child: there are no cycles. *)
Definition ranked (tree : SessionProcessTree) (r : Z -> nat) : Prop :=
  forall p c, edge tree p c -> (r c < r p)%nat.

Lemma push_child_elem c d cs : d ∈ push_child c cs -> d = c \/ d ∈ cs.
Proof. unfold push_child. case_bool_decide; set_solver. Qed.

Lemma drop_child_elem c d cs : d ∈ drop_child c cs -> d ∈ cs.
Proof. unfold drop_child. rewrite !list_elem_of_In, filter_In. tauto. Qed.

(** A new child has no children of its own yet, whatever was known about its
    process id: the edge to it cannot close a cycle. *)
Lemma add_child_edge t p c a0 a x y :
  unknown_parent t p = false ->
  edge (add_child t p c a0 a) x y -> x <> c /\ (edge t x y \/ y = c).
Proof.
  unfold add_child. intros ->. intros (n & Hn & Hy). simpl in Hn.
  apply lookup_insert_Some in Hn as [[<- <-]|[Hcx Hn]]; [by apply elem_of_nil in Hy|].
  split; [done|].
  apply lookup_alter_Some in Hn as [(<- & m & Hm & ->)|[_ Hn]]; [|left; by exists n].
  simpl in Hy. apply push_child_elem in Hy as [->|Hy]; [by right|]. left. by exists m.
Qed.

Lemma update_exec_edge t p a0 a x y : edge (update_exec t p a0 a) x y -> edge t x y.
Proof.
  intros (n & Hn & Hy). simpl in Hn.
  apply lookup_alter_Some in Hn as [(<- & m & Hm & ->)|[_ Hn]]; [|by exists n].
  exists m. by split.
Qed.

Lemma remove_edge t p x y : edge (remove t p) x y -> edge t x y.
Proof.
  unfold remove. destruct (processes t !! p) as [m|] eqn:E; [|done].
  intros (n & Hn & Hy). simpl in Hn. destruct (parent_pid m) as [q|].
  - apply lookup_alter_Some in Hn as [(<- & k & Hk & ->)|[_ Hn]].
    + apply lookup_delete_Some in Hk as [_ Hk]. exists k. split; [done|]. simpl in Hy. eapply drop_child_elem, Hy.
    + apply lookup_delete_Some in Hn as [_ Hn]. by exists n.
  - apply lookup_delete_Some in Hn as [_ Hn]. by exists n.
Qed.

Lemma ranked_add_child t p c a0 a r : ranked t r -> exists r', ranked (add_child t p c a0 a) r'.
Proof.
  intros Hr. destruct (unknown_parent t p) eqn:E; [exists r; unfold add_child; by rewrite E|].
  exists (fun x => if decide (x = c) then O else S (r x)). intros x y Hxy.
  apply add_child_edge in Hxy as [Hx Hxy]; [|done]. destruct (decide (x = c)) as [?|_]; [done|].
  destruct Hxy as [Hxy| ->].
  - apply Hr in Hxy. case_decide; lia.
  - rewrite decide_True by done. lia.
Qed.

Lemma reachable_ranked t : tree_reachable t -> exists r, ranked t r.
Proof.
  induction 1 as [p a0 a|t t' _ [r Hr] Hs].
  - exists (fun _ => O). intros x y (n & Hn & Hy). simpl in Hn. apply lookup_singleton_Some in Hn as [<- <-].
    by apply elem_of_nil in Hy.
  - destruct Hs; [by eapply ranked_add_child|exists r..]; intros x y Hxy; apply Hr.
    + by eapply update_exec_edge.
    + by eapply remove_edge.
Qed.

(** ** The visit ends *)

Lemma visit_all_total fuel t cs depth best :
  (forall c b, c ∈ cs -> is_Some (visit_application_nodes fuel t c depth b)) ->
  is_Some (visit_all fuel t cs depth (Some best)).
Proof.
  revert best. induction cs as [|c cs IH]; intros best Hv; [by eexists|].
  unfold visit_all. simpl. destruct (Hv c best) as [b ->]; [set_solver|].
  apply IH. intros c' b' Hc'. apply Hv. set_solver.
Qed.

(** On the way down every process is met once: its ancestors [A] have larger
    ranks. *)
Lemma visit_total t r fuel A pid depth best :
  ranked t r -> A ⊆ dom (processes t) -> (forall x, x ∈ A -> (r pid < r x)%nat) ->
  (size (dom (processes t)) < fuel + size A)%nat ->
  is_Some (visit_application_nodes fuel t pid depth best).
Proof.
  intros Hr. revert A pid depth best. induction fuel as [|fuel IH]; intros A pid depth best HA Hlt Hs.
  { pose proof (subseteq_size _ _ HA). lia. }
  simpl. destruct (processes t !! pid) as [n|] eqn:E; [|by eexists].
  case_match; [|by eexists]. apply visit_all_total. intros c b Hc.
  apply (IH ({[pid]} ∪ A)).
  - apply union_subseteq. split; [|done]. apply singleton_subseteq_l, elem_of_dom. by eexists.
  - assert (r c < r pid)%nat by (apply Hr; by exists n).
    intros x [->%elem_of_singleton|Hx%Hlt]%elem_of_union; lia.
  - rewrite size_union; [rewrite size_singleton; lia|].
    apply disjoint_singleton_l. intros Hp%Hlt. lia.
Qed.

Lemma visit_all_fuel t r cs best :
  ranked t r -> is_Some (visit_all (visit_fuel t) t cs 1 (Some best)).
Proof.
  intros Hr. apply visit_all_total. intros c b _. apply (visit_total t r _ ∅); [done|set_solver..|].
  unfold visit_fuel. rewrite size_dom, size_empty. lia.
Qed.

(** ** The visit finds the best application *)

(** [under t d p d' p']: the visit of [p] at depth [d] meets [p'] at depth
    [d']; it goes through shells only. *)
Inductive under (t : SessionProcessTree) : nat -> Z -> nat -> Z -> Prop :=
| under_here d p : under t d p d p
| under_child d p node c d' p' :
    processes t !! p = Some node -> is_shell node = true -> c ∈ children node ->
    under t (S d) c d' p' -> under t d p d' p'.

(** An application the visit of [p] meets, and its score there. *)
Definition candidate (t : SessionProcessTree) (d : nat) (p : Z) (score : nat) (node : ProcessNode) : Prop :=
  exists d' p', under t d p d' p' /\ processes t !! p' = Some node
    /\ is_application node = true /\ score = node_score node d'.

Definition at_least (best : best_node) (score : nat) : Prop :=
  exists s n, best = Some (s, n) /\ (score <= s)%nat.

(** [best'] is the best of [best] and the candidates [C]. *)
Record improves (C : nat -> ProcessNode -> Prop) (best best' : best_node) : Prop := {
  improves_candidates : forall s n, C s n -> at_least best' s;
  improves_old : forall s n, best = Some (s, n) -> at_least best' s;
  improves_from : best' = best \/ exists s n, best' = Some (s, n) /\ C s n;
}.

Lemma improves_refl (C : nat -> ProcessNode -> Prop) best :
  (forall s n, ~ C s n) -> improves C best best.
Proof. intros HC. split; [naive_solver| |by left]. intros s n ->. by exists s, n. Qed.

Lemma improves_trans (C C1 C2 : nat -> ProcessNode -> Prop) b b1 b2 :
  (forall s n, C s n <-> C1 s n \/ C2 s n) ->
  improves C1 b b1 -> improves C2 b1 b2 -> improves C b b2.
Proof.
  intros HC [H1 H2 H3] [G1 G2 G3].
  assert (forall s, at_least b1 s -> at_least b2 s) as Hup.
  { intros s (s1 & n1 & E & ?). destruct (G2 s1 n1 E) as (s2 & n2 & ? & ?). exists s2, n2. split; [done|lia]. }
  split.
  - intros s n [Hc|Hc]%HC; [by eapply Hup, H1|by eapply G1].
  - intros s n E. by eapply Hup, H2.
  - destruct G3 as [->|(s & n & -> & Hc)]; [|right; exists s, n; rewrite HC; tauto].
    destruct H3 as [->|(s & n & -> & Hc)]; [by left|right; exists s, n; rewrite HC; tauto].
Qed.

Lemma improves_consider best score node :
  improves (fun s n => s = score /\ n = node) best (consider best score node).
Proof.
  unfold consider. destruct best as [[s0 n0]|].
  - destruct (Nat.ltb_spec s0 score) as [Hl|Hl]; (split; [intros s n [-> ->]|intros s n [= <- <-]|]).
    + by exists score, node.
    + exists score, node. split; [done|lia].
    + right. by exists score, node.
    + by exists s0, n0.
    + by exists s0, n0.
    + by left.
  - split; [intros s n [-> ->]; by exists score, node|done|]. right. by exists score, node.
Qed.

Lemma visit_all_improves fuel t cs depth b b' :
  (forall c b b', visit_application_nodes fuel t c depth b = Some b' ->
     improves (candidate t depth c) b b') ->
  visit_all fuel t cs depth (Some b) = Some b' ->
  improves (fun s n => exists c, c ∈ cs /\ candidate t depth c s n) b b'.
Proof.
  intros Hv. revert b. induction cs as [|c cs IH]; intros b Hb.
  { injection Hb as <-. apply improves_refl. intros s n (c & Hc & _). by apply elem_of_nil in Hc. }
  unfold visit_all in Hb. simpl in Hb.
  destruct (visit_application_nodes fuel t c depth b) as [b1|] eqn:E.
  - eapply improves_trans; [|by apply Hv|by apply IH]. intros s n. simpl. set_solver.
  - exfalso. clear -Hb. by induction cs.
Qed.

Lemma candidate_unfold t d p node s n :
  processes t !! p = Some node ->
  candidate t d p s n <->
  (is_application node = true /\ s = node_score node d /\ n = node)
  \/ (is_shell node = true /\ exists c, c ∈ children node /\ candidate t (S d) c s n).
Proof.
  intros Hp. split.
  - intros (d' & p' & Hu & Hn & Ha & ->). destruct Hu as [d p|d p m c d' p' Hm Hsh Hc Hu].
    + simplify_eq. by left.
    + simplify_eq. right. split; [done|]. exists c. split; [done|]. by exists d', p'.
  - intros [(Ha & -> & ->)|(Hs & c & Hc & d' & p' & Hu & Hn & Ha & ->)].
    + exists d, p. split; [constructor|done].
    + exists d', p'. split; [by eapply under_child|done].
Qed.

Lemma visit_improves fuel t pid depth b b' :
  visit_application_nodes fuel t pid depth b = Some b' -> improves (candidate t depth pid) b b'.
Proof.
  revert pid depth b b'. induction fuel as [|fuel IH]; intros pid depth b b'; [done|]. simpl.
  destruct (processes t !! pid) as [node|] eqn:E; [|intros [= <-]].
  2:{ apply improves_refl. intros s n (d' & p' & Hu & Hn & _). destruct Hu; congruence. }
  set (b1 := if is_application node then _ else _).
  assert (improves (fun s n => is_application node = true /\ s = node_score node depth /\ n = node) b b1) as H1.
  { subst b1. destruct (is_application node); [|apply improves_refl; naive_solver].
    eapply improves_trans; [|apply improves_consider|apply (improves_refl (fun _ _ => False)); tauto].
    simpl. naive_solver. }
  destruct (is_shell node) eqn:Hs.
  - intros Hv.
    eapply (improves_trans _ _ (fun s n => exists c, c ∈ children node /\ candidate t (S depth) c s n));
      [|exact H1|].
    + intros s n. rewrite candidate_unfold by done. rewrite Hs. naive_solver.
    + eapply visit_all_improves; [|exact Hv]. intros c ? ?. apply IH.
  - intros [= <-]. eapply improves_trans; [|exact H1|apply (improves_refl (fun _ _ => False)); tauto].
    intros s n. rewrite candidate_unfold by done. rewrite Hs. naive_solver.
Qed.

(** The applications under the shell. *)
Definition application (t : SessionProcessTree) (score : nat) (node : ProcessNode) : Prop :=
  exists shell c, processes t !! shell_pid t = Some shell /\ c ∈ children shell
    /\ candidate t 1 c score node.

Definition foreground_application (t : SessionProcessTree) (pgid : option Z) (node : ProcessNode) : Prop :=
  exists p, pgid = Some p /\ processes t !! p = Some node /\ is_application node = true.

Lemma application_under t shell s n :
  processes t !! shell_pid t = Some shell ->
  (exists c, c ∈ children shell /\ candidate t 1 c s n) <-> application t s n.
Proof.
  intros Hsh. split; [intros (c & ? & ?); by exists shell, c|].
  intros (sh & c & ? & ? & ?). simplify_eq. by exists c.
Qed.

(** What the visit of the shell's children returns. *)
Lemma visit_best t r :
  ranked t r ->
  exists best, best_under_shell t = Some best /\ improves (application t) None best.
Proof.
  intros Hr. unfold best_under_shell. destruct (processes t !! shell_pid t) as [shell|] eqn:E.
  - destruct (visit_all_fuel t r (children shell) None Hr) as [best Hb]. exists best.
    split; [done|].
    apply visit_all_improves in Hb; [|intros; by eapply visit_improves].
    eapply (improves_trans _ _ (fun _ _ => False)); [|exact Hb|apply improves_refl; tauto].
    intros s n. rewrite (application_under t shell) by done. tauto.
  - exists None. split; [done|]. apply improves_refl. intros s n (sh & c & ? & _). congruence.
Qed.

(** The choice of the documentation of [primary_process]. *)
Definition right_choice (t : SessionProcessTree) (pgid : option Z) (choice : option ProcessNode) : Prop :=
  match choice with
  | Some node =>
      foreground_application t pgid node
      \/ (forall n, ~ foreground_application t pgid n)
         /\ exists score, application t score node
            /\ forall s n, application t s n -> (s <= score)%nat
  | None => (forall n, ~ foreground_application t pgid n) /\ forall s n, ~ application t s n
  end.

Lemma best_is_right t pgid best :
  (forall n, ~ foreground_application t pgid n) -> improves (application t) None best ->
  right_choice t pgid (snd <$> best).
Proof.
  intros Hno [Hc _ Hfrom]. destruct best as [[s0 n0]|]; simpl.
  - right. split; [done|]. exists s0. destruct Hfrom as [?|(s & n & ? & Ha)]; [done|]. simplify_eq.
    split; [done|]. intros s' n' (s1 & n1 & ? & ?)%Hc. by simplify_eq.
  - split; [done|]. by intros s n (? & ? & ? & ?)%Hc.
Qed.

Lemma primary_process_right t pgid r :
  ranked t r -> exists choice, primary_process t pgid = Some choice /\ right_choice t pgid choice.
Proof.
  intros Hr. destruct (visit_best t r Hr) as (best & Hb & Himp).
  unfold primary_process. rewrite Hb. simpl.
  destruct (pgid ≫= _) as [node|] eqn:Hp; [destruct (is_application node) eqn:Ha|].
  - apply bind_Some in Hp as (p & -> & Hp). eexists. split; [done|]. left. by exists p.
  - eexists. split; [done|]. apply best_is_right; [|done].
    intros n (p & -> & Hn & Hna). simpl in Hp. congruence.
  - eexists. split; [done|]. apply best_is_right; [|done].
    intros n (p & -> & Hn & Hna). simpl in Hp. congruence.
Qed.

(** C17. On every tree that forks, execs and exits can produce, choosing the
    primary process ends, and the choice is the foreground application if
    there is one, else an application under the shell of maximal score, and
    nothing only if there is no application. *)
Theorem primary_process_is_the_best t pgid :
  tree_reachable t ->
  exists choice, primary_process t pgid = Some choice /\ right_choice t pgid choice.
Proof.
  intros [r Hr]%reachable_ranked. by eapply primary_process_right.
Qed.

(** A shell with the editor it runs in the foreground. *)
Definition sample_tree : SessionProcessTree :=
  add_child (add_child (tree_new 1 (utf8 "/bin/bash") [utf8 "/bin/bash"])
    1 10 (utf8 "bash") [utf8 "bash"; utf8 "-c"; utf8 "vim notes"])
    10 11 (utf8 "/usr/bin/vim") [utf8 "/usr/bin/vim"; utf8 "notes"].

Lemma primary_process_is_the_best_witness :
  (exists choice, primary_process sample_tree None = Some choice /\ right_choice sample_tree None choice)
  /\ command_name <$> (primary_process sample_tree None ≫= id) = Some (utf8 "vim").
Proof.
  split; [|by vm_compute]. apply primary_process_is_the_best.
  eapply reachable_step; [|constructor]. eapply reachable_step; [|constructor]. constructor.
Defined.

(** ** What the score does not do

    The documentation ranks closer descendants over deeper ones; the score
    gives a bonus at depth one only, and counts the children of a process in
    the same unit. *)

Definition leaf (parent : Z) (name : string) : ProcessNode :=
  mkProcessNode (Some parent) (utf8 name) [utf8 name] [].

Lemma deeper_can_win :
  let near := leaf 10 "make" in
  let far := mkProcessNode (Some 12) (utf8 "cc") [utf8 "cc"] [20] in
  (node_score near 2 < node_score far 3)%nat.
Proof. vm_compute. lia. Qed.

Lemma many_children_beat_a_binary :
  let binary := leaf 10 "vim" in
  let script := mkProcessNode (Some 1) (utf8 "sh") [utf8 "sh"; utf8 "run.sh"] (seqZ 100 901) in
  is_shell_script script = true /\ (node_score binary 2 < node_score script 1)%nat.
Proof. vm_compute. split; [done|lia]. Qed.

(** A process id reported again under another parent stays a child of the
    first one: [remove] only reaches the latest parent. *)
Lemma stale_child_survives_removal :
  let t := add_child (add_child (add_child (tree_new 1 (utf8 "bash") [utf8 "bash"])
             1 10 (utf8 "sh") [utf8 "sh"]) 1 11 (utf8 "ls") [utf8 "ls"]) 10 11 (utf8 "ls") [utf8 "ls"] in
  edge (remove t 11) 1 11.
Proof. eexists. split; [by vm_compute|]. vm_compute. set_solver. Qed.
