(* ===== verification/ProcessMonitor.v ===== *)
(** * ProcessMonitor: which command a session runs

    [src/process_monitor/mod.rs] and [state_machine.rs]: process events and
    the periodic refresh from /proc keep a process tree per session, from
    which the name of the running command and the state of its task are
    derived; changes go to the node's state loop. The system is the record
    [ProcEnv]: what the files of /proc hold and what [tcgetpgrp] returns at
    the time of a call. The two locks are taken around each access; the
    monitor's thread is the only one that handles events. *)

From S2P Require Import Prelude Bytes Utf8 Str SessionCatalog AgentDetector ProcessTree.

(** What the system shows when it is asked. *)
Record ProcEnv := mkProcEnv {
  cmdline_file : Z -> option text;   (** /proc/<pid>/cmdline, if it can be read as text *)
  children_file : Z -> option text;  (** /proc/<pid>/task/<pid>/children *)
  tcgetpgrp : Z -> Z;                (** the foreground group of a terminal, negative on error *)
  now_ms : Z;                        (** [Instant::now()] *)
}.

Inductive ProcessEvent :=
| Fork (parent_pid child_pid : Z)
| Exec (pid : Z) (argv0 : text) (argv : list text)
| Exit (pid : Z) (exit_code : option Z).

(** What the monitor sends to the state loop. *)
Inductive StateEvent :=
| SessionTaskStateChanged (target_id : string) (task_state : ManagedSessionTaskState)
| SessionCommandNameChanged (target_id : string) (command_name : text)
| SessionCommandNameCleared (target_id : string).

Record SessionState := mkSessionState {
  tree : SessionProcessTree;
  pty_master_fd : Z;
  last_command_name : option text;
  last_task_state : ManagedSessionTaskState;
  last_netlink_event : option Z;
  pane_text : ProcEnv -> text;
}.

Record ProcessMonitor := mkProcessMonitor {
  sessions : gmap string SessionState;
  pid_to_session : gmap Z string;
  sent : list StateEvent;
}.

Definition NETLINK_STALE_THRESHOLD : Z := 500.

(** ** Reading /proc *)

Definition read_proc_cmdline (env : ProcEnv) (pid : Z) : option text * option (list text) :=
  let contents := default [] (cmdline_file env pid) in
  let parts := List.filter nonempty (split_by (Z.eqb 0) contents) in
  match parts with
  | [] => (None, None)
  | argv0 :: _ => (Some argv0, Some parts)
  end.

Definition read_proc_children (env : ProcEnv) (pid : Z) : list Z :=
  omap (parse_uint 32) (split_whitespace (default [] (children_file env pid))).

(** [argv0.unwrap_or_default()] and [argv.unwrap_or_default()] *)
Definition cmdline_or_default (env : ProcEnv) (pid : Z) : text * list text :=
  let '(argv0, argv) := read_proc_cmdline env pid in (default [] argv0, default [] argv).

Definition foreground_pgid (env : ProcEnv) (fd : Z) : option Z :=
  let pgid := tcgetpgrp env fd in
  if pgid <? 0 then None else Some (wrap 32 pgid).

(** [read_foreground_process_cmdline]; [getpgid] is the system's. *)
Definition read_foreground_process_cmdline (getpgid : Z -> Z) (env : ProcEnv) (fd : Z) :
    option text * option (list text) :=
  let pgid := tcgetpgrp env fd in
  if pgid <? 0 then (None, None)
  else
    let leader_pid := getpgid pgid in
    if leader_pid <=? 0 then (None, None) else read_proc_cmdline env (wrap 32 leader_pid).

Section monitor.
Context `{JsonValue}.

(** ** The state of a session *)

(** [None] stands for a visit of the tree that never returns. *)
Definition derive_session_state (env : ProcEnv) (t : SessionProcessTree) (fd : Z) (pane : text) :
    option (option text * ManagedSessionTaskState) :=
  match primary_process t (foreground_pgid env fd) with
  | None => None
  | Some None => Some (None, Input)
  | Some (Some primary) =>
      let name := detect_command_name default_registry (command_name primary)
                    (Some (argv primary)) pane in
      let task_state :=
        if is_registered_agent default_registry name then
          let detected := infer_task_state default_registry (Some name) pane in
          if bool_decide (detected = TaskUnknown) then Input else detected
        else Running in
      Some (Some name, task_state)
  end.

(** [recompute_and_emit]: the new session state and the events sent. *)
Definition recompute_and_emit (env : ProcEnv) (target_id : string) (state : SessionState) :
    option (SessionState * list StateEvent) :=
  match derive_session_state env (tree state) (pty_master_fd state) (pane_text state env) with
  | None => None
  | Some (name, task_state) =>
      let task_events :=
        if bool_decide (last_task_state state = task_state) then []
        else [SessionTaskStateChanged target_id task_state] in
      let name_events :=
        if bool_decide (last_command_name state = name) then []
        else match name with
             | Some n => [SessionCommandNameChanged target_id n]
             | None => [SessionCommandNameCleared target_id]
             end in
      Some (mkSessionState (tree state) (pty_master_fd state) name task_state
              (last_netlink_event state) (pane_text state),
            task_events ++ name_events)
  end.

Definition with_tree (state : SessionState) (t : SessionProcessTree) : SessionState :=
  mkSessionState t (pty_master_fd state) (last_command_name state) (last_task_state state)
    (last_netlink_event state) (pane_text state).

Definition with_netlink_event (state : SessionState) (at_ms : Z) : SessionState :=
  mkSessionState (tree state) (pty_master_fd state) (last_command_name state) (last_task_state state)
    (Some at_ms) (pane_text state).

(** Store a recomputed session and send its events. *)
Definition recompute (env : ProcEnv) (target_id : string) (state : SessionState)
    (ss : gmap string SessionState) (pids : gmap Z string) (out : list StateEvent) :
    option ProcessMonitor :=
  match recompute_and_emit env target_id state with
  | None => None
  | Some (state', events) => Some (mkProcessMonitor (<[target_id := state']> ss) pids (out ++ events))
  end.

(** ** Sessions *)

Definition register_session (env : ProcEnv) (target_id : string) (shell_pid fd : Z)
    (pane : ProcEnv -> text) (m : ProcessMonitor) : ProcessMonitor :=
  let '(argv0, argv) := read_proc_cmdline env shell_pid in
  let t := tree_new shell_pid (default (utf8 "bash") argv0) (default [] argv) in
  mkProcessMonitor
    (<[target_id := mkSessionState t fd None TaskUnknown None pane]> (sessions m))
    (<[shell_pid := target_id]> (pid_to_session m)) (sent m).

Definition unregister_session (target_id : string) (m : ProcessMonitor) : ProcessMonitor :=
  mkProcessMonitor (delete target_id (sessions m))
    (filter (fun '(_, t) => t <> target_id) (pid_to_session m)) (sent m).

(** ** Events *)

Definition handle_fork (env : ProcEnv) (parent child : Z) (m : ProcessMonitor) : option ProcessMonitor :=
  match pid_to_session m !! parent with
  | None => Some m
  | Some target_id =>
      let '(argv0, argv) := cmdline_or_default env child in
      let pids := <[child := target_id]> (pid_to_session m) in
      match sessions m !! target_id with
      | Some state =>
          let state := with_netlink_event state (now_ms env) in
          let state := with_tree state (add_child (tree state) parent child argv0 argv) in
          recompute env target_id state (sessions m) pids (sent m)
      | None => Some (mkProcessMonitor (sessions m) pids (sent m))
      end
  end.

Definition handle_exec (env : ProcEnv) (pid : Z) (m : ProcessMonitor) : option ProcessMonitor :=
  match pid_to_session m !! pid with
  | None => Some m
  | Some target_id =>
      let '(argv0, argv) := cmdline_or_default env pid in
      match sessions m !! target_id with
      | Some state =>
          let state := with_netlink_event state (now_ms env) in
          let state := with_tree state (update_exec (tree state) pid argv0 argv) in
          recompute env target_id state (sessions m) (pid_to_session m) (sent m)
      | None => Some m
      end
  end.

Definition handle_exit (env : ProcEnv) (pid : Z) (m : ProcessMonitor) : option ProcessMonitor :=
  match pid_to_session m !! pid with
  | None => Some m
  | Some target_id =>
      let pids := delete pid (pid_to_session m) in
      match sessions m !! target_id with
      | Some state =>
          let state := with_netlink_event state (now_ms env) in
          let shell_exited := pid =? shell_pid (tree state) in
          let state := with_tree state (remove (tree state) pid) in
          if shell_exited
          then Some (mkProcessMonitor (delete target_id (sessions m)) pids (sent m))
          else recompute env target_id state (sessions m) pids (sent m)
      | None => Some (mkProcessMonitor (sessions m) pids (sent m))
      end
  end.

Definition handle_process_event (env : ProcEnv) (event : ProcessEvent) (m : ProcessMonitor) :
    option ProcessMonitor :=
  match event with
  | Fork parent child => handle_fork env parent child m
  | Exec pid _ _ => handle_exec env pid m
  | Exit pid _ => handle_exit env pid m
  end.

(** The events of a batch, each with the system it finds. *)
Definition handle_process_events (events : list (ProcEnv * ProcessEvent)) (m : ProcessMonitor) :
    option ProcessMonitor :=
  fold_left (fun acc '(env, event) => acc ≫= handle_process_event env event) events (Some m).

(** ** The refresh from /proc *)

(** [rebuild_children] returns at depth two: [levels] is the rest. *)
Fixpoint rebuild_children (levels : nat) (env : ProcEnv) (target_id : string) (parent shell : Z)
    (st : SessionProcessTree * gmap Z string) : SessionProcessTree * gmap Z string :=
  match levels with
  | O => st
  | S levels' =>
      fold_left (fun '(t, pids) child =>
        if child =? shell then (t, pids)
        else
          let '(argv0, argv) := cmdline_or_default env child in
          let name := first_argv_token argv0 in
          let st := (add_child t parent child argv0 argv, <[child := target_id]> pids) in
          if is_shell_command name
          then rebuild_children levels' env target_id child shell st
          else st) (read_proc_children env parent) st
  end.

Definition remove_processes (gone : list Z) (st : SessionProcessTree * gmap Z string) :
    SessionProcessTree * gmap Z string :=
  fold_left (fun '(t, pids) pid => (remove t pid, delete pid pids)) gone st.

(** The tree and the map of process ids after the rebuild. *)
Definition rebuilt (env : ProcEnv) (target_id : string) (t : SessionProcessTree) (pids : gmap Z string) :
    SessionProcessTree * gmap Z string :=
  let shell := shell_pid t in
  let old_children := List.filter (fun p => negb (p =? shell)) (ProcessTree.pids t) in
  rebuild_children 2 env target_id shell shell (remove_processes old_children (t, pids)).

Definition refresh_session_from_proc (env : ProcEnv) (target_id : string) (state : SessionState)
    (m : ProcessMonitor) : option ProcessMonitor :=
  let '(t, pids) := rebuilt env target_id (tree state) (pid_to_session m) in
  recompute env target_id (with_tree state t) (sessions m) pids (sent m).

Definition is_stale (env : ProcEnv) (state : SessionState) : bool :=
  match last_netlink_event state with
  | Some at_ms => NETLINK_STALE_THRESHOLD <=? now_ms env - at_ms
  | None => true
  end.

(** The ids of [order], the order in which the map lists its sessions, that
    were stale when the timer fired. *)
Definition stale_ids (env : ProcEnv) (order : list string) (m : ProcessMonitor) : list string :=
  List.filter (fun id => match sessions m !! id with Some s => is_stale env s | None => false end) order.

Definition fallback_refresh (env : ProcEnv) (order : list string) (m : ProcessMonitor) :
    option ProcessMonitor :=
  fold_left (fun acc id =>
    m ← acc;
    match sessions m !! id with
    | Some state => refresh_session_from_proc env id state m
    | None => Some m
    end) (stale_ids env order m) (Some m).
(** ** Histories of the monitor *)

Inductive action :=
| OnEvent (env : ProcEnv) (event : ProcessEvent)
| OnTimer (env : ProcEnv) (order : list string)
| OnRegister (env : ProcEnv) (target_id : string) (shell_pid fd : Z) (pane : ProcEnv -> text)
| OnUnregister (target_id : string).

Definition act_on (m : ProcessMonitor) (a : action) : option ProcessMonitor :=
  match a with
  | OnEvent env event => handle_process_event env event m
  | OnTimer env order => fallback_refresh env order m
  | OnRegister env id pid fd pane => Some (register_session env id pid fd pane m)
  | OnUnregister id => Some (unregister_session id m)
  end.

Fixpoint run (m : ProcessMonitor) (actions : list action) : option ProcessMonitor :=
  match actions with
  | [] => Some m
  | a :: rest => act_on m a ≫= fun m' => run m' rest
  end.

(** ** The monitor always returns *)

Definition trees_reachable (m : ProcessMonitor) : Prop :=
  map_Forall (fun _ s => tree_reachable (tree s)) (sessions m).

Lemma recompute_returns env id state ss ps out :
  map_Forall (fun _ s => tree_reachable (tree s)) ss -> tree_reachable (tree state) ->
  exists m, recompute env id state ss ps out = Some m /\ trees_reachable m.
Proof.
  intros Hss Hst. destruct (reachable_ranked _ Hst) as [r Hr].
  destruct (primary_process_right (tree state) (foreground_pgid env (pty_master_fd state)) r Hr)
    as (choice & Hp & _).
  unfold recompute, recompute_and_emit, derive_session_state. rewrite Hp.
  destruct choice as [node|]; eexists; (split; [done|]); by apply map_Forall_insert_2.
Qed.

Lemma tree_reachable_add t p c a0 a : tree_reachable t -> tree_reachable (add_child t p c a0 a).
Proof. intros Ht. eapply reachable_step; [done|constructor]. Qed.

Lemma tree_reachable_remove t p : tree_reachable t -> tree_reachable (remove t p).
Proof. intros Ht. eapply reachable_step; [done|constructor]. Qed.

Lemma tree_reachable_exec t p a0 a : tree_reachable t -> tree_reachable (update_exec t p a0 a).
Proof. intros Ht. eapply reachable_step; [done|constructor]. Qed.

#[local] Hint Resolve tree_reachable_add tree_reachable_remove tree_reachable_exec : core.

Lemma rebuild_children_reachable levels env id parent shell t ps :
  tree_reachable t -> tree_reachable (rebuild_children levels env id parent shell (t, ps)).1.
Proof.
  revert parent t ps. induction levels as [|levels IH]; intros parent t ps Ht; [done|]. simpl.
  generalize (read_proc_children env parent) as cs. intros cs. revert t ps Ht.
  induction cs as [|c cs IHc]; intros t ps Ht; [done|]. simpl.
  destruct (c =? shell); [by apply IHc|]. destruct (cmdline_or_default env c) as [a0 a].
  case_match; [|by apply IHc; eauto].
  destruct (rebuild_children levels env id c shell _) as [t' ps'] eqn:E. apply IHc.
  specialize (IH c (add_child t parent c a0 a) (<[c := id]> ps)). rewrite E in IH. by apply IH; eauto.
Qed.

Lemma remove_processes_reachable gone t ps :
  tree_reachable t -> tree_reachable (remove_processes gone (t, ps)).1.
Proof. revert t ps. induction gone as [|g gone IH]; intros t ps Ht; [done|]. simpl. apply IH; eauto. Qed.

Lemma rebuilt_reachable env id t ps : tree_reachable t -> tree_reachable (rebuilt env id t ps).1.
Proof.
  intros Ht. unfold rebuilt. destruct (remove_processes _ _) as [t' ps'] eqn:E.
  apply rebuild_children_reachable.
  pose proof (remove_processes_reachable (List.filter (fun p => negb (p =? shell_pid t)) (ProcessTree.pids t)) t ps Ht).
  by rewrite E in *.
Qed.

Lemma refresh_returns env id state m :
  trees_reachable m -> sessions m !! id = Some state ->
  exists m', refresh_session_from_proc env id state m = Some m' /\ trees_reachable m'.
Proof.
  intros Hm Hs. unfold refresh_session_from_proc.
  pose proof (rebuilt_reachable env id (tree state) (pid_to_session m) (Hm _ _ Hs)) as Ht.
  destruct (rebuilt _ _ _ _) as [t ps]. by apply recompute_returns.
Qed.

Lemma fallback_refresh_returns env order m :
  trees_reachable m -> exists m', fallback_refresh env order m = Some m' /\ trees_reachable m'.
Proof.
  unfold fallback_refresh. generalize (stale_ids env order m) as ids. intros ids. revert m.
  induction ids as [|id ids IH]; intros m Hm; [by exists m|]. simpl.
  destruct (sessions m !! id) as [s|] eqn:E; [|by apply IH].
  destruct (refresh_returns env id s m Hm E) as (m1 & -> & H1). by apply IH.
Qed.

Lemma handle_process_event_returns env event m :
  trees_reachable m -> exists m', handle_process_event env event m = Some m' /\ trees_reachable m'.
Proof.
  intros Hm. destruct event as [p c|p ? ?|p ?]; simpl;
    unfold handle_fork, handle_exec, handle_exit;
    destruct (pid_to_session m !! p) as [id|]; [|by eauto| |by eauto| |by eauto].
  - destruct (cmdline_or_default env c). destruct (sessions m !! id) as [s|] eqn:E; [|by eauto].
    apply recompute_returns; [done|]. simpl. eauto.
  - destruct (cmdline_or_default env p). destruct (sessions m !! id) as [s|] eqn:E; [|by eauto].
    apply recompute_returns; [done|]. simpl. eauto.
  - destruct (sessions m !! id) as [s|] eqn:E; [|by eauto]. case_match.
    + eexists. split; [done|]. by apply map_Forall_delete.
    + apply recompute_returns; [done|]. simpl. eauto.
Qed.

Lemma act_on_returns m a : trees_reachable m -> exists m', act_on m a = Some m' /\ trees_reachable m'.
Proof.
  intros Hm. destruct a as [env ev|env order|env id p fd pane|id]; simpl.
  - by apply handle_process_event_returns.
  - by apply fallback_refresh_returns.
  - eexists. split; [done|]. unfold register_session. destruct (read_proc_cmdline env p).
    apply map_Forall_insert_2; [constructor|done].
  - eexists. split; [done|]. by apply map_Forall_delete.
Qed.

Lemma run_returns m actions : trees_reachable m -> exists m', run m actions = Some m' /\ trees_reachable m'.
Proof.
  revert m. induction actions as [|a rest IH]; intros m Hm; [by exists m|]. simpl.
  destruct (act_on_returns m a Hm) as (m1 & -> & H1). by apply IH.
Qed.
(** ** What a refresh finds *)

(** The processes below [parent] that a refresh meets: the children /proc
    lists, and below those that are shells or show no command yet, one level
    more for each level left. *)
Fixpoint listed (levels : nat) (env : ProcEnv) (shell parent : Z) : gset Z :=
  match levels with
  | O => ∅
  | S levels' =>
      ⋃ ((fun child =>
            if child =? shell then ∅
            else {[child]} ∪ (if is_shell_command (first_argv_token (cmdline_or_default env child).1)
                              then listed levels' env shell child else ∅))
         <$> read_proc_children env parent)
  end.

Definition tracked (t : SessionProcessTree) : gset Z := dom (processes t).

Lemma add_child_tracked t p c a0 a :
  unknown_parent t p = false -> tracked (add_child t p c a0 a) = {[c]} ∪ tracked t.
Proof. unfold tracked, add_child. intros ->. simpl. by rewrite dom_insert_L, dom_alter_L. Qed.

Lemma add_child_shell t p c a0 a : shell_pid (add_child t p c a0 a) = shell_pid t.
Proof. unfold add_child. by case_match. Qed.

Lemma known_parent_spec t p : unknown_parent t p = false <-> p ∈ tracked t \/ p = shell_pid t.
Proof.
  unfold unknown_parent, tracked. rewrite andb_false_iff, bool_decide_eq_false, negb_false_iff, Z.eqb_eq.
  rewrite elem_of_dom, not_eq_None_Some. done.
Qed.

(** The sets of the two cases of a rebuilt child. *)
Lemma gather_child (c : Z) (T L R : gset Z) : ({[c]} ∪ T ∪ L) ∪ R = T ∪ (({[c]} ∪ L) ∪ R).
Proof. set_solver. Qed.

Lemma known_parent_mono t t' p (A : gset Z) :
  tracked t' = A ∪ tracked t -> shell_pid t' = shell_pid t ->
  unknown_parent t p = false -> unknown_parent t' p = false.
Proof. rewrite !known_parent_spec. intros -> ->. set_solver. Qed.

Lemma rebuild_children_tracked levels env id parent shell t ps :
  unknown_parent t parent = false ->
  let t' := (rebuild_children levels env id parent shell (t, ps)).1 in
  tracked t' = tracked t ∪ listed levels env shell parent /\ shell_pid t' = shell_pid t.
Proof.
  revert parent t ps. induction levels as [|levels IH]; intros parent t ps Hp; [simpl; by rewrite (right_id_L ∅ (∪))|].
  simpl. generalize (read_proc_children env parent) as cs. intros cs. revert t ps Hp.
  induction cs as [|c cs IHc]; intros t ps Hp; simpl; [by rewrite (right_id_L ∅ (∪))|].
  destruct (c =? shell); [destruct (IHc t ps Hp) as [-> ->]; by rewrite (left_id_L ∅ (∪))|].
  destruct (cmdline_or_default env c) as [a0 a]. simpl.
  pose proof (add_child_tracked t parent c a0 a Hp) as H1.
  pose proof (add_child_shell t parent c a0 a) as S1.
  revert H1 S1. generalize (add_child t parent c a0 a) as t1. intros t1 H1 S1.
  destruct (is_shell_command _).
  - destruct (IH c t1 (<[c:=id]> ps)) as [H2 S2]; [apply known_parent_spec; rewrite H1; set_solver +|].
    destruct (rebuild_children levels env id c shell (t1, <[c:=id]> ps)) as [t2 ps2].
    simpl in H2, S2. rewrite H1 in H2. rewrite S1 in S2.
    destruct (IHc t2 ps2) as [-> ->]; [|by rewrite H2, S2, gather_child].
    eapply (known_parent_mono t); [|done..]. rewrite H2, (comm_L (∪) {[c]}), <- (assoc_L (∪)). apply (comm_L (∪)).
  - destruct (IHc t1 (<[c:=id]> ps)) as [-> ->].
    { by eapply (known_parent_mono t). }
    rewrite H1, S1, (right_id_L ∅ (∪) {[c]}), (assoc_L (∪)), (comm_L (∪) {[c]}). done.
Qed.

Lemma remove_tracked t p : tracked (remove t p) = tracked t ∖ {[p]} /\ shell_pid (remove t p) = shell_pid t.
Proof.
  unfold tracked, remove. destruct (processes t !! p) as [n|] eqn:E; simpl.
  - split; [|done]. destruct (parent_pid n); rewrite ?dom_alter_L; apply dom_delete_L.
  - split; [|done]. apply not_elem_of_dom in E. set_solver.
Qed.

Lemma remove_processes_tracked gone t ps :
  let t' := (remove_processes gone (t, ps)).1 in
  tracked t' = tracked t ∖ list_to_set gone /\ shell_pid t' = shell_pid t.
Proof.
  revert t ps. induction gone as [|g gone IH]; intros t ps; simpl; [split; [set_solver|done]|].
  destruct (IH (remove t g) (delete g ps)) as [-> ->]. destruct (remove_tracked t g) as [-> ->].
  split; [set_solver|done].
Qed.

(** A refresh forgets what the tree held and tracks the shell and the
    processes /proc lists under it: its children, and the children of those
    that are shells. *)
Theorem refresh_tracks_what_proc_lists env id t ps :
  shell_pid t ∈ tracked t ->
  tracked (rebuilt env id t ps).1 = {[shell_pid t]} ∪ listed 2 env (shell_pid t) (shell_pid t)
  /\ shell_pid (rebuilt env id t ps).1 = shell_pid t.
Proof.
  intros Hs. unfold rebuilt.
  pose proof (remove_processes_tracked (List.filter (fun p => negb (p =? shell_pid t)) (ProcessTree.pids t)) t ps) as Hr.
  destruct (remove_processes _ _) as [t1 ps1]. simpl in Hr. destruct Hr as [H1 S1].
  assert (tracked t1 = {[shell_pid t]}) as H2.
  { rewrite H1. apply set_eq. intros p. rewrite elem_of_difference, elem_of_list_to_set, elem_of_singleton.
    rewrite list_elem_of_In, filter_In, negb_true_iff, Z.eqb_neq, <- list_elem_of_In.
    unfold ProcessTree.pids. rewrite list_elem_of_fmap. unfold tracked in *. split.
    - intros [Hp Hno]. destruct (decide (p = shell_pid t)); [done|]. destruct Hno. split; [|done].
      apply elem_of_dom in Hp as [nd Hnd]. exists (p, nd). by rewrite elem_of_map_to_list.
    - intros ->. split; [done|tauto]. }
  destruct (rebuild_children_tracked 2 env id (shell_pid t) (shell_pid t) t1 ps1) as [H3 S3].
  { apply known_parent_spec. rewrite H2. set_solver. }
  rewrite H3, H2, S3, S1. done.
Qed.

(** ** What the state loop is told

    The receiver of the events keeps a name and a task state per session. *)

Definition view := (option text * ManagedSessionTaskState)%type.

Definition replay (target_id : string) (v : view) (e : StateEvent) : view :=
  match e with
  | SessionTaskStateChanged id s => if bool_decide (id = target_id) then (v.1, s) else v
  | SessionCommandNameChanged id n => if bool_decide (id = target_id) then (Some n, v.2) else v
  | SessionCommandNameCleared id => if bool_decide (id = target_id) then (None, v.2) else v
  end.

Definition monitor_view (s : SessionState) : view := (last_command_name s, last_task_state s).

(** Between two states of the monitor, the events sent take the receiver's
    view of [id] to the monitor's own; the session was there before. *)
Definition tells (id : string) (m m' : ProcessMonitor) : Prop :=
  exists new, sent m' = sent m ++ new /\
    forall s', sessions m' !! id = Some s' ->
      exists s, sessions m !! id = Some s /\ fold_left (replay id) new (monitor_view s) = monitor_view s'.

#[global] Instance tells_refl id : Reflexive (tells id).
Proof. intros m. exists []. rewrite app_nil_r. split; [done|]. eauto. Qed.

#[global] Instance tells_trans id : Transitive (tells id).
Proof.
  intros m1 m2 m3 (n1 & E1 & H1) (n2 & E2 & H2). exists (n1 ++ n2). split.
  - by rewrite E2, E1, app_assoc.
  - intros s3 (s2 & Hs2 & R2)%H2. destruct (H1 s2 Hs2) as (s1 & Hs1 & R1).
    exists s1. split; [done|]. by rewrite fold_left_app, R1.
Qed.

Lemma recompute_and_emit_tells env id s s' events :
  recompute_and_emit env id s = Some (s', events) ->
  fold_left (replay id) events (monitor_view s) = monitor_view s'
  /\ forall other v, other <> id -> fold_left (replay other) events v = v.
Proof.
  unfold recompute_and_emit, monitor_view.
  destruct (derive_session_state _ _ _ _) as [[name ts]|]; [|done]. intros [= <- <-].
  split; [|intros other v Ho]; simpl; do 2 case_bool_decide; subst;
    try destruct name; simpl; rewrite ?bool_decide_eq_true_2 by done; try done;
    by rewrite ?bool_decide_eq_false_2 by done.
Qed.

Lemma recompute_tells env id s s0 m ps m' other :
  recompute env id s (sessions m) ps (sent m) = Some m' ->
  sessions m !! id = Some s0 -> monitor_view s = monitor_view s0 -> tells other m m'.
Proof.
  unfold recompute. destruct (recompute_and_emit env id s) as [[s' events]|] eqn:E; [|done].
  intros [= <-] H0 Hv. apply recompute_and_emit_tells in E as [Hsame Hother].
  exists events. split; [done|]. simpl. intros s1 Hs1.
  destruct (decide (other = id)) as [->|Hne].
  - rewrite lookup_insert_eq in Hs1. injection Hs1 as <-. exists s0. split; [done|]. by rewrite <- Hv.
  - rewrite lookup_insert_ne in Hs1 by done. exists s1. split; [done|]. by apply Hother.
Qed.

Lemma tells_pids id m ps : tells id m (mkProcessMonitor (sessions m) ps (sent m)).
Proof. exists []. rewrite app_nil_r. split; [done|]. simpl. eauto. Qed.

Lemma tells_without id ss m ps :
  (forall s, ss !! id = Some s -> sessions m !! id = Some s) -> tells id m (mkProcessMonitor ss ps (sent m)).
Proof. intros Hss. exists []. rewrite app_nil_r. split; [done|]. simpl. eauto. Qed.

Lemma handle_process_event_tells env event m m' id :
  handle_process_event env event m = Some m' -> tells id m m'.
Proof.
  destruct event as [p c|p ? ?|p ?]; simpl; unfold handle_fork, handle_exec, handle_exit;
    destruct (pid_to_session m !! p) as [t|]; try by intros [= <-].
  - destruct (cmdline_or_default env c) as [a0 a]. destruct (sessions m !! t) as [s|] eqn:E.
    + intros Hr. by eapply recompute_tells.
    + intros [= <-]. apply tells_pids.
  - destruct (cmdline_or_default env p) as [a0 a]. destruct (sessions m !! t) as [s|] eqn:E.
    + intros Hr. by eapply recompute_tells.
    + by intros [= <-].
  - destruct (sessions m !! t) as [s|] eqn:E; [case_match|].
    + intros [= <-]. apply tells_without. intros s' [_ ?]%lookup_delete_Some. done.
    + intros Hr. by eapply recompute_tells.
    + intros [= <-]. apply tells_pids.
Qed.

Lemma fallback_refresh_tells env order m m' id : fallback_refresh env order m = Some m' -> tells id m m'.
Proof.
  unfold fallback_refresh. generalize (stale_ids env order m) as ids. intros ids. revert m.
  induction ids as [|t ids IH]; intros m; [by intros [= <-]|]. simpl.
  destruct (sessions m !! t) as [s|] eqn:E; [|apply IH].
  destruct (refresh_session_from_proc env t s m) as [m1|] eqn:R.
  - intros Hf. transitivity m1; [|by apply IH]. revert R. unfold refresh_session_from_proc.
    destruct (rebuilt _ _ _ _) as [t' ps]. intros R. by eapply recompute_tells.
  - intros Hf. exfalso. clear -Hf. by induction ids.
Qed.

(** The action is not the registration of [id]. *)
Definition registers (id : string) (a : action) : bool :=
  match a with OnRegister _ id' _ _ _ => bool_decide (id' = id) | _ => false end.

Lemma act_on_tells m a m' id : registers id a = false -> act_on m a = Some m' -> tells id m m'.
Proof.
  destruct a as [env ev|env order|env id' p fd pane|id']; simpl; intros Hn.
  - apply handle_process_event_tells.
  - apply fallback_refresh_tells.
  - apply bool_decide_eq_false in Hn. intros [= <-]. unfold register_session.
    destruct (read_proc_cmdline env p). apply tells_without. intros s. by rewrite lookup_insert_ne.
  - intros [= <-]. apply tells_without. intros s [_ ?]%lookup_delete_Some. done.
Qed.

Lemma run_tells m actions m' id :
  Forall (fun a => registers id a = false) actions -> run m actions = Some m' -> tells id m m'.
Proof.
  intros Ha. revert m. induction Ha as [|a rest Hn _ IH]; intros m; simpl; [by intros [= <-]|].
  destruct (act_on m a) as [m1|] eqn:E; [|done]. intros Hr.
  transitivity m1; [by eapply act_on_tells|by apply IH].
Qed.

(** C15. From the registration of a session on, whatever processes start, change
    and end, whenever the refresh runs and whichever other sessions come and
    go, the monitor returns from every call, and a receiver that starts with
    no name and an unknown task and applies the events sent for the session
    holds exactly the name and the state the monitor last derived. *)
Theorem receiver_follows_the_monitor m env id pid fd pane actions :
  trees_reachable m ->
  Forall (fun a => registers id a = false) actions ->
  exists m', run m (OnRegister env id pid fd pane :: actions) = Some m' /\
    exists new, sent m' = sent m ++ new /\
      forall s, sessions m' !! id = Some s ->
        fold_left (replay id) new (None, TaskUnknown) = monitor_view s.
Proof.
  intros Hm Ha. destruct (run_returns m (OnRegister env id pid fd pane :: actions) Hm) as (m' & Hr & _).
  exists m'. split; [done|]. simpl in Hr. apply (run_tells _ _ _ id) in Hr as (new & E & Hv); [|done].
  exists new. unfold register_session in *. destruct (read_proc_cmdline env pid) as [a0 av].
  split; [done|]. intros s (s0 & Hs0 & R)%Hv. simpl in Hs0. rewrite lookup_insert_eq in Hs0.
  by simplify_eq.
Qed.
End monitor.

(** A system with a shell (1) that runs an editor (10). *)
Definition editing : ProcEnv :=
  mkProcEnv
    (fun pid => if pid =? 1 then Some (utf8 "/bin/bash" ++ [0])
                else if pid =? 10 then Some (utf8 "vim" ++ [0] ++ utf8 "notes" ++ [0]) else None)
    (fun pid => if pid =? 1 then Some (utf8 "10 ") else None)
    (fun _ => 10) 1000.

(** The same system after the editor has ended. *)
Definition at_prompt : ProcEnv :=
  mkProcEnv (cmdline_file editing) (fun _ => Some []) (fun _ => 1) 2000.

Definition sample_actions : list action :=
  [OnEvent editing (Fork 1 10); OnEvent editing (Exec 10 [] []); OnTimer at_prompt ["s"];
   OnUnregister "other"].

Lemma receiver_follows_the_monitor_witness :
  (exists m', run (H := text_json) (mkProcessMonitor ∅ ∅ [])
     (OnRegister editing "s" 1 0 (fun _ => []) :: sample_actions) = Some m' /\
    exists new, sent m' = sent (mkProcessMonitor ∅ ∅ []) ++ new /\
      forall s, sessions m' !! "s" = Some s ->
        fold_left (replay "s") new (None, TaskUnknown) = monitor_view s)
  /\ sent <$> run (H := text_json) (mkProcessMonitor ∅ ∅ [])
       (OnRegister editing "s" 1 0 (fun _ => []) :: sample_actions)
     = Some [SessionTaskStateChanged "s" Running; SessionCommandNameChanged "s" (utf8 "vim");
             SessionTaskStateChanged "s" Input; SessionCommandNameCleared "s"].
Proof.
  split; [|by vm_compute]. apply receiver_follows_the_monitor.
  - apply map_Forall_empty.
  - repeat constructor.
Defined.

Lemma refresh_tracks_what_proc_lists_witness :
  tracked (rebuilt editing "s" (tree_new 1 (utf8 "bash") []) ∅).1
  = {[1]} ∪ listed 2 editing 1 1 /\ 10 ∈ listed 2 editing 1 1.
Proof.
  split; [|by apply (bool_decide_unpack _); vm_compute].
  apply (refresh_tracks_what_proc_lists editing "s" (tree_new 1 (utf8 "bash") []) ∅).
  apply (bool_decide_unpack _). by vm_compute.
Defined.

(** When a shell ends before the processes it started, its session goes but
    the process ids stay assigned to it: they are only forgotten one by one,
    as their own exits are reported. *)
Lemma shell_exit_leaves_processes :
  (fun m => (bool_decide (sessions m !! "s" = None), pid_to_session m !! 10))
  <$> run (H := text_json) (mkProcessMonitor ∅ ∅ [])
    [OnRegister editing "s" 1 0 (fun _ => []); OnEvent editing (Fork 1 10); OnEvent editing (Exit 1 (Some 0))]
  = Some (true, Some "s"%string).
Proof. by vm_compute. Qed.
