(* ===== verification/ProcessSources.v ===== *)
(** * ProcessSources: where the process events come from

    [src/process_monitor/linux.rs] parses the messages of the kernel's
    process connector, [src/process_monitor/windows.rs] compares snapshots of
    the running processes. The structures of the connector are [repr(C)] on a
    little-endian machine. Messages are written by [nl_bytes] as the kernel
    lays them out, and are proved to be read back. *)

From S2P Require Import Prelude Bytes Utf8 Str ProcessTree ProcessMonitor.

(** ** The Linux process connector *)

Definition CN_IDX_PROC : Z := 1.
Definition CN_VAL_PROC : Z := 1.
Definition PROC_EVENT_FORK : Z := 0x00000001.
Definition PROC_EVENT_EXEC : Z := 0x00000002.
Definition PROC_EVENT_EXIT : Z := 0x80000000.

(** [libc::NLMSG_ERROR] and [libc::NLMSG_DONE]. *)
Definition NLMSG_ERROR : Z := 2.
Definition NLMSG_DONE : Z := 3.

(** [size_of::<nlmsghdr>()], the [cn_msg] header and [size_of::<ProcEvent>()]. *)
Definition NLMSGHDR_SIZE : nat := 16.
Definition CN_MSG_HEADER_SIZE : nat := 20.
Definition PROC_EVENT_SIZE : nat := 32.

(** A little-endian field of [n] bytes at an offset. *)
Definition le_val (bs : list byte) : Z := be_val (rev bs).
Definition le_bytes (n : nat) (z : Z) : list byte := rev (be_bytes n z).
Definition field (n off : nat) (bs : list byte) : Z := le_val (take n (drop off bs)).

(** [u32 as i32] *)
Definition as_i32 (z : Z) : Z := if z <? 2 ^ 31 then z else z - 2 ^ 32.

Definition translate_proc_event (proc_event : list byte) : option ProcessEvent :=
  let what := field 4 0 proc_event in
  let event_data := drop 16 proc_event in
  if what =? PROC_EVENT_FORK then
    Some (Fork (field 4 0 event_data) (field 4 8 event_data))
  else if what =? PROC_EVENT_EXEC then
    Some (Exec (field 4 0 event_data) [] [])
  else if what =? PROC_EVENT_EXIT then
    Some (Exit (field 4 0 event_data)
      (if field 4 12 event_data =? 0 then Some (as_i32 (field 4 8 event_data)) else None))
  else None.

Definition align_netlink (len : nat) : nat := ((len + 3) / 4 * 4)%nat.

(** The event of one message [msg], [nlmsg_len] bytes long. *)
Definition message_event (msg : list byte) : option ProcessEvent :=
  let nlmsg_type := field 2 4 msg in
  if nlmsg_type =? NLMSG_DONE then None
  else if nlmsg_type =? NLMSG_ERROR then None
  else
    let cn := drop NLMSGHDR_SIZE msg in
    if (CN_MSG_HEADER_SIZE <=? length cn)%nat then
      if (field 4 0 cn =? CN_IDX_PROC) && (field 4 4 cn =? CN_VAL_PROC) then
        let data_len := Z.to_nat (field 2 16 cn) in
        let data := drop CN_MSG_HEADER_SIZE cn in
        if (data_len <=? length data)%nat && (PROC_EVENT_SIZE <=? data_len)%nat
        then translate_proc_event data else None
      else None
    else None.

(** The loop of [parse_netlink_buffer] over what is left of the buffer. A
    message is at least a header long, so the length of the buffer bounds the
    turns. *)
Fixpoint parse_messages (fuel : nat) (rest : list byte) : list ProcessEvent :=
  match fuel with
  | O => []
  | S fuel' =>
      if (NLMSGHDR_SIZE <=? length rest)%nat then
        let msg_len := Z.to_nat (field 4 0 rest) in
        if (msg_len <? NLMSGHDR_SIZE)%nat || (length rest <? msg_len)%nat then []
        else option_list (message_event (take msg_len rest))
             ++ parse_messages fuel' (drop (align_netlink msg_len) rest)
      else []
  end.

Definition parse_netlink_buffer (buf : list byte) : list ProcessEvent := parse_messages (length buf) buf.

(** ** Windows snapshots *)

Record ProcessInfo := mkProcessInfo { info_parent_pid : Z; exe_path : text }.

(** The events of the entries of [current], then those of [previous]; both
    lists enumerate the maps in their iteration order. *)
Definition fork_or_exec (previous : gmap Z ProcessInfo) (entry : Z * ProcessInfo) : option ProcessEvent :=
  let '(pid, info) := entry in
  match previous !! pid with
  | None => Some (Fork (info_parent_pid info) pid)
  | Some old =>
      if bool_decide (exe_path old = exe_path info) then None
      else Some (Exec pid (exe_path info) [])
  end.

Definition exited (current : gmap Z ProcessInfo) (pid : Z) : option ProcessEvent :=
  match current !! pid with None => Some (Exit pid None) | Some _ => None end.

Definition snapshot_diff (previous current : gmap Z ProcessInfo)
    (current_order : list (Z * ProcessInfo)) (previous_order : list Z) : list ProcessEvent :=
  omap (fork_or_exec previous) current_order ++ omap (exited current) previous_order.

(** [read_events]: the events, their number, and the new baseline. *)
Definition windows_read_events (previous current : gmap Z ProcessInfo)
    (current_order : list (Z * ProcessInfo)) (previous_order : list Z) :
    list ProcessEvent * nat * gmap Z ProcessInfo :=
  let events := snapshot_diff previous current current_order previous_order in
  (events, length events, current).

(** ** Reading back the connector's messages *)

Lemma length_le_bytes n z : length (le_bytes n z) = n.
Proof. unfold le_bytes. by rewrite length_rev, length_be_bytes. Qed.

Lemma le_round_trip n z : 0 <= z < 256 ^ Z.of_nat n -> le_val (le_bytes n z) = z.
Proof. intros Hz. unfold le_val, le_bytes. rewrite rev_involutive. by apply be_round_trip. Qed.

(** A field behind one of [m] bytes. *)
Lemma field_next n off m z rest :
  (m <= off)%nat -> field n off (le_bytes m z ++ rest) = field n (off - m) rest.
Proof.
  intros Hm. unfold field. do 2 f_equal. replace off with (length (le_bytes m z) + (off - m))%nat at 1.
  - apply drop_app_add.
  - rewrite length_le_bytes. lia.
Qed.

Lemma drop_next off m z rest : (m <= off)%nat -> drop off (le_bytes m z ++ rest) = drop (off - m) rest.
Proof.
  intros Hm. replace off with (length (le_bytes m z) + (off - m))%nat at 1.
  - apply drop_app_add.
  - rewrite length_le_bytes. lia.
Qed.

Lemma field_here n z rest : 0 <= z < 256 ^ Z.of_nat n -> field n 0 (le_bytes n z ++ rest) = z.
Proof.
  intros Hz. unfold field. rewrite drop_0, take_app_length' by (by rewrite length_le_bytes).
  by apply le_round_trip.
Qed.

(** Skip to the field at a known offset. *)
Ltac skip_fields :=
  repeat match goal with |- context [drop (S ?o) (le_bytes ?m ?z ++ ?r)] =>
    rewrite (drop_next (S o) m z r) by lia; cbn [Nat.sub] end; rewrite ?drop_0;
  repeat match goal with |- context [field ?n (S ?o) (le_bytes ?m ?z ++ ?r)] =>
    rewrite (field_next n (S o) m z r) by lia; cbn [Nat.sub] end.

(** A connector message as the kernel writes it: netlink header, connector
    header, process event. *)
Definition event_words (event : ProcessEvent) : Z * list Z :=
  match event with
  | Fork parent child => (PROC_EVENT_FORK, [parent; parent; child; child])
  | Exec pid _ _ => (PROC_EVENT_EXEC, [pid; pid; 0; 0])
  | Exit pid (Some code) => (PROC_EVENT_EXIT, [pid; pid; wrap 32 code; 0])
  | Exit pid None => (PROC_EVENT_EXIT, [pid; pid; 0; 9])
  end.

Definition proc_event_bytes (cpu timestamp_ns : Z) (event : ProcessEvent) : list byte :=
  let '(what, words) := event_words event in
  le_bytes 4 what ++ le_bytes 4 cpu ++ le_bytes 8 timestamp_ns ++ (words ≫= le_bytes 4).

Record nl_message := mkNlMessage {
  nl_type : Z;
  nl_seq : Z;
  nl_cpu : Z;
  nl_time : Z;
  nl_event : ProcessEvent;
}.

Definition nl_bytes (m : nl_message) : list byte :=
  le_bytes 4 68 ++ le_bytes 2 (nl_type m) ++ le_bytes 2 0 ++ le_bytes 4 (nl_seq m) ++ le_bytes 4 0
  ++ le_bytes 4 CN_IDX_PROC ++ le_bytes 4 CN_VAL_PROC ++ le_bytes 4 (nl_seq m) ++ le_bytes 4 0
  ++ le_bytes 2 32 ++ le_bytes 2 0
  ++ proc_event_bytes (nl_cpu m) (nl_time m) (nl_event m).

(** The events a message can carry. *)
Definition reportable (event : ProcessEvent) : Prop :=
  match event with
  | Fork parent child => fits 32 parent /\ fits 32 child
  | Exec pid argv0 argv => fits 32 pid /\ argv0 = [] /\ argv = []
  | Exit pid code => fits 32 pid /\ forall c, code = Some c -> - 2 ^ 31 <= c < 2 ^ 31
  end.

Lemma length_proc_event_bytes cpu time event : length (proc_event_bytes cpu time event) = 32%nat.
Proof.
  unfold proc_event_bytes. destruct event as [? ?|? ? ?|? [?|]]; cbn [event_words mbind list_bind];
    rewrite ?length_app, ?length_le_bytes; done.
Qed.

Lemma length_nl_bytes m : length (nl_bytes m) = 68%nat.
Proof. unfold nl_bytes. rewrite !length_app, !length_le_bytes, length_proc_event_bytes. done. Qed.

Lemma as_i32_wrap c : - 2 ^ 31 <= c < 2 ^ 31 -> as_i32 (wrap 32 c) = c.
Proof.
  intros Hc. unfold as_i32, wrap. destruct (decide (0 <= c)).
  - rewrite Z.mod_small by lia. by rewrite (proj2 (Z.ltb_lt _ _)) by lia.
  - replace (c mod 2 ^ 32) with (c + 2 ^ 32).
    + rewrite (proj2 (Z.ltb_ge _ _)) by lia. lia.
    + symmetry. rewrite <- (Z.mod_add c 1) by lia. apply Z.mod_small. lia.
Qed.

Lemma fits32 z : fits 32 z -> 0 <= z < 256 ^ Z.of_nat 4.
Proof. done. Qed.

Lemma wrap32 z : 0 <= wrap 32 z < 256 ^ Z.of_nat 4.
Proof. by apply (Z.mod_pos_bound z (2 ^ 32)). Qed.

(** A value in the range of its field. *)
Ltac field_range := first [apply wrap32 | apply fits32; tauto | cbn; lia].

Lemma translate_proc_event_bytes cpu time event rest :
  reportable event -> translate_proc_event (proc_event_bytes cpu time event ++ rest) = Some event.
Proof.
  intros He. unfold translate_proc_event, proc_event_bytes.
  destruct event as [p c|p a0 a|p [code|]]; cbn [event_words mbind list_bind app];
    unfold PROC_EVENT_FORK, PROC_EVENT_EXEC, PROC_EVENT_EXIT; rewrite <- !(assoc_L (++)); skip_fields; cbn in He;
    rewrite !field_here by field_range; cbn.
  - done.
  - by destruct He as (_ & -> & ->).
  - rewrite as_i32_wrap; [done|]. by apply He.
  - done.
Qed.

Lemma message_event_nl_bytes m :
  reportable (nl_event m) -> fits 16 (nl_type m) ->
  message_event (nl_bytes m)
  = if (nl_type m =? NLMSG_DONE) || (nl_type m =? NLMSG_ERROR) then None else Some (nl_event m).
Proof.
  intros He Ht. unfold message_event. unfold fits in Ht.
  assert (field 2 4 (nl_bytes m) = nl_type m) as ->.
  { unfold nl_bytes. skip_fields. apply field_here. cbn. lia. }
  destruct (nl_type m =? NLMSG_DONE); [done|]. destruct (nl_type m =? NLMSG_ERROR); [done|]. cbn [orb].
  rewrite length_drop, length_nl_bytes. cbn [Nat.leb Nat.sub NLMSGHDR_SIZE CN_MSG_HEADER_SIZE].
  rewrite !drop_drop. unfold nl_bytes, CN_IDX_PROC, CN_VAL_PROC, NLMSGHDR_SIZE, CN_MSG_HEADER_SIZE.
  cbn [Nat.add]. skip_fields. rewrite !field_here by (cbn; lia).
  rewrite length_proc_event_bytes. cbn.
  rewrite <- (app_nil_r (proc_event_bytes _ _ _)). by apply translate_proc_event_bytes.
Qed.

Lemma parse_messages_cons fuel m rest :
  reportable (nl_event m) -> fits 16 (nl_type m) ->
  parse_messages (S fuel) (nl_bytes m ++ rest) =
  (if (nl_type m =? NLMSG_DONE) || (nl_type m =? NLMSG_ERROR) then [] else [nl_event m])
  ++ parse_messages fuel rest.
Proof.
  intros He Ht. cbn [parse_messages]. rewrite length_app, length_nl_bytes.
  assert (field 4 0 (nl_bytes m ++ rest) = 68) as ->.
  { unfold nl_bytes. rewrite <- (assoc_L (++)). apply field_here. cbn. lia. }
  change (Z.to_nat 68) with 68%nat. change (align_netlink 68) with 68%nat.
  rewrite take_app_length', drop_app_length' by (by rewrite length_nl_bytes).
  rewrite message_event_nl_bytes by done. unfold NLMSGHDR_SIZE.
  rewrite (proj2 (Nat.leb_le _ _)) by lia. rewrite (proj2 (Nat.ltb_ge _ _)) by lia. cbn [orb].
  rewrite (proj2 (Nat.ltb_ge _ _)) by lia. by case_match.
Qed.

(** The message is one the parser acts on. *)
Definition delivered (m : nl_message) : bool :=
  negb ((nl_type m =? NLMSG_DONE) || (nl_type m =? NLMSG_ERROR)).

Definition well_formed (m : nl_message) : Prop := reportable (nl_event m) /\ fits 16 (nl_type m).

Lemma parse_messages_all fuel ms :
  Forall well_formed ms -> (length (ms ≫= nl_bytes) <= fuel)%nat ->
  parse_messages fuel (ms ≫= nl_bytes) = nl_event <$> List.filter delivered ms.
Proof.
  intros Hms. revert fuel. induction Hms as [|m ms [He Ht] _ IH]; intros fuel Hf; [by destruct fuel|].
  cbn [mbind list_bind] in *. rewrite length_app, length_nl_bytes in Hf.
  destruct fuel as [|fuel]; [lia|]. rewrite parse_messages_cons by done.
  rewrite IH by lia. cbn [List.filter]. unfold delivered. by destruct (_ || _).
Qed.

(** A buffer of connector messages is read back as their events, in order;
    messages of the types [NLMSG_DONE] and [NLMSG_ERROR] are left out. *)
Theorem connector_messages_read_back ms :
  Forall well_formed ms ->
  parse_netlink_buffer (ms ≫= nl_bytes) = nl_event <$> List.filter delivered ms.
Proof. intros Hms. by apply parse_messages_all. Qed.

Lemma connector_messages_read_back_witness :
  let ms := [mkNlMessage 16 1 0 100 (Fork 1 10); mkNlMessage 16 2 1 200 (Exec 10 [] []);
             mkNlMessage 16 3 0 300 (Exit 10 (Some (-1)))] in
  parse_netlink_buffer (ms ≫= nl_bytes) = [Fork 1 10; Exec 10 [] []; Exit 10 (Some (-1))].
Proof.
  intros ms. rewrite connector_messages_read_back; [done|].
  subst ms. rewrite !Forall_cons, Forall_nil. unfold well_formed, fits, reportable, fits. cbn [nl_event nl_type].
  repeat split; try lia; intros; simplify_eq; lia.
Defined.

(** The kernel's connector gives its messages the type [NLMSG_DONE], as the
    subscription of [subscribe_to_proc_events] does: none of them arrives. *)
Lemma done_messages_are_dropped ms :
  Forall well_formed ms -> Forall (fun m => nl_type m = NLMSG_DONE) ms ->
  parse_netlink_buffer (ms ≫= nl_bytes) = [].
Proof.
  intros Hms Hd. rewrite <- (fmap_nil nl_event). unfold parse_netlink_buffer.
  rewrite parse_messages_all by done. f_equal. clear Hms.
  induction Hd as [|m ms Hm _ IH]; [done|]. cbn [List.filter].
  replace (delivered m) with false; [done|]. unfold delivered. by rewrite Hm.
Qed.

(** ** Snapshots *)

(** What the events say about which processes run. *)
Definition running_after (running : gset Z) (e : ProcessEvent) : gset Z :=
  match e with
  | Fork _ child => {[child]} ∪ running
  | Exec _ _ _ => running
  | Exit pid _ => running ∖ {[pid]}
  end.

Lemma forks_add previous entries running :
  fold_left running_after (omap (fork_or_exec previous) entries) running
  = running ∪ list_to_set (List.filter (fun p => bool_decide (previous !! p = None)) entries.*1).
Proof.
  revert running. induction entries as [|[p i] entries IH]; intros running; cbn; [set_solver|].
  destruct (previous !! p) as [old|] eqn:E; cbn.
  - case_bool_decide; cbn; by rewrite IH.
  - rewrite IH. set_solver.
Qed.

Lemma exits_remove current order running :
  fold_left running_after (omap (exited current) order) running
  = running ∖ list_to_set (List.filter (fun p => bool_decide (current !! p = None)) order).
Proof.
  revert running. induction order as [|p order IH]; intros running; cbn; [set_solver|].
  assert (exited current p = if bool_decide (current !! p = None) then Some (Exit p None) else None) as ->
    by (unfold exited; by destruct (current !! p)).
  case_bool_decide; cbn; rewrite IH; set_solver.
Qed.

(** The events of two snapshots account for every process that started or
    ended between them: replayed on the processes of the first they give
    those of the second, in whatever order the maps are listed. *)
Theorem snapshot_diff_is_exact previous current current_order previous_order :
  current_order ≡ₚ map_to_list current -> previous_order ≡ₚ (map_to_list previous).*1 ->
  fold_left running_after (snapshot_diff previous current current_order previous_order) (dom previous)
  = dom current.
Proof.
  intros Hc Hp. unfold snapshot_diff. rewrite fold_left_app, forks_add, exits_remove.
  assert (forall p, p ∈ current_order.*1 <-> p ∈ dom current) as Hc'.
  { intros p. rewrite Hc, elem_of_dom, list_elem_of_fmap. split.
    - intros ([q i] & -> & Hi%elem_of_map_to_list). by exists i.
    - intros [i Hi]. exists (p, i). by rewrite elem_of_map_to_list. }
  assert (forall p, p ∈ previous_order <-> p ∈ dom previous) as Hp'.
  { intros p. rewrite Hp, elem_of_dom, list_elem_of_fmap. split.
    - intros ([q i] & -> & Hi%elem_of_map_to_list). by exists i.
    - intros [i Hi]. exists (p, i). by rewrite elem_of_map_to_list. }
  clear Hc Hp. apply set_eq. intros p.
  rewrite elem_of_difference, elem_of_union, !elem_of_list_to_set, !list_elem_of_In, !filter_In,
    <- !list_elem_of_In, !bool_decide_eq_true, Hc', Hp', <- !not_elem_of_dom.
  destruct (decide (p ∈ dom previous)), (decide (p ∈ dom current)); tauto.
Qed.

Lemma snapshot_diff_is_exact_witness :
  let previous : gmap Z ProcessInfo := {[1 := mkProcessInfo 0 (utf8 "cmd.exe"); 7 := mkProcessInfo 1 (utf8 "a.exe")]} in
  let current : gmap Z ProcessInfo := {[1 := mkProcessInfo 0 (utf8 "cmd.exe"); 9 := mkProcessInfo 1 (utf8 "b.exe")]} in
  fold_left running_after
    (snapshot_diff previous current (map_to_list current) (map_to_list previous).*1) (dom previous)
  = dom current.
Proof. intros previous current. by apply snapshot_diff_is_exact. Defined.

(** A map lists its entries in no particular order: when a process and its
    child appear in the same snapshot and the child is listed first, the
    monitor does not know its parent yet and never tracks the child. *)
Definition quiet_env : ProcEnv := mkProcEnv (fun _ => None) (fun _ => None) (fun _ => -1) 0.

Definition one_session : ProcessMonitor :=
  register_session quiet_env "s" 1 0 (fun _ => []) (mkProcessMonitor ∅ ∅ []).

Lemma child_listed_first_is_lost :
  let first := snapshot_diff {[1 := mkProcessInfo 0 []]} ∅
                 [(11, mkProcessInfo 10 []); (10, mkProcessInfo 1 [])] [] in
  let second := snapshot_diff {[1 := mkProcessInfo 0 []]} ∅
                 [(10, mkProcessInfo 1 []); (11, mkProcessInfo 10 [])] [] in
  let track events :=
    (fun m => bool_decide (is_Some (pid_to_session m !! 11)))
    <$> handle_process_events (H := AgentDetector.text_json) (map (pair quiet_env) events) one_session in
  track first = Some false /\ track second = Some true.
Proof. by vm_compute. Qed.
