(* ===== verification/Protocol.v ===== *)
(** * Protocol: the messages of the remote control plane

    The types of [src/infra/remote_protocol.rs]: the payloads, the envelope
    they travel in and the destinations the control plane routes them to. The
    fields of a payload carry a prefix that names it. [&'static str] fields
    are strings. *)

From S2P Require Import Prelude Bytes SessionCatalog.

Definition REMOTE_PROTOCOL_VERSION : string := "1.1".
Definition SERVER_SENDER_ID : string := "server".

Inductive NodeSessionChannel := Authority | Publication.

Definition channel_as_str (c : NodeSessionChannel) : string :=
  match c with Authority => "authority" | Publication => "publication" end.

Inductive BootstrapMode := Full | VisibleOnly.

Inductive TargetPublicationAckStatus := Applied | StaleRevision | Failed.

(** ** Payloads *)

Record ClientHelloPayload := mkClientHello {
  hello_node_id : string;
  hello_client_version : string }.

Record ServerHelloPayload := mkServerHello {
  shello_server_id : string;
  shello_server_version : string;
  shello_accepted_protocol_version : string;
  shello_heartbeat_interval_ms : Z;
  shello_session_recovery_policy : string }.

Record OpenMirrorRequestPayload := mkOpenMirrorRequest {
  omreq_session_id : string;
  omreq_target_id : string;
  omreq_console_id : string;
  omreq_cols : Z;
  omreq_rows : Z;
  omreq_raw_pty_passthrough : bool;
  omreq_bootstrap_mode : BootstrapMode }.

Record OpenMirrorAcceptedPayload := mkOpenMirrorAccepted {
  omacc_session_id : string;
  omacc_target_id : string;
  omacc_availability : string }.

Record OpenMirrorRejectedPayload := mkOpenMirrorRejected {
  omrej_session_id : string;
  omrej_target_id : string;
  omrej_code : string;
  omrej_message : string }.

Record CloseMirrorRequestPayload := mkCloseMirrorRequest {
  cmreq_session_id : string;
  cmreq_target_id : string }.

Record MirrorBootstrapChunkPayload := mkMirrorBootstrapChunk {
  chunk_session_id : string;
  chunk_target_id : string;
  chunk_chunk_seq : Z;
  chunk_stream : string;
  chunk_output_bytes : list byte }.

Record MirrorBootstrapCompletePayload := mkMirrorBootstrapComplete {
  complete_session_id : string;
  complete_target_id : string;
  complete_last_chunk_seq : Z;
  complete_alternate_screen_active : bool;
  complete_application_cursor_keys : bool;
  complete_cursor_visible : bool }.

Record OpenTargetOkPayload := mkOpenTargetOk {
  otok_session_id : string;
  otok_target_id : string;
  otok_attachment_id : string;
  otok_console_id : string;
  otok_resize_epoch : Z;
  otok_resize_authority_console_id : string;
  otok_resize_authority_host_id : string;
  otok_availability : string;
  otok_initial_snapshot : option string }.

Record OpenTargetRejectedPayload := mkOpenTargetRejected {
  otrej_session_id : string;
  otrej_target_id : string;
  otrej_console_id : string;
  otrej_code : string;
  otrej_message : string }.

Record ResizeAuthorityChangedPayload := mkResizeAuthorityChanged {
  rac_session_id : string;
  rac_target_id : string;
  rac_resize_epoch : Z;
  rac_resize_authority_console_id : string;
  rac_resize_authority_host_id : string;
  rac_cols : option Z;
  rac_rows : option Z }.

Record RawPtyInputPayload := mkRawPtyInput {
  rin_attachment_id : string;
  rin_session_id : string;
  rin_target_id : string;
  rin_console_id : string;
  rin_console_host_id : string;
  rin_input_seq : Z;
  rin_input_bytes : list byte }.

Record PasteFileRequestPayload := mkPasteFileRequest {
  paste_session_id : string;
  paste_target_id : string;
  paste_filename_hint : string;
  paste_file_id : string;
  paste_total_chunks : Z;
  paste_chunk_index : Z;
  paste_chunk_bytes : list byte }.

Record TargetOutputPayload := mkTargetOutput {
  tout_session_id : string;
  tout_target_id : string;
  tout_output_seq : Z;
  tout_stream : string;
  tout_output_bytes : list byte }.

Record RawPtyOutputPayload := mkRawPtyOutput {
  rout_session_id : string;
  rout_target_id : string;
  rout_output_seq : Z;
  rout_output_bytes : list byte }.

Record ApplyResizePayload := mkApplyResize {
  ares_session_id : string;
  ares_target_id : string;
  ares_resize_epoch : Z;
  ares_resize_authority_console_id : string;
  ares_cols : Z;
  ares_rows : Z }.

Record ResizeAppliedPayload := mkResizeApplied {
  rapp_session_id : string;
  rapp_target_id : string;
  rapp_resize_epoch : Z;
  rapp_resize_authority_console_id : string;
  rapp_cols : Z;
  rapp_rows : Z }.

Record TargetGeometryChangedPayload := mkTargetGeometryChanged {
  geom_session_id : string;
  geom_target_id : string;
  geom_cols : Z;
  geom_rows : Z }.

Record CreateSessionRequestPayload := mkCreateSessionRequest {
  csreq_request_id : string;
  csreq_authority_node_id : string;
  csreq_cwd_hint : option string;
  csreq_cols : Z;
  csreq_rows : Z }.

Record CreateSessionAcceptedPayload := mkCreateSessionAccepted {
  csacc_request_id : string;
  csacc_session_id : string;
  csacc_target_id : string }.

Record CreateSessionRejectedPayload := mkCreateSessionRejected {
  csrej_request_id : string;
  csrej_code : string;
  csrej_message : string }.

Record TargetPublishedPayload := mkTargetPublished {
  pub_transport_session_id : string;
  pub_node_instance_id : string;
  pub_revision : Z;
  pub_authority_host_session_name : option string;
  pub_selector : option string;
  pub_availability : string;
  pub_session_role : option string;
  pub_workspace_key : option string;
  pub_command_name : option string;
  pub_display_command_name : option string;
  pub_current_path : option string;
  pub_attached_clients : Z;
  pub_window_count : Z;
  pub_task_state : string }.

Record TargetExitedPayload := mkTargetExited {
  exited_transport_session_id : string;
  exited_node_instance_id : string;
  exited_revision : Z;
  exited_authority_host_session_name : option string }.

Record TargetPublicationAckPayload := mkTargetPublicationAck {
  ack_node_id : string;
  ack_node_instance_id : string;
  ack_target_id : string;
  ack_revision : Z;
  ack_status : TargetPublicationAckStatus;
  ack_message : option string }.

Record ErrorPayload := mkError {
  err_code : string;
  err_message : string;
  err_details : option string }.

Inductive ControlPlanePayload :=
| ClientHello (payload : ClientHelloPayload)
| ServerHello (payload : ServerHelloPayload)
| OpenMirrorRequest (payload : OpenMirrorRequestPayload)
| OpenMirrorAccepted (payload : OpenMirrorAcceptedPayload)
| OpenMirrorRejected (payload : OpenMirrorRejectedPayload)
| CloseMirrorRequest (payload : CloseMirrorRequestPayload)
| MirrorBootstrapChunk (payload : MirrorBootstrapChunkPayload)
| MirrorBootstrapComplete (payload : MirrorBootstrapCompletePayload)
| OpenTargetOk (payload : OpenTargetOkPayload)
| OpenTargetRejected (payload : OpenTargetRejectedPayload)
| ResizeAuthorityChanged (payload : ResizeAuthorityChangedPayload)
| RawPtyInput (payload : RawPtyInputPayload)
| PasteFileRequest (payload : PasteFileRequestPayload)
| TargetOutput (payload : TargetOutputPayload)
| RawPtyOutput (payload : RawPtyOutputPayload)
| ApplyResize (payload : ApplyResizePayload)
| ResizeApplied (payload : ResizeAppliedPayload)
| TargetGeometryChanged (payload : TargetGeometryChangedPayload)
| CreateSessionRequest (payload : CreateSessionRequestPayload)
| CreateSessionAccepted (payload : CreateSessionAcceptedPayload)
| CreateSessionRejected (payload : CreateSessionRejectedPayload)
| TargetPublished (payload : TargetPublishedPayload)
| TargetExited (payload : TargetExitedPayload)
| TargetPublicationAck (payload : TargetPublicationAckPayload)
| Error (payload : ErrorPayload).

Definition message_type (p : ControlPlanePayload) : string :=
  match p with
  | ClientHello _ => "client_hello"
  | ServerHello _ => "server_hello"
  | OpenMirrorRequest _ => "open_mirror_request"
  | OpenMirrorAccepted _ => "open_mirror_accepted"
  | OpenMirrorRejected _ => "open_mirror_rejected"
  | CloseMirrorRequest _ => "close_mirror_request"
  | MirrorBootstrapChunk _ => "mirror_bootstrap_chunk"
  | MirrorBootstrapComplete _ => "mirror_bootstrap_complete"
  | OpenTargetOk _ => "open_target_ok"
  | OpenTargetRejected _ => "open_target_rejected"
  | ResizeAuthorityChanged _ => "resize_authority_changed"
  | RawPtyInput _ => "raw_pty_input"
  | PasteFileRequest _ => "paste_file_request"
  | TargetOutput _ => "target_output"
  | RawPtyOutput _ => "raw_pty_output"
  | ApplyResize _ => "apply_resize"
  | ResizeApplied _ => "resize_applied"
  | TargetGeometryChanged _ => "target_geometry_changed"
  | CreateSessionRequest _ => "create_session_request"
  | CreateSessionAccepted _ => "create_session_accepted"
  | CreateSessionRejected _ => "create_session_rejected"
  | TargetPublished _ => "target_published"
  | TargetExited _ => "target_exited"
  | TargetPublicationAck _ => "target_publication_ack"
  | Error _ => "error"
  end.

(** ** Envelopes and destinations *)

Record ProtocolEnvelope := mkProtocolEnvelope {
  env_protocol_version : string;
  env_message_id : string;
  env_message_type : string;
  env_timestamp : string;
  env_sender_id : string;
  env_correlation_id : option string;
  env_session_id : option string;
  env_target_id : option string;
  env_attachment_id : option string;
  env_console_id : option string;
  env_payload : ControlPlanePayload }.

Record NodeSessionEnvelope := mkNodeSessionEnvelope {
  nse_channel : NodeSessionChannel;
  nse_envelope : ProtocolEnvelope }.

Record RemoteConsoleDescriptor := mkRemoteConsoleDescriptor {
  console_id : string;
  console_host_id : string;
  console_location : ConsoleLocation }.

Inductive ControlPlaneDestination :=
| ObserverNode (node_id : string)
| AuthorityNode (node_id : string)
| AllOpenedObservers (session_id : string).

Record RoutedControlPlaneMessage := mkRouted {
  routed_destination : ControlPlaneDestination;
  routed_envelope : ProtocolEnvelope }.

Record NodeBoundControlPlaneMessage := mkNodeBound {
  bound_node_id : string;
  bound_envelope : ProtocolEnvelope }.

(** ** Decidable equality *)

#[global] Instance NodeSessionChannel_eq_dec : EqDecision NodeSessionChannel.
Proof. solve_decision. Defined.
#[global] Instance BootstrapMode_eq_dec : EqDecision BootstrapMode.
Proof. solve_decision. Defined.
#[global] Instance TargetPublicationAckStatus_eq_dec : EqDecision TargetPublicationAckStatus.
Proof. solve_decision. Defined.
#[global] Instance ClientHelloPayload_eq_dec : EqDecision ClientHelloPayload.
Proof. solve_decision. Defined.
#[global] Instance ServerHelloPayload_eq_dec : EqDecision ServerHelloPayload.
Proof. solve_decision. Defined.
#[global] Instance OpenMirrorRequestPayload_eq_dec : EqDecision OpenMirrorRequestPayload.
Proof. solve_decision. Defined.
#[global] Instance OpenMirrorAcceptedPayload_eq_dec : EqDecision OpenMirrorAcceptedPayload.
Proof. solve_decision. Defined.
#[global] Instance OpenMirrorRejectedPayload_eq_dec : EqDecision OpenMirrorRejectedPayload.
Proof. solve_decision. Defined.
#[global] Instance CloseMirrorRequestPayload_eq_dec : EqDecision CloseMirrorRequestPayload.
Proof. solve_decision. Defined.
#[global] Instance MirrorBootstrapChunkPayload_eq_dec : EqDecision MirrorBootstrapChunkPayload.
Proof. solve_decision. Defined.
#[global] Instance MirrorBootstrapCompletePayload_eq_dec : EqDecision MirrorBootstrapCompletePayload.
Proof. solve_decision. Defined.
#[global] Instance OpenTargetOkPayload_eq_dec : EqDecision OpenTargetOkPayload.
Proof. solve_decision. Defined.
#[global] Instance OpenTargetRejectedPayload_eq_dec : EqDecision OpenTargetRejectedPayload.
Proof. solve_decision. Defined.
#[global] Instance ResizeAuthorityChangedPayload_eq_dec : EqDecision ResizeAuthorityChangedPayload.
Proof. solve_decision. Defined.
#[global] Instance RawPtyInputPayload_eq_dec : EqDecision RawPtyInputPayload.
Proof. solve_decision. Defined.
#[global] Instance PasteFileRequestPayload_eq_dec : EqDecision PasteFileRequestPayload.
Proof. solve_decision. Defined.
#[global] Instance TargetOutputPayload_eq_dec : EqDecision TargetOutputPayload.
Proof. solve_decision. Defined.
#[global] Instance RawPtyOutputPayload_eq_dec : EqDecision RawPtyOutputPayload.
Proof. solve_decision. Defined.
#[global] Instance ApplyResizePayload_eq_dec : EqDecision ApplyResizePayload.
Proof. solve_decision. Defined.
#[global] Instance ResizeAppliedPayload_eq_dec : EqDecision ResizeAppliedPayload.
Proof. solve_decision. Defined.
#[global] Instance TargetGeometryChangedPayload_eq_dec : EqDecision TargetGeometryChangedPayload.
Proof. solve_decision. Defined.
#[global] Instance CreateSessionRequestPayload_eq_dec : EqDecision CreateSessionRequestPayload.
Proof. solve_decision. Defined.
#[global] Instance CreateSessionAcceptedPayload_eq_dec : EqDecision CreateSessionAcceptedPayload.
Proof. solve_decision. Defined.
#[global] Instance CreateSessionRejectedPayload_eq_dec : EqDecision CreateSessionRejectedPayload.
Proof. solve_decision. Defined.
#[global] Instance TargetPublishedPayload_eq_dec : EqDecision TargetPublishedPayload.
Proof. solve_decision. Defined.
#[global] Instance TargetExitedPayload_eq_dec : EqDecision TargetExitedPayload.
Proof. solve_decision. Defined.
#[global] Instance TargetPublicationAckPayload_eq_dec : EqDecision TargetPublicationAckPayload.
Proof. solve_decision. Defined.
#[global] Instance ErrorPayload_eq_dec : EqDecision ErrorPayload.
Proof. solve_decision. Defined.
#[global] Instance ControlPlanePayload_eq_dec : EqDecision ControlPlanePayload.
Proof. solve_decision. Defined.
#[global] Instance ProtocolEnvelope_eq_dec : EqDecision ProtocolEnvelope.
Proof. solve_decision. Defined.
#[global] Instance NodeSessionEnvelope_eq_dec : EqDecision NodeSessionEnvelope.
Proof. solve_decision. Defined.
#[global] Instance RemoteConsoleDescriptor_eq_dec : EqDecision RemoteConsoleDescriptor.
Proof. solve_decision. Defined.
#[global] Instance ControlPlaneDestination_eq_dec : EqDecision ControlPlaneDestination.
Proof. solve_decision. Defined.
#[global] Instance RoutedControlPlaneMessage_eq_dec : EqDecision RoutedControlPlaneMessage.
Proof. solve_decision. Defined.
#[global] Instance NodeBoundControlPlaneMessage_eq_dec : EqDecision NodeBoundControlPlaneMessage.
Proof. solve_decision. Defined.
