(* ===== verification/Codec.v ===== *)
(** * Codec: the remote transport's binary format

    [src/infra/remote_transport_codec.rs]. A writer is the bytes it has
    written and how it ended, so that what an error leaves on the wire is
    visible. A reader works on the arrivals of a socket: bytes, and quiet
    periods longer than the receive timeout, on which a read gives up with
    [WouldBlock] and what [read_exact] had already taken is gone. The end of
    the list is the end of the stream. [usize] has 64 bits. *)

From S2P Require Import Prelude Bytes SessionCatalog Protocol.

(** ** Errors *)

(** The [io::ErrorKind]s a blocking socket read ends with. *)
Inductive io_error_kind := UnexpectedEof | WouldBlock.

(** [RemoteTransportCodecError]: an I/O error with its kind, or one of the
    messages. *)
Inductive codec_error :=
| CodecIo (kind : io_error_kind)
| BytesTooLong
| InvalidMagic
| InvalidUtf8
| UnknownStatic (value : string)
| UnknownTaskState (value : string)
| UnknownPayloadTag (tag : Z)
| UnknownFrameTag (tag : Z)
| UnknownChannelTag (tag : Z)
| UnknownAckStatus (tag : Z)
| InvalidOptionalString (tag : Z)
| InvalidOptionalStatic (tag : Z)
| InvalidOptionalUsize (tag : Z)
| InvalidBool (tag : Z).

Definition is_read_timeout (e : codec_error) : bool :=
  match e with CodecIo WouldBlock => true | _ => false end.

(** ** Writers *)

Definition writes : Type := list byte * result unit codec_error.

Definition write_all (bs : list byte) : writes := (bs, Ok tt).

(** One statement after another, with [?]. *)
Definition and_then (a b : writes) : writes :=
  match a with
  | (bs, Ok _) => let '(bs', r) := b in (bs ++ bs', r)
  | (bs, Err e) => (bs, Err e)
  end.

Declare Scope codec_scope.
Delimit Scope codec_scope with codec.
#[global] Open Scope codec_scope.
Infix "+++" := and_then (at level 60, right associativity) : codec_scope.

(** [to_le_bytes] and [from_le_bytes]. *)
Definition le_bytes (n : nat) (z : Z) : list byte := rev (be_bytes n z).
Definition le_val (bs : list byte) : Z := be_val (rev bs).

Definition write_u8 (value : Z) : writes := write_all [byte_of value].
Definition write_u32 (value : Z) : writes := write_all (le_bytes 4 value).
Definition write_u64 (value : Z) : writes := write_all (le_bytes 8 value).
Definition write_usize (value : Z) : writes := write_u64 value.
Definition write_bool (value : bool) : writes := write_u8 (if value then 1 else 0).

Definition write_bytes (value : list byte) : writes :=
  if len value <? 2 ^ 32 then write_all (le_bytes 4 (len value)) +++ write_all value
  else ([], Err BytesTooLong).

Definition write_string (value : string) : writes := write_bytes (as_bytes value).
Definition write_static_string (value : string) : writes := write_string value.

Definition write_optional_string (value : option string) : writes :=
  match value with
  | Some value => write_u8 1 +++ write_string value
  | None => write_u8 0
  end.

Definition write_optional_static_string (value : option string) : writes :=
  write_optional_string value.

Definition write_optional_usize (value : option Z) : writes :=
  match value with
  | Some value => write_u8 1 +++ write_usize value
  | None => write_u8 0
  end.

Definition write_target_publication_ack_status (status : TargetPublicationAckStatus) : writes :=
  write_u8 (match status with Applied => 1 | StaleRevision => 2 | Failed => 3 end).

Definition write_node_session_channel (channel : NodeSessionChannel) : writes :=
  write_u8 (match channel with Authority => 1 | Publication => 2 end).

Definition write_raw_pty_input_payload (payload : RawPtyInputPayload) : writes :=
  write_string (rin_attachment_id payload) +++
  write_string (rin_session_id payload) +++
  write_string (rin_target_id payload) +++
  write_string (rin_console_id payload) +++
  write_string (rin_console_host_id payload) +++
  write_u64 (rin_input_seq payload) +++
  write_bytes (rin_input_bytes payload).

Definition write_raw_pty_output_payload (payload : RawPtyOutputPayload) : writes :=
  write_string (rout_session_id payload) +++
  write_string (rout_target_id payload) +++
  write_u64 (rout_output_seq payload) +++
  write_bytes (rout_output_bytes payload).

Definition write_payload (p : ControlPlanePayload) : writes :=
  match p with
  | ClientHello payload =>
      write_u8 1 +++
      write_string (hello_node_id payload) +++
      write_string (hello_client_version payload)
  | ServerHello payload =>
      write_u8 2 +++
      write_string (shello_server_id payload) +++
      write_string (shello_server_version payload) +++
      write_string (shello_accepted_protocol_version payload) +++
      write_u64 (shello_heartbeat_interval_ms payload) +++
      write_static_string (shello_session_recovery_policy payload)
  | OpenMirrorRequest payload =>
      write_u8 12 +++
      write_string (omreq_session_id payload) +++
      write_string (omreq_target_id payload) +++
      write_string (omreq_console_id payload) +++
      write_usize (omreq_cols payload) +++
      write_usize (omreq_rows payload) +++
      write_bool (omreq_raw_pty_passthrough payload) +++
      write_bool (match omreq_bootstrap_mode payload with VisibleOnly => true | Full => false end)
  | OpenMirrorAccepted payload =>
      write_u8 13 +++
      write_string (omacc_session_id payload) +++
      write_string (omacc_target_id payload) +++
      write_static_string (omacc_availability payload)
  | OpenMirrorRejected payload =>
      write_u8 14 +++
      write_string (omrej_session_id payload) +++
      write_string (omrej_target_id payload) +++
      write_static_string (omrej_code payload) +++
      write_string (omrej_message payload)
  | CloseMirrorRequest payload =>
      write_u8 15 +++
      write_string (cmreq_session_id payload) +++
      write_string (cmreq_target_id payload)
  | MirrorBootstrapChunk payload =>
      write_u8 16 +++
      write_string (chunk_session_id payload) +++
      write_string (chunk_target_id payload) +++
      write_u64 (chunk_chunk_seq payload) +++
      write_static_string (chunk_stream payload) +++
      write_bytes (chunk_output_bytes payload)
  | MirrorBootstrapComplete payload =>
      write_u8 17 +++
      write_string (complete_session_id payload) +++
      write_string (complete_target_id payload) +++
      write_u64 (complete_last_chunk_seq payload) +++
      write_bool (complete_alternate_screen_active payload) +++
      write_bool (complete_application_cursor_keys payload) +++
      write_bool (complete_cursor_visible payload)
  | OpenTargetOk payload =>
      write_u8 3 +++
      write_string (otok_session_id payload) +++
      write_string (otok_target_id payload) +++
      write_string (otok_attachment_id payload) +++
      write_string (otok_console_id payload) +++
      write_u64 (otok_resize_epoch payload) +++
      write_string (otok_resize_authority_console_id payload) +++
      write_string (otok_resize_authority_host_id payload) +++
      write_static_string (otok_availability payload) +++
      write_optional_string (otok_initial_snapshot payload)
  | OpenTargetRejected payload =>
      write_u8 4 +++
      write_string (otrej_session_id payload) +++
      write_string (otrej_target_id payload) +++
      write_string (otrej_console_id payload) +++
      write_static_string (otrej_code payload) +++
      write_string (otrej_message payload)
  | ResizeAuthorityChanged payload =>
      write_u8 5 +++
      write_string (rac_session_id payload) +++
      write_string (rac_target_id payload) +++
      write_u64 (rac_resize_epoch payload) +++
      write_string (rac_resize_authority_console_id payload) +++
      write_string (rac_resize_authority_host_id payload) +++
      write_optional_usize (rac_cols payload) +++
      write_optional_usize (rac_rows payload)
  | RawPtyInput payload =>
      write_u8 18 +++
      write_raw_pty_input_payload payload
  | PasteFileRequest payload =>
      write_u8 80 +++
      write_string (paste_target_id payload) +++
      write_string (paste_session_id payload) +++
      write_string (paste_filename_hint payload) +++
      write_string (paste_file_id payload) +++
      write_u32 (paste_total_chunks payload) +++
      write_u32 (paste_chunk_index payload) +++
      write_bytes (paste_chunk_bytes payload)
  | TargetOutput payload =>
      write_u8 7 +++
      write_string (tout_session_id payload) +++
      write_string (tout_target_id payload) +++
      write_u64 (tout_output_seq payload) +++
      write_static_string (tout_stream payload) +++
      write_bytes (tout_output_bytes payload)
  | RawPtyOutput payload =>
      write_u8 19 +++
      write_raw_pty_output_payload payload
  | ApplyResize payload =>
      write_u8 8 +++
      write_string (ares_session_id payload) +++
      write_string (ares_target_id payload) +++
      write_u64 (ares_resize_epoch payload) +++
      write_string (ares_resize_authority_console_id payload) +++
      write_usize (ares_cols payload) +++
      write_usize (ares_rows payload)
  | ResizeApplied payload =>
      write_u8 20 +++
      write_string (rapp_session_id payload) +++
      write_string (rapp_target_id payload) +++
      write_u64 (rapp_resize_epoch payload) +++
      write_string (rapp_resize_authority_console_id payload) +++
      write_usize (rapp_cols payload) +++
      write_usize (rapp_rows payload)
  | TargetGeometryChanged payload =>
      write_u8 21 +++
      write_string (geom_session_id payload) +++
      write_string (geom_target_id payload) +++
      write_usize (geom_cols payload) +++
      write_usize (geom_rows payload)
  | CreateSessionRequest payload =>
      write_u8 70 +++
      write_string (csreq_request_id payload) +++
      write_string (csreq_authority_node_id payload) +++
      write_optional_string (csreq_cwd_hint payload) +++
      write_usize (csreq_cols payload) +++
      write_usize (csreq_rows payload)
  | CreateSessionAccepted payload =>
      write_u8 71 +++
      write_string (csacc_request_id payload) +++
      write_string (csacc_session_id payload) +++
      write_string (csacc_target_id payload)
  | CreateSessionRejected payload =>
      write_u8 72 +++
      write_string (csrej_request_id payload) +++
      write_static_string (csrej_code payload) +++
      write_string (csrej_message payload)
  | TargetPublished payload =>
      write_u8 9 +++
      write_string (pub_transport_session_id payload) +++
      write_string (pub_node_instance_id payload) +++
      write_u64 (pub_revision payload) +++
      write_optional_string (pub_authority_host_session_name payload) +++
      write_optional_string (pub_selector payload) +++
      write_static_string (pub_availability payload) +++
      write_optional_static_string (pub_session_role payload) +++
      write_optional_string (pub_workspace_key payload) +++
      write_optional_string (pub_command_name payload) +++
      write_optional_string (pub_display_command_name payload) +++
      write_optional_string (pub_current_path payload) +++
      write_usize (pub_attached_clients payload) +++
      write_usize (pub_window_count payload) +++
      write_string (pub_task_state payload)
  | TargetExited payload =>
      write_u8 10 +++
      write_string (exited_transport_session_id payload) +++
      write_string (exited_node_instance_id payload) +++
      write_u64 (exited_revision payload) +++
      write_optional_string (exited_authority_host_session_name payload)
  | TargetPublicationAck payload =>
      write_u8 73 +++
      write_string (ack_node_id payload) +++
      write_string (ack_node_instance_id payload) +++
      write_string (ack_target_id payload) +++
      write_u64 (ack_revision payload) +++
      write_target_publication_ack_status (ack_status payload) +++
      write_optional_string (ack_message payload)
  | Error payload =>
      write_u8 11 +++
      write_static_string (err_code payload) +++
      write_string (err_message payload) +++
      write_optional_string (err_details payload)
  end.

Definition write_control_plane_envelope_without_flush (envelope : ProtocolEnvelope) : writes :=
  write_string (env_protocol_version envelope) +++
  write_string (env_message_id envelope) +++
  write_string (env_timestamp envelope) +++
  write_string (env_sender_id envelope) +++
  write_optional_string (env_correlation_id envelope) +++
  write_optional_string (env_session_id envelope) +++
  write_optional_string (env_target_id envelope) +++
  write_optional_string (env_attachment_id envelope) +++
  write_optional_string (env_console_id envelope) +++
  write_payload (env_payload envelope).

(** Flushing a socket or a vector does nothing. *)
Definition write_control_plane_envelope (envelope : ProtocolEnvelope) : writes :=
  write_control_plane_envelope_without_flush envelope.

Definition write_node_session_envelope (envelope : NodeSessionEnvelope) : writes :=
  write_node_session_channel (nse_channel envelope) +++
  write_control_plane_envelope (nse_envelope envelope).

Definition REGISTRATION_MAGIC : list byte := as_bytes "wr1n".
Definition AUTHORITY_FRAME_MAGIC : list byte := as_bytes "waRP".
Definition AUTHORITY_FRAME_CONTROL_PLANE : Z := 1.
Definition AUTHORITY_FRAME_RAW_PTY_INPUT : Z := 2.
Definition AUTHORITY_FRAME_RAW_PTY_OUTPUT : Z := 3.
Definition AUTHORITY_FRAME_PING : Z := 4.
Definition AUTHORITY_FRAME_PONG : Z := 5.
Definition AUTHORITY_FRAME_SYNC_REQUEST : Z := 6.
Definition AUTHORITY_FRAME_SYNC_RESPONSE : Z := 7.
Definition AUTHORITY_FRAME_INPUT_CONGESTION : Z := 8.

Definition write_registration_frame (node_id : string) : writes :=
  write_all REGISTRATION_MAGIC +++ write_string node_id.

Inductive AuthorityTransportFrame :=
| FrameControlPlane (envelope : ProtocolEnvelope)
| FrameRawPtyInput (payload : RawPtyInputPayload)
| FrameRawPtyOutput (payload : RawPtyOutputPayload)
| FramePing
| FramePong
| FrameSyncRequest (expected_seq received_seq : Z)
| FrameSyncResponse (session_id target_id : string) (seq : Z) (bytes : list byte)
| FrameInputCongestion (congested : bool).

Definition write_authority_transport_frame (frame : AuthorityTransportFrame) : writes :=
  write_all AUTHORITY_FRAME_MAGIC +++
  match frame with
  | FrameControlPlane envelope =>
      write_u8 AUTHORITY_FRAME_CONTROL_PLANE +++
      write_control_plane_envelope_without_flush envelope
  | FrameRawPtyInput payload =>
      write_u8 AUTHORITY_FRAME_RAW_PTY_INPUT +++ write_raw_pty_input_payload payload
  | FrameRawPtyOutput payload =>
      write_u8 AUTHORITY_FRAME_RAW_PTY_OUTPUT +++ write_raw_pty_output_payload payload
  | FramePing => write_u8 AUTHORITY_FRAME_PING
  | FramePong => write_u8 AUTHORITY_FRAME_PONG
  | FrameSyncRequest expected_seq received_seq =>
      write_u8 AUTHORITY_FRAME_SYNC_REQUEST +++ write_u64 expected_seq +++ write_u64 received_seq
  | FrameSyncResponse session_id target_id seq bytes =>
      write_u8 AUTHORITY_FRAME_SYNC_RESPONSE +++
      write_string session_id +++ write_string target_id +++ write_u64 seq +++ write_bytes bytes
  | FrameInputCongestion congested =>
      write_u8 AUTHORITY_FRAME_INPUT_CONGESTION +++ write_u8 (if congested then 1 else 0)
  end.

(** ** Readers *)

Inductive arrival := Got (b : byte) | Quiet.

#[global] Instance arrival_eq_dec : EqDecision arrival.
Proof. solve_decision. Defined.

Abbreviation arrivals := (list arrival) (only parsing).

Definition reader (A : Type) : Type := arrivals -> result A codec_error * arrivals.

Definition ret {A} (a : A) : reader A := fun s => (Ok a, s).
Definition throw {A} (e : codec_error) : reader A := fun s => (Err e, s).
Definition read_bind {A B} (m : reader A) (k : A -> reader B) : reader B :=
  fun s => match m s with
           | (Ok a, s') => k a s'
           | (Err e, s') => (Err e, s')
           end.

Notation "'let*' x ':=' m 'in' k" := (read_bind m (fun x => k))
  (at level 10, x name, m at level 200, k at level 200) : codec_scope.

(** [Read::read_exact] for [n] bytes. *)
Fixpoint read_exact_from (s : arrivals) (n : Z) : result (list byte) codec_error * arrivals :=
  if n <=? 0 then (Ok [], s)
  else match s with
       | [] => (Err (CodecIo UnexpectedEof), [])
       | Quiet :: s' => (Err (CodecIo WouldBlock), s')
       | Got b :: s' =>
           match read_exact_from s' (n - 1) with
           | (Ok bs, s'') => (Ok (b :: bs), s'')
           | (Err e, s'') => (Err e, s'')
           end
       end.

Definition read_exact (n : Z) : reader (list byte) := fun s => read_exact_from s n.

Definition read_u8 : reader Z := let* bs := read_exact 1 in ret (le_val bs).
Definition read_u32 : reader Z := let* bs := read_exact 4 in ret (le_val bs).
Definition read_u64 : reader Z := let* bs := read_exact 8 in ret (le_val bs).
Definition read_usize : reader Z := read_u64.

Definition read_bool : reader bool :=
  let* tag := read_u8 in
  if tag =? 0 then ret false
  else if tag =? 1 then ret true
  else throw (InvalidBool tag).

Definition read_bytes : reader (list byte) :=
  let* n := read_u32 in
  read_exact n.

Definition read_string : reader string :=
  let* n := read_u32 in
  let* bytes := read_exact n in
  match from_utf8 bytes with
  | Some value => ret value
  | None => throw InvalidUtf8
  end.

Definition KNOWN_STATIC_STRINGS : list string :=
  ["online"; "offline"; "exited"; "unknown_target"; "target_offline"; "mirror_not_available";
   "unauthorized"; "pty"; "stdout"; "stderr"; "test"; "republish_live_targets"; "resize_denied";
   "target_not_opened"; "attachment_not_open"; "attachment_closed"; "create_session_failed";
   "workspace-chrome"; "target-host"]%string.

Definition read_known_static_string : reader string :=
  let* value := read_string in
  if bool_decide (value ∈ KNOWN_STATIC_STRINGS) then ret value
  else throw (UnknownStatic value).

Definition read_task_state : reader string :=
  let* value := read_string in
  match task_state_parse value with
  | Some state => ret (task_state_as_str state)
  | None => throw (UnknownTaskState value)
  end.

Definition read_optional_string : reader (option string) :=
  let* tag := read_u8 in
  if tag =? 0 then ret None
  else if tag =? 1 then let* value := read_string in ret (Some value)
  else throw (InvalidOptionalString tag).

Definition read_optional_static_string : reader (option string) :=
  let* tag := read_u8 in
  if tag =? 0 then ret None
  else if tag =? 1 then let* value := read_known_static_string in ret (Some value)
  else throw (InvalidOptionalStatic tag).

Definition read_optional_usize : reader (option Z) :=
  let* tag := read_u8 in
  if tag =? 0 then ret None
  else if tag =? 1 then let* value := read_usize in ret (Some value)
  else throw (InvalidOptionalUsize tag).

Definition read_target_publication_ack_status : reader TargetPublicationAckStatus :=
  let* tag := read_u8 in
  if tag =? 1 then ret Applied
  else if tag =? 2 then ret StaleRevision
  else if tag =? 3 then ret Failed
  else throw (UnknownAckStatus tag).

Definition read_node_session_channel : reader NodeSessionChannel :=
  let* tag := read_u8 in
  if tag =? 1 then ret Authority
  else if tag =? 2 then ret Publication
  else throw (UnknownChannelTag tag).

Definition read_raw_pty_input_payload : reader RawPtyInputPayload :=
  let* f_attachment_id := read_string in
  let* f_session_id := read_string in
  let* f_target_id := read_string in
  let* f_console_id := read_string in
  let* f_console_host_id := read_string in
  let* f_input_seq := read_u64 in
  let* f_input_bytes := read_bytes in
  ret (mkRawPtyInput f_attachment_id f_session_id f_target_id f_console_id f_console_host_id
         f_input_seq f_input_bytes).

Definition read_raw_pty_output_payload : reader RawPtyOutputPayload :=
  let* f_session_id := read_string in
  let* f_target_id := read_string in
  let* f_output_seq := read_u64 in
  let* f_output_bytes := read_bytes in
  ret (mkRawPtyOutput f_session_id f_target_id f_output_seq f_output_bytes).

Definition read_payload : reader ControlPlanePayload :=
  let* tag := read_u8 in
  if tag =? 1 then
    let* f_node_id := read_string in
    let* f_client_version := read_string in
    ret (ClientHello (mkClientHello f_node_id f_client_version))
  else if tag =? 2 then
    let* f_server_id := read_string in
    let* f_server_version := read_string in
    let* f_accepted_protocol_version := read_string in
    let* f_heartbeat_interval_ms := read_u64 in
    let* f_session_recovery_policy := read_known_static_string in
    ret (ServerHello (mkServerHello f_server_id f_server_version f_accepted_protocol_version
           f_heartbeat_interval_ms f_session_recovery_policy))
  else if tag =? 12 then
    let* f_session_id := read_string in
    let* f_target_id := read_string in
    let* f_console_id := read_string in
    let* f_cols := read_usize in
    let* f_rows := read_usize in
    let* f_raw_pty_passthrough := read_bool in
    let* f_bootstrap_mode := read_bool in
    ret (OpenMirrorRequest (mkOpenMirrorRequest f_session_id f_target_id f_console_id f_cols
           f_rows f_raw_pty_passthrough (if f_bootstrap_mode then VisibleOnly else Full)))
  else if tag =? 13 then
    let* f_session_id := read_string in
    let* f_target_id := read_string in
    let* f_availability := read_known_static_string in
    ret (OpenMirrorAccepted (mkOpenMirrorAccepted f_session_id f_target_id f_availability))
  else if tag =? 14 then
    let* f_session_id := read_string in
    let* f_target_id := read_string in
    let* f_code := read_known_static_string in
    let* f_message := read_string in
    ret (OpenMirrorRejected (mkOpenMirrorRejected f_session_id f_target_id f_code f_message))
  else if tag =? 15 then
    let* f_session_id := read_string in
    let* f_target_id := read_string in
    ret (CloseMirrorRequest (mkCloseMirrorRequest f_session_id f_target_id))
  else if tag =? 16 then
    let* f_session_id := read_string in
    let* f_target_id := read_string in
    let* f_chunk_seq := read_u64 in
    let* f_stream := read_known_static_string in
    let* f_output_bytes := read_bytes in
    ret (MirrorBootstrapChunk (mkMirrorBootstrapChunk f_session_id f_target_id f_chunk_seq
           f_stream f_output_bytes))
  else if tag =? 17 then
    let* f_session_id := read_string in
    let* f_target_id := read_string in
    let* f_last_chunk_seq := read_u64 in
    let* f_alternate_screen_active := read_bool in
    let* f_application_cursor_keys := read_bool in
    let* f_cursor_visible := read_bool in
    ret (MirrorBootstrapComplete (mkMirrorBootstrapComplete f_session_id f_target_id f_last_chunk_seq
           f_alternate_screen_active f_application_cursor_keys f_cursor_visible))
  else if tag =? 3 then
    let* f_session_id := read_string in
    let* f_target_id := read_string in
    let* f_attachment_id := read_string in
    let* f_console_id := read_string in
    let* f_resize_epoch := read_u64 in
    let* f_resize_authority_console_id := read_string in
    let* f_resize_authority_host_id := read_string in
    let* f_availability := read_known_static_string in
    let* f_initial_snapshot := read_optional_string in
    ret (OpenTargetOk (mkOpenTargetOk f_session_id f_target_id f_attachment_id f_console_id f_resize_epoch
           f_resize_authority_console_id f_resize_authority_host_id f_availability f_initial_snapshot))
  else if tag =? 4 then
    let* f_session_id := read_string in
    let* f_target_id := read_string in
    let* f_console_id := read_string in
    let* f_code := read_known_static_string in
    let* f_message := read_string in
    ret (OpenTargetRejected (mkOpenTargetRejected f_session_id f_target_id f_console_id
           f_code f_message))
  else if tag =? 5 then
    let* f_session_id := read_string in
    let* f_target_id := read_string in
    let* f_resize_epoch := read_u64 in
    let* f_resize_authority_console_id := read_string in
    let* f_resize_authority_host_id := read_string in
    let* f_cols := read_optional_usize in
    let* f_rows := read_optional_usize in
    ret (ResizeAuthorityChanged (mkResizeAuthorityChanged f_session_id f_target_id f_resize_epoch f_resize_authority_console_id
           f_resize_authority_host_id f_cols f_rows))
  else if tag =? 18 then
    let* payload := read_raw_pty_input_payload in
    ret (RawPtyInput payload)
  else if tag =? 80 then
    let* f_target_id := read_string in
    let* f_session_id := read_string in
    let* f_filename_hint := read_string in
    let* f_file_id := read_string in
    let* f_total_chunks := read_u32 in
    let* f_chunk_index := read_u32 in
    let* f_chunk_bytes := read_bytes in
    ret (PasteFileRequest (mkPasteFileRequest f_session_id f_target_id f_filename_hint f_file_id
           f_total_chunks f_chunk_index f_chunk_bytes))
  else if tag =? 7 then
    let* f_session_id := read_string in
    let* f_target_id := read_string in
    let* f_output_seq := read_u64 in
    let* f_stream := read_known_static_string in
    let* f_output_bytes := read_bytes in
    ret (TargetOutput (mkTargetOutput f_session_id f_target_id f_output_seq
           f_stream f_output_bytes))
  else if tag =? 19 then
    let* payload := read_raw_pty_output_payload in
    ret (RawPtyOutput payload)
  else if tag =? 8 then
    let* f_session_id := read_string in
    let* f_target_id := read_string in
    let* f_resize_epoch := read_u64 in
    let* f_resize_authority_console_id := read_string in
    let* f_cols := read_usize in
    let* f_rows := read_usize in
    ret (ApplyResize (mkApplyResize f_session_id f_target_id f_resize_epoch
           f_resize_authority_console_id f_cols f_rows))
  else if tag =? 20 then
    let* f_session_id := read_string in
    let* f_target_id := read_string in
    let* f_resize_epoch := read_u64 in
    let* f_resize_authority_console_id := read_string in
    let* f_cols := read_usize in
    let* f_rows := read_usize in
    ret (ResizeApplied (mkResizeApplied f_session_id f_target_id f_resize_epoch
           f_resize_authority_console_id f_cols f_rows))
  else if tag =? 21 then
    let* f_session_id := read_string in
    let* f_target_id := read_string in
    let* f_cols := read_usize in
    let* f_rows := read_usize in
    ret (TargetGeometryChanged (mkTargetGeometryChanged f_session_id f_target_id
           f_cols f_rows))
  else if tag =? 70 then
    let* f_request_id := read_string in
    let* f_authority_node_id := read_string in
    let* f_cwd_hint := read_optional_string in
    let* f_cols := read_usize in
    let* f_rows := read_usize in
    ret (CreateSessionRequest (mkCreateSessionRequest f_request_id f_authority_node_id f_cwd_hint
           f_cols f_rows))
  else if tag =? 71 then
    let* f_request_id := read_string in
    let* f_session_id := read_string in
    let* f_target_id := read_string in
    ret (CreateSessionAccepted (mkCreateSessionAccepted f_request_id f_session_id
           f_target_id))
  else if tag =? 72 then
    let* f_request_id := read_string in
    let* f_code := read_known_static_string in
    let* f_message := read_string in
    ret (CreateSessionRejected (mkCreateSessionRejected f_request_id f_code f_message))
  else if tag =? 9 then
    let* f_transport_session_id := read_string in
    let* f_node_instance_id := read_string in
    let* f_revision := read_u64 in
    let* f_authority_host_session_name := read_optional_string in
    let* f_selector := read_optional_string in
    let* f_availability := read_known_static_string in
    let* f_session_role := read_optional_static_string in
    let* f_workspace_key := read_optional_string in
    let* f_command_name := read_optional_string in
    let* f_display_command_name := read_optional_string in
    let* f_current_path := read_optional_string in
    let* f_attached_clients := read_usize in
    let* f_window_count := read_usize in
    let* f_task_state := read_task_state in
    ret (TargetPublished (mkTargetPublished f_transport_session_id f_node_instance_id f_revision f_authority_host_session_name f_selector f_availability f_session_role
           f_workspace_key f_command_name f_display_command_name f_current_path f_attached_clients f_window_count f_task_state))
  else if tag =? 10 then
    let* f_transport_session_id := read_string in
    let* f_node_instance_id := read_string in
    let* f_revision := read_u64 in
    let* f_authority_host_session_name := read_optional_string in
    ret (TargetExited (mkTargetExited f_transport_session_id f_node_instance_id
           f_revision f_authority_host_session_name))
  else if tag =? 73 then
    let* f_node_id := read_string in
    let* f_node_instance_id := read_string in
    let* f_target_id := read_string in
    let* f_revision := read_u64 in
    let* f_status := read_target_publication_ack_status in
    let* f_message := read_optional_string in
    ret (TargetPublicationAck (mkTargetPublicationAck f_node_id f_node_instance_id f_target_id
           f_revision f_status f_message))
  else if tag =? 11 then
    let* f_code := read_known_static_string in
    let* f_message := read_string in
    let* f_details := read_optional_string in
    ret (Error (mkError f_code f_message f_details))
  else throw (UnknownPayloadTag tag).

Definition read_control_plane_envelope : reader ProtocolEnvelope :=
  let* protocol_version := read_string in
  let* message_id := read_string in
  let* timestamp := read_string in
  let* sender_id := read_string in
  let* correlation_id := read_optional_string in
  let* session_id := read_optional_string in
  let* target_id := read_optional_string in
  let* attachment_id := read_optional_string in
  let* console_id := read_optional_string in
  let* payload := read_payload in
  ret (mkProtocolEnvelope protocol_version message_id (message_type payload) timestamp sender_id
         correlation_id session_id target_id attachment_id console_id payload).

Definition read_node_session_envelope : reader NodeSessionEnvelope :=
  let* channel := read_node_session_channel in
  let* envelope := read_control_plane_envelope in
  ret (mkNodeSessionEnvelope channel envelope).

Definition read_registration_frame : reader string :=
  let* magic := read_exact 4 in
  if bool_decide (magic = REGISTRATION_MAGIC) then read_string else throw InvalidMagic.

(** [Cursor::new(prefix).chain(reader)]: the prefix is read first. *)
Definition chain {A} (prefix : list byte) (m : reader A) : reader A :=
  fun s => m (map Got prefix ++ s).

Definition read_authority_transport_frame : reader AuthorityTransportFrame :=
  let* prefix := read_exact 4 in
  if negb (bool_decide (prefix = AUTHORITY_FRAME_MAGIC)) then
    let* envelope := chain prefix read_control_plane_envelope in
    ret (FrameControlPlane envelope)
  else
    let* tag := read_u8 in
    if tag =? AUTHORITY_FRAME_CONTROL_PLANE then
      let* envelope := read_control_plane_envelope in ret (FrameControlPlane envelope)
    else if tag =? AUTHORITY_FRAME_RAW_PTY_INPUT then
      let* payload := read_raw_pty_input_payload in ret (FrameRawPtyInput payload)
    else if tag =? AUTHORITY_FRAME_RAW_PTY_OUTPUT then
      let* payload := read_raw_pty_output_payload in ret (FrameRawPtyOutput payload)
    else if tag =? AUTHORITY_FRAME_PING then ret FramePing
    else if tag =? AUTHORITY_FRAME_PONG then ret FramePong
    else if tag =? AUTHORITY_FRAME_SYNC_REQUEST then
      let* expected_seq := read_u64 in
      let* received_seq := read_u64 in
      ret (FrameSyncRequest expected_seq received_seq)
    else if tag =? AUTHORITY_FRAME_SYNC_RESPONSE then
      let* session_id := read_string in
      let* target_id := read_string in
      let* seq := read_u64 in
      let* bytes := read_bytes in
      ret (FrameSyncResponse session_id target_id seq bytes)
    else if tag =? AUTHORITY_FRAME_INPUT_CONGESTION then
      let* congested := read_u8 in ret (FrameInputCongestion (negb (congested =? 0)))
    else throw (UnknownFrameTag tag).

