(* ===== verification/CodecRoundTrip.v ===== *)
(** * What the codec writes is what it reads

    The values the transport can carry ([payload_ok], [envelope_ok],
    [frame_ok]: strings are UTF-8 and shorter than 4 GiB, integers have their
    width, static strings are on the reader's list), that writing and reading
    them is the identity with anything behind them, and that nothing else is
    accepted. *)

From S2P Require Import Prelude Bytes SessionCatalog Protocol Codec.

(** ** Values that can be carried *)

Definition bytes_ok (bs : list byte) : Prop := len bs < 2 ^ 32.
Definition string_ok (s : string) : Prop := rust_string s /\ bytes_ok (as_bytes s).
Definition known_static (s : string) : Prop := s ∈ KNOWN_STATIC_STRINGS.
Definition known_task_state (s : string) : Prop := is_Some (task_state_parse s).
Definition opt_ok {A} (P : A -> Prop) (o : option A) : Prop :=
  match o with Some a => P a | None => True end.

Definition raw_pty_input_ok (payload : RawPtyInputPayload) : Prop :=
  string_ok (rin_attachment_id payload) /\
  string_ok (rin_session_id payload) /\
  string_ok (rin_target_id payload) /\
  string_ok (rin_console_id payload) /\
  string_ok (rin_console_host_id payload) /\
  fits 64 (rin_input_seq payload) /\
  bytes_ok (rin_input_bytes payload).

Definition raw_pty_output_ok (payload : RawPtyOutputPayload) : Prop :=
  string_ok (rout_session_id payload) /\
  string_ok (rout_target_id payload) /\
  fits 64 (rout_output_seq payload) /\
  bytes_ok (rout_output_bytes payload).

Definition payload_ok (p : ControlPlanePayload) : Prop :=
  match p with
  | ClientHello payload =>
      string_ok (hello_node_id payload) /\
      string_ok (hello_client_version payload)
  | ServerHello payload =>
      string_ok (shello_server_id payload) /\
      string_ok (shello_server_version payload) /\
      string_ok (shello_accepted_protocol_version payload) /\
      fits 64 (shello_heartbeat_interval_ms payload) /\
      known_static (shello_session_recovery_policy payload)
  | OpenMirrorRequest payload =>
      string_ok (omreq_session_id payload) /\
      string_ok (omreq_target_id payload) /\
      string_ok (omreq_console_id payload) /\
      fits 64 (omreq_cols payload) /\
      fits 64 (omreq_rows payload)
  | OpenMirrorAccepted payload =>
      string_ok (omacc_session_id payload) /\
      string_ok (omacc_target_id payload) /\
      known_static (omacc_availability payload)
  | OpenMirrorRejected payload =>
      string_ok (omrej_session_id payload) /\
      string_ok (omrej_target_id payload) /\
      known_static (omrej_code payload) /\
      string_ok (omrej_message payload)
  | CloseMirrorRequest payload =>
      string_ok (cmreq_session_id payload) /\
      string_ok (cmreq_target_id payload)
  | MirrorBootstrapChunk payload =>
      string_ok (chunk_session_id payload) /\
      string_ok (chunk_target_id payload) /\
      fits 64 (chunk_chunk_seq payload) /\
      known_static (chunk_stream payload) /\
      bytes_ok (chunk_output_bytes payload)
  | MirrorBootstrapComplete payload =>
      string_ok (complete_session_id payload) /\
      string_ok (complete_target_id payload) /\
      fits 64 (complete_last_chunk_seq payload)
  | OpenTargetOk payload =>
      string_ok (otok_session_id payload) /\
      string_ok (otok_target_id payload) /\
      string_ok (otok_attachment_id payload) /\
      string_ok (otok_console_id payload) /\
      fits 64 (otok_resize_epoch payload) /\
      string_ok (otok_resize_authority_console_id payload) /\
      string_ok (otok_resize_authority_host_id payload) /\
      known_static (otok_availability payload) /\
      opt_ok string_ok (otok_initial_snapshot payload)
  | OpenTargetRejected payload =>
      string_ok (otrej_session_id payload) /\
      string_ok (otrej_target_id payload) /\
      string_ok (otrej_console_id payload) /\
      known_static (otrej_code payload) /\
      string_ok (otrej_message payload)
  | ResizeAuthorityChanged payload =>
      string_ok (rac_session_id payload) /\
      string_ok (rac_target_id payload) /\
      fits 64 (rac_resize_epoch payload) /\
      string_ok (rac_resize_authority_console_id payload) /\
      string_ok (rac_resize_authority_host_id payload) /\
      opt_ok (fits 64) (rac_cols payload) /\
      opt_ok (fits 64) (rac_rows payload)
  | RawPtyInput payload =>
      raw_pty_input_ok payload
  | PasteFileRequest payload =>
      string_ok (paste_target_id payload) /\
      string_ok (paste_session_id payload) /\
      string_ok (paste_filename_hint payload) /\
      string_ok (paste_file_id payload) /\
      fits 32 (paste_total_chunks payload) /\
      fits 32 (paste_chunk_index payload) /\
      bytes_ok (paste_chunk_bytes payload)
  | TargetOutput payload =>
      string_ok (tout_session_id payload) /\
      string_ok (tout_target_id payload) /\
      fits 64 (tout_output_seq payload) /\
      known_static (tout_stream payload) /\
      bytes_ok (tout_output_bytes payload)
  | RawPtyOutput payload =>
      raw_pty_output_ok payload
  | ApplyResize payload =>
      string_ok (ares_session_id payload) /\
      string_ok (ares_target_id payload) /\
      fits 64 (ares_resize_epoch payload) /\
      string_ok (ares_resize_authority_console_id payload) /\
      fits 64 (ares_cols payload) /\
      fits 64 (ares_rows payload)
  | ResizeApplied payload =>
      string_ok (rapp_session_id payload) /\
      string_ok (rapp_target_id payload) /\
      fits 64 (rapp_resize_epoch payload) /\
      string_ok (rapp_resize_authority_console_id payload) /\
      fits 64 (rapp_cols payload) /\
      fits 64 (rapp_rows payload)
  | TargetGeometryChanged payload =>
      string_ok (geom_session_id payload) /\
      string_ok (geom_target_id payload) /\
      fits 64 (geom_cols payload) /\
      fits 64 (geom_rows payload)
  | CreateSessionRequest payload =>
      string_ok (csreq_request_id payload) /\
      string_ok (csreq_authority_node_id payload) /\
      opt_ok string_ok (csreq_cwd_hint payload) /\
      fits 64 (csreq_cols payload) /\
      fits 64 (csreq_rows payload)
  | CreateSessionAccepted payload =>
      string_ok (csacc_request_id payload) /\
      string_ok (csacc_session_id payload) /\
      string_ok (csacc_target_id payload)
  | CreateSessionRejected payload =>
      string_ok (csrej_request_id payload) /\
      known_static (csrej_code payload) /\
      string_ok (csrej_message payload)
  | TargetPublished payload =>
      string_ok (pub_transport_session_id payload) /\
      string_ok (pub_node_instance_id payload) /\
      fits 64 (pub_revision payload) /\
      opt_ok string_ok (pub_authority_host_session_name payload) /\
      opt_ok string_ok (pub_selector payload) /\
      known_static (pub_availability payload) /\
      opt_ok known_static (pub_session_role payload) /\
      opt_ok string_ok (pub_workspace_key payload) /\
      opt_ok string_ok (pub_command_name payload) /\
      opt_ok string_ok (pub_display_command_name payload) /\
      opt_ok string_ok (pub_current_path payload) /\
      fits 64 (pub_attached_clients payload) /\
      fits 64 (pub_window_count payload) /\
      known_task_state (pub_task_state payload)
  | TargetExited payload =>
      string_ok (exited_transport_session_id payload) /\
      string_ok (exited_node_instance_id payload) /\
      fits 64 (exited_revision payload) /\
      opt_ok string_ok (exited_authority_host_session_name payload)
  | TargetPublicationAck payload =>
      string_ok (ack_node_id payload) /\
      string_ok (ack_node_instance_id payload) /\
      string_ok (ack_target_id payload) /\
      fits 64 (ack_revision payload) /\
      opt_ok string_ok (ack_message payload)
  | Error payload =>
      known_static (err_code payload) /\
      string_ok (err_message payload) /\
      opt_ok string_ok (err_details payload)
  end.

Definition envelope_ok (e : ProtocolEnvelope) : Prop :=
  string_ok (env_protocol_version e) /\
  string_ok (env_message_id e) /\
  string_ok (env_timestamp e) /\
  string_ok (env_sender_id e) /\
  opt_ok string_ok (env_correlation_id e) /\
  opt_ok string_ok (env_session_id e) /\
  opt_ok string_ok (env_target_id e) /\
  opt_ok string_ok (env_attachment_id e) /\
  opt_ok string_ok (env_console_id e) /\
  payload_ok (env_payload e) /\
  env_message_type e = message_type (env_payload e).

Definition frame_ok (f : AuthorityTransportFrame) : Prop :=
  match f with
  | FrameControlPlane envelope => envelope_ok envelope
  | FrameRawPtyInput payload => raw_pty_input_ok payload
  | FrameRawPtyOutput payload => raw_pty_output_ok payload
  | FramePing | FramePong | FrameInputCongestion _ => True
  | FrameSyncRequest expected_seq received_seq => fits 64 expected_seq /\ fits 64 received_seq
  | FrameSyncResponse session_id target_id seq bytes =>
      string_ok session_id /\ string_ok target_id /\ fits 64 seq /\ bytes_ok bytes
  end.

(** ** Round trips

    [carries w r a]: [w] succeeds, and [r] reads [a] back from what it wrote
    and nothing more. *)

Definition arrived (bs : list byte) : list arrival := map Got bs.

Definition carries {A} (w : writes) (r : reader A) (a : A) : Prop :=
  exists bs, w = (bs, Ok tt) /\ forall s, r (arrived bs ++ s) = (Ok a, s).

Lemma arrived_app bs bs' : arrived (bs ++ bs') = arrived bs ++ arrived bs'.
Proof. apply map_app. Qed.

Lemma read_exact_arrived bs s : read_exact (len bs) (arrived bs ++ s) = (Ok bs, s).
Proof.
  unfold read_exact. induction bs as [|b bs IH].
  - by destruct s.
  - assert (Hl : len (b :: bs) = len bs + 1) by (unfold len; rewrite length_cons; lia).
    pose proof (len_nonneg bs). rewrite Hl. cbn [arrived map app read_exact_from].
    rewrite (proj2 (Z.leb_gt (len bs + 1) 0)) by lia.
    replace (len bs + 1 - 1) with (len bs) by lia. fold (arrived bs). by rewrite IH.
Qed.

Lemma carries_seq {A B} w w' (r : reader A) (k : A -> reader B) a b :
  carries w r a -> carries w' (k a) b -> carries (w +++ w') (read_bind r k) b.
Proof.
  intros (bs & -> & Hr) (bs' & -> & Hk). exists (bs ++ bs'). split; [done|].
  intros s. unfold read_bind. by rewrite arrived_app, <- (assoc_L (++)), Hr.
Qed.

Lemma carries_last {A B} w (r : reader A) (k : A -> reader B) a b :
  carries w r a -> (forall s, k a s = (Ok b, s)) -> carries w (read_bind r k) b.
Proof.
  intros (bs & -> & Hr) Hk. exists bs. split; [done|].
  intros s. unfold read_bind. by rewrite Hr.
Qed.

Lemma carries_exact n bs : len bs = n -> carries (write_all bs) (read_exact n) bs.
Proof. intros <-. exists bs. split; [done|]. intros s. apply read_exact_arrived. Qed.

Lemma len_le_bytes n z : len (le_bytes n z) = Z.of_nat n.
Proof. unfold len, le_bytes. by rewrite length_rev, length_be_bytes. Qed.

Lemma le_val_le_bytes n z : 0 <= z < 256 ^ Z.of_nat n -> le_val (le_bytes n z) = z.
Proof. intros. unfold le_val, le_bytes. rewrite rev_involutive. by apply be_round_trip. Qed.

Lemma carries_int n z :
  0 <= z < 256 ^ Z.of_nat n ->
  carries (write_all (le_bytes n z)) (let* bs := read_exact (Z.of_nat n) in ret (le_val bs)) z.
Proof.
  intros Hz. eapply carries_last; [apply carries_exact, len_le_bytes|].
  intros s. unfold ret. by rewrite le_val_le_bytes.
Qed.

Create HintDb codec.

Lemma carries_u8 z : 0 <= z < 256 -> carries (write_u8 z) read_u8 z.
Proof.
  intros Hz. eapply carries_last; [by apply carries_exact|].
  intros s. unfold ret, le_val, be_val. simpl. rewrite byte_val_of, Z.mod_small by lia.
  unfold len. simpl. do 2 f_equal. lia.
Qed.

Lemma carries_u32 z : fits 32 z -> carries (write_u32 z) read_u32 z.
Proof. apply (carries_int 4). Qed.

Lemma carries_u64 z : fits 64 z -> carries (write_u64 z) read_u64 z.
Proof. apply (carries_int 8). Qed.

Lemma carries_usize z : fits 64 z -> carries (write_usize z) read_usize z.
Proof. apply carries_u64. Qed.

Lemma carries_bool b : carries (write_bool b) read_bool b.
Proof. destruct b; (eapply carries_last; [apply carries_u8; lia|done]). Qed.

Lemma write_bytes_ok bs :
  bytes_ok bs -> write_bytes bs = write_u32 (len bs) +++ write_all bs.
Proof. unfold bytes_ok, write_bytes. intros H. by replace (len bs <? 2 ^ 32) with true by lia. Qed.

Lemma len_fits bs : bytes_ok bs -> fits 32 (len bs).
Proof. unfold bytes_ok, fits. pose proof (len_nonneg bs). lia. Qed.

Lemma carries_bytes bs : bytes_ok bs -> carries (write_bytes bs) read_bytes bs.
Proof.
  intros H. rewrite write_bytes_ok by done.
  eapply carries_seq; [by apply carries_u32, len_fits|]. by apply carries_exact.
Qed.

Lemma carries_string v : string_ok v -> carries (write_string v) read_string v.
Proof.
  intros [Hu H]. unfold write_string. rewrite write_bytes_ok by done.
  eapply carries_seq; [by apply carries_u32, len_fits|].
  eapply carries_last; [by apply carries_exact|].
  intros s. by rewrite from_utf8_as_bytes.
Qed.

Lemma known_string_ok v : known_static v -> string_ok v.
Proof.
  assert (H : Forall string_ok KNOWN_STATIC_STRINGS).
  { repeat constructor. }
  unfold known_static. rewrite Forall_forall in H. apply H.
Qed.

Lemma carries_static v : known_static v -> carries (write_static_string v) read_known_static_string v.
Proof.
  intros H. eapply carries_last; [by apply carries_string, known_string_ok|].
  intros s. by rewrite bool_decide_true.
Qed.

Lemma carries_task_state v : known_task_state v -> carries (write_string v) read_task_state v.
Proof.
  intros [st Hst]. pose proof (task_state_parse_Some _ _ Hst) as ->.
  eapply carries_last; [apply carries_string; by destruct st|].
  intros s. by rewrite Hst.
Qed.

Lemma carries_optional_string o :
  opt_ok string_ok o -> carries (write_optional_string o) read_optional_string o.
Proof.
  destruct o as [v|]; intros H.
  - eapply carries_seq; [apply carries_u8; lia|]. simpl.
    by eapply carries_last; [apply carries_string|].
  - by eapply carries_last; [apply carries_u8; lia|].
Qed.

Lemma carries_optional_static o :
  opt_ok known_static o -> carries (write_optional_static_string o) read_optional_static_string o.
Proof.
  destruct o as [v|]; intros H.
  - eapply carries_seq; [apply carries_u8; lia|]. simpl.
    by eapply carries_last; [apply carries_static|].
  - by eapply carries_last; [apply carries_u8; lia|].
Qed.

Lemma carries_optional_usize o :
  opt_ok (fits 64) o -> carries (write_optional_usize o) read_optional_usize o.
Proof.
  destruct o as [v|]; intros H.
  - eapply carries_seq; [apply carries_u8; lia|]. simpl.
    by eapply carries_last; [apply carries_usize|].
  - by eapply carries_last; [apply carries_u8; lia|].
Qed.

Lemma carries_ack_status st :
  carries (write_target_publication_ack_status st) read_target_publication_ack_status st.
Proof. destruct st; (eapply carries_last; [apply carries_u8; lia|done]). Qed.

Lemma carries_channel c : carries (write_node_session_channel c) read_node_session_channel c.
Proof. destruct c; (eapply carries_last; [apply carries_u8; lia|done]). Qed.

#[export] Hint Resolve carries_u32 carries_u64 carries_usize carries_bool carries_bytes
  carries_string carries_static carries_task_state carries_optional_string
  carries_optional_static carries_optional_usize carries_ack_status carries_channel : codec.

(** Reads a sequence of fields back, the last one ending in [ret]. *)
Ltac carry_fields :=
  repeat first
    [ eapply carries_seq; [by eauto 2 with codec|]
    | eapply carries_last; [by eauto 2 with codec|intros ?; first [reflexivity|simpl; by repeat case_match]] ].

Lemma carries_raw_pty_input p :
  raw_pty_input_ok p -> carries (write_raw_pty_input_payload p) read_raw_pty_input_payload p.
Proof. intros (? & ? & ? & ? & ? & ? & ?). destruct p. carry_fields. Qed.

Lemma carries_raw_pty_output p :
  raw_pty_output_ok p -> carries (write_raw_pty_output_payload p) read_raw_pty_output_payload p.
Proof. intros (? & ? & ? & ?). destruct p. carry_fields. Qed.

#[export] Hint Resolve carries_raw_pty_input carries_raw_pty_output : codec.

Lemma carries_payload p : payload_ok p -> carries (write_payload p) read_payload p.
Proof.
  intros Hp. destruct p as [p|p|p|p|p|p|p|p|p|p|p|p|p|p|p|p|p|p|p|p|p|p|p|p|p];
    cbn [payload_ok] in Hp; cbn [write_payload]; unfold read_payload; destruct_and?;
    (eapply carries_seq; [apply carries_u8; lia|]); cbn [Z.eqb Pos.eqb];
    destruct p; carry_fields.
Qed.

(** Envelopes and frames. *)

Lemma carries_envelope e :
  envelope_ok e ->
  carries (write_control_plane_envelope_without_flush e) read_control_plane_envelope e.
Proof.
  intros (? & ? & ? & ? & ? & ? & ? & ? & ? & Hp & Ht). destruct e as [v i t ts sd c s tg a cs p].
  cbn [env_message_type env_payload] in Hp, Ht. subst t.
  unfold write_control_plane_envelope_without_flush, read_control_plane_envelope.
  do 9 (eapply carries_seq; [by eauto 2 with codec|]).
  by eapply carries_last; [apply carries_payload|].
Qed.

#[export] Hint Resolve carries_envelope : codec.

Lemma carries_node_session e :
  envelope_ok (nse_envelope e) ->
  carries (write_node_session_envelope e) read_node_session_envelope e.
Proof. intros He. destruct e. carry_fields. Qed.

Lemma carries_registration node_id :
  string_ok node_id -> carries (write_registration_frame node_id) read_registration_frame node_id.
Proof.
  intros Hn. eapply carries_seq; [by apply carries_exact|].
  rewrite bool_decide_true by done. by apply carries_string.
Qed.

Lemma carries_frame f :
  frame_ok f -> carries (write_authority_transport_frame f) read_authority_transport_frame f.
Proof.
  intros Hf. eapply carries_seq; [by apply carries_exact|].
  rewrite bool_decide_true by done. cbn [negb].
  destruct f as [e|p|p| | |x y|x y z w|b]; cbn [frame_ok] in Hf; destruct_and?;
    try (by eapply carries_last; [apply carries_u8; done|]);
    (eapply carries_seq; [apply carries_u8; done|]);
    cbv beta delta [AUTHORITY_FRAME_CONTROL_PLANE AUTHORITY_FRAME_RAW_PTY_INPUT
      AUTHORITY_FRAME_RAW_PTY_OUTPUT AUTHORITY_FRAME_PING AUTHORITY_FRAME_PONG
      AUTHORITY_FRAME_SYNC_REQUEST AUTHORITY_FRAME_SYNC_RESPONSE
      AUTHORITY_FRAME_INPUT_CONGESTION]; cbn [Z.eqb Pos.eqb]; carry_fields.
  eapply carries_last; [apply carries_u8; by destruct b|]. by destruct b.
Qed.

(** ** What is read was written

    [accepts P w r]: a value [r] gives has property [P], and what was consumed
    is what [w] writes for it. *)

Definition accepts {A} (P : A -> Prop) (w : A -> writes) (r : reader A) : Prop :=
  forall s a s', r s = (Ok a, s') ->
    P a /\ exists bs, w a = (bs, Ok tt) /\ s = arrived bs ++ s'.

Lemma read_bind_ok {A B} (m : reader A) (k : A -> reader B) s b s' :
  read_bind m k s = (Ok b, s') -> exists a s1, m s = (Ok a, s1) /\ k a s1 = (Ok b, s').
Proof. unfold read_bind. destruct (m s) as [[a|e] s1] eqn:E; intros H; [eauto|done]. Qed.

Lemma ret_ok {A} (a : A) s b s' : ret a s = (Ok b, s') -> a = b /\ s = s'.
Proof. unfold ret. intros H. by simplify_eq. Qed.

Lemma throw_ok {A} e s (b : A) s' : throw e s = (Ok b, s') -> False.
Proof. unfold throw. intros H. by simplify_eq. Qed.

Lemma read_exact_ok n s bs s' :
  read_exact n s = (Ok bs, s') -> len bs = Z.max 0 n /\ s = arrived bs ++ s'.
Proof.
  unfold read_exact. revert n bs. induction s as [|[b|] s IH]; intros n bs; simpl;
    destruct (n <=? 0) eqn:E; intros H; simplify_eq; try (split; [unfold len; simpl; lia|done]).
  destruct (read_exact_from s (n - 1)) as [[bs1|e] s1] eqn:E1; simplify_eq.
  apply IH in E1 as [Hl ->]. split; [|done].
  unfold len in *. rewrite length_cons. lia.
Qed.

Lemma le_val_range bs : 0 <= le_val bs < 256 ^ len bs.
Proof.
  unfold le_val. pose proof (be_val_range (rev bs)) as H. unfold len in *.
  by rewrite length_rev in H.
Qed.

Lemma le_bytes_le_val n bs : length bs = n -> le_bytes n (le_val bs) = bs.
Proof.
  intros <-. unfold le_bytes, le_val.
  rewrite (be_bytes_of (length bs)) by apply length_rev. apply rev_involutive.
Qed.

Lemma accepts_int n :
  accepts (fun z => 0 <= z < 256 ^ Z.of_nat n) (fun z => write_all (le_bytes n z))
    (let* bs := read_exact (Z.of_nat n) in ret (le_val bs)).
Proof.
  intros s a s' H. apply read_bind_ok in H as (bs & s1 & H & [<- <-]%ret_ok).
  apply read_exact_ok in H as [Hl ->].
  assert (Hn : length bs = n) by (unfold len in Hl; lia).
  split; [pose proof (le_val_range bs) as Hr; unfold len in Hr; by rewrite Hn in Hr|].
  exists bs. split; [|done]. by rewrite le_bytes_le_val.
Qed.

Lemma accepts_u8 : accepts (fun z => 0 <= z < 256) write_u8 read_u8.
Proof.
  intros s a s' H. destruct (accepts_int 1 s a s' H) as [Ha (bs & Hw & ->)].
  split; [done|]. exists bs. split; [|done]. unfold write_u8. rewrite <- Hw.
  unfold le_bytes. unfold be_bytes. simpl. by rewrite Z.div_1_r.
Qed.

Lemma accepts_u32 : accepts (fits 32) write_u32 read_u32.
Proof. exact (accepts_int 4). Qed.

Lemma accepts_u64 : accepts (fits 64) write_u64 read_u64.
Proof. exact (accepts_int 8). Qed.

Lemma read_counted_ok s n s1 bs s' :
  read_u32 s = (Ok n, s1) -> read_exact n s1 = (Ok bs, s') ->
  bytes_ok bs /\ exists bs', write_bytes bs = (bs', Ok tt) /\ s = arrived bs' ++ s'.
Proof.
  intros Hn Hb. apply accepts_u32 in Hn as [Hf (b4 & Hw & ->)].
  apply read_exact_ok in Hb as [Hl ->]. unfold fits in Hf.
  assert (Hlen : len bs = n) by lia. assert (Hok : bytes_ok bs) by (unfold bytes_ok; lia).
  split; [done|]. exists (b4 ++ bs). rewrite write_bytes_ok, Hlen by done.
  unfold and_then. rewrite Hw. by rewrite arrived_app, (assoc_L (++)).
Qed.

Lemma accepts_bytes : accepts bytes_ok write_bytes read_bytes.
Proof.
  intros s a s' H. apply read_bind_ok in H as (n & s1 & Hn & Hb). by eapply read_counted_ok.
Qed.

Lemma accepts_string : accepts string_ok write_string read_string.
Proof.
  intros s a s' H. apply read_bind_ok in H as (n & s1 & Hn & H).
  apply read_bind_ok in H as (bs & s2 & Hb & H).
  destruct (read_counted_ok _ _ _ _ _ Hn Hb) as [Hok (bs' & Hw & ->)].
  destruct (from_utf8 bs) as [v|] eqn:E; [|by apply throw_ok in H].
  apply ret_ok in H as [<- <-]. apply from_utf8_Some in E as [Hb' Hv].
  unfold string_ok, write_string. rewrite <- Hb'. split; [done|eauto].
Qed.

Lemma accepts_static : accepts known_static write_static_string read_known_static_string.
Proof.
  intros s a s' H. apply read_bind_ok in H as (v & s1 & Hv & H).
  case_bool_decide as Hk; [|by apply throw_ok in H].
  apply ret_ok in H as [<- <-]. split; [done|]. by apply accepts_string in Hv as [_ Hw].
Qed.

Lemma accepts_task_state : accepts known_task_state write_string read_task_state.
Proof.
  intros s a s' H. apply read_bind_ok in H as (v & s1 & Hv & H).
  destruct (task_state_parse v) as [st|] eqn:E; [|by apply throw_ok in H].
  apply ret_ok in H as [<- <-]. apply task_state_parse_Some in E as ->.
  split; [by destruct st; eexists|]. by apply accepts_string in Hv as [_ Hw].
Qed.

(** Takes a successful read apart, field by field. *)
Ltac read_step :=
  match goal with
  | H : read_bind _ _ _ = (Ok _, _) |- _ => apply read_bind_ok in H as (? & ? & ? & H)
  | H : ret _ _ = (Ok _, _) |- _ => apply ret_ok in H as [? ?]; subst
  | H : throw _ _ = (Ok _, _) |- _ => by apply throw_ok in H
  | H : (if ?t =? ?n then _ else _) _ = (Ok _, _) |- _ =>
      destruct (Z.eqb_spec t n) as [Htag|_]; [try subst t|]
  end.

(** What a successful field read says of the field. *)
Ltac field_step :=
  match goal with
  | H : read_u8 _ = (Ok _, _) |- _ => apply accepts_u8 in H as (? & ? & ? & ?)
  | H : read_u32 _ = (Ok _, _) |- _ => apply accepts_u32 in H as (? & ? & ? & ?)
  | H : read_u64 _ = (Ok _, _) |- _ => apply accepts_u64 in H as (? & ? & ? & ?)
  | H : read_usize _ = (Ok _, _) |- _ =>
      apply accepts_u64 in H as (? & ? & ? & ?)
  | H : read_bytes _ = (Ok _, _) |- _ => apply accepts_bytes in H as (? & ? & ? & ?)
  | H : read_string _ = (Ok _, _) |- _ => apply accepts_string in H as (? & ? & ? & ?)
  | H : read_known_static_string _ = (Ok _, _) |- _ => apply accepts_static in H as (? & ? & ? & ?)
  | H : read_task_state _ = (Ok _, _) |- _ => apply accepts_task_state in H as (? & ? & ? & ?)
  end.

(** Puts what the fields wrote together. *)
Ltac written :=
  subst; repeat match goal with H : _ /\ _ |- _ => destruct H end;
  split; [by auto 20|];
  repeat match goal with H : ?w = (?bs, Ok tt) |- _ => rewrite ?H; clear H end;
  eexists; split; [reflexivity|]; rewrite ?arrived_app, ?(assoc_L (++)); reflexivity.

Lemma accepts_bool : accepts (fun _ => True) write_bool read_bool.
Proof. intros s a s' H. unfold read_bool in H. repeat read_step; field_step; eauto. Qed.

Lemma accepts_optional_string :
  accepts (opt_ok string_ok) write_optional_string read_optional_string.
Proof.
  intros s a s' H. unfold read_optional_string in H. repeat read_step; repeat field_step;
  unfold write_optional_string; written.
Qed.

Lemma accepts_optional_static :
  accepts (opt_ok known_static) write_optional_static_string read_optional_static_string.
Proof.
  intros s a s' H. unfold read_optional_static_string in H. repeat read_step; repeat field_step;
  unfold write_optional_static_string, write_optional_string;
  try change (write_string x) with (write_static_string x); written.
Qed.

Lemma accepts_optional_usize :
  accepts (opt_ok (fits 64)) write_optional_usize read_optional_usize.
Proof.
  intros s a s' H. unfold read_optional_usize in H. repeat read_step; repeat field_step;
  unfold write_optional_usize, write_usize; written.
Qed.

Lemma accepts_ack_status :
  accepts (fun _ => True) write_target_publication_ack_status read_target_publication_ack_status.
Proof.
  intros s a s' H. unfold read_target_publication_ack_status in H.
  repeat read_step; field_step; eauto.
Qed.

Lemma accepts_channel :
  accepts (fun _ => True) write_node_session_channel read_node_session_channel.
Proof.
  intros s a s' H. unfold read_node_session_channel in H. repeat read_step; field_step; eauto.
Qed.

Ltac optional_step :=
  match goal with
  | H : read_bool _ = (Ok _, _) |- _ => apply accepts_bool in H as (_ & ? & ? & ?)
  | H : read_optional_string _ = (Ok _, _) |- _ =>
      apply accepts_optional_string in H as (? & ? & ? & ?)
  | H : read_optional_static_string _ = (Ok _, _) |- _ =>
      apply accepts_optional_static in H as (? & ? & ? & ?)
  | H : read_optional_usize _ = (Ok _, _) |- _ =>
      apply accepts_optional_usize in H as (? & ? & ? & ?)
  | H : read_target_publication_ack_status _ = (Ok _, _) |- _ =>
      apply accepts_ack_status in H as (_ & ? & ? & ?)
  end.

Lemma accepts_raw_pty_input :
  accepts raw_pty_input_ok write_raw_pty_input_payload read_raw_pty_input_payload.
Proof.
  intros s a s' H. unfold read_raw_pty_input_payload in H. repeat read_step; repeat field_step.
  unfold raw_pty_input_ok, write_raw_pty_input_payload.
  cbn [rin_attachment_id rin_session_id rin_target_id rin_console_id rin_console_host_id
       rin_input_seq rin_input_bytes]. written.
Qed.

Lemma accepts_raw_pty_output :
  accepts raw_pty_output_ok write_raw_pty_output_payload read_raw_pty_output_payload.
Proof.
  intros s a s' H. unfold read_raw_pty_output_payload in H. repeat read_step; repeat field_step.
  unfold raw_pty_output_ok, write_raw_pty_output_payload.
  cbn [rout_session_id rout_target_id rout_output_seq rout_output_bytes]. written.
Qed.

#[local] Arguments and_then : simpl never.
#[local] Arguments write_u8 : simpl never.
#[local] Arguments write_bool : simpl never.
#[local] Arguments write_optional_usize : simpl never.
#[local] Arguments fits : simpl never.

Ltac payload_step :=
  match goal with
  | H : read_raw_pty_input_payload _ = (Ok _, _) |- _ =>
      apply accepts_raw_pty_input in H as (? & ? & ? & ?)
  | H : read_raw_pty_output_payload _ = (Ok _, _) |- _ =>
      apply accepts_raw_pty_output in H as (? & ? & ? & ?)
  end.

Lemma accepts_payload : accepts payload_ok write_payload read_payload.
Proof.
  intros s a s' H. unfold read_payload in H.
  repeat read_step; repeat first [field_step|optional_step|payload_step]; simpl; unfold write_usize;
    repeat match goal with
    | b : bool |- context [if ?b then VisibleOnly else Full] => destruct b
    end; try written.
Qed.

Lemma accepts_envelope :
  accepts envelope_ok write_control_plane_envelope_without_flush read_control_plane_envelope.
Proof.
  intros s a s' H. unfold read_control_plane_envelope in H.
  repeat read_step; repeat first [field_step|optional_step].
  match goal with H : read_payload _ = _ |- _ => apply accepts_payload in H as (? & ? & ? & ?) end.
  unfold envelope_ok, write_control_plane_envelope_without_flush.
  cbn [env_protocol_version env_message_id env_message_type env_timestamp env_sender_id
       env_correlation_id env_session_id env_target_id env_attachment_id env_console_id env_payload].
  written.
Qed.

Lemma accepts_node_session :
  accepts (fun e => envelope_ok (nse_envelope e)) write_node_session_envelope
    read_node_session_envelope.
Proof.
  intros s a s' H. unfold read_node_session_envelope in H. repeat read_step.
  match goal with H : read_node_session_channel _ = _ |- _ =>
    apply accepts_channel in H as (_ & ? & ? & ?) end.
  match goal with H : read_control_plane_envelope _ = _ |- _ =>
    apply accepts_envelope in H as (? & ? & ? & ?) end.
  unfold write_node_session_envelope, write_control_plane_envelope.
  cbn [nse_channel nse_envelope]. written.
Qed.

(** The two forms in which a message stands on an authority connection:
    framed, or as a bare envelope, which older peers and most senders write. *)
Inductive sent := Framed (f : AuthorityTransportFrame) | Bare (e : ProtocolEnvelope).

Definition write_sent (m : sent) : writes :=
  match m with
  | Framed f => write_authority_transport_frame f
  | Bare e => write_control_plane_envelope e
  end.

Definition sent_frame (m : sent) : AuthorityTransportFrame :=
  match m with Framed f => f | Bare e => FrameControlPlane e end.

(** The length of a protocol version that reads as the frame magic. *)
Definition MAGIC_LENGTH : Z := le_val AUTHORITY_FRAME_MAGIC.

Definition sent_ok (m : sent) : Prop :=
  match m with
  | Framed f => frame_ok f
  | Bare e => envelope_ok e /\ str_len (env_protocol_version e) <> MAGIC_LENGTH
  end.

Definition sent_bytes (m : sent) : list byte := (write_sent m).1.

Lemma carries_framed_legacy e :
  envelope_ok e -> str_len (env_protocol_version e) <> MAGIC_LENGTH ->
  carries (write_control_plane_envelope e) read_authority_transport_frame (FrameControlPlane e).
Proof.
  intros He Hl. pose proof He as [Hv _]. destruct (carries_envelope e He) as (bs & Hw & Hr).
  exists bs. split; [exact Hw|]. intros s.
  set (p := le_bytes 4 (str_len (env_protocol_version e))).
  assert (Hp : exists bs', bs = p ++ bs').
  { unfold write_control_plane_envelope_without_flush, write_string in Hw.
    rewrite write_bytes_ok in Hw by apply Hv. unfold write_u32, write_all in Hw.
    fold p in Hw. unfold and_then at 1 2 in Hw. repeat case_match; simplify_eq; eauto using app_assoc. }
  destruct Hp as [bs' ->]. unfold read_authority_transport_frame, read_bind at 1.
  rewrite arrived_app, <- (assoc_L (++)).
  replace 4 with (len p) by apply (len_le_bytes 4). rewrite read_exact_arrived.
  rewrite bool_decide_false; cbn [negb].
  - unfold read_bind, chain. fold (arrived p). rewrite (assoc_L (++)), <- arrived_app, Hr. done.
  - intros Heq. apply Hl. unfold MAGIC_LENGTH. rewrite <- Heq. unfold p.
    rewrite le_val_le_bytes; [done|]. unfold str_len.
    pose proof (len_fits _ (proj2 Hv)) as Hf. exact Hf.
Qed.

Lemma carries_sent m :
  sent_ok m -> carries (write_sent m) read_authority_transport_frame (sent_frame m).
Proof.
  destruct m as [f|e]; [apply carries_frame|]. intros [He Hl]. by apply carries_framed_legacy.
Qed.

Lemma carries_read {A} w (r : reader A) a s : carries w r a -> r (arrived w.1 ++ s) = (Ok a, s).
Proof. intros (bs & -> & Hr). apply Hr. Qed.

(** C21. The codec of node-session envelopes is exact: reading gives [e] and
    leaves [s'] if and only if [e] is an envelope the format can carry, and
    what was consumed is precisely what writing [e] produces. So every
    envelope that can be written is read back, and nothing else is accepted. *)
Theorem node_session_codec_is_exact s e s' :
  read_node_session_envelope s = (Ok e, s') <->
  envelope_ok (nse_envelope e) /\ (write_node_session_envelope e).2 = Ok tt /\
  s = arrived (write_node_session_envelope e).1 ++ s'.
Proof.
  split.
  - intros H. apply accepts_node_session in H as (He & bs & -> & ->). done.
  - intros (He & Hw & ->). by apply carries_read, carries_node_session.
Qed.

(** The congestion frame is read with any flag byte but zero as congested. *)
Definition congested_frame (flag : byte) : list byte :=
  AUTHORITY_FRAME_MAGIC ++ [byte_of AUTHORITY_FRAME_INPUT_CONGESTION; flag].

Lemma accepts_legacy s p s1 e s' :
  read_exact 4 s = (Ok p, s1) -> p <> AUTHORITY_FRAME_MAGIC ->
  read_control_plane_envelope (arrived p ++ s1) = (Ok e, s') ->
  sent_ok (Bare e) /\ s = arrived (sent_bytes (Bare e)) ++ s'.
Proof.
  intros Hp Hm He. apply read_exact_ok in Hp as [Hl ->].
  pose proof (accepts_envelope _ _ _ He) as (Hok & bs & Hw & Hs).
  unfold sent_ok, sent_bytes, write_sent, write_control_plane_envelope.
  rewrite Hw. split; [split; [done|]|done]. intros Hlen.
  apply read_bind_ok in He as (v & s2 & Hv & He). repeat read_step. cbn [env_protocol_version] in Hlen.
  apply read_bind_ok in Hv as (n & s3 & Hn & Hv). apply read_bind_ok in Hn as (p' & s4 & Hp' & Hn).
  apply ret_ok in Hn as [<- <-].
  assert (Heq : read_exact 4 (arrived p ++ s1) = (Ok p, s1)).
  { replace 4 with (len p) by lia. apply read_exact_arrived. }
  rewrite Heq in Hp'. simplify_eq. apply read_bind_ok in Hv as (b & s5 & Hb & Hv).
  destruct (from_utf8 b) eqn:E; [|done]. apply ret_ok in Hv as [<- <-].
  apply from_utf8_Some in E as [-> _]. apply read_exact_ok in Hb as [Hb _].
  pose proof (le_val_range p'). unfold str_len, MAGIC_LENGTH in Hlen.
  apply Hm. rewrite <- (le_bytes_le_val 4 p') by (unfold len in Hl; lia).
  rewrite <- (le_bytes_le_val 4 AUTHORITY_FRAME_MAGIC) by done. f_equal. lia.
Qed.

Lemma framed_accepted g w s s' :
  frame_ok g -> w.2 = Ok tt ->
  write_authority_transport_frame g = write_all AUTHORITY_FRAME_MAGIC +++ w ->
  s = arrived w.1 ++ s' ->
  exists m, sent_ok m /\ sent_frame m = g /\
    arrived AUTHORITY_FRAME_MAGIC ++ s = arrived (sent_bytes m) ++ s'.
Proof.
  intros Hg Hw Hb ->. destruct w as [w r]. simpl in Hw. subst r. exists (Framed g).
  unfold sent_bytes, write_sent. rewrite Hb. split; [done|split; [done|]].
  change ((write_all AUTHORITY_FRAME_MAGIC +++ (w, Ok tt)).1) with (AUTHORITY_FRAME_MAGIC ++ w).
  by rewrite arrived_app, (assoc_L (++)).
Qed.

Lemma congestion_accepted n bs s s' :
  0 <= n < 256 -> write_u8 AUTHORITY_FRAME_INPUT_CONGESTION = (bs, Ok tt) ->
  forall bs', write_u8 n = (bs', Ok tt) -> s = arrived bs ++ arrived bs' ++ s' ->
  (exists m, sent_ok m /\ sent_frame m = FrameInputCongestion (negb (n =? 0)) /\
     arrived AUTHORITY_FRAME_MAGIC ++ s = arrived (sent_bytes m) ++ s') \/
  (exists flag, flag <> x00 /\ FrameInputCongestion (negb (n =? 0)) = FrameInputCongestion true /\
     arrived AUTHORITY_FRAME_MAGIC ++ s = arrived (congested_frame flag) ++ s').
Proof.
  intros Hn [= <-] bs' [= <-] ->. destruct (Z.eqb_spec n 0) as [->|Hz].
  - left. by exists (Framed (FrameInputCongestion false)).
  - right. exists (byte_of n). split; [|done]. intros Hb. apply Hz.
    assert (Hv : byte_val (byte_of n) = 0) by (by rewrite Hb).
    rewrite byte_val_of, Z.mod_small in Hv by done. done.
Qed.

Lemma accepts_sent s f s' :
  read_authority_transport_frame s = (Ok f, s') ->
  (exists m, sent_ok m /\ sent_frame m = f /\ s = arrived (sent_bytes m) ++ s') \/
  (exists flag, flag <> x00 /\ f = FrameInputCongestion true /\
     s = arrived (congested_frame flag) ++ s').
Proof.
  intros H. apply read_bind_ok in H as (p & s1 & Hp & H).
  case_bool_decide as Hm; cbn [negb] in H.
  2: { apply read_bind_ok in H as (e & s2 & He & [<- <-]%ret_ok). left. exists (Bare e).
       by destruct (accepts_legacy _ _ _ _ _ Hp Hm He) as [? ?]. }
  apply read_exact_ok in Hp as [_ ->]. subst p.
  repeat read_step;
    repeat match goal with
    | H : read_control_plane_envelope _ = _ |- _ => apply accepts_envelope in H as (? & ? & ? & ?)
    end;
    repeat first [field_step|payload_step].
  8: { subst. by eapply congestion_accepted. }
  all: left; eapply framed_accepted; cbn [frame_ok]; [by eauto 10| |reflexivity|];
    repeat match goal with H : ?w = (?bs, Ok tt) |- _ => rewrite ?H; clear H end;
    [reflexivity|]; subst; unfold and_then; cbn [fst];
    rewrite ?arrived_app, <- ?(assoc_L (++)); reflexivity.
Qed.

Lemma carries_congested flag :
  flag <> x00 ->
  carries (congested_frame flag, Ok tt) read_authority_transport_frame (FrameInputCongestion true).
Proof.
  intros Hf. pose proof (byte_val_range flag) as Hr.
  replace (congested_frame flag, Ok tt) with
    (write_all AUTHORITY_FRAME_MAGIC +++ write_u8 AUTHORITY_FRAME_INPUT_CONGESTION +++
     write_u8 (byte_val flag)).
  2: { unfold write_u8. by rewrite byte_of_val. }
  eapply carries_seq; [by apply carries_exact|]. rewrite bool_decide_true by done. cbn [negb].
  eapply carries_seq; [by apply carries_u8|].
  eapply carries_last; [by apply carries_u8|]. intros s.
  destruct (Z.eqb_spec (byte_val flag) 0) as [E|_]; [|done].
  destruct Hf. by apply byte_val_inj.
Qed.

(** C9. The codec of an authority connection is exact: the reader gives [f]
    and leaves [s'] if and only if what it consumed is the framed form of
    [f], or the bare envelope that older peers send, which is recognised
    because no protocol version is as long as the frame magic reads; the one
    slack is the congestion flag, which any byte but zero sets. *)
Theorem authority_codec_is_exact s f s' :
  read_authority_transport_frame s = (Ok f, s') <->
  (exists m, sent_ok m /\ sent_frame m = f /\ s = arrived (sent_bytes m) ++ s') \/
  (exists flag, flag <> x00 /\ f = FrameInputCongestion true /\
     s = arrived (congested_frame flag) ++ s').
Proof.
  split; [apply accepts_sent|]. intros [(m & Hm & <- & ->)|(flag & Hf & -> & ->)].
  - by apply carries_read, carries_sent.
  - by apply (carries_read (congested_frame flag, Ok tt)), carries_congested.
Qed.

(** ** A state that cannot be announced *)

(** [fails w r e]: [w] succeeds, and reading what it wrote ends in [e]. *)
Definition fails {A} (w : writes) (r : reader A) (e : codec_error) : Prop :=
  w.2 = Ok tt /\ forall s, (r (arrived w.1 ++ s)).1 = Err e.

Lemma fails_seq {A B} w w' (r : reader A) (k : A -> reader B) a e :
  carries w r a -> fails w' (k a) e -> fails (w +++ w') (read_bind r k) e.
Proof.
  intros (bs & -> & Hr) [Hw Hk]. destruct w' as [bs' r']. simpl in Hw. subst r'.
  split; [done|]. intros s. unfold read_bind, and_then. cbn [fst].
  by rewrite arrived_app, <- (assoc_L (++)), Hr.
Qed.

Lemma fails_here {A B} w w' (r : reader A) (k : A -> reader B) e :
  fails w r e -> w'.2 = Ok tt -> fails (w +++ w') (read_bind r k) e.
Proof.
  intros [Hw Hr] Hw'. destruct w as [bs r1], w' as [bs' r2]. simpl in Hw, Hw'. subst.
  split; [done|]. intros s. unfold read_bind, and_then. cbn [fst].
  rewrite arrived_app, <- (assoc_L (++)). specialize (Hr (arrived bs' ++ s)). cbn [fst] in Hr.
  destruct (r _) as [[a|e'] s']; simpl in *; congruence.
Qed.

Lemma and_then_nil w : w.2 = Ok tt -> w +++ ([], Ok tt) = w.
Proof. destruct w as [bs r]. simpl. intros ->. unfold and_then. by rewrite app_nil_r. Qed.

Lemma fails_last {A B} w (r : reader A) (k : A -> reader B) e :
  fails w r e -> fails w (read_bind r k) e.
Proof. intros H. rewrite <- (and_then_nil w) by apply H. by apply fails_here. Qed.

Lemma fails_static v : string_ok v -> ~ known_static v ->
  fails (write_static_string v) read_known_static_string (UnknownStatic v).
Proof.
  intros Hv Hk. destruct (carries_string v Hv) as (bs & Hw & Hr).
  unfold fails, write_static_string. rewrite Hw. split; [done|]. intros s.
  unfold read_known_static_string, read_bind. cbn [fst]. rewrite Hr.
  by rewrite (bool_decide_false _ Hk).
Qed.

Lemma and_then_ok w w' : w.2 = Ok tt -> w'.2 = Ok tt -> (w +++ w').2 = Ok tt.
Proof. destruct w, w'. simpl. intros -> ->. done. Qed.

Lemma carries_ok {A} w (r : reader A) a : carries w r a -> w.2 = Ok tt.
Proof. intros (bs & -> & _). done. Qed.

(** The announcement of a session with its availability replaced. *)
Definition with_availability (p : TargetPublishedPayload) (a : SessionAvailability) :
    TargetPublishedPayload :=
  mkTargetPublished (pub_transport_session_id p) (pub_node_instance_id p) (pub_revision p)
    (pub_authority_host_session_name p) (pub_selector p) (availability_as_str a)
    (pub_session_role p) (pub_workspace_key p) (pub_command_name p) (pub_display_command_name p)
    (pub_current_path p) (pub_attached_clients p) (pub_window_count p) (pub_task_state p).

Definition with_payload (e : ProtocolEnvelope) (p : ControlPlanePayload) : ProtocolEnvelope :=
  mkProtocolEnvelope (env_protocol_version e) (env_message_id e) (message_type p)
    (env_timestamp e) (env_sender_id e) (env_correlation_id e) (env_session_id e)
    (env_target_id e) (env_attachment_id e) (env_console_id e) p.

Lemma published_unknown_fails p :
  payload_ok (TargetPublished p) ->
  fails (write_payload (TargetPublished (with_availability p AvailabilityUnknown))) read_payload
    (UnknownStatic "unknown").
Proof.
  cbn [payload_ok]. intros Hp. destruct_and!. simpl.
  eapply fails_seq; [apply carries_u8; lia|]. cbn [Z.eqb Pos.eqb].
  do 5 (eapply fails_seq; [by eauto 2 with codec|]).
  apply fails_here; [apply fails_static; [done|by apply (bool_decide_unpack _)]|].
  repeat apply and_then_ok; eapply carries_ok; eauto 2 with codec.
Qed.

(** A session whose availability is unknown, which is the default state,
    cannot be announced: the sender writes the announcement without an
    error, and every reader of the envelope refuses it, because the word is
    not on the reader's list. *)
Theorem unknown_availability_is_refused e p :
  envelope_ok (with_payload e (TargetPublished p)) ->
  fails (write_control_plane_envelope
           (with_payload e (TargetPublished (with_availability p AvailabilityUnknown))))
    read_control_plane_envelope (UnknownStatic "unknown").
Proof.
  intros (? & ? & ? & ? & ? & ? & ? & ? & ? & Hp & _).
  unfold write_control_plane_envelope, write_control_plane_envelope_without_flush,
    read_control_plane_envelope.
  do 9 (eapply fails_seq; [by eauto 2 with codec|]).
  by apply fails_last, published_unknown_fails.
Qed.

Lemma unknown_availability_is_refused_witness :
  exists e p, envelope_ok (with_payload e (TargetPublished p)) /\
    fails (write_control_plane_envelope
             (with_payload e (TargetPublished (with_availability p AvailabilityUnknown))))
      read_control_plane_envelope (UnknownStatic "unknown").
Proof.
  set (p := mkTargetPublished "shell-1" "node-inst-1" 7 None None "online" (Some "target-host"%string)
              None (Some "codex"%string) None (Some "/tmp"%string) 2 3 "input").
  set (e := mkProtocolEnvelope "1.1" "msg-tp" "target_published" "0Z" "peer-a" None
              (Some "shell-1"%string) None None None (TargetPublished p)).
  assert (He : envelope_ok (with_payload e (TargetPublished p))).
  { repeat split; try done; try (apply (bool_decide_unpack _); vm_compute; exact I).
    apply (bool_decide_unpack (known_static "target-host")). vm_compute. exact I. }
  exists e, p. split; [exact He|]. apply (unknown_availability_is_refused e p). exact He.
Defined.
