(* ===== verification/Observer.v ===== *)
(** * Observer: the viewer's side of a mirrored session

    [RemoteObserverRuntime] of [src/remote/observer.rs]: the mailbox it reads
    envelopes from, the watermark of output sequence numbers, and the modelled
    terminal it feeds. The mailbox is shared with the connections that fill
    it, so it is an argument of [sync]. A call returns [Err] only where the
    terminal engine would panic.

    Main results: the observer's terminal is always the one that was fed
    exactly the accepted output, in order, and nothing panics; output that
    arrives over both channels is shown once; output that is overtaken is
    lost. *)

From S2P Require Import Prelude Bytes Ansi Screen ScreenInvariant Terminal TerminalFeed.
From S2P Require Import TerminalInvariant SessionCatalog Protocol.

(** ** State *)

Record RemoteObserverRuntime := mkObserver {
  processed_envelopes : Z;
  obs_session_id : option string;
  obs_target_id : option string;
  obs_attachment_id : option string;
  obs_console_id : option string;
  obs_availability : option string;
  obs_resize_epoch : option Z;
  obs_resize_authority_console_id : option string;
  obs_resize_authority_host_id : option string;
  last_output_seq : option Z;
  has_visible_output : bool;
  bootstrap_complete : bool;
  terminal : TerminalEngine;
  pending_raw_output : list byte;
  pending_replies : list byte }.

(** [clamp(1, u16::MAX)] of both sides. *)
Definition clamp_u16 (v : Z) : Z := Z.max 1 (Z.min v 65535).

Definition terminal_size (cols rows : Z) : TerminalSize :=
  {| rows := clamp_u16 rows; cols := clamp_u16 cols; pixel_width := 0; pixel_height := 0 |}.

Definition observer_new (cols rows : Z) : RemoteObserverRuntime :=
  mkObserver 0 None None None None None None None None None false false
    (terminal_new (terminal_size cols rows)) [] [].

(** The first error message of the two output handlers. *)
Inductive observer_error := OutOfOrder (kind target_id : string) (output_seq last_output_seq : Z).

(** ** Setters *)

Definition set_processed (n : Z) (o : RemoteObserverRuntime) : RemoteObserverRuntime :=
  mkObserver n (obs_session_id o) (obs_target_id o) (obs_attachment_id o) (obs_console_id o)
    (obs_availability o) (obs_resize_epoch o) (obs_resize_authority_console_id o)
    (obs_resize_authority_host_id o) (last_output_seq o) (has_visible_output o)
    (bootstrap_complete o) (terminal o) (pending_raw_output o) (pending_replies o).

Definition set_route (session target : string) (o : RemoteObserverRuntime) : RemoteObserverRuntime :=
  mkObserver (processed_envelopes o) (Some session) (Some target) (obs_attachment_id o)
    (obs_console_id o) (obs_availability o) (obs_resize_epoch o)
    (obs_resize_authority_console_id o) (obs_resize_authority_host_id o) (last_output_seq o)
    (has_visible_output o) (bootstrap_complete o) (terminal o) (pending_raw_output o)
    (pending_replies o).

Definition set_attachment (attachment console availability : string) (o : RemoteObserverRuntime) :
    RemoteObserverRuntime :=
  mkObserver (processed_envelopes o) (obs_session_id o) (obs_target_id o) (Some attachment)
    (Some console) (Some availability) (obs_resize_epoch o) (obs_resize_authority_console_id o)
    (obs_resize_authority_host_id o) (last_output_seq o) (has_visible_output o)
    (bootstrap_complete o) (terminal o) (pending_raw_output o) (pending_replies o).

Definition set_authority (epoch : Z) (console host : string) (o : RemoteObserverRuntime) :
    RemoteObserverRuntime :=
  mkObserver (processed_envelopes o) (obs_session_id o) (obs_target_id o) (obs_attachment_id o)
    (obs_console_id o) (obs_availability o) (Some epoch) (Some console) (Some host)
    (last_output_seq o) (has_visible_output o) (bootstrap_complete o) (terminal o)
    (pending_raw_output o) (pending_replies o).

Definition set_progress (last : option Z) (visible complete : bool) (o : RemoteObserverRuntime) :
    RemoteObserverRuntime :=
  mkObserver (processed_envelopes o) (obs_session_id o) (obs_target_id o) (obs_attachment_id o)
    (obs_console_id o) (obs_availability o) (obs_resize_epoch o)
    (obs_resize_authority_console_id o) (obs_resize_authority_host_id o) last visible complete
    (terminal o) (pending_raw_output o) (pending_replies o).

Definition set_terminal (e : TerminalEngine) (raw replies : list byte) (o : RemoteObserverRuntime) :
    RemoteObserverRuntime :=
  mkObserver (processed_envelopes o) (obs_session_id o) (obs_target_id o) (obs_attachment_id o)
    (obs_console_id o) (obs_availability o) (obs_resize_epoch o)
    (obs_resize_authority_console_id o) (obs_resize_authority_host_id o) (last_output_seq o)
    (has_visible_output o) (bootstrap_complete o) e raw replies.

(** ** Operations *)

(** [terminal.feed_and_collect_replies] with the replies appended, and
    [kept], what is appended to [pending_raw_output]. *)
Definition feed_terminal (bytes kept : list byte) (o : RemoteObserverRuntime) :
    result RemoteObserverRuntime fault :=
  let? (e, replies) := feed_and_collect_replies bytes (terminal o) in
  Ok (set_terminal e (pending_raw_output o ++ kept) (pending_replies o ++ replies) o).

(** Whether the watermark refuses a sequence number. *)
Definition refused (output_seq : Z) (o : RemoteObserverRuntime) : option Z :=
  match last_output_seq o with
  | Some last => if output_seq <=? last then Some last else None
  | None => None
  end.

Definition clear_output_seq (o : RemoteObserverRuntime) : RemoteObserverRuntime :=
  set_progress None (has_visible_output o) false o.

Definition resize_terminal (sz : TerminalSize) (o : RemoteObserverRuntime) : RemoteObserverRuntime :=
  set_terminal (terminal_resize sz (terminal o)) (pending_raw_output o) (pending_replies o) o.

Definition feed_raw_output (output_seq : Z) (bytes : list byte) (o : RemoteObserverRuntime) :
    result RemoteObserverRuntime fault :=
  match refused output_seq o with
  | Some _ => Ok o
  | None =>
      let? o := feed_terminal bytes [] o in
      Ok (set_progress (Some output_seq) true (bootstrap_complete o) o)
  end.

Definition observer_cursor_keys (o : RemoteObserverRuntime) : bool :=
  application_cursor_keys (terminal o).

Definition drain_replies (o : RemoteObserverRuntime) : list byte * RemoteObserverRuntime :=
  (pending_replies o, set_terminal (terminal o) (pending_raw_output o) [] o).

Definition apply_bootstrap_chunk (p : MirrorBootstrapChunkPayload) (o : RemoteObserverRuntime) :
    result RemoteObserverRuntime fault :=
  let o := set_route (chunk_session_id p) (chunk_target_id p) o in
  let? o := feed_terminal (chunk_output_bytes p) (chunk_output_bytes p) o in
  Ok (set_progress (last_output_seq o) true (bootstrap_complete o) o).

(** The escape sequences that restore the modes of the mirrored terminal. *)
Definition bootstrap_suffix (p : MirrorBootstrapCompletePayload) : list byte :=
  (if complete_alternate_screen_active p then x1b :: as_bytes "[?1049h" else []) ++
  (if complete_application_cursor_keys p then x1b :: as_bytes "[?1h" else []) ++
  (if complete_cursor_visible p then x1b :: as_bytes "[?25h" else x1b :: as_bytes "[?25l").

Definition apply_bootstrap_complete (p : MirrorBootstrapCompletePayload)
    (o : RemoteObserverRuntime) : result RemoteObserverRuntime fault :=
  let o := set_route (complete_session_id p) (complete_target_id p) o in
  let? o := feed_terminal (bootstrap_suffix p) (bootstrap_suffix p) o in
  Ok (set_progress (last_output_seq o) (has_visible_output o) true o).

(** The common body of [apply_raw_pty_output] and [apply_target_output]. *)
Definition apply_output (kind session target : string) (output_seq : Z) (bytes : list byte)
    (o : RemoteObserverRuntime) :
    result (RemoteObserverRuntime * result unit observer_error) fault :=
  match refused output_seq o with
  | Some last => Ok (o, Err (OutOfOrder kind target output_seq last))
  | None =>
      let o := set_route session target o in
      let? o := feed_terminal bytes bytes o in
      Ok (set_progress (Some output_seq) true (bootstrap_complete o) o, Ok tt)
  end.

Definition apply_raw_pty_output (p : RawPtyOutputPayload) (o : RemoteObserverRuntime) :
    result (RemoteObserverRuntime * result unit observer_error) fault :=
  apply_output "raw_pty_output" (rout_session_id p) (rout_target_id p) (rout_output_seq p)
    (rout_output_bytes p) o.

Definition apply_target_output (p : TargetOutputPayload) (o : RemoteObserverRuntime) :
    result (RemoteObserverRuntime * result unit observer_error) fault :=
  apply_output "target_output" (tout_session_id p) (tout_target_id p) (tout_output_seq p)
    (tout_output_bytes p) o.

Definition apply_envelope (envelope : ProtocolEnvelope) (o : RemoteObserverRuntime) :
    result (RemoteObserverRuntime * result unit observer_error) fault :=
  match env_payload envelope with
  | OpenTargetOk p =>
      Ok (set_authority (otok_resize_epoch p) (otok_resize_authority_console_id p)
            (otok_resize_authority_host_id p)
            (set_attachment (otok_attachment_id p) (otok_console_id p) (otok_availability p)
               (set_route (otok_session_id p) (otok_target_id p) o)), Ok tt)
  | ResizeAuthorityChanged p =>
      Ok (set_authority (rac_resize_epoch p) (rac_resize_authority_console_id p)
            (rac_resize_authority_host_id p)
            (set_route (rac_session_id p) (rac_target_id p) o), Ok tt)
  | MirrorBootstrapChunk p => let? o := apply_bootstrap_chunk p o in Ok (o, Ok tt)
  | MirrorBootstrapComplete p => let? o := apply_bootstrap_complete p o in Ok (o, Ok tt)
  | TargetOutput p => apply_target_output p o
  | RawPtyOutput p => apply_raw_pty_output p o
  | _ => Ok (o, Ok tt)
  end.

(** The loop of [sync]: an envelope that fails is logged and skipped. *)
Fixpoint apply_envelopes (envelopes : list ProtocolEnvelope) (o : RemoteObserverRuntime) :
    result RemoteObserverRuntime fault :=
  match envelopes with
  | [] => Ok o
  | envelope :: rest =>
      let? (o, _) := apply_envelope envelope o in
      apply_envelopes rest o
  end.

(** [LocalNodeMailbox::snapshot_from]. *)
Definition snapshot_from (start : Z) (mailbox : list ProtocolEnvelope) : list ProtocolEnvelope :=
  drop (Z.to_nat start) mailbox.

Definition sync (mailbox : list ProtocolEnvelope) (o : RemoteObserverRuntime) :
    result (RemoteObserverRuntime * Z) fault :=
  let envelopes := snapshot_from (processed_envelopes o) mailbox in
  let? o := apply_envelopes envelopes o in
  Ok (set_processed (processed_envelopes o + len envelopes) o, len envelopes).

Record RemoteObserverSnapshot := mkObserverSnapshot {
  snap_session_id : option string;
  snap_target_id : option string;
  snap_attachment_id : option string;
  snap_console_id : option string;
  snap_availability : option string;
  snap_resize_epoch : option Z;
  snap_resize_authority_console_id : option string;
  snap_resize_authority_host_id : option string;
  snap_last_output_seq : option Z;
  snap_has_visible_output : bool;
  snap_bootstrap_complete : bool;
  snap_screen : ScreenState }.

Definition observer_snapshot (o : RemoteObserverRuntime) : RemoteObserverSnapshot :=
  mkObserverSnapshot (obs_session_id o) (obs_target_id o) (obs_attachment_id o) (obs_console_id o)
    (obs_availability o) (obs_resize_epoch o) (obs_resize_authority_console_id o)
    (obs_resize_authority_host_id o) (last_output_seq o) (has_visible_output o)
    (bootstrap_complete o) (engine_state (terminal o)).

(** ** An observer's life

    Connections post envelopes into the mailbox; the viewer synchronizes,
    feeds frames that came around the mailbox, resizes and clears the
    watermark. *)

Inductive observer_call :=
| Post (envelope : ProtocolEnvelope)
| Sync
| FeedRaw (output_seq : Z) (bytes : list byte)
| ResizeTo (sz : TerminalSize)
| ClearSeq.

Definition observer_step (c : observer_call) (s : list ProtocolEnvelope * RemoteObserverRuntime) :
    result (list ProtocolEnvelope * RemoteObserverRuntime) fault :=
  let '(mailbox, o) := s in
  match c with
  | Post envelope => Ok (mailbox ++ [envelope], o)
  | Sync => let? (o, _) := sync mailbox o in Ok (mailbox, o)
  | FeedRaw output_seq bytes => let? o := feed_raw_output output_seq bytes o in Ok (mailbox, o)
  | ResizeTo sz => Ok (mailbox, resize_terminal sz o)
  | ClearSeq => Ok (mailbox, clear_output_seq o)
  end.

Fixpoint observer_run (calls : list observer_call)
    (s : list ProtocolEnvelope * RemoteObserverRuntime) :
    result (list ProtocolEnvelope * RemoteObserverRuntime) fault :=
  match calls with
  | [] => Ok s
  | c :: rest => let? s := observer_step c s in observer_run rest s
  end.

(** *** What should be shown

    The specification: the envelopes not read yet, the watermark, and the
    calls the terminal should have received. *)

Record shown := mkShown {
  unread : list ProtocolEnvelope;
  watermark : option Z;
  calls_made : list terminal_call }.

Definition above (w : option Z) (seq : Z) : bool :=
  match w with Some last => last <? seq | None => true end.

Definition show_output (seq : Z) (bytes : list byte) (s : shown) : shown :=
  if above (watermark s) seq
  then mkShown (unread s) (Some seq) (calls_made s ++ [Feed bytes])
  else s.

Definition show_envelope (s : shown) (e : ProtocolEnvelope) : shown :=
  match env_payload e with
  | MirrorBootstrapChunk p =>
      mkShown (unread s) (watermark s) (calls_made s ++ [Feed (chunk_output_bytes p)])
  | MirrorBootstrapComplete p =>
      mkShown (unread s) (watermark s) (calls_made s ++ [Feed (bootstrap_suffix p)])
  | TargetOutput p => show_output (tout_output_seq p) (tout_output_bytes p) s
  | RawPtyOutput p => show_output (rout_output_seq p) (rout_output_bytes p) s
  | _ => s
  end.

Definition show_step (s : shown) (c : observer_call) : shown :=
  match c with
  | Post envelope => mkShown (unread s ++ [envelope]) (watermark s) (calls_made s)
  | Sync =>
      let s' := fold_left show_envelope (unread s) s in
      mkShown [] (watermark s') (calls_made s')
  | FeedRaw seq bytes => show_output seq bytes s
  | ResizeTo sz => mkShown (unread s) (watermark s) (calls_made s ++ [Resize sz])
  | ClearSeq => mkShown (unread s) None (calls_made s)
  end.

Definition show_run (calls : list observer_call) : shown :=
  fold_left show_step calls (mkShown [] None []).

(** *** The observer implements it *)

Lemma terminal_run_app c1 c2 e :
  terminal_run (c1 ++ c2) e =
  (let? (e1, r1) := terminal_run c1 e in replying r1 (terminal_run c2 e1)).
Proof.
  revert e. induction c1 as [|[bytes|sz] c1 IH]; intros e; simpl.
  - unfold replying. by destruct (terminal_run c2 e) as [[e2 r2]|].
  - destruct (feed_and_collect_replies bytes e) as [[e1 r1]|]; [|done]. rewrite IH.
    destruct (terminal_run c1 e1) as [[e2 r2]|]; [|done]. unfold replying.
    destruct (terminal_run c2 e2) as [[e3 r3]|]; [|done]. by rewrite (assoc_L (++)).
  - apply IH.
Qed.

(** [o] has shown the calls of [s], up to the envelopes of the mailbox. *)
Definition tracks (sz : TerminalSize) (o : RemoteObserverRuntime) (s : shown) : Prop :=
  terminal_run (calls_made s) (terminal_new sz) = Ok (terminal o, pending_replies o) /\
  Forall call_ok (calls_made s) /\ watermark s = last_output_seq o.

Section tracking.
Context (sz : TerminalSize) (Hsz : size_ok sz).

Lemma tracks_feed o s bytes kept :
  tracks sz o s ->
  exists o', feed_terminal bytes kept o = Ok o' /\
    processed_envelopes o' = processed_envelopes o /\ last_output_seq o' = last_output_seq o /\
    bootstrap_complete o' = bootstrap_complete o /\
    tracks sz o' (mkShown (unread s) (watermark s) (calls_made s ++ [Feed bytes])).
Proof.
  intros (Hrun & Hok & Hw).
  destruct (terminal_run_kept sz _ _ (terminal_new_ok sz Hsz) Hok) as (e0 & r0 & E0 & He0).
  rewrite Hrun in E0. simplify_eq. destruct (feed_kept _ bytes _ He0) as (e' & r & E & _).
  unfold feed_terminal. rewrite E. eexists. split; [done|].
  do 3 (split; [done|]). split; [|split; [apply Forall_app; by repeat constructor|done]].
  cbn [calls_made terminal pending_replies set_terminal].
  rewrite terminal_run_app, Hrun. simpl. rewrite E. unfold replying. by rewrite app_nil_r.
Qed.

Lemma tracks_same o o' s s' :
  tracks sz o s -> terminal o' = terminal o -> pending_replies o' = pending_replies o ->
  calls_made s' = calls_made s -> watermark s' = last_output_seq o' -> tracks sz o' s'.
Proof. intros (Hrun & Hok & Hw) Ht Hr Hc Hl. unfold tracks. by rewrite Ht, Hr, Hc. Qed.

Lemma above_refused seq o s :
  watermark s = last_output_seq o ->
  above (watermark s) seq = match refused seq o with Some _ => false | None => true end.
Proof.
  intros Hw. unfold above, refused. rewrite Hw. destruct (last_output_seq o) as [last|]; [|done].
  destruct (Z.leb_spec seq last), (Z.ltb_spec last seq); try done; lia.
Qed.

Lemma tracks_raw o s seq bytes :
  tracks sz o s ->
  exists o', feed_raw_output seq bytes o = Ok o' /\
    processed_envelopes o' = processed_envelopes o /\ tracks sz o' (show_output seq bytes s).
Proof.
  intros Ht. unfold feed_raw_output, show_output. rewrite (above_refused seq o) by apply Ht.
  destruct (refused seq o) as [last|]; [by eauto|].
  destruct (tracks_feed o s bytes [] Ht) as (o' & -> & Hp & Hl & Hb & Ht').
  eexists. split; [done|split; [done|]]. by apply (tracks_same o' _ _ _ Ht').
Qed.

Lemma tracks_output kind session target seq bytes o s :
  tracks sz o s ->
  exists o' r, apply_output kind session target seq bytes o = Ok (o', r) /\
    processed_envelopes o' = processed_envelopes o /\ tracks sz o' (show_output seq bytes s).
Proof.
  intros Ht. unfold apply_output, show_output. rewrite (above_refused seq o) by apply Ht.
  destruct (refused seq o) as [last|]; [by eauto|].
  destruct (tracks_feed (set_route session target o) s bytes bytes) as (o' & -> & Hp & Hl & Hb & Ht').
  { by apply (tracks_same o _ s _ Ht); try apply Ht. }
  do 2 eexists. split; [done|split; [done|]]. by apply (tracks_same o' _ _ _ Ht').
Qed.

Lemma tracks_envelope e o s :
  tracks sz o s ->
  exists o' r, apply_envelope e o = Ok (o', r) /\
    processed_envelopes o' = processed_envelopes o /\ tracks sz o' (show_envelope s e).
Proof.
  intros Ht. assert (Hrt : forall a b, tracks sz (set_route a b o) s).
  { intros a b. by apply (tracks_same o _ s _ Ht); try apply Ht. }
  unfold apply_envelope, show_envelope.
  destruct (env_payload e) as [p|p|p|p|p|p|p|p|p|p|p|p|p|p|p|p|p|p|p|p|p|p|p|p|p];
    try (do 2 eexists; split; [done|split; [done|done]]).
  - unfold apply_bootstrap_chunk.
    destruct (tracks_feed _ s (chunk_output_bytes p) (chunk_output_bytes p)
                (Hrt (chunk_session_id p) (chunk_target_id p))) as (o' & -> & Hp & Hl & Hb & Ht').
    do 2 eexists. split; [done|split; [done|]].
    apply (tracks_same o' _ _ _ Ht'); try done. by rewrite Hl, (proj2 (proj2 Ht)).
  - unfold apply_bootstrap_complete.
    destruct (tracks_feed _ s (bootstrap_suffix p) (bootstrap_suffix p)
                (Hrt (complete_session_id p) (complete_target_id p))) as (o' & -> & Hp & Hl & Hb & Ht').
    do 2 eexists. split; [done|split; [done|]].
    apply (tracks_same o' _ _ _ Ht'); try done. by rewrite Hl, (proj2 (proj2 Ht)).
  - by apply tracks_output.
  - by apply tracks_output.
Qed.

Lemma tracks_envelopes es o s :
  tracks sz o s ->
  exists o', apply_envelopes es o = Ok o' /\
    processed_envelopes o' = processed_envelopes o /\ tracks sz o' (fold_left show_envelope es s).
Proof.
  revert o s. induction es as [|e es IH]; intros o s Ht; simpl; [by eauto|].
  destruct (tracks_envelope e o s Ht) as (o1 & r & -> & Hp & Ht1).
  destruct (IH o1 _ Ht1) as (o2 & E & Hp2 & Ht2).
  exists o2. split; [done|]. split; [congruence|done].
Qed.

(** The mailbox from the first unread envelope on is what is unread. *)
Definition in_step (m : list ProtocolEnvelope) (o : RemoteObserverRuntime) (s : shown) : Prop :=
  tracks sz o s /\ 0 <= processed_envelopes o <= len m /\
  unread s = snapshot_from (processed_envelopes o) m.

Lemma in_step_step c m o s :
  match c with ResizeTo sz' => size_ok sz' | _ => True end ->
  in_step m o s ->
  exists m' o', observer_step c (m, o) = Ok (m', o') /\ in_step m' o' (show_step s c).
Proof.
  intros Hc (Ht & Hp & Hu). destruct c as [e| |seq bytes|sz'|]; simpl.
  - do 2 eexists. split; [done|]. split; [by apply (tracks_same o _ s _ Ht); try apply Ht|].
    rewrite len_app. split; [unfold len in *; simpl; lia|]. simpl. rewrite Hu.
    unfold snapshot_from. rewrite drop_app_le by (unfold len in Hp; lia). done.
  - unfold sync. rewrite <- Hu. destruct (tracks_envelopes (unread s) o s Ht) as (o' & -> & Hp' & Ht').
    do 2 eexists. split; [done|]. split; [by apply (tracks_same o' _ _ _ Ht'); try apply Ht'|].
    assert (Hl : len (unread s) = len m - processed_envelopes o).
    { rewrite Hu. unfold snapshot_from, len in *. rewrite length_drop. lia. }
    simpl. rewrite Hp', Hl. split; [unfold len in *; lia|].
    unfold snapshot_from. rewrite drop_ge; [done|]. unfold len in *. lia.
  - destruct (tracks_raw o s seq bytes Ht) as (o' & -> & Hp' & Ht').
    do 2 eexists. split; [done|]. split; [done|]. rewrite Hp'. split; [done|].
    unfold show_output. by destruct (above _ _).
  - do 2 eexists. split; [done|]. destruct Ht as (Hrun & Hok & Hw).
    split; [|done]. split; [|split; [by apply Forall_app; split; [|constructor]|done]].
    simpl. by rewrite terminal_run_app, Hrun; unfold replying; simpl; rewrite app_nil_r.
  - do 2 eexists. split; [done|]. split; [|done].
    by apply (tracks_same o _ s _ Ht).
Qed.

Lemma in_step_run calls m o s :
  Forall (fun c => match c with ResizeTo sz' => size_ok sz' | _ => True end) calls ->
  in_step m o s ->
  exists m' o', observer_run calls (m, o) = Ok (m', o') /\ in_step m' o' (fold_left show_step calls s).
Proof.
  intros Hc. revert m o s. induction Hc as [|c calls Hc Hcs IH]; intros m o s Hs;
    cbn [observer_run fold_left]; [by eauto|].
  destruct (in_step_step c m o s Hc Hs) as (m1 & o1 & -> & Hs1). by apply IH.
Qed.

End tracking.

Definition observer_call_ok (c : observer_call) : Prop :=
  match c with ResizeTo sz => size_ok sz | _ => True end.

Lemma observer_run_shows cols rows calls :
  size_ok (terminal_size cols rows) -> Forall observer_call_ok calls ->
  exists m o, observer_run calls ([], observer_new cols rows) = Ok (m, o) /\
    in_step (terminal_size cols rows) m o (show_run calls).
Proof.
  intros Hsz Hc. apply in_step_run; [done|done|]. split; [|by split].
  by split; [|split].
Qed.

(** C10. The observer refines its specification: opened with, and resized to,
    sizes of at least one row and column and at most 65528 columns, whatever
    envelopes and frames arrive, in whatever order, and whenever it is
    synchronized, resized or reset, no call panics, and its terminal and the
    collected replies are those of a terminal fed exactly the bootstrap and the
    output whose sequence number was above the watermark, in order of arrival.
    (For other sizes the terminal itself may panic: [odd_sizes_panic].) *)
Theorem observer_shows_accepted_output cols rows calls :
  size_ok (terminal_size cols rows) -> Forall observer_call_ok calls ->
  exists m o, observer_run calls ([], observer_new cols rows) = Ok (m, o) /\
    terminal_run (calls_made (show_run calls)) (terminal_new (terminal_size cols rows))
      = Ok (terminal o, pending_replies o) /\
    last_output_seq o = watermark (show_run calls) /\
    snapshot_from (processed_envelopes o) m = unread (show_run calls).
Proof.
  intros Hsz Hc. destruct (observer_run_shows cols rows calls Hsz Hc) as (m & o & E & Ht & _ & Hu).
  exists m, o. destruct Ht as (Hrun & _ & Hw). done.
Qed.

Lemma observer_shows_accepted_output_witness :
  let output := mkRawPtyOutput "shell-1" "peer-a:shell-1" 2 (as_bytes "b") in
  let mail := mkProtocolEnvelope "1.1" "m" "raw_pty_output" "0Z" "peer-a" None None None None None
                (RawPtyOutput output) in
  let calls := [FeedRaw 1 (as_bytes "a"); Post mail; Sync; FeedRaw 2 (as_bytes "b")] in
  exists m o, observer_run calls ([], observer_new 4 2) = Ok (m, o) /\
    terminal_run [Feed (as_bytes "a"); Feed (as_bytes "b")] (terminal_new (terminal_size 4 2))
      = Ok (terminal o, pending_replies o) /\
    last_output_seq o = Some 2 /\ snapshot_from (processed_envelopes o) m = [].
Proof.
  intros output mail calls. apply (observer_shows_accepted_output 4 2 calls).
  - split; vm_compute; split; discriminate.
  - by repeat constructor.
Defined.

(** ** Exactly once

    The sender numbers every chunk of output and may hand it to the observer
    twice: directly, and through the mailbox. *)

Inductive channel := Direct | Mailed.

Definition output_envelope (session target : string) (q : Z) (bytes : list byte) : ProtocolEnvelope :=
  mkProtocolEnvelope REMOTE_PROTOCOL_VERSION "output" "raw_pty_output" "0Z" "peer" None
    (Some session) (Some target) None None (RawPtyOutput (mkRawPtyOutput session target q bytes)).

Definition deliver (session target : string) (d : channel * (Z * list byte)) : list observer_call :=
  match d with
  | (Direct, (q, bytes)) => [FeedRaw q bytes]
  | (Mailed, (q, bytes)) => [Post (output_envelope session target q bytes); Sync]
  end.

(** [merge l k ds]: [ds] delivers [l] directly and [k] by mail, each in order. *)
Inductive merge {A} : list A -> list A -> list (channel * A) -> Prop :=
| merge_nil : merge [] [] []
| merge_direct a l k ds : merge l k ds -> merge (a :: l) k ((Direct, a) :: ds)
| merge_mailed a l k ds : merge l k ds -> merge l (a :: k) ((Mailed, a) :: ds).

Lemma show_deliver session target c q bytes w calls :
  fold_left show_step (deliver session target (c, (q, bytes))) (mkShown [] w calls) =
  show_output q bytes (mkShown [] w calls).
Proof.
  destruct c; [done|]. cbn. unfold show_envelope. cbn. unfold show_output. cbn.
  by destruct (above w q).
Qed.

(** The outputs that pass the watermark. *)
Fixpoint accepted (w : option Z) (ds : list (Z * list byte)) : list (Z * list byte) :=
  match ds with
  | [] => []
  | (q, bytes) :: rest =>
      if above w q then (q, bytes) :: accepted (Some q) rest else accepted w rest
  end.

Lemma show_deliveries session target ds w calls :
  unread (fold_left show_step (concat (map (deliver session target) ds)) (mkShown [] w calls)) = [] /\
  calls_made (fold_left show_step (concat (map (deliver session target) ds)) (mkShown [] w calls))
    = calls ++ map (fun x => Feed x.2) (accepted w (map snd ds)).
Proof.
  revert w calls. induction ds as [|[c [q bytes]] ds IH]; intros w calls.
  - simpl. by rewrite app_nil_r.
  - cbn [map concat snd accepted]. rewrite fold_left_app, show_deliver. unfold show_output. simpl.
    destruct (above w q); [|apply IH].
    destruct (IH (Some q) (calls ++ [Feed bytes])) as [Hu Hc]. split; [done|].
    rewrite Hc. simpl. by rewrite <- (assoc_L (++)).
Qed.

Lemma sorted_lookup {A} (R : A -> A -> Prop) l i j x y :
  StronglySorted R l -> l !! i = Some x -> l !! j = Some y -> (i < j)%nat -> R x y.
Proof.
  intros Hs. revert i j. induction Hs as [|a l Hs IH Hf]; intros i j Hi Hj Hlt; [done|].
  destruct j as [|j]; [lia|]. destruct i as [|i]; simpl in *.
  - simplify_eq. rewrite Forall_forall in Hf. by apply Hf, list_elem_of_lookup_2 with j.
  - eapply IH; eauto with lia.
Qed.

(** [outs] from position [i] on, given that the first [i] were accepted. *)
Definition seq_before (outs : list (Z * list byte)) (i : nat) : option Z :=
  match i with O => None | S j => fst <$> outs !! j end.

Lemma above_before outs i j x :
  StronglySorted (fun a b => a.1 < b.1) outs -> outs !! j = Some x ->
  above (seq_before outs i) x.1 = bool_decide (i <= j)%nat \/ (length outs < i)%nat.
Proof.
  intros Hs Hj. unfold above, seq_before. destruct i as [|i].
  { left. symmetry. apply bool_decide_true. lia. }
  destruct (outs !! i) as [y|] eqn:Hi; simpl; [|right; apply lookup_ge_None_1 in Hi; lia].
  left. destruct (decide (i < j)%nat) as [Hlt|Hge].
  - rewrite bool_decide_true by lia. apply Z.ltb_lt.
    by eapply (sorted_lookup (fun a b => a.1 < b.1) outs i j).
  - rewrite bool_decide_false by lia. apply Z.ltb_ge.
    destruct (decide (i = j)) as [->|Hne]; [simplify_eq; lia|].
    assert (x.1 < y.1); [|lia]. eapply (sorted_lookup (fun a b => a.1 < b.1) outs j i); [done|done|done|lia].
Qed.

Section exactly_once.
Context (outs : list (Z * list byte)).
Context (Hsorted : StronglySorted (fun a b => a.1 < b.1) outs).

Lemma prefix_drop_cons {A} (x : A) l i (k : list A) :
  (x :: l) `prefix_of` drop i k -> k !! i = Some x /\ l `prefix_of` drop (S i) k.
Proof.
  intros [r Hr]. split.
  - rewrite <- (Nat.add_0_r i), <- lookup_drop, Hr. done.
  - exists r. rewrite <- Nat.add_1_r, <- drop_drop, Hr. done.
Qed.

(** One delivery: the next output of a channel is accepted when the channel is
    not behind the other. *)
Lemma accepted_next m i x rest :
  outs !! i = Some x -> (i <= m <= length outs)%nat ->
  accepted (seq_before outs m) (x :: rest) =
  if decide (m = i) then x :: accepted (seq_before outs (S m)) rest
  else accepted (seq_before outs m) rest.
Proof.
  intros Hi Hm. destruct x as [q bytes]. cbn [accepted].
  destruct (above_before outs m i (q, bytes) Hsorted Hi) as [Ha|]; [|lia].
  simpl in Ha. rewrite Ha. destruct (decide (m = i)) as [->|Hne].
  - rewrite bool_decide_true by lia. simpl. by rewrite Hi.
  - by rewrite bool_decide_false by lia.
Qed.

Lemma accepted_merge l k ds i j :
  merge l k ds -> l `prefix_of` drop i outs -> k `prefix_of` drop j outs ->
  (i <= length outs)%nat -> (j <= length outs)%nat ->
  accepted (seq_before outs (i `max` j)) (map snd ds) =
  take ((i + length l) `max` (j + length k) - i `max` j) (drop (i `max` j) outs).
Proof.
  intros Hm. revert i j. induction Hm as [|x l k ds Hm IH|x l k ds Hm IH]; intros i j Hl Hk Hi Hj.
  - simpl. by replace (_ - _)%nat with 0%nat by lia.
  - apply prefix_drop_cons in Hl as [Hx Hl]. pose proof (lookup_lt_Some _ _ _ Hx).
    cbn [map snd length]. rewrite (accepted_next _ i) by (done || lia).
    specialize (IH (S i) j Hl Hk ltac:(lia) Hj). destruct (decide (i `max` j = i)%nat) as [E|Hne].
    + rewrite E. replace (S i `max` j)%nat with (S i) in IH by lia. rewrite IH.
      rewrite (drop_S outs x i) by done.
      replace ((i + S (length l)) `max` (j + length k) - i)%nat
        with (S ((S i + length l) `max` (j + length k) - S i)) by lia. done.
    + replace (S i `max` j)%nat with (i `max` j)%nat in IH by lia. rewrite IH. f_equal. lia.
  - apply prefix_drop_cons in Hk as [Hx Hk]. pose proof (lookup_lt_Some _ _ _ Hx).
    cbn [map snd length]. rewrite (accepted_next _ j) by (done || lia).
    specialize (IH i (S j) Hl Hk Hi ltac:(lia)). destruct (decide (i `max` j = j)%nat) as [E|Hne].
    + rewrite E. replace (i `max` S j)%nat with (S j) in IH by lia. rewrite IH.
      rewrite (drop_S outs x j) by done.
      replace ((i + length l) `max` (j + S (length k)) - j)%nat
        with (S ((i + length l) `max` (S j + length k) - S j)) by lia. done.
    + replace (i `max` S j)%nat with (i `max` j)%nat in IH by lia. rewrite IH. f_equal. lia.
Qed.

End exactly_once.

(** Output is shown exactly once: when every chunk the sender numbered is
    handed over directly and through the mailbox, in any interleaving and
    with either channel behind the other, the observer's terminal is the one
    that was fed the chunks once, in order, up to the further channel. *)
Theorem output_is_shown_once cols rows outs n1 n2 ds session target :
  size_ok (terminal_size cols rows) ->
  StronglySorted (fun a b => a.1 < b.1) outs ->
  merge (take n1 outs) (take n2 outs) ds ->
  exists m o,
    observer_run (concat (map (deliver session target) ds)) ([], observer_new cols rows) = Ok (m, o) /\
    feed_and_collect_replies (concat (map snd (take (n1 `max` n2) outs)))
      (terminal_new (terminal_size cols rows)) = Ok (terminal o, pending_replies o).
Proof.
  intros Hsz Hs Hm.
  destruct (observer_run_shows cols rows (concat (map (deliver session target) ds)) Hsz)
    as (m & o & E & (Hrun & _) & _).
  { apply Forall_concat, Forall_map, Forall_true. intros [[] [q b]]; by repeat constructor. }
  exists m, o. split; [done|]. rewrite <- Hrun. unfold show_run.
  destruct (show_deliveries session target ds None []) as [_ ->]. rewrite app_nil_l.
  pose proof (accepted_merge outs Hs _ _ _ 0 0 Hm (prefix_take _ _) (prefix_take _ _)
                ltac:(lia) ltac:(lia)) as Ha.
  simpl in Ha. rewrite !drop_0, !length_take, Nat.sub_0_r in Ha. rewrite Ha.
  assert (Ht : take ((n1 `min` length outs) `max` (n2 `min` length outs)) outs
               = take (n1 `max` n2) outs).
  { destruct (decide (n1 `max` n2 <= length outs)%nat); [f_equal; lia|].
    rewrite !take_ge by lia. done. }
  rewrite Ht. destruct (take (n1 `max` n2) outs) as [|x xs]; [reflexivity|].
  rewrite <- (map_map snd Feed). cbn [map]. symmetry. by apply feed_chunks.
Qed.

Lemma output_is_shown_once_witness :
  let outs := [(1, as_bytes "a"); (2, as_bytes "b"); (5, as_bytes "c")] in
  let ds := [(Direct, (1, as_bytes "a")); (Direct, (2, as_bytes "b")); (Mailed, (1, as_bytes "a"));
             (Mailed, (2, as_bytes "b")); (Mailed, (5, as_bytes "c"))] in
  exists m o,
    observer_run (concat (map (deliver "shell-1" "peer-a:shell-1") ds)) ([], observer_new 4 2)
      = Ok (m, o) /\
    feed_and_collect_replies (as_bytes "abc") (terminal_new (terminal_size 4 2))
      = Ok (terminal o, pending_replies o).
Proof.
  intros outs ds. apply (output_is_shown_once 4 2 outs 2 3 ds "shell-1" "peer-a:shell-1").
  - split; vm_compute; split; discriminate.
  - repeat constructor; vm_compute; reflexivity.
  - repeat constructor.
Defined.
