(* ===== verification/AuthorityTransport.v ===== *)
(** * Authority transport: commands over a socket

    [src/remote/authority/remote_authority_transport_runtime.rs] and the
    handshake of [src/remote/node/remote_node_transport_runtime.rs]: the
    envelopes a session sends, the hellos, the loop that waits for the next
    command ([recv_command]), the thread that passes commands on
    ([bridge_reader], from [src/remote/node/remote_node_ingress_server_runtime.rs])
    and the two forwarding loops between a framed and an unframed socket.

    A loop runs on fuel; a read that succeeds or times out consumes an
    arrival, so the length of the arrivals is enough ([recv_command_fuel]).
    The clock is an argument. *)

From S2P Require Import Prelude Bytes SessionCatalog Protocol Codec CodecRoundTrip.
From stdpp Require Import pretty.
#[local] Open Scope Z_scope.

(** ** Handshake *)

Definition NODE_TRANSPORT_HEARTBEAT_INTERVAL_MS : Z := 5000.
Definition NODE_TRANSPORT_SESSION_RECOVERY_POLICY : string := "republish_live_targets".

(** [now_rfc3339_like] at a given millisecond. *)
Definition now_rfc3339_like (millis : Z) : string := (pretty millis +:+ "Z")%string.

Inductive handshake_error :=
| HelloCodec (e : codec_error)
| SenderMismatch (sender node : string)
| ProtocolMismatch (accepted : string)
| UnexpectedHandshake (message_type : string).

(** An envelope that names no session, as the hellos are. *)
Definition hello_envelope (id sender : string) (now : Z) (payload : ControlPlanePayload) :
    ProtocolEnvelope :=
  mkProtocolEnvelope REMOTE_PROTOCOL_VERSION id (message_type payload) (now_rfc3339_like now)
    sender None None None None None payload.

(** [version] is the crate's version, [CARGO_PKG_VERSION]. *)
Definition write_client_hello (version node_id : string) (now : Z) : writes :=
  write_control_plane_envelope
    (hello_envelope (node_id +:+ "-client-hello-1")%string node_id now
       (ClientHello (mkClientHello node_id version))).

Definition write_server_hello (version server_id : string) (now : Z) : writes :=
  write_control_plane_envelope
    (hello_envelope (server_id +:+ "-server-hello-1")%string server_id now
       (ServerHello (mkServerHello server_id version REMOTE_PROTOCOL_VERSION
          NODE_TRANSPORT_HEARTBEAT_INTERVAL_MS NODE_TRANSPORT_SESSION_RECOVERY_POLICY))).

Definition read_client_hello (s : list arrival) : result string handshake_error * list arrival :=
  match read_control_plane_envelope s with
  | (Err e, s') => (Err (HelloCodec e), s')
  | (Ok envelope, s') =>
      match env_payload envelope with
      | ClientHello payload =>
          if bool_decide (hello_node_id payload <> env_sender_id envelope)
          then (Err (SenderMismatch (env_sender_id envelope) (hello_node_id payload)), s')
          else (Ok (hello_node_id payload), s')
      | other => (Err (UnexpectedHandshake (message_type other)), s')
      end
  end.

Definition read_server_hello (s : list arrival) :
    result ServerHelloPayload handshake_error * list arrival :=
  match read_control_plane_envelope s with
  | (Err e, s') => (Err (HelloCodec e), s')
  | (Ok envelope, s') =>
      match env_payload envelope with
      | ServerHello payload =>
          if bool_decide (shello_server_id payload <> env_sender_id envelope)
          then (Err (SenderMismatch (env_sender_id envelope) (shello_server_id payload)), s')
          else if bool_decide (shello_accepted_protocol_version payload <> REMOTE_PROTOCOL_VERSION)
          then (Err (ProtocolMismatch (shello_accepted_protocol_version payload)), s')
          else (Ok payload, s')
      | other => (Err (UnexpectedHandshake (message_type other)), s')
      end
  end.

(** ** The runtime *)

Record RemoteAuthorityTransportRuntime := mkTransport {
  transport_node_id : string;
  next_message_id : Z }.

(** [connect]: the hello that is written, and the runtime once the server's
    hello was read. *)
Definition connect (version node_id : string) (now : Z) (s : list arrival) :
    writes * (result RemoteAuthorityTransportRuntime handshake_error * list arrival) :=
  (write_client_hello version node_id now,
   match read_server_hello s with
   | (Ok _, s') => (Ok (mkTransport node_id 0), s')
   | (Err e, s') => (Err e, s')
   end).

(** [send_payload]: a bare envelope with the next message number. *)
Definition payload_envelope (t : RemoteAuthorityTransportRuntime) (now : Z)
    (session_id target_id : string) (payload : ControlPlanePayload) : ProtocolEnvelope :=
  mkProtocolEnvelope REMOTE_PROTOCOL_VERSION
    (transport_node_id t +:+ "-authority-msg-" +:+ pretty (wrap 64 (next_message_id t) + 1)%Z)%string
    (message_type payload) (now_rfc3339_like now) (transport_node_id t) None (Some session_id)
    (Some target_id) None None payload.

Definition send_payload (t : RemoteAuthorityTransportRuntime) (now : Z)
    (session_id target_id : string) (payload : ControlPlanePayload) :
    writes * RemoteAuthorityTransportRuntime :=
  (write_control_plane_envelope (payload_envelope t now session_id target_id payload),
   mkTransport (transport_node_id t) (wrap 64 (next_message_id t + 1))).

Definition send_target_output t now session_id target_id output_seq stream output_bytes :=
  send_payload t now session_id target_id
    (TargetOutput (mkTargetOutput session_id target_id output_seq stream output_bytes)).

Definition send_mirror_bootstrap_chunk t now session_id target_id chunk_seq stream output_bytes :=
  send_payload t now session_id target_id
    (MirrorBootstrapChunk (mkMirrorBootstrapChunk session_id target_id chunk_seq stream output_bytes)).

Definition send_mirror_bootstrap_complete t now session_id target_id last_chunk_seq
    alternate_screen_active application_cursor_keys cursor_visible :=
  send_payload t now session_id target_id
    (MirrorBootstrapComplete (mkMirrorBootstrapComplete session_id target_id last_chunk_seq
       alternate_screen_active application_cursor_keys cursor_visible)).

Definition send_apply_resize t now session_id target_id cols rows resize_epoch console :=
  send_payload t now session_id target_id
    (ApplyResize (mkApplyResize session_id target_id resize_epoch console cols rows)).

Definition send_resize_applied t now session_id target_id cols rows resize_epoch console :=
  send_payload t now session_id target_id
    (ResizeApplied (mkResizeApplied session_id target_id resize_epoch console cols rows)).

Definition send_target_geometry_changed t now session_id target_id cols rows :=
  send_payload t now session_id target_id
    (TargetGeometryChanged (mkTargetGeometryChanged session_id target_id cols rows)).

Definition send_close_mirror_request t now session_id target_id :=
  send_payload t now session_id target_id
    (CloseMirrorRequest (mkCloseMirrorRequest session_id target_id)).

Definition send_raw_pty_output (session_id target_id : string) (output_seq : Z)
    (output_bytes : list byte) : writes :=
  write_authority_transport_frame
    (FrameRawPtyOutput (mkRawPtyOutput session_id target_id output_seq output_bytes)).

Definition send_sync_response (session_id target_id : string) (seq : Z) (bytes : list byte) : writes :=
  write_authority_transport_frame (FrameSyncResponse session_id target_id seq bytes).

(** ** Receiving commands *)

Inductive RemoteAuthorityCommand :=
| CommandOpenMirror (payload : OpenMirrorRequestPayload)
| CommandCloseMirror (payload : CloseMirrorRequestPayload)
| CommandRawPtyInput (payload : RawPtyInputPayload)
| CommandPasteFile (payload : PasteFileRequestPayload)
| CommandApplyResize (payload : ApplyResizePayload)
| CommandSyncRequest (expected_seq received_seq : Z)
| CommandHeartbeatPing.

Inductive transport_error :=
| UnexpectedCommand (message_type : string)
| UnexpectedFrame (frame : AuthorityTransportFrame)
| TransportClosed
| TransportCodec (e : codec_error).

Definition command_from_control_plane_payload (payload : ControlPlanePayload) :
    result RemoteAuthorityCommand transport_error :=
  match payload with
  | OpenMirrorRequest payload => Ok (CommandOpenMirror payload)
  | CloseMirrorRequest payload => Ok (CommandCloseMirror payload)
  | RawPtyInput payload => Ok (CommandRawPtyInput payload)
  | PasteFileRequest payload => Ok (CommandPasteFile payload)
  | ApplyResize payload => Ok (CommandApplyResize payload)
  | other => Err (UnexpectedCommand (message_type other))
  end.

(** What [recv_command] makes of a frame; [None] is another turn of the loop. *)
Definition command_of_frame (f : AuthorityTransportFrame) :
    option (result RemoteAuthorityCommand transport_error) :=
  match f with
  | FrameControlPlane envelope => Some (command_from_control_plane_payload (env_payload envelope))
  | FrameRawPtyInput payload => Some (Ok (CommandRawPtyInput payload))
  | FramePing => Some (Ok CommandHeartbeatPing)
  | FramePong => None
  | FrameSyncRequest expected_seq received_seq =>
      Some (Ok (CommandSyncRequest expected_seq received_seq))
  | FrameInputCongestion _ => None
  | other => Some (Err (UnexpectedFrame other))
  end.

(** [closed n] is the flag as seen at the [n]-th read timeout. [None]: the
    fuel ran out. *)
Fixpoint recv_loop (fuel : nat) (closed : nat -> bool) (n : nat) (s : list arrival) :
    option (result RemoteAuthorityCommand transport_error * list arrival) :=
  match fuel with
  | O => None
  | S fuel =>
      match read_authority_transport_frame s with
      | (Ok frame, s') =>
          match command_of_frame frame with
          | Some r => Some (r, s')
          | None => recv_loop fuel closed n s'
          end
      | (Err e, s') =>
          if is_read_timeout e then
            if closed n then Some (Err TransportClosed, s')
            else recv_loop fuel closed (S n) s'
          else Some (Err (TransportCodec e), s')
      end
  end.

Definition recv_command (closed : nat -> bool) (s : list arrival) :
    option (result RemoteAuthorityCommand transport_error * list arrival) :=
  recv_loop (S (length s)) closed 0 s.

(** [spawn_authority_bridge_reader]: the commands passed on until one cannot
    be received, and why. *)
Fixpoint bridge_loop (fuel : nat) (closed : nat -> bool) (s : list arrival) :
    list RemoteAuthorityCommand * option transport_error :=
  match fuel with
  | O => ([], None)
  | S fuel =>
      match recv_command closed s with
      | Some (Ok command, s') =>
          let '(commands, stop) := bridge_loop fuel closed s' in (command :: commands, stop)
      | Some (Err e, _) => ([], Some e)
      | None => ([], None)
      end
  end.

Definition bridge_reader (closed : nat -> bool) (s : list arrival) :
    list RemoteAuthorityCommand * option transport_error :=
  bridge_loop (S (length s)) closed s.

(** ** Forwarding between sockets *)

Definition AUTHORITY_TRANSPORT_SERVER_ID : string := "waitagent-main-slot".

Definition raw_pty_input_envelope (now : Z) (payload : RawPtyInputPayload) : ProtocolEnvelope :=
  mkProtocolEnvelope REMOTE_PROTOCOL_VERSION
    ("raw-pty-input-" +:+ pretty (rin_input_seq payload))%string "raw_pty_input"
    (now_rfc3339_like now) AUTHORITY_TRANSPORT_SERVER_ID None (Some (rin_session_id payload))
    (Some (rin_target_id payload)) (Some (rin_attachment_id payload))
    (Some (rin_console_id payload)) (RawPtyInput payload).

Definition raw_pty_output_envelope (now : Z) (payload : RawPtyOutputPayload) : ProtocolEnvelope :=
  mkProtocolEnvelope REMOTE_PROTOCOL_VERSION
    ("raw-pty-output-" +:+ pretty (rout_output_seq payload))%string "raw_pty_output"
    (now_rfc3339_like now) AUTHORITY_TRANSPORT_SERVER_ID None (Some (rout_session_id payload))
    (Some (rout_target_id payload)) None None (RawPtyOutput payload).

(** What [forward_control_plane_to_authority_frames] does with a frame: the
    message for the other socket and the answer to the sender. *)
Definition forward_outward (now : Z) (f : AuthorityTransportFrame) :
    option sent * option AuthorityTransportFrame :=
  match f with
  | FramePing => (None, Some FramePong)
  | FramePong => (None, None)
  | FrameControlPlane envelope => (Some (Bare envelope), None)
  | FrameRawPtyInput payload => (Some (Bare (raw_pty_input_envelope now payload)), None)
  | FrameRawPtyOutput payload => (Some (Bare (raw_pty_output_envelope now payload)), None)
  | FrameSyncRequest _ _ | FrameSyncResponse _ _ _ _ | FrameInputCongestion _ =>
      (Some (Framed f), None)
  end.

(** The loop: what was written to the other socket and back, and how it
    ended. [running n] is the flag at the [n]-th turn, [clock n] the time. *)
Fixpoint outward_loop (fuel : nat) (running : nat -> bool) (clock : nat -> Z) (n : nat)
    (s : list arrival) : list sent * list AuthorityTransportFrame * option (result unit transport_error) :=
  match fuel with
  | O => ([], [], None)
  | S fuel =>
      if running n then
        match read_authority_transport_frame s with
        | (Ok frame, s') =>
            let '(out, back) := forward_outward (clock n) frame in
            let '(outs, backs, stop) := outward_loop fuel running clock (S n) s' in
            (option_list out ++ outs, option_list back ++ backs, stop)
        | (Err e, s') =>
            if is_read_timeout e then outward_loop fuel running clock (S n) s'
            else ([], [], Some (Err (TransportCodec e)))
        end
      else ([], [], Some (Ok tt))
  end.

Definition forward_control_plane_to_authority_frames (running : nat -> bool) (clock : nat -> Z)
    (s : list arrival) : list sent * list AuthorityTransportFrame * option (result unit transport_error) :=
  outward_loop (S (length s)) running clock 0 s.

(** The frame [forward_authority_frames_to_control_plane] writes: output that
    came in an envelope goes on as a frame of its own. *)
Definition forward_inward (f : AuthorityTransportFrame) : AuthorityTransportFrame :=
  match f with
  | FrameControlPlane envelope =>
      match env_payload envelope with
      | RawPtyOutput payload => FrameRawPtyOutput payload
      | _ => FrameControlPlane envelope
      end
  | raw_frame => raw_frame
  end.

Record keepalive := mkKeepalive { last_received : Z; keepalive_sent_at : option Z }.

Inductive inward_error := KeepaliveTimedOut | InwardCodec (e : codec_error).

(** [div_f32(3.0) * 2], [min], [max] and [saturating_sub] of the intervals in
    milliseconds. *)
Definition ping_interval (interval socket_timeout read_timeout : Z) : Z :=
  Z.max (Z.min interval (read_timeout / 3 * 2)) socket_timeout.
Definition ping_timeout (interval socket_timeout read_timeout : Z) : Z :=
  Z.max (Z.max 0 (read_timeout - ping_interval interval socket_timeout read_timeout)) socket_timeout.

Section inward.
Context (interval timeout : Z) (clock : nat -> Z).

(** One turn: the frame passed on, the frame written back, the keepalive. *)
Definition inward_frame (now : Z) (f : AuthorityTransportFrame) :
    list AuthorityTransportFrame * list AuthorityTransportFrame * keepalive :=
  let k := mkKeepalive now None in
  match f with
  | FramePing => ([], [FramePong], k)
  | FramePong => ([], [], k)
  | frame => ([forward_inward frame], [], k)
  end.

Definition inward_quiet (now : Z) (k : keepalive) :
    result (list AuthorityTransportFrame * keepalive) inward_error :=
  match keepalive_sent_at k with
  | Some sent_at => if timeout <=? now - sent_at then Err KeepaliveTimedOut else Ok ([], k)
  | None =>
      if interval <=? now - last_received k
      then Ok ([FramePing], mkKeepalive (last_received k) (Some now))
      else Ok ([], k)
  end.

Fixpoint inward_loop (fuel n : nat) (k : keepalive) (s : list arrival) :
    list AuthorityTransportFrame * list AuthorityTransportFrame * option inward_error :=
  match fuel with
  | O => ([], [], None)
  | S fuel =>
      match read_authority_transport_frame s with
      | (Ok frame, s') =>
          let '(out, back, k) := inward_frame (clock n) frame in
          let '(outs, backs, stop) := inward_loop fuel (S n) k s' in
          (out ++ outs, back ++ backs, stop)
      | (Err e, s') =>
          if is_read_timeout e then
            match inward_quiet (clock n) k with
            | Ok (back, k) =>
                let '(outs, backs, stop) := inward_loop fuel (S n) k s' in
                (outs, back ++ backs, stop)
            | Err e => ([], [], Some e)
            end
          else ([], [], Some (InwardCodec e))
      end
  end.

Definition forward_authority_frames_to_control_plane (s : list arrival) :
    list AuthorityTransportFrame * list AuthorityTransportFrame * option inward_error :=
  inward_loop (S (length s)) 0 (mkKeepalive (clock 0) None) s.

End inward.

(** ** Reading makes progress

    A reader never puts arrivals back, and giving up on a quiet period
    consumes it. *)

Definition advances {A} (r : reader A) : Prop :=
  forall s x s', r s = (x, s') ->
    (length s' <= length s)%nat /\
    (x = Err (CodecIo WouldBlock) -> (length s' < length s)%nat).

Create HintDb advances.

Lemma advances_ret {A} (a : A) : advances (ret a).
Proof. intros s x s' [= <- <-]. done. Qed.

Lemma advances_throw {A} e : e <> CodecIo WouldBlock -> advances (@throw A e).
Proof. intros He s x s' [= <- <-]. split; [done|]. congruence. Qed.

Lemma advances_bind {A B} (m : reader A) (k : A -> reader B) :
  advances m -> (forall a, advances (k a)) -> advances (read_bind m k).
Proof.
  intros Hm Hk s x s' H. unfold read_bind in H. destruct (m s) as [[a|e] s1] eqn:E.
  - apply Hm in E as [Hl _]. apply Hk in H as [Hl' Ht]. split; [lia|]. intros Hx. specialize (Ht Hx). lia.
  - apply Hm in E as [Hl Ht]. simplify_eq. split; [done|]. intros [= ->]. by apply Ht.
Qed.

Lemma advances_exact n : advances (read_exact n).
Proof.
  intros s. unfold read_exact. revert n. induction s as [|[b|] s IH]; intros n x s'; simpl;
    destruct (n <=? 0); intros H; simplify_eq; try (simpl; split; [lia|done || lia]).
  destruct (read_exact_from s (n - 1)) as [[bs|e] s1] eqn:E; simplify_eq;
    apply IH in E as [Hl Ht]; (split; [simpl; lia|]); [done|].
  intros [= ->]. simpl. specialize (Ht eq_refl). lia.
Qed.

#[export] Hint Resolve advances_ret advances_exact : advances.

Ltac advance :=
  repeat match goal with
  | |- advances (read_bind _ _) => apply advances_bind; [|intros ?]
  | |- advances (if ?b then _ else _) => destruct b
  | |- advances (match ?o with Some _ => _ | None => _ end) => destruct o
  | |- advances (throw _) => apply advances_throw; discriminate
  | |- advances _ => solve [auto 1 with advances nocore]
  end.

Lemma advances_u8 : advances read_u8. Proof. unfold read_u8. advance. Qed.
Lemma advances_u32 : advances read_u32. Proof. unfold read_u32. advance. Qed.
Lemma advances_u64 : advances read_u64. Proof. unfold read_u64. advance. Qed.
Lemma advances_usize : advances read_usize. Proof. apply advances_u64. Qed.
#[export] Hint Resolve advances_u8 advances_u32 advances_u64 advances_usize : advances.

Lemma advances_bool : advances read_bool. Proof. unfold read_bool. advance. Qed.
Lemma advances_bytes : advances read_bytes. Proof. unfold read_bytes. advance. Qed.
Lemma advances_string : advances read_string. Proof. unfold read_string. advance. Qed.
#[export] Hint Resolve advances_bool advances_bytes advances_string : advances.

Lemma advances_static : advances read_known_static_string.
Proof. unfold read_known_static_string. advance. Qed.
Lemma advances_task_state : advances read_task_state.
Proof. unfold read_task_state. advance. Qed.
#[export] Hint Resolve advances_static advances_task_state : advances.

Lemma advances_optional_string : advances read_optional_string.
Proof. unfold read_optional_string. advance. Qed.
Lemma advances_optional_static : advances read_optional_static_string.
Proof. unfold read_optional_static_string. advance. Qed.
Lemma advances_optional_usize : advances read_optional_usize.
Proof. unfold read_optional_usize. advance. Qed.
Lemma advances_ack_status : advances read_target_publication_ack_status.
Proof. unfold read_target_publication_ack_status. advance. Qed.
Lemma advances_raw_input : advances read_raw_pty_input_payload.
Proof. unfold read_raw_pty_input_payload. advance. Qed.
Lemma advances_raw_output : advances read_raw_pty_output_payload.
Proof. unfold read_raw_pty_output_payload. advance. Qed.
#[export] Hint Resolve advances_optional_string advances_optional_static advances_optional_usize
  advances_ack_status advances_raw_input advances_raw_output : advances.

Lemma advances_payload : advances read_payload.
Proof. unfold read_payload. advance. Qed.
#[export] Hint Resolve advances_payload : advances.

Lemma advances_envelope : advances read_control_plane_envelope.
Proof. unfold read_control_plane_envelope. advance. Qed.
#[export] Hint Resolve advances_envelope : advances.

Lemma advances_frame : advances read_authority_transport_frame.
Proof.
  intros s x s' H. unfold read_authority_transport_frame in H. unfold read_bind at 1 in H.
  destruct (read_exact 4 s) as [[p|e] s1] eqn:E.
  - destruct (bool_decide (p = AUTHORITY_FRAME_MAGIC)); cbn [negb] in H.
    + apply advances_exact in E as [Hl _].
      match type of H with ?r s1 = _ => assert (Hr : advances r) by advance end.
      apply Hr in H as [Hl' Ht]. split; [lia|]. intros Hx. specialize (Ht Hx). lia.
    + apply read_exact_ok in E as [_ ->].
      assert (Hr : advances (let* envelope := read_control_plane_envelope in
                             ret (FrameControlPlane envelope))) by advance.
      unfold read_bind, chain in H. exact (Hr _ _ _ H).
  - apply advances_exact in E as [Hl Ht]. simplify_eq. split; [done|]. intros [= ->]. by apply Ht.
Qed.

Lemma sent_bytes_nonempty m : sent_ok m -> sent_bytes m <> [].
Proof.
  intros Hm He. pose proof (carries_read _ _ _ [] (carries_sent m Hm)) as H.
  unfold sent_bytes in He. rewrite He in H. vm_compute in H. discriminate.
Qed.

Lemma frame_progress s x s' :
  read_authority_transport_frame s = (x, s') ->
  is_ok x = true \/ x = Err (CodecIo WouldBlock) -> (length s' < length s)%nat.
Proof.
  intros H [Hx|Hx]; [|by apply advances_frame in H as [_ Ht]; apply Ht].
  destruct x as [f|]; [|done]. apply accepts_sent in H as [(m & Hm & _ & ->)|(flag & _ & _ & ->)].
  - rewrite length_app. unfold arrived. rewrite length_map.
    pose proof (sent_bytes_nonempty m Hm). destruct (sent_bytes m); [done|]. simpl. lia.
  - rewrite length_app. unfold arrived. rewrite length_map. simpl. lia.
Qed.

Lemma is_read_timeout_WouldBlock e : is_read_timeout e = true -> e = CodecIo WouldBlock.
Proof. by destruct e as [[]| | | | | | | | | | | | |]. Qed.

(** The fuel of [recv_command] is enough: it always comes to an end, of which
    a command has consumed something. *)
Lemma recv_loop_fuel fuel closed n s :
  (length s < fuel)%nat ->
  exists r s', recv_loop fuel closed n s = Some (r, s') /\ (length s' <= length s)%nat /\
    (is_ok r = true -> (length s' < length s)%nat).
Proof.
  revert n s. induction fuel as [|fuel IH]; intros n s Hf; [lia|]. simpl.
  destruct (read_authority_transport_frame s) as [[f|e] s'] eqn:E.
  - pose proof (frame_progress _ _ _ E (or_introl eq_refl)).
    destruct (command_of_frame f) as [r|]; [eexists _, _; split; [done|]; split; [lia|done]|].
    destruct (IH n s') as (r & s2 & Hr & Hl & Ho); [lia|]. exists r, s2. split; [done|].
    split; [lia|]. intros Hx. specialize (Ho Hx). lia.
  - pose proof (advances_frame _ _ _ E) as [Hl _].
    destruct (is_read_timeout e) eqn:Et; [|eexists _, _; split; [done|]; split; [lia|done]].
    apply is_read_timeout_WouldBlock in Et as ->.
    pose proof (frame_progress _ _ _ E (or_intror eq_refl)).
    destruct (closed n); [eexists _, _; split; [done|]; split; [lia|done]|].
    destruct (IH (S n) s') as (r & s2 & Hr & Hl' & Ho); [lia|].
    exists r, s2. split; [done|]. split; [lia|]. intros Hx. specialize (Ho Hx). lia.
Qed.

Lemma recv_command_fuel closed s :
  exists r s', recv_command closed s = Some (r, s') /\ (length s' <= length s)%nat /\
    (is_ok r = true -> (length s' < length s)%nat).
Proof. apply recv_loop_fuel. lia. Qed.

(** ** Commands on the wire

    What a session writes on its connection, with quiet periods between the
    messages. *)

Definition spaced (ms : list (nat * sent)) : list arrival :=
  concat (map (fun m => replicate m.1 Quiet ++ arrived (sent_bytes m.2)) ms).

Lemma read_quiet s : read_authority_transport_frame (Quiet :: s) = (Err (CodecIo WouldBlock), s).
Proof. done. Qed.

Lemma read_sent m s :
  sent_ok m -> read_authority_transport_frame (arrived (sent_bytes m) ++ s) = (Ok (sent_frame m), s).
Proof. intros Hm. by apply carries_read, carries_sent. Qed.

(** The fuel does not matter as long as it is enough. *)
Lemma recv_loop_more fuel fuel' closed n s :
  (length s < fuel)%nat -> (fuel <= fuel')%nat ->
  recv_loop fuel' closed n s = recv_loop fuel closed n s.
Proof.
  revert fuel' n s. induction fuel as [|fuel IH]; intros fuel' n s Hf Hle; [lia|].
  destruct fuel' as [|fuel']; [lia|]. simpl.
  destruct (read_authority_transport_frame s) as [[f|e] s'] eqn:E.
  - pose proof (frame_progress _ _ _ E (or_introl eq_refl)).
    destruct (command_of_frame f); [done|]. apply IH; lia.
  - destruct (is_read_timeout e) eqn:Et; [|done]. apply is_read_timeout_WouldBlock in Et as ->.
    pose proof (frame_progress _ _ _ E (or_intror eq_refl)). destruct (closed n); [done|].
    apply IH; lia.
Qed.

Lemma recv_loop_S fuel closed n s :
  recv_loop (S fuel) closed n s =
  match read_authority_transport_frame s with
  | (Ok frame, s') =>
      match command_of_frame frame with
      | Some r => Some (r, s')
      | None => recv_loop fuel closed n s'
      end
  | (Err e, s') =>
      if is_read_timeout e then
        if closed n then Some (Err TransportClosed, s')
        else recv_loop fuel closed (S n) s'
      else Some (Err (TransportCodec e), s')
  end.
Proof. done. Qed.

Lemma recv_loop_unfold closed n s :
  recv_loop (S (length s)) closed n s =
  match read_authority_transport_frame s with
  | (Ok frame, s') =>
      match command_of_frame frame with
      | Some r => Some (r, s')
      | None => recv_loop (S (length s')) closed n s'
      end
  | (Err e, s') =>
      if is_read_timeout e then
        if closed n then Some (Err TransportClosed, s')
        else recv_loop (S (length s')) closed (S n) s'
      else Some (Err (TransportCodec e), s')
  end.
Proof.
  rewrite (recv_loop_S (length s)).
  destruct (read_authority_transport_frame s) as [[f|e] s'] eqn:E.
  - pose proof (frame_progress _ _ _ E (or_introl eq_refl)).
    destruct (command_of_frame f); [done|]. apply recv_loop_more; lia.
  - destruct (is_read_timeout e) eqn:Et; [|done]. apply is_read_timeout_WouldBlock in Et as ->.
    pose proof (frame_progress _ _ _ E (or_intror eq_refl)). destruct (closed n); [done|].
    apply recv_loop_more; lia.
Qed.

(** The commands of some messages, if all of them are commands or ignored. *)
Definition commands_of (ms : list (nat * sent)) : list RemoteAuthorityCommand :=
  omap (fun m => match command_of_frame (sent_frame m.2) with
                 | Some (Ok c) => Some c
                 | _ => None
                 end) ms.

Definition is_command (m : nat * sent) : Prop :=
  match command_of_frame (sent_frame m.2) with Some (Err _) => False | _ => True end.

(** The flag of a transport that is not closed. *)
Definition never : nat -> bool := fun _ => false.

Lemma recv_loop_n fuel n k s : recv_loop fuel never n s = recv_loop fuel never k s.
Proof.
  revert n k s. induction fuel as [|fuel IH]; intros n k s; [done|]. rewrite !recv_loop_S.
  destruct (read_authority_transport_frame s) as [[f|e] s'].
  - destruct (command_of_frame f); [done|]. apply IH.
  - destruct (is_read_timeout e); [|done]. apply IH.
Qed.

Lemma recv_quiet k s : recv_command never (replicate k Quiet ++ s) = recv_command never s.
Proof.
  induction k as [|k IH]; [done|]. cbn [replicate app]. unfold recv_command at 1.
  rewrite recv_loop_unfold, read_quiet. cbn [is_read_timeout never].
  rewrite (recv_loop_n _ _ 0). exact IH.
Qed.

Lemma recv_sent m s :
  sent_ok m ->
  recv_command never (arrived (sent_bytes m) ++ s) =
  match command_of_frame (sent_frame m) with
  | Some r => Some (r, s)
  | None => recv_command never s
  end.
Proof. intros Hm. unfold recv_command at 1. rewrite recv_loop_unfold, read_sent by done. done. Qed.

Lemma bridge_loop_more fuel fuel' s :
  (length s < fuel)%nat -> (fuel <= fuel')%nat ->
  bridge_loop fuel' never s = bridge_loop fuel never s.
Proof.
  revert fuel' s. induction fuel as [|fuel IH]; intros fuel' s Hf Hle; [lia|].
  destruct fuel' as [|fuel']; [lia|]. cbn [bridge_loop].
  destruct (recv_command_fuel never s) as (r & s' & -> & Hl & Ho). destruct r as [c|e]; [|done].
  specialize (Ho eq_refl). by rewrite (IH fuel' s') by lia.
Qed.

Lemma bridge_unfold s :
  bridge_reader never s =
  match recv_command never s with
  | Some (Ok command, s') => (command :: (bridge_reader never s').1, (bridge_reader never s').2)
  | Some (Err e, _) => ([], Some e)
  | None => ([], None)
  end.
Proof.
  unfold bridge_reader at 1. cbn [bridge_loop].
  destruct (recv_command_fuel never s) as (r & s' & -> & Hl & Ho). destruct r as [c|e]; [|done].
  specialize (Ho eq_refl). rewrite (bridge_loop_more (S (length s'))) by lia.
  fold (bridge_reader never s'). by destruct (bridge_reader never s').
Qed.

Lemma bridge_commands ms :
  Forall (fun m => sent_ok m.2) ms -> Forall is_command ms ->
  bridge_reader never (spaced ms) =
  (commands_of ms, Some (TransportCodec (CodecIo UnexpectedEof))).
Proof.
  intros Hok Hcmd. induction Hok as [|[k m] ms Hm Hok IH]; [by rewrite bridge_unfold|].
  apply Forall_cons in Hcmd as [Hc Hcmd]. specialize (IH Hcmd). simpl in Hm.
  unfold spaced, commands_of. cbn [map concat fst snd omap list_omap]. fold (spaced ms).
  rewrite bridge_unfold, <- (assoc_L (++)), recv_quiet, recv_sent by done.
  unfold is_command in Hc. cbn [snd] in Hc.
  destruct (command_of_frame (sent_frame m)) as [[c|e]|]; [|done|].
  - rewrite IH. done.
  - rewrite <- bridge_unfold. exact IH.
Qed.

(** Commands arrive in order: when a session's messages, framed or bare,
    are cut by quiet periods only between them, the bridge passes on exactly
    the commands that were sent, in order, drops nothing but pongs and
    congestion notes, and stops at the end of the stream. *)
Theorem commands_arrive_in_order ms :
  Forall (fun m => sent_ok m.2) ms -> Forall is_command ms ->
  bridge_reader never (spaced ms) =
  (commands_of ms, Some (TransportCodec (CodecIo UnexpectedEof))).
Proof. apply bridge_commands. Qed.

(** An input frame and a heartbeat, with quiet periods, for the witness. *)
Definition sample_input : RawPtyInputPayload :=
  mkRawPtyInput "attach-1" "shell-1" "peer-a:shell-1" "console-1" "host-1" 1 (as_bytes "ls").

Lemma commands_arrive_in_order_witness :
  bridge_reader never
    (spaced [(2%nat, Framed (FrameRawPtyInput sample_input)); (0%nat, Framed FramePong);
             (1%nat, Framed FramePing)])
  = ([CommandRawPtyInput sample_input; CommandHeartbeatPing],
     Some (TransportCodec (CodecIo UnexpectedEof))).
Proof.
  apply (commands_arrive_in_order
    [(2%nat, Framed (FrameRawPtyInput sample_input)); (0%nat, Framed FramePong);
     (1%nat, Framed FramePing)]).
  - repeat constructor. simpl. lia.
  - by repeat constructor.
Defined.

(** ** A quiet period inside a message *)

Lemma read_exact_early n bs :
  len bs < n -> read_exact n (arrived bs) = (Err (CodecIo UnexpectedEof), []).
Proof.
  unfold read_exact. revert n. induction bs as [|b bs IH]; intros n Hn.
  - unfold len in Hn. simpl in *. by rewrite (proj2 (Z.leb_gt n 0)).
  - assert (Hl : len (b :: bs) = len bs + 1) by (unfold len; rewrite length_cons; lia).
    pose proof (len_nonneg bs). cbn [arrived map read_exact_from].
    rewrite (proj2 (Z.leb_gt n 0)) by lia. fold (arrived bs). by rewrite IH by lia.
Qed.

(** Read from the wrong place, four bytes are taken for the length of a
    protocol version, and everything that follows for its text. *)
Lemma misaligned_read p rest :
  len p = 4 -> p <> AUTHORITY_FRAME_MAGIC -> len rest < le_val p ->
  read_authority_transport_frame (arrived (p ++ rest)) = (Err (CodecIo UnexpectedEof), []).
Proof.
  intros Hp Hm Hl. rewrite arrived_app. unfold read_authority_transport_frame, read_bind at 1.
  rewrite <- Hp, read_exact_arrived. rewrite bool_decide_false by done. cbn [negb].
  unfold read_bind at 1, chain, read_control_plane_envelope, read_bind at 1, read_string, read_bind at 1.
  unfold read_u32, read_bind at 1. fold (arrived p). rewrite <- Hp, read_exact_arrived.
  unfold ret, read_bind at 1. by rewrite read_exact_early.
Qed.

Lemma le_bytes_small n : 0 <= n < 256 -> le_bytes 4 n = [byte_of n; x00; x00; x00].
Proof.
  intros Hn. unfold le_bytes, be_bytes. simpl.
  rewrite Z.div_1_r, !Z.div_small by lia. done.
Qed.

(** How an envelope of protocol 1.1 begins on the wire. *)
Lemma envelope_start e :
  envelope_ok e -> env_protocol_version e = REMOTE_PROTOCOL_VERSION ->
  1 <= str_len (env_message_id e) < 256 ->
  exists tail, sent_bytes (Bare e) =
    [x03; x00; x00; x00] ++ (as_bytes "1.1" ++ [byte_of (str_len (env_message_id e))]) ++ tail.
Proof.
  intros He Hv Hid. pose proof He as (_ & [_ Hm] & _).
  destruct (carries_envelope e He) as (bs & Hw & _).
  unfold sent_bytes, write_sent, write_control_plane_envelope. rewrite Hw. cbn [fst].
  unfold write_control_plane_envelope_without_flush in Hw. rewrite Hv in Hw.
  assert (Hver : write_string REMOTE_PROTOCOL_VERSION
                 = ([x03; x00; x00; x00] ++ as_bytes "1.1", Ok tt)) by reflexivity.
  rewrite Hver in Hw. clear Hver. unfold write_string at 1 in Hw. rewrite (write_bytes_ok (as_bytes (env_message_id e))) in Hw by done.
  unfold write_u32, write_all in Hw. fold (str_len (env_message_id e)) in Hw.
  rewrite le_bytes_small in Hw by lia.
  unfold and_then in Hw. cbn in Hw. repeat case_match; simplify_eq; eexists; reflexivity.
Qed.

Lemma quiet_after_length s :
  read_authority_transport_frame (arrived [x03; x00; x00; x00] ++ Quiet :: s)
  = (Err (CodecIo WouldBlock), s).
Proof. reflexivity. Qed.

Lemma version_as_length id : 1 <= byte_val id -> 2 ^ 24 <= le_val (as_bytes "1.1" ++ [id]).
Proof.
  intros H. assert (E : le_val (as_bytes "1.1" ++ [id]) = byte_val id * 2 ^ 24 + 0x312e31).
  { unfold le_val, be_val, len. simpl. change (byte_val x31) with 49. change (byte_val x2e) with 46. lia. }
  rewrite E. lia.
Qed.

(** A quiet period inside a message loses everything after it. When the
    receive timeout falls between the first two writes of an envelope, the
    loop goes on reading where it stopped; it takes the text of the protocol
    version for a length, and waits for that many bytes. Nothing of what the
    peer sends afterwards, up to 16 MiB, becomes a command, and no error is
    reported while the connection stays open. *)
Theorem quiet_inside_a_message_swallows_the_rest e ms :
  envelope_ok e -> env_protocol_version e = REMOTE_PROTOCOL_VERSION ->
  1 <= str_len (env_message_id e) < 256 ->
  len (sent_bytes (Bare e) ++ concat (map sent_bytes ms)) < 2 ^ 24 ->
  bridge_reader never
    (arrived (take 4 (sent_bytes (Bare e))) ++ [Quiet] ++
     arrived (drop 4 (sent_bytes (Bare e)) ++ concat (map sent_bytes ms)))
  = ([], Some (TransportCodec (CodecIo UnexpectedEof))).
Proof.
  intros He Hv Hid Hl. destruct (envelope_start e He Hv Hid) as [tail Ht]. rewrite Ht in *.
  set (id := byte_of (str_len (env_message_id e))) in *. set (rest := concat (map sent_bytes ms)) in *.
  rewrite take_app_length', drop_app_length' by done.
  rewrite bridge_unfold. unfold recv_command. rewrite recv_loop_unfold.
  cbn [app]. rewrite quiet_after_length. cbn [is_read_timeout never].
  rewrite recv_loop_unfold. rewrite !len_app in Hl. rewrite <- (assoc_L (++)).
  assert (Hb : byte_val id = str_len (env_message_id e)).
  { unfold id. rewrite byte_val_of. by rewrite Z.mod_small by lia. }
  pose proof (version_as_length id ltac:(lia)). pose proof (len_nonneg tail).
  rewrite misaligned_read; [done|done|by destruct id|].
  rewrite len_app. pose proof (len_nonneg (as_bytes "1.1" ++ [id])).
  pose proof (len_nonneg [x03; x00; x00; x00]). rewrite len_app in *. lia.
Qed.

Lemma quiet_inside_a_message_swallows_the_rest_witness :
  let e := payload_envelope (mkTransport "node-a" 0) 5 "shell-1" "peer-a:shell-1"
             (CloseMirrorRequest (mkCloseMirrorRequest "shell-1" "peer-a:shell-1")) in
  bridge_reader never
    (arrived (take 4 (sent_bytes (Bare e))) ++ [Quiet] ++
     arrived (drop 4 (sent_bytes (Bare e)) ++
              concat (map sent_bytes [Framed (FrameRawPtyInput sample_input); Framed FramePing])))
  = ([], Some (TransportCodec (CodecIo UnexpectedEof))).
Proof.
  intros e. apply (quiet_inside_a_message_swallows_the_rest e).
  - repeat split; vm_compute; reflexivity.
  - reflexivity.
  - vm_compute. split; [discriminate|reflexivity].
  - vm_compute. reflexivity.
Defined.
