(* ===== verification/ControlPlane.v ===== *)
(** * ControlPlane: who controls a mirrored session

    [src/remote/main_slot/remote_control_plane_service.rs] and
    [remote_main_slot_runtime.rs]: the server's table of opened sessions, the
    consoles attached to each, the console that may resize its terminal, the
    log of its output, and the messages that follow from opening, closing,
    typing, resizing and output. The counters are [u64]; they are counted up
    once per call and do not reach [2^64]. [clock n] is the time in
    milliseconds when message [n] is made.

    Main results: the console opened last is always the one that controls the
    size, exactly its resizes are forwarded, and every change of control has
    a new epoch; a console that opens the session is sent the recent output,
    in order. *)

From S2P Require Import Prelude Bytes SessionCatalog Protocol AuthorityTransport.
From stdpp Require Import pretty.
#[local] Open Scope Z_scope.

Definition MAX_OUTPUT_LOG_ENTRIES : nat := 2000.

Record OutputLogEntry := mkOutputLogEntry {
  log_output_seq : Z;
  log_stream : string;
  log_output_bytes : list byte;
}.

Record TerminalFlags := mkTerminalFlags {
  alternate_screen_active : bool;
  application_cursor_keys : bool;
  cursor_visible : bool;
}.

Inductive MirrorRouteState := MirrorNone | Pending | Active | Rejected (reason : string).

#[global] Instance MirrorRouteState_eq_dec : EqDecision MirrorRouteState.
Proof. solve_decision. Defined.

Definition should_send_mirror_request (r : MirrorRouteState) : bool :=
  match r with MirrorNone => true | _ => false end.

Record RemoteAttachment := mkRemoteAttachment {
  attachment_id : string;
  attachment_console : RemoteConsoleDescriptor;
  open_ordinal : Z;
  viewport_size : Z * Z;
}.

Record RemoteSessionState := mkRemoteSessionState {
  mirror_route : MirrorRouteState;
  authority_node_id : option string;
  input_seq : Z;
  pty_resize_epoch : Z;
  last_open_ordinal : Z;
  last_pty_size : option (Z * Z);
  pty_resize_authority_attachment_id : option string;
  attachments : list RemoteAttachment;
  output_log : list OutputLogEntry;
  state_output_seq : Z;
  terminal_flags : option TerminalFlags;
}.

Record RemoteControlPlaneService := mkService {
  next_message_id : Z;
  next_attachment_id : Z;
  session_states : gmap string RemoteSessionState;
}.

Inductive RemoteControlPlaneError :=
| NotRemoteTarget
| TargetUnavailable
| TargetNotOpened (target_id : string)
| AttachmentNotOpen (attachment_id : string)
| PtyResizeDenied (attachment_id : string)
| InvalidConsoleSequence
| InvalidOutputSequence
| MissingAuthorityState.

Definition service_new : RemoteControlPlaneService := mkService 0 0 ∅.

(** [RemoteSessionState::new] *)
Definition session_state_new : RemoteSessionState :=
  mkRemoteSessionState MirrorNone None 0 0 0 None None [] [] 0 None.

Definition with_states (f : gmap string RemoteSessionState -> gmap string RemoteSessionState)
    (svc : RemoteControlPlaneService) : RemoteControlPlaneService :=
  mkService (next_message_id svc) (next_attachment_id svc) (f (session_states svc)).

(** [if let Some(state) = self.session_states.get_mut(session_id)] *)
Definition update_session (session_id : string) (f : RemoteSessionState -> RemoteSessionState)
    (svc : RemoteControlPlaneService) : RemoteControlPlaneService :=
  with_states (alter f session_id) svc.

Definition set_mirror (r : MirrorRouteState) (authority : option string) (s : RemoteSessionState) :
    RemoteSessionState :=
  mkRemoteSessionState r authority (input_seq s) (pty_resize_epoch s) (last_open_ordinal s)
    (last_pty_size s) (pty_resize_authority_attachment_id s) (attachments s) (output_log s)
    (state_output_seq s) (terminal_flags s).

Definition set_attachments (epoch ordinal : Z) (authority : option string) (atts : list RemoteAttachment)
    (s : RemoteSessionState) : RemoteSessionState :=
  mkRemoteSessionState (mirror_route s) (authority_node_id s) (input_seq s) epoch ordinal
    (last_pty_size s) authority atts (output_log s) (state_output_seq s) (terminal_flags s).

Definition set_input_seq (n : Z) (s : RemoteSessionState) : RemoteSessionState :=
  mkRemoteSessionState (mirror_route s) (authority_node_id s) n (pty_resize_epoch s)
    (last_open_ordinal s) (last_pty_size s) (pty_resize_authority_attachment_id s) (attachments s)
    (output_log s) (state_output_seq s) (terminal_flags s).

Definition set_pty_size (size : Z * Z) (s : RemoteSessionState) : RemoteSessionState :=
  mkRemoteSessionState (mirror_route s) (authority_node_id s) (input_seq s) (pty_resize_epoch s)
    (last_open_ordinal s) (Some size) (pty_resize_authority_attachment_id s) (attachments s)
    (output_log s) (state_output_seq s) (terminal_flags s).

Definition set_log (log : list OutputLogEntry) (seq : Z) (s : RemoteSessionState) : RemoteSessionState :=
  mkRemoteSessionState (mirror_route s) (authority_node_id s) (input_seq s) (pty_resize_epoch s)
    (last_open_ordinal s) (last_pty_size s) (pty_resize_authority_attachment_id s) (attachments s)
    log seq (terminal_flags s).

Definition set_flags (flags : TerminalFlags) (s : RemoteSessionState) : RemoteSessionState :=
  mkRemoteSessionState (mirror_route s) (authority_node_id s) (input_seq s) (pty_resize_epoch s)
    (last_open_ordinal s) (last_pty_size s) (pty_resize_authority_attachment_id s) (attachments s)
    (output_log s) (state_output_seq s) (Some flags).

(** [push_output_log_entry]: the oldest entries go when there are too many. *)
Definition push_output_log_entry (entry : OutputLogEntry) (s : RemoteSessionState) : RemoteSessionState :=
  let log := output_log s ++ [entry] in
  set_log (drop (length log - MAX_OUTPUT_LOG_ENTRIES) log) (log_output_seq entry) s.

Definition find_attachment (id : string) (s : RemoteSessionState) : option RemoteAttachment :=
  List.find (fun a => bool_decide (attachment_id a = id)) (attachments s).

Definition current_pty_resize_authority (s : RemoteSessionState) : option RemoteAttachment :=
  match pty_resize_authority_attachment_id s with
  | Some id => find_attachment id s
  | None => None
  end.

(** ** The mirror *)

Definition record_mirror_accepted (session_id : string) : RemoteControlPlaneService -> RemoteControlPlaneService :=
  update_session session_id (fun s =>
    if bool_decide (mirror_route s = Pending) then set_mirror Active (authority_node_id s) s else s).

Definition record_mirror_rejected (session_id reason : string) :
    RemoteControlPlaneService -> RemoteControlPlaneService :=
  update_session session_id (fun s => set_mirror (Rejected reason) (authority_node_id s) s).

Definition handle_authority_disconnect (node : string) : RemoteControlPlaneService -> RemoteControlPlaneService :=
  with_states (fmap (fun s =>
    if negb (should_send_mirror_request (mirror_route s)) && bool_decide (authority_node_id s = Some node)
    then set_mirror MirrorNone None s else s)).

Definition is_mirror_pending (session_id : string) (svc : RemoteControlPlaneService) : bool :=
  match session_states svc !! session_id with
  | Some s => bool_decide (mirror_route s = Pending)
  | None => false
  end.

Definition clear_mirror_pending (session_id : string) : RemoteControlPlaneService -> RemoteControlPlaneService :=
  update_session session_id (fun s =>
    if bool_decide (mirror_route s = Pending) then set_mirror MirrorNone (authority_node_id s) s else s).

Definition is_mirror_needed (session_id : string) (svc : RemoteControlPlaneService) : bool :=
  match session_states svc !! session_id with
  | Some s => should_send_mirror_request (mirror_route s)
  | None => false
  end.

Definition validate_remote_target (target : ManagedSessionRecord) : result unit RemoteControlPlaneError :=
  match address_transport (address target) with
  | Local => Err NotRemoteTarget
  | RemotePeer =>
      match availability target with
      | Online => Ok tt
      | _ => Err TargetUnavailable
      end
  end.

Definition target_session_id (target : ManagedSessionRecord) : string := session_id (address target).
Definition target_target_id (target : ManagedSessionRecord) : string := address_id (address target).

Section service.
(** The time at which each message is made. *)
Context (clock : Z -> Z).

Definition server_message (session target attachment console : option string)
    (payload : ControlPlanePayload) (svc : RemoteControlPlaneService) :
    RemoteControlPlaneService * ProtocolEnvelope :=
  let n := next_message_id svc + 1 in
  (mkService n (next_attachment_id svc) (session_states svc),
   mkProtocolEnvelope REMOTE_PROTOCOL_VERSION ("server-msg-" +:+ pretty n)%string (message_type payload)
     (now_rfc3339_like (clock n)) SERVER_SENDER_ID None session target attachment console payload).

Definition replay_envelope (session_id : string) (payload : ControlPlanePayload) : ProtocolEnvelope :=
  mkProtocolEnvelope REMOTE_PROTOCOL_VERSION EmptyString (message_type payload) EmptyString SERVER_SENDER_ID
    None (Some session_id) None None None payload.

Definition build_output_replay (session_id console_host_id : string) (svc : RemoteControlPlaneService) :
    list RoutedControlPlaneMessage :=
  match session_states svc !! session_id with
  | None => []
  | Some s =>
      map (fun e => mkRouted (ObserverNode console_host_id)
             (replay_envelope session_id (TargetOutput (mkTargetOutput session_id EmptyString
                (log_output_seq e) (log_stream e) (log_output_bytes e))))) (output_log s)
      ++ match terminal_flags s with
         | Some f => [mkRouted (ObserverNode console_host_id)
             (replay_envelope session_id (MirrorBootstrapComplete (mkMirrorBootstrapComplete session_id
                EmptyString 1 (alternate_screen_active f) (application_cursor_keys f) (cursor_visible f))))]
         | None => []
         end
  end.
(** ** Opening *)

Definition same_console (console : RemoteConsoleDescriptor) (a : RemoteAttachment) : bool :=
  bool_decide (console_id (attachment_console a) = console_id console)
  && bool_decide (console_host_id (attachment_console a) = console_host_id console).

(** [Vec::remove] of the first element that satisfies [p]. *)
Fixpoint remove_first {A} (p : A -> bool) (l : list A) : option (A * list A) :=
  match l with
  | [] => None
  | a :: l' =>
      if p a then Some (a, l')
      else match remove_first p l' with
           | Some (b, rest) => Some (b, a :: rest)
           | None => None
           end
  end.

(** A console that is already attached keeps its attachment id. *)
Definition claim_attachment_id (session : string) (console : RemoteConsoleDescriptor)
    (svc : RemoteControlPlaneService) : RemoteControlPlaneService * string :=
  let state := default session_state_new (session_states svc !! session) in
  match remove_first (same_console console) (attachments state) with
  | Some (existing, rest) =>
      (with_states (insert session (set_attachments (pty_resize_epoch state) (last_open_ordinal state)
         (pty_resize_authority_attachment_id state) rest state)) svc,
       attachment_id existing)
  | None =>
      let n := next_attachment_id svc + 1 in
      (mkService (next_message_id svc) n (<[session := state]> (session_states svc)),
       ("attach-" +:+ pretty n)%string)
  end.

(** The console becomes the newest attachment and the one that controls the
    size. *)
Definition attach (id : string) (console : RemoteConsoleDescriptor) (cols rows : Z)
    (s : RemoteSessionState) : RemoteSessionState :=
  let ordinal := last_open_ordinal s + 1 in
  set_attachments (pty_resize_epoch s + 1) ordinal (Some id)
    (attachments s ++ [mkRemoteAttachment id console ordinal (cols, rows)]) s.

Definition bootstrap_mode_for (s : RemoteSessionState) : BootstrapMode :=
  if bool_decide (output_log s = []) then Full else VisibleOnly.

(** The request for a mirror, when there is none yet. *)
Definition request_mirror (target : ManagedSessionRecord) (console : RemoteConsoleDescriptor)
    (cols rows : Z) (raw_pty_passthrough : bool) (svc : RemoteControlPlaneService) :
    RemoteControlPlaneService * list RoutedControlPlaneMessage :=
  let session := target_session_id target in
  match session_states svc !! session with
  | Some s =>
      if should_send_mirror_request (mirror_route s) then
        let '(svc, envelope) := server_message (Some session) (Some (target_target_id target)) None
          (Some (console_id console))
          (OpenMirrorRequest (mkOpenMirrorRequest session (target_target_id target) (console_id console)
             cols rows raw_pty_passthrough (bootstrap_mode_for s))) svc in
        (update_session session (set_mirror Pending (Some (authority_id (address target)))) svc,
         [mkRouted (AuthorityNode (authority_id (address target))) envelope])
      else (svc, [])
  | None => (svc, [])
  end.

Definition open_target_with_raw_pty_mode (target : ManagedSessionRecord)
    (console : RemoteConsoleDescriptor) (cols rows : Z) (raw_pty_passthrough : bool)
    (svc : RemoteControlPlaneService) :
    RemoteControlPlaneService * result (list RoutedControlPlaneMessage) RemoteControlPlaneError :=
  match validate_remote_target target with
  | Err e => (svc, Err e)
  | Ok _ =>
      let session := target_session_id target in
      let target_id := target_target_id target in
      let '(svc, id) := claim_attachment_id session console svc in
      let svc := update_session session (attach id console cols rows) svc in
      match session_states svc !! session ≫= fun s => pair s <$> current_pty_resize_authority s with
      | None => (svc, Err MissingAuthorityState)
      | Some (s, authority) =>
          let authority_console := console_id (attachment_console authority) in
          let authority_host := console_host_id (attachment_console authority) in
          let '(svc, open_ok) := server_message (Some session) (Some target_id) (Some id)
            (Some (console_id console))
            (OpenTargetOk (mkOpenTargetOk session target_id id (console_id console) (pty_resize_epoch s)
               authority_console authority_host (availability_as_str (availability target)) None)) svc in
          let '(svc, authority_changed) := server_message (Some session) (Some target_id) None None
            (ResizeAuthorityChanged (mkResizeAuthorityChanged session target_id (pty_resize_epoch s)
               authority_console authority_host None None)) svc in
          let '(svc, mirror) := request_mirror target console cols rows raw_pty_passthrough svc in
          let replay :=
            if bool_decide (output_log s = []) then []
            else build_output_replay session (console_host_id console) svc in
          (svc, Ok ([mkRouted (ObserverNode (console_host_id console)) open_ok;
                     mkRouted (AllOpenedObservers session) authority_changed]
                    ++ mirror ++ replay))
      end
  end.

(** ** Typing and resizing *)

Definition route_raw_pty_input (target : ManagedSessionRecord) (attachment : string) (console_seq : Z)
    (input_bytes : list byte) (svc : RemoteControlPlaneService) :
    RemoteControlPlaneService * result RoutedControlPlaneMessage RemoteControlPlaneError :=
  match validate_remote_target target with
  | Err e => (svc, Err e)
  | Ok _ =>
      let session := target_session_id target in
      let target_id := target_target_id target in
      if console_seq =? 0 then (svc, Err InvalidConsoleSequence)
      else match session_states svc !! session with
      | None => (svc, Err (TargetNotOpened target_id))
      | Some s =>
          match find_attachment attachment s with
          | None => (svc, Err (AttachmentNotOpen attachment))
          | Some a =>
              let seq := input_seq s + 1 in
              let svc := update_session session (set_input_seq seq) svc in
              let console := attachment_console a in
              let '(svc, envelope) := server_message (Some session) (Some target_id) (Some attachment)
                (Some (console_id console))
                (RawPtyInput (mkRawPtyInput attachment session target_id (console_id console)
                   (console_host_id console) seq input_bytes)) svc in
              (svc, Ok (mkRouted (AuthorityNode (authority_id (address target))) envelope))
          end
      end
  end.

Definition route_pty_resize_request (target : ManagedSessionRecord) (attachment : string)
    (cols rows : Z) (svc : RemoteControlPlaneService) :
    RemoteControlPlaneService * result RoutedControlPlaneMessage RemoteControlPlaneError :=
  match validate_remote_target target with
  | Err e => (svc, Err e)
  | Ok _ =>
      let session := target_session_id target in
      let target_id := target_target_id target in
      match session_states svc !! session with
      | None => (svc, Err (TargetNotOpened target_id))
      | Some s =>
          match pty_resize_authority_attachment_id s with
          | None => (svc, Err MissingAuthorityState)
          | Some holder =>
              if negb (bool_decide (holder = attachment)) then (svc, Err (PtyResizeDenied attachment))
              else match current_pty_resize_authority s with
              | None => (svc, Err MissingAuthorityState)
              | Some a =>
                  let console := console_id (attachment_console a) in
                  let svc := update_session session (set_pty_size (cols, rows)) svc in
                  let '(svc, envelope) := server_message (Some session) (Some target_id) (Some attachment)
                    (Some console)
                    (ApplyResize (mkApplyResize session target_id (pty_resize_epoch s) console cols rows)) svc in
                  (svc, Ok (mkRouted (AuthorityNode (authority_id (address target))) envelope))
              end
          end
      end
  end.

(** ** Output *)

(** What the four routes of output share: the target is opened, the state
    is updated, and the payload goes to the session's observers. *)
Definition route_to_observers (target : ManagedSessionRecord) (f : RemoteSessionState -> RemoteSessionState)
    (payload : ControlPlanePayload) (svc : RemoteControlPlaneService) :
    RemoteControlPlaneService * result RoutedControlPlaneMessage RemoteControlPlaneError :=
  let session := target_session_id target in
  match session_states svc !! session with
  | None => (svc, Err (TargetNotOpened (target_target_id target)))
  | Some _ =>
      let '(svc, envelope) := server_message (Some session) (Some (target_target_id target)) None None
        payload (update_session session f svc) in
      (svc, Ok (mkRouted (AllOpenedObservers session) envelope))
  end.

Definition route_target_output (target : ManagedSessionRecord) (seq : Z) (stream : string)
    (bytes : list byte) (svc : RemoteControlPlaneService) :
    RemoteControlPlaneService * result RoutedControlPlaneMessage RemoteControlPlaneError :=
  match validate_remote_target target with
  | Err e => (svc, Err e)
  | Ok _ =>
      if seq =? 0 then (svc, Err InvalidOutputSequence)
      else route_to_observers target (push_output_log_entry (mkOutputLogEntry seq stream bytes))
             (TargetOutput (mkTargetOutput (target_session_id target) (target_target_id target) seq stream bytes)) svc
  end.

Definition route_raw_pty_output (target : ManagedSessionRecord) (seq : Z) (bytes : list byte)
    (svc : RemoteControlPlaneService) :
    RemoteControlPlaneService * result RoutedControlPlaneMessage RemoteControlPlaneError :=
  match validate_remote_target target with
  | Err e => (svc, Err e)
  | Ok _ =>
      if seq =? 0 then (svc, Err InvalidOutputSequence)
      else route_to_observers target id
             (RawPtyOutput (mkRawPtyOutput (target_session_id target) (target_target_id target) seq bytes)) svc
  end.

Definition route_mirror_bootstrap_chunk (target : ManagedSessionRecord) (chunk_seq : Z) (stream : string)
    (bytes : list byte) (svc : RemoteControlPlaneService) :
    RemoteControlPlaneService * result RoutedControlPlaneMessage RemoteControlPlaneError :=
  match validate_remote_target target with
  | Err e => (svc, Err e)
  | Ok _ =>
      route_to_observers target (fun s => if bool_decide (output_log s = []) then s else set_log [] 0 s)
        (MirrorBootstrapChunk (mkMirrorBootstrapChunk (target_session_id target) (target_target_id target)
           chunk_seq stream bytes)) svc
  end.

Definition route_mirror_bootstrap_complete (target : ManagedSessionRecord) (last_chunk_seq : Z)
    (flags : TerminalFlags) (svc : RemoteControlPlaneService) :
    RemoteControlPlaneService * result RoutedControlPlaneMessage RemoteControlPlaneError :=
  match validate_remote_target target with
  | Err e => (svc, Err e)
  | Ok _ =>
      route_to_observers target (set_flags flags)
        (MirrorBootstrapComplete (mkMirrorBootstrapComplete (target_session_id target)
           (target_target_id target) last_chunk_seq (alternate_screen_active flags)
           (application_cursor_keys flags) (cursor_visible flags))) svc
  end.

(** ** Closing *)

(** [Iterator::max_by_key]: the last of the attachments with the largest
    ordinal. *)
Definition newest (atts : list RemoteAttachment) : option RemoteAttachment :=
  fold_left (fun best a =>
    match best with
    | Some b => if open_ordinal b <=? open_ordinal a then Some a else best
    | None => Some a
    end) atts None.

Inductive CloseOutcome :=
| ClosedWithoutAuthorityChange
| ClosedLastAttachment
| PromotedNewAuthority (removed next_authority : RemoteAttachment) (resize_epoch : Z)
    (pty_size : option (Z * Z)).

(** The session after an attachment was removed, and what follows. *)
Definition close_attachment (attachment : string) (s : RemoteSessionState) :
    result (RemoteSessionState * CloseOutcome) RemoteControlPlaneError :=
  match remove_first (fun a => bool_decide (attachment_id a = attachment)) (attachments s) with
  | None => Err (AttachmentNotOpen attachment)
  | Some (removed, rest) =>
      let s' := set_attachments (pty_resize_epoch s) (last_open_ordinal s)
                  (pty_resize_authority_attachment_id s) rest s in
      if negb (bool_decide (pty_resize_authority_attachment_id s = Some attachment))
      then Ok (s', ClosedWithoutAuthorityChange)
      else if bool_decide (rest = []) && bool_decide (output_log s = []) then Ok (s', ClosedLastAttachment)
      else if bool_decide (rest = []) then Ok (set_mirror MirrorNone None s', ClosedWithoutAuthorityChange)
      else match newest rest with
      | None => Err MissingAuthorityState
      | Some next =>
          let epoch := pty_resize_epoch s + 1 in
          Ok (set_attachments epoch (last_open_ordinal s) (Some (attachment_id next)) rest s,
              PromotedNewAuthority removed next epoch (last_pty_size s))
      end
  end.

Definition close_target (target : ManagedSessionRecord) (attachment : string)
    (svc : RemoteControlPlaneService) :
    RemoteControlPlaneService * result (list RoutedControlPlaneMessage) RemoteControlPlaneError :=
  match validate_remote_target target with
  | Err e => (svc, Err e)
  | Ok _ =>
      let session := target_session_id target in
      let target_id := target_target_id target in
      match session_states svc !! session with
      | None => (svc, Err (TargetNotOpened target_id))
      | Some s =>
          match close_attachment attachment s with
          | Err e => (svc, Err e)
          | Ok (s', ClosedWithoutAuthorityChange) => (with_states (insert session s') svc, Ok [])
          | Ok (s', ClosedLastAttachment) =>
              let svc := with_states (delete session) svc in
              let '(svc, envelope) := server_message (Some session) (Some target_id) None None
                (CloseMirrorRequest (mkCloseMirrorRequest session target_id)) svc in
              (svc, Ok [mkRouted (AuthorityNode (authority_id (address target))) envelope])
          | Ok (s', PromotedNewAuthority removed next epoch size) =>
              let svc := with_states (insert session s') svc in
              let '(svc, authority_changed) := server_message (Some session) (Some target_id) None None
                (ResizeAuthorityChanged (mkResizeAuthorityChanged session target_id epoch
                   (console_id (attachment_console next)) (console_host_id (attachment_console next))
                   (fst <$> size) (snd <$> size))) svc in
              let '(svc, closed) := server_message (Some session) (Some target_id)
                (Some (attachment_id removed)) (Some (console_id (attachment_console removed)))
                (Error (mkError "attachment_closed" "attachment closed" None)) svc in
              (svc, Ok [mkRouted (AllOpenedObservers session) authority_changed;
                        mkRouted (ObserverNode (console_host_id (attachment_console removed))) closed])
          end
      end
  end.

(** ** Deliveries *)

(** The nodes of a session's consoles, each once, in order: a [BTreeSet]. *)
Definition observer_nodes (s : RemoteSessionState) : list string :=
  merge_sort String.le (elements (list_to_set (C := gset string)
    (map (fun a => console_host_id (attachment_console a)) (attachments s)))).

Fixpoint resolve_node_deliveries (messages : list RoutedControlPlaneMessage)
    (svc : RemoteControlPlaneService) :
    result (list NodeBoundControlPlaneMessage) RemoteControlPlaneError :=
  match messages with
  | [] => Ok []
  | m :: rest =>
      let? here :=
        match routed_destination m with
        | ObserverNode node | AuthorityNode node => Ok [mkNodeBound node (routed_envelope m)]
        | AllOpenedObservers session =>
            match session_states svc !! session with
            | None => Err (TargetNotOpened session)
            | Some s => Ok (map (fun node => mkNodeBound node (routed_envelope m)) (observer_nodes s))
            end
        end in
      let? more := resolve_node_deliveries rest svc in
      Ok (here ++ more)
  end.
(** ** Histories *)

Inductive request :=
| OpenTarget (target : ManagedSessionRecord) (console : RemoteConsoleDescriptor) (cols rows : Z) (raw : bool)
| CloseTarget (target : ManagedSessionRecord) (attachment : string)
| Type_ (target : ManagedSessionRecord) (attachment : string) (console_seq : Z) (bytes : list byte)
| Resize (target : ManagedSessionRecord) (attachment : string) (cols rows : Z)
| Output (target : ManagedSessionRecord) (seq : Z) (stream : string) (bytes : list byte)
| RawOutput (target : ManagedSessionRecord) (seq : Z) (bytes : list byte)
| BootstrapChunk (target : ManagedSessionRecord) (seq : Z) (stream : string) (bytes : list byte)
| BootstrapDone (target : ManagedSessionRecord) (seq : Z) (flags : TerminalFlags)
| MirrorAccepted (session : string)
| MirrorRejected (session reason : string)
| MirrorDeferred (session : string)
| AuthorityGone (node : string).

Definition serve (svc : RemoteControlPlaneService) (r : request) : RemoteControlPlaneService :=
  match r with
  | OpenTarget t c cols rows raw => (open_target_with_raw_pty_mode t c cols rows raw svc).1
  | CloseTarget t a => (close_target t a svc).1
  | Type_ t a n bytes => (route_raw_pty_input t a n bytes svc).1
  | Resize t a cols rows => (route_pty_resize_request t a cols rows svc).1
  | Output t seq stream bytes => (route_target_output t seq stream bytes svc).1
  | RawOutput t seq bytes => (route_raw_pty_output t seq bytes svc).1
  | BootstrapChunk t seq stream bytes => (route_mirror_bootstrap_chunk t seq stream bytes svc).1
  | BootstrapDone t seq flags => (route_mirror_bootstrap_complete t seq flags svc).1
  | MirrorAccepted session => record_mirror_accepted session svc
  | MirrorRejected session reason => record_mirror_rejected session reason svc
  | MirrorDeferred session => clear_mirror_pending session svc
  | AuthorityGone node => handle_authority_disconnect node svc
  end.

(** ** What holds of every session *)

Definition numbered (n : Z) (id : string) : Prop := exists k, 1 <= k <= n /\ id = ("attach-" +:+ pretty k)%string.

Record session_ok (n : Z) (s : RemoteSessionState) : Prop := {
  ok_ordinals : StronglySorted Z.lt (open_ordinal <$> attachments s);
  ok_last_ordinal : Forall (fun a => open_ordinal a <= last_open_ordinal s) (attachments s);
  ok_ids : NoDup (attachment_id <$> attachments s);
  ok_numbered : Forall (fun a => numbered n (attachment_id a)) (attachments s);
  ok_authority : forall a, last (attachments s) = Some a ->
    pty_resize_authority_attachment_id s = Some (attachment_id a);
  ok_log : (length (output_log s) <= MAX_OUTPUT_LOG_ENTRIES)%nat;
}.

Definition service_ok (svc : RemoteControlPlaneService) : Prop :=
  0 <= next_attachment_id svc
  /\ map_Forall (fun _ s => session_ok (next_attachment_id svc) s) (session_states svc).

(** The parts of a session [session_ok] speaks about. *)
Definition same_control (s s' : RemoteSessionState) : Prop :=
  attachments s' = attachments s /\ last_open_ordinal s' = last_open_ordinal s
  /\ pty_resize_authority_attachment_id s' = pty_resize_authority_attachment_id s
  /\ pty_resize_epoch s' = pty_resize_epoch s.

Lemma session_ok_control n s s' :
  same_control s s' -> (length (output_log s') <= MAX_OUTPUT_LOG_ENTRIES)%nat -> session_ok n s -> session_ok n s'.
Proof. intros (E1 & E2 & E3 & _) Hl [? ? ? ? ? ?]. split; rewrite ?E1, ?E2, ?E3; done. Qed.

Lemma session_ok_mono n m s : n <= m -> session_ok n s -> session_ok m s.
Proof.
  intros Hm [? ? ? Hn ? ?]. split; try done. eapply Forall_impl; [exact Hn|].
  intros a (k & ? & ?). exists k. split; [lia|done].
Qed.

Lemma remove_first_Some {A} (p : A -> bool) l a rest :
  remove_first p l = Some (a, rest) ->
  exists l1 l2, l = l1 ++ a :: l2 /\ rest = l1 ++ l2 /\ p a = true.
Proof.
  revert rest. induction l as [|x l IH]; intros rest; simpl; [done|].
  destruct (p x) eqn:E; [intros [= <- <-]; by exists [], l|].
  destruct (remove_first p l) as [[b r]|]; [|done]. intros [= -> <-].
  destruct (IH r eq_refl) as (l1 & l2 & -> & -> & ?). by exists (x :: l1), l2.
Qed.

Lemma find_by_id s a : NoDup (attachment_id <$> attachments s) -> a ∈ attachments s ->
  find_attachment (attachment_id a) s = Some a.
Proof.
  unfold find_attachment. intros Hnd Ha. induction (attachments s) as [|b l IH]; simpl.
  - by apply elem_of_nil in Ha.
  - apply NoDup_cons in Hnd as [Hb Hnd]. apply elem_of_cons in Ha as [<-|Ha].
    + by rewrite bool_decide_eq_true_2.
    + rewrite bool_decide_eq_false_2; [by apply IH|]. intros E. apply Hb. rewrite E.
      apply list_elem_of_fmap. eauto.
Qed.

(** Removing an attachment leaves the order and the ids of the others. *)
Lemma session_ok_sublist {A B} (f : A -> B) l1 a l2 : NoDup (f <$> l1 ++ a :: l2) ->
  NoDup (f <$> l1 ++ l2) /\ f a ∉ f <$> l1 ++ l2.
Proof.
  rewrite !fmap_app, fmap_cons. intros H. apply NoDup_app in H as (H1 & H2 & H3).
  apply NoDup_cons in H3 as [H4 H5]. split; [|set_solver].
  apply NoDup_app. split; [done|]. split; [|done]. intros x Hx. set_solver.
Qed.

Lemma sorted_app_remove (l1 : list Z) x l2 :
  StronglySorted Z.lt (l1 ++ x :: l2) -> StronglySorted Z.lt (l1 ++ l2).
Proof.
  induction l1 as [|y l1 IH]; simpl.
  - intros H. by apply StronglySorted_inv in H as [? _].
  - intros [H1 H2]%StronglySorted_inv. constructor; [by apply IH|].
    apply Forall_app in H2 as [H3 H4]. apply Forall_cons in H4 as [_ H4]. by apply Forall_app.
Qed.

Lemma newest_is_last atts :
  StronglySorted Z.lt (open_ordinal <$> atts) -> newest atts = last atts.
Proof.
  unfold newest. assert (forall best, (forall b, best = Some b -> Forall (fun a => open_ordinal b < open_ordinal a) atts) ->
    StronglySorted Z.lt (open_ordinal <$> atts) ->
    fold_left (fun best a => match best with
      | Some b => if open_ordinal b <=? open_ordinal a then Some a else best
      | None => Some a end) atts best = match last atts with Some a => Some a | None => best end) as H.
  { induction atts as [|a atts IH]; intros best Hb Hs; [done|].
    rewrite fmap_cons in Hs. apply StronglySorted_inv in Hs as [Hs Ha]. cbn [fold_left].
    rewrite Forall_fmap in Ha.
    assert (match best with Some b => if open_ordinal b <=? open_ordinal a then Some a else best
            | None => Some a end = Some a) as ->.
    { destruct best as [b|]; [|done]. specialize (Hb b eq_refl). apply Forall_cons in Hb as [Hb _].
      by rewrite (proj2 (Z.leb_le _ _)) by lia. }
    rewrite IH; [|by intros b [= <-]|done].
    rewrite last_cons. by destruct (last atts). }
  intros Hs. rewrite H by done. by destruct (last atts).
Qed.
(** ** The operations keep it *)

Definition keeps_control (f : RemoteSessionState -> RemoteSessionState) : Prop :=
  forall s, same_control s (f s)
    /\ ((length (output_log s) <= MAX_OUTPUT_LOG_ENTRIES)%nat ->
        (length (output_log (f s)) <= MAX_OUTPUT_LOG_ENTRIES)%nat).

Lemma update_session_ok id f svc : keeps_control f -> service_ok svc -> service_ok (update_session id f svc).
Proof.
  intros Hf [Hn Hs]. split; [done|]. intros k s. simpl.
  intros [(-> & s0 & Hs0 & ->)|[_ Hk]]%lookup_alter_Some; [|by eapply Hs].
  destruct (Hf s0) as [Hc Hl]. pose proof (Hs _ _ Hs0) as Hok.
  eapply session_ok_control; [done| |done]. apply Hl. by destruct Hok.
Qed.

Lemma server_message_states a b c d p svc :
  next_attachment_id (server_message a b c d p svc).1 = next_attachment_id svc
  /\ session_states (server_message a b c d p svc).1 = session_states svc.
Proof. done. Qed.

Lemma server_message_ok a b c d p svc : service_ok svc -> service_ok (server_message a b c d p svc).1.
Proof. done. Qed.

Lemma keeps_set_mirror g h : keeps_control (fun s => set_mirror (g s) (h s) s).
Proof. done. Qed.

Lemma keeps_push entry : keeps_control (push_output_log_entry entry).
Proof.
  intros s. split; [done|]. intros _. unfold push_output_log_entry, set_log. cbn [output_log].
  rewrite length_drop. lia.
Qed.

Lemma keeps_if (b : RemoteSessionState -> bool) f :
  keeps_control f -> keeps_control (fun s => if b s then f s else s).
Proof. intros Hf s. destruct (b s); [apply Hf|done]. Qed.

Lemma keeps_unless (b : RemoteSessionState -> bool) f :
  keeps_control f -> keeps_control (fun s => if b s then s else f s).
Proof. intros Hf s. destruct (b s); [done|apply Hf]. Qed.

Lemma keeps_clear_log : keeps_control (set_log [] 0).
Proof. intros s. split; [done|]. intros _. cbn. lia. Qed.

Lemma keeps_id : keeps_control id.
Proof. done. Qed.

Lemma keeps_set_input_seq n : keeps_control (set_input_seq n).
Proof. done. Qed.

Lemma keeps_set_pty_size z : keeps_control (set_pty_size z).
Proof. done. Qed.

Lemma keeps_set_flags z : keeps_control (set_flags z).
Proof. done. Qed.

Create HintDb control discriminated.
#[local] Hint Resolve keeps_set_mirror keeps_push keeps_if keeps_unless keeps_clear_log keeps_id
  keeps_set_input_seq keeps_set_pty_size keeps_set_flags : control.

Lemma route_to_observers_ok target f p svc :
  keeps_control f -> service_ok svc -> service_ok (route_to_observers target f p svc).1.
Proof.
  intros Hf Hs. unfold route_to_observers. case_match; [|done].
  cbn. by apply (update_session_ok _ f).
Qed.

Lemma fresh_id n m s : session_ok n s -> 0 <= n < m -> ("attach-" +:+ pretty m)%string ∉ attachment_id <$> attachments s.
Proof.
  intros [_ _ _ Hn _ _] Hm. rewrite list_elem_of_fmap. intros (a & Ha & Hin).
  rewrite Forall_forall in Hn. destruct (Hn a Hin) as (k & Hk & E). rewrite E in Ha.
  assert (pretty m = pretty k) as Hp by (by apply (inj (String.append "attach-"))).
  apply (inj pretty) in Hp. lia.
Qed.

(** The session after a new newest attachment. *)
Lemma attach_ok n id console cols rows s :
  session_ok n s -> numbered n id -> id ∉ attachment_id <$> attachments s ->
  session_ok n (attach id console cols rows s).
Proof.
  intros [Ho Hl Hi Hn Ha Hg] Hid Hnew. split; unfold attach; cbn.
  - rewrite fmap_app. apply StronglySorted_app_2; [|done|by repeat constructor].
    intros x y (a & -> & Hin)%list_elem_of_fmap ->%list_elem_of_singleton.
    rewrite Forall_forall in Hl. specialize (Hl a Hin). cbn. lia.
  - apply Forall_app. split; [|by repeat constructor; cbn; lia]. eapply Forall_impl; [exact Hl|]. simpl. lia.
  - rewrite fmap_app. cbn. apply NoDup_app. split; [done|]. split; [|apply NoDup_singleton].
    intros x Hx Hx'. apply list_elem_of_singleton in Hx' as ->. done.
  - apply Forall_app. split; [done|]. by repeat constructor.
  - intros a. rewrite last_snoc. by intros [= <-].
  - done.
Qed.

(** ... and after one was taken out; what is left keeps its order. *)
Lemma without_ok n l1 a l2 epoch ordinal authority s :
  session_ok n s -> attachments s = l1 ++ a :: l2 -> ordinal = last_open_ordinal s ->
  (forall b, last (l1 ++ l2) = Some b -> authority = Some (attachment_id b)) ->
  session_ok n (set_attachments epoch ordinal authority (l1 ++ l2) s).
Proof.
  intros [Ho Hl Hi Hn Ha Hg] E -> Hau. rewrite E in *. split; cbn.
  - rewrite fmap_app in *. cbn in Ho. by eapply sorted_app_remove.
  - apply Forall_app in Hl as [? Hl2]. apply Forall_cons in Hl2 as [_ ?]. by apply Forall_app.
  - by apply session_ok_sublist in Hi as [? _].
  - apply Forall_app in Hn as [? Hn2]. apply Forall_cons in Hn2 as [_ ?]. by apply Forall_app.
  - done.
  - done.
Qed.
Lemma service_ok_insert n m session s ss :
  0 <= n -> session_ok n s -> map_Forall (fun _ s => session_ok n s) ss ->
  service_ok (mkService m n (<[session := s]> ss)).
Proof. intros Hn Hs Hss. split; [done|]. by apply map_Forall_insert_2. Qed.

Lemma new_session_ok n : session_ok n session_state_new.
Proof. split; cbn; [constructor|constructor|constructor|constructor|done|lia]. Qed.

(** What opening does to the session: [s] before, [s'] after. *)
Record opened (n : Z) (id : string) (console : RemoteConsoleDescriptor) (s s' : RemoteSessionState) : Prop := {
  opened_ok : session_ok n s';
  opened_epoch : pty_resize_epoch s' = pty_resize_epoch s + 1;
  opened_log : output_log s' = output_log s;
  opened_flags : terminal_flags s' = terminal_flags s;
  opened_authority : exists a, current_pty_resize_authority s' = Some a
    /\ last (attachments s') = Some a /\ attachment_id a = id /\ attachment_console a = console;
  opened_others : forall b, b ∈ attachments s' -> attachment_console b = console \/ b ∈ attachments s;
}.

Definition session_before (session : string) (svc : RemoteControlPlaneService) : RemoteSessionState :=
  default session_state_new (session_states svc !! session).

Lemma session_before_ok session svc : service_ok svc -> session_ok (next_attachment_id svc) (session_before session svc).
Proof.
  intros [_ Hs]. unfold session_before. destruct (session_states svc !! session) as [s|] eqn:E; simpl.
  - by eapply Hs.
  - apply new_session_ok.
Qed.

Lemma attach_opened n id console cols rows s0 s :
  session_ok n s -> numbered n id -> id ∉ attachment_id <$> attachments s ->
  pty_resize_epoch s = pty_resize_epoch s0 -> output_log s = output_log s0 ->
  terminal_flags s = terminal_flags s0 -> (forall b, b ∈ attachments s -> b ∈ attachments s0) ->
  opened n id console s0 (attach id console cols rows s).
Proof.
  intros Hs Hid Hnew He Hl Hf Hsub.
  pose proof (attach_ok n id console cols rows s Hs Hid Hnew) as Hok. split; cbn; try done; try congruence.
  2:{ intros b [Hb|Hb]%elem_of_app; [right; by apply Hsub|]. left. by apply list_elem_of_singleton in Hb as ->. }
  exists (mkRemoteAttachment id console (last_open_ordinal s + 1) (cols, rows)).
  split; [|by rewrite last_snoc]. unfold current_pty_resize_authority. cbn [attach set_attachments pty_resize_authority_attachment_id].
  apply (find_by_id (attach id console cols rows s) (mkRemoteAttachment id console (last_open_ordinal s + 1) (cols, rows))).
  - by destruct Hok.
  - cbn. apply elem_of_app. right. by apply list_elem_of_singleton.
Qed.

Lemma claim_opened session console cols rows svc svc1 id :
  service_ok svc -> claim_attachment_id session console svc = (svc1, id) ->
  next_attachment_id svc <= next_attachment_id svc1 /\
  exists s', update_session session (attach id console cols rows) svc1
      = mkService (next_message_id svc) (next_attachment_id svc1) (<[session := s']> (session_states svc))
    /\ opened (next_attachment_id svc1) id console (session_before session svc) s'
    /\ mirror_route s' = mirror_route (session_before session svc).
Proof.
  intros Hok. pose proof (session_before_ok session svc Hok) as Hs. destruct Hok as [Hn _].
  unfold claim_attachment_id. fold (session_before session svc). set (s := session_before session svc) in *.
  destruct (remove_first _ (attachments s)) as [[a rest]|] eqn:R; intros [= <- <-]; cbn.
  - apply remove_first_Some in R as (l1 & l2 & E & -> & _). split; [lia|].
    eexists. split; [unfold update_session, with_states; cbn; by rewrite alter_insert_eq|]. split; [|done].
    pose proof (ok_ids _ _ Hs) as Hid. rewrite E in Hid. apply session_ok_sublist in Hid as [_ Hid].
    pose proof (ok_numbered _ _ Hs) as Hnum. rewrite E in Hnum.
    eapply (attach_opened _ _ _ _ _ _ (set_attachments (pty_resize_epoch s) (last_open_ordinal s)
      (attachment_id <$> last (l1 ++ l2)) (l1 ++ l2) s)); try done.
    + eapply without_ok; [done..|]. intros b ->. done.
    + rewrite Forall_forall in Hnum. apply Hnum. set_solver.
    + intros b. cbn. rewrite E. set_solver.
  - split; [lia|]. eexists. split; [unfold update_session, with_states; cbn; by rewrite alter_insert_eq|]. split; [|done].
    apply attach_opened; try done.
    + eapply session_ok_mono; [|done]. lia.
    + exists (next_attachment_id svc + 1). split; [lia|done].
    + eapply fresh_id; [done|lia].
Qed.

Lemma request_mirror_ok target console cols rows raw svc :
  service_ok svc -> service_ok (request_mirror target console cols rows raw svc).1.
Proof.
  intros Hs. unfold request_mirror. case_match; [|done]. case_match; [|done]. cbn.
  by apply (update_session_ok _ (set_mirror Pending (Some (authority_id (address target))))).
Qed.

Lemma request_mirror_frame target console cols rows raw svc svc' ms :
  request_mirror target console cols rows raw svc = (svc', ms) ->
  next_attachment_id svc' = next_attachment_id svc
  /\ Forall (fun m => routed_destination m = AuthorityNode (authority_id (address target))) ms
  /\ (forall k, k <> target_session_id target -> session_states svc' !! k = session_states svc !! k)
  /\ forall s, session_states svc !! target_session_id target = Some s ->
       exists s', session_states svc' !! target_session_id target = Some s'
         /\ same_control s s' /\ output_log s' = output_log s /\ terminal_flags s' = terminal_flags s
         /\ (if should_send_mirror_request (mirror_route s) then mirror_route s' = Pending /\ ms <> [] else ms = []).
Proof.
  unfold request_mirror. destruct (session_states svc !! target_session_id target) as [s|] eqn:E; [|by intros [= <- <-]].
  destruct (should_send_mirror_request (mirror_route s)) eqn:R; intros [= <- <-]; cbn.
  - split; [done|]. split; [repeat constructor; eauto|]. split; [intros k Hk; by rewrite lookup_alter_ne|].
    intros s0 [= <-]. rewrite lookup_alter_eq, E, R. by eexists.
  - split; [done|]. split; [done|]. split; [done|]. intros s0 [= <-]. exists s. by rewrite R.
Qed.

(** The replay for the console [host]: the log, then the terminal's modes. *)
Definition replay_of (session host : string) (log : list OutputLogEntry) (flags : option TerminalFlags) :
    list RoutedControlPlaneMessage :=
  map (fun e => mkRouted (ObserverNode host)
         (replay_envelope session (TargetOutput (mkTargetOutput session EmptyString
            (log_output_seq e) (log_stream e) (log_output_bytes e))))) log
  ++ match flags with
     | Some f => [mkRouted (ObserverNode host)
         (replay_envelope session (MirrorBootstrapComplete (mkMirrorBootstrapComplete session
            EmptyString 1 (alternate_screen_active f) (application_cursor_keys f) (cursor_visible f))))]
     | None => []
     end.

Lemma open_spec target console cols rows raw svc :
  service_ok svc -> validate_remote_target target = Ok tt ->
  let session := target_session_id target in
  let s := session_before session svc in
  exists svc' id ok changed mirror s',
    open_target_with_raw_pty_mode target console cols rows raw svc
    = (svc', Ok ([mkRouted (ObserverNode (console_host_id console)) ok;
                  mkRouted (AllOpenedObservers session) changed] ++ mirror
                 ++ (if bool_decide (output_log s = []) then []
                     else replay_of session (console_host_id console) (output_log s) (terminal_flags s))))
    /\ Forall (fun m => routed_destination m = AuthorityNode (authority_id (address target))) mirror
    /\ next_attachment_id svc <= next_attachment_id svc'
    /\ session_states svc' !! session = Some s'
    /\ opened (next_attachment_id svc') id console s s'
    /\ (forall k, k <> session -> session_states svc' !! k = session_states svc !! k)
    /\ (exists p, env_payload ok = OpenTargetOk p /\ otok_attachment_id p = id)
    /\ (if should_send_mirror_request (mirror_route s) then mirror_route s' = Pending /\ mirror <> [] else mirror = []).
Proof.
  intros Hok Hv session s. unfold open_target_with_raw_pty_mode. rewrite Hv. fold session.
  destruct (claim_attachment_id session console svc) as [svc1 id] eqn:E.
  destruct (claim_opened _ console cols rows svc svc1 id Hok E) as (Hle & s' & Hu & Hop & Hroute).
  rewrite Hu. cbn [session_states]. rewrite lookup_insert_eq. cbn [mbind option_bind].
  destruct (opened_authority _ _ _ _ _ Hop) as (a & Ha & Hrest). rewrite Ha. cbn -[request_mirror build_output_replay replay_of].
  destruct (request_mirror _ _ _ _ _ _) as [svc2 mirror] eqn:M.
  apply request_mirror_frame in M as (Hn & Hms & Hframe & Hses). cbn in Hn, Hframe, Hses. fold session in Hframe, Hses.
  destruct (Hses s') as (s2 & Hs2 & Hc & Hlog & Hfl & Hmi); [by rewrite lookup_insert_eq|].
  eexists svc2, id, _, _, mirror, s2. split; [|split; [done|]; split; [lia|]; split; [done|]; split; [|split; [|split]]].
  - rewrite (opened_log _ _ _ _ _ Hop). fold s. do 3 f_equal. case_bool_decide; [done|].
    unfold build_output_replay. rewrite Hs2, Hlog, Hfl, (opened_log _ _ _ _ _ Hop), (opened_flags _ _ _ _ _ Hop). done.
  - rewrite Hn. destruct Hop as [Ho He Hl Hf (a' & Ha1 & Ha2 & Ha3 & Ha4) Hoth]. destruct Hc as (C1 & C2 & C3 & C4).
    split; [|by rewrite C4|by rewrite Hlog|by rewrite Hfl| |by rewrite C1].
    + eapply session_ok_control; [done| |done]. rewrite Hlog. by destruct Ho.
    + exists a'. unfold current_pty_resize_authority, find_attachment in *. by rewrite C1, C3.
  - intros k Hk. rewrite Hframe by done. by rewrite lookup_insert_ne.
  - by eexists.
  - by rewrite Hroute in Hmi.
Qed.

Lemma service_ok_replace svc svc' session s' :
  service_ok svc -> next_attachment_id svc <= next_attachment_id svc' ->
  session_states svc' !! session = Some s' -> session_ok (next_attachment_id svc') s' ->
  (forall k, k <> session -> session_states svc' !! k = session_states svc !! k) -> service_ok svc'.
Proof.
  intros [Hn Hs] Hle Hl Hok Hf. split; [lia|]. intros k s Hk. destruct (decide (k = session)) as [->|Hne].
  - congruence.
  - rewrite Hf in Hk by done. eapply session_ok_mono; [done|]. by eapply Hs.
Qed.

Lemma open_ok target console cols rows raw svc :
  service_ok svc -> service_ok (open_target_with_raw_pty_mode target console cols rows raw svc).1.
Proof.
  intros Hok. destruct (validate_remote_target target) as [[]|e] eqn:Hv.
  - destruct (open_spec target console cols rows raw svc Hok Hv) as (svc' & id & ok & ch & mi & s' & -> & _ & Hle & Hl & Hop & Hf & _).
    eapply service_ok_replace; [done|done|done|by destruct Hop|done].
  - unfold open_target_with_raw_pty_mode. by rewrite Hv.
Qed.

(** What closing leaves: the newest of the others controls the size. *)
Lemma close_attachment_ok n id s s' out :
  session_ok n s -> close_attachment id s = Ok (s', out) ->
  session_ok n s' /\ pty_resize_epoch s <= pty_resize_epoch s' /\ output_log s' = output_log s
  /\ (pty_resize_authority_attachment_id s' <> pty_resize_authority_attachment_id s ->
      pty_resize_epoch s < pty_resize_epoch s').
Proof.
  intros Hs. unfold close_attachment.
  destruct (remove_first _ (attachments s)) as [[a rest]|] eqn:R; [|done].
  apply remove_first_Some in R as (l1 & l2 & E & -> & Ha). apply bool_decide_eq_true in Ha.
  pose proof (ok_ids _ _ Hs) as Hid. rewrite E in Hid.
  destruct (bool_decide (pty_resize_authority_attachment_id s = Some id)) eqn:Hb; cbn [negb];
    [apply bool_decide_eq_true in Hb|apply bool_decide_eq_false in Hb].
  - case_bool_decide as Hrest; cbn [andb].
    + case_bool_decide; intros [= <- <-]; cbn; (split; [|split; [lia|]; by split]).
      * eapply without_ok; [done..|]. by rewrite Hrest.
      * eapply session_ok_control; [| |eapply (without_ok n l1 a l2 (pty_resize_epoch s) (last_open_ordinal s)
          (pty_resize_authority_attachment_id s)); [done..|by rewrite Hrest]]; [done|by destruct Hs].
    + assert (StronglySorted Z.lt (open_ordinal <$> l1 ++ l2)) as Hsort.
      { pose proof (ok_ordinals _ _ Hs) as Ho. rewrite E, fmap_app, fmap_cons in Ho. rewrite fmap_app. by eapply sorted_app_remove. }
      rewrite newest_is_last by done. destruct (last (l1 ++ l2)) as [b|] eqn:Hl; [|done]. intros [= <- <-]; cbn.
      split; [|split; [lia|]; split; [done|]; intros; lia]. eapply without_ok; [done..|]. intros b'. rewrite Hl. by intros [= <-].
  - intros [= <- <-]; cbn. split; [|split; [lia|]; by split].
    eapply without_ok; [done..|]. intros b Hl. apply (ok_authority _ _ Hs). rewrite E.
    destruct l2 as [|c l2].
    + exfalso. apply Hb. rewrite (ok_authority _ _ Hs a); [by subst id|]. by rewrite E, last_snoc.
    + rewrite last_app_cons. by rewrite last_app_cons in Hl.
Qed.
(** ** Histories *)

Definition lastn {A} (n : nat) (l : list A) : list A := drop (length l - n) l.

Lemma lastn_snoc {A} n (l : list A) x : (0 < n)%nat -> lastn n (lastn n l ++ [x]) = lastn n (l ++ [x]).
Proof.
  intros Hn. unfold lastn. rewrite !length_app, length_drop. cbn [length].
  destruct (decide (length l <= n)%nat) as [Hl|Hl].
  - replace (length l - n)%nat with 0%nat by lia. rewrite drop_0, Nat.sub_0_r. done.
  - replace (length l - (length l - n) + 1 - n)%nat with 1%nat by lia.
    replace (length l + 1 - n)%nat with ((length l - n) + 1)%nat by lia.
    rewrite <- drop_drop. rewrite (drop_app_le l) by lia. done.
Qed.

(** The outputs of a session since its last bootstrap, as the requests bring
    them while it is open. *)
Definition is_open (k : string) (svc : RemoteControlPlaneService) : bool :=
  bool_decide (is_Some (session_states svc !! k)).

Definition concerns (k : string) (target : ManagedSessionRecord) (svc : RemoteControlPlaneService) : bool :=
  bool_decide (target_session_id target = k) && is_ok (validate_remote_target target) && is_open k svc.

Definition history_step (k : string) (svc : RemoteControlPlaneService) (r : request)
    (h : list OutputLogEntry) : list OutputLogEntry :=
  match r with
  | Output t seq stream bytes =>
      if concerns k t svc && negb (seq =? 0) then h ++ [mkOutputLogEntry seq stream bytes] else h
  | BootstrapChunk t _ _ _ => if concerns k t svc then [] else h
  | _ => h
  end.

Fixpoint history (k : string) (svc : RemoteControlPlaneService) (h : list OutputLogEntry)
    (rs : list request) : list OutputLogEntry :=
  match rs with
  | [] => h
  | r :: rest => history k (serve svc r) (history_step k svc r h) rest
  end.

(** Control over a session moves only to a new epoch. *)
Definition control_step (s s' : RemoteSessionState) : Prop :=
  pty_resize_epoch s <= pty_resize_epoch s'
  /\ (pty_resize_authority_attachment_id s' <> pty_resize_authority_attachment_id s ->
      pty_resize_epoch s < pty_resize_epoch s').

(** What a request does to session [k], if it is open afterwards. *)
Definition serves (k : string) (r : request) (svc svc' : RemoteControlPlaneService) : Prop :=
  service_ok svc' /\
  match session_states svc' !! k with
  | Some s' => control_step (session_before k svc) s'
  | None => True
  end /\
  forall h, output_log (session_before k svc) = lastn MAX_OUTPUT_LOG_ENTRIES h ->
    output_log (session_before k svc') = lastn MAX_OUTPUT_LOG_ENTRIES (history_step k svc r h).

Lemma same_control_step s s' : same_control s s' -> control_step s s'.
Proof. intros (_ & _ & E1 & E2). unfold control_step. rewrite E1, E2. split; [lia|done]. Qed.

Lemma serves_same k r svc :
  service_ok svc -> (forall h, history_step k svc r h = h) -> serves k r svc svc.
Proof.
  intros Hok Hh. split; [done|]. unfold session_before. split.
  - destruct (session_states svc !! k); [by apply same_control_step|done].
  - intros h. by rewrite Hh.
Qed.

Lemma serves_update k r svc id f m :
  service_ok svc -> keeps_control f ->
  (forall h s, session_states svc !! k = Some s -> output_log s = lastn MAX_OUTPUT_LOG_ENTRIES h ->
     output_log (if bool_decide (k = id) then f s else s) = lastn MAX_OUTPUT_LOG_ENTRIES (history_step k svc r h)) ->
  (session_states svc !! k = None -> forall h, history_step k svc r h = h) ->
  serves k r svc (mkService m (next_attachment_id svc) (alter f id (session_states svc))).
Proof.
  intros Hok Hf Hlog Hnone. split; [by apply (update_session_ok id f)|]. unfold session_before. cbn [session_states].
  destruct (decide (k = id)) as [->|Hk].
  - rewrite bool_decide_eq_true_2 in Hlog by done. rewrite lookup_alter_eq.
    destruct (session_states svc !! id) as [s|] eqn:E; cbn.
    + split; [apply same_control_step, Hf|]. intros h Hh. by apply Hlog.
    + split; [done|]. intros h Hh. by rewrite Hnone.
  - rewrite bool_decide_eq_false_2 in Hlog by done. rewrite lookup_alter_ne by done.
    destruct (session_states svc !! k) as [s|] eqn:E; cbn.
    + split; [by apply same_control_step|]. intros h Hh. by apply Hlog.
    + split; [done|]. intros h Hh. by rewrite Hnone.
Qed.

Lemma is_open_Some k svc s : session_states svc !! k = Some s -> is_open k svc = true.
Proof. intros E. apply bool_decide_eq_true. by exists s. Qed.

Lemma is_open_None k svc : session_states svc !! k = None -> is_open k svc = false.
Proof. intros E. apply bool_decide_eq_false. rewrite E. apply is_Some_None. Qed.

Lemma concerns_closed k t svc : session_states svc !! k = None -> concerns k t svc = false.
Proof. intros E. unfold concerns. by rewrite (is_open_None k svc E), andb_false_r. Qed.

Lemma concerns_open k t svc s :
  session_states svc !! k = Some s -> validate_remote_target t = Ok tt ->
  concerns k t svc = bool_decide (k = target_session_id t).
Proof.
  intros E Hv. unfold concerns. rewrite (is_open_Some k svc s E), Hv. cbn. rewrite !andb_true_r.
  by apply bool_decide_ext.
Qed.

Lemma serves_route k r svc target f p :
  service_ok svc -> keeps_control f ->
  (forall h s, session_states svc !! k = Some s -> output_log s = lastn MAX_OUTPUT_LOG_ENTRIES h ->
     output_log (if bool_decide (k = target_session_id target) then f s else s)
     = lastn MAX_OUTPUT_LOG_ENTRIES (history_step k svc r h)) ->
  (session_states svc !! k = None -> forall h, history_step k svc r h = h) ->
  serves k r svc (route_to_observers target f p svc).1.
Proof.
  intros Hok Hf Hlog Hnone. unfold route_to_observers.
  destruct (session_states svc !! target_session_id target) as [s|] eqn:E.
  - cbn. by apply serves_update.
  - cbn. split; [done|]. unfold session_before. destruct (session_states svc !! k) as [s|] eqn:Ek; cbn.
    + split; [by apply same_control_step|]. intros h Hh. specialize (Hlog h s eq_refl Hh).
      rewrite bool_decide_eq_false_2 in Hlog by congruence. done.
    + split; [done|]. intros h Hh. by rewrite Hnone.
Qed.
Lemma validate_Ok target u : validate_remote_target target = Ok u -> validate_remote_target target = Ok tt.
Proof. by destruct u. Qed.

Lemma serves_open k svc target console cols rows raw :
  service_ok svc ->
  serves k (OpenTarget target console cols rows raw) svc (open_target_with_raw_pty_mode target console cols rows raw svc).1.
Proof.
  intros Hok. destruct (validate_remote_target target) as [u|e] eqn:Hv.
  2:{ unfold open_target_with_raw_pty_mode. rewrite Hv. by apply serves_same. }
  apply validate_Ok in Hv.
  destruct (open_spec target console cols rows raw svc Hok Hv) as (svc' & id & ok & ch & mi & s' & E & _ & Hle & Hl & Hop & Hf & _).
  split; [by apply open_ok|]. rewrite E. cbn [fst history_step]. unfold session_before in *.
  destruct (decide (k = target_session_id target)) as [->|Hk].
  - rewrite Hl. cbn [default]. destruct Hop as [_ He Hlog _ _ _]. split.
    + unfold control_step. rewrite He. split; [lia|intros; lia].
    + intros h. cbn. by rewrite Hlog.
  - rewrite Hf by done. split; [|by intros h].
    destruct (session_states svc !! k); [by apply same_control_step|done].
Qed.

Lemma serves_insert k r svc id s0 s' m :
  service_ok svc -> session_states svc !! id = Some s0 -> session_ok (next_attachment_id svc) s' ->
  control_step s0 s' -> output_log s' = output_log s0 -> (forall h, history_step k svc r h = h) ->
  serves k r svc (mkService m (next_attachment_id svc) (<[id := s']> (session_states svc))).
Proof.
  intros Hok H0 Hs' Hc Hl Hh. split; [destruct Hok; by apply service_ok_insert|].
  unfold session_before. cbn. destruct (decide (k = id)) as [->|Hk].
  - rewrite lookup_insert_eq, H0. cbn. split; [done|]. intros h. by rewrite Hl, Hh.
  - rewrite lookup_insert_ne by done. split; [|intros h; by rewrite Hh].
    destruct (session_states svc !! k); [by apply same_control_step|done].
Qed.

Lemma serves_close k svc target attachment :
  service_ok svc -> serves k (CloseTarget target attachment) svc (close_target target attachment svc).1.
Proof.
  intros Hok. unfold close_target. destruct (validate_remote_target target); [|by apply serves_same].
  destruct (session_states svc !! target_session_id target) as [s|] eqn:E; [|by apply serves_same].
  destruct (close_attachment attachment s) as [[s' out]|e] eqn:C; [|by apply serves_same].
  pose proof (proj2 Hok _ _ E) as Hs.
  destruct (close_attachment_ok _ _ _ _ _ Hs C) as (Hs' & He & Hl & Ha).
  destruct out; cbn; [by eapply serves_insert| |by eapply serves_insert].
  split; [split; [by destruct Hok|]; cbn; apply map_Forall_delete, Hok|]. unfold session_before. cbn.
  assert (output_log s = []) as Hnil.
  { revert C. unfold close_attachment. destruct (remove_first _ _) as [[att rest]|]; [|done].
    repeat case_bool_decide; cbn; try done; case_match; done. }
  destruct (decide (k = target_session_id target)) as [->|Hk].
  - rewrite lookup_delete_eq, E. cbn. rewrite Hnil. by split.
  - rewrite lookup_delete_ne by done. split; [|by intros h].
    destruct (session_states svc !! k); [by apply same_control_step|done].
Qed.

Lemma serves_disconnect k svc node :
  service_ok svc -> serves k (AuthorityGone node) svc (handle_authority_disconnect node svc).
Proof.
  intros Hok. set (f := fun s => if negb (should_send_mirror_request (mirror_route s))
    && bool_decide (authority_node_id s = Some node) then set_mirror MirrorNone None s else s).
  assert (forall s, same_control s (f s) /\ output_log (f s) = output_log s) as Hf.
  { intros s. unfold f. by case_match. }
  split; [|unfold session_before; cbn; rewrite lookup_fmap; fold f].
  - split; [apply Hok|]. intros i s. cbn. rewrite lookup_fmap. intros (s0 & H0 & ->)%fmap_Some.
    destruct (Hf s0) as [Hc Hl]. pose proof (proj2 Hok _ _ H0) as H1.
    eapply session_ok_control; [exact Hc| |exact H1]. unfold f in Hl. rewrite Hl. by destruct H1.
  - destruct (session_states svc !! k) as [s|]; cbn; [|by split].
    destruct (Hf s) as [Hc Hl]. split; [by apply same_control_step|]. intros h. by rewrite Hl.
Qed.

Lemma if_log (b : bool) f s : output_log (f s) = output_log s -> output_log (if b then f s else s) = output_log s.
Proof. by destruct b. Qed.

Lemma serve_serves k svc r : service_ok svc -> serves k r svc (serve svc r).
Proof.
  intros Hok. destruct r as [t c cols rows raw|t a|t a n bs|t a cols rows|t seq st bs|t seq bs|t seq st bs
    |t seq fl|session|session reason|session|node]; cbn [serve].
  - by apply serves_open.
  - by apply serves_close.
  - unfold route_raw_pty_input. destruct (validate_remote_target t); [|by apply serves_same].
    destruct (n =? 0); [by apply serves_same|].
    destruct (session_states svc !! target_session_id t) as [s0|]; [|by apply serves_same].
    destruct (find_attachment a s0); [|by apply serves_same]. cbn. apply serves_update; auto with control. intros h s1 Hs Hl. by rewrite if_log.
  - unfold route_pty_resize_request. destruct (validate_remote_target t); [|by apply serves_same].
    destruct (session_states svc !! target_session_id t) as [s0|]; [|by apply serves_same].
    destruct (pty_resize_authority_attachment_id s0) as [holder|]; [|by apply serves_same].
    destruct (negb _); [by apply serves_same|].
    destruct (current_pty_resize_authority s0); [|by apply serves_same]. cbn. apply serves_update; auto with control. intros h s1 Hs Hl. by rewrite if_log.
  - unfold route_target_output. destruct (validate_remote_target t) as [u|e] eqn:Hv.
    2:{ apply serves_same; [done|]. intros h. cbn. unfold concerns. rewrite Hv. cbn. by rewrite andb_false_r. }
    apply validate_Ok in Hv. destruct (seq =? 0) eqn:Hz.
    { apply serves_same; [done|]. intros h. cbn. rewrite Hz. by rewrite andb_false_r. }
    apply serves_route; auto with control.
    + intros h s Hs Hl. cbn. rewrite (concerns_open k t svc s Hs Hv), Hz, andb_true_r.
      case_bool_decide; [|done]. unfold push_output_log_entry. cbn. rewrite Hl.
      change (lastn MAX_OUTPUT_LOG_ENTRIES (lastn MAX_OUTPUT_LOG_ENTRIES h ++ [mkOutputLogEntry seq st bs])
        = lastn MAX_OUTPUT_LOG_ENTRIES (h ++ [mkOutputLogEntry seq st bs])).
      apply lastn_snoc. unfold MAX_OUTPUT_LOG_ENTRIES. lia.
    + intros Hs h. cbn. by rewrite concerns_closed.
  - unfold route_raw_pty_output. case_match; [|by apply serves_same]. case_match; [by apply serves_same|].
    apply serves_route; auto with control. intros h s1 Hs Hl. by rewrite if_log.
  - unfold route_mirror_bootstrap_chunk. destruct (validate_remote_target t) as [u|e] eqn:Hv.
    2:{ apply serves_same; [done|]. intros h. cbn. unfold concerns. rewrite Hv. cbn. by rewrite andb_false_r. }
    apply validate_Ok in Hv. apply serves_route; auto with control.
    + intros h s Hs Hl. cbn. rewrite (concerns_open k t svc s Hs Hv).
      case_bool_decide; [|done]. case_bool_decide as Hn; [by rewrite Hn|done].
    + intros Hs h. cbn. by rewrite concerns_closed.
  - unfold route_mirror_bootstrap_complete. case_match; [|by apply serves_same].
    apply serves_route; auto with control. intros h s1 Hs Hl. by rewrite if_log.
  - apply serves_update; auto with control.
    intros h s Hs Hl. by repeat case_bool_decide.
  - apply serves_update; auto with control. intros h s Hs Hl. by case_bool_decide.
  - apply serves_update; auto with control.
    intros h s Hs Hl. by repeat case_bool_decide.
  - by apply serves_disconnect.
Qed.
Definition serve_all (svc : RemoteControlPlaneService) (rs : list request) : RemoteControlPlaneService :=
  fold_left serve rs svc.

Lemma service_new_ok : service_ok service_new.
Proof. split; [done|apply map_Forall_empty]. Qed.

Lemma serve_all_ok rs svc : service_ok svc -> service_ok (serve_all svc rs).
Proof.
  revert svc. induction rs as [|r rs IH]; intros svc Hok; [done|]. cbn. apply IH.
  by destruct (serve_serves EmptyString svc r Hok).
Qed.

Lemma serve_all_log k rs svc h :
  service_ok svc -> output_log (session_before k svc) = lastn MAX_OUTPUT_LOG_ENTRIES h ->
  output_log (session_before k (serve_all svc rs)) = lastn MAX_OUTPUT_LOG_ENTRIES (history k svc h rs).
Proof.
  revert svc h. induction rs as [|r rs IH]; intros svc h Hok Hh; [done|]. cbn.
  destruct (serve_serves k svc r Hok) as (Hok' & _ & Hl). apply IH; [done|]. by apply Hl.
Qed.

Lemma last_has_largest_ordinal s n a b :
  session_ok n s -> last (attachments s) = Some a -> b ∈ attachments s -> open_ordinal b <= open_ordinal a.
Proof.
  intros [Ho _ _ _ _ _] Hl Hb. apply last_Some in Hl as [l E]. rewrite E in Ho, Hb.
  apply elem_of_app in Hb as [Hb|Hb]; [|apply list_elem_of_singleton in Hb as ->; lia].
  rewrite fmap_app in Ho. apply Z.lt_le_incl. eapply StronglySorted_app_1_elem_of; [exact Ho| |].
  - apply list_elem_of_fmap. eauto.
  - apply list_elem_of_singleton. done.
Qed.

(** Whatever is asked of the service, in every session with consoles the one
    opened last controls the size: of all resize requests for the session
    exactly those of that console are forwarded, and whenever the next
    request makes another console the one in control, the epoch grows. *)
Theorem newest_console_controls_the_size rs k s :
  session_states (serve_all service_new rs) !! k = Some s -> attachments s <> [] ->
  exists a, a ∈ attachments s
    /\ (forall b, b ∈ attachments s -> open_ordinal b <= open_ordinal a)
    /\ (forall target id cols rows, target_session_id target = k -> validate_remote_target target = Ok tt ->
         is_ok (route_pty_resize_request target id cols rows (serve_all service_new rs)).2
         = bool_decide (id = attachment_id a))
    /\ forall r s', session_states (serve_all service_new (rs ++ [r])) !! k = Some s' -> control_step s s'.
Proof.
  intros Hs Hne. pose proof (serve_all_ok rs _ service_new_ok) as Hok. pose proof (proj2 Hok _ _ Hs) as Hsok.
  destruct (last (attachments s)) as [a|] eqn:El; [|by apply last_None in El].
  pose proof (ok_authority _ _ Hsok a El) as Hau.
  assert (a ∈ attachments s) as Hin.
  { apply last_Some in El as [l ->]. apply elem_of_app. right. by apply list_elem_of_singleton. }
  exists a. split; [done|]. split; [intros b Hb; eapply last_has_largest_ordinal; [exact Hsok|done|done]|]. split.
  - intros target id cols rows Ht Hv. unfold route_pty_resize_request. rewrite Hv, Ht, Hs, Hau.
    destruct (decide (attachment_id a = id)) as [<-|Hid].
    + rewrite !bool_decide_eq_true_2 by done. cbn [negb]. unfold current_pty_resize_authority. rewrite Hau.
      by rewrite (find_by_id s a (ok_ids _ _ Hsok) Hin).
    + rewrite !bool_decide_eq_false_2 by congruence. done.
  - intros r s'. unfold serve_all at 1. rewrite fold_left_app. cbn. fold (serve_all service_new rs). intros Hs'.
    destruct (serve_serves k (serve_all service_new rs) r Hok) as (_ & Hc & _). rewrite Hs' in Hc.
    unfold session_before in Hc. by rewrite Hs in Hc.
Qed.

(** A console that opens a session is told its attachment, all consoles are
    told the new epoch, and if there is output since the last bootstrap the
    console is sent the last 2000 pieces of it, in order, and then the modes
    of the terminal. *)
Theorem opening_console_gets_recent_output rs target console cols rows raw :
  validate_remote_target target = Ok tt ->
  let k := target_session_id target in
  let svc := serve_all service_new rs in
  let recent := lastn MAX_OUTPUT_LOG_ENTRIES (history k service_new [] rs) in
  exists svc' ok changed mirror,
    open_target_with_raw_pty_mode target console cols rows raw svc
    = (svc', Ok ([mkRouted (ObserverNode (console_host_id console)) ok;
                  mkRouted (AllOpenedObservers k) changed] ++ mirror
                 ++ (if bool_decide (recent = []) then []
                     else replay_of k (console_host_id console) recent (terminal_flags (session_before k svc)))))
    /\ Forall (fun m => routed_destination m = AuthorityNode (authority_id (address target))) mirror.
Proof.
  intros Hv k svc recent. pose proof (serve_all_ok rs _ service_new_ok) as Hok.
  destruct (open_spec target console cols rows raw svc Hok Hv) as (svc' & id & ok & ch & mi & s' & E & Hmi & _).
  exists svc', ok, ch, mi. split; [|done]. rewrite E. fold k.
  assert (output_log (session_before k svc) = recent) as ->; [|done].
  apply serve_all_log; [apply service_new_ok|done].
Qed.

(** A message to the observers of a session reaches each node that has one of
    its consoles once. *)
Lemma observer_nodes_once s node :
  NoDup (observer_nodes s)
  /\ (node ∈ observer_nodes s <-> exists a, a ∈ attachments s /\ console_host_id (attachment_console a) = node).
Proof.
  unfold observer_nodes. rewrite merge_sort_Permutation. split; [apply NoDup_elements|].
  rewrite elem_of_elements, elem_of_list_to_set, list_elem_of_In, in_map_iff.
  setoid_rewrite list_elem_of_In. naive_solver.
Qed.
End service.

(** ** Examples *)

Definition shell_of (peer : string) : ManagedSessionRecord :=
  mkManagedSessionRecord (remote_peer peer "shell-1") None Online None None None [] 0 0 None None None None Running.

Definition console_on (host : string) : RemoteConsoleDescriptor :=
  mkRemoteConsoleDescriptor ("console-" +:+ host)%string host LocalWorkspace.

Definition sample_requests : list request :=
  [OpenTarget (shell_of "a") (console_on "n1") 80 24 true; MirrorAccepted "shell-1";
   OpenTarget (shell_of "a") (console_on "n2") 100 30 true;
   Output (shell_of "a") 1 "stdout" [x68]; Output (shell_of "a") 2 "stdout" [x69]].

Lemma newest_console_controls_the_size_witness :
  exists s, session_states (serve_all id service_new sample_requests) !! "shell-1" = Some s
  /\ attachments s <> []
  /\ exists a, a ∈ attachments s
    /\ (forall b, b ∈ attachments s -> open_ordinal b <= open_ordinal a)
    /\ (forall target i cols rows, target_session_id target = "shell-1" -> validate_remote_target target = Ok tt ->
         is_ok (route_pty_resize_request id target i cols rows (serve_all id service_new sample_requests)).2
         = bool_decide (i = attachment_id a))
    /\ forall r s', session_states (serve_all id service_new (sample_requests ++ [r])) !! "shell-1" = Some s' ->
         control_step s s'.
Proof.
  destruct (session_states (serve_all id service_new sample_requests) !! "shell-1") as [s|] eqn:E;
    [|by vm_compute in E].
  exists s. split; [done|]. assert (attachments s <> []) as Hne.
  { intros Hn. assert (attachments <$> Some s = Some []) as H by (by rewrite <- Hn).
    rewrite <- E in H. by vm_compute in H. }
  split; [done|]. by apply (newest_console_controls_the_size id sample_requests "shell-1" s E Hne).
Defined.

Lemma opening_console_gets_recent_output_witness :
  history id "shell-1" service_new [] sample_requests
  = [mkOutputLogEntry 1 "stdout" [x68]; mkOutputLogEntry 2 "stdout" [x69]]
  /\ let svc := serve_all id service_new sample_requests in
     let recent := lastn MAX_OUTPUT_LOG_ENTRIES (history id "shell-1" service_new [] sample_requests) in
     exists svc' ok changed mirror,
       open_target_with_raw_pty_mode id (shell_of "a") (console_on "n3") 80 24 true svc
       = (svc', Ok ([mkRouted (ObserverNode "n3") ok; mkRouted (AllOpenedObservers "shell-1") changed] ++ mirror
            ++ (if bool_decide (recent = []) then []
                else replay_of "shell-1" "n3" recent (terminal_flags (session_before "shell-1" svc)))))
       /\ Forall (fun m => routed_destination m = AuthorityNode "a") mirror.
Proof.
  split; [by vm_compute|].
  by apply (opening_console_gets_recent_output id sample_requests (shell_of "a") (console_on "n3") 80 24 true).
Defined.

(** The authority nodes a call sends to. *)
Definition authorities (r : result (list RoutedControlPlaneMessage) RemoteControlPlaneError) : list string :=
  match r with
  | Ok ms => omap (fun m => match routed_destination m with AuthorityNode n => Some n | _ => None end) ms
  | Err _ => []
  end.

(** Sessions are kept under the session's id alone: a session of the same
    name on a second peer shares the state of the first, and its mirror is
    never requested. *)
Lemma equal_names_share_a_session :
  let svc := serve_all id service_new [OpenTarget (shell_of "a") (console_on "n1") 80 24 true] in
  authorities (open_target_with_raw_pty_mode id (shell_of "b") (console_on "n1") 80 24 true svc).2 = [].
Proof. by vm_compute. Qed.

(** A mirror that was rejected once is not requested again while the session
    is known, however often it is opened. *)
Lemma rejected_mirror_is_not_retried :
  let svc := serve_all id service_new
    [OpenTarget (shell_of "a") (console_on "n1") 80 24 true; MirrorRejected "shell-1" "busy";
     Output (shell_of "a") 1 "stdout" []; CloseTarget (shell_of "a") "none"] in
  authorities (open_target_with_raw_pty_mode id (shell_of "a") (console_on "n2") 80 24 true svc).2 = [].
Proof. by vm_compute. Qed.

(** When the last console closes a session that has output, the peer is not
    asked to close the mirror; without output it is. *)
Lemma last_console_leaves_the_mirror :
  let opened := [OpenTarget (shell_of "a") (console_on "n1") 80 24 true; MirrorAccepted "shell-1"] in
  authorities (close_target id (shell_of "a") "attach-1" (serve_all id service_new opened)).2 = ["a"%string]
  /\ authorities (close_target id (shell_of "a") "attach-1"
       (serve_all id service_new (opened ++ [Output (shell_of "a") 1 "stdout" []]))).2 = [].
Proof. by vm_compute. Qed.

(** The replayed messages do not name their target. *)
Lemma replay_names_no_target session host log flags :
  Forall (fun m => env_target_id (routed_envelope m) = None) (replay_of session host log flags).
Proof.
  unfold replay_of. apply Forall_app. split.
  - apply Forall_forall. intros m Hm. apply list_elem_of_In, in_map_iff in Hm as (e & <- & _). done.
  - by destruct flags; repeat constructor.
Qed.
