(* ===== verification/MainSlot.v ===== *)
(** * MainSlot: delivering the control plane's messages

    [src/remote/transport.rs], the registry of connections to nodes, and
    [src/remote/main_slot/remote_main_slot_runtime.rs], which hands the
    messages of the control plane to them. A connection is an object behind a
    trait: [conn_send] is its method, acting on whatever [World] lies behind
    the connections. Errors keep their cause instead of its text. *)

From S2P Require Import Prelude Bytes SessionCatalog Protocol AuthorityTransport ControlPlane.

Section runtime.
Context {Conn World : Type} (conn_send : Conn -> ProtocolEnvelope -> World -> World * result unit string).
Context (clock : Z -> Z).

(** ** The registry *)

Record RemoteConnectionRegistry := mkRegistry {
  connections : gmap string (Z * Conn);
  next_generation : Z;
}.

Definition register_connection_with_generation (node : string) (conn : Conn)
    (reg : RemoteConnectionRegistry) : RemoteConnectionRegistry * Z :=
  let generation := next_generation reg + 1 in
  (mkRegistry (<[node := (generation, conn)]> (connections reg)) generation, generation).

Definition unregister_connection_generation (node : string) (generation : Z)
    (reg : RemoteConnectionRegistry) : RemoteConnectionRegistry * bool :=
  match connections reg !! node with
  | None => (reg, false)
  | Some (g, _) =>
      if negb (g =? generation) then (reg, false)
      else (mkRegistry (delete node (connections reg)) (next_generation reg), true)
  end.

Definition has_connection (node : string) (reg : RemoteConnectionRegistry) : bool :=
  bool_decide (is_Some (connections reg !! node)).

(** ** The sink *)

Inductive transport_error := NotRegistered (node : string) | SendFailed (message : string)
| Unresolved (e : RemoteControlPlaneError).

Fixpoint sink_send (deliveries : list NodeBoundControlPlaneMessage) (reg : RemoteConnectionRegistry)
    (w : World) : World * result unit transport_error :=
  match deliveries with
  | [] => (w, Ok tt)
  | d :: rest =>
      match connections reg !! bound_node_id d with
      | None => (w, Err (NotRegistered (bound_node_id d)))
      | Some (_, conn) =>
          match conn_send conn (bound_envelope d) w with
          | (w', Ok _) => sink_send rest reg w'
          | (w', Err e) => (w', Err (SendFailed e))
          end
      end
  end.

(** ** The runtime *)

Record RemoteAttachmentBinding := mkBinding {
  binding_session_id : string;
  binding_target_id : string;
  binding_attachment_id : string;
  binding_console_id : string;
}.

Inductive lifecycle_error := ControlPlaneFailed (e : RemoteControlPlaneError)
| TransportFailed (e : transport_error) | NoAttachment.

Definition extract_open_binding (messages : list RoutedControlPlaneMessage) : option RemoteAttachmentBinding :=
  head (omap (fun m => match env_payload (routed_envelope m) with
    | OpenTargetOk p => Some (mkBinding (otok_session_id p) (otok_target_id p) (otok_attachment_id p) (otok_console_id p))
    | _ => None
    end) messages).

Definition to_authority (m : RoutedControlPlaneMessage) : bool :=
  match routed_destination m with AuthorityNode _ => true | _ => false end.

(** [resolve_node_deliveries] and the sink. *)
Definition deliver (messages : list RoutedControlPlaneMessage) (svc : RemoteControlPlaneService)
    (reg : RemoteConnectionRegistry) (w : World) : World * result unit transport_error :=
  match resolve_node_deliveries messages svc with
  | Err e => (w, Err (Unresolved e))
  | Ok deliveries => sink_send deliveries reg w
  end.

Definition activate_target_with_raw_pty_mode (target : ManagedSessionRecord)
    (console : RemoteConsoleDescriptor) (cols rows : Z) (raw_pty_passthrough : bool)
    (svc : RemoteControlPlaneService) (reg : RemoteConnectionRegistry) (w : World) :
    RemoteControlPlaneService * World * result RemoteAttachmentBinding lifecycle_error :=
  match open_target_with_raw_pty_mode clock target console cols rows raw_pty_passthrough svc with
  | (svc, Err e) => (svc, w, Err (ControlPlaneFailed e))
  | (svc, Ok messages) =>
      match extract_open_binding messages with
      | None => (svc, w, Err NoAttachment)
      | Some binding =>
          let observer_msgs := List.filter (fun m => negb (to_authority m)) messages in
          let authority_msgs := List.filter to_authority messages in
          match deliver observer_msgs svc reg w with
          | (w, Err e) => (svc, w, Err (TransportFailed e))
          | (w, Ok _) =>
              if bool_decide (authority_msgs = []) then (svc, w, Ok binding)
              else match deliver authority_msgs svc reg w with
                   | (w, Ok _) => (svc, w, Ok binding)
                   | (w, Err _) => (clear_mirror_pending (target_session_id target) svc, w, Ok binding)
                   end
          end
      end
  end.

(** [send_messages] of one routed message; the other operations of the
    runtime route a message and send it. *)
Definition send_routed
    (routed : RemoteControlPlaneService * result RoutedControlPlaneMessage RemoteControlPlaneError)
    (reg : RemoteConnectionRegistry) (w : World) :
    RemoteControlPlaneService * World * result unit lifecycle_error :=
  match routed with
  | (svc, Err e) => (svc, w, Err (ControlPlaneFailed e))
  | (svc, Ok m) =>
      match deliver [m] svc reg w with
      | (w, Ok _) => (svc, w, Ok tt)
      | (w, Err e) => (svc, w, Err (TransportFailed e))
      end
  end.

Definition send_raw_pty_input target binding console_seq bytes svc reg w :=
  send_routed (route_raw_pty_input clock target (binding_attachment_id binding) console_seq bytes svc) reg w.

Definition send_pty_resize target binding cols rows svc reg w :=
  send_routed (route_pty_resize_request clock target (binding_attachment_id binding) cols rows svc) reg w.

Definition send_target_output target seq stream bytes svc reg w :=
  send_routed (route_target_output clock target seq stream bytes svc) reg w.

Definition send_raw_pty_output target seq bytes svc reg w :=
  send_routed (route_raw_pty_output clock target seq bytes svc) reg w.

Definition send_mirror_bootstrap_chunk target seq stream bytes svc reg w :=
  send_routed (route_mirror_bootstrap_chunk clock target seq stream bytes svc) reg w.

Definition send_mirror_bootstrap_complete target seq flags svc reg w :=
  send_routed (route_mirror_bootstrap_complete clock target seq flags svc) reg w.

Definition runtime_close_target (target : ManagedSessionRecord) (binding : RemoteAttachmentBinding)
    (svc : RemoteControlPlaneService) (reg : RemoteConnectionRegistry) (w : World) :
    RemoteControlPlaneService * World * result unit lifecycle_error :=
  match close_target clock target (binding_attachment_id binding) svc with
  | (svc, Err e) => (svc, w, Err (ControlPlaneFailed e))
  | (svc, Ok messages) =>
      if bool_decide (messages = []) then (svc, w, Ok tt)
      else match deliver messages svc reg w with
           | (w, Ok _) => (svc, w, Ok tt)
           | (w, Err e) => (svc, w, Err (TransportFailed e))
           end
  end.

(** ** Generations *)

Definition registry_ok (reg : RemoteConnectionRegistry) : Prop :=
  map_Forall (fun _ '(g, _) => g <= next_generation reg) (connections reg).

(** A connection that unregisters after it was replaced does not remove its
    successor. *)
Theorem stale_unregister_keeps_the_successor node conn conn' reg :
  let '(reg1, g) := register_connection_with_generation node conn reg in
  let '(reg2, g') := register_connection_with_generation node conn' reg1 in
  unregister_connection_generation node g reg2 = (reg2, false)
  /\ (unregister_connection_generation node g' reg2).2 = true.
Proof.
  unfold register_connection_with_generation, unregister_connection_generation. cbn.
  rewrite !lookup_insert_eq. rewrite (proj2 (Z.eqb_neq _ _)) by lia. rewrite Z.eqb_refl. done.
Qed.

(** ** Delivery *)

(** Every connection takes what it is given. *)
Definition always_sends : Prop := forall conn e w, (conn_send conn e w).2 = Ok tt.

Lemma sink_send_all deliveries reg w :
  always_sends ->
  Forall (fun d => has_connection (bound_node_id d) reg = true) deliveries ->
  (sink_send deliveries reg w).2 = Ok tt.
Proof.
  intros Hsend Hd. revert w. induction Hd as [|d rest Hd _ IH]; intros w; [done|]. cbn.
  apply bool_decide_eq_true in Hd as [[g conn] ->]. specialize (Hsend conn (bound_envelope d) w).
  destruct (conn_send conn (bound_envelope d) w) as [w' [u|e]]; [apply IH|done].
Qed.

Lemma sink_send_missing d rest reg w :
  connections reg !! bound_node_id d = None -> sink_send (d :: rest) reg w = (w, Err (NotRegistered (bound_node_id d))).
Proof. intros H. cbn. by rewrite H. Qed.
(** Messages that can all be resolved to nodes with a connection. *)
Definition deliverable (svc : RemoteControlPlaneService) (reg : RemoteConnectionRegistry)
    (m : RoutedControlPlaneMessage) : Prop :=
  match routed_destination m with
  | ObserverNode n | AuthorityNode n => has_connection n reg = true
  | AllOpenedObservers k => exists s, session_states svc !! k = Some s
      /\ Forall (fun a => has_connection (console_host_id (attachment_console a)) reg = true) (attachments s)
  end.

Lemma resolve_deliverable ms svc reg :
  Forall (deliverable svc reg) ms ->
  exists ds, resolve_node_deliveries ms svc = Ok ds
    /\ Forall (fun d => has_connection (bound_node_id d) reg = true) ds.
Proof.
  induction 1 as [|m ms Hm _ (ds & Hds & Hall)]; [by exists []|]. cbn. unfold deliverable in Hm.
  destruct (routed_destination m) as [n|n|k].
  - rewrite Hds. eexists. split; [done|]. by constructor.
  - rewrite Hds. eexists. split; [done|]. by constructor.
  - destruct Hm as (s & -> & Hs). rewrite Hds. eexists. split; [done|]. apply Forall_app. split; [|done].
    apply Forall_forall. intros d Hd. apply list_elem_of_In, in_map_iff in Hd as (n & <- & Hn%list_elem_of_In).
    apply observer_nodes_once in Hn as (a & Ha & <-). rewrite Forall_forall in Hs. by apply Hs.
Qed.

Lemma deliver_all ms svc reg w :
  always_sends -> Forall (deliverable svc reg) ms -> (deliver ms svc reg w).2 = Ok tt.
Proof.
  intros Hsend Hms. unfold deliver. destruct (resolve_deliverable ms svc reg Hms) as (ds & -> & Hds).
  by apply sink_send_all.
Qed.

Lemma deliver_to_missing node m ms svc reg w :
  routed_destination m = AuthorityNode node -> has_connection node reg = false ->
  exists e, (deliver (m :: ms) svc reg w).2 = Err e.
Proof.
  intros Hm Hno. unfold deliver. cbn. rewrite Hm. apply bool_decide_eq_false in Hno.
  destruct (resolve_node_deliveries ms svc) as [ds|e]; [|by eexists]. cbn.
  destruct (connections reg !! node) as [x|]; [|by eexists]. by destruct Hno.
Qed.

Lemma filter_none {A} (p : A -> bool) l : Forall (fun a => p a = false) l -> List.filter p l = [].
Proof. induction 1 as [|a l Ha _ IH]; cbn; [done|]. by rewrite Ha. Qed.

Lemma filter_all {A} (p : A -> bool) l : Forall (fun a => p a = true) l -> List.filter p l = l.
Proof. induction 1 as [|a l Ha _ IH]; cbn; [done|]. by rewrite Ha, IH. Qed.

Lemma replay_to_observer k host log flags m :
  m ∈ replay_of k host log flags -> routed_destination m = ObserverNode host.
Proof.
  unfold replay_of. intros [Hm|Hm]%elem_of_app.
  - by apply list_elem_of_In, in_map_iff in Hm as (e & <- & _).
  - destruct flags; [|by apply elem_of_nil in Hm]. by apply list_elem_of_singleton in Hm as ->.
Qed.

(** The two parts of the messages of an opening. *)
Lemma split_messages ok ch k host node mirror replay :
  Forall (fun m => routed_destination m = AuthorityNode node) mirror ->
  Forall (fun m => routed_destination m = ObserverNode host) replay ->
  let messages := [mkRouted (ObserverNode host) ok; mkRouted (AllOpenedObservers k) ch] ++ mirror ++ replay in
  List.filter (fun m => negb (to_authority m)) messages
    = mkRouted (ObserverNode host) ok :: mkRouted (AllOpenedObservers k) ch :: replay
  /\ List.filter to_authority messages = mirror.
Proof.
  intros Hm Hr. cbn. rewrite !List.filter_app. split.
  - rewrite (filter_none _ mirror), filter_all; [done|..].
    + eapply Forall_impl; [exact Hr|]. intros m E. unfold to_authority. by rewrite E.
    + eapply Forall_impl; [exact Hm|]. intros m E. unfold to_authority. by rewrite E.
  - rewrite (filter_none _ replay), filter_all; [by rewrite app_nil_r|..].
    + eapply Forall_impl; [exact Hm|]. intros m E. unfold to_authority. by rewrite E.
    + eapply Forall_impl; [exact Hr|]. intros m E. unfold to_authority. by rewrite E.
Qed.

Lemma clear_pending_needs k s svc :
  session_states svc !! k = Some s -> mirror_route s = Pending ->
  is_mirror_needed k (clear_mirror_pending k svc) = true.
Proof.
  intros Hs Hp. unfold is_mirror_needed, clear_mirror_pending, update_session, with_states. cbn.
  rewrite lookup_alter_eq, Hs. cbn. by rewrite bool_decide_eq_true_2.
Qed.

(** A session can be opened before its peer is connected: the console is
    attached and served, and the request for the mirror, which could not be
    delivered, counts as not yet made, so that it is made when the peer
    connects. *)
Theorem undelivered_mirror_request_is_needed rs target console cols rows raw reg w :
  let k := target_session_id target in
  let svc := serve_all clock service_new rs in
  validate_remote_target target = Ok tt ->
  should_send_mirror_request (mirror_route (session_before k svc)) = true ->
  always_sends ->
  has_connection (authority_id (address target)) reg = false ->
  has_connection (console_host_id console) reg = true ->
  Forall (fun a => has_connection (console_host_id (attachment_console a)) reg = true)
    (attachments (session_before k svc)) ->
  exists svc' w' binding,
    activate_target_with_raw_pty_mode target console cols rows raw svc reg w = (svc', w', Ok binding)
    /\ is_mirror_needed k svc' = true
    /\ exists s a, session_states svc' !! k = Some s /\ current_pty_resize_authority s = Some a
       /\ attachment_id a = binding_attachment_id binding /\ attachment_console a = console.
Proof.
  intros k svc Hv Hroute Hsend Hno Hhost Hall.
  pose proof (serve_all_ok clock rs _ service_new_ok) as Hok. fold svc in Hok.
  destruct (open_spec clock target console cols rows raw svc Hok Hv)
    as (svc1 & id & okm & ch & mi & s1 & E & Hmi & _ & Hs1 & Hop & _ & (p & Hp & Hpid) & Hr).
  fold k in E, Hs1, Hr, Hop. rewrite Hroute in Hr. destruct Hr as [Hpend Hne].
  unfold activate_target_with_raw_pty_mode. rewrite E. set (replay := if bool_decide _ then _ else _).
  assert (Forall (fun m => routed_destination m = ObserverNode (console_host_id console)) replay) as Hrep.
  { subst replay. case_bool_decide; [done|]. apply Forall_forall. intros m. apply replay_to_observer. }
  destruct (split_messages okm ch k _ _ mi replay Hmi Hrep) as [Ho Ha]. rewrite Ho, Ha.
  assert (extract_open_binding ([mkRouted (ObserverNode (console_host_id console)) okm;
      mkRouted (AllOpenedObservers k) ch] ++ mi ++ replay)
    = Some (mkBinding (otok_session_id p) (otok_target_id p) (otok_attachment_id p) (otok_console_id p))) as ->.
  { unfold extract_open_binding. cbn. by rewrite Hp. }
  destruct (deliver _ svc1 reg w) as [w1 r1] eqn:D1.
  assert (r1 = Ok tt) as ->.
  { change r1 with ((w1, r1).2). rewrite <- D1. apply deliver_all; [done|].
    rewrite !Forall_cons. split; [exact Hhost|]. split.
    2:{ eapply Forall_impl; [exact Hrep|]. intros m Hm. unfold deliverable. by rewrite Hm. }
    exists s1. split; [done|]. apply Forall_forall. intros b [->|Hb]%(opened_others _ _ _ _ _ Hop); [done|].
    rewrite Forall_forall in Hall. by apply Hall. }
  rewrite bool_decide_eq_false_2 by done. destruct mi as [|m mi]; [done|].
  apply Forall_cons in Hmi as [Hm _].
  destruct (deliver (m :: mi) svc1 reg w1) as [w2 r2] eqn:D2.
  destruct (deliver_to_missing _ m mi svc1 reg w1 Hm Hno) as [e He]. rewrite D2 in He. cbn in He. subst r2.
  eexists _, w2, _. split; [done|]. fold k. split; [by eapply clear_pending_needs|].
  destruct (opened_authority _ _ _ _ _ Hop) as (at1 & Hau & _ & Hid & Hcon).
  eexists _, at1. unfold clear_mirror_pending, update_session, with_states. cbn [session_states].
  rewrite lookup_alter_eq, Hs1. cbn. rewrite bool_decide_eq_true_2 by done.
  split; [done|]. split; [done|]. by rewrite Hpid.
Qed.
End runtime.

(** Connections that collect what they are given. *)
Definition collect (conn : string) (e : ProtocolEnvelope) (w : list (string * ProtocolEnvelope)) :
    list (string * ProtocolEnvelope) * result unit string := (w ++ [(conn, e)], Ok tt).

Definition local_only : RemoteConnectionRegistry (Conn := string) :=
  (register_connection_with_generation "n1" "n1"%string (mkRegistry ∅ 0)).1.

Lemma undelivered_mirror_request_is_needed_witness :
  exists svc' w' binding,
    activate_target_with_raw_pty_mode collect id (shell_of "a") (console_on "n1") 80 24 true service_new local_only []
    = (svc', w', Ok binding)
    /\ is_mirror_needed "shell-1" svc' = true
    /\ exists s a, session_states svc' !! "shell-1" = Some s /\ current_pty_resize_authority s = Some a
       /\ attachment_id a = binding_attachment_id binding /\ attachment_console a = console_on "n1".
Proof.
  apply (undelivered_mirror_request_is_needed collect id [] (shell_of "a") (console_on "n1") 80 24 true local_only []);
    try done; by vm_compute.
Defined.

(** When the console's own node is not connected the activation fails, but
    the attachment stays and the request for the mirror, which was never
    sent, stays pending: nothing will send it. *)
Lemma failed_activation_leaves_a_pending_request :
  let '(svc, w, r) := activate_target_with_raw_pty_mode collect id (shell_of "a") (console_on "n2") 80 24 true
                        service_new local_only [] in
  r = Err (TransportFailed (NotRegistered "n2")) /\ w = []
  /\ is_mirror_pending "shell-1" svc = true /\ is_mirror_needed "shell-1" svc = false.
Proof. by vm_compute. Qed.
