(* ===== verification/RemoteSession.v ===== *)
(** * Remote session: the viewer of a mirrored session

    [RatatuiRemoteSession] of [src/ratatui_node/remote_session.rs]: the state
    its threads share (the observer, the writer of the newest connection, the
    sizes and flags), the operations of the user interface, the thread that
    serves a connection, the watchdog, and the session's end.

    [wires] is what was written on each connection, [shut] the connections
    that were shut down, on which writing fails; any other write takes the
    whole frame, or fails after some of its bytes ([io]). Lock sections and
    atomic variables are single steps: the operations come as functions of
    the state, and [open_mirror] and the set-up of a connection also as
    programs ([Tasks]) whose steps interleave. The process id and the clock
    are arguments. *)

From S2P Require Import Prelude Bytes Tasks Utf8 Ansi Screen ScreenInvariant Terminal TerminalFeed.
From S2P Require Import TerminalInvariant SessionCatalog Protocol Codec CodecRoundTrip Observer.
From S2P Require Import AuthorityTransport Decimal.
From stdpp Require Import pretty.
#[local] Open Scope Z_scope.

(** ** State *)

Inductive state_event := RemoteSessionOutput (target_id : string) | RemoteSessionDisconnected (target_id : string).

Record RatatuiRemoteSession := mkRemoteSession {
  rs_target_id : string;
  rs_session_id : string;
  rs_authority_node_id : string;
  observer : RemoteObserverRuntime;
  writer : option Z;
  next_connection_seq : Z;
  current_writer_seq : Z;
  listening : bool;
  running : bool;
  closed : bool;
  opened : bool;
  first_output_received : bool;
  open_mirror_resends : Z;
  next_input_seq : Z;
  initial_cols : Z;
  initial_rows : Z;
  last_sent_size : option (Z * Z);
  connected_tx : bool;
  signals : list bool;
  events : list state_event;
  wires : gmap Z (list byte);
  shut : gset Z }.

Definition set_observer (v_observer : RemoteObserverRuntime)
    (s : RatatuiRemoteSession) : RatatuiRemoteSession :=
  mkRemoteSession (rs_target_id s) (rs_session_id s) (rs_authority_node_id s) v_observer
    (writer s) (next_connection_seq s) (current_writer_seq s) (listening s) (running s) (closed s)
    (opened s) (first_output_received s) (open_mirror_resends s) (next_input_seq s)
    (initial_cols s) (initial_rows s) (last_sent_size s) (connected_tx s) (signals s) (events s)
    (wires s) (shut s).

Definition set_next_input_seq (v_next_input_seq : Z)
    (s : RatatuiRemoteSession) : RatatuiRemoteSession :=
  mkRemoteSession (rs_target_id s) (rs_session_id s) (rs_authority_node_id s) (observer s)
    (writer s) (next_connection_seq s) (current_writer_seq s) (listening s) (running s) (closed s)
    (opened s) (first_output_received s) (open_mirror_resends s) v_next_input_seq (initial_cols s)
    (initial_rows s) (last_sent_size s) (connected_tx s) (signals s) (events s) (wires s) (shut s).

Definition set_opened (v_opened : bool) (s : RatatuiRemoteSession) : RatatuiRemoteSession :=
  mkRemoteSession (rs_target_id s) (rs_session_id s) (rs_authority_node_id s) (observer s)
    (writer s) (next_connection_seq s) (current_writer_seq s) (listening s) (running s) (closed s)
    v_opened (first_output_received s) (open_mirror_resends s) (next_input_seq s) (initial_cols s)
    (initial_rows s) (last_sent_size s) (connected_tx s) (signals s) (events s) (wires s) (shut s).

Definition set_events (v_events : list state_event)
    (s : RatatuiRemoteSession) : RatatuiRemoteSession :=
  mkRemoteSession (rs_target_id s) (rs_session_id s) (rs_authority_node_id s) (observer s)
    (writer s) (next_connection_seq s) (current_writer_seq s) (listening s) (running s) (closed s)
    (opened s) (first_output_received s) (open_mirror_resends s) (next_input_seq s)
    (initial_cols s) (initial_rows s) (last_sent_size s) (connected_tx s) (signals s) v_events
    (wires s) (shut s).

Definition set_open_mirror_resends (v_open_mirror_resends : Z)
    (s : RatatuiRemoteSession) : RatatuiRemoteSession :=
  mkRemoteSession (rs_target_id s) (rs_session_id s) (rs_authority_node_id s) (observer s)
    (writer s) (next_connection_seq s) (current_writer_seq s) (listening s) (running s) (closed s)
    (opened s) (first_output_received s) v_open_mirror_resends (next_input_seq s) (initial_cols s)
    (initial_rows s) (last_sent_size s) (connected_tx s) (signals s) (events s) (wires s) (shut s).

Definition set_running (v_running : bool) (s : RatatuiRemoteSession) : RatatuiRemoteSession :=
  mkRemoteSession (rs_target_id s) (rs_session_id s) (rs_authority_node_id s) (observer s)
    (writer s) (next_connection_seq s) (current_writer_seq s) (listening s) v_running (closed s)
    (opened s) (first_output_received s) (open_mirror_resends s) (next_input_seq s)
    (initial_cols s) (initial_rows s) (last_sent_size s) (connected_tx s) (signals s) (events s)
    (wires s) (shut s).

Definition set_first_output_received (v_first_output_received : bool)
    (s : RatatuiRemoteSession) : RatatuiRemoteSession :=
  mkRemoteSession (rs_target_id s) (rs_session_id s) (rs_authority_node_id s) (observer s)
    (writer s) (next_connection_seq s) (current_writer_seq s) (listening s) (running s) (closed s)
    (opened s) v_first_output_received (open_mirror_resends s) (next_input_seq s) (initial_cols s)
    (initial_rows s) (last_sent_size s) (connected_tx s) (signals s) (events s) (wires s) (shut s).

Definition set_next_connection_seq (v_next_connection_seq : Z)
    (s : RatatuiRemoteSession) : RatatuiRemoteSession :=
  mkRemoteSession (rs_target_id s) (rs_session_id s) (rs_authority_node_id s) (observer s)
    (writer s) v_next_connection_seq (current_writer_seq s) (listening s) (running s) (closed s)
    (opened s) (first_output_received s) (open_mirror_resends s) (next_input_seq s)
    (initial_cols s) (initial_rows s) (last_sent_size s) (connected_tx s) (signals s) (events s)
    (wires s) (shut s).

Definition set_wires (v_wires : gmap Z (list byte))
    (s : RatatuiRemoteSession) : RatatuiRemoteSession :=
  mkRemoteSession (rs_target_id s) (rs_session_id s) (rs_authority_node_id s) (observer s)
    (writer s) (next_connection_seq s) (current_writer_seq s) (listening s) (running s) (closed s)
    (opened s) (first_output_received s) (open_mirror_resends s) (next_input_seq s)
    (initial_cols s) (initial_rows s) (last_sent_size s) (connected_tx s) (signals s) (events s)
    v_wires (shut s).

Definition set_last_sent_size (v_last_sent_size : option (Z * Z))
    (s : RatatuiRemoteSession) : RatatuiRemoteSession :=
  mkRemoteSession (rs_target_id s) (rs_session_id s) (rs_authority_node_id s) (observer s)
    (writer s) (next_connection_seq s) (current_writer_seq s) (listening s) (running s) (closed s)
    (opened s) (first_output_received s) (open_mirror_resends s) (next_input_seq s)
    (initial_cols s) (initial_rows s) v_last_sent_size (connected_tx s) (signals s) (events s)
    (wires s) (shut s).

Definition set_initial_size (v_initial_cols : Z) (v_initial_rows : Z)
    (s : RatatuiRemoteSession) : RatatuiRemoteSession :=
  mkRemoteSession (rs_target_id s) (rs_session_id s) (rs_authority_node_id s) (observer s)
    (writer s) (next_connection_seq s) (current_writer_seq s) (listening s) (running s) (closed s)
    (opened s) (first_output_received s) (open_mirror_resends s) (next_input_seq s) v_initial_cols
    v_initial_rows (last_sent_size s) (connected_tx s) (signals s) (events s) (wires s) (shut s).

Definition set_writer (v_writer : option Z) (v_current_writer_seq : Z) (v_shut : gset Z)
    (s : RatatuiRemoteSession) : RatatuiRemoteSession :=
  mkRemoteSession (rs_target_id s) (rs_session_id s) (rs_authority_node_id s) (observer s)
    v_writer (next_connection_seq s) v_current_writer_seq (listening s) (running s) (closed s)
    (opened s) (first_output_received s) (open_mirror_resends s) (next_input_seq s)
    (initial_cols s) (initial_rows s) (last_sent_size s) (connected_tx s) (signals s) (events s)
    (wires s) v_shut.

Definition set_signals (v_connected_tx : bool) (v_signals : list bool)
    (s : RatatuiRemoteSession) : RatatuiRemoteSession :=
  mkRemoteSession (rs_target_id s) (rs_session_id s) (rs_authority_node_id s) (observer s)
    (writer s) (next_connection_seq s) (current_writer_seq s) (listening s) (running s) (closed s)
    (opened s) (first_output_received s) (open_mirror_resends s) (next_input_seq s)
    (initial_cols s) (initial_rows s) (last_sent_size s) v_connected_tx v_signals (events s)
    (wires s) (shut s).

Definition set_stopped (v_listening : bool) (v_running : bool) (v_closed : bool)
    (s : RatatuiRemoteSession) : RatatuiRemoteSession :=
  mkRemoteSession (rs_target_id s) (rs_session_id s) (rs_authority_node_id s) (observer s)
    (writer s) (next_connection_seq s) (current_writer_seq s) v_listening v_running v_closed
    (opened s) (first_output_received s) (open_mirror_resends s) (next_input_seq s)
    (initial_cols s) (initial_rows s) (last_sent_size s) (connected_tx s) (signals s) (events s)
    (wires s) (shut s).

(** ** Writing *)

Inductive io := Taken | Broken (n : nat).

(** [write_authority_transport_frame] on a connection, and whether it
    succeeded. *)
Definition write_frame (conn : Z) (f : AuthorityTransportFrame) (w : io) (s : RatatuiRemoteSession) :
    RatatuiRemoteSession * bool :=
  if bool_decide (conn ∈ shut s) then (s, false)
  else
    let '(bs, r) := write_authority_transport_frame f in
    let before := default [] (wires s !! conn) in
    match r, w with
    | Ok _, Taken => (set_wires (<[conn := before ++ bs]> (wires s)) s, true)
    | Ok _, Broken n => (set_wires (<[conn := before ++ take n bs]> (wires s)) s, false)
    | Err _, _ => (set_wires (<[conn := before ++ bs]> (wires s)) s, false)
    end.

(** ** Creation *)

(** [open]: the session before anything is connected; [tx] when the caller
    wants to know of the first handshake. *)
Definition session_open (target : ManagedSessionRecord) (tx : bool) : RatatuiRemoteSession :=
  mkRemoteSession (qualified_target (address target)) (session_id (address target))
    (authority_id (address target)) (observer_new 80 24) None 1 0 true true false false false 0 1
    80 24 None tx [] [] ∅ ∅.

Definition session_stop (s : RatatuiRemoteSession) : RatatuiRemoteSession :=
  let s := set_stopped false false true s in
  match writer s with
  | Some conn => set_writer None (current_writer_seq s) (shut s ∪ {[conn]}) s
  | None => s
  end.

Definition session_clear_output_seq (s : RatatuiRemoteSession) : RatatuiRemoteSession :=
  set_observer (clear_output_seq (observer s)) s.

Definition viewer_size (cols rows : Z) : TerminalSize :=
  {| rows := rows; cols := cols; pixel_width := 0; pixel_height := 0 |}.

Definition resize_local_screen (cols rows : Z) (s : RatatuiRemoteSession) : RatatuiRemoteSession :=
  set_observer (resize_terminal (viewer_size cols rows) (observer s)) s.

(** ** Requests to the peer *)

Section requests.
Context (pid : Z).

Definition console_name : string := ("ratatui-console-" +:+ pretty pid)%string.
Definition attachment_name : string := ("ratatui-attach-" +:+ pretty pid)%string.

(** The envelope of a request at a millisecond, named by its kind. *)
Definition request_envelope (s : RatatuiRemoteSession) (id : string) (now : Z)
    (console : option string) (payload : ControlPlanePayload) : ProtocolEnvelope :=
  mkProtocolEnvelope REMOTE_PROTOCOL_VERSION id (message_type payload) (now_rfc3339_like now)
    (rs_authority_node_id s) None (Some (rs_session_id s)) (Some (rs_target_id s)) None console
    payload.

Definition open_mirror_frame (s : RatatuiRemoteSession) (cols rows now : Z) : AuthorityTransportFrame :=
  FrameControlPlane
    (request_envelope s ("ratatui-open-mirror-" +:+ pretty now)%string now (Some console_name)
       (OpenMirrorRequest (mkOpenMirrorRequest (rs_session_id s) (rs_target_id s) console_name
          cols rows true VisibleOnly))).

Definition resize_frame (s : RatatuiRemoteSession) (cols rows now : Z) : AuthorityTransportFrame :=
  FrameControlPlane
    (request_envelope s ("ratatui-resize-" +:+ pretty now)%string now (Some console_name)
       (ApplyResize (mkApplyResize (rs_session_id s) (rs_target_id s) 1 console_name cols rows))).

Definition input_frame (s : RatatuiRemoteSession) (seq : Z) (bytes : list byte) :
    AuthorityTransportFrame :=
  FrameRawPtyInput (mkRawPtyInput attachment_name (rs_session_id s) (rs_target_id s) console_name
    (rs_authority_node_id s) seq bytes).

(** The lock section of [send_open_mirror]: write to the writer, and note the
    size on success. *)
Definition write_open_mirror (cols rows now : Z) (w : io) (s : RatatuiRemoteSession) :
    RatatuiRemoteSession :=
  match writer s with
  | None => s
  | Some conn =>
      let '(s, ok) := write_frame conn (open_mirror_frame s cols rows now) w s in
      if ok : bool then set_last_sent_size (Some (cols, rows)) s else s
  end.

Definition send_open_mirror (cols rows now : Z) (w : io) (s : RatatuiRemoteSession) :
    RatatuiRemoteSession :=
  write_open_mirror cols rows now w (set_initial_size cols rows s).

Definition open_mirror (cols rows now : Z) (w : io) (s : RatatuiRemoteSession) :
    RatatuiRemoteSession :=
  if opened s then s
  else resize_local_screen cols rows (send_open_mirror cols rows now w (set_opened true s)).

Definition flush_open_mirror (now : Z) (w : io) (s : RatatuiRemoteSession) : RatatuiRemoteSession :=
  if opened s then send_open_mirror (initial_cols s) (initial_rows s) now w s else s.

Definition session_feed_input (bytes : list byte) (w : io) (s : RatatuiRemoteSession) :
    RatatuiRemoteSession :=
  let seq := next_input_seq s in
  let s := set_next_input_seq (wrap 64 (seq + 1)) s in
  match writer s with
  | None => s
  | Some conn => (write_frame conn (input_frame s seq bytes) w s).1
  end.

Definition session_resize (cols rows now : Z) (w : io) (s : RatatuiRemoteSession) :
    RatatuiRemoteSession * bool :=
  if bool_decide (last_sent_size s = Some (cols, rows)) then (s, false)
  else match writer s with
  | None => (s, false)
  | Some conn =>
      let '(s, ok) := write_frame conn (resize_frame s cols rows now) w s in
      if ok : bool
      then (resize_local_screen cols rows (set_last_sent_size (Some (cols, rows)) s), true)
      else (s, false)
  end.

(** *** Pasting a file *)

Definition CHUNK_SIZE : Z := 1024 * 1024.

Definition total_chunks (bytes : list byte) : Z :=
  if bool_decide (bytes = []) then 1 else wrap 32 ((len bytes + CHUNK_SIZE - 1) / CHUNK_SIZE).

(** [bytes[start..end]] of chunk [i]. *)
Definition chunk_bytes (bytes : list byte) (i : Z) : list byte :=
  take (Z.to_nat CHUNK_SIZE) (drop (Z.to_nat (i * CHUNK_SIZE)) bytes).

Definition paste_payload (s : RatatuiRemoteSession) (hint file_id : string) (bytes : list byte)
    (i : Z) : PasteFileRequestPayload :=
  mkPasteFileRequest (rs_session_id s) (rs_target_id s) hint file_id (total_chunks bytes) i
    (chunk_bytes bytes i).

Definition paste_frame (s : RatatuiRemoteSession) (hint file_id : string) (now : Z)
    (bytes : list byte) (i : Z) : AuthorityTransportFrame :=
  FrameControlPlane
    (request_envelope s
       ("ratatui-paste-file-" +:+ file_id +:+ "-" +:+ pretty i +:+ "-" +:+ now_rfc3339_like now)%string
       now None (PasteFileRequest (paste_payload s hint file_id bytes i))).

Definition paste_frames (s : RatatuiRemoteSession) (hint file_id : string) (now : Z)
    (bytes : list byte) : list AuthorityTransportFrame :=
  map (paste_frame s hint file_id now bytes) (seqZ 0 (total_chunks bytes)).

(** All chunks are encoded into one buffer, which is then written. *)
Definition encode_frames (fs : list AuthorityTransportFrame) : writes :=
  foldr (fun f acc => write_authority_transport_frame f +++ acc) ([], Ok tt) fs.

Definition send_paste_file (hint file_id : string) (now : Z) (bytes : list byte) (w : io)
    (s : RatatuiRemoteSession) : RatatuiRemoteSession :=
  match encode_frames (paste_frames s hint file_id now bytes) with
  | (_, Err _) => s
  | (encoded, Ok _) =>
      match writer s with
      | None => s
      | Some conn =>
          if bool_decide (conn ∈ shut s) then s
          else
            let taken := match w with Taken => encoded | Broken n => take n encoded end in
            set_wires (<[conn := default [] (wires s !! conn) ++ taken]> (wires s)) s
      end
  end.

End requests.

(** ** Serving a connection *)

(** [signal_connected]: the first result goes to the waiting caller. *)
Definition signal_connected (ok : bool) (s : RatatuiRemoteSession) : RatatuiRemoteSession :=
  if connected_tx s then set_signals false (signals s ++ [ok]) s else s.

(** The lock section in which the newest connection takes over the writer. *)
Definition install_writer (conn : Z) (s : RatatuiRemoteSession) : RatatuiRemoteSession :=
  let shut' := match writer s with Some previous => shut s ∪ {[previous]} | None => shut s end in
  set_writer (Some conn) conn shut' s.

(** Output of the peer, framed or in an envelope. *)
Definition receive_output (payload : RawPtyOutputPayload) (s : RatatuiRemoteSession) :
    result RatatuiRemoteSession fault :=
  let? o := feed_raw_output (rout_output_seq payload) (rout_output_bytes payload) (observer s) in
  Ok (set_events (events s ++ [RemoteSessionOutput (rs_target_id s)])
        (set_observer o (set_first_output_received true s))).

(** What the reader thread does with a frame. *)
Definition receive_frame (conn : Z) (f : AuthorityTransportFrame) (s : RatatuiRemoteSession) :
    result RatatuiRemoteSession fault :=
  match f with
  | FrameRawPtyOutput payload => receive_output payload s
  | FrameControlPlane envelope =>
      match env_payload envelope with
      | RawPtyOutput payload => receive_output payload s
      | _ => Ok s
      end
  | FramePing => Ok (write_frame conn FramePong Taken s).1
  | _ => Ok s
  end.

(** The reader loop: it ends on any read error, or when the session stops. *)
Fixpoint reader_loop (fuel : nat) (conn : Z) (arrivals : list arrival) (s : RatatuiRemoteSession) :
    option (result (RatatuiRemoteSession * option codec_error) fault) :=
  match fuel with
  | O => None
  | S fuel =>
      if running s then
        match read_authority_transport_frame arrivals with
        | (Ok f, arrivals) =>
            match receive_frame conn f s with
            | Ok s => reader_loop fuel conn arrivals s
            | Err e => Some (Err e)
            end
        | (Err e, _) => Some (Ok (s, Some e))
        end
      else Some (Ok (s, None))
  end.

(** After the loop: the current connection gives up the writer and reports
    the disconnect, unless the session was stopped. *)
Definition leave_connection (conn : Z) (s : RatatuiRemoteSession) : RatatuiRemoteSession :=
  if current_writer_seq s =? conn then
    let s := set_writer None (current_writer_seq s) (shut s) s in
    if closed s then s
    else set_events (events s ++ [RemoteSessionDisconnected (rs_target_id s)]) s
  else s.

(** [handle_authority_transport_stream], run without interruption. *)
Definition serve_connection (pid : Z) (version : string) (now : Z) (arrivals : list arrival)
    (s : RatatuiRemoteSession) : option (result RatatuiRemoteSession fault) :=
  let conn := next_connection_seq s in
  let s := set_next_connection_seq (wrap 64 (conn + 1)) s in
  match read_client_hello arrivals with
  | (Err _, _) => Some (Ok (signal_connected false s))
  | (Ok _, arrivals) =>
      match write_server_hello version "waitagent-ratatui-remote-session" now with
      | (_, Err _) => Some (Ok (signal_connected false s))
      | (hello, Ok _) =>
          let s := set_wires (<[conn := hello]> (wires s)) s in
          let s := flush_open_mirror pid now Taken (install_writer conn (signal_connected true s)) in
          match reader_loop (S (length arrivals)) conn arrivals s with
          | Some (Ok (s, _)) => Some (Ok (leave_connection conn s))
          | Some (Err e) => Some (Err e)
          | None => None
          end
      end
  end.

(** ** The watchdog *)

Inductive WatchdogAction := Resend | GiveUp.

Definition OPEN_MIRROR_WATCHDOG_MAX_RESENDS : Z := 5.

Definition watchdog_action (opened first_output_received : bool) (resends max_resends : Z) :
    option WatchdogAction :=
  if negb opened || first_output_received then None
  else if max_resends <=? resends then Some GiveUp
  else Some Resend.

(** One round of the watchdog thread; [None] when it ends. *)
Definition watchdog_round (pid now : Z) (w : io) (s : RatatuiRemoteSession) :
    option RatatuiRemoteSession :=
  if running s then
    match watchdog_action (opened s) (first_output_received s) (open_mirror_resends s)
            OPEN_MIRROR_WATCHDOG_MAX_RESENDS with
    | Some Resend =>
        let s := set_open_mirror_resends (wrap 64 (open_mirror_resends s + 1)) s in
        Some (send_open_mirror pid (initial_cols s) (initial_rows s) now w s)
    | Some GiveUp => None
    | None => Some s
    end
  else None.

(** ** What the user interface reads *)

(** The session's mailbox is its own and stays empty. *)
Definition session_snapshot (s : RatatuiRemoteSession) :
    result (list text * list text * option (Z * Z) * bool) fault :=
  let? (o, _) := sync [] (observer s) in
  let screen := active_snapshot (snap_screen (observer_snapshot o)) in
  let cursor :=
    if (snap_cursor_row screen <? rows (snap_size screen)) &&
       (snap_cursor_col screen <? cols (snap_size screen))
    then Some (snap_cursor_col screen, snap_cursor_row screen) else None in
  Ok (lines screen, styled_lines screen, cursor, snap_cursor_visible screen).

Definition history_snapshot (s : RatatuiRemoteSession) : result (list text * list text) fault :=
  let? (o, _) := sync [] (observer s) in
  let screen := active_snapshot (snap_screen (observer_snapshot o)) in
  Ok (snap_scrollback screen ++ lines screen, snap_scrollback screen ++ styled_lines screen).

Definition translation_cursor_keys (s : RatatuiRemoteSession) : bool :=
  observer_cursor_keys (observer s).

(** ** Opening while a connection comes up

    [open_mirror] and the set-up of a connection, action by action: the
    atomic variables, the lock section that stores the size, the locks under
    which it is read, and the lock section of the writer. *)

Definition step (f : RatatuiRemoteSession -> RatatuiRemoteSession) : prog RatatuiRemoteSession unit :=
  act (fun s => Some (f s, tt)).

Definition look {A} (f : RatatuiRemoteSession -> A) : prog RatatuiRemoteSession A :=
  act (fun s => Some (s, f s)).

Definition open_mirror_task (pid cols rows now : Z) : prog RatatuiRemoteSession unit :=
  let! was := act (fun s => Some (set_opened true s, opened s)) in
  if was : bool then Ret tt
  else
    let! _ := step (set_initial_size cols rows) in
    let! _ := step (write_open_mirror pid cols rows now Taken) in
    step (resize_local_screen cols rows).

Definition connect_task (pid conn now : Z) : prog RatatuiRemoteSession unit :=
  let! _ := step (install_writer conn) in
  let! is_open := look opened in
  if is_open : bool then
    let! c := look initial_cols in
    let! r := look initial_rows in
    let! _ := step (set_initial_size c r) in
    step (write_open_mirror pid c r now Taken)
  else Ret tt.

(** [conn] carries a request for a mirror of this size. *)
Definition requested (pid conn cols rows : Z) (s : RatatuiRemoteSession) : Prop :=
  exists now before after, wires s !! conn =
    Some (before ++ (write_authority_transport_frame (open_mirror_frame pid s cols rows now)).1 ++ after).

Lemma write_frame_keeps conn f w s :
  let s' := (write_frame conn f w s).1 in
  writer s' = writer s /\ shut s' = shut s /\ opened s' = opened s /\
  initial_cols s' = initial_cols s /\ initial_rows s' = initial_rows s /\
  rs_session_id s' = rs_session_id s /\ rs_target_id s' = rs_target_id s /\
  rs_authority_node_id s' = rs_authority_node_id s /\ observer s' = observer s /\
  running s' = running s.
Proof. unfold write_frame. by repeat case_match. Qed.

Lemma write_open_mirror_keeps pid c r now w s :
  let s' := write_open_mirror pid c r now w s in
  writer s' = writer s /\ shut s' = shut s /\ opened s' = opened s /\
  initial_cols s' = initial_cols s /\ initial_rows s' = initial_rows s /\
  rs_session_id s' = rs_session_id s /\ rs_target_id s' = rs_target_id s /\
  rs_authority_node_id s' = rs_authority_node_id s /\ observer s' = observer s /\
  running s' = running s.
Proof.
  unfold write_open_mirror. destruct (writer s) as [conn|] eqn:Ew; [|by rewrite Ew].
  pose proof (write_frame_keeps conn (open_mirror_frame pid s c r now) w s) as H.
  destruct (write_frame _ _ _ _) as [s' ok]. cbv zeta in H |- *. simpl in H. rewrite <- Ew.
  by destruct ok.
Qed.

(** A write only appends to its connection. *)
Lemma write_frame_wires conn f w s c bs :
  wires s !! c = Some bs -> exists more, wires (write_frame conn f w s).1 !! c = Some (bs ++ more).
Proof.
  intros Hc. unfold write_frame. case_bool_decide; [exists []; by rewrite app_nil_r|].
  destruct (write_authority_transport_frame f) as [b r]. destruct (decide (conn = c)) as [->|Hne].
  - rewrite Hc. destruct r, w; simpl; rewrite lookup_insert_eq; eauto.
  - destruct r, w; simpl; rewrite lookup_insert_ne by done; exists []; by rewrite app_nil_r.
Qed.

Lemma write_open_mirror_wires pid cl rw now w s c bs :
  wires s !! c = Some bs ->
  exists more, wires (write_open_mirror pid cl rw now w s) !! c = Some (bs ++ more).
Proof.
  intros Hc. unfold write_open_mirror. destruct (writer s) as [conn|]; [|exists []; by rewrite app_nil_r].
  destruct (write_frame_wires conn (open_mirror_frame pid s cl rw now) w s c bs Hc) as [more Hm].
  destruct (write_frame _ _ _ _) as [s' ok]. exists more. by destruct ok.
Qed.

Lemma open_mirror_frame_same pid s s' c r now :
  rs_session_id s' = rs_session_id s -> rs_target_id s' = rs_target_id s ->
  rs_authority_node_id s' = rs_authority_node_id s ->
  open_mirror_frame pid s' c r now = open_mirror_frame pid s c r now.
Proof. intros H1 H2 H3. unfold open_mirror_frame, request_envelope. by rewrite H1, H2, H3. Qed.

Section opening.
Context (pid conn cols rows : Z).

Lemma requested_after_write now s :
  writer s = Some conn -> conn ∉ shut s ->
  (write_authority_transport_frame (open_mirror_frame pid s cols rows now)).2 = Ok tt ->
  requested pid conn cols rows (write_open_mirror pid cols rows now Taken s).
Proof.
  intros Hw Hs Hok. exists now, (default [] (wires s !! conn)), [].
  pose proof (write_open_mirror_keeps pid cols rows now Taken s) as H. cbv zeta in H. destruct_and!.
  rewrite (open_mirror_frame_same pid s) by done. rewrite app_nil_r.
  unfold write_open_mirror, write_frame. rewrite Hw, bool_decide_false by done.
  destruct (write_authority_transport_frame (open_mirror_frame pid s cols rows now)) as [bs r].
  simpl in Hok. subst r. simpl. by rewrite lookup_insert_eq.
Qed.

Lemma requested_same s s' :
  requested pid conn cols rows s -> wires s' = wires s -> rs_session_id s' = rs_session_id s ->
  rs_target_id s' = rs_target_id s -> rs_authority_node_id s' = rs_authority_node_id s ->
  requested pid conn cols rows s'.
Proof.
  intros (now & b & a & H) Hw H1 H2 H3. exists now, b, a. rewrite Hw.
  by rewrite (open_mirror_frame_same pid s).
Qed.

Lemma requested_write c r now s :
  requested pid conn cols rows s -> requested pid conn cols rows (write_open_mirror pid c r now Taken s).
Proof.
  intros (n & b & a & H). destruct (write_open_mirror_wires pid c r now Taken s conn _ H) as [more Hm].
  pose proof (write_open_mirror_keeps pid c r now Taken s) as Hk. cbv zeta in Hk. destruct_and!.
  exists n, b, (a ++ more). rewrite (open_mirror_frame_same pid s) by done.
  rewrite Hm. by rewrite <- !(assoc_L (++)).
Qed.

End opening.

(** ** What is sent can be carried *)

Definition session_ok (s : RatatuiRemoteSession) : Prop :=
  string_ok (rs_target_id s) /\ string_ok (rs_session_id s) /\ string_ok (rs_authority_node_id s).

Lemma named_ok prefix z :
  rust_string prefix -> str_len prefix <= 200 -> fits 64 z -> string_ok (prefix +:+ pretty z)%string.
Proof.
  intros Hp Hl Hz. destruct (pretty_short z Hz) as [Hr Hs]. split; [by apply rust_string_app|].
  unfold bytes_ok. fold (str_len (prefix +:+ pretty z)%string). rewrite str_len_app. lia.
Qed.

Lemma timestamp_ok now : fits 64 now -> string_ok (now_rfc3339_like now).
Proof.
  intros Hn. destruct (pretty_short now Hn) as [Hr Hs]. unfold now_rfc3339_like.
  split; [by apply rust_string_app|]. unfold bytes_ok. fold (str_len (pretty now +:+ "Z")%string).
  rewrite str_len_app. change (str_len "Z") with 1. lia.
Qed.

Lemma request_envelope_ok s id now console payload :
  session_ok s -> string_ok id -> fits 64 now -> opt_ok string_ok console -> payload_ok payload ->
  envelope_ok (request_envelope s id now console payload).
Proof.
  intros (Ht & Hs & Ha) Hid Hn Hc Hp. pose proof (timestamp_ok now Hn).
  unfold envelope_ok, request_envelope. simpl. by split_and!.
Qed.

Lemma console_ok pid : fits 64 pid -> string_ok (console_name pid).
Proof. intros. by apply named_ok. Qed.

Lemma open_mirror_frame_ok pid s cols rows now :
  session_ok s -> fits 64 pid -> fits 64 now -> fits 64 cols -> fits 64 rows ->
  frame_ok (open_mirror_frame pid s cols rows now).
Proof.
  intros Hs Hp Hn Hc Hr. pose proof (console_ok pid Hp). unfold open_mirror_frame.
  apply request_envelope_ok; [done|by apply named_ok|done|done|].
  destruct Hs as (? & ? & _). by split_and!.
Qed.

Lemma resize_frame_ok pid s cols rows now :
  session_ok s -> fits 64 pid -> fits 64 now -> fits 64 cols -> fits 64 rows ->
  frame_ok (resize_frame pid s cols rows now).
Proof.
  intros Hs Hp Hn Hc Hr. pose proof (console_ok pid Hp). unfold resize_frame.
  apply request_envelope_ok; [done|by apply named_ok|done|done|].
  destruct Hs as (? & ? & _). by split_and!.
Qed.

Lemma input_frame_ok pid s seq bytes :
  session_ok s -> fits 64 pid -> fits 64 seq -> bytes_ok bytes -> frame_ok (input_frame pid s seq bytes).
Proof.
  intros (? & ? & ?) Hp Hq Hb. pose proof (console_ok pid Hp).
  assert (string_ok (attachment_name pid)) by (by apply named_ok). by split_and!.
Qed.

Lemma frame_written f :
  frame_ok f -> exists bs, write_authority_transport_frame f = (bs, Ok tt) /\ sent_bytes (Framed f) = bs.
Proof.
  intros Hf. destruct (carries_frame f Hf) as (bs & Hw & _). exists bs.
  split; [done|]. unfold sent_bytes, write_sent. by rewrite Hw.
Qed.

(** ** Races of opening *)

Section race.
Context (pid conn cols rows now1 now2 : Z) (s0 : RatatuiRemoteSession).
Context (Hs : session_ok s0) (Hpid : fits 64 pid) (Hnow1 : fits 64 now1) (Hnow2 : fits 64 now2).
Context (Hcols : fits 64 cols) (Hrows : fits 64 rows).
Context (Hopened : opened s0 = false) (Hwriter : writer s0 = None) (Hshut : conn ∉ shut s0).

(** The state of the race that matters, as long as nothing was requested:
    who the writer is, whether the session counts as opened, and the stored
    size. *)
Definition ready (s : RatatuiRemoteSession) : Prop :=
  session_ok s /\ conn ∉ shut s.

Lemma ready_write s now c r : ready s -> ready (write_open_mirror pid c r now Taken s).
Proof.
  intros [(H1 & H2 & H3) Hc]. pose proof (write_open_mirror_keeps pid c r now Taken s) as H.
  cbv zeta in H. destruct_and!. unfold ready, session_ok. split; [|congruence].
  split_and!; congruence.
Qed.

Lemma written_ok s c r now :
  ready s -> fits 64 c -> fits 64 r -> fits 64 now ->
  (write_authority_transport_frame (open_mirror_frame pid s c r now)).2 = Ok tt.
Proof.
  intros [Hr _] Hc Hrw Hn.
  destruct (frame_written _ (open_mirror_frame_ok pid s c r now Hr Hpid Hn Hc Hrw)) as (bs & -> & _). done.
Qed.

(** Progress of the two programs: how far [open_mirror] is, how far the
    connection is, and what is known of the state. *)
Definition open_at (pc : nat) : prog RatatuiRemoteSession unit :=
  match pc with
  | 0%nat => open_mirror_task pid cols rows now1
  | 1%nat =>
      let! _ := step (set_initial_size cols rows) in
      let! _ := step (write_open_mirror pid cols rows now1 Taken) in
      step (resize_local_screen cols rows)
  | 2%nat =>
      let! _ := step (write_open_mirror pid cols rows now1 Taken) in
      step (resize_local_screen cols rows)
  | 3%nat => step (resize_local_screen cols rows)
  | _ => Ret tt
  end.

Definition flush_at (pc : nat) (c r : Z) : prog RatatuiRemoteSession unit :=
  match pc with
  | 0%nat => connect_task pid conn now2
  | 1%nat =>
      let! is_open := look opened in
      if is_open : bool then
        let! c := look initial_cols in
        let! r := look initial_rows in
        let! _ := step (set_initial_size c r) in
        step (write_open_mirror pid c r now2 Taken)
      else Ret tt
  | 2%nat =>
      let! c := look initial_cols in
      let! r := look initial_rows in
      let! _ := step (set_initial_size c r) in
      step (write_open_mirror pid c r now2 Taken)
  | 3%nat =>
      let! r := look initial_rows in
      let! _ := step (set_initial_size c r) in
      step (write_open_mirror pid c r now2 Taken)
  | 4%nat =>
      let! _ := step (set_initial_size c r) in
      step (write_open_mirror pid c r now2 Taken)
  | 5%nat => step (write_open_mirror pid c r now2 Taken)
  | _ => Ret tt
  end.

(** Nothing was requested yet only if [open_mirror] has not come to its write,
    or had no writer there; in the second case the connection was not
    installed when the size was stored, so it will flush it. *)
Definition race_inv (po pf : nat) (c r : Z) (s : RatatuiRemoteSession) : Prop :=
  ready s /\
  (pf = 0%nat -> writer s = None) /\ (1 <= pf -> writer s = Some conn)%nat /\
  (po = 0%nat <-> opened s = false) /\
  (po = 2%nat -> pf = 0%nat -> initial_cols s = cols /\ initial_rows s = rows) /\
  (requested pid conn cols rows s \/
   (po <= 2)%nat \/
   (3 <= po /\ pf <= 5 /\ (pf <= 4 -> initial_cols s = cols /\ initial_rows s = rows) /\
    (3 <= pf -> c = cols) /\ (4 <= pf -> r = rows))%nat).

Lemma race_start : race_inv 0 0 0 0 s0.
Proof. split_and!; [done..|done|lia|done|done|]. right. left. lia. Qed.

Lemma race_open po pf c r s s' tasks :
  race_inv po pf c r s ->
  pool_step 0 s [open_at po; flush_at pf c r] = Some (s', tasks) ->
  exists po', tasks = [open_at po'; flush_at pf c r] /\ race_inv po' pf c r s'.
Proof.
  intros ([Hok Hsh] & Hw0 & Hw1 & Ho & H2 & Hreq).
  destruct po as [|[|[|[|po]]]]; simpl; intros [= <- <-].
  - rewrite (proj1 Ho eq_refl). exists 1%nat. split; [done|].
    split_and!; try done; try lia.
  - exists 2%nat. split; [done|]. split_and!; try done.
    + split; [lia|]. intros E. simpl in E. apply Ho in E. lia.
    + right. left. lia.
  - exists 3%nat. split; [done|].
    destruct (write_open_mirror_keeps pid cols rows now1 Taken s) as (Kw & Ks & Ko & Kc & Kr & _).
    split_and!; [by apply ready_write|by rewrite Kw|by rewrite Kw| |lia|].
    { rewrite Ko. split; [lia|]. intros E. apply Ho in E. lia. }
    destruct (decide (pf = 0%nat)) as [->|Hpf].
    + right. right. rewrite Kc, Kr.
      split_and!; [lia|lia|intros _; by apply H2|lia|lia].
    + left. apply requested_after_write; [by apply Hw1; lia|done|]. by apply written_ok.
  - exists 4%nat. split; [done|]. split_and!; [done|done|done| |lia|].
    { split; [lia|]. intros E. simpl in E. apply Ho in E. lia. }
    destruct Hreq as [Hreq|[?|Hreq]]; [left; by eapply requested_same|lia|].
    right. right. destruct_and!. split_and!; try done; lia.
Qed.

(** What a step of the connection has to keep of the state. *)
Lemma race_kept po pf pf' c r c' r' s s' :
  race_inv po pf c r s -> (1 <= pf')%nat ->
  rs_session_id s' = rs_session_id s -> rs_target_id s' = rs_target_id s ->
  rs_authority_node_id s' = rs_authority_node_id s -> conn ∉ shut s' -> opened s' = opened s ->
  writer s' = Some conn -> wires s' = wires s ->
  ((3 <= po /\ pf <= 5 /\ (pf <= 4 -> initial_cols s = cols /\ initial_rows s = rows) /\
    (3 <= pf -> c = cols) /\ (4 <= pf -> r = rows))%nat ->
   (pf' <= 5 /\ (pf' <= 4 -> initial_cols s' = cols /\ initial_rows s' = rows) /\
    (3 <= pf' -> c' = cols) /\ (4 <= pf' -> r' = rows))%nat) ->
  race_inv po pf' c' r' s'.
Proof.
  intros ([Hok Hsh] & _ & _ & Ho & _ & Hreq) Hpf E1 E2 E3 E4 E5 E6 E7 Hkeep.
  split_and!; [|lia|done|by rewrite E5|lia|].
  { split; [|done]. unfold session_ok. by rewrite E1, E2, E3. }
  destruct Hreq as [Hreq|[?|Hreq]]; [left; by eapply requested_same|by right; left|].
  right. right. split; [lia|]. by apply Hkeep.
Qed.

Lemma race_flush po pf c r s s' tasks :
  race_inv po pf c r s ->
  pool_step 1 s [open_at po; flush_at pf c r] = Some (s', tasks) ->
  exists pf' c' r', tasks = [open_at po; flush_at pf' c' r'] /\ race_inv po pf' c' r' s'.
Proof.
  intros Hinv. pose proof Hinv as ([Hok Hsh] & Hw0 & Hw1 & Ho & _ & Hreq).
  destruct pf as [|[|[|[|[|[|pf]]]]]]; simpl; intros [= <- <-].
  - exists 1%nat, c, r. split; [done|]. specialize (Hw0 eq_refl).
    unfold install_writer. rewrite Hw0. eapply race_kept; [done|lia|done..|naive_solver lia].
  - specialize (Hw1 ltac:(lia)). destruct (opened s) eqn:Eo.
    + exists 2%nat, c, r. split; [done|]. eapply race_kept; [done|lia|done..|naive_solver lia].
    + exists 6%nat, c, r. split; [done|]. eapply race_kept; [done|lia|done..|].
      intros [? _]. pose proof (proj2 Ho eq_refl). lia.
  - specialize (Hw1 ltac:(lia)). exists 3%nat, (initial_cols s), r. split; [done|].
    eapply race_kept; [done|lia|done..|naive_solver lia].
  - specialize (Hw1 ltac:(lia)). exists 4%nat, c, (initial_rows s). split; [done|].
    eapply race_kept; [done|lia|done..|naive_solver lia].
  - specialize (Hw1 ltac:(lia)). exists 5%nat, c, r. split; [done|].
    eapply race_kept; [done|lia|done..|naive_solver lia].
  - specialize (Hw1 ltac:(lia)). exists 6%nat, c, r. split; [done|].
    destruct (write_open_mirror_keeps pid c r now2 Taken s) as (Kw & Ks & Ko & Kc & Kr & _).
    split_and!; [by apply ready_write|lia|by rewrite Kw|by rewrite Ko|lia|].
    destruct Hreq as [Hreq|[?|(_ & _ & _ & -> & ->)]];
      [left; by apply requested_write|by right; left| |lia|lia].
    left. apply requested_after_write; [done|done|]. by apply written_ok.
Qed.

Lemma race_run schedule po pf c r s s' tasks :
  race_inv po pf c r s ->
  pool_run schedule s [open_at po; flush_at pf c r] = Some (s', tasks) ->
  exists po' pf' c' r', tasks = [open_at po'; flush_at pf' c' r'] /\ race_inv po' pf' c' r' s'.
Proof.
  revert po pf c r s. induction schedule as [|i schedule IH]; intros po pf c r s Hinv; simpl.
  { intros [= <- <-]. by exists po, pf, c, r. }
  destruct (pool_step i s _) as [[s1 t1]|] eqn:E; simpl; [|done]. intros Hrun.
  destruct i as [|[|i]]; [| |by destruct i].
  - destruct (race_open _ _ _ _ _ _ _ Hinv E) as (po' & -> & Hinv'). eauto.
  - destruct (race_flush _ _ _ _ _ _ _ Hinv E) as (pf' & c' & r' & -> & Hinv'). eauto.
Qed.

End race.

(** A mirror is always requested: however the calls that open the session
    and the set-up of its first connection interleave, when both are done the
    connection carries a request for the size that was asked for. *)
Theorem mirror_is_requested pid conn cols rows now1 now2 schedule s s' :
  session_ok s -> fits 64 pid -> fits 64 now1 -> fits 64 now2 -> fits 64 cols -> fits 64 rows ->
  opened s = false -> writer s = None -> conn ∉ shut s ->
  pool_run schedule s [open_mirror_task pid cols rows now1; connect_task pid conn now2]
    = Some (s', [Ret tt; Ret tt]) ->
  requested pid conn cols rows s'.
Proof.
  intros Hs Hpid Hn1 Hn2 Hc Hr Ho Hw Hsh Hrun.
  destruct (race_run pid conn cols rows now1 now2 Hpid Hn1 Hn2 Hc Hr schedule 0 0 0 0 s s'
              [Ret tt; Ret tt]) as (po & pf & c & r & Ht & Hinv); [by apply race_start|done|].
  injection Ht as Hpo Hpf. destruct Hinv as (_ & _ & _ & _ & _ & [Hreq|[Hlt|(_ & Hlt & _)]]).
  - done.
  - by destruct po as [|[|[|po]]]; [| | |lia].
  - by destruct pf as [|[|[|[|[|[|pf]]]]]]; [| | | | | |lia].
Qed.

(** A session of a peer, for the witnesses. *)
Definition sample_target : ManagedSessionRecord :=
  mkManagedSessionRecord (remote_peer "peer-a" "shell-1") None Online None None None [] 0 0 None None
    None None Running.

Definition sample_session : RatatuiRemoteSession := session_open sample_target false.

Lemma sample_session_ok : session_ok sample_session.
Proof. repeat split; vm_compute; reflexivity. Qed.

Lemma mirror_is_requested_witness :
  exists s', pool_run [0; 1; 1; 1; 1; 0; 0; 0; 1; 1]%nat sample_session
    [open_mirror_task 77 120 40 5; connect_task 77 1 6] = Some (s', [Ret tt; Ret tt]) /\
  requested 77 1 120 40 s'.
Proof.
  eexists. split; [reflexivity|].
  eapply (mirror_is_requested 77 1 120 40 5 6 [0; 1; 1; 1; 1; 0; 0; 0; 1; 1]%nat sample_session);
    done.
Defined.

Lemma write_open_mirror_taken pid conn c r now s bs :
  writer s = Some conn -> conn ∉ shut s ->
  write_authority_transport_frame (open_mirror_frame pid s c r now) = (bs, Ok tt) ->
  write_open_mirror pid c r now Taken s =
  set_last_sent_size (Some (c, r)) (set_wires (<[conn := default [] (wires s !! conn) ++ bs]> (wires s)) s).
Proof.
  intros Hw Hsh Hb. unfold write_open_mirror, write_frame. by rewrite Hw, bool_decide_false, Hb.
Qed.

(** The size that was asked for can be lost: there is an interleaving of
    [open_mirror] with the set-up of the connection after which the last
    request on the wire, the stored size and the size counted as sent are the
    ones from before the call, while the local screen has the new size. *)
Theorem opening_race_restores_the_old_size pid conn cols rows now1 now2 s :
  session_ok s -> fits 64 pid -> fits 64 now1 -> fits 64 now2 -> fits 64 cols -> fits 64 rows ->
  fits 64 (initial_cols s) -> fits 64 (initial_rows s) ->
  opened s = false -> writer s = None -> conn ∉ shut s ->
  exists schedule s' before,
    pool_run schedule s [open_mirror_task pid cols rows now1; connect_task pid conn now2]
      = Some (s', [Ret tt; Ret tt]) /\
    wires s' !! conn = Some (before ++ sent_bytes (Framed
      (open_mirror_frame pid s (initial_cols s) (initial_rows s) now2))) /\
    initial_cols s' = initial_cols s /\ initial_rows s' = initial_rows s /\
    last_sent_size s' = Some (initial_cols s, initial_rows s) /\
    observer s' = resize_terminal (viewer_size cols rows) (observer s).
Proof.
  intros Hs Hpid Hn1 Hn2 Hc Hr Hic Hir Ho Hw Hsh.
  destruct (frame_written _ (open_mirror_frame_ok pid s cols rows now1 Hs Hpid Hn1 Hc Hr)) as (b1 & E1 & _).
  destruct (frame_written _ (open_mirror_frame_ok pid s (initial_cols s) (initial_rows s) now2
              Hs Hpid Hn2 Hic Hir)) as (b2 & E2 & F2).
  exists [0; 1; 1; 1; 1; 0; 0; 0; 1; 1]%nat. do 2 eexists. unfold open_mirror_task, connect_task, step, look.
  simpl. rewrite Ho. simpl. unfold install_writer. simpl. rewrite Hw.
  split; [reflexivity|]. rewrite F2.
  rewrite (write_open_mirror_taken pid conn cols rows now1 _ b1) by done.
  rewrite (write_open_mirror_taken pid conn (initial_cols s) (initial_rows s) now2 _ b2) by done.
  simpl. split; [apply lookup_insert_eq|done].
Qed.

Lemma opening_race_restores_the_old_size_witness :
  exists schedule s' before,
    pool_run schedule sample_session [open_mirror_task 77 120 40 5; connect_task 77 1 6]
      = Some (s', [Ret tt; Ret tt]) /\
    wires s' !! 1 = Some (before ++ sent_bytes (Framed (open_mirror_frame 77 sample_session 80 24 6))) /\
    initial_cols s' = 80 /\ initial_rows s' = 24 /\ last_sent_size s' = Some (80, 24) /\
    observer s' = resize_terminal (viewer_size 120 40) (observer sample_session).
Proof.
  apply (opening_race_restores_the_old_size 77 1 120 40 5 6 sample_session);
    done.
Defined.

(** ** Reconnecting *)

(** A reconnection forgets the resize: a session that was opened, then
    resized on its connection, asks for the size it was opened with when the
    peer connects again, and counts that size as sent; the local screen keeps
    the size of the window. *)
Theorem reconnection_asks_for_the_opening_size pid conn conn' c r c' r' n1 n2 n3 s :
  session_ok s -> fits 64 pid -> fits 64 n1 -> fits 64 n2 -> fits 64 n3 ->
  fits 64 c -> fits 64 r -> fits 64 c' -> fits 64 r' -> (c, r) <> (c', r') ->
  opened s = false -> writer s = Some conn -> conn ∉ shut s ->
  conn' ∉ shut s -> conn' <> conn -> wires s !! conn' = None ->
  let '(resized, sent) := session_resize pid c' r' n2 Taken (open_mirror pid c r n1 Taken s) in
  let s' := flush_open_mirror pid n3 Taken (install_writer conn' resized) in
  sent = true /\ last_sent_size resized = Some (c', r') /\
  wires s' !! conn' = Some (sent_bytes (Framed (open_mirror_frame pid s c r n3))) /\
  last_sent_size s' = Some (c, r) /\
  observer s' = resize_terminal (viewer_size c' r') (resize_terminal (viewer_size c r) (observer s)).
Proof.
  intros Hs Hpid Hn1 Hn2 Hn3 Hc Hr Hc' Hr' Hne Ho Hw Hsh Hsh' Hconn Hwire.
  destruct (frame_written _ (open_mirror_frame_ok pid s c r n1 Hs Hpid Hn1 Hc Hr)) as (b1 & E1 & _).
  destruct (frame_written _ (open_mirror_frame_ok pid s c r n3 Hs Hpid Hn3 Hc Hr)) as (b3 & E3 & ->).
  destruct (frame_written _ (resize_frame_ok pid s c' r' n2 Hs Hpid Hn2 Hc' Hr')) as (b2 & E2 & _).
  unfold open_mirror, send_open_mirror. rewrite Ho.
  rewrite (write_open_mirror_taken pid conn c r n1 _ b1) by done.
  unfold session_resize. simpl. rewrite bool_decide_false by congruence. rewrite Hw.
  unfold write_frame. simpl. rewrite bool_decide_false by done.
  change (resize_frame pid _ c' r' n2) with (resize_frame pid s c' r' n2). rewrite E2.
  unfold flush_open_mirror, send_open_mirror, install_writer. simpl. rewrite Hw.
  rewrite (write_open_mirror_taken pid conn' c r n3 _ b3); [|done|set_solver|done].
  simpl. rewrite lookup_insert_eq, !lookup_insert_ne, Hwire by done. done.
Qed.

Lemma reconnection_asks_for_the_opening_size_witness :
  let s := install_writer 1 sample_session in
  let '(resized, sent) := session_resize 77 100 30 6 Taken (open_mirror 77 120 40 5 Taken s) in
  let s' := flush_open_mirror 77 7 Taken (install_writer 2 resized) in
  sent = true /\ last_sent_size resized = Some (100, 30) /\
  wires s' !! 2 = Some (sent_bytes (Framed (open_mirror_frame 77 s 120 40 7))) /\
  last_sent_size s' = Some (120, 40) /\
  observer s' = resize_terminal (viewer_size 100 30) (resize_terminal (viewer_size 120 40) (observer s)).
Proof.
  intros s.
  apply (reconnection_asks_for_the_opening_size 77 1 2 120 40 100 30 5 6 7 s); done.
Defined.

(** ** The watchdog gives up *)

Fixpoint watchdog_run (pid : Z) (clock : nat -> Z) (w : io) (n : nat) (s : RatatuiRemoteSession) :
    option RatatuiRemoteSession :=
  match n with
  | O => Some s
  | S n =>
      match watchdog_run pid clock w n s with
      | Some s => watchdog_round pid (clock n) w s
      | None => None
      end
  end.

Lemma watchdog_run_S pid clock w n s :
  watchdog_run pid clock w (S n) s =
  match watchdog_run pid clock w n s with
  | Some s => watchdog_round pid (clock n) w s
  | None => None
  end.
Proof. done. Qed.

Lemma send_open_mirror_keeps pid c r now w s :
  let s' := send_open_mirror pid c r now w s in
  opened s' = opened s /\ running s' = running s /\ initial_cols s' = c /\ initial_rows s' = r.
Proof.
  pose proof (write_open_mirror_keeps pid c r now w (set_initial_size c r s)) as H.
  cbv zeta in H |- *. unfold send_open_mirror. by destruct_and!.
Qed.

Lemma write_open_mirror_counts pid c r now w s :
  let s' := write_open_mirror pid c r now w s in
  open_mirror_resends s' = open_mirror_resends s /\
  first_output_received s' = first_output_received s.
Proof. unfold write_open_mirror, write_frame. by repeat case_match; simplify_eq. Qed.

(** A silent peer is asked at most five more times: as long as no output
    comes, the watchdog of an opened session sends one request in each of its
    first five rounds, whether the writes succeed or not, and its thread ends
    in the sixth. *)
Theorem watchdog_ends pid clock w s :
  running s = true -> opened s = true -> first_output_received s = false ->
  open_mirror_resends s = 0 ->
  (forall n, (n <= 5)%nat -> exists s', watchdog_run pid clock w n s = Some s' /\
    open_mirror_resends s' = Z.of_nat n) /\
  (forall n, (5 < n)%nat -> watchdog_run pid clock w n s = None).
Proof.
  intros Hrun Ho Hf Hz.
  assert (Hup : forall n, (n <= 5)%nat -> exists s', watchdog_run pid clock w n s = Some s' /\
    open_mirror_resends s' = Z.of_nat n /\ running s' = true /\ opened s' = true /\
    first_output_received s' = false).
  { induction n as [|n IH]; intros Hn; [by exists s|].
    destruct (IH ltac:(lia)) as (s1 & E & Hc & Hr1 & Ho1 & Hf1). rewrite watchdog_run_S, E.
    unfold watchdog_round, watchdog_action. rewrite Hr1, Ho1, Hf1, Hc. cbn [negb orb].
    rewrite (proj2 (Z.leb_gt _ _)) by (unfold OPEN_MIRROR_WATCHDOG_MAX_RESENDS; lia).
    eexists. split; [done|]. set (s2 := set_open_mirror_resends _ s1).
    destruct (send_open_mirror_keeps pid (initial_cols s2) (initial_rows s2) (clock n) w s2) as (K1 & K2 & _).
    destruct (write_open_mirror_counts pid (initial_cols s2) (initial_rows s2) (clock n) w
                (set_initial_size (initial_cols s2) (initial_rows s2) s2)) as (K3 & K4).
    unfold send_open_mirror in *. rewrite K1, K2, K3, K4. unfold s2. simpl.
    split_and!; [|done..]. unfold wrap. rewrite Z.mod_small by lia. lia. }
  split.
  - intros n Hn. destruct (Hup n Hn) as (s' & E & Hc & _). eauto.
  - intros n Hn. induction Hn as [|n Hn IH]; rewrite watchdog_run_S; [|by rewrite IH].
    destruct (Hup 5%nat ltac:(lia)) as (s' & -> & Hc & Hr & Ho' & Hf').
    unfold watchdog_round, watchdog_action. by rewrite Hr, Ho', Hf', Hc.
Qed.

Lemma watchdog_ends_witness :
  let s := open_mirror 77 120 40 5 Taken (install_writer 1 sample_session) in
  (forall n, (n <= 5)%nat -> exists s', watchdog_run 77 Z.of_nat (Broken 3) n s = Some s' /\
    open_mirror_resends s' = Z.of_nat n) /\
  (forall n, (5 < n)%nat -> watchdog_run 77 Z.of_nat (Broken 3) n s = None).
Proof. intros s. apply (watchdog_ends 77 Z.of_nat (Broken 3) s); vm_compute; reflexivity. Defined.
