(* ===== verification/HostGrid.v ===== *)
(** * Host grid: rendering the emulator's screen

    The screen of a session that runs on this node is kept by the terminal
    emulator of the [alacritty_terminal] crate. Its grid is an argument here:
    what the code reads of it is the record [Grid], with cells as the crate
    has them. Modelled are the functions that turn it into text:
    [alacritty_style_to_text_style], [render_grid_line] and the snapshots of
    [src/ratatui_node/local_session.rs], and [bootstrap_ansi_for_term] of
    [src/ratatui_node/authority_host_io_loop.rs], which draws the screen for
    a viewer that has just attached. *)

From S2P Require Import Prelude Bytes Text Utf8 Ansi.

(** ** The grid *)

Inductive NamedColor :=
| Black | Red | Green | Yellow | Blue | Magenta | Cyan | White
| BrightBlack | BrightRed | BrightGreen | BrightYellow | BrightBlue | BrightMagenta | BrightCyan
| BrightWhite | Foreground | Background | Cursor
| DimBlack | DimRed | DimGreen | DimYellow | DimBlue | DimMagenta | DimCyan | DimWhite
| BrightForeground | DimForeground.

Inductive Color := Named (name : NamedColor) | Spec (r g b : Z) | IndexedColor (index : Z).

Record Cell := mkCell {
  cell_c : char;
  cell_fg : Color;
  cell_bg : Color;
  BOLD : bool; ITALIC : bool; UNDERLINE : bool; INVERSE : bool; DIM : bool; STRIKEOUT : bool;
  WIDE_CHAR_SPACER : bool;
  LEADING_WIDE_CHAR_SPACER : bool }.

(** Lines count from the top of the screen; those of the history are
    negative, the newest being -1. *)
Record Grid := mkGrid {
  screen_lines : Z;
  columns : Z;
  display_offset : Z;
  total_lines : Z;
  cell_at : Z -> Z -> Cell;
  point_line : Z;
  point_column : Z }.

(** ** Styles *)

Definition color_to_value (c : Color) : option ColorValue :=
  match c with
  | Named (Black | DimBlack) => Some (Indexed 0)
  | Named (Red | DimRed) => Some (Indexed 1)
  | Named (Green | DimGreen) => Some (Indexed 2)
  | Named (Yellow | DimYellow) => Some (Indexed 3)
  | Named (Blue | DimBlue) => Some (Indexed 4)
  | Named (Magenta | DimMagenta) => Some (Indexed 5)
  | Named (Cyan | DimCyan) => Some (Indexed 6)
  | Named (White | DimWhite) => Some (Indexed 7)
  | Named BrightBlack => Some (Indexed 8)
  | Named BrightRed => Some (Indexed 9)
  | Named BrightGreen => Some (Indexed 10)
  | Named BrightYellow => Some (Indexed 11)
  | Named BrightBlue => Some (Indexed 12)
  | Named BrightMagenta => Some (Indexed 13)
  | Named BrightCyan => Some (Indexed 14)
  | Named BrightWhite => Some (Indexed 15)
  | Named (Foreground | Background | Cursor | BrightForeground | DimForeground) => None
  | IndexedColor index => Some (Indexed index)
  | Spec r g b => Some (Rgb r g b)
  end.

Definition alacritty_style_to_text_style (cell : Cell) : TextStyle :=
  {| bold := BOLD cell; dim := DIM cell; italic := ITALIC cell; underline := UNDERLINE cell;
     blink := false; inverse := INVERSE cell; strikethrough := STRIKEOUT cell;
     foreground := color_to_value (cell_fg cell); background := color_to_value (cell_bg cell) |}.

(** ** Rows *)

Definition is_spacer (cell : Cell) : bool := WIDE_CHAR_SPACER cell || LEADING_WIDE_CHAR_SPACER cell.

(** The loop of [render_grid_line] from a column on, with the style in force. *)
Fixpoint render_from (active : TextStyle) (cells : list Cell) : text * text :=
  match cells with
  | [] => ([], if decide (active = default_style) then [] else ESC :: lit "[0m")
  | cell :: rest =>
      if is_spacer cell then render_from active rest
      else
        let s := alacritty_style_to_text_style cell in
        let '(plain, styled) := render_from s rest in
        (cell_c cell :: plain,
         (if decide (s = active) then [] else to_ansi s) ++ cell_c cell :: styled)
  end.

Definition grid_row (g : Grid) (line columns : Z) : list Cell :=
  map (cell_at g line) (seqZ 0 columns).

Definition render_grid_line (g : Grid) (line columns : Z) : text * text :=
  render_from default_style (grid_row g line columns).

(** ** Snapshots of a local session *)

(** The line that row [row] of the window shows. *)
Definition shown_line (g : Grid) (row : Z) : Z := row - display_offset g.

Definition history_len (g : Grid) : Z := Z.max 0 (total_lines g - screen_lines g).

Definition screen_rows (g : Grid) : list (text * text) :=
  map (fun row => render_grid_line g (shown_line g row) (columns g)) (seqZ 0 (screen_lines g)).

(** The newest [n] lines of the history, oldest first. *)
Definition history_rows (g : Grid) (n : Z) : list (text * text) :=
  map (fun offset => render_grid_line g (- offset) (columns g)) (rev (seqZ 1 n)).

Definition grid_cursor (g : Grid) : option (Z * Z) :=
  let col := wrap 16 (point_column g) in
  let row := wrap 16 (point_line g + display_offset g) in
  if (row <? wrap 16 (screen_lines g)) && (col <? wrap 16 (columns g)) then Some (col, row) else None.

(** [cursor_visible] is a mode of the emulator. *)
Definition local_snapshot (g : Grid) (cursor_visible : bool) :
    list text * list text * option (Z * Z) * bool :=
  (map fst (screen_rows g), map snd (screen_rows g), grid_cursor g, cursor_visible).

Definition local_history_snapshot (g : Grid) : list text * list text :=
  let rows := history_rows g (history_len g) ++ screen_rows g in
  (map fst rows, map snd rows).

Definition last_visible_text (g : Grid) (n : Z) : text :=
  let start := Z.max 0 (screen_lines g - n) in
  join [10]
    (map (fun row => (render_grid_line g (shown_line g row) (columns g)).1)
       (seqZ start (screen_lines g - start))).

(** ** The bootstrap frame *)

Definition MAX_BOOTSTRAP_HISTORY_LINES : Z := 1000.

Definition history_to_render (g : Grid) : Z := Z.min (history_len g) MAX_BOOTSTRAP_HISTORY_LINES.

(** [ESC [ row ; col H]. *)
Definition move_to (row col : Z) : text :=
  ESC :: lit "[" ++ to_decimal row ++ lit ";" ++ to_decimal col ++ lit "H".

(** The screen is drawn row by row, each at its place. *)
Definition draw_row (g : Grid) (row : Z) : text :=
  move_to (row + 1) 1 ++ (render_grid_line g (shown_line g row) (columns g)).2.

Definition bootstrap_cursor (g : Grid) : text :=
  move_to (wrap 16 (wrap 16 (point_line g + display_offset g) + 1))
    (wrap 16 (wrap 16 (point_column g) + 1)).

Definition bootstrap_text (g : Grid) : text :=
  ESC :: lit "[?25l"
  ++ concat (map (fun row => row.2 ++ [13; 10]) (history_rows g (history_to_render g)))
  ++ ESC :: lit "[2J" ++ ESC :: lit "[H"
  ++ concat (map (draw_row g) (seqZ 0 (screen_lines g)))
  ++ bootstrap_cursor g ++ ESC :: lit "[?25h".

Definition bootstrap_ansi_for_term (g : Grid) : list byte := text_bytes (bootstrap_text g).
