(* ===== verification/Bootstrap.v ===== *)
(** * Bootstrap: what a viewer sees when it attaches

    A viewer that attaches to a session is sent a frame that draws the host's
    screen ([bootstrap_ansi_for_term], in [HostGrid]), and feeds it to its own
    terminal. Here the two are put together: the frame reproduces the screen,
    whatever the viewer's terminal showed before, if that terminal was between
    two sequences and in its initial modes; of the history it reproduces all
    but the newest lines. *)

From S2P Require Import Prelude Bytes Utf8 Ansi Screen ScreenInvariant Terminal TerminalFeed TerminalInvariant TerminalText TerminalDraw HostGrid.

(** ** Rows both terminals lay out alike *)

Abbreviation text_style := alacritty_style_to_text_style.

(** A character the viewer's terminal shows, in a style it can express. *)
Definition visible_cell (cell : Cell) : Prop :=
  is_spacer cell = false /\ scalar (cell_c cell) /\ style_ok (text_style cell).

(** The host's cells of a row, and the cells the viewer's terminal has for the
    same row: a wide character is followed by one spacer, and nothing else is
    skipped. *)
Inductive laid : list Cell -> list ScreenCell -> Prop :=
| laid_nil : laid [] []
| laid_narrow cell rest row : visible_cell cell -> char_display_width (cell_c cell) = 1 ->
    laid rest row -> laid (cell :: rest) (char_cells (text_style cell) (cell_c cell) ++ row)
| laid_wide cell spacer rest row : visible_cell cell -> char_display_width (cell_c cell) = 2 ->
    is_spacer spacer = true -> laid rest row ->
    laid (cell :: spacer :: rest) (char_cells (text_style cell) (cell_c cell) ++ row).

Lemma laid_length cs row : laid cs row -> length row = length cs.
Proof.
  induction 1 as [|cell rest row _ Hw _ IH|cell sp rest row _ Hw _ _ IH]; [done|..];
    rewrite length_app, IH; unfold char_cells; rewrite Hw; simpl; lia.
Qed.

Lemma render_spacer s cell rest : is_spacer cell = true -> render_from s (cell :: rest) = render_from s rest.
Proof. intros H. simpl. by rewrite H. Qed.

Lemma render_visible s cell rest : is_spacer cell = false ->
  render_from s (cell :: rest) =
    (cell_c cell :: (render_from (text_style cell) rest).1,
     ((if decide (text_style cell = s) then [] else to_ansi (text_style cell)) ++ [cell_c cell])
     ++ (render_from (text_style cell) rest).2).
Proof.
  intros H. simpl. rewrite H. destruct (render_from (text_style cell) rest). by rewrite <- app_assoc.
Qed.

(** The viewer renders the row to the text the host renders it to. *)
Lemma laid_renders cs row s : laid cs row ->
  map ch (visible row) = (render_from s cs).1 /\ render_cells s (visible row) = (render_from s cs).2.
Proof.
  intros Hl. revert s.
  assert (Hvis : forall cell row, char_display_width (cell_c cell) <> 0 ->
            visible (char_cells (text_style cell) (cell_c cell) ++ row)
              = {| ch := cell_c cell; style := text_style cell |} :: visible row).
  { intros cell r Hw. unfold visible, char_cells. cbn [app]. rewrite filter_cons, decide_True.
    - f_equal. by destruct (_ =? 2).
    - simpl. intros E. by rewrite E in Hw. }
  induction Hl as [|cell rest row [Hs _] Hw Hl IH|cell sp rest row [Hs _] Hw Hsp Hl IH]; intros s; [done|..];
    rewrite Hvis, (render_visible s cell) by (done || lia); rewrite ?(render_spacer _ sp) by done;
    destruct (IH (text_style cell)) as [IH1 IH2]; cbn [map render_cells fst snd ch style];
    (split; [by rewrite IH1|]); rewrite <- IH2; case_decide as E; rewrite ?E; simpl;
    rewrite <- ?(assoc_L (++)); done.
Qed.

(** ** Drawing a row *)

Lemma drawing_style r dn n s s' b : style_ok s' -> drawing r dn n s b ->
  drawing r dn n s' (set_current_style s' b).
Proof. intros Hs [Hok ? ? ? ?]. constructor; auto with screen. Qed.

Lemma draws_visible m cell r dn n s b : visible_cell cell -> modes_insert m = false ->
  char_display_width (cell_c cell) <> 0 ->
  drawing r dn (length (char_cells (text_style cell) (cell_c cell)) + n) s b ->
  exists b', draws m ((if decide (text_style cell = s) then [] else to_ansi (text_style cell)) ++ [cell_c cell]) b b' /\
    drawing r (dn ++ char_cells (text_style cell) (cell_c cell)) n (text_style cell) b' /\
    screen_frame b' = screen_frame b /\
    cells b' = <[r := (dn ++ char_cells (text_style cell) (cell_c cell)) ++ replicate n blank_cell]> (cells b).
Proof.
  intros (Hsp & Hsc & Hst) Hi Hw Hd. case_decide as E.
  - rewrite E in *. destruct (put_char_drawing m _ _ _ _ _ _ Hd Hw Hi) as (b' & Hb & Hd' & Hf & Hc).
    exists b'. split; [|done]. by apply (draws_char m _ b b').
  - apply (drawing_style _ _ _ _ _ _ Hst) in Hd.
    destruct (put_char_drawing m _ _ _ _ _ _ Hd Hw Hi) as (b' & Hb & Hd' & Hf & Hc).
    exists b'. split; [|done]. eapply draws_app; [by apply draws_style|]. by apply draws_char.
Qed.

(** The end of a row returns to the default style. *)
Lemma draws_row_end m s b :
  draws m (if decide (s = default_style) then [] else ESC :: lit "[0m") b
    (if decide (s = default_style) then b else set_current_style default_style b).
Proof.
  case_decide; [apply draws_nil|]. change (ESC :: lit "[0m") with (to_ansi default_style).
  by apply draws_style.
Qed.

Lemma draws_laid cs row : laid cs row -> forall m r dn n s b, modes_insert m = false ->
  drawing r dn (length row + n) s b ->
  exists b', draws m (render_from s cs).2 b b' /\ drawing r (dn ++ row) n default_style b' /\
    screen_frame b' = screen_frame b /\ cells b' = <[r := (dn ++ row) ++ replicate n blank_cell]> (cells b).
Proof.
  induction 1 as [|cell rest row Hv Hw Hl IH|cell sp rest row Hv Hw Hsp Hl IH]; intros m r dn n s b Hi Hd.
  - eexists. split; [apply draws_row_end|]. rewrite app_nil_r. pose proof Hd as [_ Hr _ _ Hst].
    case_decide as E; (split; [|split; [done|by rewrite list_insert_id]]).
    + by rewrite E in Hd.
    + by apply (drawing_style _ _ _ s).
  - rewrite length_app, <- Nat.add_assoc in Hd. rewrite render_visible by apply Hv.
    destruct (draws_visible m cell _ _ _ _ _ Hv Hi ltac:(lia) Hd) as (b1 & D1 & Hd1 & Hf1 & Hc1).
    destruct (IH m _ _ _ _ _ Hi Hd1) as (b2 & D2 & Hd2 & Hf2 & Hc2). exists b2.
    rewrite (assoc_L (++)). split; [by eapply draws_app|]. split; [done|]. split; [congruence|].
    by rewrite Hc2, Hc1, list_insert_insert_eq.
  - rewrite length_app, <- Nat.add_assoc in Hd. rewrite render_visible, render_spacer by (done || apply Hv).
    destruct (draws_visible m cell _ _ _ _ _ Hv Hi ltac:(lia) Hd) as (b1 & D1 & Hd1 & Hf1 & Hc1).
    destruct (IH m _ _ _ _ _ Hi Hd1) as (b2 & D2 & Hd2 & Hf2 & Hc2). exists b2.
    rewrite (assoc_L (++)). split; [by eapply draws_app|]. split; [done|]. split; [congruence|].
    by rewrite Hc2, Hc1, list_insert_insert_eq.
Qed.

(** A cell of the history: a spacer, a character the viewer's terminal shows, or
    the tab the host's emulator leaves in the cell where a tab was printed. *)
Definition history_cell (cell : Cell) : Prop :=
  is_spacer cell = true \/
  (is_spacer cell = false /\ style_ok (text_style cell) /\
   (scalar (cell_c cell) /\ char_display_width (cell_c cell) <> 0 \/ cell_c cell = 9)).

Lemma laid_history cs row : laid cs row -> Forall history_cell cs.
Proof.
  assert (Hv : forall cell w, visible_cell cell -> char_display_width (cell_c cell) = w -> w <> 0 -> history_cell cell).
  { intros cell w (? & ? & ?) Hw Hn. right. split_and!; [done|done|]. left. split; [done|congruence]. }
  induction 1 as [|cell rest row Hc Hw Hl IH|cell sp rest row Hc Hw Hsp Hl IH]; [constructor|..].
  - constructor; [by eapply Hv|done].
  - constructor; [by eapply Hv|]. constructor; [by left|done].
Qed.

Lemma draws_tab m b b' : tab b = Ok b' -> draws m [9] b b'.
Proof.
  intros Hl e Hr _ <-. eapply runs_control; [done|lia|done|done| |by apply set_active_stream].
  unfold on_active. by rewrite Hl.
Qed.

Lemma tab_style b b' : tab b = Ok b' -> current_style b' = current_style b.
Proof.
  unfold tab, u16. intros E. destruct (_ =? 0); [by injection E as <-|]. cbv zeta in E. destruct (_ && _); [|done].
  by injection E as <-.
Qed.

(** Wherever the cursor is, a cell is printed somehow. *)
Lemma draws_cell m c b : buffer_ok b -> scalar c /\ char_display_width c <> 0 \/ c = 9 ->
  exists b', draws m [c] b b' /\ buffer_ok b' /\ size b' = size b /\ current_style b' = current_style b.
Proof.
  intros Hok [[Hsc Hw]|Ht].
  - destruct (put_char_kept b c m Hok) as (b' & Hb & ? & ?). exists b'.
    split_and!; [by apply (draws_char m _ b b')|done|done|by apply put_char_style in Hb].
  - subst c. destruct (tab_kept b Hok) as (b' & Hb & ? & ?). exists b'.
    split_and!; [by apply draws_tab|done|done|by apply tab_style].
Qed.

Lemma draws_anywhere cs : Forall history_cell cs -> forall m s b, buffer_ok b -> current_style b = s ->
  exists b', draws m (render_from s cs).2 b b' /\ buffer_ok b' /\ size b' = size b /\
    current_style b' = default_style.
Proof.
  induction 1 as [|cell cs Hcell Hcs IH]; intros m s b Hok Hs.
  { eexists. split; [apply draws_row_end|]. case_decide; split_and!; auto with screen; congruence. }
  destruct Hcell as [Hsp|(Hsp & Hst & Hc)]; [rewrite render_spacer by done; by apply IH|].
  rewrite render_visible by done. cbn [snd].
  set (b0 := if decide (text_style cell = s) then b else set_current_style (text_style cell) b).
  assert (H0 : draws m (if decide (text_style cell = s) then [] else to_ansi (text_style cell)) b b0 /\ buffer_ok b0 /\
    size b0 = size b /\ current_style b0 = text_style cell).
  { unfold b0. case_decide as E; [split_and!; [apply draws_nil|done|done|congruence]|].
    split_and!; [by apply draws_style|auto with screen|done|done]. }
  destruct H0 as (D0 & Hok0 & Hz0 & Hs0).
  destruct (draws_cell m (cell_c cell) b0 Hok0 Hc) as (b1 & D1 & Hok1 & Hz1 & Hs1).
  destruct (IH m (text_style cell) b1 Hok1) as (b2 & D2 & Hok2 & Hz2 & Hs2); [congruence|].
  exists b2. split_and!; [|done|congruence|done]. eapply draws_app; [by eapply draws_app|exact D2].
Qed.

(** Lines as they are printed for the history. *)
Definition line_texts (css : list (list Cell)) : text :=
  concat (map (fun cs => (render_from default_style cs).2 ++ [13; 10]) css).

Lemma draws_line_end m b : buffer_ok b ->
  exists b', draws m [13; 10] b b' /\ line_feed (carriage_return b) = Ok b' /\ buffer_ok b' /\
    size b' = size b /\ current_style b' = current_style b.
Proof.
  intros Hok. destruct (line_feed_kept' (carriage_return b)) as (b' & Hb & ? & ?).
  { by apply carriage_return_ok. }
  exists b'. split; [|split_and!; [done|done|done|by apply line_feed_style in Hb]].
  apply (draws_app m [13] [10] b (carriage_return b) b'); [apply draws_cr|by apply draws_lf].
Qed.

Lemma draws_lines_anywhere m css : Forall (Forall history_cell) css -> forall b,
  buffer_ok b -> current_style b = default_style ->
  exists b', draws m (line_texts css) b b' /\ buffer_ok b' /\ size b' = size b /\
    current_style b' = default_style.
Proof.
  induction 1 as [|cs css Hl _ IH]; intros b Hok Hs.
  - exists b. split; [apply draws_nil|done].
  - destruct (draws_anywhere _ Hl m _ b Hok Hs) as (b1 & D1 & Hok1 & Hz1 & Hs1).
    destruct (draws_line_end m b1 Hok1) as (b2 & D2 & _ & Hok2 & Hz2 & Hs2).
    destruct (IH b2 Hok2) as (b3 & D3 & Hok3 & Hz3 & Hs3); [congruence|].
    exists b3. split; [|split_and!; [done|congruence|done]]. unfold line_texts. cbn [map concat].
    eapply draws_app; [by eapply draws_app|exact D3].
Qed.

(** ** Drawing the screen *)

Lemma move_to_text r c : move_to r c = ESC :: 91 :: (to_decimal r ++ 59 :: to_decimal c) ++ [72].
Proof. unfold move_to. simpl. by rewrite <- (assoc_L (++)). Qed.

Lemma length_grid_row g line cols : length (grid_row g line cols) = Z.to_nat cols.
Proof. unfold grid_row. by rewrite length_map, length_seqZ. Qed.

(** Cursor movements stay inside the grid. *)
Lemma move_cursor_inside b r c : buffer_ok b -> 0 <= r < rows (size b) -> 0 <= c < cols (size b) ->
  move_cursor_to r c false b = set_pending_wrap false (set_cursor_col c (set_cursor_row r b)).
Proof.
  intros Hok Hr Hc. unfold move_cursor_to, clamp_origin_row, max_row, max_col, buf_rows, buf_cols, sat_sub.
  by rewrite !Z.min_l by lia.
Qed.

Section screen.
Context (g : Grid) (m : WriteModes).
Hypothesis (Hinsert : modes_insert m = false).

(** One row, at its place on a screen that is blank from there on. *)
Lemma draws_screen_row b k above n row :
  buffer_ok b -> current_style b = default_style -> cols (size b) = columns g ->
  cells b = above ++ replicate (S n) (blank_row_with_style (columns g) default_style) ->
  k = len above -> laid (grid_row g (shown_line g k) (columns g)) row ->
  exists b', draws m (draw_row g k) b b' /\ buffer_ok b' /\ screen_frame b' = screen_frame b /\
    current_style b' = default_style /\
    cells b' = (above ++ [row]) ++ replicate n (blank_row_with_style (columns g) default_style).
Proof.
  intros Hok Hs Hw Hc -> Hl. destruct (ok_size b Hok) as [Hr Hcl]. pose proof (ok_grid b Hok) as [Hg _].
  assert (Hk : 0 <= len above < rows (size b)).
  { rewrite Hc, len_app in Hg. unfold len in *. rewrite length_replicate in Hg. lia. }
  set (b1 := set_pending_wrap false (set_cursor_col 0 (set_cursor_row (len above) b))).
  assert (Hok1 : buffer_ok b1).
  { apply ok_set_pending_wrap, ok_set_cursor_col; [by apply ok_set_cursor_row|simpl; lia]. }
  assert (Hlen : (length row + 0)%nat = Z.to_nat (columns g)).
  { rewrite (laid_length _ _ Hl), length_grid_row. lia. }
  assert (Hd : drawing (length above) [] (length row + 0) default_style b1).
  { constructor; [done| |done|done|done]. unfold b1. cbn [cells set_pending_wrap set_cursor_col set_cursor_row].
    rewrite Hc, lookup_app_r by lia. rewrite Nat.sub_diag. simpl. unfold blank_row_with_style. by rewrite Hlen. }
  destruct (draws_laid _ _ Hl m _ _ _ _ _ Hinsert Hd) as (b2 & D2 & Hd2 & Hf2 & Hc2).
  exists b2. split; [|split_and!; [apply Hd2|done|apply Hd2|]].
  - unfold draw_row. eapply draws_app; [|exact D2]. rewrite move_to_text.
    replace b1 with (move_cursor_to (len above + 1 - 1) (1 - 1) false b).
    + apply draws_move; lia.
    + rewrite move_cursor_inside by (done || lia). unfold b1. do 2 f_equal. f_equal; lia.
  - rewrite Hc2. unfold b1. cbn [cells set_pending_wrap set_cursor_col set_cursor_row]. rewrite Hc.
    rewrite app_nil_r. cbn [app replicate].
    replace (length above) with (length above + 0)%nat by lia. rewrite insert_app_r. cbn.
    by rewrite <- (assoc_L (++)).
Qed.

Lemma draws_screen_rows rows_ b k above :
  buffer_ok b -> current_style b = default_style -> cols (size b) = columns g ->
  cells b = above ++ replicate (length rows_) (blank_row_with_style (columns g) default_style) ->
  k = len above ->
  Forall2 (fun i row => laid (grid_row g (shown_line g i) (columns g)) row) (seqZ k (len rows_)) rows_ ->
  exists b', draws m (concat (map (draw_row g) (seqZ k (len rows_)))) b b' /\ buffer_ok b' /\
    screen_frame b' = screen_frame b /\ current_style b' = default_style /\ cells b' = above ++ rows_.
Proof.
  revert b k above. induction rows_ as [|row rows_ IH]; intros b k above Hok Hs Hw Hc Hk Hl.
  - exists b. split; [apply draws_nil|]. by rewrite Hc.
  - assert (Hseq : seqZ k (len (row :: rows_)) = k :: seqZ (k + 1) (len rows_)).
    { unfold len. rewrite seqZ_cons by (simpl; lia). f_equal. f_equal; simpl; lia. }
    rewrite Hseq in Hl |- *. apply Forall2_cons in Hl as [Hl Hls].
    destruct (draws_screen_row b k above _ row Hok Hs Hw Hc Hk Hl) as (b1 & D1 & Hok1 & Hf1 & Hs1 & Hc1).
    assert (Hsz : size b1 = size b) by (unfold screen_frame in Hf1; congruence).
    destruct (IH b1 (k + 1) (above ++ [row])) as (b2 & D2 & Hok2 & Hf2 & Hs2 & Hc2); try done.
    + by rewrite Hsz.
    + by rewrite len_app, Hk.
    + exists b2. split; [cbn [map concat]; by eapply draws_app|]. split_and!; [done|congruence|done|].
      by rewrite Hc2, <- (assoc_L (++)).
Qed.

(** Clearing the screen and drawing all rows. *)
Lemma draws_screen b rows_ : buffer_ok b -> current_style b = default_style ->
  cols (size b) = columns g -> rows (size b) = screen_lines g -> len rows_ = screen_lines g ->
  Forall2 (fun i row => laid (grid_row g (shown_line g i) (columns g)) row)
    (seqZ 0 (screen_lines g)) rows_ ->
  exists b', draws m (ESC :: lit "[2J" ++ ESC :: lit "[H" ++ concat (map (draw_row g) (seqZ 0 (screen_lines g)))) b b'
    /\ buffer_ok b' /\ screen_frame b' = screen_frame b /\ current_style b' = default_style /\ cells b' = rows_.
Proof.
  intros Hok Hs Hw Hh Hlen Hl. destruct (clear_screen_kept b 2 Hok) as (b1 & Hb1 & Hok1 & Hz1).
  pose proof Hb1 as E. unfold clear_screen in E. rewrite no_rows_ok in E by done. injection E as E.
  pose proof (ok_size b Hok) as [??].
  set (b2 := move_cursor_to 0 0 false b1).
  assert (Hok2 : buffer_ok b2) by (by apply move_cursor_to_ok).
  assert (Hc2 : cells b2 = replicate (length rows_) (blank_row_with_style (columns g) default_style)).
  { subst b1. unfold b2. simpl. unfold blank_cells_with_style. rewrite Hs, Hw, Hh, <- Hlen. f_equal. unfold len. lia. }
  destruct (draws_screen_rows rows_ b2 0 []) as (b3 & D3 & Hok3 & Hf3 & Hs3 & Hc3); try done.
  - by subst b1.
  - by subst b1.
  - by rewrite Hlen.
  - exists b3. rewrite Hlen in D3. split_and!; [|done| |done|done].
    + change (ESC :: lit "[2J" ++ ESC :: lit "[H" ++ concat (map (draw_row g) (seqZ 0 (screen_lines g))))
        with ((ESC :: lit "[2J") ++ (ESC :: lit "[H") ++ concat (map (draw_row g) (seqZ 0 (screen_lines g)))).
      eapply draws_app; [by apply draws_clear|]. eapply draws_app; [apply draws_home|exact D3].
    + rewrite Hf3. by subst b1.
Qed.
End screen.

(** ** The frame *)

(** The grid has the size of the viewer's terminal, rows on the screen that
    both lay out alike, a history of cells that can be printed, and the cursor
    on the screen. *)
Record grid_fits (g : Grid) (sz : TerminalSize) : Prop := {
  gf_size : size_ok sz;
  gf_rows : screen_lines g = rows sz;
  gf_cols : columns g = cols sz;
  gf_screen : forall i, 0 <= i < screen_lines g ->
    exists row, laid (grid_row g (shown_line g i) (columns g)) row;
  gf_history : forall k, 1 <= k <= history_to_render g -> Forall history_cell (grid_row g (- k) (columns g));
  gf_cursor : 0 <= point_line g + display_offset g < screen_lines g /\ 0 <= point_column g < columns g
}.

(** The lines of the history that are sent, oldest first. *)
Definition sent_history (g : Grid) : list (list Cell) :=
  map (fun k => grid_row g (- k) (columns g)) (rev (seqZ 1 (history_to_render g))).

Lemma history_texts g : concat (map (fun row => row.2 ++ [13; 10]) (history_rows g (history_to_render g)))
  = line_texts (sent_history g).
Proof. unfold line_texts, sent_history, history_rows, render_grid_line. by rewrite !map_map. Qed.

Lemma sent_history_all (P : list Cell -> Prop) g :
  (forall k, 1 <= k <= history_to_render g -> P (grid_row g (- k) (columns g))) -> Forall P (sent_history g).
Proof.
  intros Hg. unfold sent_history. apply Forall_map, Forall_forall. intros k Hk.
  apply Hg. rewrite list_elem_of_In, <- in_rev, <- list_elem_of_In, elem_of_seqZ in Hk. lia.
Qed.

(** The rows the viewer's terminal will have. *)
Lemma screen_targets g sz : grid_fits g sz ->
  exists rows_, len rows_ = screen_lines g /\
    Forall2 (fun i row => laid (grid_row g (shown_line g i) (columns g)) row) (seqZ 0 (screen_lines g)) rows_.
Proof.
  intros Hg. pose proof (gf_size _ _ Hg) as [Hr _]. pose proof (gf_rows _ _ Hg) as Hrows.
  assert (Hex : Forall (fun i => exists row, laid (grid_row g (shown_line g i) (columns g)) row)
                  (seqZ 0 (screen_lines g))).
  { apply Forall_forall. intros i Hi. apply (gf_screen _ _ Hg). rewrite elem_of_seqZ in Hi. lia. }
  apply Forall_exists_Forall2_l in Hex as [rows_ Hf]. exists rows_. split; [|done].
  apply Forall2_length in Hf. rewrite length_seqZ in Hf. unfold len. lia.
Qed.

Lemma set_visible_active v b e : set_active b (set_cursor_visible v e) = set_cursor_visible v (set_active b e).
Proof. unfold set_active. simpl. by destruct (alternate_screen_active e). Qed.

(** The frame after its history has been printed from the buffer it found. *)
Lemma bootstrap_runs g sz e b1 rows_ : grid_fits g sz -> ready e ->
  draws (write_modes e) (line_texts (sent_history g)) (active_buffer e) b1 ->
  buffer_ok b1 -> size b1 = sz -> current_style b1 = default_style -> len rows_ = screen_lines g ->
  Forall2 (fun i row => laid (grid_row g (shown_line g i) (columns g)) row) (seqZ 0 (screen_lines g)) rows_ ->
  exists b, feed_and_collect_replies (bootstrap_ansi_for_term g) e
              = Ok (set_cursor_visible true (set_active b e), []) /\
    cells b = rows_ /\ screen_frame b = screen_frame b1 /\ current_style b = default_style /\ pending_wrap b = false /\
    cursor_row b = point_line g + display_offset g /\ cursor_col b = point_column g.
Proof.
  intros Hg He D1 Hok1 Hz Hs Hlen Hl. destruct (gf_cursor _ _ Hg) as [Hpr Hpc].
  pose proof (gf_size _ _ Hg) as [??]. pose proof (gf_rows _ _ Hg). pose proof (gf_cols _ _ Hg).
  destruct (draws_screen g (write_modes e) (ready_insert e He) b1 rows_) as (b2 & D2 & Hok2 & Hf2 & Hs2 & Hc2);
    try done; [congruence|congruence|].
  assert (Hz2 : size b2 = sz) by (unfold screen_frame in Hf2; congruence).
  set (r := point_line g + display_offset g) in *.
  assert (D3 : draws (write_modes e) (bootstrap_cursor g) b2 (move_cursor_to (r + 1 - 1) (point_column g + 1 - 1) false b2)).
  { unfold bootstrap_cursor, wrap. fold r. rewrite !Z.mod_small by (rewrite ?Z.mod_small; lia).
    rewrite move_to_text. apply draws_move; lia. }
  rewrite move_cursor_inside in D3 by (done || (rewrite Hz2; lia)).
  set (b3 := set_pending_wrap false _) in D3.
  exists b3. split; [|unfold b3; simpl; split_and!; [done|done|done|done|lia|lia]].
  pose proof (draws_app _ _ _ _ _ _ D1 (draws_app _ _ _ _ _ _ D2 D3)) as D.
  set (e1 := set_cursor_visible false e). assert (He1 : ready e1) by (by destruct He; constructor).
  specialize (D e1 He1 eq_refl eq_refl).
  pose proof (runs_cursor false e He) as R1. fold e1 in R1.
  pose proof (runs_cursor true (set_active b3 e1) (ready_set_active _ _ He1)) as R3.
  pose proof (runs_app _ _ _ _ _ He R1 (runs_app _ _ _ _ _ He1 D R3)) as R.
  unfold bootstrap_ansi_for_term, bootstrap_text, runs_to in *.
  rewrite history_texts. unfold e1 in R. rewrite set_visible_active in R.
  rewrite <- !(assoc_L (++)) in R. exact R.
Qed.

Lemma laid_rows_render g rows_ (f : Z -> Z) ks :
  Forall2 (fun i row => laid (grid_row g (f i) (columns g)) row) ks rows_ ->
  map render_plain_row rows_ = map (fun i => (render_grid_line g (f i) (columns g)).1) ks /\
  map render_styled_row rows_ = map (fun i => (render_grid_line g (f i) (columns g)).2) ks.
Proof.
  induction 1 as [|i row ks rows_ Hl _ [IH1 IH2]]; [done|].
  destruct (laid_renders _ _ default_style Hl) as [H1 H2]. cbn [map]. rewrite IH1, IH2.
  split; f_equal; done.
Qed.

(** C16. A viewer that attaches sees the host's screen: when the host's grid has
    the size of the viewer's terminal, and that terminal is between two
    sequences, in its initial modes and style, feeding it the bootstrap frame
    makes it show, whatever it showed before, exactly the lines, the styles
    and the cursor of the host's own snapshot. Nothing is answered, and no
    mode but the visibility of the cursor is changed. Every row on the screen
    must be made of printable characters with each wide one followed by its one
    spacer: rows with a stored tab, or with the spacer of a wide character that
    went to the next line, are not reproduced ([stored_tab_shifts_the_row],
    [leading_spacer_becomes_a_blank]). The history that is sent first may have
    any printable characters, spacers and tabs. *)
Theorem bootstrap_redraws_the_screen g sz e : grid_fits g sz -> engine_ok sz e -> ready e ->
  current_style (active_buffer e) = default_style ->
  exists b, let e' := set_cursor_visible true (set_active b e) in
    feed_and_collect_replies (bootstrap_ansi_for_term g) e = Ok (e', []) /\
    let s := engine_snapshot e' in
    (lines s, styled_lines s, Some (snap_cursor_col s, snap_cursor_row s), snap_cursor_visible s)
      = local_snapshot g true /\
    current_style b = default_style /\ pending_wrap b = false.
Proof.
  intros Hg He Hr Hs. destruct (active_ok sz e He) as [Hok Hz].
  destruct (draws_lines_anywhere (write_modes e) _ (sent_history_all _ g (gf_history _ _ Hg)) _ Hok Hs)
    as (b1 & D1 & Hok1 & Hz1 & Hs1).
  destruct (screen_targets g sz Hg) as (rows_ & Hlen & Hl).
  destruct (bootstrap_runs g sz e b1 rows_ Hg Hr D1 Hok1) as (b & Hfeed & Hc & _ & Hst & Hpw & Hcr & Hcc);
    try done; [congruence|].
  exists b. cbv zeta. split; [exact Hfeed|]. split; [|done]. unfold engine_snapshot.
  change (active_buffer (set_cursor_visible true (set_active b e))) with (active_buffer (set_active b e)).
  rewrite active_set_active. simpl.
  destruct (laid_rows_render g rows_ (shown_line g) _ Hl) as [Hp Hsty]. rewrite Hc, Hp, Hsty, Hcr, Hcc.
  destruct (gf_cursor _ _ Hg) as [Hpr Hpc]. pose proof (gf_size _ _ Hg) as [??].
  pose proof (gf_rows _ _ Hg). pose proof (gf_cols _ _ Hg).
  unfold local_snapshot, screen_rows, grid_cursor, wrap. rewrite !map_map, !Z.mod_small by lia.
  rewrite !(proj2 (Z.ltb_lt _ _)) by lia. done.
Qed.

(** A grid of two rows and three lines of history, each with a wide character
    in bold red and a plain one. *)
Definition sample_cell (c : char) (bold_red spacer : bool) : Cell :=
  mkCell c (Named (if bold_red then Red else Foreground)) (Named Background) bold_red false false
    false false false spacer false.

Definition sample_grid : Grid :=
  mkGrid 2 3 0 5
    (fun _ col => if col =? 0 then sample_cell 0x4E2D true false
                  else if col =? 1 then sample_cell 32 true true else sample_cell 97 false false) 1 2.

Definition sample_size : TerminalSize := {| rows := 2; cols := 3; pixel_width := 0; pixel_height := 0 |}.

Lemma sample_laid line : exists row, laid (grid_row sample_grid line 3) row.
Proof.
  eexists. change (grid_row sample_grid line 3)
    with [sample_cell 0x4E2D true false; sample_cell 32 true true; sample_cell 97 false false].
  apply laid_wide; [|done|done|apply laid_narrow; [|done|apply laid_nil]];
    (split; [done|]); (split; [unfold scalar; simpl; lia|]); split; simpl; unfold fits; try done; lia.
Qed.

Lemma sample_fits : grid_fits sample_grid sample_size.
Proof.
  split; [split; simpl; lia|done|done|intros i _; apply sample_laid| |].
  { intros k _. destruct (sample_laid (- k)) as [row Hl]. by eapply laid_history. }
  simpl. lia.
Qed.

Lemma bootstrap_redraws_the_screen_witness :
  let e := terminal_new sample_size in
  exists b, let e' := set_cursor_visible true (set_active b e) in
    feed_and_collect_replies (bootstrap_ansi_for_term sample_grid) e = Ok (e', []) /\
    let s := engine_snapshot e' in
    (lines s, styled_lines s, Some (snap_cursor_col s, snap_cursor_row s), snap_cursor_visible s)
      = local_snapshot sample_grid true /\
    current_style b = default_style /\ pending_wrap b = false.
Proof.
  apply (bootstrap_redraws_the_screen sample_grid sample_size (terminal_new sample_size)).
  - exact sample_fits.
  - apply terminal_new_ok. split; simpl; lia.
  - by repeat split.
  - done.
Defined.

(** ** The history *)

(** What a new terminal of [R] rows holds when the lines [hs] were printed. *)
Record printed_history (sz : TerminalSize) (hs : list (list ScreenCell)) (b : ScreenBuffer) : Prop := {
  ph_ok : buffer_ok b;
  ph_size : size b = sz;
  ph_cells : let k := (length hs - pred (Z.to_nat (rows sz)))%nat in
    cells b = drop k hs ++ replicate (Z.to_nat (rows sz) - (length hs - k))
                             (blank_row_with_style (cols sz) default_style);
  ph_cursor : cursor_row b = len hs - Z.of_nat (length hs - pred (Z.to_nat (rows sz))) /\ cursor_col b = 0;
  ph_fields : kept_fields b = (default_style, (0, rows sz - 1), false);
  ph_scrollback : styled_scrollback b
    = map render_styled_row (take (length hs - pred (Z.to_nat (rows sz))) hs)
}.

Lemma printed_history_new sz : size_ok sz -> printed_history sz [] (buffer_new sz).
Proof.
  intros Hs. pose proof Hs as [??]. constructor; try done.
  - by apply buffer_new_ok.
  - simpl. rewrite Nat.sub_0_r. done.
  - unfold kept_fields. simpl. unfold sat_sub. rewrite Z.max_r by lia. done.
Qed.

(** The buffer after a row is printed and before the line ends. *)
Lemma history_row_drawn m sz hs b cs row : printed_history sz hs b -> modes_insert m = false ->
  laid cs row -> length row = Z.to_nat (cols sz) ->
  let k := (length hs - pred (Z.to_nat (rows sz)))%nat in
  let r := (length hs - k)%nat in
  exists b', draws m (render_from default_style cs).2 b b' /\ buffer_ok b' /\ screen_frame b' = screen_frame b /\
    cursor_row b' = Z.of_nat r /\ current_style b' = default_style /\
    cells b' = drop k hs ++ row :: replicate (Z.to_nat (rows sz) - S r)
                                     (blank_row_with_style (cols sz) default_style).
Proof.
  intros [Hok Hsz Hc [Hcr Hcc] Hf _] Hi Hl Hlen k r. cbv zeta in Hc. fold k r in Hc. fold k in Hcr.
  pose proof (ok_size b Hok) as [??]. rewrite Hsz in *.
  unfold kept_fields in Hf. injection Hf as Hst Hregion Hpw.
  assert (Hr : length (drop k hs) = r) by (rewrite length_drop; lia).
  assert (Hd : drawing r [] (length row + 0) default_style b).
  { constructor; [done| |unfold len in Hcr; lia|done|done].
    rewrite Hc, lookup_app_r by lia. rewrite Hr, Nat.sub_diag.
    replace (Z.to_nat (rows sz) - r)%nat with (S (Z.to_nat (rows sz) - S r)) by lia.
    simpl. unfold blank_row_with_style. by rewrite Nat.add_0_r, Hlen. }
  destruct (draws_laid _ _ Hl m _ _ _ _ _ Hi Hd) as (b' & D & Hd' & Hfr & Hc').
  exists b'. split; [exact D|]. split_and!; try apply Hd'; [done|].
  rewrite Hc', Hc. cbn [app]. rewrite app_nil_r, <- Hr.
  replace (Z.to_nat (rows sz) - length (drop k hs))%nat with (S (Z.to_nat (rows sz) - S r)) by lia.
  replace (length (drop k hs)) with (length (drop k hs) + 0)%nat at 1 by lia.
  rewrite insert_app_r. cbn. by rewrite Hr.
Qed.

(** The line ends above the last row. *)
Lemma line_feed_above b b' : line_feed b = Ok b' -> buf_rows b <> 0 -> cursor_row b < scroll_bottom b ->
  cells b' = cells b /\ cursor_row b' = cursor_row b + 1 /\ cursor_col b' = cursor_col b /\
  styled_scrollback b' = styled_scrollback b.
Proof.
  unfold line_feed. intros H Hr Hc. rewrite (proj2 (Z.eqb_neq _ 0) Hr) in H. cbv zeta in H.
  cbn [scroll_bottom cursor_row set_pending_wrap] in H. rewrite (proj2 (Z.leb_gt _ _)) in H by done.
  unfold u16 in H. destruct (_ && _); [|done]. by injection H as <-.
Qed.

(** The line ends above the last row, and the history is as it was. *)
Lemma history_line_below sz hs row b1 b2 :
  (length hs < pred (Z.to_nat (rows sz)))%nat -> buffer_ok b2 -> size b2 = sz ->
  kept_fields b2 = (default_style, (0, rows sz - 1), false) ->
  cells b1 = hs ++ row :: replicate (Z.to_nat (rows sz) - S (length hs))
                            (blank_row_with_style (cols sz) default_style) ->
  cursor_row b1 = len hs -> styled_scrollback b1 = [] ->
  cells b2 = cells b1 -> cursor_row b2 = cursor_row b1 + 1 -> cursor_col b2 = 0 ->
  styled_scrollback b2 = styled_scrollback b1 -> printed_history sz (hs ++ [row]) b2.
Proof.
  intros Hlt Hok Hz Hf Hc1 Hcr1 Hsb1 Hc2 Hcr2 Hcc2 Hsb2.
  assert (Hk : (length (hs ++ [row]) - pred (Z.to_nat (rows sz)) = 0)%nat) by (rewrite length_app; simpl; lia).
  constructor; [done|done| | |done|]; rewrite ?Hk.
  - cbv zeta. rewrite Hc2, Hc1, drop_0, <- (assoc_L (++)), length_app. simpl. do 3 f_equal. lia.
  - rewrite Hcr2, Hcr1, len_app. unfold len. simpl. split; [lia|done].
  - by rewrite Hsb2, Hsb1.
Qed.

(** The line ends on the last row, and the top row enters the history. *)
Lemma history_line_scrolls sz hs row b1 b2 top rest :
  let k := (length hs - pred (Z.to_nat (rows sz)))%nat in
  (pred (Z.to_nat (rows sz)) <= length hs)%nat -> len hs < MAX_SCROLLBACK_LINES -> 1 <= rows sz ->
  buffer_ok b2 -> size b2 = sz -> kept_fields b2 = (default_style, (0, rows sz - 1), false) ->
  drop k hs ++ [row] = top :: rest ->
  cells b2 = rest ++ [blank_row_with_style (cols sz) default_style] ->
  cursor_row b2 = rows sz - 1 -> cursor_col b2 = 0 ->
  styled_scrollback b1 = map render_styled_row (take k hs) ->
  styled_scrollback b2 = (let history := styled_scrollback b1 ++ [render_styled_row top] in
                          drop (Z.to_nat (len history - MAX_SCROLLBACK_LINES)) history) ->
  printed_history sz (hs ++ [row]) b2.
Proof.
  intros k Hge Hmax Hr Hok Hz Hf Hcells Hc2 Hcr2 Hcc2 Hsb1 Hsb2.
  assert (Hall : drop k (hs ++ [row]) = top :: rest) by (by rewrite drop_app_le by lia).
  assert (Hk : (length (hs ++ [row]) - pred (Z.to_nat (rows sz)) = S k)%nat) by (rewrite length_app; simpl; lia).
  constructor; [done|done| | |done|]; rewrite ?Hk.
  - cbv zeta. replace (S k) with (k + 1)%nat by lia. rewrite <- drop_drop, Hall, Hc2, length_app. simpl.
    replace (Z.to_nat (rows sz) - (length hs + 1 - (k + 1)))%nat with 1%nat by lia. done.
  - rewrite Hcr2, len_app. unfold len. simpl. split; [lia|done].
  - rewrite Hsb2, Hsb1. cbv zeta.
    assert (Htop : (hs ++ [row]) !! k = Some top) by (rewrite <- (Nat.add_0_r k), <- lookup_drop, Hall; done).
    rewrite (take_S_r _ _ _ Htop), map_app, take_app_le by lia.
    replace (Z.to_nat _) with 0%nat; [done|]. unfold len in *. rewrite length_app, length_map, length_take. simpl. lia.
Qed.

Lemma printed_history_line m sz hs b cs row : printed_history sz hs b -> modes_insert m = false ->
  laid cs row -> length row = Z.to_nat (cols sz) -> len hs < MAX_SCROLLBACK_LINES ->
  exists b', draws m ((render_from default_style cs).2 ++ [13; 10]) b b' /\ printed_history sz (hs ++ [row]) b'.
Proof.
  intros Hph Hi Hl Hlen Hmax. pose proof Hph as [Hok Hsz _ _ Hf Hsb].
  destruct (history_row_drawn m sz hs b cs row Hph Hi Hl Hlen) as (b1 & D1 & Hok1 & Hfr1 & Hcr1 & Hst1 & Hc1).
  destruct (draws_line_end m b1 Hok1) as (b2 & D2 & Hlf & Hok2 & Hz2 & _).
  exists b2. split; [by eapply draws_app|].
  unfold screen_frame in Hfr1. injection Hfr1 as Hz1 Ht1 Hb1 Hsb1 _ _. unfold kept_fields in Hf.
  injection Hf as _ Ht Hb _. pose proof (ok_size b Hok) as [??]. rewrite Hsz in *.
  assert (Hrows : buf_rows (carriage_return b1) = rows sz) by (unfold buf_rows; simpl; by rewrite Hz1).
  set (k := (length hs - pred (Z.to_nat (rows sz)))%nat) in *.
  pose proof (line_feed_fields _ _ Hlf ltac:(lia)) as Hf2. simpl in Hf2. rewrite Hst1, Ht1, Hb1, Ht, Hb in Hf2.
  destruct (decide (length hs < pred (Z.to_nat (rows sz)))%nat) as [Hlt|Hge].
  - destruct (line_feed_above _ _ Hlf) as (Hc2 & Hcr2 & Hcc2 & Hsb2); [lia|simpl; lia|]. simpl in *.
    assert (Hk : k = 0%nat) by lia. rewrite Hk, ?drop_0, Nat.sub_0_r in Hc1. rewrite Hk in Hsb.
    apply (history_line_below sz hs row b1 b2); try done; [congruence|unfold len; lia|by rewrite Hsb1, Hsb].
  - destruct (scrolled_line_enters_history (carriage_return b1))
      as (top & rest & b2' & Hcells & Hlf' & Hc2 & Hsb2 & Hcr2 & Hcc2).
    { by apply carriage_return_ok. }
    { split; simpl; [congruence|]. rewrite Hz1. congruence. }
    { simpl. rewrite Hcr1, Hz1. lia. }
    rewrite Hlf in Hlf'. injection Hlf' as <-. simpl in *.
    replace (Z.to_nat (rows sz) - S (length hs - k))%nat with 0%nat in Hc1 by lia.
    apply (history_line_scrolls sz hs row b1 b2 top rest); try done; try lia.
    + congruence.
    + by rewrite <- Hcells, Hc1.
    + rewrite Hc2. unfold current_blank_row, buf_cols. simpl. by rewrite Hst1, Hz1.
    + by rewrite Hsb1, Hsb.
Qed.

Lemma draws_history m sz css rs : modes_insert m = false ->
  Forall2 laid css rs -> Forall (fun cs => length cs = Z.to_nat (cols sz)) css -> forall hs b,
  printed_history sz hs b -> len hs + len css <= MAX_SCROLLBACK_LINES ->
  exists b', draws m (line_texts css) b b' /\ printed_history sz (hs ++ rs) b'.
Proof.
  intros Hi Hl. induction Hl as [|cs row css rs Hrow _ IH]; intros Hlen hs b Hph Hmax.
  - exists b. split; [apply draws_nil|by rewrite app_nil_r].
  - inversion Hlen as [|?? Hcs Hlen']; subst. unfold len in Hmax. simpl in Hmax.
    destruct (printed_history_line m sz hs b cs row Hph Hi Hrow) as (b1 & D1 & Hph1).
    { by rewrite (laid_length _ _ Hrow). }
    { unfold len. lia. }
    destruct (IH Hlen' _ _ Hph1) as (b2 & D2 & Hph2).
    { unfold len in *. rewrite length_app. simpl. lia. }
    exists b2. split; [|by rewrite <- (assoc_L (++)) in Hph2].
    unfold line_texts. cbn [map concat]. by eapply draws_app.
Qed.

(** A history both terminals lay out alike. *)
Definition history_laid (g : Grid) : Prop :=
  forall k, 1 <= k <= history_to_render g -> exists row, laid (grid_row g (- k) (columns g)) row.

Lemma history_targets g : history_laid g ->
  exists rs, Forall2 laid (sent_history g) rs /\
    map render_styled_row rs = map snd (history_rows g (history_to_render g)) /\
    length rs = Z.to_nat (history_to_render g).
Proof.
  intros Hg. pose proof (sent_history_all (fun cs => exists row, laid cs row) g Hg) as Hl. apply Forall_exists_Forall2_l in Hl as [rs Hl].
  exists rs. split; [done|]. unfold sent_history in Hl. rewrite Forall2_fmap_l in Hl. split.
  - destruct (laid_rows_render g rs (fun k => - k) _ Hl) as [_ ->]. unfold history_rows. by rewrite map_map.
  - apply Forall2_length in Hl. by rewrite length_rev, length_seqZ in Hl.
Qed.

(** The newest lines of the history are lost: a new viewer is sent up to
    1000 of them, but those that are still on its screen when the frame
    clears it never reach its history. On a terminal of [R] rows the newest
    [R - 1] lines are missing, and a history shorter than the screen is lost
    whole; what is there is what the host would show. *)
Theorem bootstrap_drops_recent_history g sz : grid_fits g sz -> history_laid g ->
  let sent := history_rows g (history_to_render g) in
  exists e, feed_and_collect_replies (bootstrap_ansi_for_term g) (terminal_new sz) = Ok (e, []) /\
    snap_scrollback (engine_snapshot e) = map snd (take (length sent - pred (Z.to_nat (rows sz))) sent).
Proof.
  intros Hg Hh sent. destruct (history_targets g Hh) as (rs & Hl & Hr & Hlen).
  pose proof (gf_size _ _ Hg) as Hsz. pose proof (gf_cols _ _ Hg) as Hcols.
  assert (Hr0 : ready (terminal_new sz)) by (by repeat split).
  destruct (draws_history (write_modes (terminal_new sz)) sz _ rs eq_refl Hl) with (hs := @nil (list ScreenCell))
    (b := buffer_new sz) as (b1 & D1 & Hph); [|by apply printed_history_new| |].
  { unfold sent_history. apply Forall_map, Forall_true. intros k. by rewrite length_grid_row, Hcols. }
  { apply Forall2_length in Hl. unfold len. rewrite Hl, Hlen. simpl.
    unfold history_to_render, MAX_BOOTSTRAP_HISTORY_LINES, MAX_SCROLLBACK_LINES. lia. }
  destruct Hph as [Hok1 Hz1 _ _ Hf1 Hsb1]. simpl in Hsb1. unfold kept_fields in Hf1. injection Hf1 as Hs1 _ _ _.
  destruct (screen_targets g sz Hg) as (rows_ & Hlen' & Hl').
  destruct (bootstrap_runs g sz (terminal_new sz) b1 rows_ Hg Hr0 D1 Hok1 Hz1 Hs1 Hlen' Hl')
    as (b & Hfeed & _ & Hfr & _).
  eexists. split; [exact Hfeed|]. simpl. unfold screen_frame in Hfr. injection Hfr as _ _ _ Hsb _ _.
  assert (Hsent : length sent = length rs).
  { unfold sent. rewrite <- (length_map snd), <- Hr. apply length_map. }
  change (active_buffer _) with b. by rewrite Hsb, Hsb1, Hsent, <- firstn_map, Hr, firstn_map.
Qed.

Lemma bootstrap_drops_recent_history_witness :
  let sent := history_rows sample_grid (history_to_render sample_grid) in
  exists e, feed_and_collect_replies (bootstrap_ansi_for_term sample_grid) (terminal_new sample_size) = Ok (e, []) /\
    snap_scrollback (engine_snapshot e) = map snd (take (length sent - pred (Z.to_nat (rows sample_size))) sent).
Proof. apply (bootstrap_drops_recent_history sample_grid sample_size); [exact sample_fits|intros k _; apply sample_laid]. Defined.

(** ** What the frame does not reset *)

(** A screen of plain text without history. *)
Definition plain_grid : Grid := mkGrid 1 2 0 1 (fun _ _ => sample_cell 97 false false) 0 0.

(** The terminal after some input, if it is fed without a panic. *)
Definition fed (input : list byte) (e : TerminalEngine) : TerminalEngine :=
  match feed_and_collect_replies input e with Ok (e', _) => e' | Err _ => e end.

(** The frame does not set a style before its first row: after output that was
    cut inside red text, plain text is drawn red. *)
Lemma bootstrap_keeps_leftover_style :
  let sz := {| rows := 1; cols := 2; pixel_width := 0; pixel_height := 0 |} in
  let e := fed (x1b :: as_bytes "[31m") (terminal_new sz) in
  styled_lines (engine_snapshot (fed (bootstrap_ansi_for_term plain_grid) e))
    = [ESC :: lit "[0;38;5;1maa" ++ ESC :: lit "[0m"] /\
  map snd (screen_rows plain_grid) = [lit "aa"].
Proof. split; vm_compute; reflexivity. Qed.

(** ** Rows that are not reproduced *)

(** The emulator keeps a tab as a character of its cell, followed by the cells
    it skipped. The frame sends both: the viewer's terminal tabs and then
    prints the skipped cells as well, and the text after the tab is moved to
    the right, here to the next line, where the next row is drawn over it. *)
Definition tab_grid : Grid :=
  mkGrid 2 10 0 2 (fun line col => sample_cell (if line =? 0 then if col =? 0 then 9 else if col =? 8 then 97 else if col =? 9 then 98 else 32 else 32) false false) 0 0.

Lemma stored_tab_shifts_the_row :
  let sz := {| rows := 2; cols := 10; pixel_width := 0; pixel_height := 0 |} in
  map fst (screen_rows tab_grid) = [9 :: lit "       ab"; lit "          "] /\
  lines (engine_snapshot (fed (bootstrap_ansi_for_term tab_grid) (terminal_new sz))) = [lit "          "; lit "          "].
Proof. split; vm_compute; reflexivity. Qed.

(** Where a wide character did not fit, the emulator keeps a spacer in the last
    column; the host's own lines leave it out, the viewer's have a blank. *)
Definition leading_spacer_grid : Grid :=
  mkGrid 1 2 0 1 (fun _ col => mkCell (if col =? 0 then 97 else 32) (Named Foreground) (Named Background)
    false false false false false false false (col =? 1)) 0 0.

Lemma leading_spacer_becomes_a_blank :
  let sz := {| rows := 1; cols := 2; pixel_width := 0; pixel_height := 0 |} in
  map fst (screen_rows leading_spacer_grid) = [lit "a"] /\
  lines (engine_snapshot (fed (bootstrap_ansi_for_term leading_spacer_grid) (terminal_new sz))) = [lit "a "].
Proof. split; vm_compute; reflexivity. Qed.
