(* ===== verification/HostIo.v ===== *)
(** * Host IO: the loop that owns the terminals of hosted sessions

    [AuthorityHostIoLoop] of [src/ratatui_node/authority_host_io_loop.rs] (the
    Unix loop), and the requests [RatatuiAuthorityHostSession] of
    [src/ratatui_node/authority_host_session.rs] sends to it. One thread owns
    every hosted pseudo terminal: it reads the program's output, passes it to
    the session's output channel and to an emulator that knows the screen,
    writes the input, applies the sizes the consoles ask for, and reports the
    ends of sessions.

    The emulator is that of the [alacritty_terminal] crate, the class
    [HostTerm]; [HostTermLaws] states what the loop relies on. A pseudo
    terminal is the input it accepted and its size; what its reads and writes
    return is an argument of each step. Channels are numbered, and [outputs]
    is what was sent on them, in order; a send to a channel nobody reads is
    not an error, as in the code. The counter of poller tokens is taken not
    to reach 2^64. *)

From S2P Require Import Prelude Bytes Utf8 Ansi HostGrid.
From stdpp Require Import strings.
#[local] Open Scope Z_scope.

(** ** The emulator *)

Class HostTerm (T : Type) := {
  term_new : Z -> Z -> T;
  advance : list byte -> T -> T;
  term_resize : Z -> Z -> T -> T;
  grid : T -> Grid }.

Definition dimensions {T} `{HostTerm T} (t : T) : Z * Z := (columns (grid t), screen_lines (grid t)).

Definition dimension (z : Z) : Prop := 1 <= z <= 65535.

Class HostTermLaws (T : Type) `{HostTerm T} := {
  new_dimensions c r : dimension c -> dimension r -> dimensions (term_new c r) = (c, r);
  advance_dimensions bs t : dimensions (advance bs t) = dimensions t;
  resize_dimensions c r t : dimension c -> dimension r -> dimensions (term_resize c r t) = (c, r) }.

(** ** State *)

Definition PTY_READ_BUF_SIZE : Z := 4096.

Record ConsoleState := mkConsoleState { console_cols : Z; console_rows : Z }.

(** A pseudo terminal: the input it took, and the size it was last asked to
    have. The loop does not look at the result of that request, which can
    only fail for a descriptor that is not a terminal. *)
Record Pty := mkPty { accepted_input : list byte; pty_cols : Z; pty_rows : Z }.

(** What the poller waits for. *)
Inductive Interest := WaitReadable | WaitAll.

Record SessionState (T : Type) := mkSessionState {
  pty_master : Pty;
  token : Z;
  output_tx : option Z;
  output_buffer : list byte;
  pending_write : list byte;
  consoles : gmap string ConsoleState;
  active_console : option string;
  term : T;
  bootstrap_pending : bool;
  interest : Interest }.
Arguments mkSessionState {T}.
Arguments pty_master {T}.
Arguments token {T}.
Arguments output_tx {T}.
Arguments output_buffer {T}.
Arguments pending_write {T}.
Arguments consoles {T}.
Arguments active_console {T}.
Arguments term {T}.
Arguments bootstrap_pending {T}.
Arguments interest {T}.

Inductive AuthorityHostIoRequest :=
| WriteInput (session_id : string) (bytes : list byte)
| Resize (session_id console_id : string) (cols rows : Z)
| RegisterSession (session_id : string) (pty : Pty) (output_tx : option Z) (cols rows : Z)
| UnregisterSession (session_id : string)
| UnregisterConsole (session_id console_id : string)
| SetOutputSender (session_id : string) (output_tx : Z)
| SendBootstrap (session_id : string).

Inductive host_event :=
| AuthorityHostSessionPtyClosed (target_id : string)
| AuthorityHostSessionChildExited (target_id : string) (exit_code : Z).

(** The loop: [monitored] are the sessions the process monitor knows, if there
    is one. *)
Record IoLoop (T : Type) := mkIoLoop {
  sessions : gmap string (SessionState T);
  token_to_session : gmap Z string;
  next_token : Z;
  outputs : list (Z * list byte);
  monitored : option (gset string);
  host_events : list host_event }.
Arguments mkIoLoop {T}.
Arguments sessions {T}.
Arguments token_to_session {T}.
Arguments next_token {T}.
Arguments outputs {T}.
Arguments monitored {T}.
Arguments host_events {T}.

Definition INITIAL_SESSION_TOKEN : Z := 3.

(** What a write, and a read, of the pseudo terminal return. *)
Inductive pty_write := Wrote (n : nat) | WriteBlocked | WriteFailed.
Inductive pty_read := ReadBytes (bytes : list byte) | ReadBlocked | ReadFailed.

Section loop.
Context {T : Type} `{HostTerm T}.

Abbreviation SessionState := (SessionState T).
Abbreviation IoLoop := (IoLoop T).

Definition set_pty (p : Pty) (s : SessionState) : SessionState :=
  mkSessionState p (token s) (output_tx s) (output_buffer s) (pending_write s) (consoles s)
    (active_console s) (term s) (bootstrap_pending s) (interest s).

Definition set_output (tx : option Z) (buffer : list byte) (pending : bool) (s : SessionState) :
    SessionState :=
  mkSessionState (pty_master s) (token s) tx buffer (pending_write s) (consoles s)
    (active_console s) (term s) pending (interest s).

Definition set_pending (p : list byte) (i : Interest) (s : SessionState) : SessionState :=
  mkSessionState (pty_master s) (token s) (output_tx s) (output_buffer s) p (consoles s)
    (active_console s) (term s) (bootstrap_pending s) i.

Definition set_consoles (m : gmap string ConsoleState) (active : option string) (s : SessionState) :
    SessionState :=
  mkSessionState (pty_master s) (token s) (output_tx s) (output_buffer s) (pending_write s) m
    active (term s) (bootstrap_pending s) (interest s).

Definition set_term (t : T) (s : SessionState) : SessionState :=
  mkSessionState (pty_master s) (token s) (output_tx s) (output_buffer s) (pending_write s)
    (consoles s) (active_console s) t (bootstrap_pending s) (interest s).

(** ** Output *)

(** [forward_output]: the emulator sees the bytes; they go to the output
    channel, after anything buffered, or into the buffer, which keeps the
    newest 16 KiB. *)
Definition forward_output (bytes : list byte) (s : SessionState) : SessionState * list (Z * list byte) :=
  let s := set_term (advance bytes (term s)) s in
  match output_tx s with
  | Some tx =>
      (set_output (Some tx) [] (bootstrap_pending s) s, [(tx, output_buffer s ++ bytes)])
  | None =>
      let buffer := output_buffer s ++ bytes in
      (set_output None (drop (Z.to_nat (len buffer - PTY_READ_BUF_SIZE * 4)) buffer)
         (bootstrap_pending s) s, [])
  end.

Definition flush_output_buffer (s : SessionState) : SessionState * list (Z * list byte) :=
  if bool_decide (output_buffer s = []) then (s, [])
  else match output_tx s with
  | Some tx => (set_output (Some tx) [] (bootstrap_pending s) s, [(tx, output_buffer s)])
  | None => (s, [])
  end.

Definition send_bootstrap (s : SessionState) : SessionState * list (Z * list byte) :=
  (set_output (output_tx s) (output_buffer s) false s,
   match output_tx s with
   | Some tx => [(tx, bootstrap_ansi_for_term (grid (term s)))]
   | None => []
   end).

(** The loop of [read_pty]: the session, what was sent, whether the terminal is
    at its end, and how much was read. *)
Fixpoint read_loop (reads : list pty_read) (s : SessionState) (sent : list (Z * list byte))
    (total : Z) : SessionState * list (Z * list byte) * bool * Z :=
  match reads with
  | [] | ReadBlocked :: _ => (s, sent, false, total)
  | ReadFailed :: _ | ReadBytes [] :: _ => (s, sent, true, total)
  | ReadBytes bytes :: reads =>
      let '(s, out) := forward_output bytes s in
      if len bytes <? PTY_READ_BUF_SIZE then (s, sent ++ out, false, total + len bytes)
      else read_loop reads s (sent ++ out) (total + len bytes)
  end.

Definition read_pty (reads : list pty_read) (s : SessionState) :
    SessionState * list (Z * list byte) * bool :=
  let '(s, sent, dead, total) := read_loop reads s [] 0 in
  if dead then (s, sent, true)
  else if 0 <? total then
    let '(s, out) := flush_output_buffer s in (s, sent ++ out, false)
  else (s, sent, false).

(** ** Input *)

Definition accept (bytes : list byte) (s : SessionState) : SessionState :=
  set_pty (mkPty (accepted_input (pty_master s) ++ bytes) (pty_cols (pty_master s))
             (pty_rows (pty_master s))) s.

(** [append_input_to_pending_write]; without further results a write blocks. *)
Definition append_input_to_pending_write (bytes : list byte) (writes : list pty_write)
    (s : SessionState) : SessionState * list pty_write :=
  if bool_decide (pending_write s = []) then
    match writes with
    | Wrote n :: writes =>
        (set_pending (drop n bytes) (interest s) (accept (take n bytes) s), writes)
    | WriteFailed :: writes => (s, writes)
    | WriteBlocked :: writes => (set_pending bytes (interest s) s, writes)
    | [] => (set_pending bytes (interest s) s, [])
    end
  else (set_pending (pending_write s ++ bytes) (interest s) s, writes).

(** The loop of [drain_pending_write]: what is left, or [None] when a write
    failed. *)
Fixpoint drain_loop (remaining : list byte) (writes : list pty_write) (s : SessionState) :
    SessionState * option (list byte) * list pty_write :=
  if bool_decide (remaining = []) then (s, Some [], writes)
  else match writes with
  | [] => (s, Some remaining, [])
  | WriteBlocked :: writes => (s, Some remaining, writes)
  | WriteFailed :: writes => (s, None, writes)
  | Wrote n :: writes => drain_loop (drop n remaining) writes (accept (take n remaining) s)
  end.

Definition drain_pending_write (writes : list pty_write) (s : SessionState) :
    SessionState * list pty_write :=
  if bool_decide (pending_write s = []) then (set_pending [] WaitReadable s, writes)
  else
    match drain_loop (pending_write s) writes s with
    | (s, None, writes) => (set_pending [] WaitReadable s, writes)
    | (s, Some remaining, writes) =>
        (set_pending remaining (if bool_decide (remaining = []) then WaitReadable else WaitAll) s,
         writes)
    end.

(** ** Consoles *)

(** The order of a [HashMap] is not defined: [first_key] is the key its
    iterator gives first. *)
Context (first_key : gmap string ConsoleState -> option string).

Definition elect_active_console (m : gmap string ConsoleState) : option string :=
  match m !! "local" with
  | Some _ => Some "local"
  | None => first_key m
  end.

(** [SessionState::resize_pty] with the resize of the emulator beside it: the
    size is requested, and the result is ignored. *)
Definition resize_pty (cols rows : Z) (s : SessionState) : SessionState :=
  set_term (term_resize cols rows (term s))
    (set_pty (mkPty (accepted_input (pty_master s)) cols rows) s).

(** [apply_console_resize]: the local console keeps priority, otherwise the
    latest request wins; an unchanged size is not applied again. *)
Definition apply_console_resize (console_id : string) (cols rows : Z) (s : SessionState) :
    SessionState * bool :=
  let s := set_consoles (<[console_id := mkConsoleState cols rows]> (consoles s)) (active_console s) s in
  let should_activate :=
    if bool_decide (active_console s = Some "local") then bool_decide (console_id = "local") else true in
  if negb should_activate then (s, false)
  else
    let s := set_consoles (consoles s) (Some console_id) s in
    if bool_decide (dimensions (term s) = (cols, rows)) then (s, false)
    else (resize_pty cols rows s, true).

Definition unregister_console (console_id : string) (s : SessionState) : SessionState :=
  let was_active := bool_decide (active_console s = Some console_id) in
  let s := set_consoles (delete console_id (consoles s)) (active_console s) s in
  if negb was_active then s
  else
    let next := elect_active_console (consoles s) in
    let s :=
      match next with
      | Some id =>
          match consoles s !! id with
          | Some console => resize_pty (console_cols console) (console_rows console) s
          | None => s
          end
      | None => s
      end in
    set_consoles (consoles s) next s.

(** ** Requests *)

Definition set_sessions (m : gmap string SessionState) (l : IoLoop) : IoLoop :=
  mkIoLoop m (token_to_session l) (next_token l) (outputs l) (monitored l) (host_events l).

Definition put_session (id : string) (s : SessionState) (sent : list (Z * list byte)) (l : IoLoop) :
    IoLoop :=
  mkIoLoop (<[id := s]> (sessions l)) (token_to_session l) (next_token l) (outputs l ++ sent)
    (monitored l) (host_events l).

(** A new session: its emulator is as large as the request says. *)
Definition new_session (pty : Pty) (t : Z) (tx : option Z) (cols rows : Z) : SessionState :=
  mkSessionState pty t tx [] [] ∅ None (term_new cols rows) false WaitReadable.

(** [local_authority] is the id under which the monitor knows the node. *)
Context (local_authority : string).

Definition monitor_key (id : string) : string := (local_authority +:+ ":" +:+ id)%string.

Definition register_session (id : string) (pty : Pty) (tx : option Z) (cols rows : Z) (l : IoLoop) :
    IoLoop :=
  mkIoLoop (<[id := new_session pty (next_token l) tx cols rows]> (sessions l))
    (<[next_token l := id]> (token_to_session l)) (next_token l + 1) (outputs l)
    ((fun m => {[monitor_key id]} ∪ m) <$> monitored l) (host_events l).

(** A session leaves the maps, the poller and the monitor. *)
Definition drop_session (id : string) (s : SessionState) (l : IoLoop) : IoLoop :=
  mkIoLoop (delete id (sessions l)) (delete (token s) (token_to_session l)) (next_token l) (outputs l)
    ((fun m => m ∖ {[monitor_key id]}) <$> monitored l) (host_events l).

Inductive io_failure := PollerAdd (session_id : string).

(** One request of [drain_requests]; [added] is whether the poller accepts the
    terminal of a new session. *)
Definition handle_request (added : bool) (r : AuthorityHostIoRequest) (writes : list pty_write)
    (l : IoLoop) : result IoLoop io_failure * list pty_write :=
  match r with
  | WriteInput id bytes =>
      match sessions l !! id with
      | Some s =>
          let '(s, writes) := append_input_to_pending_write bytes writes s in
          let '(s, writes) := drain_pending_write writes s in
          (Ok (put_session id s [] l), writes)
      | None => (Ok l, writes)
      end
  | Resize id console_id cols rows =>
      (Ok match sessions l !! id with
          | Some s => put_session id (apply_console_resize console_id cols rows s).1 [] l
          | None => l
          end, writes)
  | UnregisterConsole id console_id =>
      (Ok match sessions l !! id with
          | Some s => put_session id (unregister_console console_id s) [] l
          | None => l
          end, writes)
  | RegisterSession id pty tx cols rows =>
      (if added then Ok (register_session id pty tx cols rows l) else Err (PollerAdd id), writes)
  | UnregisterSession id =>
      (Ok match sessions l !! id with Some s => drop_session id s l | None => l end, writes)
  | SetOutputSender id tx =>
      (Ok match sessions l !! id with
          | Some s => put_session id (set_output (Some tx) [] true s) [] l
          | None => l
          end, writes)
  | SendBootstrap id =>
      (Ok match sessions l !! id with
          | Some s => let '(s, sent) := send_bootstrap s in put_session id s sent l
          | None => l
          end, writes)
  end.

(** [drain_requests]: a poller failure ends the loop, with the requests left. *)
Fixpoint drain_requests (added : bool) (rs : list AuthorityHostIoRequest) (writes : list pty_write)
    (l : IoLoop) : result IoLoop io_failure * list pty_write :=
  match rs with
  | [] => (Ok l, writes)
  | r :: rs =>
      match handle_request added r writes l with
      | (Ok l, writes) => drain_requests added rs writes l
      | (Err e, writes) => (Err e, writes)
      end
  end.

(** ** Events of the poller *)

Definition add_events (es : list host_event) (l : IoLoop) : IoLoop :=
  mkIoLoop (sessions l) (token_to_session l) (next_token l) (outputs l) (monitored l)
    (host_events l ++ es).

(** [check_child_exits]: every session whose child has ended is reported;
    [exits] gives the exit codes. *)
Definition check_child_exits (exits : gmap string Z) (l : IoLoop) : IoLoop :=
  add_events
    (omap (fun x => match exits !! x.1 with
                    | Some code => Some (AuthorityHostSessionChildExited x.1 code)
                    | None => None
                    end) (map_to_list (sessions l))) l.

(** An event on the terminal of a session. *)
Definition session_event (t : Z) (readable writable : bool) (reads : list pty_read)
    (writes : list pty_write) (l : IoLoop) : IoLoop :=
  match token_to_session l !! t with
  | None => l
  | Some id =>
      let '(l, dead) :=
        match readable, sessions l !! id with
        | true, Some s =>
            let '(s, sent, dead) := read_pty reads s in
            let l := put_session id s sent l in
            (if dead : bool
             then add_events [AuthorityHostSessionPtyClosed id] (drop_session id s l)
             else l, dead)
        | _, _ => (l, false)
        end in
      match writable && negb dead, sessions l !! id with
      | true, Some s => put_session id (drain_pending_write writes s).1 [] l
      | _, _ => l
      end
  end.

(** What the loop reacts to; [added] is whether the poller takes new
    terminals, and a refusal ends the loop. *)
Inductive io_call :=
| Requests (added : bool) (rs : list AuthorityHostIoRequest) (writes : list pty_write)
| ChildSignal (exits : gmap string Z)
| SessionReady (token : Z) (readable writable : bool) (reads : list pty_read)
    (writes : list pty_write).

Definition io_step (c : io_call) (l : IoLoop) : result IoLoop io_failure :=
  match c with
  | Requests added rs writes => (drain_requests added rs writes l).1
  | ChildSignal exits => Ok (check_child_exits exits l)
  | SessionReady t readable writable reads writes =>
      Ok (session_event t readable writable reads writes l)
  end.

Fixpoint io_run (calls : list io_call) (l : IoLoop) : result IoLoop io_failure :=
  match calls with
  | [] => Ok l
  | c :: calls => let? l := io_step c l in io_run calls l
  end.

Definition io_start (monitor : bool) : IoLoop :=
  mkIoLoop ∅ ∅ INITIAL_SESSION_TOKEN [] (if monitor then Some ∅ else None) [].

End loop.

(** ** Induction over a run *)

Section induction.
Context {T : Type} `{HostTerm T} (first_key : gmap string ConsoleState -> option string).
Context (local_authority : string).
Context (I : IoLoop T -> Prop).

Lemma drain_requests_ind (P : AuthorityHostIoRequest -> Prop) added rs writes l l' :
  (forall r writes l l' writes', P r -> I l ->
     handle_request first_key local_authority added r writes l = (Ok l', writes') -> I l') ->
  Forall P rs -> I l -> (drain_requests first_key local_authority added rs writes l).1 = Ok l' -> I l'.
Proof.
  intros Hstep Hrs. revert writes l. induction Hrs as [|r rs Hr Hrs IH]; intros writes l Hl; simpl.
  - by intros [= <-].
  - destruct (handle_request _ _ _ _ _ _) as [[l1|e] w1] eqn:E; [|done]. eauto.
Qed.

Lemma io_run_ind (P : io_call -> Prop) calls l l' :
  (forall c l l', P c -> I l -> io_step first_key local_authority c l = Ok l' -> I l') ->
  Forall P calls -> I l -> io_run first_key local_authority calls l = Ok l' -> I l'.
Proof.
  intros Hstep Hc. revert l. induction Hc as [|c calls Hc Hcs IH]; intros l Hl; simpl.
  - by intros [= <-].
  - destruct (io_step _ _ c l) as [l1|e] eqn:E; simpl; [|done]. eauto.
Qed.

End induction.

(** ** The size of the terminal *)

(** Sizes that the emulator takes, and a terminal of the announced size. *)
Definition request_ok (r : AuthorityHostIoRequest) : Prop :=
  match r with
  | Resize _ _ cols rows => dimension cols /\ dimension rows
  | RegisterSession _ pty _ cols rows =>
      dimension cols /\ dimension rows /\ pty_cols pty = cols /\ pty_rows pty = rows
  | _ => True
  end.

Definition io_call_ok (c : io_call) : Prop :=
  match c with Requests _ rs _ => Forall request_ok rs | _ => True end.

Section invariant.
Context {T : Type} `{HostTermLaws T}.
Context (first_key : gmap string ConsoleState -> option string).
Context (first_key_spec : forall m,
  match first_key m with Some k => is_Some (m !! k) | None => m = ∅ end).

(** The terminal and the emulator have one size; it is the one the active
    console asked for; a local console is the active one; and some console is
    active if there is any. *)
Record sized (s : SessionState T) : Prop := {
  sized_term : dimensions (term s) = (pty_cols (pty_master s), pty_rows (pty_master s));
  sized_active c : active_console s = Some c ->
    consoles s !! c = Some (mkConsoleState (pty_cols (pty_master s)) (pty_rows (pty_master s)));
  sized_local : is_Some (consoles s !! "local") -> active_console s = Some "local";
  sized_none : active_console s = None -> consoles s = ∅;
  sized_dims : map_Forall (fun _ c => dimension (console_cols c) /\ dimension (console_rows c)) (consoles s) }.

(** Only output nobody receives is buffered, and not more than 16 KiB of it;
    the poller waits for the terminal to take input whenever some is left. *)
Record buffered (s : SessionState T) : Prop := {
  buffered_tx : is_Some (output_tx s) -> output_buffer s = [];
  buffered_max : len (output_buffer s) <= PTY_READ_BUF_SIZE * 4;
  buffered_interest : pending_write s = [] <-> interest s = WaitReadable }.

Lemma sized_same s s' :
  sized s -> pty_cols (pty_master s') = pty_cols (pty_master s) ->
  pty_rows (pty_master s') = pty_rows (pty_master s) -> consoles s' = consoles s ->
  active_console s' = active_console s -> dimensions (term s') = dimensions (term s) -> sized s'.
Proof. intros [? ? ? ? ?] E1 E2 E3 E4 E5. split; rewrite ?E1, ?E2, ?E3, ?E4, ?E5; done. Qed.

Lemma sized_new pty t tx cols rows :
  dimension cols -> dimension rows -> pty_cols pty = cols -> pty_rows pty = rows ->
  sized (new_session pty t tx cols rows).
Proof.
  intros Hc Hr <- <-. split; simpl; [by apply new_dimensions|done| |done|by apply map_Forall_empty].
  by rewrite lookup_empty; intros [? ?].
Qed.

Lemma sized_resize_pty cols rows m active s :
  dimension cols -> dimension rows ->
  (forall c, active = Some c -> m !! c = Some (mkConsoleState cols rows)) ->
  (is_Some (m !! "local") -> active = Some "local") -> (active = None -> m = ∅) ->
  map_Forall (fun _ c => dimension (console_cols c) /\ dimension (console_rows c)) m ->
  sized (set_consoles m active (resize_pty cols rows s)).
Proof. intros. split; simpl; try done. by apply resize_dimensions. Qed.

Lemma sized_console_resize console_id cols rows s :
  dimension cols -> dimension rows -> sized s -> sized (apply_console_resize console_id cols rows s).1.
Proof.
  intros Hc Hr [Ht Ha Hl Hn Hd]. unfold apply_console_resize. simpl.
  set (m := <[console_id := mkConsoleState cols rows]> (consoles s)).
  assert (Hm : map_Forall (fun _ c => dimension (console_cols c) /\ dimension (console_rows c)) m).
  { by apply map_Forall_insert_2. }
  case_bool_decide as Eact; [case_bool_decide as Ecid|]; simpl.
  - subst console_id. case_bool_decide as Edim; simpl.
    + rewrite Ht in Edim. injection Edim as Ec Er. split; simpl; try done.
      intros c [= <-]. unfold m. by rewrite lookup_insert_eq, Ec, Er.
    + apply (sized_resize_pty cols rows m (Some "local")); try done.
      intros c [= <-]. unfold m. by rewrite lookup_insert_eq.
  - split; simpl; try done; [|by rewrite Eact].
    intros c E. rewrite Eact in E. injection E as <-. unfold m. rewrite lookup_insert_ne by done. by apply Ha.
  - assert (Hloc : is_Some (m !! "local") -> Some console_id = Some "local").
    { unfold m. destruct (decide (console_id = "local")) as [->|Hne]; [done|].
      rewrite lookup_insert_ne by done. intros Hs. by apply Hl in Hs. }
    case_bool_decide as Edim; simpl.
    + rewrite Ht in Edim. injection Edim as Ec Er. split; simpl; try done.
      intros c [= <-]. unfold m. by rewrite lookup_insert_eq, Ec, Er.
    + apply (sized_resize_pty cols rows m (Some console_id)); try done.
      intros c [= <-]. unfold m. by rewrite lookup_insert_eq.
Qed.

Lemma elect_spec m :
  match elect_active_console first_key m with
  | Some k => is_Some (m !! k) /\ (is_Some (m !! "local") -> k = "local")
  | None => m = ∅
  end.
Proof.
  unfold elect_active_console. destruct (m !! "local") as [c|] eqn:El; [by rewrite El|].
  pose proof (first_key_spec m). destruct (first_key m); [|done].
  split; [done|]. by intros [? ?].
Qed.

Lemma sized_unregister console_id s : sized s -> sized (unregister_console first_key console_id s).
Proof.
  intros [Ht Ha Hl Hn Hd]. unfold unregister_console. simpl.
  set (m := delete console_id (consoles s)).
  assert (Hm : map_Forall (fun _ c => dimension (console_cols c) /\ dimension (console_rows c)) m).
  { by apply map_Forall_delete. }
  case_bool_decide as Eact; simpl.
  - pose proof (elect_spec m) as He. destruct (elect_active_console first_key m) as [k|].
    + destruct He as [[[cols rows] Ek] Hk]. rewrite Ek. destruct (Hm k _ Ek) as [Hc Hr].
      apply (sized_resize_pty cols rows m (Some k)); try done.
      * intros c [= <-]. done.
      * intros Hs. by rewrite (Hk Hs).
    + split; simpl; try done. rewrite He, lookup_empty. by intros [? ?].
  - split; simpl; try done.
    + intros c E. unfold m. rewrite lookup_delete_ne by congruence. by apply Ha.
    + unfold m. rewrite lookup_delete_is_Some. intros [_ Hs]. by apply Hl.
    + intros E. unfold m. rewrite (Hn E). apply delete_empty.
Qed.

Definition session_inv (s : SessionState T) : Prop := sized s /\ buffered s.

Lemma inv_forward bytes s : session_inv s -> session_inv (forward_output bytes s).1.
Proof.
  intros [Hs [Htx Hmax Hi]]. unfold forward_output. cbn zeta.
  change (output_tx (set_term (advance bytes (term s)) s)) with (output_tx s).
  split.
  - destruct (output_tx s); apply (sized_same s); try done; apply advance_dimensions.
  - destruct (output_tx s) as [tx|]; split; simpl; try done.
    unfold len in *. rewrite length_drop. unfold PTY_READ_BUF_SIZE in *. lia.
Qed.

Lemma inv_flush s : session_inv s -> session_inv (flush_output_buffer s).1.
Proof.
  intros Hinv. pose proof Hinv as [Hs [Htx Hmax Hi]]. unfold flush_output_buffer.
  case_bool_decide; [done|]. destruct (output_tx s) as [tx|]; [|done].
  split; [by apply (sized_same s)|]. by split.
Qed.

Lemma inv_read_loop reads s sent total : session_inv s -> session_inv (read_loop reads s sent total).1.1.1.
Proof.
  revert s sent total. induction reads as [|[[|b bs]| |] reads IH]; intros s sent total Hs; simpl; try done.
  pose proof (inv_forward (b :: bs) s Hs) as Hf. destruct (forward_output (b :: bs) s) as [s1 out].
  simpl in Hf. case_match; [done|]. by apply IH.
Qed.

Lemma inv_read reads s : session_inv s -> session_inv (read_pty reads s).1.1.
Proof.
  intros Hs. unfold read_pty. pose proof (inv_read_loop reads s [] 0 Hs) as Hr.
  destruct (read_loop reads s [] 0) as [[[s1 sent] dead] total]. simpl in Hr.
  destruct dead; [done|]. case_match; [|done].
  pose proof (inv_flush s1 Hr) as Hf. by destruct (flush_output_buffer s1).
Qed.

Lemma drain_loop_kept remaining writes (s : SessionState T) :
  exists extra, (drain_loop remaining writes s).1.1 = accept extra s.
Proof.
  revert remaining s. induction writes as [|[n| |] writes IH]; intros remaining s; cbn [drain_loop];
    case_bool_decide; try (exists []; destruct s as [[] ? ? ? ? ? ? ? ? ?]; unfold accept, set_pty; simpl;
      by rewrite app_nil_r).
  destruct (IH (drop n remaining) (accept (take n remaining) s)) as [extra ->].
  exists (take n remaining ++ extra). unfold accept, set_pty. simpl. by rewrite (assoc_L (++)).
Qed.

Lemma inv_drain_pre writes s :
  sized s -> (is_Some (output_tx s) -> output_buffer s = []) ->
  len (output_buffer s) <= PTY_READ_BUF_SIZE * 4 -> session_inv (drain_pending_write writes s).1.
Proof.
  intros Hs Htx Hmax. unfold drain_pending_write. case_bool_decide as E; simpl.
  { split; [by apply (sized_same s)|]. by split. }
  destruct (drain_loop_kept (pending_write s) writes s) as [extra He].
  destruct (drain_loop (pending_write s) writes s) as [[s1 left] w]. simpl in He. subst s1.
  destruct left as [rem|]; simpl; (split; [by apply (sized_same s)|]); split; simpl; try done.
  case_bool_decide; split; congruence || done.
Qed.

Lemma inv_drain writes s : session_inv s -> session_inv (drain_pending_write writes s).1.
Proof. intros [Hs [Htx Hmax _]]. by apply inv_drain_pre. Qed.

Lemma append_kept bytes writes (s : SessionState T) :
  let s' := (append_input_to_pending_write bytes writes s).1 in
  exists p extra, s' = set_pending p (interest s) (accept extra s).
Proof.
  assert (Hnil : forall p, set_pending p (interest s) s = set_pending p (interest s) (accept [] s)).
  { intros p. destruct s as [[] ? ? ? ? ? ? ? ? ?]. unfold accept, set_pty. simpl. by rewrite app_nil_r. }
  unfold append_input_to_pending_write. case_bool_decide; simpl.
  - destruct writes as [|[n| |] writes]; simpl; eauto.
    exists (pending_write s), []. rewrite <- Hnil. by destruct s.
  - eauto.
Qed.

Lemma inv_write bytes writes s :
  session_inv s ->
  session_inv (drain_pending_write (append_input_to_pending_write bytes writes s).2
                 (append_input_to_pending_write bytes writes s).1).1.
Proof.
  intros [Hs [Htx Hmax _]]. destruct (append_kept bytes writes s) as (p & extra & E). cbv zeta in E.
  apply inv_drain_pre; rewrite E; try done. by apply (sized_same s).
Qed.

(** ** The loop's invariant *)

(** Every session is as described, and its poller token leads back to it. *)
Record io_inv (l : IoLoop T) : Prop := {
  io_sessions : map_Forall (fun id s => session_inv s /\ token_to_session l !! token s = Some id)
    (sessions l);
  io_tokens : map_Forall (fun t _ => t < next_token l) (token_to_session l) }.

Lemma io_inv_put id s s' sent l :
  io_inv l -> sessions l !! id = Some s -> session_inv s' -> token s' = token s ->
  io_inv (put_session id s' sent l).
Proof.
  intros [Hs Ht] Hid Hs' Htok. destruct (Hs _ _ Hid) as [_ Hlook].
  split; simpl; [|done]. apply map_Forall_insert_2; [by rewrite Htok|done].
Qed.

Lemma io_inv_drop la id s l : io_inv l -> sessions l !! id = Some s -> io_inv (drop_session la id s l).
Proof.
  intros [Hs Ht] Hid. destruct (Hs _ _ Hid) as [_ Hlook]. split; simpl.
  - intros id' s' [Hne Hid']%lookup_delete_Some. destruct (Hs _ _ Hid') as [? Hlook'].
    split; [done|]. rewrite lookup_delete_ne; [done|]. congruence.
  - by apply map_Forall_delete.
Qed.

Lemma forward_token bytes (s : SessionState T) : token (forward_output bytes s).1 = token s.
Proof. unfold forward_output. by destruct (output_tx (set_term _ s)). Qed.

Lemma read_token reads (s : SessionState T) : token (read_pty reads s).1.1 = token s.
Proof.
  assert (Hl : forall s sent total, token (read_loop reads s sent total).1.1.1 = token s).
  { clear s. induction reads as [|[[|b bs]| |] reads IH]; intros s sent total; simpl; try done.
    pose proof (forward_token (b :: bs) s) as Hf. destruct (forward_output (b :: bs) s) as [s1 out].
    simpl in Hf. rewrite <- Hf. case_match; [done|]. apply IH. }
  unfold read_pty. specialize (Hl s [] 0). destruct (read_loop reads s [] 0) as [[[s1 sent] dead] total].
  simpl in Hl. destruct dead; [done|]. case_match; [|done].
  unfold flush_output_buffer. by repeat case_match; simplify_eq.
Qed.

Lemma drain_token writes (s : SessionState T) : token (drain_pending_write writes s).1 = token s.
Proof.
  unfold drain_pending_write. case_bool_decide; [done|].
  destruct (drain_loop_kept (pending_write s) writes s) as [extra He].
  destruct (drain_loop (pending_write s) writes s) as [[s1 left] w]. simpl in He. subst s1.
  by destruct left.
Qed.

Lemma io_inv_request la added r writes l l' writes' :
  request_ok r -> io_inv l -> handle_request first_key la added r writes l = (Ok l', writes') -> io_inv l'.
Proof.
  intros Hr Hl. pose proof Hl as [Hs Ht].
  destruct r as [id bytes|id cid cols rows|id pty tx cols rows|id|id cid|id tx|id]; simpl;
    [| |destruct added; [|done]| | | |];
    try (destruct (sessions l !! id) as [s|] eqn:Hid; [|by intros [= <- <-]]; destruct (Hs _ _ Hid) as [Hinv _]).
  - pose proof (inv_write bytes writes s Hinv) as Hw.
    destruct (append_kept bytes writes s) as (p & extra & Ha). cbv zeta in Ha.
    destruct (append_input_to_pending_write bytes writes s) as [s1 w1]. simpl in Ha, Hw.
    pose proof (drain_token w1 s1) as Hd. destruct (drain_pending_write w1 s1) as [s2 w2]. simpl in Hw, Hd.
    intros [= <- <-]. apply (io_inv_put id s); try done. by rewrite Hd, Ha.
  - intros [= <- <-]. destruct Hr as [Hc Hrw]. apply (io_inv_put id s); try done.
    + destruct Hinv as [Hz [Htx Hm Hi]]. split; [by apply sized_console_resize|].
      unfold apply_console_resize. by repeat case_bool_decide; split.
    + unfold apply_console_resize. by repeat case_bool_decide.
  - intros [= <- <-]. destruct Hr as (Hc & Hrw & Hpc & Hpr).
    assert (Hnew : token_to_session l !! next_token l = None).
    { destruct (token_to_session l !! next_token l) eqn:E; [|done]. apply Ht in E. lia. }
    split; simpl.
    + apply map_Forall_insert_2.
      * split; [split; [by apply sized_new|]|by rewrite lookup_insert_eq].
        split; simpl; [done|unfold PTY_READ_BUF_SIZE, len; simpl; lia|done].
      * intros id' s' Hid'. destruct (Hs _ _ Hid') as [? Hlook]. split; [done|].
        rewrite lookup_insert_ne; [done|]. intros E. rewrite <- E in Hlook. congruence.
    + apply map_Forall_insert_2; [lia|]. intros t id' E. apply Ht in E. lia.
  - intros [= <- <-]. by apply io_inv_drop.
  - intros [= <- <-]. apply (io_inv_put id s); try done.
    + destruct Hinv as [Hz [Htx Hm Hi]]. split; [by apply sized_unregister|].
      unfold unregister_console. by repeat case_match; split.
    + unfold unregister_console. by repeat case_match.
  - intros [= <- <-]. apply (io_inv_put id s); try done. destruct Hinv as [Hz [Htx Hm Hi]].
    split; [by apply (sized_same s)|]. split; simpl; [done|unfold PTY_READ_BUF_SIZE, len; simpl; lia|done].
  - intros [= <- <-]. apply (io_inv_put id s); try done. destruct Hinv as [Hz [Htx Hm Hi]].
    split; [by apply (sized_same s)|]. by split.
Qed.

Lemma io_inv_event la t readable writable reads writes l :
  io_inv l -> io_inv (session_event la t readable writable reads writes l).
Proof.
  intros Hl. unfold session_event. destruct (token_to_session l !! t) as [id|]; [|done].
  assert (Hdrain : forall l, io_inv l -> io_inv
    match writable && negb false, sessions l !! id with
    | true, Some s => put_session id (drain_pending_write writes s).1 [] l
    | _, _ => l
    end).
  { clear l Hl. intros l Hl. destruct writable; [|done].
    destruct (sessions l !! id) as [s|] eqn:Hid; [|done].
    apply (io_inv_put id s); [done|done| |apply drain_token]. by apply inv_drain, (io_sessions _ Hl id s). }
  destruct readable; [|by apply Hdrain].
  destruct (sessions l !! id) as [s|] eqn:Hid; [|by apply Hdrain].
  pose proof (inv_read reads s (proj1 (io_sessions _ Hl id s Hid))) as Hr.
  pose proof (read_token reads s) as Htok. destruct (read_pty reads s) as [[s1 sent] dead]. simpl in Hr, Htok.
  assert (Hp : io_inv (put_session id s1 sent l)) by (by apply (io_inv_put id s)).
  destruct dead; [|by apply Hdrain].
  assert (Hd : io_inv (drop_session la id s1 (put_session id s1 sent l))).
  { apply io_inv_drop; [done|]. simpl. apply lookup_insert_eq. }
  rewrite andb_false_r. destruct Hd. by split.
Qed.

Lemma io_inv_run la monitor calls l :
  Forall io_call_ok calls -> io_run first_key la calls (io_start monitor) = Ok l -> io_inv l.
Proof.
  intros Hc. apply (io_run_ind first_key la io_inv io_call_ok); [|done|by split; apply map_Forall_empty].
  clear calls l Hc. intros c l l' Hc Hl. destruct c as [added rs writes|exits|t readable writable reads writes]; simpl.
  - apply (drain_requests_ind first_key la io_inv request_ok); [|done|done]. intros. by eapply io_inv_request.
  - intros [= <-]. destruct Hl. by split.
  - intros [= <-]. by apply io_inv_event.
Qed.

(** C14. A hosted terminal always has the size its active console asked for:
    after any requests, reads and writes, in any order, the size requested of
    the terminal and that of the emulator are the same; the active console,
    the local one whenever it is attached, last asked for exactly that size; no console is active
    only if none is attached. Output is buffered only while nobody receives
    it, and at most 16 KiB of it; and while input is left over the poller
    waits for the terminal to take it. *)
Theorem hosted_terminal_is_consistent la monitor calls l id s :
  Forall io_call_ok calls -> io_run first_key la calls (io_start monitor) = Ok l ->
  sessions l !! id = Some s -> sized s /\ buffered s /\ token_to_session l !! token s = Some id.
Proof.
  intros Hc Hrun Hid. destruct (io_inv_run la monitor calls l Hc Hrun) as [Hs _].
  destruct (Hs id s Hid) as [[? ?] ?]. done.
Qed.

End invariant.

(** An emulator that shows nothing, for the witnesses: its size, and the bytes
    it was given. *)
Definition blank_grid_cell : Cell :=
  mkCell 32 (Named Foreground) (Named Background) false false false false false false false false.

Record BlankTerm := mkBlankTerm { blank_cols : Z; blank_rows : Z; blank_seen : list byte }.

#[global] Instance blank_host_term : HostTerm BlankTerm := {
  term_new c r := mkBlankTerm c r [];
  advance bs t := mkBlankTerm (blank_cols t) (blank_rows t) (blank_seen t ++ bs);
  term_resize c r t := mkBlankTerm c r (blank_seen t);
  grid t := mkGrid (blank_rows t) (blank_cols t) 0 (blank_rows t) (fun _ _ => blank_grid_cell) 0 0 }.

#[global] Instance blank_host_term_laws : HostTermLaws BlankTerm.
Proof. by split. Qed.

Definition least_key (m : gmap string ConsoleState) : option string := fst <$> head (map_to_list m).

Lemma least_key_spec m : match least_key m with Some k => is_Some (m !! k) | None => m = ∅ end.
Proof.
  unfold least_key. destruct (map_to_list m) as [|[k v] kvs] eqn:E; simpl.
  - by apply map_to_list_empty_iff.
  - exists v. apply elem_of_map_to_list. rewrite E. left.
Qed.

Definition sample_calls : list io_call :=
  [Requests true [RegisterSession "shell-1" (mkPty [] 80 24) None 80 24;
     Resize "shell-1" "viewer" 100 30; Resize "shell-1" "local" 90 20] [];
   SessionReady 3 true false [ReadBytes (as_bytes "hello")] [];
   Requests true [SetOutputSender "shell-1" 7; WriteInput "shell-1" (as_bytes "ls");
     UnregisterConsole "shell-1" "local"] [Wrote 1]].

Lemma hosted_terminal_is_consistent_witness :
  exists (l : IoLoop BlankTerm) s, io_run least_key "node" sample_calls (io_start true) = Ok l /\
    sessions l !! "shell-1" = Some s /\ active_console s = Some "viewer" /\
    dimensions (term s) = (100, 30) /\ sized s /\ buffered s /\ token_to_session l !! token s = Some "shell-1".
Proof.
  do 2 eexists. split; [vm_compute; reflexivity|]. split; [vm_compute; reflexivity|].
  split; [reflexivity|]. split; [reflexivity|].
  eapply (hosted_terminal_is_consistent least_key least_key_spec "node" true sample_calls).
  - repeat constructor; simpl; lia.
  - vm_compute. reflexivity.
  - vm_compute. reflexivity.
Defined.
