(* ===== verification/HostStreams.v ===== *)
(** * Host streams: what is typed and what is printed

    Two properties of the loop of [HostIo] over whole runs: the input of a
    session reaches its terminal complete and in order, whatever the terminal
    takes at a time, and everything the terminal prints, and every bootstrap
    frame, goes to the session's output channel, complete and in order. *)

From S2P Require Import Prelude Bytes Utf8 Ansi HostGrid HostIo.
From stdpp Require Import strings.
#[local] Open Scope Z_scope.

(** ** Conditions on a run *)

(** The session stays registered, and its terminal works. *)
Definition request_keeps (id : string) (r : AuthorityHostIoRequest) : Prop :=
  match r with
  | RegisterSession id' _ _ _ _ | UnregisterSession id' => id' <> id
  | _ => True
  end.

Definition readable_result (r : pty_read) : Prop := r <> ReadFailed /\ r <> ReadBytes [].

Definition call_keeps (id : string) (c : io_call) : Prop :=
  match c with
  | Requests _ rs writes => Forall (request_keeps id) rs /\ Forall (.≠ WriteFailed) writes
  | ChildSignal _ => True
  | SessionReady _ _ _ reads writes => Forall readable_result reads /\ Forall (.≠ WriteFailed) writes
  end.

(** ** Input *)

(** What was typed, in the order of the requests. *)
Definition request_typed (id : string) (r : AuthorityHostIoRequest) : list byte :=
  match r with
  | WriteInput id' bytes => if bool_decide (id' = id) then bytes else []
  | _ => []
  end.

Definition typed (id : string) (calls : list io_call) : list byte :=
  concat (map (fun c => match c with
                        | Requests _ rs _ => concat (map (request_typed id) rs)
                        | _ => []
                        end) calls).

(** The requests of a run that write to the session, in order. *)
Definition writes_to (id : string) (calls : list io_call) : list AuthorityHostIoRequest :=
  concat (map (fun c => match c with
                        | Requests _ rs _ =>
                            List.filter (fun r => match r with WriteInput id' _ => bool_decide (id' = id) | _ => false end) rs
                        | _ => []
                        end) calls).

(** The input a terminal has taken, and what waits for it. *)
Definition input_of {T} (s : SessionState T) : list byte :=
  accepted_input (pty_master s) ++ pending_write s.

Section input.
Context {T : Type} `{HostTerm T}.
Context (first_key : gmap string ConsoleState -> option string) (la : string).
Implicit Types (s : SessionState T) (l : IoLoop T).

Lemma drain_loop_input remaining writes s :
  Forall (.≠ WriteFailed) writes ->
  exists left w, (drain_loop remaining writes s).1.2 = Some left /\
    (drain_loop remaining writes s).2 = w /\ Forall (.≠ WriteFailed) w /\
    accepted_input (pty_master (drain_loop remaining writes s).1.1) ++ left
      = accepted_input (pty_master s) ++ remaining.
Proof.
  intros Hw. revert remaining s. induction Hw as [|[n| |] writes Hne Hw IH]; intros remaining s;
    cbn [drain_loop]; case_bool_decide as E; try subst remaining; try done; 
    try (do 2 eexists; split_and!; [done|done|by repeat constructor|done]).
  destruct (IH (drop n remaining) (accept (take n remaining) s)) as (left & w & E1 & E2 & E3 & E4).
  exists left, w. split_and!; try done. rewrite E4. simpl. by rewrite <- (assoc_L (++)), take_drop.
Qed.

Lemma drain_input writes s :
  Forall (.≠ WriteFailed) writes ->
  input_of (drain_pending_write writes s).1 = input_of s /\
  Forall (.≠ WriteFailed) (drain_pending_write writes s).2.
Proof.
  intros Hw. unfold drain_pending_write. case_bool_decide as E.
  { simpl. unfold input_of. simpl. by rewrite E. }
  destruct (drain_loop_input (pending_write s) writes s Hw) as (left & w & E1 & E2 & E3 & E4).
  destruct (drain_loop (pending_write s) writes s) as [[s1 o] w']. simpl in *. subst. done.
Qed.

Lemma append_input bytes writes s :
  Forall (.≠ WriteFailed) writes ->
  input_of (append_input_to_pending_write bytes writes s).1 = input_of s ++ bytes /\
  Forall (.≠ WriteFailed) (append_input_to_pending_write bytes writes s).2.
Proof.
  intros Hw. unfold append_input_to_pending_write, input_of. case_bool_decide as E.
  - rewrite E, app_nil_r. destruct Hw as [|[n| |] writes Hne Hw]; simpl; try done.
    by rewrite <- (assoc_L (++)), take_drop.
  - simpl. by rewrite (assoc_L (++)).
Qed.

Lemma forward_input bytes s : input_of (forward_output bytes s).1 = input_of s.
Proof. unfold forward_output. by destruct (output_tx (set_term _ s)). Qed.

Lemma read_input reads s : input_of (read_pty reads s).1.1 = input_of s.
Proof.
  assert (Hl : forall s sent total, input_of (read_loop reads s sent total).1.1.1 = input_of s).
  { clear s. induction reads as [|[[|b bs]| |] reads IH]; intros s sent total; simpl; try done.
    pose proof (forward_input (b :: bs) s) as Hf. destruct (forward_output (b :: bs) s) as [s1 out].
    simpl in Hf. rewrite <- Hf. case_match; [done|]. apply IH. }
  unfold read_pty. specialize (Hl s [] 0). destruct (read_loop reads s [] 0) as [[[s1 sent] dead] total].
  simpl in Hl. destruct dead; [done|]. case_match; [|done].
  unfold flush_output_buffer. by repeat case_match; simplify_eq.
Qed.

Lemma resize_input console_id cols rows s :
  input_of (apply_console_resize console_id cols rows s).1 = input_of s.
Proof. unfold apply_console_resize. by repeat case_bool_decide. Qed.

Lemma unregister_input console_id s : input_of (unregister_console first_key console_id s) = input_of s.
Proof. unfold unregister_console. by repeat case_match. Qed.

Lemma lookup_put id s id' s' sent l :
  sessions l !! id = Some s ->
  exists s0, sessions (put_session id' s' sent l) !! id = Some s0 /\
    (id' = id /\ s0 = s' \/ id' <> id /\ s0 = s).
Proof.
  intros Hid. simpl. destruct (decide (id' = id)) as [->|Hne].
  - rewrite lookup_insert_eq. eauto.
  - rewrite lookup_insert_ne by done. eauto.
Qed.

(** One request: the session stays, and its input grows by what was typed. *)
Lemma request_input id added r writes l l' writes' s :
  request_keeps id r -> Forall (.≠ WriteFailed) writes -> sessions l !! id = Some s ->
  handle_request first_key la added r writes l = (Ok l', writes') ->
  Forall (.≠ WriteFailed) writes' /\
  exists s', sessions l' !! id = Some s' /\ input_of s' = input_of s ++ request_typed id r.
Proof.
  intros Hr Hw Hid.
  assert (Hput : forall id' s1 s2 sent, sessions l !! id' = Some s1 -> input_of s2 = input_of s1 ->
    exists s', sessions (put_session id' s2 sent l) !! id = Some s' /\ input_of s' = input_of s ++ []).
  { intros id' s1 s2 sent E1 E2. rewrite app_nil_r.
    destruct (lookup_put id s id' s2 sent l Hid) as (s0 & -> & [[-> ->]|[_ ->]]); eauto.
    rewrite Hid in E1. simplify_eq. eauto. }
  destruct r as [id' bytes|id' cid cols rows|id' pty tx cols rows|id'|id' cid|id' tx|id']; simpl;
    [| |destruct added; [|done]| | | |];
    try (destruct (sessions l !! id') as [s1|] eqn:E1;
         [|intros [= <- <-]; split; [done|]; exists s; split; [done|]; try rewrite app_nil_r; try done]).
  - destruct (append_input bytes writes s1 Hw) as [Ha Hw1].
    destruct (append_input_to_pending_write bytes writes s1) as [s2 w2]. simpl in Ha, Hw1.
    destruct (drain_input w2 s2 Hw1) as [Hd Hw2]. destruct (drain_pending_write w2 s2) as [s3 w3].
    simpl in Hd, Hw2. intros [= <- <-]. split; [done|].
    destruct (lookup_put id s id' s3 [] l Hid) as (s0 & -> & [[-> ->]|[Hne ->]]); eexists; (split; [done|]).
    + rewrite bool_decide_true, Hd, Ha by done. by simplify_eq.
    + by rewrite bool_decide_false, app_nil_r by done.
  - rewrite bool_decide_false by congruence. by rewrite app_nil_r.
  - intros [= <- <-]. split; [done|]. by apply (Hput id' s1), resize_input.
  - intros [= <- <-]. split; [done|]. exists s. simpl. by rewrite app_nil_r, lookup_insert_ne.
  - intros [= <- <-]. split; [done|]. exists s. simpl. by rewrite app_nil_r, lookup_delete_ne.
  - intros [= <- <-]. split; [done|]. by apply (Hput id' s1), unregister_input.
  - intros [= <- <-]. split; [done|]. by apply (Hput id' s1).
  - intros [= <- <-]. split; [done|]. by apply (Hput id' s1).
Qed.

Lemma requests_input id added rs writes l l' s :
  Forall (request_keeps id) rs -> Forall (.≠ WriteFailed) writes -> sessions l !! id = Some s ->
  (drain_requests first_key la added rs writes l).1 = Ok l' ->
  exists s', sessions l' !! id = Some s' /\ input_of s' = input_of s ++ concat (map (request_typed id) rs).
Proof.
  intros Hrs. revert writes l s. induction Hrs as [|r rs Hr Hrs IH]; intros writes l s Hw Hid; simpl.
  - intros [= <-]. exists s. by rewrite app_nil_r.
  - destruct (handle_request _ _ _ _ _ _) as [[l1|e] w1] eqn:E; [|done]. intros Hrun.
    destruct (request_input id added r writes l l1 w1 s Hr Hw Hid E) as (Hw1 & s1 & Hid1 & E1).
    destruct (IH w1 l1 s1 Hw1 Hid1 Hrun) as (s' & Hid' & E'). exists s'. split; [done|].
    by rewrite E', E1, (assoc_L (++)).
Qed.

(** Reading a working terminal never ends its session. *)
Lemma read_alive reads s : Forall readable_result reads -> (read_pty reads s).2 = false.
Proof.
  intros Hr. assert (Hl : forall s sent total, (read_loop reads s sent total).1.2 = false).
  { clear s. induction Hr as [|r reads [H1 H2] Hr IH]; intros s sent total; simpl; [done|].
    destruct r as [[|b bs]| |]; try done. destruct (forward_output (b :: bs) s) as [s1 out].
    case_match; [done|]. apply IH. }
  unfold read_pty. specialize (Hl s [] 0). destruct (read_loop reads s [] 0) as [[[s1 sent] dead] total].
  simpl in Hl. subst dead. case_match; [|done]. by destruct (flush_output_buffer s1).
Qed.

(** What an event does to the sessions, when reads and writes work. *)
Lemma event_alive t readable writable reads writes l id s :
  Forall readable_result reads -> sessions l !! id = Some s ->
  exists s', sessions (session_event la t readable writable reads writes l) !! id = Some s' /\
    (s' = s \/ token_to_session l !! t = Some id /\
     exists s1, (s1 = s \/ s1 = (read_pty reads s).1.1) /\
       (s' = s1 \/ s' = (drain_pending_write writes s1).1)).
Proof.
  intros Hr Hid. unfold session_event. destruct (token_to_session l !! t) as [id0|] eqn:Et; [|by eauto 10].
  destruct (decide (id0 = id)) as [->|Hne].
  - destruct readable.
    + rewrite Hid. pose proof (read_alive reads s Hr) as Ha.
      destruct (read_pty reads s) as [[s1 sent] dead] eqn:Er. simpl in Ha. subst dead. simpl.
      destruct writable; simpl; rewrite lookup_insert_eq; simpl; rewrite ?lookup_insert_eq;
        eexists; (split; [done|]); right; (split; [done|]); exists s1; eauto.
    + destruct writable; simpl; rewrite Hid; simpl; rewrite ?lookup_insert_eq;
        eexists; (split; [done|]); [right; split; [done|]; exists s; eauto|by left].
  - exists s. split; [|by left].
    destruct readable; [destruct (sessions l !! id0) as [s0|] eqn:E0|].
    + destruct (read_pty reads s0) as [[s1 sent] dead]. destruct dead, writable; simpl;
        rewrite ?lookup_insert_eq; simpl; rewrite ?lookup_delete_ne, ?lookup_insert_ne; done.
    + rewrite E0. by destruct writable.
    + destruct writable; simpl; [|done]. destruct (sessions l !! id0); [|done]. simpl.
      by rewrite lookup_insert_ne.
Qed.

(** Input reaches the terminal complete and in order: while a session stays
    registered and its terminal reports no error, what the terminal has taken
    followed by what waits is at every moment what it was before, followed by
    everything typed since, whatever part of it each write took, and whatever
    other requests and sessions come in between. *)
Theorem input_is_written_in_order id calls l l' s :
  Forall (call_keeps id) calls -> sessions l !! id = Some s ->
  io_run first_key la calls l = Ok l' ->
  exists s', sessions l' !! id = Some s' /\ input_of s' = input_of s ++ typed id calls.
Proof.
  intros Hc. revert l s. induction Hc as [|c calls Hc Hcs IH]; intros l s Hid; simpl.
  { intros [= <-]. exists s. by rewrite app_nil_r. }
  destruct (io_step first_key la c l) as [l1|e] eqn:E; simpl; [|done]. intros Hrun.
  assert (Hstep : exists s1, sessions l1 !! id = Some s1 /\ input_of s1 = input_of s ++ typed id [c]).
  { unfold typed. simpl. rewrite app_nil_r.
    destruct c as [added rs writes|exits|t readable writable reads writes]; simpl in E.
    - destruct Hc. by eapply requests_input.
    - injection E as <-. exists s. by rewrite app_nil_r.
    - injection E as <-. destruct Hc as [Hr Hw]. rewrite app_nil_r.
      destruct (event_alive t readable writable reads writes l id s Hr Hid) as (s' & E' & Hs').
      exists s'. split; [done|]. destruct Hs' as [->|(_ & s1 & Hs1 & Hs')]; [done|].
      assert (E1 : input_of s1 = input_of s) by (destruct Hs1 as [->| ->]; [done|apply read_input]).
      destruct Hs' as [->| ->]; [done|]. by rewrite (proj1 (drain_input writes s1 Hw)). }
  destruct Hstep as (s1 & Hid1 & E1). destruct (IH l1 s1 Hid1 Hrun) as (s' & Hid' & E').
  exists s'. split; [done|]. rewrite E', E1. unfold typed. simpl. by rewrite app_nil_r, <- (assoc_L (++)).
Qed.

(** What was typed is what those requests carry. *)
Lemma typed_writes id calls : typed id calls = concat (map (request_typed id) (writes_to id calls)).
Proof.
  unfold typed, writes_to. induction calls as [|[added rs writes|exits|t r w reads writes] calls IH]; simpl; try done.
  rewrite map_app, concat_app, <- IH. f_equal. clear.
  induction rs as [|r rs IH]; [done|]. cbn [map concat List.filter]. rewrite IH.
  destruct r as [id' bytes|id' cid cols rows|id' pty tx cols rows|id'|id' cid|id' tx|id']; try done.
  cbn [request_typed]. destruct (bool_decide (id' = id)) eqn:E; [|done]. cbn [map concat request_typed]. by rewrite E.
Qed.

(** A terminal that takes what waits for it has taken all of the input. *)
Lemma writable_takes_all id t n l s :
  token_to_session l !! t = Some id -> sessions l !! id = Some s -> (length (pending_write s) <= n)%nat ->
  exists s', sessions (session_event la t false true [] [Wrote n] l) !! id = Some s' /\
    accepted_input (pty_master s') = input_of s /\ pending_write s' = [].
Proof.
  intros Ht Hid Hn. unfold session_event. rewrite Ht. cbn [andb negb]. rewrite Hid. cbn [put_session sessions].
  rewrite lookup_insert_eq. eexists. split; [done|]. unfold drain_pending_write, input_of.
  case_bool_decide as E; [cbn; by rewrite E, app_nil_r|]. destruct (pending_write s) as [|b w] eqn:Ep; [done|].
  cbn [drain_loop]. rewrite bool_decide_false by done. rewrite drop_ge, take_ge by done. done.
Qed.

End input.

Definition running_shell : IoLoop BlankTerm :=
  mkIoLoop {[ "shell-1" := new_session (mkPty [] 80 24) 3 (Some 7) 80 24 ]} {[ 3 := "shell-1" ]} 4 [] None [].

Definition busy_calls : list io_call :=
  [Requests true [WriteInput "shell-1" (as_bytes "echo"); SendBootstrap "shell-1"] [Wrote 1; Wrote 2; WriteBlocked];
   SessionReady 3 true true [ReadBytes (as_bytes "$ ")] [Wrote 9];
   Requests true [WriteInput "shell-1" (as_bytes " hi")] []].

Lemma input_is_written_in_order_witness :
  exists l' s', io_run least_key "node" busy_calls running_shell = Ok l' /\
    sessions l' !! "shell-1" = Some s' /\ input_of s' = as_bytes "echo hi" /\
    accepted_input (pty_master s') = as_bytes "echo".
Proof.
  destruct (io_run least_key "node" busy_calls running_shell) as [l'|] eqn:E.
  - destruct (input_is_written_in_order least_key "node" "shell-1" busy_calls running_shell l'
                (new_session (mkPty [] 80 24) 3 (Some 7) 80 24)) as (s' & Hid & Hin).
    + repeat constructor; by intros [=].
    + reflexivity.
    + exact E.
    + exists l', s'. split; [done|]. split; [done|]. split; [exact Hin|].
      vm_compute in E. injection E as <-. vm_compute in Hid. injection Hid as <-. reflexivity.
  - vm_compute in E. discriminate E.
Defined.

(** ** Output *)

(** What a readable terminal gives to the loop: up to the first short read. *)
Fixpoint chunks_read (reads : list pty_read) : list byte :=
  match reads with
  | ReadBytes (b :: bs) :: reads =>
      (b :: bs) ++ (if len (b :: bs) <? PTY_READ_BUF_SIZE then [] else chunks_read reads)
  | _ => []
  end.

(** The session keeps its channel, and no other session gets it. *)
Definition request_quiet (id : string) (tx : Z) (r : AuthorityHostIoRequest) : Prop :=
  match r with
  | SetOutputSender id' tx' => id' <> id /\ tx' <> tx
  | RegisterSession _ _ tx' _ _ => tx' <> Some tx
  | _ => True
  end.

Definition call_quiet (id : string) (tx : Z) (c : io_call) : Prop :=
  call_keeps id c /\ match c with Requests _ rs _ => Forall (request_quiet id tx) rs | _ => True end.

(** What was sent on a channel. *)
Definition on_channel (tx : Z) (sent : list (Z * list byte)) : list byte :=
  concat (map snd (filter (fun x => x.1 = tx) sent)).

Lemma on_channel_app tx a b : on_channel tx (a ++ b) = on_channel tx a ++ on_channel tx b.
Proof. unfold on_channel. by rewrite filter_app, map_app, concat_app. Qed.

Lemma on_channel_none tx o sent :
  Forall (fun x => Some x.1 = o) sent -> o <> Some tx -> on_channel tx sent = [].
Proof.
  intros Hs Ho. unfold on_channel. induction Hs as [|x sent Hx Hs IH]; [done|].
  rewrite filter_cons_False; [done|]. congruence.
Qed.

Section output.
Context {T : Type} `{HostTerm T}.
Context (first_key : gmap string ConsoleState -> option string) (la : string).
Implicit Types (s : SessionState T) (l : IoLoop T).

(** What a session prints during a run: what its terminal gives, and the
    bootstrap frames, each showing the emulator's screen at its time. *)
Definition request_output (id : string) (r : AuthorityHostIoRequest) l : list byte :=
  match r, sessions l !! id with
  | SendBootstrap id', Some s =>
      if bool_decide (id' = id) then bootstrap_ansi_for_term (grid (term s)) else []
  | _, _ => []
  end.

Fixpoint requests_output (id : string) (added : bool) (rs : list AuthorityHostIoRequest)
    (writes : list pty_write) l : list byte :=
  match rs with
  | [] => []
  | r :: rs =>
      request_output id r l ++
      match handle_request first_key la added r writes l with
      | (Ok l, writes) => requests_output id added rs writes l
      | (Err _, _) => []
      end
  end.

Definition call_output (id : string) (c : io_call) l : list byte :=
  match c with
  | Requests added rs writes => requests_output id added rs writes l
  | SessionReady t true _ reads _ =>
      if bool_decide (token_to_session l !! t = Some id) then chunks_read reads else []
  | _ => []
  end.

Fixpoint printed (id : string) (calls : list io_call) l : list byte :=
  match calls with
  | [] => []
  | c :: calls =>
      call_output id c l ++
      match io_step first_key la c l with Ok l => printed id calls l | Err _ => [] end
  end.

(** *** Reading *)

Lemma forward_channel bytes s :
  output_tx (forward_output bytes s).1 = output_tx s /\
  Forall (fun x => Some x.1 = output_tx s) (forward_output bytes s).2.
Proof.
  unfold forward_output. cbn zeta. change (output_tx (set_term _ s)) with (output_tx s).
  destruct (output_tx s); simpl; split; try done; by repeat constructor.
Qed.

Lemma flush_channel s :
  output_tx (flush_output_buffer s).1 = output_tx s /\
  Forall (fun x => Some x.1 = output_tx s) (flush_output_buffer s).2.
Proof.
  unfold flush_output_buffer. case_bool_decide; [by split|].
  destruct (output_tx s) eqn:E; simpl; split; try done; by repeat constructor.
Qed.

Lemma read_channel reads s :
  output_tx (read_pty reads s).1.1 = output_tx s /\
  Forall (fun x => Some x.1 = output_tx s) (read_pty reads s).1.2.
Proof.
  assert (Hl : forall s sent total, Forall (fun x => Some x.1 = output_tx s) sent ->
    output_tx (read_loop reads s sent total).1.1.1 = output_tx s /\
    Forall (fun x => Some x.1 = output_tx s) (read_loop reads s sent total).1.1.2).
  { clear s. induction reads as [|[[|b bs]| |] reads IH]; intros s sent total Hsent; simpl; try done.
    destruct (forward_channel (b :: bs) s) as [Ht Hf].
    destruct (forward_output (b :: bs) s) as [s1 out]. simpl in Ht, Hf.
    assert (Forall (fun x => Some x.1 = output_tx s) (sent ++ out)) by (by apply Forall_app).
    case_match; [done|]. rewrite <- Ht. apply IH. by rewrite Ht. }
  unfold read_pty. destruct (Hl s [] 0) as [Ht Hf]; [done|].
  destruct (read_loop reads s [] 0) as [[[s1 sent] dead] total]. simpl in Ht, Hf.
  destruct dead; [done|]. case_match; [|done]. destruct (flush_channel s1) as [Ht1 Hf1].
  destruct (flush_output_buffer s1). simpl in *. rewrite Ht in Ht1, Hf1. split; [done|by apply Forall_app].
Qed.

Lemma read_forwards reads s tx :
  output_tx s = Some tx -> output_buffer s = [] ->
  output_buffer (read_pty reads s).1.1 = [] /\ on_channel tx (read_pty reads s).1.2 = chunks_read reads.
Proof.
  assert (Hl : forall s sent total, output_tx s = Some tx -> output_buffer s = [] ->
    output_buffer (read_loop reads s sent total).1.1.1 = [] /\
    on_channel tx (read_loop reads s sent total).1.1.2 = on_channel tx sent ++ chunks_read reads).
  { clear s. induction reads as [|[[|b bs]| |] reads IH]; intros s sent total Htx Hb;
      cbn [read_loop chunks_read]; try (by rewrite app_nil_r).
    unfold forward_output. cbn zeta. change (output_tx (set_term _ s)) with (output_tx s). rewrite Htx.
    change (output_buffer (set_term _ s)) with (output_buffer s). rewrite Hb, app_nil_l.
    assert (E : on_channel tx [(tx, b :: bs)] = b :: bs).
    { unfold on_channel. rewrite filter_cons_True by done. simpl. by rewrite app_nil_r. }
    case_match.
    - simpl. by rewrite on_channel_app, E, app_nil_r.
    - destruct (IH (set_output (Some tx) [] (bootstrap_pending s) (set_term (advance (b :: bs) (term s)) s))
                  (sent ++ [(tx, b :: bs)]) (total + len (b :: bs))) as [H1 H2]; [done..|].
      split; [exact H1|]. etrans; [exact H2|]. by rewrite on_channel_app, E, <- (assoc_L (++)). }
  intros Htx Hb. unfold read_pty. destruct (Hl s [] 0 Htx Hb) as [Hb' Hs].
  destruct (read_loop reads s [] 0) as [[[s1 sent] dead] total]. simpl in Hb', Hs.
  destruct dead; [done|]. case_match; [|done]. unfold flush_output_buffer.
  rewrite bool_decide_true by done. by rewrite app_nil_r.
Qed.

(** *** One session to a channel *)

Definition connected (id : string) (tx : Z) l : Prop :=
  (exists s, sessions l !! id = Some s /\ output_tx s = Some tx /\ output_buffer s = []) /\
  (forall id' s', sessions l !! id' = Some s' -> output_tx s' = Some tx -> id' = id).

Lemma connected_put id tx id' s1 s2 sent l :
  connected id tx l -> sessions l !! id' = Some s1 -> output_tx s2 = output_tx s1 ->
  (output_tx s1 = Some tx -> output_buffer s1 = [] -> output_buffer s2 = []) ->
  connected id tx (put_session id' s2 sent l).
Proof.
  intros [(s & Hid & Htx & Hb) Hu] E1 E2 E3. split.
  - simpl. destruct (decide (id' = id)) as [->|Hne].
    + simplify_eq. exists s2. rewrite lookup_insert_eq. by rewrite E2, Htx, E3.
    + exists s. by rewrite lookup_insert_ne.
  - intros id0 s0 H0 Htx0. simpl in H0. apply lookup_insert_Some in H0 as [[<- <-]|[_ H0]].
    + apply (Hu id' s1); [done|congruence].
    + by apply (Hu id0 s0).
Qed.

Lemma drain_output writes s :
  output_tx (drain_pending_write writes s).1 = output_tx s /\
  output_buffer (drain_pending_write writes s).1 = output_buffer s.
Proof.
  unfold drain_pending_write. case_bool_decide; [done|].
  destruct (drain_loop_kept (pending_write s) writes s) as [extra He].
  destruct (drain_loop (pending_write s) writes s) as [[s1 left] w]. simpl in He. subst s1.
  by destruct left.
Qed.

(** A session without the channel sends nothing on it, whatever it does. *)
Lemma put_outputs id tx id' s1 s2 sent l :
  connected id tx l -> sessions l !! id' = Some s1 -> id' <> id ->
  Forall (fun x => Some x.1 = output_tx s1) sent ->
  on_channel tx (outputs (put_session id' s2 sent l)) = on_channel tx (outputs l).
Proof.
  intros [_ Hu] E1 Hne Hs. simpl. rewrite on_channel_app, (on_channel_none tx (output_tx s1) sent), app_nil_r; try done.
  intros E. apply Hne. by apply (Hu id' s1).
Qed.

Lemma bootstrap_channel s : Forall (fun x => Some x.1 = output_tx s) (send_bootstrap s).2.
Proof. unfold send_bootstrap. simpl. destruct (output_tx s); by repeat constructor. Qed.

Lemma request_forwards id tx added r writes l l' writes' :
  request_keeps id r -> request_quiet id tx r -> connected id tx l ->
  handle_request first_key la added r writes l = (Ok l', writes') ->
  connected id tx l' /\ on_channel tx (outputs l') = on_channel tx (outputs l) ++ request_output id r l.
Proof.
  intros Hk Hq Hc. pose proof Hc as [(s & Hid & Htx & Hb) Hu].
  assert (Hput : forall id' s1 s2, sessions l !! id' = Some s1 -> output_tx s2 = output_tx s1 ->
    (output_tx s1 = Some tx -> output_buffer s1 = [] -> output_buffer s2 = []) ->
    connected id tx (put_session id' s2 [] l) /\
    on_channel tx (outputs (put_session id' s2 [] l)) = on_channel tx (outputs l) ++ []).
  { intros id' s1 s2 E1 E2 E3. split; [by apply (connected_put id tx id' s1)|].
    simpl. by rewrite !app_nil_r. }
  unfold request_output. rewrite Hid.
  destruct r as [id' bytes|id' cid cols rows|id' pty tx' cols rows|id'|id' cid|id' tx'|id']; simpl;
    [| |destruct added; [|done]| | | |];
    try (destruct (sessions l !! id') as [s1|] eqn:E1; 
      [|intros [= <- <-]; try rewrite bool_decide_false by congruence; by rewrite app_nil_r]).
  - destruct (append_kept bytes writes s1) as (p & extra & Ha). cbv zeta in Ha.
    destruct (append_input_to_pending_write bytes writes s1) as [s2 w2]. simpl in Ha.
    destruct (drain_output w2 s2) as [D1 D2]. destruct (drain_pending_write w2 s2) as [s3 w3].
    simpl in D1, D2. intros [= <- <-]. subst s2. by apply (Hput id' s1); [|rewrite D1|rewrite D2].
  - intros [= <- <-]. apply (Hput id' s1); [done|..];
      unfold apply_console_resize; by repeat case_bool_decide.
  - intros [= <- <-]. simpl in Hk. rewrite app_nil_r. split; [|done]. split.
    + exists s. simpl. by rewrite lookup_insert_ne.
    + intros id0 s0 H0 E0. simpl in H0. apply lookup_insert_Some in H0 as [[<- <-]|[_ H0]]; [done|eauto].
  - intros [= <- <-]. simpl in Hk. rewrite app_nil_r. split; [|done]. split.
    + exists s. simpl. by rewrite lookup_delete_ne.
    + intros id0 s0 H0 E0. simpl in H0. apply lookup_delete_Some in H0 as [_ H0]. eauto.
  - intros [= <- <-]. apply (Hput id' s1); [done|..]; unfold unregister_console; by repeat case_match.
  - intros [= <- <-]. simpl in Hq. rewrite app_nil_r. split; [|simpl; by rewrite app_nil_r]. split.
    + exists s. simpl. by rewrite lookup_insert_ne by naive_solver.
    + intros id0 s0 H0 E0. simpl in H0. apply lookup_insert_Some in H0 as [[<- <-]|[_ H0]]; [|eauto].
      simpl in E0. naive_solver.
  - intros [= <- <-]. split; [by apply (connected_put id tx id' s1)|]. case_bool_decide as E.
    + simplify_eq. simpl. rewrite on_channel_app, Htx. f_equal. unfold on_channel.
      rewrite filter_cons_True by done. simpl. by rewrite app_nil_r.
    + rewrite app_nil_r. apply (put_outputs id tx id' s1); try done. apply bootstrap_channel.
Qed.

Lemma requests_forward id tx added rs writes l l' :
  Forall (request_keeps id) rs -> Forall (request_quiet id tx) rs -> connected id tx l ->
  (drain_requests first_key la added rs writes l).1 = Ok l' ->
  connected id tx l' /\
  on_channel tx (outputs l') = on_channel tx (outputs l) ++ requests_output id added rs writes l.
Proof.
  revert writes l. induction rs as [|r rs IH]; intros writes l Hk Hq Hc; cbn [drain_requests requests_output].
  - intros [= <-]. by rewrite app_nil_r.
  - apply Forall_cons in Hk as [Hk1 Hk]. apply Forall_cons in Hq as [Hq1 Hq].
    destruct (handle_request _ _ _ _ _ _) as [[l1|e] w1] eqn:E; [|done]. intros Hrun.
    destruct (request_forwards id tx added r writes l l1 w1 Hk1 Hq1 Hc E) as [Hc1 E1].
    destruct (IH w1 l1 Hk Hq Hc1 Hrun) as [Hc' E']. split; [done|]. by rewrite E', E1, (assoc_L (++)).
Qed.

Lemma event_forwards id tx t readable writable reads writes l :
  Forall readable_result reads -> connected id tx l ->
  let l' := session_event la t readable writable reads writes l in
  connected id tx l' /\
  on_channel tx (outputs l') = on_channel tx (outputs l) ++
    (if readable && bool_decide (token_to_session l !! t = Some id) then chunks_read reads else []).
Proof.
  intros Hr Hc. unfold session_event. destruct (token_to_session l !! t) as [id0|]; [|
    rewrite bool_decide_false, andb_false_r by done; simpl; by rewrite app_nil_r].
  assert (Hdrain : forall l, connected id tx l -> let l' :=
    match writable && negb false, sessions l !! id0 with
    | true, Some s => put_session id0 (drain_pending_write writes s).1 [] l
    | _, _ => l
    end in connected id tx l' /\ on_channel tx (outputs l') = on_channel tx (outputs l)).
  { clear l Hc. intros l Hc. destruct writable; [|done]. simpl.
    destruct (sessions l !! id0) as [s|] eqn:E0; [|done].
    split; [|simpl; by rewrite app_nil_r]. apply (connected_put id tx id0 s); try done.
    - apply drain_output.
    - by rewrite (proj2 (drain_output writes s)). }
  destruct readable; [|rewrite app_nil_r; by apply Hdrain].
  destruct (sessions l !! id0) as [s|] eqn:E0.
  - pose proof (read_alive reads s Hr) as Ha. destruct (read_channel reads s) as [Ht Hf].
    pose proof (read_forwards reads s) as Hfw. destruct (read_pty reads s) as [[s1 sent] dead].
    simpl in Ha, Ht, Hf, Hfw. subst dead.
    pose proof Hc as [(s0 & Hid & Htx & Hb) Hu].
    assert (Hp : connected id tx (put_session id0 s1 sent l)).
    { apply (connected_put id tx id0 s); try done. intros E Hnil. by apply (Hfw tx). }
    destruct (Hdrain _ Hp) as [Hc' E']. split; [done|]. etrans; [exact E'|]. simpl.
    rewrite on_channel_app. f_equal. case_bool_decide as E.
    + injection E as ->. simplify_eq. by apply (Hfw tx).
    + apply (on_channel_none tx (output_tx s)); [done|]. intros E1. apply E. f_equal. by apply (Hu id0 s).
  - rewrite bool_decide_false, app_nil_r.
    + rewrite E0. by destruct writable.
    + intros [= ->]. pose proof Hc as [(s0 & Hid & _) _]. congruence.
Qed.

(** Output is forwarded complete and in order: while a session keeps its
    output channel, and its terminal reports no error, what was sent on the
    channel is what was sent before, followed by everything the terminal
    printed since and the bootstrap frames that were asked for, in the order
    in which they came, whatever other sessions do. *)
Theorem output_is_forwarded_in_order id tx calls l l' :
  Forall (call_quiet id tx) calls -> connected id tx l ->
  io_run first_key la calls l = Ok l' ->
  connected id tx l' /\
  on_channel tx (outputs l') = on_channel tx (outputs l) ++ printed id calls l.
Proof.
  intros Hq. revert l. induction Hq as [|c calls [Hk Hq] Hqs IH]; intros l Hc; cbn [io_run printed].
  { intros [= <-]. by rewrite app_nil_r. }
  destruct (io_step first_key la c l) as [l1|e] eqn:E; simpl; [|done]. intros Hrun.
  assert (Hstep : connected id tx l1 /\
    on_channel tx (outputs l1) = on_channel tx (outputs l) ++ call_output id c l).
  { destruct c as [added rs writes|exits|t readable writable reads writes]; simpl in E.
    - destruct Hk. by eapply requests_forward.
    - injection E as <-. rewrite app_nil_r. split; [|done]. destruct Hc. by split.
    - injection E as <-. destruct Hk as [Hr _].
      pose proof (event_forwards id tx t readable writable reads writes l Hr Hc) as He.
      unfold call_output. by destruct readable. }
  destruct Hstep as [Hc1 E1]. destruct (IH l1 Hc1 Hrun) as [Hc' E']. split; [done|].
  by rewrite E', E1, (assoc_L (++)).
Qed.

End output.

Lemma output_is_forwarded_in_order_witness :
  exists l', io_run least_key "node" busy_calls running_shell = Ok l' /\
    connected "shell-1" 7 l' /\
    on_channel 7 (outputs l') =
      bootstrap_ansi_for_term (grid (term_new (T := BlankTerm) 80 24)) ++ as_bytes "$ ".
Proof.
  destruct (io_run least_key "node" busy_calls running_shell) as [l'|] eqn:E.
  - exists l'. split; [done|].
    destruct (output_is_forwarded_in_order least_key "node" "shell-1" 7 busy_calls running_shell l')
      as [Hc Ho].
    + repeat constructor; by intros [=].
    + split; [eexists; by split_and!|]. intros id' s' H' _. simpl in H'.
      apply lookup_singleton_Some in H' as [<- _]. done.
    + exact E.
    + split; [exact Hc|]. rewrite Ho. vm_compute. reflexivity.
  - vm_compute in E. discriminate E.
Defined.
