(* ===== verification/TargetHost.v ===== *)
(** * Target host: a hosted session and its viewer

    The authority host of
    [src/remote/node/remote_node_session_sync_runtime/local_session_sync_backends.rs]:
    a viewer's commands come over the network, [deliver_command] writes them
    into one end of a socket pair, and the reader thread of
    [spawn_ratatui_authority_target_host] turns them into requests to the loop
    of [HostIo]. Output takes the other way: the pump frames what comes from
    the session's output channel, and [forward_ratatui_host_output] passes it
    on to the network. Pasted files come in chunks and are put together by
    [PasteFileAssembler].

    Times are milliseconds. Writing a pasted file is an argument ([cache]):
    the name it gets is random. So is the name of the program in the
    foreground of the terminal, which the process monitor finds out. *)

From S2P Require Import Prelude Bytes Tasks Utf8 Ansi Screen Terminal SessionCatalog Protocol Codec.
From S2P Require Import CodecRoundTrip AuthorityTransport RemoteSession Decimal HostGrid HostIo.
From stdpp Require Import pretty strings.
From Stdlib Require Import Strings.Ascii.
#[local] Open Scope Z_scope.

(** ** Names *)

(** [str::rsplit_once(':')]. *)
Fixpoint rsplit_colon (s : string) : option (string * string) :=
  match s with
  | EmptyString => None
  | String c rest =>
      match rsplit_colon rest with
      | Some (before, after) => Some (String c before, after)
      | None => if decide (c = ":"%char) then Some (EmptyString, rest) else None
      end
  end.

Definition target_session_name_from_target_id (target_id : string) : option string :=
  let stripped :=
    match strip_str_prefix "remote-peer:" target_id with
    | Some rest => rest
    | None =>
        match strip_str_prefix "local-tmux:" target_id with
        | Some rest => rest
        | None => default target_id (strip_str_prefix "remote:" target_id)
        end
    end in
  match rsplit_colon stripped with
  | Some (_, session_name) => if bool_decide (session_name = EmptyString) then None else Some session_name
  | None => None
  end.

Definition sanitize_path_component (value : text) : text :=
  map (fun ch =>
         if ((97 <=? ch) && (ch <=? 122)) || ((65 <=? ch) && (ch <=? 90)) ||
            ((48 <=? ch) && (ch <=? 57)) || (ch =? 45) || (ch =? 95)
         then ch else 95) value.

(** ** Delivering commands *)

Definition SESSION_SYNC_AUTHORITY_ID : string := "waitagent-session-sync-authority".

Definition authority_command_target_id (command : RemoteAuthorityCommand) : string :=
  match command with
  | CommandOpenMirror p => omreq_target_id p
  | CommandCloseMirror p => cmreq_target_id p
  | CommandRawPtyInput p => rin_target_id p
  | CommandPasteFile p => paste_target_id p
  | CommandApplyResize p => ares_target_id p
  | CommandSyncRequest _ _ | CommandHeartbeatPing => EmptyString
  end.

Definition command_session_id (command : RemoteAuthorityCommand) : option string :=
  match command with
  | CommandOpenMirror p => Some (omreq_session_id p)
  | CommandCloseMirror p => Some (cmreq_session_id p)
  | CommandRawPtyInput p => Some (rin_session_id p)
  | CommandPasteFile p => Some (paste_session_id p)
  | CommandApplyResize p => Some (ares_session_id p)
  | CommandSyncRequest _ _ | CommandHeartbeatPing => None
  end.

Definition command_payload (command : RemoteAuthorityCommand) : ControlPlanePayload :=
  match command with
  | CommandOpenMirror p => OpenMirrorRequest p
  | CommandCloseMirror p => CloseMirrorRequest p
  | CommandRawPtyInput p => RawPtyInput p
  | CommandPasteFile p => PasteFileRequest p
  | CommandApplyResize p => ApplyResize p
  | CommandSyncRequest _ _ | CommandHeartbeatPing =>
      Error (mkError "local_sync_request_not_routable"
        "sync request is local to authority transport" None)
  end.

(** The clock is read twice. *)
Definition authority_command_envelope (now1 now2 : Z) (command : RemoteAuthorityCommand) :
    ProtocolEnvelope :=
  mkProtocolEnvelope REMOTE_PROTOCOL_VERSION ("session-sync-authority-" +:+ pretty now1)%string
    (message_type (command_payload command)) (now_rfc3339_like now2) SESSION_SYNC_AUTHORITY_ID None
    (command_session_id command) None None None (command_payload command).

Inductive AuthorityHostSignal := Ready | Starting | SignalClosed.

(** The shared state of a host: whether the writing end is there, what was
    written to it, and the flags. *)
Record SessionSyncAuthorityHost := mkAuthorityHost {
  host_writer : bool;
  host_written : list byte;
  host_running : bool;
  host_threads_alive : bool }.

Definition authority_host_signal (h : SessionSyncAuthorityHost) : AuthorityHostSignal :=
  if host_writer h then Ready else if host_running h then Starting else SignalClosed.

(** [deliver_command], once the writer is there or the wait for it is over. *)
Definition deliver_command (now1 now2 : Z) (w : io) (command : RemoteAuthorityCommand)
    (h : SessionSyncAuthorityHost) : SessionSyncAuthorityHost * AuthorityHostSignal :=
  if host_writer h then
    let '(bs, r) := write_control_plane_envelope (authority_command_envelope now1 now2 command) in
    match r, w with
    | Ok _, Taken =>
        (mkAuthorityHost true (host_written h ++ bs) (host_running h) (host_threads_alive h), Ready)
    | Ok _, Broken n =>
        (mkAuthorityHost false (host_written h ++ take n bs) (host_running h) (host_threads_alive h),
         SignalClosed)
    | Err _, _ =>
        (mkAuthorityHost false (host_written h ++ bs) (host_running h) (host_threads_alive h),
         SignalClosed)
    end
  else (h, if host_running h then Starting else SignalClosed).

Definition shutdown_authority_host (h : SessionSyncAuthorityHost) : SessionSyncAuthorityHost :=
  mkAuthorityHost (host_writer h) (host_written h) false (host_threads_alive h).

(** ** Pasted files *)

Record PasteFileAssembler := mkAssembler {
  asm_filename_hint : string;
  asm_total_chunks : Z;
  asm_chunks : gmap Z (list byte);
  asm_last_received : Z }.

Definition PASTE_FILE_ASSEMBLER_TIMEOUT : Z := 300 * 1000.

Definition assembler_new (hint : string) (total now : Z) : PasteFileAssembler :=
  mkAssembler hint total ∅ now.

Definition is_complete (a : PasteFileAssembler) : bool :=
  wrap 32 (Z.of_nat (base.size (asm_chunks a))) =? asm_total_chunks a.

Definition is_stale (now : Z) (a : PasteFileAssembler) : bool :=
  PASTE_FILE_ASSEMBLER_TIMEOUT <=? now - asm_last_received a.

(** The chunks in order; an index without a chunk is skipped. *)
Definition assemble (a : PasteFileAssembler) : list byte :=
  concat (map (fun i => default [] (asm_chunks a !! i)) (seqZ 0 (asm_total_chunks a))).

(** [touch], and the insertion of the chunk. *)
Definition add_chunk (now index : Z) (bytes : list byte) (a : PasteFileAssembler) : PasteFileAssembler :=
  mkAssembler (asm_filename_hint a) (asm_total_chunks a) (<[index := bytes]> (asm_chunks a)) now.

(** The chunk's way into the table of transfers: abandoned transfers are
    forgotten, one that disagrees on the number of chunks starts anew, and a
    complete one is taken out. *)
Definition receive_chunk (now : Z) (p : PasteFileRequestPayload)
    (m : gmap (string * string) PasteFileAssembler) :
    gmap (string * string) PasteFileAssembler * option PasteFileAssembler :=
  let key := (paste_session_id p, paste_file_id p) in
  let m := filter (fun x => is_stale now x.2 = false) m in
  let m :=
    match m !! key with
    | Some a => if asm_total_chunks a =? paste_total_chunks p then m else delete key m
    | None => m
    end in
  let a := default (assembler_new (paste_filename_hint p) (paste_total_chunks p) now) (m !! key) in
  let a := add_chunk now (paste_chunk_index p) (paste_chunk_bytes p) a in
  if is_complete a then (delete key m, Some a) else (<[key := a]> m, None).

(** *** The reference that is typed *)

Definition AT_REFERENCE_AGENTS : list string := ["kimi"; "claude"; "codex"].

Definition accepts_at_reference (command_name : string) : bool :=
  bool_decide (command_name ∈ AT_REFERENCE_AGENTS).

Definition authority_host_supports_at_from_record (catalog : gmap string ManagedSessionRecord)
    (local_authority session_id : string) : option bool :=
  match catalog !! qualified_target (local local_authority session_id) with
  | Some r => accepts_at_reference <$> agent_command_name r
  | None => None
  end.

(** [foreground] is the name of the program in the foreground. *)
Definition authority_host_supports_at (catalog : gmap string ManagedSessionRecord)
    (local_authority session_id : string) (foreground : option string) : bool :=
  match authority_host_supports_at_from_record catalog local_authority session_id with
  | Some supports => supports
  | None => match foreground with Some name => accepts_at_reference name | None => false end
  end.

Definition str_chars (s : string) : text := valid_chars (str_from_utf8 (as_bytes s)).

Definition QUOTE : string := String (ascii_of_nat 34) EmptyString.

Definition format_file_reference (path : string) (supports_at : bool) : string :=
  if negb supports_at then path
  else if existsb is_whitespace (str_chars path) then (QUOTE +:+ "@" +:+ path +:+ QUOTE)%string
  else ("@" +:+ path)%string.

(** ** The reader of a target host *)

Definition BOOTSTRAP_STABLE_WINDOW : Z := 300.

(** Besides the thread's variables: the requests it sent to the loop, the
    pongs it wrote, and the files it cached. *)
Record TargetHost := mkTargetHost {
  mirror_active : bool;
  viewer_console_id : option string;
  paste_file_assemblers : gmap (string * string) PasteFileAssembler;
  bootstrap_deadline : option Z;
  io_requests : list AuthorityHostIoRequest;
  pongs : Z;
  cached_files : list (string * list byte) }.

Definition target_host_new : TargetHost := mkTargetHost false None ∅ None [] 0 [].

Section reader.
(** The hosted session; the file cache: given what it holds, a name hint and
    the bytes, the path; and whether the program takes [@] references. *)
Context (sid : string) (cache : list (string * list byte) -> string -> list byte -> option string).
Context (supports_at : bool).

Definition send_request (r : AuthorityHostIoRequest) (h : TargetHost) : TargetHost :=
  mkTargetHost (mirror_active h) (viewer_console_id h) (paste_file_assemblers h) (bootstrap_deadline h)
    (io_requests h ++ [r]) (pongs h) (cached_files h).

Definition maybe_send_bootstrap (now : Z) (h : TargetHost) : TargetHost :=
  match bootstrap_deadline h with
  | Some deadline =>
      if deadline <=? now then
        let h := send_request (SendBootstrap sid) h in
        mkTargetHost (mirror_active h) (viewer_console_id h) (paste_file_assemblers h) None
          (io_requests h) (pongs h) (cached_files h)
      else h
  | None => h
  end.

(** How long a read may wait: not past the deadline of a bootstrap. *)
Definition AUTHORITY_TRANSPORT_SOCKET_TIMEOUT : Z := 1000.

Definition host_read_timeout (now : Z) (h : TargetHost) : Z :=
  match bootstrap_deadline h with
  | Some deadline => Z.min (Z.max 0 (deadline - now)) AUTHORITY_TRANSPORT_SOCKET_TIMEOUT
  | None => AUTHORITY_TRANSPORT_SOCKET_TIMEOUT
  end.

Definition host_open_mirror (now : Z) (p : OpenMirrorRequestPayload) (h : TargetHost) : TargetHost :=
  let h := send_request (Resize sid (omreq_console_id p) (wrap 16 (omreq_cols p)) (wrap 16 (omreq_rows p))) h in
  mkTargetHost true (Some (omreq_console_id p)) (paste_file_assemblers h)
    (Some (now + BOOTSTRAP_STABLE_WINDOW)) (io_requests h) (pongs h) (cached_files h).

Definition host_apply_resize (p : ApplyResizePayload) (h : TargetHost) : TargetHost :=
  let console := ares_resize_authority_console_id p in
  let h := send_request (Resize sid console (wrap 16 (ares_cols p)) (wrap 16 (ares_rows p))) h in
  mkTargetHost (mirror_active h) (Some console) (paste_file_assemblers h) (bootstrap_deadline h)
    (io_requests h) (pongs h) (cached_files h).

(** The viewer's console is given up, if there is one. *)
Definition release_console (active : bool) (h : TargetHost) : TargetHost :=
  let h := match viewer_console_id h with
           | Some console => send_request (UnregisterConsole sid console) h
           | None => h
           end in
  mkTargetHost active None (paste_file_assemblers h) (bootstrap_deadline h) (io_requests h) (pongs h)
    (cached_files h).

(** A completed file is cached, and a reference to it is typed. *)
Definition host_paste (now : Z) (p : PasteFileRequestPayload) (h : TargetHost) : TargetHost :=
  let '(m, complete) := receive_chunk now p (paste_file_assemblers h) in
  let h := mkTargetHost (mirror_active h) (viewer_console_id h) m (bootstrap_deadline h)
             (io_requests h) (pongs h) (cached_files h) in
  match complete with
  | None => h
  | Some a =>
      let bytes := assemble a in
      match cache (cached_files h) (asm_filename_hint a) bytes with
      | Some path =>
          let h := mkTargetHost (mirror_active h) (viewer_console_id h) m (bootstrap_deadline h)
                     (io_requests h) (pongs h) (cached_files h ++ [(asm_filename_hint a, bytes)]) in
          send_request (WriteInput sid (as_bytes (format_file_reference path supports_at))) h
      | None => h
      end
  end.

Definition host_payload (now : Z) (p : ControlPlanePayload) (h : TargetHost) : TargetHost :=
  match p with
  | OpenMirrorRequest p => host_open_mirror now p h
  | RawPtyInput p => send_request (WriteInput sid (rin_input_bytes p)) h
  | ApplyResize p => host_apply_resize p h
  | CloseMirrorRequest _ => release_console false h
  | PasteFileRequest p => host_paste now p h
  | _ => h
  end.

Definition host_frame (now : Z) (f : AuthorityTransportFrame) (h : TargetHost) : TargetHost :=
  match f with
  | FrameControlPlane envelope => host_payload now (env_payload envelope) h
  | FrameRawPtyInput p => send_request (WriteInput sid (rin_input_bytes p)) h
  | FramePing =>
      mkTargetHost (mirror_active h) (viewer_console_id h) (paste_file_assemblers h)
        (bootstrap_deadline h) (io_requests h) (pongs h + 1) (cached_files h)
  | _ => h
  end.

(** The loop: each turn looks at the clock before the read, after it, and at
    its end. It ends when the host stops or a read fails; then the console is
    released. [None] when the fuel runs out. *)
Fixpoint host_loop (fuel : nat) (running : nat -> bool) (clock : nat -> Z) (n : nat)
    (s : list arrival) (h : TargetHost) : option (TargetHost * option codec_error) :=
  match fuel with
  | O => None
  | S fuel =>
      if running n then
        let h := maybe_send_bootstrap (clock (3 * n)%nat) h in
        match read_authority_transport_frame s with
        | (Ok f, s) =>
            let h := host_frame (clock (3 * n + 1)%nat) f h in
            host_loop fuel running clock (S n) s (maybe_send_bootstrap (clock (3 * n + 2)%nat) h)
        | (Err e, s) =>
            if is_read_timeout e
            then host_loop fuel running clock (S n) s (maybe_send_bootstrap (clock (3 * n + 2)%nat) h)
            else Some (release_console (mirror_active h) h, Some e)
        end
      else Some (release_console (mirror_active h) h, None)
  end.

Definition target_host (running : nat -> bool) (clock : nat -> Z) (s : list arrival) :
    option (TargetHost * option codec_error) :=
  host_loop (S (length s)) running clock 0 s target_host_new.

End reader.

(** ** The output pump *)

(** One turn of the pump: no mirror is open, nothing came in time, some
    messages of the channel (all that are there), or the channel is closed. *)
Inductive pump_turn :=
| Inactive
| NoOutput
| Batch (first : list byte) (more : list (list byte)) (w : io)
| Disconnected.

Section pump.
Context (sid target : string).

Definition pump_frame (output_seq : Z) (chunk : list byte) : AuthorityTransportFrame :=
  FrameRawPtyOutput (mkRawPtyOutput sid target output_seq chunk).

(** What the pump writes, and whether it is still alive. *)
Fixpoint pump (turns : list pump_turn) (output_seq : Z) : list byte * bool :=
  match turns with
  | [] => ([], true)
  | Inactive :: turns | NoOutput :: turns => pump turns output_seq
  | Disconnected :: _ => ([], false)
  | Batch first more w :: turns =>
      let '(bs, r) := write_authority_transport_frame (pump_frame output_seq (concat (first :: more))) in
      match r, w with
      | Ok _, Taken =>
          let '(rest, alive) := pump turns (wrap 64 (output_seq + 1)) in (bs ++ rest, alive)
      | Ok _, Broken n => (take n bs, false)
      | Err _, _ => (bs, false)
      end
  end.

End pump.

(** ** Forwarding the output *)

Section forwarding.
Context (node_id : string).

Definition host_output_envelope (p : RawPtyOutputPayload) : ProtocolEnvelope :=
  mkProtocolEnvelope REMOTE_PROTOCOL_VERSION
    (node_id +:+ "-raw-pty-output-" +:+ pretty (rout_output_seq p))%string "raw_pty_output"
    EmptyString node_id None (Some (rout_session_id p)) (Some (rout_target_id p)) None None (RawPtyOutput p).

(** What the forwarder makes of a frame: an envelope to pass on, nothing, or
    an error. *)
Definition forward_host_frame (f : AuthorityTransportFrame) :
    result (option ProtocolEnvelope) transport_error :=
  match f with
  | FrameControlPlane envelope => Ok (Some envelope)
  | FrameRawPtyOutput p => Ok (Some (host_output_envelope p))
  | FramePing | FramePong => Ok None
  | other => Err (UnexpectedFrame other)
  end.

(** [forward_ratatui_host_output]: the envelopes handed to the route, which
    takes them while [route n] holds, and how the loop ended. *)
Fixpoint forward_loop (fuel : nat) (running route : nat -> bool) (n : nat) (s : list arrival) :
    list ProtocolEnvelope * option (result unit transport_error) :=
  match fuel with
  | O => ([], None)
  | S fuel =>
      if running n then
        match read_authority_transport_frame s with
        | (Ok f, s) =>
            match forward_host_frame f with
            | Ok (Some envelope) =>
                if route n
                then let '(out, r) := forward_loop fuel running route (S n) s in (envelope :: out, r)
                else ([], Some (Err TransportClosed))
            | Ok None => forward_loop fuel running route (S n) s
            | Err e => ([], Some (Err e))
            end
        | (Err e, s) =>
            if is_read_timeout e then forward_loop fuel running route (S n) s
            else ([], Some (Err (TransportCodec e)))
        end
      else ([], Some (Ok tt))
  end.

Definition forward_ratatui_host_output (running route : nat -> bool) (s : list arrival) :
    list ProtocolEnvelope * option (result unit transport_error) :=
  forward_loop (S (length s)) running route 0 s.

End forwarding.

(** ** A pasted file arrives *)

Lemma seqZ_snoc a n : 0 <= n -> seqZ a (n + 1) = seqZ a n ++ [a + n].
Proof. intros Hn. rewrite seqZ_app by lia. by rewrite (seqZ_cons (a + n)) by lia. Qed.

Lemma chunks_prefix bytes n :
  0 <= n -> concat (map (chunk_bytes bytes) (seqZ 0 n)) = take (Z.to_nat (n * CHUNK_SIZE)) bytes.
Proof.
  intros Hn. pattern n. apply natlike_ind; [done| |done]. clear n Hn. intros n Hn IH.
  rewrite <- Z.add_1_r, seqZ_snoc, map_app, concat_app, IH by done. simpl. rewrite app_nil_r, Z.add_0_l.
  unfold chunk_bytes. rewrite take_take_drop. f_equal. unfold CHUNK_SIZE. lia.
Qed.

(** The size a file may have for its chunks to be counted in 32 bits. *)
Definition pasteable (bytes : list byte) : Prop := len bytes <= (2 ^ 32 - 1) * CHUNK_SIZE.

Lemma total_chunks_bounds bytes :
  pasteable bytes -> 1 <= total_chunks bytes < 2 ^ 32 /\ len bytes <= total_chunks bytes * CHUNK_SIZE.
Proof.
  unfold pasteable, total_chunks, CHUNK_SIZE. intros Hb. pose proof (len_nonneg bytes).
  case_bool_decide as E; [subst; unfold len; simpl; lia|].
  assert (1 <= len bytes) by (destruct bytes; [done|unfold len; simpl; lia]).
  pose proof (Z.div_mod (len bytes + 1024 * 1024 - 1) (1024 * 1024) ltac:(lia)).
  pose proof (Z.mod_pos_bound (len bytes + 1024 * 1024 - 1) (1024 * 1024) ltac:(lia)).
  unfold wrap. rewrite Z.mod_small; lia.
Qed.

Lemma chunks_whole bytes :
  pasteable bytes -> concat (map (chunk_bytes bytes) (seqZ 0 (total_chunks bytes))) = bytes.
Proof.
  intros Hb. destruct (total_chunks_bounds bytes Hb) as [Hn Hl]. rewrite chunks_prefix by lia.
  apply take_ge. unfold len in Hl. lia.
Qed.

#[local] Opaque chunk_bytes.

Section pasting.
Context (sid : string) (cache : list (string * list byte) -> string -> list byte -> option string).
Context (supports_at : bool) (s : RatatuiRemoteSession) (hint file_id : string) (bytes : list byte).
Context (Hbytes : pasteable bytes).

Let key := (rs_session_id s, file_id).
Let total := total_chunks bytes.
Let payload := paste_payload s hint file_id bytes.

(** The chunks received so far, newest first. *)
Definition received (got : list Z) : gmap Z (list byte) :=
  list_to_map (map (fun i => (i, chunk_bytes bytes i)) got).

Lemma received_size got : NoDup got -> base.size (received got) = length got.
Proof.
  intros Hn. unfold received. rewrite map_size_list_to_map; [by rewrite length_map|].
  rewrite <- list_fmap_compose. by rewrite list_fmap_id.
Qed.

Lemma received_lookup got i : i ∈ got -> received got !! i = Some (chunk_bytes bytes i).
Proof.
  unfold received. induction got as [|j got IH]; [by intros ?%not_elem_of_nil|]. intros Hi. simpl.
  destruct (decide (j = i)) as [->|Hne]; [apply lookup_insert_eq|].
  rewrite lookup_insert_ne by done. apply IH. set_solver.
Qed.

(** A transfer under way, last touched at [t]. *)
Definition under_way (got : list Z) (t : Z) (m : gmap (string * string) PasteFileAssembler) : Prop :=
  match got with
  | [] => m !! key = None
  | _ => m !! key = Some (mkAssembler hint total (received got) t)
  end.

Lemma receive_next got t t' i m :
  under_way got t m -> t' - t < PASTE_FILE_ASSEMBLER_TIMEOUT ->
  NoDup (i :: got) -> Z.of_nat (length (i :: got)) <= total ->
  exists m', receive_chunk t' (payload i) m =
    (m', if Z.of_nat (length (i :: got)) =? total
         then Some (mkAssembler hint total (received (i :: got)) t') else None) /\
    if Z.of_nat (length (i :: got)) =? total then m' !! key = None else under_way (i :: got) t' m'.
Proof.
  intros Hm Ht Hn Hl. destruct (total_chunks_bounds bytes Hbytes) as [Htot _]. fold total in Htot.
  unfold receive_chunk. change (paste_session_id (payload i), paste_file_id (payload i)) with key.
  change (paste_filename_hint (payload i)) with hint. change (paste_total_chunks (payload i)) with total.
  change (paste_chunk_index (payload i)) with i. change (paste_chunk_bytes (payload i)) with (chunk_bytes bytes i).
  set (m1 := filter _ m).
  assert (E1 : m1 !! key = match got with [] => None | _ => Some (mkAssembler hint total (received got) t) end).
  { unfold m1, under_way in *. destruct got as [|j got].
    - apply map_lookup_filter_None. by left.
    - apply map_lookup_filter_Some. split; [done|]. unfold is_stale. simpl. apply Z.leb_gt. lia. }
  cbv zeta. set (a := add_chunk t' i (chunk_bytes bytes i) _).
  set (m2 := match m1 !! key with Some _ => _ | None => m1 end) in a |- *.
  assert (E2 : m2 !! key = m1 !! key).
  { unfold m2. rewrite E1. destruct got; [done|]. simpl. by rewrite Z.eqb_refl, E1. }
  assert (Ea : a = mkAssembler hint total (received (i :: got)) t').
  { unfold a. rewrite E2, E1. by destruct got. }
  assert (Ec : is_complete a = (Z.of_nat (length (i :: got)) =? total)).
  { rewrite Ea. unfold is_complete. cbn [asm_chunks asm_total_chunks].
    rewrite received_size by done. unfold wrap. by rewrite Z.mod_small by lia. }
  rewrite Ec, Ea. destruct (Z.of_nat (length (i :: got)) =? total).
  - eexists. split; [done|]. apply lookup_delete_eq.
  - eexists. split; [done|]. apply lookup_insert_eq.
Qed.

(** The chunks [ds], each at its time, arrive at a target host. *)
Definition paste_run (ds : list (Z * Z)) (h : TargetHost) : TargetHost :=
  fold_left (fun h d => host_paste sid cache supports_at d.1 (payload d.2) h) ds h.

Definition in_window (t0 t : Z) : Prop := t0 <= t < t0 + PASTE_FILE_ASSEMBLER_TIMEOUT.

Lemma assemble_received got t :
  (forall i, i ∈ seqZ 0 total -> i ∈ got) -> assemble (mkAssembler hint total (received got) t) = bytes.
Proof.
  intros Hall. unfold assemble. cbn [asm_chunks asm_total_chunks].
  etrans; [|apply (chunks_whole bytes Hbytes)]. f_equal. fold total.
  apply list_fmap_ext. intros k i Hi. rewrite received_lookup; [done|].
  apply Hall. by apply list_elem_of_lookup_2 with k.
Qed.

Lemma paste_run_from path t0 got t ds h :
  ds <> [] -> under_way got t (paste_file_assemblers h) -> in_window t0 t ->
  Forall (fun d => in_window t0 d.1) ds -> NoDup (map snd ds ++ got) ->
  Z.of_nat (length ds + length got) = total ->
  (forall i, i ∈ seqZ 0 total -> i ∈ map snd ds ++ got) ->
  cache (cached_files h) hint bytes = Some path ->
  let h' := paste_run ds h in
  cached_files h' = cached_files h ++ [(hint, bytes)] /\
  io_requests h' = io_requests h ++ [WriteInput sid (as_bytes (format_file_reference path supports_at))] /\
  paste_file_assemblers h' !! key = None.
Proof.
  intros Hne Hm Ht Hds Hnd Hlen Hall Hcache. revert got t h Hne Hm Ht Hnd Hlen Hall Hcache.
  induction Hds as [|[t' i] ds Ht' Hds IH]; intros got t h Hne Hm Ht Hnd Hlen Hall Hcache; [done|].
  cbn [map snd fst length app] in *. unfold paste_run. cbn [fold_left fst snd].
  apply NoDup_cons in Hnd as [Hni Hnd].
  assert (Hnd' : NoDup (i :: got)).
  { constructor; [set_solver|]. by apply NoDup_app in Hnd as (_ & _ & ?). }
  unfold in_window in *.
  destruct (receive_next got t t' i (paste_file_assemblers h)) as (m' & E & Hm');
    [done|lia|done|cbn [length]; lia|].
  remember (host_paste sid cache supports_at t' (payload i) h) as h1 eqn:Eh.
  unfold host_paste in Eh. rewrite E in Eh. destruct ds as [|d ds].
  - rewrite (proj2 (Z.eqb_eq _ _)) in Hm', Eh by (cbn [length] in *; lia).
    cbn [cached_files asm_filename_hint] in Eh.
    rewrite (assemble_received _ _ Hall), Hcache in Eh. by subst h1.
  - rewrite (proj2 (Z.eqb_neq _ _)) in Hm', Eh by (cbn [length] in *; lia).
    replace (io_requests h) with (io_requests h1) by (by subst).
    replace (cached_files h) with (cached_files h1) in Hcache |- * by (by subst).
    apply (IH (i :: got) t' h1); try done; [by subst h1|..].
    + rewrite <- Permutation_middle. by constructor.
    + cbn [length] in *. lia.
    + intros j Hj. specialize (Hall j Hj). rewrite <- Permutation_middle. exact Hall.
Qed.

End pasting.

(** C30. A pasted file arrives whole: its chunks may come in any order, each
    within five minutes of the first; when the last one is there the file that
    the viewer read is cached exactly once, byte for byte, a reference to it
    is typed into the terminal, and nothing of the transfer is left. *)
Theorem pasted_file_arrives sid cache supports_at s hint file_id bytes path t0 ds h :
  pasteable bytes ->
  Permutation (map snd ds) (seqZ 0 (total_chunks bytes)) -> Forall (fun d => in_window t0 d.1) ds ->
  paste_file_assemblers h !! (rs_session_id s, file_id) = None ->
  cache (cached_files h) hint bytes = Some path ->
  let h' := paste_run sid cache supports_at s hint file_id bytes ds h in
  cached_files h' = cached_files h ++ [(hint, bytes)] /\
  io_requests h' = io_requests h ++ [WriteInput sid (as_bytes (format_file_reference path supports_at))] /\
  paste_file_assemblers h' !! (rs_session_id s, file_id) = None.
Proof.
  intros Hb Hperm Hds Hm Hcache. destruct (total_chunks_bounds bytes Hb) as [Hn _].
  assert (Hlen : Z.of_nat (length ds) = total_chunks bytes).
  { rewrite <- (length_map snd), Hperm, length_seqZ. lia. }
  apply (paste_run_from sid cache supports_at s hint file_id bytes Hb path t0 [] t0); try done.
  - intros ->. simpl in Hlen. lia.
  - unfold in_window, PASTE_FILE_ASSEMBLER_TIMEOUT. lia.
  - rewrite app_nil_r, Hperm. apply NoDup_seqZ.
  - simpl. lia.
  - intros i Hi. by rewrite app_nil_r, Hperm.
Qed.

(** Two chunks that arrive in the wrong order, for the witness. *)
Lemma pasted_file_arrives_witness :
  let bytes := replicate (Z.to_nat CHUNK_SIZE) x61 ++ as_bytes "end" in
  let cache := fun _ _ _ => Some "/tmp/waitagent/notes-x.txt" in
  let h' := paste_run "shell-1" cache true sample_session "notes.txt" "f1" bytes [(5, 1); (9, 0)]
              target_host_new in
  cached_files h' = [("notes.txt", bytes)] /\
  io_requests h' = [WriteInput "shell-1" (as_bytes "@/tmp/waitagent/notes-x.txt")] /\
  paste_file_assemblers h' !! ("shell-1", "f1") = None.
Proof.
  intros bytes cache.
  assert (Hl : len bytes = CHUNK_SIZE + 3).
  { unfold bytes. rewrite len_app. change (len (as_bytes "end")) with 3.
    unfold len. rewrite length_replicate, Z2Nat.id; [done|]. unfold CHUNK_SIZE. lia. }
  assert (Ht : total_chunks bytes = 2).
  { unfold total_chunks. rewrite Hl, bool_decide_false; [reflexivity|].
    intros E. rewrite E in Hl. discriminate Hl. }
  apply (pasted_file_arrives "shell-1" cache true sample_session "notes.txt" "f1" bytes
           "/tmp/waitagent/notes-x.txt" 0).
  - unfold pasteable. rewrite Hl. unfold CHUNK_SIZE. lia.
  - rewrite Ht. simpl. by apply Permutation_swap.
  - repeat constructor; unfold PASTE_FILE_ASSEMBLER_TIMEOUT; simpl; lia.
  - reflexivity.
  - reflexivity.
Defined.

(** A chunk with an index outside the file completes it: chunks are counted,
    not their indices, so a file of two chunks of which the second arrives
    under any other index is cached without it. *)
Theorem stray_chunk_completes_the_file sid cache supports_at now1 now2 session target hint file_id
    first stray index path h :
  2 <= index -> now2 - now1 < PASTE_FILE_ASSEMBLER_TIMEOUT ->
  paste_file_assemblers h !! (session, file_id) = None ->
  cache (cached_files h) hint first = Some path ->
  let h' := host_paste sid cache supports_at now2 (mkPasteFileRequest session target hint file_id 2 index stray)
              (host_paste sid cache supports_at now1
                 (mkPasteFileRequest session target hint file_id 2 0 first) h) in
  cached_files h' = cached_files h ++ [(hint, first)].
Proof.
  intros Hi Ht Hm Hcache. set (m := filter (fun x => is_stale now1 x.2 = false) (paste_file_assemblers h)).
  assert (Em : m !! (session, file_id) = None) by (apply map_lookup_filter_None; by left).
  set (a := mkAssembler hint 2 {[0 := first]} now1).
  assert (E1 : receive_chunk now1 (mkPasteFileRequest session target hint file_id 2 0 first)
                 (paste_file_assemblers h) = (<[(session, file_id) := a]> m, None)).
  { unfold receive_chunk. fold m. simpl. rewrite Em. simpl. rewrite Em. done. }
  assert (E2 : exists m', receive_chunk now2 (mkPasteFileRequest session target hint file_id 2 index stray)
                 (<[(session, file_id) := a]> m) =
               (m', Some (mkAssembler hint 2 (<[index := stray]> {[0 := first]}) now2))).
  { unfold receive_chunk. cbn [paste_session_id paste_file_id paste_filename_hint paste_total_chunks
      paste_chunk_index paste_chunk_bytes]. set (m1 := filter _ _).
    assert (E : m1 !! (session, file_id) = Some a).
    { apply map_lookup_filter_Some. split; [apply lookup_insert_eq|].
      unfold is_stale. simpl. apply Z.leb_gt. lia. }
    rewrite E. cbn [asm_total_chunks a Z.eqb Pos.eqb]. rewrite E. cbn [default].
    change (add_chunk now2 index stray (id a))
      with (mkAssembler hint 2 (<[index := stray]> {[0 := first]}) now2).
    unfold is_complete. cbn [asm_chunks asm_total_chunks].
    rewrite map_size_insert_None, map_size_singleton by (apply lookup_singleton_ne; lia). simpl. eauto. }
  destruct E2 as [m' E2]. cbv zeta. unfold host_paste at 2. rewrite E1.
  unfold host_paste. cbn [paste_file_assemblers]. rewrite E2. cbn [cached_files asm_filename_hint].
  assert (Ea : assemble (mkAssembler hint 2 (<[index := stray]> {[0 := first]}) now2) = first).
  { unfold assemble. cbn [asm_chunks asm_total_chunks].
    change (seqZ 0 2) with [0; 1]. simpl.
    rewrite !lookup_insert_ne, lookup_singleton_eq, lookup_singleton_ne by lia. simpl. by rewrite app_nil_r. }
  by rewrite Ea, Hcache.
Qed.

Lemma stray_chunk_completes_the_file_witness :
  let cache := fun _ _ _ => Some "/tmp/waitagent/notes-x.txt" in
  let h' := host_paste "shell-1" cache false 9 (mkPasteFileRequest "shell-1" "t" "notes.txt" "f1" 2 7 (as_bytes "b"))
              (host_paste "shell-1" cache false 5
                 (mkPasteFileRequest "shell-1" "t" "notes.txt" "f1" 2 0 (as_bytes "a")) target_host_new) in
  cached_files h' = [("notes.txt", as_bytes "a")].
Proof.
  intros cache.
  apply (stray_chunk_completes_the_file "shell-1" cache false 5 9 "shell-1" "t" "notes.txt" "f1"
           (as_bytes "a") (as_bytes "b") 7 "/tmp/waitagent/notes-x.txt" target_host_new).
  - lia.
  - unfold PASTE_FILE_ASSEMBLER_TIMEOUT. lia.
  - reflexivity.
  - reflexivity.
Defined.

(** ** The reader ends, and hands on the input *)

Lemma host_loop_total sid cache supports_at running clock fuel n s h :
  (length s < fuel)%nat -> is_Some (host_loop sid cache supports_at fuel running clock n s h).
Proof.
  revert n s h. induction fuel as [|fuel IH]; intros n s h Hf; [lia|]. cbn [host_loop].
  destruct (running n); [|by eauto].
  destruct (read_authority_transport_frame s) as [[f|e] s'] eqn:E.
  - pose proof (frame_progress _ _ _ E (or_introl eq_refl)). apply IH. lia.
  - destruct (is_read_timeout e) eqn:Et; [|by eauto]. apply is_read_timeout_WouldBlock in Et as ->.
    pose proof (frame_progress _ _ _ E (or_intror eq_refl)). apply IH. lia.
Qed.

Lemma host_loop_more sid cache supports_at running clock fuel fuel' n s h :
  (length s < fuel)%nat -> (fuel <= fuel')%nat ->
  host_loop sid cache supports_at fuel' running clock n s h =
  host_loop sid cache supports_at fuel running clock n s h.
Proof.
  revert fuel' n s h. induction fuel as [|fuel IH]; intros fuel' n s h Hf Hle; [lia|].
  destruct fuel' as [|fuel']; [lia|]. cbn [host_loop]. destruct (running n); [|done].
  destruct (read_authority_transport_frame s) as [[f|e] s'] eqn:E.
  - pose proof (frame_progress _ _ _ E (or_introl eq_refl)). apply IH; lia.
  - destruct (is_read_timeout e) eqn:Et; [|done]. apply is_read_timeout_WouldBlock in Et as ->.
    pose proof (frame_progress _ _ _ E (or_intror eq_refl)). apply IH; lia.
Qed.
