(* ===== verification/Mirror.v ===== *)
(** * Mirror: a viewer and a hosted session together

    The two directions of a mirrored session, from end to end, over the
    components they pass: what is typed in the viewer ([RemoteSession]) goes
    over the authority transport ([AuthorityTransport]) and the target host
    ([TargetHost]) to the terminal ([HostIo]); what the terminal prints goes
    through the pump and the forwarder ([TargetHost]) to the viewer's reader
    and its screen ([RemoteSession], [Observer]). Between the two nodes the
    network passes on commands and envelopes as they are. *)

From S2P Require Import Prelude Bytes Tasks Utf8 Ansi Screen ScreenInvariant Terminal TerminalFeed.
From S2P Require Import TerminalInvariant SessionCatalog Protocol Codec CodecRoundTrip Observer.
From S2P Require Import AuthorityTransport RemoteSession Decimal HostGrid HostIo HostStreams TargetHost.
From stdpp Require Import pretty strings.
#[local] Open Scope Z_scope.

Lemma sent_arrives m : sent_ok m -> (0 < length (arrived (sent_bytes m)))%nat.
Proof.
  intros Hm. pose proof (sent_bytes_nonempty m Hm). unfold arrived. rewrite length_map.
  destruct (sent_bytes m); [done|simpl; lia].
Qed.

(** ** Typing *)

Section typing.
Context (pid conn : Z) (Hpid : fits 64 pid).

(** The payloads of some inputs, numbered from [seq] on, and the messages that
    carry them. *)
Definition input_payload (s : RatatuiRemoteSession) (seq : Z) (bytes : list byte) : RawPtyInputPayload :=
  mkRawPtyInput (attachment_name pid) (rs_session_id s) (rs_target_id s) (console_name pid)
    (rs_authority_node_id s) seq bytes.

Fixpoint input_payloads (s : RatatuiRemoteSession) (seq : Z) (inputs : list (list byte)) :
    list RawPtyInputPayload :=
  match inputs with
  | [] => []
  | bytes :: inputs => input_payload s seq bytes :: input_payloads s (seq + 1) inputs
  end.

Definition input_message (p : RawPtyInputPayload) : sent := Framed (FrameRawPtyInput p).

Definition type_inputs (inputs : list (list byte)) (s : RatatuiRemoteSession) : RatatuiRemoteSession :=
  fold_left (fun s bytes => session_feed_input pid bytes Taken s) inputs s.

Lemma input_payloads_same s s' seq inputs :
  rs_session_id s' = rs_session_id s -> rs_target_id s' = rs_target_id s ->
  rs_authority_node_id s' = rs_authority_node_id s ->
  input_payloads s' seq inputs = input_payloads s seq inputs.
Proof.
  intros H1 H2 H3. revert seq. induction inputs as [|b inputs IH]; intros seq; simpl; [done|].
  rewrite IH. unfold input_payload. by rewrite H1, H2, H3.
Qed.

Lemma input_payloads_ok s seq inputs :
  session_ok s -> 0 <= seq -> seq + Z.of_nat (length inputs) < 2 ^ 64 -> Forall bytes_ok inputs ->
  Forall raw_pty_input_ok (input_payloads s seq inputs).
Proof.
  intros Hs Hq Hl Hb. revert seq Hq Hl. induction Hb as [|b inputs Hb Hbs IH]; intros seq Hq Hl; simpl; [constructor|].
  simpl in Hl. constructor; [|apply IH; lia].
  apply (input_frame_ok pid s seq b); try done. unfold fits. lia.
Qed.

Lemma input_payloads_bytes s seq inputs : map rin_input_bytes (input_payloads s seq inputs) = inputs.
Proof. revert seq. induction inputs as [|b inputs IH]; intros seq; simpl; [done|]. by rewrite IH. Qed.

(** A connected session writes its inputs, one message each. *)
Lemma type_inputs_wire inputs s before :
  session_ok s -> writer s = Some conn -> conn ∉ shut s -> wires s !! conn = Some before ->
  0 <= next_input_seq s -> next_input_seq s + Z.of_nat (length inputs) < 2 ^ 64 -> Forall bytes_ok inputs ->
  wires (type_inputs inputs s) !! conn =
  Some (before ++ concat (map (sent_bytes ∘ input_message) (input_payloads s (next_input_seq s) inputs))).
Proof.
  intros Hs Hw Hsh Hb Hq Hl Hin. revert s before Hs Hw Hsh Hb Hq Hl.
  induction Hin as [|bytes inputs Hok Hin IH]; intros s before Hs Hw Hsh Hb Hq Hl.
  { simpl. by rewrite app_nil_r. }
  cbn [length] in Hl. unfold type_inputs. cbn [fold_left input_payloads map concat].
  destruct (frame_written (input_frame pid s (next_input_seq s) bytes)) as (bs & Hbs & Hsent).
  { apply input_frame_ok; try done. unfold fits. lia. }
  assert (E : session_feed_input pid bytes Taken s =
    set_wires (<[conn := before ++ bs]> (wires s)) (set_next_input_seq (next_input_seq s + 1) s)).
  { unfold session_feed_input. simpl. rewrite Hw. unfold wrap. rewrite Z.mod_small by lia.
    change (input_frame pid (set_next_input_seq _ s) _ bytes) with (input_frame pid s (next_input_seq s) bytes).
    unfold write_frame. simpl. rewrite bool_decide_false, Hbs by done. simpl. by rewrite Hb. }
  change (fold_left _ inputs ?x) with (type_inputs inputs x). rewrite E.
  change ((sent_bytes ∘ input_message) _) with (sent_bytes (Framed (input_frame pid s (next_input_seq s) bytes))).
  rewrite Hsent.
  rewrite (IH _ (before ++ bs)); try done; [|simpl; apply lookup_insert_eq|simpl; lia|simpl; lia].
  rewrite <- (assoc_L (++)). do 5 f_equal. by apply input_payloads_same.
Qed.

End typing.

(** Input payloads as messages, as commands, and as requests. *)
Lemma input_messages_sent ps :
  Forall raw_pty_input_ok ps ->
  Forall (fun m => sent_ok m.2) (map (fun p => (0%nat, input_message p)) ps) /\
  Forall is_command (map (fun p => (0%nat, input_message p)) ps) /\
  commands_of (map (fun p => (0%nat, input_message p)) ps) = map CommandRawPtyInput ps /\
  spaced (map (fun p => (0%nat, input_message p)) ps) = arrived (concat (map (sent_bytes ∘ input_message) ps)).
Proof.
  intros Hps. induction Hps as [|p ps Hp Hps (IH1 & IH2 & IH3 & IH4)]; [by repeat constructor|].
  split; [by constructor|]. split; [by constructor|]. split.
  - cbn [map]. unfold commands_of in *. cbn [omap list_omap]. cbn. by f_equal.
  - cbn [map concat]. unfold spaced in *. cbn [map concat fst snd replicate app].
    rewrite IH4, arrived_app. done.
Qed.

Definition always : nat -> bool := fun _ => true.

(** Commands delivered one after the other; the clock is read twice for each. *)
Fixpoint deliver_all (clock : nat -> Z) (n : nat) (commands : list RemoteAuthorityCommand)
    (h : SessionSyncAuthorityHost) : SessionSyncAuthorityHost :=
  match commands with
  | [] => h
  | c :: commands =>
      deliver_all clock (S n) commands (deliver_command (clock (2 * n)%nat) (clock (2 * n + 1)%nat) Taken c h).1
  end.

Lemma command_envelope_ok now1 now2 p :
  fits 64 now1 -> fits 64 now2 -> raw_pty_input_ok p ->
  sent_ok (Bare (authority_command_envelope now1 now2 (CommandRawPtyInput p))).
Proof.
  intros H1 H2 Hp. pose proof (timestamp_ok now2 H2). split; [|done].
  assert (string_ok ("session-sync-authority-" +:+ pretty now1)%string) by (by apply named_ok).
  unfold envelope_ok, authority_command_envelope. cbn. pose proof Hp as (_ & ? & _). split_and!; try done.
Qed.

(** The envelopes a host was given, and what their writing end holds. *)
Lemma deliver_inputs clock ps n h :
  (forall k, fits 64 (clock k)) -> Forall raw_pty_input_ok ps -> host_writer h = true ->
  exists es, host_written (deliver_all clock n (map CommandRawPtyInput ps) h)
      = host_written h ++ concat (map (sent_bytes ∘ Bare) es) /\
    Forall (fun e => sent_ok (Bare e)) es /\ map env_payload es = map RawPtyInput ps.
Proof.
  intros Hc Hps. revert n h. induction Hps as [|p ps Hp Hps IH]; intros n h Hw; cbn [map deliver_all].
  { exists []. simpl. by rewrite app_nil_r. }
  set (e := authority_command_envelope (clock (2 * n)%nat) (clock (2 * n + 1)%nat) (CommandRawPtyInput p)).
  assert (He : sent_ok (Bare e)) by (by apply command_envelope_ok).
  destruct (carries_sent _ He) as (bs & Hbs & _). unfold write_sent in Hbs.
  unfold deliver_command. fold e. rewrite Hw, Hbs.
  destruct (IH (S n) (mkAuthorityHost true (host_written h ++ bs) (host_running h) (host_threads_alive h)) eq_refl)
    as (es & E & Hes & Hpay).
  exists (e :: es). cbn [fst]. rewrite E. split; [|split; [by constructor|]].
  - cbn [host_written map concat compose]. unfold sent_bytes at 2. unfold write_sent. rewrite Hbs.
    by rewrite <- (assoc_L (++)).
  - cbn [map]. by rewrite Hpay.
Qed.

Section host.
Context (sid : string) (cache : list (string * list byte) -> string -> list byte -> option string).
Context (supports_at : bool) (clock : nat -> Z).

Lemma host_loop_S fuel running n s h :
  host_loop sid cache supports_at (S fuel) running clock n s h =
  if running n then
    let h := maybe_send_bootstrap sid (clock (3 * n)%nat) h in
    match read_authority_transport_frame s with
    | (Ok f, s) =>
        let h := host_frame sid cache supports_at (clock (3 * n + 1)%nat) f h in
        host_loop sid cache supports_at fuel running clock (S n) s
          (maybe_send_bootstrap sid (clock (3 * n + 2)%nat) h)
    | (Err e, s) =>
        if is_read_timeout e
        then host_loop sid cache supports_at fuel running clock (S n) s
               (maybe_send_bootstrap sid (clock (3 * n + 2)%nat) h)
        else Some (release_console sid (mirror_active h) h, Some e)
    end
  else Some (release_console sid (mirror_active h) h, None).
Proof. done. Qed.

Lemma maybe_none now h : bootstrap_deadline h = None -> maybe_send_bootstrap sid now h = h.
Proof. intros H. unfold maybe_send_bootstrap. by rewrite H. Qed.

(** A host with no viewer hands on the input of every envelope. *)
Lemma host_loop_inputs es ps fuel n h :
  Forall (fun e => sent_ok (Bare e)) es -> map env_payload es = map RawPtyInput ps ->
  bootstrap_deadline h = None -> viewer_console_id h = None ->
  (length (arrived (concat (map (sent_bytes ∘ Bare) es))) < fuel)%nat ->
  exists h', host_loop sid cache supports_at fuel always clock n
      (arrived (concat (map (sent_bytes ∘ Bare) es))) h = Some (h', Some (CodecIo UnexpectedEof)) /\
    io_requests h' = io_requests h ++ map (fun p => WriteInput sid (rin_input_bytes p)) ps.
Proof.
  intros Hes. revert ps fuel n h.
  induction Hes as [|e es He Hes IH]; intros ps fuel n h Hp Hb Hv Hf; destruct fuel as [|fuel]; try lia;
    destruct ps as [|p ps]; try discriminate Hp; rewrite host_loop_S; cbn [always]; cbv zeta;
    rewrite maybe_none by done.
  { eexists. split; [reflexivity|]. unfold release_console. rewrite Hv. simpl. by rewrite app_nil_r. }
  cbn [map concat compose] in Hf |- *. rewrite arrived_app in Hf |- *. rewrite (read_sent (Bare e)) by done.
  injection Hp as Ee Ep. unfold host_frame, sent_frame, host_payload. rewrite Ee.
  rewrite maybe_none by done.
  destruct (IH ps fuel (S n) (send_request (WriteInput sid (rin_input_bytes p)) h) Ep Hb Hv) as (h' & E & Hr).
  { rewrite length_app in Hf. pose proof (sent_arrives (Bare e) He). lia. }
  exists h'. split; [exact E|]. rewrite Hr. simpl. by rewrite <- (assoc_L (++)).
Qed.

End host.

(** The bytes of the write requests. *)
Lemma typed_inputs sid inputs : concat (map (request_typed sid) (map (WriteInput sid) inputs)) = concat inputs.
Proof.
  rewrite map_map. f_equal. etrans; [|apply map_id]. apply map_ext. intros b. simpl. by rewrite bool_decide_true.
Qed.

(** C3. What is typed in a viewer reaches the terminal of the hosted session:
    every input of a connected viewer goes out as a message; the peer's bridge
    reads them back as commands; delivered to the target host, they become
    write requests for the loop. In any run of the loop whose requests for
    this session are these, however they are spread over its turns and
    whatever other requests, terminal events and child exits come between them
    while the session stays registered and its terminal reports no error, the
    terminal has taken or will be given exactly the bytes typed, in order,
    after those it had before; and the first event in which it takes all that
    waits leaves it with the whole of them. *)
Theorem typing_reaches_the_terminal {T} `{HostTerm T} first_key la pid conn inputs s before
    clock1 clock2 host sid cache supports_at calls (l l' : IoLoop T) st :
  fits 64 pid -> session_ok s -> writer s = Some conn -> conn ∉ shut s -> wires s !! conn = Some before ->
  0 <= next_input_seq s -> next_input_seq s + Z.of_nat (length inputs) < 2 ^ 64 -> Forall bytes_ok inputs ->
  (forall k, fits 64 (clock1 k)) -> host_writer host = true -> host_written host = [] ->
  Forall (call_keeps sid) calls -> sessions l !! sid = Some st -> io_run first_key la calls l = Ok l' ->
  exists wire commands h',
    wires (type_inputs pid inputs s) !! conn = Some (before ++ wire) /\
    bridge_reader never (arrived wire) = (commands, Some (TransportCodec (CodecIo UnexpectedEof))) /\
    target_host sid cache supports_at always clock2
      (arrived (host_written (deliver_all clock1 0 commands host))) = Some (h', Some (CodecIo UnexpectedEof)) /\
    (writes_to sid calls = io_requests h' ->
     exists st', sessions l' !! sid = Some st' /\ input_of st' = input_of st ++ concat inputs /\
     forall t n, token_to_session l' !! t = Some sid -> (length (pending_write st') <= n)%nat ->
     exists l'' st'', io_step first_key la (SessionReady t false true [] [Wrote n]) l' = Ok l'' /\
       sessions l'' !! sid = Some st'' /\ pending_write st'' = [] /\
       accepted_input (pty_master st'') = input_of st ++ concat inputs).
Proof.
  intros Hpid Hs Hw Hsh Hb Hq Hl Hin Hclock Hhw Hhn Hcalls Hst Hrun.
  set (ps := input_payloads pid s (next_input_seq s) inputs).
  assert (Hps : Forall raw_pty_input_ok ps) by (by apply input_payloads_ok).
  destruct (input_messages_sent ps Hps) as (M1 & M2 & M3 & M4).
  destruct (deliver_inputs clock1 ps 0 host Hclock Hps Hhw) as (es & E & Hes & Hpay).
  rewrite Hhn, app_nil_l in E.
  destruct (host_loop_inputs sid cache supports_at clock2 es ps
              (S (length (arrived (concat (map (sent_bytes ∘ Bare) es))))) 0 target_host_new Hes Hpay
              eq_refl eq_refl ltac:(lia)) as (h' & Eh & Hr).
  exists (concat (map (sent_bytes ∘ input_message) ps)), (map CommandRawPtyInput ps), h'.
  split; [by apply type_inputs_wire|]. split; [rewrite <- M3, <- M4; by apply bridge_commands|].
  split; [rewrite E; exact Eh|].
  intros Hcs. assert (Hi : io_requests h' = map (WriteInput sid) inputs).
  { rewrite Hr. simpl. etrans; [symmetry; apply (map_map rin_input_bytes (WriteInput sid))|].
    unfold ps. by rewrite input_payloads_bytes. }
  destruct (input_is_written_in_order first_key la sid calls l l' st Hcalls Hst Hrun) as (st' & Hst' & Ei).
  rewrite typed_writes, Hcs, Hi, typed_inputs in Ei. exists st'. split_and!; [done|done|].
  intros t n Ht Hn. destruct (writable_takes_all la sid t n l' st' Ht Hst' Hn) as (st2 & Hst2 & Ea & Ep).
  rewrite Ei in Ea. by eexists _, st2.
Qed.

(** The typed bytes are spread over two turns, with a read and a write of the
    terminal between them, and another session's input before. *)
Definition typing_calls : list io_call :=
  [Requests true [WriteInput "other" (as_bytes "x"); WriteInput "shell-1" (as_bytes "l")] [WriteBlocked];
   SessionReady 3 true true [ReadBytes (as_bytes "$ ")] [WriteBlocked];
   ChildSignal ∅;
   Requests true [WriteInput "shell-1" (as_bytes "s"); SendBootstrap "shell-1"; WriteInput "shell-1" [x0d]] [Wrote 1]].

Lemma typing_reaches_the_terminal_witness :
  let s := set_wires {[ 1 := [] ]} (install_writer 1 sample_session) in
  let inputs := [as_bytes "l"; as_bytes "s"; [x0d]] in
  exists wire commands h',
    wires (type_inputs 77 inputs s) !! 1 = Some ([] ++ wire) /\
    bridge_reader never (arrived wire) = (commands, Some (TransportCodec (CodecIo UnexpectedEof))) /\
    target_host "shell-1" (fun _ _ _ => None) false always Z.of_nat
      (arrived (host_written (deliver_all (fun _ => 5) 0 commands (mkAuthorityHost true [] true true))))
      = Some (h', Some (CodecIo UnexpectedEof)) /\
    writes_to "shell-1" typing_calls = io_requests h' /\
    exists l' st', io_run least_key "node" typing_calls running_shell = Ok l' /\
      sessions l' !! "shell-1" = Some st' /\ input_of st' = as_bytes "ls" ++ [x0d].
Proof.
  intros s inputs.
  set (l' := match io_run least_key "node" typing_calls running_shell with Ok l => l | Err _ => running_shell end).
  assert (Erun : io_run least_key "node" typing_calls running_shell = Ok l') by (vm_compute; reflexivity).
  destruct (typing_reaches_the_terminal least_key "node" 77 1 inputs s [] (fun _ => 5) Z.of_nat
    (mkAuthorityHost true [] true true) "shell-1" (fun _ _ _ => None) false typing_calls
    running_shell l' (new_session (mkPty [] 80 24) 3 (Some 7) 80 24)) as (wire & commands & h' & E1 & E2 & E3 & E4);
    [by split|repeat split; vm_compute; reflexivity|reflexivity|done|reflexivity|simpl; lia|simpl; lia
    |by repeat constructor|by split|reflexivity|reflexivity| |reflexivity|exact Erun|].
  - repeat constructor; by intros [=].
  - exists wire, commands, h'. split; [exact E1|]. split; [exact E2|]. split; [exact E3|].
    assert (Hr : writes_to "shell-1" typing_calls = io_requests h').
    { vm_compute in E1. injection E1 as <-. vm_compute in E2. injection E2 as <-.
      vm_compute in E3. injection E3 as <-. vm_compute. reflexivity. }
    split; [exact Hr|]. destruct (E4 Hr) as (st' & Hst & Hin & _). exists l', st'. split; [exact Erun|]. split; [exact Hst|exact Hin].
Defined.

(** ** Printing *)

(** What a turn of the pump sends. *)
Definition batch_of (t : pump_turn) : option (list byte) :=
  match t with Batch first more _ => Some (concat (first :: more)) | _ => None end.

(** The pump works: its writes succeed and the channel stays open. *)
Definition turn_ok (t : pump_turn) : Prop :=
  match t with
  | Batch first more w => w = Taken /\ bytes_ok (concat (first :: more))
  | Disconnected => False
  | _ => True
  end.

Section printing.
Context (sid target : string) (Hsid : string_ok sid) (Htarget : string_ok target).

Fixpoint output_payloads (seq : Z) (chunks : list (list byte)) : list RawPtyOutputPayload :=
  match chunks with
  | [] => []
  | bytes :: chunks => mkRawPtyOutput sid target seq bytes :: output_payloads (seq + 1) chunks
  end.

Definition output_message (p : RawPtyOutputPayload) : sent := Framed (FrameRawPtyOutput p).

Lemma output_payloads_each {A} (a : A) seq chunks :
  map (fun _ => a) (output_payloads seq chunks) = map (fun _ => a) chunks.
Proof. revert seq. induction chunks as [|b chunks IH]; intros seq; simpl; [done|]. by rewrite IH. Qed.

Lemma output_payload_ok seq bytes :
  fits 64 seq -> bytes_ok bytes -> raw_pty_output_ok (mkRawPtyOutput sid target seq bytes).
Proof. intros. by split_and!. Qed.

Lemma output_payloads_ok seq chunks :
  0 <= seq -> seq + Z.of_nat (length chunks) < 2 ^ 64 -> Forall bytes_ok chunks ->
  Forall raw_pty_output_ok (output_payloads seq chunks).
Proof.
  intros Hq Hl Hb. revert seq Hq Hl. induction Hb as [|b chunks Hb Hbs IH]; intros seq Hq Hl; simpl; [constructor|].
  simpl in Hl. constructor; [|apply IH; lia]. apply output_payload_ok; [unfold fits; lia|done].
Qed.

Lemma pump_writes turns seq :
  Forall turn_ok turns -> 0 <= seq -> seq + Z.of_nat (length turns) < 2 ^ 64 ->
  pump sid target turns seq =
  (concat (map (sent_bytes ∘ output_message) (output_payloads seq (omap batch_of turns))), true).
Proof.
  intros Ht. revert seq. induction Ht as [|t turns Ht Hts IH]; intros seq Hq Hl; [done|].
  cbn [length] in Hl. destruct t as [| |first more w|]; cbn [pump omap list_omap batch_of];
    [rewrite IH by lia; done|rewrite IH by lia; done| |done].
  destruct Ht as [-> Hb]. set (chunk := concat (first :: more)) in *.
  destruct (frame_written (pump_frame sid target seq chunk)) as (bs & Hbs & Hsent).
  { apply output_payload_ok; [unfold fits; lia|done]. }
  rewrite Hbs. unfold wrap. rewrite Z.mod_small by lia. rewrite IH by lia.
  cbn [output_payloads map concat compose]. by rewrite <- Hsent.
Qed.

Lemma forward_loop_S node fuel running route n s :
  forward_loop node (S fuel) running route n s =
  if running n then
    match read_authority_transport_frame s with
    | (Ok f, s) =>
        match forward_host_frame node f with
        | Ok (Some envelope) =>
            if route n
            then let '(out, r) := forward_loop node fuel running route (S n) s in (envelope :: out, r)
            else ([], Some (Err TransportClosed))
        | Ok None => forward_loop node fuel running route (S n) s
        | Err e => ([], Some (Err e))
        end
    | (Err e, s) =>
        if is_read_timeout e then forward_loop node fuel running route (S n) s
        else ([], Some (Err (TransportCodec e)))
    end
  else ([], Some (Ok tt)).
Proof. done. Qed.

Lemma forward_outputs node ps fuel n :
  Forall raw_pty_output_ok ps ->
  (length (arrived (concat (map (sent_bytes ∘ output_message) ps))) < fuel)%nat ->
  forward_loop node fuel always always n (arrived (concat (map (sent_bytes ∘ output_message) ps))) =
  (map (host_output_envelope node) ps, Some (Err (TransportCodec (CodecIo UnexpectedEof)))).
Proof.
  intros Hps. revert fuel n. induction Hps as [|p ps Hp Hps IH]; intros fuel n Hf;
    (destruct fuel as [|fuel]; [lia|]); rewrite forward_loop_S; cbn [always]; [done|].
  cbn [map concat compose] in Hf |- *. rewrite arrived_app in Hf |- *.
  rewrite (read_sent (output_message p)) by done. cbn [sent_frame output_message forward_host_frame].
  rewrite IH; [done|]. rewrite length_app in Hf. pose proof (sent_arrives (output_message p) Hp). lia.
Qed.

End printing.

(** ** The viewer's reader *)

(** The output a message carries. *)
Definition output_of (m : sent) : option (Z * list byte) :=
  match sent_frame m with
  | FrameRawPtyOutput p => Some (rout_output_seq p, rout_output_bytes p)
  | FrameControlPlane e =>
      match env_payload e with
      | RawPtyOutput p => Some (rout_output_seq p, rout_output_bytes p)
      | _ => None
      end
  | _ => None
  end.

Definition show_outputs (outs : list (Z * list byte)) (sh : shown) : shown :=
  fold_left (fun sh o => show_output o.1 o.2 sh) outs sh.

Section viewing.
Context (sz : TerminalSize) (Hsz : size_ok sz) (conn : Z).

Lemma receive_output_shows p s sh :
  tracks sz (observer s) sh ->
  exists o, receive_output p s = Ok (set_events (events s ++ [RemoteSessionOutput (rs_target_id s)])
      (set_observer o (set_first_output_received true s))) /\
    tracks sz o (show_output (rout_output_seq p) (rout_output_bytes p) sh).
Proof.
  intros Ht. destruct (tracks_raw sz Hsz _ _ (rout_output_seq p) (rout_output_bytes p) Ht) as (o & E & _ & Ht').
  exists o. split; [|done]. unfold receive_output. by rewrite E.
Qed.

(** One message: its output is shown, and announced. *)
Lemma receive_shows m s sh :
  tracks sz (observer s) sh ->
  exists s', receive_frame conn (sent_frame m) s = Ok s' /\
    tracks sz (observer s') (show_outputs (option_list (output_of m)) sh) /\
    running s' = running s /\ closed s' = closed s /\ current_writer_seq s' = current_writer_seq s /\
    rs_target_id s' = rs_target_id s /\
    events s' = events s ++ map (fun _ => RemoteSessionOutput (rs_target_id s)) (option_list (output_of m)).
Proof.
  intros Ht. unfold output_of. destruct (sent_frame m) as [e|p|p| | | | |] eqn:Em; cbn [receive_frame];
    try (eexists; split_and!; [done|done|done|done|done|done|by rewrite app_nil_r]).
  - destruct (env_payload e) as [q|q|q|q|q|q|q|q|q|q|q|q|q|q|q|q|q|q|q|q|q|q|q|q|q];
      try (eexists; split_and!; [done|done|done|done|done|done|by rewrite app_nil_r]).
    destruct (receive_output_shows q s sh Ht) as (o & -> & Ht'). eexists. by split_and!.
  - destruct (receive_output_shows p s sh Ht) as (o & -> & Ht'). eexists. by split_and!.
  - eexists. split; [done|]. unfold write_frame. rewrite app_nil_r.
    repeat case_match; simpl; by split_and!.
Qed.

Lemma reader_loop_S fuel arrivals s :
  reader_loop (S fuel) conn arrivals s =
  if running s then
    match read_authority_transport_frame arrivals with
    | (Ok f, arrivals) =>
        match receive_frame conn f s with
        | Ok s => reader_loop fuel conn arrivals s
        | Err e => Some (Err e)
        end
    | (Err e, _) => Some (Ok (s, Some e))
    end
  else Some (Ok (s, None)).
Proof. done. Qed.

Lemma reader_shows ms fuel s sh :
  Forall sent_ok ms -> running s = true -> tracks sz (observer s) sh ->
  (length (arrived (concat (map sent_bytes ms))) < fuel)%nat ->
  exists s', reader_loop fuel conn (arrived (concat (map sent_bytes ms))) s =
      Some (Ok (s', Some (CodecIo UnexpectedEof))) /\
    tracks sz (observer s') (show_outputs (omap output_of ms) sh) /\
    closed s' = closed s /\ current_writer_seq s' = current_writer_seq s /\
    rs_target_id s' = rs_target_id s /\
    events s' = events s ++ map (fun _ => RemoteSessionOutput (rs_target_id s)) (omap output_of ms).
Proof.
  intros Hms. revert fuel s sh. induction Hms as [|m ms Hm Hms IH]; intros fuel s sh Hr Ht Hf;
    (destruct fuel as [|fuel]; [lia|]); rewrite reader_loop_S, Hr.
  { eexists. split_and!; try done. by rewrite app_nil_r. }
  cbn [map concat] in Hf |- *. rewrite arrived_app in Hf |- *. rewrite read_sent by done.
  destruct (receive_shows m s sh Ht) as (s1 & -> & Ht1 & Hr1 & Hc1 & Hw1 & Hi1 & He1).
  destruct (IH fuel s1 _ (eq_trans Hr1 Hr) Ht1) as (s' & E & Ht' & Hc' & Hw' & Hi' & He').
  { rewrite length_app in Hf. pose proof (sent_arrives m Hm). lia. }
  exists s'. rewrite E. split; [done|].
  assert (Eo : omap output_of (m :: ms) = option_list (output_of m) ++ omap output_of ms).
  { cbn [omap list_omap]. by destruct (output_of m). }
  rewrite Eo. unfold show_outputs in *. rewrite fold_left_app.
  split_and!; [done|congruence|congruence|congruence|].
  rewrite He', He1, Hi1, map_app, (assoc_L (++)). done.
Qed.

End viewing.

(** ** From the terminal to the screen *)

(** How an envelope with output is handed to the viewer: as it is, or as a
    frame with its payload. *)
Definition passes (e : ProtocolEnvelope) (m : sent) : Prop :=
  m = Bare e \/ exists p, env_payload e = RawPtyOutput p /\ m = output_message p.

(** A node id that leaves room for the names made from it. *)
Definition node_ok (node : string) : Prop := rust_string node /\ str_len node <= 180.

Lemma node_named node suffix :
  node_ok node -> rust_string suffix -> str_len suffix <= 40 -> string_ok (node +:+ suffix)%string.
Proof.
  intros [Hr Hl] Hs Hl'. split; [by apply rust_string_app|]. unfold bytes_ok.
  fold (str_len (node +:+ suffix)%string). rewrite str_len_app. lia.
Qed.

Lemma node_string node : node_ok node -> string_ok node.
Proof. intros [Hr Hl]. split; [done|]. unfold bytes_ok. fold (str_len node). lia. Qed.

Lemma passes_output node ps ms :
  node_ok node -> Forall raw_pty_output_ok ps -> Forall2 passes (map (host_output_envelope node) ps) ms ->
  Forall sent_ok ms /\ omap output_of ms = map (fun p => (rout_output_seq p, rout_output_bytes p)) ps.
Proof.
  intros Hn Hps. revert ms. induction Hps as [|p ps Hp Hps IH]; intros ms Hms; cbn [map] in Hms.
  { apply Forall2_nil_inv_l in Hms as ->. by repeat constructor. }
  apply Forall2_cons_inv_l in Hms as (m & ms' & Hm & Hms & ->). destruct (IH ms' Hms) as [H1 H2].
  assert (Ho : sent_ok m /\ output_of m = Some (rout_output_seq p, rout_output_bytes p)).
  { destruct Hm as [->|(q & Eq & ->)]; [|simpl in Eq; injection Eq as <-; by split].
    split; [|done]. split; [|done]. pose proof (node_string node Hn).
    pose proof Hp as (Hs & Ht & Hq & Hb).
    assert (string_ok (node +:+ "-raw-pty-output-" +:+ pretty (rout_output_seq p))%string).
    { destruct (pretty_short (rout_output_seq p) Hq) as [Hr Hl].
      apply node_named; [done|by apply rust_string_app|]. rewrite str_len_app.
      change (str_len "-raw-pty-output-") with 16. lia. }
    unfold envelope_ok, host_output_envelope. cbn. split_and!; try done. }
  destruct Ho as [Ho1 Ho2]. split; [by constructor|]. cbn [omap list_omap map]. rewrite Ho2. by f_equal.
Qed.

(** Consecutive numbers above the watermark are all shown. *)
Lemma show_numbered sid target seq chunks sh :
  above (watermark sh) seq = true ->
  calls_made (show_outputs (map (fun p => (rout_output_seq p, rout_output_bytes p))
                              (output_payloads sid target seq chunks)) sh)
    = calls_made sh ++ map Feed chunks.
Proof.
  revert seq sh. induction chunks as [|b chunks IH]; intros seq sh Ha; [simpl; by rewrite app_nil_r|].
  cbn [output_payloads map]. unfold show_outputs. cbn [fold_left fst snd rout_output_seq rout_output_bytes].
  unfold show_output at 2. rewrite Ha.
  etrans; [apply (IH (seq + 1))|]; cbn [watermark calls_made above].
  - apply Z.ltb_lt. lia.
  - by rewrite <- (assoc_L (++)).
Qed.

Lemma read_client_hello_ok version node now rest :
  node_ok node -> string_ok version -> fits 64 now ->
  read_client_hello (arrived (write_client_hello version node now).1 ++ rest) = (Ok node, rest).
Proof.
  intros Hn Hv Hnow. pose proof (node_string node Hn). pose proof (timestamp_ok now Hnow).
  assert (string_ok (node +:+ "-client-hello-1")%string) by (by apply node_named).
  unfold read_client_hello, write_client_hello. erewrite carries_read; [|apply carries_envelope].
  - cbn. rewrite bool_decide_false; [done|]. intros E. by apply E.
  - unfold envelope_ok, hello_envelope. cbn. by split_and!.
Qed.

Lemma write_server_hello_ok version now :
  string_ok version -> fits 64 now ->
  exists bs, write_server_hello version "waitagent-ratatui-remote-session" now = (bs, Ok tt).
Proof.
  intros Hv Hnow. pose proof (timestamp_ok now Hnow). unfold write_server_hello.
  set (e := hello_envelope _ _ _ _). destruct (carries_envelope e) as (bs & E & _); [|by exists bs].
  unfold e, envelope_ok, hello_envelope. cbn. split_and!; try done.
  by apply (bool_decide_unpack _).
Qed.

Lemma flush_open_mirror_keeps pid now w s :
  let s' := flush_open_mirror pid now w s in
  observer s' = observer s /\ running s' = running s /\ closed s' = closed s /\
  current_writer_seq s' = current_writer_seq s /\ events s' = events s /\ rs_target_id s' = rs_target_id s.
Proof.
  unfold flush_open_mirror, send_open_mirror, write_open_mirror, write_frame.
  by repeat case_match; simplify_eq.
Qed.

Lemma batches_ok turns :
  Forall turn_ok turns ->
  (length (omap batch_of turns) <= length turns)%nat /\ Forall bytes_ok (omap batch_of turns).
Proof.
  induction 1 as [|t turns Ht Hts [IH1 IH2]]; [by split|]. cbn [omap list_omap length].
  destruct t as [| |first more w|]; cbn [batch_of].
  - split; [lia|done].
  - split; [lia|done].
  - cbn [length]. split; [lia|]. constructor; [apply Ht|done].
  - done.
Qed.

(** The bytes a peer sends to a viewer: its hello, then messages. *)
Definition connection_bytes (version node : string) (now : Z) (ms : list sent) : list byte :=
  (write_client_hello version node now).1 ++ concat (map sent_bytes ms).

(** C4. What the terminal of the hosted session prints appears on the viewer's
    screen: whatever batches the pump makes of the output, the forwarder reads
    back every frame it wrote; and when the envelopes reach a viewer that has
    asked for a mirror, in either of the two forms, after the handshake, its
    reader never fails before the connection ends, and its screen is that of a
    terminal of the requested size that was fed exactly this output, in order.
    The user interface is told of every piece of it, and of the end. *)
Theorem printing_reaches_the_screen target tx pid cols rows now1 now2 version peer hello_version
    hello_now sid tid node turns ms wire envelopes :
  size_ok (viewer_size cols rows) -> string_ok version -> string_ok hello_version -> node_ok peer ->
  node_ok node -> string_ok sid -> string_ok tid -> fits 64 hello_now -> fits 64 now2 ->
  Forall turn_ok turns -> Z.of_nat (length turns) < 2 ^ 64 - 1 ->
  pump sid tid turns 1 = (wire, true) ->
  forward_ratatui_host_output node always always (arrived wire) =
    (envelopes, Some (Err (TransportCodec (CodecIo UnexpectedEof)))) ->
  Forall2 passes envelopes ms ->
  exists s', serve_connection pid version now2 (arrived (connection_bytes hello_version peer hello_now ms))
      (open_mirror pid cols rows now1 Taken (session_open target tx)) = Some (Ok s') /\
    terminal_run (TerminalFeed.Resize (viewer_size cols rows) :: map Feed (omap batch_of turns))
      (terminal_new (terminal_size 80 24)) = Ok (terminal (observer s'), pending_replies (observer s')) /\
    events s' = map (fun _ => RemoteSessionOutput (qualified_target (address target))) (omap batch_of turns)
                ++ [RemoteSessionDisconnected (qualified_target (address target))].
Proof.
  intros Hsz Hv Hhv Hpeer Hnode Hsid Htid Hhn Hn2 Hturns Hlen Hpump Hfwd Hms.
  rewrite pump_writes in Hpump by (done || lia). injection Hpump as <-.
  set (ps := output_payloads sid tid 1 (omap batch_of turns)) in *.
  assert (Hps : Forall raw_pty_output_ok ps).
  { destruct (batches_ok turns Hturns). apply output_payloads_ok; [done|done|lia|lia|done]. }
  unfold forward_ratatui_host_output in Hfwd. rewrite forward_outputs in Hfwd by (done || lia).
  injection Hfwd as <-. destruct (passes_output node ps ms Hnode Hps Hms) as [Hok Hout].
  set (s0 := open_mirror pid cols rows now1 Taken (session_open target tx)).
  assert (E0 : observer s0 = resize_terminal (viewer_size cols rows) (observer_new 80 24) /\
    running s0 = true /\ closed s0 = false /\ next_connection_seq s0 = 1 /\ events s0 = [] /\
    rs_target_id s0 = qualified_target (address target)) by done.
  destruct E0 as (Eo & Er & Ec & En & Ee & Ei). unfold serve_connection, connection_bytes. rewrite En.
  rewrite arrived_app, read_client_hello_ok by done.
  destruct (write_server_hello_ok version now2 Hv Hn2) as (hello & ->). cbv zeta.
  set (s1 := install_writer 1 _).
  destruct (flush_open_mirror_keeps pid now2 Taken s1) as (F1 & F2 & F3 & F4 & F5 & F6).
  assert (E1 : observer s1 = observer s0 /\ running s1 = running s0 /\ closed s1 = closed s0 /\
    current_writer_seq s1 = 1 /\ events s1 = events s0 /\ rs_target_id s1 = rs_target_id s0).
  { unfold s1, install_writer, signal_connected. by destruct (connected_tx _). }
  destruct E1 as (G1 & G2 & G3 & G4 & G5 & G6).
  destruct (reader_shows (terminal_size 80 24) ltac:(split; vm_compute; split; discriminate) 1 ms
              (S (length (arrived (concat (map sent_bytes ms))))) (flush_open_mirror pid now2 Taken s1)
              (mkShown [] None [TerminalFeed.Resize (viewer_size cols rows)])) as (s' & E & Ht & Hc' & Hw' & Hi' & He');
    [done|congruence| |lia|].
  { rewrite F1, G1, Eo. split; [done|]. split; [by constructor|done]. }
  rewrite E. eexists. split; [done|]. unfold leave_connection. rewrite Hw', F4, G4, Z.eqb_refl.
  cbn [set_writer closed]. rewrite Hc', F3, G3, Ec.
  cbn [set_events set_writer observer events rs_target_id]. split.
  - destruct Ht as [Hrun _]. rewrite <- Hrun. f_equal. rewrite Hout. unfold ps. by rewrite show_numbered.
  - rewrite He', Hi', F5, F6, G5, G6, Ee, Ei, Hout. cbn [app]. f_equal. rewrite !map_map. unfold ps.
    apply output_payloads_each.
Qed.

Lemma printing_reaches_the_screen_witness :
  let turns := [Inactive; Batch (as_bytes "$ ") [as_bytes "ls"] Taken; NoOutput;
                Batch (as_bytes "ok") [] Taken] in
  let ps := output_payloads "shell-1" "t" 1 [as_bytes "$ ls"; as_bytes "ok"] in
  let ms := [output_message (mkRawPtyOutput "shell-1" "t" 1 (as_bytes "$ ls"));
             Bare (host_output_envelope "node-b" (mkRawPtyOutput "shell-1" "t" 2 (as_bytes "ok")))] in
  exists s', serve_connection 77 "1.0" 6 (arrived (connection_bytes "1.0" "node-b" 5 ms))
      (open_mirror 77 20 4 1 Taken sample_session) = Some (Ok s') /\
    terminal_run [TerminalFeed.Resize (viewer_size 20 4); Feed (as_bytes "$ ls"); Feed (as_bytes "ok")]
      (terminal_new (terminal_size 80 24)) = Ok (terminal (observer s'), pending_replies (observer s')) /\
    events s' = [RemoteSessionOutput "peer-a:shell-1"; RemoteSessionOutput "peer-a:shell-1";
                 RemoteSessionDisconnected "peer-a:shell-1"].
Proof.
  intros turns ps ms.
  apply (printing_reaches_the_screen sample_target false 77 20 4 1 6 "1.0" "node-b" "1.0" 5 "shell-1" "t"
    "node-b" turns ms (concat (map (sent_bytes ∘ output_message) ps)) (map (host_output_envelope "node-b") ps)).
  - split; simpl; lia.
  - by split.
  - by split.
  - by split.
  - by split.
  - by split.
  - by split.
  - by split.
  - by split.
  - repeat constructor.
  - simpl. lia.
  - vm_compute. reflexivity.
  - vm_compute. reflexivity.
  - constructor; [right; eexists; by split|]. constructor; [by left|]. constructor.
Defined.
