(* ===== verification/NodeTypes.v ===== *)
(** * Node types: what the node's state loop receives and sends

    The data of [src/ratatui_node/]: the events and commands of
    [state_event.rs], the messages for the user interface of [snapshot.rs],
    the connection records of [runtime.rs], and the requests the loop sends to
    the threads around it ([client_writer.rs], the workers, the ingress of
    [src/remote/node/remote_node_ingress_server_runtime.rs]). A message to a
    client is its value before it is written as JSON. *)

From S2P Require Import Prelude Bytes Utf8 Ansi SessionCatalog AgentDetector Keys HostGrid HostIo RemoteSession.

#[global] Instance SessionAvailability_eq_dec : EqDecision SessionAvailability.
Proof. solve_decision. Defined.

(** ** Remote nodes *)

Inductive RemoteNodeVia := Auto | Direct | Relay.

#[global] Instance RemoteNodeVia_eq_dec : EqDecision RemoteNodeVia.
Proof. solve_decision. Defined.

Definition via_as_str (v : RemoteNodeVia) : string :=
  match v with Auto => "auto" | Direct => "direct" | Relay => "relay" end.

Inductive RemoteNodeConnectionMode := OutboundDial | InboundConnect.

#[global] Instance RemoteNodeConnectionMode_eq_dec : EqDecision RemoteNodeConnectionMode.
Proof. solve_decision. Defined.

Record RemoteNodeConnectionInfo := mkConnectionInfo {
  ci_mode : RemoteNodeConnectionMode;
  ci_host : string;
  ci_port : Z;
  ci_tls_pin_sha256 : string;
  ci_profile_name : string;
  ci_server_can_reach_peer : bool;
  ci_via : option RemoteNodeVia }.

Record OutboundNodeSessionRequest := mkOutboundRequest {
  or_node_id : string;
  or_endpoint_uri : string;
  or_tls_pin_sha256 : option string;
  or_via : option RemoteNodeVia }.

(** The pinned relay of [relay_toml_store.rs]. *)
Record RelayTomlConfig := mkRelayToml {
  relay_address : string;
  relay_fingerprint : string;
  heartbeat_interval_secs : option Z;
  relay_use_proxy : bool }.

#[global] Instance RelayTomlConfig_eq_dec : EqDecision RelayTomlConfig.
Proof. solve_decision. Defined.

Record RelayLinkErrorSnapshot := mkRelayLinkError { rle_code : Z; rle_message : string }.

Record RemoteRelayJoinRequest := mkRelayJoinRequest {
  rj_address : string; rj_token : string; rj_use_proxy : bool }.

Record RelayJoinApplied := mkRelayJoinApplied { pinned : RelayTomlConfig; link_restarted : bool }.

Inductive RelayJoinContext := Operator | RelayRoleDeploy.

(** An entry of the file of outbound connections. *)
Record SnapshotEntry := mkSnapshotEntry {
  se_profile_name : string;
  se_authority_node_id : string;
  se_connected_at : string }.

Record RemoteHostConnectedOutcome := mkConnectedOutcome {
  co_target_id : string;
  co_authority_node_id : string;
  co_created_target : ManagedSessionRecord;
  co_connection_info : option RemoteNodeConnectionInfo;
  co_pin_auto_discovered : bool;
  co_relay_join : option RemoteRelayJoinRequest }.

(** ** Commands of a client *)

Module Cmd.

Inductive ClientCommand :=
| Attach | Status | Stop | ListSessions
| CreateLocalSession (cwd : option string)
| ActivateTarget (target_id : string)
| ConnectRemoteHost (profile_name : string)
| DetachAll
| Resize (cols rows : Z)
| Input (target_id : string) (key : LogicalKey)
| PasteText (target_id text : string)
| PasteFile (target_id filename_hint : string) (bytes : list byte)
| GetHistory (target_id : string)
| CreateRemoteSession (authority_node_id : string) (cwd : option string)
| CloseSession (target_id : string)
| SetPublic (endpoint : option string) (save : bool)
| E2eRelayProbe (peer : string) (streams hold_secs : Z)
| RelayJoin (address token : string) (force use_proxy : bool)
| RelayRemove.

End Cmd.

(** ** Messages to a client *)

Record RelayErrorView := mkRelayErrorView { rev_code : Z; rev_message : string }.

Definition relay_error_view (e : RelayLinkErrorSnapshot) : RelayErrorView :=
  mkRelayErrorView (rle_code e) (rle_message e).

Record SessionView := mkSessionView {
  sv_id : string;
  sv_transport : string;
  sv_command_name : string;
  sv_agent_command_name : option string;
  sv_authority_node_id : string;
  sv_display_authority_id : string;
  sv_session_id : string;
  sv_task_state : string;
  sv_availability : string;
  sv_attached_clients : Z;
  sv_current_path : option string;
  sv_relay_presence : option string;
  sv_relay_error : option RelayErrorView }.

Record ServerStatus := mkServerStatus {
  st_port : Z; st_client_count : Z; st_uptime_secs : Z; st_session_count : Z }.

Inductive response_data := StatusData (s : ServerStatus) | SessionsData (l : list SessionView).

Inductive CommandOutcome :=
| OutcomeOk | Message (m : string) | Error (m : string) | Data (d : response_data).

Record ControlResponse := mkControlResponse {
  cr_ok : bool;
  cr_message : option string;
  cr_data : option response_data;
  cr_broadcast : bool }.

Definition control_response (o : CommandOutcome) : ControlResponse :=
  match o with
  | OutcomeOk => mkControlResponse true None None false
  | Message m => mkControlResponse true (Some m) None false
  | Error m => mkControlResponse false (Some m) None false
  | Data d => mkControlResponse true None (Some d) false
  end.

(** What a session's screen shows: lines, styled lines, cursor, and whether
    the cursor is visible. *)
Definition SessionSnapshot : Type := list text * list text * option (Z * Z) * bool.

Definition no_screen : SessionSnapshot := ([], [], None, false).

Record FooterState := mkFooterState {
  ft_active_session : string;
  ft_listener_endpoint : option string;
  ft_public_endpoint : option string;
  ft_connect_endpoint : option string;
  ft_remote_count : Z;
  ft_relay_peers_online : Z;
  ft_relay_watch_count : Z;
  ft_relay_error : option RelayErrorView }.

Record RatatuiSnapshot := mkRatatuiSnapshot {
  sn_session_name : string;
  sn_client_count : Z;
  sn_main : SessionSnapshot;
  sn_footer : FooterState;
  sn_sessions : list SessionView;
  sn_active_target : option string }.

Inductive ServerMessage :=
| Snapshot (s : RatatuiSnapshot)
| Response (r : ControlResponse)
| History (target_id : string) (lines styled_lines : list text).

(** ** What the loop sends *)

Inductive ClientWriterRequest :=
| Register (client_id : Z) (broadcast : bool)
| Write (client_id : Z) (payload : ServerMessage)
| Broadcast (payload : ServerMessage)
| Unregister (client_id : Z).

Inductive LocalCatalogChangeReason := LocalTargetExited (target_session_name : string) | LocalRuntimeChanged.

Inductive InternalEvent :=
| CloseNodeIngressSession (node_id : string) (cancel_pending_dial : bool)
| InitiateOutboundConnection (request : OutboundNodeSessionRequest)
| SetRelayClient (handle : option RelayTomlConfig).

(** The threads the loop starts and can stop. *)
Inductive worker :=
| ReconnectWorker (record : ManagedSessionRecord) (cols rows : Z)
| OutboundDialRetryWorker (node_id : string) (request : OutboundNodeSessionRequest)
| InboundConnectWaitWorker (node_id : string) (timeout_secs : Z)
| PeerReachabilityProbeWorker (node_id host : string) (port : Z).

(** The threads that report once, with an event, when their work is over. *)
Inductive job :=
| ConnectJob (client_id : Z) (profile_name : string)
| SnapshotReconnectJob (profile_name authority_node_id : string)
| CreateRemoteSessionJob (client_id : Z) (authority_node_id : string) (cwd : option string)
| RelayProbeJob (client_id : Z) (peer : string) (streams hold_secs : Z)
| RelayJoinJob (client_id : Z) (address token : string) (force use_proxy : bool)
    (context : RelayJoinContext)
| RelayRemoveJob (client_id : Z).

Inductive effect :=
| ToClients (r : ClientWriterRequest)
| ToHostIo (r : AuthorityHostIoRequest)
| ToCatalog (reason : LocalCatalogChangeReason)
| ToCatalogListener (listener : Z) (reason : LocalCatalogChangeReason)
| ToIngress (e : InternalEvent)
| MonitorRegister (target_id : string)
| MonitorUnregister (target_id : string)
| StopViewer (s : RatatuiRemoteSession)
| WakeListener
| SendReconnectSnapshotHosts
| StartWorker (id : Z) (w : worker)
| StopWorker (id : Z)
| Spawn (j : job)
| CreateReply (request_id : string) (r : result (string * string) string)
| StoreSetting (endpoint : option string) (save : bool).

(** ** Events *)

Module Ev.

Inductive StateEvent `{JsonValue} :=
| LocalSessionChildExit (target_id : string)
| LocalSessionTitleChanged (target_id title : string)
| SessionTaskStateChanged (target_id : string) (task_state : ManagedSessionTaskState)
| SessionCommandNameChanged (target_id command_name : string)
| SessionCommandNameCleared (target_id : string)
| LocalSessionOutput (target_id : string)
| AuthorityHostSessionChildExited (target_id : string)
| AuthorityHostSessionPtyClosed (target_id : string)
| ClientConnected (client_id : Z)
| ClientDisconnected (client_id : Z)
| ClientCommand (client_id : Z) (command : Cmd.ClientCommand)
| CreateAuthorityHostSession (request_id : string) (cols rows : Z)
| RemoteSessionOutput (target_id : string)
| RemoteSessionDisconnected (target_id : string)
| RemoteSessionReconnected (target_id : string) (session : RatatuiRemoteSession)
| RemoteSessionCatalogUpdated (record : ManagedSessionRecord)
| SessionClosed (target_id : string)
| AgentSignalReceived (target_id agent event : string) (payload : Value)
| RemoteNodeOffline (node_id : string)
| RemoteNodeAuthRejected (node_id message : string)
| RemoteNodeOnline (node_id : string)
| RemoteNodeReconnectFailed (node_id : string)
| RecordRemoteNodeConnection (node_id : string) (info : RemoteNodeConnectionInfo)
| NetworkConnectivityChanged (online : bool)
| RelayLinkConnected (relay_address : string)
| RelayLinkDisconnected (relay_address reason : string)
| RelayLinkError (code : Z) (message : string)
| RelayPeerOnline (node_id : string)
| RelayPeerOffline (node_id : string)
| RemoteNodeReachable (node_id : string)
| ReconnectSnapshotHosts
| SnapshotHostReconnectResult (profile_name authority_node_id : string)
    (r : result RemoteHostConnectedOutcome string)
| RemoteHostConnectResult (client_id : Z) (profile_name : string)
    (r : result RemoteHostConnectedOutcome string) (activate : bool)
    (relay_join : option RemoteRelayJoinRequest)
| RemoteHostRelayJoinRequested (address token : string) (use_proxy : bool)
| RemoteSessionCreateResult (client_id : Z) (authority_node_id : string)
    (r : result ManagedSessionRecord string)
| E2eRelayProbeResult (client_id : Z) (r : result string string)
| RelayJoinResult (client_id : Z) (address : string) (r : result RelayJoinApplied string)
| RelayRemoveResult (client_id : Z) (r : result string string)
| FlushOutputBroadcast.

End Ev.
