(* ===== verification/NodeState.v ===== *)
(** * Node state: the state all sessions of a node share

    [src/ratatui_node/runtime.rs]: [SharedState] and its operations, and
    [build_snapshot] of [src/ratatui_node/snapshot.rs], which shows it to the
    user interface. The state loop is its only writer, so an operation is a
    function on the state; what it sends to other threads is appended to
    [nd_out]. A session that runs on this node is known by the calls made on
    its terminal; one that runs elsewhere is the viewer of [RemoteSession]. *)

From S2P Require Import Prelude Bytes Text Utf8 Str SessionCatalog Observer RemoteSession HostGrid HostIo TargetHost NodeTypes.
From Stdlib Require Import Strings.Ascii.
From stdpp Require Import pretty.

#[local] Open Scope Z_scope.

(** ** Strings *)

(** [str::rsplit_once] at a character. *)
Fixpoint rsplit_once (c : Ascii.ascii) (s : string) : option (string * string) :=
  match s with
  | EmptyString => None
  | String x r =>
      match rsplit_once c r with
      | Some (a, b) => Some (String x a, b)
      | None => if Ascii.eqb x c then Some (EmptyString, r) else None
      end
  end.

(** [target_id.rsplit_once(':').map(|(_, id)| id)]. *)
Definition short_id (target_id : string) : option string := snd <$> rsplit_once ":"%char target_id.

(** ** Sessions on this node

    The calls made on the emulator and its event loop: input, the resize of
    the pseudo terminal, the resize of the grid. The grid and the modes are
    the emulator's. *)

Inductive term_call := MsgInput (bytes : list byte) | MsgResize (cols rows : Z) | TermResize (cols rows : Z).

Record RatatuiLocalSession := mkLocalSession {
  ls_grid : Grid;
  ls_cursor_visible : bool;
  ls_app_cursor : bool;
  ls_app_keypad : bool;
  ls_bracketed_paste : bool;
  ls_calls : list term_call }.

Definition ls_call (l : list term_call) (s : RatatuiLocalSession) : RatatuiLocalSession :=
  mkLocalSession (ls_grid s) (ls_cursor_visible s) (ls_app_cursor s) (ls_app_keypad s)
    (ls_bracketed_paste s) (ls_calls s ++ l).

Definition feed_input (bytes : list byte) : RatatuiLocalSession -> RatatuiLocalSession :=
  ls_call [MsgInput bytes].

Definition local_resize (cols rows : Z) : RatatuiLocalSession -> RatatuiLocalSession :=
  ls_call [MsgResize cols rows; TermResize cols rows].

(** ** State *)

(** [listener_label] is the address the node listens on, as it is printed. *)
Record RemoteNetworkConfig := mkNetwork {
  net_port : Z;
  net_connect : option string;
  net_public_endpoint : option string;
  listener_label : string }.

Record Node := mkNode {
  nd_network : RemoteNetworkConfig;
  nd_public_endpoint_override : option string;
  nd_shutdown : bool;
  nd_sessions : gmap string ManagedSessionRecord;
  nd_active_target : option string;
  nd_local_sessions : gmap string RatatuiLocalSession;
  nd_authority_host_sessions : gset string;
  nd_remote_sessions : gmap string RatatuiRemoteSession;
  nd_client_count : Z;
  nd_clients : list Z;
  nd_last_client_resize : option (Z * Z);
  nd_local_catalog_tx : list Z;
  nd_ingress_internal_tx : bool;
  nd_process_monitor : bool;
  nd_remote_node_connections : gmap string RemoteNodeConnectionInfo;
  nd_remote_node_auth_rejections : gmap string string;
  nd_relay_presence : gmap string bool;
  nd_relay_error : option RelayLinkErrorSnapshot;
  nd_relay_client : option RelayTomlConfig;
  nd_out : list effect }.

Definition set_nd_public_endpoint_override (v : option string) (n : Node) : Node :=
  mkNode (nd_network n) v (nd_shutdown n) (nd_sessions n) (nd_active_target n)
    (nd_local_sessions n) (nd_authority_host_sessions n) (nd_remote_sessions n)
    (nd_client_count n) (nd_clients n) (nd_last_client_resize n) (nd_local_catalog_tx n)
    (nd_ingress_internal_tx n) (nd_process_monitor n) (nd_remote_node_connections n)
    (nd_remote_node_auth_rejections n) (nd_relay_presence n) (nd_relay_error n)
    (nd_relay_client n) (nd_out n).

Definition set_nd_shutdown (v : bool) (n : Node) : Node :=
  mkNode (nd_network n) (nd_public_endpoint_override n) v (nd_sessions n) (nd_active_target n)
    (nd_local_sessions n) (nd_authority_host_sessions n) (nd_remote_sessions n)
    (nd_client_count n) (nd_clients n) (nd_last_client_resize n) (nd_local_catalog_tx n)
    (nd_ingress_internal_tx n) (nd_process_monitor n) (nd_remote_node_connections n)
    (nd_remote_node_auth_rejections n) (nd_relay_presence n) (nd_relay_error n)
    (nd_relay_client n) (nd_out n).

Definition set_nd_sessions (v : gmap string ManagedSessionRecord) (n : Node) : Node :=
  mkNode (nd_network n) (nd_public_endpoint_override n) (nd_shutdown n) v (nd_active_target n)
    (nd_local_sessions n) (nd_authority_host_sessions n) (nd_remote_sessions n)
    (nd_client_count n) (nd_clients n) (nd_last_client_resize n) (nd_local_catalog_tx n)
    (nd_ingress_internal_tx n) (nd_process_monitor n) (nd_remote_node_connections n)
    (nd_remote_node_auth_rejections n) (nd_relay_presence n) (nd_relay_error n)
    (nd_relay_client n) (nd_out n).

Definition set_nd_active_target (v : option string) (n : Node) : Node :=
  mkNode (nd_network n) (nd_public_endpoint_override n) (nd_shutdown n) (nd_sessions n) v
    (nd_local_sessions n) (nd_authority_host_sessions n) (nd_remote_sessions n)
    (nd_client_count n) (nd_clients n) (nd_last_client_resize n) (nd_local_catalog_tx n)
    (nd_ingress_internal_tx n) (nd_process_monitor n) (nd_remote_node_connections n)
    (nd_remote_node_auth_rejections n) (nd_relay_presence n) (nd_relay_error n)
    (nd_relay_client n) (nd_out n).

Definition set_nd_local_sessions (v : gmap string RatatuiLocalSession) (n : Node) : Node :=
  mkNode (nd_network n) (nd_public_endpoint_override n) (nd_shutdown n) (nd_sessions n)
    (nd_active_target n) v (nd_authority_host_sessions n) (nd_remote_sessions n)
    (nd_client_count n) (nd_clients n) (nd_last_client_resize n) (nd_local_catalog_tx n)
    (nd_ingress_internal_tx n) (nd_process_monitor n) (nd_remote_node_connections n)
    (nd_remote_node_auth_rejections n) (nd_relay_presence n) (nd_relay_error n)
    (nd_relay_client n) (nd_out n).

Definition set_nd_authority_host_sessions (v : gset string) (n : Node) : Node :=
  mkNode (nd_network n) (nd_public_endpoint_override n) (nd_shutdown n) (nd_sessions n)
    (nd_active_target n) (nd_local_sessions n) v (nd_remote_sessions n) (nd_client_count n)
    (nd_clients n) (nd_last_client_resize n) (nd_local_catalog_tx n) (nd_ingress_internal_tx n)
    (nd_process_monitor n) (nd_remote_node_connections n) (nd_remote_node_auth_rejections n)
    (nd_relay_presence n) (nd_relay_error n) (nd_relay_client n) (nd_out n).

Definition set_nd_remote_sessions (v : gmap string RatatuiRemoteSession) (n : Node) : Node :=
  mkNode (nd_network n) (nd_public_endpoint_override n) (nd_shutdown n) (nd_sessions n)
    (nd_active_target n) (nd_local_sessions n) (nd_authority_host_sessions n) v
    (nd_client_count n) (nd_clients n) (nd_last_client_resize n) (nd_local_catalog_tx n)
    (nd_ingress_internal_tx n) (nd_process_monitor n) (nd_remote_node_connections n)
    (nd_remote_node_auth_rejections n) (nd_relay_presence n) (nd_relay_error n)
    (nd_relay_client n) (nd_out n).

Definition set_nd_client_count (v : Z) (n : Node) : Node :=
  mkNode (nd_network n) (nd_public_endpoint_override n) (nd_shutdown n) (nd_sessions n)
    (nd_active_target n) (nd_local_sessions n) (nd_authority_host_sessions n)
    (nd_remote_sessions n) v (nd_clients n) (nd_last_client_resize n) (nd_local_catalog_tx n)
    (nd_ingress_internal_tx n) (nd_process_monitor n) (nd_remote_node_connections n)
    (nd_remote_node_auth_rejections n) (nd_relay_presence n) (nd_relay_error n)
    (nd_relay_client n) (nd_out n).

Definition set_nd_clients (v : list Z) (n : Node) : Node :=
  mkNode (nd_network n) (nd_public_endpoint_override n) (nd_shutdown n) (nd_sessions n)
    (nd_active_target n) (nd_local_sessions n) (nd_authority_host_sessions n)
    (nd_remote_sessions n) (nd_client_count n) v (nd_last_client_resize n) (nd_local_catalog_tx n)
    (nd_ingress_internal_tx n) (nd_process_monitor n) (nd_remote_node_connections n)
    (nd_remote_node_auth_rejections n) (nd_relay_presence n) (nd_relay_error n)
    (nd_relay_client n) (nd_out n).

Definition set_nd_last_client_resize (v : option (Z * Z)) (n : Node) : Node :=
  mkNode (nd_network n) (nd_public_endpoint_override n) (nd_shutdown n) (nd_sessions n)
    (nd_active_target n) (nd_local_sessions n) (nd_authority_host_sessions n)
    (nd_remote_sessions n) (nd_client_count n) (nd_clients n) v (nd_local_catalog_tx n)
    (nd_ingress_internal_tx n) (nd_process_monitor n) (nd_remote_node_connections n)
    (nd_remote_node_auth_rejections n) (nd_relay_presence n) (nd_relay_error n)
    (nd_relay_client n) (nd_out n).

Definition set_nd_local_catalog_tx (v : list Z) (n : Node) : Node :=
  mkNode (nd_network n) (nd_public_endpoint_override n) (nd_shutdown n) (nd_sessions n)
    (nd_active_target n) (nd_local_sessions n) (nd_authority_host_sessions n)
    (nd_remote_sessions n) (nd_client_count n) (nd_clients n) (nd_last_client_resize n) v
    (nd_ingress_internal_tx n) (nd_process_monitor n) (nd_remote_node_connections n)
    (nd_remote_node_auth_rejections n) (nd_relay_presence n) (nd_relay_error n)
    (nd_relay_client n) (nd_out n).

Definition set_nd_remote_node_connections (v : gmap string RemoteNodeConnectionInfo) (n : Node) : Node :=
  mkNode (nd_network n) (nd_public_endpoint_override n) (nd_shutdown n) (nd_sessions n)
    (nd_active_target n) (nd_local_sessions n) (nd_authority_host_sessions n)
    (nd_remote_sessions n) (nd_client_count n) (nd_clients n) (nd_last_client_resize n)
    (nd_local_catalog_tx n) (nd_ingress_internal_tx n) (nd_process_monitor n) v
    (nd_remote_node_auth_rejections n) (nd_relay_presence n) (nd_relay_error n)
    (nd_relay_client n) (nd_out n).

Definition set_nd_remote_node_auth_rejections (v : gmap string string) (n : Node) : Node :=
  mkNode (nd_network n) (nd_public_endpoint_override n) (nd_shutdown n) (nd_sessions n)
    (nd_active_target n) (nd_local_sessions n) (nd_authority_host_sessions n)
    (nd_remote_sessions n) (nd_client_count n) (nd_clients n) (nd_last_client_resize n)
    (nd_local_catalog_tx n) (nd_ingress_internal_tx n) (nd_process_monitor n)
    (nd_remote_node_connections n) v (nd_relay_presence n) (nd_relay_error n) (nd_relay_client n)
    (nd_out n).

Definition set_nd_relay_presence (v : gmap string bool) (n : Node) : Node :=
  mkNode (nd_network n) (nd_public_endpoint_override n) (nd_shutdown n) (nd_sessions n)
    (nd_active_target n) (nd_local_sessions n) (nd_authority_host_sessions n)
    (nd_remote_sessions n) (nd_client_count n) (nd_clients n) (nd_last_client_resize n)
    (nd_local_catalog_tx n) (nd_ingress_internal_tx n) (nd_process_monitor n)
    (nd_remote_node_connections n) (nd_remote_node_auth_rejections n) v (nd_relay_error n)
    (nd_relay_client n) (nd_out n).

Definition set_nd_relay_error (v : option RelayLinkErrorSnapshot) (n : Node) : Node :=
  mkNode (nd_network n) (nd_public_endpoint_override n) (nd_shutdown n) (nd_sessions n)
    (nd_active_target n) (nd_local_sessions n) (nd_authority_host_sessions n)
    (nd_remote_sessions n) (nd_client_count n) (nd_clients n) (nd_last_client_resize n)
    (nd_local_catalog_tx n) (nd_ingress_internal_tx n) (nd_process_monitor n)
    (nd_remote_node_connections n) (nd_remote_node_auth_rejections n) (nd_relay_presence n) v
    (nd_relay_client n) (nd_out n).

Definition set_nd_relay_client (v : option RelayTomlConfig) (n : Node) : Node :=
  mkNode (nd_network n) (nd_public_endpoint_override n) (nd_shutdown n) (nd_sessions n)
    (nd_active_target n) (nd_local_sessions n) (nd_authority_host_sessions n)
    (nd_remote_sessions n) (nd_client_count n) (nd_clients n) (nd_last_client_resize n)
    (nd_local_catalog_tx n) (nd_ingress_internal_tx n) (nd_process_monitor n)
    (nd_remote_node_connections n) (nd_remote_node_auth_rejections n) (nd_relay_presence n)
    (nd_relay_error n) v (nd_out n).

Definition set_nd_out (v : list effect) (n : Node) : Node :=
  mkNode (nd_network n) (nd_public_endpoint_override n) (nd_shutdown n) (nd_sessions n)
    (nd_active_target n) (nd_local_sessions n) (nd_authority_host_sessions n)
    (nd_remote_sessions n) (nd_client_count n) (nd_clients n) (nd_last_client_resize n)
    (nd_local_catalog_tx n) (nd_ingress_internal_tx n) (nd_process_monitor n)
    (nd_remote_node_connections n) (nd_remote_node_auth_rejections n) (nd_relay_presence n)
    (nd_relay_error n) (nd_relay_client n) v.

Definition emit (e : effect) (n : Node) : Node := set_nd_out (nd_out n ++ [e]) n.

(** What the outside answers while one event is handled: the process, the
    clock, whether a write on a viewer's connection succeeds, the order in
    which hash tables are visited, the threads that still listen to catalog
    changes, and the results of starting a shell or a viewer. *)
Record Env := mkEnv {
  env_pid : Z;
  env_now : Z;
  env_io : io;
  shuffle : forall A, list A -> list A;
  listening : Z -> bool;
  env_shell : option string;
  spawn_local : Z -> Z -> option string -> result RatatuiLocalSession string;
  spawn_host : result Pty string;
  clone_host : bool;
  open_remote : result unit string;
  clipboard_file : result string string;
  env_file_id : string;
  env_instant : Z;
  uptime_secs : Z;
  link_credentials : bool;
  store_load : bool;
  store_save : option (list SnapshotEntry);
  env_timestamp : string }.

(** Nothing is said of the order, except that everything is visited once. *)
Class EnvOk (env : Env) := shuffle_perm : forall A (l : list A), shuffle env A l ≡ₚ l.

Section operations.
Context (env : Env).

(** [HashMap::values]. *)
Definition values {A} (m : gmap string A) : list A := shuffle env A (map_to_list m).*2.

(** The first record [find] meets with a given address. *)
Definition find_target (target_id : string) (m : gmap string ManagedSessionRecord) :
    option ManagedSessionRecord :=
  List.find (fun r => bool_decide (qualified_target (address r) = target_id)) (values m).

Definition is_remote (r : ManagedSessionRecord) : bool :=
  bool_decide (address_transport (address r) = RemotePeer).

Definition is_local (r : ManagedSessionRecord) : bool :=
  bool_decide (address_transport (address r) = Local).

(** *** Names *)

Definition local_authority_id (n : Node) : string :=
  ("local#" +:+ pretty (net_port (nd_network n)))%string.

Definition workspace_id (n : Node) : string := ("ratatui-" +:+ pretty (net_port (nd_network n)))%string.

Definition advertised_public_endpoint_label (n : Node) : string :=
  default (default (listener_label (nd_network n)) (net_public_endpoint (nd_network n)))
    (nd_public_endpoint_override n).

Definition connect_endpoint_uri (n : Node) : option string :=
  (fun c => if str_contains (lit "://") (lit c) then c else ("http://" +:+ c)%string) <$>
  net_connect (nd_network n).

Definition shell_name : string :=
  match env_shell env ≫= rsplit_once "/"%char%char with Some (_, name) => name | None => "bash" end.

(** *** Catalog listeners *)

(** [notify_local_catalog_changed]: a listener that is gone is dropped. *)
Definition notify_local_catalog_changed (reason : LocalCatalogChangeReason) (n : Node) : Node :=
  let live := List.filter (listening env) (nd_local_catalog_tx n) in
  set_nd_local_catalog_tx live
    (foldl (fun n tx => emit (ToCatalogListener tx reason) n) n live).

(** *** Records *)

Definition with_availability (a : SessionAvailability) (r : ManagedSessionRecord) : ManagedSessionRecord :=
  mkManagedSessionRecord (address r) (selector r) a (workspace_dir r) (workspace_key r)
    (session_role r) (opened_by r) (attached_clients r) (window_count r) (command_name r)
    (display_command_name r) (agent_command_name r) (current_path r) (task_state r).

Definition with_task_state (s : ManagedSessionTaskState) (r : ManagedSessionRecord) : ManagedSessionRecord :=
  mkManagedSessionRecord (address r) (selector r) (availability r) (workspace_dir r) (workspace_key r)
    (session_role r) (opened_by r) (attached_clients r) (window_count r) (command_name r)
    (display_command_name r) (agent_command_name r) (current_path r) s.

Definition with_names (display agent : option string) (r : ManagedSessionRecord) : ManagedSessionRecord :=
  mkManagedSessionRecord (address r) (selector r) (availability r) (workspace_dir r) (workspace_key r)
    (session_role r) (opened_by r) (attached_clients r) (window_count r) (command_name r)
    display agent (current_path r) (task_state r).

Definition with_path (p : option string) (r : ManagedSessionRecord) : ManagedSessionRecord :=
  mkManagedSessionRecord (address r) (selector r) (availability r) (workspace_dir r) (workspace_key r)
    (session_role r) (opened_by r) (attached_clients r) (window_count r) (command_name r)
    (display_command_name r) (agent_command_name r) p (task_state r).

Definition set_session_task_state (target_id : string) (s : ManagedSessionTaskState) (n : Node) : Node :=
  notify_local_catalog_changed LocalRuntimeChanged
    (set_nd_sessions (alter (with_task_state s) target_id (nd_sessions n)) n).

(** The name of an agent that takes [@] references is also kept apart. *)
Definition name_record (name : string) (r : ManagedSessionRecord) : ManagedSessionRecord :=
  with_names (Some name)
    (match agent_command_name r with
     | None => if accepts_at_reference name then Some name else None
     | Some agent => Some agent
     end) r.

Definition set_session_command_name (target_id name : string) (n : Node) : Node :=
  notify_local_catalog_changed LocalRuntimeChanged
    (set_nd_sessions (alter (name_record name) target_id (nd_sessions n)) n).

Definition clear_session_command_name (target_id : string) (n : Node) : Node :=
  notify_local_catalog_changed LocalRuntimeChanged
    (set_nd_sessions (alter (fun r => with_names None (agent_command_name r) r) target_id (nd_sessions n)) n).

Definition set_session_current_path (target_id path : string) (n : Node) : Node :=
  notify_local_catalog_changed LocalRuntimeChanged
    (set_nd_sessions (alter (with_path (Some path)) target_id (nd_sessions n)) n).

(** The fields of an existing record that a publication replaces. *)
Definition merge_published (existing r : ManagedSessionRecord) : ManagedSessionRecord :=
  mkManagedSessionRecord (address existing) (selector existing) (availability r)
    (workspace_dir existing) (workspace_key existing) (session_role existing) (opened_by existing)
    (attached_clients r) (window_count r) (command_name r) (display_command_name r)
    (agent_command_name r) (current_path r) (task_state r).

Definition update_remote_session_record (r : ManagedSessionRecord) (n : Node) : Node :=
  if negb (is_remote r) then n
  else
    let target_id := qualified_target (address r) in
    set_nd_sessions
      (<[target_id := match nd_sessions n !! target_id with
                      | Some existing => merge_published existing r
                      | None => r
                      end]> (nd_sessions n)) n.

(** *** Connections of remote nodes *)

Definition record_remote_node_connection (node_id : string) (info : RemoteNodeConnectionInfo) (n : Node) : Node :=
  set_nd_remote_node_connections (<[node_id := info]> (nd_remote_node_connections n)) n.

Definition remote_node_connection (node_id : string) (n : Node) : option RemoteNodeConnectionInfo :=
  nd_remote_node_connections n !! node_id.

(** *** Clients *)

Definition detach_all_clients (n : Node) : Node := set_nd_client_count 0 (set_nd_clients [] n).

(** *** The end of a session *)

Definition unregister_from_monitor (target_id : string) (n : Node) : Node :=
  if nd_process_monitor n then emit (MonitorUnregister target_id) n else n.

(** The viewer of a remote session is stopped and dropped. *)
Definition stop_viewer (target_id : string) (n : Node) : Node :=
  match nd_remote_sessions n !! target_id with
  | Some s =>
      set_nd_remote_sessions (delete target_id (nd_remote_sessions n))
        (emit (StopViewer (session_stop s)) n)
  | None => n
  end.

(** The runtime of a session leaves the tables. *)
Definition remove_runtime (was_local : bool) (target_id : string) (n : Node) : Node :=
  if was_local then
    let n := set_nd_local_sessions (delete target_id (nd_local_sessions n)) n in
    match short_id target_id with
    | Some id => set_nd_authority_host_sessions (nd_authority_host_sessions n ∖ {[id]}) n
    | None => n
    end
  else stop_viewer target_id n.

Definition remaining_local (n : Node) : list string :=
  map (fun r => qualified_target (address r))
    (List.filter (fun r => is_local r && bool_decide (availability r = Online)) (values (nd_sessions n))).

(** The next active session, or the end of the node. *)
Definition activate_next (target_id : string) (n : Node) : Node :=
  match remaining_local n with
  | [] => set_nd_active_target None (emit WakeListener (set_nd_shutdown true n))
  | first :: _ =>
      set_nd_active_target
        (Some (default first
                 (List.find (fun t => negb (bool_decide (t = target_id))) (remaining_local n)))) n
  end.

Definition handle_session_exit (target_id : string) (n : Node) : Node :=
  let n := unregister_from_monitor target_id n in
  let was_local := match nd_sessions n !! target_id with Some r => is_local r | None => false end in
  let n := set_nd_sessions (delete target_id (nd_sessions n)) n in
  let n := remove_runtime was_local target_id n in
  let n := activate_next target_id n in
  notify_local_catalog_changed (LocalTargetExited target_id) n.

(** *** New sessions *)

(** The numbers in use below a prefix: [strip_prefix] and [parse::<u64>]. *)
Definition used_ids (prefix : string) (n : Node) : list Z :=
  omap (fun key => strip_str_prefix prefix key ≫= fun suffix => parse_uint 64 (lit suffix))
    (shuffle env string (map_to_list (nd_sessions n)).*1).

Definition max_suffix (prefix : string) (n : Node) : Z := foldr Z.max 0 (used_ids prefix n).

(** [max_suffix + 1] wraps at 2^64. *)
Definition next_local_session_id (n : Node) : string :=
  pretty (wrap 64 (max_suffix (local_authority_id n +:+ ":") n + 1)).

Definition new_record (a : ManagedSessionAddress) : ManagedSessionRecord :=
  mkManagedSessionRecord a None Online None None (Some SessionCatalog.TargetHost) [] 0 1 (Some shell_name)
    None None None Input.

Definition create_local_session (id : string) (cols rows : Z) (cwd : option string) (n : Node) :
    result (string * Node) string :=
  let a := local (local_authority_id n) id in
  let target_id := qualified_target a in
  let? session := spawn_local env cols rows cwd in
  let n := if nd_process_monitor n then emit (MonitorRegister target_id) n else n in
  let n := set_nd_local_sessions (<[target_id := session]> (nd_local_sessions n)) n in
  let n := set_nd_sessions (<[target_id := new_record a]> (nd_sessions n)) n in
  let n := set_nd_active_target (Some target_id) n in
  Ok (target_id, notify_local_catalog_changed LocalRuntimeChanged n).

(** [create_authority_host_session] of [SharedState]; the caller registers the
    terminal. *)
Definition create_host_record (n : Node) : result (string * Pty * string * Node) string :=
  let id := next_local_session_id n in
  let a := local (local_authority_id n) id in
  let target_id := qualified_target a in
  let? pty := spawn_host env in
  let n := set_nd_sessions (<[target_id := new_record a]> (nd_sessions n)) n in
  Ok (id, pty, target_id, set_nd_active_target (Some target_id) n).

(** *** Viewers of remote sessions *)

Definition ensure_remote_session (r : ManagedSessionRecord) (n : Node) : result Node string :=
  let target_id := qualified_target (address r) in
  match nd_remote_sessions n !! target_id with
  | Some _ => Ok n
  | None =>
      let? _ := open_remote env in
      Ok (set_nd_remote_sessions (<[target_id := session_open r false]> (nd_remote_sessions n)) n)
  end.

Definition alter_remote (f : RatatuiRemoteSession -> RatatuiRemoteSession) (target_id : string) (n : Node) : Node :=
  set_nd_remote_sessions (alter f target_id (nd_remote_sessions n)) n.

Definition alter_local (f : RatatuiLocalSession -> RatatuiLocalSession) (target_id : string) (n : Node) : Node :=
  set_nd_local_sessions (alter f target_id (nd_local_sessions n)) n.

Definition feed_remote_session_input (target_id : string) (bytes : list byte) (n : Node) : Node :=
  alter_remote (session_feed_input (env_pid env) bytes (env_io env)) target_id n.

Definition feed_remote_session_paste_file (target_id hint : string) (bytes : list byte) (n : Node) : Node :=
  alter_remote (send_paste_file hint (env_file_id env) (env_now env) bytes (env_io env)) target_id n.

Definition resize_viewer (cols rows : Z) (s : RatatuiRemoteSession) : RatatuiRemoteSession :=
  if negb (opened s) then open_mirror (env_pid env) cols rows (env_now env) (env_io env) s
  else (session_resize (env_pid env) cols rows (env_now env) (env_io env) s).1.

Definition resize_active_remote_session (cols rows : Z) (n : Node) : Node :=
  match nd_active_target n with
  | Some target => alter_remote (resize_viewer cols rows) target n
  | None => n
  end.

Definition resize_active_local_session (cols rows : Z) (n : Node) : Node :=
  match nd_active_target n with
  | Some target => alter_local (local_resize cols rows) target n
  | None => n
  end.

(** *** The relay link *)

(** [stop_relay_link] takes the handle; [start_relay_link] installs a new one
    when the credentials are there, and tells the ingress. *)
Definition stop_relay_link (n : Node) : Node := set_nd_relay_client None n.

Definition install_relay_client_handle (handle : option RelayTomlConfig) (n : Node) : Node :=
  let n := set_nd_relay_client handle n in
  if nd_ingress_internal_tx n then emit (ToIngress (SetRelayClient handle)) n else n.

Definition start_relay_link (relay : RelayTomlConfig) (n : Node) : Node :=
  if link_credentials env then install_relay_client_handle (Some relay) n else n.

(** *** What is shown *)

(** The viewer's own mailbox is empty, so reading it cannot fail
    ([session_snapshot_Ok] below). *)
Definition remote_screen (s : RatatuiRemoteSession) : SessionSnapshot :=
  match session_snapshot s with Ok v => v | Err _ => no_screen end.

Definition remote_history (s : RatatuiRemoteSession) : list text * list text :=
  match history_snapshot s with Ok v => v | Err _ => ([], []) end.

Definition history_for_target (target_id : string) (n : Node) : option (list text * list text) :=
  match address_transport ∘ address <$> nd_sessions n !! target_id with
  | Some RemotePeer => remote_history <$> nd_remote_sessions n !! target_id
  | Some Local => (fun s => local_history_snapshot (ls_grid s)) <$> nd_local_sessions n !! target_id
  | None => None
  end.

Definition session_view (r : ManagedSessionRecord) : SessionView :=
  mkSessionView (qualified_target (address r)) (if is_remote r then "remote" else "local")
    (default (default "bash" (command_name r)) (display_command_name r)) (agent_command_name r)
    (authority_id (address r)) (display_authority_id (address r)) (session_id (address r))
    (task_state_as_str (task_state r)) (availability_as_str (availability r)) (attached_clients r)
    (current_path r) None None.

Definition is_remote_target (target : string) (n : Node) : bool :=
  match nd_sessions n !! target with Some r => is_remote r | None => false end.

Definition active_screen (n : Node) : SessionSnapshot :=
  match nd_active_target n with
  | None => no_screen
  | Some target =>
      if is_remote_target target n then
        match nd_remote_sessions n !! target with Some s => remote_screen s | None => no_screen end
      else
        match nd_local_sessions n !! target with
        | Some s => local_snapshot (ls_grid s) (ls_cursor_visible s)
        | None => no_screen
        end
  end.

Definition DEFAULT_SESSION_ID : string := "1".

Definition active_session_id (n : Node) : string :=
  match nd_active_target n ≫= (fun t => nd_sessions n !! t) with
  | Some r => session_id (address r)
  | None => DEFAULT_SESSION_ID
  end.

(** The order of the side bar: sessions of this node first, then by address,
    compared as bytes. *)
Definition view_le (a b : SessionView) : Prop :=
  let al := bool_decide (sv_transport a = "local") in
  let bl := bool_decide (sv_transport b = "local") in
  if eqb al bl then String.leb (sv_id a) (sv_id b) = true else al = true.

#[global] Instance view_le_dec a b : Decision (view_le a b).
Proof. unfold view_le. case_match; apply _. Defined.

Context `{RustText}.

(** The presence a relay reports for the node of a remote session, found by
    the fingerprint of its certificate. *)
Definition view_presence (n : Node) (v : SessionView) : option string :=
  if negb (bool_decide (sv_transport v = "remote")) then None
  else
    (fun online : bool => if online then "online" else "offline") <$>
    (remote_node_connection (sv_authority_node_id v) n ≫= fun info =>
     nd_relay_presence n !! to_lowercase (ci_tls_pin_sha256 info)).

Definition with_relay (presence : option string) (error : option RelayErrorView) (v : SessionView) :
    SessionView :=
  mkSessionView (sv_id v) (sv_transport v) (sv_command_name v) (sv_agent_command_name v)
    (sv_authority_node_id v) (sv_display_authority_id v) (sv_session_id v) (sv_task_state v)
    (sv_availability v) (sv_attached_clients v) (sv_current_path v) presence error.

Definition link_error (n : Node) : option RelayErrorView := relay_error_view <$> nd_relay_error n.

Definition add_relay (n : Node) (v : SessionView) : SessionView :=
  let presence := view_presence n v in
  with_relay presence (match presence with Some _ => link_error n | None => None end) v.

Definition snapshot_sessions (n : Node) : list SessionView :=
  map (add_relay n) (merge_sort view_le (map session_view (values (nd_sessions n)))).

Definition count {A} (f : A -> bool) (l : list A) : Z := len (List.filter f l).

Definition build_snapshot (client_count : Z) (n : Node) : RatatuiSnapshot :=
  let sessions := snapshot_sessions n in
  mkRatatuiSnapshot (active_session_id n) client_count (active_screen n)
    (mkFooterState (active_session_id n) (Some (listener_label (nd_network n)))
       (Some (advertised_public_endpoint_label n)) (connect_endpoint_uri n)
       (count (fun v => bool_decide (sv_transport v = "remote")) sessions)
       (count id (values (nd_relay_presence n))) (len (map_to_list (nd_relay_presence n)))
       (link_error n))
    sessions (nd_active_target n).

End operations.

(** ** What the operations send

    They only add to [nd_out], and only the effects of [node_effect]. *)

Definition node_effect (e : effect) : bool :=
  match e with
  | ToCatalogListener _ _ | MonitorRegister _ | MonitorUnregister _ | StopViewer _ | WakeListener
  | ToIngress _ => true
  | _ => false
  end.

Definition extends (n n' : Node) : Prop :=
  exists o, nd_out n' = nd_out n ++ o /\ Forall (fun e => node_effect e = true) o.

Lemma extends_same n n' : nd_out n' = nd_out n -> extends n n'.
Proof. intros E. exists []. rewrite app_nil_r. split; [done|constructor]. Qed.

Lemma extends_trans n1 n2 n3 : extends n1 n2 -> extends n2 n3 -> extends n1 n3.
Proof.
  intros (o1 & E1 & H1) (o2 & E2 & H2). exists (o1 ++ o2). rewrite E2, E1, app_assoc.
  split; [done|]. by apply Forall_app.
Qed.

Lemma extends_emit e n : node_effect e = true -> extends n (emit e n).
Proof. intros He. exists [e]. split; [done|]. by constructor. Qed.

Section sends.
Context (env : Env).

Lemma extends_notify reason n : extends n (notify_local_catalog_changed env reason n).
Proof.
  unfold notify_local_catalog_changed.
  apply (extends_trans _ (foldl (fun n tx => emit (ToCatalogListener tx reason) n) n
    (List.filter (listening env) (nd_local_catalog_tx n)))); [|by apply extends_same].
  generalize (List.filter (listening env) (nd_local_catalog_tx n)). intros txs. revert n.
  induction txs as [|t txs IH]; intros n; simpl; [by apply extends_same|].
  eapply extends_trans; [|apply IH]. by apply extends_emit.
Qed.

Lemma extends_alter f t n :
  extends n (notify_local_catalog_changed env LocalRuntimeChanged
               (set_nd_sessions (alter f t (nd_sessions n)) n)).
Proof. eapply extends_trans; [|apply extends_notify]. by apply extends_same. Qed.

Lemma extends_stop_viewer t n : extends n (stop_viewer t n).
Proof. unfold stop_viewer. case_match; [|by apply extends_same]. by eexists [_]; repeat constructor. Qed.

Lemma extends_session_exit t n : extends n (handle_session_exit env t n).
Proof.
  unfold handle_session_exit. eapply extends_trans; [|apply extends_notify].
  assert (A : forall n, extends n (activate_next env t n)).
  { intros m. unfold activate_next. case_match; [|by apply extends_same]. by eexists [_]; repeat constructor. }
  eapply extends_trans; [|apply A].
  assert (R : forall b n, extends n (remove_runtime b t n)).
  { intros b m. unfold remove_runtime. destruct b; [|apply extends_stop_viewer]. by case_match; apply extends_same. }
  eapply extends_trans; [|apply R].
  apply (extends_trans _ (unregister_from_monitor t n)); [|by apply extends_same].
  unfold unregister_from_monitor. case_match; [by apply extends_emit|by apply extends_same].
Qed.

Lemma extends_create_local id cols rows cwd n t n' :
  create_local_session env id cols rows cwd n = Ok (t, n') -> extends n n'.
Proof.
  unfold create_local_session. case_match; [|done]. intros E. simplify_eq.
  eapply extends_trans; [|apply extends_notify].
  apply (extends_trans _ (if nd_process_monitor n then
    emit (MonitorRegister (qualified_target (local (local_authority_id n) id))) n else n));
    [|by case_match; apply extends_same].
  case_match; [by apply extends_emit|by apply extends_same].
Qed.

Lemma extends_create_host n id p t n' : create_host_record env n = Ok (id, p, t, n') -> extends n n'.
Proof. unfold create_host_record. case_match; [|done]. intros E. simplify_eq. by apply extends_same. Qed.

Lemma extends_ensure r n n' : ensure_remote_session env r n = Ok n' -> extends n n'.
Proof. unfold ensure_remote_session. repeat case_match; intros; simplify_eq; by apply extends_same. Qed.

Lemma extends_relay_link pin n : extends n (start_relay_link env pin (stop_relay_link n)).
Proof.
  unfold start_relay_link, install_relay_client_handle. repeat case_match; try by apply extends_same.
  by eexists [_]; repeat constructor.
Qed.

Lemma extends_resize_remote cols rows n : extends n (resize_active_remote_session env cols rows n).
Proof. unfold resize_active_remote_session. by case_match; apply extends_same. Qed.

Lemma extends_resize_local cols rows n : extends n (resize_active_local_session cols rows n).
Proof. unfold resize_active_local_session. by case_match; apply extends_same. Qed.

Lemma extends_published r n : extends n (update_remote_session_record r n).
Proof. unfold update_remote_session_record. by repeat case_match; apply extends_same. Qed.

End sends.

Create HintDb sends discriminated.
#[global] Hint Resolve extends_notify extends_alter extends_stop_viewer extends_session_exit
  extends_relay_link extends_resize_remote extends_resize_local extends_published : sends.

(** A reading of [nd_out] that ignores those effects. *)
Lemma extends_omap {A} (f : effect -> option A) n n' :
  (forall e, node_effect e = true -> f e = None) -> extends n n' -> omap f (nd_out n') = omap f (nd_out n).
Proof.
  intros Hf (o & -> & Ho). rewrite omap_app. replace (omap f o) with (@nil A); [by rewrite app_nil_r|].
  symmetry. induction Ho as [|e o He Ho IH]; simpl; [done|]. by rewrite (Hf e He).
Qed.

(** Reading a viewer never fails: it has no mailbox. *)
Lemma session_snapshot_Ok s : exists v, session_snapshot s = Ok v.
Proof.
  unfold session_snapshot, sync, snapshot_from. rewrite drop_nil. simpl. eauto.
Qed.

Lemma history_snapshot_Ok s : exists v, history_snapshot s = Ok v.
Proof. unfold history_snapshot, sync, snapshot_from. rewrite drop_nil. simpl. eauto. Qed.
