(* ===== verification/StateLoop.v ===== *)
(** * State loop: the single writer of a node

    [src/ratatui_node/state_loop.rs]: [run_state_event_loop] with all of its
    handlers. One event is one call of [handle_event]: the shared state, the
    local variables of the loop and what is sent to the threads around it.
    The work the loop leaves to other threads is started with [Spawn] and
    [StartWorker]; it reports back with further events. *)

From S2P Require Import Prelude Bytes Text Utf8 Str SessionCatalog AgentDetector Keys RemoteSession HostGrid HostIo TargetHost NodeTypes NodeState.
From stdpp Require Import pretty.

#[local] Open Scope Z_scope.

(** ** State

    The shared state and the variables of [run_state_event_loop]. A handle of
    a worker is its number; [snapshots] is the file of outbound connections. *)

Record Loop := mkLoop {
  lp_node : Node;
  connected_clients : gset Z;
  reconnect_handles : gmap string Z;
  outbound_dial_retry_handles : gmap string Z;
  inbound_connect_wait_handles : gmap string Z;
  peer_reachability_handles : gmap string Z;
  last_retry_reset : gmap string Z;
  connecting_profiles : gset string;
  connect_waiters : gmap string (list Z);
  offline_nodes : gset string;
  network_online : bool;
  output_dirty : bool;
  snapshots : list SnapshotEntry;
  next_worker : Z }.

Definition set_node (v : Node) (l : Loop) : Loop :=
  mkLoop v (connected_clients l) (reconnect_handles l) (outbound_dial_retry_handles l)
    (inbound_connect_wait_handles l) (peer_reachability_handles l) (last_retry_reset l)
    (connecting_profiles l) (connect_waiters l) (offline_nodes l) (network_online l)
    (output_dirty l) (snapshots l) (next_worker l).

Definition set_connected_clients (v : gset Z) (l : Loop) : Loop :=
  mkLoop (lp_node l) v (reconnect_handles l) (outbound_dial_retry_handles l)
    (inbound_connect_wait_handles l) (peer_reachability_handles l) (last_retry_reset l)
    (connecting_profiles l) (connect_waiters l) (offline_nodes l) (network_online l)
    (output_dirty l) (snapshots l) (next_worker l).

Definition set_reconnect_handles (v : gmap string Z) (l : Loop) : Loop :=
  mkLoop (lp_node l) (connected_clients l) v (outbound_dial_retry_handles l)
    (inbound_connect_wait_handles l) (peer_reachability_handles l) (last_retry_reset l)
    (connecting_profiles l) (connect_waiters l) (offline_nodes l) (network_online l)
    (output_dirty l) (snapshots l) (next_worker l).

Definition set_outbound_dial_retry_handles (v : gmap string Z) (l : Loop) : Loop :=
  mkLoop (lp_node l) (connected_clients l) (reconnect_handles l) v
    (inbound_connect_wait_handles l) (peer_reachability_handles l) (last_retry_reset l)
    (connecting_profiles l) (connect_waiters l) (offline_nodes l) (network_online l)
    (output_dirty l) (snapshots l) (next_worker l).

Definition set_inbound_connect_wait_handles (v : gmap string Z) (l : Loop) : Loop :=
  mkLoop (lp_node l) (connected_clients l) (reconnect_handles l) (outbound_dial_retry_handles l) v
    (peer_reachability_handles l) (last_retry_reset l) (connecting_profiles l) (connect_waiters l)
    (offline_nodes l) (network_online l) (output_dirty l) (snapshots l) (next_worker l).

Definition set_peer_reachability_handles (v : gmap string Z) (l : Loop) : Loop :=
  mkLoop (lp_node l) (connected_clients l) (reconnect_handles l) (outbound_dial_retry_handles l)
    (inbound_connect_wait_handles l) v (last_retry_reset l) (connecting_profiles l)
    (connect_waiters l) (offline_nodes l) (network_online l) (output_dirty l) (snapshots l)
    (next_worker l).

Definition set_last_retry_reset (v : gmap string Z) (l : Loop) : Loop :=
  mkLoop (lp_node l) (connected_clients l) (reconnect_handles l) (outbound_dial_retry_handles l)
    (inbound_connect_wait_handles l) (peer_reachability_handles l) v (connecting_profiles l)
    (connect_waiters l) (offline_nodes l) (network_online l) (output_dirty l) (snapshots l)
    (next_worker l).

Definition set_connecting_profiles (v : gset string) (l : Loop) : Loop :=
  mkLoop (lp_node l) (connected_clients l) (reconnect_handles l) (outbound_dial_retry_handles l)
    (inbound_connect_wait_handles l) (peer_reachability_handles l) (last_retry_reset l) v
    (connect_waiters l) (offline_nodes l) (network_online l) (output_dirty l) (snapshots l)
    (next_worker l).

Definition set_connect_waiters (v : gmap string (list Z)) (l : Loop) : Loop :=
  mkLoop (lp_node l) (connected_clients l) (reconnect_handles l) (outbound_dial_retry_handles l)
    (inbound_connect_wait_handles l) (peer_reachability_handles l) (last_retry_reset l)
    (connecting_profiles l) v (offline_nodes l) (network_online l) (output_dirty l) (snapshots l)
    (next_worker l).

Definition set_offline_nodes (v : gset string) (l : Loop) : Loop :=
  mkLoop (lp_node l) (connected_clients l) (reconnect_handles l) (outbound_dial_retry_handles l)
    (inbound_connect_wait_handles l) (peer_reachability_handles l) (last_retry_reset l)
    (connecting_profiles l) (connect_waiters l) v (network_online l) (output_dirty l)
    (snapshots l) (next_worker l).

Definition set_network_online (v : bool) (l : Loop) : Loop :=
  mkLoop (lp_node l) (connected_clients l) (reconnect_handles l) (outbound_dial_retry_handles l)
    (inbound_connect_wait_handles l) (peer_reachability_handles l) (last_retry_reset l)
    (connecting_profiles l) (connect_waiters l) (offline_nodes l) v (output_dirty l) (snapshots l)
    (next_worker l).

Definition set_output_dirty (v : bool) (l : Loop) : Loop :=
  mkLoop (lp_node l) (connected_clients l) (reconnect_handles l) (outbound_dial_retry_handles l)
    (inbound_connect_wait_handles l) (peer_reachability_handles l) (last_retry_reset l)
    (connecting_profiles l) (connect_waiters l) (offline_nodes l) (network_online l) v
    (snapshots l) (next_worker l).

Definition set_snapshots (v : list SnapshotEntry) (l : Loop) : Loop :=
  mkLoop (lp_node l) (connected_clients l) (reconnect_handles l) (outbound_dial_retry_handles l)
    (inbound_connect_wait_handles l) (peer_reachability_handles l) (last_retry_reset l)
    (connecting_profiles l) (connect_waiters l) (offline_nodes l) (network_online l)
    (output_dirty l) v (next_worker l).

Definition set_next_worker (v : Z) (l : Loop) : Loop :=
  mkLoop (lp_node l) (connected_clients l) (reconnect_handles l) (outbound_dial_retry_handles l)
    (inbound_connect_wait_handles l) (peer_reachability_handles l) (last_retry_reset l)
    (connecting_profiles l) (connect_waiters l) (offline_nodes l) (network_online l)
    (output_dirty l) (snapshots l) v.

Definition loop_start (n : Node) (entries : list SnapshotEntry) : Loop :=
  mkLoop n ∅ ∅ ∅ ∅ ∅ ∅ ∅ ∅ ∅ true false entries 1.

Definition on_node (f : Node -> Node) (l : Loop) : Loop := set_node (f (lp_node l)) l.

Definition send (e : effect) : Loop -> Loop := on_node (emit e).

Section handlers.
Context (env : Env) `{RustText} `{JsonValue}.

(** ** Answers *)

Definition write_to (client_id : Z) (m : ServerMessage) : Loop -> Loop :=
  send (ToClients (Write client_id m)).

Definition reply (client_id : Z) (o : CommandOutcome) : Loop -> Loop :=
  write_to client_id (Response (control_response o)).

Definition broadcast_snapshot (l : Loop) : Loop :=
  if bool_decide (connected_clients l = ∅) then l
  else
    send (ToClients (Broadcast
           (Snapshot (build_snapshot env (nd_client_count (lp_node l)) (lp_node l))))) l.

(** ** The file of outbound connections *)

(** [save]: a failed write leaves what [store_save] says. *)
Definition save_snapshots (entries : list SnapshotEntry) (l : Loop) : Loop :=
  set_snapshots (default entries (store_save env)) l.

Definition upsert_entry (profile_name node_id : string) (entries : list SnapshotEntry) : list SnapshotEntry :=
  match list_find (fun e => se_authority_node_id e = node_id) entries with
  | Some (i, _) => <[i := mkSnapshotEntry profile_name node_id (env_timestamp env)]> entries
  | None => entries ++ [mkSnapshotEntry profile_name node_id (env_timestamp env)]
  end.

Definition snapshot_upsert (profile_name node_id : string) (l : Loop) : Loop :=
  if store_load env then save_snapshots (upsert_entry profile_name node_id (snapshots l)) l else l.

Definition snapshot_remove (node_id : string) (l : Loop) : Loop :=
  if store_load env then
    match list_find (fun e => se_authority_node_id e = node_id) (snapshots l) with
    | Some (i, _) => save_snapshots (delete i (snapshots l)) l
    | None => l
    end
  else l.

(** ** Workers *)

Definition start_worker (w : worker) (l : Loop) : Z * Loop :=
  (next_worker l, set_next_worker (next_worker l + 1) (send (StartWorker (next_worker l) w) l)).

Definition cancel_reconnect (target_id : string) (l : Loop) : Loop :=
  match reconnect_handles l !! target_id with
  | Some id => set_reconnect_handles (delete target_id (reconnect_handles l)) (send (StopWorker id) l)
  | None => l
  end.

Definition cancel_retry (node_id : string) (l : Loop) : Loop :=
  match outbound_dial_retry_handles l !! node_id with
  | Some id =>
      set_outbound_dial_retry_handles (delete node_id (outbound_dial_retry_handles l))
        (send (StopWorker id) l)
  | None => l
  end.

Definition cancel_wait (node_id : string) (l : Loop) : Loop :=
  match inbound_connect_wait_handles l !! node_id with
  | Some id =>
      set_inbound_connect_wait_handles (delete node_id (inbound_connect_wait_handles l))
        (send (StopWorker id) l)
  | None => l
  end.

Definition cancel_probe (node_id : string) (l : Loop) : Loop :=
  match peer_reachability_handles l !! node_id with
  | Some id =>
      set_peer_reachability_handles (delete node_id (peer_reachability_handles l))
        (send (StopWorker id) l)
  | None => l
  end.

Definition retry_request (node_id : string) (info : RemoteNodeConnectionInfo) : OutboundNodeSessionRequest :=
  mkOutboundRequest node_id ("tls://" +:+ ci_host info +:+ ":" +:+ pretty (ci_port info))%string
    (if bool_decide (ci_tls_pin_sha256 info = EmptyString) then None else Some (ci_tls_pin_sha256 info))
    (ci_via info).

(** A retry worker, when there is an ingress to dial through. *)
Definition start_retry (node_id : string) (info : RemoteNodeConnectionInfo) (l : Loop) : Loop :=
  if nd_ingress_internal_tx (lp_node l) then
    let '(id, l) := start_worker (OutboundDialRetryWorker node_id (retry_request node_id info)) l in
    set_outbound_dial_retry_handles (<[node_id := id]> (outbound_dial_retry_handles l)) l
  else l.

Definition close_ingress_sessions_for_node (node_id : string) (l : Loop) : Loop :=
  if nd_ingress_internal_tx (lp_node l)
  then send (ToIngress (CloseNodeIngressSession node_id false)) l else l.

Definition reset_outbound_dial_retry_worker (node_id : string) (l : Loop) : Loop :=
  match remote_node_connection node_id (lp_node l) with
  | None => l
  | Some info =>
      if negb (bool_decide (ci_mode info = OutboundDial)) then l
      else
        let l := cancel_retry node_id l in
        let l := close_ingress_sessions_for_node node_id l in
        start_retry node_id info l
  end.

(** ** Sessions of this node *)

Definition handle_local_session_child_exit (target_id : string) (l : Loop) : Loop :=
  let l := match short_id target_id with
           | Some session_id => send (ToHostIo (UnregisterSession session_id)) l
           | None => l
           end in
  let l := on_node (handle_session_exit env target_id) l in
  let l := send (ToCatalog (LocalTargetExited target_id)) l in
  broadcast_snapshot l.

Definition handle_authority_host_session_exit (target_id : string) (l : Loop) : Loop :=
  let qualified := (local_authority_id (lp_node l) +:+ ":" +:+ target_id)%string in
  let l := send (ToHostIo (UnregisterSession target_id)) l in
  let l := on_node (handle_session_exit env qualified) l in
  let l := send (ToCatalog (LocalTargetExited qualified)) l in
  broadcast_snapshot l.

(** The state loop's [create_authority_host_session]: when the terminal
    cannot be cloned, the record has already been made. *)
Definition create_authority_host_session (cols rows : Z) (l : Loop) :
    result (string * string) string * Loop :=
  match create_host_record env (lp_node l) with
  | Err e => (Err e, l)
  | Ok (id, pty, target_id, n) =>
      let l := set_node n l in
      if negb (clone_host env) then (Err "failed to clone authority host pty master", l)
      else
        let l := send (ToHostIo (RegisterSession id pty None cols rows)) l in
        let l := on_node (fun n => set_nd_authority_host_sessions
                                     ({[id]} ∪ nd_authority_host_sessions n) n) l in
        (Ok (id, target_id), l)
  end.

Definition handle_create_authority_host_session (request_id : string) (cols rows : Z) (l : Loop) : Loop :=
  let '(r, l) := create_authority_host_session cols rows l in
  let l := send (CreateReply request_id r) l in
  if is_ok r then broadcast_snapshot (send (ToCatalog LocalRuntimeChanged) l) else l.

(** ** Clients *)

Definition handle_client_connected (client_id : Z) (l : Loop) : Loop :=
  let l := set_connected_clients ({[client_id]} ∪ connected_clients l) l in
  let l := on_node (fun n => set_nd_client_count (wrap 64 (nd_client_count n + 1)) n) l in
  broadcast_snapshot l.

(** Whether the short id of a target names a session hosted for others. *)
Definition hosted_id (target_id : string) (n : Node) : option string :=
  match short_id target_id with
  | Some id => if bool_decide (id ∈ nd_authority_host_sessions n) then Some id else None
  | None => None
  end.

Definition LOCAL_CONSOLE : string := "local".

Definition leave_console (target_id : string) (l : Loop) : Loop :=
  match hosted_id target_id (lp_node l) with
  | Some id => send (ToHostIo (UnregisterConsole id LOCAL_CONSOLE)) l
  | None => l
  end.

Definition handle_client_disconnected (client_id : Z) (l : Loop) : Loop :=
  let l := set_connected_clients (connected_clients l ∖ {[client_id]}) l in
  let l := on_node (fun n => set_nd_client_count (wrap 64 (nd_client_count n - 1)) n) l in
  let l := send (ToClients (Unregister client_id)) l in
  let l := match nd_active_target (lp_node l) with Some t => leave_console t l | None => l end in
  broadcast_snapshot l.

(** ** Routing what a client types *)

Definition PASTE_START : list byte := x1b :: as_bytes "[200~".
Definition PASTE_END : list byte := x1b :: as_bytes "[201~".

Definition wrap_bracketed_paste (bytes : list byte) : list byte := PASTE_START ++ bytes ++ PASTE_END.

Definition local_translation_mode (s : RatatuiLocalSession) : KeyTranslationMode :=
  mkKeyTranslationMode (ls_app_cursor s) (ls_app_keypad s).

(** The viewer's [translation_mode]: the observer knows the cursor keys. *)
Definition remote_translation_mode (target_id : string) (n : Node) : KeyTranslationMode :=
  match nd_remote_sessions n !! target_id with
  | Some s => mkKeyTranslationMode (translation_cursor_keys s) false
  | None => normal_mode
  end.

Definition route_input (target_id : string) (key : LogicalKey) (l : Loop) : Loop :=
  match nd_sessions (lp_node l) !! target_id with
  | None => l
  | Some r =>
      if is_remote r then
        on_node (feed_remote_session_input env target_id
                   (translate_key key (remote_translation_mode target_id (lp_node l)))) l
      else
        match nd_local_sessions (lp_node l) !! target_id with
        | Some s =>
            on_node (alter_local (feed_input (translate_key key (local_translation_mode s))) target_id) l
        | None =>
            match hosted_id target_id (lp_node l) with
            | Some id => send (ToHostIo (WriteInput id (translate_key key normal_mode))) l
            | None => l
            end
        end
  end.

Definition route_paste_text (target_id : string) (bytes : list byte) (l : Loop) : Loop :=
  match nd_sessions (lp_node l) !! target_id with
  | None => l
  | Some r =>
      if is_remote r then on_node (feed_remote_session_input env target_id bytes) l
      else
        match nd_local_sessions (lp_node l) !! target_id with
        | Some s =>
            let bytes := if ls_bracketed_paste s then wrap_bracketed_paste bytes else bytes in
            on_node (alter_local (feed_input bytes) target_id) l
        | None =>
            match hosted_id target_id (lp_node l) with
            | Some id => send (ToHostIo (WriteInput id bytes)) l
            | None => l
            end
        end
  end.

Definition handle_paste_file (target_id hint : string) (bytes : list byte) (l : Loop) :
    CommandOutcome * Loop :=
  match nd_sessions (lp_node l) !! target_id with
  | None => (Error "unknown target", l)
  | Some r =>
      let supports_at :=
        match agent_command_name r with Some name => accepts_at_reference name | None => false end in
      if is_remote r then
        (OutcomeOk, on_node (feed_remote_session_paste_file env target_id hint bytes) l)
      else
        match clipboard_file env with
        | Err error => (Error ("failed to cache pasted file: " +:+ error)%string, l)
        | Ok path =>
            let path_ref := as_bytes (format_file_reference path supports_at) in
            match nd_local_sessions (lp_node l) !! target_id with
            | Some _ => (OutcomeOk, on_node (alter_local (feed_input path_ref) target_id) l)
            | None =>
                match hosted_id target_id (lp_node l) with
                | Some id => (OutcomeOk, send (ToHostIo (WriteInput id path_ref)) l)
                | None => (Error "local session not found", l)
                end
            end
        end
  end.

(** ** The active session *)

Definition client_size (n : Node) : Z * Z := default (80, 24) (nd_last_client_resize n).

Definition active_authority_host_session_id (n : Node) : option string :=
  nd_active_target n ≫= fun active =>
  find_target env active (nd_sessions n) ≫= fun r =>
  let id := session_id (address r) in
  if bool_decide (id ∈ nd_authority_host_sessions n) then Some id else None.

(** [activate_target]; [previous] is the target that was active. *)
Definition activate_target (target_id : string) (l : Loop) : CommandOutcome * Loop :=
  let previous := nd_active_target (lp_node l) in
  match find_target env target_id (nd_sessions (lp_node l)) with
  | None => (Error "unknown target", l)
  | Some r =>
      match (if is_remote r then ensure_remote_session env r (lp_node l) else Ok (lp_node l)) with
      | Err error => (Error error, l)
      | Ok n =>
          let l := set_node n l in
          let changed := negb (bool_decide (previous = Some target_id)) in
          let l := match previous with
                   | Some prev => if bool_decide (prev = target_id) then l else leave_console prev l
                   | None => l
                   end in
          let l := on_node (set_nd_active_target (Some target_id)) l in
          let '(cols, rows) := client_size (lp_node l) in
          let l := if is_remote r && changed
                   then on_node (resize_active_remote_session env cols rows) l else l in
          let l := match hosted_id target_id (lp_node l) with
                   | Some id =>
                       if changed then send (ToHostIo (HostIo.Resize id LOCAL_CONSOLE cols rows)) l else l
                   | None => l
                   end in
          (OutcomeOk, l)
      end
  end.

Definition handle_resize (cols rows : Z) (l : Loop) : Loop :=
  if bool_decide (nd_last_client_resize (lp_node l) = Some (cols, rows)) then l
  else
    let l := on_node (set_nd_last_client_resize (Some (cols, rows))) l in
    let n := lp_node l in
    let remote :=
      match nd_active_target n ≫= (fun t => find_target env t (nd_sessions n)) with
      | Some r => is_remote r
      | None => false
      end in
    let l :=
      if remote then on_node (resize_active_remote_session env cols rows) l
      else
        let l := on_node (resize_active_local_session cols rows) l in
        match active_authority_host_session_id (lp_node l) with
        | Some id => send (ToHostIo (HostIo.Resize id LOCAL_CONSOLE cols rows)) l
        | None => l
        end in
    broadcast_snapshot l.

(** ** Connecting to remote hosts *)

(** [connect_remote_host_target]: one connect per profile; a client that asks
    again waits for the one under way. *)
Definition connect_remote_host_target (client_id : Z) (profile_name : string) (l : Loop) :
    CommandOutcome * Loop :=
  if bool_decide (profile_name ∈ connecting_profiles l) then
    if negb (client_id =? 0) then
      (OutcomeOk,
       set_connect_waiters
         (<[profile_name := default [] (connect_waiters l !! profile_name) ++ [client_id]]>
            (connect_waiters l)) l)
    else (Error ("connect already in progress for profile `" +:+ profile_name +:+ "`")%string, l)
  else
    (OutcomeOk,
     send (Spawn (ConnectJob client_id profile_name))
       (set_connecting_profiles ({[profile_name]} ∪ connecting_profiles l) l)).

(** The record replaces every other record of the same id. *)
Definition install_record (target : string) (r : ManagedSessionRecord) (n : Node) : Node :=
  set_nd_sessions
    (<[target := r]> (filter (fun kv => address_id (address kv.2) <> address_id (address r)) (nd_sessions n))) n.

Definition resize_to_client (l : Loop) : Loop :=
  let '(cols, rows) := client_size (lp_node l) in
  on_node (resize_active_remote_session env cols rows) l.

Definition apply_remote_host_connect_outcome (profile_name : string) (activate : bool)
    (o : RemoteHostConnectedOutcome) (l : Loop) : CommandOutcome * Loop :=
  let via_suffix :=
    match co_connection_info o ≫= ci_via with
    | Some via => (" via " +:+ via_as_str via)%string
    | None => EmptyString
    end in
  let discovery_suffix :=
    if co_pin_auto_discovered o then " (fingerprint auto-discovered)" else EmptyString in
  let l := match co_connection_info o with
           | Some info => on_node (record_remote_node_connection (co_authority_node_id o) info) l
           | None => l
           end in
  let target := co_target_id o in
  let l := on_node (install_record target (co_created_target o)) l in
  match ensure_remote_session env (co_created_target o) (lp_node l) with
  | Err error => (Error error, l)
  | Ok n =>
      let l := set_node n l in
      let l := if activate
               then resize_to_client (on_node (set_nd_active_target (Some target)) l) else l in
      let l := snapshot_upsert profile_name (co_authority_node_id o) l in
      (Message ("connected " +:+ target +:+ via_suffix +:+ discovery_suffix)%string, l)
  end.

Definition run_relay_join (client_id : Z) (request : RemoteRelayJoinRequest) (force : bool)
    (context : RelayJoinContext) : Loop -> Loop :=
  send (Spawn (RelayJoinJob client_id (rj_address request) (rj_token request) force
                 (rj_use_proxy request) context)).

Definition reply_all (clients : list Z) (o : CommandOutcome) (l : Loop) : Loop :=
  foldl (fun l c => reply c o l) l clients.

(** The profile is no longer connecting; its waiters are taken. *)
Definition finish_connect (profile_name : string) (l : Loop) : list Z * Loop :=
  (default [] (connect_waiters l !! profile_name),
   set_connect_waiters (delete profile_name (connect_waiters l))
     (set_connecting_profiles (connecting_profiles l ∖ {[profile_name]}) l)).

Definition handle_remote_host_connect_result (client_id : Z) (profile_name : string)
    (r : result RemoteHostConnectedOutcome string) (activate : bool)
    (relay_join : option RemoteRelayJoinRequest) (l : Loop) : Loop :=
  let '(waiters, l) := finish_connect profile_name l in
  let l := match r with
           | Ok o => set_offline_nodes (offline_nodes l ∖ {[co_authority_node_id o]}) l
           | Err _ => l
           end in
  let '(outcome, l) :=
    match r with
    | Ok o =>
        let l := match relay_join with
                 | Some request => run_relay_join client_id request false RelayRoleDeploy l
                 | None => l
                 end in
        apply_remote_host_connect_outcome profile_name activate o l
    | Err message => (Error message, l)
    end in
  reply_all (client_id :: waiters) outcome l.

Definition handle_snapshot_reconnect_result (profile_name node_id : string)
    (r : result RemoteHostConnectedOutcome string) (l : Loop) : Loop :=
  let '(waiters, l) := finish_connect profile_name l in
  match r with
  | Ok o =>
      let l := set_offline_nodes (offline_nodes l ∖ {[node_id]}) l in
      let l := match co_relay_join o with
               | Some request => run_relay_join (default 0 (head waiters)) request false RelayRoleDeploy l
               | None => l
               end in
      let '(outcome, l) :=
        apply_remote_host_connect_outcome profile_name (negb (bool_decide (waiters = []))) o l in
      reply_all waiters outcome l
  | Err error =>
      let l := reply_all waiters (Error error) l in
      if network_online l then snapshot_remove node_id l else l
  end.

Definition has_online_session (node_id : string) (n : Node) : bool :=
  existsb (fun r => is_remote r && bool_decide (authority_id (address r) = node_id) &&
                    bool_decide (availability r = Online)) (values env (nd_sessions n)).

Definition reconnect_entry (l : Loop) (e : SnapshotEntry) : Loop :=
  let node_id := se_authority_node_id e in
  match remote_node_connection node_id (lp_node l) with
  | Some _ => l
  | None =>
      if has_online_session node_id (lp_node l) then l
      else if bool_decide (is_Some (outbound_dial_retry_handles l !! node_id)) ||
              bool_decide (is_Some (inbound_connect_wait_handles l !! node_id)) then l
      else if bool_decide (se_profile_name e ∈ connecting_profiles l) then l
      else
        send (Spawn (SnapshotReconnectJob (se_profile_name e) node_id))
          (set_connecting_profiles ({[se_profile_name e]} ∪ connecting_profiles l) l)
  end.

Definition reconnect_snapshot_hosts (l : Loop) : Loop :=
  if store_load env then foldl reconnect_entry l (snapshots l) else l.

(** ** Relay *)

Definition handle_relay_join_result (client_id : Z) (address : string)
    (r : result RelayJoinApplied string) (l : Loop) : Loop :=
  let '(outcome, l) :=
    match r with
    | Ok applied =>
        let l := if link_restarted applied
                 then on_node (fun n => start_relay_link env (pinned applied) (stop_relay_link n)) l
                 else l in
        let l := on_node (set_nd_relay_error None) l in
        let l := broadcast_snapshot l in
        let via_suffix := if relay_use_proxy (pinned applied) then " (via proxy)" else EmptyString in
        let fingerprint := (" (fingerprint " +:+ relay_fingerprint (pinned applied) +:+ ")" +:+ via_suffix)%string in
        (Message (if link_restarted applied
                  then "relay joined: " +:+ address +:+ fingerprint +:+ "; link starting"
                  else "relay already pinned: " +:+ address +:+ fingerprint)%string, l)
    | Err message => (Error message, l)
    end in
  reply client_id outcome l.

Definition handle_relay_remove_result (client_id : Z) (r : result string string) (l : Loop) : Loop :=
  let '(outcome, l) :=
    match r with
    | Ok message =>
        let l := on_node (fun n => set_nd_relay_presence ∅ (set_nd_relay_error None (stop_relay_link n))) l in
        (Message message, broadcast_snapshot l)
    | Err message => (Error message, l)
    end in
  reply client_id outcome l.

Definition handle_e2e_relay_probe_result (client_id : Z) (r : result string string) (l : Loop) : Loop :=
  reply client_id (match r with Ok summary => Message summary | Err message => Error message end) l.

(** ** Remote sessions *)

Definition apply_created_remote_session (r : ManagedSessionRecord) (l : Loop) : CommandOutcome * Loop :=
  let target := qualified_target (address r) in
  let l := on_node (install_record target r) l in
  match ensure_remote_session env r (lp_node l) with
  | Err error => (Error ("created remote session but failed to open viewer: " +:+ error)%string, l)
  | Ok n =>
      let l := on_node (set_nd_active_target (Some target)) (set_node n l) in
      (Message ("created remote session " +:+ target)%string, resize_to_client l)
  end.

Definition is_message (o : CommandOutcome) : bool := match o with Message _ => true | _ => false end.

Definition handle_remote_session_create_result (client_id : Z) (r : result ManagedSessionRecord string)
    (l : Loop) : Loop :=
  let '(outcome, l) :=
    match r with
    | Ok record => apply_created_remote_session record l
    | Err message => (Error message, l)
    end in
  let l := if is_message outcome then broadcast_snapshot l else l in
  reply client_id outcome l.

(** The entry [values_mut().find] meets with a given address. *)
Definition set_availability_of (target_id : string) (a : SessionAvailability) (n : Node) : Node :=
  match List.find (fun kv => bool_decide (qualified_target (address kv.2) = target_id))
          (shuffle env _ (map_to_list (nd_sessions n))) with
  | Some (k, _) => set_nd_sessions (alter (with_availability a) k (nd_sessions n)) n
  | None => n
  end.

Definition handle_remote_session_disconnected (target_id : string) (l : Loop) : Loop :=
  match reconnect_handles l !! target_id with
  | Some _ => l
  | None =>
      let record := nd_sessions (lp_node l) !! target_id in
      let l := on_node (set_availability_of target_id Offline) l in
      let l := on_node (stop_viewer target_id) l in
      let l :=
        match record with
        | Some r =>
            let node_id := authority_id (address r) in
            if is_remote r then
              match remote_node_connection node_id (lp_node l) with
              | Some info =>
                  if bool_decide (ci_mode info = OutboundDial) &&
                     negb (bool_decide (is_Some (outbound_dial_retry_handles l !! node_id)))
                  then start_retry node_id info l else l
              | None => l
              end
            else l
        | None => l
        end in
      let l :=
        match record with
        | Some r =>
            let '(cols, rows) := client_size (lp_node l) in
            let '(id, l) := start_worker (ReconnectWorker r cols rows) l in
            set_reconnect_handles (<[target_id := id]> (reconnect_handles l)) l
        | None => l
        end in
      broadcast_snapshot l
  end.

Definition handle_remote_session_reconnected (target_id : string) (session : RatatuiRemoteSession)
    (l : Loop) : Loop :=
  let l := on_node (fun n => set_nd_remote_sessions (<[target_id := session]> (nd_remote_sessions n)) n) l in
  let l := on_node (set_availability_of target_id Online) l in
  let l := set_reconnect_handles (delete target_id (reconnect_handles l)) l in
  broadcast_snapshot l.

Definition handle_session_closed (target_id : string) (l : Loop) : Loop :=
  let l := cancel_reconnect target_id l in
  let node_id :=
    match nd_sessions (lp_node l) !! target_id with
    | Some r => if is_remote r then Some (authority_id (address r)) else None
    | None => None
    end in
  let l := on_node (handle_session_exit env target_id) l in
  let l :=
    match node_id with
    | Some node_id =>
        let l := cancel_retry node_id l in
        if network_online l then snapshot_remove node_id l else l
    | None => l
    end in
  broadcast_snapshot l.

Definition handle_agent_signal_received (target_id agent event : string) (payload : Value) (l : Loop) : Loop :=
  let l :=
    if bool_decide (event = "cwd") then
      match value_as_str payload with
      | Some path =>
          on_node (set_session_current_path env target_id
                     (String.string_of_list_byte (text_bytes path))) l
      | None => l
      end
    else
      match signal_state_effect default_registry (utf8 agent) (utf8 event) payload with
      | Some (SetState s) =>
          on_node (set_session_command_name env target_id agent)
            (on_node (set_session_task_state env target_id s) l)
      | Some Clear =>
          on_node (clear_session_command_name env target_id)
            (on_node (set_session_task_state env target_id Input) l)
      | None => l
      end in
  broadcast_snapshot l.

(** ** Remote nodes *)

Definition of_node (node_id : string) (r : ManagedSessionRecord) : bool :=
  is_remote r && bool_decide (authority_id (address r) = node_id).

(** The targets of a node, in the order of the table. *)
Definition affected (node_id : string) (n : Node) : list string :=
  map (fun r => qualified_target (address r)) (List.filter (of_node node_id) (values env (nd_sessions n))).

Definition mark_offline (node_id : string) (n : Node) : Node :=
  set_nd_sessions
    ((fun r => if of_node node_id r then with_availability Offline r else r) <$> nd_sessions n) n.

Definition INBOUND_LAN_OFFLINE_TIMEOUT : Z := 120.
Definition INBOUND_CLOUD_OFFLINE_TIMEOUT : Z := 300.

Definition start_probe (node_id : string) (info : RemoteNodeConnectionInfo) (l : Loop) : Loop :=
  let '(id, l) := start_worker (PeerReachabilityProbeWorker node_id (ci_host info) (ci_port info)) l in
  set_peer_reachability_handles (<[node_id := id]> (peer_reachability_handles l)) l.

Definition start_wait (node_id : string) (info : RemoteNodeConnectionInfo) (l : Loop) : Loop :=
  let timeout := if ci_server_can_reach_peer info
                 then INBOUND_LAN_OFFLINE_TIMEOUT else INBOUND_CLOUD_OFFLINE_TIMEOUT in
  let '(id, l) := start_worker (InboundConnectWaitWorker node_id timeout) l in
  set_inbound_connect_wait_handles (<[node_id := id]> (inbound_connect_wait_handles l)) l.

(** [f] for a node whose connection has the given mode and no handle yet. *)
Definition when_vacant (handles : gmap string Z) (mode : RemoteNodeConnectionMode)
    (f : string -> RemoteNodeConnectionInfo -> Loop -> Loop) (node_id : string) (l : Loop) : Loop :=
  match handles !! node_id, remote_node_connection node_id (lp_node l) with
  | None, Some info => if bool_decide (ci_mode info = mode) then f node_id info l else l
  | _, _ => l
  end.

Definition handle_remote_node_offline (node_id : string) (l : Loop) : Loop :=
  let l := foldl (fun l t => cancel_reconnect t l) l (affected node_id (lp_node l)) in
  let l := on_node (mark_offline node_id) l in
  let l := close_ingress_sessions_for_node node_id l in
  let l := when_vacant (outbound_dial_retry_handles l) OutboundDial start_retry node_id l in
  let l := when_vacant (peer_reachability_handles l) OutboundDial start_probe node_id l in
  let l := when_vacant (inbound_connect_wait_handles l) InboundConnect start_wait node_id l in
  broadcast_snapshot l.

Definition handle_remote_node_online (node_id : string) (l : Loop) : Loop :=
  let l := set_offline_nodes (offline_nodes l ∖ {[node_id]}) l in
  let l := on_node (fun n => set_nd_remote_node_auth_rejections
                               (delete node_id (nd_remote_node_auth_rejections n)) n) l in
  let l := cancel_retry node_id l in
  let l := cancel_wait node_id l in
  let l := cancel_probe node_id l in
  set_last_retry_reset (delete node_id (last_retry_reset l)) l.

Definition handle_remote_node_reconnect_failed (node_id : string) (l : Loop) : Loop :=
  let l :=
    foldl (fun l t => on_node (handle_session_exit env t) (cancel_reconnect t l)) l
      (affected node_id (lp_node l)) in
  let l := cancel_retry node_id l in
  let l := cancel_wait node_id l in
  let l := close_ingress_sessions_for_node node_id l in
  broadcast_snapshot l.

Definition RESET_DEBOUNCE : Z := 5000.

Definition handle_remote_node_reachable (node_id : string) (l : Loop) : Loop :=
  let should_reset :=
    match last_retry_reset l !! node_id with
    | Some at_ms => RESET_DEBOUNCE <=? env_instant env - at_ms
    | None => true
    end in
  if should_reset then
    reset_outbound_dial_retry_worker node_id
      (set_last_retry_reset (<[node_id := env_instant env]> (last_retry_reset l)) l)
  else l.

(** The nodes of remote sessions that are off line, in hash order. *)
Definition offline_node_ids (n : Node) : list string :=
  let ids : gset string :=
    list_to_set (map (fun r => authority_id (address r))
      (List.filter (fun r => is_remote r && bool_decide (availability r = Offline))
         (values env (nd_sessions n)))) in
  shuffle env _ (elements ids).

Definition handle_network_connectivity_changed (online : bool) (l : Loop) : Loop :=
  let was_online := network_online l in
  let l := set_network_online online l in
  if online && negb was_online then
    let l :=
      foldl (fun l node_id =>
               match remote_node_connection node_id (lp_node l) with
               | Some info =>
                   if bool_decide (ci_mode info = OutboundDial)
                   then reset_outbound_dial_retry_worker node_id l else l
               | None => l
               end) l (offline_node_ids (lp_node l)) in
    send SendReconnectSnapshotHosts l
  else l.

(** ** Commands *)

Definition server_status (n : Node) : ServerStatus :=
  mkServerStatus (net_port (nd_network n)) (nd_client_count n) (uptime_secs env)
    (len (map_to_list (nd_sessions n))).

Definition handle_set_public (endpoint : option string) (save : bool) (l : Loop) : CommandOutcome * Loop :=
  let l := on_node (set_nd_public_endpoint_override endpoint) l in
  let l := send (StoreSetting endpoint save) l in
  let l := broadcast_snapshot l in
  (Message (match endpoint with
            | Some endpoint => "public endpoint set to " +:+ endpoint
            | None => "public endpoint cleared"
            end)%string, l).

Definition handle_create_local_session (cwd : option string) (l : Loop) : CommandOutcome * Loop :=
  let id := next_local_session_id env (lp_node l) in
  match create_local_session env id 80 24 cwd (lp_node l) with
  | Ok (target, n) =>
      let l := send (ToCatalog LocalRuntimeChanged) (set_node n l) in
      (Message ("created local session " +:+ target)%string, broadcast_snapshot l)
  | Err error => (Error error, l)
  end.

Definition handle_detach_all (l : Loop) : Loop :=
  foldl (fun l c => send (ToClients (Unregister c)) l) (on_node detach_all_clients l)
    (shuffle env _ (elements (connected_clients l))).

(** [handle_client_command]: the commands that are answered at once. *)
Definition handle_client_command (command : Cmd.ClientCommand) (l : Loop) : CommandOutcome * Loop :=
  match command with
  | Cmd.Attach => (OutcomeOk, l)
  | Cmd.Status => (Data (StatusData (server_status (lp_node l))), l)
  | Cmd.Stop => (Message "stopping", send WakeListener (on_node (set_nd_shutdown true) l))
  | Cmd.ListSessions =>
      (Data (SessionsData (map session_view (values env (nd_sessions (lp_node l))))), l)
  | Cmd.CreateLocalSession cwd => handle_create_local_session cwd l
  | Cmd.ActivateTarget target_id =>
      match activate_target target_id l with
      | (OutcomeOk, l) => (OutcomeOk, broadcast_snapshot l)
      | r => r
      end
  | Cmd.ConnectRemoteHost profile_name => connect_remote_host_target 0 profile_name l
  | Cmd.DetachAll => (OutcomeOk, handle_detach_all l)
  | Cmd.Resize cols rows => (OutcomeOk, handle_resize cols rows l)
  | Cmd.Input target_id key => (OutcomeOk, route_input target_id key l)
  | Cmd.PasteText target_id txt => (OutcomeOk, route_paste_text target_id (as_bytes txt) l)
  | Cmd.PasteFile target_id hint bytes => handle_paste_file target_id hint bytes l
  | Cmd.GetHistory _ => (OutcomeOk, l)
  | Cmd.SetPublic endpoint save => handle_set_public endpoint save l
  | Cmd.CreateRemoteSession _ _ => (Error "CreateRemoteSession must be handled by the event loop", l)
  | Cmd.E2eRelayProbe _ _ _ => (Error "E2eRelayProbe must be handled by the event loop", l)
  | Cmd.RelayJoin _ _ _ _ | Cmd.RelayRemove =>
      (Error "relay management commands must be handled by the event loop", l)
  | Cmd.CloseSession _ => (Error "CloseSession must be handled by the event loop", l)
  end.

Definition history_response (target_id : string) (n : Node) : ServerMessage :=
  let '(lines, styled_lines) := default ([], []) (history_for_target target_id n) in
  History target_id lines styled_lines.

(** [handle_client_command_event]: what takes long is left to a thread, which
    answers later. *)
Definition handle_client_command_event (client_id : Z) (command : Cmd.ClientCommand) (l : Loop) : Loop :=
  match command with
  | Cmd.GetHistory target_id => write_to client_id (history_response target_id (lp_node l)) l
  | Cmd.ConnectRemoteHost profile_name =>
      match connect_remote_host_target client_id profile_name l with
      | (Error m, l) => reply client_id (Error m) l
      | (_, l) => l
      end
  | Cmd.CreateRemoteSession node_id cwd => send (Spawn (CreateRemoteSessionJob client_id node_id cwd)) l
  | Cmd.E2eRelayProbe peer streams hold_secs =>
      send (Spawn (RelayProbeJob client_id peer streams hold_secs)) l
  | Cmd.RelayJoin address token force use_proxy =>
      run_relay_join client_id (mkRelayJoinRequest address token use_proxy) force Operator l
  | Cmd.RelayRemove => send (Spawn (RelayRemoveJob client_id)) l
  | Cmd.CloseSession target_id =>
      let l := cancel_reconnect target_id l in
      let l := on_node (handle_session_exit env target_id) l in
      let l := broadcast_snapshot l in
      reply client_id (Message ("closed " +:+ target_id)%string) l
  | command =>
      let '(outcome, l) := handle_client_command command l in
      reply client_id outcome l
  end.

(** ** Events *)

Definition handle_event (event : Ev.StateEvent) (l : Loop) : Loop :=
  match event with
  | Ev.LocalSessionChildExit target_id => handle_local_session_child_exit target_id l
  | Ev.AuthorityHostSessionChildExited target_id | Ev.AuthorityHostSessionPtyClosed target_id =>
      handle_authority_host_session_exit target_id l
  | Ev.LocalSessionTitleChanged _ _ => broadcast_snapshot l
  | Ev.SessionTaskStateChanged target_id s =>
      broadcast_snapshot (on_node (set_session_task_state env target_id s) l)
  | Ev.SessionCommandNameChanged target_id name =>
      broadcast_snapshot (on_node (set_session_command_name env target_id name) l)
  | Ev.SessionCommandNameCleared target_id =>
      broadcast_snapshot (on_node (clear_session_command_name env target_id) l)
  | Ev.LocalSessionOutput _ | Ev.RemoteSessionOutput _ => set_output_dirty true l
  | Ev.ClientConnected client_id => handle_client_connected client_id l
  | Ev.ClientDisconnected client_id => handle_client_disconnected client_id l
  | Ev.ClientCommand client_id command => handle_client_command_event client_id command l
  | Ev.RemoteHostConnectResult client_id profile_name r activate relay_join =>
      handle_remote_host_connect_result client_id profile_name r activate relay_join l
  | Ev.RemoteHostRelayJoinRequested address token use_proxy =>
      run_relay_join 0 (mkRelayJoinRequest address token use_proxy) false RelayRoleDeploy l
  | Ev.RemoteSessionCreateResult client_id _ r => handle_remote_session_create_result client_id r l
  | Ev.E2eRelayProbeResult client_id r => handle_e2e_relay_probe_result client_id r l
  | Ev.RelayJoinResult client_id address r => handle_relay_join_result client_id address r l
  | Ev.RelayRemoveResult client_id r => handle_relay_remove_result client_id r l
  | Ev.CreateAuthorityHostSession request_id cols rows =>
      handle_create_authority_host_session request_id cols rows l
  | Ev.FlushOutputBroadcast =>
      if output_dirty l then broadcast_snapshot (set_output_dirty false l) else l
  | Ev.RemoteSessionDisconnected target_id => handle_remote_session_disconnected target_id l
  | Ev.RemoteSessionReconnected target_id session => handle_remote_session_reconnected target_id session l
  | Ev.AgentSignalReceived target_id agent event payload =>
      handle_agent_signal_received target_id agent event payload l
  | Ev.RemoteSessionCatalogUpdated record =>
      broadcast_snapshot (on_node (update_remote_session_record record) l)
  | Ev.SessionClosed target_id => handle_session_closed target_id l
  | Ev.RemoteNodeOffline node_id =>
      if bool_decide (node_id ∈ offline_nodes l) then l
      else handle_remote_node_offline node_id (set_offline_nodes ({[node_id]} ∪ offline_nodes l) l)
  | Ev.RemoteNodeOnline node_id => handle_remote_node_online node_id l
  | Ev.RemoteNodeAuthRejected node_id message =>
      on_node (fun n => set_nd_remote_node_auth_rejections
                          (<[node_id := message]> (nd_remote_node_auth_rejections n)) n) l
  | Ev.RemoteNodeReachable node_id => handle_remote_node_reachable node_id l
  | Ev.RemoteNodeReconnectFailed node_id => handle_remote_node_reconnect_failed node_id l
  | Ev.RecordRemoteNodeConnection node_id info => on_node (record_remote_node_connection node_id info) l
  | Ev.NetworkConnectivityChanged online => handle_network_connectivity_changed online l
  | Ev.RelayLinkConnected _ | Ev.RelayLinkDisconnected _ _ => l
  | Ev.RelayLinkError code message =>
      broadcast_snapshot (on_node (set_nd_relay_error (Some (mkRelayLinkError code message))) l)
  | Ev.RelayPeerOnline node_id =>
      broadcast_snapshot (on_node (fun n => set_nd_relay_presence (<[node_id := true]> (nd_relay_presence n)) n) l)
  | Ev.RelayPeerOffline node_id =>
      broadcast_snapshot (on_node (fun n => set_nd_relay_presence (<[node_id := false]> (nd_relay_presence n)) n) l)
  | Ev.ReconnectSnapshotHosts => reconnect_snapshot_hosts l
  | Ev.SnapshotHostReconnectResult profile_name node_id r =>
      handle_snapshot_reconnect_result profile_name node_id r l
  end.

End handlers.

(** ** A sample environment *)

Definition blank_grid (cols rows : Z) : Grid :=
  mkGrid rows cols 0 rows
    (fun _ _ => mkCell 32 (Named Foreground) (Named Background) false false false false false false false false)
    0 0.

Definition new_shell (cols rows : Z) : RatatuiLocalSession :=
  mkLocalSession (blank_grid cols rows) true false false false [].

(** Everything succeeds. *)
Definition calm : Env := {|
  env_pid := 7; env_now := 1; env_io := Taken; shuffle := fun _ l => l; listening := fun _ => true;
  env_shell := Some "/bin/zsh"; spawn_local := fun cols rows _ => Ok (new_shell cols rows);
  spawn_host := Ok (mkPty [] 80 24); clone_host := true; open_remote := Ok tt;
  clipboard_file := Ok "/tmp/waitagent/paste.png"; env_file_id := "f1"; env_instant := 10000; uptime_secs := 5;
  link_credentials := true; store_load := true; store_save := None; env_timestamp := "t" |}.

#[global] Instance calm_ok : EnvOk calm.
Proof. by intros A l. Qed.

(** A node without sessions, and with an ingress. *)
Definition empty_node : Node :=
  mkNode (mkNetwork 7474 None None "10.0.0.1:7474") None false ∅ None ∅ ∅ ∅ 0 [] None [] true true ∅ ∅ ∅ None
    None [].
