(* ===== verification/Replies.v ===== *)
(** * Replies: every command of a client is answered once

    The state loop together with the threads it leaves work to. A command is
    answered at once, or by the thread it was left to, or — a second connect
    to a profile that is being connected — by the thread of the first. The
    invariants say that no answer is lost or given twice, and that a client
    never waits for a connect that is not under way. *)

From S2P Require Import Prelude Bytes Text SessionCatalog AgentDetector NodeTypes NodeState StateLoop.

#[local] Open Scope Z_scope.

(** ** Answers and jobs *)

Inductive act := Wrote (client_id : Z) | Spawned (j : job).

Definition act_of (e : effect) : option act :=
  match e with
  | ToClients (Write c _) => Some (Wrote c)
  | Spawn j => Some (Spawned j)
  | _ => None
  end.

Definition acts (n : Node) : list act := omap act_of (nd_out n).

(** What the loop has answered and started, who waits, and the profiles that
    are being connected. *)
Definition view (l : Loop) : list act * gmap string (list Z) * gset string :=
  (acts (lp_node l), connect_waiters l, connecting_profiles l).

Lemma acts_emit e n : acts (emit e n) = acts n ++ match act_of e with Some a => [a] | None => [] end.
Proof. unfold acts, emit. simpl. rewrite omap_app. simpl. by destruct (act_of e). Qed.

Lemma acts_quiet e n : act_of e = None -> acts (emit e n) = acts n.
Proof. intros E. by rewrite acts_emit, E, app_nil_r. Qed.

(** The operations of the shared state neither answer nor start jobs. *)
Lemma acts_extends n n' : extends n n' -> acts n' = acts n.
Proof. apply extends_omap. by intros []. Qed.

Lemma acts_availability env t a n : acts (set_availability_of env t a n) = acts n.
Proof. unfold set_availability_of. by repeat case_match. Qed.

Create Rewrite HintDb view.

Lemma view_send e l : act_of e = None -> view (send e l) = view l.
Proof. intros E. unfold view, send, on_node. simpl. by rewrite acts_quiet. Qed.

Lemma view_on_node f l : acts (f (lp_node l)) = acts (lp_node l) -> view (on_node f l) = view l.
Proof. intros E. unfold view, on_node. simpl. by rewrite E. Qed.

Lemma view_node n l : acts n = acts (lp_node l) -> view (set_node n l) = view l.
Proof. intros E. unfold view. simpl. by rewrite E. Qed.

Lemma view_fold {A} (f : Loop -> A -> Loop) (xs : list A) l :
  (forall l a, view (f l a) = view l) -> view (foldl f l xs) = view l.
Proof. intros Hf. revert l. induction xs as [|x xs IH]; intros l; simpl; [done|]. by rewrite IH, Hf. Qed.

Lemma view_connected v l : view (set_connected_clients v l) = view l.
Proof. done. Qed.
Lemma view_reconnects v l : view (set_reconnect_handles v l) = view l.
Proof. done. Qed.
Lemma view_retries v l : view (set_outbound_dial_retry_handles v l) = view l.
Proof. done. Qed.
Lemma view_waits v l : view (set_inbound_connect_wait_handles v l) = view l.
Proof. done. Qed.
Lemma view_probes v l : view (set_peer_reachability_handles v l) = view l.
Proof. done. Qed.
Lemma view_resets v l : view (set_last_retry_reset v l) = view l.
Proof. done. Qed.
Lemma view_offline v l : view (set_offline_nodes v l) = view l.
Proof. done. Qed.
Lemma view_online v l : view (set_network_online v l) = view l.
Proof. done. Qed.
Lemma view_dirty v l : view (set_output_dirty v l) = view l.
Proof. done. Qed.
Lemma view_snapshots v l : view (set_snapshots v l) = view l.
Proof. done. Qed.
Lemma view_next v l : view (set_next_worker v l) = view l.
Proof. done. Qed.

#[global] Hint Rewrite view_connected view_reconnects view_retries view_waits view_probes view_resets
  view_offline view_online view_dirty view_snapshots view_next : view.
#[global] Hint Rewrite view_send using reflexivity : view.
#[global] Hint Rewrite view_on_node
  using (first [reflexivity | apply acts_availability | apply acts_extends; solve [eauto with sends]]) : view.

(** The operation leaves what the loop has answered and started alone: by its
    branches, and the operations it is made of. *)
Ltac still :=
  repeat (progress (autorewrite with view; simpl) || case_match); autorewrite with view; try done.

Section loop.
Context (env : Env) `{RustText} `{JsonValue}.

Lemma view_broadcast l : view (broadcast_snapshot env l) = view l.
Proof. unfold broadcast_snapshot. still. Qed.

Lemma view_start_worker w l : view (start_worker w l).2 = view l.
Proof. unfold start_worker. still. Qed.

Lemma view_cancel_reconnect t l : view (cancel_reconnect t l) = view l.
Proof. unfold cancel_reconnect. still. Qed.

Lemma view_cancel_retry t l : view (cancel_retry t l) = view l.
Proof. unfold cancel_retry. still. Qed.

Lemma view_cancel_wait t l : view (cancel_wait t l) = view l.
Proof. unfold cancel_wait. still. Qed.

Lemma view_cancel_probe t l : view (cancel_probe t l) = view l.
Proof. unfold cancel_probe. still. Qed.

Lemma view_start_retry t i l : view (start_retry t i l) = view l.
Proof. unfold start_retry. still. Qed.

Lemma view_close_ingress t l : view (close_ingress_sessions_for_node t l) = view l.
Proof. unfold close_ingress_sessions_for_node. still. Qed.

Lemma view_upsert p t l : view (snapshot_upsert env p t l) = view l.
Proof. unfold snapshot_upsert. still. Qed.

Lemma view_remove t l : view (snapshot_remove env t l) = view l.
Proof. unfold snapshot_remove, save_snapshots. still. Qed.

Lemma view_leave_console t l : view (leave_console t l) = view l.
Proof. unfold leave_console. still. Qed.

Lemma view_start_probe t i l : view (start_probe t i l) = view l.
Proof. unfold start_probe. still. Qed.

Lemma view_start_wait t i l : view (start_wait t i l) = view l.
Proof. unfold start_wait. still. Qed.

Lemma view_when_vacant h m f t l : (forall t i l, view (f t i l) = view l) -> view (when_vacant h m f t l) = view l.
Proof. intros Hf. unfold when_vacant. still. Qed.

End loop.

#[global] Hint Rewrite @view_broadcast view_start_worker view_cancel_reconnect view_cancel_retry view_cancel_wait
  view_cancel_probe view_start_retry view_close_ingress view_upsert view_remove view_leave_console
  view_start_probe view_start_wait : view.
#[global] Hint Rewrite view_when_vacant
  using (intros; first [apply view_start_retry | apply view_start_probe | apply view_start_wait]) : view.

(** ** The handlers *)

Section handlers.
Context (env : Env) `{RustText} `{JsonValue}.

Lemma view_reset t l : view (reset_outbound_dial_retry_worker t l) = view l.
Proof. unfold reset_outbound_dial_retry_worker. still. Qed.

Lemma view_child_exit t l : view (handle_local_session_child_exit env t l) = view l.
Proof. unfold handle_local_session_child_exit. still. Qed.

Lemma view_host_exit t l : view (handle_authority_host_session_exit env t l) = view l.
Proof. unfold handle_authority_host_session_exit. still. Qed.

Lemma view_create_host cols rows l : view (create_authority_host_session env cols rows l).2 = view l.
Proof.
  unfold create_authority_host_session. destruct (create_host_record env (lp_node l)) as [[[[id p] t] n]|] eqn:E; [|done].
  apply extends_create_host, acts_extends in E. case_match; simpl; autorewrite with view; by apply view_node.
Qed.

Lemma view_create_host_session id cols rows l :
  view (handle_create_authority_host_session env id cols rows l) = view l.
Proof.
  unfold handle_create_authority_host_session.
  pose proof (view_create_host cols rows l) as E.
  destruct (create_authority_host_session env cols rows l) as [r l']. simpl in E. still.
Qed.

Lemma view_connected_client c l : view (handle_client_connected env c l) = view l.
Proof. unfold handle_client_connected. still. Qed.

Lemma view_disconnected_client c l : view (handle_client_disconnected env c l) = view l.
Proof. unfold handle_client_disconnected. still. Qed.

Lemma view_input t k l : view (route_input env t k l) = view l.
Proof. unfold route_input. still. Qed.

Lemma view_paste_text t b l : view (route_paste_text env t b l) = view l.
Proof. unfold route_paste_text. still. Qed.

Lemma view_paste_file t h b l : view (handle_paste_file env t h b l).2 = view l.
Proof. unfold handle_paste_file. still. Qed.

Lemma view_resize cols rows l : view (handle_resize env cols rows l) = view l.
Proof. unfold handle_resize. still. Qed.

Lemma view_resize_to_client l : view (resize_to_client env l) = view l.
Proof. unfold resize_to_client. still. Qed.

Lemma view_activate t l : view (activate_target env t l).2 = view l.
Proof.
  unfold activate_target. destruct (find_target env t (nd_sessions (lp_node l))) as [r|]; [|done].
  destruct (if is_remote r then ensure_remote_session env r (lp_node l) else Ok (lp_node l)) as [n|] eqn:E; [|done].
  assert (En : acts n = acts (lp_node l))
    by (destruct (is_remote r); [by apply extends_ensure, acts_extends in E|congruence]).
  still; by apply view_node.
Qed.

Lemma view_apply_connect p a o l : view (apply_remote_host_connect_outcome env p a o l).2 = view l.
Proof.
  unfold apply_remote_host_connect_outcome.
  set (l1 := match co_connection_info o with Some _ => _ | None => _ end).
  assert (E1 : view l1 = view l) by (subst l1; still).
  case_match; simpl; [|by autorewrite with view].
  match goal with E : ensure_remote_session _ _ _ = Ok _ |- _ => apply extends_ensure, acts_extends in E end.
  rewrite view_upsert. case_match; rewrite ?view_resize_to_client; autorewrite with view;
    rewrite view_node by done; by autorewrite with view.
Qed.

Lemma view_apply_created r l : view (apply_created_remote_session env r l).2 = view l.
Proof.
  unfold apply_created_remote_session. case_match; simpl; [|by autorewrite with view].
  match goal with E : ensure_remote_session _ _ _ = Ok _ |- _ => apply extends_ensure, acts_extends in E end.
  rewrite view_resize_to_client. autorewrite with view. rewrite view_node by done. by autorewrite with view.
Qed.

Lemma view_session_disconnected t l : view (handle_remote_session_disconnected env t l) = view l.
Proof. unfold handle_remote_session_disconnected, client_size. still. Qed.

Lemma view_session_reconnected t s l : view (handle_remote_session_reconnected env t s l) = view l.
Proof. unfold handle_remote_session_reconnected. still. Qed.

Lemma view_session_closed t l : view (handle_session_closed env t l) = view l.
Proof. unfold handle_session_closed. still. Qed.

Lemma view_agent_signal t a e p l : view (handle_agent_signal_received env t a e p l) = view l.
Proof. unfold handle_agent_signal_received. still. Qed.

Lemma view_node_offline t l : view (handle_remote_node_offline env t l) = view l.
Proof.
  unfold handle_remote_node_offline. autorewrite with view. apply view_fold. intros. by autorewrite with view.
Qed.

Lemma view_node_online t l : view (handle_remote_node_online t l) = view l.
Proof. unfold handle_remote_node_online. still. Qed.

Lemma view_reconnect_failed t l : view (handle_remote_node_reconnect_failed env t l) = view l.
Proof.
  unfold handle_remote_node_reconnect_failed. autorewrite with view. apply view_fold.
  intros. by autorewrite with view.
Qed.

Lemma view_reachable t l : view (handle_remote_node_reachable env t l) = view l.
Proof. unfold handle_remote_node_reachable. case_match; by rewrite ?view_reset. Qed.

Lemma view_network o l : view (handle_network_connectivity_changed env o l) = view l.
Proof.
  unfold handle_network_connectivity_changed. case_match; [|by autorewrite with view].
  autorewrite with view. rewrite view_fold; [done|]. intros. repeat case_match; by rewrite ?view_reset.
Qed.

Lemma view_set_public e s l : view (handle_set_public env e s l).2 = view l.
Proof. unfold handle_set_public. still. Qed.

Lemma view_create_local cwd l : view (handle_create_local_session env cwd l).2 = view l.
Proof.
  unfold handle_create_local_session. destruct (create_local_session _ _ _ _ _ _) as [[t n]|] eqn:E; [|done].
  apply extends_create_local, acts_extends in E. simpl. autorewrite with view. by apply view_node.
Qed.

Lemma view_detach_all l : view (handle_detach_all env l) = view l.
Proof.
  unfold handle_detach_all. rewrite view_fold; [|intros; by autorewrite with view]. by autorewrite with view.
Qed.

End handlers.

(** ** What an event answers and starts

    [answers_to e w p new w' p']: with the waiting clients [w] and the
    profiles [p] being connected, the event adds [new] to what was answered
    and started, and leaves [w'] and [p']. *)

Definition immediate (cmd : Cmd.ClientCommand) : bool :=
  match cmd with
  | Cmd.ConnectRemoteHost _ | Cmd.CreateRemoteSession _ _ | Cmd.E2eRelayProbe _ _ _
  | Cmd.RelayJoin _ _ _ _ | Cmd.RelayRemove => false
  | _ => true
  end.

(** The job a command that is not immediate is left to. *)
Definition left_to (c : Z) (cmd : Cmd.ClientCommand) : option job :=
  match cmd with
  | Cmd.ConnectRemoteHost p => Some (ConnectJob c p)
  | Cmd.CreateRemoteSession n cwd => Some (CreateRemoteSessionJob c n cwd)
  | Cmd.E2eRelayProbe peer s h => Some (RelayProbeJob c peer s h)
  | Cmd.RelayJoin a t f u => Some (RelayJoinJob c a t f u Operator)
  | Cmd.RelayRemove => Some (RelayRemoveJob c)
  | _ => None
  end.

Definition deploy_join (c : Z) (request : option RemoteRelayJoinRequest) : list act :=
  match request with
  | Some q => [Spawned (RelayJoinJob c (rj_address q) (rj_token q) false (rj_use_proxy q) RelayRoleDeploy)]
  | None => []
  end.

Definition joins_after {A E} (r : result A E) (l : list act) : list act :=
  match r with Ok _ => l | Err _ => [] end.

(** The jobs of a round over the saved connections: one per profile that is
    not being connected. *)
Inductive round_over (p : gset string) : list act -> gset string -> Prop :=
| round_done : round_over p [] p
| round_more profile node new p' :
    profile ∉ p -> round_over ({[profile]} ∪ p) new p' ->
    round_over p (Spawned (SnapshotReconnectJob profile node) :: new) p'.

Definition finishes (w : gmap string (list Z)) (profile : string) : list Z := default [] (w !! profile).

Definition unchanged (w : gmap string (list Z)) (p : gset string) (new : list act)
    (expected : list act) (w' : gmap string (list Z)) (p' : gset string) : Prop :=
  new = expected /\ w' = w /\ p' = p.

Definition answers_to `{JsonValue} (e : Ev.StateEvent) (w : gmap string (list Z)) (p : gset string)
    (new : list act) (w' : gmap string (list Z)) (p' : gset string) : Prop :=
  match e with
  | Ev.ClientCommand c (Cmd.ConnectRemoteHost profile) =>
      if bool_decide (profile ∈ p) then
        if c =? 0 then unchanged w p new [Wrote c] w' p'
        else new = [] /\ w' = <[profile := finishes w profile ++ [c]]> w /\ p' = p
      else new = [Spawned (ConnectJob c profile)] /\ w' = w /\ p' = {[profile]} ∪ p
  | Ev.ClientCommand c cmd =>
      unchanged w p new (match left_to c cmd with Some j => [Spawned j] | None => [Wrote c] end) w' p'
  | Ev.RemoteHostConnectResult c profile r _ rj =>
      new = joins_after r (deploy_join c rj) ++ map Wrote (c :: finishes w profile) /\
      w' = delete profile w /\ p' = p ∖ {[profile]}
  | Ev.SnapshotHostReconnectResult profile _ r =>
      new = match r with
            | Ok o => deploy_join (default 0 (head (finishes w profile))) (co_relay_join o)
            | Err _ => []
            end ++ map Wrote (finishes w profile) /\
      w' = delete profile w /\ p' = p ∖ {[profile]}
  | Ev.RemoteHostRelayJoinRequested a t u =>
      unchanged w p new (deploy_join 0 (Some (mkRelayJoinRequest a t u))) w' p'
  | Ev.RemoteSessionCreateResult c _ _ | Ev.E2eRelayProbeResult c _ | Ev.RelayJoinResult c _ _
  | Ev.RelayRemoveResult c _ => unchanged w p new [Wrote c] w' p'
  | Ev.ReconnectSnapshotHosts => round_over p new p' /\ w' = w
  | _ => unchanged w p new [] w' p'
  end.

Definition after (l : Loop) (new : list act) (w : gmap string (list Z)) (p : gset string) (l' : Loop) : Prop :=
  view l' = (acts (lp_node l) ++ new, w, p).

Lemma after_quiet l l' : view l' = view l -> after l [] (connect_waiters l) (connecting_profiles l) l'.
Proof. intros E. unfold after. by rewrite E, app_nil_r. Qed.

Lemma view_act e a l : act_of e = Some a ->
  view (send e l) = (acts (lp_node l) ++ [a], connect_waiters l, connecting_profiles l).
Proof. intros E. unfold view, send, on_node. simpl. by rewrite acts_emit, E. Qed.

Lemma view_eq l a w p :
  view l = (a, w, p) <-> acts (lp_node l) = a /\ connect_waiters l = w /\ connecting_profiles l = p.
Proof. unfold view. split; [by intros [= <- <- <-]|by intros (-> & -> & ->)]. Qed.

Lemma view_reply c o l l' : view l = view l' ->
  view (reply c o l) = (acts (lp_node l') ++ [Wrote c], connect_waiters l', connecting_profiles l').
Proof.
  intros E. unfold reply, write_to. rewrite (view_act _ (Wrote c)) by done.
  by apply view_eq in E as (-> & -> & ->).
Qed.

Lemma view_reply_all cs o l :
  view (reply_all cs o l) = (acts (lp_node l) ++ map Wrote cs, connect_waiters l, connecting_profiles l).
Proof.
  unfold reply_all. revert l. induction cs as [|c cs IH]; intros l; simpl.
  - by rewrite app_nil_r.
  - rewrite IH. destruct (proj1 (view_eq _ _ _ _) (view_reply c o l l eq_refl)) as (-> & -> & ->).
    by rewrite <-app_assoc.
Qed.

Section events.
Context (env : Env) `{RustText} `{JsonValue}.

(** The event is answered as [answers_to] says. *)
Definition answered (e : Ev.StateEvent) (l : Loop) : Prop :=
  exists new w p,
    view (handle_event env e l) = (acts (lp_node l) ++ new, w, p) /\
    answers_to e (connect_waiters l) (connecting_profiles l) new w p.

Lemma answered_quiet e l :
  view (handle_event env e l) = view l ->
  answers_to e (connect_waiters l) (connecting_profiles l) [] (connect_waiters l) (connecting_profiles l) ->
  answered e l.
Proof. intros E Ha. exists [], (connect_waiters l), (connecting_profiles l). by rewrite E, app_nil_r. Qed.

Lemma command_immediate c cmd l : immediate cmd = true ->
  view (handle_client_command_event env c cmd l) =
    (acts (lp_node l) ++ [Wrote c], connect_waiters l, connecting_profiles l).
Proof.
  intros Hi.
  assert (R : forall cmd, view (handle_client_command env cmd l).2 = view l ->
    view (let '(outcome, l) := handle_client_command env cmd l in reply c outcome l) =
    (acts (lp_node l) ++ [Wrote c], connect_waiters l, connecting_profiles l)).
  { intros cmd' E. destruct (handle_client_command env cmd' l) as [o l']. by apply view_reply. }
  destruct cmd; try discriminate Hi; unfold handle_client_command_event; try (apply R; simpl);
    try done; autorewrite with view; try done.
  - apply view_create_local.
  - pose proof (view_activate env target_id l) as E.
    destruct (activate_target env target_id l) as [[] l']; simpl in *; autorewrite with view; done.
  - apply view_detach_all.
  - apply view_resize.
  - apply view_input.
  - apply view_paste_text.
  - apply view_paste_file.
  - by apply (view_act _ (Wrote c)).
  - apply view_reply. by autorewrite with view.
Qed.

Lemma command_answered c cmd l : answered (Ev.ClientCommand c cmd) l.
Proof.
  unfold answered. destruct (immediate cmd) eqn:Hi.
  - eexists [Wrote c], _, _. split; [by apply command_immediate|].
    destruct cmd; try discriminate Hi; done.
  - destruct cmd; try discriminate Hi; simpl;
      try (eexists [Spawned _], _, _; split; [by apply (view_act _ (Spawned _))|done]).
    unfold connect_remote_host_target. case_bool_decide as Hp.
    + destruct (Z.eq_dec c 0) as [->|Hc]; simpl.
      * eexists [Wrote 0], _, _. split; [by apply view_reply|done].
      * rewrite (proj2 (Z.eqb_neq c 0) Hc). simpl.
        eexists [], _, _. split; [|done]. unfold view. simpl. by rewrite app_nil_r.
    + exists [Spawned (ConnectJob c profile_name)], (connect_waiters l),
        ({[profile_name]} ∪ connecting_profiles l).
      split; [by rewrite (view_act _ (Spawned (ConnectJob c profile_name)))|done].
Qed.

Lemma view_join c q f ctx l :
  view (run_relay_join c q f ctx l) =
    (acts (lp_node l) ++ [Spawned (RelayJoinJob c (rj_address q) (rj_token q) f (rj_use_proxy q) ctx)],
     connect_waiters l, connecting_profiles l).
Proof. by apply (view_act _ (Spawned _)). Qed.

Lemma view_deploy c rj l :
  view (match rj with Some q => run_relay_join c q false RelayRoleDeploy l | None => l end) =
    (acts (lp_node l) ++ deploy_join c rj, connect_waiters l, connecting_profiles l).
Proof. destruct rj; [apply view_join|]. unfold view. by rewrite app_nil_r. Qed.

(** The outcome of a connect, applied after the join it asks for. *)
Lemma view_connected_outcome profile a o c rj l :
  view (apply_remote_host_connect_outcome env profile a o
          (match rj with Some q => run_relay_join c q false RelayRoleDeploy l | None => l end)).2 =
    (acts (lp_node l) ++ deploy_join c rj, connect_waiters l, connecting_profiles l).
Proof. rewrite view_apply_connect. apply view_deploy. Qed.

Lemma view_replies_after cs o l a w p : view l = (a, w, p) ->
  view (reply_all cs o l) = (a ++ map Wrote cs, w, p).
Proof. intros (<- & <- & <-)%view_eq. apply view_reply_all. Qed.

Lemma connect_result_answered c profile r a rj l :
  answered (Ev.RemoteHostConnectResult c profile r a rj) l.
Proof.
  unfold answered. simpl. unfold handle_remote_host_connect_result, finish_connect.
  eexists _, _, _. split; [|done]. simpl. destruct r as [o|m].
  - match goal with |- context [apply_remote_host_connect_outcome env profile a o ?x] =>
      destruct (apply_remote_host_connect_outcome env profile a o x) as [oc l'] eqn:E end.
    rewrite app_assoc.
    apply (view_replies_after (c :: finishes (connect_waiters l) profile) oc l').
    change l' with (oc, l').2. rewrite <-E. by rewrite view_connected_outcome.
  - by apply (view_replies_after (c :: finishes (connect_waiters l) profile)).
Qed.

Lemma snapshot_result_answered profile node r l :
  answered (Ev.SnapshotHostReconnectResult profile node r) l.
Proof.
  unfold answered. simpl. unfold handle_snapshot_reconnect_result, finish_connect.
  eexists _, _, _. split; [|done]. simpl. destruct r as [o|m].
  - match goal with |- context [apply_remote_host_connect_outcome env profile ?a o ?x] =>
      destruct (apply_remote_host_connect_outcome env profile a o x) as [oc l'] eqn:E end.
    rewrite app_assoc. apply view_replies_after.
    change l' with (oc, l').2. rewrite <-E. by rewrite view_connected_outcome.
  - case_match; autorewrite with view; by apply view_replies_after.
Qed.

Lemma reconnect_round entries l : exists new (p : gset string),
  view (foldl (reconnect_entry env) l entries) = (acts (lp_node l) ++ new, connect_waiters l, p) /\
  round_over (connecting_profiles l) new p.
Proof.
  revert l. induction entries as [|e es IH]; intros l; simpl.
  - exists [], (connecting_profiles l). unfold view. rewrite app_nil_r. split; [done|constructor].
  - assert (D : reconnect_entry env l e = l \/
      ((se_profile_name e ∉ connecting_profiles l) /\
       reconnect_entry env l e =
         send (Spawn (SnapshotReconnectJob (se_profile_name e) (se_authority_node_id e)))
           (set_connecting_profiles ({[se_profile_name e]} ∪ connecting_profiles l) l))).
    { unfold reconnect_entry. repeat case_match; try by left. case_bool_decide; [by left|by right]. }
    destruct D as [->|[Hp ->]]; [apply IH|].
    match goal with |- context [foldl _ ?x es] => destruct (IH x) as (new & p & E & R) end.
    eexists (Spawned _ :: new), p. rewrite E. split; [|constructor; [exact Hp|exact R]].
    simpl. rewrite acts_emit. simpl. by rewrite <-app_assoc.
Qed.

Lemma result_answered c o l l' e :
  view l' = view l -> handle_event env e l = reply c o l' ->
  answers_to e (connect_waiters l) (connecting_profiles l) [Wrote c] (connect_waiters l) (connecting_profiles l) ->
  answered e l.
Proof.
  intros E Ee Ha. eexists [Wrote c], _, _. split; [rewrite Ee; by apply view_reply|done].
Qed.

Lemma create_result_answered c node r l : answered (Ev.RemoteSessionCreateResult c node r) l.
Proof.
  set (x := match r with Ok record => apply_created_remote_session env record l | Err m => (Error m, l) end).
  assert (E : view x.2 = view l) by (subst x; destruct r; [apply view_apply_created|done]).
  destruct x as [o l'] eqn:Ex.
  apply (result_answered c o l (if is_message o then broadcast_snapshot env l' else l')); [|clear E|done].
  - destruct (is_message o); by autorewrite with view.
  - simpl. unfold handle_remote_session_create_result. subst x. by rewrite Ex.
Qed.

Lemma join_result_answered c a r l : answered (Ev.RelayJoinResult c a r) l.
Proof.
  destruct r as [x|m]; (eapply result_answered; [|reflexivity|done]); [|done]. still.
Qed.

Lemma remove_result_answered c r l : answered (Ev.RelayRemoveResult c r) l.
Proof. destruct r as [x|m]; (eapply result_answered; [|reflexivity|done]); [|done]. still. Qed.

(** Every event is answered as specified. *)
Lemma event_answered e l : answered e l.
Proof.
  destruct e; try (apply answered_quiet; [simpl; autorewrite with view|by split_and!]); try done.
  - apply view_child_exit.
  - apply view_host_exit.
  - apply view_host_exit.
  - apply view_connected_client.
  - apply view_disconnected_client.
  - apply command_answered.
  - apply view_create_host_session.
  - apply view_session_disconnected.
  - apply view_session_reconnected.
  - apply view_session_closed.
  - apply view_agent_signal.
  - case_bool_decide; [done|]. by rewrite view_node_offline.
  - apply view_node_online.
  - apply view_reconnect_failed.
  - apply view_network.
  - apply view_reachable.
  - unfold answered. simpl. unfold reconnect_snapshot_hosts. case_match.
    + destruct (reconnect_round (snapshots l) l) as (new & p & E & R).
      by exists new, (connect_waiters l), p.
    + exists [], (connect_waiters l), (connecting_profiles l). unfold view.
      rewrite app_nil_r. split; [done|]. split; [constructor|done].
  - apply snapshot_result_answered.
  - apply connect_result_answered.
  - eexists _, _, _. split; [apply view_join|done].
  - apply create_result_answered.
  - eapply result_answered; [|reflexivity|done]. done.
  - apply join_result_answered.
  - apply remove_result_answered.
  - case_match; [by autorewrite with view|done].
Qed.

End events.

(** ** The loop and its threads

    A job runs until it reports; which job finishes when, and with what
    result, is arbitrary. *)

Record System := mkSystem { sy_loop : Loop; sy_jobs : list job }.

Inductive job_result :=
| Connected (r : result RemoteHostConnectedOutcome string)
| CreatedRemote (r : result ManagedSessionRecord string)
| Probed (r : result string string)
| Joined (r : result RelayJoinApplied string)
| Removed (r : result string string).

(** The event a thread sends when its work is over. *)
Definition job_event `{JsonValue} (j : job) (r : job_result) : option Ev.StateEvent :=
  match j, r with
  | ConnectJob c p, Connected r =>
      Some (Ev.RemoteHostConnectResult c p r true
              (match r with Ok o => co_relay_join o | Err _ => None end))
  | SnapshotReconnectJob p n, Connected r => Some (Ev.SnapshotHostReconnectResult p n r)
  | CreateRemoteSessionJob c n _, CreatedRemote r => Some (Ev.RemoteSessionCreateResult c n r)
  | RelayProbeJob c _ _ _, Probed r => Some (Ev.E2eRelayProbeResult c r)
  | RelayJoinJob c a _ _ _ _, Joined r => Some (Ev.RelayJoinResult c a r)
  | RelayRemoveJob c, Removed r => Some (Ev.RelayRemoveResult c r)
  | _, _ => None
  end.

(** The events only a job sends. *)
Definition from_job `{JsonValue} (e : Ev.StateEvent) : bool :=
  match e with
  | Ev.RemoteHostConnectResult _ _ _ _ _ | Ev.SnapshotHostReconnectResult _ _ _
  | Ev.RemoteSessionCreateResult _ _ _ | Ev.E2eRelayProbeResult _ _ | Ev.RelayJoinResult _ _ _
  | Ev.RelayRemoveResult _ _ => true
  | _ => false
  end.

Inductive input `{JsonValue} :=
| Happens (env : Env) (e : Ev.StateEvent)
| Finishes (env : Env) (i : nat) (r : job_result).

Definition job_of (a : act) : option job := match a with Spawned j => Some j | Wrote _ => None end.

Definition jobs_of (l : list act) : list job := omap job_of l.

Section system.
Context `{RustText} `{JsonValue}.

(** One event: the jobs it spawns start running. *)
Definition feed (env : Env) (e : Ev.StateEvent) (l : Loop) (jobs : list job) : System :=
  let l' := handle_event env e l in
  mkSystem l' (jobs ++ drop (length (jobs_of (acts (lp_node l)))) (jobs_of (acts (lp_node l')))).

Definition sys_step (s : System) (i : input) : option System :=
  match i with
  | Happens env e => if from_job e then None else Some (feed env e (sy_loop s) (sy_jobs s))
  | Finishes env k r =>
      match sy_jobs s !! k ≫= fun j => job_event j r with
      | Some e => Some (feed env e (sy_loop s) (delete k (sy_jobs s)))
      | None => None
      end
  end.

Fixpoint sys_run (s : System) (ins : list input) : option System :=
  match ins with
  | [] => Some s
  | i :: ins => sys_step s i ≫= fun s => sys_run s ins
  end.

End system.

(** *** Counting *)

Definition tally {A} (f : A -> Z) (l : list A) : Z := foldr (fun a acc => f a + acc) 0 l.

Definition one_if (b : bool) : Z := if b then 1 else 0.

Lemma tally_app {A} (f : A -> Z) l k : tally f (l ++ k) = tally f l + tally f k.
Proof. induction l as [|a l IH]; simpl; [done|]. rewrite IH. lia. Qed.

Lemma tally_delete {A} (f : A -> Z) l k a : l !! k = Some a -> tally f l = f a + tally f (delete k l).
Proof.
  revert k. induction l as [|b l IH]; intros [|k] E; simplify_eq/=; [done|]. rewrite (IH k E). lia.
Qed.

Lemma tally_nonneg {A} (f : A -> Z) l : (forall a, 0 <= f a) -> 0 <= tally f l.
Proof. intros Hf. induction l as [|a l IH]; simpl; [done|]. specialize (Hf a). lia. Qed.

(** Answers to a client, the answers a job owes it, the relay joins a connect
    of the client has started, and its commands. *)
Definition answers (c : Z) (a : act) : Z := match a with Wrote c' => one_if (c' =? c) | Spawned _ => 0 end.

Definition owes (c : Z) (j : job) : Z :=
  match j with
  | ConnectJob c' _ | CreateRemoteSessionJob c' _ _ | RelayProbeJob c' _ _ _
  | RelayJoinJob c' _ _ _ _ _ | RelayRemoveJob c' => one_if (c' =? c)
  | SnapshotReconnectJob _ _ => 0
  end.

Definition deploys (c : Z) (a : act) : Z :=
  match a with Spawned (RelayJoinJob c' _ _ _ _ RelayRoleDeploy) => one_if (c' =? c) | _ => 0 end.

Definition asks `{JsonValue} (c : Z) (i : input) : Z :=
  match i with Happens _ (Ev.ClientCommand c' _) => one_if (c' =? c) | _ => 0 end.

Definition waits (c : Z) (cs : list Z) : Z := tally (fun c' => one_if (c' =? c)) cs.

Definition waiting (c : Z) (w : gmap string (list Z)) : Z := map_sum (waits c) w.

(** The jobs that connect a profile. *)
Definition connects (p : string) (j : job) : Z :=
  match j with
  | ConnectJob _ p' | SnapshotReconnectJob p' _ => one_if (bool_decide (p' = p))
  | _ => 0
  end.

(** *** One event *)

Definition asked `{JsonValue} (c : Z) (e : Ev.StateEvent) : Z :=
  match e with Ev.ClientCommand c' _ => one_if (c' =? c) | _ => 0 end.

(** What the job that sent the event owed. *)
Definition settles `{JsonValue} (c : Z) (e : Ev.StateEvent) : Z :=
  match e with
  | Ev.RemoteHostConnectResult c' _ _ _ _ | Ev.RemoteSessionCreateResult c' _ _
  | Ev.E2eRelayProbeResult c' _ | Ev.RelayJoinResult c' _ _ | Ev.RelayRemoveResult c' _ => one_if (c' =? c)
  | _ => 0
  end.

Definition ends_connect `{JsonValue} (p : string) (e : Ev.StateEvent) : Z :=
  match e with
  | Ev.RemoteHostConnectResult _ p' _ _ _ | Ev.SnapshotHostReconnectResult p' _ _ =>
      one_if (bool_decide (p' = p))
  | _ => 0
  end.

Lemma jobs_of_app a b : jobs_of (a ++ b) = jobs_of a ++ jobs_of b.
Proof. apply omap_app. Qed.

Lemma jobs_of_wrote cs : jobs_of (map Wrote cs) = [].
Proof. by induction cs. Qed.

Lemma answers_wrote c cs : tally (answers c) (map Wrote cs) = waits c cs.
Proof. induction cs as [|c' cs IH]; simpl; [done|]. by rewrite IH. Qed.

Lemma deploys_wrote c cs : tally (deploys c) (map Wrote cs) = 0.
Proof. by induction cs. Qed.

Lemma join_balance c c' rj :
  tally (answers c) (deploy_join c' rj) = 0 /\
  tally (owes c) (jobs_of (deploy_join c' rj)) = tally (deploys c) (deploy_join c' rj).
Proof. by destruct rj. Qed.

Lemma join_connects p c' rj : tally (connects p) (jobs_of (deploy_join c' rj)) = 0.
Proof. by destruct rj. Qed.

Lemma waiting_finish c w profile :
  waiting c (delete profile w) = waiting c w - waits c (finishes w profile).
Proof.
  unfold waiting, finishes. destruct (w !! profile) as [cs|] eqn:E; simpl.
  - rewrite (map_sum_delete _ w profile cs E). lia.
  - rewrite delete_id by done. unfold waits. simpl. lia.
Qed.

Lemma waiting_join c c' w profile :
  waiting c (<[profile := finishes w profile ++ [c']]> w) = waiting c w + one_if (c' =? c).
Proof.
  unfold waiting. rewrite map_sum_insert. unfold finishes.
  replace (waits c (default [] (w !! profile) ++ [c'])) with
    (waits c (default [] (w !! profile)) + one_if (c' =? c))
    by (unfold waits; rewrite tally_app; simpl; lia).
  destruct (w !! profile); simpl; unfold waits; simpl; lia.
Qed.

Lemma round_balance c p new p' : round_over p new p' ->
  tally (answers c) new = 0 /\ tally (owes c) (jobs_of new) = 0 /\ tally (deploys c) new = 0.
Proof. induction 1; [done|]. simpl. lia. Qed.

(** Answers given, answers owed and clients waiting grow together with the
    commands, and with the relay joins that connects start. *)
Lemma event_balance `{JsonValue} c e w p new w' p' : answers_to e w p new w' p' ->
  tally (answers c) new + waiting c w' + tally (owes c) (jobs_of new) =
    waiting c w + asked c e + settles c e + tally (deploys c) new.
Proof.
  assert (U : forall x, unchanged w p new x w' p' ->
    tally (answers c) x + tally (owes c) (jobs_of x) = asked c e + settles c e + tally (deploys c) x ->
    tally (answers c) new + waiting c w' + tally (owes c) (jobs_of new) =
    waiting c w + asked c e + settles c e + tally (deploys c) new)
    by (intros x (-> & -> & ->); lia).
  destruct e; intros Ha; try (apply (U _ Ha); simpl; lia); simpl in *.
  - destruct command; try (apply (U _ Ha); simpl; lia). case_bool_decide.
    + destruct (client_id =? 0); [apply (U _ Ha); simpl; lia|].
      destruct Ha as (-> & -> & ->). rewrite waiting_join. simpl. lia.
    + destruct Ha as (-> & -> & ->). simpl. lia.
  - destruct Ha as [R ->]. destruct (round_balance c _ _ _ R) as (-> & -> & ->). lia.
  - destruct Ha as (-> & -> & ->). rewrite waiting_finish, !tally_app, jobs_of_app, tally_app,
      jobs_of_wrote, answers_wrote, deploys_wrote. destruct r as [o|m]; simpl; [|lia].
    destruct (join_balance c (default 0 (head (finishes w profile_name))) (co_relay_join o)) as [-> ->]. lia.
  - destruct Ha as (-> & -> & ->). rewrite waiting_finish, !tally_app, jobs_of_app, tally_app.
    change (Wrote client_id :: map Wrote (finishes w profile_name))
      with (map Wrote (client_id :: finishes w profile_name)).
    rewrite jobs_of_wrote, answers_wrote, deploys_wrote. unfold waits at 1. simpl.
    destruct r as [o|m]; simpl; [|unfold waits; lia].
    destruct (join_balance c client_id relay_join) as [-> ->]. unfold waits. lia.
Qed.

(** Jobs that connect a profile, against the profiles being connected. *)
Definition in_set (q : string) (p : gset string) : Z := one_if (bool_decide (q ∈ p)).

Lemma in_set_union q x (p : gset string) : (x ∉ p) -> in_set q ({[x]} ∪ p) = one_if (bool_decide (x = q)) + in_set q p.
Proof.
  intros Hx. unfold in_set, one_if. repeat case_bool_decide; set_solver.
Qed.

Lemma in_set_remove q x (p : gset string) : x ∈ p -> in_set q (p ∖ {[x]}) + one_if (bool_decide (x = q)) = in_set q p.
Proof.
  intros Hx. unfold in_set, one_if. repeat case_bool_decide; set_solver.
Qed.

Lemma round_connects q p new p' : round_over p new p' ->
  tally (connects q) (jobs_of new) + in_set q p = in_set q p'.
Proof.
  induction 1 as [|p profile node new p' Hp R IH]; [done|]. simpl.
  rewrite (in_set_union q profile p Hp) in IH. lia.
Qed.

(** The profile whose connect the event ends. *)
Definition ended `{JsonValue} (e : Ev.StateEvent) : option string :=
  match e with
  | Ev.RemoteHostConnectResult _ p _ _ _ | Ev.SnapshotHostReconnectResult p _ _ => Some p
  | _ => None
  end.

Lemma event_connects `{JsonValue} q e w p new w' p' : answers_to e w p new w' p' ->
  (forall x, ended e = Some x -> x ∈ p) ->
  tally (connects q) (jobs_of new) + in_set q p = in_set q p' + ends_connect q e.
Proof.
  assert (U : forall x, unchanged w p new x w' p' -> tally (connects q) (jobs_of x) = ends_connect q e ->
    tally (connects q) (jobs_of new) + in_set q p = in_set q p' + ends_connect q e)
    by (intros x (-> & -> & ->); lia).
  destruct e; intros Ha He; try (apply (U _ Ha); simpl; lia); simpl in *.
  - destruct command; try (apply (U _ Ha); simpl; lia). case_bool_decide as Hp.
    + destruct (client_id =? 0); [apply (U _ Ha); simpl; lia|]. destruct Ha as (-> & -> & ->). simpl. lia.
    + destruct Ha as (-> & -> & ->). simpl. rewrite (in_set_union q profile_name p Hp). lia.
  - destruct Ha as [R _]. rewrite (round_connects q _ _ _ R). lia.
  - destruct Ha as (-> & -> & ->). rewrite jobs_of_app, tally_app, jobs_of_wrote.
    rewrite <-(in_set_remove q profile_name p) by by apply He.
    destruct r as [o|m]; simpl; rewrite ?join_connects; lia.
  - destruct Ha as (-> & -> & ->). rewrite jobs_of_app, tally_app.
    change (Wrote client_id :: map Wrote (finishes w profile_name))
      with (map Wrote (client_id :: finishes w profile_name)).
    rewrite jobs_of_wrote, <-(in_set_remove q profile_name p) by by apply He.
    destruct r as [o|m]; simpl; rewrite ?join_connects; lia.
Qed.

Lemma event_waiters `{JsonValue} e w p new w' p' : answers_to e w p new w' p' ->
  dom w ⊆ p -> dom w' ⊆ p'.
Proof.
  assert (U : forall x, unchanged w p new x w' p' -> dom w ⊆ p -> dom w' ⊆ p')
    by (intros x (-> & -> & ->); done).
  assert (R : forall p new p', round_over p new p' -> p ⊆ p') by (induction 1; set_solver).
  destruct e; intros Ha Hd; try (by apply (U _ Ha)); simpl in *.
  - destruct command; try (by apply (U _ Ha)). case_bool_decide.
    + destruct (client_id =? 0); [by apply (U _ Ha)|]. destruct Ha as (-> & -> & ->).
      rewrite dom_insert. set_solver.
    + destruct Ha as (-> & -> & ->). set_solver.
  - destruct Ha as [Hr ->]. apply R in Hr. set_solver.
  - destruct Ha as (-> & -> & ->). rewrite dom_delete. set_solver.
  - destruct Ha as (-> & -> & ->). rewrite dom_delete. set_solver.
Qed.

(** *** Runs *)

(** After the inputs [ins]: every command is answered, owed or waiting; a
    profile is being connected exactly when one job connects it; only such
    profiles have waiting clients. *)
Definition settled `{JsonValue} (ins : list input) (s : System) : Prop :=
  let n := lp_node (sy_loop s) in
  (forall c, tally (answers c) (acts n) + waiting c (connect_waiters (sy_loop s)) +
             tally (owes c) (sy_jobs s) = tally (asks c) ins + tally (deploys c) (acts n)) /\
  (forall p, tally (connects p) (sy_jobs s) = in_set p (connecting_profiles (sy_loop s))) /\
  dom (connect_waiters (sy_loop s)) ⊆ connecting_profiles (sy_loop s).

Lemma one_if_nonneg b : 0 <= one_if b.
Proof. by destruct b. Qed.

Lemma connects_nonneg p j : 0 <= connects p j.
Proof. destruct j; simpl; try done; apply one_if_nonneg. Qed.

Lemma job_event_settles `{JsonValue} j r e c p : job_event j r = Some e ->
  asked c e = 0 /\ settles c e = owes c j /\ ends_connect p e = connects p j.
Proof. destruct j, r; simpl; intros; simplify_eq; done. Qed.

Lemma job_event_ended `{JsonValue} j r e x : job_event j r = Some e -> ended e = Some x -> connects x j = 1.
Proof. destruct j, r; simpl; intros; simplify_eq; simplify_eq/=; by rewrite bool_decide_eq_true_2. Qed.

Section runs.
Context `{RustText} `{JsonValue}.

(** Feeding an event: what the job that sent it owed is no longer owed. *)
Lemma feed_settled env e l jobs ins c0 :
  (forall c, tally (answers c) (acts (lp_node l)) + waiting c (connect_waiters l) +
             tally (owes c) jobs + settles c e + asked c e =
             tally (asks c) ins + c0 c + tally (deploys c) (acts (lp_node l))) ->
  (forall p, tally (connects p) jobs + ends_connect p e = in_set p (connecting_profiles l)) ->
  (forall x, ended e = Some x -> x ∈ connecting_profiles l) ->
  dom (connect_waiters l) ⊆ connecting_profiles l ->
  let s' := feed env e l jobs in
  (forall c, tally (answers c) (acts (lp_node (sy_loop s'))) + waiting c (connect_waiters (sy_loop s')) +
             tally (owes c) (sy_jobs s') =
             tally (asks c) ins + c0 c + tally (deploys c) (acts (lp_node (sy_loop s')))) /\
  (forall p, tally (connects p) (sy_jobs s') = in_set p (connecting_profiles (sy_loop s'))) /\
  dom (connect_waiters (sy_loop s')) ⊆ connecting_profiles (sy_loop s').
Proof.
  intros Hb Hc He Hd s'. destruct (event_answered env e l) as (new & w' & p' & E & Ha).
  apply view_eq in E as (Ea & Ew & Ep). subst s'. unfold feed. simpl.
  rewrite Ea, Ew, Ep, jobs_of_app, drop_app_length.
  split_and!.
  - intros c. pose proof (event_balance c _ _ _ _ _ _ Ha). rewrite !tally_app. specialize (Hb c). lia.
  - intros q. pose proof (event_connects q _ _ _ _ _ _ Ha He). rewrite tally_app. specialize (Hc q). lia.
  - by apply (event_waiters _ _ _ _ _ _ Ha).
Qed.

Lemma step_settled ins s i s' : settled ins s -> sys_step s i = Some s' -> settled (ins ++ [i]) s'.
Proof.
  intros (Hb & Hc & Hd). destruct i as [env e|env k r]; simpl.
  - destruct (from_job e) eqn:Hj; [done|]. intros [= <-].
    assert (Hn : forall c p, settles c e = 0 /\ ends_connect p e = 0 /\ ended e = None)
      by (intros; destruct e; done).
    destruct (feed_settled env e (sy_loop s) (sy_jobs s) ins (fun c => asked c e)) as (B & C & D).
    + intros c. destruct (Hn c EmptyString) as (-> & _). specialize (Hb c). lia.
    + intros p. destruct (Hn 0 p) as (_ & -> & _). specialize (Hc p). lia.
    + intros x. by destruct (Hn 0 x) as (_ & _ & ->).
    + done.
    + split_and!; [|done..]. intros c. rewrite tally_app, B. simpl.
      replace (match e with Ev.ClientCommand c' _ => one_if (c' =? c) | _ => 0 end) with (asked c e) by done. lia.
  - destruct (sy_jobs s !! k) as [j|] eqn:Ek; [|done]. simpl.
    destruct (job_event j r) as [e|] eqn:Ee; [|done]. intros [= <-].
    pose proof (fun c p => job_event_settles j r e c p Ee) as Hs.
    destruct (feed_settled env e (sy_loop s) (delete k (sy_jobs s)) ins (fun _ => 0)) as (B & C & D).
    + intros c. destruct (Hs c EmptyString) as (-> & -> & _). specialize (Hb c).
      rewrite (tally_delete (owes c) _ _ _ Ek) in Hb. lia.
    + intros p. destruct (Hs 0 p) as (_ & _ & ->). specialize (Hc p).
      rewrite (tally_delete (connects p) _ _ _ Ek) in Hc. lia.
    + intros x Hx. apply (job_event_ended j r e x Ee) in Hx. specialize (Hc x).
      rewrite (tally_delete (connects x) _ _ _ Ek), Hx in Hc.
      pose proof (tally_nonneg (connects x) (delete k (sy_jobs s)) (connects_nonneg x)).
      unfold in_set in Hc. case_bool_decide; [done|simpl in Hc; lia].
    + done.
    + split_and!; [|done..]. intros c. rewrite tally_app, B. simpl. lia.
Qed.

Lemma run_settled ins0 s ins s' : settled ins0 s -> sys_run s ins = Some s' -> settled (ins0 ++ ins) s'.
Proof.
  revert ins0 s. induction ins as [|i ins IH]; intros ins0 s Hs; simpl.
  - intros [= <-]. by rewrite app_nil_r.
  - destruct (sys_step s i) as [s1|] eqn:E; [|done]. simpl. intros Hr.
    rewrite cons_middle, app_assoc. eapply IH; [by eapply step_settled|done].
Qed.

End runs.

(** C2. Every command of a client is answered exactly once. After any run of
    the loop and the threads it leaves work to, in any order and with any
    results, the answers written to a client, those a running thread still
    owes it and its places in the queue of a connect that is under way add up
    to the commands it has sent, and one answer for each relay join that one
    of its connects has started. *)
Theorem every_command_is_answered_once `{RustText} `{JsonValue} n entries ins s c :
  nd_out n = [] ->
  sys_run (mkSystem (loop_start n entries) []) ins = Some s ->
  tally (answers c) (acts (lp_node (sy_loop s))) + waiting c (connect_waiters (sy_loop s)) +
  tally (owes c) (sy_jobs s) =
    tally (asks c) ins + tally (deploys c) (acts (lp_node (sy_loop s))).
Proof.
  intros Ho Hr. assert (Hi : settled [] (mkSystem (loop_start n entries) [])).
  { unfold settled, acts. simpl. rewrite Ho. split_and!; [done..|set_solver]. }
  apply (proj1 (run_settled [] _ ins s Hi Hr)).
Qed.

(** C40. A client waits only for a connect that is running, and a profile is
    never connected twice at the same time: the profiles with waiting clients
    are being connected, and a profile is being connected exactly when one
    thread connects it. *)
Theorem waiting_clients_wait_for_one_connect `{RustText} `{JsonValue} n entries ins s p :
  nd_out n = [] ->
  sys_run (mkSystem (loop_start n entries) []) ins = Some s ->
  tally (connects p) (sy_jobs s) = one_if (bool_decide (p ∈ connecting_profiles (sy_loop s))) /\
  (forall cs, connect_waiters (sy_loop s) !! p = Some cs -> tally (connects p) (sy_jobs s) = 1).
Proof.
  intros Ho Hr. assert (Hi : settled [] (mkSystem (loop_start n entries) [])).
  { unfold settled, acts. simpl. rewrite Ho. split_and!; [done..|set_solver]. }
  destruct (run_settled [] _ ins s Hi Hr) as (_ & Hc & Hd). specialize (Hc p). unfold in_set in Hc.
  split; [done|]. intros cs E. rewrite Hc, bool_decide_eq_true_2; [done|]. apply Hd. by apply elem_of_dom_2 in E.
Qed.

(** Two clients connect to the same profile; a third asks for the status; the
    connect fails. *)
Definition two_connects : list (input (H := text_json)) :=
  [Happens calm (Ev.ClientConnected 1); Happens calm (Ev.ClientConnected 2);
   Happens calm (Ev.ClientCommand 1 (Cmd.ConnectRemoteHost "lab"));
   Happens calm (Ev.ClientCommand 2 (Cmd.ConnectRemoteHost "lab"));
   Happens calm (Ev.ClientCommand 3 Cmd.Status);
   Finishes calm 0 (Connected (Err "no route"))].

Definition after_two_connects : option System :=
  sys_run (H := ascii_text) (mkSystem (loop_start empty_node []) []) two_connects.

Lemma every_command_is_answered_once_witness :
  exists s, after_two_connects = Some s /\
    tally (answers 2) (acts (lp_node (sy_loop s))) + waiting 2 (connect_waiters (sy_loop s)) +
    tally (owes 2) (sy_jobs s) = 1.
Proof.
  destruct after_two_connects as [s|] eqn:E; [|by vm_compute in E]. exists s. split; [done|].
  pose proof (every_command_is_answered_once (H := ascii_text) empty_node [] _ s 2 eq_refl E) as T.
  assert (Ed : (fun s => tally (deploys 2) (acts (lp_node (sy_loop s)))) <$> after_two_connects = Some 0)
    by (vm_compute; reflexivity).
  rewrite E in Ed. injection Ed as Ed. rewrite Ed in T. exact T.
Defined.

(** While the connect is under way, the second client waits for it. *)
Definition before_the_result : option System :=
  sys_run (H := ascii_text) (mkSystem (loop_start empty_node []) []) (take 4 two_connects).

Lemma waiting_clients_wait_for_one_connect_witness :
  exists s, before_the_result = Some s /\ connect_waiters (sy_loop s) !! "lab" = Some [2] /\
    tally (connects "lab") (sy_jobs s) = 1.
Proof.
  destruct before_the_result as [s|] eqn:E; [|by vm_compute in E]. exists s. split; [done|].
  assert (Hw : connect_waiters (sy_loop s) !! "lab" = Some [2]).
  { assert (Ew : (fun s => connect_waiters (sy_loop s) !! "lab") <$> before_the_result = Some (Some [2]))
      by (vm_compute; reflexivity).
    rewrite E in Ew. by injection Ew. }
  split; [done|].
  exact (proj2 (waiting_clients_wait_for_one_connect (H := ascii_text) empty_node [] _ s "lab" eq_refl E) [2] Hw).
Defined.
