(* ===== verification/NodeFrame.v ===== *)
(** * Node frames: which part of the node an event may change

    The state of the loop is split into [part]s: every field of the shared
    state and of the loop, and of what is sent one part for every kind of
    receiver. [footprint] lists, for every event, the parts its handler may
    change; [event_frame] says that it changes no other. Invariants that
    speak of a few parts follow for all events that do not touch them. *)

From S2P Require Import Prelude Bytes Text SessionCatalog AgentDetector Keys RemoteSession HostIo NodeTypes NodeState StateLoop.

#[local] Open Scope Z_scope.

(** ** Parts *)

Inductive kind :=
| Answers | Broadcasts | Registrations | HostRequests | CatalogNotes | ListenerNotes | IngressNotes | MonitorNotes
| StoppedViewers | Wakes | SnapshotRounds | Workers | Jobs | CreateReplies | StoredSettings.

#[global] Instance kind_eq_dec : EqDecision kind.
Proof. solve_decision. Defined.

Definition kind_of (e : effect) : kind :=
  match e with
  | ToClients (Write _ _) => Answers
  | ToClients (Broadcast _) => Broadcasts
  | ToClients (Register _ _) | ToClients (Unregister _) => Registrations
  | ToHostIo _ => HostRequests
  | ToCatalog _ => CatalogNotes
  | ToCatalogListener _ _ => ListenerNotes
  | ToIngress _ => IngressNotes
  | MonitorRegister _ | MonitorUnregister _ => MonitorNotes
  | StopViewer _ => StoppedViewers
  | WakeListener => Wakes
  | SendReconnectSnapshotHosts => SnapshotRounds
  | StartWorker _ _ | StopWorker _ => Workers
  | Spawn _ => Jobs
  | CreateReply _ _ => CreateReplies
  | StoreSetting _ _ => StoredSettings
  end.

Inductive part :=
| PublicEndpoint | Shutdown | Sessions | ActiveTarget | LocalSessions | HostSessions | RemoteSessions | ClientCount
| Clients | ClientSize | Listeners | Connections | AuthRejections | Presence | RelayError | RelayClient
| Connected | ReconnectHandles | RetryHandles | WaitHandles | ProbeHandles | RetryResets | Connecting | Waiters
| OfflineNodes | Network | OutputDirty | SavedSnapshots | WorkerIds
| Sent (k : kind).

#[global] Instance part_eq_dec : EqDecision part.
Proof. solve_decision. Defined.

Definition sent (k : kind) (n : Node) : list effect := List.filter (fun e => bool_decide (kind_of e = k)) (nd_out n).

Definition agree (p : part) (l l' : Loop) : Prop :=
  let n := lp_node l in
  let n' := lp_node l' in
  match p with
  | PublicEndpoint => nd_public_endpoint_override n' = nd_public_endpoint_override n
  | Shutdown => nd_shutdown n' = nd_shutdown n
  | Sessions => nd_sessions n' = nd_sessions n
  | ActiveTarget => nd_active_target n' = nd_active_target n
  | LocalSessions => nd_local_sessions n' = nd_local_sessions n
  | HostSessions => nd_authority_host_sessions n' = nd_authority_host_sessions n
  | RemoteSessions => nd_remote_sessions n' = nd_remote_sessions n
  | ClientCount => nd_client_count n' = nd_client_count n
  | Clients => nd_clients n' = nd_clients n
  | ClientSize => nd_last_client_resize n' = nd_last_client_resize n
  | Listeners => nd_local_catalog_tx n' = nd_local_catalog_tx n
  | Connections => nd_remote_node_connections n' = nd_remote_node_connections n
  | AuthRejections => nd_remote_node_auth_rejections n' = nd_remote_node_auth_rejections n
  | Presence => nd_relay_presence n' = nd_relay_presence n
  | RelayError => nd_relay_error n' = nd_relay_error n
  | RelayClient => nd_relay_client n' = nd_relay_client n
  | Connected => connected_clients l' = connected_clients l
  | ReconnectHandles => reconnect_handles l' = reconnect_handles l
  | RetryHandles => outbound_dial_retry_handles l' = outbound_dial_retry_handles l
  | WaitHandles => inbound_connect_wait_handles l' = inbound_connect_wait_handles l
  | ProbeHandles => peer_reachability_handles l' = peer_reachability_handles l
  | RetryResets => last_retry_reset l' = last_retry_reset l
  | Connecting => connecting_profiles l' = connecting_profiles l
  | Waiters => connect_waiters l' = connect_waiters l
  | OfflineNodes => offline_nodes l' = offline_nodes l
  | Network => network_online l' = network_online l
  | OutputDirty => output_dirty l' = output_dirty l
  | SavedSnapshots => snapshots l' = snapshots l
  | WorkerIds => next_worker l' = next_worker l
  | Sent k => sent k n' = sent k n
  end.

(** The configuration never changes. *)
Definition same_config (l l' : Loop) : Prop :=
  nd_network (lp_node l') = nd_network (lp_node l) /\
  nd_ingress_internal_tx (lp_node l') = nd_ingress_internal_tx (lp_node l) /\
  nd_process_monitor (lp_node l') = nd_process_monitor (lp_node l).

Definition within (ps : list part) (p : part) : bool := existsb (fun q => bool_decide (q = p)) ps.

(** From [l] to [l'] at most the parts [ps] change. *)
Definition modifies (ps : list part) (l l' : Loop) : Prop :=
  same_config l l' /\ forall p, within ps p = false -> agree p l l'.

Lemma agree_refl p l : agree p l l.
Proof. by destruct p. Qed.

Lemma agree_trans p l1 l2 l3 : agree p l1 l2 -> agree p l2 l3 -> agree p l1 l3.
Proof. destruct p; simpl; congruence. Qed.

Lemma modifies_refl ps l : modifies ps l l.
Proof. split; [done|]. intros. apply agree_refl. Qed.

(** A further step within [ps]. *)
Lemma modifies_step ps qs l0 l l' :
  modifies ps l0 l -> modifies qs l l' -> forallb (within ps) qs = true -> modifies ps l0 l'.
Proof.
  intros [(? & ? & ?) A1] [(? & ? & ?) A2] Hq. split; [unfold same_config; split_and!; congruence|].
  intros p Hp. apply (agree_trans p l0 l l'); [by apply A1|]. apply A2.
  destruct (within qs p) eqn:E; [|done]. unfold within in E. apply existsb_exists in E as (q & Hi & Eq).
  apply bool_decide_eq_true in Eq as ->. rewrite forallb_forall in Hq. apply Hq in Hi. congruence.
Qed.

(** The same for the shared state alone. *)
Definition nmodifies (ps : list part) (n n' : Node) : Prop :=
  forall l, modifies ps (set_node n l) (set_node n' l).

Lemma nmodifies_refl ps n : nmodifies ps n n.
Proof. intros l. apply modifies_refl. Qed.

Lemma nmodifies_step ps qs n0 n n' :
  nmodifies ps n0 n -> nmodifies qs n n' -> forallb (within ps) qs = true -> nmodifies ps n0 n'.
Proof. intros A1 A2 Hq l. by eapply modifies_step. Qed.

Lemma set_node_same l : set_node (lp_node l) l = l.
Proof. by destruct l. Qed.

Lemma frame_node ps n l : nmodifies ps (lp_node l) n -> modifies ps l (set_node n l).
Proof. intros Hn. specialize (Hn l). by rewrite set_node_same in Hn. Qed.

Lemma frame_on_node ps f l : nmodifies ps (lp_node l) (f (lp_node l)) -> modifies ps l (on_node f l).
Proof. apply frame_node. Qed.

(** Assignments: the part named changes, the others are the same by
    computation. *)
Ltac assigns :=
  intros; split; [done|intros [] Hp; first [done | by simpl in Hp | idtac]].

Lemma sent_other k e n : kind_of e <> k -> sent k (emit e n) = sent k n.
Proof.
  intros Hk. unfold sent, emit. simpl. rewrite List.filter_app. simpl.
  rewrite bool_decide_false by done. apply app_nil_r.
Qed.

Lemma sent_emit e n : sent (kind_of e) (emit e n) = sent (kind_of e) n ++ [e].
Proof. unfold sent, emit. simpl. rewrite List.filter_app. simpl. by rewrite bool_decide_true. Qed.

Lemma nframe_emit e n : nmodifies [Sent (kind_of e)] n (emit e n).
Proof.
  assigns. apply sent_other. intros <-. unfold within in Hp. simpl in Hp.
  by rewrite bool_decide_true in Hp.
Qed.

Lemma frame_send e l : modifies [Sent (kind_of e)] l (send e l).
Proof. apply frame_on_node, nframe_emit. Qed.

Section assignments.
Context (l : Loop) (n : Node).

Lemma nframe_public_endpoint_override v : nmodifies [PublicEndpoint] n (set_nd_public_endpoint_override v n).
Proof. assigns. Qed.
Lemma nframe_shutdown v : nmodifies [Shutdown] n (set_nd_shutdown v n).
Proof. assigns. Qed.
Lemma nframe_sessions v : nmodifies [Sessions] n (set_nd_sessions v n).
Proof. assigns. Qed.
Lemma nframe_active_target v : nmodifies [ActiveTarget] n (set_nd_active_target v n).
Proof. assigns. Qed.
Lemma nframe_local_sessions v : nmodifies [LocalSessions] n (set_nd_local_sessions v n).
Proof. assigns. Qed.
Lemma nframe_authority_host_sessions v : nmodifies [HostSessions] n (set_nd_authority_host_sessions v n).
Proof. assigns. Qed.
Lemma nframe_remote_sessions v : nmodifies [RemoteSessions] n (set_nd_remote_sessions v n).
Proof. assigns. Qed.
Lemma nframe_client_count v : nmodifies [ClientCount] n (set_nd_client_count v n).
Proof. assigns. Qed.
Lemma nframe_clients v : nmodifies [Clients] n (set_nd_clients v n).
Proof. assigns. Qed.
Lemma nframe_last_client_resize v : nmodifies [ClientSize] n (set_nd_last_client_resize v n).
Proof. assigns. Qed.
Lemma nframe_local_catalog_tx v : nmodifies [Listeners] n (set_nd_local_catalog_tx v n).
Proof. assigns. Qed.
Lemma nframe_remote_node_connections v : nmodifies [Connections] n (set_nd_remote_node_connections v n).
Proof. assigns. Qed.
Lemma nframe_remote_node_auth_rejections v : nmodifies [AuthRejections] n (set_nd_remote_node_auth_rejections v n).
Proof. assigns. Qed.
Lemma nframe_relay_presence v : nmodifies [Presence] n (set_nd_relay_presence v n).
Proof. assigns. Qed.
Lemma nframe_relay_error v : nmodifies [RelayError] n (set_nd_relay_error v n).
Proof. assigns. Qed.
Lemma nframe_relay_client v : nmodifies [RelayClient] n (set_nd_relay_client v n).
Proof. assigns. Qed.
Lemma frame_connected_clients v : modifies [Connected] l (set_connected_clients v l).
Proof. assigns. Qed.
Lemma frame_reconnect_handles v : modifies [ReconnectHandles] l (set_reconnect_handles v l).
Proof. assigns. Qed.
Lemma frame_outbound_dial_retry_handles v : modifies [RetryHandles] l (set_outbound_dial_retry_handles v l).
Proof. assigns. Qed.
Lemma frame_inbound_connect_wait_handles v : modifies [WaitHandles] l (set_inbound_connect_wait_handles v l).
Proof. assigns. Qed.
Lemma frame_peer_reachability_handles v : modifies [ProbeHandles] l (set_peer_reachability_handles v l).
Proof. assigns. Qed.
Lemma frame_last_retry_reset v : modifies [RetryResets] l (set_last_retry_reset v l).
Proof. assigns. Qed.
Lemma frame_connecting_profiles v : modifies [Connecting] l (set_connecting_profiles v l).
Proof. assigns. Qed.
Lemma frame_connect_waiters v : modifies [Waiters] l (set_connect_waiters v l).
Proof. assigns. Qed.
Lemma frame_offline_nodes v : modifies [OfflineNodes] l (set_offline_nodes v l).
Proof. assigns. Qed.
Lemma frame_network_online v : modifies [Network] l (set_network_online v l).
Proof. assigns. Qed.
Lemma frame_output_dirty v : modifies [OutputDirty] l (set_output_dirty v l).
Proof. assigns. Qed.
Lemma frame_snapshots v : modifies [SavedSnapshots] l (set_snapshots v l).
Proof. assigns. Qed.
Lemma frame_next_worker v : modifies [WorkerIds] l (set_next_worker v l).
Proof. assigns. Qed.

End assignments.

Create HintDb frame discriminated.
#[global] Hint Resolve nframe_emit nframe_public_endpoint_override nframe_shutdown nframe_sessions nframe_active_target nframe_local_sessions nframe_authority_host_sessions nframe_remote_sessions nframe_client_count nframe_clients nframe_last_client_resize nframe_local_catalog_tx nframe_remote_node_connections nframe_remote_node_auth_rejections nframe_relay_presence nframe_relay_error nframe_relay_client : frame.
#[global] Hint Resolve frame_send frame_connected_clients frame_reconnect_handles frame_outbound_dial_retry_handles frame_inbound_connect_wait_handles frame_peer_reachability_handles frame_last_retry_reset frame_connecting_profiles frame_connect_waiters frame_offline_nodes frame_network_online frame_output_dirty frame_snapshots frame_next_worker : frame.

(** Steps back from the result, one operation of the database at a time;
    branches on the result are split. *)
Ltac framed1 :=
  match goal with
  | |- nmodifies _ ?n ?n => apply nmodifies_refl
  | |- modifies _ ?l ?l => apply modifies_refl
  | |- _ => assumption
  | |- modifies _ _ (match ?x with _ => _ end) => destruct x
  | |- nmodifies _ _ (match ?x with _ => _ end) => destruct x
  | |- nmodifies _ _ _ => eapply nmodifies_step; cycle 1; [solve [eauto 2 with frame nocore]|reflexivity|]
  | |- modifies _ _ (on_node _ _) => eapply modifies_step; cycle 1; [apply frame_on_node; solve [eauto 2 with frame nocore]|reflexivity|]
  | |- modifies _ _ _ => eapply modifies_step; cycle 1; [solve [eauto 2 with frame nocore]|reflexivity|]
  end.

Ltac framed := intros; repeat framed1.

(** ** The shared state *)

Section node.
Context (env : Env).

Lemma nframe_notify reason n : nmodifies [Listeners; Sent ListenerNotes] n (notify_local_catalog_changed env reason n).
Proof.
  unfold notify_local_catalog_changed. eapply nmodifies_step; cycle 1; [apply nframe_local_catalog_tx|reflexivity|].
  generalize (List.filter (listening env) (nd_local_catalog_tx n)). intros txs.
  assert (Hf : forall m, nmodifies [Listeners; Sent ListenerNotes] n m -> nmodifies [Listeners; Sent ListenerNotes] n
    (foldl (fun n tx => emit (ToCatalogListener tx reason) n) m txs)); [|apply Hf, nmodifies_refl].
  induction txs as [|t txs IH]; intros m Hm; [done|]. apply IH. by framed.
Qed.

#[local] Hint Resolve nframe_notify : frame.

Lemma nframe_alter f t n :
  nmodifies [Sessions; Listeners; Sent ListenerNotes] n
    (notify_local_catalog_changed env LocalRuntimeChanged (set_nd_sessions (alter f t (nd_sessions n)) n)).
Proof. framed. Qed.

Lemma nframe_published r n : nmodifies [Sessions] n (update_remote_session_record r n).
Proof. unfold update_remote_session_record. framed. Qed.

Lemma nframe_record t i n : nmodifies [Connections] n (record_remote_node_connection t i n).
Proof. unfold record_remote_node_connection. framed. Qed.

Lemma nframe_detach n : nmodifies [ClientCount; Clients] n (detach_all_clients n).
Proof. unfold detach_all_clients. framed. Qed.

Lemma nframe_stop_viewer t n : nmodifies [RemoteSessions; Sent StoppedViewers] n (stop_viewer t n).
Proof. unfold stop_viewer. framed. Qed.

#[local] Hint Resolve nframe_stop_viewer : frame.

Definition exit_parts : list part :=
  [Sessions; LocalSessions; HostSessions; RemoteSessions; ActiveTarget; Shutdown; Listeners; Sent MonitorNotes;
   Sent StoppedViewers; Sent Wakes; Sent ListenerNotes].

Lemma nframe_exit t n : nmodifies exit_parts n (handle_session_exit env t n).
Proof.
  unfold handle_session_exit, activate_next, remove_runtime, unregister_from_monitor. framed.
Qed.

Lemma nframe_create_local id cols rows cwd n t n' :
  create_local_session env id cols rows cwd n = Ok (t, n') ->
  nmodifies [Sessions; LocalSessions; ActiveTarget; Listeners; Sent MonitorNotes; Sent ListenerNotes] n n'.
Proof. unfold create_local_session. case_match; [|done]. intros E. simplify_eq. framed. Qed.

Lemma nframe_create_host n id p t n' :
  create_host_record env n = Ok (id, p, t, n') -> nmodifies [Sessions; ActiveTarget] n n'.
Proof. unfold create_host_record. case_match; [|done]. intros E. simplify_eq. framed. Qed.

Lemma nframe_ensure r n n' : ensure_remote_session env r n = Ok n' -> nmodifies [RemoteSessions] n n'.
Proof. unfold ensure_remote_session. repeat case_match; intros; simplify_eq; framed. Qed.

Lemma nframe_feed_remote t b n : nmodifies [RemoteSessions] n (feed_remote_session_input env t b n).
Proof. unfold feed_remote_session_input, alter_remote. framed. Qed.

Lemma nframe_paste_remote t h b n : nmodifies [RemoteSessions] n (feed_remote_session_paste_file env t h b n).
Proof. unfold feed_remote_session_paste_file, alter_remote. framed. Qed.

Lemma nframe_alter_local f t n : nmodifies [LocalSessions] n (alter_local f t n).
Proof. unfold alter_local. framed. Qed.

Lemma nframe_resize_remote cols rows n : nmodifies [RemoteSessions] n (resize_active_remote_session env cols rows n).
Proof. unfold resize_active_remote_session, alter_remote. framed. Qed.

Lemma nframe_resize_local cols rows n : nmodifies [LocalSessions] n (resize_active_local_session cols rows n).
Proof. unfold resize_active_local_session, alter_local. framed. Qed.

Lemma nframe_relay_link pin n :
  nmodifies [RelayClient; Sent IngressNotes] n (start_relay_link env pin (stop_relay_link n)).
Proof. unfold start_relay_link, install_relay_client_handle, stop_relay_link. framed. Qed.

Lemma nframe_install t r n : nmodifies [Sessions] n (install_record t r n).
Proof. unfold install_record. framed. Qed.

Lemma nframe_availability t a n : nmodifies [Sessions] n (set_availability_of env t a n).
Proof. unfold set_availability_of. framed. Qed.

Lemma nframe_offline t n : nmodifies [Sessions] n (mark_offline t n).
Proof. unfold mark_offline. framed. Qed.

End node.

#[global] Hint Resolve nframe_notify nframe_alter nframe_published nframe_record nframe_detach nframe_stop_viewer nframe_exit nframe_feed_remote
  nframe_paste_remote nframe_alter_local nframe_resize_remote nframe_resize_local nframe_relay_link nframe_install
  nframe_availability nframe_offline : frame.

(** ** The handlers *)

Section handlers.
Context (env : Env) `{RustText} `{JsonValue}.

Lemma frame_reply c o l : modifies [Sent Answers] l (reply c o l).
Proof. unfold reply, write_to. framed. Qed.

Lemma frame_write c m l : modifies [Sent Answers] l (write_to c m l).
Proof. unfold write_to. framed. Qed.

Lemma frame_broadcast l : modifies [Sent Broadcasts] l (broadcast_snapshot env l).
Proof. unfold broadcast_snapshot. framed. Qed.

Lemma frame_upsert p t l : modifies [SavedSnapshots] l (snapshot_upsert env p t l).
Proof. unfold snapshot_upsert, save_snapshots. framed. Qed.

Lemma frame_remove t l : modifies [SavedSnapshots] l (snapshot_remove env t l).
Proof. unfold snapshot_remove, save_snapshots. framed. Qed.

Lemma frame_cancel_reconnect t l : modifies [ReconnectHandles; Sent Workers] l (cancel_reconnect t l).
Proof. unfold cancel_reconnect. framed. Qed.

Lemma frame_cancel_retry t l : modifies [RetryHandles; Sent Workers] l (cancel_retry t l).
Proof. unfold cancel_retry. framed. Qed.

Lemma frame_cancel_wait t l : modifies [WaitHandles; Sent Workers] l (cancel_wait t l).
Proof. unfold cancel_wait. framed. Qed.

Lemma frame_cancel_probe t l : modifies [ProbeHandles; Sent Workers] l (cancel_probe t l).
Proof. unfold cancel_probe. framed. Qed.

Lemma frame_start_retry t i l : modifies [RetryHandles; WorkerIds; Sent Workers] l (start_retry t i l).
Proof. unfold start_retry, start_worker. framed. Qed.

Lemma frame_start_probe t i l : modifies [ProbeHandles; WorkerIds; Sent Workers] l (start_probe t i l).
Proof. unfold start_probe, start_worker. framed. Qed.

Lemma frame_start_wait t i l : modifies [WaitHandles; WorkerIds; Sent Workers] l (start_wait t i l).
Proof. unfold start_wait, start_worker. framed. Qed.

Lemma frame_vacant_retry h m t l :
  modifies [RetryHandles; WorkerIds; Sent Workers] l (when_vacant h m start_retry t l).
Proof. unfold when_vacant. repeat case_match; try apply modifies_refl. apply frame_start_retry. Qed.

Lemma frame_vacant_probe h m t l :
  modifies [ProbeHandles; WorkerIds; Sent Workers] l (when_vacant h m start_probe t l).
Proof. unfold when_vacant. repeat case_match; try apply modifies_refl. apply frame_start_probe. Qed.

Lemma frame_vacant_wait h m t l :
  modifies [WaitHandles; WorkerIds; Sent Workers] l (when_vacant h m start_wait t l).
Proof. unfold when_vacant. repeat case_match; try apply modifies_refl. apply frame_start_wait. Qed.

Lemma frame_close_ingress t l : modifies [Sent IngressNotes] l (close_ingress_sessions_for_node t l).
Proof. unfold close_ingress_sessions_for_node. framed. Qed.

Lemma frame_leave_console t l : modifies [Sent HostRequests] l (leave_console t l).
Proof. unfold leave_console. framed. Qed.

Lemma frame_fold {A} ps (f : Loop -> A -> Loop) xs l0 l :
  (forall l a, modifies ps l (f l a)) -> modifies ps l0 l -> modifies ps l0 (foldl f l xs).
Proof.
  intros Hf. revert l. induction xs as [|x xs IH]; intros l Hl; [done|]. apply IH.
  eapply modifies_step; [exact Hl|apply Hf|]. apply forallb_forall. intros p Hp. unfold within.
  apply existsb_exists. exists p. by rewrite bool_decide_true.
Qed.

Lemma frame_reply_all cs o l : modifies [Sent Answers] l (reply_all cs o l).
Proof. apply frame_fold; [intros; apply frame_reply|apply modifies_refl]. Qed.

Lemma frame_resize_to_client l : modifies [RemoteSessions] l (resize_to_client env l).
Proof. unfold resize_to_client. framed. Qed.

End handlers.

#[global] Hint Resolve frame_reply frame_write frame_broadcast frame_upsert frame_remove frame_cancel_reconnect frame_cancel_retry
  frame_cancel_wait frame_cancel_probe frame_start_retry frame_start_probe frame_start_wait frame_vacant_retry
  frame_vacant_probe frame_vacant_wait frame_close_ingress
  frame_leave_console frame_reply_all frame_resize_to_client : frame.

(** ** Footprints *)

Definition connect_parts : list part :=
  [Connecting; Waiters; OfflineNodes; Connections; Sessions; RemoteSessions; ActiveTarget; SavedSnapshots; Sent Jobs;
   Sent Answers].

Definition command_footprint (cmd : Cmd.ClientCommand) : list part :=
  Sent Answers ::
  match cmd with
  | Cmd.Attach | Cmd.Status | Cmd.ListSessions | Cmd.GetHistory _ => []
  | Cmd.Stop => [Shutdown; Sent Wakes]
  | Cmd.CreateLocalSession _ =>
      [Sessions; LocalSessions; ActiveTarget; Listeners; Sent MonitorNotes; Sent ListenerNotes; Sent CatalogNotes;
       Sent Broadcasts]
  | Cmd.ActivateTarget _ => [RemoteSessions; ActiveTarget; Sent HostRequests; Sent Broadcasts]
  | Cmd.ConnectRemoteHost _ => [Connecting; Waiters; Sent Jobs]
  | Cmd.DetachAll => [ClientCount; Clients; Sent Registrations]
  | Cmd.Resize _ _ => [ClientSize; RemoteSessions; LocalSessions; Sent HostRequests; Sent Broadcasts]
  | Cmd.Input _ _ | Cmd.PasteText _ _ | Cmd.PasteFile _ _ _ => [RemoteSessions; LocalSessions; Sent HostRequests]
  | Cmd.SetPublic _ _ => [PublicEndpoint; Sent StoredSettings; Sent Broadcasts]
  | Cmd.CreateRemoteSession _ _ | Cmd.E2eRelayProbe _ _ _ | Cmd.RelayJoin _ _ _ _ | Cmd.RelayRemove => [Sent Jobs]
  | Cmd.CloseSession _ => ReconnectHandles :: Sent Workers :: Sent Broadcasts :: exit_parts
  end.

Definition footprint `{JsonValue} (e : Ev.StateEvent) : list part :=
  match e with
  | Ev.LocalSessionChildExit _ | Ev.AuthorityHostSessionChildExited _ | Ev.AuthorityHostSessionPtyClosed _ =>
      Sent HostRequests :: Sent CatalogNotes :: Sent Broadcasts :: exit_parts
  | Ev.LocalSessionTitleChanged _ _ => [Sent Broadcasts]
  | Ev.SessionTaskStateChanged _ _ | Ev.SessionCommandNameChanged _ _ | Ev.SessionCommandNameCleared _
  | Ev.AgentSignalReceived _ _ _ _ => [Sessions; Listeners; Sent ListenerNotes; Sent Broadcasts]
  | Ev.LocalSessionOutput _ | Ev.RemoteSessionOutput _ => [OutputDirty]
  | Ev.ClientConnected _ => [Connected; ClientCount; Sent Broadcasts]
  | Ev.ClientDisconnected _ => [Connected; ClientCount; Sent Registrations; Sent HostRequests; Sent Broadcasts]
  | Ev.ClientCommand _ cmd => command_footprint cmd
  | Ev.RemoteHostConnectResult _ _ _ _ _ | Ev.SnapshotHostReconnectResult _ _ _ => connect_parts
  | Ev.RemoteHostRelayJoinRequested _ _ _ => [Sent Jobs]
  | Ev.RemoteSessionCreateResult _ _ _ => [Sessions; RemoteSessions; ActiveTarget; Sent Broadcasts; Sent Answers]
  | Ev.E2eRelayProbeResult _ _ => [Sent Answers]
  | Ev.RelayJoinResult _ _ _ => [RelayClient; RelayError; Sent IngressNotes; Sent Broadcasts; Sent Answers]
  | Ev.RelayRemoveResult _ _ => [RelayClient; RelayError; Presence; Sent Broadcasts; Sent Answers]
  | Ev.CreateAuthorityHostSession _ _ _ =>
      [Sessions; ActiveTarget; HostSessions; Sent HostRequests; Sent CreateReplies; Sent CatalogNotes; Sent Broadcasts]
  | Ev.FlushOutputBroadcast => [OutputDirty; Sent Broadcasts]
  | Ev.RemoteSessionDisconnected _ =>
      [Sessions; RemoteSessions; ReconnectHandles; RetryHandles; WorkerIds; Sent Workers; Sent StoppedViewers;
       Sent Broadcasts]
  | Ev.RemoteSessionReconnected _ _ => [Sessions; RemoteSessions; ReconnectHandles; Sent Broadcasts]
  | Ev.RemoteSessionCatalogUpdated _ => [Sessions; Sent Broadcasts]
  | Ev.SessionClosed _ =>
      ReconnectHandles :: RetryHandles :: Sent Workers :: SavedSnapshots :: Sent Broadcasts :: exit_parts
  | Ev.RemoteNodeOffline _ =>
      [OfflineNodes; ReconnectHandles; RetryHandles; WaitHandles; ProbeHandles; WorkerIds; Sent Workers; Sessions;
       Sent IngressNotes; Sent Broadcasts]
  | Ev.RemoteNodeOnline _ =>
      [OfflineNodes; AuthRejections; RetryHandles; WaitHandles; ProbeHandles; RetryResets; Sent Workers]
  | Ev.RemoteNodeAuthRejected _ _ => [AuthRejections]
  | Ev.RemoteNodeReachable _ => [RetryResets; RetryHandles; WorkerIds; Sent Workers; Sent IngressNotes]
  | Ev.RemoteNodeReconnectFailed _ =>
      ReconnectHandles :: RetryHandles :: WaitHandles :: Sent Workers :: Sent IngressNotes :: Sent Broadcasts :: exit_parts
  | Ev.RecordRemoteNodeConnection _ _ => [Connections]
  | Ev.NetworkConnectivityChanged _ =>
      [Network; RetryHandles; WorkerIds; Sent Workers; Sent IngressNotes; Sent SnapshotRounds]
  | Ev.RelayLinkConnected _ | Ev.RelayLinkDisconnected _ _ => []
  | Ev.RelayLinkError _ _ => [RelayError; Sent Broadcasts]
  | Ev.RelayPeerOnline _ | Ev.RelayPeerOffline _ => [Presence; Sent Broadcasts]
  | Ev.ReconnectSnapshotHosts => [Connecting; Sent Jobs]
  end.

Section events.
Context (env : Env) `{RustText} `{JsonValue}.

Lemma frame_exit_event t l :
  modifies (Sent HostRequests :: Sent CatalogNotes :: Sent Broadcasts :: exit_parts) l
    (handle_local_session_child_exit env t l).
Proof. unfold handle_local_session_child_exit. framed. Qed.

Lemma frame_host_exit t l :
  modifies (Sent HostRequests :: Sent CatalogNotes :: Sent Broadcasts :: exit_parts) l
    (handle_authority_host_session_exit env t l).
Proof. unfold handle_authority_host_session_exit. framed. Qed.

Lemma frame_create_host cols rows l :
  modifies [Sessions; ActiveTarget; HostSessions; Sent HostRequests] l
    (create_authority_host_session env cols rows l).2.
Proof.
  unfold create_authority_host_session.
  destruct (create_host_record env (lp_node l)) as [[[[id p] t] n]|] eqn:E; [|apply modifies_refl].
  apply nframe_create_host, frame_node in E. case_match; simpl; framed; by eapply modifies_step; [apply modifies_refl|..].
Qed.

Lemma frame_host_session rid cols rows l :
  modifies (footprint (Ev.CreateAuthorityHostSession rid cols rows)) l
    (handle_create_authority_host_session env rid cols rows l).
Proof.
  unfold handle_create_authority_host_session.
  pose proof (frame_create_host cols rows l) as E.
  destruct (create_authority_host_session env cols rows l) as [r l']. simpl in E.
  framed; by eapply modifies_step; [apply modifies_refl|exact E|].
Qed.

Lemma frame_activate t l :
  modifies [RemoteSessions; ActiveTarget; Sent HostRequests] l (activate_target env t l).2.
Proof.
  unfold activate_target. destruct (find_target env t (nd_sessions (lp_node l))) as [r|]; [|apply modifies_refl].
  destruct (if is_remote r then ensure_remote_session env r (lp_node l) else Ok (lp_node l)) as [n|] eqn:E;
    [|apply modifies_refl].
  assert (En : modifies [RemoteSessions; ActiveTarget; Sent HostRequests] l (set_node n l)).
  { apply frame_node. destruct (is_remote r); [|simplify_eq; apply nmodifies_refl].
    apply nframe_ensure in E. by eapply nmodifies_step; [apply nmodifies_refl|exact E|]. }
  destruct (client_size _) as [cols rows]. simpl. framed.
Qed.

Lemma frame_apply_connect p a o l :
  modifies connect_parts l (apply_remote_host_connect_outcome env p a o l).2.
Proof.
  unfold apply_remote_host_connect_outcome.
  set (l1 := match co_connection_info o with Some _ => _ | None => _ end).
  assert (E1 : modifies connect_parts l (on_node (install_record (co_target_id o) (co_created_target o)) l1))
    by (subst l1; framed).
  destruct (ensure_remote_session _ _ _) as [n|] eqn:E; simpl; [|done].
  apply nframe_ensure, frame_node in E.
  assert (E2 : modifies connect_parts l (set_node n (on_node (install_record (co_target_id o) (co_created_target o)) l1)))
    by (by eapply modifies_step). framed.
Qed.

Lemma frame_apply_created r l :
  modifies [Sessions; RemoteSessions; ActiveTarget] l (apply_created_remote_session env r l).2.
Proof.
  unfold apply_created_remote_session. destruct (ensure_remote_session _ _ _) as [n|] eqn:E; simpl; [|framed].
  apply nframe_ensure, frame_node in E.
  assert (E2 : modifies [Sessions; RemoteSessions; ActiveTarget] l
    (set_node n (on_node (install_record (qualified_target (address r)) r) l)))
    by (eapply modifies_step; [|exact E|done]; framed). framed.
Qed.

Lemma frame_paste_file t h b l :
  modifies [RemoteSessions; LocalSessions; Sent HostRequests] l (handle_paste_file env t h b l).2.
Proof. unfold handle_paste_file. repeat case_match; simpl; framed. Qed.

Lemma frame_create_local cwd l :
  modifies (command_footprint (Cmd.CreateLocalSession cwd)) l (handle_create_local_session env cwd l).2.
Proof.
  unfold handle_create_local_session. destruct (create_local_session _ _ _ _ _ _) as [[t n]|] eqn:E; [|apply modifies_refl].
  apply nframe_create_local, frame_node in E. simpl. framed; by eapply modifies_step; [apply modifies_refl|exact E|].
Qed.

Lemma frame_connect c p l :
  modifies [Connecting; Waiters; Sent Jobs] l (connect_remote_host_target c p l).2.
Proof. unfold connect_remote_host_target. repeat case_match; simpl; framed. Qed.

Lemma frame_reset t l :
  modifies [RetryHandles; WorkerIds; Sent Workers; Sent IngressNotes] l (reset_outbound_dial_retry_worker t l).
Proof. unfold reset_outbound_dial_retry_worker. framed. Qed.

(** [let '(a, l) := r in k a l] where [r] stays within [ps]. *)
Lemma frame_let {A} ps qs l0 l (r : A * Loop) (k : A -> Loop -> Loop) :
  modifies ps l0 l -> modifies qs l r.2 -> forallb (within ps) qs = true ->
  (forall a l', modifies ps l0 l' -> modifies ps l0 (k a l')) -> modifies ps l0 (let '(a, l') := r in k a l').
Proof. intros Hl Hr Hq Hk. destruct r as [a l']. apply Hk. by eapply modifies_step. Qed.

Lemma frame_immediate cmd l :
  modifies (command_footprint cmd) l (handle_client_command env cmd l).2.
Proof.
  destruct cmd; simpl; try apply modifies_refl.
  - unfold send. framed.
  - apply frame_create_local.
  - pose proof (frame_activate target_id l) as E. destruct (activate_target env target_id l) as [[] l']; simpl in *;
      framed; by eapply modifies_step; [apply modifies_refl|exact E|].
  - eapply modifies_step; [apply modifies_refl|apply frame_connect|done].
  - unfold handle_detach_all. apply frame_fold; framed.
  - unfold handle_resize. framed.
  - unfold route_input. framed.
  - unfold route_paste_text. framed.
  - eapply modifies_step; [apply modifies_refl|apply frame_paste_file|done].
  - framed.
Qed.

Lemma frame_command c cmd l : modifies (command_footprint cmd) l (handle_client_command_event env c cmd l).
Proof.
  assert (R : modifies (command_footprint cmd) l
    (let '(outcome, l') := handle_client_command env cmd l in reply c outcome l')).
  { pose proof (frame_immediate cmd l) as E. destruct (handle_client_command env cmd l) as [o l']. simpl in E.
    eapply modifies_step; [exact E|apply frame_reply|done]. }
  destruct cmd; try exact R; clear R; simpl; unfold run_relay_join; try solve [framed].
  pose proof (frame_connect c profile_name l) as E. destruct (connect_remote_host_target c profile_name l) as [[] l'];
    simpl in *; framed; by eapply modifies_step; [apply modifies_refl|exact E|].
Qed.

Lemma frame_connect_result c p r a j l :
  modifies connect_parts l (handle_remote_host_connect_result env c p r a j l).
Proof.
  unfold handle_remote_host_connect_result, finish_connect. cbv beta iota zeta.
  eapply (frame_let _ connect_parts l l); [apply modifies_refl| |done|].
  - destruct r as [o|m]; simpl; [|framed]. eapply modifies_step; cycle 1; [apply frame_apply_connect|done|].
    unfold run_relay_join. framed.
  - intros o l' Hl. eapply modifies_step; [exact Hl|apply frame_reply_all|done].
Qed.

Lemma frame_snapshot_result p t r l : modifies connect_parts l (handle_snapshot_reconnect_result env p t r l).
Proof.
  unfold handle_snapshot_reconnect_result. simpl. destruct r as [o|m]; [|framed].
  eapply (frame_let _ connect_parts l l); [apply modifies_refl| |done|intros; framed].
  eapply modifies_step; cycle 1; [apply frame_apply_connect|done|]. unfold run_relay_join. framed.
Qed.

(** No event changes a part outside its footprint. *)
Lemma event_frame e l : modifies (footprint e) l (handle_event env e l).
Proof.
  destruct e; simpl; try solve [framed].
  - apply frame_command.
  - apply frame_host_session.
  - unfold handle_remote_session_disconnected, start_worker. framed.
  - unfold handle_session_closed. framed.
  - case_bool_decide; [apply modifies_refl|]. unfold handle_remote_node_offline. framed. apply frame_fold; framed.
  - unfold handle_remote_node_reconnect_failed. framed. apply frame_fold; framed.
  - unfold handle_network_connectivity_changed. framed. apply frame_fold; [|framed].
    intros. repeat case_match; try apply modifies_refl.
    by eapply modifies_step; [apply modifies_refl|apply frame_reset|].
  - unfold handle_remote_node_reachable. case_match; [|apply modifies_refl].
    eapply modifies_step; cycle 1; [apply frame_reset|done|framed].
  - unfold reconnect_snapshot_hosts. case_match; [|apply modifies_refl]. apply frame_fold; [|framed].
    intros. unfold reconnect_entry. framed.
  - apply frame_snapshot_result.
  - apply frame_connect_result.
  - unfold handle_remote_session_create_result. eapply (frame_let _ [Sessions; RemoteSessions; ActiveTarget] l l);
      [apply modifies_refl| |done|intros; framed]. destruct r; [apply frame_apply_created|apply modifies_refl].
  - unfold handle_relay_join_result. eapply (frame_let _ [RelayClient; RelayError; Sent IngressNotes; Sent Broadcasts] l l);
      [apply modifies_refl| |done|intros; framed]. destruct r; simpl; framed.
  - unfold handle_relay_remove_result, stop_relay_link.
    eapply (frame_let _ [RelayClient; RelayError; Presence; Sent Broadcasts] l l);
      [apply modifies_refl| |done|intros; framed]. destruct r; simpl; framed. apply frame_on_node. framed.
Qed.

End events.
