(* ===== verification/NodeInvariant.v ===== *)
(** * Node invariant: the catalog of sessions and the workers

    Invariants of the state loop, for all events and in any order: the
    catalog is keyed by the addresses of its records, the active session is in
    it, new sessions get unused names, and at most one worker of a kind runs
    for a node or session. *)

From S2P Require Import Prelude Bytes Text Utf8 Str SessionCatalog AgentDetector RemoteSession HostIo NodeTypes NodeState StateLoop.
From stdpp Require Import pretty.

#[local] Open Scope Z_scope.

(** ** The catalog *)

Definition address_ok (a : ManagedSessionAddress) : Prop :=
  address_id a = for_transport (address_transport a) (authority_id a) (session_id a).

Definition keyed (m : gmap string ManagedSessionRecord) : Prop :=
  map_Forall (fun k r => qualified_target (address r) = k /\ address_ok (address r)) m.

Definition active_known (n : Node) : Prop :=
  forall t, nd_active_target n = Some t -> is_Some (nd_sessions n !! t).

Definition catalog_ok (n : Node) : Prop := keyed (nd_sessions n) /\ active_known n.

(** Records that come from outside have proper addresses; the outcome of a
    connect names its record by its address. *)
Definition event_ok `{JsonValue} (e : Ev.StateEvent) : Prop :=
  match e with
  | Ev.RemoteSessionCatalogUpdated r => address_ok (address r)
  | Ev.RemoteSessionCreateResult _ _ (Ok r) => address_ok (address r)
  | Ev.RemoteHostConnectResult _ _ (Ok o) _ _ | Ev.SnapshotHostReconnectResult _ _ (Ok o) =>
      address_ok (address (co_created_target o)) /\
      co_target_id o = qualified_target (address (co_created_target o))
  | _ => True
  end.

(** Two addresses with the same id have the same target. *)
Lemma same_id_target a b : address_ok a -> address_ok b -> address_id a = address_id b ->
  qualified_target a = qualified_target b.
Proof.
  unfold address_ok, for_transport, qualified_target. intros -> -> E.
  destruct (address_transport a), (address_transport b); simpl in E; simplify_eq/=; done.
Qed.

Section node.
Context (env : Env) `{!EnvOk env}.

Lemma elem_of_values {A} (m : gmap string A) a : a ∈ values env m <-> exists k, m !! k = Some a.
Proof.
  unfold values. rewrite shuffle_perm, list_elem_of_fmap. split.
  - intros ([k b] & -> & Hk). apply elem_of_map_to_list in Hk. eauto.
  - intros [k Hk]. exists (k, a). by rewrite elem_of_map_to_list.
Qed.

Lemma find_Some_in {A} (f : A -> bool) l a : List.find f l = Some a -> a ∈ l /\ f a = true.
Proof. intros E. apply List.find_some in E as [Hi Hf]. by rewrite list_elem_of_In. Qed.

Lemma find_target_keyed t m r : keyed m -> find_target env t m = Some r -> m !! t = Some r.
Proof.
  intros Hk E. apply find_Some_in in E as [Hi Ht]. apply bool_decide_eq_true in Ht.
  apply elem_of_values in Hi as [k Hi]. by destruct (Hk k r Hi) as [<- _]; subst.
Qed.

(** In a keyed catalog, looking a target up by its address or by its key is
    the same. *)
Lemma find_target_lookup t m : keyed m -> find_target env t m = m !! t.
Proof.
  intros Hk. destruct (find_target env t m) as [r|] eqn:E; [symmetry; by apply find_target_keyed|].
  destruct (m !! t) as [r|] eqn:Et; [|done]. exfalso.
  unfold find_target in E. apply List.find_none with (x := r) in E.
  - rewrite bool_decide_eq_false in E. by destruct (Hk t r Et).
  - apply list_elem_of_In, elem_of_values. eauto.
Qed.

Lemma notify_sessions reason n : nd_sessions (notify_local_catalog_changed env reason n) = nd_sessions n /\
  nd_active_target (notify_local_catalog_changed env reason n) = nd_active_target n /\
  nd_shutdown (notify_local_catalog_changed env reason n) = nd_shutdown n.
Proof.
  unfold notify_local_catalog_changed. simpl. generalize (List.filter (listening env) (nd_local_catalog_tx n)).
  intros txs. revert n. induction txs as [|t txs IH]; intros n; simpl; [done|].
  by destruct (IH (emit (ToCatalogListener t reason) n)) as (-> & -> & ->).
Qed.

Lemma catalog_ok_same n n' : nd_sessions n' = nd_sessions n -> nd_active_target n' = nd_active_target n ->
  catalog_ok n -> catalog_ok n'.
Proof. unfold catalog_ok, active_known. intros -> ->. done. Qed.

Lemma catalog_ok_notify reason n : catalog_ok n -> catalog_ok (notify_local_catalog_changed env reason n).
Proof. destruct (notify_sessions reason n) as (? & ? & ?). by apply catalog_ok_same. Qed.

(** Changing the other fields of a record keeps the catalog. *)
Lemma catalog_ok_alter f t n : (forall r, address (f r) = address r) ->
  catalog_ok n -> catalog_ok (set_nd_sessions (alter f t (nd_sessions n)) n).
Proof.
  intros Hf [Hk Ha]. split.
  - intros k r E. simpl in E. rewrite lookup_alter_Some in E.
    destruct E as [(-> & r0 & E & ->)|[_ E]]; [rewrite Hf|]; by apply (Hk _ _ E).
  - intros t' Ht. simpl in *. rewrite lookup_alter_is_Some. by apply Ha.
Qed.

Lemma catalog_ok_insert t r n :
  qualified_target (address r) = t -> address_ok (address r) -> catalog_ok n ->
  catalog_ok (set_nd_sessions (<[t := r]> (nd_sessions n)) n).
Proof.
  intros Ht Ho [Hk Ha]. split.
  - apply map_Forall_insert_2; done.
  - intros t' E. simpl in *. apply lookup_insert_is_Some'. right. by apply Ha.
Qed.

Lemma catalog_ok_activate t n : is_Some (nd_sessions n !! t) -> catalog_ok n ->
  catalog_ok (set_nd_active_target (Some t) n).
Proof. intros Hs [Hk Ha]. split; [done|]. intros t' [= <-]. done. Qed.

Lemma remaining_known n t : keyed (nd_sessions n) -> t ∈ remaining_local env n ->
  exists r, nd_sessions n !! t = Some r /\ is_local r = true /\ availability r = Online.
Proof.
  intros Hk Ht. apply list_elem_of_In, in_map_iff in Ht as (r & <- & Hr).
  apply filter_In in Hr as [Hi Hr]. apply list_elem_of_In, elem_of_values in Hi as [k Hi].
  apply andb_true_iff in Hr as [Hl Ho]. apply bool_decide_eq_true in Ho.
  exists r. destruct (Hk k r Hi) as [-> _]. done.
Qed.

Lemma activate_next_spec t n :
  (remaining_local env n = [] /\ nd_active_target (activate_next env t n) = None /\
   nd_shutdown (activate_next env t n) = true) \/
  (exists next, nd_active_target (activate_next env t n) = Some next /\ next ∈ remaining_local env n /\
   nd_shutdown (activate_next env t n) = nd_shutdown n).
Proof.
  unfold activate_next. destruct (remaining_local env n) as [|first rest] eqn:E; [by left|right].
  eexists. split; [reflexivity|]. split; [|done]. rewrite <-E.
  destruct (List.find (fun t' => negb (bool_decide (t' = t))) (remaining_local env n)) as [x|] eqn:Ef.
  - by apply find_Some_in in Ef as [Hx _].
  - rewrite E. simpl. by left.
Qed.

Lemma remove_runtime_catalog b t n : nd_sessions (remove_runtime b t n) = nd_sessions n /\
  nd_active_target (remove_runtime b t n) = nd_active_target n /\
  nd_shutdown (remove_runtime b t n) = nd_shutdown n.
Proof. unfold remove_runtime, stop_viewer. by repeat case_match. Qed.

(** What the end of a session does to the catalog. *)
Lemma session_exit_catalog t n :
  nd_sessions (handle_session_exit env t n) = delete t (nd_sessions n).
Proof.
  unfold handle_session_exit. rewrite (proj1 (notify_sessions _ _)).
  assert (Ha : forall m, nd_sessions (activate_next env t m) = nd_sessions m)
    by (intros; unfold activate_next; by case_match).
  rewrite Ha, (proj1 (remove_runtime_catalog _ _ _)). simpl.
  unfold unregister_from_monitor. by case_match.
Qed.

Lemma catalog_ok_exit t n : keyed (nd_sessions n) -> catalog_ok (handle_session_exit env t n).
Proof.
  intros Hk. split; [rewrite session_exit_catalog; by apply map_Forall_delete|].
  unfold handle_session_exit, active_known. intros t'.
  destruct (notify_sessions (LocalTargetExited t) (activate_next env t (remove_runtime
    match nd_sessions (unregister_from_monitor t n) !! t with Some r => is_local r | None => false end t
    (set_nd_sessions (delete t (nd_sessions (unregister_from_monitor t n))) (unregister_from_monitor t n)))))
    as (-> & -> & _).
  set (m := remove_runtime _ _ _).
  assert (Hm : nd_sessions m = delete t (nd_sessions n)).
  { subst m. rewrite (proj1 (remove_runtime_catalog _ _ _)). simpl. unfold unregister_from_monitor.
    by case_match. }
  assert (Ha : nd_sessions (activate_next env t m) = nd_sessions m)
    by (unfold activate_next; by case_match).
  destruct (activate_next_spec t m) as [(_ & -> & _)|(next & -> & Hn & _)]; [done|].
  intros [= <-]. rewrite Ha. apply remaining_known in Hn as (r & Hr & _); [eauto|].
  rewrite Hm. by apply map_Forall_delete.
Qed.

End node.

Lemma resize_remote_catalog env cols rows n :
  nd_sessions (resize_active_remote_session env cols rows n) = nd_sessions n /\
  nd_active_target (resize_active_remote_session env cols rows n) = nd_active_target n.
Proof. unfold resize_active_remote_session. destruct (nd_active_target n) eqn:E; by rewrite ?E. Qed.

Lemma resize_local_catalog cols rows n :
  nd_sessions (resize_active_local_session cols rows n) = nd_sessions n /\
  nd_active_target (resize_active_local_session cols rows n) = nd_active_target n.
Proof. unfold resize_active_local_session. destruct (nd_active_target n) eqn:E; by rewrite ?E. Qed.

(** ** The loop keeps the catalog *)

Definition ok (l : Loop) : Prop := catalog_ok (lp_node l).

(** An operation that leaves the catalog alone. *)
Definition cat (l : Loop) : gmap string ManagedSessionRecord * option string :=
  (nd_sessions (lp_node l), nd_active_target (lp_node l)).

Lemma ok_cat l l' : cat l' = cat l -> ok l -> ok l'.
Proof. intros [= E1 E2]. by apply catalog_ok_same. Qed.

Lemma cat_fold {A} (f : Loop -> A -> Loop) xs l : (forall l a, cat (f l a) = cat l) -> cat (foldl f l xs) = cat l.
Proof. intros Hf. revert l. induction xs as [|x xs IH]; intros l; simpl; [done|]. by rewrite IH, Hf. Qed.

Section loop.
Context (env : Env) `{!EnvOk env} `{RustText} `{JsonValue}.

Lemma cat_broadcast l : cat (broadcast_snapshot env l) = cat l.
Proof. unfold broadcast_snapshot. by case_match. Qed.

Lemma cat_cancel_reconnect t l : cat (cancel_reconnect t l) = cat l.
Proof. unfold cancel_reconnect. by case_match. Qed.

Lemma cat_cancel_retry t l : cat (cancel_retry t l) = cat l.
Proof. unfold cancel_retry. by case_match. Qed.

Lemma cat_close_ingress t l : cat (close_ingress_sessions_for_node t l) = cat l.
Proof. unfold close_ingress_sessions_for_node. by case_match. Qed.

Lemma cat_start_retry t i l : cat (start_retry t i l) = cat l.
Proof. unfold start_retry. by case_match. Qed.

Lemma cat_reset t l : cat (reset_outbound_dial_retry_worker t l) = cat l.
Proof.
  unfold reset_outbound_dial_retry_worker. repeat case_match; [done| |done].
  by rewrite cat_start_retry, cat_close_ingress, cat_cancel_retry.
Qed.

Lemma cat_resize_to_client l : cat (resize_to_client env l) = cat l.
Proof.
  unfold resize_to_client, cat. destruct (client_size _). simpl.
  by destruct (resize_remote_catalog env z z0 (lp_node l)) as [-> ->].
Qed.

Lemma cat_upsert p t l : cat (snapshot_upsert env p t l) = cat l.
Proof. unfold snapshot_upsert. by case_match. Qed.

Lemma cat_remove t l : cat (snapshot_remove env t l) = cat l.
Proof. unfold snapshot_remove. by repeat case_match. Qed.

Lemma cat_leave t l : cat (leave_console t l) = cat l.
Proof. unfold leave_console. by case_match. Qed.

Lemma cat_reply_all cs o l : cat (reply_all cs o l) = cat l.
Proof. unfold reply_all. by apply cat_fold. Qed.

Lemma cat_ensure r n n' : ensure_remote_session env r n = Ok n' ->
  nd_sessions n' = nd_sessions n /\ nd_active_target n' = nd_active_target n.
Proof. unfold ensure_remote_session. repeat case_match; intros; by simplify_eq. Qed.

Lemma ok_exit t l : ok l -> ok (on_node (handle_session_exit env t) l).
Proof. intros [Hk _]. by apply catalog_ok_exit. Qed.

Lemma ok_alter f t l : (forall r, address (f r) = address r) -> ok l ->
  ok (on_node (fun n => notify_local_catalog_changed env LocalRuntimeChanged
                          (set_nd_sessions (alter f t (nd_sessions n)) n)) l).
Proof. intros Hf Hok. by apply catalog_ok_notify, catalog_ok_alter. Qed.

Lemma address_named name r : address (name_record name r) = address r.
Proof. done. Qed.

Lemma ok_create_local id cols rows cwd n t n' : catalog_ok n ->
  create_local_session env id cols rows cwd n = Ok (t, n') -> catalog_ok n'.
Proof.
  intros Hok. unfold create_local_session. case_match; [|done]. intros E. simplify_eq.
  apply catalog_ok_notify, catalog_ok_activate; [simpl; rewrite lookup_insert_eq; eauto|].
  apply (catalog_ok_insert _ _ (set_nd_local_sessions _ _)); [done..|]. simpl. by case_match.
Qed.

Lemma ok_create_host n id p t n' : catalog_ok n -> create_host_record env n = Ok (id, p, t, n') -> catalog_ok n'.
Proof.
  intros Hok. unfold create_host_record. case_match; [|done]. intros E. simplify_eq.
  apply catalog_ok_activate; [simpl; rewrite lookup_insert_eq; eauto|]. by apply catalog_ok_insert.
Qed.

Lemma ok_install t r n : qualified_target (address r) = t -> address_ok (address r) -> catalog_ok n ->
  catalog_ok (install_record t r n).
Proof.
  intros Ht Ho [Hk Ha]. split.
  - apply map_Forall_insert_2; [done|]. intros k x E. apply map_lookup_filter_Some in E as [E _].
    by apply (Hk k x).
  - intros t' E. simpl. apply lookup_insert_is_Some. destruct (decide (t = t')) as [|Hn]; [by left|right].
    split; [done|]. destruct (Ha t' E) as [x Hx]. exists x. apply map_lookup_filter_Some. split; [done|].
    simpl. intros Eid. apply Hn. destruct (Hk t' x Hx) as [<- Hox]. rewrite <-Ht. symmetry. by apply same_id_target.
Qed.

Lemma install_lookup t r n : nd_sessions (install_record t r n) !! t = Some r.
Proof. apply lookup_insert_eq. Qed.

Lemma ok_published r n : address_ok (address r) -> catalog_ok n -> catalog_ok (update_remote_session_record r n).
Proof.
  intros Ho Hok. unfold update_remote_session_record. case_match; [done|].
  case_match; apply catalog_ok_insert; try done; simpl; destruct Hok as [Hk _];
    by match goal with E : nd_sessions _ !! _ = Some _ |- _ => destruct (Hk _ _ E) end.
Qed.

Lemma ok_availability t a n : catalog_ok n -> catalog_ok (set_availability_of env t a n).
Proof. intros Hok. unfold set_availability_of. repeat case_match; try done. by apply catalog_ok_alter. Qed.

Lemma ok_mark_offline node n : catalog_ok n -> catalog_ok (mark_offline node n).
Proof.
  intros [Hk Ha]. split.
  - intros k r E. simpl in E. rewrite lookup_fmap_Some in E. destruct E as (r0 & <- & E).
    case_match; by apply (Hk _ _ E).
  - intros t E. simpl. rewrite lookup_fmap, fmap_is_Some. by apply Ha.
Qed.

End loop.

Section events.
Context (env : Env) `{!EnvOk env} `{RustText} `{JsonValue}.

Ltac case_goal := match goal with |- ok (match ?x with _ => _ end) => destruct x end.

Lemma ok_broadcast l : ok l -> ok (broadcast_snapshot env l).
Proof. apply ok_cat, cat_broadcast. Qed.

Lemma ok_apply_connect p a o l :
  address_ok (address (co_created_target o)) ->
  co_target_id o = qualified_target (address (co_created_target o)) ->
  ok l -> ok (apply_remote_host_connect_outcome env p a o l).2.
Proof.
  intros Ho Ht Hok. unfold apply_remote_host_connect_outcome.
  set (l1 := match co_connection_info o with Some _ => _ | None => _ end).
  assert (H1 : ok l1) by (subst l1; by case_match). clearbody l1.
  set (l2 := on_node (install_record (co_target_id o) (co_created_target o)) l1).
  assert (H2 : ok l2) by (by apply ok_install).
  assert (Ht2 : nd_sessions (lp_node l2) !! co_target_id o = Some (co_created_target o)) by apply install_lookup.
  clearbody l2. destruct (ensure_remote_session env (co_created_target o) (lp_node l2)) as [n|] eqn:E; [|done].
  apply cat_ensure in E as [Es Ea]. simpl. eapply ok_cat; [apply cat_upsert|].
  assert (Hn : ok (set_node n l2)) by (by apply (ok_cat l2); [unfold cat; simpl; by rewrite Es, Ea|]).
  destruct a; [|done]. eapply ok_cat; [apply cat_resize_to_client|].
  apply catalog_ok_activate; [|done]. simpl. rewrite Es, Ht2. eauto.
Qed.

Lemma ok_apply_created r l : address_ok (address r) -> ok l -> ok (apply_created_remote_session env r l).2.
Proof.
  intros Ho Hok. unfold apply_created_remote_session.
  set (l2 := on_node (install_record _ r) l).
  assert (H2 : ok l2) by (by apply ok_install).
  assert (Ht2 : nd_sessions (lp_node l2) !! qualified_target (address r) = Some r) by apply install_lookup.
  clearbody l2. destruct (ensure_remote_session env r (lp_node l2)) as [n|] eqn:E; [|done].
  apply cat_ensure in E as [Es Ea]. simpl. eapply ok_cat; [apply cat_resize_to_client|].
  apply catalog_ok_activate; [simpl; rewrite Es, Ht2; eauto|].
  by apply (ok_cat l2); [unfold cat; simpl; by rewrite Es, Ea|].
Qed.

Lemma ok_activate_target t l : ok l -> ok (activate_target env t l).2.
Proof.
  intros Hok. unfold activate_target.
  destruct (find_target env t (nd_sessions (lp_node l))) as [r|] eqn:Ef; [|done].
  apply (find_target_keyed env) in Ef; [|by destruct Hok].
  destruct (if is_remote r then _ else _) as [n|] eqn:E; [|done].
  assert (En : nd_sessions n = nd_sessions (lp_node l) /\ nd_active_target n = nd_active_target (lp_node l))
    by (destruct (is_remote r); [by apply cat_ensure in E|by simplify_eq]).
  destruct En as [Es Ea].
  assert (Hn : ok (set_node n l)) by (by apply (ok_cat l); [unfold cat; simpl; by rewrite Es, Ea|]).
  assert (Hp : forall l', cat l' = cat (set_node n l) -> ok (on_node (set_nd_active_target (Some t)) l')).
  { intros l' E'. apply catalog_ok_activate; [|by apply (ok_cat (set_node n l))].
    injection E' as -> _. rewrite Es, Ef. eauto. }
  set (l1 := match nd_active_target (lp_node l) with Some _ => _ | None => _ end).
  assert (H1 : cat l1 = cat (set_node n l)) by (subst l1; repeat case_match; by rewrite ?cat_leave).
  specialize (Hp l1 H1). clearbody l1. destruct (client_size _) as [cols rows].
  set (l2 := if _ && _ then _ else _).
  assert (H2 : ok l2) by (subst l2; destruct (_ && _); exact Hp).
  clearbody l2. simpl. repeat case_match; done.
Qed.

Lemma ok_resize cols rows l : ok l -> ok (handle_resize env cols rows l).
Proof.
  intros Hok. unfold handle_resize. case_match; [done|]. apply ok_broadcast.
  case_goal.
  - apply (ok_cat l); [|done]. unfold cat, on_node. simpl.
    by destruct (resize_remote_catalog env cols rows (set_nd_last_client_resize (Some (cols, rows)) (lp_node l)))
      as [-> ->].
  - assert (E : cat (on_node (resize_active_local_session cols rows)
                      (on_node (set_nd_last_client_resize (Some (cols, rows))) l)) = cat l).
    { unfold cat, on_node. simpl.
      by destruct (resize_local_catalog cols rows (set_nd_last_client_resize (Some (cols, rows)) (lp_node l)))
        as [-> ->]. }
    case_match; (apply (ok_cat l); [exact E|exact Hok]).
Qed.

Lemma ok_command c cmd l : ok l -> ok (handle_client_command_event env c cmd l).
Proof.
  intros Hok.
  assert (R : forall cmd, ok (handle_client_command env cmd l).2 ->
    ok (let '(outcome, l) := handle_client_command env cmd l in reply c outcome l))
    by (intros cmd' Hc; by destruct (handle_client_command env cmd' l)).
  destruct cmd; unfold handle_client_command_event; try (apply R; simpl); try done.
  - unfold handle_create_local_session. destruct (create_local_session _ _ _ _ _ _) as [[t n]|] eqn:E; [|done].
    apply ok_broadcast. by apply ok_create_local in E.
  - pose proof (ok_activate_target target_id l Hok) as Ha.
    destruct (activate_target env target_id l) as [[] l']; simpl in *; [by apply ok_broadcast|done..].
  - unfold connect_remote_host_target. destruct (bool_decide _); [destruct (c =? 0)|]; exact Hok.
  - eapply ok_cat; [by apply cat_fold|done].
  - by apply ok_resize.
  - unfold route_input. by repeat case_match.
  - unfold route_paste_text. by repeat case_match.
  - unfold handle_paste_file. by repeat case_match.
  - apply (ok_cat (broadcast_snapshot env (on_node (handle_session_exit env target_id)
      (cancel_reconnect target_id l)))); [done|]. apply ok_broadcast, (ok_exit env).
    eapply ok_cat; [apply cat_cancel_reconnect|done].
  - by apply ok_broadcast.
Qed.

Lemma ok_session_disconnected t l : ok l -> ok (handle_remote_session_disconnected env t l).
Proof.
  intros Hok. unfold handle_remote_session_disconnected. case_match; [done|]. apply ok_broadcast.
  assert (Hl1 : ok (on_node (stop_viewer t) (on_node (set_availability_of env t Offline) l))).
  { unfold ok, on_node. simpl. apply (catalog_ok_same (set_availability_of env t Offline (lp_node l)));
      [unfold stop_viewer; by case_match..|]. by apply ok_availability. }
  set (l1 := on_node (stop_viewer t) _) in *. clearbody l1.
  destruct (nd_sessions (lp_node l) !! t) as [r|]; [|done].
  set (l2 := if is_remote r then _ else _).
  assert (Hl2 : ok l2).
  { subst l2. repeat case_match; try done. eapply ok_cat; [apply cat_start_retry|done]. }
  clearbody l2. by destruct (client_size _).
Qed.

Lemma ok_session_closed t l : ok l -> ok (handle_session_closed env t l).
Proof.
  intros Hok. unfold handle_session_closed. apply ok_broadcast.
  assert (He : ok (on_node (handle_session_exit env t) (cancel_reconnect t l)))
    by (apply (ok_exit env); eapply ok_cat; [apply cat_cancel_reconnect|done]).
  case_goal; [|done].
  assert (Hc : forall node, ok (cancel_retry node (on_node (handle_session_exit env t) (cancel_reconnect t l))))
    by (intros; eapply ok_cat; [apply cat_cancel_retry|done]).
  case_goal; [eapply ok_cat; [apply cat_remove|]|]; apply Hc.
Qed.

Lemma ok_node_offline node l : ok l -> ok (handle_remote_node_offline env node l).
Proof.
  intros Hok. unfold handle_remote_node_offline. apply ok_broadcast.
  assert (W : forall h m f l, (forall i l, cat (f node i l) = cat l) -> ok l -> ok (when_vacant h m f node l)).
  { intros h m f l' Hf Hl. unfold when_vacant. repeat case_match; try done. by eapply ok_cat; [apply Hf|]. }
  apply W; [done|]. apply W; [done|]. apply W; [intros; apply cat_start_retry|].
  eapply ok_cat; [apply cat_close_ingress|]. apply ok_mark_offline.
  eapply ok_cat; [apply cat_fold; intros; apply cat_cancel_reconnect|done].
Qed.

Lemma ok_reconnect_failed node l : ok l -> ok (handle_remote_node_reconnect_failed env node l).
Proof.
  intros Hok. unfold handle_remote_node_reconnect_failed. apply ok_broadcast.
  eapply ok_cat; [apply cat_close_ingress|].
  eapply ok_cat; [unfold cancel_wait; instantiate (1 := cancel_retry node _); by case_match|].
  eapply ok_cat; [apply cat_cancel_retry|].
  generalize (affected env node (lp_node l)). intros ts. revert l Hok.
  induction ts as [|t ts IH]; intros l Hok; simpl; [done|]. apply IH, (ok_exit env).
  eapply ok_cat; [apply cat_cancel_reconnect|done].
Qed.

Lemma ok_agent_signal t a e p l : ok l -> ok (handle_agent_signal_received env t a e p l).
Proof.
  intros Hok. unfold handle_agent_signal_received. apply ok_broadcast.
  repeat case_match; try done; repeat (apply ok_alter; [done|]); done.
Qed.

Lemma event_keeps_catalog e l : event_ok e -> ok l -> ok (handle_event env e l).
Proof.
  intros He Hok. destruct e; simpl; try exact Hok;
    try (apply ok_broadcast; first [exact Hok | apply (ok_alter env); [done|exact Hok]]).
  - unfold handle_local_session_child_exit. apply ok_broadcast, (ok_exit env). by case_match.
  - unfold handle_authority_host_session_exit. by apply ok_broadcast, (ok_exit env).
  - unfold handle_authority_host_session_exit. by apply ok_broadcast, (ok_exit env).
  - unfold handle_client_disconnected. apply ok_broadcast. case_match; [|done].
    eapply ok_cat; [apply cat_leave|done].
  - by apply ok_command.
  - unfold handle_create_authority_host_session, create_authority_host_session.
    destruct (create_host_record env (lp_node l)) as [[[[id p] t] n]|] eqn:E; [|done].
    apply ok_create_host in E; [|done]. destruct (clone_host env); [|exact E]. by apply (ok_broadcast (send _ _)).
  - by apply ok_session_disconnected.
  - unfold handle_remote_session_reconnected. apply ok_broadcast. by apply (ok_availability env).
  - by apply ok_broadcast, ok_published.
  - by apply ok_session_closed.
  - by apply ok_agent_signal.
  - case_bool_decide; [done|]. by apply ok_node_offline.
  - unfold handle_remote_node_online, cancel_probe, cancel_wait, cancel_retry. by repeat case_match.
  - by apply ok_reconnect_failed.
  - unfold handle_network_connectivity_changed. case_match; [|done].
    eapply ok_cat; [apply (cat_fold (fun l node_id => _)); intros; repeat case_match; by rewrite ?cat_reset|done].
  - unfold handle_remote_node_reachable. case_match; [|done]. eapply ok_cat; [apply cat_reset|done].
  - unfold reconnect_snapshot_hosts. case_match; [|done].
    eapply ok_cat; [apply cat_fold; intros; unfold reconnect_entry; by repeat case_match|done].
  - unfold handle_snapshot_reconnect_result. simpl. destruct r as [o|m].
    + destruct He as [Ho Ht]. match goal with |- context [apply_remote_host_connect_outcome env _ ?a o ?x] =>
        pose proof (ok_apply_connect profile_name a o x Ho Ht) as Ha;
        destruct (apply_remote_host_connect_outcome env _ a o x) as [oc l'] end.
      eapply ok_cat; [apply cat_reply_all|]. apply Ha. by case_match.
    + case_match; [eapply ok_cat; [apply cat_remove|]|]; by (eapply ok_cat; [apply cat_reply_all|]).
  - unfold handle_remote_host_connect_result. simpl. destruct r as [o|m].
    + destruct He as [Ho Ht]. match goal with |- context [apply_remote_host_connect_outcome env _ ?a o ?x] =>
        pose proof (ok_apply_connect profile_name a o x Ho Ht) as Ha;
        destruct (apply_remote_host_connect_outcome env _ a o x) as [oc l'] end.
      eapply ok_cat; [apply (cat_reply_all (_ :: _))|]. apply Ha. by case_match.
    + by (eapply ok_cat; [apply (cat_reply_all (_ :: _))|]).
  - unfold handle_remote_session_create_result. destruct r as [r|m]; [|done].
    pose proof (ok_apply_created r l He Hok) as Ha.
    destruct (apply_created_remote_session env r l) as [oc l']. by case_match; [apply ok_broadcast|].
  - unfold handle_relay_join_result. destruct r as [a|m]; [|done].
    apply (ok_broadcast (on_node _ _)). case_match; [|done]. simpl.
    unfold ok, on_node, start_relay_link, install_relay_client_handle. simpl. by repeat case_match.
  - unfold handle_relay_remove_result. destruct r; [|done]. by apply (ok_broadcast (on_node _ _)).
  - case_match; [|done]. by apply ok_broadcast.
Qed.

End events.

(** A run of the loop: each event with what the outside answers meanwhile. *)
Definition run_events `{RustText} `{JsonValue} (es : list (Env * Ev.StateEvent)) (l : Loop) : Loop :=
  foldl (fun l '(env, e) => handle_event env e l) l es.

(** C20. The catalog stays consistent whatever happens: after any sequence of
    events that bring properly addressed records, in whatever order hash
    tables are visited, every record is filed under its own address, and the
    active session, if there is one, is in the catalog. *)
Theorem catalog_stays_consistent `{RustText} `{JsonValue} es l :
  Forall (fun '(env, e) => EnvOk env /\ event_ok e) es -> catalog_ok (lp_node l) ->
  catalog_ok (lp_node (run_events es l)).
Proof.
  intros Hes. revert l. induction Hes as [|[env e] es [He Hev] Hes IH]; intros l Hok; [done|].
  simpl. apply IH. by apply event_keeps_catalog.
Qed.

(** A remote session is created, published again and closed; the node then
    gets a session of its own. *)
Definition lab_record : ManagedSessionRecord :=
  mkManagedSessionRecord (remote_peer "lab#7474" "1") None Online None None None [] 0 1 (Some "zsh") None None
    None Input.

Definition lab_events : list (Env * Ev.StateEvent (H := text_json)) :=
  [(calm, Ev.RemoteSessionCreateResult 1 "lab#7474" (Ok lab_record));
   (calm, Ev.RemoteSessionCatalogUpdated lab_record);
   (calm, Ev.ClientCommand 1 (Cmd.CreateLocalSession None));
   (calm, Ev.SessionClosed "lab#7474:1")].

Lemma catalog_stays_consistent_witness :
  catalog_ok (lp_node (run_events (H := ascii_text) lab_events (loop_start empty_node []))) /\
  nd_active_target (lp_node (run_events (H := ascii_text) lab_events (loop_start empty_node []))) =
    Some "local#7474:1".
Proof.
  split; [|vm_compute; reflexivity]. apply (catalog_stays_consistent (H := ascii_text)).
  - repeat (apply Forall_cons; split; [split; [exact calm_ok|reflexivity || exact I]|]). by apply Forall_nil.
  - split; [apply map_Forall_empty|]. intros t Ht. discriminate Ht.
Defined.
