(* ===== verification/NodeWorkers.v ===== *)
(** * Node workers: who works on a node that is off line

    The threads the state loop starts and stops for a remote node: one that
    dials it again, one that waits for it to come back, one that probes
    whether it can be reached. The loop keeps a handle of each; the invariant
    [tracked] says that the handles are exactly the threads that have been
    started and not been stopped. *)

From S2P Require Import Prelude Bytes Text SessionCatalog AgentDetector NodeTypes NodeState StateLoop NodeFrame NodeInvariant.

#[local] Open Scope Z_scope.

(** ** Workers and their handles *)

Inductive duty := Retry | Wait | Probe.

#[global] Instance duty_eq_dec : EqDecision duty.
Proof. solve_decision. Defined.

Definition duty_of (w : worker) : option (duty * string) :=
  match w with
  | OutboundDialRetryWorker node _ => Some (Retry, node)
  | InboundConnectWaitWorker node _ => Some (Wait, node)
  | PeerReachabilityProbeWorker node _ _ => Some (Probe, node)
  | ReconnectWorker _ _ _ => None
  end.

Definition handles (d : duty) (l : Loop) : gmap string Z :=
  match d with
  | Retry => outbound_dial_retry_handles l
  | Wait => inbound_connect_wait_handles l
  | Probe => peer_reachability_handles l
  end.

Definition started (l : Loop) (id : Z) (w : worker) : Prop := StartWorker id w ∈ sent Workers (lp_node l).
Definition stopped (l : Loop) (id : Z) : Prop := StopWorker id ∈ sent Workers (lp_node l).
Definition running (l : Loop) (id : Z) (w : worker) : Prop := started l id w /\ ~ stopped l id.

(** ** The invariant *)

Record tracked (l : Loop) : Prop := {
  started_below : forall id w, started l id w -> id < next_worker l;
  started_once : forall id w w', started l id w -> started l id w' -> w = w';
  stopped_started : forall id, stopped l id -> exists w, started l id w;
  running_recorded : forall id w d node,
    running l id w -> duty_of w = Some (d, node) -> handles d l !! node = Some id;
  recorded_running : forall d node id,
    handles d l !! node = Some id -> exists w, running l id w /\ duty_of w = Some (d, node);
  reconnect_recorded : forall t id,
    reconnect_handles l !! t = Some id -> exists w, started l id w /\ duty_of w = None }.

Lemma tracked_start_loop n entries : nd_out n = [] -> tracked (loop_start n entries).
Proof.
  intros Ho. assert (Hs : sent Workers (lp_node (loop_start n entries)) = []) by (unfold sent; simpl; by rewrite Ho).
  split; unfold running, started, stopped; rewrite ?Hs; try set_solver;
    intros; destruct_and?; try set_solver; repeat match goal with d : duty |- _ => destruct d end; done.
Qed.

(** The parts the invariant speaks of. *)
Definition worker_parts : list part := [ReconnectHandles; RetryHandles; WaitHandles; ProbeHandles; WorkerIds; Sent Workers].

Lemma tracked_same l l' :
  (forall p, p ∈ worker_parts -> agree p l l') -> tracked l -> tracked l'.
Proof.
  intros Ha Hl.
  pose proof (Ha ReconnectHandles ltac:(set_solver)) as E1. pose proof (Ha RetryHandles ltac:(set_solver)) as E2.
  pose proof (Ha WaitHandles ltac:(set_solver)) as E3. pose proof (Ha ProbeHandles ltac:(set_solver)) as E4.
  pose proof (Ha WorkerIds ltac:(set_solver)) as E5. pose proof (Ha (Sent Workers) ltac:(set_solver)) as E6.
  simpl in *. assert (Eh : forall d, handles d l' = handles d l) by (by intros []).
  destruct Hl as [A1 A2 A3 A4 A5 A6].
  split; unfold running, started, stopped in *; rewrite ?E6; intros; rewrite ?E5, ?E1, ?Eh in *; eauto.
Qed.

(** A step that touches none of them. *)
Lemma tracked_frame ps l l' :
  modifies ps l l' -> forallb (fun p => negb (within ps p)) worker_parts = true -> tracked l -> tracked l'.
Proof.
  intros [_ Hm] Hw. apply tracked_same. intros p Hp. apply Hm.
  rewrite forallb_forall in Hw. apply negb_true_iff, Hw. by apply list_elem_of_In.
Qed.

(** ** Stopping and starting *)

Section steps.
Context (l l' : Loop) (Hl : tracked l).

(** What is sent besides, in the terms of the invariant. *)
Lemma stop_started id id' w : sent Workers (lp_node l') = sent Workers (lp_node l) ++ [StopWorker id] ->
  started l' id' w <-> started l id' w.
Proof. unfold started. intros ->. set_solver. Qed.

Lemma stop_stopped id id' : sent Workers (lp_node l') = sent Workers (lp_node l) ++ [StopWorker id] ->
  stopped l' id' <-> stopped l id' \/ id' = id.
Proof. unfold stopped. intros ->. set_solver. Qed.

Lemma start_started id w0 id' w : sent Workers (lp_node l') = sent Workers (lp_node l) ++ [StartWorker id w0] ->
  started l' id' w <-> started l id' w \/ (id' = id /\ w = w0).
Proof. unfold started. intros ->. set_solver. Qed.

Lemma start_stopped id w0 id' : sent Workers (lp_node l') = sent Workers (lp_node l) ++ [StartWorker id w0] ->
  stopped l' id' <-> stopped l id'.
Proof. unfold stopped. intros ->. set_solver. Qed.

(** The worker of a handle is stopped and the handle dropped. *)
Lemma tracked_stop d node id :
  handles d l !! node = Some id -> handles d l' = delete node (handles d l) ->
  (forall d', d' <> d -> handles d' l' = handles d' l) -> reconnect_handles l' = reconnect_handles l ->
  next_worker l' = next_worker l -> sent Workers (lp_node l') = sent Workers (lp_node l) ++ [StopWorker id] ->
  tracked l'.
Proof.
  intros Hh Ed Eo Er En Es. destruct Hl as [A1 A2 A3 A4 A5 A6].
  pose proof (fun i w => stop_started id i w Es) as St. pose proof (fun i => stop_stopped id i Es) as Sp.
  destruct (A5 _ _ _ Hh) as (w & [Hw _] & Dw).
  assert (Hkeep : forall d0 node0 i w0, handles d0 l !! node0 = Some i -> running l i w0 ->
    duty_of w0 = Some (d0, node0) -> (d0, node0) <> (d, node) -> running l' i w0).
  { intros d0 node0 i w0 Hi [Hs Hn] D0 Hne. split; [by apply St|]. rewrite Sp. intros [?| ->]; [done|].
    assert (w0 = w) by eauto. congruence. }
  split; intros; rewrite ?En, ?Er in *.
  - apply (A1 _ w0). by apply St.
  - by apply (A2 id0); apply St.
  - apply Sp in H as [H| ->]; [|exists w; by apply St]. apply A3 in H as [w0 H]. exists w0. by apply St.
  - destruct H as [Hs Hn]. rewrite St in Hs. rewrite Sp in Hn.
    assert (Hr : handles d0 l !! node0 = Some id0) by (apply (A4 id0 w0); [split; tauto|done]).
    destruct (decide (d0 = d)) as [->|Hd]; [|by rewrite Eo]. rewrite Ed, lookup_delete_ne; [done|].
    intros <-. rewrite Hh in Hr. simplify_eq. tauto.
  - assert (Hr : handles d0 l !! node0 = Some id0 /\ (d0, node0) <> (d, node)).
    { destruct (decide (d0 = d)) as [->|Hd]; [|rewrite Eo in H by done; naive_solver].
      rewrite Ed in H. apply lookup_delete_Some in H as [Hn H]. split; [done|congruence]. }
    destruct Hr as [Hr Hne]. destruct (A5 _ _ _ Hr) as (w0 & R0 & D0). eauto.
  - destruct (A6 _ _ H) as (w0 & Hs & D0). exists w0. by rewrite St.
Qed.

(** The worker that reconnects a session is stopped. *)
Lemma tracked_stop_reconnect t id :
  reconnect_handles l !! t = Some id -> (forall d, handles d l' = handles d l) ->
  reconnect_handles l' = delete t (reconnect_handles l) -> next_worker l' = next_worker l ->
  sent Workers (lp_node l') = sent Workers (lp_node l) ++ [StopWorker id] -> tracked l'.
Proof.
  intros Hh Eh Er En Es. destruct Hl as [A1 A2 A3 A4 A5 A6].
  pose proof (fun i w => stop_started id i w Es) as St. pose proof (fun i => stop_stopped id i Es) as Sp.
  destruct (A6 _ _ Hh) as (w & Hw & Dw).
  split; intros; rewrite ?En, ?Er, ?Eh in *.
  - apply (A1 _ w0). by apply St.
  - by apply (A2 id0); apply St.
  - apply Sp in H as [H| ->]; [|exists w; by apply St]. apply A3 in H as [w0 H]. exists w0. by apply St.
  - destruct H as [Hs Hn]. rewrite St in Hs. rewrite Sp in Hn. apply (A4 id0 w0); [split; tauto|done].
  - destruct (A5 _ _ _ H) as (w0 & [Hs Hn] & D0). exists w0. split; [|done]. split; [by apply St|].
    rewrite Sp. intros [?| ->]; [done|]. assert (w0 = w) by eauto. congruence.
  - apply lookup_delete_Some in H as [_ H]. destruct (A6 _ _ H) as (w0 & Hs & D0). exists w0. by rewrite St.
Qed.

(** A worker is started where there was none. *)
Lemma tracked_start d node w :
  duty_of w = Some (d, node) -> handles d l !! node = None -> handles d l' = <[node := next_worker l]> (handles d l) ->
  (forall d', d' <> d -> handles d' l' = handles d' l) -> reconnect_handles l' = reconnect_handles l ->
  next_worker l' = next_worker l + 1 ->
  sent Workers (lp_node l') = sent Workers (lp_node l) ++ [StartWorker (next_worker l) w] -> tracked l'.
Proof.
  intros Dw Hv Ed Eo Er En Es. destruct Hl as [A1 A2 A3 A4 A5 A6].
  pose proof (fun i w' => start_started _ w i w' Es) as St. pose proof (fun i => start_stopped _ w i Es) as Sp.
  assert (Hfresh : forall w, ~ started l (next_worker l) w) by (intros w' Hw'; apply A1 in Hw'; lia).
  assert (Hns : ~ stopped l (next_worker l)) by (intros Hs; apply A3 in Hs as [w' Hw']; by apply Hfresh in Hw').
  assert (Hkeep : forall i w0, running l i w0 -> running l' i w0)
    by (intros i w0 [Hs Hn]; split; [apply St; by left|by rewrite Sp]).
  split; intros; rewrite ?En, ?Er in *.
  - apply St in H as [H|[-> ->]]; [apply A1 in H|]; lia.
  - apply St in H as [H|[-> ->]], H0 as [H0|[E0 ->]]; subst; try done; eauto; by apply Hfresh in H || apply Hfresh in H0.
  - apply Sp, A3 in H as [w0 H]. exists w0. apply St. by left.
  - destruct H as [Hs Hn]. rewrite Sp in Hn. apply St in Hs as [Hs|[-> ->]].
    + assert (Hr : handles d0 l !! node0 = Some id) by (by apply (A4 id w0)).
      destruct (decide (d0 = d)) as [->|Hd]; [|by rewrite Eo]. rewrite Ed, lookup_insert_ne; [done|congruence].
    + rewrite Dw in H0. simplify_eq. rewrite Ed. apply lookup_insert_eq.
  - destruct (decide (d0 = d)) as [->|Hd]; [|rewrite Eo in H by done; destruct (A5 _ _ _ H) as (w0 & ? & ?); eauto].
    rewrite Ed in H. apply lookup_insert_Some in H as [[<- <-]|[_ H]]; [|destruct (A5 _ _ _ H) as (w0 & ? & ?); eauto].
    exists w. split; [|done]. split; [apply St; by right|by rewrite Sp].
  - destruct (A6 _ _ H) as (w0 & Hs & D0). exists w0. split; [apply St; by left|done].
Qed.

(** A worker that reconnects a session is started. *)
Lemma tracked_start_reconnect t w :
  duty_of w = None -> (forall d, handles d l' = handles d l) ->
  reconnect_handles l' = <[t := next_worker l]> (reconnect_handles l) -> next_worker l' = next_worker l + 1 ->
  sent Workers (lp_node l') = sent Workers (lp_node l) ++ [StartWorker (next_worker l) w] -> tracked l'.
Proof.
  intros Dw Eh Er En Es. destruct Hl as [A1 A2 A3 A4 A5 A6].
  pose proof (fun i w' => start_started _ w i w' Es) as St. pose proof (fun i => start_stopped _ w i Es) as Sp.
  assert (Hfresh : forall w, ~ started l (next_worker l) w) by (intros w' Hw'; apply A1 in Hw'; lia).
  split; intros; rewrite ?En, ?Er, ?Eh in *.
  - apply St in H as [H|[-> ->]]; [apply A1 in H|]; lia.
  - apply St in H as [H|[-> ->]], H0 as [H0|[E0 ->]]; subst; try done; eauto; by apply Hfresh in H || apply Hfresh in H0.
  - apply Sp, A3 in H as [w0 H]. exists w0. apply St. by left.
  - destruct H as [Hs Hn]. rewrite Sp in Hn. apply St in Hs as [Hs|[-> ->]]; [by apply (A4 id w0)|congruence].
  - destruct (A5 _ _ _ H) as (w0 & [Hs Hn] & D0). exists w0. split; [|done]. split; [apply St; by left|by rewrite Sp].
  - apply lookup_insert_Some in H as [[<- <-]|[_ H]]; [exists w; split; [apply St; by right|done]|].
    destruct (A6 _ _ H) as (w0 & Hs & D0). exists w0. split; [apply St; by left|done].
Qed.

End steps.

Create HintDb tracked discriminated.

Section operations.
Context (l : Loop) (Hl : tracked l).

Lemma tracked_cancel_reconnect t : tracked (cancel_reconnect t l).
Proof.
  unfold cancel_reconnect. destruct (reconnect_handles l !! t) as [id|] eqn:E; [|done].
  apply (tracked_stop_reconnect l _ Hl t id); try done; first [by intros [] | apply (sent_emit (StopWorker id))].
Qed.

Lemma tracked_cancel_retry t : tracked (cancel_retry t l).
Proof.
  unfold cancel_retry. destruct (outbound_dial_retry_handles l !! t) as [id|] eqn:E; [|done].
  apply (tracked_stop l _ Hl Retry t id); try done; first [by intros [] | apply (sent_emit (StopWorker id))].
Qed.

Lemma tracked_cancel_wait t : tracked (cancel_wait t l).
Proof.
  unfold cancel_wait. destruct (inbound_connect_wait_handles l !! t) as [id|] eqn:E; [|done].
  apply (tracked_stop l _ Hl Wait t id); try done; first [by intros [] | apply (sent_emit (StopWorker id))].
Qed.

Lemma tracked_cancel_probe t : tracked (cancel_probe t l).
Proof.
  unfold cancel_probe. destruct (peer_reachability_handles l !! t) as [id|] eqn:E; [|done].
  apply (tracked_stop l _ Hl Probe t id); try done; first [by intros [] | apply (sent_emit (StopWorker id))].
Qed.

Lemma tracked_start_retry t i : outbound_dial_retry_handles l !! t = None -> tracked (start_retry t i l).
Proof.
  intros Hv. unfold start_retry. case_match; [|done].
  apply (tracked_start l _ Hl Retry t (OutboundDialRetryWorker t (retry_request t i))); try done;
    first [by intros [] | apply (sent_emit (StartWorker (next_worker l) _))].
Qed.

Lemma tracked_start_probe t i : peer_reachability_handles l !! t = None -> tracked (start_probe t i l).
Proof.
  intros Hv. apply (tracked_start l _ Hl Probe t (PeerReachabilityProbeWorker t (ci_host i) (ci_port i))); try done;
    first [by intros [] | apply (sent_emit (StartWorker (next_worker l) _))].
Qed.

Lemma tracked_start_wait t i : inbound_connect_wait_handles l !! t = None -> tracked (start_wait t i l).
Proof.
  intros Hv. eapply (tracked_start l _ Hl Wait t (InboundConnectWaitWorker t _)); try done;
    first [by intros [] | apply (sent_emit (StartWorker (next_worker l) _))].
Qed.

(** [when_vacant] starts a worker only where there is none. *)
Lemma tracked_when_vacant h m f t :
  (forall i, h !! t = None -> tracked (f t i l)) -> tracked (when_vacant h m f t l).
Proof. intros Hf. unfold when_vacant. destruct (h !! t) eqn:E; [done|]. repeat case_match; eauto. Qed.

End operations.

#[global] Hint Resolve tracked_cancel_reconnect tracked_cancel_retry tracked_cancel_wait tracked_cancel_probe : tracked.

Ltac keeps_tracked1 :=
  match goal with
  | |- _ => assumption
  | |- tracked (match ?x with _ => _ end) => destruct x eqn:?
  | |- tracked (cancel_reconnect _ _) => apply tracked_cancel_reconnect
  | |- tracked (cancel_retry _ _) => apply tracked_cancel_retry
  | |- tracked (cancel_wait _ _) => apply tracked_cancel_wait
  | |- tracked (cancel_probe _ _) => apply tracked_cancel_probe
  | |- tracked (on_node _ _) => eapply tracked_frame; [apply frame_on_node; solve [eauto 2 with frame nocore]|reflexivity|]
  | |- tracked _ => eapply tracked_frame; [solve [eauto 2 with frame nocore]|reflexivity|]
  end.

Ltac keeps_tracked := intros; repeat keeps_tracked1.

Lemma tracked_fold {A} (f : Loop -> A -> Loop) xs l :
  (forall l a, tracked l -> tracked (f l a)) -> tracked l -> tracked (foldl f l xs).
Proof. intros Hf. revert l. induction xs as [|x xs IH]; intros l Hl; [done|]. simpl. eauto. Qed.

Section events.
Context (env : Env) `{RustText} `{JsonValue}.

Lemma retry_cancelled t l : outbound_dial_retry_handles (cancel_retry t l) !! t = None.
Proof. unfold cancel_retry. destruct (outbound_dial_retry_handles l !! t) eqn:E; [apply lookup_delete_eq|done]. Qed.

Lemma close_ingress_retries t l :
  outbound_dial_retry_handles (close_ingress_sessions_for_node t l) = outbound_dial_retry_handles l.
Proof. unfold close_ingress_sessions_for_node. by case_match. Qed.

Lemma tracked_reset t l : tracked l -> tracked (reset_outbound_dial_retry_worker t l).
Proof.
  intros Hl. unfold reset_outbound_dial_retry_worker. repeat case_match; try done.
  apply tracked_start_retry; [keeps_tracked|]. rewrite close_ingress_retries. apply retry_cancelled.
Qed.

Lemma tracked_disconnected t l : tracked l -> tracked (handle_remote_session_disconnected env t l).
Proof.
  intros Hl. unfold handle_remote_session_disconnected. destruct (reconnect_handles l !! t); [done|]. cbv zeta.
  set (l1 := on_node (stop_viewer t) _). assert (H1 : tracked l1) by (subst l1; keeps_tracked).
  assert (H2 : forall b node info, tracked (if b && negb (bool_decide (is_Some (outbound_dial_retry_handles l1 !! node)))
    then start_retry node info l1 else l1)).
  { intros [] node info; [|done]. simpl. case_bool_decide as Hs; [done|]. apply tracked_start_retry; [done|].
    by apply eq_None_not_Some. }
  eapply tracked_frame; [apply frame_broadcast|done|].
  destruct (nd_sessions (lp_node l) !! t) as [r|]; [|done].
  set (l2 := if is_remote r then _ else l1). assert (H3 : tracked l2) by (subst l2; destruct (is_remote r); [|done]; destruct (remote_node_connection _ _); [apply H2|done]).
  clearbody l2. destruct (client_size (lp_node l2)) as [cols rows].
  apply (tracked_start_reconnect l2 _ H3 t (ReconnectWorker r cols rows)); try done.
  apply (sent_emit (StartWorker (next_worker l2) _)).
Qed.

Lemma tracked_reconnected t s l : tracked l -> tracked (handle_remote_session_reconnected env t s l).
Proof.
  intros Hl. unfold handle_remote_session_reconnected. cbv zeta.
  set (l1 := on_node (set_availability_of env t Online) _). assert (H1 : tracked l1) by (subst l1; keeps_tracked).
  eapply tracked_frame; [apply frame_broadcast|done|]. destruct H1 as [A1 A2 A3 A4 A5 A6].
  split; try done. intros t' id Hi. simpl in Hi. apply lookup_delete_Some in Hi as [_ Hi]. eauto.
Qed.

Lemma tracked_node_offline t l : tracked l -> tracked (handle_remote_node_offline env t l).
Proof.
  intros Hl. unfold handle_remote_node_offline. cbv zeta.
  set (l1 := close_ingress_sessions_for_node t _). assert (H1 : tracked l1).
  { subst l1. keeps_tracked. apply tracked_fold; keeps_tracked. }
  clearbody l1. eapply tracked_frame; [apply frame_broadcast|done|].
  assert (H2 : tracked (when_vacant (outbound_dial_retry_handles l1) OutboundDial start_retry t l1))
    by (apply tracked_when_vacant; [done|]; intros; by apply tracked_start_retry).
  set (l2 := when_vacant _ OutboundDial start_retry t l1) in *. clearbody l2.
  assert (H3 : tracked (when_vacant (peer_reachability_handles l2) OutboundDial start_probe t l2))
    by (apply tracked_when_vacant; [done|]; intros; by apply tracked_start_probe).
  set (l3 := when_vacant _ OutboundDial start_probe t l2) in *. clearbody l3.
  apply tracked_when_vacant; [done|]. intros. by apply tracked_start_wait.
Qed.

Lemma tracked_event e l : tracked l -> tracked (handle_event env e l).
Proof.
  intros Hl.
  destruct (forallb (fun p => negb (within (footprint e) p)) worker_parts) eqn:E;
    [by eapply tracked_frame; [apply event_frame|..]|].
  destruct e; try discriminate E.
  - destruct command; try discriminate E. simpl. keeps_tracked.
  - by apply tracked_disconnected.
  - by apply tracked_reconnected.
  - simpl. unfold handle_session_closed. keeps_tracked.
  - simpl. case_bool_decide; [done|]. apply tracked_node_offline. keeps_tracked.
  - simpl. unfold handle_remote_node_online. keeps_tracked.
  - simpl. unfold handle_remote_node_reconnect_failed. keeps_tracked. apply tracked_fold; keeps_tracked.
  - simpl. unfold handle_network_connectivity_changed. keeps_tracked. apply tracked_fold; [|keeps_tracked].
    intros. repeat case_match; try done. by apply tracked_reset.
  - simpl. unfold handle_remote_node_reachable. case_match; [|done]. apply tracked_reset. keeps_tracked.
Qed.

End events.

Lemma tracked_run `{RustText} `{JsonValue} es l : tracked l -> tracked (run_events es l).
Proof.
  revert l. induction es as [|[env e] es IH]; intros l Hl; [done|]. simpl. apply IH. by apply tracked_event.
Qed.

(** ** What is running *)

Section after.
Context (env : Env) `{RustText} `{JsonValue}.

(** When a node is back, nothing works on it. *)
Lemma online_no_handles node d l : handles d (handle_remote_node_online node l) !! node = None.
Proof.
  unfold handle_remote_node_online, cancel_probe, cancel_wait. simpl.
  pose proof (retry_cancelled node (on_node (fun n => set_nd_remote_node_auth_rejections
    (delete node (nd_remote_node_auth_rejections n)) n) (set_offline_nodes (offline_nodes l ∖ {[node]}) l))) as Hr.
  set (l1 := cancel_retry node _) in *. clearbody l1.
  destruct d; repeat case_match; simpl in *; by rewrite ?lookup_delete_eq.
Qed.

(** The workers a node needs while it is off line: a peer this node dials is
    dialed again and probed, one that connects to this node is waited for. *)
Definition duties (info : RemoteNodeConnectionInfo) (ingress : bool) : list duty :=
  match ci_mode info with
  | OutboundDial => if ingress then [Retry; Probe] else [Probe]
  | InboundConnect => [Wait]
  end.

Lemma vacant_started h m f node info l :
  is_Some (h (f node info l) !! node) -> remote_node_connection node (lp_node l) = Some info -> ci_mode info = m ->
  is_Some (h (when_vacant (h l) m f node l) !! node).
Proof.
  intros Hf Hi Hm. unfold when_vacant. destruct (h l !! node) as [id|] eqn:E; [eauto|].
  by rewrite Hi, bool_decide_true by done.
Qed.

Lemma offline_handles node d info l :
  remote_node_connection node (lp_node l) = Some info -> d ∈ duties info (nd_ingress_internal_tx (lp_node l)) ->
  is_Some (handles d (handle_remote_node_offline env node l) !! node).
Proof.
  intros Hi Hd. unfold handle_remote_node_offline. cbv zeta.
  set (l1 := close_ingress_sessions_for_node node _).
  assert (H1 : modifies [ReconnectHandles; Sessions; Sent Workers; Sent IngressNotes] l l1).
  { subst l1. framed. apply frame_fold; framed. }
  assert (Hc : remote_node_connection node (lp_node l1) = Some info).
  { unfold remote_node_connection. rewrite (proj2 H1 Connections eq_refl). exact Hi. }
  assert (Hg : nd_ingress_internal_tx (lp_node l1) = nd_ingress_internal_tx (lp_node l)) by apply (proj1 H1).
  clearbody l1. set (l2 := when_vacant _ OutboundDial start_retry node l1).
  assert (H2 : modifies [RetryHandles; WorkerIds; Sent Workers] l1 l2) by apply frame_vacant_retry.
  set (l3 := when_vacant _ OutboundDial start_probe node l2).
  assert (H3 : modifies [ProbeHandles; WorkerIds; Sent Workers] l2 l3) by apply frame_vacant_probe.
  set (l4 := when_vacant _ InboundConnect start_wait node l3).
  assert (H4 : modifies [WaitHandles; WorkerIds; Sent Workers] l3 l4) by apply frame_vacant_wait.
  assert (H5 : modifies [Sent Broadcasts] l4 (broadcast_snapshot env l4)) by apply frame_broadcast.
  assert (Hc2 : remote_node_connection node (lp_node l2) = Some info).
  { unfold remote_node_connection. rewrite (proj2 H2 Connections eq_refl). exact Hc. }
  assert (Hc3 : remote_node_connection node (lp_node l3) = Some info).
  { unfold remote_node_connection. rewrite (proj2 H3 Connections eq_refl). exact Hc2. }
  unfold duties in Hd. destruct (ci_mode info) eqn:Em; [destruct (nd_ingress_internal_tx (lp_node l)) eqn:Eg|];
    repeat (apply elem_of_cons in Hd as [->|Hd]); try (by apply not_elem_of_nil in Hd); simpl.
  - rewrite (proj2 H5 RetryHandles eq_refl), (proj2 H4 RetryHandles eq_refl), (proj2 H3 RetryHandles eq_refl).
    apply (vacant_started _ _ _ _ info); [|done..]. unfold start_retry. rewrite Hg. simpl. rewrite lookup_insert_eq. eauto.
  - rewrite (proj2 H5 ProbeHandles eq_refl), (proj2 H4 ProbeHandles eq_refl).
    apply (vacant_started _ _ _ _ info); [|done..]. simpl. rewrite lookup_insert_eq. eauto.
  - rewrite (proj2 H5 ProbeHandles eq_refl), (proj2 H4 ProbeHandles eq_refl).
    apply (vacant_started _ _ _ _ info); [|done..]. simpl. rewrite lookup_insert_eq. eauto.
  - rewrite (proj2 H5 WaitHandles eq_refl).
    apply (vacant_started _ _ _ _ info); [|done..]. simpl. rewrite lookup_insert_eq. eauto.
Qed.

End after.

(** C12. At most one worker of each kind works on a node, as long as it is
    needed. After any run of the loop two running workers with the same task
    for the same node are the same one; once the node is reported on line
    none is running; and when a connected node is first reported off line,
    every worker it needs is running: the peer is dialed again and probed, or
    waited for. *)
Theorem one_worker_per_node `{RustText} `{JsonValue} es n entries :
  nd_out n = [] ->
  let l := run_events es (loop_start n entries) in
  (forall id id' w w' task, running l id w -> running l id' w' ->
     duty_of w = Some task -> duty_of w' = Some task -> id = id' /\ w = w') /\
  (forall env node id w d, running (handle_event env (Ev.RemoteNodeOnline node) l) id w ->
     duty_of w <> Some (d, node)) /\
  (forall env node info d, node ∉ offline_nodes l -> remote_node_connection node (lp_node l) = Some info ->
     d ∈ duties info (nd_ingress_internal_tx (lp_node l)) ->
     exists id w, running (handle_event env (Ev.RemoteNodeOffline node) l) id w /\ duty_of w = Some (d, node)).
Proof.
  intros Ho l. assert (Hl : tracked l) by apply tracked_run, tracked_start_loop, Ho. split_and!.
  - intros id id' w w' [d node] Hw Hw' D D'.
    pose proof (running_recorded _ Hl _ _ _ _ Hw D) as E. rewrite (running_recorded _ Hl _ _ _ _ Hw' D') in E.
    simplify_eq. split; [done|]. apply (started_once _ Hl id); [apply Hw|apply Hw'].
  - intros env node id w d Hw D. pose proof (tracked_event env (Ev.RemoteNodeOnline node) l Hl) as Ht.
    pose proof (running_recorded _ Ht _ _ _ _ Hw D) as E. simpl in E. by rewrite online_no_handles in E.
  - intros env node info d Hn Hi Hd. pose proof (tracked_event env (Ev.RemoteNodeOffline node) l Hl) as Ht.
    simpl in *. rewrite bool_decide_false in * by done.
    destruct (offline_handles env node d info (set_offline_nodes ({[node]} ∪ offline_nodes l) l) Hi Hd) as [id E].
    destruct (recorded_running _ Ht _ _ _ E) as (w & ? & ?). eauto.
Qed.

(** A peer is dialed, lost, and comes back. *)
Definition lab_info : RemoteNodeConnectionInfo := mkConnectionInfo OutboundDial "10.0.0.2" 7474 "ab12" "lab" true None.

Lemma one_worker_per_node_witness :
  let l := run_events (H := ascii_text) (H0 := text_json)
             [(calm, Ev.RecordRemoteNodeConnection "lab#7474" lab_info)] (loop_start empty_node []) in
  (exists id w,
     running (handle_event (H := ascii_text) (H0 := text_json) calm (Ev.RemoteNodeOffline "lab#7474") l) id w /\
     duty_of w = Some (Retry, "lab#7474")) /\
  (forall id w d,
     running (handle_event (H := ascii_text) (H0 := text_json) calm (Ev.RemoteNodeOnline "lab#7474") l) id w ->
     duty_of w <> Some (d, "lab#7474")).
Proof.
  pose proof (one_worker_per_node (H := ascii_text) (H0 := text_json)
    [(calm, Ev.RecordRemoteNodeConnection "lab#7474" lab_info)] empty_node [] eq_refl) as (_ & Hon & Hoff).
  split; [|intros; by eapply Hon]. apply (Hoff calm "lab#7474" lab_info Retry); [set_solver|by vm_compute|].
  apply list_elem_of_here.
Defined.
