(* ===== verification/NodeProps.v ===== *)
(** * Node properties: sessions, snapshots and what is typed

    Theorems on the operations of [NodeState] and the handlers of [StateLoop]:
    new sessions have new names, what is typed reaches the session it names
    and no other, the snapshot does not depend on the order of the hash
    tables, the node ends with its last session; and where the loop does
    something else than it means to. *)

From stdpp Require Import pretty sorting.
From S2P Require Import Prelude Bytes Text Utf8 Str Numbers SessionCatalog AgentDetector Keys RemoteSession HostGrid HostIo NodeTypes NodeState StateLoop NodeFrame NodeInvariant.

#[local] Open Scope Z_scope.

(** ** Strings *)

Lemma string_app_prefix p s : starts_with p (p +:+ s) = true.
Proof. induction p as [|c p IH]; simpl; [by destruct s|]. by destruct (Ascii.ascii_dec c c). Qed.

Lemma substring_all s : String.substring 0 (String.length s) s = s.
Proof. induction s as [|c s IH]; simpl; [done|]. by rewrite IH. Qed.

Lemma substring_app p s n : String.substring (String.length p) n (p +:+ s) = String.substring 0 n s.
Proof. induction p as [|c p IH]; [done|]. apply IH. Qed.

Lemma strip_str_prefix_app p s : strip_str_prefix p (p +:+ s) = Some s.
Proof.
  unfold strip_str_prefix. rewrite string_app_prefix. f_equal.
  rewrite substring_app. replace (String.length (p +:+ s) - String.length p)%nat with (String.length s);
    [apply substring_all|].
  assert (E : String.length (p +:+ s) = (String.length p + String.length s)%nat) by (induction p as [|c p IH]; [done|apply (f_equal S IH)]).
  lia.
Qed.

Lemma string_app_assoc (a b c : string) : ((a +:+ b) +:+ c = a +:+ (b +:+ c))%string.
Proof. induction a as [|x a IH]; [done|]. apply (f_equal (String x) IH). Qed.

(** ** New sessions *)

Section fresh.
Context (env : Env) `{!EnvOk env}.

Lemma foldr_max_nonneg (l : list Z) : 0 <= foldr Z.max 0 l.
Proof. induction l; simpl; lia. Qed.

Lemma foldr_max_ge (l : list Z) z : z ∈ l -> z <= foldr Z.max 0 l.
Proof. induction 1; simpl; lia. Qed.

Lemma used_id p n suffix z r :
  nd_sessions n !! (p +:+ suffix)%string = Some r -> parse_uint 64 (lit suffix) = Some z -> z ∈ used_ids env p n.
Proof.
  intros Hr Hz. unfold used_ids. apply list_elem_of_omap. exists (p +:+ suffix)%string.
  rewrite strip_str_prefix_app. split; [|done].
  rewrite (shuffle_perm (env := env)). apply list_elem_of_fmap. exists ((p +:+ suffix)%string, r).
  split; [done|]. by apply elem_of_map_to_list.
Qed.

(** The next id names no session, as long as the numbers last. *)
Lemma next_id_fresh n :
  max_suffix env (local_authority_id n +:+ ":") n + 1 < 2 ^ 64 ->
  nd_sessions n !! qualified_target (local (local_authority_id n) (next_local_session_id env n)) = None.
Proof.
  intros Hm. destruct (nd_sessions n !! _) as [r|] eqn:E; [exfalso|done].
  unfold qualified_target in E. simpl in E. unfold next_local_session_id in E.
  set (m := max_suffix env (local_authority_id n +:+ ":") n) in *.
  assert (Hf : fits 64 (m + 1)).
  { pose proof (foldr_max_nonneg (used_ids env (local_authority_id n +:+ ":") n)). unfold fits, m, max_suffix in *. lia. }
  unfold wrap in E. rewrite Z.mod_small in E by exact Hf.
  rewrite <- string_app_assoc in E.
  pose proof (used_id _ _ _ _ _ E (parse_uint_pretty 64 (m + 1) Hf)) as Hi.
  apply foldr_max_ge in Hi. unfold m, max_suffix in Hi. lia.
Qed.

End fresh.

(** A new session gets a name no session has, and nothing else changes in
    the catalog: creating a session on this node either fails, with the
    message of the failed start, and the catalog, the sessions and the active
    one stay as they were, or adds one record under a name that was free,
    with the shell started for it, and makes it the active one. *)
Theorem new_session_has_a_new_name env `{!EnvOk env} `{RustText} `{JsonValue} c cwd l :
  max_suffix env (local_authority_id (lp_node l) +:+ ":") (lp_node l) + 1 < 2 ^ 64 ->
  let n := lp_node l in
  let n' := lp_node (handle_event env (Ev.ClientCommand c (Cmd.CreateLocalSession cwd)) l) in
  match spawn_local env 80 24 cwd with
  | Err _ =>
      nd_sessions n' = nd_sessions n /\ nd_local_sessions n' = nd_local_sessions n /\
      nd_active_target n' = nd_active_target n
  | Ok s =>
      exists id, nd_sessions n !! (local_authority_id n +:+ ":" +:+ id)%string = None /\
        nd_sessions n' =
          <[(local_authority_id n +:+ ":" +:+ id)%string := new_record env (local (local_authority_id n) id)]> (nd_sessions n) /\
        nd_local_sessions n' = <[(local_authority_id n +:+ ":" +:+ id)%string := s]> (nd_local_sessions n) /\
        nd_active_target n' = Some (local_authority_id n +:+ ":" +:+ id)%string
  end.
Proof.
  intros Hm n n'. pose proof (next_id_fresh env n Hm) as Hf. subst n'. simpl.
  unfold handle_create_local_session, create_local_session. fold n.
  set (id := next_local_session_id env n) in *. clearbody id. destruct (spawn_local env 80 24 cwd) as [s|m]; [|done].
  exists id. split; [done|]. set (n0 := set_nd_active_target _ _).
  set (l1 := set_node _ l). assert (Hn : modifies [Listeners; Sent ListenerNotes] (set_node n0 l) l1) by apply nframe_notify.
  set (l2 := reply c _ _). assert (Hr : modifies [Sent Answers; Sent Broadcasts; Sent CatalogNotes] l1 l2)
    by (subst l2; framed).
  assert (E : modifies [Listeners; Sent ListenerNotes; Sent Answers; Sent Broadcasts; Sent CatalogNotes] (set_node n0 l) l2).
  { eapply modifies_step; [eapply modifies_step; [apply modifies_refl|exact Hn|done]|exact Hr|done]. }
  pose proof (proj2 E Sessions eq_refl) as E1. pose proof (proj2 E LocalSessions eq_refl) as E2.
  pose proof (proj2 E ActiveTarget eq_refl) as E3. cbn [agree] in E1, E2, E3. rewrite E1, E2, E3.
  subst n0. by destruct (nd_process_monitor n).
Qed.

Lemma new_session_has_a_new_name_witness :
  nd_sessions (lp_node (loop_start empty_node [])) !! "local#7474:1"%string = None /\
  exists id, nd_active_target (lp_node (handle_event (H := ascii_text) (H0 := text_json) calm
    (Ev.ClientCommand 1 (Cmd.CreateLocalSession None)) (loop_start empty_node []))) = Some ("local#7474:" +:+ id)%string.
Proof.
  pose proof (new_session_has_a_new_name calm (H := ascii_text) (H0 := text_json) 1 None (loop_start empty_node [])) as E.
  split; [done|]. destruct E as (id & _ & _ & _ & E); [by vm_compute|]. exists id. exact E.
Defined.

(** ** The snapshot *)

Lemma leb_cons a b s t : String.leb (String a s) (String b t) =
  match Ascii.compare a b with Lt => true | Eq => String.leb s t | Gt => false end.
Proof. unfold String.leb. simpl. by destruct (Ascii.compare a b). Qed.

Lemma leb_trans s t u : String.leb s t = true -> String.leb t u = true -> String.leb s u = true.
Proof.
  revert t u. induction s as [|a s IH]; intros [|b t] [|c u]; try done. rewrite !leb_cons.
  unfold Ascii.compare. destruct (N.compare_spec (Ascii.N_of_ascii a) (Ascii.N_of_ascii b)) as [E|E|E]; try done;
    destruct (N.compare_spec (Ascii.N_of_ascii b) (Ascii.N_of_ascii c)) as [F|F|F]; try done;
    destruct (N.compare_spec (Ascii.N_of_ascii a) (Ascii.N_of_ascii c)) as [G|G|G]; try done; try lia. apply IH.
Qed.

#[global] Instance view_le_total : Total view_le.
Proof.
  intros a b. unfold view_le. destruct (bool_decide (sv_transport a = "local")), (bool_decide (sv_transport b = "local"));
    simpl; eauto using String.leb_total.
Qed.

#[global] Instance view_le_trans : Transitive view_le.
Proof.
  intros a b c. unfold view_le.
  destruct (bool_decide (sv_transport a = "local")), (bool_decide (sv_transport b = "local")),
    (bool_decide (sv_transport c = "local")); simpl; try done; apply leb_trans.
Qed.

Lemma values_perm env env' `{!EnvOk env} `{!EnvOk env'} {A} (m : gmap string A) : values env m ≡ₚ values env' m.
Proof. unfold values. by rewrite !shuffle_perm. Qed.

Lemma count_perm {A} (f : A -> bool) (l l' : list A) : l ≡ₚ l' -> count f l = count f l'.
Proof.
  unfold count, len. intros Hp. f_equal. induction Hp; simpl; repeat case_match; simpl; congruence.
Qed.

(** Records with the same address are the same record. *)
Lemma view_key env `{!EnvOk env} m r r' : keyed m -> r ∈ values env m -> r' ∈ values env m ->
  sv_id (session_view r) = sv_id (session_view r') -> r = r'.
Proof.
  intros Hk Hr Hr' E. apply elem_of_values in Hr as [k Hr], Hr' as [k' Hr']; [|done..].
  destruct (Hk k r Hr) as [Q _], (Hk k' r' Hr') as [Q' _]. simpl in E. congruence.
Qed.

Lemma sorted_views env env' `{!EnvOk env} `{!EnvOk env'} m : keyed m ->
  merge_sort view_le (map session_view (values env m)) = merge_sort view_le (map session_view (values env' m)).
Proof.
  intros Hk. apply (StronglySorted_unique_strong view_le).
  - intros v w Hv Hw Hvw Hwv. rewrite merge_sort_Permutation in Hv, Hw. rewrite (values_perm env' env) in Hw.
    apply list_elem_of_In, in_map_iff in Hv as (r & <- & Hr), Hw as (r' & <- & Hr').
    apply list_elem_of_In in Hr, Hr'. f_equal. apply (view_key env m); try done.
    unfold view_le in *. destruct (bool_decide (sv_transport (session_view r) = "local")),
      (bool_decide (sv_transport (session_view r') = "local")); try done; by apply String.leb_antisym.
  - apply StronglySorted_merge_sort; apply _.
  - apply StronglySorted_merge_sort; apply _.
  - rewrite !merge_sort_Permutation. by rewrite (values_perm env env').
Qed.

(** What a client is shown is a function of the node's state: in
    whatever order the hash tables of a consistent catalog are visited, the
    snapshot lists the same sessions in the same order, with the same counts. *)
Theorem snapshot_is_determined env env' `{!EnvOk env} `{!EnvOk env'} `{RustText} c n :
  catalog_ok n -> build_snapshot env c n = build_snapshot env' c n.
Proof.
  intros [Hk _]. unfold build_snapshot, snapshot_sessions. rewrite (sorted_views env env' _ Hk).
  by rewrite (count_perm id _ _ (values_perm env env' (nd_relay_presence n))).
Qed.

(** The tables visited backwards. *)
Definition backwards : Env := {|
  env_pid := 7; env_now := 1; env_io := Taken; shuffle := fun A l => reverse l; listening := fun _ => true;
  env_shell := Some "/bin/zsh"; spawn_local := fun cols rows _ => Ok (new_shell cols rows);
  spawn_host := Ok (mkPty [] 80 24); clone_host := true; open_remote := Ok tt;
  clipboard_file := Ok "/tmp/waitagent/paste.png"; env_file_id := "f1"; env_instant := 10000; uptime_secs := 5;
  link_credentials := true; store_load := true; store_save := None; env_timestamp := "t" |}.

#[global] Instance backwards_ok : EnvOk backwards.
Proof. intros A l. simpl. apply reverse_Permutation. Qed.

Definition two_sessions : Loop :=
  handle_event (H := ascii_text) (H0 := text_json) calm (Ev.ClientCommand 1 (Cmd.CreateLocalSession None))
    (handle_event (H := ascii_text) (H0 := text_json) calm
       (Ev.RemoteSessionCreateResult 1 "lab#7474" (Ok lab_record)) (loop_start empty_node [])).

Lemma two_sessions_ok : catalog_ok (lp_node two_sessions).
Proof.
  unfold two_sessions. do 2 (apply event_keeps_catalog; [apply _| |]; [simpl; try done|]).
  split; [apply map_Forall_empty|done].
Qed.

Lemma snapshot_is_determined_witness :
  let n := lp_node two_sessions in
  build_snapshot (H := ascii_text) calm 1 n = build_snapshot (H := ascii_text) backwards 1 n /\
  map sv_id (sn_sessions (build_snapshot (H := ascii_text) backwards 1 n)) = ["local#7474:1"; "lab#7474:1"].
Proof.
  split; [|by vm_compute].
  apply (snapshot_is_determined calm backwards (H := ascii_text) 1 (lp_node two_sessions)), two_sessions_ok.
Defined.

(** ** The end of a node *)

Definition no_local (n : Node) : Prop :=
  map_Forall (fun _ r => is_local r && bool_decide (availability r = Online) = false) (nd_sessions n).

Lemma remaining_nil env `{!EnvOk env} n : remaining_local env n = [] <-> no_local n.
Proof.
  unfold remaining_local. split.
  - intros E k r Hr. apply map_eq_nil in E. apply not_true_iff_false. intros Ht.
    assert (Hi : r ∈ List.filter (fun r => is_local r && bool_decide (availability r = Online)) (values env (nd_sessions n))).
    { apply list_elem_of_In, filter_In. split; [|done]. apply list_elem_of_In, elem_of_values; eauto. }
    rewrite E in Hi. by apply not_elem_of_nil in Hi.
  - intros Hn. destruct (List.filter _ _) as [|r rs] eqn:E; [done|exfalso].
    assert (Hi : r ∈ List.filter (fun r => is_local r && bool_decide (availability r = Online)) (values env (nd_sessions n)))
      by (rewrite E; apply list_elem_of_here).
    apply list_elem_of_In, filter_In in Hi as [Hi Ht]. apply list_elem_of_In, elem_of_values in Hi as [k Hk]; [|done].
    rewrite (Hn k r Hk) in Ht. done.
Qed.

(** The end of a session ends the node when no session of the node is left. *)
Lemma exit_shutdown env `{!EnvOk env} t n :
  nd_shutdown (handle_session_exit env t n) = true <->
    nd_shutdown n = true \/ no_local (handle_session_exit env t n).
Proof.
  unfold no_local. rewrite session_exit_catalog by done.
  unfold handle_session_exit. cbv zeta. rewrite (proj2 (proj2 (notify_sessions _ _ _))).
  set (b := match nd_sessions _ !! t with Some _ => _ | None => _ end).
  set (n1 := remove_runtime b t _).
  assert (E1 : nd_sessions n1 = delete t (nd_sessions n) /\ nd_shutdown n1 = nd_shutdown n).
  { destruct (remove_runtime_catalog b t (set_nd_sessions (delete t (nd_sessions (unregister_from_monitor t n)))
      (unregister_from_monitor t n))) as (Es & _ & Ed).
    unfold n1. rewrite Es, Ed. unfold unregister_from_monitor. by destruct (nd_process_monitor n). }
  destruct E1 as [Es Ed]. clearbody n1. rewrite <- Es, <- Ed. fold (no_local n1). rewrite <- (remaining_nil env n1).
  unfold activate_next. destruct (remaining_local env n1); simpl; [tauto|].
  split; [by left|]. intros [?|?]; done.
Qed.

Lemma no_local_exit env `{!EnvOk env} t n : no_local n -> no_local (handle_session_exit env t n).
Proof. unfold no_local. rewrite session_exit_catalog by done. apply map_Forall_delete. Qed.

(** The node has been told to end, or has no session of its own left. *)
Definition ended (l : Loop) : Prop := nd_shutdown (lp_node l) = true -> no_local (lp_node l).

Lemma ended_frame ps l l' : modifies ps l l' -> within ps Sessions = false -> within ps Shutdown = false -> ended l -> ended l'.
Proof.
  intros [_ Hm] Hs Hd He. unfold ended, no_local. rewrite (Hm Shutdown Hd : nd_shutdown _ = _), (Hm Sessions Hs : nd_sessions _ = _).
  exact He.
Qed.

Lemma ended_exit env `{!EnvOk env} t l : ended l -> ended (on_node (handle_session_exit env t) l).
Proof. intros He Hs. simpl in *. apply exit_shutdown in Hs as [Hs|Hs]; try done. by apply no_local_exit, He. Qed.

Lemma ended_fold {A} (f : Loop -> A -> Loop) xs l :
  (forall l a, ended l -> ended (f l a)) -> ended l -> ended (foldl f l xs).
Proof. intros Hf. revert l. induction xs as [|x xs IH]; intros l Hl; [done|]. simpl. eauto. Qed.

Ltac keeps_ended1 :=
  match goal with
  | |- _ => assumption
  | |- ended (match ?x with _ => _ end) => destruct x
  | |- ended (on_node (handle_session_exit _ _) _) => apply ended_exit; [apply _|]
  | |- ended _ => eapply ended_frame; [solve [eauto 2 with frame nocore]|reflexivity|reflexivity|]
  end.

Lemma exit_active env `{!EnvOk env} t n :
  no_local (handle_session_exit env t n) -> nd_active_target (handle_session_exit env t n) = None.
Proof.
  unfold no_local. rewrite session_exit_catalog by done.
  unfold handle_session_exit. cbv zeta. rewrite (proj1 (proj2 (notify_sessions _ _ _))).
  set (n1 := remove_runtime _ t _). intros Hn.
  assert (Es : nd_sessions n1 = delete t (nd_sessions n)).
  { unfold n1. rewrite (proj1 (remove_runtime_catalog _ _ _)). unfold unregister_from_monitor.
    by destruct (nd_process_monitor n). }
  rewrite <- Es in Hn. apply (remaining_nil env n1) in Hn. unfold activate_next. by rewrite Hn.
Qed.

(** The events that end session [t]. *)
Definition ends_session `{JsonValue} (t : string) (e : Ev.StateEvent) : Prop :=
  e = Ev.LocalSessionChildExit t \/ e = Ev.SessionClosed t \/ exists c, e = Ev.ClientCommand c (Cmd.CloseSession t).

Lemma after_exit env `{RustText} `{JsonValue} t e l : ends_session t e ->
  exists l1, modifies [Sent HostRequests; Sent CatalogNotes; Sent Broadcasts; Sent Answers; Sent Workers; RetryHandles; SavedSnapshots]
    (on_node (handle_session_exit env t) l1) (handle_event env e l).
Proof.
  intros [->|[->|[c ->]]]; simpl.
  - unfold handle_local_session_child_exit. eexists. framed. apply modifies_refl.
  - unfold handle_session_closed. eexists. framed; apply modifies_refl.
  - eexists. framed. apply modifies_refl.
Qed.

(** C38. A node ends with its last session: an event that makes a node shut
    down is the command to stop, or leaves no session of the node's own on
    line; and when the last of them exits or is closed, the node shuts down
    and no session is active. *)
Theorem node_ends_with_its_last_session env `{!EnvOk env} `{RustText} `{JsonValue} l :
  (forall e, nd_shutdown (lp_node l) = false -> nd_shutdown (lp_node (handle_event env e l)) = true ->
     (exists c, e = Ev.ClientCommand c Cmd.Stop) \/ no_local (lp_node (handle_event env e l))) /\
  (forall t e, ends_session t e -> no_local (lp_node (handle_event env e l)) ->
     nd_shutdown (lp_node (handle_event env e l)) = true /\ nd_active_target (lp_node (handle_event env e l)) = None).
Proof.
  split.
  - intros e Hf Ht. assert (Hl : ended l) by (intros E; congruence).
    destruct (within (footprint e) Shutdown) eqn:E;
      [|pose proof (proj2 (event_frame env e l) Shutdown E) as Ea; simpl in Ea; congruence].
    assert (Hs : (exists c, e = Ev.ClientCommand c Cmd.Stop) \/ ended (handle_event env e l)); [|naive_solver].
    destruct e; try discriminate E; try (destruct command; try discriminate E; [by left; eexists|]); right; simpl;
      unfold handle_local_session_child_exit, handle_authority_host_session_exit, handle_session_closed,
        handle_remote_node_reconnect_failed; repeat keeps_ended1.
    apply ended_fold; intros; repeat keeps_ended1.
  - intros t e He Hn. destruct (after_exit env t e l He) as [l1 Hm].
    pose proof (proj2 Hm Sessions eq_refl) as E1. pose proof (proj2 Hm Shutdown eq_refl) as E2.
    pose proof (proj2 Hm ActiveTarget eq_refl) as E3. cbn [agree] in *. rewrite E2, E3.
    unfold no_local in Hn. rewrite E1 in Hn. split; [by apply exit_shutdown; [apply _|right]|by apply exit_active].
Qed.

Lemma node_ends_with_its_last_session_witness :
  let close := Ev.ClientCommand (H := text_json) 1 (Cmd.CloseSession "local#7474:1") in
  nd_shutdown (lp_node two_sessions) = false /\
  nd_shutdown (lp_node (handle_event (H := ascii_text) calm close two_sessions)) = true.
Proof.
  split; [by vm_compute|].
  apply (node_ends_with_its_last_session calm (H := ascii_text) (H0 := text_json) two_sessions) with "local#7474:1"%string.
  - right. right. by eexists.
  - apply map_Forall_to_list. vm_compute. by repeat constructor.
Defined.

(** ** What is typed *)

(** What is typed reaches the session it is typed in, and no other. A key for
    session [t] leaves the catalog, every other local session and every other
    viewer as they were. A local shell is fed the bytes of the key in its own
    cursor mode, a viewer forwards them to its peer in the mode its observer
    has, and a session hosted for others gets them in normal mode through the
    host's loop, under the id at the end of its name; a key for an unknown
    session goes nowhere. *)
Theorem key_reaches_its_session env `{RustText} `{JsonValue} c t k l :
  let n := lp_node l in
  let n' := lp_node (handle_event env (Ev.ClientCommand c (Cmd.Input t k)) l) in
  nd_sessions n' = nd_sessions n /\ nd_active_target n' = nd_active_target n /\
  (forall t', t' <> t -> nd_local_sessions n' !! t' = nd_local_sessions n !! t' /\
                         nd_remote_sessions n' !! t' = nd_remote_sessions n !! t') /\
  match nd_sessions n !! t with
  | None => nd_local_sessions n' = nd_local_sessions n /\ nd_remote_sessions n' = nd_remote_sessions n /\
            sent HostRequests n' = sent HostRequests n
  | Some r =>
      if is_remote r then
        nd_remote_sessions n' !! t =
          (session_feed_input (env_pid env) (translate_key k (remote_translation_mode t n)) (env_io env)
             <$> nd_remote_sessions n !! t) /\
        nd_local_sessions n' = nd_local_sessions n /\ sent HostRequests n' = sent HostRequests n
      else
        nd_remote_sessions n' = nd_remote_sessions n /\
        match nd_local_sessions n !! t with
        | Some s =>
            nd_local_sessions n' !! t = Some (feed_input (translate_key k (local_translation_mode s)) s) /\
            sent HostRequests n' = sent HostRequests n
        | None =>
            nd_local_sessions n' = nd_local_sessions n /\
            sent HostRequests n' =
              sent HostRequests n ++
              match hosted_id t n with Some id => [ToHostIo (WriteInput id (translate_key k normal_mode))] | None => [] end
        end
  end.
Proof.
  intros n n'. subst n'. cbn [handle_event handle_client_command_event handle_client_command]. unfold route_input. fold n.
  assert (R : forall o l1, modifies [Sent Answers] l1 (reply c o l1)) by (intros; apply frame_reply).
  assert (E : forall l1 p, p <> Sent Answers -> agree p l1 (reply c OutcomeOk l1)).
  { intros l1 p Hp. apply R. unfold within. simpl. by rewrite bool_decide_false. }
  pose proof (fun l1 => E l1 Sessions ltac:(done)) as E1. pose proof (fun l1 => E l1 ActiveTarget ltac:(done)) as E2.
  pose proof (fun l1 => E l1 LocalSessions ltac:(done)) as E3. pose proof (fun l1 => E l1 RemoteSessions ltac:(done)) as E4.
  pose proof (fun l1 => E l1 (Sent HostRequests) ltac:(done)) as E5. cbn [agree] in *. clear E R.
  destruct (nd_sessions n !! t) as [r|]; [|rewrite E1, E2, E3, E4, E5; by split_and!].
  destruct (is_remote r); [rewrite E1, E2, E3, E4, E5|].
  - simpl. split_and!; try done; [|by rewrite lookup_alter_eq].
    intros t' Ht. by rewrite lookup_alter_ne.
  - destruct (nd_local_sessions n !! t) as [s|] eqn:Es; rewrite E1, E2, E3, E4, E5; simpl.
    + split_and!; try done; [|by rewrite lookup_alter_eq; fold n; rewrite Es].
      intros t' Ht. by rewrite lookup_alter_ne.
    + destruct (hosted_id t n); simpl; split_and!; try done; [|by rewrite app_nil_r].
      apply (sent_emit (ToHostIo _)).
Qed.
