(* ===== verification/Workers.v ===== *)
(** * Workers: the threads the state loop starts

    [src/ratatui_node/]: [outbound_dial_retry_worker.rs],
    [inbound_connect_wait_worker.rs], [peer_reachability_probe_worker.rs],
    [network_probe.rs], [reconnect_worker.rs] and [client_writer.rs]. A worker
    is a function of what the outside answers, one element per turn of its
    loop; what it sends is its result. *)

From S2P Require Import Prelude Bytes Text SessionCatalog Observer RemoteSession NodeTypes NodeState StateLoop.

#[local] Open Scope Z_scope.

(** What [recv_timeout] on a cancel channel returns. *)
Inductive wait := Cancelled | Closed | Timeout.

(** ** Dialing again *)

Module Retry.

Definition INITIAL_RETRY_DELAY : Z := 500.
Definition MAX_RETRY_DELAY : Z := 5000.
Definition MAX_RETRY_ATTEMPTS : Z := 60.
Definition MAX_RETRY_DURATION : Z := 600000.

(** One turn: whether a cancellation is waiting, the time since the start,
    whether the dial could be queued, and how the wait ended. *)
Record turn := mkTurn { cancelled : bool; elapsed : Z; queued : bool; waited : wait }.

Inductive out := Dial (e : InternalEvent) | WaitFor (ms : Z) | ReconnectFailed (node_id : string).

(** [run_retry_loop]: what is sent, and whether the thread has ended within
    the turns. *)
Fixpoint run_retry_loop (node_id : string) (request : OutboundNodeSessionRequest) (attempt backoff : Z)
    (turns : list turn) : list out * bool :=
  match turns with
  | [] => ([], false)
  | t :: turns =>
      if cancelled t then ([], true)
      else
        let attempt := attempt + 1 in
        if (MAX_RETRY_ATTEMPTS <? attempt) || (MAX_RETRY_DURATION <? elapsed t)
        then ([ReconnectFailed node_id], true)
        else if negb (queued t) then ([ReconnectFailed node_id], true)
        else
          let '(rest, ended) :=
            match waited t with
            | Cancelled | Closed => ([], true)
            | Timeout =>
                run_retry_loop node_id request attempt (Z.min (backoff * 2) MAX_RETRY_DELAY) turns
            end in
          (Dial (InitiateOutboundConnection request) :: WaitFor backoff :: rest, ended)
  end.

Definition start (node_id : string) (request : OutboundNodeSessionRequest) (turns : list turn) : list out * bool :=
  run_retry_loop node_id request 0 INITIAL_RETRY_DELAY turns.

(** A turn in which nobody cancels. *)
Definition undisturbed (t : turn) : bool :=
  negb (cancelled t) && match waited t with Timeout => true | _ => false end.

End Retry.

(** ** Waiting for a peer *)

Module InboundWait.

Definition run_wait_loop (node_id : string) (w : wait) : list Retry.out :=
  match w with Cancelled | Closed => [] | Timeout => [Retry.ReconnectFailed node_id] end.

End InboundWait.

(** ** Probing a peer *)

Module PeerProbe.

(** One turn: how the wait ended and whether the peer could be reached. The
    result is the number of times the peer is reported as reachable. *)
Fixpoint run_probe_loop (was_reachable : bool) (turns : list (wait * bool)) : nat * bool :=
  match turns with
  | [] => (0%nat, false)
  | (w, now_reachable) :: turns =>
      match w with
      | Cancelled | Closed => (0%nat, true)
      | Timeout =>
          if now_reachable && negb was_reachable
          then let '(n, ended) := run_probe_loop true turns in (S n, ended)
          else if negb now_reachable && was_reachable then run_probe_loop false turns
          else run_probe_loop was_reachable turns
      end
  end.

(** [probe_tcp_reachable]: [addrs] is what the name resolves to, each with
    the outcome of connecting to it. *)
Definition probe_tcp_reachable (addrs : option (list bool)) : bool :=
  match addrs with None => false | Some answers => existsb id answers end.

End PeerProbe.

(** ** Probing the network *)

Module NetProbe.

Definition PROBE_INTERVAL : Z := 5000.

(** One turn: whether it is stopped, the time since the last probe, whether
    the network is reachable now, whether the event could be sent, and how
    the wait ended. *)
Record turn := mkTurn { stop : bool; since : Z; online : bool; delivered : bool; waited : wait }.

Fixpoint run_network_loop (last_state : option bool) (turns : list turn) : list bool * bool :=
  match turns with
  | [] => ([], false)
  | t :: turns =>
      if stop t then ([], true)
      else
        let go last_state :=
          match waited t with
          | Cancelled | Closed => ([], true)
          | Timeout => run_network_loop last_state turns
          end in
        if (PROBE_INTERVAL <=? since t) && negb (bool_decide (last_state = Some (online t)))
        then
          if negb (delivered t) then ([], true)
          else let '(rest, ended) := go (Some (online t)) in (online t :: rest, ended)
        else go last_state
  end.

Definition probe_connectivity (reachable : list bool) : bool := existsb id reachable.

End NetProbe.

(** ** Reconnecting a session *)

Module Reconnect.

Definition MAX_ATTEMPTS : Z := 30.
Definition MAX_BACKOFF : Z := 30000.

(** What [RatatuiRemoteSession::open] and the handshake give. *)
Inductive handshake := Connected | Refused | HandshakeTimeout | Dropped.

Inductive opened := Opened (session : RatatuiRemoteSession) (h : handshake) | OpenFailed.

(** One turn: whether a cancellation is waiting, the attempt, and how the
    wait before the next one ended. *)
Record turn := mkTurn { cancelled : bool; attempt_result : opened; waited : wait }.

Inductive out :=
| WaitFor (ms : Z)
| StopSession (s : RatatuiRemoteSession)
| SessionClosed (target_id : string)
| SessionReconnected (target_id : string) (s : RatatuiRemoteSession).

Section run.
Context (env : Env) (record : ManagedSessionRecord) (cols rows : Z).

Definition target_id : string := qualified_target (address record).

(** The viewer as it is handed over: it takes output from any sequence number
    on, and its mirror is requested. *)
Definition adopted (s : RatatuiRemoteSession) : RatatuiRemoteSession :=
  open_mirror (env_pid env) cols rows (env_now env) (env_io env) (session_clear_output_seq s).

Fixpoint run_reconnect_worker (attempt backoff : Z) (turns : list turn) : list out * bool :=
  match turns with
  | [] => ([], false)
  | t :: turns =>
      if cancelled t then ([SessionClosed target_id], true)
      else
        let attempt := attempt + 1 in
        let next :=
          if MAX_ATTEMPTS <=? attempt then ([SessionClosed target_id], true)
          else
            let '(rest, ended) :=
              match waited t with
              | Cancelled | Closed => ([SessionClosed target_id], true)
              | Timeout => run_reconnect_worker attempt (Z.min (backoff * 2) MAX_BACKOFF) turns
              end in
            (WaitFor backoff :: rest, ended) in
        match attempt_result t with
        | Opened s Connected => ([SessionReconnected target_id (adopted s)], true)
        | Opened s _ => let '(rest, ended) := next in (StopSession s :: rest, ended)
        | OpenFailed => next
        end
  end.

Definition start (turns : list turn) : list out * bool := run_reconnect_worker 0 500 turns.

End run.

End Reconnect.

(** ** Writing to clients

    A client's socket is a number; what is written to a socket, and that it
    was shut down, is appended to the log. [ok] says which sockets still take
    a line; flushing such a socket does nothing and cannot fail (the standard
    library's [flush] of a socket), so the test of its result adds nothing. *)

Module Writer.

Record ClientEntry := mkEntry { stream : Z; broadcast : bool }.

Inductive logged := Line (stream : Z) (payload : ServerMessage) | ShutDown (stream : Z).

Inductive request :=
| Register (client_id stream : Z) (broadcast : bool)
| Write (client_id : Z) (payload : ServerMessage)
| Broadcast (payload : ServerMessage)
| Unregister (client_id : Z).

Abbreviation state := (gmap Z ClientEntry).

(** The clients that get a broadcast, in the order of the table. *)
Definition listeners (s : state) : list (Z * ClientEntry) :=
  List.filter (fun ce => broadcast ce.2) (map_to_list s).

Definition step (ok : Z -> bool) (r : request) (s : state) : state * list logged :=
  match r with
  | Register c stream b => (<[c := mkEntry stream b]> s, [])
  | Write c payload =>
      match s !! c with
      | None => (s, [])
      | Some e =>
          if negb (ok (stream e)) then (delete c s, [])
          else if negb (broadcast e) then (delete c s, [Line (stream e) payload; ShutDown (stream e)])
          else (s, [Line (stream e) payload])
      end
  | Broadcast payload =>
      (filter (fun ce => broadcast ce.2 = true -> ok (stream ce.2) = true) s,
       map (fun ce => Line (stream ce.2) payload) (List.filter (fun ce => ok (stream ce.2)) (listeners s)))
  | Unregister c =>
      match s !! c with
      | None => (s, [])
      | Some e => (delete c s, [ShutDown (stream e)])
      end
  end.

Fixpoint run (rs : list (request * (Z -> bool))) (s : state) : state * list logged :=
  match rs with
  | [] => (s, [])
  | (r, ok) :: rs =>
      let '(s, out) := step ok r s in
      let '(s, rest) := run rs s in
      (s, out ++ rest)
  end.

End Writer.

(** * Theorems *)

Module RetryFacts.
Import Retry.

Definition is_dial (o : out) : bool := match o with Dial _ => true | _ => false end.
Definition is_report (o : out) : bool := match o with ReconnectFailed _ => true | _ => false end.
Definition pause (o : out) : Z := match o with WaitFor ms => ms | _ => 0 end.
Definition pauses (l : list out) : Z := foldr (fun o acc => pause o + acc) 0 l.

(** The time [n] further attempts wait, from backoff [b] on. *)
Fixpoint budget (n : nat) (b : Z) : Z :=
  match n with O => 0 | S n => b + budget n (Z.min (b * 2) MAX_RETRY_DELAY) end.

Lemma budget_nonneg n b : 0 <= b -> 0 <= budget n b.
Proof.
  revert b. induction n as [|n IH]; intros b Hb; simpl; [lia|].
  specialize (IH (Z.min (b * 2) MAX_RETRY_DELAY)). unfold MAX_RETRY_DELAY in *. lia.
Qed.

(** From [60 - n] attempts on. *)
Lemma run_bounds node req turns n attempt b :
  attempt = MAX_RETRY_ATTEMPTS - Z.of_nat n -> 0 <= b -> (n < length turns)%nat ->
  let '(outs, ended) := run_retry_loop node req attempt b turns in
  ended = true /\ (length (List.filter is_dial outs) <= n)%nat /\ pauses outs <= budget n b /\
  (length (List.filter is_report outs) <= 1)%nat /\
  (Forall (fun t => undisturbed t = true) turns -> last outs = Some (ReconnectFailed node)) /\
  Forall (fun o => is_dial o = true -> o = Dial (InitiateOutboundConnection req)) outs.
Proof.
  revert n attempt b. induction turns as [|t turns IH]; intros n attempt b Ha Hb Hn; [simpl in Hn; lia|]. simpl.
  pose proof (budget_nonneg n b Hb) as Hbn.
  destruct (cancelled t) eqn:Ec.
  { split_and!; simpl; try done; try lia. intros Hu. apply Forall_cons_1 in Hu as [Hu _]. unfold undisturbed in Hu.
    by rewrite Ec in Hu. }
  destruct ((MAX_RETRY_ATTEMPTS <? attempt + 1) || (MAX_RETRY_DURATION <? elapsed t)) eqn:Eb;
    [split_and!; simpl; try done; try lia; by repeat constructor|].
  apply orb_false_iff in Eb as [Eb _]. apply Z.ltb_ge in Eb. destruct n as [|n]; [lia|].
  destruct (negb (queued t)); [split_and!; simpl in *; try done; try lia; by repeat constructor|].
  destruct (waited t) eqn:Ew.
  1,2: assert (0 <= budget n (Z.min (b * 2) MAX_RETRY_DELAY)) by (apply budget_nonneg; unfold MAX_RETRY_DELAY; lia);
    split_and!; simpl in *; try done; try lia; try (by repeat constructor);
    intros Hu; apply Forall_cons_1 in Hu as [Hu _]; unfold undisturbed in Hu; by rewrite Ec, Ew in Hu.
  - specialize (IH n (attempt + 1) (Z.min (b * 2) MAX_RETRY_DELAY)).
    destruct (run_retry_loop node req (attempt + 1) (Z.min (b * 2) MAX_RETRY_DELAY) turns) as [outs ended].
    destruct IH as (-> & Hd & Hp & Hr & Hl & Hq); [lia|unfold MAX_RETRY_DELAY; lia|simpl in Hn; lia|].
    simpl in *. split_and!; try done; try lia.
    + intros Hu. apply Forall_cons_1 in Hu as [_ Hu]. apply Hl in Hu. by destruct outs.
    + by repeat constructor.
Qed.

(** C35. A lost peer is not dialed for ever. Whatever the threads around it
    do, within 61 turns the retry worker's thread ends; it has dialed at most
    60 times, always the peer it was started for, has slept at most 287.5
    seconds, and has reported failure at most once; and if nobody cancels it,
    the last thing it does is to report that the node could not be reached. *)
Theorem retry_worker_ends node req turns :
  (61 <= length turns)%nat ->
  let '(outs, ended) := start node req turns in
  ended = true /\ (length (List.filter is_dial outs) <= 60)%nat /\ pauses outs <= 287500 /\
  (length (List.filter is_report outs) <= 1)%nat /\
  (Forall (fun t => undisturbed t = true) turns -> last outs = Some (ReconnectFailed node)) /\
  Forall (fun o => is_dial o = true -> o = Dial (InitiateOutboundConnection req)) outs.
Proof. intros Hn. by apply (run_bounds node req turns 60 0 INITIAL_RETRY_DELAY); [done|done|lia]. Qed.

End RetryFacts.

Lemma retry_worker_ends_witness :
  let turns := replicate 61 (Retry.mkTurn false 0 true Timeout) in
  let req := mkOutboundRequest "lab#7474" "tls://10.0.0.2:7474" None None in
  (61 <= length turns)%nat /\ last (Retry.start "lab#7474" req turns).1 = Some (Retry.ReconnectFailed "lab#7474").
Proof.
  intros turns req. split; [done|].
  pose proof (RetryFacts.retry_worker_ends "lab#7474" req turns) as E.
  destruct (Retry.start "lab#7474" req turns) as [outs ended]. destruct E as (_ & _ & _ & _ & E & _); [done|].
  apply E. by apply Forall_replicate.
Defined.

Module ReconnectFacts.
Import Reconnect.

(** The report a worker ends with. *)
Definition report (o : out) : bool :=
  match o with SessionClosed _ | SessionReconnected _ _ => true | WaitFor _ | StopSession _ => false end.

(** The viewer a turn has opened. *)
Definition viewer (t : turn) : list RatatuiRemoteSession :=
  if cancelled t then [] else match attempt_result t with Opened s _ => [s] | OpenFailed => [] end.

(** The turns of a worker with [n] attempts left in which it attempts: up to
    the one that connects, the one after which the wait is cut short, or the
    last, and none once a cancellation is waiting. *)
Fixpoint turns_run (n : nat) (turns : list turn) : list turn :=
  match n, turns with
  | S n, t :: turns =>
      if cancelled t then []
      else
        t :: match attempt_result t, waited t with
             | Opened _ Connected, _ => []
             | _, Timeout => turns_run n turns
             | _, (Cancelled | Closed) => []
             end
  | _, _ => []
  end.

(** The viewer an output is the end of. *)
Definition dropped (o : out) : list RatatuiRemoteSession := match o with StopSession s => [s] | _ => [] end.

Section run.
Context (env : Env) (record : ManagedSessionRecord) (cols rows : Z).

(** [outs] ends with the only report in it, and every viewer of [viewers] was
    stopped, or is the last one and is handed over. *)
Definition reported (viewers : list RatatuiRemoteSession) (outs : list out) : Prop :=
  exists before o, outs = before ++ [o] /\ Forall (fun o => report o = false) before /\
    (o = SessionClosed (target_id record) /\ concat (map dropped before) = viewers \/
     exists s, o = SessionReconnected (target_id record) (adopted env cols rows s) /\
       concat (map dropped before) ++ [s] = viewers).

Lemma reported_cons vs o outs : report o = false -> reported vs outs -> reported (dropped o ++ vs) (o :: outs).
Proof.
  intros Ho (before & r & -> & Hb & Hl). exists (o :: before), r. split_and!; [done|by constructor|]. simpl.
  destruct Hl as [[-> <-]|(s & -> & <-)]; [by left|right; exists s]. by rewrite app_assoc.
Qed.

Lemma reported_closed : reported [] [SessionClosed (target_id record)].
Proof. exists [], (SessionClosed (target_id record)). split_and!; [done|constructor|by left]. Qed.

Lemma run_reported turns n attempt b :
  attempt = MAX_ATTEMPTS - Z.of_nat n -> (n <= length turns)%nat -> (0 < n)%nat ->
  let '(outs, ended) := run_reconnect_worker env record cols rows attempt b turns in
  ended = true /\ reported (concat (map viewer (turns_run n turns))) outs.
Proof.
  revert n attempt b. induction turns as [|t turns IH]; intros n attempt b Ha Hn Hp; [simpl in Hn; lia|].
  destruct n as [|n]; [lia|]. cbn [run_reconnect_worker turns_run].
  destruct (cancelled t) eqn:Ec; [split; [done|apply reported_closed]|].
  set (next := if MAX_ATTEMPTS <=? attempt + 1 then _ else _).
  assert (Hnext : next.2 = true /\
    reported (concat (map viewer (match waited t with Timeout => turns_run n turns | _ => [] end))) next.1).
  { subst next. destruct (MAX_ATTEMPTS <=? attempt + 1) eqn:Em.
    { apply Z.leb_le in Em. assert (n = 0%nat) as -> by (unfold MAX_ATTEMPTS in *; lia).
      split; [done|]. destruct (waited t); apply reported_closed. }
    apply Z.leb_gt in Em. unfold MAX_ATTEMPTS in *. destruct (waited t).
    1,2: split; [done|]; apply (reported_cons []); [done|apply reported_closed].
    specialize (IH n (attempt + 1) (Z.min (b * 2) MAX_BACKOFF)).
    destruct (run_reconnect_worker _ _ _ _ _ _ _) as [outs ended]. simpl in Hn.
    destruct IH as (-> & Hr); [lia..|]. split; [done|]. by apply (reported_cons _ (WaitFor b)). }
  destruct next as [outs ended]. simpl in Hnext. destruct Hnext as (-> & Hr).
  destruct (attempt_result t) as [s []|] eqn:Er; (split; [done|]);
    cbn [map concat]; unfold viewer at 1; rewrite Ec, Er.
  - exists [], (SessionReconnected (target_id record) (adopted env cols rows s)).
    split_and!; [done|constructor|right; by exists s].
  - by apply (reported_cons _ (StopSession s)).
  - by apply (reported_cons _ (StopSession s)).
  - by apply (reported_cons _ (StopSession s)).
  - done.
Qed.

End run.

(** C34. A reconnecting worker reports exactly once, and leaks no viewer.
    Within 30 turns its thread ends; the last thing it does, and the only
    report it makes, is that the session is closed, or that it is reconnected
    with a viewer whose mirror is requested. It attempts in every turn, up to
    the 30th, until it connects or is cancelled before or after an attempt;
    and of the viewers these attempts opened it stops every one, in order,
    except one that connects, which it hands over. *)
Theorem reconnect_worker_reports_once env record cols rows turns :
  (30 <= length turns)%nat ->
  let '(outs, ended) := start env record cols rows turns in
  ended = true /\ reported env record cols rows (concat (map viewer (turns_run 30 turns))) outs.
Proof. intros Hn. by apply (run_reported env record cols rows turns 30 0 500); [done|done|lia]. Qed.

(** A worker that is cancelled reports its session as closed. *)
Lemma cancelled_worker_closes_the_session env record cols rows t turns :
  cancelled t = true -> start env record cols rows (t :: turns) = ([SessionClosed (target_id record)], true).
Proof. intros Hc. unfold start. simpl. by rewrite Hc. Qed.

End ReconnectFacts.

Module ProbeFacts.

(** The times a sequence of observations changes from no to yes. *)
Fixpoint rises (was : bool) (l : list bool) : nat :=
  match l with
  | [] => 0
  | b :: l => (if b && negb was then 1 else 0) + rises b l
  end.

(** A peer is reported reachable once each time it becomes so. *)
Lemma probe_reports_rises was obs :
  PeerProbe.run_probe_loop was (map (pair Timeout) obs) = (rises was obs, false).
Proof.
  revert was. induction obs as [|b obs IH]; intros was; [done|]. simpl. rewrite !IH. by destruct b, was.
Qed.

(** A turn of the network probe in which nothing ends it. *)
Definition quiet (t : NetProbe.turn) : bool :=
  negb (NetProbe.stop t) && NetProbe.delivered t && match NetProbe.waited t with Timeout => true | _ => false end.

Definition due (t : NetProbe.turn) : bool := NetProbe.PROBE_INTERVAL <=? NetProbe.since t.

(** No two neighbours are equal, and the first is not [prev]. *)
Fixpoint alternating (prev : option bool) (l : list bool) : Prop :=
  match l with [] => True | b :: l => Some b <> prev /\ alternating (Some b) l end.

(** The state loop is told the network's state exactly when it changes, and
    knows the last one that was probed. *)
Lemma network_reports_changes known turns :
  Forall (fun t => quiet t = true) turns ->
  let '(events, ended) := NetProbe.run_network_loop known turns in
  ended = false /\ alternating known events /\
  (let probed := map NetProbe.online (List.filter due turns) in
   last (probed) = None /\ events = [] \/ last probed = (match last events with Some b => Some b | None => known end)).
Proof.
  revert known. induction turns as [|t turns IH]; intros known Hq; [simpl; auto|].
  apply Forall_cons_1 in Hq as [Ht Hq]. unfold quiet in Ht. apply andb_true_iff in Ht as [Ht Hw].
  apply andb_true_iff in Ht as [Hs Hd]. apply negb_true_iff in Hs. simpl. rewrite Hs, Hd.
  destruct (NetProbe.waited t); try done. fold (due t).
  assert (Hl : forall (b : bool) bs, last (b :: bs) = match last bs with Some x => Some x | None => Some b end).
  { intros b bs. by destruct bs as [|c bs]; [|rewrite last_cons; destruct (last (c :: bs))]. }
  destruct (due t) eqn:Ed; simpl.
  - case_bool_decide as Ek; simpl.
    + specialize (IH known Hq). destruct (NetProbe.run_network_loop known turns) as [events ended].
      destruct IH as (-> & Ha & Hp). split_and!; [done..|]. right. rewrite Hl.
      destruct Hp as [[-> ->] | ->]; simpl; [congruence|]. by destruct (last events); rewrite ?Ek.
    + specialize (IH (Some (NetProbe.online t)) Hq).
      destruct (NetProbe.run_network_loop (Some (NetProbe.online t)) turns) as [events ended].
      destruct IH as (-> & Ha & Hp). split_and!; [done|split; [congruence|done]|]. right. rewrite !Hl.
      destruct Hp as [[-> ->] | ->]; simpl; [done|]. by destruct (last events).
  - specialize (IH known Hq). destruct (NetProbe.run_network_loop known turns) as [events ended].
    destruct IH as (-> & Ha & Hp). done.
Qed.

End ProbeFacts.

Module WriterFacts.
Import Writer.

Definition line_of (st : Z) (e : logged) : option ServerMessage :=
  match e with Line st' m => if bool_decide (st' = st) then Some m else None | ShutDown _ => None end.

(** What is written to one socket. *)
Definition lines (st : Z) (log : list logged) : list ServerMessage := omap (line_of st) log.

(** What a client with entry [e] gets: everything meant for it until its
    socket fails or it is unregistered; a client that does not listen to
    broadcasts gets the first answer. *)
Fixpoint gets (c : Z) (e : option ClientEntry) (rs : list (request * (Z -> bool))) : list ServerMessage :=
  match e, rs with
  | None, _ | _, [] => []
  | Some e, (r, ok) :: rs =>
      match r with
      | Register _ _ _ => gets c (Some e) rs
      | Write c' m =>
          if negb (bool_decide (c' = c)) then gets c (Some e) rs
          else if negb (ok (stream e)) then []
          else if negb (broadcast e) then [m]
          else m :: gets c (Some e) rs
      | Broadcast m =>
          if negb (broadcast e) then gets c (Some e) rs
          else if negb (ok (stream e)) then []
          else m :: gets c (Some e) rs
      | Unregister c' => if bool_decide (c' = c) then [] else gets c (Some e) rs
      end
  end.

(** Neither the client nor its socket is registered again. *)
Definition not_again (c st : Z) (r : request) : Prop :=
  match r with Register c' st' _ => c' <> c /\ st' <> st | _ => True end.

(** A socket belongs to one client. *)
Definition own (c st : Z) (s : state) : Prop := forall c' e, s !! c' = Some e -> stream e = st -> c' = c.

Lemma lines_app st l l' : lines st (l ++ l') = lines st l ++ lines st l'.
Proof. apply omap_app. Qed.

Lemma own_sub c st s s' : s' ⊆ s -> own c st s -> own c st s'.
Proof. intros Hs Ho c' e He. apply Ho. by eapply lookup_weaken. Qed.

Lemma step_own c st ok r s : not_again c st r -> own c st s -> own c st (step ok r s).1.
Proof.
  intros Hr Ho. destruct r; simpl.
  - intros c' e He Hst. apply lookup_insert_Some in He as [[<- <-]|[_ He]]; [by destruct Hr|by apply (Ho c' e)].
  - repeat case_match; try done; apply (own_sub c st s); try done; apply delete_subseteq.
  - apply (own_sub c st s); [|done]. apply map_filter_subseteq.
  - case_match; [|done]. apply (own_sub c st s); [apply delete_subseteq|done].
Qed.

(** The lines of a broadcast on one socket, for a list of clients. *)
Definition told (ok : Z -> bool) (m : ServerMessage) (st : Z) (l : list (Z * ClientEntry)) : list ServerMessage :=
  lines st (map (fun ce => Line (stream ce.2) m) (List.filter (fun ce => ok (stream ce.2))
    (List.filter (fun ce => broadcast ce.2) l))).

Lemma told_cons ok m st c e l : told ok m st ((c, e) :: l) =
  (if bool_decide (stream e = st) && broadcast e && ok st then [m] else []) ++ told ok m st l.
Proof.
  unfold told. simpl. destruct (broadcast e); simpl; [|by rewrite andb_false_r].
  case_bool_decide as E; simpl; [subst; destruct (ok (stream e)); simpl; [|done]; by rewrite bool_decide_true|].
  destruct (ok (stream e)); simpl; [|done]. by rewrite bool_decide_false.
Qed.

Lemma told_none ok m st l : (forall c e, (c, e) ∈ l -> stream e <> st) -> told ok m st l = [].
Proof.
  induction l as [|[c e] l IH]; intros Hn; [done|]. rewrite told_cons, bool_decide_false by (apply (Hn c); set_solver).
  simpl. apply IH. set_solver.
Qed.

Lemma told_perm ok m st l l' : l ≡ₚ l' -> told ok m st l ≡ₚ told ok m st l'.
Proof.
  induction 1 as [|[c e] l l' _ IH|[c e] [c' e'] l|]; rewrite ?told_cons; [done|by rewrite IH| |by etrans].
  rewrite !app_assoc. apply Permutation_app_tail, Permutation_app_comm.
Qed.

(** A broadcast reaches a socket at most once. *)
Lemma broadcast_lines c st ok m s : own c st s ->
  lines st (step ok (Broadcast m) s).2 =
    match s !! c with
    | Some e => if bool_decide (stream e = st) && broadcast e && ok st then [m] else []
    | None => []
    end.
Proof.
  intros Ho. change (lines st (step ok (Broadcast m) s).2) with (told ok m st (map_to_list s)).
  destruct (s !! c) as [e|] eqn:Ec.
  - assert (Hp : told ok m st (map_to_list s) ≡ₚ (if bool_decide (stream e = st) && broadcast e && ok st then [m] else [])).
    { rewrite (told_perm _ _ _ _ _ (Permutation_sym (map_to_list_delete s c e Ec))), told_cons, told_none, app_nil_r; [done|].
      intros c' e' Hi Hst. apply elem_of_map_to_list, lookup_delete_Some in Hi as [Hne Hi]. by apply Hne, eq_sym, (Ho c' e'). }
    destruct (bool_decide (stream e = st) && broadcast e && ok st);
      [by apply Permutation_singleton_r in Hp|by apply Permutation_nil_r in Hp].
  - apply told_none. intros c' e' Hi Hst. apply elem_of_map_to_list in Hi.
    assert (c' = c) as -> by (by apply (Ho c' e')). congruence.
Qed.

Lemma gets_none c rs : gets c None rs = [].
Proof. by destruct rs. Qed.

(** One request, for a client and its socket. *)
Lemma step_gets c st ok r s rs :
  not_again c st r -> own c st s -> (forall e, s !! c = Some e -> stream e = st) ->
  lines st (step ok r s).2 ++ gets c ((step ok r s).1 !! c) rs = gets c (s !! c) ((r, ok) :: rs) /\
  (forall e, (step ok r s).1 !! c = Some e -> stream e = st).
Proof.
  intros Hr Ho Hst. destruct r as [c' st' b|c' m|m|c'].
  - destruct Hr as [Hc _]. simpl. rewrite lookup_insert_ne by done. by destruct (s !! c); rewrite ?gets_none.
  - simpl. destruct (decide (c' = c)) as [->|Hc].
    + destruct (s !! c) as [e|] eqn:Ec; [|simpl; by rewrite Ec, gets_none]. rewrite <- (Hst e eq_refl) in *.
      rewrite bool_decide_true by done. destruct (ok (stream e)), (broadcast e); simpl;
        rewrite ?bool_decide_true, ?lookup_delete_eq, ?Ec, ?gets_none by done; naive_solver.
    + rewrite bool_decide_false by done. destruct (s !! c') as [e'|] eqn:Ec'; [|simpl; by destruct (s !! c); rewrite ?gets_none].
      assert (Hne : stream e' <> st) by (intros E; by apply Hc, (Ho c' e')).
      destruct (ok (stream e')), (broadcast e'); simpl; rewrite ?bool_decide_false, ?lookup_delete_ne by done; simpl;
        by destruct (s !! c); rewrite ?gets_none.
  - rewrite (broadcast_lines c st ok m s Ho). simpl. destruct (s !! c) as [e|] eqn:Ec.
    + rewrite (Hst e eq_refl), bool_decide_true by done. simpl.
      assert (Ef : filter (fun ce : Z * ClientEntry => broadcast ce.2 = true -> ok (stream ce.2) = true) s !! c =
        if broadcast e && negb (ok st) then None else Some e).
      { destruct (broadcast e && negb (ok st)) eqn:Eb.
        - apply andb_true_iff in Eb as [Eb Eo]. apply negb_true_iff in Eo. apply map_lookup_filter_None. right.
          intros e' Ee. rewrite Ec in Ee. injection Ee as <-. simpl. rewrite (Hst e eq_refl), Eo, Eb. intros Hi. by specialize (Hi eq_refl).
        - apply map_lookup_filter_Some. split; [done|]. simpl. rewrite (Hst e eq_refl). intros Eb'. rewrite Eb' in Eb.
          by apply negb_false_iff. }
      rewrite Ef. destruct (broadcast e), (ok st); simpl; rewrite ?gets_none; naive_solver.
    + assert (Ef : filter (fun ce : Z * ClientEntry => broadcast ce.2 = true -> ok (stream ce.2) = true) s !! c = None)
        by (apply map_lookup_filter_None; by left). by rewrite Ef, gets_none.
  - simpl. destruct (decide (c' = c)) as [->|Hc].
    + rewrite bool_decide_true by done. destruct (s !! c) as [e|] eqn:Ec; [|simpl; by rewrite Ec, gets_none]. simpl. by rewrite lookup_delete_eq, gets_none.
    + rewrite bool_decide_false by done. destruct (s !! c') as [e'|] eqn:Ec'; [|simpl; by destruct (s !! c); rewrite ?gets_none].
      simpl. rewrite lookup_delete_ne by done. by destruct (s !! c); rewrite ?gets_none.
Qed.

(** C24. A client gets exactly the lines meant for it, in order. Whatever the
    state loop sends for all clients and whichever sockets fail, what is
    written to the socket of a client is what [gets] says: for a client of
    the user interface its answers and all broadcasts, until its socket fails
    or it is unregistered; for a client that sent one command the first
    answer, and nothing after it. *)
Theorem client_gets_its_lines c st rs s :
  own c st s -> (forall e, s !! c = Some e -> stream e = st) -> Forall (fun r => not_again c st r.1) rs ->
  lines st (run rs s).2 = gets c (s !! c) rs.
Proof.
  revert s. induction rs as [|[r ok] rs IH]; intros s Ho Hst Hr; [by destruct (s !! c)|].
  apply Forall_cons_1 in Hr as [Hr Hrs]. destruct (step_gets c st ok r s rs Hr Ho Hst) as [E Hst'].
  pose proof (step_own c st ok r s Hr Ho) as Ho'. specialize (IH _ Ho' Hst' Hrs). rewrite <- E.
  cbn [run]. destruct (step ok r s) as [s' out]. simpl in *. destruct (run rs s') as [s'' rest]. simpl in *.
  by rewrite lines_app, IH.
Qed.

End WriterFacts.

(** One client of the user interface and one with a single command. *)
Definition sample_requests : list (Writer.request * (Z -> bool)) :=
  map (fun r => (r, fun _ => true))
    [Writer.Broadcast (History "a" [] []); Writer.Write 2 (Response (control_response OutcomeOk));
     Writer.Write 2 (Response (control_response OutcomeOk)); Writer.Write 1 (Response (control_response OutcomeOk))].

Lemma client_gets_its_lines_witness :
  let s := <[1 := Writer.mkEntry 11 true]> (<[2 := Writer.mkEntry 12 false]> ∅) in
  WriterFacts.lines 12 (Writer.run sample_requests s).2 = [Response (control_response OutcomeOk)].
Proof.
  intros s. rewrite (WriterFacts.client_gets_its_lines 2 12 sample_requests s); [done| | |].
  - intros c e Hc Hs. apply lookup_insert_Some in Hc as [[<- <-]|[_ Hc]]; [done|].
    by apply lookup_insert_Some in Hc as [[<- <-]|[_ Hc]].
  - intros e [= <-]. done.
  - by repeat constructor.
Defined.

Definition sample_record : ManagedSessionRecord :=
  mkManagedSessionRecord (remote_peer "lab#7474" "1") None Online None None None [] 0 1 (Some "zsh") None None
    None Input.

Lemma reconnect_worker_reports_once_witness :
  let turns := replicate 30 (Reconnect.mkTurn false Reconnect.OpenFailed Timeout) in
  (30 <= length turns)%nat /\
  ReconnectFacts.reported calm sample_record 80 24 (concat (map ReconnectFacts.viewer (ReconnectFacts.turns_run 30 turns)))
    (Reconnect.start calm sample_record 80 24 turns).1.
Proof.
  intros turns. split; [done|].
  pose proof (ReconnectFacts.reconnect_worker_reports_once calm sample_record 80 24 turns) as E.
  destruct (Reconnect.start calm sample_record 80 24 turns) as [outs ended]. by destruct E as [_ E].
Defined.
