(* ===== verification/ClientProtocol.v ===== *)
(** * Client protocol: the lines between a client and its node

    [src/ratatui_node/client.rs]: how the node reads the commands of a client
    and what it sends to the state loop and the writer for them;
    [src/ratatui_node/client_runtime.rs] and
    [src/host/ssh/connect_remote_host_pane_runtime.rs]: the lines the user
    interface writes. Base64 and the JSON of a key are third-party code,
    parameters with the law that decoding is inverse to encoding. The
    connection between the two is the stream of bytes that [writeln!] writes
    and that [BufRead::read_line] cuts at every line feed. *)

From stdpp Require Import pretty countable strings.
From S2P Require Import Prelude Bytes Utf8 Str Decimal Numbers SessionCatalog AgentDetector Keys NodeTypes Workers.

#[local] Open Scope Z_scope.

(** ** Texts and strings *)

Definition of_text (t : text) : string := String.string_of_list_byte (text_bytes t).

(** ** Third-party encodings *)

Class ControlCodec := {
  b64_encode : list byte -> text;
  b64_decode : text -> option (list byte);
  key_to_json : LogicalKey -> list byte;
  key_of_json : list byte -> option LogicalKey;
  b64_decode_encode : forall bs, b64_decode (b64_encode bs) = Some bs;
  b64_plain : forall bs, Forall (fun ch => is_whitespace ch = false) (b64_encode bs);
  b64_scalar : forall bs, Forall scalar (b64_encode bs);
  b64_nonempty : forall bs, bs <> [] -> b64_encode bs <> [];
  key_of_to_json : forall k, key_of_json (key_to_json k) = Some k;
  key_json_nonempty : forall k, key_to_json k <> [] }.

Section protocol.
Context `{ControlCodec}.

(** ** Reading a command *)

Definition SPACE : char := 32.

(** [str::splitn(2, ' ')] and [str::splitn(3, ' ')]: the first piece and the
    others, where there are any. *)
Definition splitn2 (t : text) : text * option text :=
  match split_once [SPACE] t with Some (a, b) => (a, Some b) | None => (t, None) end.

Definition splitn3 (t : text) : text * option text * option text :=
  match splitn2 t with
  | (a, Some rest) => let '(b, c) := splitn2 rest in (a, Some b, c)
  | (a, None) => (a, None, None)
  end.

(** [base64] and [String::from_utf8], with the filter of [RELAY_JOIN]. *)
Definition decode_text (t : text) : option string := b64_decode t ≫= from_utf8.

Definition decode_nonblank (t : text) : option string :=
  s ← decode_text t; if nonempty (str_trim (utf8 s)) then Some s else None.

(** The trailing flags of [RELAY_JOIN], each at most once. *)
Fixpoint join_flags (force use_proxy : bool) (flags : list text) : option (bool * bool) :=
  match flags with
  | [] => Some (force, use_proxy)
  | flag :: flags =>
      if bool_decide (flag = lit "FORCE") && negb force then join_flags true use_proxy flags
      else if bool_decide (flag = lit "VIA_PROXY") && negb use_proxy then join_flags force true flags
      else None
  end.

Definition parse_resize (args : text) : Cmd.ClientCommand :=
  let parts := split_whitespace args in
  Cmd.Resize (default 80 (head parts ≫= parse_uint 16)) (default 24 (head (tail parts) ≫= parse_uint 16)).

Definition parse_input (args : text) : option Cmd.ClientCommand :=
  let '(target, encoded) := splitn2 args in
  bytes ← b64_decode (default [] encoded);
  key ← key_of_json bytes;
  Some (Cmd.Input (of_text target) key).

Definition parse_paste_text (args : text) : option Cmd.ClientCommand :=
  let '(target, encoded) := splitn2 args in
  txt ← decode_text (default [] encoded);
  Some (Cmd.PasteText (of_text target) txt).

Definition parse_paste_file (args : text) : option Cmd.ClientCommand :=
  let '(target, hint, encoded) := splitn3 args in
  bytes ← b64_decode (default [] encoded);
  Some (Cmd.PasteFile (of_text target) (of_text (default (lit "paste") hint)) bytes).

Definition parse_create_remote (args : text) : Cmd.ClientCommand :=
  let '(node, cwd) := splitn2 args in
  Cmd.CreateRemoteSession (of_text node)
    (match cwd with Some cwd => if nonempty cwd then Some (of_text cwd) else None | None => None end).

Definition parse_relay_probe (args : text) : option Cmd.ClientCommand :=
  let parts := split_whitespace args in
  let peer := default [] (head parts) in
  match head (tail parts) ≫= parse_uint 32, head (tail (tail parts)) ≫= parse_uint 32 with
  | Some streams, Some hold_secs =>
      if nonempty peer then Some (Cmd.E2eRelayProbe (of_text peer) streams hold_secs) else None
  | _, _ => None
  end.

Definition parse_relay_join (args : text) : option Cmd.ClientCommand :=
  let parts := split_whitespace args in
  let address := head parts ≫= decode_nonblank in
  let token := head (tail parts) ≫= decode_nonblank in
  match join_flags false false (tail (tail parts)) with
  | None => None
  | Some (force, use_proxy) =>
      match address, token with
      | Some address, Some token => Some (Cmd.RelayJoin address token force use_proxy)
      | _, _ => None
      end
  end.

Definition parse_set_public (args : text) : Cmd.ClientCommand :=
  let trimmed_args := str_trim args in
  let save := str_ends_with (lit " SAVE") trimmed_args in
  let endpoint_part :=
    if save then str_trim (default trimmed_args (strip_suffix (lit " SAVE") trimmed_args)) else trimmed_args in
  Cmd.SetPublic (if nonempty endpoint_part then Some (of_text endpoint_part) else None) save.

(** [if let Some(args) = t.strip_prefix(p) { f(args) } else { k }]. *)
Definition prefixed (p : string) (t : text) (f : text -> option Cmd.ClientCommand) (k : option Cmd.ClientCommand) :
    option Cmd.ClientCommand :=
  match strip_prefix (lit p) t with Some args => f args | None => k end.

Definition parse_command (line : text) : option Cmd.ClientCommand :=
  let trimmed := str_trim line in
  if bool_decide (trimmed = lit "ATTACH") then Some Cmd.Attach
  else if bool_decide (trimmed = lit "STATUS") then Some Cmd.Status
  else if bool_decide (trimmed = lit "STOP") then Some Cmd.Stop
  else if bool_decide (trimmed = lit "LIST_SESSIONS") then Some Cmd.ListSessions
  else if bool_decide (trimmed = lit "CREATE_LOCAL_SESSION") then Some (Cmd.CreateLocalSession None)
  else if bool_decide (trimmed = lit "DETACH_ALL") then Some Cmd.DetachAll
  else if bool_decide (trimmed = lit "CLEAR_PUBLIC") then Some (Cmd.SetPublic None false)
  else if bool_decide (trimmed = lit "SET_PUBLIC") then Some (Cmd.SetPublic None false)
  else
    prefixed "ACTIVATE_TARGET " trimmed (fun args => Some (Cmd.ActivateTarget (of_text args)))
    (prefixed "CONNECT_REMOTE_HOST " trimmed (fun args => Some (Cmd.ConnectRemoteHost (of_text args)))
    (prefixed "RESIZE " trimmed (fun args => Some (parse_resize args))
    (prefixed "INPUT " trimmed parse_input
    (prefixed "PASTE_TEXT " trimmed parse_paste_text
    (prefixed "PASTE_FILE " trimmed parse_paste_file
    (prefixed "GET_HISTORY " trimmed (fun args => Some (Cmd.GetHistory (of_text args)))
    (prefixed "CREATE_REMOTE_SESSION " trimmed (fun args => Some (parse_create_remote args))
    (prefixed "E2E_RELAY_PROBE " trimmed parse_relay_probe
    (prefixed "RELAY_JOIN " trimmed parse_relay_join
    (if bool_decide (trimmed = lit "RELAY_REMOVE") then Some Cmd.RelayRemove
     else
       prefixed "CREATE_LOCAL_SESSION " trimmed (fun cwd => Some (Cmd.CreateLocalSession (Some (of_text cwd))))
       (prefixed "SET_PUBLIC " trimmed (fun args => Some (parse_set_public args))
       (prefixed "CLOSE_SESSION " trimmed (fun args => Some (Cmd.CloseSession (of_text args))) None)))))))))))).

(** ** A client's connection

    [read_line] gives a line, the end of the connection or an error. The node
    registers the connection with the writer, and sends its events to the
    state loop. *)

Inductive received := ReadLine (line : text) | ReadEnd | ReadError.

Inductive client_action :=
| RegisterClient (broadcast : bool)
| AddHandle
| RemoveHandle
| ClientConnects
| ClientCommands (command : Cmd.ClientCommand)
| ClientLeaves.

Definition command_action (trimmed : text) : list client_action :=
  match parse_command trimmed with Some command => [ClientCommands command] | None => [] end.

(** The loop over the further lines of an attached client. *)
Fixpoint client_loop (lines : list received) : list client_action :=
  match lines with
  | ReadLine line :: lines =>
      let trimmed := str_trim line in
      if bool_decide (trimmed = lit "DETACH") then []
      else command_action trimmed ++ client_loop lines
  | (ReadEnd | ReadError) :: _ | [] => []
  end.

Definition handle_client (first : received) (lines : list received) : list client_action :=
  match first with
  | ReadEnd | ReadError => []
  | ReadLine line =>
      let trimmed := str_trim line in
      if bool_decide (trimmed = lit "ATTACH") then
        [RegisterClient true; AddHandle; ClientConnects] ++ command_action trimmed ++
        client_loop lines ++ [RemoveHandle; ClientLeaves]
      else [RegisterClient false] ++ command_action trimmed
  end.

(** [BufRead::read_line] over the bytes of a connection: a line is everything
    up to and with the next line feed, or up to the end; one that is not UTF-8
    is an error, and after the last comes the end. *)
Fixpoint lines_from (line bytes : list byte) : list (list byte) :=
  match bytes with
  | [] => if bool_decide (line = []) then [] else [line]
  | b :: bytes => if bool_decide (b = x0a) then (line ++ [b]) :: lines_from [] bytes else lines_from (line ++ [b]) bytes
  end.

Definition line_read (line : list byte) : received :=
  match from_utf8 line with Some s => ReadLine (utf8 s) | None => ReadError end.

Definition read_lines (bytes : list byte) : list received := (line_read <$> lines_from [] bytes) ++ [ReadEnd].

Definition serve_client (bytes : list byte) : list client_action :=
  match read_lines bytes with first :: lines => handle_client first lines | [] => [] end.

(** [remove_client]: the first handle of the client leaves the table. *)
Fixpoint remove_client (client_id : Z) (clients : list Z) : list Z :=
  match clients with
  | [] => []
  | c :: clients => if c =? client_id then clients else c :: remove_client client_id clients
  end.

(** ** Writing a command *)

Definition num (z : Z) : text := lit (pretty z).

(** What the user interface writes for a command, without the end of line. *)
Inductive written :=
| WAttach | WDetach
| WActivate (id : text)
| WConnect (profile : text)
| WResize (cols rows : Z)
| WInput (target : text) (key : LogicalKey)
| WPasteText (target txt : text)
| WPasteFile (target hint : text) (bytes : list byte)
| WHistory (target : text)
| WCreateRemote (node cwd : text)
| WCreateLocal (cwd : text)
| WSetPublic (endpoint : option text) (save : bool)
| WRelayJoin (address token : text) (force use_proxy : bool)
| WRelayRemove.

Definition flag (b : bool) (s : string) : text := if b then lit s else [].

Definition paste_text_line (target txt : text) : text :=
  lit "PASTE_TEXT " ++ target ++ [SPACE] ++ b64_encode (text_bytes txt).

Definition paste_file_line (target hint : text) (bytes : list byte) : text :=
  lit "PASTE_FILE " ++ target ++ [SPACE] ++ hint ++ [SPACE] ++ b64_encode bytes.

Definition set_public_line (endpoint : option text) (save : bool) : text :=
  match endpoint with
  | Some endpoint => lit "SET_PUBLIC " ++ endpoint ++ flag save " SAVE"
  | None => lit "CLEAR_PUBLIC" ++ flag save " SAVE"
  end.

Definition relay_join_line (address token : text) (force use_proxy : bool) : text :=
  lit "RELAY_JOIN " ++ b64_encode (text_bytes address) ++ [SPACE] ++ b64_encode (text_bytes token)
    ++ flag force " FORCE" ++ flag use_proxy " VIA_PROXY".

Definition line_of (w : written) : text :=
  match w with
  | WAttach => lit "ATTACH"
  | WDetach => lit "DETACH"
  | WActivate id => lit "ACTIVATE_TARGET " ++ id
  | WConnect profile => lit "CONNECT_REMOTE_HOST " ++ profile
  | WResize cols rows => lit "RESIZE " ++ num cols ++ [SPACE] ++ num rows
  | WInput target key => lit "INPUT " ++ target ++ [SPACE] ++ b64_encode (key_to_json key)
  | WPasteText target txt => paste_text_line target txt
  | WPasteFile target hint bytes => paste_file_line target hint bytes
  | WHistory target => lit "GET_HISTORY " ++ target
  | WCreateRemote node cwd => lit "CREATE_REMOTE_SESSION " ++ node ++ [SPACE] ++ cwd
  | WCreateLocal cwd => lit "CREATE_LOCAL_SESSION " ++ cwd
  | WSetPublic endpoint save => set_public_line endpoint save
  | WRelayJoin address token force use_proxy => relay_join_line address token force use_proxy
  | WRelayRemove => lit "RELAY_REMOVE"
  end.

(** [writeln!(stream, ..)]. *)
Definition written_bytes (w : written) : list byte := text_bytes (line_of w ++ [10]).

(** [main_pane_size], in 16 bits. *)
Definition main_pane_size (cols rows : Z) (sidebar_hidden : bool) : Z * Z :=
  let chrome_rows := Z.max (Z.max 0 (rows - 1)) 1 in
  if sidebar_hidden then (Z.max cols 1, chrome_rows) else (Z.max (Z.max 0 (cols - 33)) 1, chrome_rows).

End protocol.

(** ** Reading back what was written *)

Section text_facts.

Lemma utf8_of_text t : Forall scalar t -> utf8 (of_text t) = t.
Proof.
  intros Ht. unfold utf8, of_text, as_bytes. rewrite String.list_byte_of_string_of_list_byte.
  unfold from_utf8_lossy, decode_utf8_chars. rewrite decode_loop_each.
  pose proof (decode_each_encode t [] Ht) as E. rewrite app_nil_r in E. rewrite E. simpl. by rewrite !app_nil_r.
Qed.

Lemma valid_2 a b : 2 <= a < 32 -> 0 <= b < 64 -> utf8_valid [byte_of (0xC0 + a); byte_of (0x80 + b)] = true.
Proof.
  intros. rewrite utf8_valid_cons, byte_val_small, ltb_le_false by lia. utf8_tests.
  by rewrite bool_decide_true, is_cont_of by lia.
Qed.

Lemma valid_3 a b c : 0 <= a < 16 -> 0 <= b < 64 -> 0 <= c < 64 -> (a = 0 -> 32 <= b) -> (a = 13 -> b < 32) ->
  utf8_valid [byte_of (0xE0 + a); byte_of (0x80 + b); byte_of (0x80 + c)] = true.
Proof.
  intros. rewrite utf8_valid_cons, byte_val_small, ltb_le_false by lia. utf8_tests.
  by rewrite bool_decide_false, !bool_decide_true, is_cont_of by lia.
Qed.

Lemma valid_4 a b c d : 0 <= a < 5 -> 0 <= b < 64 -> 0 <= c < 64 -> 0 <= d < 64 ->
  (a = 0 -> 16 <= b) -> (a = 4 -> b < 16) ->
  utf8_valid [byte_of (0xF0 + a); byte_of (0x80 + b); byte_of (0x80 + c); byte_of (0x80 + d)] = true.
Proof.
  intros. rewrite utf8_valid_cons, byte_val_small, ltb_le_false by lia. utf8_tests.
  by rewrite 2!bool_decide_false, !bool_decide_true, 2!is_cont_of by lia.
Qed.

Lemma encode_valid ch : scalar ch -> utf8_valid (utf8_encode ch) = true.
Proof.
  intros Hs. unfold scalar in Hs. unfold utf8_encode.
  destruct (Z.ltb_spec ch 0x80); [|destruct (Z.ltb_spec ch 0x800); [|destruct (Z.ltb_spec ch 0x10000)]].
  - by rewrite utf8_valid_cons, byte_val_small, (proj2 (Z.ltb_lt ch 128)) by lia.
  - apply valid_2; Z.to_euclidean_division_equations; lia.
  - apply valid_3; Z.to_euclidean_division_equations; lia.
  - apply valid_4; Z.to_euclidean_division_equations; lia.
Qed.

Lemma from_utf8_text t : Forall scalar t -> from_utf8 (text_bytes t) = Some (of_text t).
Proof.
  intros Ht. unfold from_utf8, of_text.
  assert (E : utf8_valid (text_bytes t) = true); [|by rewrite E].
  induction Ht as [|ch t Hc Ht IH]; [done|]. unfold text_bytes in *. cbn [mbind list_bind].
  apply utf8_valid_app; [by apply encode_valid|done].
Qed.

(** A text that begins and ends with something is not trimmed. *)
Lemma trim_end_last f d : is_whitespace d = false -> trim_end (f ++ [d]) = f ++ [d].
Proof. intros Hd. unfold trim_end. rewrite rev_app_distr. simpl. rewrite Hd. simpl. by rewrite rev_involutive. Qed.

Lemma str_trim_edges c r f d : is_whitespace c = false -> is_whitespace d = false -> c :: r = f ++ [d] ->
  str_trim (c :: r) = c :: r.
Proof. intros Hc Hd E. unfold str_trim. simpl. rewrite Hc, E. by apply trim_end_last. Qed.

(** The end of a trimmed text. *)
Definition solid_end (t : text) : Prop := exists f d, t = f ++ [d] /\ is_whitespace d = false.

Lemma trimmed_end t : str_trim t = t -> t <> [] -> solid_end t.
Proof.
  intros E Hn. unfold str_trim, trim_end in E. destruct (trim_start_head (rev (trim_start t))) as [E'|(ch & r & E' & Hw)].
  - rewrite E' in E. by subst.
  - rewrite E' in E. simpl in E. exists (rev r), ch. by rewrite E.
Qed.

Lemma plain_end t : Forall (fun ch => is_whitespace ch = false) t -> t <> [] -> solid_end t.
Proof.
  intros Hp Hn. destruct t as [|d f _] using rev_ind; [done|]. exists f, d. split; [done|].
  apply Forall_app in Hp as [_ Hp]. by apply Forall_cons_1 in Hp as [Hp _].
Qed.

Lemma solid_app a b : solid_end b -> solid_end (a ++ b).
Proof. intros (f & d & -> & Hd). exists (a ++ f), d. by rewrite app_assoc. Qed.

Lemma trim_solid c r : is_whitespace c = false -> solid_end (c :: r) -> str_trim (c :: r) = c :: r.
Proof. intros Hc (f & d & E & Hd). by apply (str_trim_edges c r f d). Qed.

(** Splitting at the first space. *)
Lemma split_space a b : Forall (fun ch => ch <> SPACE) a -> split_once [SPACE] (a ++ SPACE :: b) = Some (a, b).
Proof.
  induction 1 as [|c a Hc Ha IH]; [done|]. cbn [app split_once strip_prefix].
  rewrite (proj2 (Z.eqb_neq SPACE c)) by done. by rewrite IH.
Qed.

Lemma plain_no_space t : Forall (fun ch => is_whitespace ch = false) t -> Forall (fun ch => ch <> SPACE) t.
Proof. intros Ht. eapply Forall_impl; [exact Ht|]. by intros ch E ->. Qed.

(** Words separated by single spaces. *)
Lemma split_by_plain sep t : Forall (fun ch => sep ch = false) t -> split_by sep t = [t].
Proof. induction 1 as [|c t Hc Ht IH]; [done|]. simpl. by rewrite Hc, IH. Qed.

Lemma split_by_word sep t c rest : Forall (fun ch => sep ch = false) t -> sep c = true ->
  split_by sep (t ++ c :: rest) = t :: split_by sep rest.
Proof. intros Ht Hc. induction Ht as [|x t Hx Ht IH]; simpl; [by rewrite Hc|]. by rewrite Hx, IH. Qed.

Lemma words_one t : Forall (fun ch => is_whitespace ch = false) t -> t <> [] -> split_whitespace t = [t].
Proof. intros Ht Hn. unfold split_whitespace. rewrite split_by_plain by done. simpl. by destruct t. Qed.

Lemma words_cons t rest : Forall (fun ch => is_whitespace ch = false) t -> t <> [] ->
  split_whitespace (t ++ SPACE :: rest) = t :: split_whitespace rest.
Proof. intros Ht Hn. unfold split_whitespace. rewrite split_by_word by done. simpl. by destruct t. Qed.

(** What [parse] accepts has no white space. *)
Lemma parse_digits_plain w acc t z : parse_digits w acc t = Some z -> Forall (fun ch => is_whitespace ch = false) t.
Proof.
  revert acc. induction t as [|c t IH]; intros acc E; [constructor|]. cbn [parse_digits] in E. unfold is_ascii_digit in E.
  destruct (Z.leb_spec 48 c); [|done]. destruct (Z.leb_spec c 57); [|done]. cbv zeta in E. simpl in E.
  case_match; [|done]. constructor; [|by eapply IH]. unfold is_whitespace. lia.
Qed.

Lemma parse_uint_plain w t z : parse_uint w t = Some z -> Forall (fun ch => is_whitespace ch = false) t /\ t <> [].
Proof.
  intros E. split; [|by intros ->]. unfold parse_uint in E.
  repeat case_match; try done; subst; repeat (constructor; [done|]); eauto using parse_digits_plain.
Qed.

Lemma num_word z : fits 16 z -> Forall (fun ch => is_whitespace ch = false) (num z) /\ num z <> [].
Proof. intros Hz. apply (parse_uint_plain 16 _ z). by apply parse_uint_pretty. Qed.

End text_facts.

(** ** What the node makes of a line *)

Section readback.
Context `{ControlCodec}.

Definition meaning (w : written) : option Cmd.ClientCommand :=
  match w with
  | WAttach => Some Cmd.Attach
  | WDetach => None
  | WActivate id => Some (Cmd.ActivateTarget (of_text id))
  | WConnect profile => Some (Cmd.ConnectRemoteHost (of_text profile))
  | WResize cols rows => Some (Cmd.Resize cols rows)
  | WInput target key => Some (Cmd.Input (of_text target) key)
  | WPasteText target txt => Some (Cmd.PasteText (of_text target) (of_text txt))
  | WPasteFile target hint bytes => Some (Cmd.PasteFile (of_text target) (of_text hint) bytes)
  | WHistory target => Some (Cmd.GetHistory (of_text target))
  | WCreateRemote node cwd => Some (Cmd.CreateRemoteSession (of_text node) (Some (of_text cwd)))
  | WCreateLocal cwd => Some (Cmd.CreateLocalSession (Some (of_text cwd)))
  | WSetPublic endpoint save => Some (Cmd.SetPublic (of_text <$> endpoint) save)
  | WRelayJoin address token force use_proxy =>
      Some (Cmd.RelayJoin (of_text address) (of_text token) force use_proxy)
  | WRelayRemove => Some Cmd.RelayRemove
  end.

(** A text the line can end with, one that can stand before a space, and one
    that [RELAY_JOIN] accepts. *)
Definition name_arg (t : text) : Prop := str_trim t = t /\ t <> [].
Definition word_arg (t : text) : Prop := Forall (fun ch => ch <> SPACE) t.
Definition coded_arg (t : text) : Prop := Forall scalar t /\ str_trim t <> [].

Definition writable (w : written) : Prop :=
  match w with
  | WAttach | WDetach | WRelayRemove => True
  | WActivate t | WConnect t | WHistory t | WCreateLocal t => name_arg t
  | WResize cols rows => fits 16 cols /\ fits 16 rows
  | WInput target _ => word_arg target
  | WPasteText target txt => word_arg target /\ Forall scalar txt /\ txt <> []
  | WPasteFile target hint bytes => word_arg target /\ word_arg hint /\ bytes <> []
  | WCreateRemote node cwd => word_arg node /\ name_arg cwd
  | WSetPublic (Some endpoint) save =>
      name_arg endpoint /\ (save = false -> str_ends_with (lit " SAVE") endpoint = false)
  | WSetPublic None save => save = false
  | WRelayJoin address token _ _ => coded_arg address /\ coded_arg token
  end.

Lemma prefixed_none p t f k : strip_prefix (lit p) t = None -> prefixed p t f k = k.
Proof. unfold prefixed. by intros ->. Qed.

Lemma prefixed_same p args f k : prefixed p (lit p ++ args) f k = f args.
Proof. unfold prefixed. by rewrite (proj2 (strip_prefix_Some _ _ _) eq_refl). Qed.

End readback.

(** Which command a line is: the line is not trimmed, no other name fits. *)
Lemma line_trim p args : (match lit p with c :: _ => is_whitespace c = false | [] => False end) ->
  solid_end args -> str_trim (lit p ++ args) = lit p ++ args.
Proof.
  intros Hp Ha. destruct (lit p) as [|c r] eqn:E; [done|]. apply trim_solid; [done|].
  change (solid_end ((c :: r) ++ args)). by apply solid_app.
Qed.

Ltac find_command :=
  repeat rewrite bool_decide_false by (let E := fresh in intros E; vm_compute in E; discriminate E);
  repeat rewrite prefixed_none by (vm_compute; reflexivity);
  rewrite ?prefixed_same.

Ltac read_command :=
  cbn [line_of meaning]; unfold paste_text_line, paste_file_line, set_public_line; unfold parse_command; cbv zeta;
  match goal with |- context [str_trim (lit ?p ++ ?args)] =>
    rewrite (line_trim p args) by (try reflexivity; assumption);
    let a := fresh in let E := fresh in remember args as a eqn:E;
    find_command; subst a
  end.

Section commands.
Context `{ControlCodec}.

Lemma name_solid t : name_arg t -> solid_end t.
Proof. intros [Ht Hn]. by apply trimmed_end. Qed.

Lemma b64_solid bs : bs <> [] -> solid_end (b64_encode bs).
Proof. intros Hb. apply plain_end; [apply b64_plain|by apply b64_nonempty]. Qed.

Lemma space_solid t r : solid_end r -> solid_end (t ++ [SPACE] ++ r).
Proof. intros Hr. by do 2 apply solid_app. Qed.

Lemma splitn2_space a b : word_arg a -> splitn2 (a ++ [SPACE] ++ b) = (a, Some b).
Proof. intros Ha. unfold splitn2. simpl. by rewrite split_space. Qed.

Lemma splitn3_space a b c : word_arg a -> word_arg b -> splitn3 (a ++ [SPACE] ++ b ++ [SPACE] ++ c) = (a, Some b, Some c).
Proof. intros Ha Hb. unfold splitn3. by rewrite !splitn2_space. Qed.

Lemma decode_text_of t : Forall scalar t -> decode_text (b64_encode (text_bytes t)) = Some (of_text t).
Proof. intros Ht. unfold decode_text. rewrite b64_decode_encode. simpl. by apply from_utf8_text. Qed.

Lemma decode_nonblank_of t : coded_arg t -> decode_nonblank (b64_encode (text_bytes t)) = Some (of_text t).
Proof.
  intros [Ht Hb]. unfold decode_nonblank. rewrite decode_text_of by done. simpl. rewrite utf8_of_text by done.
  unfold nonempty. by rewrite bool_decide_false.
Qed.

Lemma text_bytes_nonempty t : t <> [] -> text_bytes t <> [].
Proof.
  intros Ht E. destruct t as [|c t]; [done|]. unfold text_bytes in E. cbn [mbind list_bind] in E.
  apply app_eq_nil in E as [E _]. unfold utf8_encode in E. by repeat case_match.
Qed.

Lemma coded_bytes t : coded_arg t -> text_bytes t <> [].
Proof. intros [_ Hb]. apply text_bytes_nonempty. by intros ->. Qed.

Lemma read_words w :
  match w with
  | WActivate t | WConnect t | WHistory t | WCreateLocal t => name_arg t
  | _ => False end ->
  parse_command (line_of w) = meaning w.
Proof. destruct w; try contradiction; intros Hw; apply name_solid in Hw; read_command; reflexivity. Qed.

Lemma read_resize cols rows : fits 16 cols -> fits 16 rows ->
  parse_command (line_of (WResize cols rows)) = meaning (WResize cols rows).
Proof.
  intros Hc Hr. destruct (num_word cols) as [Pc Nc], (num_word rows) as [Pr Nr]; try done.
  assert (Hs : solid_end (num cols ++ [SPACE] ++ num rows)) by (apply space_solid; by apply plain_end).
  read_command. unfold parse_resize. simpl. rewrite words_cons, words_one by done. simpl. unfold num.
  by rewrite !parse_uint_pretty.
Qed.

Lemma read_key target key : word_arg target ->
  parse_command (line_of (WInput target key)) = meaning (WInput target key).
Proof.
  intros Ht. assert (Hs : solid_end (target ++ [SPACE] ++ b64_encode (key_to_json key))).
  { apply space_solid, b64_solid, key_json_nonempty. }
  read_command. unfold parse_input. rewrite splitn2_space by done. simpl.
  rewrite b64_decode_encode. simpl. by rewrite key_of_to_json.
Qed.

Lemma read_paste_text target txt : word_arg target -> Forall scalar txt -> txt <> [] ->
  parse_command (line_of (WPasteText target txt)) = meaning (WPasteText target txt).
Proof.
  intros Ht Hs Hn. apply text_bytes_nonempty in Hn.
  assert (solid_end (target ++ [SPACE] ++ b64_encode (text_bytes txt))) by (by apply space_solid, b64_solid).
  read_command. unfold parse_paste_text. rewrite splitn2_space by done. simpl. by rewrite decode_text_of.
Qed.

Lemma read_paste_file target hint bytes : word_arg target -> word_arg hint -> bytes <> [] ->
  parse_command (line_of (WPasteFile target hint bytes)) = meaning (WPasteFile target hint bytes).
Proof.
  intros Ht Hh Hn. assert (solid_end (target ++ [SPACE] ++ hint ++ [SPACE] ++ b64_encode bytes)).
  { by apply space_solid, space_solid, b64_solid. }
  read_command. unfold parse_paste_file. rewrite splitn3_space by done. simpl. by rewrite b64_decode_encode.
Qed.

Lemma read_create_remote node cwd : word_arg node -> name_arg cwd ->
  parse_command (line_of (WCreateRemote node cwd)) = meaning (WCreateRemote node cwd).
Proof.
  intros Hn Hc. assert (solid_end (node ++ [SPACE] ++ cwd)) by (by apply space_solid, name_solid).
  read_command. unfold parse_create_remote. rewrite splitn2_space by done. unfold nonempty.
  rewrite bool_decide_false by apply Hc. done.
Qed.

Definition join_args (a t : text) (force use_proxy : bool) : text :=
  a ++ [SPACE] ++ t ++ flag force " FORCE" ++ flag use_proxy " VIA_PROXY".

Definition coded_word (t : text) : Prop := Forall (fun ch => is_whitespace ch = false) t /\ t <> [].

Lemma join_args_solid a t force use_proxy : coded_word t -> solid_end (join_args a t force use_proxy).
Proof.
  intros [Pt Nt]. apply space_solid. destruct force, use_proxy; unfold flag; rewrite ?app_nil_r;
    [apply solid_app| apply solid_app|apply solid_app|by apply plain_end].
  - by exists (lit " FORCE VIA_PROX"), 89.
  - by exists (lit " FORC"), 69.
  - by exists (lit " VIA_PROX"), 89.
Qed.

Lemma join_words a t force use_proxy : coded_word a -> coded_word t ->
  split_whitespace (join_args a t force use_proxy) =
  a :: t :: (if force then [lit "FORCE"] else []) ++ (if use_proxy then [lit "VIA_PROXY"] else []).
Proof.
  intros [Pa Na] [Pt Nt]. unfold join_args. cbn [app]. rewrite words_cons by done. f_equal.
  destruct force, use_proxy; unfold flag; rewrite ?app_nil_r.
  - change (lit " FORCE" ++ lit " VIA_PROXY") with (SPACE :: lit "FORCE VIA_PROXY"). by rewrite words_cons.
  - change (lit " FORCE") with (SPACE :: lit "FORCE"). by rewrite words_cons.
  - change ([] ++ lit " VIA_PROXY") with (SPACE :: lit "VIA_PROXY"). by rewrite words_cons.
  - by rewrite words_one.
Qed.

Lemma parse_join a t force use_proxy : coded_word a -> coded_word t ->
  parse_command (lit "RELAY_JOIN " ++ join_args a t force use_proxy) =
  (x ← decode_nonblank a; y ← decode_nonblank t; Some (Cmd.RelayJoin x y force use_proxy)).
Proof.
  intros Ha Ht. pose proof (join_args_solid a t force use_proxy Ht) as Hs.
  read_command. unfold parse_relay_join. rewrite join_words by done. cbn [head tail mbind option_bind].
  by destruct force, use_proxy; simpl; destruct (decode_nonblank a), (decode_nonblank t).
Qed.

Lemma b64_word bs : bs <> [] -> coded_word (b64_encode bs).
Proof. intros Hb. split; [apply b64_plain|by apply b64_nonempty]. Qed.

Lemma read_relay_join address token force use_proxy : coded_arg address -> coded_arg token ->
  parse_command (line_of (WRelayJoin address token force use_proxy)) = meaning (WRelayJoin address token force use_proxy).
Proof.
  intros Ha Ht. cbn [line_of meaning]. unfold relay_join_line.
  etransitivity; [apply parse_join; apply b64_word; by apply coded_bytes|].
  rewrite !decode_nonblank_of by assumption. reflexivity.
Qed.

Lemma not_suffix t : str_ends_with (lit " SAVE") t = false -> strip_suffix (lit " SAVE") t = None.
Proof. unfold str_ends_with. intros E. apply bool_decide_eq_false in E. by apply eq_None_not_Some. Qed.

Lemma read_set_public endpoint save : name_arg endpoint -> (save = false -> str_ends_with (lit " SAVE") endpoint = false) ->
  parse_command (line_of (WSetPublic (Some endpoint) save)) = meaning (WSetPublic (Some endpoint) save).
Proof.
  intros Hn Hs. pose proof (name_solid _ Hn) as He.
  assert (Hl : solid_end (endpoint ++ flag save " SAVE")).
  { destruct save; simpl; [apply solid_app; by exists (lit " SAV"), 69|by rewrite app_nil_r]. }
  read_command. unfold parse_set_public. destruct Hn as [Ht Hn].
  assert (Et : str_trim (endpoint ++ flag save " SAVE") = endpoint ++ flag save " SAVE").
  { destruct endpoint as [|c r]; [done|]. apply trim_solid; [|done].
    destruct (trim_start_head (c :: r)) as [E|(ch & r' & E & Hw)]; unfold str_trim in Ht; rewrite E in Ht.
    - done.
    - rewrite <- E in Ht. simpl in E. destruct (is_whitespace c) eqn:Ec; [|done].
      assert (E2 := trim_start_trim (c :: r)). unfold str_trim in E2. rewrite Ht in E2. simpl in E2. rewrite Ec in E2.
      rewrite E2 in E. by injection E as -> ->; rewrite Hw in Ec. }
  rewrite Et. unfold nonempty. destruct save; simpl.
  - assert (E : str_ends_with (lit " SAVE") (endpoint ++ lit " SAVE") = true) by (apply str_ends_with_spec; eauto).
    rewrite E. unfold strip_suffix. rewrite rev_app_distr, (proj2 (strip_prefix_Some _ _ _) eq_refl). simpl.
    rewrite rev_involutive, Ht. by rewrite bool_decide_false.
  - rewrite app_nil_r, Hs by done. by rewrite bool_decide_false.
Qed.

(** Every line that fits is the command it means. *)
Lemma command_reads_back w : writable w -> parse_command (line_of w) = meaning w.
Proof.
  destruct w as [| |id|profile|cols rows|target key|target txt|target hint bytes|target|node cwd|cwd|[e|] save|a t f v|];
    cbn [writable]; intros Hw.
  - reflexivity.
  - reflexivity.
  - by apply read_words.
  - by apply read_words.
  - destruct Hw. by apply read_resize.
  - by apply read_key.
  - destruct Hw as (? & ? & ?). by apply read_paste_text.
  - destruct Hw as (? & ? & ?). by apply read_paste_file.
  - by apply read_words.
  - destruct Hw. by apply read_create_remote.
  - by apply read_words.
  - destruct Hw. by apply read_set_public.
  - by subst.
  - destruct Hw. by apply read_relay_join.
  - reflexivity.
Qed.

End commands.

(** ** A client's connection *)

Section connection.
Context `{ControlCodec}.

(** The commands of the lines up to a [DETACH], the end of the connection or
    an error. *)
Fixpoint attached_lines (lines : list received) : list text :=
  match lines with
  | ReadLine line :: lines =>
      if bool_decide (str_trim line = lit "DETACH") then [] else line :: attached_lines lines
  | _ => []
  end.

Lemma client_loop_commands lines :
  client_loop lines = ClientCommands <$> omap parse_command (attached_lines lines).
Proof.
  induction lines as [|[line| |] lines IH]; [done| |done|done]. cbn [client_loop attached_lines]. cbv zeta.
  case_bool_decide; [done|]. rewrite IH. cbn [omap list_omap].
  assert (E : command_action (str_trim line) = match parse_command line with Some c => [ClientCommands c] | None => [] end).
  { unfold command_action, parse_command. by rewrite str_trim_idem. }
  rewrite E. by destruct (parse_command line).
Qed.

(** An attached client: its connection is announced to the writer, the table
    and the state loop, in this order, then come the commands of its lines in
    the order they were written, and at the end, however the connection ends,
    the client leaves the table and the state loop, once. *)
Lemma attached_client line lines : str_trim line = lit "ATTACH" ->
  handle_client (ReadLine line) lines =
  [RegisterClient true; AddHandle; ClientConnects; ClientCommands Cmd.Attach] ++
  (ClientCommands <$> omap parse_command (attached_lines lines)) ++ [RemoveHandle; ClientLeaves].
Proof.
  intros E. unfold handle_client. cbv zeta. rewrite E. rewrite bool_decide_true by done. by rewrite client_loop_commands.
Qed.

(** A control command is registered for its answer only, and is sent at most
    once, whatever lines follow. *)
Lemma one_shot_client line lines : str_trim line <> lit "ATTACH" ->
  handle_client (ReadLine line) lines = RegisterClient false :: (ClientCommands <$> option_list (parse_command line)).
Proof.
  intros E. unfold handle_client. cbv zeta. rewrite bool_decide_false by done. unfold command_action.
  assert (Ec : parse_command (str_trim line) = parse_command line) by (unfold parse_command; by rewrite str_trim_idem).
  rewrite Ec. by destruct (parse_command line).
Qed.

(** A line with its end. *)
Definition ended (t : text) : text := t ++ [10].

Lemma trim_newline t : str_trim (ended t) = str_trim t.
Proof.
  unfold str_trim, ended.
  assert (E : trim_start (t ++ [10]) = trim_start t ++ [10] \/ trim_start (t ++ [10]) = trim_start t).
  { induction t as [|c t IH]; [by right|]. cbn [app trim_start]. case_match; [done|by left]. }
  destruct E as [-> | ->]; [|done]. unfold trim_end. by rewrite rev_app_distr.
Qed.

Lemma parse_trim line line' : str_trim line = str_trim line' -> parse_command line = parse_command line'.
Proof. unfold parse_command. by intros ->. Qed.

Lemma only_detach_detaches w : writable w -> w <> WDetach -> str_trim (ended (line_of w)) <> lit "DETACH".
Proof.
  intros Hw Hd E. rewrite trim_newline in E.
  assert (En : meaning w = None).
  { rewrite <- command_reads_back by done. by rewrite (parse_trim _ (lit "DETACH")) by (rewrite E; reflexivity). }
  by destruct w.
Qed.

Lemma attached_lines_written ws rest : Forall writable ws -> Forall (fun w => w <> WDetach) ws ->
  attached_lines ((ReadLine ∘ ended ∘ line_of <$> ws) ++ ReadLine (ended (line_of WDetach)) :: rest)
  = ended ∘ line_of <$> ws.
Proof.
  induction 1 as [|w ws Hw Hws IH]; intros Hd; [reflexivity|]. apply Forall_cons in Hd as [Hd Hds].
  cbn [fmap list_fmap app attached_lines compose]. rewrite bool_decide_false by (by apply only_detach_detaches).
  f_equal. by apply IH.
Qed.

Lemma commands_written ws : Forall writable ws -> omap parse_command (ended ∘ line_of <$> ws) = omap meaning ws.
Proof.
  induction 1 as [|w ws Hw Hws IH]; [done|]. cbn [fmap list_fmap omap list_omap compose].
  rewrite (parse_trim _ (line_of w) (trim_newline _)), command_reads_back by done. by rewrite IH.
Qed.

(** The texts that stand in a line as they are, and a line without another
    line feed in it. *)
Definition raw_args (w : written) : list text :=
  match w with
  | WActivate t | WConnect t | WHistory t | WCreateLocal t | WInput t _ | WPasteText t _ => [t]
  | WPasteFile target hint _ => [target; hint]
  | WCreateRemote node cwd => [node; cwd]
  | WSetPublic (Some endpoint) _ => [endpoint]
  | WAttach | WDetach | WResize _ _ | WSetPublic None _ | WRelayJoin _ _ _ _ | WRelayRemove => []
  end.

Definition line_char (ch : char) : Prop := scalar ch /\ ch <> 10.

Definition sendable (w : written) : Prop := writable w /\ Forall (Forall line_char) (raw_args w).

Lemma ascii_line t : forallb (fun ch => (0 <=? ch) && (ch <? 128) && negb (ch =? 10)) t = true -> Forall line_char t.
Proof.
  intros E. apply Forall_forall. intros ch Hch. apply list_elem_of_In in Hch.
  pose proof (proj1 (forallb_forall _ _) E ch Hch) as E'. cbv beta in E'. unfold line_char, scalar. lia.
Qed.

Lemma plain_line t : Forall scalar t -> Forall (fun ch => is_whitespace ch = false) t -> Forall line_char t.
Proof.
  intros Hs Hp. apply Forall_forall. intros ch Hch. rewrite Forall_forall in Hs, Hp. split; [by apply Hs|].
  intros ->. by specialize (Hp 10 Hch).
Qed.

Lemma b64_line bs : Forall line_char (b64_encode bs).
Proof. apply plain_line; [apply b64_scalar|apply b64_plain]. Qed.

Lemma num_line z : fits 16 z -> Forall line_char (num z).
Proof.
  intros Hz. apply plain_line; [|apply num_word, Hz]. pose proof (parse_uint_pretty 16 z Hz) as E.
  apply Forall_forall. intros ch Hch. left. unfold num, lit in Hch. apply list_elem_of_In, in_map_iff in Hch as (b & <- & _).
  pose proof (byte_val_range b). lia.
Qed.

Lemma line_sendable w : sendable w -> Forall line_char (line_of w).
Proof.
  intros [Hw Hr]. destruct w as [| |id|profile|cols rows|target key|target txt|target hint bytes|target|node cwd|cwd|[e|] save|a t f v|];
    cbn [line_of raw_args writable] in *; unfold paste_text_line, paste_file_line, set_public_line, relay_join_line, flag;
    rewrite ?Forall_cons in Hr; destruct_and?;
    repeat match goal with
    | |- Forall _ (_ ++ _) => apply Forall_app; split
    | |- Forall line_char (b64_encode _) => apply b64_line
    | |- Forall line_char (num _) => by apply num_line
    | |- Forall line_char (if ?b then _ else _) => destruct b
    end; try done; by apply ascii_line.
Qed.

(** A line feed is a byte of its own. *)
Lemma line_bytes t : Forall line_char t -> Forall (fun b => b <> x0a) (text_bytes t).
Proof.
  induction 1 as [|ch t [Hs Hn] Ht IH]; [constructor|]. unfold text_bytes in *. cbn [mbind list_bind].
  apply Forall_app. split; [|done]. unfold scalar in Hs.
  assert (Hb : forall z, 0 <= z < 256 -> z <> 10 -> byte_of z <> x0a).
  { intros z Hz Hne E. apply (f_equal byte_val) in E. rewrite byte_val_small in E by done. by change (byte_val x0a) with 10 in E. }
  unfold utf8_encode. repeat case_match; repeat constructor; apply Hb; Z.to_euclidean_division_equations; lia.
Qed.

Lemma lines_from_line line l rest : Forall (fun b => b <> x0a) l ->
  lines_from line (l ++ x0a :: rest) = (line ++ l ++ [x0a]) :: lines_from [] rest.
Proof.
  intros Hl. revert line. induction Hl as [|b l Hb Hl IH]; intros line; cbn [app lines_from].
  - by rewrite bool_decide_true.
  - rewrite bool_decide_false, IH by done. by rewrite <- app_assoc.
Qed.

(** What is written is read, line by line. *)
Lemma written_is_read ws rest : Forall sendable ws ->
  read_lines (concat (map written_bytes ws) ++ rest) = (ReadLine ∘ ended ∘ line_of <$> ws) ++ read_lines rest.
Proof.
  unfold read_lines. induction 1 as [|w ws Hw Hws IH]; [done|]. cbn [map concat fmap list_fmap app compose].
  pose proof (line_sendable w Hw) as Hl. unfold written_bytes at 1.
  assert (Et : text_bytes (line_of w ++ [10]) = text_bytes (line_of w) ++ [x0a]) by (unfold text_bytes; by rewrite bind_app).
  rewrite Et, <- !app_assoc. cbn [app]. rewrite lines_from_line by (by apply line_bytes). cbn [fmap list_fmap app].
  rewrite IH. f_equal. rewrite <- Et. unfold line_read.
  assert (Hs : Forall scalar (line_of w ++ [10])).
  { apply Forall_app. split; [|repeat constructor; lia]. eapply Forall_impl; [exact Hl|]. by intros ch []. }
  by rewrite from_utf8_text, utf8_of_text.
Qed.

(** C8. A session at the user interface is a session with the node: a client
    that writes [ATTACH], any lines that fit and [DETACH] to its connection is
    to the state loop one connection, exactly the commands it meant, with
    exactly their arguments and in the order it wrote them, and one
    disconnection, whatever bytes come after it. This covers every kind of
    line the interface writes. A line fits when none of its arguments has a
    line feed, a name that ends it is trimmed and not empty, an argument in
    front of another has no space, numbers have 16 bits, text has Unicode
    scalar values, an endpoint does not itself end in the flag, and an
    endpoint is not cleared with saving (the lemmas after this one show what
    becomes of lines that do not fit); base64 and JSON are any codec that
    decodes what it encodes. *)
Theorem attached_session_is_relayed ws rest : Forall sendable ws -> Forall (fun w => w <> WDetach) ws ->
  serve_client (concat (map written_bytes (WAttach :: ws ++ [WDetach])) ++ rest) =
  [RegisterClient true; AddHandle; ClientConnects; ClientCommands Cmd.Attach] ++
  (ClientCommands <$> omap meaning ws) ++ [RemoveHandle; ClientLeaves].
Proof.
  intros Hw Hd. unfold serve_client. rewrite written_is_read.
  2:{ constructor; [by repeat constructor|]. apply Forall_app. split; [done|by repeat constructor]. }
  cbn [fmap list_fmap app compose]. rewrite fmap_app, <- app_assoc. cbn [fmap list_fmap app compose].
  assert (Hw' : Forall writable ws) by (eapply Forall_impl; [exact Hw|]; by intros w []).
  rewrite attached_client by (by rewrite trim_newline). by rewrite attached_lines_written, commands_written.
Qed.

End connection.

(** ** A codec

    Bytes as characters above the white space of Latin-1, keys by their
    number: an instance of what is assumed of the encodings. *)

Module ToyCodec.

Definition key_parts (k : LogicalKey) : (nat * Z * string) * (list bool) :=
  (match code k with
   | Char c => (0%nat, c, EmptyString) | F n => (1%nat, n, EmptyString)
   | Unsupported label => (2%nat, 0, label)
   | Up => (3%nat, 0, EmptyString) | Down => (4%nat, 0, EmptyString) | Left => (5%nat, 0, EmptyString)
   | Right => (6%nat, 0, EmptyString) | Home => (7%nat, 0, EmptyString) | End_ => (8%nat, 0, EmptyString)
   | PageUp => (9%nat, 0, EmptyString) | PageDown => (10%nat, 0, EmptyString) | Insert => (11%nat, 0, EmptyString)
   | Delete => (12%nat, 0, EmptyString) | Enter => (13%nat, 0, EmptyString) | Backspace => (14%nat, 0, EmptyString)
   | Tab => (15%nat, 0, EmptyString) | BackTab => (16%nat, 0, EmptyString) | Esc => (17%nat, 0, EmptyString)
   | Null => (18%nat, 0, EmptyString)
   end,
   let m := modifiers k in [shift m; control m; alt m; super_key m; hyper m; meta m]).

Definition parts_key (p : (nat * Z * string) * (list bool)) : option LogicalKey :=
  let '((tag, z, label), bits) := p in
  c ← (match tag with
       | 0 => Some (Char z) | 1 => Some (F z) | 2 => Some (Unsupported label)
       | 3 => Some Up | 4 => Some Down | 5 => Some Left | 6 => Some Right | 7 => Some Home | 8 => Some End_
       | 9 => Some PageUp | 10 => Some PageDown | 11 => Some Insert | 12 => Some Delete | 13 => Some Enter
       | 14 => Some Backspace | 15 => Some Tab | 16 => Some BackTab | 17 => Some Esc | 18 => Some Null | _ => None
       end)%nat;
  match bits with
  | [a; b; d; e; f; g] => Some (mkLogicalKey c (mkKeyModifiers a b d e f g))
  | _ => None
  end.

Lemma parts_key_parts k : parts_key (key_parts k) = Some k.
Proof. by destruct k as [[] []]. Qed.

Fixpoint pos_bytes (p : positive) : list byte :=
  match p with xH => [x02] | xO p => x00 :: pos_bytes p | xI p => x01 :: pos_bytes p end.

Fixpoint bytes_pos (bs : list byte) : option positive :=
  match bs with
  | [x02] => Some xH
  | x00 :: bs => xO <$> bytes_pos bs
  | x01 :: bs => xI <$> bytes_pos bs
  | _ => None
  end.

Lemma bytes_pos_bytes p : bytes_pos (pos_bytes p) = Some p.
Proof. induction p as [p IH|p IH|]; cbn [pos_bytes bytes_pos]; [by rewrite IH|by rewrite IH|done]. Qed.

Definition toy_encode (bs : list byte) : text := (fun b => 0x100 + byte_val b) <$> bs.
Definition toy_decode (t : text) : option (list byte) := Some ((fun ch => byte_of (ch - 0x100)) <$> t).
Definition toy_key_bytes (k : LogicalKey) : list byte := pos_bytes (encode (key_parts k)).
Definition toy_bytes_key (bs : list byte) : option LogicalKey := p ← bytes_pos bs; q ← decode p; parts_key q.

Lemma toy_round_trip bs : toy_decode (toy_encode bs) = Some bs.
Proof.
  unfold toy_decode, toy_encode. f_equal. induction bs as [|b bs IH]; [done|]. cbn [fmap list_fmap].
  rewrite IH. f_equal. replace (256 + byte_val b - 256) with (byte_val b) by lia. apply byte_of_val.
Qed.

Lemma toy_plain bs : Forall (fun ch => is_whitespace ch = false) (toy_encode bs).
Proof.
  apply Forall_fmap, Forall_true. intros b. simpl. pose proof (byte_val_range b). unfold is_whitespace. lia.
Qed.

Lemma toy_scalar bs : Forall scalar (toy_encode bs).
Proof. apply Forall_fmap, Forall_true. intros b. simpl. pose proof (byte_val_range b). unfold scalar. lia. Qed.

Lemma toy_key_round_trip k : toy_bytes_key (toy_key_bytes k) = Some k.
Proof. unfold toy_bytes_key, toy_key_bytes. rewrite bytes_pos_bytes. simpl. rewrite decode_encode. simpl. apply parts_key_parts. Qed.

#[export] Instance toy_codec : ControlCodec := {
  b64_encode := toy_encode; b64_decode := toy_decode; key_to_json := toy_key_bytes; key_of_json := toy_bytes_key;
  b64_decode_encode := toy_round_trip; b64_plain := toy_plain; b64_scalar := toy_scalar;
  b64_nonempty := fun bs H E => H (fmap_nil_inv _ bs E); key_of_to_json := toy_key_round_trip;
  key_json_nonempty := fun k => match encode (key_parts k) as p return pos_bytes p <> [] with
                                | xH | xO _ | xI _ => ltac:(discriminate) end }.

End ToyCodec.

Lemma attached_session_is_relayed_witness :
  serve_client (H := ToyCodec.toy_codec)
    (concat (map (written_bytes (H := ToyCodec.toy_codec))
       [WAttach; WResize 120 40; WCreateLocal (lit "/tmp/a b"); WDetach]) ++ as_bytes "STOP") =
  [RegisterClient true; AddHandle; ClientConnects; ClientCommands Cmd.Attach;
   ClientCommands (Cmd.Resize 120 40); ClientCommands (Cmd.CreateLocalSession (Some "/tmp/a b"%string)); RemoveHandle; ClientLeaves].
Proof.
  apply (attached_session_is_relayed (H := ToyCodec.toy_codec) [WResize 120 40; WCreateLocal (lit "/tmp/a b")] (as_bytes "STOP")).
  - repeat constructor; unfold fits; simpl; try lia; done.
  - by repeat constructor.
Defined.

(** ** Lines that are lost *)

Section lost_lines.
Context `{ControlCodec}.

(** The line the interface writes to clear the endpoint and save that is no
    command at all. *)
Lemma saved_clear_is_ignored : parse_command (line_of (WSetPublic None true)) = None.
Proof. reflexivity. Qed.

(** A working directory whose name has a line feed is two lines: the session
    is created in the directory of the first part, and the second part is a
    command of its own. *)
Lemma line_feed_is_another_command cwd more : line_of more <> lit "DETACH" -> sendable (WCreateLocal cwd) -> sendable more ->
  serve_client (written_bytes WAttach ++ written_bytes (WCreateLocal (cwd ++ [10] ++ line_of more))) =
  [RegisterClient true; AddHandle; ClientConnects; ClientCommands Cmd.Attach] ++
  (ClientCommands <$> Cmd.CreateLocalSession (Some (of_text cwd)) :: option_list (meaning more)) ++ [RemoveHandle; ClientLeaves].
Proof.
  intros Hd Hc Hm.
  assert (Eb : written_bytes WAttach ++ written_bytes (WCreateLocal (cwd ++ [10] ++ line_of more))
    = concat (map written_bytes [WAttach; WCreateLocal cwd; more]) ++ []).
  { cbn [map concat]. rewrite !app_nil_r. f_equal. unfold written_bytes. cbn [line_of].
    unfold text_bytes. by rewrite <- bind_app, <- !app_assoc. }
  assert (Hs : Forall sendable [WAttach; WCreateLocal cwd; more]).
  { apply Forall_cons. split; [split; [exact I|by constructor]|]. by constructor; [|constructor]. }
  unfold serve_client. rewrite Eb, (written_is_read _ [] Hs).
  cbn [fmap list_fmap app compose]. rewrite attached_client by (by rewrite trim_newline).
  destruct Hc as [Hc _], Hm as [Hm _]. cbn [attached_lines]. rewrite !bool_decide_false.
  - cbn [omap list_omap]. rewrite !(parse_trim _ _ (trim_newline _)), !command_reads_back by done.
    cbn [meaning fmap list_fmap option_list]. by destruct (meaning more).
  - apply only_detach_detaches; [done|]. intros ->. by apply Hd.
  - by apply only_detach_detaches.
Qed.

(** A file whose name has a space: the second word of the name is taken for
    the content. *)
Lemma paste_hint_is_cut target a b bytes : word_arg target -> word_arg a -> bytes <> [] ->
  parse_command (line_of (WPasteFile target (a ++ [SPACE] ++ b) bytes)) =
  ((fun bs => Cmd.PasteFile (of_text target) (of_text a) bs) <$> b64_decode (b ++ [SPACE] ++ b64_encode bytes)).
Proof.
  intros Ht Ha Hb. cbn [line_of]. unfold paste_file_line. rewrite <- !app_assoc.
  assert (Hs : solid_end (target ++ [SPACE] ++ a ++ [SPACE] ++ b ++ [SPACE] ++ b64_encode bytes)).
  { by do 3 apply space_solid; apply b64_solid. }
  read_command. unfold parse_paste_file. rewrite splitn3_space by done. simpl. by destruct (b64_decode _).
Qed.

(** A control line that is no command leaves its connection registered for an
    answer that nobody sends. *)
Lemma unknown_command_is_not_answered line lines : str_trim line <> lit "ATTACH" -> parse_command line = None ->
  handle_client (ReadLine line) lines = [RegisterClient false].
Proof. intros E Ec. by rewrite one_shot_client, Ec. Qed.

End lost_lines.
