(* ===== verification/Grpc.v ===== *)
(** * Grpc: the messages between two nodes

    The envelope of [proto/waitagent/remote/v1/node_session.proto] and the two
    directions of its translation in
    [src/remote/node/remote_node_session_runtime.rs]: a message of the control
    plane becomes an envelope, and an envelope of the authority channel
    becomes an event. *)

From Stdlib Require Import Ascii.
From stdpp Require Import pretty.
From S2P Require Import Prelude Bytes Text SessionCatalog Protocol AuthorityTransport NodeState.

#[local] Open Scope Z_scope.

(** ** Messages

    The messages of the protocol as [prost] generates them; a numeric field of
    an enum is an [i32]. *)

Record Timestamp := mkTimestamp { ts_seconds : Z; ts_nanos : Z }.

Record GDuration := mkGDuration { du_seconds : Z; du_nanos : Z }.

(** [google.rpc.Status]; a detail is a type URL and bytes. *)
Record GStatus := mkGStatus { st_code : Z; st_message : string; st_details : list (string * list byte) }.

Record ProtocolVersion := mkVersion { major : Z; minor : Z }.

Record NodeCapabilities := mkCapabilities {
  can_publish_targets : bool;
  can_host_observing_consoles : bool;
  can_send_console_input : bool;
  can_consume_authority_control : bool }.

Record RecoveryPolicy := mkRecovery {
  authority_republish_required : bool;
  observer_reopen_required : bool;
  replay_supported : bool }.

(** [resume] is the message [ResumeHint] with its one field. *)
Record GClientHelloMsg := mkGClientHello {
  ch_node_id : string;
  ch_node_instance_id : string;
  ch_min_supported_version : option ProtocolVersion;
  ch_max_supported_version : option ProtocolVersion;
  ch_capabilities : option NodeCapabilities;
  ch_resume : option (option string);
  ch_auth_scheme : string;
  ch_challenge_response : list byte }.

Record GServerHelloMsg := mkGServerHello {
  sh_server_id : string;
  sh_session_instance_id : string;
  sh_negotiated_version : option ProtocolVersion;
  sh_heartbeat_interval : option GDuration;
  sh_recovery_policy : option RecoveryPolicy;
  sh_operator_challenge : list byte }.

Record RouteContext := mkRoute {
  route_authority_node_id : option string;
  route_target_id : option string;
  route_attachment_id : option string;
  route_console_id : option string;
  route_console_host_id : option string;
  route_session_id : option string }.

Record GTargetPublished := mkGPublished {
  gp_target_id : string;
  gp_authority_node_id : string;
  gp_transport : string;
  gp_transport_session_id : string;
  gp_selector : option string;
  gp_availability : string;
  gp_command_name : option string;
  gp_current_path : option string;
  gp_attached_count : option Z;
  gp_session_role : option string;
  gp_workspace_key : option string;
  gp_window_count : option Z;
  gp_task_state : option string;
  gp_node_instance_id : string;
  gp_revision : Z;
  gp_display_command_name : option string }.

Record GTargetExited := mkGExited {
  ge_target_id : string;
  ge_transport_session_id : string;
  ge_node_instance_id : string;
  ge_revision : Z }.

Record GAck := mkGAck {
  ga_node_id : string;
  ga_node_instance_id : string;
  ga_target_id : string;
  ga_revision : Z;
  ga_status : Z;
  ga_message : option string }.

Inductive Body :=
| GClientHello (h : GClientHelloMsg)
| GServerHello (h : GServerHelloMsg)
| GHeartbeat (runtime_id : string)
| GSessionNotice (kind : Z) (message : string)
| GCommandRejected (reason : Z) (status : option GStatus)
| GPublished (p : GTargetPublished)
| GExited (p : GTargetExited)
| GPublicationAck (p : GAck)
| GOpenMirrorRequest (target_id session_id console_id : string) (cols rows : Z) (raw_pty_passthrough visible_only : bool)
| GOpenMirrorAccepted (target_id session_id availability : string)
| GOpenMirrorRejected (target_id session_id reason : string) (status : option GStatus)
| GCloseMirrorRequest (target_id session_id : string)
| GMirrorBootstrapChunk (target_id session_id : string) (chunk_seq : Z) (stream : string) (output_bytes : list byte)
| GMirrorBootstrapComplete (target_id session_id : string) (last_chunk_seq : Z)
    (alternate_screen_active application_cursor_keys cursor_visible : bool)
| GConsoleInput (attachment_id target_id console_id : string) (console_seq : Z) (input_bytes : list byte) (session_id : string)
| GRawPtyInput (attachment_id target_id console_id console_host_id : string) (input_seq : Z)
    (input_bytes : list byte) (session_id : string)
| GPtyResizeRequest (attachment_id target_id console_id : string) (cols rows resize_epoch : Z) (session_id : string)
| GApplyPtyResize (target_id : string) (resize_epoch : Z) (resize_authority_console_id : string) (cols rows : Z) (session_id : string)
| GPtyResizeApplied (target_id : string) (resize_epoch cols rows : Z) (session_id resize_authority_console_id : string)
| GTargetOutput (target_id : string) (output_seq : Z) (stream : string) (output_bytes : list byte) (session_id : string)
| GRawPtyOutput (target_id : string) (output_seq : Z) (output_bytes : list byte) (session_id : string)
| GTargetGeometryChanged (target_id session_id : string) (cols rows : Z)
| GCreateSessionRequest (request_id authority_node_id : string) (cwd_hint : option string) (cols rows : Z)
| GCreateSessionAccepted (request_id session_id target_id : string)
| GCreateSessionRejected (request_id reason : string) (status : option GStatus)
| GPasteFileRequest (target_id session_id filename_hint file_id : string) (total_chunks chunk_index : Z) (chunk_bytes : list byte)
| GPasteFileAccepted (target_id session_id file_id cached_path : string)
| GPasteFileRejected (target_id session_id file_id reason : string).

Record GrpcEnvelope := mkGrpcEnvelope {
  g_message_id : string;
  g_sent_at : option Timestamp;
  g_session_instance_id : string;
  g_correlation_id : option string;
  g_route : option RouteContext;
  g_body : option Body }.

#[global] Instance RouteContext_eq_dec : EqDecision RouteContext.
Proof. solve_decision. Defined.
#[global] Instance GTargetPublished_eq_dec : EqDecision GTargetPublished.
Proof. solve_decision. Defined.

(** The statuses of an acknowledgement; [payload.status()] reads an unknown
    number as the first. *)
Inductive GrpcTargetPublicationAckStatus := GUnspecified | GApplied | GStaleRevision | GFailed.

Definition ack_status_i32 (s : GrpcTargetPublicationAckStatus) : Z :=
  match s with GUnspecified => 0 | GApplied => 1 | GStaleRevision => 2 | GFailed => 3 end.

Definition ack_status_of_i32 (z : Z) : GrpcTargetPublicationAckStatus :=
  match z with 1 => GApplied | 2 => GStaleRevision | 3 => GFailed | _ => GUnspecified end.

Definition grpc_target_publication_ack_status_to_protocol (s : GrpcTargetPublicationAckStatus) :
    option TargetPublicationAckStatus :=
  match s with GApplied => Some Applied | GStaleRevision => Some StaleRevision | GFailed => Some Failed | GUnspecified => None end.

Definition grpc_target_publication_ack_status (s : TargetPublicationAckStatus) : GrpcTargetPublicationAckStatus :=
  match s with Applied => GApplied | StaleRevision => GStaleRevision | Failed => GFailed end.

(** ** Outgoing messages *)

Definition remote_peer_target (node_id transport_session_id : string) : string :=
  ("remote-peer:" +:+ node_id +:+ ":" +:+ transport_session_id)%string.

Definition outbound_route (node_id : string) (e : ProtocolEnvelope) : RouteContext :=
  mkRoute
    (match env_payload e with
     | CreateSessionRequest p => Some (csreq_authority_node_id p)
     | _ => Some node_id
     end)
    (env_target_id e) (env_attachment_id e) (env_console_id e)
    (match env_payload e with RawPtyInput p => Some (rin_console_host_id p) | _ => None end)
    (env_session_id e).

(** [as u32]. *)
Abbreviation u32 := (wrap 32).

Definition authority_body (p : ControlPlanePayload) : option Body :=
  match p with
  | TargetOutput p => Some (GTargetOutput (tout_target_id p) (tout_output_seq p) (tout_stream p) (tout_output_bytes p) (tout_session_id p))
  | RawPtyOutput p => Some (GRawPtyOutput (rout_target_id p) (rout_output_seq p) (rout_output_bytes p) (rout_session_id p))
  | RawPtyInput p =>
      Some (GRawPtyInput (rin_attachment_id p) (rin_target_id p) (rin_console_id p) (rin_console_host_id p)
              (rin_input_seq p) (rin_input_bytes p) (rin_session_id p))
  | PasteFileRequest p =>
      Some (GPasteFileRequest (paste_target_id p) (paste_session_id p) (paste_filename_hint p) (paste_file_id p)
              (paste_total_chunks p) (paste_chunk_index p) (paste_chunk_bytes p))
  | ApplyResize p =>
      Some (GApplyPtyResize (ares_target_id p) (ares_resize_epoch p) (ares_resize_authority_console_id p)
              (u32 (ares_cols p)) (u32 (ares_rows p)) (ares_session_id p))
  | OpenMirrorRequest p =>
      Some (GOpenMirrorRequest (omreq_target_id p) (omreq_session_id p) (omreq_console_id p)
              (u32 (omreq_cols p)) (u32 (omreq_rows p)) (omreq_raw_pty_passthrough p)
              (match omreq_bootstrap_mode p with VisibleOnly => true | Full => false end))
  | CloseMirrorRequest p => Some (GCloseMirrorRequest (cmreq_target_id p) (cmreq_session_id p))
  | CreateSessionRequest p =>
      Some (GCreateSessionRequest (csreq_request_id p) (csreq_authority_node_id p) (csreq_cwd_hint p)
              (u32 (csreq_cols p)) (u32 (csreq_rows p)))
  | CreateSessionAccepted p => Some (GCreateSessionAccepted (csacc_request_id p) (csacc_session_id p) (csacc_target_id p))
  | CreateSessionRejected p => Some (GCreateSessionRejected (csrej_request_id p) (csrej_message p) None)
  | OpenMirrorAccepted p => Some (GOpenMirrorAccepted (omacc_target_id p) (omacc_session_id p) (omacc_availability p))
  | OpenMirrorRejected p => Some (GOpenMirrorRejected (omrej_target_id p) (omrej_session_id p) (omrej_message p) None)
  | MirrorBootstrapChunk p =>
      Some (GMirrorBootstrapChunk (chunk_target_id p) (chunk_session_id p) (chunk_chunk_seq p) (chunk_stream p) (chunk_output_bytes p))
  | MirrorBootstrapComplete p =>
      Some (GMirrorBootstrapComplete (complete_target_id p) (complete_session_id p) (complete_last_chunk_seq p)
              (complete_alternate_screen_active p) (complete_application_cursor_keys p) (complete_cursor_visible p))
  | ResizeApplied p =>
      Some (GPtyResizeApplied (rapp_target_id p) (rapp_resize_epoch p) (u32 (rapp_cols p)) (u32 (rapp_rows p))
              (rapp_session_id p) (rapp_resize_authority_console_id p))
  | TargetGeometryChanged p =>
      Some (GTargetGeometryChanged (geom_target_id p) (geom_session_id p) (u32 (geom_cols p)) (u32 (geom_rows p)))
  | _ => None
  end.

Definition outbound_target (node_id transport_session_id : string) (e : ProtocolEnvelope) : string :=
  default (remote_peer_target node_id transport_session_id) (env_target_id e).

Definition exited_body (node_id : string) (e : ProtocolEnvelope) (p : TargetExitedPayload) : Body :=
  GExited (mkGExited (outbound_target node_id (exited_transport_session_id p) e) (exited_transport_session_id p)
             (exited_node_instance_id p) (exited_revision p)).

Definition publication_body (node_id : string) (e : ProtocolEnvelope) : option Body :=
  match env_payload e with
  | TargetPublished p =>
      Some (GPublished {|
        gp_target_id := outbound_target node_id (pub_transport_session_id p) e;
        gp_authority_node_id := node_id;
        gp_transport := "grpc";
        gp_transport_session_id := pub_transport_session_id p;
        gp_selector := pub_selector p;
        gp_availability := pub_availability p;
        gp_command_name := pub_command_name p;
        gp_current_path := pub_current_path p;
        gp_attached_count := Some (pub_attached_clients p);
        gp_session_role := pub_session_role p;
        gp_workspace_key := pub_workspace_key p;
        gp_window_count := Some (pub_window_count p);
        gp_task_state := Some (pub_task_state p);
        gp_node_instance_id := pub_node_instance_id p;
        gp_revision := pub_revision p;
        gp_display_command_name := pub_display_command_name p |})
  | TargetPublicationAck p =>
      Some (GPublicationAck (mkGAck (ack_node_id p) (ack_node_instance_id p) (ack_target_id p) (ack_revision p)
              (ack_status_i32 (grpc_target_publication_ack_status (ack_status p))) (ack_message p)))
  | _ => None
  end.

(** [map_outbound_grpc_envelope], at the time [ts], which is [millis]. *)
Definition map_outbound_grpc_envelope (ts : Timestamp) (millis : Z) (node_id : string) (channel : NodeSessionChannel)
    (e : ProtocolEnvelope) : result GrpcEnvelope string :=
  let body :=
    match env_payload e with
    | TargetExited p => Some (exited_body node_id e p)
    | p => match channel with Authority => authority_body p | Publication => publication_body node_id e end
    end in
  match body with
  | None =>
      Err ("unsupported grpc outbound node-session payload `" +:+ message_type (env_payload e) +:+
           "` on channel `" +:+ channel_as_str channel +:+ "`")%string
  | Some body =>
      Ok (mkGrpcEnvelope (env_message_id e) (Some ts) ("client-session-" +:+ pretty millis)%string
            (env_correlation_id e) (Some (outbound_route node_id e)) (Some body))
  end.

(** ** Incoming messages *)

Inductive GrpcAuthorityEvent :=
| EvCommand (command : RemoteAuthorityCommand)
| EvCreateSessionRequest (payload : CreateSessionRequestPayload) (correlation_id : option string)
| EvCreateSessionAccepted (payload : CreateSessionAcceptedPayload)
| EvCreateSessionRejected (payload : CreateSessionRejectedPayload)
| EvMirrorAccepted
| EvMirrorRejected (payload : OpenMirrorRejectedPayload)
| EvTargetPublicationAck (payload : TargetPublicationAckPayload)
| EvFailed (message : string)
| EvClosed.

Definition nonempty_str (s : string) : option string := if decide (s = EmptyString) then None else Some s.

Definition derive_session_id_from_target_id (target_id : string) : option string :=
  let t :=
    match strip_str_prefix "remote-peer:" target_id with
    | Some t => t
    | None =>
        match strip_str_prefix "local-tmux:" target_id with
        | Some t => t
        | None => default target_id (strip_str_prefix "remote:" target_id)
        end
    end in
  '(_, session_id) ← rsplit_once ":"%char t;
  nonempty_str session_id.

Definition envelope_session_id (e : GrpcEnvelope) : option string := g_route e ≫= route_session_id.

Definition or_else {A} (a b : option A) : option A := match a with Some _ => a | None => b end.

Definition grpc_session_id (route_id : option string) (payload_id target_id : string) : string :=
  default target_id
    (or_else (route_id ≫= nonempty_str)
       (or_else (nonempty_str payload_id) (derive_session_id_from_target_id target_id))).

Definition known_grpc_availability (value : string) : option string :=
  if bool_decide (value ∈ ["online"; "offline"; "exited"]%string) then Some value else None.

Definition protocol_ack (p : GAck) : option TargetPublicationAckPayload :=
  status ← grpc_target_publication_ack_status_to_protocol (ack_status_of_i32 (ga_status p));
  Some (mkTargetPublicationAck (ga_node_id p) (ga_node_instance_id p) (ga_target_id p) (ga_revision p) status (ga_message p)).

(** [map_inbound_grpc_authority_event]; how [Debug] prints a message is an
    argument. *)
Definition map_inbound_grpc_authority_event (debug : Body -> string) (e : GrpcEnvelope) : option GrpcAuthorityEvent :=
  let sid := grpc_session_id (envelope_session_id e) in
  match g_body e with
  | None => None
  | Some (GRawPtyInput a t c h seq bs s) => Some (EvCommand (CommandRawPtyInput (mkRawPtyInput a (sid s t) t c h seq bs)))
  | Some (GPasteFileRequest t s hint fid total idx bs) =>
      Some (EvCommand (CommandPasteFile (mkPasteFileRequest (sid s t) t hint fid total idx bs)))
  | Some (GApplyPtyResize t epoch auth cols rows s) =>
      Some (EvCommand (CommandApplyResize (mkApplyResize (sid s t) t epoch auth cols rows)))
  | Some (GOpenMirrorRequest t s c cols rows raw visible_only) =>
      Some (EvCommand (CommandOpenMirror (mkOpenMirrorRequest (sid s t) t c cols rows raw
                                            (if visible_only then VisibleOnly else Full))))
  | Some (GCloseMirrorRequest t s) => Some (EvCommand (CommandCloseMirror (mkCloseMirrorRequest (sid s t) t)))
  | Some (GCreateSessionRequest r a cwd cols rows) =>
      Some (EvCreateSessionRequest (mkCreateSessionRequest r a cwd cols rows) (g_correlation_id e))
  | Some (GCreateSessionAccepted r s t) => Some (EvCreateSessionAccepted (mkCreateSessionAccepted r s t))
  | Some (GCreateSessionRejected r reason _) =>
      Some (EvCreateSessionRejected (mkCreateSessionRejected r "create_session_failed" reason))
  | Some (GOpenMirrorAccepted t s av) => _ ← known_grpc_availability av; Some EvMirrorAccepted
  | Some (GOpenMirrorRejected t s reason _) =>
      Some (EvMirrorRejected (mkOpenMirrorRejected (sid s t) t "mirror_not_available" reason))
  | Some (GPublicationAck p) => EvTargetPublicationAck <$> protocol_ack p
  | Some (GExited _ | GPublished _ | GServerHello _ | GHeartbeat _) => None
  | Some other => Some (EvFailed ("unexpected grpc authority envelope `" +:+ debug other +:+ "`")%string)
  end.

(** ** The translations are inverse *)

(** What the other end of an authority message is told. *)
Definition authority_event (e : ProtocolEnvelope) : option GrpcAuthorityEvent :=
  match env_payload e with
  | RawPtyInput p => Some (EvCommand (CommandRawPtyInput p))
  | PasteFileRequest p => Some (EvCommand (CommandPasteFile p))
  | ApplyResize p => Some (EvCommand (CommandApplyResize p))
  | OpenMirrorRequest p => Some (EvCommand (CommandOpenMirror p))
  | CloseMirrorRequest p => Some (EvCommand (CommandCloseMirror p))
  | CreateSessionRequest p => Some (EvCreateSessionRequest p (env_correlation_id e))
  | CreateSessionAccepted p => Some (EvCreateSessionAccepted p)
  | CreateSessionRejected p =>
      Some (EvCreateSessionRejected (mkCreateSessionRejected (csrej_request_id p) "create_session_failed" (csrej_message p)))
  | _ => None
  end.

(** The session ids of the envelope and of the payload agree, and the sizes
    have 32 bits. *)
Definition same_session (e : ProtocolEnvelope) (s : string) : Prop :=
  s <> EmptyString /\ (env_session_id e = None \/ env_session_id e = Some s).

Definition addressed (e : ProtocolEnvelope) : Prop :=
  match env_payload e with
  | RawPtyInput p => same_session e (rin_session_id p)
  | PasteFileRequest p => same_session e (paste_session_id p)
  | ApplyResize p => same_session e (ares_session_id p) /\ fits 32 (ares_cols p) /\ fits 32 (ares_rows p)
  | OpenMirrorRequest p => same_session e (omreq_session_id p) /\ fits 32 (omreq_cols p) /\ fits 32 (omreq_rows p)
  | CloseMirrorRequest p => same_session e (cmreq_session_id p)
  | CreateSessionRequest p => fits 32 (csreq_cols p) /\ fits 32 (csreq_rows p)
  | _ => True
  end.

Lemma session_id_kept e s t : same_session e s -> grpc_session_id (env_session_id e) s t = s.
Proof.
  intros [Hs [E|E]]; rewrite E; unfold grpc_session_id; simpl; unfold nonempty_str; by rewrite decide_False.
Qed.

Lemma u32_fits z : fits 32 z -> u32 z = z.
Proof. unfold fits, wrap. intros. apply Z.mod_small. lia. Qed.

(** C23. What one node tells another on the authority channel is what the
    other is told: every message that is a command or concerns the creation
    of a session, once it is put into an envelope at any time and taken out
    again, is the same command, with the same target, the same session, the
    same sizes and the same bytes (the code of a rejection is not carried;
    the receiver fills in its only value). The session ids in the envelope
    and in the message must agree and not be empty, and sizes have 32 bits. *)
Theorem authority_messages_survive ts millis node debug e ev :
  authority_event e = Some ev -> addressed e ->
  exists g, map_outbound_grpc_envelope ts millis node Authority e = Ok g /\
            map_inbound_grpc_authority_event debug g = Some ev.
Proof.
  intros Hev Ha. unfold authority_event, addressed, map_outbound_grpc_envelope in *.
  destruct (env_payload e) as [| |p| | |p| | | | | |p|p| | |p| | |p|p|p| | | |] eqn:Ep; try discriminate Hev;
    simplify_eq; eexists; (split; [reflexivity|]); unfold map_inbound_grpc_authority_event; cbn; rewrite ?Ep;
    destruct_and?; rewrite ?session_id_kept, ?u32_fits by done; destruct p; try done.
  all: simpl; repeat case_match; simplify_eq/=; done.
Qed.

Definition sample_input : ProtocolEnvelope :=
  mkProtocolEnvelope "1.1" "m-1" "raw_pty_input" "0Z" "viewer" None (Some "1"%string) (Some "remote-peer:lab#7474:1"%string)
    None None (RawPtyInput (mkRawPtyInput "a" "1" "remote-peer:lab#7474:1" "c" "h" 7 [x61])).

Lemma authority_messages_survive_witness :
  exists g, map_outbound_grpc_envelope (mkTimestamp 1 0) 1000 "lab#7474" Authority sample_input = Ok g /\
            map_inbound_grpc_authority_event (fun _ => EmptyString) g =
              Some (EvCommand (CommandRawPtyInput (mkRawPtyInput "a" "1" "remote-peer:lab#7474:1" "c" "h" 7 [x61]))).
Proof.
  apply authority_messages_survive; [reflexivity|]. split; [done|by right].
Defined.

(** An accepted mirror whose session has an unknown availability, the default
    of a session, is not reported. *)
Lemma unknown_mirror_acceptance_is_lost debug e t s :
  g_body e = Some (GOpenMirrorAccepted t s (availability_as_str AvailabilityUnknown)) ->
  map_inbound_grpc_authority_event debug e = None.
Proof. unfold map_inbound_grpc_authority_event. by intros ->. Qed.
