(* ===== verification/RuntimeOwner.v ===== *)
(** * Runtime owner: the list of the sessions other nodes publish

    [src/remote/node/remote_runtime_owner_runtime.rs]: a thread of the node
    keeps a record of every remote session. It is asked over a local socket,
    one line per command; fields are separated by tabs and escaped. Lines are
    lists of characters, as [String] is a sequence of them; the [String]s of
    commands and records are their UTF-8 encodings. *)

From Stdlib Require Import Ascii.
From stdpp Require Import pretty.
From S2P Require Import Prelude Bytes Text Utf8 Str Decimal Numbers SessionCatalog NodeState ClientProtocol.

#[local] Open Scope Z_scope.

Definition TAB : char := 9.
Definition LF : char := 10.
Definition BACKSLASH : char := 92.

(** ** Fields *)

(** [str::replace] of one character. *)
Definition replace_char (c : char) (r t : text) : text := t ≫= fun x => if x =? c then r else [x].

Definition escape_field (value : string) : text :=
  replace_char TAB [BACKSLASH; 116] (replace_char BACKSLASH [BACKSLASH; BACKSLASH] (utf8 value)).

Fixpoint unescape_chars (t : text) : result text string :=
  match t with
  | [] => Ok []
  | ch :: t =>
      if negb (ch =? BACKSLASH) then let? rest := unescape_chars t in Ok (ch :: rest)
      else
        match t with
        | [] => Err "unterminated escape sequence"
        | ch :: t =>
            if ch =? BACKSLASH then let? rest := unescape_chars t in Ok (BACKSLASH :: rest)
            else if ch =? 116 then let? rest := unescape_chars t in Ok (TAB :: rest)
            else Err ("unsupported escape sequence `\" +:+ of_text [ch] +:+ "`")%string
        end
  end.

Definition unescape_field (value : text) : result string string :=
  let? t := unescape_chars value in Ok (of_text t).

Definition escape_optional_field (value : option string) : text :=
  match value with Some value => escape_field value | None => lit "~" end.

Definition unescape_optional_field (value : text) : result (option string) string :=
  if bool_decide (value = lit "~") then Ok None
  else let? s := unescape_field value in Ok (Some s).

(** ** Rows of fields *)

Fixpoint join (sep : text) (fields : list text) : text :=
  match fields with
  | [] => []
  | [f] => f
  | f :: fields => f ++ sep ++ join sep fields
  end.

(** [parts.next().ok_or_else(..)?], with the field unescaped. *)
Definition next_part (missing : string) (parts : list text) : result (text * list text) string :=
  match parts with [] => Err missing | p :: parts => Ok (p, parts) end.

Definition next_field (missing : string) (parts : list text) : result (string * list text) string :=
  let? (p, parts) := next_part missing parts in
  let? s := unescape_field p in Ok (s, parts).

Definition next_optional (missing : string) (parts : list text) : result (option string * list text) string :=
  let? (p, parts) := next_part missing parts in
  let? s := unescape_optional_field p in Ok (s, parts).

Definition next_number (missing : string) (parts : list text) : result (Z * list text) string :=
  let? (p, parts) := next_part missing parts in
  match parse_uint 64 p with Some z => Ok (z, parts) | None => Err "invalid digit found in string" end.

Definition no_more {A} (extra : string) (parts : list text) (a : A) : result A string :=
  match parts with [] => Ok a | _ => Err extra end.

(** ** Records *)

Definition render_session_record (r : ManagedSessionRecord) : text :=
  join [TAB]
    [ escape_field (authority_id (address r));
      escape_field (session_id (address r));
      escape_optional_field (selector r);
      lit (availability_as_str (availability r));
      escape_optional_field (role_as_str <$> session_role r);
      escape_optional_field (workspace_key r);
      escape_optional_field (command_name r);
      escape_optional_field (display_command_name r);
      escape_optional_field (current_path r);
      num (attached_clients r);
      num (window_count r);
      lit (task_state_as_str (task_state r)) ].

Definition parse_session_record (parts : list text) : result ManagedSessionRecord string :=
  let? (authority, parts) := next_field "session record is missing authority id" parts in
  let? (session, parts) := next_field "session record is missing session id" parts in
  let? (selector, parts) := next_optional "session record is missing selector" parts in
  let? (availability, parts) := next_part "session record is missing availability" parts in
  let? availability := ok_or (availability_parse (of_text availability)) "session record has invalid availability" in
  let? (role, parts) := next_optional "session record is missing session role" parts in
  let? (workspace_key, parts) := next_optional "session record is missing workspace key" parts in
  let? (command_name, parts) := next_optional "session record is missing command name" parts in
  let? (display_command_name, parts) := next_optional "session record is missing display command name" parts in
  let? (current_path, parts) := next_optional "session record is missing current path" parts in
  let? (attached_clients, parts) := next_number "session record is missing attached clients" parts in
  let? (window_count, parts) := next_number "session record is missing window count" parts in
  let? (task, parts) := next_part "session record is missing task state" parts in
  let? task := ok_or (task_state_parse (of_text task)) "session record has invalid task state" in
  no_more "session record contains unexpected extra fields" parts
    {| address := remote_peer authority session; selector := selector; availability := availability;
       workspace_dir := None; workspace_key := workspace_key; session_role := role ≫= role_parse;
       opened_by := []; attached_clients := attached_clients; window_count := window_count;
       command_name := command_name; display_command_name := display_command_name;
       agent_command_name := None; current_path := current_path; task_state := task |}.

(** ** Commands *)

Inductive owner_command :=
| UpsertSession (node_id : string) (session : ManagedSessionRecord)
| RemoveSession (node_id authority_id transport_session_id : string)
| SetSessionPane (node_id authority_id transport_session_id socket_name pane_id : string)
| ClearSessionPane (node_id authority_id transport_session_id socket_name : string)
| RemoveNode (node_id : string)
| MarkNodeOffline (node_id : string)
| MarkSessionOfflineBySource (node_id authority_id transport_session_id source_socket_name : string)
    (authority_host_session_name : option string)
| ListTargetsBySourceBinding (source_socket_name authority_host_session_name : string)
| Snapshot
| Shutdown.

Definition command_fields (c : owner_command) : list text :=
  match c with
  | UpsertSession n r => [lit "upsert_session"; escape_field n; render_session_record r]
  | RemoveSession n a t => [lit "remove_session"; escape_field n; escape_field a; escape_field t]
  | SetSessionPane n a t s p =>
      [lit "set_session_pane"; escape_field n; escape_field a; escape_field t; escape_field s; escape_field p]
  | ClearSessionPane n a t s =>
      [lit "clear_session_pane"; escape_field n; escape_field a; escape_field t; escape_field s]
  | RemoveNode n => [lit "remove_node"; escape_field n]
  | MarkNodeOffline n => [lit "mark_node_offline"; escape_field n]
  | MarkSessionOfflineBySource n a t s h =>
      [lit "mark_session_offline_by_source"; escape_field n; escape_field a; escape_field t; escape_field s;
       escape_optional_field h]
  | ListTargetsBySourceBinding s h => [lit "list_targets_by_source_binding"; escape_field s; escape_field h]
  | Snapshot => [lit "snapshot"]
  | Shutdown => [lit "shutdown"]
  end.

Definition render_remote_runtime_owner_command (c : owner_command) : text := join [TAB] (command_fields c) ++ [LF].

Definition parse_remove_session (parts : list text) : result owner_command string :=
  let? (n, parts) := next_field "remove_session is missing node id" parts in
  let? (a, parts) := next_field "remove_session is missing authority id" parts in
  let? (t, parts) := next_field "remove_session is missing transport session id" parts in
  no_more "remove_session contains unexpected extra fields" parts (RemoveSession n a t).

Definition parse_set_session_pane (parts : list text) : result owner_command string :=
  let? (n, parts) := next_field "set_session_pane is missing node id" parts in
  let? (a, parts) := next_field "set_session_pane is missing authority id" parts in
  let? (t, parts) := next_field "set_session_pane is missing transport session id" parts in
  let? (s, parts) := next_field "set_session_pane is missing socket name" parts in
  let? (p, parts) := next_field "set_session_pane is missing pane id" parts in
  no_more "set_session_pane contains unexpected extra fields" parts (SetSessionPane n a t s p).

Definition parse_clear_session_pane (parts : list text) : result owner_command string :=
  let? (n, parts) := next_field "clear_session_pane is missing node id" parts in
  let? (a, parts) := next_field "clear_session_pane is missing authority id" parts in
  let? (t, parts) := next_field "clear_session_pane is missing transport session id" parts in
  let? (s, parts) := next_field "clear_session_pane is missing socket name" parts in
  no_more "clear_session_pane contains unexpected extra fields" parts (ClearSessionPane n a t s).

Definition parse_mark_session_offline (parts : list text) : result owner_command string :=
  let? (n, parts) := next_field "mark_session_offline_by_source is missing node id" parts in
  let? (a, parts) := next_field "mark_session_offline_by_source is missing authority id" parts in
  let? (t, parts) := next_field "mark_session_offline_by_source is missing transport session id" parts in
  let? (s, parts) := next_field "mark_session_offline_by_source is missing source socket name" parts in
  let? (h, parts) := next_optional "mark_session_offline_by_source is missing source session name" parts in
  no_more "mark_session_offline_by_source contains unexpected extra fields" parts (MarkSessionOfflineBySource n a t s h).

Definition parse_list_targets (parts : list text) : result owner_command string :=
  let? (s, parts) := next_field "list_targets_by_source_binding is missing source socket name" parts in
  let? (h, parts) := next_field "list_targets_by_source_binding is missing source session name" parts in
  no_more "list_targets_by_source_binding contains unexpected extra fields" parts (ListTargetsBySourceBinding s h).

Definition parse_remote_runtime_owner_command (line : text) : result owner_command string :=
  match split_by (Z.eqb TAB) line with
  | [] => Err "unsupported remote runtime owner command ``"
  | name :: parts =>
      if bool_decide (name = lit "upsert_session") then
        let? (n, parts) := next_field "upsert_session is missing node id" parts in
        let? session := parse_session_record parts in
        Ok (UpsertSession n session)
      else if bool_decide (name = lit "remove_session") then parse_remove_session parts
      else if bool_decide (name = lit "set_session_pane") then parse_set_session_pane parts
      else if bool_decide (name = lit "clear_session_pane") then parse_clear_session_pane parts
      else if bool_decide (name = lit "remove_node") then
        let? (n, parts) := next_field "remove_node is missing node id" parts in
        no_more "remove_node contains unexpected extra fields" parts (RemoveNode n)
      else if bool_decide (name = lit "mark_node_offline") then
        let? (n, parts) := next_field "mark_node_offline is missing node id" parts in
        no_more "mark_node_offline contains unexpected extra fields" parts (MarkNodeOffline n)
      else if bool_decide (name = lit "mark_session_offline_by_source") then parse_mark_session_offline parts
      else if bool_decide (name = lit "list_targets_by_source_binding") then parse_list_targets parts
      else if bool_decide (name = lit "snapshot") then no_more "snapshot contains unexpected extra fields" parts Snapshot
      else if bool_decide (name = lit "shutdown") then no_more "shutdown contains unexpected extra fields" parts Shutdown
      else Err ("unsupported remote runtime owner command `" +:+ of_text name +:+ "`")%string
  end.

(** ** State *)

Record OwnerStateRecord := mkOwnerRecord {
  or_node_id : string;
  or_session : ManagedSessionRecord;
  socket_panes : gmap string string;
  source_bindings : gset (string * option string) }.

(** [offline_nodes] in milliseconds; [bound] is whether the socket is still
    under its path. *)
Record Owner := mkOwner {
  records : gmap string OwnerStateRecord;
  owner_offline : gmap string Z;
  running : bool;
  bound : bool }.

Definition OFFLINE_NODE_RETENTION : Z := 120000.

Definition owned_record_key (node_id target_id : string) : string :=
  (node_id +:+ String (Ascii.ascii_of_nat 9) target_id)%string.

Definition peer_key (node_id authority_id transport_session_id : string) : string :=
  owned_record_key node_id (address_id (remote_peer authority_id transport_session_id)).

Definition has_records (node_id : string) (o : Owner) : bool :=
  bool_decide (map_Exists (fun _ r => or_node_id r = node_id) (records o)).

(** [entry(node_id).or_insert_with(now)]. *)
Definition mark_since (now : Z) (node_id : string) (m : gmap string Z) : gmap string Z :=
  match m !! node_id with Some _ => m | None => <[node_id := now]> m end.

Definition clear_offline_node_if_empty (node_id : string) (o : Owner) : Owner :=
  if has_records node_id o then o else mkOwner (records o) (delete node_id (owner_offline o)) (running o) (bound o).

Definition expired (now : Z) (o : Owner) (node_id : string) : bool :=
  match owner_offline o !! node_id with
  | Some since => OFFLINE_NODE_RETENTION <=? Z.max 0 (now - since)
  | None => false
  end.

Definition prune_expired_offline_nodes (now : Z) (o : Owner) : Owner :=
  mkOwner (filter (fun kr => expired now o (or_node_id kr.2) = false) (records o))
    (filter (fun ns => expired now o ns.1 = false) (owner_offline o)) (running o) (bound o).

Definition set_session (s : ManagedSessionRecord) (r : OwnerStateRecord) : OwnerStateRecord :=
  mkOwnerRecord (or_node_id r) s (socket_panes r) (source_bindings r).

Definition set_panes (f : gmap string string -> gmap string string) (r : OwnerStateRecord) : OwnerStateRecord :=
  mkOwnerRecord (or_node_id r) (or_session r) (f (socket_panes r)) (source_bindings r).

Definition bind_source (b : string * option string) (r : OwnerStateRecord) : OwnerStateRecord :=
  mkOwnerRecord (or_node_id r) (or_session r) (socket_panes r) ({[b]} ∪ source_bindings r).

Definition go_offline (r : OwnerStateRecord) : OwnerStateRecord := set_session (with_availability Offline (or_session r)) r.

(** When the event loop wakes up by itself. *)
Definition compute_next_ttl_deadline (now : Z) (o : Owner) : option Z :=
  match List.filter (fun d => now <? d) (map (fun ns => ns.2 + OFFLINE_NODE_RETENTION) (map_to_list (owner_offline o))) with
  | [] => None
  | d :: ds => Some (foldr Z.min d ds)
  end.

Definition OK_REPLY : text := lit "ok" ++ [LF].

(** ** Snapshots *)

Definition snapshot_row (r : OwnerStateRecord) : text :=
  escape_field (or_node_id r) ++ [TAB] ++ render_session_record (or_session r).

Definition render_remote_runtime_owner_snapshot (rs : list OwnerStateRecord) : text :=
  join [LF] (lit "snapshot" :: map snapshot_row rs).

Definition parse_snapshot_row (line : text) : result ManagedSessionRecord string :=
  let? (_, parts) := next_field "snapshot row is missing node id" (split_by (Z.eqb TAB) line) in
  parse_session_record parts.

Fixpoint parse_snapshot_rows (ls : list text) : result (list ManagedSessionRecord) string :=
  match ls with
  | [] => Ok []
  | line :: ls =>
      if negb (nonempty (str_trim line)) then parse_snapshot_rows ls
      else
        let? s := parse_snapshot_row line in
        let? rest := parse_snapshot_rows ls in
        Ok (s :: rest)
  end.

Definition parse_remote_runtime_owner_snapshot (payload : text) : result (list ManagedSessionRecord) string :=
  let ls := lines payload in
  let header := default [] (head ls) in
  if bool_decide (str_trim header = lit "snapshot") then parse_snapshot_rows (tail ls)
  else Err ("unsupported remote runtime owner snapshot header `" +:+ of_text header +:+ "`")%string.

(** ** The owner

    [order] is the order in which the records of the hash table are visited. *)

Section owner.
Context (order : forall A, list A -> list A).

Definition all_records (o : Owner) : list OwnerStateRecord := order _ (map_to_list (records o)).*2.

Definition set_records (m : gmap string OwnerStateRecord) (o : Owner) : Owner :=
  mkOwner m (owner_offline o) (running o) (bound o).

Definition upsert (node_id : string) (session : ManagedSessionRecord) (o : Owner) : Owner :=
  let key := owned_record_key node_id (address_id (address session)) in
  let '(panes, bindings) :=
    match records o !! key with
    | Some r => (socket_panes r, source_bindings r)
    | None => (∅, ∅)
    end in
  mkOwner (<[key := mkOwnerRecord node_id session panes bindings]> (records o))
    (delete node_id (owner_offline o)) (running o) (bound o).

Definition mark_offline (now : Z) (node_id : string) (o : Owner) : Owner :=
  let o := set_records ((fun r => if bool_decide (or_node_id r = node_id) then go_offline r else r) <$> records o) o in
  if has_records node_id o
  then mkOwner (records o) (mark_since now node_id (owner_offline o)) (running o) (bound o)
  else o.

Definition mark_session_offline (now : Z) (node_id key : string) (b : string * option string) (o : Owner) : Owner :=
  match records o !! key with
  | None => o
  | Some r =>
      mkOwner (<[key := go_offline (bind_source b r)]> (records o)) (mark_since now node_id (owner_offline o))
        (running o) (bound o)
  end.

Definition handle_remote_runtime_owner_command (now : Z) (c : owner_command) (o : Owner) : text * Owner :=
  match c with
  | UpsertSession node_id session => (OK_REPLY, upsert node_id session o)
  | RemoveSession n a t => (OK_REPLY, clear_offline_node_if_empty n (set_records (delete (peer_key n a t) (records o)) o))
  | SetSessionPane n a t s p => (OK_REPLY, set_records (alter (set_panes <[s := p]>) (peer_key n a t) (records o)) o)
  | ClearSessionPane n a t s => (OK_REPLY, set_records (alter (set_panes (delete s)) (peer_key n a t) (records o)) o)
  | RemoveNode n =>
      (OK_REPLY, mkOwner (filter (fun kr => or_node_id kr.2 <> n) (records o)) (delete n (owner_offline o))
                   (running o) (bound o))
  | MarkNodeOffline n => (OK_REPLY, mark_offline now n o)
  | MarkSessionOfflineBySource n a t s h => (OK_REPLY, mark_session_offline now n (peer_key n a t) (s, h) o)
  | ListTargetsBySourceBinding s h =>
      (render_remote_runtime_owner_snapshot
         (List.filter (fun r => bool_decide ((s, Some h) ∈ source_bindings r) && is_target_host (or_session r)) (all_records o)), o)
  | Snapshot =>
      let o := prune_expired_offline_nodes now o in
      (render_remote_runtime_owner_snapshot (all_records o), o)
  | Shutdown => (OK_REPLY, mkOwner (records o) (owner_offline o) false (bound o))
  end.

(** A connection: the whole line is read and trimmed; an error closes the
    connection without an answer. *)
Definition serve (now : Z) (line : text) (o : Owner) : text * Owner :=
  match parse_remote_runtime_owner_command (str_trim line) with
  | Ok c => handle_remote_runtime_owner_command now c o
  | Err _ => ([], o)
  end.

(** ** Its clients

    A call is one connection after the other, at the time [now]. *)

Inductive owner_error := NotRunning | NotAcknowledged (reply : text) | AfterRestart (e : owner_error) | Unreachable.

(** Whether a connection is accepted. *)
Definition serving (o : Owner) : bool := bound o && running o.

Definition unbind (o : Owner) : Owner := mkOwner (records o) (owner_offline o) (running o) false.

Definition remote_runtime_owner_available (now : Z) (o : Owner) : bool * Owner :=
  if serving o then
    let '(reply, o) := serve now (render_remote_runtime_owner_command Snapshot) o in
    (is_ok (parse_remote_runtime_owner_snapshot reply), o)
  else (false, o).

Definition try_signal (now : Z) (c : owner_command) (o : Owner) : result unit owner_error * Owner :=
  if serving o then
    let '(reply, o) := serve now (render_remote_runtime_owner_command c) o in
    (if bool_decide (str_trim reply = lit "ok") then Ok tt else Err (NotAcknowledged reply), o)
  else (Err Unreachable, o).

(** A command that is not acknowledged removes the socket. *)
Definition signal (now : Z) (c : owner_command) (o : Owner) : result unit owner_error * Owner :=
  match try_signal now c o with
  | (Err (NotAcknowledged _), o) =>
      let '(available, o) := remote_runtime_owner_available now (unbind o) in
      if available then
        match try_signal now c o with
        | (Ok u, o) => (Ok u, o)
        | (Err e, o) => (Err (AfterRestart e), o)
        end
      else (Err NotRunning, o)
  | r => r
  end.

(** [upsert_session], [remove_session], [mark_node_offline] and the others. *)
Definition owner_call (now : Z) (c : owner_command) (o : Owner) : result unit owner_error * Owner :=
  let '(available, o) := remote_runtime_owner_available now o in
  if available then signal now c o else (Err NotRunning, o).

(** [try_snapshot]: an owner that cannot be asked has no sessions, and one
    whose answer cannot be read loses its socket. *)
Definition try_snapshot (now : Z) (o : Owner) : list ManagedSessionRecord * Owner :=
  if serving o then
    let '(reply, o) := serve now (render_remote_runtime_owner_command Snapshot) o in
    match parse_remote_runtime_owner_snapshot reply with
    | Ok sessions => (sessions, o)
    | Err _ => ([], unbind o)
    end
  else ([], unbind o).

(** The event loop: a connection, or the retention of a node that is off line
    is over. *)
Inductive owner_event := Connection (now : Z) (line : text) | RetentionOver (now : Z).

Definition owner_step (e : owner_event) (o : Owner) : Owner :=
  match e with
  | Connection now line => (serve now line o).2
  | RetentionOver now => prune_expired_offline_nodes now o
  end.

Definition owner_run (es : list owner_event) (o : Owner) : Owner := foldl (fun o e => owner_step e o) o es.

End owner.

Definition new_owner : Owner := mkOwner ∅ ∅ true true.

(** ** The line protocol is exact *)

(** What every [String] is. *)
Definition is_text (s : string) : Prop := exists t, Forall scalar t /\ s = of_text t.

Lemma is_text_utf8 s : is_text s -> of_text (utf8 s) = s.
Proof. intros (t & Ht & ->). by rewrite utf8_of_text. Qed.

Lemma unescape_escape t :
  unescape_chars (replace_char TAB [BACKSLASH; 116] (replace_char BACKSLASH [BACKSLASH; BACKSLASH] t)) = Ok t.
Proof.
  induction t as [|c t IH]; [done|]. unfold replace_char in *. cbn [mbind list_bind].
  destruct (Z.eqb_spec c BACKSLASH) as [->|Hb].
  - cbn. unfold BACKSLASH in *. simpl. by rewrite IH.
  - cbn [app mbind list_bind]. destruct (Z.eqb_spec c TAB) as [->|Ht]; cbn [app unescape_chars].
    + cbn. by rewrite IH.
    + rewrite (proj2 (Z.eqb_neq c BACKSLASH)) by done. cbn. by rewrite IH.
Qed.

Lemma unescape_escape_field s : is_text s -> unescape_field (escape_field s) = Ok s.
Proof. intros Hs. unfold unescape_field, escape_field. rewrite unescape_escape. by rewrite is_text_utf8. Qed.

Definition optional_text (v : option string) : Prop :=
  match v with Some s => is_text s /\ s <> "~"%string | None => True end.

Lemma unescape_escape_optional v : optional_text v -> unescape_optional_field (escape_optional_field v) = Ok v.
Proof.
  destruct v as [s|]; [|done]. intros [Hs Hn]. unfold unescape_optional_field. cbn [escape_optional_field].
  pose proof (unescape_escape_field s Hs) as E. rewrite bool_decide_false; [by rewrite E|].
  intros Et. rewrite Et in E. injection E as <-. by apply Hn.
Qed.

Lemma escape_no_tab s : Forall (fun c => (TAB =? c) = false) (escape_field s).
Proof.
  unfold escape_field. generalize (replace_char BACKSLASH [BACKSLASH; BACKSLASH] (utf8 s)). intros t.
  induction t as [|c t IH]; [constructor|]. unfold replace_char in *. cbn [mbind list_bind].
  apply Forall_app. split; [|done]. destruct (Z.eqb_spec c TAB); repeat constructor. by apply Z.eqb_neq.
Qed.

Lemma escape_optional_no_tab v : Forall (fun c => (TAB =? c) = false) (escape_optional_field v).
Proof. destruct v; [apply escape_no_tab|by repeat constructor]. Qed.

Lemma split_joined sep c fields : sep c = true -> fields <> [] -> Forall (Forall (fun x => sep x = false)) fields ->
  split_by sep (join [c] fields) = fields.
Proof.
  intros Hc Hn Hf. induction Hf as [|f fs Hf Hfs IH]; [done|]. destruct fs as [|g fs].
  - by apply split_by_plain.
  - change (join [c] (f :: g :: fs)) with (f ++ c :: join [c] (g :: fs)).
    rewrite split_by_word by done. by rewrite IH.
Qed.

Lemma join_flatten sep a fields : fields <> [] -> a <> [] -> join sep (a ++ [join sep fields]) = join sep (a ++ fields).
Proof.
  intros Hn Ha. induction a as [|f a IH]; [done|]. destruct a as [|g a].
  - by destruct fields.
  - change (f ++ sep ++ join sep ((g :: a) ++ [join sep fields]) = f ++ sep ++ join sep ((g :: a) ++ fields)).
    by rewrite IH.
Qed.

(** The records the node stores, as [published_remote_target_record_from_payload]
    makes them. *)
Record stored_record (r : ManagedSessionRecord) : Prop := {
  sr_address : address r = remote_peer (authority_id (address r)) (session_id (address r));
  sr_authority : is_text (authority_id (address r));
  sr_session : is_text (session_id (address r));
  sr_selector : optional_text (selector r);
  sr_workspace_key : optional_text (workspace_key r);
  sr_command : optional_text (command_name r);
  sr_display : optional_text (display_command_name r);
  sr_path : optional_text (current_path r);
  sr_attached : fits 64 (attached_clients r);
  sr_windows : fits 64 (window_count r);
  sr_workspace_dir : workspace_dir r = None;
  sr_opened_by : opened_by r = [];
  sr_agent : agent_command_name r = None }.

Definition record_fields (r : ManagedSessionRecord) : list text :=
  [ escape_field (authority_id (address r)); escape_field (session_id (address r));
    escape_optional_field (selector r); lit (availability_as_str (availability r));
    escape_optional_field (role_as_str <$> session_role r); escape_optional_field (workspace_key r);
    escape_optional_field (command_name r); escape_optional_field (display_command_name r);
    escape_optional_field (current_path r); num (attached_clients r); num (window_count r);
    lit (task_state_as_str (task_state r)) ].

Lemma next_field_escape m s parts : is_text s -> next_field m (escape_field s :: parts) = Ok (s, parts).
Proof. intros Hs. unfold next_field, next_part. by rewrite unescape_escape_field. Qed.

Lemma next_optional_escape m v parts : optional_text v -> next_optional m (escape_optional_field v :: parts) = Ok (v, parts).
Proof. intros Hs. unfold next_optional, next_part. by rewrite unescape_escape_optional. Qed.

Lemma next_number_num m z parts : fits 64 z -> next_number m (num z :: parts) = Ok (z, parts).
Proof. intros Hz. unfold next_number, next_part, num. by rewrite parse_uint_pretty. Qed.

Lemma scalar_lit s : forallb (fun c => (0 <=? c) && (c <? 0xD800)) (lit s) = true -> Forall scalar (lit s).
Proof.
  intros E. induction (lit s) as [|c t IH]; [constructor|]. apply andb_true_iff in E as [E Et]. constructor; [|by apply IH].
  unfold scalar. lia.
Qed.

Lemma role_text r : optional_text (role_as_str <$> r).
Proof.
  destruct r as [[]|]; [| |done]; (split; [|done]).
  - exists (lit "workspace-chrome"). split; [by apply scalar_lit|reflexivity].
  - exists (lit "target-host"). split; [by apply scalar_lit|reflexivity].
Qed.

Lemma role_reads r : (role_as_str <$> r) ≫= role_parse = r.
Proof. by destruct r as [[]|]. Qed.

Lemma parse_record_fields r : stored_record r -> parse_session_record (record_fields r) = Ok r.
Proof.
  intros []. unfold record_fields, parse_session_record.
  rewrite !next_field_escape by done. rewrite next_optional_escape by done. unfold next_part at 1.
  assert (Ea : availability_parse (of_text (lit (availability_as_str (availability r)))) = Some (availability r))
    by (by destruct (availability r)).
  rewrite Ea. cbn [ok_or]. rewrite !next_optional_escape by (done || apply role_text).
  rewrite !next_number_num by done. unfold next_part.
  assert (Et : task_state_parse (of_text (lit (task_state_as_str (task_state r)))) = Some (task_state r))
    by (by destruct (task_state r)).
  rewrite Et. cbn [ok_or no_more]. rewrite role_reads, <- sr_address0. destruct r; simpl in *. by subst.
Qed.

Lemma join_solid sep fields f : last fields = Some f -> solid_end f -> solid_end (join sep fields).
Proof.
  induction fields as [|g fs IH]; [done|]. destruct fs as [|h fs]; intros E Hf; [injection E as ->; exact Hf|].
  change (solid_end (g ++ sep ++ join sep (h :: fs))). do 2 apply solid_app. by apply IH.
Qed.

(** A line is read as its fields. *)
Lemma line_fields_read name rest f c r : lit name = c :: r -> is_whitespace c = false ->
  last (lit name :: rest) = Some f -> solid_end f ->
  Forall (Forall (fun x => (TAB =? x) = false)) (lit name :: rest) ->
  split_by (Z.eqb TAB) (str_trim (join [TAB] (lit name :: rest) ++ [LF])) = lit name :: rest.
Proof.
  intros En Hc Hl Hs Hf. change (join [TAB] (lit name :: rest) ++ [LF]) with (ended (join [TAB] (lit name :: rest))).
  rewrite trim_newline. pose proof (join_solid [TAB] _ _ Hl Hs) as Hj.
  assert (Ht : str_trim (join [TAB] (lit name :: rest)) = join [TAB] (lit name :: rest)).
  { revert Hj. rewrite En. destruct rest as [|g rest]; [by apply trim_solid|].
    change (join [TAB] ((c :: r) :: g :: rest)) with (c :: r ++ [TAB] ++ join [TAB] (g :: rest)). by apply trim_solid. }
  rewrite Ht. by apply split_joined.
Qed.

Definition solid_arg (s : string) : Prop := is_text s /\ solid_end (escape_field s).

(** The commands that survive the line: names are texts, and the last field
    of the line is not empty and does not end in white space. *)
Definition owner_writable (c : owner_command) : Prop :=
  match c with
  | UpsertSession n r => is_text n /\ stored_record r
  | RemoveSession n a t => is_text n /\ is_text a /\ solid_arg t
  | SetSessionPane n a t s p => is_text n /\ is_text a /\ is_text t /\ is_text s /\ solid_arg p
  | ClearSessionPane n a t s => is_text n /\ is_text a /\ is_text t /\ solid_arg s
  | RemoveNode n | MarkNodeOffline n => solid_arg n
  | MarkSessionOfflineBySource n a t s h =>
      is_text n /\ is_text a /\ is_text t /\ is_text s /\ optional_text h /\ solid_end (escape_optional_field h)
  | ListTargetsBySourceBinding s h => is_text s /\ solid_arg h
  | Snapshot | Shutdown => True
  end.

Lemma lit_no_tab s : forallb (fun c => negb (TAB =? c)) (lit s) = true -> Forall (fun x => (TAB =? x) = false) (lit s).
Proof.
  intros E. induction (lit s) as [|c t IH]; [constructor|]. apply andb_true_iff in E as [E Et].
  constructor; [|by apply IH]. by apply negb_true_iff.
Qed.

Lemma num_no_tab z : fits 64 z -> Forall (fun x => (TAB =? x) = false) (num z).
Proof.
  intros Hz. destruct (parse_uint_plain 64 (num z) z) as [Hp _]; [by apply parse_uint_pretty|].
  eapply Forall_impl; [exact Hp|]. intros c Hc. apply Z.eqb_neq. by intros <-.
Qed.

(** Fields without tabs, by what they are. *)
Ltac no_tabs :=
  repeat match goal with
  | |- Forall _ (_ :: _) => apply Forall_cons; split
  | |- Forall _ [] => constructor
  | |- Forall _ (escape_field _) => apply escape_no_tab
  | |- Forall _ (escape_optional_field _) => apply escape_optional_no_tab
  | |- Forall _ (num _) => apply num_no_tab; assumption
  | |- Forall _ (lit _) => apply lit_no_tab
  end.

Lemma record_fields_no_tab r : stored_record r -> Forall (Forall (fun x => (TAB =? x) = false)) (record_fields r).
Proof. intros []. unfold record_fields. no_tabs; [by destruct (availability r)|by destruct (task_state r)]. Qed.

Lemma task_state_solid t : solid_end (lit (task_state_as_str t)).
Proof.
  destruct t; [exists (lit "runnin"), 103|exists (lit "inpu"), 116|exists (lit "confir"), 109|exists (lit "unknow"), 110]; done.
Qed.

Lemma upsert_line n r : is_text n -> stored_record r ->
  split_by (Z.eqb TAB) (str_trim (render_remote_runtime_owner_command (UpsertSession n r))) =
  lit "upsert_session" :: escape_field n :: record_fields r.
Proof.
  intros Hn Hr. unfold render_remote_runtime_owner_command. cbn [command_fields].
  change [lit "upsert_session"; escape_field n; render_session_record r]
    with ([lit "upsert_session"; escape_field n] ++ [join [TAB] (record_fields r)]).
  rewrite (join_flatten [TAB] [lit "upsert_session"; escape_field n] (record_fields r)) by done.
  eapply line_fields_read; [reflexivity|done|reflexivity|apply task_state_solid|].
  cbn [app]. apply Forall_cons; split; [by apply lit_no_tab|].
  apply Forall_cons; split; [apply escape_no_tab|by apply record_fields_no_tab].
Qed.

(** Each name is tested against the names before it. *)
Ltac test_names := repeat (rewrite bool_decide_false by (let E := fresh in intros E; vm_compute in E; discriminate E));
  rewrite bool_decide_true by reflexivity.

(** A line whose last field is [f]. *)
Ltac read_fields f :=
  unfold render_remote_runtime_owner_command; cbn [command_fields];
  match goal with |- context [join [TAB] (lit ?name :: ?rest)] =>
    rewrite (line_fields_read name rest f _ _ eq_refl eq_refl eq_refl) by (first [assumption | no_tabs; reflexivity])
  end; test_names.

Lemma owner_command_reads_back c : owner_writable c ->
  parse_remote_runtime_owner_command (str_trim (render_remote_runtime_owner_command c)) = Ok c.
Proof.
  intros Hw. unfold parse_remote_runtime_owner_command.
  destruct c as [n r|n a t|n a t s p|n a t s|n|n|n a t s h|s h| |]; cbn [owner_writable] in Hw;
    unfold solid_arg in Hw; destruct_and? Hw.
  - rewrite upsert_line by done. test_names. rewrite next_field_escape by done. by rewrite parse_record_fields.
  - read_fields (escape_field t). unfold parse_remove_session. by rewrite !next_field_escape.
  - read_fields (escape_field p). unfold parse_set_session_pane. by rewrite !next_field_escape.
  - read_fields (escape_field s). unfold parse_clear_session_pane. by rewrite !next_field_escape.
  - read_fields (escape_field n). by rewrite !next_field_escape.
  - read_fields (escape_field n). by rewrite !next_field_escape.
  - read_fields (escape_optional_field h). unfold parse_mark_session_offline.
    by rewrite !next_field_escape, next_optional_escape.
  - read_fields (escape_field h). unfold parse_list_targets. by rewrite !next_field_escape.
  - reflexivity.
  - reflexivity.
Qed.

(** ** The snapshot is exact *)

Definition one_line (s : string) : Prop := Forall (fun c => (LF =? c) = false) (utf8 s).
Definition one_line_opt (v : option string) : Prop := match v with Some s => one_line s | None => True end.

(** A record that fits the line of a snapshot. *)
Record row_ok (n : string) (r : ManagedSessionRecord) : Prop := {
  row_stored : stored_record r;
  row_node_text : is_text n;
  row_node : one_line n;
  row_authority : one_line (authority_id (address r));
  row_session : one_line (session_id (address r));
  row_selector : one_line_opt (selector r);
  row_workspace_key : one_line_opt (workspace_key r);
  row_command : one_line_opt (command_name r);
  row_display : one_line_opt (display_command_name r);
  row_path : one_line_opt (current_path r) }.

Lemma replace_char_no c d r t : Forall (fun x => (d =? x) = false) r -> Forall (fun x => (d =? x) = false) t ->
  Forall (fun x => (d =? x) = false) (replace_char c r t).
Proof.
  intros Hr Ht. unfold replace_char. induction Ht as [|x t Hx Ht IH]; [constructor|]. cbn [mbind list_bind].
  apply Forall_app. split; [|done]. destruct (x =? c); [done|]. by repeat constructor.
Qed.

Lemma escape_one_line s : one_line s -> Forall (fun c => (LF =? c) = false) (escape_field s).
Proof. intros Hs. unfold escape_field. repeat apply replace_char_no; by repeat constructor. Qed.

Lemma escape_opt_one_line v : one_line_opt v -> Forall (fun c => (LF =? c) = false) (escape_optional_field v).
Proof. destruct v; [apply escape_one_line|]. by repeat constructor. Qed.

Lemma lit_one_line s : forallb (fun c => negb (LF =? c)) (lit s) = true -> Forall (fun x => (LF =? x) = false) (lit s).
Proof.
  intros E. induction (lit s) as [|c t IH]; [constructor|]. apply andb_true_iff in E as [E Et].
  constructor; [|by apply IH]. by apply negb_true_iff.
Qed.

Lemma num_one_line z : fits 64 z -> Forall (fun x => (LF =? x) = false) (num z).
Proof.
  intros Hz. destruct (parse_uint_plain 64 (num z) z) as [Hp _]; [by apply parse_uint_pretty|].
  eapply Forall_impl; [exact Hp|]. intros c Hc. apply Z.eqb_neq. by intros <-.
Qed.

Lemma join_one_line c fields : (LF =? c) = false -> Forall (Forall (fun x => (LF =? x) = false)) fields ->
  Forall (fun x => (LF =? x) = false) (join [c] fields).
Proof.
  intros Hc Hf. induction Hf as [|f fs Hf Hfs IH]; [constructor|]. destruct fs as [|g fs]; [done|].
  change (Forall (fun x => (LF =? x) = false) (f ++ [c] ++ join [c] (g :: fs))).
  apply Forall_app. split; [done|]. apply Forall_app. split; [by repeat constructor|done].
Qed.

Definition row_fields (n : string) (r : ManagedSessionRecord) : list text := escape_field n :: record_fields r.

Lemma snapshot_row_fields n r p b : snapshot_row (mkOwnerRecord n r p b) = join [TAB] (row_fields n r).
Proof. reflexivity. Qed.

Lemma row_one_line n r : row_ok n r -> Forall (fun x => (LF =? x) = false) (join [TAB] (row_fields n r)).
Proof.
  intros [Hst]. destruct Hst. apply join_one_line; [done|]. unfold row_fields, record_fields.
  repeat match goal with
  | |- Forall _ (_ :: _) => apply Forall_cons; split
  | |- Forall _ [] => constructor
  | |- Forall _ (escape_field _) => apply escape_one_line; assumption
  | |- Forall _ (escape_optional_field (role_as_str <$> _)) => apply escape_opt_one_line
  | |- Forall _ (escape_optional_field _) => apply escape_opt_one_line; assumption
  | |- Forall _ (num _) => apply num_one_line; assumption
  | |- Forall _ (lit _) => apply lit_one_line
  end; [by destruct (availability r)| |by destruct (task_state r)].
  destruct (session_role r) as [[]|]; [| |done]; vm_compute; by repeat constructor.
Qed.

Lemma row_solid n r : solid_end (join [TAB] (row_fields n r)).
Proof. eapply join_solid; [reflexivity|]. apply task_state_solid. Qed.

Lemma solid_nonempty t : solid_end t -> nonempty (str_trim t) = true /\ nonempty t = true /\ strip_cr t = t.
Proof.
  intros (f & d & -> & Hd). split_and!.
  - unfold nonempty. apply negb_true_iff, bool_decide_eq_false. unfold str_trim.
    destruct (trim_start_snoc f d Hd) as [t ->]. rewrite trim_end_last by done. by destruct t.
  - unfold nonempty. apply negb_true_iff, bool_decide_eq_false. by destruct f.
  - unfold strip_cr. rewrite rev_app_distr. simpl. destruct (Z.eq_dec d 13) as [->|Hn]; [done|].
    by repeat case_match; subst.
Qed.

Lemma ended_lines_solid ls : Forall solid_end ls -> ended_lines ls = ls.
Proof.
  induction 1 as [|l ls Hl Hls IH]; [done|]. apply solid_nonempty in Hl as (_ & Hn & Hc).
  destruct ls as [|l' ls]; cbn [ended_lines]; [by rewrite Hn|]. rewrite Hc. f_equal. apply IH.
Qed.

Lemma snapshot_rows_read rs : Forall (fun r => row_ok (or_node_id r) (or_session r)) rs ->
  parse_snapshot_rows (map snapshot_row rs) = Ok (map or_session rs).
Proof.
  induction 1 as [|r rs Hr Hrs IH]; [done|]. cbn [map parse_snapshot_rows].
  destruct r as [n s p b]. simpl in Hr. rewrite snapshot_row_fields.
  destruct (solid_nonempty _ (row_solid n s)) as [-> _]. cbn [negb].
  unfold parse_snapshot_row. rewrite split_joined; [|done|done|].
  - unfold row_fields. rewrite next_field_escape by apply Hr. rewrite parse_record_fields by apply Hr.
    rewrite IH. done.
  - unfold row_fields. apply Forall_cons; split; [apply escape_no_tab|apply record_fields_no_tab, Hr].
Qed.

Lemma snapshot_reads_back rs : Forall (fun r => row_ok (or_node_id r) (or_session r)) rs ->
  parse_remote_runtime_owner_snapshot (render_remote_runtime_owner_snapshot rs) = Ok (map or_session rs).
Proof.
  intros Hrs. unfold parse_remote_runtime_owner_snapshot, render_remote_runtime_owner_snapshot, lines.
  rewrite split_joined; [|done|done|].
  - rewrite ended_lines_solid.
    + cbn [head tail default]. rewrite bool_decide_true by reflexivity. by apply snapshot_rows_read.
    + constructor; [by exists (lit "snapsho"), 116|]. apply Forall_map, Forall_true.
      intros [n s p b]. rewrite snapshot_row_fields. apply row_solid.
  - constructor; [by apply lit_one_line|]. apply Forall_map. eapply Forall_impl; [exact Hrs|].
    intros [n s p b] Hr. cbv beta. rewrite snapshot_row_fields. by apply row_one_line.
Qed.

(** ** The owner over its socket is the owner *)

Section transparent.
Context (order : forall A, list A -> list A) (Horder : forall A (l : list A), order A l ≡ₚ l).

Definition owner_ok (o : Owner) : Prop :=
  map_Forall (fun _ r => row_ok (or_node_id r) (or_session r)) (records o) /\ bound o = true /\ running o = true.

(** A command that changes records and fits the line. *)
Definition command_ok (c : owner_command) : Prop :=
  match c with
  | UpsertSession n r => row_ok n r
  | ListTargetsBySourceBinding _ _ | Snapshot | Shutdown => False
  | c => owner_writable c
  end.

Lemma command_writable c : command_ok c -> owner_writable c.
Proof. destruct c; cbn; try done. intros Hr. split; apply Hr. Qed.

Lemma command_ok_reply now c o : command_ok c -> (handle_remote_runtime_owner_command order now c o).1 = OK_REPLY.
Proof. by destruct c. Qed.

Lemma row_offline n r : row_ok n r -> row_ok n (with_availability Offline r).
Proof. intros [Hst]. destruct Hst. constructor; [constructor|..]; assumption. Qed.

Lemma forall_filter {A} (P : string * A -> Prop) `{!forall x, Decision (P x)} (Q : string -> A -> Prop) (m : gmap string A) :
  map_Forall Q m -> map_Forall Q (filter P m).
Proof. intros Hm k a [E _]%map_lookup_filter_Some. by apply Hm. Qed.

Lemma prune_ok now o : owner_ok o -> owner_ok (prune_expired_offline_nodes now o).
Proof. intros (Hr & Hb & Hu). split_and!; [|done|done]. simpl. by apply forall_filter. Qed.

Lemma handle_ok now c o : command_ok c -> owner_ok o -> owner_ok (handle_remote_runtime_owner_command order now c o).2.
Proof.
  intros Hc (Hr & Hb & Hu).
  assert (Hup : forall m' off', map_Forall (fun _ r => row_ok (or_node_id r) (or_session r)) m' ->
    owner_ok (mkOwner m' off' (running o) (bound o))) by (by intros; split_and!).
  assert (Hoff : forall r, row_ok (or_node_id r) (or_session r) ->
    row_ok (or_node_id (go_offline r)) (or_session (go_offline r))) by (intros r; apply row_offline).
  destruct c as [n r|n a t|n a t s p|n a t s|n|n|n a t s h|s h| |]; cbn in Hc |- *; try done.
  - unfold upsert. destruct (records o !! _); apply Hup, map_Forall_insert_2; done.
  - unfold clear_offline_node_if_empty, set_records. case_match; apply Hup; cbn; by apply map_Forall_delete.
  - apply Hup. intros k r. rewrite lookup_alter_Some. intros [(_ & r' & E & ->)|[_ E]]; [|by apply (Hr k)].
    by apply (Hr k r').
  - apply Hup. intros k r. rewrite lookup_alter_Some. intros [(_ & r' & E & ->)|[_ E]]; [|by apply (Hr k)].
    by apply (Hr k r').
  - apply Hup. by apply forall_filter.
  - unfold mark_offline, set_records. case_match; apply Hup; cbn; apply map_Forall_fmap; intros k r E; cbn;
      (case_bool_decide; [apply Hoff|]; by apply (Hr k)).
  - unfold mark_session_offline. destruct (records o !! _) as [r|] eqn:E; [|done].
    apply Hup, map_Forall_insert_2; [|done]. apply (Hoff (bind_source (s, h) r)). by apply (Hr _ _ E).
Qed.

Lemma ok_trims : str_trim OK_REPLY = lit "ok".
Proof. reflexivity. Qed.

Lemma serve_command now c o : owner_writable c ->
  serve order now (render_remote_runtime_owner_command c) o = handle_remote_runtime_owner_command order now c o.
Proof. intros Hc. unfold serve. by rewrite owner_command_reads_back. Qed.

Lemma all_records_ok o : owner_ok o -> Forall (fun r => row_ok (or_node_id r) (or_session r)) (all_records order o).
Proof.
  intros (Hr & _). unfold all_records. rewrite Horder. apply Forall_fmap. apply Forall_forall.
  intros [k r] Hk. apply elem_of_map_to_list in Hk. by apply (Hr k r).
Qed.

Lemma available_prunes now o : owner_ok o ->
  remote_runtime_owner_available order now o = (true, prune_expired_offline_nodes now o).
Proof.
  intros Ho. unfold remote_runtime_owner_available, serving. destruct Ho as (Hr & Hb & Hu). rewrite Hb, Hu. cbn [andb].
  rewrite serve_command by done. cbn [handle_remote_runtime_owner_command].
  by rewrite snapshot_reads_back by (by apply all_records_ok, prune_ok).
Qed.

Lemma call_is_direct now c o : command_ok c -> owner_ok o ->
  owner_call order now c o =
  (Ok tt, (handle_remote_runtime_owner_command order now c (prune_expired_offline_nodes now o)).2).
Proof.
  intros Hc Ho. unfold owner_call. rewrite available_prunes by done. apply (prune_ok now) in Ho.
  unfold signal, try_signal, serving. pose proof Ho as (_ & Hb & Hu). rewrite Hb, Hu. cbn [andb].
  rewrite serve_command by (by apply command_writable).
  pose proof (command_ok_reply now c (prune_expired_offline_nodes now o) Hc) as E.
  destruct (handle_remote_runtime_owner_command _ _ _ _) as [reply o']. cbn in E. subst reply.
  by rewrite ok_trims, bool_decide_true.
Qed.

(** The calls one after the other, with their results, and the same commands
    handled directly. *)
Fixpoint owner_calls (calls : list (Z * owner_command)) (o : Owner) : list (result unit owner_error) * Owner :=
  match calls with
  | [] => ([], o)
  | (now, c) :: calls =>
      let '(r, o) := owner_call order now c o in
      let '(rs, o) := owner_calls calls o in
      (r :: rs, o)
  end.

Definition direct (calls : list (Z * owner_command)) (o : Owner) : Owner :=
  foldl (fun o nc => (handle_remote_runtime_owner_command order nc.1 nc.2 (prune_expired_offline_nodes nc.1 o)).2) o calls.

Lemma calls_are_direct calls o : owner_ok o -> Forall (fun nc => command_ok nc.2) calls ->
  owner_calls calls o = (replicate (length calls) (Ok tt), direct calls o) /\ owner_ok (direct calls o).
Proof.
  intros Ho Hc. revert o Ho. induction Hc as [|[now c] calls Hc Hcs IH]; intros o Ho; [done|].
  cbn [owner_calls direct foldl fst snd length replicate]. cbn in Hc. rewrite call_is_direct by done.
  destruct (IH (handle_remote_runtime_owner_command order now c (prune_expired_offline_nodes now o)).2) as [E Hok].
  { apply handle_ok; [done|]. by apply prune_ok. }
  rewrite E. done.
Qed.

(** C22. The owner reached over its socket is the owner: whatever is published,
    removed or marked, at whatever times, every call is acknowledged and has
    exactly the effect of the command itself (after nodes whose retention is
    over are dropped), although commands, records and answers are written as
    lines of escaped fields and read back, and each call first asks for a
    snapshot; and a snapshot gives exactly the sessions the owner has, with all
    their fields. This is for names and fields that fit a line, which
    [command_ok] says: no field of a published record has a line feed, none
    of its optional fields is a lone tilde, and the last field of any other
    command is not empty and does not end in white space. Outside of it the
    calls are not transparent: [line_feed_hides_every_session], [tilde_is_lost]
    and [nameless_removal_unbinds_the_owner] show what happens. *)
Theorem owner_calls_are_transparent calls now : Forall (fun nc => command_ok nc.2) calls ->
  owner_calls calls new_owner = (replicate (length calls) (Ok tt), direct calls new_owner) /\
  exists sessions, try_snapshot order now (direct calls new_owner) =
                     (sessions, prune_expired_offline_nodes now (direct calls new_owner)) /\
    sessions ≡ₚ map or_session (map_to_list (records (prune_expired_offline_nodes now (direct calls new_owner)))).*2.
Proof.
  intros Hc. assert (Hn : owner_ok new_owner) by (split_and!; [apply map_Forall_empty|done|done]).
  destruct (calls_are_direct calls new_owner Hn Hc) as [E Ho]. split; [done|].
  eexists. unfold try_snapshot, serving. pose proof Ho as (_ & Hb & Hu). rewrite Hb, Hu. cbn [andb].
  rewrite serve_command by done. cbn [handle_remote_runtime_owner_command].
  rewrite snapshot_reads_back by (by apply all_records_ok, prune_ok). split; [done|].
  unfold all_records. by rewrite Horder.
Qed.

End transparent.

(** ** Retention of nodes that are off line *)

Definition tab_char : Ascii.ascii := Ascii.ascii_of_nat 9.

(** Node ids have no tab. *)
Fixpoint tabless (s : string) : Prop :=
  match s with EmptyString => True | String c s => c <> tab_char /\ tabless s end.

Lemma owned_key_inj n n' x x' : tabless n -> tabless n' -> owned_record_key n x = owned_record_key n' x' -> n = n'.
Proof.
  unfold owned_record_key. revert n'. induction n as [|c n IH]; intros [|c' n'] Hn Hn' E; cbn in *; [done| | |].
  - injection E as <- _. by destruct Hn' as [[] _].
  - injection E as -> _. by destruct Hn as [[] _].
  - injection E as -> E. f_equal. apply IH; [apply Hn|apply Hn'|done].
Qed.

Definition keyed_owner (o : Owner) : Prop :=
  map_Forall (fun k r => tabless (or_node_id r) /\ exists id, k = owned_record_key (or_node_id r) id) (records o).

(** The node a command is about. *)
Definition command_node (c : owner_command) : option string :=
  match c with
  | UpsertSession n _ | RemoveSession n _ _ | SetSessionPane n _ _ _ _ | ClearSessionPane n _ _ _
  | RemoveNode n | MarkNodeOffline n | MarkSessionOfflineBySource n _ _ _ _ => Some n
  | ListTargetsBySourceBinding _ _ | Snapshot | Shutdown => None
  end.

Definition of_owner_node (n : string) (o : Owner) : gmap string OwnerStateRecord :=
  filter (fun kr => or_node_id kr.2 = n) (records o).

Lemma same_node_records n (m m' : gmap string OwnerStateRecord) :
  (forall k r, or_node_id r = n -> m' !! k = Some r <-> m !! k = Some r) ->
  filter (fun kr : string * OwnerStateRecord => or_node_id kr.2 = n) m' = filter (fun kr => or_node_id kr.2 = n) m.
Proof.
  intros H. apply map_eq. intros k. apply option_eq. intros r. rewrite !map_lookup_filter_Some. cbn.
  split; intros [E En]; (split; [by apply H|done]).
Qed.

Section retention.
Context (order : forall A, list A -> list A).

Lemma other_key n n' k r id o : keyed_owner o -> tabless n' -> n' <> n -> records o !! k = Some r -> or_node_id r = n ->
  owned_record_key n' id <> k.
Proof.
  intros Hk Ht Hn E <- Ek. destruct (Hk k r E) as [Hr [id' Ek']]. subst k. by apply owned_key_inj in Ek'.
Qed.

Abbreviation of_node_n n := (filter (fun kr : string * OwnerStateRecord => or_node_id kr.2 = n)).

Lemma insert_other n n' id r o : keyed_owner o -> tabless n' -> n' <> n -> or_node_id r = n' ->
  of_node_n n (<[owned_record_key n' id := r]> (records o)) = of_node_n n (records o).
Proof.
  intros Hk Ht Hn Hr. apply same_node_records. intros k r1 En. rewrite lookup_insert_Some. split.
  - intros [[_ <-]|[_ E]]; [congruence|done].
  - intros E. right. split; [by eapply other_key|done].
Qed.

Lemma delete_other n n' id o : keyed_owner o -> tabless n' -> n' <> n ->
  of_node_n n (delete (owned_record_key n' id) (records o)) = of_node_n n (records o).
Proof.
  intros Hk Ht Hn. apply same_node_records. intros k r En. rewrite lookup_delete_Some.
  split; [by intros []|]. intros E. split; [by eapply other_key|done].
Qed.

Lemma alter_other n n' id f o : keyed_owner o -> tabless n' -> n' <> n -> (forall r, or_node_id (f r) = or_node_id r) ->
  of_node_n n (alter f (owned_record_key n' id) (records o)) = of_node_n n (records o).
Proof.
  intros Hk Ht Hn Hf. apply same_node_records. intros k r En. rewrite lookup_alter_Some. split.
  - intros [(Ek & r' & E & ->)|[_ E]]; [|done]. rewrite Hf in En. by destruct (other_key n n' k r' id o Hk Ht Hn E En).
  - intros E. right. split; [|done]. by eapply other_key.
Qed.

Lemma mark_since_other now n n' m : n' <> n -> mark_since now n' m !! n = m !! n.
Proof. intros Hn. unfold mark_since. destruct (m !! n'); [done|]. by rewrite lookup_insert_ne. Qed.

(** A command about one node leaves the records and the mark of another. *)
Lemma handle_other n n' now c o : keyed_owner o -> command_node c = Some n' -> tabless n' -> n' <> n ->
  let o' := (handle_remote_runtime_owner_command order now c o).2 in
  of_owner_node n o' = of_owner_node n o /\ owner_offline o' !! n = owner_offline o !! n.
Proof.
  intros Hk Hc Ht Hn. unfold of_owner_node.
  destruct c as [m r|m a t|m a t s p|m a t s|m|m|m a t s h|s h| |]; try discriminate Hc; injection Hc as ->; cbn.
  - unfold upsert. destruct (records o !! _); cbn; (split; [by apply insert_other|by rewrite lookup_delete_ne]).
  - unfold clear_offline_node_if_empty. case_match; cbn; (split; [by apply delete_other|]); [done|by rewrite lookup_delete_ne].
  - split; [|done]. by apply alter_other.
  - split; [|done]. by apply alter_other.
  - split; [|by rewrite lookup_delete_ne]. apply same_node_records. intros k r En. rewrite map_lookup_filter_Some. cbn. naive_solver.
  - assert (Hf : of_node_n n ((fun r => if bool_decide (or_node_id r = n') then go_offline r else r) <$> records o)
      = of_node_n n (records o)).
    { apply same_node_records. intros k r En. rewrite lookup_fmap_Some. split.
      - intros (r' & <- & E). case_bool_decide; [by cbn in En; congruence|done].
      - intros E. exists r. split; [|done]. rewrite bool_decide_false; congruence. }
    unfold mark_offline. case_match; cbn; (split; [done|]); [by apply mark_since_other|done].
  - unfold mark_session_offline. destruct (records o !! _) as [r|] eqn:E; [|done]. cbn.
    split; [|by apply mark_since_other]. apply insert_other; [done..|]. cbn.
    destruct (Hk _ _ E) as [Hr [id' Ek]]. symmetry. by apply owned_key_inj in Ek.
Qed.

Lemma keyed_handle now c o : keyed_owner o -> (forall n, command_node c = Some n -> tabless n) ->
  keyed_owner (handle_remote_runtime_owner_command order now c o).2.
Proof.
  intros Hk Hc. unfold keyed_owner in *.
  destruct c as [m r|m a t|m a t s p|m a t s|m|m|m a t s h|s h| |]; cbn; try done; try specialize (Hc _ eq_refl).
  - unfold upsert. destruct (records o !! _); cbn; apply map_Forall_insert_2; (try done); cbn; eauto.
  - unfold clear_offline_node_if_empty. case_match; cbn; by apply map_Forall_delete.
  - intros k r. rewrite lookup_alter_Some. intros [(_ & r' & E & ->)|[_ E]]; by apply Hk in E.
  - intros k r. rewrite lookup_alter_Some. intros [(_ & r' & E & ->)|[_ E]]; by apply Hk in E.
  - by apply forall_filter.
  - unfold mark_offline. case_match; cbn; intros k r (r' & <- & E)%lookup_fmap_Some; apply Hk in E; by case_bool_decide.
  - unfold mark_session_offline. destruct (records o !! _) as [r|] eqn:E; [|done]. cbn.
    apply map_Forall_insert_2; [|done]. by apply Hk in E.
  - by apply forall_filter.
Qed.

Lemma prune_other now n o : expired now o n = false ->
  of_owner_node n (prune_expired_offline_nodes now o) = of_owner_node n o /\
  owner_offline (prune_expired_offline_nodes now o) !! n = owner_offline o !! n.
Proof.
  intros E. unfold of_owner_node. cbn. split.
  - apply same_node_records. intros k r En. rewrite map_lookup_filter_Some. cbn. rewrite En. naive_solver.
  - apply option_eq. intros s. rewrite map_lookup_filter_Some. cbn. naive_solver.
Qed.

(** Commands about other nodes, before the retention of [n] is over. *)
Definition others (n : string) (deadline : Z) (nc : Z * owner_command) : Prop :=
  nc.1 < deadline /\ exists n', command_node nc.2 = Some n' /\ tabless n' /\ n' <> n.

Lemma others_keep n since calls o : keyed_owner o -> owner_offline o !! n = Some since ->
  Forall (others n (since + OFFLINE_NODE_RETENTION)) calls ->
  of_owner_node n (direct order calls o) = of_owner_node n o /\ owner_offline (direct order calls o) !! n = Some since.
Proof.
  intros Hk Hs Hc. revert o Hk Hs. induction Hc as [|[now c] calls [Ht (n' & Ec & Hn & Hne)] Hcs IH]; intros o Hk Hs; [done|].
  cbn [direct foldl fst snd] in *.
  assert (He : expired now o n = false).
  { unfold expired. rewrite Hs. apply Z.leb_gt. unfold OFFLINE_NODE_RETENTION in *. cbn in Ht. lia. }
  destruct (prune_other now n o He) as [Ep Eo].
  assert (Hkp : keyed_owner (prune_expired_offline_nodes now o)) by (by apply forall_filter).
  destruct (handle_other n n' now c _ Hkp Ec Hn Hne) as [Eh Eho].
  destruct (IH (handle_remote_runtime_owner_command order now c (prune_expired_offline_nodes now o)).2) as [E1 E2].
  - apply keyed_handle; [done|]. intros m Em. congruence.
  - congruence.
  - split; [etransitivity; [exact E1|congruence]|exact E2].
Qed.

Lemma marked_offline t0 n o : has_records n o = true -> owner_offline o !! n = None ->
  owner_offline (mark_offline t0 n o) !! n = Some t0 /\
  of_owner_node n (mark_offline t0 n o) = go_offline <$> of_owner_node n o.
Proof.
  intros Hr Ho. unfold mark_offline, of_owner_node.
  assert (E : forall o', records o' = (fun r => if bool_decide (or_node_id r = n) then go_offline r else r) <$> records o ->
    has_records n o' = true).
  { intros o' Eo. unfold has_records in *. apply bool_decide_eq_true in Hr as (k & r & E & En).
    apply bool_decide_eq_true. exists k, (go_offline r). rewrite Eo, lookup_fmap, E. cbn. by rewrite bool_decide_true. }
  rewrite E by done. cbn. split.
  - unfold mark_since. rewrite Ho. by rewrite lookup_insert_eq.
  - apply map_eq. intros k. rewrite lookup_fmap. rewrite !map_lookup_filter, lookup_fmap.
    destruct (records o !! k) as [r|]; [|done]. cbn. case_bool_decide as En; cbn; by repeat case_guard.
Qed.

(** C36. The sessions of a node that goes off line are kept for two minutes and
    then dropped. When a node with sessions is marked, its records stay, off
    line and otherwise as they were, whatever is done for other nodes in
    the next two minutes, and a snapshot still has them until the time is over;
    once it is over, the next snapshot has none of them. *)
Theorem offline_node_is_kept_two_minutes t0 n calls now o :
  keyed_owner o -> has_records n o = true -> owner_offline o !! n = None ->
  Forall (others n (t0 + OFFLINE_NODE_RETENTION)) calls ->
  let o' := direct order calls (mark_offline t0 n o) in
  of_owner_node n o' = go_offline <$> of_owner_node n o /\
  of_owner_node n (prune_expired_offline_nodes now o') =
    (if now <? t0 + OFFLINE_NODE_RETENTION then go_offline <$> of_owner_node n o else ∅).
Proof.
  intros Hk Hr Ho Hc o'. destruct (marked_offline t0 n o Hr Ho) as [Hs Hm].
  assert (Hn : tabless n).
  { apply bool_decide_eq_true in Hr as (k & r & E & <-). by apply Hk in E as [? _]. }
  assert (Hk' : keyed_owner (mark_offline t0 n o)).
  { apply (keyed_handle t0 (MarkNodeOffline n) o Hk). by intros m [= <-]. }
  destruct (others_keep n t0 calls _ Hk' Hs Hc) as [E1 E2]. fold o' in E1, E2. rewrite Hm in E1. split; [done|].
  assert (Ex : expired now o' n = negb (now <? t0 + OFFLINE_NODE_RETENTION)).
  { unfold expired. rewrite E2. unfold OFFLINE_NODE_RETENTION. lia. }
  destruct (now <? t0 + OFFLINE_NODE_RETENTION); cbn [negb] in Ex.
  - destruct (prune_other now n o' Ex) as [-> _]. done.
  - apply map_empty. intros k. unfold of_owner_node. apply eq_None_not_Some. intros [r [Er En]%map_lookup_filter_Some].
    cbn in *. apply map_lookup_filter_Some in Er as [_ Er]. cbn in Er. congruence.
Qed.

End retention.

(** ** Witnesses *)

Definition lab_session (avail : SessionAvailability) : ManagedSessionRecord :=
  mkManagedSessionRecord (remote_peer "lab#7474" "1") None avail None None (Some TargetHost) [] 0 1
    (Some "sh"%string) None None None Input.

Lemma text_of s t : s = of_text t -> forallb (fun c => (0 <=? c) && (c <? 0xD800)) t = true -> is_text s.
Proof.
  intros -> E. exists t. split; [|done]. induction t as [|c t IH]; [constructor|]. apply andb_true_iff in E as [E Et].
  constructor; [|by apply IH]. unfold scalar. lia.
Qed.

Lemma lab_row_ok : row_ok "lab#7474" (lab_session Online).
Proof.
  pose proof (text_of "lab#7474" (lit "lab#7474") eq_refl eq_refl) as Hn.
  pose proof (text_of "1" (lit "1") eq_refl eq_refl) as H1.
  pose proof (text_of "sh" (lit "sh") eq_refl eq_refl) as Hc.
  constructor; [constructor|..]; cbn; try exact I; try assumption;
    lazymatch goal with
    | |- fits _ _ => unfold fits; lia
    | |- _ = _ => reflexivity
    | |- one_line _ => vm_compute; by repeat constructor
    | |- _ => by split
    end.
Qed.

Lemma owner_calls_are_transparent_witness :
  owner_calls (fun _ l => l) [(5, UpsertSession "lab#7474" (lab_session Online))] new_owner =
    ([Ok tt], direct (fun _ l => l) [(5, UpsertSession "lab#7474" (lab_session Online))] new_owner) /\
  exists sessions,
    try_snapshot (fun _ l => l) 9 (direct (fun _ l => l) [(5, UpsertSession "lab#7474" (lab_session Online))] new_owner) =
      (sessions, prune_expired_offline_nodes 9 (direct (fun _ l => l) [(5, UpsertSession "lab#7474" (lab_session Online))] new_owner)) /\
    sessions ≡ₚ map or_session (map_to_list (records (prune_expired_offline_nodes 9
      (direct (fun _ l => l) [(5, UpsertSession "lab#7474" (lab_session Online))] new_owner)))).*2.
Proof.
  apply (owner_calls_are_transparent (fun _ l => l) (fun _ _ => Permutation_refl _)
           [(5, UpsertSession "lab#7474" (lab_session Online))] 9).
  repeat constructor; apply lab_row_ok.
Defined.

Lemma offline_node_is_kept_two_minutes_witness :
  let o := upsert "lab#7474" (lab_session Online) new_owner in
  of_owner_node "lab#7474" (direct (fun _ l => l) [(1000, MarkNodeOffline "other#1")] (mark_offline 500 "lab#7474" o)) =
    go_offline <$> of_owner_node "lab#7474" o /\
  of_owner_node "lab#7474" (prune_expired_offline_nodes 120500
    (direct (fun _ l => l) [(1000, MarkNodeOffline "other#1")] (mark_offline 500 "lab#7474" o))) = ∅.
Proof.
  intros o. apply (offline_node_is_kept_two_minutes (fun _ l => l) 500 "lab#7474" [(1000, MarkNodeOffline "other#1")] 120500 o).
  - apply (keyed_handle (fun _ l => l) 0 (UpsertSession "lab#7474" (lab_session Online)) new_owner).
    + apply map_Forall_empty.
    + intros m [= <-]. repeat split; by intros [=].
  - by vm_compute.
  - by vm_compute.
  - repeat constructor. exists "other#1"%string. repeat split; by intros [=].
Defined.

(** ** Where the owner does not do what it means to *)

Definition in_order : forall A, list A -> list A := fun _ l => l.

Definition lab_peer (id : string) (avail : SessionAvailability) (command : option string) : ManagedSessionRecord :=
  mkManagedSessionRecord (remote_peer "lab#7474" id) None avail None None (Some TargetHost) [] 0 1 command None None None Input.

(** A session without an id is removed: the line ends with an empty field and
    is trimmed, the command is not understood, and the client removes the
    socket of the owner. No later call reaches it. *)
Lemma nameless_removal_unbinds_the_owner :
  owner_call in_order 0 (RemoveSession "lab#7474" "lab#7474" EmptyString) new_owner = (Err NotRunning, unbind new_owner) /\
  forall now c, owner_call in_order now c (unbind new_owner) = (Err NotRunning, unbind new_owner).
Proof. split; [by vm_compute|done]. Qed.

(** A line feed in a field breaks the snapshot: from then on the owner counts
    as not running, and who asks for the sessions gets none and removes the
    socket. *)
Lemma line_feed_hides_every_session :
  let o := upsert "lab#7474" (lab_peer "1" Online (Some (String (Ascii.ascii_of_nat 10) "x"))) new_owner in
  (owner_call in_order 1 (MarkNodeOffline "other#1") o).1 = Err NotRunning /\
  try_snapshot in_order 1 o = ([], unbind o).
Proof. split; by vm_compute. Qed.

(** One session is marked off line by its source; two minutes later every
    session of its node is dropped, the others with it. *)
Lemma one_offline_session_drops_the_node :
  let o := upsert "lab#7474" (lab_peer "2" Online None) (upsert "lab#7474" (lab_peer "1" Online None) new_owner) in
  let o := direct in_order [(0, MarkSessionOfflineBySource "lab#7474" "lab#7474" "1" "sock" None)] o in
  availability ∘ or_session <$> records o !! peer_key "lab#7474" "lab#7474" "2" = Some Online /\
  (try_snapshot in_order 120000 o).1 = [].
Proof. split; by vm_compute. Qed.

(** A node comes back with one of its two sessions: the other stays, off line,
    and is never dropped. *)
Lemma returning_node_keeps_dead_sessions now :
  let o := upsert "lab#7474" (lab_peer "2" Online None) (upsert "lab#7474" (lab_peer "1" Online None) new_owner) in
  let o := direct in_order [(0, MarkNodeOffline "lab#7474"); (1, UpsertSession "lab#7474" (lab_peer "1" Online None))] o in
  availability ∘ or_session <$> records (prune_expired_offline_nodes now o) !! peer_key "lab#7474" "lab#7474" "2" = Some Offline.
Proof.
  intros o o'. assert (E : owner_offline o' = ∅) by (apply map_to_list_empty_iff; by vm_compute).
  assert (Er : availability ∘ or_session <$> records o' !! peer_key "lab#7474" "lab#7474" "2" = Some Offline) by (by vm_compute).
  clearbody o'. unfold prune_expired_offline_nodes. cbn [records]. rewrite map_lookup_filter.
  destruct (records o' !! _) as [r|]; [|done]. cbn. unfold expired. rewrite E, lookup_empty.
  by rewrite option_guard_True.
Qed.

(** The tilde stands for an absent value, and is not escaped. *)
Lemma tilde_is_lost : unescape_optional_field (escape_optional_field (Some "~"%string)) = Ok None.
Proof. by vm_compute. Qed.

(** A deadline that has passed while a connection was served is not awaited
    any more. *)
Lemma passed_deadline_is_not_awaited :
  let o := mark_offline 0 "lab#7474" (upsert "lab#7474" (lab_peer "1" Online None) new_owner) in
  compute_next_ttl_deadline 0 o = Some 120000 /\ compute_next_ttl_deadline 120000 o = None.
Proof. split; by vm_compute. Qed.
