(* ===== verification/SessionSync.v ===== *)
(** * Session sync: a node publishes its sessions to a peer

    [src/remote/node/remote_node_session_sync_runtime/sync_helpers.rs]: the
    tracker of what was published to a peer, with revisions, acknowledgements
    and retries; the difference between two states of the catalog; the
    envelopes; and the loop that reads the local catalog and publishes what
    changed. What a read of the catalog gives, the time and which sends
    succeed are inputs. The manager of authority hosts, to which the loop
    passes commands, answers whether the catalog may have changed; its answer
    is an input too. The observer of exited targets does nothing in this
    program. *)

From stdpp Require Import pretty.
From S2P Require Import Prelude Bytes Text Utf8 Str SessionCatalog AgentDetector Protocol NodeTypes Grpc.

#[local] Open Scope Z_scope.

#[global] Instance ConsoleAttachment_eq_dec : EqDecision ConsoleAttachment.
Proof. solve_decision. Defined.
#[global] Instance ManagedSessionRecord_eq_dec : EqDecision ManagedSessionRecord.
Proof. solve_decision. Defined.

(** ** Envelopes *)

(** [remote_session_published_envelope]; [stamp] is the time it is made. *)
Definition remote_session_published_envelope (stamp : Timestamp) (node_id session_instance_id : string)
    (message_sequence : Z) (session : ManagedSessionRecord) : GrpcEnvelope :=
  let target_id := remote_peer_target node_id (session_id (address session)) in
  mkGrpcEnvelope (node_id +:+ "-session-sync-" +:+ pretty message_sequence)%string (Some stamp) session_instance_id None
    (Some (mkRoute (Some node_id) (Some target_id) None None None (Some (session_id (address session)))))
    (Some (GPublished (mkGPublished target_id node_id "tmux" (session_id (address session)) (selector session)
      (availability_as_str (availability session)) (command_name session) (current_path session)
      (Some (wrap 64 (attached_clients session))) (role_as_str <$> session_role session) (workspace_key session)
      (Some (wrap 64 (window_count session))) (Some (task_state_as_str (task_state session)))
      session_instance_id 0 (display_command_name session)))).

Definition remote_session_exited_envelope (stamp : Timestamp) (node_id session_instance_id : string)
    (message_sequence : Z) (transport_session_id : string) : GrpcEnvelope :=
  let target_id := remote_peer_target node_id transport_session_id in
  mkGrpcEnvelope (node_id +:+ "-session-sync-" +:+ pretty message_sequence)%string (Some stamp) session_instance_id None
    (Some (mkRoute (Some node_id) (Some target_id) None None None (Some transport_session_id)))
    (Some (GExited (mkGExited target_id transport_session_id session_instance_id 0))).

(** The instance and the revision, filled in afterwards. *)
Definition with_revision (session_instance_id : string) (revision : Z) (e : GrpcEnvelope) : GrpcEnvelope :=
  mkGrpcEnvelope (g_message_id e) (g_sent_at e) (g_session_instance_id e) (g_correlation_id e) (g_route e)
    (match g_body e with
     | Some (GPublished p) =>
         Some (GPublished (mkGPublished (gp_target_id p) (gp_authority_node_id p) (gp_transport p)
           (gp_transport_session_id p) (gp_selector p) (gp_availability p) (gp_command_name p) (gp_current_path p)
           (gp_attached_count p) (gp_session_role p) (gp_workspace_key p) (gp_window_count p) (gp_task_state p)
           session_instance_id revision (gp_display_command_name p)))
     | Some (GExited p) =>
         Some (GExited (mkGExited (ge_target_id p) (ge_transport_session_id p) session_instance_id revision))
     | b => b
     end).

(** ** The tracker *)

Record SourcePublicationState := mkSourceState { sps_session : ManagedSessionRecord; sps_exited : bool }.

#[global] Instance SourcePublicationState_eq_dec : EqDecision SourcePublicationState.
Proof. solve_decision. Defined.

Record PendingSourcePublication := mkPending {
  pn_target_id : string;
  pn_revision : Z;
  pn_envelope : GrpcEnvelope;
  pn_retry_attempt : Z;
  pn_next_retry_at : option Z }.

Record SourcePublicationRecord := mkSourceRecord {
  last_state : option SourcePublicationState;
  latest_revision : Z;
  pending : option PendingSourcePublication;
  acked_revision : Z }.

Definition empty_record : SourcePublicationRecord := mkSourceRecord None 0 None 0.

Record SourcePublicationTracker := mkTracker {
  tracked : gmap string SourcePublicationRecord;
  tracker_connected : bool }.

Definition new_tracker : SourcePublicationTracker := mkTracker ∅ false.

Definition set_pending (p : option PendingSourcePublication) (r : SourcePublicationRecord) : SourcePublicationRecord :=
  mkSourceRecord (last_state r) (latest_revision r) p (acked_revision r).

Definition set_retry (attempt : Z) (at_ : option Z) (p : PendingSourcePublication) : PendingSourcePublication :=
  mkPending (pn_target_id p) (pn_revision p) (pn_envelope p) attempt at_.

Definition on_connected (t : SourcePublicationTracker) : SourcePublicationTracker :=
  mkTracker ((fun r => set_pending ((fun p => set_retry (pn_retry_attempt p) None p) <$> pending r) r) <$> tracked t) true.

Definition on_disconnected (t : SourcePublicationTracker) : SourcePublicationTracker := mkTracker (tracked t) false.

Inductive SessionSyncMode := Delta | FullBaseline.

#[global] Instance SessionSyncMode_eq_dec : EqDecision SessionSyncMode.
Proof. solve_decision. Defined.

Section sync.
Context (stamp : Z -> Timestamp).

(** A change is given the next revision and replaces what was pending;
    [next] is the message number already counted up. *)
Definition track (target_id session_instance_id : string) (state : SourcePublicationState) (envelope : GrpcEnvelope)
    (t : SourcePublicationTracker) : PendingSourcePublication * SourcePublicationTracker :=
  let r := default empty_record (tracked t !! target_id) in
  let revision := wrap 64 (latest_revision r + 1) in
  let p := mkPending target_id revision (with_revision session_instance_id revision envelope) 0 None in
  (p, mkTracker (<[target_id := mkSourceRecord (Some state) revision (Some p) (acked_revision r)]> (tracked t)) (tracker_connected t)).

(** [next_message_id_increment]: [u64::saturating_add]. *)
Definition next_message_id_increment (next : Z) : Z := Z.min (next + 1) (2 ^ 64 - 1).

Definition on_state_changed_with_mode (node_id inst : string) (next : Z) (s : ManagedSessionRecord) (mode : SessionSyncMode)
    (t : SourcePublicationTracker) : option PendingSourcePublication * Z * SourcePublicationTracker :=
  let target_id := remote_peer_target node_id (session_id (address s)) in
  let state := mkSourceState s false in
  if bool_decide (mode = Delta) && bool_decide (tracked t !! target_id ≫= last_state = Some state)
  then (None, next, t)
  else
    let next := next_message_id_increment next in
    let '(p, t) := track target_id inst state (remote_session_published_envelope (stamp next) node_id inst next s) t in
    (Some p, next, t).

Definition exited_source_publication_state (node_id transport_session_id : string) : ManagedSessionRecord :=
  mkManagedSessionRecord (remote_peer node_id transport_session_id) None Exited None None None [] 0 0 None None None None
    TaskUnknown.

Definition on_target_exited (node_id inst : string) (next : Z) (transport_session_id : string) (t : SourcePublicationTracker) :
    PendingSourcePublication * Z * SourcePublicationTracker :=
  let next := next_message_id_increment next in
  let '(p, t) :=
    track (remote_peer_target node_id transport_session_id) inst
      (mkSourceState (exited_source_publication_state node_id transport_session_id) true)
      (remote_session_exited_envelope (stamp next) node_id inst next transport_session_id) t in
  (p, next, t).

Inductive SourcePublicationAckOutcome := AckCleared | AckRetained | AckIgnored.

Definition on_ack (ack : TargetPublicationAckPayload) (t : SourcePublicationTracker) :
    SourcePublicationAckOutcome * SourcePublicationTracker :=
  match tracked t !! ack_target_id ack with
  | None => (AckIgnored, t)
  | Some r =>
      match pending r with
      | None => (AckIgnored, t)
      | Some p =>
          if negb (pn_revision p =? ack_revision ack) then (AckIgnored, t)
          else
            match ack_status ack with
            | Applied | StaleRevision =>
                (AckCleared, mkTracker (<[ack_target_id ack :=
                   mkSourceRecord (last_state r) (latest_revision r) None (ack_revision ack)]> (tracked t)) (tracker_connected t))
            | Failed => (AckRetained, t)
            end
      end
  end.

Definition SOURCE_PUBLICATION_RETRY_INITIAL_DELAY : Z := 250.
Definition SOURCE_PUBLICATION_RETRY_MAX_DELAY : Z := 10000.

(** [1_u32.checked_shl(attempt - 1)], milliseconds. *)
Definition source_publication_retry_delay (attempt : Z) : Z :=
  let shift := Z.max 0 (attempt - 1) in
  let factor := if shift <? 32 then 2 ^ shift else 2 ^ 32 - 1 in
  Z.min (SOURCE_PUBLICATION_RETRY_INITIAL_DELAY * factor) SOURCE_PUBLICATION_RETRY_MAX_DELAY.

Definition current_pending (target_id : string) (revision : Z) (t : SourcePublicationTracker) : option PendingSourcePublication :=
  r ← tracked t !! target_id;
  p ← pending r;
  if pn_revision p =? revision then Some p else None.

Definition is_current_pending (target_id : string) (revision : Z) (t : SourcePublicationTracker) : bool :=
  bool_decide (is_Some (current_pending target_id revision t)).

(** [saturating_add] on a [u32] attempt. *)
Definition sent_once (now : Z) (p : PendingSourcePublication) : PendingSourcePublication :=
  let attempt := Z.min (pn_retry_attempt p + 1) (2 ^ 32 - 1) in
  set_retry attempt (Some (now + source_publication_retry_delay attempt)) p.

Definition on_publication_sent (target_id : string) (revision now : Z) (t : SourcePublicationTracker) : SourcePublicationTracker :=
  match current_pending target_id revision t with
  | Some p => mkTracker (alter (set_pending (Some (sent_once now p))) target_id (tracked t)) (tracker_connected t)
  | None => t
  end.

(** ** Sending

    A session to the peer: which of its sends succeed, and what was sent. *)
Record Link := mkLink { link_instance : string; link_ok : nat -> bool; link_sent : list GrpcEnvelope }.

Definition link_send (e : GrpcEnvelope) (l : Link) : option Link :=
  if link_ok l (length (link_sent l)) then Some (mkLink (link_instance l) (link_ok l) (link_sent l ++ [e])) else None.

(** What the publishing functions change. *)
Record Channel := mkChannel { ch_link : Link; ch_tracker : SourcePublicationTracker; ch_next : Z }.

Definition set_ch_tracker (t : SourcePublicationTracker) (c : Channel) : Channel := mkChannel (ch_link c) t (ch_next c).

(** [false] when the send failed. *)
Definition send_source_publication (now : Z) (p : PendingSourcePublication) (c : Channel) : bool * Channel :=
  if is_current_pending (pn_target_id p) (pn_revision p) (ch_tracker c)
  then
    match link_send (pn_envelope p) (ch_link c) with
    | Some l => (true, mkChannel l (on_publication_sent (pn_target_id p) (pn_revision p) now (ch_tracker c)) (ch_next c))
    | None => (false, c)
    end
  else (true, c).

(** A loop that ends with the first failure. *)
Fixpoint each {A} (f : A -> Channel -> bool * Channel) (l : list A) (c : Channel) : bool * Channel :=
  match l with
  | [] => (true, c)
  | x :: l => let '(ok, c) := f x c in if ok then each f l c else (false, c)
  end.

Definition publish_session (node_id : string) (now : Z) (mode : SessionSyncMode) (s : ManagedSessionRecord) (c : Channel) :
    bool * Channel :=
  match on_state_changed_with_mode node_id (link_instance (ch_link c)) (ch_next c) s mode (ch_tracker c) with
  | (None, next, t) => (true, mkChannel (ch_link c) t next)
  | (Some p, next, t) => send_source_publication now p (mkChannel (ch_link c) t next)
  end.

Definition publish_exit (node_id : string) (now : Z) (s : ManagedSessionRecord) (c : Channel) : bool * Channel :=
  let '(p, next, t) :=
    on_target_exited node_id (link_instance (ch_link c)) (ch_next c) (session_id (address s)) (ch_tracker c) in
  send_source_publication now p (mkChannel (ch_link c) t next).

Definition send_pending_source_publications (now : Z) : list PendingSourcePublication -> Channel -> bool * Channel :=
  each (send_source_publication now).

(** ** What changed *)

Definition is_interactive_shell_state (s : ManagedSessionRecord) : bool :=
  match SessionCatalog.command_name s with Some name => contains_text SHELL_NAMES (utf8 name) | None => false end
  && bool_decide (task_state s = Input \/ task_state s = Running).

Definition with_task_state (t : ManagedSessionTaskState) (s : ManagedSessionRecord) : ManagedSessionRecord :=
  mkManagedSessionRecord (address s) (selector s) (availability s) (workspace_dir s) (workspace_key s) (session_role s)
    (opened_by s) (attached_clients s) (window_count s) (SessionCatalog.command_name s) (display_command_name s)
    (agent_command_name s) (current_path s) t.

Definition session_records_equivalent_for_sync (previous current : ManagedSessionRecord) : bool :=
  if is_interactive_shell_state previous && is_interactive_shell_state current && bool_decide (task_state previous = task_state current)
  then bool_decide (with_task_state Input previous = with_task_state Input current)
  else bool_decide (previous = current).

(** [order] is the order in which a hash table is visited. *)
Context (order : forall A, list A -> list A).

Definition compute_session_sync_delta (previous current : gmap string ManagedSessionRecord) (mode : SessionSyncMode) :
    list ManagedSessionRecord * list ManagedSessionRecord :=
  (omap (fun ks =>
     if bool_decide (mode = Delta) && match previous !! ks.1 with Some p => session_records_equivalent_for_sync p ks.2 | None => false end
     then None else Some ks.2) (order _ (map_to_list current)),
   omap (fun ks => if bool_decide (is_Some (current !! ks.1)) then None else Some ks.2) (order _ (map_to_list previous))).

(** [due_retry_publications]. *)
Definition due_retry_publications (now : Z) (t : SourcePublicationTracker) : list PendingSourcePublication :=
  if tracker_connected t then
    omap (fun r =>
      p ← pending r;
      match pn_next_retry_at p with
      | Some retry_at => if retry_at <=? now then Some p else None
      | None => None
      end) (order _ (map_to_list (tracked t)).*2)
  else [].

(** [next_retry_delay]. *)
Definition next_retry_delay (now : Z) (t : SourcePublicationTracker) : option Z :=
  if tracker_connected t then
    foldr (fun d acc => Some (match acc with Some a => Z.min d a | None => d end)) None
      (omap (fun r => p ← pending r; at_ ← pn_next_retry_at p; Some (Z.max 0 (at_ - now))) (order _ (map_to_list (tracked t)).*2))
  else None.

(** ** The loop *)

Record Sync := mkSync {
  sy_next : Z;
  sy_tracker : SourcePublicationTracker;
  sy_observed : gmap string ManagedSessionRecord;
  sy_initialized : bool;
  sy_published : gmap string ManagedSessionRecord;
  sy_dirty : bool;
  sy_active : option Link }.

Definition new_sync : Sync := mkSync 0 new_tracker ∅ false ∅ false None.

Definition set_sy_tracker (t : SourcePublicationTracker) (s : Sync) : Sync :=
  mkSync (sy_next s) t (sy_observed s) (sy_initialized s) (sy_published s) (sy_dirty s) (sy_active s).

Definition set_sy_dirty (d : bool) (s : Sync) : Sync :=
  mkSync (sy_next s) (sy_tracker s) (sy_observed s) (sy_initialized s) (sy_published s) d (sy_active s).

Definition set_sy_active (l : option Link) (s : Sync) : Sync :=
  mkSync (sy_next s) (sy_tracker s) (sy_observed s) (sy_initialized s) (sy_published s) (sy_dirty s) l.

Definition set_channel (c : Channel) (s : Sync) : Sync :=
  mkSync (ch_next c) (ch_tracker c) (sy_observed s) (sy_initialized s) (sy_published s) (sy_dirty s) (Some (ch_link c)).

(** [local_sessions_by_local_id]: of two sessions with one id the later. *)
Definition local_sessions_by_local_id (sessions : list ManagedSessionRecord) : gmap string ManagedSessionRecord :=
  foldl (fun m s => <[address_id (address s) := s]> m) ∅ sessions.

Definition observe_current_local_sessions (read : option (list ManagedSessionRecord)) :
    option (gmap string ManagedSessionRecord) :=
  (fun l => local_sessions_by_local_id (List.filter (fun s => bool_decide (address_transport (address s) = Local)) l)) <$> read.

Definition observe_local_session_catalog (read : option (list ManagedSessionRecord)) (s : Sync) : bool * Sync :=
  match observe_current_local_sessions read with
  | None => (false, s)
  | Some current =>
      (negb (sy_initialized s) || bool_decide (sy_observed s <> current),
       mkSync (sy_next s) (sy_tracker s) current true (sy_published s) (sy_dirty s) (sy_active s))
  end.

(** A change that was seen is left to be published. *)
Definition observe (read : option (list ManagedSessionRecord)) (s : Sync) : Sync :=
  let '(changed, s) := observe_local_session_catalog read s in if changed then set_sy_dirty true s else s.

Definition publish_current_local_sessions (node_id : string) (now : Z) (mode : SessionSyncMode) (l : Link) (s : Sync) : bool * Sync :=
  let '(publish, exit) := compute_session_sync_delta (sy_published s) (sy_observed s) mode in
  let '(ok, c) := each (publish_session node_id now mode) publish (mkChannel l (sy_tracker s) (sy_next s)) in
  if negb ok then (false, set_channel c s)
  else
    let '(ok, c) := each (publish_exit node_id now) exit c in
    if negb ok then (false, set_channel c s)
    else
      (true, mkSync (ch_next c) (ch_tracker c) (sy_observed s) (sy_initialized s) (sy_observed s) (sy_dirty s) (Some (ch_link c))).

(** [true] asks for a new connection. *)
Definition publish_observed_session_catalog (node_id : string) (now : Z) (mode : SessionSyncMode) (s : Sync) : bool * Sync :=
  match sy_active s with
  | None => (false, s)
  | Some l =>
      match publish_current_local_sessions node_id now mode l s with
      | (true, s) => (false, s)
      | (false, s) => (true, set_sy_tracker (on_disconnected (sy_tracker s)) s)
      end
  end.

(** What is published is not left to be published. *)
Definition publish (node_id : string) (now : Z) (mode : SessionSyncMode) (s : Sync) : bool * Sync :=
  let '(reconnect, s) := publish_observed_session_catalog node_id now mode s in
  (reconnect, if reconnect then s else set_sy_dirty false s).

(** The events of the inner loop. A read of the catalog comes with the events
    that ask for it, and the manager's answer with an envelope. *)
Inductive sync_event :=
| SyncOpened (l : Link) (read : option (list ManagedSessionRecord))
| SyncEnvelope (e : GrpcEnvelope) (changed : bool) (read : option (list ManagedSessionRecord))
| SyncClosed
| SyncRetryDue
| SyncHostOutput (e : ProtocolEnvelope) (millis : Z)
| SyncCatalogChanged (reason : LocalCatalogChangeReason) (read : option (list ManagedSessionRecord)).

Inductive LocalCatalogChangeAck := Published | Queued | Unchanged.

Context (debug : Body -> string).

(** [send_authority_host_output_to_session]. *)
Definition send_authority_host_output (node_id : string) (millis : Z) (e : ProtocolEnvelope) (l : Link) : option Link :=
  match map_outbound_grpc_envelope (stamp millis) millis node_id Authority e with
  | Ok g => link_send g l
  | Err _ => None
  end.

Definition handle_envelope (node_id : string) (now : Z) (e : GrpcEnvelope) (changed : bool)
    (read : option (list ManagedSessionRecord)) (s : Sync) : bool * Sync :=
  match sy_active s with
  | None => (false, s)
  | Some _ =>
      match map_inbound_grpc_authority_event debug e with
      | Some (EvTargetPublicationAck ack) => (false, set_sy_tracker (on_ack ack (sy_tracker s)).2 s)
      | Some _ =>
          if changed then
            let '(seen, s) := observe_local_session_catalog read s in
            if seen then publish node_id now Delta (set_sy_dirty true s) else (false, s)
          else (false, s)
      | None => (false, s)
      end
  end.

Definition handle_catalog_change (node_id : string) (now : Z) (read : option (list ManagedSessionRecord)) (s : Sync) :
    LocalCatalogChangeAck * (bool * Sync) :=
  let '(changed, s) := observe_local_session_catalog read s in
  let s := if changed then set_sy_dirty true s else s in
  let ack := if changed then Queued else Unchanged in
  if bool_decide (is_Some (sy_active s)) && sy_dirty s then
    let '(reconnect, s) := publish node_id now Delta s in (if reconnect then ack else Published, (reconnect, s))
  else (ack, (false, s)).

(** One turn of the inner loop of [run_remote_session_sync_loop]; [true] ends
    it. *)
Definition sync_step (node_id : string) (now : Z) (ev : sync_event) (s : Sync) : bool * Sync :=
  match ev with
  | SyncOpened l read =>
      let s := set_sy_active (Some l) s in
      publish node_id now FullBaseline (observe read (set_sy_tracker (on_connected (sy_tracker s)) s))
  | SyncEnvelope e changed read => handle_envelope node_id now e changed read s
  | SyncClosed => (true, set_sy_tracker (on_disconnected (sy_tracker s)) (set_sy_active None s))
  | SyncRetryDue =>
      match sy_active s with
      | None => (false, s)
      | Some l =>
          let '(ok, c) := send_pending_source_publications now (due_retry_publications now (sy_tracker s))
                            (mkChannel l (sy_tracker s) (sy_next s)) in
          let s := set_channel c s in
          if ok then (false, s) else (true, set_sy_tracker (on_disconnected (sy_tracker s)) s)
      end
  | SyncHostOutput e millis =>
      match sy_active s with
      | None => (false, s)
      | Some l =>
          match send_authority_host_output node_id millis e l with
          | Some l => (false, set_sy_active (Some l) s)
          | None => (true, set_sy_tracker (on_disconnected (sy_tracker s)) s)
          end
      end
  | SyncCatalogChanged _ read => (handle_catalog_change node_id now read s).2
  end.

(** Between connections: the wait before the next one, which a change of the
    catalog cuts short, and a connection that could not be made. *)
Inductive wait_event := Elapsed | WaitCatalogChanged (read : option (list ManagedSessionRecord)).

Definition sync_wait (w : wait_event) (s : Sync) : Sync :=
  match w with Elapsed => s | WaitCatalogChanged read => observe read s end.

Definition sync_disconnected (w : wait_event) (s : Sync) : Sync := sync_wait w (set_sy_active None s).

Definition sync_connect_failed (w : wait_event) (s : Sync) : Sync :=
  sync_wait w (set_sy_tracker (on_disconnected (sy_tracker s)) (set_sy_active None s)).

(** The turns of one connection, until one asks for another. *)
Fixpoint sync_run (node_id : string) (evs : list (Z * sync_event)) (s : Sync) : bool * Sync :=
  match evs with
  | [] => (false, s)
  | (now, ev) :: evs =>
      let '(reconnect, s) := sync_step node_id now ev s in
      if reconnect then (true, s) else sync_run node_id evs s
  end.

End sync.

(** ** Comparing records *)

(** Two records are equivalent exactly when they are equal: the task states
    are replaced only when they are the same. *)
Lemma equivalence_is_equality p s : session_records_equivalent_for_sync p s = bool_decide (p = s).
Proof.
  unfold session_records_equivalent_for_sync. destruct (_ && _) eqn:E; [|done].
  apply andb_true_iff in E as [_ E%bool_decide_eq_true]. apply bool_decide_ext.
  destruct p, s; unfold with_task_state; cbn in *. subst. split; intros [=]; by subst.
Qed.

(** A retry waits between a quarter of a second and ten. *)
Lemma retry_delay_bounds attempt : 0 <= attempt ->
  SOURCE_PUBLICATION_RETRY_INITIAL_DELAY <= source_publication_retry_delay attempt <= SOURCE_PUBLICATION_RETRY_MAX_DELAY.
Proof.
  intros Ha. unfold source_publication_retry_delay, SOURCE_PUBLICATION_RETRY_INITIAL_DELAY, SOURCE_PUBLICATION_RETRY_MAX_DELAY.
  case_match; [|lia]. pose proof (Z.pow_pos_nonneg 2 (Z.max 0 (attempt - 1))). lia.
Qed.

(** ** What a connection has said

    The messages of one connection say of sessions, by their ids, that they
    are there or that they have ended; what was said last of each session is
    kept in [cur]. *)

Section said.
Context (stamp : Z -> Timestamp) (order : forall A, list A -> list A) (debug : Body -> string).
Context (Horder : forall A (l : list A), order A l ≡ₚ l).
Context (n inst auth : string) (B : Z) (base : string -> Z) (Hbase : forall sid, 0 <= base sid) (P0 : gmap string ManagedSessionRecord) (fit : ManagedSessionRecord -> Prop).

Abbreviation about := (remote_peer_target n).
Abbreviation sid_of s := (session_id (address s)).
Abbreviation Knowledge := (gmap string (option ManagedSessionRecord)).

Definition local_key (sid : string) : string := address_id (local auth sid).

(** A message says of a session that it is there, or that it has ended; the
    sessions of the node all satisfy [fit]. *)
Inductive carries : GrpcEnvelope -> string -> Z -> option ManagedSessionRecord -> Prop :=
| carries_published mid rev s : fit s ->
    carries (with_revision inst rev (remote_session_published_envelope (stamp mid) n inst mid s)) (sid_of s) rev (Some s)
| carries_exited mid rev s : fit s ->
    carries (with_revision inst rev (remote_session_exited_envelope (stamp mid) n inst mid (sid_of s))) (sid_of s) rev None.

Definition state_of (sid : string) (w : option ManagedSessionRecord) : SourcePublicationState :=
  match w with
  | Some s => mkSourceState s false
  | None => mkSourceState (exited_source_publication_state n sid) true
  end.

Definition tracked_at (sid : string) (t : SourcePublicationTracker) : SourcePublicationRecord :=
  default empty_record (tracked t !! about sid).

Abbreviation latest sid c := (latest_revision (tracked_at sid (ch_tracker c))).
Abbreviation sent c := (link_sent (ch_link c)).

Definition link_up (l : Link) : Prop := link_instance l = inst /\ forall k, link_ok l k = true.

(** A pending publication that will be retried repeats what was said last. *)
Definition repeats (cur : Knowledge) (sid : string) (rev : Z) (p : PendingSourcePublication) : Prop :=
  pn_target_id p = about sid /\ pn_revision p = rev /\ exists w, cur !! sid = Some w /\ carries (pn_envelope p) sid rev w.

Record told (cur : Knowledge) (c : Channel) : Prop := {
  told_keys : map_Forall (fun k _ => exists sid, k = about sid) (tracked (ch_tracker c));
  told_sent e : e ∈ sent c -> exists sid rev w, carries e sid rev w /\ base sid < rev <= latest sid c /\
    is_Some (cur !! sid) /\ (rev = latest sid c -> cur !! sid = Some w);
  told_last sid w : cur !! sid = Some w -> base sid < latest sid c /\ exists e, e ∈ sent c /\ carries e sid (latest sid c) w;
  told_state sid w : cur !! sid = Some w -> last_state (tracked_at sid (ch_tracker c)) = Some (state_of sid w);
  told_new sid st : cur !! sid = None -> last_state (tracked_at sid (ch_tracker c)) = Some st -> sps_exited st = false ->
    is_Some (P0 !! local_key sid);
  told_bound sid : base sid <= latest sid c <= B + Z.of_nat (length (sent c));
  told_retry sid p : pending (tracked_at sid (ch_tracker c)) = Some p -> is_Some (cur !! sid) \/ pn_next_retry_at p <> None ->
    repeats cur sid (latest sid c) p }.

Lemma about_inj s s' : about s = about s' -> s = s'.
Proof. unfold remote_peer_target. intros E. by do 3 apply (inj (String.append _)) in E. Qed.

Lemma local_key_inj s s' : local_key s = local_key s' -> s = s'.
Proof. unfold local_key, local, for_transport. cbn [address_id]. intros E. by do 4 apply (inj (String.append _)) in E. Qed.

(** ** One message *)

(** A change that is tracked and sent. *)
Definition say (now : Z) (sid : string) (w : option ManagedSessionRecord) (env : GrpcEnvelope) (next : Z) (c : Channel) : bool * Channel :=
  let '(p, t) := track (about sid) inst (state_of sid w) env (ch_tracker c) in
  send_source_publication now p (mkChannel (ch_link c) t next).

(** The record a change leaves, and the message. *)
Definition said_record (now : Z) (sid : string) (w : option ManagedSessionRecord) (env : GrpcEnvelope) (c : Channel) :
    SourcePublicationRecord :=
  let rev := wrap 64 (latest sid c + 1) in
  mkSourceRecord (Some (state_of sid w)) rev
    (Some (sent_once now (mkPending (about sid) rev (with_revision inst rev env) 0 None)))
    (acked_revision (tracked_at sid (ch_tracker c))).

Lemma say_sends now sid w env next c : link_up (ch_link c) ->
  say now sid w env next c =
  (true, mkChannel (mkLink (link_instance (ch_link c)) (link_ok (ch_link c))
           (sent c ++ [with_revision inst (wrap 64 (latest sid c + 1)) env]))
         (mkTracker (<[about sid := said_record now sid w env c]> (tracked (ch_tracker c))) (tracker_connected (ch_tracker c))) next).
Proof.
  intros [Hi Hk]. unfold say, track, send_source_publication, is_current_pending. cbn [pn_target_id pn_revision pn_envelope].
  assert (E : forall t rev p r, tracked t !! about sid = Some r -> pending r = Some p -> pn_revision p = rev ->
    current_pending (about sid) rev t = Some p).
  { intros t rev p r E1 E2 <-. unfold current_pending. rewrite E1. cbn. rewrite E2. cbn. by rewrite Z.eqb_refl. }
  erewrite E by (cbn; (rewrite lookup_insert_eq || idtac); reflexivity).
  rewrite bool_decide_true by eauto. cbn [ch_link ch_tracker ch_next]. unfold link_send. rewrite Hk.
  unfold on_publication_sent. erewrite E by (cbn; (rewrite lookup_insert_eq || idtac); reflexivity).
  cbn. rewrite alter_insert_eq. done.
Qed.

Definition after_say (now : Z) (sid : string) (w : option ManagedSessionRecord) (env : GrpcEnvelope) (next : Z) (c : Channel) : Channel :=
  (say now sid w env next c).2.

Lemma after_say_at now sid w env next c sid' : link_up (ch_link c) ->
  tracked_at sid' (ch_tracker (after_say now sid w env next c)) =
  if decide (sid' = sid) then said_record now sid w env c else tracked_at sid' (ch_tracker c).
Proof.
  intros Hl. unfold after_say. rewrite say_sends by done. unfold tracked_at. cbn. destruct (decide (sid' = sid)) as [->|Hne].
  - by rewrite lookup_insert_eq.
  - rewrite lookup_insert_ne; [done|]. by intros E%about_inj.
Qed.

Lemma say_told now sid w env next cur c : link_up (ch_link c) -> told cur c ->
  (forall rev, carries (with_revision inst rev env) sid rev w) -> B + Z.of_nat (length (sent c)) + 1 < 2 ^ 64 ->
  told (<[sid := w]> cur) (after_say now sid w env next c).
Proof.
  intros Hl Ht He Hb. pose proof (after_say_at now sid w env next c) as Hat.
  assert (Hs : sent (after_say now sid w env next c) = sent c ++ [with_revision inst (wrap 64 (latest sid c + 1)) env])
    by (unfold after_say; by rewrite say_sends).
  assert (Hk : tracked (ch_tracker (after_say now sid w env next c)) =
    <[about sid := said_record now sid w env c]> (tracked (ch_tracker c))) by (unfold after_say; by rewrite say_sends).
  revert Hat Hs Hk. generalize (after_say now sid w env next c) as c'. intros c' Hat Hs Hk.
  pose proof (told_bound _ _ Ht) as Hbd.
  assert (Hw : wrap 64 (latest sid c + 1) = latest sid c + 1).
  { specialize (Hbd sid). specialize (Hbase sid). unfold wrap. apply Z.mod_small. lia. }
  rewrite Hw in Hs. unfold said_record in Hat, Hk. rewrite Hw in Hat, Hk.
  constructor; try (intros sid'; rewrite (Hat sid') by done; destruct (decide (sid' = sid)) as [->|Hne];
                    rewrite ?lookup_insert_eq, ?lookup_insert_ne by done; cbn).
  - rewrite Hk. apply map_Forall_insert_2; [by eexists|apply Ht].
  - rewrite Hs. intros e [He'|Hx%list_elem_of_singleton]%elem_of_app; [|subst e].
    + destruct (told_sent _ _ Ht e He') as (sid' & rev & w' & Hc & Hr & Hcur & Hlast). exists sid', rev, w'.
      rewrite Hat by done. destruct (decide (sid' = sid)) as [->|Hne]; cbn.
      * rewrite lookup_insert_eq. split_and!; [done|lia|lia|done|lia].
      * rewrite lookup_insert_ne by done. done.
    + exists sid, (latest sid c + 1), w. rewrite Hat, decide_True by done. cbn. rewrite lookup_insert_eq.
      specialize (Hbd sid). split_and!; [apply He|lia|lia|done|done].
  - intros w' [= <-]. specialize (Hbd sid). split; [lia|].
    rewrite Hs. eexists. split; [apply elem_of_app; right; by apply list_elem_of_singleton|apply He].
  - intros w' Hc. destruct (told_last _ _ Ht sid' w' Hc) as (Hp & e & He' & Hce). split; [done|]. exists e. split; [|done].
    rewrite Hs. apply elem_of_app. by left.
  - by intros w' [= <-].
  - apply (told_state _ _ Ht).
  - intros st. done.
  - apply (told_new _ _ Ht).
  - rewrite Hs, length_app. cbn. specialize (Hbd sid). lia.
  - rewrite Hs, length_app. cbn. specialize (Hbd sid'). lia.
  - intros p [= <-] _. split_and!; [done|done|]. exists w. rewrite lookup_insert_eq. split; [done|apply He].
  - intros p Hp Hn. destruct (told_retry _ _ Ht sid' p Hp Hn) as (E1 & E2 & w' & E3 & E4). split_and!; [done|done|].
    exists w'. by rewrite lookup_insert_ne.
Qed.

(** ** Many messages

    A step succeeds while the link is up, and takes what was said from one
    state to another as long as revisions do not run out. *)
Definition tells (f : Channel -> bool * Channel) (cur cur' : Knowledge) : Prop :=
  forall c, link_up (ch_link c) -> exists c', f c = (true, c') /\ link_up (ch_link c') /\
    (length (sent c) <= length (sent c'))%nat /\
    (told cur c -> B + Z.of_nat (length (sent c')) < 2 ^ 64 -> told cur' c').

Lemma tells_each {A} (f : A -> Channel -> bool * Channel) (g : Knowledge -> A -> Knowledge) (Q : Knowledge -> Prop) l cur :
  (forall x cur, x ∈ l -> Q cur -> tells (f x) cur (g cur x) /\ Q (g cur x)) -> Q cur -> tells (each f l) cur (foldl g cur l).
Proof.
  intros Hf. revert cur. induction l as [|x l IH]; intros cur HQ c Hl; [by exists c|].
  destruct (Hf x cur ltac:(by left) HQ) as [Hx HQ']. specialize (IH ltac:(intros; apply Hf; [by right|done])). destruct (Hx c Hl) as (c1 & E1 & Hl1 & Hlen1 & Ht1).
  destruct (IH _ HQ' c1 Hl1) as (c2 & E2 & Hl2 & Hlen2 & Ht2). exists c2. cbn [each]. rewrite E1.
  split_and!; [done|done|lia|]. intros Ht Hb. apply Ht2; [apply Ht1; [done|lia]|done].
Qed.

Lemma tells_say now sid w (env : Channel -> GrpcEnvelope) (next : Channel -> Z) cur :
  (forall c rev, carries (with_revision inst rev (env c)) sid rev w) ->
  tells (fun c => say now sid w (env c) (next c) c) cur (<[sid := w]> cur).
Proof.
  intros He c Hl. exists (after_say now sid w (env c) (next c) c). unfold after_say. rewrite say_sends by done. cbn.
  split_and!; [done|done|rewrite length_app; lia|]. intros Ht Hb. rewrite length_app in Hb. cbn in Hb.
  assert (H := say_told now sid w (env c) (next c) cur c Hl Ht (He c)). unfold after_say in H.
  rewrite say_sends in H by done. apply H. lia.
Qed.

(** What was published in an earlier connection has been spoken of. *)
Definition spoken (cur : Knowledge) : Prop := forall sid, is_Some (P0 !! local_key sid) -> is_Some (cur !! sid).

Lemma spoken_insert sid w cur : spoken cur -> spoken (<[sid := w]> cur).
Proof. intros H sid' H'. apply lookup_insert_is_Some'. right. by apply H. Qed.

Lemma tells_session mode now s cur : fit s -> (mode = Delta -> spoken cur) ->
  tells (publish_session stamp n now mode s) cur (<[sid_of s := Some s]> cur).
Proof.
  intros Hfit Hm c Hl.
  destruct (tells_say now (sid_of s) (Some s)
    (fun c => remote_session_published_envelope (stamp (next_message_id_increment (ch_next c))) n inst (next_message_id_increment (ch_next c)) s)
    (fun c => next_message_id_increment (ch_next c)) cur) with (c := c) as (c' & E & H); [by constructor|done|].
  unfold publish_session, on_state_changed_with_mode. pose proof Hl as [Hi _]. rewrite Hi.
  destruct (_ && _) eqn:Es.
  - apply andb_true_iff in Es as [Hd%bool_decide_eq_true Es%bool_decide_eq_true].
    exists c. destruct c as [l t next]. cbn in *. split_and!; [done|done|lia|].
    intros Ht _. assert (Hst : last_state (tracked_at (sid_of s) t) = Some (mkSourceState s false)).
    { unfold tracked_at. by destruct (tracked t !! about (sid_of s)). }
    replace (<[sid_of s := Some s]> cur) with cur; [done|]. symmetry. apply insert_id.
    destruct (cur !! sid_of s) as [w|] eqn:Ec.
    + pose proof (told_state _ _ Ht _ _ Ec) as E'. cbn in E'. rewrite Hst in E'. destruct w as [s'|]; by simplify_eq/=.
    + pose proof (told_new _ _ Ht _ _ Ec Hst eq_refl) as Hp. destruct (Hm Hd _ Hp). congruence.
  - exists c'. split; [|done]. exact E.
Qed.

Lemma tells_exit now s cur : fit s -> tells (publish_exit stamp n now s) cur (<[sid_of s := None]> cur).
Proof.
  intros Hfit c Hl.
  destruct (tells_say now (sid_of s) None
    (fun c => remote_session_exited_envelope (stamp (next_message_id_increment (ch_next c))) n inst (next_message_id_increment (ch_next c)) (sid_of s))
    (fun c => next_message_id_increment (ch_next c)) cur) with (c := c) as (c' & E & H); [by constructor|done|].
  exists c'. split; [|done]. unfold publish_exit, on_target_exited. pose proof Hl as [Hi _]. rewrite Hi. exact E.
Qed.

Definition said_there (cur : Knowledge) (l : list ManagedSessionRecord) : Knowledge := foldl (fun cur s => <[sid_of s := Some s]> cur) cur l.
Definition said_ended (cur : Knowledge) (l : list ManagedSessionRecord) : Knowledge := foldl (fun cur s => <[sid_of s := None]> cur) cur l.

(** The last word on a session, when the list has one word on it or none. *)
Lemma said_lookup (w : ManagedSessionRecord -> option ManagedSessionRecord) l (cur : Knowledge) sid :
  (forall s, s ∈ l -> sid_of s <> sid) -> foldl (fun cur s => <[sid_of s := w s]> cur) cur l !! sid = cur !! sid.
Proof.
  revert cur. induction l as [|s l IH]; intros cur H; [done|]. cbn. rewrite IH by (intros; apply H; by right).
  apply lookup_insert_ne, H. by left.
Qed.

Lemma said_lookup_in (w : ManagedSessionRecord -> option ManagedSessionRecord) l (cur : Knowledge) s :
  s ∈ l -> (forall s', s' ∈ l -> sid_of s' = sid_of s -> w s' = w s) ->
  foldl (fun cur s => <[sid_of s := w s]> cur) cur l !! sid_of s = Some (w s).
Proof.
  revert cur s. induction l as [|x l IH]; intros cur s Hin Hu; [by apply not_elem_of_nil in Hin|]. cbn.
  destruct (decide (Exists (fun s' => sid_of s' = sid_of s) l)) as [Hex|Hnex].
  - apply Exists_exists in Hex as (s' & Hs' & Es). rewrite <- Es, <- (Hu s') by (done || by right).
    apply IH; [done|]. intros s'' Hs'' Es''. rewrite (Hu s''), (Hu s') by (by right || congruence). done.
  - rewrite said_lookup by (intros s' Hs' Es; apply Hnex, Exists_exists; eauto).
    apply elem_of_cons in Hin as [->|Hin]; [by rewrite lookup_insert_eq|]. destruct Hnex. apply Exists_exists; eauto.
Qed.

Lemma spoken_said (w : ManagedSessionRecord -> option ManagedSessionRecord) l (cur : Knowledge) :
  spoken cur -> spoken (foldl (fun cur s => <[sid_of s := w s]> cur) cur l).
Proof. revert cur. induction l as [|s l IH]; intros cur H; [done|]. cbn. by apply IH, spoken_insert. Qed.

(** ** A round of publishing *)

(** A catalog of this node: the sessions are filed under their ids. *)
Definition of_node (m : gmap string ManagedSessionRecord) : Prop := map_Forall (fun k s => k = local_key (sid_of s) /\ fit s) m.

(** What was said agrees with a catalog. *)
Definition agrees (cur : Knowledge) (m : gmap string ManagedSessionRecord) : Prop :=
  forall sid s, cur !! sid = Some (Some s) <-> m !! local_key sid = Some s.

Definition after_round (mode : SessionSyncMode) (prev current : gmap string ManagedSessionRecord) (cur : Knowledge) : Knowledge :=
  let '(publish, exit) := compute_session_sync_delta order prev current mode in said_ended (said_there cur publish) exit.

Lemma elem_of_publish prev current mode s : s ∈ (compute_session_sync_delta order prev current mode).1 <->
  exists k, current !! k = Some s /\ (mode = Delta -> prev !! k <> Some s).
Proof.
  cbn. rewrite list_elem_of_omap. setoid_rewrite Horder. split.
  - intros ([k x] & Hk%elem_of_map_to_list & E). cbn in E. destruct (_ && _) eqn:Ed; [done|]. injection E as ->.
    exists k. split; [done|]. intros -> Ep. cbn in Ed. rewrite Ep, equivalence_is_equality in Ed. by apply bool_decide_eq_false in Ed.
  - intros (k & Hk & Hd). exists (k, s). split; [by apply elem_of_map_to_list|]. cbn.
    case_bool_decide as Em; [|done]. cbn. destruct (prev !! k) as [p|] eqn:Ep; [|done].
    rewrite equivalence_is_equality, bool_decide_false; [done|]. intros ->. by apply Hd.
Qed.

Lemma elem_of_exit prev current mode p : p ∈ (compute_session_sync_delta order prev current mode).2 <->
  exists k, prev !! k = Some p /\ current !! k = None.
Proof.
  cbn. rewrite list_elem_of_omap. setoid_rewrite Horder. split.
  - intros ([k x] & Hk%elem_of_map_to_list & E). cbn in E. case_bool_decide as Ed; [done|]. injection E as ->.
    exists k. split; [done|]. by apply eq_None_not_Some.
  - intros (k & Hk & Hn). exists (k, p). split; [by apply elem_of_map_to_list|]. cbn.
    rewrite bool_decide_false; [done|]. rewrite Hn. by intros [].
Qed.

Lemma after_round_lookup mode prev current cur sid : of_node prev -> of_node current -> (mode = Delta -> agrees cur prev) ->
  after_round mode prev current cur !! sid =
  match current !! local_key sid with
  | Some s => Some (Some s)
  | None => match prev !! local_key sid with Some _ => Some None | None => cur !! sid end
  end.
Proof.
  intros Hp Hc Ha. unfold after_round.
  pose proof (elem_of_publish prev current mode) as Hpub. pose proof (elem_of_exit prev current mode) as Hex.
  destruct (compute_session_sync_delta order prev current mode) as [pub ex]. cbn in Hpub, Hex.
  assert (Kp : forall s, s ∈ pub -> current !! local_key (sid_of s) = Some s).
  { intros s (k & Hk & _)%Hpub. by rewrite <- (proj1 (Hc k s Hk)). }
  assert (Ke : forall p, p ∈ ex -> prev !! local_key (sid_of p) = Some p /\ current !! local_key (sid_of p) = None).
  { intros p (k & Hk & Hn)%Hex. by rewrite <- (proj1 (Hp k p Hk)). }
  assert (Kc : forall s, current !! local_key sid = Some s -> sid_of s = sid).
  { intros s Hs. symmetry. apply local_key_inj, (Hc _ _ Hs). }
  unfold said_ended. destruct (current !! local_key sid) as [s|] eqn:Es.
  - rewrite said_lookup by (intros p Hi <-; destruct (Ke p Hi); congruence). pose proof (Kc s eq_refl) as <-.
    unfold said_there. destruct (decide (s ∈ pub)) as [Hin|Hni].
    + apply (said_lookup_in Some); [done|]. intros s' Hs' Eq. pose proof (Kp s' Hs') as E'. rewrite Eq in E'. congruence.
    + rewrite (said_lookup Some) by (intros s' Hs' Eq; pose proof (Kp s' Hs') as E'; rewrite Eq in E'; congruence).
      assert (mode = Delta /\ prev !! local_key (sid_of s) = Some s) as [Hm Hps].
      { destruct mode; [|destruct Hni; apply Hpub; by exists (local_key (sid_of s))]. split; [done|].
        destruct (decide (prev !! local_key (sid_of s) = Some s)); [done|]. destruct Hni. apply Hpub. eauto. }
      by apply (Ha Hm).
  - assert (Hn : said_there cur pub !! sid = cur !! sid).
    { apply (said_lookup Some). intros s Hs <-. pose proof (Kp s Hs). congruence. }
    destruct (prev !! local_key sid) as [p|] eqn:Ep.
    + assert (sid_of p = sid) as <- by (symmetry; apply local_key_inj, (Hp _ _ Ep)).
      apply (said_lookup_in (fun _ => None)); [|done]. apply Hex. eauto.
    + rewrite said_lookup; [done|]. intros p Hin <-. destruct (Ke p Hin). congruence.
Qed.

Lemma after_round_agrees mode prev current cur : of_node prev -> of_node current ->
  (mode = FullBaseline /\ cur = ∅ /\ prev = P0) \/ (mode = Delta /\ agrees cur prev /\ spoken cur) ->
  agrees (after_round mode prev current cur) current /\ spoken (after_round mode prev current cur).
Proof.
  intros Hp Hc Hm.
  assert (Hl := fun sid => after_round_lookup mode prev current cur sid Hp Hc
    ltac:(intros ->; destruct Hm as [[? _]|(_ & ? & _)]; done)).
  split.
  - intros sid s. rewrite Hl. destruct (current !! local_key sid) as [s'|]; [naive_solver|].
    destruct (prev !! local_key sid) eqn:Ep; [naive_solver|]. destruct Hm as [(_ & -> & _)|(_ & Ha & _)]; [done|].
    split; [|done]. intros E%Ha. congruence.
  - intros sid Hs. rewrite Hl. destruct (current !! local_key sid); [done|].
    destruct Hm as [(_ & -> & ->)|(_ & _ & Hsp)]; [by destruct Hs as [? ->]|].
    destruct (prev !! local_key sid); [done|]. by apply Hsp.
Qed.

(** ** Acknowledgements and retries *)

(** Changes of what is pending that add no retry. *)
Lemma told_same_link cur c t : told cur c ->
  map_Forall (fun k _ => exists sid, k = about sid) (tracked t) ->
  (forall sid, let r := tracked_at sid (ch_tracker c) in let r' := tracked_at sid t in
     last_state r' = last_state r /\ latest_revision r' = latest_revision r /\
     (forall p, pending r' = Some p -> exists p', pending r = Some p' /\
        (pn_next_retry_at p <> None -> is_Some (cur !! sid) \/ pn_next_retry_at p' <> None) /\
        pn_target_id p = pn_target_id p' /\ pn_revision p = pn_revision p' /\ pn_envelope p = pn_envelope p')) ->
  told cur (set_ch_tracker t c).
Proof.
  intros Ht Hk Hs. constructor; cbn [set_ch_tracker ch_tracker ch_link]; [done|..].
  - intros e He. destruct (told_sent _ _ Ht e He) as (sid & rev & w & H). exists sid, rev, w.
    destruct (Hs sid) as (_ & -> & _). done.
  - intros sid w Hc. destruct (Hs sid) as (_ & -> & _). by apply (told_last _ _ Ht).
  - intros sid w Hc. destruct (Hs sid) as (-> & _). by apply (told_state _ _ Ht).
  - intros sid st. destruct (Hs sid) as (-> & _). apply (told_new _ _ Ht).
  - intros sid. destruct (Hs sid) as (_ & -> & _). apply (told_bound _ _ Ht).
  - intros sid p Hp Hr. destruct (Hs sid) as (_ & -> & Hx). destruct (Hx p Hp) as (p' & Hp' & Hr' & E1 & E2 & E3).
    destruct (told_retry _ _ Ht sid p' Hp') as (F1 & F2 & w & F3 & F4); [naive_solver|].
    split_and!; [congruence|congruence|]. exists w. by rewrite E3.
Qed.

Lemma on_ack_told ack cur c : told cur c -> told cur (set_ch_tracker (on_ack ack (ch_tracker c)).2 c).
Proof.
  intros Ht. assert (Hid : told cur (set_ch_tracker (ch_tracker c) c)) by (by destruct c).
  unfold on_ack. destruct (tracked (ch_tracker c) !! ack_target_id ack) as [r|] eqn:E; [|done].
  destruct (pending r) as [p|] eqn:Ep; [|done]. destruct (negb _); [done|].
  destruct (told_keys _ _ Ht _ _ E) as [sid0 Ek].
  destruct (ack_status ack); cbn [snd]; [| |done]; (apply told_same_link; [done| |]);
    try (apply map_Forall_insert_2; [by eexists|apply Ht]);
    intros sid; unfold tracked_at; cbn; (destruct (decide (about sid = ack_target_id ack)) as [Es|Es];
      [rewrite Es, lookup_insert_eq, E; done|rewrite lookup_insert_ne by done; naive_solver]).
Qed.

(** A message that repeats what was said last. *)
Lemma told_again e sid w cur c : told cur c -> cur !! sid = Some w -> carries e sid (latest sid c) w ->
  told cur (mkChannel (mkLink (link_instance (ch_link c)) (link_ok (ch_link c)) (sent c ++ [e])) (ch_tracker c) (ch_next c)).
Proof.
  intros Ht Ew He. destruct (told_last _ _ Ht sid w Ew) as [Hpos _].
  constructor; cbn [ch_link ch_tracker link_sent]; try apply Ht.
  - intros e' [He'|Hx%list_elem_of_singleton]%elem_of_app; [by apply (told_sent _ _ Ht)|subst e'].
    exists sid, (latest sid c), w. split_and!; [done|lia|lia|by eexists|done].
  - intros sid' w' Hc. destruct (told_last _ _ Ht sid' w' Hc) as (Hp & e' & He' & Hce). split; [done|].
    exists e'. split; [|done]. apply elem_of_app. by left.
  - intros sid'. rewrite length_app. pose proof (told_bound _ _ Ht sid'). cbn. lia.
Qed.

Lemma send_up now p c : link_up (ch_link c) -> exists c', send_source_publication now p c = (true, c') /\ link_up (ch_link c') /\
  (length (sent c) <= length (sent c'))%nat.
Proof.
  intros [Hi Hk]. unfold send_source_publication, link_send. rewrite Hk.
  case_match; (eexists; split; [reflexivity|]); cbn; (split; [done|]); rewrite ?length_app; lia.
Qed.

Lemma current_pending_at sid rev t q : current_pending (about sid) rev t = Some q ->
  pending (tracked_at sid t) = Some q /\ tracked t !! about sid = Some (tracked_at sid t).
Proof.
  unfold current_pending, tracked_at. destruct (tracked t !! about sid) as [r|]; [|done]. cbn.
  destruct (pending r) as [q'|]; [|done]. cbn. by case_match; intros [= <-].
Qed.

Lemma resend_told now p sid cur c c' : told cur c -> repeats cur sid (latest sid c) p ->
  send_source_publication now p c = (true, c') -> told cur c' /\ forall sid, latest sid c' = latest sid c.
Proof.
  intros Ht (Et & Er & w & Ew & Hc). unfold send_source_publication, is_current_pending. rewrite Et, Er.
  case_bool_decide as Hp; [|intros [= <-]; done]. unfold link_send. destruct (link_ok _ _); [|done]. intros E. injection E as <-.
  destruct Hp as [q Hq]. destruct (current_pending_at _ _ _ _ Hq) as [Ep Ek]. unfold on_publication_sent. rewrite Hq.
  set (t := mkTracker _ _).
  assert (Hat : forall sid', tracked_at sid' t = if decide (sid' = sid) then set_pending (Some (sent_once now q)) (tracked_at sid (ch_tracker c))
                              else tracked_at sid' (ch_tracker c)).
  { intros sid'. unfold t. unfold tracked_at at 1. cbn. destruct (decide (sid' = sid)) as [->|Hne].
    - by rewrite lookup_alter_eq, Ek.
    - rewrite lookup_alter_ne; [done|]. by intros ?%about_inj. }
  split; [|intros sid'; cbn; rewrite Hat; by destruct (decide (sid' = sid)) as [->|]].
  apply (told_again _ sid w cur (set_ch_tracker t c)); [|done|].
  - apply told_same_link; [done| |].
    + unfold t. cbn. intros k r [(<- & _)|[_ E]]%lookup_alter_Some; [by eexists|by apply (told_keys _ _ Ht k r)].
    + intros sid'. cbn. rewrite Hat. destruct (decide (sid' = sid)) as [->|]; [|naive_solver]. cbn. split_and!; [done|done|].
      intros p' [= <-]. exists q. split_and!; [done| |done|done|done]. intros _. left. by eexists.
  - cbn. rewrite Hat, decide_True by done. exact Hc.
Qed.

Lemma retries_up now ps c : link_up (ch_link c) -> exists c', send_pending_source_publications now ps c = (true, c') /\
  link_up (ch_link c') /\ (length (sent c) <= length (sent c'))%nat.
Proof.
  unfold send_pending_source_publications. revert c. induction ps as [|p ps IH]; intros c Hl; [by exists c|].
  destruct (send_up now p c Hl) as (c1 & E1 & Hl1 & Hn1). destruct (IH c1 Hl1) as (c2 & E2 & Hl2 & Hn2).
  exists c2. cbn [each]. rewrite E1. split_and!; [done|done|lia].
Qed.

Lemma retries_told now ps cur c c' : told cur c -> Forall (fun p => exists sid, repeats cur sid (latest sid c) p) ps ->
  link_up (ch_link c) -> send_pending_source_publications now ps c = (true, c') -> told cur c'.
Proof.
  unfold send_pending_source_publications. intros Ht Hp Hl. revert c Ht Hp Hl.
  induction ps as [|p ps IH]; intros c Ht Hp Hl E; [cbn in E; by injection E as <-|]. cbn [each] in E.
  apply Forall_cons in Hp as [[sid Hp] Hps]. destruct (send_up now p c Hl) as (c1 & E1 & Hl1 & Hn1). rewrite E1 in E.
  destruct (resend_told _ _ _ _ _ _ Ht Hp E1) as [Ht1 Hlat]. apply (IH c1); [done| |done|done].
  eapply Forall_impl; [exact Hps|]. intros q [sid' Hq]. exists sid'. by rewrite Hlat.
Qed.

Lemma due_repeats now cur c : told cur c ->
  Forall (fun p => exists sid, repeats cur sid (latest sid c) p) (due_retry_publications order now (ch_tracker c)).
Proof.
  intros Ht. unfold due_retry_publications. case_match; [|constructor]. apply Forall_forall. intros p.
  rewrite list_elem_of_omap. setoid_rewrite Horder. intros (r & Hr & E).
  apply list_elem_of_fmap in Hr as ([k r'] & -> & Hk%elem_of_map_to_list). cbn in E.
  destruct (told_keys _ _ Ht k r' Hk) as [sid ->]. destruct (pending r') as [q|] eqn:Eq; [|done]. cbn in E.
  destruct (pn_next_retry_at q) eqn:En; [|done]. case_match; [|done]. injection E as ->.
  exists sid. apply (told_retry _ _ Ht sid p); [|right; congruence]. unfold tracked_at. by rewrite Hk.
Qed.

(** ** A connection *)

Definition chan (s : Sync) : Channel :=
  mkChannel (default (mkLink inst (fun _ => true) []) (sy_active s)) (sy_tracker s) (sy_next s).

Definition up (s : Sync) : Prop := exists l, sy_active s = Some l /\ link_up l.

Definition in_bounds (s : Sync) : Prop := B + Z.of_nat (length (sent (chan s))) < 2 ^ 64.

(** The catalogs are this node's, and what was said agrees with what the loop
    takes for published. *)
Definition shape (cur : Knowledge) (s : Sync) : Prop :=
  of_node (sy_observed s) /\ of_node (sy_published s) /\ agrees cur (sy_published s) /\ spoken cur /\
  sy_published s = sy_observed s.

Lemma publish_tells now mode cur s : up s -> of_node (sy_observed s) -> of_node (sy_published s) ->
  (mode = FullBaseline /\ cur = ∅ /\ sy_published s = P0) \/ (mode = Delta /\ agrees cur (sy_published s) /\ spoken cur) ->
  exists s', publish stamp order n now mode s = (false, s') /\ up s' /\ shape (after_round mode (sy_published s) (sy_observed s) cur) s' /\
    (length (sent (chan s)) <= length (sent (chan s')))%nat /\
    (told cur (chan s) -> in_bounds s' -> told (after_round mode (sy_published s) (sy_observed s) cur) (chan s')).
Proof.
  intros (l & El & Hl) Ho Hp Hm.
  destruct (after_round_agrees mode _ _ cur Hp Ho Hm) as [Hag Hsp]. revert Hag Hsp.
  unfold publish, publish_observed_session_catalog, publish_current_local_sessions, after_round, chan, in_bounds. rewrite El.
  pose proof (elem_of_publish (sy_published s) (sy_observed s) mode) as Hpub.
  pose proof (elem_of_exit (sy_published s) (sy_observed s) mode) as Hex.
  destruct (compute_session_sync_delta _ _ _ _) as [pub ex]. intros Hag Hsp. cbn [default fst snd] in *.
  destruct (tells_each (publish_session stamp n now mode) (fun cur s => <[sid_of s := Some s]> cur) (fun cur => mode = Delta -> spoken cur)
              pub cur) with (c := mkChannel l (sy_tracker s) (sy_next s)) as (c1 & E1 & Hl1 & Hn1 & Ht1).
  { intros x cur' (k & Hk & _)%Hpub HQ. split; [apply tells_session; [apply (Ho _ _ Hk)|done]|]. intros E. by apply spoken_insert, HQ. }
  { intros ->. destruct Hm as [[? _]|(_ & _ & ?)]; done. }
  { done. }
  destruct (tells_each (publish_exit stamp n now) (fun cur s => <[sid_of s := None]> cur) (fun _ => True) ex (said_there cur pub))
    with (c := c1) as (c2 & E2 & Hl2 & Hn2 & Ht2); [|done|done|].
  { intros x cur' (k & Hk & _)%Hex _. split; [apply tells_exit, (Hp _ _ Hk)|done]. }
  rewrite E1. cbn [negb]. rewrite E2. cbn [negb]. eexists. split; [reflexivity|]. cbn. destruct c2 as [l2 t2 next2]. cbn in *.
  split_and!; [by exists l2|by split_and!|lia|]. intros Ht Hb. apply Ht2; [|done]. apply Ht1; [done|lia].
Qed.

(** A read of the catalog gives this node's sessions. *)
Definition read_ok (read : option (list ManagedSessionRecord)) : Prop :=
  forall l, read = Some l -> Forall (fun s => address_transport (address s) = Local -> address s = local auth (sid_of s) /\ fit s) l.

Lemma observe_of_node read s : read_ok read -> of_node (sy_observed s) ->
  exists changed m init, observe_local_session_catalog read s =
    (changed, mkSync (sy_next s) (sy_tracker s) m init (sy_published s) (sy_dirty s) (sy_active s)) /\ of_node m /\
    (changed = false -> m = sy_observed s).
Proof.
  intros Hr Ho. unfold observe_local_session_catalog, observe_current_local_sessions. destruct read as [l|]; cbn.
  - do 3 eexists. split; [reflexivity|]. split.
    2: { intros [_ E]%orb_false_iff. apply bool_decide_eq_false in E. destruct (decide (sy_observed s = local_sessions_by_local_id
           (List.filter (fun s => bool_decide (address_transport (address s) = Local)) l))); [done|]. by destruct E. }
    specialize (Hr l eq_refl). unfold local_sessions_by_local_id.
    assert (Hl : Forall (fun s => address s = local auth (sid_of s) /\ fit s) (List.filter (fun s => bool_decide (address_transport (address s) = Local)) l)).
    { apply Forall_forall. intros x [Hx Hb%bool_decide_eq_true]%list_elem_of_In%filter_In.
      apply list_elem_of_In in Hx. rewrite Forall_forall in Hr. by apply Hr. }
    assert (He : of_node ∅) by apply map_Forall_empty. revert He. generalize (∅ : gmap string ManagedSessionRecord).
    induction Hl as [|x xs Hx Hxs IH]; intros m Hm; [done|]. cbn. apply IH. apply map_Forall_insert_2; [|done].
    destruct Hx as [Hx Hfit]. split; [|done]. unfold local_key. by rewrite Hx.
  - exists false, (sy_observed s), (sy_initialized s). by destruct s.
Qed.

(** What a connection does besides opening and closing: a change of the
    catalog, an envelope from the peer, a retry. *)
Definition quiet (ev : sync_event) : Prop :=
  match ev with
  | SyncEnvelope _ _ read | SyncCatalogChanged _ read => read_ok read
  | SyncRetryDue => True
  | SyncOpened _ _ | SyncClosed | SyncHostOutput _ _ => False
  end.

Definition step_tells (f : Sync -> bool * Sync) : Prop :=
  forall cur s, up s -> shape cur s -> exists s' cur', f s = (false, s') /\ up s' /\ shape cur' s' /\
    (length (sent (chan s)) <= length (sent (chan s')))%nat /\ (told cur (chan s) -> in_bounds s' -> told cur' (chan s')).

Lemma step_publish now read (f : Sync -> bool * Sync) : read_ok read ->
  (forall s, let s' := (observe_local_session_catalog read s).2 in
     is_Some (sy_active s) ->
     exists d, f s = publish stamp order n now Delta (set_sy_dirty d s') \/
       ((observe_local_session_catalog read s).1 = false /\ f s = (false, set_sy_dirty d s'))) ->
  step_tells f.
Proof.
  intros Hr Hf cur s Hu (Ho & Hp & Ha & Hs & Heq). destruct (observe_of_node read s Hr Ho) as (ch & m & init & E & Hm & Hsame).
  pose proof Hu as (l & El & _). specialize (Hf s). cbv zeta in Hf. rewrite E in Hf.
  destruct (Hf (mk_is_Some _ _ El)) as [d [Hf'|[Hch Hf']]]; cbn in Hf'; rewrite Hf'.
  - match goal with |- context [publish _ _ _ _ _ ?x] =>
      destruct (publish_tells now Delta cur x) as (s' & Ep & H1 & H2 & H3 & H5); [done|done|done|by right|]
    end.
    rewrite Ep. eauto 10.
  - do 2 eexists. split_and!; [done|done| |done|].
    + split_and!; [exact Hm|done|exact Ha|done|]. cbn. by rewrite Hsame.
    + done.
Qed.

Lemma same_dirty s : set_sy_dirty (sy_dirty s) s = s.
Proof. by destruct s. Qed.

Lemma step_catalog now read : read_ok read -> step_tells (fun s => (handle_catalog_change stamp order n now read s).2).
Proof.
  intros Hr. apply (step_publish now read); [done|]. intros s s' Hac. unfold s', handle_catalog_change.
  assert (Ha : is_Some (sy_active (observe_local_session_catalog read s).2)).
  { unfold observe_local_session_catalog. by case_match. }
  clear s'. destruct (observe_local_session_catalog read s) as [ch s']. cbn [snd fst] in *.
  exists (if ch then true else sy_dirty s').
  replace (set_sy_dirty (if ch then true else sy_dirty s') s') with (if ch then set_sy_dirty true s' else s')
    by (destruct ch; [done|by rewrite same_dirty]).
  destruct ch; cbn [sy_active set_sy_dirty sy_dirty]; rewrite (bool_decide_true (is_Some _)) by done; cbn [andb].
  - left. by destruct (publish _ _ _ _ _ _).
  - case_match; [left; by destruct (publish _ _ _ _ _ _)|by right].
Qed.

Lemma step_quiet now ev : quiet ev -> step_tells (sync_step stamp order debug n now ev).
Proof.
  assert (Hid : forall cur s, up s -> shape cur s -> exists s' cur', (false, s) = (false, s') /\ up s' /\ shape cur' s' /\
    (length (sent (chan s)) <= length (sent (chan s')))%nat /\ (told cur (chan s) -> in_bounds s' -> told cur' (chan s')))
    by (intros; eauto 10).
  destruct ev as [l read|e changed read| | |e millis|reason read]; cbn [quiet]; try done; intros Hr.
  - assert (Hx : step_tells (fun s => let '(seen, s) := observe_local_session_catalog read s in
                   if seen then publish stamp order n now Delta (set_sy_dirty true s) else (false, s))).
    { apply (step_publish now read); [done|]. intros s s1 _. subst s1. destruct (observe_local_session_catalog read s) as [[] s']; cbn.
      - exists true. by left.
      - exists (sy_dirty s'). right. by rewrite same_dirty. }
    intros cur s Hu Hs. cbn [sync_step]. unfold handle_envelope. pose proof Hu as (l & El & Hl). rewrite El.
    destruct (map_inbound_grpc_authority_event debug e) as [[]|]; try (destruct changed; [by apply Hx|by apply Hid]); [|by apply Hid].
    exists (set_sy_tracker (on_ack payload (sy_tracker s)).2 s), cur. split_and!; [done|done|done|done|].
    intros Ht _. exact (on_ack_told payload cur (chan s) Ht).
  - intros cur s Hu Hs. cbn [sync_step]. pose proof Hu as (l & El & Hl). rewrite El.
    destruct (retries_up now (due_retry_publications order now (sy_tracker s)) (chan s)) as (c & E & Hlc & Hn);
      [unfold chan; by rewrite El|].
    assert (Ech : chan s = mkChannel l (sy_tracker s) (sy_next s)) by (unfold chan; by rewrite El).
    rewrite Ech in E. rewrite E. exists (set_channel c s), cur.
    assert (Ec : chan (set_channel c s) = c) by (by destruct c). split_and!; [done|by exists (ch_link c)|done|by rewrite Ec|].
    intros Ht _. rewrite Ec. rewrite Ech in Ht. eapply retries_told; [exact Ht| |done|exact E].
    apply (due_repeats now cur _ Ht).
  - by apply step_catalog.
Qed.

Lemma run_quiet evs : Forall (fun te => quiet te.2) evs -> step_tells (sync_run stamp order debug n evs).
Proof.
  induction 1 as [|[now ev] evs Hev Hevs IH]; intros cur s Hu Hs; [cbn; eauto 10|].
  destruct (step_quiet now ev Hev cur s Hu Hs) as (s1 & cur1 & E1 & Hu1 & Hs1 & Hn1 & Ht1).
  destruct (IH cur1 s1 Hu1 Hs1) as (s2 & cur2 & E2 & Hu2 & Hs2 & Hn2 & Ht2).
  exists s2, cur2. cbn [sync_run]. rewrite E1. split_and!; [done|done|done|lia|].
  intros Ht Hb. apply Ht2; [|done]. apply Ht1; [done|]. unfold in_bounds in *. lia.
Qed.

(** Between connections: what the tracker has on sessions that had not ended
    are sessions the loop takes for published, and revisions are below [B]. *)
Record ready (s : Sync) : Prop := {
  ready_observed : of_node (sy_observed s);
  ready_published : of_node (sy_published s);
  ready_keys : map_Forall (fun k _ => exists sid, k = about sid) (tracked (sy_tracker s));
  ready_state sid st : last_state (tracked_at sid (sy_tracker s)) = Some st -> sps_exited st = false ->
    is_Some (sy_published s !! local_key sid);
  ready_revisions sid : base sid <= latest_revision (tracked_at sid (sy_tracker s)) <= B }.

Lemma on_connected_at sid t : tracked_at sid (on_connected t) =
  let r := tracked_at sid t in set_pending ((fun p => set_retry (pn_retry_attempt p) None p) <$> pending r) r.
Proof. unfold tracked_at, on_connected. cbn. rewrite lookup_fmap. by destruct (tracked t !! about sid). Qed.

Lemma opened_told l s : ready s -> sy_published s = P0 -> link_sent l = [] ->
  told ∅ (mkChannel l (on_connected (sy_tracker s)) (sy_next s)).
Proof.
  intros Hr HP Hl. constructor; cbn [ch_link ch_tracker]; rewrite ?Hl.
  - intros k r (r' & _ & E)%lookup_fmap_Some. by apply (ready_keys _ Hr k r').
  - by intros e ?%not_elem_of_nil.
  - done.
  - done.
  - intros sid st _. rewrite on_connected_at. cbn. rewrite <- HP. apply (ready_state _ Hr).
  - intros sid. rewrite on_connected_at. cbn. pose proof (ready_revisions _ Hr sid). lia.
  - intros sid p. rewrite on_connected_at. cbn. destruct (pending _); [|done]. intros [= <-] [[? ?]|H]; done.
Qed.

Lemma open_tells now l read s : ready s -> sy_published s = P0 -> link_up l -> link_sent l = [] -> read_ok read ->
  exists s' cur, sync_step stamp order debug n now (SyncOpened l read) s = (false, s') /\ up s' /\ shape cur s' /\
    (in_bounds s' -> told cur (chan s')).
Proof.
  intros Hr HP Hl Hs Hrd. cbn [sync_step]. unfold observe.
  set (s1 := set_sy_tracker (on_connected (sy_tracker (set_sy_active (Some l) s))) (set_sy_active (Some l) s)).
  destruct (observe_of_node read s1 Hrd (ready_observed _ Hr)) as (ch & m & init & E & Hm & _). rewrite E.
  set (s2 := if ch then _ else _).
  assert (Es : chan s2 = mkChannel l (on_connected (sy_tracker s)) (sy_next s) /\ sy_published s2 = P0 /\ sy_observed s2 = m /\
    sy_active s2 = Some l) by (unfold s2; rewrite <- HP; by destruct ch).
  destruct Es as (Ec & Ep & Eo & Ea).
  destruct (publish_tells now FullBaseline ∅ s2) as (s' & E1 & Hu & Hsh & _ & Ht).
  - by exists l.
  - by rewrite Eo.
  - rewrite Ep, <- HP. apply Hr.
  - by left.
  - exists s'. eexists. split_and!; [exact E1|done|exact Hsh|]. intros Hb. apply Ht; [|done]. rewrite Ec. by apply opened_told.
Qed.

(** A connection without failures says everything. *)
Lemma connection_tells now l read evs s : ready s -> sy_published s = P0 -> link_up l -> link_sent l = [] -> read_ok read ->
  Forall (fun te => quiet te.2) evs ->
  exists s' cur, sync_run stamp order debug n ((now, SyncOpened l read) :: evs) s = (false, s') /\ up s' /\ shape cur s' /\
    (in_bounds s' -> told cur (chan s')).
Proof.
  intros Hr HP Hl Hs Hrd Hq. destruct (open_tells now l read s Hr HP Hl Hs Hrd) as (s1 & cur1 & E1 & Hu1 & Hs1 & Ht1).
  destruct (run_quiet evs Hq cur1 s1 Hu1 Hs1) as (s2 & cur2 & E2 & Hu2 & Hs2 & Hn2 & Ht2).
  exists s2, cur2. cbn [sync_run]. rewrite E1. split_and!; [done|done|done|]. intros Hb. apply Ht2; [|done]. apply Ht1.
  unfold in_bounds in *. lia.
Qed.
End said.

(** ** Which catalog is published *)

Section reads.
Context (stamp : Z -> Timestamp) (order : forall A, list A -> list A) (debug : Body -> string) (n : string).

(** The catalog an event of a connection brings, when the loop reads it. *)
Definition event_read (ev : sync_event) : option (gmap string ManagedSessionRecord) :=
  match ev with
  | SyncOpened _ read | SyncCatalogChanged _ read => observe_current_local_sessions read
  | SyncEnvelope e changed read =>
      match map_inbound_grpc_authority_event debug e with
      | Some (EvTargetPublicationAck _) | None => None
      | Some _ => if changed then observe_current_local_sessions read else None
      end
  | _ => None
  end.

Definition last_read (evs : list (Z * sync_event)) (m : gmap string ManagedSessionRecord) : gmap string ManagedSessionRecord :=
  foldl (fun m te => default m (event_read te.2)) m evs.

Lemma observe_reads read s : let s' := (observe_local_session_catalog read s).2 in
  sy_observed s' = default (sy_observed s) (observe_current_local_sessions read) /\ sy_active s' = sy_active s.
Proof. unfold observe_local_session_catalog. by case_match. Qed.

(** Publishing leaves the catalog as it was read, and the connection open. *)
Lemma publish_keeps now mode s : let s' := (publish stamp order n now mode s).2 in
  sy_observed s' = sy_observed s /\ (is_Some (sy_active s) -> is_Some (sy_active s')).
Proof.
  unfold publish, publish_observed_session_catalog, publish_current_local_sessions.
  destruct (sy_active s) eqn:Ea; [|by cbn; rewrite Ea].
  destruct (compute_session_sync_delta _ _ _ _) as [pub ex]. destruct (each _ pub _) as [[] c1]; [|done]. cbn [negb].
  by destruct (each _ ex _) as [[] c2].
Qed.

Lemma step_reads now ev s : is_Some (sy_active s) \/ (exists l read, ev = SyncOpened l read) -> ev <> SyncClosed ->
  let s' := (sync_step stamp order debug n now ev s).2 in
  sy_observed s' = default (sy_observed s) (event_read ev) /\ is_Some (sy_active s').
Proof.
  intros Ha Hc. destruct ev as [l read|e changed read| | |e millis|reason read]; cbn [sync_step event_read]; [|destruct Ha as [[l El]|(? & ? & ?)]; [|done]..].
  - unfold observe. set (s1 := set_sy_tracker _ _). destruct (observe_reads read s1) as [E1 E2].
    destruct (observe_local_session_catalog read s1) as [ch s2]. cbn [snd] in *. cbn zeta.
    destruct (publish_keeps now FullBaseline (if ch then set_sy_dirty true s2 else s2)) as [E3 E4].
    rewrite E3. split; [by destruct ch; cbn; rewrite E1|]. apply E4. by destruct ch; cbn; rewrite E2.
  - unfold handle_envelope. rewrite El. destruct (observe_reads read s) as [E1 E2].
    destruct (observe_local_session_catalog read s) as [ch s2]. cbn [snd] in *.
    destruct (publish_keeps now Delta (set_sy_dirty true s2)) as [E3 E4]. cbn in E3, E4.
    destruct (map_inbound_grpc_authority_event debug e) as [[]|]; try (by cbn; rewrite El);
      (destruct changed; [|by cbn; rewrite El]); destruct ch; cbn; rewrite ?E3, ?E1, ?E2, ?El; (split; [done|]); try done;
      apply E4; by rewrite E2, El.
  - done.
  - rewrite El. by destruct (send_pending_source_publications _ _ _) as [[] c].
  - rewrite El. by destruct (send_authority_host_output _ _ _ _ _); cbn; rewrite ?El.
  - unfold handle_catalog_change. destruct (observe_reads read s) as [E1 E2].
    destruct (observe_local_session_catalog read s) as [ch s2]. cbn [snd] in *. set (s3 := if ch then _ else _).
    assert (E : sy_observed s3 = sy_observed s2 /\ sy_active s3 = sy_active s2) by (by destruct ch). destruct E as [E5 E6].
    destruct (publish_keeps now Delta s3) as [E3 E4]. destruct (_ && _).
    + destruct (publish _ _ _ _ _ s3) as [r s4]. cbn in *. rewrite E3, E5, E1. split; [done|]. apply E4. by rewrite E6, E2, El.
    + cbn. by rewrite E5, E1, E6, E2, El.
Qed.

Lemma run_reads evs : forall s s', Forall (fun te => te.2 <> SyncClosed) evs -> is_Some (sy_active s) ->
  sync_run stamp order debug n evs s = (false, s') -> sy_observed s' = last_read evs (sy_observed s).
Proof.
  induction evs as [|[now ev] evs IH]; intros s s' Hq Ha; [by intros [= <-]|].
  apply Forall_cons in Hq as [Hev Hq]. cbn [sync_run last_read foldl snd].
  destruct (step_reads now ev s (or_introl Ha) Hev) as [E1 E2]. destruct (sync_step _ _ _ _ _ ev s) as [[] s1]; [done|].
  cbn [snd] in *. intros Er. rewrite <- E1. by apply IH.
Qed.

(** After a connection without failures the catalog is the one read last. *)
Lemma connection_reads now l read evs s s' : Forall (fun te => te.2 <> SyncClosed) evs ->
  sync_run stamp order debug n ((now, SyncOpened l read) :: evs) s = (false, s') ->
  sy_observed s' = last_read ((now, SyncOpened l read) :: evs) (sy_observed s).
Proof.
  intros Hq. cbn [sync_run last_read foldl snd].
  destruct (step_reads now (SyncOpened l read) s) as [E1 E2]; [right; by do 2 eexists|done|].
  destruct (sync_step _ _ _ _ _ _ s) as [[] s1]; [done|]. cbn [snd] in *. intros Er. rewrite <- E1. by apply run_reads.
Qed.

End reads.

(** And leaves the loop ready for the next. *)
Lemma connection_leaves_ready stamp n inst auth B base P0 fit cur s :
  shape auth P0 fit cur s -> told stamp n inst auth B base P0 fit cur (chan inst s) ->
  ready n auth (B + Z.of_nat (length (link_sent (ch_link (chan inst s)))))
    (fun sid => latest_revision (tracked_at n sid (sy_tracker s))) fit s.
Proof.
  intros (Ho & Hp & Ha & Hsp & _) Ht. constructor; [done|done|apply (told_keys _ _ _ _ _ _ _ _ _ _ Ht)| |].
  - intros sid st Est Hex. destruct (cur !! sid) as [w|] eqn:Ew.
    + pose proof (told_state _ _ _ _ _ _ _ _ _ _ Ht sid w Ew) as E. cbn in E. rewrite Est in E. injection E as ->.
      destruct w as [x|]; [|done]. apply Ha in Ew. by eexists.
    + destruct (Hsp sid) as [w Ew']; [|congruence]. by eapply (told_new _ _ _ _ _ _ _ _ _ _ Ht sid st).
  - intros sid. pose proof (told_bound _ _ _ _ _ _ _ _ _ _ Ht sid) as [_ Hb]. split; [lia|exact Hb].
Qed.
