(* ===== verification/Ingress.v ===== *)
(** * Ingress server: what peers tell a node

    [src/remote/node/remote_node_ingress_server_runtime.rs] with
    [src/remote/publication/]: the sessions of the peers connected to this
    node, what they publish with its revisions and acknowledgements, the
    bridges to the mirrors of their sessions, and the connections being made.
    The owner's table is the one of [RuntimeOwner], reached over its socket;
    what is signalled to the node's loop is an event of [NodeTypes]. The time,
    the contents of the shared catalog, which sends and deliveries succeed and
    which sockets are found are inputs; [debug_string] is how [Debug] writes a
    string. *)

From Stdlib Require Import Ascii.
From stdpp Require Import pretty.
From S2P Require Import Prelude Bytes Text Utf8 Str SessionCatalog AgentDetector Protocol AuthorityTransport NodeTypes NodeState Grpc RuntimeOwner SessionSync.

#[local] Open Scope Z_scope.

(** ** Revisions *)

Abbreviation RevisionTable := (gmap (string * string * string) Z).

Inductive PublicationRevisionDecision := Legacy | Apply | Stale.

Definition decision (node_id node_instance_id target_id : string) (revision : Z) (t : RevisionTable) : PublicationRevisionDecision :=
  if bool_decide (node_instance_id = EmptyString) || (revision =? 0) then Legacy
  else
    match t !! (node_id, node_instance_id, target_id) with
    | Some latest => if revision <=? latest then Stale else Apply
    | None => Apply
    end.

Definition mark_applied (node_id node_instance_id target_id : string) (revision : Z) (t : RevisionTable) : RevisionTable :=
  if bool_decide (node_instance_id = EmptyString) || (revision =? 0) then t
  else
    let k := (node_id, node_instance_id, target_id) in
    <[k := match t !! k with Some latest => Z.max latest revision | None => revision end]> t.

(** ** State *)

(** The bridge of an endpoint names a mirrored session by a hash. *)
Record ActiveNodeIngressSession := mkActive {
  an_node_id : string;
  an_instance : string;
  bridges : gmap string string;
  published_fingerprints : gmap string string;
  an_sync : Sync;
  opened_at : Z }.

Definition set_bridges (b : gmap string string) (a : ActiveNodeIngressSession) : ActiveNodeIngressSession :=
  mkActive (an_node_id a) (an_instance a) b (published_fingerprints a) (an_sync a) (opened_at a).

Definition set_fingerprints (f : gmap string string) (a : ActiveNodeIngressSession) : ActiveNodeIngressSession :=
  mkActive (an_node_id a) (an_instance a) (bridges a) f (an_sync a) (opened_at a).

Definition set_an_sync (s : Sync) (a : ActiveNodeIngressSession) : ActiveNodeIngressSession :=
  mkActive (an_node_id a) (an_instance a) (bridges a) (published_fingerprints a) s (opened_at a).

(** The rest of the node, as it is when an event is handled. *)
Record Shared := mkShared {
  sh_port : Z;
  sh_node_id : string;
  sh_catalog : gmap string ManagedSessionRecord }.

Definition sh_local_authority_id (sh : Shared) : string := ("local#" +:+ pretty (sh_port sh))%string.
Definition workspace_socket_name (sh : Shared) : string := ("ratatui-" +:+ pretty (sh_port sh))%string.

Section ingress.
Context `{JsonValue} (stamp : Z -> Timestamp) (order : forall A, list A -> list A) (debug : Body -> string)
  (debug_string : string -> string).

(** ** The publication runtime

    The owner, and what the node's loop was told. *)
Record Publication := mkPublication { pb_owner : Owner; pb_events : list Ev.StateEvent }.

Definition tell (e : Ev.StateEvent) (p : Publication) : Publication := mkPublication (pb_owner p) (pb_events p ++ [e]).

Inductive publication_error := OwnerError (e : owner_error) | BadPublication (message : string).

Definition owner_signal (now : Z) (c : owner_command) (p : Publication) : result unit publication_error * Publication :=
  let '(r, o) := owner_call order now c (pb_owner p) in
  (match r with Ok _ => Ok tt | Err e => Err (OwnerError e) end, mkPublication o (pb_events p)).

(** [on_remote_session_upserted]. *)
Definition signal_remote_runtime_owner_upsert (now : Z) (node_id : string) (s : ManagedSessionRecord) (p : Publication) :
    result unit publication_error * Publication :=
  let '(r, p) := owner_signal now (UpsertSession node_id s) p in
  (r, match r with Ok _ => tell (Ev.RemoteSessionCatalogUpdated s) p | Err _ => p end).

(** [signal_remote_target_exited] of the backend. *)
Definition exited_target (target : string) : string :=
  match strip_str_prefix "remote-peer:" target with
  | Some t => t
  | None => default target (strip_str_prefix "local:" target)
  end.

Definition local_target (sh : Shared) (q : string) : string :=
  let '(authority, session) := default (q, EmptyString) (rsplit_once ":"%char q) in
  if bool_decide (authority = sh_node_id sh) then (sh_local_authority_id sh +:+ ":" +:+ session)%string else q.

Definition is_node_owned_local_session (sh : Shared) (target : string) : bool :=
  match sh_catalog sh !! target with
  | Some r => bool_decide (authority_id (address r) = sh_local_authority_id sh) && bool_decide (opened_by r = [])
  | None => false
  end.

Definition signal_remote_target_exited (sh : Shared) (socket_name target : string) (p : Publication) : Publication :=
  let q := exited_target target in
  if negb (bool_decide (socket_name = workspace_socket_name sh)) || bool_decide (q = EmptyString)
     || is_node_owned_local_session sh (local_target sh q)
  then p
  else tell (Ev.SessionClosed (local_target sh q)) p.

Definition signal_remote_target_exited_to_live_workspaces (sh : Shared) (sockets : list string) (target : string) (p : Publication) :
    Publication :=
  foldl (fun p socket => signal_remote_target_exited sh socket target p) p sockets.

Definition refresh_workspace_socket (sh : Shared) (socket_name : string) (p : Publication) : Publication :=
  if bool_decide (socket_name = workspace_socket_name sh) then tell (Ev.LocalSessionOutput EmptyString) p else p.

Definition refresh_live_workspaces (sh : Shared) (sockets : list string) (p : Publication) : Publication :=
  foldl (fun p socket => refresh_workspace_socket sh socket p) p sockets.

Definition live_workspace_socket_names (sh : Shared) : list string := [workspace_socket_name sh].

Definition signal_remote_runtime_owner_remove (sh : Shared) (now : Z) (node_id authority transport_session_id : string)
    (p : Publication) : result unit publication_error * Publication :=
  let '(r, p) := owner_signal now (RemoveSession node_id authority transport_session_id) p in
  (r, match r with
      | Ok _ => signal_remote_target_exited_to_live_workspaces sh (live_workspace_socket_names sh)
                  (authority +:+ ":" +:+ transport_session_id)%string p
      | Err _ => p
      end).

(** [published_remote_target_record_from_payload]. *)
Definition published_remote_target_record_from_payload (authority : string) (payload : TargetPublishedPayload) :
    result ManagedSessionRecord string :=
  match availability_parse (pub_availability payload) with
  | None => Err ("unsupported remote target availability `" +:+ pub_availability payload +:+ "`")%string
  | Some availability =>
      let? role :=
        match pub_session_role payload with
        | None => Ok None
        | Some value =>
            match role_parse value with
            | Some role => Ok (Some role)
            | None => Err ("unsupported remote target session role `" +:+ value +:+ "`")%string
            end
        end in
      match task_state_parse (pub_task_state payload) with
      | None => Err ("unsupported remote target task state `" +:+ pub_task_state payload +:+ "`")%string
      | Some task_state =>
          Ok (mkManagedSessionRecord (remote_peer authority (pub_transport_session_id payload)) (pub_selector payload)
                availability None (pub_workspace_key payload) role [] (pub_attached_clients payload)
                (pub_window_count payload) (pub_command_name payload) (pub_display_command_name payload) None
                (pub_current_path payload) task_state)
      end
  end.

Definition is_publishable_discovered_remote_session (s : ManagedSessionRecord) : bool :=
  bool_decide (address_transport (address s) = RemotePeer) && is_target_host s.

(** [apply_discovered_remote_session_envelope_for_sockets]. *)
Definition apply_for_sockets (sh : Shared) (now : Z) (node_id : string) (e : ProtocolEnvelope) (sockets : list string) (p : Publication) :
    result unit publication_error * Publication :=
  let refreshed p := (Ok tt, match sockets with [] => p | _ => refresh_live_workspaces sh sockets p end) in
  match env_payload e with
  | TargetPublished payload =>
      match published_remote_target_record_from_payload (env_sender_id e) payload with
      | Err m => (Err (BadPublication m), p)
      | Ok s =>
          if is_publishable_discovered_remote_session s then
            match signal_remote_runtime_owner_upsert now node_id s p with
            | (Ok _, p) => refreshed p
            | (Err x, p) => (Err x, p)
            end
          else refreshed p
      end
  | TargetExited payload =>
      match signal_remote_runtime_owner_remove sh now node_id node_id (exited_transport_session_id payload) p with
      | (Ok _, p) =>
          refreshed (signal_remote_target_exited_to_live_workspaces sh sockets
                       (node_id +:+ ":" +:+ exited_transport_session_id payload)%string p)
      | (Err x, p) => (Err x, p)
      end
  | _ => refreshed p
  end.

Definition apply_discovered_remote_session_envelope (sh : Shared) (now : Z) (node_id : string) (e : ProtocolEnvelope) (p : Publication) :
    result unit publication_error * Publication :=
  apply_for_sockets sh now node_id e (live_workspace_socket_names sh) p.

Definition mark_discovered_remote_node_offline (sh : Shared) (now : Z) (node_id : string) (p : Publication) : Publication :=
  match owner_signal now (MarkNodeOffline node_id) p with
  | (Ok _, p) => refresh_live_workspaces sh (live_workspace_socket_names sh) p
  | (Err _, p) => p
  end.

(** ** Envelopes *)

(** [{:09}] of a number that is not negative. *)
Definition pad9 (z : Z) : string :=
  let digits := pretty z in (String.concat EmptyString (replicate (9 - String.length digits) "0"%string) +:+ digits)%string.

Definition timestamp_string (now : Z) (e : GrpcEnvelope) : string :=
  match g_sent_at e with
  | Some t => (pretty (ts_seconds t) +:+ "." +:+ pad9 (Z.max 0 (ts_nanos t)) +:+ "Z")%string
  | None => (pretty now +:+ "Z")%string
  end.

Definition route_of {A} (f : RouteContext -> option A) (e : GrpcEnvelope) : option A := g_route e ≫= f.

Definition known_availability (value : string) : result string string :=
  if bool_decide (value ∈ ["online"; "offline"; "exited"; "unknown"]%string) then Ok value
  else Err ("unsupported grpc target availability `" +:+ value +:+ "`")%string.

Definition known_output_stream (stream : string) : result string string :=
  if bool_decide (stream ∈ ["pty"; "stdout"; "stderr"]%string) then Ok stream
  else Err ("unsupported grpc target output stream `" +:+ stream +:+ "`")%string.

(** An envelope of the protocol for a message [payload] about [target_id]. *)
Definition mapped_envelope (now : Z) (node_id : string) (e : GrpcEnvelope) (session : option string) (target_id : string)
    (payload : ControlPlanePayload) : ProtocolEnvelope :=
  mkProtocolEnvelope REMOTE_PROTOCOL_VERSION (g_message_id e) (message_type payload) (timestamp_string now e) node_id
    (g_correlation_id e) session (Some (default target_id (route_of route_target_id e)))
    (route_of route_attachment_id e) (route_of route_console_id e) payload.

Definition map_target_published_envelope (now : Z) (node_id : string) (e : GrpcEnvelope) (p : GTargetPublished) :
    result ProtocolEnvelope string :=
  let? availability := known_availability (gp_availability p) in
  Ok (mapped_envelope now node_id e
        (or_else (envelope_session_id e) (derive_session_id_from_target_id (gp_target_id p))) (gp_target_id p)
        (TargetPublished (mkTargetPublished (gp_transport_session_id p) (gp_node_instance_id p) (gp_revision p) None
           (gp_selector p) availability (role_as_str <$> (gp_session_role p ≫= role_parse)) (gp_workspace_key p)
           (gp_command_name p) (gp_display_command_name p) (gp_current_path p)
           (default 0 (gp_attached_count p)) (default 0 (gp_window_count p))
           (task_state_as_str (default TaskUnknown (gp_task_state p ≫= task_state_parse)))))).

Definition map_target_exited_envelope (now : Z) (node_id : string) (e : GrpcEnvelope) (p : GTargetExited) : ProtocolEnvelope :=
  mapped_envelope now node_id e
    (or_else (envelope_session_id e) (derive_session_id_from_target_id (ge_target_id p))) (ge_target_id p)
    (TargetExited (mkTargetExited (ge_transport_session_id p) (ge_node_instance_id p) (ge_revision p) None)).

Definition target_publication_ack_status (s : GrpcTargetPublicationAckStatus) : result TargetPublicationAckStatus string :=
  match grpc_target_publication_ack_status_to_protocol s with
  | Some s => Ok s
  | None => Err "unspecified target publication ack status"%string
  end.

Definition map_target_publication_ack_envelope (now : Z) (node_id : string) (e : GrpcEnvelope) (p : GAck) :
    result ProtocolEnvelope string :=
  let? status := target_publication_ack_status (ack_status_of_i32 (ga_status p)) in
  Ok (mapped_envelope now node_id e (envelope_session_id e) (ga_target_id p)
        (TargetPublicationAck (mkTargetPublicationAck (ga_node_id p) (ga_node_instance_id p) (ga_target_id p) (ga_revision p)
           status (ga_message p)))).

(** ** Messages of a peer *)

(** What a message can change, and what was passed on to bridges: the
    endpoint, the session and the target it is about, and the message. *)
Record Recv := mkRecv {
  rv_pub : Publication;
  rv_revisions : RevisionTable;
  rv_session : option ActiveNodeIngressSession;
  rv_deliveries : list (string * string * string * ControlPlanePayload) }.

Definition set_rv_pub (p : Publication) (r : Recv) : Recv := mkRecv p (rv_revisions r) (rv_session r) (rv_deliveries r).
Definition set_rv_revisions (t : RevisionTable) (r : Recv) : Recv := mkRecv (rv_pub r) t (rv_session r) (rv_deliveries r).
Definition set_rv_session (s : option ActiveNodeIngressSession) (r : Recv) : Recv :=
  mkRecv (rv_pub r) (rv_revisions r) s (rv_deliveries r).

(** [session.send]: a failure is only logged. *)
Definition session_send (e : GrpcEnvelope) (a : ActiveNodeIngressSession) : ActiveNodeIngressSession :=
  match sy_active (an_sync a) ≫= link_send e with
  | Some l => set_an_sync (set_sy_active (Some l) (an_sync a)) a
  | None => a
  end.

Definition ack_envelope (now : Z) (session_instance_id node_id node_instance_id target_id : string) (revision : Z)
    (status : GrpcTargetPublicationAckStatus) (message : option string) : GrpcEnvelope :=
  mkGrpcEnvelope ("publication-ack-" +:+ pretty now)%string None session_instance_id None
    (Some (mkRoute (Some node_id) (Some target_id) None None None None))
    (Some (GPublicationAck (mkGAck node_id node_instance_id target_id revision (ack_status_i32 status) message))).

Definition send_publication_ack (now : Z) (node_id node_instance_id target_id : string) (revision : Z)
    (status : GrpcTargetPublicationAckStatus) (message : option string) (r : Recv) : Recv :=
  if bool_decide (node_instance_id = EmptyString) || (revision =? 0) then r
  else
    match rv_session r with
    | None => r
    | Some a =>
        set_rv_session (Some (session_send
          (ack_envelope now (an_instance a) node_id node_instance_id target_id revision status message) a)) r
    end.

(** [{:?}] of options. *)
Definition debug_opt (v : option string) : string :=
  match v with Some s => ("Some(" +:+ debug_string s +:+ ")")%string | None => "None" end.
Definition debug_num (v : option Z) : string :=
  match v with Some z => ("Some(" +:+ pretty z +:+ ")")%string | None => "None" end.

Definition UNIT_SEPARATOR : Ascii.ascii := Ascii.ascii_of_nat 31.

Definition target_published_fingerprint (p : GTargetPublished) : string :=
  String.concat (String UNIT_SEPARATOR EmptyString)
    [gp_target_id p; gp_transport_session_id p; gp_availability p; debug_opt (gp_selector p); gp_transport p;
     debug_opt (gp_command_name p); debug_opt (gp_current_path p); debug_num (gp_attached_count p);
     debug_opt (gp_session_role p); debug_num (gp_window_count p); debug_opt (gp_task_state p);
     gp_node_instance_id p; pretty (gp_revision p)].

Inductive ingress_error := PublicationFailed (e : publication_error) | BadEnvelope (message : string).

(** [error.to_string()]. *)
Context (error_text : publication_error -> string).

Definition handle_target_published (sh : Shared) (now : Z) (node_id : string) (e : GrpcEnvelope) (p : GTargetPublished) (r : Recv) :
    result unit ingress_error * Recv :=
  let target_id := default (gp_target_id p) (route_of route_target_id e) in
  let ack := send_publication_ack now node_id (gp_node_instance_id p) target_id (gp_revision p) in
  match decision node_id (gp_node_instance_id p) target_id (gp_revision p) (rv_revisions r) with
  | Stale => (Ok tt, ack GStaleRevision None r)
  | Legacy | Apply =>
      let fingerprint := target_published_fingerprint p in
      if bool_decide (rv_session r ≫= (fun a => published_fingerprints a !! gp_transport_session_id p) = Some fingerprint)
      then (Ok tt, ack GApplied None r)
      else
        let r := set_rv_session ((fun a => set_fingerprints (<[gp_transport_session_id p := fingerprint]> (published_fingerprints a)) a)
                   <$> rv_session r) r in
        match map_target_published_envelope now node_id e p with
        | Err m => (Err (BadEnvelope m), r)
        | Ok mapped =>
            match apply_discovered_remote_session_envelope sh now node_id mapped (rv_pub r) with
            | (Ok _, pub) =>
                (Ok tt, ack GApplied None
                   (set_rv_revisions (mark_applied node_id (gp_node_instance_id p) target_id (gp_revision p) (rv_revisions r))
                      (set_rv_pub pub r)))
            | (Err x, pub) => (Err (PublicationFailed x), ack GFailed (Some (error_text x)) (set_rv_pub pub r))
            end
        end
  end.

Definition handle_target_publication_ack (sh : Shared) (now : Z) (node_id : string) (e : GrpcEnvelope) (p : GAck) (r : Recv) :
    result unit ingress_error * Recv :=
  match map_target_publication_ack_envelope now node_id e p with
  | Err m => (Err (BadEnvelope m), r)
  | Ok mapped =>
      let r :=
        match env_payload mapped with
        | TargetPublicationAck ack =>
            set_rv_session ((fun a => set_an_sync (set_sy_tracker (on_ack ack (sy_tracker (an_sync a))).2 (an_sync a)) a) <$> rv_session r) r
        | _ => r
        end in
      let '(res, pub) := apply_discovered_remote_session_envelope sh now node_id mapped (rv_pub r) in
      (match res with Ok _ => Ok tt | Err x => Err (PublicationFailed x) end, set_rv_pub pub r)
  end.

(** ** Bridges *)

(** [stable_socket_hash] over the bytes of its values: FNV-1a. *)
Definition fnv_step (hash : Z) (c : Ascii.ascii) : Z :=
  wrap 64 (Z.lxor hash (Z.of_N (N_of_ascii c)) * 1099511628211).

Definition hex_digit (d : Z) : Ascii.ascii :=
  ascii_of_N (Z.to_N (if d <? 10 then 48 + d else 87 + d)).

(** [{:016x}]. *)
Fixpoint hex_digits (k : nat) (z : Z) (acc : string) : string :=
  match k with
  | O => acc
  | S k => hex_digits k (z / 16) (String (hex_digit (z mod 16)) acc)
  end.

Definition stable_socket_hash (values : list string) : string :=
  hex_digits 16 (foldl fnv_step 14695981039346656037 (values ≫= String.list_ascii_of_string)) EmptyString.

Definition authority_target_component (authority session : string) : string := stable_socket_hash [authority; ":"%string; session].

(** [bridge_output_to_authority_transports]: an endpoint that does not take
    the message is forgotten. *)
Definition bridge_output (reach : string -> bool) (node_id session target : string) (payload : ControlPlanePayload) (r : Recv) : Recv :=
  match rv_session r with
  | None => r
  | Some a =>
      let matching := List.filter (fun eb => bool_decide (eb.2 = authority_target_component node_id session))
                        (order _ (map_to_list (bridges a))) in
      let stale := List.filter (fun eb => negb (reach eb.1)) matching in
      mkRecv (rv_pub r) (rv_revisions r)
        (Some (set_bridges (foldl (fun b eb => delete eb.1 b) (bridges a) stale) a))
        (rv_deliveries r ++ map (fun eb => (eb.1, session, target, payload)) (List.filter (fun eb => reach eb.1) matching))
  end.

Definition payload_session_id (payload_session_id target_id : string) : option string :=
  or_else (nonempty_str payload_session_id) (derive_session_id_from_target_id target_id).

Definition handle_target_exited (sh : Shared) (reach : string -> bool) (sockets : list string) (now : Z) (node_id : string) (e : GrpcEnvelope)
    (p : GTargetExited) (r : Recv) : result unit ingress_error * Recv :=
  let target_id := default (ge_target_id p) (route_of route_target_id e) in
  let ack := send_publication_ack now node_id (ge_node_instance_id p) target_id (ge_revision p) in
  match decision node_id (ge_node_instance_id p) target_id (ge_revision p) (rv_revisions r) with
  | Stale => (Ok tt, ack GStaleRevision None r)
  | Legacy | Apply =>
      match apply_for_sockets sh now node_id (map_target_exited_envelope now node_id e p) sockets (rv_pub r) with
      | (Ok _, pub) =>
          let r := ack GApplied None
            (set_rv_revisions (mark_applied node_id (ge_node_instance_id p) target_id (ge_revision p) (rv_revisions r)) (set_rv_pub pub r)) in
          let session := default (ge_transport_session_id p)
            (or_else (envelope_session_id e) (payload_session_id (ge_transport_session_id p) (ge_target_id p))) in
          (Ok tt, bridge_output reach node_id session target_id
             (TargetExited (mkTargetExited (ge_transport_session_id p) (ge_node_instance_id p) (ge_revision p) None)) r)
      | (Err x, pub) => (Err (PublicationFailed x), ack GFailed (Some (error_text x)) (set_rv_pub pub r))
      end
  end.

(** The messages that are passed on to the mirrors: the session named in the
    message, the target, and the message itself, given the session and the
    target it is about. *)
Definition bridged (b : Body) : option (string * string * result (string -> string -> ControlPlanePayload) string) :=
  match b with
  | GTargetOutput t seq stream bytes s =>
      Some (s, t, let? stream := known_output_stream stream in Ok (fun s t => TargetOutput (mkTargetOutput s t seq stream bytes)))
  | GRawPtyOutput t seq bytes s => Some (s, t, Ok (fun s t => RawPtyOutput (mkRawPtyOutput s t seq bytes)))
  | GMirrorBootstrapChunk t s seq stream bytes =>
      Some (s, t, let? stream := known_output_stream stream in Ok (fun s t => MirrorBootstrapChunk (mkMirrorBootstrapChunk s t seq stream bytes)))
  | GMirrorBootstrapComplete t s seq alt keys cursor =>
      Some (s, t, Ok (fun s t => MirrorBootstrapComplete (mkMirrorBootstrapComplete s t seq alt keys cursor)))
  | GOpenMirrorRequest t s c cols rows raw visible_only =>
      Some (s, t, Ok (fun s t => OpenMirrorRequest (mkOpenMirrorRequest s t c cols rows raw (if visible_only then VisibleOnly else Full))))
  | GCloseMirrorRequest t s => Some (s, t, Ok (fun s t => CloseMirrorRequest (mkCloseMirrorRequest s t)))
  | GApplyPtyResize t epoch console cols rows s => Some (s, t, Ok (fun s t => ApplyResize (mkApplyResize s t epoch console cols rows)))
  | GPtyResizeApplied t epoch cols rows s console => Some (s, t, Ok (fun s t => ResizeApplied (mkResizeApplied s t epoch console cols rows)))
  | GTargetGeometryChanged t s cols rows => Some (s, t, Ok (fun s t => TargetGeometryChanged (mkTargetGeometryChanged s t cols rows)))
  | GRawPtyInput a t c h seq bytes s => Some (s, t, Ok (fun s t => RawPtyInput (mkRawPtyInput a s t c h seq bytes)))
  | GPasteFileRequest t s hint fid total idx bytes =>
      Some (s, t, Ok (fun s t => PasteFileRequest (mkPasteFileRequest s t hint fid total idx bytes)))
  | _ => None
  end.

(** [handle_target_output] and the handlers after it. *)
Definition handle_bridged (reach : string -> bool) (node_id : string) (e : GrpcEnvelope) (s t : string)
    (mk : result (string -> string -> ControlPlanePayload) string) (r : Recv) : result unit ingress_error * Recv :=
  match rv_session r with
  | None => (Ok tt, r)
  | Some _ =>
      match mk with
      | Err m => (Err (BadEnvelope m), r)
      | Ok mk =>
          let session := default t (or_else (envelope_session_id e) (payload_session_id s t)) in
          let target := default t (route_of route_target_id e) in
          (Ok tt, bridge_output reach node_id session target (mk session target) r)
      end
  end.

Definition route_transport_envelope (sh : Shared) (reach : string -> bool) (sockets : list string) (now : Z) (node_id : string)
    (e : GrpcEnvelope) (r : Recv) : result unit ingress_error * Recv :=
  match g_body e with
  | Some (GPublished p) => handle_target_published sh now node_id e p r
  | Some (GPublicationAck p) => handle_target_publication_ack sh now node_id e p r
  | Some (GExited p) => handle_target_exited sh reach sockets now node_id e p r
  | Some b =>
      match bridged b with
      | Some (s, t, mk) => handle_bridged reach node_id e s t mk r
      | None => (Ok tt, r)
      end
  | None => (Ok tt, r)
  end.

(** ** Commands for a peer *)

Definition map_authority_command_to_grpc (now : Z) (a : ActiveNodeIngressSession) (c : RemoteAuthorityCommand) :
    result GrpcEnvelope string :=
  let node := an_node_id a in
  let route t attachment console host s := Some (mkRoute (Some node) (Some t) attachment console host (Some s)) in
  let? rb :=
    match c with
    | CommandRawPtyInput p =>
        Ok (route (rin_target_id p) (Some (rin_attachment_id p)) (Some (rin_console_id p)) (Some (rin_console_host_id p)) (rin_session_id p),
            GRawPtyInput (rin_attachment_id p) (rin_target_id p) (rin_console_id p) (rin_console_host_id p) (rin_input_seq p)
              (rin_input_bytes p) (rin_session_id p))
    | CommandPasteFile p =>
        Ok (route (paste_target_id p) None None None (paste_session_id p),
            GPasteFileRequest (paste_target_id p) (paste_session_id p) (paste_filename_hint p) (paste_file_id p) (paste_total_chunks p)
              (paste_chunk_index p) (paste_chunk_bytes p))
    | CommandApplyResize p =>
        Ok (route (ares_target_id p) None None None (ares_session_id p),
            GApplyPtyResize (ares_target_id p) (ares_resize_epoch p) (ares_resize_authority_console_id p)
              (wrap 32 (ares_cols p)) (wrap 32 (ares_rows p)) (ares_session_id p))
    | CommandOpenMirror p =>
        Ok (route (omreq_target_id p) None (Some (omreq_console_id p)) None (omreq_session_id p),
            GOpenMirrorRequest (omreq_target_id p) (omreq_session_id p) (omreq_console_id p)
              (wrap 32 (omreq_cols p)) (wrap 32 (omreq_rows p)) (omreq_raw_pty_passthrough p)
              (match omreq_bootstrap_mode p with VisibleOnly => true | Full => false end))
    | CommandCloseMirror p =>
        Ok (route (cmreq_target_id p) None None None (cmreq_session_id p), GCloseMirrorRequest (cmreq_target_id p) (cmreq_session_id p))
    | CommandSyncRequest _ _ | CommandHeartbeatPing =>
        Err "sync request/heartbeat is local to authority transport and cannot be mapped to gRPC"%string
    end in
  Ok (mkGrpcEnvelope (node +:+ "-authority-" +:+ pretty now)%string None (an_instance a) None rb.1 (Some rb.2)).

(** ** The server *)

(** What the loop leaves to others: threads it starts, bridges it closes,
    events for the manager of authority hosts, answers. *)
Inductive ingress_effect :=
| ProbePeer (node_id host : string) (port : Z)
| DialPeer (request : OutboundNodeSessionRequest)
| ScheduleDiscovery (attempts : Z)
| CloseBridge (endpoint : string)
| ToManager (session_instance_id : string) (e : GrpcAuthorityEvent)
| CreateReply (reply_tx : Z) (e : GrpcEnvelope)
| SocketReply (reply_tx : Z) (status : string).

Record Ingress := mkIngress {
  ig_sessions : gmap string ActiveNodeIngressSession;
  ig_pending_create : gmap string Z;
  ig_sockets : gset string;
  ig_revisions : RevisionTable;
  ig_retry_scheduled : bool;
  ig_closed : gset string;
  ig_guards : gset string;
  ig_pending_guards : gset string;
  ig_pending_dials : gset string;
  ig_pub : Publication;
  ig_effects : list ingress_effect;
  ig_deliveries : list (string * string * string * ControlPlanePayload) }.

Definition set_ig_sessions v (g : Ingress) : Ingress :=
  mkIngress v (ig_pending_create g) (ig_sockets g) (ig_revisions g) (ig_retry_scheduled g) (ig_closed g) (ig_guards g)
    (ig_pending_guards g) (ig_pending_dials g) (ig_pub g) (ig_effects g) (ig_deliveries g).
Definition set_ig_pending_create v (g : Ingress) : Ingress :=
  mkIngress (ig_sessions g) v (ig_sockets g) (ig_revisions g) (ig_retry_scheduled g) (ig_closed g) (ig_guards g)
    (ig_pending_guards g) (ig_pending_dials g) (ig_pub g) (ig_effects g) (ig_deliveries g).
Definition set_ig_sockets v (g : Ingress) : Ingress :=
  mkIngress (ig_sessions g) (ig_pending_create g) v (ig_revisions g) (ig_retry_scheduled g) (ig_closed g) (ig_guards g)
    (ig_pending_guards g) (ig_pending_dials g) (ig_pub g) (ig_effects g) (ig_deliveries g).
Definition set_ig_retry_scheduled v (g : Ingress) : Ingress :=
  mkIngress (ig_sessions g) (ig_pending_create g) (ig_sockets g) (ig_revisions g) v (ig_closed g) (ig_guards g)
    (ig_pending_guards g) (ig_pending_dials g) (ig_pub g) (ig_effects g) (ig_deliveries g).
Definition set_ig_closed v (g : Ingress) : Ingress :=
  mkIngress (ig_sessions g) (ig_pending_create g) (ig_sockets g) (ig_revisions g) (ig_retry_scheduled g) v (ig_guards g)
    (ig_pending_guards g) (ig_pending_dials g) (ig_pub g) (ig_effects g) (ig_deliveries g).
Definition set_ig_dials guards pending dials (g : Ingress) : Ingress :=
  mkIngress (ig_sessions g) (ig_pending_create g) (ig_sockets g) (ig_revisions g) (ig_retry_scheduled g) (ig_closed g) guards
    pending dials (ig_pub g) (ig_effects g) (ig_deliveries g).
Definition set_ig_pub v (g : Ingress) : Ingress :=
  mkIngress (ig_sessions g) (ig_pending_create g) (ig_sockets g) (ig_revisions g) (ig_retry_scheduled g) (ig_closed g) (ig_guards g)
    (ig_pending_guards g) (ig_pending_dials g) v (ig_effects g) (ig_deliveries g).
Definition effect (e : ingress_effect) (g : Ingress) : Ingress :=
  mkIngress (ig_sessions g) (ig_pending_create g) (ig_sockets g) (ig_revisions g) (ig_retry_scheduled g) (ig_closed g) (ig_guards g)
    (ig_pending_guards g) (ig_pending_dials g) (ig_pub g) (ig_effects g ++ [e]) (ig_deliveries g).

Definition new_ingress (o : Owner) : Ingress := mkIngress ∅ ∅ ∅ ∅ false ∅ ∅ ∅ ∅ (mkPublication o []) [] [].

Definition of_peer (node_id : string) (g : Ingress) : list (string * ActiveNodeIngressSession) :=
  List.filter (fun ia => bool_decide (an_node_id ia.2 = node_id)) (order _ (map_to_list (ig_sessions g))).

Definition has_active_ingress_session_for_node (node_id : string) (g : Ingress) : bool :=
  match of_peer node_id g with [] => false | _ => true end.

Definition mark_offline_if_last (sh : Shared) (now : Z) (node_id : string) (g : Ingress) : Ingress :=
  if has_active_ingress_session_for_node node_id g then g
  else set_ig_pub (tell (Ev.RemoteNodeOffline node_id) (mark_discovered_remote_node_offline sh now node_id (ig_pub g))) g.

(** A session that is gone: its bridges are closed, and what still comes from
    it is dropped. *)
Definition remove_session (instance : string) (g : Ingress) : Ingress :=
  let g :=
    match ig_sessions g !! instance with
    | Some a => foldl (fun g eb => effect (CloseBridge eb.1) g) (set_ig_sessions (delete instance (ig_sessions g)) g)
                  (order _ (map_to_list (bridges a)))
    | None => g
    end in
  set_ig_dials (ig_guards g ∖ {[instance]}) (ig_pending_guards g) (ig_pending_dials g)
    (set_ig_closed ({[instance]} ∪ ig_closed g) g).

Definition SESSION_EVICTION_GRACE : Z := 30000.

Definition close_ingress_sessions_for_node (sh : Shared) (now : Z) (node_id : string) (cancel_pending_dial : bool) (g : Ingress) : Ingress :=
  let had_pending := bool_decide (node_id ∈ ig_pending_guards g) || bool_decide (node_id ∈ ig_pending_dials g) in
  let g := if cancel_pending_dial
           then set_ig_dials (ig_guards g) (ig_pending_guards g ∖ {[node_id]}) (ig_pending_dials g ∖ {[node_id]}) g else g in
  let removed := (List.filter (fun ia => negb (now - opened_at ia.2 <? SESSION_EVICTION_GRACE)) (of_peer node_id g)).*1 in
  let g := foldl (fun g i => remove_session i g) g removed in
  if negb (bool_decide (removed = [])) || had_pending then mark_offline_if_last sh now node_id g else g.

(** [str::trim_end_matches]: the suffix is removed as often as it is there. *)
Fixpoint trim_suffix (fuel : nat) (suffix s : string) : string :=
  match fuel with
  | O => s
  | S fuel =>
      let keep := (String.length s - String.length suffix)%nat in
      if bool_decide (String.length suffix <= String.length s)%nat
         && bool_decide (String.substring keep (String.length suffix) s = suffix)
      then trim_suffix fuel suffix (String.substring 0 keep s) else s
  end.

Definition trim_end_matches (suffix s : string) : string := trim_suffix (String.length s) suffix s.

Definition extract_target_component (file_name authority : string) : option string :=
  let trimmed := trim_end_matches ".port" (trim_end_matches ".sock" file_name) in
  '(rest, target_hash) ← rsplit_once "-"%char trimmed;
  '(_, encoded) ← rsplit_once "-"%char rest;
  if bool_decide (encoded = stable_socket_hash [authority]) then Some target_hash else None.

(** An endpoint that was found: its address, the name of its file, and
    whether it could be connected. *)
Record found := mkFound { fd_endpoint : string; fd_file : string; fd_connects : bool }.

Inductive bridge_outcome := Connected | PendingBridge | AlreadyRegistered | InvalidBridge.

Definition refresh_authority_bridge_path (node_id : string) (f : found) (a : ActiveNodeIngressSession) :
    bridge_outcome * ActiveNodeIngressSession :=
  match bridges a !! fd_endpoint f with
  | Some _ => (AlreadyRegistered, a)
  | None =>
      match extract_target_component (fd_file f) node_id with
      | None => (InvalidBridge, a)
      | Some component =>
          if fd_connects f then (Connected, set_bridges (<[fd_endpoint f := component]> (bridges a)) a) else (PendingBridge, a)
      end
  end.

(** The number of endpoints that could not be connected yet. *)
Fixpoint refresh_authority_bridges (node_id : string) (fs : list found) (a : ActiveNodeIngressSession) : Z * ActiveNodeIngressSession :=
  match fs with
  | [] => (0, a)
  | f :: fs =>
      let '(outcome, a) := refresh_authority_bridge_path node_id f a in
      let '(pending, a) := refresh_authority_bridges node_id fs a in
      (match outcome with PendingBridge => pending + 1 | _ => pending end, a)
  end.

Definition BRIDGE_DISCOVERY_RETRY_ATTEMPTS : Z := 20.

Definition schedule_socket_discovery_retry (budget : Z) (g : Ingress) : Ingress :=
  if (budget =? 0) || ig_retry_scheduled g then g
  else effect (ScheduleDiscovery (Z.max 0 (budget - 1))) (set_ig_retry_scheduled true g).

Definition parse_peer_node_id (node_id : string) : option (string * Z) :=
  '(host, port) ← rsplit_once "#"%char node_id;
  port ← parse_uint 16 (utf8 port);
  Some (host, port).

(** [publish_local_catalog_baseline] and [publish_local_catalog_delta]; a
    failed send leaves the rest unpublished. *)
Definition publish_local_catalog_baseline (now : Z) (read : option (list ManagedSessionRecord)) (node_id : string) (s : Sync) : Sync :=
  let s := (observe_local_session_catalog read s).2 in
  match sy_active s with
  | None => s
  | Some l =>
      let '(ok, c) := each (publish_session stamp node_id now FullBaseline) (order _ (map_to_list (sy_observed s)).*2)
                        (mkChannel l (sy_tracker s) (sy_next s)) in
      let s := set_channel c s in
      if ok then mkSync (sy_next s) (sy_tracker s) (sy_observed s) (sy_initialized s) (sy_observed s) (sy_dirty s) (sy_active s) else s
  end.

Definition publish_local_catalog_delta (now : Z) (read : option (list ManagedSessionRecord)) (node_id : string) (s : Sync) : Sync :=
  let '(changed, s) := observe_local_session_catalog read s in
  match sy_active s with
  | None => s
  | Some l => if changed then (publish_current_local_sessions stamp order node_id now Delta l s).2 else s
  end.

(** ** Events of the transport *)

Inductive transport_event :=
| SessionOpened (node_id instance : string) (l : Link) (read : option (list ManagedSessionRecord)) (fs : list found)
| EnvelopeReceived (node_id instance : string) (e : GrpcEnvelope) (reach : string -> bool)
| SessionClosed (node_id instance : string)
| TransportFailed (node_id instance : option string).

Definition handle_session_opened (sh : Shared) (now : Z) (node_id instance : string) (l : Link)
    (read : option (list ManagedSessionRecord)) (fs : list found) (g : Ingress) : Ingress :=
  let g := set_ig_closed (ig_closed g ∖ {[instance]}) g in
  let outbound := bool_decide (node_id ∈ ig_pending_guards g) in
  let g := if outbound then set_ig_dials ({[instance]} ∪ ig_guards g) (ig_pending_guards g ∖ {[node_id]}) (ig_pending_dials g) g else g in
  let g :=
    if outbound then g
    else match parse_peer_node_id node_id with Some (host, port) => effect (ProbePeer node_id host port) g | None => g end in
  let was_offline := negb (has_active_ingress_session_for_node node_id g) in
  let s := mkSync 0 (on_connected new_tracker) ∅ false ∅ false (Some l) in
  let a := mkActive node_id instance ∅ ∅ (publish_local_catalog_baseline now read node_id s) now in
  let '(pending, a) := refresh_authority_bridges node_id fs a in
  let g := if 0 <? pending then schedule_socket_discovery_retry BRIDGE_DISCOVERY_RETRY_ATTEMPTS g else g in
  let g := set_ig_sessions (<[instance := a]> (ig_sessions g)) g in
  if was_offline then set_ig_pub (tell (Ev.RemoteNodeOnline node_id) (ig_pub g)) g else g.

Definition grpc_create_session_reply_request_id (e : GrpcEnvelope) : option string :=
  match g_body e with
  | Some (GCreateSessionAccepted r _ _) => Some r
  | Some (GCreateSessionRejected r _ _) => Some r
  | _ => None
  end.

Definition is_authority_body (e : GrpcEnvelope) : bool :=
  match g_body e with
  | Some (GOpenMirrorRequest _ _ _ _ _ _ _ | GCloseMirrorRequest _ _ | GApplyPtyResize _ _ _ _ _ _ | GRawPtyInput _ _ _ _ _ _ _
         | GPasteFileRequest _ _ _ _ _ _ _ | GCreateSessionRequest _ _ _ _ _) => true
  | _ => false
  end.

(** The state a message is routed with, and back. *)
Definition recv_of (instance : string) (g : Ingress) : Recv := mkRecv (ig_pub g) (ig_revisions g) (ig_sessions g !! instance) (ig_deliveries g).

Definition with_recv (instance : string) (r : Recv) (g : Ingress) : Ingress :=
  mkIngress (match rv_session r with Some a => <[instance := a]> (ig_sessions g) | None => ig_sessions g end)
    (ig_pending_create g) (ig_sockets g) (rv_revisions r) (ig_retry_scheduled g) (ig_closed g) (ig_guards g)
    (ig_pending_guards g) (ig_pending_dials g) (rv_pub r) (ig_effects g) (rv_deliveries r).

Definition handle_envelope_received (sh : Shared) (now : Z) (node_id instance : string) (e : GrpcEnvelope) (reach : string -> bool)
    (g : Ingress) : Ingress :=
  if bool_decide (instance ∈ ig_closed g) then g
  else
    match (fun r => (r, ig_pending_create g !! r)) <$> grpc_create_session_reply_request_id e with
    | Some (r, Some reply_tx) => effect (CreateReply reply_tx e) (set_ig_pending_create (delete r (ig_pending_create g)) g)
    | _ =>
        if is_authority_body e then
          match ig_sessions g !! instance, map_inbound_grpc_authority_event debug e with
          | Some _, Some ev => effect (ToManager instance ev) g
          | _, _ => g
          end
        else
          with_recv instance
            (route_transport_envelope sh reach (order _ (elements (ig_sockets g))) now node_id e (recv_of instance g)).2 g
    end.

Definition handle_transport_event (sh : Shared) (now : Z) (ev : transport_event) (g : Ingress) : Ingress :=
  match ev with
  | SessionOpened node_id instance l read fs => handle_session_opened sh now node_id instance l read fs g
  | EnvelopeReceived node_id instance e reach => handle_envelope_received sh now node_id instance e reach g
  | SessionClosed node_id instance =>
      let g := remove_session instance g in
      mark_offline_if_last sh now node_id (set_ig_dials (ig_guards g) (ig_pending_guards g ∖ {[node_id]}) (ig_pending_dials g) g)
  | TransportFailed node_id instance =>
      let g := match instance with Some i => remove_session i g | None => g end in
      match node_id with
      | Some n => mark_offline_if_last sh now n (set_ig_dials (ig_guards g) (ig_pending_guards g ∖ {[n]}) (ig_pending_dials g) g)
      | None => g
      end
  end.

(** ** Events of the node *)

Definition local_create_session_rejected_grpc_envelope (now : Z) (request_id message : string) : GrpcEnvelope :=
  mkGrpcEnvelope ("local-create-session-rejected-" +:+ pretty now)%string None EmptyString (Some request_id) None
    (Some (GCreateSessionRejected request_id message None)).

Definition grpc_create_session_request_id (e : GrpcEnvelope) : string :=
  match g_body e with Some (GCreateSessionRequest r _ _ _ _) => r | _ => EmptyString end.

Definition handle_local_create_session_request (now : Z) (e : GrpcEnvelope) (reply_tx : Z) (g : Ingress) : Ingress :=
  match route_of route_authority_node_id e with
  | None => effect (CreateReply reply_tx (local_create_session_rejected_grpc_envelope now EmptyString "missing authority node id")) g
  | Some authority =>
      let request_id := grpc_create_session_request_id e in
      match of_peer authority g with
      | [] =>
          effect (CreateReply reply_tx (local_create_session_rejected_grpc_envelope now request_id
            ("remote authority `" +:+ authority +:+ "` is not connected")%string)) g
      | (instance, a) :: _ =>
          match sy_active (an_sync a) ≫= link_send e with
          | Some l =>
              set_ig_sessions (<[instance := set_an_sync (set_sy_active (Some l) (an_sync a)) a]> (ig_sessions g))
                (set_ig_pending_create (<[request_id := reply_tx]> (ig_pending_create g)) g)
          | None =>
              effect (CreateReply reply_tx (local_create_session_rejected_grpc_envelope now request_id
                ("failed to send create-session request to `" +:+ authority +:+ "`")%string))
                (set_ig_pending_create (delete request_id (ig_pending_create g)) g)
          end
      end
  end.

(** The session a message of a mirror goes to: the one named, or the only one
    of the node. *)
Definition resolve_session_for_authority_route (node_id instance : string) (g : Ingress) : option (string * ActiveNodeIngressSession) :=
  match ig_sessions g !! instance with
  | Some a => Some (instance, a)
  | None => match of_peer node_id g with [ia] => Some ia | _ => None end
  end.

Definition send_routed (sh : Shared) (now : Z) (node_id instance : string) (mk : ActiveNodeIngressSession -> result GrpcEnvelope string)
    (g : Ingress) : Ingress :=
  match resolve_session_for_authority_route node_id instance g with
  | None => mark_offline_if_last sh now node_id g
  | Some (i, a) =>
      match mk a with
      | Ok e => set_ig_sessions (<[i := session_send e a]> (ig_sessions g)) g
      | Err _ => g
      end
  end.

(** The sessions one after the other, in the order of the table. *)
Fixpoint over_sessions (f : ActiveNodeIngressSession -> Z * ActiveNodeIngressSession) (ias : list (string * ActiveNodeIngressSession))
    (g : Ingress) : Z * Ingress :=
  match ias with
  | [] => (0, g)
  | (i, a) :: ias =>
      let '(k, a) := f a in
      let '(ks, g) := over_sessions f ias (set_ig_sessions (<[i := a]> (ig_sessions g)) g) in (k + ks, g)
  end.

Definition all_sessions (g : Ingress) : list (string * ActiveNodeIngressSession) := order _ (map_to_list (ig_sessions g)).

Definition refresh_authority_bridges_for_sessions (fs : string -> list found) (budget : Z) (g : Ingress) : Ingress :=
  let '(pending, g) := over_sessions (fun a => refresh_authority_bridges (an_node_id a) (fs (an_node_id a)) a) (all_sessions g) g in
  if 0 <? pending then schedule_socket_discovery_retry budget g else g.

Definition bridge_answer (outcomes : list bridge_outcome) : string :=
  if existsb (fun o => match o with Connected | AlreadyRegistered => true | _ => false end) outcomes then "registered"
  else if existsb (fun o => match o with PendingBridge => true | _ => false end) outcomes then "pending" else "error".

Definition handle_socket_ready (node_id : string) (f : found) (reply_tx : Z) (g : Ingress) : Ingress :=
  let sessions := of_peer node_id g in
  let outcomes := map (fun ia => (refresh_authority_bridge_path node_id f ia.2).1) sessions in
  let '(pending, g) := over_sessions (fun a => let '(o, a) := refresh_authority_bridge_path node_id f a in
                         (match o with PendingBridge => 1 | _ => 0 end, a)) sessions g in
  let g := if 0 <? pending then schedule_socket_discovery_retry BRIDGE_DISCOVERY_RETRY_ATTEMPTS g else g in
  effect (SocketReply reply_tx (bridge_answer outcomes)) g.

Inductive internal_event :=
| BridgeClosed (node_id endpoint : string)
| AuthorityCommandReceived (node_id instance : string) (command : RemoteAuthorityCommand)
| AuthorityHostOutput (node_id instance : string) (e : ProtocolEnvelope)
| LocalCreateSession (e : GrpcEnvelope) (reply_tx : Z)
| LocalCreateSessionTimedOut (request_id : string)
| SocketDirChanged (fs : string -> list found)
| AuthoritySocketReady (node_id : string) (f : found) (reply_tx : Z)
| RegisterWorkspaceSocket (socket_name : string) (reply_tx : Z)
| UnregisterWorkspaceSocket (socket_name : string) (reply_tx : Z)
| ShutdownOwner (reply_tx : Z)
| RetrySocketDiscovery (attempts_remaining : Z) (fs : string -> list found)
| FromNode (e : InternalEvent)
| LocalCatalogChanged (read : option (list ManagedSessionRecord))
| ShutdownIngress.

(** [false] ends the loop. *)
Definition handle_internal_event (sh : Shared) (now : Z) (ev : internal_event) (g : Ingress) : bool * Ingress :=
  match ev with
  | ShutdownIngress => (false, g)
  | ShutdownOwner reply_tx => (false, effect (SocketReply reply_tx "registered") g)
  | LocalCreateSession e reply_tx => (true, handle_local_create_session_request now e reply_tx g)
  | LocalCreateSessionTimedOut r => (true, set_ig_pending_create (delete r (ig_pending_create g)) g)
  | FromNode (SetRelayClient _) => (true, g)
  | FromNode (InitiateOutboundConnection request) =>
      let node_id := NodeTypes.or_node_id request in
      if has_active_ingress_session_for_node node_id g || bool_decide (node_id ∈ ig_pending_dials g) then (true, g)
      else (true, effect (DialPeer request) (set_ig_dials (ig_guards g) (ig_pending_guards g) ({[node_id]} ∪ ig_pending_dials g) g))
  | FromNode (CloseNodeIngressSession node_id cancel) => (true, close_ingress_sessions_for_node sh now node_id cancel g)
  | BridgeClosed node_id endpoint =>
      (true, (over_sessions (fun a => (0, set_bridges (delete endpoint (bridges a)) a)) (of_peer node_id g) g).2)
  | AuthorityCommandReceived node_id instance c =>
      (true, send_routed sh now node_id instance (fun a => map_authority_command_to_grpc now a c) g)
  | AuthorityHostOutput node_id instance e =>
      (true, send_routed sh now node_id instance (fun a => map_outbound_grpc_envelope (stamp now) now (an_node_id a) Authority e) g)
  | AuthoritySocketReady node_id f reply_tx => (true, handle_socket_ready node_id f reply_tx g)
  | RegisterWorkspaceSocket s reply_tx => (true, effect (SocketReply reply_tx "registered") (set_ig_sockets ({[s]} ∪ ig_sockets g) g))
  | UnregisterWorkspaceSocket s reply_tx => (true, effect (SocketReply reply_tx "registered") (set_ig_sockets (ig_sockets g ∖ {[s]}) g))
  | SocketDirChanged fs => (true, refresh_authority_bridges_for_sessions fs BRIDGE_DISCOVERY_RETRY_ATTEMPTS g)
  | RetrySocketDiscovery attempts fs => (true, refresh_authority_bridges_for_sessions fs attempts (set_ig_retry_scheduled false g))
  | LocalCatalogChanged read =>
      (true, (over_sessions (fun a => (0, set_an_sync (publish_local_catalog_delta now read (an_node_id a) (an_sync a)) a)) (all_sessions g) g).2)
  end.

Definition is_operator_auth_rejection (message : string) : bool :=
  str_contains (lit "Unauthenticated") (utf8 message) || str_contains (lit "operator challenge") (utf8 message).

(** A dial that is over, with the text of its error. *)
Definition handle_dial_result (node_id : string) (res : result unit string) (g : Ingress) : Ingress :=
  let g := set_ig_dials (ig_guards g) (match res with Ok _ => {[node_id]} ∪ ig_pending_guards g | Err _ => ig_pending_guards g end)
             (ig_pending_dials g ∖ {[node_id]}) g in
  match res with
  | Err message =>
      if is_operator_auth_rejection message then set_ig_pub (tell (Ev.RemoteNodeAuthRejected node_id message) (ig_pub g)) g else g
  | Ok _ => g
  end.

(** ** The order of events *)

Inductive IngressServerEvent := IngressTransport (e : transport_event) | IngressInternal (e : internal_event).

(** [IngressEventPriority::High]. *)
Definition high_priority (e : IngressServerEvent) : bool :=
  match e with
  | IngressTransport (EnvelopeReceived _ _ env _) =>
      match g_body env with Some (GPublished _ | GHeartbeat _) => false | _ => true end
  | _ => true
  end.

Definition enqueue_ingress_event (q : list IngressServerEvent * list IngressServerEvent) (e : IngressServerEvent) :
    list IngressServerEvent * list IngressServerEvent :=
  if high_priority e then (q.1 ++ [e], q.2) else (q.1, q.2 ++ [e]).

Definition next_ingress_event (q : list IngressServerEvent * list IngressServerEvent) :
    option (IngressServerEvent * (list IngressServerEvent * list IngressServerEvent)) :=
  match q with
  | (e :: hi, lo) => Some (e, (hi, lo))
  | ([], e :: lo) => Some (e, ([], lo))
  | ([], []) => None
  end.

Definition handle_ingress_event (sh : Shared) (now : Z) (e : IngressServerEvent) (g : Ingress) : bool * Ingress :=
  match e with
  | IngressTransport e => (true, handle_transport_event sh now e g)
  | IngressInternal e => handle_internal_event sh now e g
  end.
End ingress.
