(* ===== verification/IngressProps.v ===== *)
(** * Publication: a peer's catalog follows the source's

    The source of [SessionSync] and the receiver of [Ingress] with its owner
    of [RuntimeOwner], put together: whatever order and however often the
    messages of a connection are handled, the receiver ends with the sessions
    the source has. Then where publishing does not do what it means to. *)

From Stdlib Require Import Ascii.
From stdpp Require Import pretty.
From S2P Require Import Prelude Bytes Text Utf8 Str Decimal Numbers SessionCatalog AgentDetector Protocol AuthorityTransport NodeTypes NodeState Grpc ClientProtocol RuntimeOwner SessionSync Ingress.

#[local] Open Scope Z_scope.

(** ** The owner's table *)

Section owner.
Context (order : forall A, list A -> list A) (n : string).

Abbreviation key sid := (peer_key n n sid).

Lemma key_inj s s' : key s = key s' -> s = s'.
Proof.
  unfold peer_key, owned_record_key, remote_peer, for_transport. cbn [address_id]. intros E.
  apply (inj (String.append _)) in E. injection E as E. by do 3 apply (inj (String.append _)) in E.
Qed.

(** What handling a command about one session leaves of the others. *)
Definition keeps_others (sid : string) (o o' : Owner) : Prop :=
  (forall sid', sid' <> sid -> records o !! key sid' = None -> records o' !! key sid' = None) /\
  (owner_offline o !! n = None -> forall sid' r, sid' <> sid -> records o !! key sid' = Some r -> or_node_id r = n ->
     records o' !! key sid' = Some r) /\
  (owner_offline o !! n = None -> owner_offline o' !! n = None) /\
  (forall k r, records o' !! k = Some r -> k = key sid \/ records o !! k = Some r).

Lemma prune_keeps now sid o : keeps_others sid o (prune_expired_offline_nodes now o).
Proof.
  split_and!; cbn.
  - intros sid' _ E. apply map_lookup_filter_None. by left.
  - intros Ho sid' r _ E En. apply map_lookup_filter_Some. split; [done|]. cbn. unfold expired. by rewrite En, Ho.
  - intros Ho. apply map_lookup_filter_None. by left.
  - intros k r [E _]%map_lookup_filter_Some. by right.
Qed.

Lemma keeps_trans sid o1 o2 o3 : keeps_others sid o1 o2 -> keeps_others sid o2 o3 -> keeps_others sid o1 o3.
Proof.
  intros (A1 & A2 & A3 & A4) (B1 & B2 & B3 & B4). split_and!; [naive_solver|naive_solver|naive_solver|].
  intros k r E. destruct (B4 k r E) as [?|E']; [by left|]. by apply A4.
Qed.

Lemma upsert_keeps s o : address s = remote_peer n (session_id (address s)) ->
  keeps_others (session_id (address s)) o (upsert n s o) /\ owner_offline (upsert n s o) !! n = None /\
  exists r, records (upsert n s o) !! key (session_id (address s)) = Some r /\ or_node_id r = n /\ or_session r = s.
Proof.
  intros Ha. assert (Ek : owned_record_key n (address_id (address s)) = key (session_id (address s))) by (unfold peer_key; by rewrite Ha at 1).
  unfold upsert. rewrite Ek. set (pb := match records o !! _ with Some _ => _ | None => _ end). destruct pb as [panes bindings]. cbn.
  split; [split_and!|split; [by rewrite lookup_delete_eq|by eexists; rewrite lookup_insert_eq]]; cbn.
  - intros sid' Hne E. rewrite lookup_insert_ne; [done|]. by intros ?%key_inj.
  - intros _ sid' r Hne E _. rewrite lookup_insert_ne; [done|]. by intros ?%key_inj.
  - intros _. by rewrite lookup_delete_eq.
  - intros k r [[<- _]|[_ E]]%lookup_insert_Some; [by left|by right].
Qed.

Lemma remove_keeps now sid o :
  let o' := (handle_remote_runtime_owner_command order now (RemoveSession n n sid) o).2 in
  keeps_others sid o o' /\ records o' !! key sid = None.
Proof.
  cbn. unfold clear_offline_node_if_empty. set (o1 := set_records _ _).
  assert (Hk : forall o', records o' = records o1 -> (owner_offline o !! n = None -> owner_offline o' !! n = None) ->
    keeps_others sid o o' /\ records o' !! key sid = None).
  { intros o' Er Ho. unfold keeps_others. rewrite Er. unfold o1. cbn. split; [split_and!|by rewrite lookup_delete_eq].
    - intros sid' Hne E. rewrite lookup_delete_ne; [done|]. by intros ?%key_inj.
    - intros _ sid' r Hne E _. rewrite lookup_delete_ne; [done|]. by intros ?%key_inj.
    - done.
    - intros k r [_ E]%lookup_delete_Some. by right. }
  case_match; apply Hk; cbn; [done|done|done|]. intros _. by rewrite lookup_delete_eq.
Qed.

End owner.

(** ** Fingerprints *)

Lemma last_part {A} (c : A) (a b x y : list A) : (c ∉ x) -> (c ∉ y) -> a ++ c :: x = b ++ c :: y -> x = y.
Proof.
  assert (H : forall (x y k : list A), (c ∉ y) -> c :: y = k ++ c :: x -> x = y).
  { intros x' y' [|d k] Hy E; injection E as E; [done|]. subst. destruct Hy. apply elem_of_app. right. by left. }
  intros Hx Hy E. apply app_eq_inv in E as [(k & -> & E)|(k & -> & E)]; [by eapply H in E|symmetry; by eapply H in E].
Qed.

Lemma lit_app s t : lit (s +:+ t) = lit s ++ lit t.
Proof. unfold lit. by rewrite as_bytes_app, map_app. Qed.

Lemma str_append_assoc (a b c : string) : ((a +:+ b) +:+ c = a +:+ b +:+ c)%string.
Proof. induction a as [|x a IH]; [done|]. change (String x ((a +:+ b) +:+ c) = String x (a +:+ b +:+ c))%string. by rewrite IH. Qed.

Lemma concat_last sep l x : l <> [] -> exists a, String.concat sep (l ++ [x]) = (a +:+ sep +:+ x)%string.
Proof.
  induction l as [|y l IH]; [done|]. intros _. destruct l as [|z l]; [by exists y|].
  destruct IH as [a E]; [done|]. exists (y +:+ sep +:+ a)%string. cbn [app String.concat] in *. rewrite E.
  by rewrite !str_append_assoc.
Qed.

Lemma digits_only w acc t z : parse_digits w acc t = Some z -> (31 ∉ t).
Proof.
  revert acc. induction t as [|c t IH]; intros acc E; [apply not_elem_of_nil|]. cbn [parse_digits] in E. unfold is_ascii_digit in E.
  destruct (Z.leb_spec 48 c); [|done]. destruct (Z.leb_spec c 57); [|done]. cbv zeta in E. simpl in E.
  case_match; [|done]. apply not_elem_of_cons. split; [lia|by eapply IH].
Qed.

Lemma number_no_separator z : fits 64 z -> (31 ∉ lit (pretty z)).
Proof.
  intros Hz. pose proof (Numbers.parse_uint_pretty 64 z Hz) as E. unfold parse_uint in E.
  destruct (lit (pretty z)) as [|c t] eqn:El; [apply not_elem_of_nil|].
  destruct (Z.eq_dec c 43) as [->|Hc].
  - destruct (nonempty t); [|done]. apply not_elem_of_cons. split; [lia|]. by eapply digits_only.
  - assert (Em : match c with 43 => t | _ => c :: t end = c :: t) by (repeat case_match; subst; done).
    rewrite Em in E. destruct (nonempty (c :: t)); [|done]. by eapply digits_only.
Qed.

Lemma fingerprint_revision dbg p p' : fits 64 (gp_revision p) -> fits 64 (gp_revision p') ->
  target_published_fingerprint dbg p = target_published_fingerprint dbg p' -> gp_revision p = gp_revision p'.
Proof.
  intros Hp Hp' E.
  assert (Hf : forall p, exists a, target_published_fingerprint dbg p = (a +:+ String UNIT_SEPARATOR EmptyString +:+ pretty (gp_revision p))%string).
  { intros q. exact (concat_last _ [gp_target_id q; gp_transport_session_id q; gp_availability q; debug_opt dbg (gp_selector q); gp_transport q;
     debug_opt dbg (gp_command_name q); debug_opt dbg (gp_current_path q); debug_num (gp_attached_count q);
     debug_opt dbg (gp_session_role q); debug_num (gp_window_count q); debug_opt dbg (gp_task_state q); gp_node_instance_id q]
     (pretty (gp_revision q)) ltac:(done)). }
  destruct (Hf p) as [a Ea], (Hf p') as [b Eb]. rewrite Ea, Eb in E. apply (f_equal lit) in E. rewrite !lit_app in E.
  change (lit (String UNIT_SEPARATOR EmptyString)) with [31] in E. cbn [app] in E.
  apply last_part in E; [|by apply number_no_separator..].
  pose proof (Numbers.parse_uint_pretty 64 _ Hp) as F. rewrite E, Numbers.parse_uint_pretty in F by done. congruence.
Qed.

(** ** The receiver *)

(** A session of node [n], as a peer records it. *)
Definition remote_view (n : string) (s : ManagedSessionRecord) : ManagedSessionRecord :=
  mkManagedSessionRecord (remote_peer n (session_id (address s))) (selector s) (availability s) None (workspace_key s) (session_role s) []
    (attached_clients s) (window_count s) (SessionCatalog.command_name s) (display_command_name s) None (current_path s) (task_state s).

(** A session whose record fits a line of the owner's protocol. *)
Definition fits_owner (n : string) (s : ManagedSessionRecord) : Prop :=
  row_ok n (remote_view n s) /\ session_role s = Some TargetHost /\ solid_arg (session_id (address s)).

Section receive.
Context `{JsonValue} (stamp : Z -> Timestamp) (order : forall A, list A -> list A) (debug : Body -> string)
  (debug_string : string -> string) (error_text : publication_error -> string).
Context (Horder : forall A (l : list A), order A l ≡ₚ l).
Context (sh : Shared) (n inst : string) (Hinst : inst <> EmptyString) (Hn : is_text n).
(** The revisions that earlier connections may have left behind. *)
Context (base : string -> Z).

Abbreviation about := (remote_peer_target n).
Abbreviation carried := (carries stamp n inst (fits_owner n)).
Abbreviation key sid := (peer_key n n sid).
Abbreviation applied r sid := (rv_revisions r !! (n, inst, about sid)).
Abbreviation owner_of r := (pb_owner (rv_pub r)).

(** What the owner has on a session of which [w] was said. *)
Definition shown (sid : string) (w : option ManagedSessionRecord) (o : Owner) : Prop :=
  match w with
  | Some s => owner_offline o !! n = None /\
      exists r, records o !! key sid = Some r /\ or_node_id r = n /\ or_session r = remote_view n s
  | None => records o !! key sid = None
  end.

Lemma shown_keeps sid sid' w o o' : keeps_others n sid o o' -> sid' <> sid -> shown sid' w o -> shown sid' w o'.
Proof.
  intros (H1 & H2 & H3 & _) Hne. destruct w as [s|]; [|by apply H1]. intros (Ho & r & E & En & Es).
  split; [by apply H3|]. exists r. split_and!; [by apply H2|done|done].
Qed.

(** After the messages [D]: the newest of them on each session is applied. *)
Record following (old : string -> Prop) (D : list GrpcEnvelope) (r : Recv) : Prop := {
  fo_session : exists a, rv_session r = Some a /\ map_Forall (fun sid f => exists p, f = target_published_fingerprint debug_string p /\
     fits 64 (gp_revision p) /\ exists v, applied r sid = Some v /\ gp_revision p <= v) (published_fingerprints a);
  fo_owner : owner_ok (owner_of r);
  fo_seen e sid rev w : e ∈ D -> carried e sid rev w -> exists v, applied r sid = Some v /\ rev <= v;
  fo_shown sid v : applied r sid = Some v -> v <= base sid \/ exists e w, e ∈ D /\ carried e sid v w /\ shown sid w (owner_of r);
  fo_only k x : records (owner_of r) !! k = Some x -> or_node_id x = n \/ (exists sid, k = key sid) ->
    exists sid, k = key sid /\ (old sid \/ exists e rev w, e ∈ D /\ carried e sid rev w) }.

(** A message names its session and its revision. *)
Definition names (e : GrpcEnvelope) : option (string * Z) :=
  match g_body e with
  | Some (GPublished p) => Some (gp_transport_session_id p, gp_revision p)
  | Some (GExited p) => Some (ge_transport_session_id p, ge_revision p)
  | _ => None
  end.

Lemma carries_names e sid rev w : carried e sid rev w -> names e = Some (sid, rev).
Proof. by intros []. Qed.

(** The message is handled, and [o] becomes [o']. *)
Lemma following_step old D r e sid rev w a' o' ev ds :
  following old D r -> carried e sid rev w -> (forall v, applied r sid = Some v -> v < rev) ->
  (exists a, rv_session r = Some a /\ forall sid' f, published_fingerprints a' !! sid' = Some f ->
     published_fingerprints a !! sid' = Some f \/
     (sid' = sid /\ exists p, f = target_published_fingerprint debug_string p /\ fits 64 (gp_revision p) /\ gp_revision p = rev)) ->
  owner_ok o' -> keeps_others n sid (owner_of r) o' -> shown sid w o' ->
  following old (D ++ [e]) (mkRecv (mkPublication o' ev) (<[(n, inst, about sid) := rev]> (rv_revisions r)) (Some a') ds).
Proof.
  intros Hf Hc Hv (a & Ha & Hfp) Hok Hk Hs. pose proof (fo_session _ _ _ Hf) as (a1 & Ha1 & Hfps). simplify_eq.
  assert (Hap : forall sid', <[(n, inst, about sid) := rev]> (rv_revisions r) !! (n, inst, about sid') =
    if decide (sid' = sid) then Some rev else applied r sid').
  { intros sid'. destruct (decide (sid' = sid)) as [->|Hne]; [by rewrite lookup_insert_eq|].
    rewrite lookup_insert_ne; [done|]. intros E%(f_equal snd). by apply Hne, eq_sym, (about_inj n). }
  assert (Hmono : forall sid' v, applied r sid' = Some v -> exists v', <[(n, inst, about sid) := rev]> (rv_revisions r) !! (n, inst, about sid') = Some v' /\ v <= v').
  { intros sid' v E. rewrite Hap. destruct (decide (sid' = sid)) as [->|]; [|eauto with lia]. exists rev. split; [done|]. specialize (Hv _ E). lia. }
  constructor; cbn [rv_session rv_pub rv_revisions pb_owner].
  - exists a'. split; [done|]. intros sid' f Ef. destruct (Hfp sid' f Ef) as [E|(-> & p & -> & Hp & <-)].
    + destruct (Hfps sid' f E) as (p & -> & Hp & v & Ev & Hle). exists p. split_and!; [done|done|].
      destruct (Hmono _ _ Ev) as (v' & Ev' & ?). exists v'. split; [done|lia].
    + exists p. split_and!; [done|done|]. exists (gp_revision p). rewrite Hap, decide_True by done. split; [done|lia].
  - done.
  - intros e' sid' rev' w' [He|He%list_elem_of_singleton]%elem_of_app Hc'.
    + destruct (fo_seen _ _ _ Hf _ _ _ _ He Hc') as (v & Ev & Hle). destruct (Hmono _ _ Ev) as (v' & Ev' & ?). exists v'. split; [done|lia].
    + subst e'. apply carries_names in Hc, Hc'. rewrite Hc in Hc'. injection Hc' as <- <-.
      exists rev. rewrite Hap, decide_True by done. split; [done|lia].
  - intros sid' v. rewrite Hap. destruct (decide (sid' = sid)) as [->|Hne].
    + intros [= <-]. right. exists e, w. split_and!; [apply elem_of_app; right; by apply list_elem_of_singleton|done|done].
    + intros E. destruct (fo_shown _ _ _ Hf _ _ E) as [Hb|(e' & w' & He & Hc' & Hs')]; [by left|right]. exists e', w'.
      split_and!; [apply elem_of_app; by left|done|by eapply shown_keeps].
  - intros k x Ek En. destruct Hk as (_ & _ & _ & Hk). destruct (Hk k x Ek) as [->|E].
    + exists sid. split; [done|]. right. exists e, rev, w. split; [apply elem_of_app; right; by apply list_elem_of_singleton|done].
    + destruct (fo_only _ _ _ Hf k x E En) as (sid' & -> & [Ho|(e' & rev' & w' & He & Hc')]); exists sid'; (split; [done|]); [by left|].
      right. exists e', rev', w'. split; [apply elem_of_app; by left|done].
Qed.

(** A message that is not newer than what is applied changes nothing. *)
Lemma following_stale old D r e sid rev w v a' :
  following old D r -> carried e sid rev w -> applied r sid = Some v -> rev <= v ->
  (exists a, rv_session r = Some a /\ published_fingerprints a' = published_fingerprints a) ->
  following old (D ++ [e]) (set_rv_session (Some a') r).
Proof.
  intros Hf Hc Hv Hle (a & Ha & Hfp). constructor; cbn [set_rv_session rv_session rv_pub rv_revisions].
  - destruct (fo_session _ _ _ Hf) as (a1 & Ha1 & Hfps). simplify_eq. exists a'. by rewrite Hfp.
  - apply Hf.
  - intros e' sid' rev' w' [He|He%list_elem_of_singleton]%elem_of_app Hc'; [by eapply Hf|].
    subst e'. apply carries_names in Hc, Hc'. rewrite Hc in Hc'. injection Hc' as <- <-. eauto.
  - intros sid' v' E. destruct (fo_shown _ _ _ Hf _ _ E) as [Hb|(e' & w' & He & H')]; [by left|right].
    exists e', w'. split; [apply elem_of_app; by left|done].
  - intros k x Ek En. destruct (fo_only _ _ _ Hf k x Ek En) as (sid' & -> & [Ho|(e' & rev' & w' & He & Hc')]); exists sid'; (split; [done|]); [by left|].
    right. exists e', rev', w'. split; [apply elem_of_app; by left|done].
Qed.

Lemma session_send_fingerprints e a : published_fingerprints (session_send e a) = published_fingerprints a.
Proof. unfold session_send. by destruct (_ ≫= _). Qed.

(** The acknowledgement goes out on the session. *)
Lemma ack_sent now target rev status message r a : rev <> 0 -> rv_session r = Some a ->
  exists a', send_publication_ack now n inst target rev status message r = set_rv_session (Some a') r /\
    published_fingerprints a' = published_fingerprints a.
Proof.
  intros Hr Ha. unfold send_publication_ack. rewrite bool_decide_false by done. cbn [orb].
  destruct (Z.eqb_spec rev 0); [done|]. rewrite Ha. eexists. split; [done|]. apply session_send_fingerprints.
Qed.

Lemma fit_sizes s : fits_owner n s -> wrap 64 (attached_clients s) = attached_clients s /\ wrap 64 (window_count s) = window_count s.
Proof.
  intros (Hr & _). pose proof (row_stored _ _ Hr) as Hst. pose proof (sr_attached _ Hst). pose proof (sr_windows _ Hst).
  unfold fits, wrap in *. cbn in *. split; apply Z.mod_small; lia.
Qed.

Lemma published_record now s rev mid : fits_owner n s ->
  let e := with_revision inst rev (remote_session_published_envelope (stamp mid) n inst mid s) in
  exists p m payload, g_body e = Some (GPublished p) /\ map_target_published_envelope now n e p = Ok m /\ env_sender_id m = n /\
    env_payload m = TargetPublished payload /\ published_remote_target_record_from_payload n payload = Ok (remote_view n s).
Proof.
  intros Hs e. do 3 eexists. split; [reflexivity|]. unfold map_target_published_envelope. cbn.
  assert (Ea : known_availability (availability_as_str (availability s)) = Ok (availability_as_str (availability s))) by (by destruct (availability s)).
  rewrite Ea. cbn. split_and!; [reflexivity|done|reflexivity|]. unfold published_remote_target_record_from_payload. cbn.
  rewrite availability_round_trip. destruct Hs as (Hs & Hrole & Harg). rewrite Hrole. cbn.
  rewrite task_state_round_trip. cbn. rewrite task_state_round_trip.
  destruct (fit_sizes s) as [-> ->]; [by split_and!|]. unfold remote_view. by rewrite Hrole.
Qed.

Lemma owner_upserts now s o : owner_ok o -> fits_owner n s ->
  let o' := upsert n (remote_view n s) (prune_expired_offline_nodes now o) in
  owner_call order now (UpsertSession n (remote_view n s)) o = (Ok tt, o') /\ owner_ok o' /\
  keeps_others n (session_id (address s)) o o' /\ shown (session_id (address s)) (Some s) o'.
Proof.
  intros Ho Hs o'. assert (Hc : command_ok (UpsertSession n (remote_view n s))) by apply Hs.
  rewrite (call_is_direct order Horder) by done.
  destruct (upsert_keeps n (remote_view n s) (prune_expired_offline_nodes now o)) as (Hk & Hoff & x & Ex & Hx); [done|].
  split_and!; [done| | |].
  - apply (handle_ok order now (UpsertSession n (remote_view n s)) (prune_expired_offline_nodes now o)); [done|]. by apply prune_ok.
  - eapply keeps_trans; [apply prune_keeps|exact Hk].
  - split; [done|]. by exists x.
Qed.

Lemma owner_removes now s o : owner_ok o -> fits_owner n s ->
  let sid := session_id (address s) in
  exists o', owner_call order now (RemoveSession n n sid) o = (Ok tt, o') /\ owner_ok o' /\ keeps_others n sid o o' /\ shown sid None o'.
Proof.
  intros Ho Hs sid. assert (Hc : command_ok (RemoveSession n n sid)) by (split_and!; [done|done|apply Hs]).
  rewrite (call_is_direct order Horder) by done. eexists. split; [done|].
  destruct (remove_keeps order n now sid (prune_expired_offline_nodes now o)) as [Hk Hnone].
  split_and!; [apply handle_ok; [done|by apply prune_ok]| |done].
  eapply keeps_trans; [apply prune_keeps|exact Hk].
Qed.

(** Signals leave the owner alone. *)
Lemma signals_owner sh' target sockets p : pb_owner (signal_remote_target_exited_to_live_workspaces sh' sockets target p) = pb_owner p.
Proof.
  unfold signal_remote_target_exited_to_live_workspaces. revert p. induction sockets as [|x l IH]; intros p; [done|]. cbn. rewrite IH.
  unfold signal_remote_target_exited. by case_match.
Qed.

Lemma refresh_owner sh' sockets p : pb_owner (refresh_live_workspaces sh' sockets p) = pb_owner p.
Proof.
  unfold refresh_live_workspaces. revert p. induction sockets as [|x l IH]; intros p; [done|]. cbn. rewrite IH.
  unfold refresh_workspace_socket. by case_match.
Qed.

Lemma apply_published now s m payload p : env_sender_id m = n -> env_payload m = TargetPublished payload ->
  published_remote_target_record_from_payload n payload = Ok (remote_view n s) -> owner_ok (pb_owner p) -> fits_owner n s ->
  exists p', apply_discovered_remote_session_envelope order sh now n m p = (Ok tt, p') /\
    pb_owner p' = upsert n (remote_view n s) (prune_expired_offline_nodes now (pb_owner p)).
Proof.
  intros Es Ep Er Ho Hs. unfold apply_discovered_remote_session_envelope, apply_for_sockets. rewrite Es, Ep, Er.
  assert (Hp : is_publishable_discovered_remote_session (remote_view n s) = true).
  { unfold is_publishable_discovered_remote_session, is_target_host. cbn. destruct Hs as (_ & -> & _). done. }
  rewrite Hp. unfold signal_remote_runtime_owner_upsert, owner_signal.
  destruct (owner_upserts now s (pb_owner p) Ho Hs) as [-> _]. eexists. split; [reflexivity|].
  case_match; [done|]. by rewrite refresh_owner.
Qed.

Lemma apply_exited now s m payload sockets p : env_payload m = TargetExited payload ->
  exited_transport_session_id payload = session_id (address s) -> owner_ok (pb_owner p) -> fits_owner n s ->
  exists p', apply_for_sockets order sh now n m sockets p = (Ok tt, p') /\ owner_ok (pb_owner p') /\
    keeps_others n (session_id (address s)) (pb_owner p) (pb_owner p') /\ shown (session_id (address s)) None (pb_owner p').
Proof.
  intros Ep Es Ho Hs. unfold apply_for_sockets. rewrite Ep, Es. unfold signal_remote_runtime_owner_remove, owner_signal.
  destruct (owner_removes now s (pb_owner p) Ho Hs) as (o' & -> & Hok & Hk & Hsh). eexists. split; [reflexivity|].
  assert (E : forall q, pb_owner q = o' -> pb_owner match sockets with [] => q | _ => refresh_live_workspaces sh sockets q end = o').
  { intros q Eq. destruct sockets; [done|]. by rewrite refresh_owner. }
  rewrite E; [done|]. by rewrite !signals_owner.
Qed.

Lemma decide_revision r sid rev : rev <> 0 ->
  decision n inst (about sid) rev (rv_revisions r) =
  match applied r sid with Some v => if rev <=? v then Stale else Apply | None => Apply end.
Proof. intros Hr. unfold decision. rewrite bool_decide_false by done. by destruct (Z.eqb_spec rev 0). Qed.

Lemma mark_revision r sid rev : rev <> 0 -> (forall v, applied r sid = Some v -> v < rev) ->
  mark_applied n inst (about sid) rev (rv_revisions r) = <[(n, inst, about sid) := rev]> (rv_revisions r).
Proof.
  intros Hr Hv. unfold mark_applied. rewrite bool_decide_false by done. destruct (Z.eqb_spec rev 0); [done|]. cbn [orb].
  destruct (applied r sid) as [v|] eqn:E; [|done]. specialize (Hv v eq_refl). by rewrite Z.max_r by lia.
Qed.

(** Either the message is not newer, or its revision is above what is
    applied. *)
Lemma stale_or_newer r sid rev : (exists v, applied r sid = Some v /\ rev <= v) \/ (forall v, applied r sid = Some v -> v < rev).
Proof.
  destruct (applied r sid) as [v|]; [|by right]. destruct (Z.le_gt_cases rev v); [left; eauto|right; intros ? [= <-]; lia].
Qed.

Lemma published_follows old D r now s rev mid : following old D r -> fits_owner n s -> 0 < rev -> fits 64 rev ->
  let e := with_revision inst rev (remote_session_published_envelope (stamp mid) n inst mid s) in
  forall p, g_body e = Some (GPublished p) ->
  following old (D ++ [e]) (handle_target_published order debug_string error_text sh now n e p r).2.
Proof.
  intros Hf Hs H0 H64 e p Ep. assert (Hc : carried e (session_id (address s)) rev (Some s)) by (by constructor).
  destruct (fo_session _ _ _ Hf) as (a & Ha & Hfps).
  destruct (published_record now s rev mid Hs) as (p' & m & payload & Ep' & Em & Esd & Epl & Erec).
  fold e in Ep', Em. assert (p' = p) as -> by congruence.
  assert (Hp : gp_node_instance_id p = inst /\ gp_revision p = rev /\ gp_transport_session_id p = session_id (address s) /\
    default (gp_target_id p) (route_of route_target_id e) = about (session_id (address s))) by (by injection Ep as <-).
  destruct Hp as (E1 & E2 & E3 & E4). unfold handle_target_published. rewrite E1, E2, E3, E4, decide_revision by lia.
  destruct (stale_or_newer r (session_id (address s)) rev) as [(v & Ev & Hle)|Hnew].
  - rewrite Ev. destruct (Z.leb_spec rev v); [|lia]. cbn [snd].
    destruct (ack_sent now (about (session_id (address s))) rev GStaleRevision None r a) as (a' & -> & Hfa); [lia|done|].
    eapply following_stale; eauto.
  - assert (Ed : match applied r (session_id (address s)) with Some v => if rev <=? v then Stale else Apply | None => Apply end = Apply).
    { destruct (applied r (session_id (address s))) as [v|]; [|done]. specialize (Hnew v eq_refl). by destruct (Z.leb_spec rev v); [lia|]. }
    rewrite Ed, Ha. cbn [mbind option_bind]. rewrite bool_decide_false.
    2: { intros Efp. destruct (Hfps _ _ Efp) as (q & Eq & Hq & v & Ev & Hle).
         apply fingerprint_revision in Eq; [|by rewrite E2|done]. specialize (Hnew v Ev). lia. }
    rewrite Em. cbn [fmap option_fmap option_map rv_pub set_rv_session].
    destruct (apply_published now s m payload (rv_pub r) Esd Epl Erec (fo_owner _ _ _ Hf) Hs) as (pub & -> & Epub). cbn [snd].
    destruct (owner_upserts now s (owner_of r) (fo_owner _ _ _ Hf) Hs) as (_ & Hok & Hk & Hsh).
    cbn [rv_revisions set_rv_session set_rv_pub]. rewrite mark_revision by (done || lia).
    match goal with |- following _ _ (send_publication_ack _ _ _ ?t _ ?st ?msg ?r') =>
      destruct (ack_sent now t rev st msg r' _ ltac:(lia) eq_refl) as (a' & -> & Hfa) end.
    destruct pub as [o' ev]. cbn in Epub. subst o'. eapply following_step; [done|exact Hc|done| |done|done|done].
    exists a. split; [done|]. intros sid' f. rewrite Hfa. cbn. intros [[<- <-]|[_ E]]%lookup_insert_Some; [|by left].
    right. split; [done|]. exists p. by rewrite E2.
Qed.

Lemma bridge_keeps reach session target payload r a : rv_session r = Some a ->
  exists a' ds, bridge_output order reach n session target payload r = mkRecv (rv_pub r) (rv_revisions r) (Some a') ds /\
    published_fingerprints a' = published_fingerprints a.
Proof. intros Ha. unfold bridge_output. rewrite Ha. by do 2 eexists. Qed.

Lemma exited_follows old D r reach sockets now s rev mid : following old D r -> fits_owner n s -> 0 < rev -> fits 64 rev ->
  let e := with_revision inst rev (remote_session_exited_envelope (stamp mid) n inst mid (session_id (address s))) in
  forall p, g_body e = Some (GExited p) ->
  following old (D ++ [e]) (handle_target_exited order error_text sh reach sockets now n e p r).2.
Proof.
  intros Hf Hs H0 H64 e p Ep. assert (Hc : carried e (session_id (address s)) rev None) by (by constructor).
  destruct (fo_session _ _ _ Hf) as (a & Ha & Hfps).
  assert (Hp : ge_node_instance_id p = inst /\ ge_revision p = rev /\ ge_transport_session_id p = session_id (address s) /\
    default (ge_target_id p) (route_of route_target_id e) = about (session_id (address s))) by (by injection Ep as <-).
  destruct Hp as (E1 & E2 & E3 & E4). unfold handle_target_exited. rewrite E1, E2, E4, decide_revision by lia.
  destruct (stale_or_newer r (session_id (address s)) rev) as [(v & Ev & Hle)|Hnew].
  - rewrite Ev. destruct (Z.leb_spec rev v); [|lia]. cbn [snd].
    destruct (ack_sent now (about (session_id (address s))) rev GStaleRevision None r a) as (a' & -> & Hfa); [lia|done|].
    eapply following_stale; eauto.
  - assert (Ed : match applied r (session_id (address s)) with Some v => if rev <=? v then Stale else Apply | None => Apply end = Apply).
    { destruct (applied r (session_id (address s))) as [v|]; [|done]. specialize (Hnew v eq_refl). by destruct (Z.leb_spec rev v); [lia|]. }
    rewrite Ed.
    destruct (apply_exited now s (map_target_exited_envelope now n e p)
      (mkTargetExited (ge_transport_session_id p) (ge_node_instance_id p) (ge_revision p) None) sockets (rv_pub r))
      as (pub & -> & Hok & Hk & Hsh); [done|done|apply Hf|done|]. cbn [snd].
    cbn [rv_revisions set_rv_pub]. rewrite mark_revision by (done || lia).
    match goal with |- context [send_publication_ack _ _ _ ?t _ ?st ?msg ?r'] =>
      destruct (ack_sent now t rev st msg r' a ltac:(lia) Ha) as (a' & -> & Hfa) end.
    match goal with |- context [bridge_output _ ?re _ ?x ?t ?pl ?r'] =>
      destruct (bridge_keeps re x t pl r' a' eq_refl) as (a2 & ds & -> & Hfb) end.
    cbn [rv_pub rv_revisions set_rv_session set_rv_revisions set_rv_pub]. destruct pub as [o' ev]. cbn in Hok, Hk, Hsh.
    eapply following_step; [done|exact Hc|done| |done|done|done].
    exists a. split; [done|]. intros sid' f. rewrite Hfb, Hfa. by left.
Qed.

Lemma route_follows old D r e sid rev w reach sockets now : following old D r -> carried e sid rev w -> 0 < rev -> fits 64 rev ->
  following old (D ++ [e]) (route_transport_envelope order debug_string error_text sh reach sockets now n e r).2.
Proof.
  intros Hf Hc H0 H64. unfold route_transport_envelope. destruct Hc as [mid rev s Hs|mid rev s Hs].
  - destruct (published_record now s rev mid Hs) as (p & m & payload & Ep & _). rewrite Ep. by apply published_follows.
  - eapply exited_follows; done.
Qed.

(** ** The server handles the messages of a connection *)

Context (conn : string).

(** At a time, a message, and which bridges take what is passed on. *)
Definition receive (g : Ingress) (d : Z * GrpcEnvelope * (string -> bool)) : Ingress :=
  let '(now, e, reach) := d in
  handle_transport_event stamp order debug debug_string error_text sh now (EnvelopeReceived n conn e reach) g.

Definition connected (g : Ingress) : Prop := (conn ∉ ig_closed g) /\ is_Some (ig_sessions g !! conn).

Lemma receive_follows old D g now e reach sid rev w : connected g -> following old D (recv_of conn g) -> carried e sid rev w ->
  0 < rev -> fits 64 rev ->
  connected (receive g (now, e, reach)) /\ following old (D ++ [e]) (recv_of conn (receive g (now, e, reach))).
Proof.
  intros [Hcl Hse] Hf Hc H0 H64. cbn [receive handle_transport_event]. unfold handle_envelope_received.
  rewrite bool_decide_false by done.
  assert (Er : grpc_create_session_reply_request_id e = None /\ is_authority_body e = false) by (by destruct Hc).
  destruct Er as [-> ->]. cbn [fmap option_fmap option_map].
  pose proof (route_follows old D (recv_of conn g) e sid rev w reach (order string (elements (ig_sockets g))) now Hf Hc H0 H64) as Hf'.
  destruct (route_transport_envelope _ _ _ _ _ _ _ _ _ _) as [res r']. cbn [snd] in *.
  destruct (fo_session _ _ _ Hf') as (a & Ha & _).
  assert (Erc : recv_of conn (with_recv conn r' g) = r').
  { unfold recv_of, with_recv. cbn. rewrite Ha, lookup_insert_eq. destruct r'; cbn in *. by subst. }
  split; [|by rewrite Erc]. split; [done|]. unfold with_recv. cbn. rewrite Ha, lookup_insert_eq. by eexists.
Qed.

Lemma receive_all old D ds g : connected g -> following old D (recv_of conn g) ->
  Forall (fun d => exists sid rev w, carried d.1.2 sid rev w /\ 0 < rev /\ fits 64 rev) ds ->
  following old (D ++ ds.*1.*2) (recv_of conn (foldl receive g ds)).
Proof.
  intros Hg Hf Hd. revert D g Hg Hf. induction Hd as [|[[now e] reach] ds (sid & rev & w & Hc & H0 & H64) Hds IH]; intros D g Hg Hf.
  - cbn. by rewrite app_nil_r.
  - destruct (receive_follows old D g now e reach sid rev w Hg Hf Hc H0 H64) as [Hg' Hf']. cbn [foldl fmap list_fmap fst snd].
    replace (D ++ e :: ds.*1.*2) with ((D ++ [e]) ++ ds.*1.*2) by (by rewrite <- app_assoc). by apply IH.
Qed.
End receive.

(** ** The source and the receiver together *)

Section together.
Context `{JsonValue} (stamp : Z -> Timestamp) (order : forall A, list A -> list A) (debug : Body -> string)
  (debug_string : string -> string) (error_text : publication_error -> string).
Context (Horder : forall A (l : list A), order A l ≡ₚ l).
Context (sh : Shared) (n inst auth conn : string) (Hinst : inst <> EmptyString) (Hn : is_text n).

Abbreviation about := (remote_peer_target n).
Abbreviation key sid := (peer_key n n sid).

Abbreviation revision s sid := (latest_revision (tracked_at n sid (sy_tracker s))).

(** The source is between two connections, and the receiver knows of no
    session that the source does not take for published. *)
Record in_step (B : Z) (s : Sync) (g : Ingress) : Prop := {
  in_ready : ready n auth B (fun sid => revision s sid) (fits_owner n) s;
  in_positive sid : 0 <= revision s sid;
  in_owner : owner_ok (pb_owner (ig_pub g));
  in_applied sid v : ig_revisions g !! (n, inst, about sid) = Some v -> v <= revision s sid;
  in_known k x : records (pb_owner (ig_pub g)) !! k = Some x -> or_node_id x = n \/ (exists sid, k = key sid) ->
    exists sid, k = key sid /\ is_Some (sy_published s !! local_key auth sid) }.

(** The receiver has the sessions of the source's catalog, as it has them. *)
Definition mirrors (s : Sync) (g : Ingress) : Prop := forall sid,
  or_session <$> records (pb_owner (ig_pub g)) !! key sid = remote_view n <$> sy_observed s !! local_key auth sid.

(** A message determines what a peer records. *)
Lemma carries_same e sid rev w sid' rev' w' :
  carries stamp n inst (fits_owner n) e sid rev w -> carries stamp n inst (fits_owner n) e sid' rev' w' ->
  sid = sid' /\ rev = rev' /\ remote_view n <$> w = remote_view n <$> w'.
Proof.
  intros H1 H2. pose proof (carries_names _ _ _ _ _ _ _ H1) as E. rewrite (carries_names _ _ _ _ _ _ _ H2) in E.
  injection E as -> ->. split_and!; [done|done|].
  assert (Hv : forall sid rev w, carries stamp n inst (fits_owner n) e sid rev w -> remote_view n <$> w =
    match g_body e with
    | Some (GPublished p) =>
        match map_target_published_envelope 0 n e p with
        | Ok m => match env_payload m with
            | TargetPublished payload => match published_remote_target_record_from_payload n payload with Ok s => Some s | Err _ => None end
            | _ => None
            end
        | Err _ => None
        end
    | _ => None
    end).
  { intros sid0 rev0 w0 []; [|done]. destruct (published_record stamp n inst 0 s rev1 mid) as (p & m & payload & -> & -> & _ & -> & ->); done. }
  by rewrite (Hv _ _ _ H1), (Hv _ _ _ H2).
Qed.

Lemma shown_view sid w w' o : remote_view n <$> w = remote_view n <$> w' -> shown n sid w o -> shown n sid w' o.
Proof.
  destruct w as [s|], w' as [s'|]; [|done..]. intros E%(inj Some) (Ho & r & Er & En & Es). split; [done|]. exists r. by rewrite Es.
Qed.

(** The server is given the messages of the connection, each at least once, in
    any order. *)
Lemma delivered_follows B cur s c g a ds :
  in_step B s g -> ig_sessions g !! conn = Some a -> published_fingerprints a = ∅ -> (conn ∉ ig_closed g) ->
  told stamp n inst auth B (fun sid => revision s sid) (sy_published s) (fits_owner n) cur c ->
  (forall e, e ∈ ds.*1.*2 <-> e ∈ link_sent (ch_link c)) -> B + Z.of_nat (length (link_sent (ch_link c))) < 2 ^ 64 ->
  following stamp debug_string n inst (fun sid => revision s sid) (fun sid => is_Some (sy_published s !! local_key auth sid))
    (ds.*1.*2) (recv_of conn (foldl (receive stamp order debug debug_string error_text sh n conn) g ds)).
Proof.
  intros Hst Ha Hfp Hcl Ht Hds Hb.
  apply (receive_all stamp order debug debug_string error_text Horder sh n inst Hinst Hn _ conn _ [] ds g).
  - split; [done|by eexists].
  - constructor; cbn [recv_of rv_session rv_pub rv_revisions].
    + exists a. split; [done|]. rewrite Hfp. apply map_Forall_empty.
    + apply Hst.
    + intros e sid rev w []%not_elem_of_nil.
    + intros sid v Hv. left. by apply (in_applied _ _ _ Hst).
    + intros k x Ek Hx. destruct (in_known _ _ _ Hst k x Ek Hx) as (sid & -> & Hp). eauto.
  - apply Forall_forall. intros d Hd.
    assert (He : d.1.2 ∈ link_sent (ch_link c)) by (apply Hds; by do 2 apply list_elem_of_fmap_2).
    destruct (told_sent _ _ _ _ _ _ _ _ _ _ Ht _ He) as (sid & rev & w & Hc & Hr & _). exists sid, rev, w.
    pose proof (told_bound _ _ _ _ _ _ _ _ _ _ Ht sid). pose proof (in_positive _ _ _ Hst sid). cbn beta in *.
    split_and!; [done|lia|]. unfold fits. lia.
Qed.

(** What the receiver then has is what was said last. *)
Lemma following_settles B cur s c r D sid :
  (forall sid, 0 <= revision s sid) ->
  told stamp n inst auth B (fun sid => revision s sid) (sy_published s) (fits_owner n) cur c ->
  (forall e, e ∈ D <-> e ∈ link_sent (ch_link c)) ->
  following stamp debug_string n inst (fun sid => revision s sid) (fun sid => is_Some (sy_published s !! local_key auth sid)) D r ->
  match cur !! sid with
  | Some w => rv_revisions r !! (n, inst, about sid) = Some (latest_revision (tracked_at n sid (ch_tracker c))) /\
      shown n sid w (pb_owner (rv_pub r))
  | None => forall v, rv_revisions r !! (n, inst, about sid) = Some v -> v <= revision s sid
  end.
Proof.
  intros Hpos Ht HD Hf. destruct (cur !! sid) as [w|] eqn:Ew.
  - destruct (told_last _ _ _ _ _ _ _ _ _ _ Ht sid w Ew) as (Hl & e & He & Hc).
    destruct (fo_seen _ _ _ _ _ _ _ _ Hf e sid _ w ltac:(by apply HD) Hc) as (v & Ev & Hle).
    destruct (fo_shown _ _ _ _ _ _ _ _ Hf sid v Ev) as [Hb|(e' & w' & He' & Hc' & Hs)]; [cbn beta in *; lia|].
    destruct (told_sent _ _ _ _ _ _ _ _ _ _ Ht e' ltac:(by apply HD)) as (sid1 & rev1 & w1 & Hc1 & Hr1 & _ & Hw1).
    destruct (carries_same _ _ _ _ _ _ _ Hc' Hc1) as (<- & <- & Hv).
    assert (v = latest_revision (tracked_at n sid (ch_tracker c))) as -> by lia.
    specialize (Hw1 eq_refl). rewrite Ew in Hw1. injection Hw1 as <-. split; [done|]. by eapply shown_view.
  - intros v Ev. destruct (fo_shown _ _ _ _ _ _ _ _ Hf sid v Ev) as [Hb|(e' & w' & He' & Hc' & Hs)]; [done|].
    destruct (told_sent _ _ _ _ _ _ _ _ _ _ Ht e' ltac:(by apply HD)) as (sid1 & rev1 & w1 & Hc1 & _ & [w2 Hw] & _).
    destruct (carries_same _ _ _ _ _ _ _ Hc' Hc1) as (<- & _). congruence.
Qed.

(** Settled on what was said, the two are in step. *)
Lemma settled B cur s s' g :
  shape auth (sy_published s) (fits_owner n) cur s' -> (forall sid, 0 <= revision s sid) ->
  told stamp n inst auth B (fun sid => revision s sid) (sy_published s) (fits_owner n) cur (chan inst s') ->
  forall D, (forall e, e ∈ D <-> e ∈ link_sent (ch_link (chan inst s'))) ->
  following stamp debug_string n inst (fun sid => revision s sid) (fun sid => is_Some (sy_published s !! local_key auth sid)) D (recv_of conn g) ->
  mirrors s' g /\ in_step (B + Z.of_nat (length (link_sent (ch_link (chan inst s'))))) s' g.
Proof.
  intros Hsh Hpos Ht D HD Hf. pose proof Hsh as (_ & _ & Hag & Hsp & Epo).
  pose proof (fun sid => following_settles B cur s _ _ D sid Hpos Ht HD Hf) as Hse.
  pose proof (fun sid => told_bound _ _ _ _ _ _ _ _ _ _ Ht sid) as Hbd. cbn [chan ch_tracker] in Hse, Hbd.
  assert (Hcur : forall k x, records (pb_owner (ig_pub g)) !! k = Some x -> or_node_id x = n \/ (exists sid, k = key sid) ->
    exists sid, k = key sid /\ is_Some (sy_published s' !! local_key auth sid)).
  { intros k x Ek Hx. destruct (fo_only _ _ _ _ _ _ _ _ Hf k x Ek Hx) as (sid & -> & Hs). exists sid. split; [done|].
    assert (is_Some (cur !! sid)) as [w Ew].
    { destruct Hs as [Hs|(e & rev & w & He & Hc)]; [by apply Hsp|].
      destruct (told_sent _ _ _ _ _ _ _ _ _ _ Ht e ltac:(by apply HD)) as (sid1 & rev1 & w1 & Hc1 & _ & Hw & _).
      by destruct (carries_same _ _ _ _ _ _ _ Hc Hc1) as (<- & _). }
    specialize (Hse sid). rewrite Ew in Hse. destruct Hse as [_ Hse]. destruct w as [y|].
    - apply Hag in Ew. by eexists.
    - cbn in Hse. congruence. }
  split.
  - intros sid. rewrite <- Epo. destruct (sy_published s' !! local_key auth sid) as [y|] eqn:Ey.
    + apply Hag in Ey. specialize (Hse sid). rewrite Ey in Hse. destruct Hse as (_ & _ & x & Ex & _ & Hx).
      cbn in Ex. rewrite Ex. cbn. by rewrite Hx.
    + destruct (records (pb_owner (ig_pub g)) !! key sid) as [x|] eqn:Ex; [|done].
      destruct (Hcur _ x Ex) as (sid' & Ek & [y Hy]); [by right; exists sid|]. apply key_inj in Ek as <-. congruence.
  - constructor; [by eapply connection_leaves_ready| |apply Hf| |done].
    + intros sid. specialize (Hbd sid). specialize (Hpos sid). cbn beta in *. lia.
    + intros sid v Ev. specialize (Hse sid). specialize (Hbd sid). cbn beta in *. destruct (cur !! sid) as [w|].
      * destruct Hse as [E _]. cbn in E. rewrite Ev in E. injection E as ->. lia.
      * specialize (Hse v Ev). lia.
Qed.

(** C37. The receiver follows the source. A source that is in step with a
    receiver opens a connection whose sends succeed, publishes its baseline
    and then, through any sequence of catalog changes, acknowledgements and
    retries, what changes. Its catalog is then the one it read last; and when
    the receiver has handled every message of the connection, in any order and
    any number of times, its owner holds exactly the sessions of that catalog,
    with the attributes the source has for them, and the two are in step for
    the next connection. The sessions are hosted targets whose fields the
    line protocol of the owner carries ([fits_owner]). *)
Theorem receiver_follows_the_source B now l read evs s g a :
  in_step B s g -> ig_sessions g !! conn = Some a -> published_fingerprints a = ∅ -> (conn ∉ ig_closed g) ->
  link_up inst l -> link_sent l = [] -> read_ok auth (fits_owner n) read -> Forall (fun te => quiet auth (fits_owner n) te.2) evs ->
  exists s' l', sync_run stamp order debug n ((now, SyncOpened l read) :: evs) s = (false, s') /\ sy_active s' = Some l' /\
    sy_observed s' = last_read debug ((now, SyncOpened l read) :: evs) (sy_observed s) /\
    let B' := B + Z.of_nat (length (link_sent l')) in
    (B' < 2 ^ 64 -> forall ds, (forall e, e ∈ ds.*1.*2 <-> e ∈ link_sent l') ->
     let g' := foldl (receive stamp order debug debug_string error_text sh n conn) g ds in
     mirrors s' g' /\ in_step B' s' g').
Proof.
  intros Hst Ha Hfp Hcl Hl Hls Hrd Hq.
  destruct (connection_tells stamp order debug Horder n inst auth B (fun sid => revision s sid) (in_positive _ _ _ Hst)
    (sy_published s) (fits_owner n) now l read evs s (in_ready _ _ _ Hst) eq_refl Hl Hls Hrd Hq)
    as (s' & cur & Er & (l' & Hac & Hl') & Hsh & Ht).
  exists s', l'. split_and!; [done|done| |].
  { eapply connection_reads; [|exact Er]. eapply Forall_impl; [exact Hq|]. intros [t ev] Hte E. cbn in *. by subst. }
  intros B' Hb ds Hds g'. unfold in_bounds in Ht. assert (El : ch_link (chan inst s') = l') by (unfold chan; by rewrite Hac).
  rewrite El in Ht. specialize (Ht Hb).
  assert (Hf := delivered_follows B cur s (chan inst s') g a ds Hst Ha Hfp Hcl Ht ltac:(by rewrite El) ltac:(by rewrite El)).
  unfold B'. rewrite <- El. eapply settled; [done|apply Hst|done| |exact Hf]. by rewrite El.
Qed.

End together.

(** ** A laboratory *)

#[local] Existing Instance text_json.

Definition lab_local (id : string) (command : string) : ManagedSessionRecord :=
  mkManagedSessionRecord (local "local#7474" id) None Online None None (Some TargetHost) [] 0 1 (Some command) None None None Input.

Definition lab_server (a : ActiveNodeIngressSession) : Ingress :=
  mkIngress {["c1"%string := a]} ∅ ∅ ∅ false ∅ ∅ ∅ ∅ (mkPublication new_owner []) [] [].

Definition lab_ingress : Ingress := lab_server (mkActive "lab#7474" "c1" ∅ ∅ new_sync 0).

Definition lab_link : Link := mkLink "c1" (fun _ => true) [].

Definition lab_receive := receive (fun z => mkTimestamp z 0) in_order (fun _ => EmptyString) (fun s => s) (fun _ => EmptyString)
  (mkShared 7575 "hub#7575" ∅) "lab#7474" "c1".

Lemma lab_fits : fits_owner "lab#7474" (lab_local "1" "sh").
Proof. split_and!; [exact lab_row_ok|done|]. split; [by apply (text_of "1" (lit "1"))|]. by exists [], 49. Qed.

Lemma receiver_follows_the_source_witness :
  let s := new_sync in let evs := [(1, SyncRetryDue); (2, SyncCatalogChanged (LocalTargetExited "1") (Some []))] in
  exists s' l', sync_run (fun z => mkTimestamp z 0) in_order (fun _ => EmptyString) "lab#7474"
      ((0, SyncOpened lab_link (Some [lab_local "1" "sh"])) :: evs) s = (false, s') /\ sy_active s' = Some l' /\ sy_observed s' = ∅ /\
    let B' := 0 + Z.of_nat (length (link_sent l')) in
    (B' < 2 ^ 64 -> forall ds, (forall e, e ∈ ds.*1.*2 <-> e ∈ link_sent l') ->
     let g' := foldl lab_receive lab_ingress ds in
     mirrors "lab#7474" "local#7474" s' g' /\ in_step "lab#7474" "c1" "local#7474" B' s' g').
Proof.
  intros s evs.
  refine (receiver_follows_the_source (fun z => mkTimestamp z 0) in_order (fun _ => EmptyString) (fun s => s) (fun _ => EmptyString)
    (fun _ _ => Permutation_refl _) (mkShared 7575 "hub#7575" ∅) "lab#7474" "c1" "local#7474" "c1" _ _ 0 0 lab_link _ evs s lab_ingress
    (mkActive "lab#7474" "c1" ∅ ∅ new_sync 0) _ eq_refl eq_refl _ _ eq_refl _ _);
    [done|by apply (text_of _ (lit "lab#7474"))| |apply not_elem_of_empty|done| |].
  - by constructor.
  - intros x [= <-]. constructor; [|constructor]. intros _. split; [done|apply lab_fits].
  - repeat constructor. by intros x [= <-].
Defined.

(** ** Where publishing does not do what it means to *)

Definition lab_published (revision : Z) (s : ManagedSessionRecord) : GrpcEnvelope :=
  with_revision "c1" revision (remote_session_published_envelope (mkTimestamp 0 0) "lab#7474" "c1" revision s).

(** The statuses of the acknowledgements sent on the connection. *)
Definition lab_acks (g : Ingress) : list Z :=
  omap (fun e => match g_body e with Some (GPublicationAck p) => Some (ga_status p) | _ => None end)
    (default [] (link_sent <$> (ig_sessions g !! "c1"%string ≫= fun a => sy_active (an_sync a)))).

Definition lab_linked : Ingress := lab_server (mkActive "lab#7474" "c1" ∅ ∅ (set_sy_active (Some lab_link) new_sync) 0).

(** The owner is down when a publication comes in; it is up again when the
    source, told of the failure, sends the publication again. The fingerprint
    of the first attempt is still there: the second is acknowledged as
    applied, and the session is recorded nowhere. *)
Lemma failed_publication_is_acknowledged_as_applied :
  let e := lab_published 1 (lab_local "1" "sh") in
  let down := set_ig_pub (mkPublication (unbind new_owner) []) lab_linked in
  let first := lab_receive down (0, e, fun _ => true) in
  let second := lab_receive (set_ig_pub (mkPublication new_owner []) first) (500, e, fun _ => true) in
  lab_acks second = [ack_status_i32 GFailed; ack_status_i32 GApplied] /\ records (pb_owner (ig_pub second)) = ∅.
Proof. split; by vm_compute. Qed.

(** The exit of a session is sent, the link breaks before it arrives, and the
    next connection opens: the baseline says nothing of the session, and the
    publication that is still waiting for its acknowledgement is never due. *)
Lemma lost_exit_is_not_repeated :
  let run := sync_run (fun z => mkTimestamp z 0) in_order (fun _ => EmptyString) "lab#7474" in
  let s1 := (run [(0, SyncOpened lab_link (Some [lab_local "1" "sh"])); (1, SyncCatalogChanged (LocalTargetExited "1") (Some []));
     (2, SyncClosed)] new_sync).2 in
  let s := (run [(3, SyncOpened (mkLink "c2" (fun _ => true) []) (Some []))] (sync_disconnected Elapsed s1)).2 in
  let r := tracked_at "lab#7474" "1" (sy_tracker s) in
  (link_sent <$> sy_active s) = Some [] /\ (pn_revision <$> pending r) = Some 2 /\
  next_retry_delay in_order 1000000 (sy_tracker s) = None /\ due_retry_publications in_order 1000000 (sy_tracker s) = [].
Proof. split_and!; by vm_compute. Qed.

(** An exit without a session id takes the owner's socket away. *)
Lemma nameless_exit_unbinds_the_owner :
  let e := with_revision "c1" 1 (remote_session_exited_envelope (mkTimestamp 0 0) "lab#7474" "c1" 1 EmptyString) in
  pb_owner (ig_pub (lab_receive lab_linked (0, e, fun _ => true))) = unbind new_owner.
Proof. by vm_compute. Qed.
