(* ===== verification/NodeDefects.v ===== *)
(** * Node defects: where the state loop does not do what it means to

    Short runs of [StateLoop] from an empty node, in the environment [calm] in
    which everything succeeds, whose outcome is not the documented one. *)

From S2P Require Import Prelude Bytes Text SessionCatalog AgentDetector Keys RemoteSession HostIo NodeTypes NodeState StateLoop NodeFrame NodeInvariant NodeWorkers Workers.

#[local] Open Scope Z_scope.

Definition run_calm (es : list (Ev.StateEvent (H := text_json))) (l : Loop) : Loop :=
  run_events (H := ascii_text) (map (pair calm) es) l.

Definition fresh_loop : Loop := loop_start empty_node [].

Definition command (c : Z) (cmd : Cmd.ClientCommand) : Ev.StateEvent (H := text_json) := Ev.ClientCommand c cmd.

(** ** Clients *)

(** Detaching all clients sets their number to zero, and each client that is
    disconnected by it is subtracted once more: the number wraps. *)
Lemma detached_clients_are_subtracted_twice :
  nd_client_count (lp_node (run_calm
    [Ev.ClientConnected 1; command 1 Cmd.DetachAll; Ev.ClientDisconnected 1] fresh_loop)) = 2 ^ 64 - 1.
Proof. by vm_compute. Qed.

(** One of two clients leaves, and the console both use is unregistered. *)
Lemma leaving_client_takes_the_console :
  let l := run_calm [Ev.ClientConnected 1; Ev.ClientConnected 2; Ev.CreateAuthorityHostSession "q" 80 24;
                     Ev.ClientDisconnected 1] fresh_loop in
  connected_clients l = {[2]} /\
  last (sent HostRequests (lp_node l)) = Some (ToHostIo (UnregisterConsole "1" "local")).
Proof. split; [|by vm_compute]. apply leibniz_equiv. by vm_compute. Qed.

(** ** Sizes *)

(** A session created after the client has reported its size is started with
    80 columns and 24 rows and not resized, not even when the client reports
    its size again. *)
Lemma new_session_ignores_the_client_size :
  let l := run_calm [Ev.ClientConnected 1; command 1 (Cmd.Resize 120 40); command 1 (Cmd.CreateLocalSession None);
                     command 1 (Cmd.Resize 120 40); command 1 (Cmd.ActivateTarget "local#7474:1")] fresh_loop in
  nd_last_client_resize (lp_node l) = Some (120, 40) /\ nd_active_target (lp_node l) = Some "local#7474:1" /\
  nd_local_sessions (lp_node l) !! "local#7474:1" = Some (new_shell 80 24).
Proof. split_and!; try by vm_compute. Qed.

(** ** The active session *)

(** A session in the background ends, and another one than the active is
    shown. *)
Lemma background_exit_moves_the_active_session :
  let l := run_calm [command 1 (Cmd.CreateLocalSession None); command 1 (Cmd.CreateLocalSession None);
                     command 1 (Cmd.CreateLocalSession None); command 1 (Cmd.ActivateTarget "local#7474:2")] fresh_loop in
  nd_active_target (lp_node l) = Some "local#7474:2" /\
  nd_active_target (lp_node (run_calm [Ev.LocalSessionChildExit "local#7474:1"] l)) = Some "local#7474:3".
Proof. by split; vm_compute. Qed.

(** The session [lab#7474:1] of a peer is activated, and the session [1] that
    this node hosts is resized. *)
Lemma remote_activation_resizes_a_hosted_session :
  let l := run_calm [Ev.CreateAuthorityHostSession "q" 80 24; Ev.RemoteSessionCatalogUpdated lab_record;
                     command 1 (Cmd.ActivateTarget "lab#7474:1")] fresh_loop in
  nd_active_target (lp_node l) = Some "lab#7474:1" /\
  last (sent HostRequests (lp_node l)) = Some (ToHostIo (HostIo.Resize "1" "local" 80 24)).
Proof. by split; vm_compute. Qed.

(** ** The catalog *)

Definition imposter : ManagedSessionRecord :=
  mkManagedSessionRecord (remote_peer "local#7474" "1") None Offline None None None [] 0 1 (Some "sh") None None None Input.

(** A published record with the address of a local session replaces the
    local session's state. *)
Lemma local_record_is_overwritten :
  let l := run_calm [command 1 (Cmd.CreateLocalSession None); Ev.RemoteSessionCatalogUpdated imposter] fresh_loop in
  (fun r => (is_local r, availability r)) <$> nd_sessions (lp_node l) !! "local#7474:1" = Some (true, Offline).
Proof. by vm_compute. Qed.

(** The terminal of a hosted session cannot be registered: the request is
    refused, and a session without a terminal stays in the catalog, on line
    and active. *)
Definition no_clone : Env := {|
  env_pid := 7; env_now := 1; env_io := Taken; shuffle := fun _ l => l; listening := fun _ => true;
  env_shell := None; spawn_local := fun cols rows _ => Ok (new_shell cols rows);
  spawn_host := Ok (mkPty [] 80 24); clone_host := false; open_remote := Ok tt;
  clipboard_file := Ok EmptyString; env_file_id := "f1"; env_instant := 10000; uptime_secs := 5;
  link_credentials := true; store_load := true; store_save := None; env_timestamp := "t" |}.

Lemma refused_session_stays_in_the_catalog :
  let l := handle_event (H := ascii_text) (H0 := text_json) no_clone (Ev.CreateAuthorityHostSession "q" 80 24) fresh_loop in
  sent CreateReplies (lp_node l) = [CreateReply "q" (Err "failed to clone authority host pty master")] /\
  sent HostRequests (lp_node l) = [] /\ nd_active_target (lp_node l) = Some "local#7474:1" /\
  availability <$> nd_sessions (lp_node l) !! "local#7474:1" = Some Online.
Proof. split_and!; by vm_compute. Qed.

(** ** Reconnection *)

Definition lab_viewer : RatatuiRemoteSession := session_open lab_record false.

(** A viewer whose session has been closed is adopted all the same: nothing
    in the catalog refers to it. *)
Lemma late_viewer_is_an_orphan :
  let l := run_calm [Ev.RemoteSessionCatalogUpdated lab_record; Ev.RemoteSessionDisconnected "lab#7474:1";
                     command 1 (Cmd.CloseSession "lab#7474:1"); Ev.RemoteSessionReconnected "lab#7474:1" lab_viewer] fresh_loop in
  nd_sessions (lp_node l) !! "lab#7474:1" = None /\ nd_remote_sessions (lp_node l) !! "lab#7474:1" = Some lab_viewer.
Proof. split; by vm_compute. Qed.

(** The viewer's new connection is lost again before the worker that made it
    reports it: the loss is ignored, because the session is still being
    reconnected, and then the dead viewer is adopted as on line, with no
    worker to reconnect it. *)
Lemma loss_during_reconnection_is_ignored :
  let l := run_calm [Ev.RemoteSessionCatalogUpdated lab_record; Ev.RemoteSessionDisconnected "lab#7474:1";
                     Ev.RemoteSessionDisconnected "lab#7474:1"; Ev.RemoteSessionReconnected "lab#7474:1" lab_viewer] fresh_loop in
  availability <$> nd_sessions (lp_node l) !! "lab#7474:1" = Some Online /\ reconnect_handles l !! "lab#7474:1" = None /\
  length (sent Workers (lp_node l)) = 1%nat.
Proof. split_and!; by vm_compute. Qed.

Definition lab_outcome : RemoteHostConnectedOutcome :=
  mkConnectedOutcome "lab#7474:1" "lab#7474" lab_record (Some lab_info) false None.

(** A node that could not be reached again is dropped with its sessions, but
    its saved connection is not used when the network is back: the record of
    its connection is still there. *)
Lemma failed_node_is_not_reconnected :
  let l := run_calm [command 1 (Cmd.ConnectRemoteHost "lab"); Ev.RemoteHostConnectResult 1 "lab" (Ok lab_outcome) true None;
                     Ev.RemoteNodeOffline "lab#7474"; Ev.RemoteNodeReconnectFailed "lab#7474"] fresh_loop in
  map se_authority_node_id (snapshots l) = ["lab#7474"] /\ nd_sessions (lp_node l) !! "lab#7474:1" = None /\
  sent Jobs (lp_node (run_calm [Ev.NetworkConnectivityChanged false; Ev.NetworkConnectivityChanged true;
                                Ev.ReconnectSnapshotHosts] l)) = sent Jobs (lp_node l).
Proof. split_and!; by vm_compute. Qed.

(** A node goes off line while one of its sessions is being reconnected. The
    worker of the session is cancelled, and a cancelled worker reports its
    session as closed: the session, which was to be kept as off line, is
    removed, the dialing of the node is stopped, and its saved connection is
    forgotten. *)
Lemma offline_node_loses_the_session_and_is_not_dialed :
  let l := run_calm [command 1 (Cmd.ConnectRemoteHost "lab"); Ev.RemoteHostConnectResult 1 "lab" (Ok lab_outcome) true None;
                     Ev.RemoteSessionDisconnected "lab#7474:1"; Ev.RemoteNodeOffline "lab#7474"] fresh_loop in
  let closed := run_calm [Ev.SessionClosed (Reconnect.target_id lab_record)] l in
  availability <$> nd_sessions (lp_node l) !! "lab#7474:1" = Some Offline /\
  is_Some (outbound_dial_retry_handles l !! "lab#7474") /\
  (exists id, StartWorker id (ReconnectWorker (with_availability Online lab_record) 80 24) ∈ sent Workers (lp_node l) /\
     StopWorker id ∈ sent Workers (lp_node l)) /\
  (forall turns, Reconnect.start calm lab_record 80 24 (Reconnect.mkTurn true Reconnect.OpenFailed Timeout :: turns) =
     ([Reconnect.SessionClosed (Reconnect.target_id lab_record)], true)) /\
  nd_sessions (lp_node closed) !! "lab#7474:1" = None /\ outbound_dial_retry_handles closed !! "lab#7474" = None /\
  snapshots closed = [].
Proof.
  split_and!; try by vm_compute.
  - eexists. by vm_compute.
  - exists 2. split; apply list_elem_of_In; vm_compute; tauto.
Qed.
