(* ===== verification/Capacity.v ===== *)
(** * Capacity: the relay's limits and its throughput meter

    [src/infra/relay_capacity.rs]. An [Instant] is a number of nanoseconds;
    the clock reads of one call are one instant [now], an argument. *)

From S2P Require Import Prelude.

Definition DEFAULT_MAX_NODES : Z := 1024.
Definition DEFAULT_MAX_STREAMS : Z := 4096.
Definition DEFAULT_MAX_THROUGHPUT_BYTES_PER_SEC : Z := 64 * 1024 * 1024.

Record RelayCapacityConfig := {
  max_nodes : Z;
  max_streams : Z;
  max_throughput_bytes_per_sec : Z;
}.

Definition default_capacity : RelayCapacityConfig :=
  {| max_nodes := DEFAULT_MAX_NODES; max_streams := DEFAULT_MAX_STREAMS;
     max_throughput_bytes_per_sec := DEFAULT_MAX_THROUGHPUT_BYTES_PER_SEC |}.

Record RelayUsage := {
  registered_nodes : Z;
  active_streams : Z;
  forwarded_bytes_per_sec : Z;
}.

Record UsageMeter := { meter_bytes : Z; window_started : Z }.

Definition new_meter (now : Z) : UsageMeter := {| meter_bytes := 0; window_started := now |}.

Definition SECOND : Z := 1000000000.

(** [Instant] subtraction saturates at zero. *)
Definition elapsed (since now : Z) : Z := Z.max 0 (now - since).

Definition refresh_window (now : Z) (m : UsageMeter) : UsageMeter :=
  if SECOND <=? elapsed (window_started m) now then new_meter now else m.

(** [fetch_add] on an [AtomicU64] wraps. *)
Definition record (now bytes : Z) (m : UsageMeter) : UsageMeter :=
  let m := refresh_window now m in
  {| meter_bytes := wrap 64 (meter_bytes m + bytes); window_started := window_started m |}.

Definition bytes_this_window (now : Z) (m : UsageMeter) : Z * UsageMeter :=
  let m := refresh_window now m in (meter_bytes m, m).

Inductive OpenAdmission := Allow | StreamsFull | ThroughputTooHigh.

Definition admit_open (now : Z) (c : RelayCapacityConfig) (active : Z) (m : UsageMeter)
    : OpenAdmission * UsageMeter :=
  if max_streams c <=? active then (StreamsFull, m)
  else
    let '(bytes, m) := bytes_this_window now m in
    (if max_throughput_bytes_per_sec c <=? bytes then ThroughputTooHigh else Allow, m).

Definition admit_register (c : RelayCapacityConfig) (registered : Z) : bool :=
  registered <? max_nodes c.
