(* ===== verification/ConnectionTable.v ===== *)
(** * ConnectionTable: the registry of live links

    [src/infra/relay_connection_table.rs]. The [Arc] cells an entry shares
    with its link ([last_seen], [next_relay_stream]) live in a store keyed by
    the connection id, because they are read and written after the table
    lock is released; [signalled] holds the connections whose [retire_rx]
    has changed, by a send or by the drop of the sender. The id counter is
    kept as the number of registrations; the id is its low 64 bits. *)

From S2P Require Import Prelude Bytes Frame Text Routing Capacity.

(** Nanoseconds. *)
Definition DEFAULT_OFFLINE_AFTER : Z := 30 * SECOND.
Definition DEFAULT_SWEEP_INTERVAL : Z := 1 * SECOND.
Definition DEFAULT_REGISTER_TIMEOUT : Z := 10 * SECOND.

Record RelayLifecycleConfig := {
  offline_after : Z;
  sweep_interval : Z;
  register_timeout : Z;
}.

Definition default_lifecycle : RelayLifecycleConfig :=
  {| offline_after := DEFAULT_OFFLINE_AFTER; sweep_interval := DEFAULT_SWEEP_INTERVAL;
     register_timeout := DEFAULT_REGISTER_TIMEOUT |}.

Inductive RelayLifecycleEvent :=
| Registered (node_id : string)
| Replaced (node_id : string)
| Unregistered (node_id : string)
| EvictedOffline (node_id : string).

Record ConnectionEntry := {
  entry_id : Z;                 (** [connection_id] *)
  outbound : ingress;
  labels : list string;
}.

(** The cells behind the entry's [Arc]s, and the link they were made for. *)
Record ConnectionCells := {
  last_seen : Z;
  next_relay_stream : Z;
  owner : ingress;
}.

Record RelayConnectionTable := {
  entries : gmap string ConnectionEntry;
  registrations : Z;
  cells : gmap Z ConnectionCells;
  signalled : gset Z;
}.

Definition empty_table : RelayConnectionTable :=
  {| entries := ∅; registrations := 0; cells := ∅; signalled := ∅ |}.

Record RoutingTarget := { target_connection : Z; target_outbound : ingress }.

Record RegisteredEntry := {
  registered_connection : Z;
  previous : option ConnectionEntry;
}.

Inductive LabelResolve :=
| Unique (node_id : string) (labels : list string)
| Ambiguous (count : Z)
| NoMatch.

Definition table_len (t : RelayConnectionTable) : Z := Z.of_nat (size (entries t)).

Definition with_entries (t : RelayConnectionTable) (es : gmap string ConnectionEntry)
    : RelayConnectionTable :=
  {| entries := es; registrations := registrations t; cells := cells t; signalled := signalled t |}.

(** The entry's [retire_tx] is sent [true] or dropped. *)
Definition retire_link (cid : Z) (t : RelayConnectionTable) : RelayConnectionTable :=
  {| entries := entries t; registrations := registrations t; cells := cells t;
     signalled := {[ cid ]} ∪ signalled t |}.

(** Nobody else can obtain the id between [fetch_add] and the insertion. *)
Definition register (now : Z) (node_id : string) (ob : ingress) (t : RelayConnectionTable)
    : RegisteredEntry * RelayConnectionTable :=
  let cid := wrap 64 (registrations t) in
  ({| registered_connection := cid; previous := entries t !! node_id |},
   {| entries := <[node_id := {| entry_id := cid; outbound := ob; labels := [] |}]> (entries t);
      registrations := registrations t + 1;
      cells := <[cid := {| last_seen := now; next_relay_stream := 2; owner := ob |}]> (cells t);
      signalled := signalled t |}).

Definition lookup_node (t : RelayConnectionTable) (node_id : string) : option RoutingTarget :=
  (fun e => {| target_connection := entry_id e; target_outbound := outbound e |})
    <$> entries t !! node_id.

(** [AtomicU32::fetch_add(2)] on the target's allocator. *)
Definition alloc_relay_stream (cid : Z) (t : RelayConnectionTable)
    : option (Z * RelayConnectionTable) :=
  match cells t !! cid with
  | None => None
  | Some c =>
      Some (next_relay_stream c,
            {| entries := entries t; registrations := registrations t;
               cells := <[cid := {| last_seen := last_seen c;
                                    next_relay_stream := wrap 32 (next_relay_stream c + 2);
                                    owner := owner c |}]> (cells t);
               signalled := signalled t |})
  end.

(** The two lock sections of [touch]: is the entry ours, then the write. *)
Definition touch_owns (t : RelayConnectionTable) (node_id : string) (cid : Z) : bool :=
  match entries t !! node_id with
  | Some e => entry_id e =? cid
  | None => false
  end.

Definition touch_cell (now cid : Z) (t : RelayConnectionTable) : RelayConnectionTable :=
  match cells t !! cid with
  | None => t
  | Some c =>
      {| entries := entries t; registrations := registrations t;
         cells := <[cid := {| last_seen := now; next_relay_stream := next_relay_stream c;
                              owner := owner c |}]> (cells t);
         signalled := signalled t |}
  end.

(** Removing the entry drops its sender. *)
Definition remove_if_current (node_id : string) (cid : Z) (t : RelayConnectionTable)
    : bool * RelayConnectionTable :=
  match entries t !! node_id with
  | Some e =>
      if entry_id e =? cid
      then (true, retire_link cid (with_entries t (delete node_id (entries t))))
      else (false, t)
  | None => (false, t)
  end.

(** The lock section of [retire_notifying]. *)
Definition take_entry (node_id : string) (t : RelayConnectionTable)
    : option ConnectionEntry * RelayConnectionTable :=
  (entries t !! node_id, with_entries t (delete node_id (entries t))).

Definition idle_for (now : Z) (t : RelayConnectionTable) (e : ConnectionEntry) : Z :=
  match cells t !! entry_id e with
  | Some c => elapsed (last_seen c) now
  | None => 0
  end.

(** The entries silent for [max_idle], removed, in the order the map yields
    its keys. *)
Fixpoint evict_idle (now max_idle : Z) (order : list string) (t : RelayConnectionTable)
    : list (string * ConnectionEntry) * RelayConnectionTable :=
  match order with
  | [] => ([], t)
  | node_id :: order =>
      match entries t !! node_id with
      | Some e =>
          if max_idle <=? idle_for now t e then
            let '(out, t1) := evict_idle now max_idle order (with_entries t (delete node_id (entries t))) in
            ((node_id, e) :: out, t1)
          else evict_idle now max_idle order t
      | None => evict_idle now max_idle order t
      end
  end.

Definition set_labels (node_id : string) (cid : Z) (ls : list string) (t : RelayConnectionTable)
    : RelayConnectionTable :=
  match entries t !! node_id with
  | Some e =>
      if entry_id e =? cid
      then with_entries t (<[node_id := {| entry_id := entry_id e; outbound := outbound e;
                                           labels := ls |}]> (entries t))
      else t
  | None => t
  end.

Definition snapshot (now : Z) (order : list string) (t : RelayConnectionTable)
    : list (string * Z * Z) :=
  omap (fun node_id =>
          (fun e => (node_id, entry_id e, idle_for now t e / 1000000)) <$> entries t !! node_id) order.

(** ** Labels *)

Definition normalize_label `{RustText} (label : string) : string :=
  let normalized := to_lowercase (trim label) in
  if (1 <? str_len normalized) && ends_with_dot normalized then pop normalized else normalized.

Definition labels_match `{RustText} (announced query : string) : bool :=
  let announced := normalize_label announced in
  let query := normalize_label query in
  if bool_decide (announced = EmptyString) || bool_decide (query = EmptyString) then false
  else if bool_decide (announced = query) then true
  else if parses_as_ip announced || parses_as_ip query then false
  else starts_with (query +:+ ".") announced || starts_with (announced +:+ ".") query.

Definition matching_nodes `{RustText} (label : string) (order : list string)
    (t : RelayConnectionTable) : list (string * list string) :=
  omap (fun node_id =>
          match entries t !! node_id with
          | Some e => if existsb (fun announced => labels_match announced label) (labels e)
                      then Some (node_id, labels e) else None
          | None => None
          end) order.

Definition resolve_label `{RustText} (label : string) (order : list string)
    (t : RelayConnectionTable) : LabelResolve :=
  match matching_nodes label order t with
  | [] => NoMatch
  | [(node_id, ls)] => Unique node_id ls
  | l => Ambiguous (len l)
  end.
