(* ===== verification/Presence.v ===== *)
(** * Presence: who watches whom

    [src/infra/relay_presence.rs]: the watchers map and the lock sections of
    the hub's methods. The frames a method sends after its lock section are
    sent by the callers' programs ([Relay]). *)

From S2P Require Import Prelude Bytes Frame Text Routing.

Section presence.
Context `{RustText}.

Definition add_watch (cid : Z) (target : string) (ob : ingress)
    (watchers : gmap string (gmap Z ingress)) : gmap string (gmap Z ingress) :=
  let target := to_lowercase target in
  <[target := <[cid := ob]> (default ∅ (watchers !! target))]> watchers.

(** [retain]: the connection leaves every interest map, empty ones are
    dropped. *)
Definition unwatch (cid : Z) (watchers : gmap string (gmap Z ingress))
    : gmap string (gmap Z ingress) :=
  omap (fun interests =>
          let interests := delete cid interests in
          if bool_decide (interests = ∅) then None else Some interests) watchers.

(** The senders a transition of [node_id] goes to, one per watching link;
    each frame goes to a queue of its own, so their order is immaterial. *)
Definition watchers_of (node_id : string) (watchers : gmap string (gmap Z ingress))
    : list ingress :=
  match watchers !! to_lowercase node_id with
  | Some interests => snd <$> map_to_list interests
  | None => []
  end.

Definition presence_frame (node_id : string) (online : bool) : frame :=
  FPresence (to_lowercase node_id) online.

(** A purged connection watches nothing, and nobody else is affected. *)
Lemma unwatch_lookup cid watchers target :
  match unwatch cid watchers !! target with
  | Some interests => interests !! cid = None
                      /\ exists old, watchers !! target = Some old /\ interests = delete cid old
  | None => forall old, watchers !! target = Some old -> delete cid old = ∅
  end.
Proof.
  unfold unwatch. rewrite lookup_omap.
  destruct (watchers !! target) as [old|]; simpl; [|done].
  case_bool_decide as E; [by intros ? [= <-]|]. split; [by rewrite lookup_delete_eq|eauto].
Qed.

End presence.
