(* ===== verification/Enrollment.v ===== *)
(** * Enrollment: invite tokens and the whitelist

    [src/infra/relay_enrollment.rs]: the token store, its persistence, the
    enrollment session's decision and the whitelist files. SHA-256, the JSON
    encoding and the random generator are parameters: the hash, of which
    nothing is assumed, and the codec with the law the store relies on
    ([TokenCodec]), the drawn token as an argument. The file system maps paths to contents; [io_fault]
    says which paths fail with an error other than "not found". *)

From S2P Require Import Prelude Bytes Frame Text Routing.

(** Seconds. *)
Definition DEFAULT_INVITE_TTL : Z := 15 * 60.
Definition DEFAULT_DEPLOY_TTL : Z := 30 * 24 * 60 * 60.

Record MintedToken := { minted_token : string; minted_expiry : Z; minted_one_time : bool }.

Inductive RedeemOutcome := EnrollOk (one_time : bool) | Invalid | Expired.

#[global] Instance RedeemOutcome_eq_dec : EqDecision RedeemOutcome.
Proof. solve_decision. Defined.

Record TokenRecord := { token : string; expires_at_unix : Z; one_time : bool }.

Class TokenCodec := {
  (** [Sha256::digest]: any function of the bytes. *)
  sha256 : list byte -> list byte;
  (** [serde_json] on the list of records. *)
  to_json : list TokenRecord -> string;
  from_json : string -> option (list TokenRecord);
  from_to_json : forall l, from_json (to_json l) = Some l;
}.

(** Two lower-case hexadecimal digits per byte. *)
Definition hex_digit (n : Z) : byte := byte_of (if n <? 10 then 48 + n else 87 + n).

Fixpoint hex (bs : list byte) : list byte :=
  match bs with
  | [] => []
  | b :: bs => hex_digit (byte_val b / 16) :: hex_digit (byte_val b mod 16) :: hex bs
  end.

Definition token_key `{TokenCodec} (tok : string) : string :=
  String.string_of_list_byte (hex (sha256 (as_bytes tok))).

(** ** The file system *)

Inductive io_error := NotFound | OtherIo (detail : string).

Record fs := {
  files : gmap string string;
  io_fault : gmap string string;
}.

Definition with_files (d : fs) (m : gmap string string) : fs :=
  {| files := m; io_fault := io_fault d |}.

Definition guard_io {A} (d : fs) (path : string) (k : result A io_error) : result A io_error :=
  match io_fault d !! path with Some e => Err (OtherIo e) | None => k end.

Definition fs_write (d : fs) (path body : string) : result fs io_error :=
  guard_io d path (Ok (with_files d (<[path := body]> (files d)))).

Definition fs_read (d : fs) (path : string) : result string io_error :=
  guard_io d path (match files d !! path with Some b => Ok b | None => Err NotFound end).

Definition fs_remove (d : fs) (path : string) : result fs io_error :=
  guard_io d path
    (match files d !! path with
     | Some _ => Ok (with_files d (delete path (files d)))
     | None => Err NotFound
     end).

Definition fs_rename (d : fs) (from to : string) : result fs io_error :=
  guard_io d to
    (match files d !! from with
     | Some b => Ok (with_files d (<[to := b]> (delete from (files d))))
     | None => Err NotFound
     end).

(** [fs::create_dir_all]: directories are not tracked, it can only fail. *)
Definition fs_create_dir (d : fs) (dir : string) : result unit io_error := guard_io d dir (Ok tt).

(** ** The store *)

Section store.
Context `{RustText} `{TokenCodec}.

(** [drawn] is the random token; the expiry is a [u64] sum, which wraps in
    a release build. *)
Definition mint (drawn : string) (one_time : bool) (ttl now : Z) (tokens : gmap string TokenRecord)
    : MintedToken * gmap string TokenRecord :=
  let expires := wrap 64 (now + ttl) in
  ({| minted_token := drawn; minted_expiry := expires; minted_one_time := one_time |},
   <[token_key drawn := {| token := drawn; expires_at_unix := expires; one_time := one_time |}]> tokens).

Definition redeem (tok : string) (now : Z) (tokens : gmap string TokenRecord)
    : RedeemOutcome * gmap string TokenRecord :=
  let key := token_key tok in
  match tokens !! key with
  | None => (Invalid, tokens)
  | Some record =>
      let tokens := if one_time record then delete key tokens else tokens in
      if expires_at_unix record <=? now
      then (Expired, if negb (one_time record) then delete key tokens else tokens)
      else (EnrollOk (one_time record), tokens)
  end.

(** [order] is the order the map yields its keys; [tmp_path] is the path
    with extension "tmp", [parent] its directory. *)
Definition persist (order : list string) (parent tmp_path path : string) (now : Z)
    (tokens : gmap string TokenRecord) (d : fs) : result fs io_error :=
  let records := filter (fun r => now < expires_at_unix r) (omap (fun k => tokens !! k) order) in
  let? _ := fs_create_dir d parent in
  let? d := fs_write d tmp_path (to_json records) in
  fs_rename d tmp_path path.

Fixpoint load_records (now : Z) (records : list TokenRecord) (tokens : gmap string TokenRecord)
    : gmap string TokenRecord :=
  match records with
  | [] => tokens
  | r :: records =>
      load_records now records
        (if expires_at_unix r <=? now then tokens else <[token_key (token r) := r]> tokens)
  end.

Definition load (path : string) (now : Z) (d : fs) : result (gmap string TokenRecord) io_error :=
  match fs_read d path with
  | Err NotFound => Ok ∅
  | Err e => Err e
  | Ok text =>
      match from_json text with
      | None => Err (OtherIo "invalid data")
      | Some records => Ok (load_records now records ∅)
      end
  end.

(** ** The whitelist *)

Definition add_authorized_node (dir fingerprint cert_pem : string) (d : fs) : result fs io_error :=
  let? _ := fs_create_dir d dir in
  fs_write d (path_join dir (to_lowercase fingerprint)) cert_pem.

Definition remove_authorized_node (dir fingerprint : string) (d : fs) : result (bool * fs) io_error :=
  match fs_remove d (path_join dir (to_lowercase fingerprint)) with
  | Ok d => Ok (true, d)
  | Err NotFound => Ok (false, d)
  | Err e => Err e
  end.

(** ** The enrollment session *)

Definition error_frame (code : RelayErrorCode) (text : string) : frame :=
  FError 0 (code_wire_value code) text.

(** The response, if any, with the store and the file system left. *)
Definition handle_enrollment_frame (f : frame) (peer_fingerprint peer_cert_pem : string)
    (tokens : gmap string TokenRecord) (whitelist_dir relay_fingerprint : string) (now : Z) (d : fs)
    : option frame * gmap string TokenRecord * fs :=
  match f with
  | FEnroll tok =>
      let '(outcome, tokens) := redeem tok now tokens in
      match outcome with
      | EnrollOk _ =>
          match add_authorized_node whitelist_dir peer_fingerprint peer_cert_pem d with
          | Err _ => (None, tokens, d)
          | Ok d => (Some (FEnrollResponse relay_fingerprint), tokens, d)
          end
      | Invalid => (Some (error_frame TokenInvalid "enrollment token is unknown or already used"), tokens, d)
      | Expired => (Some (error_frame TokenExpired "enrollment token has expired"), tokens, d)
      end
  | _ => (Some (error_frame TokenInvalid "first frame must be Enroll"), tokens, d)
  end.

(** ** Runs of the store

    The store in memory and the disk, with the file at [path]. *)

Inductive token_op :=
| TMint (drawn : string) (one_time : bool) (ttl now : Z)
| TPersist (order : list string) (now : Z)
| TRedeem (tok : string) (now : Z)
| TRestart (now : Z).

(** The start of the relay: what can be loaded, or an empty store. *)
Definition reopen (path : string) (now : Z) (d : fs) : gmap string TokenRecord :=
  match load path now d with Ok tokens => tokens | Err _ => ∅ end.

(** The store and the disk after the operations, and the redemptions with
    their answers. Persisting is best effort, as in [handle_invite]. *)
Fixpoint token_run (parent tmp path : string) (ops : list token_op) (tokens : gmap string TokenRecord) (d : fs)
    : list (string * Z * RedeemOutcome) * gmap string TokenRecord * fs :=
  match ops with
  | [] => ([], tokens, d)
  | TMint drawn ot ttl now :: ops => token_run parent tmp path ops (snd (mint drawn ot ttl now tokens)) d
  | TPersist order now :: ops =>
      token_run parent tmp path ops tokens
        (match persist order parent tmp path now tokens d with Ok d => d | Err _ => d end)
  | TRedeem tok now :: ops =>
      let '(o, tokens) := redeem tok now tokens in
      let '(os, tokens, d) := token_run parent tmp path ops tokens d in
      ((tok, now, o) :: os, tokens, d)
  | TRestart now :: ops => token_run parent tmp path ops (reopen path now d) d
  end.

(** The times of the successful redemptions of tokens with the key [key]. *)
Definition enrolled (key : string) (os : list (string * Z * RedeemOutcome)) : list Z :=
  omap (fun '(t, now, o) =>
          match o with EnrollOk _ => if bool_decide (token_key t = key) then Some now else None | _ => None end) os.

Definition mints (key : string) (op : token_op) : Prop :=
  match op with TMint drawn _ _ _ => token_key drawn = key | _ => False end.

Definition is_restart (op : token_op) : bool := match op with TRestart _ => true | _ => false end.

(** ** Lemmas *)

Lemma redeem_other key t now tokens :
  token_key t <> key -> snd (redeem t now tokens) !! key = tokens !! key.
Proof. intros Hk. unfold redeem. repeat case_match; simpl; rewrite ?lookup_delete_ne by done; done. Qed.

Lemma redeem_one_time tok now tokens r :
  tokens !! token_key tok = Some r -> one_time r = true ->
  snd (redeem tok now tokens) !! token_key tok = None.
Proof.
  intros Hr Ho. unfold redeem. rewrite Hr, Ho. simpl. destruct (_ <=? _); simpl; apply lookup_delete_eq.
Qed.

Lemma redeem_ok tok now tokens b :
  fst (redeem tok now tokens) = EnrollOk b ->
  exists r, tokens !! token_key tok = Some r /\ one_time r = b /\ now < expires_at_unix r.
Proof.
  unfold redeem. destruct (tokens !! token_key tok) as [r|] eqn:E; [|done].
  destruct (Z.leb_spec (expires_at_unix r) now); simpl; intros H3; simplify_eq. eauto.
Qed.

Lemma load_records_miss now records tokens k :
  Forall (fun r => token_key (token r) <> k) records ->
  load_records now records tokens !! k = tokens !! k.
Proof.
  revert tokens. induction records as [|r records IH]; intros tokens Hf; [done|].
  apply Forall_cons in Hf as [Hr Hf]. simpl. rewrite IH by done.
  destruct (_ <=? _); [done|]. by rewrite lookup_insert_ne.
Qed.

(** A live record of the file is in the loaded store. *)
Lemma load_records_hit now records tokens r :
  r ∈ records -> now < expires_at_unix r ->
  (forall r1, r1 ∈ records -> token_key (token r1) = token_key (token r) -> r1 = r) ->
  load_records now records tokens !! token_key (token r) = Some r.
Proof.
  revert tokens. induction records as [|r0 records IH]; intros tokens Hin Hlt Hun; [set_solver|]. simpl.
  assert (r ∈ records \/ ~ r ∈ records) as [Hr|Hr].
  { destruct (decide (Exists (fun r1 => token_key (token r1) = token_key (token r)) records)) as [Hx|Hx].
    - apply Exists_exists in Hx as (r1 & H1 & E). rewrite (Hun r1) in H1; set_solver.
    - right. intros Hr. apply Hx, Exists_exists. eauto. }
  { apply IH; set_solver. }
  apply elem_of_cons in Hin as [->|]; [|done]. rewrite load_records_miss.
  - destruct (Z.leb_spec (expires_at_unix r0) now); [lia|]. apply lookup_insert_eq.
  - apply Forall_forall. intros r1 H1 E. rewrite (Hun r1) in H1; set_solver.
Qed.

Lemma persist_load order parent tmp path now now1 tokens d d1 :
  (forall k r, tokens !! k = Some r -> k = token_key (token r)) ->
  persist order parent tmp path now tokens d = Ok d1 ->
  exists loaded, load path now1 d1 = Ok loaded /\
    forall k r, tokens !! k = Some r -> k ∈ order -> now < expires_at_unix r -> now1 < expires_at_unix r ->
    loaded !! k = Some r.
Proof.
  intros Hkeys. unfold persist, fs_create_dir, fs_write, fs_rename, guard_io. simpl.
  destruct (io_fault d !! parent); [done|]. destruct (io_fault d !! tmp); [done|]. simpl.
  destruct (io_fault d !! path) eqn:Hp; [done|]. rewrite lookup_insert_eq. intros [= <-].
  unfold load, fs_read, guard_io. simpl. rewrite Hp, lookup_insert_eq, from_to_json.
  eexists. split; [done|]. intros k r Hk Hin H1 H2. rewrite (Hkeys k r Hk).
  apply load_records_hit; [|done|].
  - apply list_elem_of_filter. split; [done|]. apply list_elem_of_omap. eauto.
  - intros r1 [_ (k1 & _ & Hk1)%list_elem_of_omap]%list_elem_of_filter E.
    pose proof (Hkeys _ _ Hk) as E1. pose proof (Hkeys _ _ Hk1) as E2. congruence.
Qed.

(** *** One token

    A record [r] that is the only one under its key, in the store and in the
    file; [n] says how often the token can still be redeemed. *)

Definition keyed (tokens : gmap string TokenRecord) : Prop := map_Forall (fun k r => k = token_key (token r)) tokens.

Definition filed (path : string) (r : TokenRecord) (d : fs) : Prop :=
  forall text records, files d !! path = Some text -> from_json text = Some records ->
  Forall (fun r1 => token_key (token r1) = token_key (token r) -> r1 = r) records.

Lemma redeem_keyed t now tokens : keyed tokens -> keyed (snd (redeem t now tokens)).
Proof. intros Hk. unfold redeem. repeat case_match; simpl; try done; by repeat apply map_Forall_delete. Qed.

Lemma load_records_keyed now records tokens : keyed tokens -> keyed (load_records now records tokens).
Proof.
  revert tokens. induction records as [|r records IH]; intros tokens Hk; [done|]. simpl. apply IH.
  destruct (_ <=? _); [done|]. by apply map_Forall_insert_2.
Qed.

Lemma load_records_from now records tokens k r :
  load_records now records tokens !! k = Some r -> tokens !! k = Some r \/ r ∈ records /\ k = token_key (token r).
Proof.
  revert tokens. induction records as [|r0 records IH]; intros tokens E; [by left|]. simpl in E.
  apply IH in E as [E|[Hr ->]]; [|right; split; [by right|done]].
  destruct (_ <=? _); [by left|]. apply lookup_insert_Some in E as [[<- <-]|[_ E]]; [|by left].
  right. split; [by left|done].
Qed.

Lemma reopen_keeps path now r d : filed path r d ->
  keyed (reopen path now d) /\ forall r1, reopen path now d !! token_key (token r) = Some r1 -> r1 = r.
Proof.
  intros Hf. unfold reopen, load, fs_read, guard_io. destruct (io_fault d !! path); [split; [apply map_Forall_empty|done]|].
  destruct (files d !! path) as [text|] eqn:Et; [|split; [apply map_Forall_empty|done]].
  destruct (from_json text) as [records|] eqn:Er; [|split; [apply map_Forall_empty|done]].
  split; [apply load_records_keyed, map_Forall_empty|]. intros r1 [E|[Hr E]]%load_records_from; [done|].
  pose proof (Hf text records Et Er) as Ha. rewrite Forall_forall in Ha. by apply Ha.
Qed.

Lemma persist_filed order parent tmp path now r tokens d d1 : keyed tokens ->
  (forall r1, tokens !! token_key (token r) = Some r1 -> r1 = r) ->
  persist order parent tmp path now tokens d = Ok d1 -> filed path r d1.
Proof.
  intros Hk Hr. unfold persist, fs_create_dir, fs_write, fs_rename, guard_io. simpl.
  destruct (io_fault d !! parent); [done|]. destruct (io_fault d !! tmp); [done|]. simpl.
  destruct (io_fault d !! path); [done|]. rewrite lookup_insert_eq. intros [= <-] text records. simpl.
  rewrite lookup_insert_eq. intros [= <-]. rewrite from_to_json. intros [= <-].
  apply Forall_forall. intros r1 [_ (k & _ & E)%list_elem_of_omap]%list_elem_of_filter Ek.
  apply Hr. rewrite <- Ek, <- (Hk _ _ E). exact E.
Qed.

(** Between two starts a one-time token is redeemed once at most. *)
Lemma token_run_enrolls parent tmp path r ops tokens d :
  one_time r = true -> Forall (fun op => ~ mints (token_key (token r)) op) ops -> keyed tokens -> filed path r d ->
  (forall r1, tokens !! token_key (token r) = Some r1 -> r1 = r) ->
  let times := enrolled (token_key (token r)) (token_run parent tmp path ops tokens d).1.1 in
  (length times <= (if decide (is_Some (tokens !! token_key (token r))) then 1 else 0)
                   + length (List.filter is_restart ops))%nat /\
  Forall (fun t => t < expires_at_unix r) times.
Proof.
  intros Ho. revert tokens d. induction ops as [|op ops IH]; intros tokens d Hf Hk Hd Hr; [simpl; by split; [lia|]|].
  apply Forall_cons in Hf as [Hop Hf]. destruct op as [drawn ot ttl now|order now|t now|now]; simpl in *.
  - specialize (IH (snd (mint drawn ot ttl now tokens)) d Hf). simpl in IH. rewrite lookup_insert_ne in IH by done.
    apply IH; [|done|done]. by apply map_Forall_insert_2.
  - apply IH; [done|done| |done]. destruct (persist _ _ _ _ _ _ _) eqn:E; [|done]. by eapply persist_filed.
  - pose proof (redeem_keyed t now tokens Hk) as Hk'. pose proof (redeem_ok t now tokens) as Hok.
    destruct (decide (token_key t = token_key (token r))) as [Ek|Hne].
    + pose proof (redeem_one_time t now tokens r) as Hone. rewrite Ek in Hone, Hok.
      destruct (redeem t now tokens) as [o tk] eqn:Hrd. simpl in *.
      assert (Hn : tk !! token_key (token r) = None).
      { destruct (tokens !! token_key (token r)) as [r1|] eqn:E1; [by apply Hone; [rewrite (Hr r1)|]|].
        unfold redeem in Hrd. rewrite Ek, E1 in Hrd. by injection Hrd as <- <-. }
      destruct (IH tk d Hf Hk' Hd) as [IH1 IH2]; [by rewrite Hn|]. rewrite Hn in IH1.
      destruct (token_run _ _ _ ops tk d) as [[os tk1] d1]. simpl in *.
      destruct o as [b| |]; [|split; [case_decide; lia|done]..].
      destruct (Hok b eq_refl) as (r1 & E1 & _ & Hlt). rewrite (Hr r1 E1) in *.
      rewrite bool_decide_true by done. simpl. rewrite decide_True by eauto. split; [lia|]. by constructor.
    + pose proof (redeem_other (token_key (token r)) t now tokens Hne) as Hs.
      destruct (redeem t now tokens) as [o tk]. simpl in *. rewrite <- Hs in Hr |- *. specialize (IH tk d Hf Hk' Hd Hr).
      destruct (token_run _ _ _ ops tk d) as [[os tk1] d1]. simpl in *.
      rewrite bool_decide_false by done. by destruct o.
  - destruct (reopen_keeps path now r d Hd) as [Hk' Hr'].
    destruct (IH (reopen path now d) d Hf Hk' Hd Hr') as [IH1 IH2]. split; [|done]. revert IH1. repeat case_decide; lia.
Qed.

(** ** Claims *)

(** C32. A one-time token admits one node between two starts of the relay:
    whatever else is minted, persisted and redeemed, and however often the
    relay is restarted from its file, the redemptions that succeed for the
    token, or for any other text with the same hash, are at most one more than
    the restarts, and all of them before its expiry. In particular there is at
    most one while the relay runs. The token is new: no record under its key
    is in the file when it is minted, and none is minted afterwards. That a
    restart does revive a consumed token is
    [consumed_token_revives_after_restart]. *)
Theorem one_time_token_enrolls_once parent tmp path tok ttl now ops tokens d :
  keyed tokens ->
  (forall text records, files d !! path = Some text -> from_json text = Some records ->
     Forall (fun r => token_key (token r) <> token_key tok) records) ->
  Forall (fun op => ~ mints (token_key tok) op) ops ->
  let times := enrolled (token_key tok) (token_run parent tmp path (TMint tok true ttl now :: ops) tokens d).1.1 in
  (length times <= 1 + length (List.filter is_restart ops))%nat /\
  Forall (fun t => t < wrap 64 (now + ttl)) times.
Proof.
  intros Hk Hd Hf. cbn zeta. cbn [token_run].
  set (r := {| token := tok; expires_at_unix := wrap 64 (now + ttl); one_time := true |}).
  destruct (token_run_enrolls parent tmp path r ops (snd (mint tok true ttl now tokens)) d) as [H1 H2]; try done.
  - by apply map_Forall_insert_2.
  - intros text records Et Er. eapply Forall_impl; [by apply (Hd text records)|]. by intros r1 Hn E%Hn.
  - simpl. rewrite lookup_insert_eq. by intros r1 [= <-].
  - revert H1. simpl. rewrite lookup_insert_eq. rewrite decide_True by eauto. intros H1. by split.
Qed.

(** A restart forgets redemptions: the store is written when a token is
    minted and never when one is redeemed, so a one-time token that was
    minted, persisted and then consumed enrolls a second node after the
    relay is restarted from its file. *)
Theorem consumed_token_revives_after_restart tok ttl order parent tmp path tokens d d1 now now1 now2 :
  (forall k r, tokens !! k = Some r -> k = token_key (token r)) ->
  token_key tok ∈ order ->
  now < wrap 64 (now + ttl) -> now1 < wrap 64 (now + ttl) -> now2 < wrap 64 (now + ttl) ->
  let minted := snd (mint tok true ttl now tokens) in
  persist order parent tmp path now minted d = Ok d1 ->
  fst (redeem tok now1 minted) = EnrollOk true /\
  snd (redeem tok now1 minted) !! token_key tok = None /\
  exists reloaded, load path now2 d1 = Ok reloaded /\ fst (redeem tok now2 reloaded) = EnrollOk true.
Proof.
  intros Hkeys Hin H1 H2 H3 minted Hd.
  assert (minted !! token_key tok
          = Some {| token := tok; expires_at_unix := wrap 64 (now + ttl); one_time := true |}) as Hm
    by apply lookup_insert_eq.
  assert (forall k r, minted !! k = Some r -> k = token_key (token r)) as Hmk.
  { intros k r Hr. unfold minted, mint in Hr. simpl in Hr. apply lookup_insert_Some in Hr as [[<- <-]|[_ Hr]]; [done|by apply Hkeys]. }
  destruct (persist_load _ _ _ _ _ now2 _ _ _ Hmk Hd) as (reloaded & Hl & Hhas).
  split_and!.
  - unfold redeem. rewrite Hm. simpl. destruct (Z.leb_spec (wrap 64 (now + ttl)) now1); [lia|done].
  - by eapply redeem_one_time.
  - exists reloaded. split; [done|]. unfold redeem. rewrite (Hhas _ _ Hm Hin H1 H3). simpl.
    destruct (Z.leb_spec (wrap 64 (now + ttl)) now2); [lia|done].
Qed.

(** C33. Enrollment admits exactly the presented certificate: the session
    writes a whitelist file only when its first frame is an [Enroll] whose
    token is in the store and not expired; the only file written is the
    lower-cased fingerprint of the peer's certificate, and the answer is
    then the relay's fingerprint. *)
Theorem enrollment_whitelists_the_peer_only f fp pem tokens dir relay_fp now d ans tokens1 d1 :
  handle_enrollment_frame f fp pem tokens dir relay_fp now d = (ans, tokens1, d1) ->
  d1 = d /\ ans <> Some (FEnrollResponse relay_fp) \/
  (exists tok r,
     f = FEnroll tok /\ tokens !! token_key tok = Some r /\ now < expires_at_unix r /\
     (one_time r = true -> tokens1 !! token_key tok = None) /\
     ans = Some (FEnrollResponse relay_fp) /\
     files d1 = <[path_join dir (to_lowercase fp) := pem]> (files d)).
Proof.
  intros Hs. assert ((exists tok, f = FEnroll tok) \/ d1 = d /\ ans <> Some (FEnrollResponse relay_fp))
    as [[tok ->]|]; [|unfold handle_enrollment_frame in Hs|by left].
  { destruct f; unfold handle_enrollment_frame in Hs; eauto; simplify_eq; by right. }
  pose proof (redeem_ok tok now tokens) as Hok. pose proof (redeem_one_time tok now tokens) as Hone.
  destruct (redeem tok now tokens) as [o tk]. simpl in *.
  destruct o as [b| |]; [|simplify_eq; by left..].
  destruct (Hok b eq_refl) as (r & Hr & Hb & Hlt).
  unfold add_authorized_node, fs_create_dir, fs_write, guard_io in Hs.
  destruct (io_fault d !! dir); [simplify_eq; by left|].
  destruct (io_fault d !! _); simplify_eq; [by left|]. right.
  exists tok, r. split_and!; try done. intros Ho. by apply (Hone r).
Qed.

End store.

(** ** An instance, for the witnesses *)

Fixpoint pos_bits (p : positive) : string :=
  match p with
  | xH => EmptyString
  | xO p => String.String Ascii.zero (pos_bits p)
  | xI p => String.String Ascii.one (pos_bits p)
  end.

Fixpoint bits_pos (s : string) : positive :=
  match s with
  | EmptyString => xH
  | String.String c s => if Ascii.eqb c Ascii.zero then xO (bits_pos s) else xI (bits_pos s)
  end.

Definition record_tuple (r : TokenRecord) : string * Z * bool := (token r, expires_at_unix r, one_time r).
Definition tuple_record (p : string * Z * bool) : TokenRecord :=
  {| token := fst (fst p); expires_at_unix := snd (fst p); one_time := snd p |}.

Lemma bits_round p : bits_pos (pos_bits p) = p.
Proof. induction p as [p IH|p IH|]; simpl; rewrite ?IH; done. Qed.

Lemma records_round l :
  option_map (map tuple_record)
    (countable.decode (bits_pos (pos_bits (countable.encode (map record_tuple l))))) = Some l.
Proof.
  rewrite bits_round, countable.decode_encode. simpl. f_equal. rewrite map_map.
  induction l as [|[] l IH]; simpl; [done|]. by rewrite IH.
Qed.

Definition plain_codec : TokenCodec :=
  {| sha256 := fun bs => bs;
     to_json := fun l => pos_bits (countable.encode (map record_tuple l));
     from_json := fun s => option_map (map tuple_record) (countable.decode (bits_pos s));
     from_to_json := records_round |}.

Definition no_files : fs := {| files := ∅; io_fault := ∅ |}.

Lemma one_time_token_enrolls_once_witness :
  let run := @token_run plain_codec "home" "home/tokens.tmp" "home/tokens.json"
    [TMint "t" true 60 0; TPersist [@token_key plain_codec "t"] 1; TRedeem "t" 2; TRedeem "t" 3; TRestart 4; TRedeem "t" 5] ∅ no_files in
  (length (@enrolled plain_codec (@token_key plain_codec "t") run.1.1) <= 2)%nat /\
  Forall (fun t => t < 60) (@enrolled plain_codec (@token_key plain_codec "t") run.1.1).
Proof.
  apply (@one_time_token_enrolls_once plain_codec "home" "home/tokens.tmp" "home/tokens.json" "t" 60 0
    [TPersist [@token_key plain_codec "t"] 1; TRedeem "t" 2; TRedeem "t" 3; TRestart 4; TRedeem "t" 5] ∅ no_files).
  - apply map_Forall_empty.
  - by intros text records E.
  - repeat constructor; by intros [].
Defined.

Lemma consumed_token_revives_after_restart_witness :
  exists reloaded,
    fst (@redeem plain_codec "t" 2 reloaded) = EnrollOk true.
Proof.
  destruct (@consumed_token_revives_after_restart plain_codec "t" 60
    [@token_key plain_codec "t"] "home" "home/tokens.tmp" "home/tokens.json" ∅ no_files
    (with_files no_files
       {[ "home/tokens.json" := @to_json plain_codec
            [{| token := "t"; expires_at_unix := 60; one_time := true |}] ]}) 0 1 2)
    as (_ & _ & reloaded & _ & Hr).
  - intros k r Hk. discriminate Hk.
  - apply list_elem_of_here.
  - reflexivity.
  - reflexivity.
  - reflexivity.
  - vm_compute. reflexivity.
  - exists reloaded. exact Hr.
Defined.

Lemma enrollment_whitelists_the_peer_only_witness :
  exists ans tokens1 d1,
    @handle_enrollment_frame ascii_text plain_codec (FEnroll "t") "AB" "pem"
      (snd (@mint plain_codec "t" true 60 0 ∅)) "dir" "relay" 5 no_files = (ans, tokens1, d1)
    /\ ans = Some (FEnrollResponse "relay").
Proof.
  destruct (@handle_enrollment_frame ascii_text plain_codec (FEnroll "t") "AB" "pem"
      (snd (@mint plain_codec "t" true 60 0 ∅)) "dir" "relay" 5 no_files) as [[ans tokens1] d1] eqn:E.
  exists ans, tokens1, d1. split; [reflexivity|].
  destruct (enrollment_whitelists_the_peer_only _ _ _ _ _ _ _ _ _ _ _ E)
    as [[_ Hn]|(tok & r & _ & _ & _ & _ & Ha & _)]; [|exact Ha].
  exfalso. apply Hn. revert E. vm_compute. congruence.
Defined.
