(* ===== verification/Relay.v ===== *)
(** * Relay: the shared state of the relay and its tasks

    The state the relay's tasks share behind their [Arc]s, and the actions
    of the programs ([Tasks]) that [Admin] and [RelayLink] are made of.

    [Egress] is what a link's scheduler promises to the rest of the relay;
    [scheduler_egress] shows that [Scheduler] keeps the promise. *)

From S2P Require Import Prelude Bytes Frame Text Scheduler Routing Capacity ConnectionTable.
From S2P Require Import Presence Enrollment Tasks.

(** ** What a link's egress promises *)

Class Egress (E : Type) := {
  new_egress : E;
  (** A send that does not wait; the state after it when there was room. *)
  offer : E -> frame -> result E ingress_error;
  (** The bulk frames of a stream, and the control frames, taken so far. *)
  accepted_bulk : Z -> E -> list frame;
  accepted_control : E -> list frame;
  offer_bulk : forall e f e1 sid, offer e f = Ok e1 ->
    accepted_bulk sid e1 = accepted_bulk sid e ++ of_stream sid [f];
  offer_control : forall e f e1, offer e f = Ok e1 ->
    accepted_control e1 = accepted_control e ++ controls [f];
}.

#[global] Instance scheduler_egress : Egress scheduler :=
  {| new_egress := Scheduler.spawn default_config; offer := Scheduler.try_send;
     accepted_bulk := bulk_pipeline; accepted_control := control_pipeline;
     offer_bulk := fun e f e1 sid H => proj1 (try_send_pipelines e f e1 H) sid;
     offer_control := fun e f e1 H => proj2 (try_send_pipelines e f e1 H) |}.

Section offers.
Context {E : Type} `{Egress E}.

(** The egress after it took all of [fs], if it has room for them. *)
Fixpoint offer_all (e : E) (fs : list frame) : option E :=
  match fs with
  | [] => Some e
  | f :: fs => match offer e f with Ok e1 => offer_all e1 fs | Err _ => None end
  end.

End offers.

(** ** The state *)

(** A link: the certificate fingerprint its TLS session proved, and its
    egress. *)
Record link {E : Type} := { fingerprint : string; egress : E }.
Arguments link E : clear implicits.

Record relay {E : Type} := {
  table : RelayConnectionTable;
  routing : gmap RouteKey RouteLeg;
  watchers : gmap string (gmap Z ingress);
  meter : UsageMeter;
  tokens : gmap string TokenRecord;
  disk : fs;
  links : gmap Z (link E);
  events : list RelayLifecycleEvent;   (** offered to the events channel *)
  clock : Z;                           (** [Instant::now], nanoseconds *)
  unix : Z;                            (** [now_unix], seconds *)
  stopping : bool;                     (** the server-wide shutdown signal *)
}.
Arguments relay E : clear implicits.

Section actions.
Context {E : Type} `{Egress E} `{RustText}.

Definition new_relay (now unix_now : Z) (d : fs) (tks : gmap string TokenRecord) : relay E :=
  {| table := empty_table; routing := ∅; watchers := ∅; meter := new_meter now; tokens := tks;
     disk := d; links := ∅; events := []; clock := now; unix := unix_now;
     stopping := false |}.

Definition set_table (w : relay E) (t : RelayConnectionTable) : relay E :=
  {| table := t; routing := routing w; watchers := watchers w; meter := meter w; tokens := tokens w;
     disk := disk w; links := links w; events := events w; clock := clock w; unix := unix w;
     stopping := stopping w |}.
Definition set_routing (w : relay E) (r : gmap RouteKey RouteLeg) : relay E :=
  {| table := table w; routing := r; watchers := watchers w; meter := meter w; tokens := tokens w;
     disk := disk w; links := links w; events := events w; clock := clock w; unix := unix w;
     stopping := stopping w |}.
Definition set_watchers (w : relay E) (h : gmap string (gmap Z ingress)) : relay E :=
  {| table := table w; routing := routing w; watchers := h; meter := meter w; tokens := tokens w;
     disk := disk w; links := links w; events := events w; clock := clock w; unix := unix w;
     stopping := stopping w |}.
Definition set_meter (w : relay E) (m : UsageMeter) : relay E :=
  {| table := table w; routing := routing w; watchers := watchers w; meter := m; tokens := tokens w;
     disk := disk w; links := links w; events := events w; clock := clock w; unix := unix w;
     stopping := stopping w |}.
Definition set_store (w : relay E) (tks : gmap string TokenRecord) (d : fs) : relay E :=
  {| table := table w; routing := routing w; watchers := watchers w; meter := meter w; tokens := tks;
     disk := d; links := links w; events := events w; clock := clock w; unix := unix w;
     stopping := stopping w |}.
Definition set_links (w : relay E) (ls : gmap Z (link E)) : relay E :=
  {| table := table w; routing := routing w; watchers := watchers w; meter := meter w; tokens := tokens w;
     disk := disk w; links := ls; events := events w; clock := clock w; unix := unix w;
     stopping := stopping w |}.
Definition add_event (w : relay E) (ev : RelayLifecycleEvent) : relay E :=
  {| table := table w; routing := routing w; watchers := watchers w; meter := meter w; tokens := tokens w;
     disk := disk w; links := links w; events := events w ++ [ev]; clock := clock w; unix := unix w;
     stopping := stopping w |}.

Definition set_stopping (w : relay E) : relay E :=
  {| table := table w; routing := routing w; watchers := watchers w; meter := meter w; tokens := tokens w;
     disk := disk w; links := links w; events := events w; clock := clock w; unix := unix w;
     stopping := true |}.

(** ** Actions *)

Definition on_table {A} (f : relay E -> RelayConnectionTable -> A * RelayConnectionTable)
    : prog (relay E) A :=
  act (fun w => let '(a, t) := f w (table w) in Some (set_table w t, a)).

Definition on_routing {A} (f : gmap RouteKey RouteLeg -> A * gmap RouteKey RouteLeg)
    : prog (relay E) A :=
  act (fun w => let '(a, r) := f (routing w) in Some (set_routing w r, a)).

Definition reading {A} (f : relay E -> A) : prog (relay E) A := act (fun w => Some (w, f w)).

Definition emit (ev : RelayLifecycleEvent) : prog (relay E) unit :=
  act (fun w => Some (add_event w ev, tt)).

Definition queue_on (w : relay E) (lid : ingress) (l : link E) (e : E) : relay E :=
  set_links w (<[lid := {| fingerprint := fingerprint l; egress := e |}]> (links w)).

(** [SchedulerIngress::send]: waits while the channel is full; the answer
    says whether the frame was queued. *)
Definition send (lid : ingress) (f : frame) : prog (relay E) bool :=
  act (fun w =>
    match links w !! lid with
    | None => Some (w, false)
    | Some l =>
        match offer (egress l) f with
        | Ok e => Some (queue_on w lid l e, true)
        | Err IngressFull => None
        | Err IngressClosed => Some (w, false)
        end
    end).

(** [SchedulerIngress::try_send], its result ignored as every caller does. *)
Definition post (lid : ingress) (f : frame) : prog (relay E) unit :=
  act (fun w =>
    match links w !! lid with
    | None => Some (w, tt)
    | Some l =>
        match offer (egress l) f with
        | Ok e => Some (queue_on w lid l e, tt)
        | Err _ => Some (w, tt)
        end
    end).

Fixpoint post_all (lids : list ingress) (f : frame) : prog (relay E) unit :=
  match lids with
  | [] => Ret tt
  | lid :: lids => let! _ := post lid f in post_all lids f
  end.

(** [PresenceHub::publish]: the senders are collected under the lock and the
    frames are sent after it. *)
Definition publish (node_id : string) (online : bool) : prog (relay E) unit :=
  let! senders := reading (fun w => watchers_of node_id (watchers w)) in
  post_all senders (presence_frame node_id online).

(** [PresenceHub::watch]. *)
Definition watch (cid : Z) (target : string) (lid : ingress) (currently_online : bool)
    : prog (relay E) unit :=
  let! _ := act (fun w => Some (set_watchers w (add_watch cid target lid (watchers w)), tt)) in
  post lid (presence_frame target currently_online).

Definition unwatch_connection (cid : Z) : prog (relay E) unit :=
  act (fun w => Some (set_watchers w (unwatch cid (watchers w)), tt)).

(** [RelayConnectionTable::touch]. *)
Definition touch (node_id : string) (cid : Z) : prog (relay E) unit :=
  let! owns := reading (fun w => touch_owns (table w) node_id cid) in
  if owns : bool then on_table (fun w t => (tt, touch_cell (clock w) cid t)) else Ret tt.

(** [RelayConnectionTable::retire_notifying]. *)
Definition retire_notifying (node_id : string) (code : RelayErrorCode) : prog (relay E) bool :=
  let! entry := on_table (fun _ t => take_entry node_id t) in
  match entry with
  | Some entry =>
      let! _ := post (outbound entry) (error_frame code (message code)) in
      let! _ := on_table (fun _ t => (tt, retire_link (entry_id entry) t)) in
      Ret true
  | None => Ret false
  end.

End actions.

Section offer_lemmas.
Context {E : Type} `{Egress E}.

Lemma offer_all_accepts e fs e1 :
  offer_all e fs = Some e1 ->
  (forall sid, accepted_bulk sid e1 = accepted_bulk sid e ++ of_stream sid fs) /\
  accepted_control e1 = accepted_control e ++ controls fs.
Proof.
  revert e. induction fs as [|f fs IH]; intros e Ho; simpl in Ho; simplify_eq.
  { by split; [intros sid|]; rewrite app_nil_r. }
  destruct (offer e f) as [e2|] eqn:Ef; [|done]. destruct (IH e2 Ho) as [Hb Hc]. split.
  - intros sid. rewrite Hb, (offer_bulk _ _ _ sid Ef), <- app_assoc.
    by rewrite <- of_stream_app.
  - rewrite Hc, (offer_control _ _ _ Ef), <- app_assoc. by rewrite <- controls_app.
Qed.

End offer_lemmas.

(** ** Running the actions *)

Section running.
Context {E : Type} `{Egress E} `{RustText}.
Implicit Types w : relay E.

Lemma run_ret {W A} (a : A) (w : W) : run (Ret a) w = Some (a, w).
Proof. done. Qed.

Lemma run_reading {A} (f : relay E -> A) w : run (reading f) w = Some (f w, w).
Proof. done. Qed.

Lemma run_on_table {A} (f : relay E -> RelayConnectionTable -> A * RelayConnectionTable) w :
  run (on_table f) w = Some (fst (f w (table w)), set_table w (snd (f w (table w)))).
Proof. simpl. by destruct (f w (table w)). Qed.

Lemma run_on_routing {A} (f : gmap RouteKey RouteLeg -> A * gmap RouteKey RouteLeg) w :
  run (on_routing f) w = Some (fst (f (routing w)), set_routing w (snd (f (routing w)))).
Proof. simpl. by destruct (f (routing w)). Qed.

End running.

Create Rewrite HintDb run.
#[export] Hint Rewrite @run_bind @run_act @run_ret @run_reading @run_on_table @run_on_routing : run.

#[global] Arguments run : simpl never.
#[global] Arguments safe : simpl never.
#[global] Arguments bind : simpl never.
#[global] Arguments act : simpl never.
