(* ===== verification/Admin.v ===== *)
(** * Admin: the relay's two administration channels

    [src/infra/relay_admin.rs] (the owner's local socket) and
    [src/infra/relay_remote_admin.rs] (requests of registered nodes over
    their links). JSON is [serde_json]'s, a parameter ([AdminJson]); texts
    that the source formats are kept as the constructor that formats them. *)

From S2P Require Import Prelude Bytes Frame Text Scheduler Routing Capacity ConnectionTable.
From S2P Require Import Presence Enrollment Tasks Relay.

Definition MAX_ANNOUNCE_LABELS : Z := 8.
Definition MAX_LABEL_LEN : Z := 64.

Record RelayAdminRequest := {
  command : string;
  ttl_secs : option Z;
  deploy : option bool;
  req_fingerprint : option string;
  label : option string;
  req_labels : option (list string);
}.

Inductive RelayAdminCommand :=
| Status
| Shutdown
| Invite (ttl_secs : option Z) (deploy : bool)
| Remove (fingerprint : string).

Inductive RemoteAdminCommand :=
| RStatus
| RListWhitelist
| RAnnounce (labels : list string)
| RResolveNode (label : string)
| RInvite (ttl_secs : option Z) (deploy : bool)
| RRemove (fingerprint : string)
| RUnsupported (reason : string).

(** The formatted texts of the answers. *)
Inductive text :=
| Plain (s : string)
| BadRequest (error : string)                 (** invalid admin request: {error} *)
| UnknownCommand (command : string)           (** unknown admin command: {command:?} *)
| TooManyLabels (count : Z)
| LabelTooLong (length : Z)
| Minted (token : string) (expires_at : Z) (one_time : bool)
| RemovedNode (fingerprint : string) (whitelisted live : bool)
| RemoveFailed (fingerprint : string) (error : io_error)
| ListFailed (error : io_error)
| Announced (count : Z)
| NoSuchLabel (label : string)
| AmbiguousLabel (label : string) (count : Z).

Record RemoteAdminStatus := {
  listen : string;
  uptime_ms : Z;
  status_registered : Z;
  nodes : list (string * Z);          (** node id, idle milliseconds *)
  capacity : RelayCapacityConfig;
  usage : RelayUsage;
}.

(** The local answer's machine payload is the status; the node channel's
    adds the whitelist and a matched node. *)
Record AdminResponse := {
  ok : bool;
  status : option RemoteAdminStatus;
  whitelist : option (list string);
  node : option (string * list string);
  answer : option text;               (** [message] *)
  error : option text;
}.

Definition message_ok (t : text) : AdminResponse :=
  {| ok := true; status := None; whitelist := None; node := None; answer := Some t; error := None |}.
Definition error_response (t : text) : AdminResponse :=
  {| ok := false; status := None; whitelist := None; node := None; answer := None; error := Some t |}.

(** The node channel keeps the text of a local answer and drops its machine
    payload. *)
Definition message_envelope (r : AdminResponse) : AdminResponse :=
  {| ok := ok r; status := None; whitelist := None; node := None; answer := answer r; error := error r |}.

Class AdminJson := {
  parse_request : string -> result RelayAdminRequest string;
  encode_response : AdminResponse -> string;
}.

Record TokenTtlConfig := { invite_ttl : Z; deploy_ttl : Z }.

(** ** Parsing *)

Definition parse_relay_admin_command `{AdminJson} (body : string) : result RelayAdminCommand text :=
  match parse_request body with
  | Err e => Err (BadRequest e)
  | Ok request =>
      let c := command request in
      if bool_decide (c = "status") then Ok Status
      else if bool_decide (c = "shutdown") then Ok Shutdown
      else if bool_decide (c = "invite") then
        Ok (Invite (ttl_secs request) (default false (deploy request)))
      else if bool_decide (c = "remove") then
        match req_fingerprint request with
        | None => Err (Plain "remove requires a `fingerprint` field")
        | Some fp => Ok (Remove fp)
        end
      else Err (UnknownCommand c)
  end.

Fixpoint parse_labels `{RustText} (ls parsed : list string) : result (list string) text :=
  match ls with
  | [] => Ok parsed
  | l :: ls =>
      let l := trim l in
      if bool_decide (l = EmptyString) then Err (Plain "announce labels must be non-empty")
      else if MAX_LABEL_LEN <? str_len l then Err (LabelTooLong (str_len l))
      else parse_labels ls (if existsb (fun x => bool_decide (x = l)) parsed then parsed else parsed ++ [l])
  end.

Definition parse_announce_labels `{RustText} (ls : list string) : result (list string) text :=
  if bool_decide (ls = []) then Err (Plain "announce requires a non-empty `labels` array")
  else if MAX_ANNOUNCE_LABELS <? len ls then Err (TooManyLabels (len ls))
  else parse_labels ls [].

Definition shared_grammar `{AdminJson} (body : string) : result RemoteAdminCommand text :=
  let? c := parse_relay_admin_command body in
  Ok (match c with
      | Status => RStatus
      | Invite ttl d => RInvite ttl d
      | Remove fp => RRemove fp
      | Shutdown =>
          RUnsupported "shutdown is not supported over the node channel; use the local admin socket"
      end).

Definition parse_remote_admin_command `{RustText} `{AdminJson} (body : string)
    : result RemoteAdminCommand text :=
  match parse_request body with
  | Ok request =>
      let c := command request in
      if bool_decide (c = "list-whitelist") then Ok RListWhitelist
      else if bool_decide (c = "announce") then
        match req_labels request with
        | None => Err (Plain "announce requires a `labels` array")
        | Some ls => let? ls := parse_announce_labels ls in Ok (RAnnounce ls)
        end
      else if bool_decide (c = "resolve-node") then
        match label request with
        | Some l => if bool_decide (trim l = EmptyString)
                    then Err (Plain "resolve-node requires a `label` field") else Ok (RResolveNode l)
        | None => Err (Plain "resolve-node requires a `label` field")
        end
      else shared_grammar body
  | Err _ => shared_grammar body
  end.

(** ** Handlers *)

(** The relay's fixed configuration; [token_draw] is what the random
    generator yields for the next token. *)
Record settings := {
  caps : RelayCapacityConfig;
  lifecycle : RelayLifecycleConfig;
  ttls : TokenTtlConfig;
  listen_addr : string;
  started_at : Z;
  tokens_parent : string;
  tokens_tmp : string;
  tokens_path : string;
  whitelist_dir : string;
  token_draw : gmap string TokenRecord -> string;
}.

(** Rust's byte order on strings. *)
Definition str_le (a b : string) : Prop := String.leb a b = true.

#[global] Instance str_le_dec : RelDecision str_le.
Proof. intros a b. unfold str_le. apply _. Defined.

Section handlers.
Context {E : Type} {HE : Egress E} {HT : RustText} {HC : TokenCodec} {HJ : AdminJson}.

(** [handle_invite]: mint, then a best-effort persist. *)
Definition handle_invite (st : settings) (ttl_secs : option Z) (deploy : bool)
    : prog (relay E) AdminResponse :=
  let '(ttl, one_time) :=
    match deploy, ttl_secs with
    | true, Some secs => (secs, false)
    | true, None => (deploy_ttl (ttls st), false)
    | false, Some secs => (secs, true)
    | false, None => (invite_ttl (ttls st), true)
    end in
  let! minted := act (fun w =>
    let '(m, tks) := mint (token_draw st (tokens w)) one_time ttl (unix w) (tokens w) in
    Some (set_store w tks (disk w), m)) in
  let! _ := act (fun w =>
    match persist (fst <$> map_to_list (tokens w)) (tokens_parent st) (tokens_tmp st)
            (tokens_path st) (unix w) (tokens w) (disk w) with
    | Ok d => Some (set_store w (tokens w) d, tt)
    | Err _ => Some (w, tt)
    end) in
  Ret (message_ok (Minted (minted_token minted) (minted_expiry minted) (minted_one_time minted))).

(** [handle_remove]. *)
Definition handle_remove (st : settings) (fp : string) : prog (relay E) AdminResponse :=
  let! removed := act (fun w =>
    match remove_authorized_node (whitelist_dir st) fp (disk w) with
    | Ok (b, d) => Some (set_store w (tokens w) d, Ok b)
    | Err e => Some (w, Err e)
    end) in
  match removed with
  | Ok removed_from_whitelist =>
      let! retired := retire_notifying (to_lowercase fp) NodeRevoked in
      let! _ := (if retired : bool then publish (to_lowercase fp) false else Ret tt) in
      Ret (message_ok (RemovedNode fp removed_from_whitelist retired))
  | Err e => Ret (error_response (RemoveFailed fp e))
  end.

(** [build_status_snapshot]: each table is read in its own lock section. *)
Definition build_status_snapshot (st : settings) : prog (relay E) RemoteAdminStatus :=
  let! now := reading clock in
  let! n := reading (fun w => table_len (table w)) in
  let! ns := reading (fun w => map (fun '(id, _, idle) => (id, idle))
                        (snapshot (clock w) (fst <$> map_to_list (entries (table w))) (table w))) in
  let! n2 := reading (fun w => table_len (table w)) in
  let! streams := reading (fun w => stream_count (routing w)) in
  let! rate := act (fun w => let '(b, m) := bytes_this_window (clock w) (meter w) in
                             Some (set_meter w m, b)) in
  Ret {| listen := listen_addr st; uptime_ms := wrap 64 (elapsed (started_at st) now / 1000000);
         status_registered := n; nodes := ns; capacity := caps st;
         usage := {| registered_nodes := n2; active_streams := streams;
                     forwarded_bytes_per_sec := rate |} |}.

(** [authorized_node_fingerprints]: the lower-cased file names directly
    under the directory, in the order the directory yields them. *)
Definition authorized_node_fingerprints (dir : string) (d : fs) : result (list string) io_error :=
  guard_io d dir
    (Ok (omap (fun p => to_lowercase <$> file_name_in dir (fst p)) (map_to_list (files d)))).

(** [WhitelistedClientCertVerifier::is_authorized]. *)
Definition is_authorized (dir fp : string) (d : fs) : result bool io_error :=
  let? whitelisted := authorized_node_fingerprints dir d in
  Ok (existsb (fun e => eq_ignore_ascii_case e fp) whitelisted).

(** [handle_remote_admin_request] for the node that registered as
    ([node_id], [cid]). *)
Definition handle_remote_admin_request (st : settings) (node_id : string) (cid : Z)
    (c : RemoteAdminCommand) : prog (relay E) AdminResponse :=
  match c with
  | RStatus =>
      let! s := build_status_snapshot st in
      Ret {| ok := true; status := Some s; whitelist := None; node := None; answer := None; error := None |}
  | RListWhitelist =>
      let! r := reading (fun w => authorized_node_fingerprints (whitelist_dir st) (disk w)) in
      match r with
      | Ok fps =>
          Ret {| ok := true; status := None; whitelist := Some (merge_sort str_le fps); node := None;
                 answer := None; error := None |}
      | Err e => Ret (error_response (ListFailed e))
      end
  | RAnnounce ls =>
      let! _ := on_table (fun _ t => (tt, set_labels node_id cid ls t)) in
      Ret (message_ok (Announced (len ls)))
  | RResolveNode l =>
      let! r := reading (fun w => resolve_label l (fst <$> map_to_list (entries (table w))) (table w)) in
      match r with
      | Unique id ls =>
          Ret {| ok := true; status := None; whitelist := None; node := Some (id, ls); answer := None;
                 error := None |}
      | NoMatch => Ret (error_response (NoSuchLabel l))
      | Ambiguous count => Ret (error_response (AmbiguousLabel l count))
      end
  | RInvite ttl d => let! r := handle_invite st ttl d in Ret (message_envelope r)
  | RRemove fp => let! r := handle_remove st fp in Ret (message_envelope r)
  | RUnsupported reason => Ret (error_response (Plain reason))
  end.

(** [remote_admin_response]. *)
Definition remote_admin_response (st : settings) (node_id : string) (cid : Z) (body : string)
    : prog (relay E) string :=
  match parse_remote_admin_command body with
  | Ok c => let! r := handle_remote_admin_request st node_id cid c in Ret (encode_response r)
  | Err t => Ret (encode_response (error_response t))
  end.

(** One connection of the local socket ([run_admin_listener]): the answer to
    the trimmed request body. The status answer's version string is left
    out. *)
Definition admin_connection (st : settings) (body : string) : prog (relay E) AdminResponse :=
  match parse_relay_admin_command (trim body) with
  | Ok Status =>
      let! s := build_status_snapshot st in
      Ret {| ok := true; status := Some s; whitelist := None; node := None; answer := None; error := None |}
  | Ok Shutdown =>
      let! _ := act (fun w => Some (set_stopping w, tt)) in
      Ret (message_ok (Plain "shutting down"))
  | Ok (Invite ttl d) => handle_invite st ttl d
  | Ok (Remove fp) => handle_remove st fp
  | Err t => Ret (error_response t)
  end.

End handlers.

(** ** An instance, for the witnesses: the request is a bare command, or
    "remove " and a fingerprint. *)

Definition bare (c : string) (fp : option string) : RelayAdminRequest :=
  {| command := c; ttl_secs := None; deploy := None; req_fingerprint := fp; label := None;
     req_labels := None |}.

Definition plain_json : AdminJson :=
  {| parse_request := fun body =>
       if starts_with "remove " body
       then Ok (bare "remove" (Some (String.substring 7 (String.length body - 7) body)))
       else Ok (bare body None);
     encode_response := fun r => if ok r then "ok" else "error" |}.

Definition plain_settings : settings :=
  {| caps := default_capacity; lifecycle := default_lifecycle;
     ttls := {| invite_ttl := DEFAULT_INVITE_TTL; deploy_ttl := DEFAULT_DEPLOY_TTL |};
     listen_addr := "0.0.0.0:7475"; started_at := 0; tokens_parent := "home";
     tokens_tmp := "home/tokens.tmp"; tokens_path := "home/tokens.json"; whitelist_dir := "nodes";
     token_draw := fun _ => "token" |}.
