(* ===== verification/RelayLink.v ===== *)
(** * RelayLink: the protocol loop of one node link

    [src/infra/relay_link.rs], with the sweeper and the enrollment session of
    [src/infra/relay_server.rs]: registration, dispatch, routing and the
    epilogue, as programs over the relay's shared state. A link is a number;
    what its socket delivers is the list of inputs its loop consumes. *)

From S2P Require Import Prelude Bytes Frame Text Scheduler Routing Capacity ConnectionTable.
From S2P Require Import Presence Enrollment Tasks Relay Admin.

Record RegisteredLink := { reg_node_id : string; reg_connection : Z }.

(** What ends one wait of the [select!]: the retire signal, or a frame read
    (or the error the read ended in). *)
Inductive link_input :=
| Retired
| Read (r : result frame mux_error).

(** Which handler a connection belongs to, from the ALPN protocols its
    client offers. *)
Inductive AlpnRoute := AlpnLink | AlpnEnroll | AlpnWeb.

Definition ALPN_PROTOCOL_ENROLL : list byte := as_bytes "waitagent-enroll".
Definition ALPN_PROTOCOLS_WEB : list (list byte) := [as_bytes "h2"; as_bytes "http/1.1"].

Fixpoint route_alpn (protocols : list (list byte)) : AlpnRoute :=
  match protocols with
  | [] => AlpnLink
  | protocol :: protocols =>
      if bool_decide (protocol = ALPN_PROTOCOL_ENROLL) then AlpnEnroll
      else if bool_decide (protocol ∈ ALPN_PROTOCOLS_WEB) then AlpnWeb
      else route_alpn protocols
  end.

Section link.
Context {E : Type} {HE : Egress E} {HT : RustText} {HC : TokenCodec} {HJ : AdminJson}.

Definition send_stream_error (lid : ingress) (sid : Z) (code : RelayErrorCode) (msg : string)
    : prog (relay E) unit :=
  let! _ := send lid (FError sid (code_wire_value code) msg) in Ret tt.

(** [LinkScheduler::spawn]: the link's egress comes into being. A number
    that is in use names another link. *)
Definition spawn_link (lid : ingress) (fp : string) : prog (relay E) unit :=
  act (fun w =>
    match links w !! lid with
    | None => Some (set_links w (<[lid := {| fingerprint := fp; egress := new_egress |}]> (links w)), tt)
    | Some _ => None
    end).

(** [register_link]; [first] is [None] when the deadline passed. *)
Definition register_link (st : settings) (lid : ingress) (peer_fingerprint : string)
    (first : option (result frame mux_error)) : prog (relay E) (option RegisteredLink) :=
  match first with
  | Some (Ok (FRegister node_id)) =>
      if negb (eq_ignore_ascii_case node_id peer_fingerprint) then Ret None
      else
        let! known := reading (fun w => lookup_node (table w) node_id) in
        let! admitted :=
          match known with
          | Some _ => Ret true
          | None => reading (fun w => admit_register (caps st) (table_len (table w)))
          end in
        if negb admitted then
          let! _ := send_stream_error lid 0 NodeCapacity "relay is at max_nodes capacity" in Ret None
        else
          let! registered := on_table (fun w t => register (clock w) node_id lid t) in
          let! _ :=
            match previous registered with
            | Some previous =>
                let! _ := on_table (fun _ t => (tt, retire_link (entry_id previous) t)) in
                emit (Replaced node_id)
            | None => let! _ := emit (Registered node_id) in publish node_id true
            end in
          Ret (Some {| reg_node_id := node_id; reg_connection := registered_connection registered |})
  | _ => Ret None
  end.

(** [handle_open_stream]: [false] asks for the link's teardown. *)
Definition handle_open_stream (st : settings) (sid : Z) (target_node_id node_id : string) (cid : Z)
    (lid : ingress) : prog (relay E) bool :=
  if sid mod 2 =? 0 then Ret false
  else
    let! target := reading (fun w => lookup_node (table w) target_node_id) in
    match target with
    | None =>
        let! _ := send_stream_error lid sid TargetUnknown "target node is unknown or offline" in Ret true
    | Some target =>
        let! active := reading (fun w => stream_count (routing w)) in
        let! admission := act (fun w =>
          let '(a, m) := admit_open (clock w) (caps st) active (meter w) in Some (set_meter w m, a)) in
        match admission with
        | StreamsFull =>
            let! _ := send_stream_error lid sid StreamCapacity "relay is at max_streams capacity" in
            Ret true
        | ThroughputTooHigh =>
            let! _ := send_stream_error lid sid ThroughputExceeded
                        "relay forwarded-throughput threshold exceeded" in
            Ret true
        | Allow =>
            let! relay_sid := act (fun w =>
              match alloc_relay_stream (target_connection target) (table w) with
              | Some (id, t) => Some (set_table w t, id)
              | None => None
              end) in
            let! forward := on_routing (fun legs =>
              open_route legs {| connection_id := cid; stream_id := sid |}
                (target_connection target) relay_sid (target_outbound target) lid) in
            let! sent := send (peer_outbound forward) (FOpenStream relay_sid node_id) in
            let! _ := (if sent : bool then Ret tt
                       else send_stream_error lid sid TargetUnknown "target link closed during open") in
            Ret true
        end
    end.

(** [forward_routed]. *)
Definition forward_routed (cid sid : Z) (lid : ingress) (forwarded_bytes : Z) (build : Z -> frame)
    : prog (relay E) unit :=
  let! found := on_routing (fun legs =>
    (lookup_route legs {| connection_id := cid; stream_id := sid |}, legs)) in
  match found with
  | LookupOpen leg =>
      let! sent := send (peer_outbound leg) (build (stream_id (peer leg))) in
      if negb sent then send_stream_error lid sid StreamUnknown "peer link closed"
      else if 0 <? forwarded_bytes then
        act (fun w => Some (set_meter w (record (clock w) forwarded_bytes (meter w)), tt))
      else Ret tt
  | LookupClosed => send_stream_error lid sid StreamClosed "stream is closed"
  | LookupUnknown => send_stream_error lid sid StreamUnknown "unknown stream"
  end.

(** The arms of [dispatch_loop] for a frame: [false] breaks the loop. *)
Definition dispatch_frame (st : settings) (reg : RegisteredLink) (lid : ingress) (f : frame)
    : prog (relay E) bool :=
  let node_id := reg_node_id reg in
  let cid := reg_connection reg in
  match f with
  | FHeartbeat => let! _ := touch node_id cid in Ret true
  | FUnregister =>
      let! removed := on_table (fun _ t => remove_if_current node_id cid t) in
      let! _ := (if removed : bool
                 then let! _ := emit (Unregistered node_id) in publish node_id false
                 else Ret tt) in
      Ret false
  | FWatch target =>
      let! online := reading (fun w => bool_decide (is_Some (lookup_node (table w) target))) in
      let! _ := watch cid target lid online in
      Ret true
  | FAdminRequest seq command =>
      let! body := remote_admin_response st node_id cid command in
      let! _ := send lid (FAdminResponse seq body) in
      Ret true
  | FOpenStream sid target => handle_open_stream st sid target node_id cid lid
  | FData sid payload =>
      let! _ := forward_routed cid sid lid (len payload) (fun peer_sid => FData peer_sid payload) in
      Ret true
  | FWindow sid credit =>
      let! _ := forward_routed cid sid lid 0 (fun peer_sid => FWindow peer_sid credit) in
      Ret true
  | FClose sid =>
      let! outcome := on_routing (fun legs => close_leg legs {| connection_id := cid; stream_id := sid |}) in
      let! _ := match outcome with
                | Forward leg =>
                    let! _ := send (peer_outbound leg) (FClose (stream_id (peer leg))) in Ret tt
                | Swallow => Ret tt
                | CloseUnknown => send_stream_error lid sid StreamUnknown "unknown stream"
                end in
      Ret true
  | FCloseStream sid =>
      let! torn := on_routing (fun legs => teardown_pair legs {| connection_id := cid; stream_id := sid |}) in
      let! _ := match torn with
                | Some leg =>
                    let! _ := send (peer_outbound leg) (FCloseStream (stream_id (peer leg))) in Ret tt
                | None => send_stream_error lid sid StreamUnknown "unknown stream"
                end in
      Ret true
  | FOpen _ | FRegister _ | FError _ _ _ | FEnroll _ | FEnrollResponse _ | FPresence _ _
  | FAdminResponse _ _ => Ret false
  end.

(** [dispatch_loop]: with no input left it waits. *)
Fixpoint dispatch_loop (st : settings) (reg : RegisteredLink) (lid : ingress)
    (inputs : list link_input) : prog (relay E) unit :=
  match inputs with
  | [] => Act (fun _ => None)
  | Retired :: _ =>
      act (fun w => if decide (reg_connection reg ∈ signalled (table w)) then Some (w, tt) else None)
  | Read (Err _) :: _ => Ret tt
  | Read (Ok f) :: inputs =>
      let! go_on := dispatch_frame st reg lid f in
      if go_on : bool then dispatch_loop st reg lid inputs else Ret tt
  end.

Fixpoint close_peers (peers : list (ingress * Z)) : prog (relay E) unit :=
  match peers with
  | [] => Ret tt
  | (lid, sid) :: peers => let! _ := post lid (FCloseStream sid) in close_peers peers
  end.

(** The epilogue of [run_link]. *)
Definition epilogue (reg : RegisteredLink) : prog (relay E) unit :=
  let! removed := on_table (fun _ t => remove_if_current (reg_node_id reg) (reg_connection reg) t) in
  let! _ := (if removed : bool then publish (reg_node_id reg) false else Ret tt) in
  let! _ := unwatch_connection (reg_connection reg) in
  let! peers := on_routing (fun legs =>
    teardown_connection (fst <$> map_to_list legs) legs (reg_connection reg)) in
  close_peers peers.

Definition run_link (st : settings) (lid : ingress) (peer_fingerprint : string)
    (first : option (result frame mux_error)) (inputs : list link_input) : prog (relay E) unit :=
  let! _ := spawn_link lid peer_fingerprint in
  let! registered := register_link st lid peer_fingerprint first in
  match registered with
  | None => Ret tt
  | Some reg =>
      let! _ := dispatch_loop st reg lid inputs in
      epilogue reg
  end.

(** ** The server's other tasks *)

Fixpoint evict (out : list (string * ConnectionEntry)) : prog (relay E) unit :=
  match out with
  | [] => Ret tt
  | (node_id, entry) :: out =>
      let! _ := post (outbound entry) (error_frame HeartbeatLost (message HeartbeatLost)) in
      let! _ := on_table (fun _ t => (tt, retire_link (entry_id entry) t)) in
      let! _ := emit (EvictedOffline node_id) in
      let! _ := publish node_id false in
      evict out
  end.

(** One round of the sweeper. *)
Definition sweep (st : settings) : prog (relay E) unit :=
  let! out := on_table (fun w t =>
    evict_idle (clock w) (offline_after (lifecycle st)) (fst <$> map_to_list (entries t)) t) in
  evict out.

(** [run_enrollment_connection]: the answer written, if any. *)
Definition run_enrollment_connection (st : settings) (relay_fingerprint peer_fingerprint pem : string)
    (first : option (result frame mux_error)) : prog (relay E) (option frame) :=
  match first with
  | Some (Ok f) =>
      act (fun w =>
        let '(ans, tks, d) := handle_enrollment_frame f peer_fingerprint pem (tokens w)
                                (whitelist_dir st) relay_fingerprint (unix w) (disk w) in
        Some (set_store w tks d, ans))
  | _ => Ret None
  end.

(** Time passes. *)
Definition tick (now unix_now : Z) : prog (relay E) unit :=
  act (fun w =>
    Some ({| table := table w; routing := routing w; watchers := watchers w; meter := meter w;
             tokens := tokens w; disk := disk w; links := links w; events := events w; clock := now;
             unix := unix_now; stopping := stopping w |}, tt)).

(** The tasks of a relay. *)
Inductive relay_task (st : settings) : prog (relay E) unit -> Prop :=
| task_link lid fp first inputs : relay_task st (run_link st lid fp first inputs)
| task_admin body : relay_task st (let! _ := admin_connection st body in Ret tt)
| task_sweep : relay_task st (sweep st)
| task_enroll relay_fp fp pem first :
    relay_task st (let! _ := run_enrollment_connection st relay_fp fp pem first in Ret tt)
| task_tick now unix_now : relay_task st (tick now unix_now).

End link.
