(* ===== verification/RelaySafety.v ===== *)
(** * RelaySafety: what holds in every interleaving of the relay's tasks

    The invariant that ties the tables together: an entry is registered
    under the certificate of the link that holds it, a connection id names
    one entry, and every route and watch leads to the queue of the link that
    registered the connection it names. It is kept by every action of every
    task, so it holds whatever the schedule. *)

From S2P Require Import Prelude Bytes Frame Text Scheduler Routing Capacity ConnectionTable.
From S2P Require Import Presence Enrollment Tasks Relay Admin RelayLink.

Create HintDb relay.

(** One step through a program: a bind whose first part is known to be safe,
    a branch, or a program the database knows. *)
Ltac rstep :=
  match goal with
  | |- safe _ _ (bind (match ?x with _ => _ end) _) _ _ => destruct x
  | |- safe _ _ (bind (bind _ _) _) _ _ =>
      eapply (safe_bind _ _ _ _ (fun _ _ => True)); [|intros ? ? ? _; cbn beta]
  | |- safe _ _ (bind _ _) _ _ =>
      eapply (safe_bind _ _ _ _ (fun _ _ => True)); [solve [eauto with relay]|intros ? ? ? _; cbn beta]
  | |- safe _ _ (match ?x with _ => _ end) _ _ => destruct x
  | |- safe _ _ (Ret _) _ _ => done
  | |- _ => solve [done | eauto with relay]
  end.

Section safety.
Context {E : Type} {HE : Egress E} {HT : RustText} {HC : TokenCodec} {HJ : AdminJson}.
Implicit Types w : relay E.

(** Connection ids have not wrapped around. *)
Definition within w : Prop := registrations (table w) <= 2 ^ 64.

(** Connection [cid] was registered by link [lid]. *)
Definition owned w (cid : Z) (lid : ingress) : Prop :=
  exists c, cells (table w) !! cid = Some c /\ owner c = lid.

(** Link [lid] proved a certificate with fingerprint [n], up to case. *)
Definition certified w (lid : ingress) (n : string) : Prop :=
  exists l, links w !! lid = Some l /\ eq_ignore_ascii_case n (fingerprint l) = true.

Record relay_wf w : Prop := {
  rw_entry : forall n e, entries (table w) !! n = Some e ->
    owned w (entry_id e) (outbound e) /\ certified w (outbound e) n;
  rw_unique : forall n1 n2 e1 e2,
    entries (table w) !! n1 = Some e1 -> entries (table w) !! n2 = Some e2 ->
    entry_id e1 = entry_id e2 -> n1 = n2;
  rw_cells : forall cid, is_Some (cells (table w) !! cid) -> 0 <= cid < registrations (table w);
  rw_legs : forall k leg, routing w !! k = Some leg ->
    owned w (connection_id (peer leg)) (peer_outbound leg);
  rw_watch : forall target m cid lid, watchers w !! target = Some m -> m !! cid = Some lid ->
    owned w cid lid;
}.

Definition relay_inv w : Prop := 0 <= registrations (table w) /\ (within w -> relay_wf w).

(** What actions do to the state others rely on: registrations only grow,
    links keep their certificate, connections their owner. *)
Record evolves w w1 : Prop := {
  ev_registrations : registrations (table w) <= registrations (table w1);
  ev_links : forall lid l, links w !! lid = Some l ->
    exists l1, links w1 !! lid = Some l1 /\ fingerprint l1 = fingerprint l;
  ev_owned : within w1 -> forall cid lid, owned w cid lid -> owned w1 cid lid;
}.

#[global] Instance evolves_preorder : PreOrder evolves.
Proof.
  split.
  - intros w. constructor; [lia|eauto|done].
  - intros w w1 w2 [Hr Hl Ho] [Hr1 Hl1 Ho1]. constructor; [lia| |].
    + intros lid l Hll. destruct (Hl lid l Hll) as (l1 & H1 & <-). by apply Hl1.
    + intros Hw cid lid Hc. apply Ho1; [done|]. apply Ho; [|done]. unfold within in *. lia.
Qed.

(** The facts a task holds on to. *)
Definition knows (cid : Z) (lid : ingress) w : Prop := within w -> owned w cid lid.

Lemma knows_stable cid lid w w1 : evolves w w1 -> knows cid lid w -> knows cid lid w1.
Proof.
  intros [Hr _ Ho] Hk Hw. apply Ho; [done|]. apply Hk. unfold within in *. lia.
Qed.

(** An action that registers nothing: entries, legs and watches only
    disappear, or are known to belong where they lead. *)
Record keeps w w1 : Prop := {
  kp_registrations : registrations (table w1) = registrations (table w);
  kp_cells : forall cid, owner <$> cells (table w1) !! cid = owner <$> cells (table w) !! cid;
  kp_entries : forall n e1, entries (table w1) !! n = Some e1 ->
    exists e, entries (table w) !! n = Some e /\ entry_id e1 = entry_id e /\ outbound e1 = outbound e;
  kp_links : forall lid, fingerprint <$> links w1 !! lid = fingerprint <$> links w !! lid;
  kp_legs : forall k leg1, routing w1 !! k = Some leg1 ->
    (exists k0 leg, routing w !! k0 = Some leg /\ peer leg1 = peer leg
                    /\ peer_outbound leg1 = peer_outbound leg)
    \/ knows (connection_id (peer leg1)) (peer_outbound leg1) w;
  kp_watch : forall target m cid lid, watchers w1 !! target = Some m -> m !! cid = Some lid ->
    (exists t0 m0, watchers w !! t0 = Some m0 /\ m0 !! cid = Some lid) \/ knows cid lid w;
}.

Lemma keeps_owned w w1 cid lid : keeps w w1 -> owned w1 cid lid <-> owned w cid lid.
Proof.
  intros [_ Hc _ _ _ _]. specialize (Hc cid). unfold owned.
  destruct (cells (table w1) !! cid), (cells (table w) !! cid); simpl in Hc; naive_solver.
Qed.

Lemma keeps_certified w w1 lid n : keeps w w1 -> certified w lid n -> certified w1 lid n.
Proof.
  intros [_ _ _ Hl _ _] (l & H1 & H2). specialize (Hl lid). rewrite H1 in Hl. unfold certified.
  destruct (links w1 !! lid) as [l1|]; simpl in Hl; [|done]. exists l1. split; [done|]. congruence.
Qed.

Lemma keeps_inv w w1 : keeps w w1 -> relay_inv w -> relay_inv w1 /\ evolves w w1.
Proof.
  intros Hk [H0 Hwf]. pose proof Hk as [Hr Hc He Hl Hg Hwt]. split.
  - split; [lia|]. unfold within. rewrite Hr. intros Hw. specialize (Hwf Hw) as [We Wu Wc Wl Ww]. split.
    + intros n e1 H1. destruct (He n e1 H1) as (e & Hen & -> & ->). destruct (We n e Hen) as [Ho Hcf].
      split; [by apply (keeps_owned w)|by eapply keeps_certified].
    + intros n1 n2 e1 e2 H1 H2 Eid. destruct (He _ _ H1) as (a & Ha & Eq1 & _).
      destruct (He _ _ H2) as (b & Hb & Eq2 & _). eapply Wu; [exact Ha|exact Hb|congruence].
    + intros cid Hs. rewrite Hr. apply Wc. specialize (Hc cid).
      destruct (cells (table w1) !! cid), (cells (table w) !! cid); simpl in Hc; try done.
    + intros k leg1 Hlg. apply (keeps_owned w); [done|].
      destruct (Hg k leg1 Hlg) as [(k0 & leg & H1 & -> & ->)|Hkn]; [by eapply Wl|by apply Hkn].
    + intros target m cid lid H1 H2. apply (keeps_owned w); [done|].
      destruct (Hwt target m cid lid H1 H2) as [(t0 & m0 & H3 & H4)|Hkn]; [by eapply Ww|by apply Hkn].
  - constructor; [lia| |].
    + intros lid l Hll. specialize (Hl lid). rewrite Hll in Hl. simpl in Hl.
      destruct (links w1 !! lid); naive_solver.
    + intros _ cid lid. by apply (keeps_owned w).
Qed.

Lemma keeps_same w w1 :
  table w1 = table w -> routing w1 = routing w -> watchers w1 = watchers w ->
  (forall lid, fingerprint <$> links w1 !! lid = fingerprint <$> links w !! lid) -> keeps w w1.
Proof. intros Ht Hr Hw Hl. constructor; rewrite ?Ht, ?Hr, ?Hw; try done; eauto 10. Qed.

Lemma keeps_table w t :
  registrations t = registrations (table w) ->
  (forall cid, owner <$> cells t !! cid = owner <$> cells (table w) !! cid) ->
  (forall n e1, entries t !! n = Some e1 ->
    exists e, entries (table w) !! n = Some e /\ entry_id e1 = entry_id e /\ outbound e1 = outbound e) ->
  keeps w (set_table w t).
Proof. intros. constructor; simpl; try done; eauto 10. Qed.

Lemma keeps_routing w r :
  (forall k leg1, r !! k = Some leg1 ->
    (exists k0 leg, routing w !! k0 = Some leg /\ peer leg1 = peer leg
                    /\ peer_outbound leg1 = peer_outbound leg)
    \/ knows (connection_id (peer leg1)) (peer_outbound leg1) w) ->
  keeps w (set_routing w r).
Proof. intros. constructor; simpl; try done; eauto 10. Qed.

Lemma keeps_queue w lid l e : links w !! lid = Some l -> keeps w (queue_on w lid l e).
Proof.
  intros Hl. apply keeps_same; try done. intros i. simpl.
  destruct (decide (lid = i)) as [<-|Hne]; [by rewrite lookup_insert_eq, Hl|by rewrite lookup_insert_ne].
Qed.

(** ** Actions are safe *)

Abbreviation rsafe p Q w := (safe relay_inv evolves p Q w).

Lemma safe_keeps {A} (f : relay E -> option (relay E * A)) (Q : A -> relay E -> Prop) w :
  (forall w1 w2 a, evolves w w1 -> relay_inv w1 -> f w1 = Some (w2, a) -> keeps w1 w2 /\ Q a w2) ->
  rsafe (act f) Q w.
Proof.
  intros Hf. apply safe_act. intros w1 w2 a H1 HI Ef. destruct (Hf w1 w2 a H1 HI Ef) as [Hk HQ].
  destruct (keeps_inv _ _ Hk HI). done.
Qed.

Lemma safe_reading {A} (f : relay E -> A) (Q : A -> relay E -> Prop) w :
  (forall w1, evolves w w1 -> relay_inv w1 -> Q (f w1) w1) -> rsafe (reading f) Q w.
Proof.
  intros HQ. apply safe_keeps. intros w1 w2 a H1 HI [= <- <-].
  split; [by apply keeps_same|by apply HQ].
Qed.

Lemma safe_emit ev w : rsafe (emit ev) (fun _ _ => True) w.
Proof. apply safe_keeps. intros w1 w2 a _ _ [= <- <-]. split; [by apply keeps_same|done]. Qed.

Lemma safe_send lid f w : rsafe (send lid f) (fun _ _ => True) w.
Proof.
  apply safe_keeps. intros w1 w2 a _ _ Hs. split; [|done].
  destruct (links w1 !! lid) as [l|] eqn:Hl; [|simplify_eq; by apply keeps_same].
  destruct (offer (egress l) f) as [e|[|]]; simplify_eq; [by apply keeps_queue|by apply keeps_same].
Qed.

Lemma safe_post lid f w : rsafe (post lid f) (fun _ _ => True) w.
Proof.
  apply safe_keeps. intros w1 w2 a _ _ Hs. split; [|done].
  destruct (links w1 !! lid) as [l|] eqn:Hl; [|simplify_eq; by apply keeps_same].
  destruct (offer (egress l) f) as [e|]; simplify_eq; [by apply keeps_queue|by apply keeps_same].
Qed.

Lemma safe_table {A} (f : relay E -> RelayConnectionTable -> A * RelayConnectionTable) w :
  (forall w1, registrations (snd (f w1 (table w1))) = registrations (table w1)) ->
  (forall w1 cid, owner <$> cells (snd (f w1 (table w1))) !! cid = owner <$> cells (table w1) !! cid) ->
  (forall w1 n e1, entries (snd (f w1 (table w1))) !! n = Some e1 ->
    exists e, entries (table w1) !! n = Some e /\ entry_id e1 = entry_id e /\ outbound e1 = outbound e) ->
  rsafe (on_table f) (fun _ _ => True) w.
Proof.
  intros Hr Hc He. apply safe_keeps. intros w1 w2 a _ _ Hs. split; [|done].
  specialize (Hr w1). specialize (Hc w1). specialize (He w1).
  destruct (f w1 (table w1)) as [b t]. simplify_eq. by apply keeps_table.
Qed.

Lemma safe_table_subset {A} (f : relay E -> RelayConnectionTable -> A * RelayConnectionTable) w :
  (forall w1, registrations (snd (f w1 (table w1))) = registrations (table w1) /\
              cells (snd (f w1 (table w1))) = cells (table w1) /\
              entries (snd (f w1 (table w1))) ⊆ entries (table w1)) ->
  rsafe (on_table f) (fun _ _ => True) w.
Proof.
  intros Hf. apply safe_table; intros w1; destruct (Hf w1) as (Hr & Hc & He); [done|by rewrite Hc|].
  intros n e1 H1. exists e1. split; [|done]. by eapply lookup_weaken.
Qed.

Lemma safe_routing {A} (f : gmap RouteKey RouteLeg -> A * gmap RouteKey RouteLeg)
    (Q : A -> relay E -> Prop) w :
  (forall legs k leg1, snd (f legs) !! k = Some leg1 ->
    exists k0 leg, legs !! k0 = Some leg /\ peer leg1 = peer leg
                   /\ peer_outbound leg1 = peer_outbound leg) ->
  (forall w1, evolves w w1 -> Q (fst (f (routing w1))) (set_routing w1 (snd (f (routing w1))))) ->
  rsafe (on_routing f) Q w.
Proof.
  intros Hf HQ. apply safe_keeps. intros w1 w2 a Hev _ Hs. specialize (Hf (routing w1)).
  specialize (HQ w1 Hev). destruct (f (routing w1)) as [b r]. simplify_eq. simpl in *.
  split; [|done]. apply keeps_routing. intros k leg1 Hk. left. by apply (Hf k).
Qed.

Lemma safe_reading_any {A} (f : relay E -> A) w : rsafe (reading f) (fun _ _ => True) w.
Proof. by apply safe_reading. Qed.

Lemma safe_quiet {A} (f : relay E -> option (relay E * A)) w :
  (forall w1 w2 a, f w1 = Some (w2, a) ->
     table w2 = table w1 /\ routing w2 = routing w1 /\ watchers w2 = watchers w1 /\ links w2 = links w1) ->
  rsafe (act f) (fun _ _ => True) w.
Proof.
  intros Hf. apply safe_keeps. intros w1 w2 a _ _ Hs. split; [|done].
  destruct (Hf w1 w2 a Hs) as (? & ? & ? & Hl). apply keeps_same; [done..|]. by rewrite Hl.
Qed.

Local Ltac quiet :=
  apply safe_quiet; intros ? ? ? Ha; repeat case_match; by simplify_eq/=.

Lemma safe_ret {A} (a : A) w : rsafe (Ret a) (fun _ _ => True) w.
Proof. done. Qed.

#[local] Hint Resolve safe_emit safe_send safe_post safe_reading_any safe_ret : relay.

Lemma safe_post_all lids f w : rsafe (post_all lids f) (fun _ _ => True) w.
Proof. revert w. induction lids; intros w; simpl; repeat rstep. Qed.
#[local] Hint Resolve safe_post_all : relay.

Lemma safe_publish n online w : rsafe (publish n online) (fun _ _ => True) w.
Proof. unfold publish. repeat rstep. Qed.
#[local] Hint Resolve safe_publish : relay.

Lemma safe_retire_link {A} (a : A) cid w :
  rsafe (on_table (fun _ t => (a, retire_link cid t))) (fun _ _ => True) w.
Proof. apply safe_table_subset. by intros w1. Qed.

Lemma safe_remove_if_current n cid w :
  rsafe (on_table (fun _ t => remove_if_current n cid t)) (fun _ _ => True) w.
Proof.
  apply safe_table_subset. intros w1. unfold remove_if_current.
  destruct (entries (table w1) !! n) as [e|]; [|done].
  destruct (_ =? _); [|done]. simpl. split_and!; [done..|apply delete_subseteq].
Qed.

Lemma safe_take_entry n w : rsafe (on_table (fun _ t => take_entry n t)) (fun _ _ => True) w.
Proof. apply safe_table_subset. intros w1. simpl. split_and!; [done..|apply delete_subseteq]. Qed.

Lemma safe_set_labels n cid ls w :
  rsafe (on_table (fun _ t => (tt, set_labels n cid ls t))) (fun _ _ => True) w.
Proof.
  apply safe_table; intros w1; unfold set_labels; simpl;
    (destruct (entries (table w1) !! n) as [e|] eqn:He; [destruct (entry_id e =? cid)|]); simpl; eauto.
  intros n1 e1 [[<- <-]|[_ Hl]]%lookup_insert_Some; [simpl|]; eauto.
Qed.

Lemma safe_touch_cell cid w :
  rsafe (on_table (fun w t => (tt, touch_cell (clock w) cid t))) (fun _ _ => True) w.
Proof.
  apply safe_table; intros w1; unfold touch_cell; simpl;
    (destruct (cells (table w1) !! cid) as [c|] eqn:Hc; simpl); eauto.
  intros i. destruct (decide (cid = i)) as [<-|]; [by rewrite lookup_insert_eq, Hc|by rewrite lookup_insert_ne].
Qed.

Lemma safe_evict_idle idle w :
  rsafe (on_table (fun w t => evict_idle (clock w) idle (fst <$> map_to_list (entries t)) t))
        (fun _ _ => True) w.
Proof.
  apply safe_table_subset. intros w1. generalize (fst <$> map_to_list (entries (table w1))). intros order.
  generalize (table w1) as t. induction order as [|n order IH]; intros t; simpl; [done|].
  destruct (entries t !! n) as [e|]; [|apply IH]. destruct (_ <=? _); [|apply IH].
  pose proof (IH (with_entries t (delete n (entries t)))) as (Hr & Hc & He).
  destruct (evict_idle _ _ _ _). simpl in *. split_and!; [done..|]. etrans; [done|]. apply delete_subseteq.
Qed.

Lemma safe_unwatch cid w : rsafe (unwatch_connection cid) (fun _ _ => True) w.
Proof.
  apply safe_keeps. intros w1 w2 a _ _ [= <- <-]. split; [|done].
  constructor; simpl; try done; eauto 10. intros target m c lid Hm Hc. left.
  pose proof (unwatch_lookup cid (watchers w1) target) as Hu. rewrite Hm in Hu.
  destruct Hu as (_ & old & Ho & ->). exists target, old. split; [done|].
  by apply lookup_delete_Some in Hc as [_ ?].
Qed.

#[local] Hint Resolve safe_retire_link safe_remove_if_current safe_take_entry safe_set_labels
  safe_touch_cell safe_evict_idle safe_unwatch : relay.

Lemma safe_watch cid target lid online w :
  knows cid lid w -> rsafe (watch cid target lid online) (fun _ _ => True) w.
Proof.
  intros Hk. eapply (safe_bind _ _ _ _ (fun _ _ => True)); [|intros; by eauto with relay].
  apply safe_keeps. intros w1 w2 a Hev _ [= <- <-]. split; [|done].
  constructor; simpl; try done; eauto 10. intros t m c l Hm Hc. unfold add_watch in Hm.
  apply lookup_insert_Some in Hm as [[<- <-]|[_ Hm]]; [|eauto 10].
  apply lookup_insert_Some in Hc as [[<- <-]|[_ Hc]]; [right; by eapply knows_stable|].
  destruct (watchers w1 !! to_lowercase target) as [m0|] eqn:E0; simpl in Hc; [eauto 10|].
  by rewrite lookup_empty in Hc.
Qed.

Lemma safe_touch n cid w : rsafe (touch n cid) (fun _ _ => True) w.
Proof. unfold touch. repeat rstep. Qed.

Lemma safe_retire_notifying n code w : rsafe (retire_notifying n code) (fun _ _ => True) w.
Proof. unfold retire_notifying. repeat rstep. Qed.
#[local] Hint Resolve safe_touch safe_retire_notifying : relay.

(** ** Handlers are safe *)

Lemma safe_invite st ttl d w : rsafe (handle_invite st ttl d) (fun _ _ => True) w.
Proof.
  unfold handle_invite. destruct d, ttl;
    (eapply (safe_bind _ _ _ _ (fun _ _ => True)); [quiet|intros ? ? ? _];
     eapply (safe_bind _ _ _ _ (fun _ _ => True)); [quiet|by intros]).
Qed.

Lemma safe_remove st fp w : rsafe (handle_remove st fp) (fun _ _ => True) w.
Proof.
  unfold handle_remove. eapply (safe_bind _ _ _ _ (fun _ _ => True)).
  - quiet.
  - intros a w1 _ _. repeat rstep.
Qed.

Lemma safe_status st w : rsafe (build_status_snapshot st) (fun _ _ => True) w.
Proof.
  unfold build_status_snapshot. repeat rstep.
  eapply (safe_bind _ _ _ _ (fun _ _ => True)); [quiet|by intros].
Qed.
#[local] Hint Resolve safe_invite safe_remove safe_status : relay.

Lemma safe_remote_admin st n cid c w : rsafe (handle_remote_admin_request st n cid c) (fun _ _ => True) w.
Proof. unfold handle_remote_admin_request. repeat rstep. Qed.
#[local] Hint Resolve safe_remote_admin : relay.

Lemma safe_remote_response st n cid body w : rsafe (remote_admin_response st n cid body) (fun _ _ => True) w.
Proof. unfold remote_admin_response. repeat rstep. Qed.

Lemma safe_admin_connection st body w : rsafe (admin_connection st body) (fun _ _ => True) w.
Proof.
  unfold admin_connection. repeat rstep. eapply (safe_bind _ _ _ _ (fun _ _ => True)); [quiet|by intros].
Qed.

Lemma safe_stream_error lid sid code msg w : rsafe (send_stream_error lid sid code msg) (fun _ _ => True) w.
Proof. unfold send_stream_error. repeat rstep. Qed.
#[local] Hint Resolve safe_remote_response safe_admin_connection safe_stream_error : relay.

(** The link's egress appears under a number nobody uses. *)
Lemma safe_spawn_link lid fp w :
  rsafe (spawn_link lid fp)
    (fun _ w1 => exists l, links w1 !! lid = Some l /\ fingerprint l = fp) w.
Proof.
  apply safe_act. intros w1 w2 a _ [H0 Hwf] Hs. destruct (links w1 !! lid) eqn:Hl; simplify_eq. split_and!.
  - split; [done|]. intros Hw. specialize (Hwf Hw) as [We Wu Wc Wl Ww]. split; try done.
    intros n e He. destruct (We n e He) as [Ho (l & Hll & Hc)]. split; [done|]. exists l. split; [|done].
    simpl. rewrite lookup_insert_ne; [done|congruence].
  - constructor; simpl; [lia| |done]. intros i l Hi. exists l. split; [|done].
    rewrite lookup_insert_ne; [done|congruence].
  - simpl. rewrite lookup_insert_eq. eauto.
Qed.

Lemma certificate_stable lid fp w w1 :
  evolves w w1 -> (exists l, links w !! lid = Some l /\ fingerprint l = fp) ->
  exists l, links w1 !! lid = Some l /\ fingerprint l = fp.
Proof. intros [_ Hl _] (l & H1 & <-). by apply Hl. Qed.

Lemma register_wf w lid fp n l now :
  relay_wf w -> links w !! lid = Some l -> fingerprint l = fp -> eq_ignore_ascii_case n fp = true ->
  0 <= registrations (table w) -> wrap 64 (registrations (table w)) = registrations (table w) ->
  relay_wf (set_table w (snd (register now n lid (table w)))).
Proof.
  intros [We Wu Wc Wl Ww] Hl <- Hn H0 Hw. unfold register. rewrite Hw. simpl.
  assert (cells (table w) !! registrations (table w) = None) as Hnone.
  { apply eq_None_not_Some. intros Hs. apply Wc in Hs. lia. }
  assert (forall c ob, owned w c ob -> exists cl,
    <[registrations (table w) := {| last_seen := now; next_relay_stream := 2; owner := lid |}]>
      (cells (table w)) !! c = Some cl /\ owner cl = ob) as Hold.
  { intros c ob (cl & Hc & Ho). exists cl. rewrite lookup_insert_ne; [done|congruence]. }
  split; simpl; try by eauto.
  - intros n1 e He. apply lookup_insert_Some in He as [[<- <-]|[_ He]]; simpl.
    + split; [|by exists l]. eexists. simpl. by rewrite lookup_insert_eq.
    + destruct (We n1 e He) as [Ho Hc]. split; [by apply Hold|done].
  - intros n1 n2 e1 e2 H1 H2 Eid. apply lookup_insert_Some in H1 as [[<- <-]|[Hn1 H1]];
      apply lookup_insert_Some in H2 as [[<- <-]|[Hn2 H2]]; [done|..|by eapply Wu];
      exfalso; simpl in Eid; [destruct (We _ _ H2) as [(c & Hc & _) _]|destruct (We _ _ H1) as [(c & Hc & _) _]];
      congruence.
  - intros c Hs. destruct (decide (c = registrations (table w))) as [->|Hne]; [lia|].
    rewrite lookup_insert_ne in Hs by congruence. apply Wc in Hs. lia.
  - intros k leg Hk. apply Hold. by eapply Wl.
  - intros target m c ob Hm Hc. apply Hold. by eapply Ww.
Qed.

(** Registering puts the link's own certificate in the table. *)
Lemma safe_register lid fp n w :
  eq_ignore_ascii_case n fp = true ->
  (exists l, links w !! lid = Some l /\ fingerprint l = fp) ->
  rsafe (on_table (fun w t => register (clock w) n lid t))
    (fun r w1 => knows (registered_connection r) lid w1) w.
Proof.
  intros Hn Hfp. apply safe_act. intros w1 w2 r Hev [H0 Hwf] Hs. simpl in Hs. simplify_eq.
  destruct (certificate_stable _ _ _ _ Hev Hfp) as (l & Hl & Hlf).
  set (cid := wrap 64 (registrations (table w1))).
  assert (within w1 -> registrations (table w1) < 2 ^ 64 ->
          cid = registrations (table w1) /\ cells (table w1) !! cid = None) as Hfresh.
  { intros Hw Hlt. assert (cid = registrations (table w1)) as Hc by (apply Z.mod_small; lia).
    split; [done|]. apply eq_None_not_Some. intros Hs. apply (rw_cells _ (Hwf Hw)) in Hs. lia. }
  assert (within (set_table w1 (snd (register (clock w1) n lid (table w1)))) ->
          within w1 /\ registrations (table w1) < 2 ^ 64) as Hin by (unfold within; simpl; lia).
  split_and!.
  - split; [simpl; lia|]. intros Hw. destruct (Hin Hw) as [Hw1 Hlt]. destruct (Hfresh Hw1 Hlt) as [Hc Hnone].
    by apply register_wf with fp l; auto.
  - constructor; simpl; [lia|eauto|]. intros Hw c ob (cl & Hcl & Hob). destruct (Hin Hw) as [Hw1 Hlt].
    destruct (Hfresh Hw1 Hlt) as [Hc Hnone]. exists cl. split; [|done]. simpl.
    rewrite lookup_insert_ne; [done|]. intros <-. by rewrite Hnone in Hcl.
  - intros Hw. eexists. simpl. by rewrite lookup_insert_eq.
Qed.

Lemma safe_register_link st lid fp first w :
  (exists l, links w !! lid = Some l /\ fingerprint l = fp) ->
  rsafe (register_link st lid fp first)
    (fun r w1 => match r with Some reg => knows (reg_connection reg) lid w1 | None => True end) w.
Proof.
  intros Hfp. unfold register_link. destruct first as [[[]|]|]; try done.
  destruct (eq_ignore_ascii_case node_id fp) eqn:En; [simpl|done].
  eapply (safe_bind _ _ _ _ (fun _ _ => True)); [by eauto with relay|intros known w1 H1 _; cbn beta].
  eapply (safe_bind _ _ _ _ (fun _ _ => True)); [destruct known; by eauto with relay|intros ok w2 H2 _; cbn beta].
  destruct ok; simpl;
    [|eapply (safe_bind _ _ _ _ (fun _ _ => True)); [by eauto with relay|by intros]].
  eapply (safe_bind relay_inv evolves); [apply safe_register with fp; [done|]|intros r w3 H3 Hk; cbn beta].
  { do 2 (eapply certificate_stable; [done|]). done. }
  eapply (safe_bind _ _ _ _ (fun _ _ => True)); [repeat rstep|].
  intros _ w4 H4 _. exact (knows_stable _ _ _ _ H4 Hk).
Qed.

Lemma safe_alloc cid w :
  rsafe (act (fun w => match alloc_relay_stream cid (table w) with
                       | Some (id, t) => Some (set_table w t, id)
                       | None => None
                       end)) (fun _ _ => True) w.
Proof.
  apply safe_keeps. intros w1 w2 a _ _ Hs. split; [|done]. unfold alloc_relay_stream in Hs.
  destruct (cells (table w1) !! cid) as [c|] eqn:Hc; simplify_eq. apply keeps_table; simpl; [done| |eauto].
  intros i. destruct (decide (cid = i)) as [<-|]; [by rewrite lookup_insert_eq, Hc|by rewrite lookup_insert_ne].
Qed.

Lemma safe_open_route from tc ts tob fob w :
  knows tc tob w -> knows (connection_id from) fob w ->
  rsafe (on_routing (fun legs => open_route legs from tc ts tob fob)) (fun _ _ => True) w.
Proof.
  intros Ht Hf. apply safe_keeps. intros w1 w2 a Hev _ Hs. simpl in Hs. simplify_eq. split; [|done].
  apply keeps_routing. intros k leg1 Hk. apply lookup_insert_Some in Hk as [[<- <-]|[_ Hk]].
  { right. by eapply knows_stable. }
  apply lookup_insert_Some in Hk as [[<- <-]|[_ Hk]]; [right; by eapply knows_stable|eauto 10].
Qed.
#[local] Hint Resolve safe_alloc : relay.

Lemma safe_open_stream st sid target n cid lid w :
  knows cid lid w -> rsafe (handle_open_stream st sid target n cid lid) (fun _ _ => True) w.
Proof.
  intros Hk. unfold handle_open_stream. destruct (_ =? _); [done|].
  eapply (safe_bind _ _ _ _ (fun t w1 => match t with
    | Some t => knows (target_connection t) (target_outbound t) w1 | None => True end)).
  { apply safe_reading. intros w1 _ [_ Hwf]. unfold lookup_node.
    destruct (entries (table w1) !! target) as [e|] eqn:He; simpl; [|done].
    intros Hw. by apply (rw_entry _ (Hwf Hw) target). }
  intros [t|] w1 H1 Ht; [|repeat rstep].
  eapply (safe_bind _ _ _ _ (fun _ _ => True)); [by eauto with relay|intros n1 w2 H2 _; cbn beta].
  eapply (safe_bind _ _ _ _ (fun _ _ => True)); [quiet|intros [] w3 H3 _]; [|repeat rstep..].
  eapply (safe_bind _ _ _ _ (fun _ _ => True)); [by eauto with relay|intros rs w4 H4 _; cbn beta].
  eapply (safe_bind _ _ _ _ (fun _ _ => True)); [|intros leg w5 H5 _; repeat rstep].
  assert (evolves w1 w4) as H14 by (by do 2 (etrans; [done|])).
  apply safe_open_route; [by apply (knows_stable _ _ w1)|]. apply (knows_stable _ _ w); [|done].
  by etrans.
Qed.

Lemma safe_lookup_route key w :
  rsafe (on_routing (fun legs => (lookup_route legs key, legs))) (fun _ _ => True) w.
Proof. apply safe_routing; [|done]. simpl. eauto 10. Qed.

Lemma safe_close_leg key w : rsafe (on_routing (fun legs => close_leg legs key)) (fun _ _ => True) w.
Proof.
  apply safe_routing; [|done]. intros legs k leg1. unfold close_leg.
  destruct (legs !! key) as [leg|] eqn:Hk; [|simpl; eauto 10]. destruct (closed leg); [simpl; eauto 10|].
  assert (forall k l1, <[key := mark_closed leg]> legs !! k = Some l1 ->
    exists k0 l, legs !! k0 = Some l /\ peer l1 = peer l /\ peer_outbound l1 = peer_outbound l) as Hm.
  { intros k1 l1 [[<- <-]|[_ ?]]%lookup_insert_Some; [exists key, leg|]; eauto 10. }
  simpl. destruct (from_option _ _ _); [|by apply Hm].
  intros [_ [_ Hl]%lookup_delete_Some]%lookup_delete_Some. by apply (Hm k).
Qed.

Lemma safe_teardown_pair key w : rsafe (on_routing (fun legs => teardown_pair legs key)) (fun _ _ => True) w.
Proof.
  apply safe_routing; [|done]. intros legs k leg1. unfold teardown_pair.
  destruct (legs !! key) as [leg|]; [|simpl; eauto 10]. simpl.
  intros [_ [_ Hl]%lookup_delete_Some]%lookup_delete_Some. eauto 10.
Qed.

Lemma safe_teardown_connection cid w :
  rsafe (on_routing (fun legs => teardown_connection (fst <$> map_to_list legs) legs cid)) (fun _ _ => True) w.
Proof.
  apply safe_routing; [|done]. intros legs k leg1 Hl.
  pose proof (lookup_weaken _ _ _ _ Hl (teardown_keys_sub _ _)). eauto 10.
Qed.
#[local] Hint Resolve safe_open_stream safe_lookup_route safe_close_leg safe_teardown_pair
  safe_teardown_connection safe_watch : relay.

Lemma safe_forward cid sid lid n build w : rsafe (forward_routed cid sid lid n build) (fun _ _ => True) w.
Proof. unfold forward_routed. repeat rstep. quiet. Qed.
#[local] Hint Resolve safe_forward : relay.

Lemma safe_dispatch_frame st reg lid f w :
  knows (reg_connection reg) lid w -> rsafe (dispatch_frame st reg lid f) (fun _ _ => True) w.
Proof.
  intros Hk. destruct f; unfold dispatch_frame; try (repeat rstep; fail).
  eapply (safe_bind _ _ _ _ (fun _ _ => True)); [by eauto with relay|intros a w1 H1 _; cbn beta].
  eapply (safe_bind _ _ _ _ (fun _ _ => True)); [|by intros].
  apply safe_watch. by eapply knows_stable.
Qed.

Lemma safe_dispatch_loop st reg lid inputs w :
  knows (reg_connection reg) lid w -> rsafe (dispatch_loop st reg lid inputs) (fun _ _ => True) w.
Proof.
  revert w. induction inputs as [|[|[f|]] inputs IH]; intros w Hk; simpl; try done.
  - quiet.
  - eapply (safe_bind _ _ _ _ (fun _ _ => True)); [by apply safe_dispatch_frame|intros [] w1 H1 _]; [|done].
    apply IH. by eapply knows_stable.
Qed.

Lemma safe_close_peers peers w : rsafe (close_peers peers) (fun _ _ => True) w.
Proof. revert w. induction peers as [|[]]; intros w; simpl; repeat rstep. Qed.

Lemma safe_evict out w : rsafe (evict out) (fun _ _ => True) w.
Proof. revert w. induction out as [|[]]; intros w; simpl; repeat rstep. Qed.
#[local] Hint Resolve safe_close_peers safe_evict : relay.

Lemma safe_epilogue reg w : rsafe (epilogue reg) (fun _ _ => True) w.
Proof. unfold epilogue. repeat rstep. Qed.

Lemma safe_run_link st lid fp first inputs w : rsafe (run_link st lid fp first inputs) (fun _ _ => True) w.
Proof.
  unfold run_link. eapply (safe_bind relay_inv evolves); [apply safe_spawn_link|intros u w1 H1 Hfp; cbn beta].
  eapply (safe_bind relay_inv evolves); [by apply safe_register_link|intros [reg|] w2 H2 Hk; [|done]].
  eapply (safe_bind _ _ _ _ (fun _ _ => True)); [by apply safe_dispatch_loop|intros; apply safe_epilogue].
Qed.

Lemma safe_task st p w : relay_task st p -> rsafe p (fun _ _ => True) w.
Proof.
  intros [lid fp first inputs|body| |rfp fp pem first|now un].
  - apply safe_run_link.
  - repeat rstep.
  - unfold sweep. repeat rstep.
  - eapply (safe_bind _ _ _ _ (fun _ _ => True)); [|by intros].
    unfold run_enrollment_connection. destruct first as [[f|]|]; try done. quiet.
  - unfold tick. quiet.
Qed.

(** ** Every execution *)

(** The states a relay can reach: tasks start at any time and take their
    actions in any order, and a link's egress does what its own tasks do,
    whatever that is. *)
Inductive relay_reach (st : settings) : relay E -> list (prog (relay E) unit) -> Prop :=
| reach_init now unix_now d tks : relay_reach st (new_relay now unix_now d tks) []
| reach_start w tasks p : relay_reach st w tasks -> relay_task st p -> relay_reach st w (tasks ++ [p])
| reach_step w tasks i w1 tasks1 :
    relay_reach st w tasks -> pool_step i w tasks = Some (w1, tasks1) -> relay_reach st w1 tasks1
| reach_egress w tasks lid l e :
    relay_reach st w tasks -> links w !! lid = Some l -> relay_reach st (queue_on w lid l e) tasks.

Lemma relay_reach_inv st w tasks :
  relay_reach st w tasks -> relay_inv w /\ Forall (fun p => rsafe p (fun _ _ => True) w) tasks.
Proof.
  induction 1 as [now un d tks|w tasks p _ [HI Hs] Ht|w tasks i w1 tasks1 _ [HI Hs] Hp|w tasks lid l e _ [HI Hs] Hl].
  - split; [|done]. split; [done|]. intros _. split; simpl; try done.
    by intros cid [c Hc].
  - split; [done|]. apply Forall_app. split; [done|]. constructor; [by eapply safe_task|done].
  - destruct (pool_step_safe relay_inv evolves _ _ _ _ _ HI Hs Hp) as (? & _ & ?). done.
  - destruct (keeps_inv _ _ (keeps_queue w lid l e Hl) HI) as [HI1 Hev]. split; [done|].
    eapply Forall_impl; [exact Hs|]. intros p. by apply (safe_mono relay_inv evolves).
Qed.

(** C6. Identities are authentic in every execution: whatever links,
    administration requests, sweeps and enrollments run, and however their
    actions interleave, as long as fewer than 2^64 registrations happened, a
    node id is registered only by a link whose certificate has that
    fingerprint, no connection id names two entries, and every route and
    every watch leads to the queue of the link that registered the
    connection it names. *)
Theorem relay_identities_are_authentic st w tasks :
  relay_reach st w tasks -> registrations (table w) <= 2 ^ 64 ->
  (forall n e, entries (table w) !! n = Some e ->
     exists l, links w !! outbound e = Some l /\ eq_ignore_ascii_case n (fingerprint l) = true) /\
  (forall n1 n2 e1 e2, entries (table w) !! n1 = Some e1 -> entries (table w) !! n2 = Some e2 ->
     entry_id e1 = entry_id e2 -> n1 = n2) /\
  (forall k leg, routing w !! k = Some leg ->
     exists c, cells (table w) !! connection_id (peer leg) = Some c /\ owner c = peer_outbound leg) /\
  (forall target m cid lid, watchers w !! target = Some m -> m !! cid = Some lid ->
     exists c, cells (table w) !! cid = Some c /\ owner c = lid).
Proof.
  intros Hr Hw. destruct (relay_reach_inv _ _ _ Hr) as [[_ Hwf] _].
  destruct (Hwf Hw) as [We Wu Wc Wl Ww]. split_and!; [|done..].
  intros n e He. apply (We n e He).
Qed.

End safety.

(** ** Witness *)

Lemma relay_reach_run {E} {HE : Egress E} {HT : RustText} {HC : TokenCodec} {HJ : AdminJson}
    st schedule (w : relay E) tasks w1 tasks1 :
  relay_reach st w tasks -> pool_run schedule w tasks = Some (w1, tasks1) -> relay_reach st w1 tasks1.
Proof.
  revert w tasks. induction schedule as [|i schedule IH]; intros w tasks Hr Hp; simpl in Hp; simplify_eq; [done|].
  destruct (pool_step i w tasks) as [[w2 tasks2]|] eqn:Hi; [|done].
  eapply IH; [|exact Hp]. by eapply reach_step.
Qed.

#[local] Existing Instance plain_codec.
#[local] Existing Instance plain_json.

(** Two nodes register and one opens a stream to the other. *)
Definition two_links : list (prog (relay scheduler) unit) :=
  [run_link plain_settings 1 "ab" (Some (Ok (FRegister "AB"))) [Read (Ok (FOpenStream 1 "cd"))];
   run_link plain_settings 2 "cd" (Some (Ok (FRegister "cd"))) []].

Definition two_links_schedule : list nat := replicate 6 1%nat ++ replicate 12 0%nat.

Definition fresh_relay : relay scheduler := new_relay 0 0 no_files ∅.

Definition relay_shape (r : option (relay scheduler * list (prog (relay scheduler) unit)))
    : option (Z * Z * Z) :=
  match r with
  | Some (w, _) => Some (table_len (table w), stream_count (routing w), registrations (table w))
  | None => None
  end.

Lemma relay_identities_are_authentic_witness :
  exists w : relay scheduler,
    table_len (table w) = 2 /\ stream_count (routing w) = 1 /\
    (forall n e, entries (table w) !! n = Some e ->
       exists l, links w !! outbound e = Some l /\ eq_ignore_ascii_case n (fingerprint l) = true).
Proof.
  assert (relay_shape (pool_run two_links_schedule fresh_relay two_links) = Some (2, 1, 2)) as Hs
    by (vm_compute; reflexivity).
  destruct (pool_run two_links_schedule fresh_relay two_links) as [[w tasks]|] eqn:Hp; [|discriminate Hs].
  injection Hs as H1 H2 H3. exists w. split; [exact H1|]. split; [exact H2|].
  assert (relay_reach plain_settings fresh_relay two_links) as Hr.
  { apply (reach_start plain_settings fresh_relay [run_link plain_settings 1 "ab" _ _]); [|constructor].
    apply (reach_start plain_settings fresh_relay []); [|constructor]. apply reach_init. }
  assert (registrations (table w) <= 2 ^ 64) as Hw by (rewrite H3; lia).
  exact (proj1 (relay_identities_are_authentic plain_settings w tasks
                  (relay_reach_run _ _ _ _ _ _ Hr Hp) Hw)).
Defined.
