(* ===== verification/RelayPaths.v ===== *)
(** * RelayPaths: what the handlers do, run to completion

    Functional correctness of the routing and administration handlers when
    no other task intervenes: forwarding, admission, revocation. *)

From S2P Require Import Prelude Bytes Frame Text Scheduler Routing Capacity ConnectionTable.
From S2P Require Import Presence Enrollment Tasks Relay Admin RelayLink.

Section paths.
Context {E : Type} {HE : Egress E} {HT : RustText} {HC : TokenCodec} {HJ : AdminJson}.
Implicit Types w : relay E.

(** The loop's treatment of a run of frames. *)
Fixpoint dispatch_frames (st : settings) (reg : RegisteredLink) (lid : ingress) (fs : list frame)
    : prog (relay E) bool :=
  match fs with
  | [] => Ret true
  | f :: fs =>
      let! go_on := dispatch_frame st reg lid f in
      if go_on : bool then dispatch_frames st reg lid fs else Ret false
  end.

(** The meter after the payloads went through. *)
Definition metered (now : Z) (ps : list (list byte)) (m : UsageMeter) : UsageMeter :=
  fold_left (fun m p => if 0 <? len p then record now (len p) m else m) ps m.

Definition after_forwarding w (lid : ingress) (l : link E) (e : E) (m : UsageMeter) : relay E :=
  set_meter (queue_on w lid l e) m.

(** The state after an admission decision: only the meter's window moved. *)
Definition decided w (st : settings) : relay E :=
  set_meter w (snd (admit_open (clock w) (caps st) (stream_count (routing w)) (meter w))).

(** The refusal an admission decision stands for. *)
Definition refusal (a : OpenAdmission) : option (RelayErrorCode * string) :=
  match a with
  | Allow => None
  | StreamsFull => Some (StreamCapacity, "relay is at max_streams capacity")
  | ThroughputTooHigh => Some (ThroughputExceeded, "relay forwarded-throughput threshold exceeded")
  end.

(** Posting frames changes queues only. *)
Definition only_queues w w1 : Prop :=
  table w1 = table w /\ routing w1 = routing w /\ watchers w1 = watchers w /\ tokens w1 = tokens w
  /\ disk w1 = disk w.

(** The owner's removal of [fp], and a registered node's request for it. *)
Definition removal (st : settings) (fp : string) w : option (AdminResponse * relay E) :=
  run (handle_remove st fp) w.
Definition remote_removal (st : settings) (node_id : string) (cid : Z) (fp : string) w
    : option (AdminResponse * relay E) :=
  run (handle_remote_admin_request st node_id cid (RRemove fp)) w.

#[local] Arguments dispatch_frame : simpl never.

Lemma send_ok w lid l f e :
  links w !! lid = Some l -> offer (egress l) f = Ok e ->
  run (send lid f) w = Some (true, queue_on w lid l e).
Proof. intros Hl Ho. unfold send. by rewrite run_act, Hl, Ho. Qed.

Lemma forward_step st reg lid sid leg l p e w :
  lookup_route (routing w) {| connection_id := reg_connection reg; stream_id := sid |} = LookupOpen leg ->
  links w !! peer_outbound leg = Some l ->
  offer (egress l) (FData (stream_id (peer leg)) p) = Ok e ->
  run (dispatch_frame st reg lid (FData sid p)) w =
    Some (true, after_forwarding w (peer_outbound leg) l e
                  (metered (clock w) [p] (meter w))).
Proof.
  intros Hr Hl Ho. unfold dispatch_frame, forward_routed. autorewrite with run. simpl. rewrite Hr.
  replace (set_routing w (routing w)) with w by (by destruct w).
  rewrite run_bind, (send_ok _ _ _ _ _ Hl Ho). unfold metered. simpl.
  by destruct (0 <? len p).
Qed.

(** C18. Routed data arrives complete and in order: as long as the peer's
    egress has room, the [Data] frames a node sends on an open route are all
    queued on the peer's link, under the peer's stream id, once each and in
    the order sent, behind what was queued before; no other link's queue, no
    other stream, no control frame, no table and no route changes, and the
    meter counts the payloads. *)
Theorem data_is_forwarded_in_order st reg lid sid leg l ps e w :
  lookup_route (routing w) {| connection_id := reg_connection reg; stream_id := sid |} = LookupOpen leg ->
  links w !! peer_outbound leg = Some l ->
  offer_all (egress l) (map (FData (stream_id (peer leg))) ps) = Some e ->
  run (dispatch_frames st reg lid (map (FData sid) ps)) w =
    Some (true, after_forwarding w (peer_outbound leg) l e (metered (clock w) ps (meter w))) /\
  accepted_bulk (stream_id (peer leg)) e
    = accepted_bulk (stream_id (peer leg)) (egress l) ++ map (FData (stream_id (peer leg))) ps /\
  (forall other, other <> stream_id (peer leg) -> accepted_bulk other e = accepted_bulk other (egress l)) /\
  accepted_control e = accepted_control (egress l).
Proof.
  intros Hr Hl Ho. split.
  - revert w l Hr Hl Ho. induction ps as [|p ps IH]; intros w l Hr Hl Ho; simpl in Ho.
    { simplify_eq. simpl. f_equal. f_equal. unfold after_forwarding, queue_on, set_links. simpl.
      rewrite insert_id; [by destruct w|]. by destruct l. }
    destruct (offer (egress l) _) as [e1|] eqn:E1; [|done]. simpl map. simpl dispatch_frames.
    rewrite run_bind, (forward_step _ _ _ _ _ _ _ _ _ Hr Hl E1).
    rewrite (IH _ {| fingerprint := fingerprint l; egress := e1 |}); [|done|by simpl; rewrite lookup_insert_eq|done].
    f_equal. f_equal. unfold after_forwarding, queue_on, set_links, set_meter. simpl.
    by rewrite insert_insert_eq.
  - destruct (offer_all_accepts _ _ _ Ho) as [Hb Hc].
    assert (forall y other, of_stream other (map (FData y) ps)
                            = if decide (other = y) then map (FData y) ps else []) as Hof.
    { intros y other. unfold of_stream. clear. induction ps as [|p ps IH]; [by case_decide|].
      simpl map. rewrite filter_cons, IH. simpl. repeat case_decide; naive_solver. }
    split_and!.
    + by rewrite Hb, Hof, decide_True.
    + intros other Hne. by rewrite Hb, Hof, decide_False, app_nil_r by done.
    + rewrite Hc, controls_bulk; [by rewrite app_nil_r|]. apply Forall_map. by apply Forall_true.
Qed.

Lemma stream_error_ok w lid l sid code msg e :
  links w !! lid = Some l -> offer (egress l) (FError sid (code_wire_value code) msg) = Ok e ->
  run (send_stream_error lid sid code msg) w = Some (tt, queue_on w lid l e).
Proof. intros Hl Ho. unfold send_stream_error. by rewrite run_bind, (send_ok _ _ _ _ _ Hl Ho). Qed.

Lemma open_stream_admission st sid target n cid lid t w :
  sid mod 2 <> 0 -> lookup_node (table w) target = Some t ->
  run (handle_open_stream st sid target n cid lid) w =
  match refusal (fst (admit_open (clock w) (caps st) (stream_count (routing w)) (meter w))) with
  | Some (code, msg) =>
      match run (send_stream_error lid sid code msg) (decided w st) with
      | Some (_, w1) => Some (true, w1)
      | None => None
      end
  | None =>
      match alloc_relay_stream (target_connection t) (table w) with
      | None => None
      | Some (id, tb) =>
          let '(fwd, legs) := open_route (routing w) {| connection_id := cid; stream_id := sid |}
                                (target_connection t) id (target_outbound t) lid in
          match run (send (peer_outbound fwd) (FOpenStream id n))
                    (set_routing (set_table (decided w st) tb) legs) with
          | Some (true, w1) => Some (true, w1)
          | Some (false, w1) =>
              match run (send_stream_error lid sid TargetUnknown "target link closed during open") w1 with
              | Some (_, w2) => Some (true, w2)
              | None => None
              end
          | None => None
          end
      end
  end.
Proof.
  intros Hodd Ht. unfold handle_open_stream. apply Z.eqb_neq in Hodd. rewrite Hodd. unfold decided.
  rewrite run_bind, run_reading, Ht, run_bind, run_reading, run_bind, run_act.
  destruct (admit_open _ _ _ _) as [[] m]; simpl; [|by rewrite run_bind..].
  rewrite run_bind, run_act. simpl. destruct (alloc_relay_stream _ _) as [[id tb]|]; [|done]. simpl.
  rewrite run_bind, run_on_routing. simpl. rewrite run_bind.
  match goal with |- context [run (send ?a ?b) ?c] => destruct (run (send a b) c) as [[[] w1]|] end;
    rewrite ?run_bind; done.
Qed.

(** C31. Opening a stream is decided by the capacity and then done in full:
    when the relay admits the request, which implies it is below its stream
    limit, both legs of a new route are in place and open, the route count
    grows by one and stays within the limit, the target's next relay id
    advances by two and the target is sent an [OpenStream] naming the
    requester's registered id; when it refuses, the requester is told why
    and no table, route or other link changes. *)
Theorem open_stream_respects_capacity st sid target n cid lid t c w :
  let legs := routing w in
  let from := {| connection_id := cid; stream_id := sid |} in
  let to := {| connection_id := target_connection t; stream_id := next_relay_stream c |} in
  let admission := fst (admit_open (clock w) (caps st) (stream_count legs) (meter w)) in
  sid mod 2 <> 0 -> lookup_node (table w) target = Some t ->
  cells (table w) !! target_connection t = Some c ->
  routes_reach legs -> fresh_open legs (RouteOpen from to (target_outbound t) lid) ->
  (admission = Allow -> forall l e, links w !! target_outbound t = Some l ->
     offer (egress l) (FOpenStream (next_relay_stream c) n) = Ok e ->
     exists w1, run (handle_open_stream st sid target n cid lid) w = Some (true, w1) /\
       lookup_route (routing w1) from
         = LookupOpen {| peer := to; peer_outbound := target_outbound t; closed := false |} /\
       lookup_route (routing w1) to
         = LookupOpen {| peer := from; peer_outbound := lid; closed := false |} /\
       stream_count (routing w1) = stream_count legs + 1 /\
       stream_count (routing w1) <= max_streams (caps st) /\
       next_relay_stream <$> cells (table w1) !! target_connection t
         = Some (wrap 32 (next_relay_stream c + 2)) /\
       links w1 = <[target_outbound t := {| fingerprint := fingerprint l; egress := e |}]> (links w)) /\
  (forall code msg, refusal admission = Some (code, msg) -> forall l e, links w !! lid = Some l ->
     offer (egress l) (FError sid (code_wire_value code) msg) = Ok e ->
     run (handle_open_stream st sid target n cid lid) w = Some (true, queue_on (decided w st) lid l e)).
Proof.
  intros legs from to admission Hodd Ht Hc Hr (Hf & Hto & Hne).
  rewrite (open_stream_admission _ _ _ _ _ _ _ _ Hodd Ht). fold legs admission. split.
  - intros Ha l e Hl Ho. rewrite Ha. simpl refusal. unfold alloc_relay_stream. rewrite Hc. cbn -[send].
    erewrite send_ok by (simpl; done). eexists. split; [done|]. simpl. fold legs from to.
    pose proof (routes_step legs (RouteOpen from to (target_outbound t) lid) Hr (conj Hf (conj Hto Hne))) as Hr1.
    pose proof (routes_even _ Hr) as E0. pose proof (routes_even _ Hr1) as E1. simpl in E1. fold to in E1.
    rewrite !map_size_insert_None in E1 by (try done; by rewrite lookup_insert_ne).
    assert (stream_count legs < max_streams (caps st)) as Hlt.
    { unfold admission, admit_open in Ha. destruct (Z.leb_spec (max_streams (caps st)) (stream_count legs)); [done|lia]. }
    unfold lookup_route. rewrite lookup_insert_eq, lookup_insert_ne, lookup_insert_eq by done. simpl.
    rewrite lookup_insert_eq. split_and!; try done; lia.
  - intros code msg Ha l e Hl Ho. rewrite Ha. by rewrite (stream_error_ok _ _ l _ _ _ e).
Qed.

Lemma run_post lid f w : exists w1, run (post lid f) w = Some (tt, w1) /\ only_queues w w1.
Proof.
  unfold post. rewrite run_act. destruct (links w !! lid) as [l|]; [|by exists w].
  destruct (offer (egress l) f); eexists; by split.
Qed.

Lemma run_post_all lids f w : exists w1, run (post_all lids f) w = Some (tt, w1) /\ only_queues w w1.
Proof.
  revert w. induction lids as [|lid lids IH]; intros w; simpl; [by exists w|].
  rewrite run_bind. destruct (run_post lid f w) as (w1 & -> & H1). destruct (IH w1) as (w2 & -> & H2).
  exists w2. split; [done|]. unfold only_queues in *. naive_solver congruence.
Qed.

Lemma run_publish n b w : exists w1, run (publish n b) w = Some (tt, w1) /\ only_queues w w1.
Proof. unfold publish. rewrite run_bind, run_reading. apply run_post_all. Qed.

Lemma run_retire n code w :
  exists w1, run (retire_notifying n code) w = Some (bool_decide (is_Some (entries (table w) !! n)), w1) /\
    entries (table w1) = delete n (entries (table w)) /\
    signalled (table w1) = match entries (table w) !! n with
                           | Some e => {[ entry_id e ]} ∪ signalled (table w)
                           | None => signalled (table w)
                           end /\ disk w1 = disk w.
Proof.
  unfold retire_notifying. rewrite run_bind, run_on_table. simpl.
  destruct (entries (table w) !! n) as [e|] eqn:He.
  - rewrite run_bind. edestruct (run_post (outbound e)) as (w1 & -> & (Ht & _ & _ & _ & Hd)).
    rewrite run_bind, run_on_table. simpl. rewrite Ht. eexists. split; [done|]. simpl. by rewrite Hd.
  - eexists. split; [done|]. done.
Qed.

(** The whole effect of a removal. *)
Lemma run_remove st fp w :
  exists r w1, run (handle_remove st fp) w = Some (r, w1) /\
    match remove_authorized_node (whitelist_dir st) fp (disk w) with
    | Err e => w1 = w /\ ok r = false
    | Ok (b, d) =>
        ok r = true /\ disk w1 = d /\
        entries (table w1) = delete (to_lowercase fp) (entries (table w)) /\
        signalled (table w1) = match entries (table w) !! to_lowercase fp with
                               | Some e => {[ entry_id e ]} ∪ signalled (table w)
                               | None => signalled (table w)
                               end
    end.
Proof.
  unfold handle_remove. rewrite run_bind, run_act.
  destruct (remove_authorized_node _ _ _) as [[b d]|e]; [|by eauto].
  rewrite run_bind. edestruct run_retire as (w1 & -> & He & Hs & Hd). simpl in *. rewrite run_bind.
  case_bool_decide.
  - edestruct run_publish as (w2 & -> & (Ht & _ & _ & _ & Hd2)). eexists _, w2.
    split; [done|]. by rewrite Ht, Hd2, He, Hs, Hd.
  - eexists _, w1. split; [done|]. by rewrite He, Hs, Hd.
Qed.

(** Revocation misses a node that registered in another case: the relay
    accepts a [Register] whose id equals the certificate's fingerprint up to
    case and files the link under the id as sent, but a removal looks under
    the lower-cased fingerprint, so the revoked node stays registered, its
    link is not told to retire, and it can still be reached. *)
Theorem revocation_misses_other_case st n fp e w :
  entries (table w) !! n = Some e -> eq_ignore_ascii_case n fp = true -> n <> to_lowercase fp ->
  (forall n1 e1, entries (table w) !! n1 = Some e1 -> entry_id e1 = entry_id e -> n1 = n) ->
  exists r w1, removal st fp w = Some (r, w1) /\
    entries (table w1) !! n = Some e /\
    lookup_node (table w1) n = lookup_node (table w) n /\
    (entry_id e ∈ signalled (table w1) -> entry_id e ∈ signalled (table w)).
Proof.
  intros He Hcase Hne Hun. destruct (run_remove st fp w) as (r & w1 & Hrun & Hw).
  exists r, w1. split; [done|]. unfold lookup_node.
  destruct (remove_authorized_node _ _ _) as [[b d]|]; [|by destruct Hw as [-> _]].
  destruct Hw as (_ & _ & Hes & Hsig). rewrite Hes, lookup_delete_ne by done. split_and!; [done..|].
  rewrite Hsig. destruct (entries (table w) !! to_lowercase fp) as [e1|] eqn:E1; [|done].
  intros [Hin%elem_of_singleton|]%elem_of_union; [|done]. by specialize (Hun _ _ E1 (eq_sym Hin)).
Qed.

(** A registered node can delete any file the relay can: the
    fingerprint of a remove request is joined to the whitelist directory
    unchecked, and joining an absolute path replaces the directory, so the
    request removes the file at that path and reports success. *)
Theorem remove_request_deletes_any_file st node_id cid path body w :
  starts_with "/" path = true -> to_lowercase path = path ->
  files (disk w) !! path = Some body -> io_fault (disk w) !! path = None ->
  exists r w1,
    remote_removal st node_id cid path w = Some (r, w1) /\
    ok r = true /\ files (disk w1) = delete path (files (disk w)).
Proof.
  intros Habs Hlow Hf Hio. destruct (run_remove st path w) as (r & w1 & Hrun & Hw).
  unfold remove_authorized_node, path_join, fs_remove, guard_io in Hw. rewrite Hlow, Habs, Hio, Hf in Hw.
  destruct Hw as (Hok & Hd & _). exists (message_envelope r), w1. split_and!.
  - unfold remote_removal. simpl. by rewrite run_bind, Hrun.
  - done.
  - by rewrite Hd.
Qed.

End paths.

(** ** Witnesses *)

#[local] Existing Instance plain_codec.
#[local] Existing Instance plain_json.

Definition idle_link (fp : string) : link scheduler :=
  {| fingerprint := fp; egress := Scheduler.spawn default_config |}.

(** Links 10 and 20 are registered as connections 1 and 2, the first under an
    upper-case id, and streams are routed between them. *)
Definition demo_table : RelayConnectionTable :=
  {| entries := {[ "AB" := {| entry_id := 1; outbound := 10; labels := [] |};
                   "cd" := {| entry_id := 2; outbound := 20; labels := [] |} ]};
     registrations := 3;
     cells := {[ 1 := {| last_seen := 0; next_relay_stream := 2; owner := 10 |};
                 2 := {| last_seen := 0; next_relay_stream := 6; owner := 20 |} ]};
     signalled := ∅ |}.

Definition demo_relay : relay scheduler :=
  {| table := demo_table; routing := two_routes; watchers := ∅; meter := new_meter 0; tokens := ∅;
     disk := with_files no_files {[ "/etc/passwd" := "root" ]};
     links := {[ 10 := idle_link "ab"; 20 := idle_link "cd" ]}; events := []; clock := 0; unix := 0;
     stopping := false |}.

Definition demo_reg : RegisteredLink := {| reg_node_id := "AB"; reg_connection := 1 |}.

Lemma data_is_forwarded_in_order_witness :
  exists w1 : relay scheduler,
    run (dispatch_frames plain_settings demo_reg 10 (map (FData 1) [[x61]; [x62]])) demo_relay
    = Some (true, w1).
Proof.
  destruct (offer_all (Scheduler.spawn default_config) (map (FData 2) [[x61]; [x62]])) as [e|] eqn:He;
    [|exfalso; revert He; vm_compute; discriminate].
  eexists. exact (proj1 (data_is_forwarded_in_order plain_settings demo_reg 10 1 forward_leg
    (idle_link "cd") [[x61]; [x62]] e demo_relay eq_refl eq_refl He)).
Defined.

Lemma open_stream_respects_capacity_witness :
  exists w1 : relay scheduler,
    run (handle_open_stream plain_settings 5 "cd" "AB" 1 10) demo_relay = Some (true, w1)
    /\ stream_count (routing w1) = 3.
Proof.
  destruct (offer (Scheduler.spawn default_config) (FOpenStream 6 "AB")) as [e|] eqn:He;
    [|exfalso; revert He; vm_compute; discriminate].
  destruct (open_stream_respects_capacity plain_settings 5 "cd" "AB" 1 10
    {| target_connection := 2; target_outbound := 20 |}
    {| last_seen := 0; next_relay_stream := 6; owner := 20 |} demo_relay) as [H _].
  - discriminate.
  - reflexivity.
  - reflexivity.
  - exact two_routes_reach.
  - split; [|split]; [reflexivity|reflexivity|discriminate].
  - destruct (H eq_refl (idle_link "cd") e eq_refl He) as (w1 & Hrun & _ & _ & Hc & _).
    exists w1. split; [exact Hrun|]. rewrite Hc. reflexivity.
Defined.

Lemma revocation_misses_other_case_witness :
  exists r (w1 : relay scheduler),
    removal plain_settings "ab" demo_relay = Some (r, w1)
    /\ bool_decide (is_Some (entries (table w1) !! "AB")) = true.
Proof.
  destruct (revocation_misses_other_case plain_settings "AB" "ab"
    {| entry_id := 1; outbound := 10; labels := [] |} demo_relay) as (r & w1 & Hrun & He & _).
  - reflexivity.
  - reflexivity.
  - discriminate.
  - intros n1 e1 H1 Hid. apply elem_of_map_to_list in H1.
    change (map_to_list (entries (table demo_relay)))
      with (map_to_list (entries demo_table)) in H1.
    vm_compute (map_to_list (entries demo_table)) in H1.
    repeat (apply elem_of_cons in H1 as [H1|H1]; [injection H1 as -> ->; try reflexivity; discriminate Hid|]).
    by apply not_elem_of_nil in H1.
  - exists r, w1. split; [exact Hrun|]. rewrite He. reflexivity.
Defined.

Lemma remove_request_deletes_any_file_witness :
  exists r (w1 : relay scheduler),
    remote_removal plain_settings "cd" 2 "/etc/passwd" demo_relay = Some (r, w1)
    /\ files (disk w1) = ∅.
Proof.
  destruct (remove_request_deletes_any_file plain_settings "cd" 2 "/etc/passwd" "root" demo_relay)
    as (r & w1 & Hrun & _ & Hf); [reflexivity..|].
  exists r, w1. split; [exact Hrun|]. rewrite Hf. reflexivity.
Defined.
