(* ===== verification/RelayRaces.v ===== *)
(** * RelayRaces: executions in which the relay's parts work against each other

    Concrete executions of the relay, with the scheduler as every link's
    egress: a half-closed stream, and two interleavings of link tasks. *)

From S2P Require Import Prelude Bytes Frame MuxStream MuxConnection Text Scheduler Routing.
From S2P Require Import Capacity ConnectionTable Presence Enrollment Tasks Relay Admin RelayLink.
From S2P Require Import RelaySafety RelayPaths.

#[local] Existing Instance plain_codec.
#[local] Existing Instance plain_json.

(** ** A grant after a half-close *)

Definition full_chunk : list byte := replicate (Z.to_nat MAX_FRAME_PAYLOAD) x61.

(** A node opens stream 1 to "cd", shuts its direction down, and reads eight
    full frames of the answer. *)
Definition half_closed_node : MuxConnection :=
  conn_run (spawn_relay_link 16)
    ([EvOpenTo "cd"; EvShutdown 1 0]
     ++ concat (replicate 8 [EvFrame (FData 1 full_chunk); EvRead 1 0 (length full_chunk)])).

(** The relay between that node (link 10) and its peer (link 20). *)
Definition relay_between : relay scheduler := set_routing demo_relay ∅.
Definition peer_reg : RegisteredLink := {| reg_node_id := "cd"; reg_connection := 2 |}.

(** The relay after the node's frames and then a frame of the peer. *)
Definition relay_after_grant : option (relay scheduler) :=
  match run (dispatch_frames plain_settings demo_reg 10
               (MuxStream.outbound (MuxConnection.shared half_closed_node))) relay_between with
  | Some (true, w) =>
      match run (dispatch_frames plain_settings peer_reg 20 [FData 6 [x62]]) w with
      | Some (true, w1) => Some w1
      | _ => None
      end
  | _ => None
  end.

Definition taken (w : relay scheduler) (lid sid : Z) : option (list frame * list frame) :=
  (fun l => (accepted_control (egress l), accepted_bulk sid (egress l))) <$> links w !! lid.

(** ** Link tasks *)

(** Node "ef" watches "ab"; "ab" loses its link and reconnects on link 2. *)
Definition reconnect_tasks : list (prog (relay scheduler) unit) :=
  [run_link plain_settings 1 "ab" (Some (Ok (FRegister "ab"))) [Read (Err TruncatedFrame)];
   run_link plain_settings 2 "ab" (Some (Ok (FRegister "ab"))) [];
   run_link plain_settings 3 "ef" (Some (Ok (FRegister "ef"))) [Read (Ok (FWatch "ab"))]].

(** The watcher first, then "ab" registers and is told to watchers; its link
    is lost and its entry removed; link 2 registers and is told; only then
    the first link's task tells that "ab" went offline. *)
Definition reconnect_schedule : list nat :=
  replicate 9 2%nat ++ replicate 8 0%nat ++ replicate 7 1%nat ++ replicate 4 0%nat.

Definition watched (r : option (relay scheduler * list (prog (relay scheduler) unit)))
    : option (bool * list frame) :=
  match r with
  | Some (w, _) => Some (bool_decide (is_Some (lookup_node (table w) "ab")),
                         from_option fst [] (taken w 3 0))
  | None => None
  end.

(** "ab" opens a stream to "cd", whose link is lost at the same time. *)
Definition vanishing_tasks : list (prog (relay scheduler) unit) :=
  [run_link plain_settings 1 "ab" (Some (Ok (FRegister "ab"))) [Read (Ok (FOpenStream 1 "cd"))];
   run_link plain_settings 2 "cd" (Some (Ok (FRegister "cd"))) [Read (Err TruncatedFrame)]].

(** "cd" and "ab" register; "ab" finds its target; the target's task runs to
    its end; "ab" opens the route. *)
Definition vanishing_schedule : list nat :=
  replicate 6 1%nat ++ replicate 7 0%nat ++ replicate 4 1%nat ++ replicate 5 0%nat.

Definition finished (p : prog (relay scheduler) unit) : bool :=
  match p with Ret _ => true | Act _ => false end.

(** Whether the second task ended, whether "cd" is registered, the number of
    routes, and what the first link was told. *)
Definition vanished (r : option (relay scheduler * list (prog (relay scheduler) unit)))
    : option (bool * bool * Z * list frame) :=
  match r with
  | Some (w, tasks) =>
      Some (from_option finished false (tasks !! 1%nat),
            bool_decide (is_Some (lookup_node (table w) "cd")),
            stream_count (routing w), from_option fst [] (taken w 1 0))
  | None => None
  end.

(** ** Claims *)

(** A node that half-closes a stream and goes on reading loses its whole
    link: its next [Window] grant travels in the direction it closed, so the
    relay answers with an error instead of forwarding it, the node drops the
    stream, and the peer's next data, which the relay still forwards, is
    then data on an unknown stream and fails the node's connection. *)
Theorem grant_after_half_close_fails_the_link :
  MuxStream.outbound (MuxConnection.shared half_closed_node)
    = [FOpenStream 1 "cd"; FClose 1; FWindow 1 (128 * 1024)] /\
  dead (MuxConnection.shared half_closed_node) = false /\
  (w ← relay_after_grant; taken w 20 6) = Some ([FOpenStream 6 "AB"], [FClose 6]) /\
  (w ← relay_after_grant; taken w 10 1)
    = Some ([FError 1 3 "stream is closed"], [FData 1 [x62]]) /\
  dead (MuxConnection.shared
    (conn_run half_closed_node [EvFrame (FError 1 3 "stream is closed"); EvFrame (FData 1 [x62])])) = true.
Proof. vm_compute. done. Qed.

(** A reconnect can end in a false offline: the entry's removal and the
    notice of it are separate steps, so a node that registers again between
    the two is online in the table while the last thing its watchers are
    told is that it went offline. *)
Theorem stale_offline_after_reconnect :
  watched (pool_run reconnect_schedule fresh_relay reconnect_tasks)
  = Some (true, [FPresence "ab" false; FPresence "ab" true; FPresence "ab" true; FPresence "ab" false]).
Proof. vm_compute. reflexivity. Qed.

(** A stream opened while its target's link ends is routed to nobody:
    the target's teardown removes the routes it finds before the new one is
    inserted, the route stays although the target's task has ended and its
    entry is gone, and the requester is not told. *)
Theorem open_during_teardown_leaves_a_route :
  vanished (pool_run vanishing_schedule fresh_relay vanishing_tasks) = Some (true, false, 1, []).
Proof. vm_compute. reflexivity. Qed.
